(* ===== verification/_CoqProject ===== *)
-Q . S2P
Prelude.v
CString.v
Numerals.v
Decimals.v
Strob.v
StrobSpec.v
Stored.v
Cplob.v
CplobSpec.v
HardLinks.v
HardLinksSpec.v
Strar.v
StrarSpec.v
Vercmp.v
Pathname.v
PathSpec.v
Escape.v
EscapeSpec.v
Effects.v
Swpath.v
SwpathSpec.v
SwpathLayout.v
SwpathPackage.v
Swuts.v
Swverid.v
SwveridSpec.v
FileMode.v
SysDb.v
SysDbSpec.v
TarNumbers.v
TarNumbersSpec.v
TarHeader.v
TarHeaderSpec.v
FileHdr.v
PaxHeader.v
PaxHeaderSpec.v
TarWrite.v
TarRead.v
TarImage.v
TarWriteSpec.v
TarReadSpec.v
Cpio.v
CpioSpec.v
Defer.v
Member.v
ArchiveSpec.v
MemberSpec.v
CopyOutSpec.v
DeferSpec.v
Sdflt.v
MetaLine.v
Utf8.v
MetaWrite.v
MetaHeader.v
MetaPrint.v
MetaObjects.v
MetaFile.v
MetaSpec.v
MetaHeaderSpec.v
MetaLookup.v
MetaWriteSpec.v
MetaRoundtrip.v
UxfioState.v
Uxfio.v
UxfioTable.v
UxfioObject.v
UxfioMemory.v
UxfioFile.v
UxfioSpec.v
UxfioBlocks.v
UxfioWindow.v
UxfioWindowSpec.v
Options.v
OptionsSpec.v
Events.v
EventLog.v
Swicol.v
EventsSpec.v
SwicolSpec.v
SwicolWait.v
