(* ===== verification/Prelude.v ===== *)
(** * swbis: a verification of its core libraries

    swbis implements the software packaging utilities of POSIX 1387.2: it reads
    and writes package archives (tar and cpio with a catalog in front), parses
    the metadata of packages, and compares software specifications.  The files
    of this development model the C code of swsupplib, which every utility is
    built on, function by function and with the names of the source.

    ** The parts of the program and the files that model them

    - Memory and strings: swsupplib/strob/strob.c (Strob.v, StrobSpec.v), the
      pointer arrays swsupplib/cplob/cplob.c and vplob.c (Cplob.v, CplobSpec.v),
      and the string array swsupplib/misc/strar.c, which is built on both
      (Strar.v, StrarSpec.v).  Every other component keeps its texts in STROB
      objects and its lists in these arrays.
    - Texts: swsupplib/misc/vercmp.c (Vercmp.v); the pathname functions and the
      checks of swsupplib/misc/swlib.c (Pathname.v, PathSpec.v); its escape
      sequences (Escape.v, EscapeSpec.v).
    - Packages: swsupplib/misc/swpath.c, which takes the names of an archive
      apart (Swpath.v, SwpathSpec.v, SwpathLayout.v, SwpathPackage.v);
      swsupplib/misc/swuts.c (Swuts.v); software specifications and version ids
      of swsupplib/misc/swverid.c (Swverid.v, SwveridSpec.v).
    - Archives (swsupplib/taru): mode strings of filemode.c (FileMode.v); the
      user and group caches of otar.c (SysDb.v, SysDbSpec.v); number fields of
      to_oct.c and otar.c (TarNumbers.v, TarNumbersSpec.v); header fields and
      check sum of otar.c, mtar.c and etar.c (TarHeader.v, TarHeaderSpec.v); the
      file header of cpiohdr.h, ahs.c and taru.c (FileHdr.v); extended headers
      of copyout.c and readinheader.c (PaxHeader.v, PaxHeaderSpec.v); the tar
      header writer and reader of otar.c (TarWrite.v, TarRead.v, TarImage.v,
      TarWriteSpec.v, TarReadSpec.v); hard links and virtual inodes of hllist.c
      and porinode.c (HardLinks.v, HardLinksSpec.v); the cpio formats of
      copyout.c, copyinnew.c, copyinold.c and readinheader.c (Cpio.v,
      CpioSpec.v); deferred links of defer.c (Defer.v, DeferSpec.v); and the
      member writer and archive copier of copyout.c that put all of these
      together (Member.v, MemberSpec.v, ArchiveSpec.v, CopyOutSpec.v).
    - Metadata (swsupplib/misc and swsupplib/sw_parse): the lines of parsed
      metadata, swheaderline.c (MetaLine.v, MetaSpec.v); what the parser writes,
      swdef.c, swparse_supp.c, swparse_supp1.c and swlex_supp.c (MetaWrite.v,
      MetaWriteSpec.v), with the check of UTF-8 (Utf8.v); the reader swheader.c:
      iterator and attributes (MetaHeader.v, MetaHeaderSpec.v, MetaLookup.v),
      objects and their specifications (MetaObjects.v), file objects
      (MetaFile.v), printing (MetaPrint.v); the defaults of swsdflt.c (Sdflt.v).
      MetaRoundtrip.v ties the writer to the reader. These functions change one
      image through pointers into it; they are written in the state monad of
      Effects.v.
    - Descriptors (swsupplib/uxfio): uxfio.c gives descriptors from 2000000000
      on, whose data are in a window of memory, in growing memory or in a file,
      over another descriptor of either kind. UxfioState.v has the object, the
      table and the system calls (class Kernel) with the transfers of
      swsupplib/progressmeter/atomicio.c, Uxfio.v the functions; UxfioTable.v
      proves the invariant of the table for every function. UxfioObject.v,
      UxfioMemory.v and UxfioFile.v describe an object in growing memory, and
      UxfioSpec.v states what it promises; UxfioBlocks.v is about blocked
      output, UxfioWindow.v and UxfioWindowSpec.v about the window on a stream.
    - Options: the table of options and the files of defaults of the utilities,
      swsupplib/misc/swextopt.c (Options.v, OptionsSpec.v).  The files, the
      parser of option files, the environment and access are the class
      OptionFiles.
    - Events and tasks: the table of events and the lines that report one,
      swsupplib/misc/swevents.c (Events.v); the lines of the scripts that
      write_log of swprogs/swcommon.c takes apart (EventLog.v); the collation of
      tasks, swsupplib/misc/swicol.c, with the reading of a line of swgp.c
      (Swicol.v).  A script writes lines on a host; EventLog.v hands the events
      among them on, and Swicol.v waits for them and looks them up.  EventsSpec.v
      is about the lines, SwicolSpec.v about the way of an event from the script
      to the task, SwicolWait.v about the wait.  The clock, select, read and
      write are the class Channel.
    A file X.v holds the definitions of a component and XSpec.v its theorems.
    Prelude.v, CString.v (the C library functions on strings), Numerals.v
    (printf and scanf of numbers, device numbers) and Stored.v (bytes at an
    offset) are shared.

    ** How the code is modelled

    - Memory is a list of bytes per object, a pointer into it an offset; every
      access is checked.  [None] in the option monad is a step that ISO C leaves
      undefined (an access outside an object, an unterminated string, a NULL
      pointer that is followed); for the names that the cpio readers leave in an
      object it also stands for a text that is not determined.  [Fatal] is the
      end of the process (exit, abort, SWLIB_ASSERT).
    - malloc and realloc leave junk: the class [Malloc] gives the bytes, the
      class Heap of Strar.v the new address, and no theorem depends on them.
    - int is 32 bits, size_t, unsigned long and uintmax_t are 64 bits;
      conversions are written out ([to_int], [to_size]).
    - A descriptor that is written is the bytes that were written to it, every
      one of them accepted (the descriptors of uxfio.c take what the system
      takes, the one for events of EventLog.v what its write answers); a descriptor that is read is the bytes that are left.
    - The state of uxfio.c is a record: the table, the static variables, errno
      and the state of the system, which the class Kernel changes at every
      system call as it likes; a theorem names what it needs of the descriptor
      below (delivers, takes_bytes). The offsets of uxfio.c are 64 bit numbers
      that are not wrapped, the sizes of transfers are those of an int.
    - What is not in the source or belongs to the system is a parameter: fnmatch,
      the user and group data base (class SysDB) and what an id falls back to
      (nobody), the time, the process id, readlink, and the flag of the
      environment that turns link records off.  The device numbers are those of
      glibc.
    - The SWPATH object and the file header keep the texts of their STROB fields:
      the calls they make on them are the text operations whose meaning is
      proved in StrobSpec.v.  An empty list of attributes and none are the same.

    ** Loops and fuel

    A loop whose length does not follow from a list has fuel.  It is computed
    from the input by the definition itself (the length of the object or text,
    [vsprintf_fuel], source_fuel of PathSpec.v), and theorems say that the
    result is reached, so that it is enough; the readers of archives and the
    copier, which can run for ever, take the number of rounds as an argument,
    and the theorems say for which inputs every number is too small
    (bad_sum_never_ends, copy_of_nothing_never_ends) and for which a stated
    number is enough.  Fuel that is used up is never mistaken for a step that is
    undefined where a theorem says that a loop does not end: the reader and the
    copier answer [inr], the copier with its state, and the computations of
    Effects.v are [Running], with the state they have come to.  The searches of swheader.c have one round for every byte
    of the image, as each line is behind the one before; next_object_never_ends
    says where no number is enough.  In uxfio.c the fuel counts the descriptors
    on top of each other and the rounds of each loop, and the theorems say how
    much is enough, or that none is (seek_behind_never_returns).  The wait for a
    task has one round for every line and one for every byte of a line;
    task_status_returned says how many are enough, silent_task_never_returns
    when none are. Objects are at most 2^28 or 2^30 bytes long where a size is
    computed in an int. to_chars calls itself at most three times; a number has at
    most 64 digits, a decimal one of 64 bits at most 20; swpath_parse_path has
    room for 21 components and ends the process behind them.

    ** What the theorems show

    - Memory safety and refinement of the containers: strob_api_safe,
      strob_text_refinement, vplob_list_refinement, strar_list_refinement.
    - Round trips of the formats: tar_header_roundtrip, cpio_header_roundtrip,
      cpio_archive_roundtrip, pax_header_roundtrip, octal_field_roundtrip,
      swpath_parses_package, swverid_print_open_roundtrip.
    - Accounting and invariants of whole archives: tar_member_accounts,
      copy_out_whole_blocks, archive_trailer, deferred_links_written,
      porinode_identifies_files, catalog_is_one_run.
    - Meaning of parsers and comparisons: swverid_open_parses,
      rpmvercmp_is_segment_order.
    - Errors: what each component answers where it fails, among them the places
      where the code does not do what it means to (long_symlink_refused,
      bad_sum_never_ends, and the Examples of the
      specification files).
    - Metadata: metadata_roundtrip (what the parser writes, the iterator visits,
      line by line, and it stops), single_attribute_value, and
      header_keeps_its_shape, which holds from any state: the operations only
      cut the image into strings, and write no int of a caller but those that are
      lent. utf8_valid_iff_encoded gives the meaning of the
      check of values.
    - Descriptors: descriptors_name_slots holds after any calls and whatever the
      system answers, and covers what the objects know of their descriptors; memfd_implements_file and window_replays_stream refine an
      abstract file and an abstract window; output_in_whole_blocks and
      virtual_end_delivers are about the two services on top.
    - Events: status_reaches_the_task and attribute_reaches_uts follow an event
      through all three files; task_status_returned is about the whole wait, and
      silent_task_never_returns about the limit of time that is not kept.
    - Options: defaults_settle_options says which value every option of the table
      has after a file of defaults was read.

    ** What is not modelled

    Processes, shells and signals (swfork.c, swssh.c, shcmd.c, the pumps of
    swgp.c), the recognition of formats (uinfile.c) and the file system view of
    an archive (swvarfs.c): they are calls of the system with little between
    them.  The decoded package (swi) is filled from that view and from the
    parser.  The scanner and the parser are generated, and the table of keywords
    is theirs.  The catalog of installed software (swicat) and the utilities of
    swprogs mostly assemble shell text for remote hosts.  The list of swacfl.c
    belongs to the converters of foreign formats (topsf.c).  The class library swstructlib is C++;
    rpm, minilzo, getopt, the digests, fnmatch and qsort are vendored.  Printing
    of error messages and freeing of memory are left out everywhere.

    This file holds what all others share: integers of the machine, checked
    arrays, and the tactics. *)

From Stdlib Require Export ZArith Lia Ascii String.
From stdpp Require Export base list numbers option strings sets.
From Stdlib Require Import List.
Export ListNotations.
#[global] Open Scope Z_scope.

(** ** Notations *)

Abbreviation bytes := (list ascii).

(** A C string literal as the list of its bytes (no terminating NUL). *)
Abbreviation L := list_ascii_of_string.

(** Every function that touches memory returns an [option]: [None] is a step
    whose behaviour ISO C leaves undefined (an access outside an object). *)

(** ** Machine integers *)

(** Conversion to a 32-bit [int] (two's complement, as gcc defines it). *)
Definition to_int (z : Z) : Z := (z + 2 ^ 31) mod 2 ^ 32 - 2 ^ 31.

(** Conversion to a 64-bit [size_t] / [uintmax_t]. *)
Definition to_size (z : Z) : Z := z mod 2 ^ 64.

Definition INT_MAX : Z := 2 ^ 31 - 1.

Lemma to_int_id z : - 2 ^ 31 <= z <= INT_MAX -> to_int z = z.
Proof.
  unfold to_int, INT_MAX. intros.
  rewrite Z.mod_small; lia.
Qed.

Lemma to_size_id z : 0 <= z < 2 ^ 64 -> to_size z = z.
Proof. intros. unfold to_size. apply Z.mod_small. lia. Qed.

Lemma to_int_range z : - 2 ^ 31 <= to_int z <= INT_MAX.
Proof.
  unfold to_int, INT_MAX.
  pose proof (Z.mod_pos_bound (z + 2 ^ 31) (2 ^ 32)). lia.
Qed.

Lemma to_size_range z : 0 <= to_size z < 2 ^ 64.
Proof. unfold to_size. apply Z.mod_pos_bound. lia. Qed.

(** ** Tactics *)

(** Split every [if] / [match] of the goal or of a hypothesis on its
    scrutinee, keeping the equation. *)
Ltac case_goal :=
  match goal with
  | |- context [match ?x with _ => _ end] => destruct x eqn:?
  end.

Ltac case_hyp H :=
  match type of H with
  | context [match ?x with _ => _ end] => destruct x eqn:?
  end.

(** Turn boolean comparisons of [Z] into the propositions they decide. *)
Ltac zbool :=
  repeat match goal with
  | H : (_ <=? _) = true |- _ => apply Z.leb_le in H
  | H : (_ <=? _) = false |- _ => apply Z.leb_gt in H
  | H : (_ <? _) = true |- _ => apply Z.ltb_lt in H
  | H : (_ <? _) = false |- _ => apply Z.ltb_ge in H
  | H : (_ =? _) = true |- _ => apply Z.eqb_eq in H
  | H : (_ =? _) = false |- _ => apply Z.eqb_neq in H
  | H : (_ >? _) = _ |- _ => rewrite Z.gtb_ltb in H
  | H : (_ >=? _) = _ |- _ => rewrite Z.geb_leb in H
  | H : (_ && _)%bool = true |- _ => apply andb_true_iff in H; destruct H
  | H : (_ && _)%bool = false |- _ => apply andb_false_iff in H
  | H : (_ || _)%bool = true |- _ => apply orb_true_iff in H
  | H : (_ || _)%bool = false |- _ => apply orb_false_iff in H; destruct H
  | H : negb _ = true |- _ => apply negb_true_iff in H
  | H : negb _ = false |- _ => apply negb_false_iff in H
  end.

(** One step of the option monad. *)
Ltac obind := cbn [mbind option_bind fmap option_fmap option_map].

(** Decide a boolean test of the goal by [lia]. *)
Ltac ztest :=
  repeat match goal with
  | |- context [?a <=? ?b] =>
      first [ rewrite (proj2 (Z.leb_le a b)) by lia
            | rewrite (proj2 (Z.leb_gt a b)) by lia ]
  | |- context [?a <? ?b] =>
      first [ rewrite (proj2 (Z.ltb_lt a b)) by lia
            | rewrite (proj2 (Z.ltb_ge a b)) by lia ]
  | |- context [?a =? ?b] =>
      first [ rewrite (proj2 (Z.eqb_eq a b)) by lia
            | rewrite (proj2 (Z.eqb_neq a b)) by lia ]
  | |- context [?a >? ?b] => rewrite (Z.gtb_ltb a b)
  | |- context [?a >=? ?b] => rewrite (Z.geb_leb a b)
  end; cbn [andb orb negb].

(** ** Lists *)

Section Lists.
Context {A : Type}.
Implicit Types (l k : list A).

(** [Z]-indexed length. *)
Definition zlen l : Z := Z.of_nat (length l).

Lemma zlen_nonneg l : 0 <= zlen l.
Proof. unfold zlen. lia. Qed.

Lemma zlen_app l k : zlen (l ++ k) = zlen l + zlen k.
Proof. unfold zlen. rewrite length_app. lia. Qed.

Lemma zlen_cons x l : zlen (x :: l) = 1 + zlen l.
Proof. unfold zlen. cbn [length]. lia. Qed.

Lemma zlen_nil : zlen (@nil A) = 0.
Proof. reflexivity. Qed.

Lemma zlen_snoc l (x : A) : zlen (l ++ [x]) = zlen l + 1.
Proof. by rewrite zlen_app, zlen_cons, zlen_nil. Qed.

Lemma zlen_insert l i (x : A) : zlen (<[i:=x]> l) = zlen l.
Proof. unfold zlen. by rewrite length_insert. Qed.

Lemma zlen_take (n : nat) l : zlen (take n l) = Z.min (Z.of_nat n) (zlen l).
Proof. unfold zlen. rewrite length_take. lia. Qed.

Lemma zlen_drop (n : nat) l : Z.of_nat n <= zlen l -> zlen (drop n l) = zlen l - Z.of_nat n.
Proof. unfold zlen. rewrite length_drop. lia. Qed.

Lemma zlen_0 l : zlen l = 0 -> l = [].
Proof. destruct l; [done | unfold zlen; cbn [length]; lia]. Qed.

Lemma zlen_nonempty l : l <> [] -> (zlen l =? 0) = false.
Proof. destruct l; [done|]. intros _. apply Z.eqb_neq. unfold zlen. cbn [length]. lia. Qed.

Lemma zlen_replicate n (x : A) : zlen (replicate n x) = Z.of_nat n.
Proof. unfold zlen. by rewrite length_replicate. Qed.
End Lists.

Create Rewrite HintDb swlen.
#[export] Hint Rewrite @zlen_app @zlen_cons @zlen_nil @zlen_replicate : swlen.

Create HintDb strob.
Create HintDb path.

Ltac zl := autorewrite with swlen in *; try lia.

(** ** Checked arrays *)

Section Arrays.
Context {A : Type}.
Implicit Types (l : list A) (i n : Z) (x : A).

(** [l[i]] and [l[i] = x], undefined outside the array. *)
Definition arr_read l i : option A := if 0 <=? i then l !! Z.to_nat i else None.

Definition arr_write l i x : option (list A) :=
  if (0 <=? i) && (i <? zlen l) then Some (<[Z.to_nat i := x]> l) else None.

(** memmove (l + i, l + i + 1, n elements) *)
Definition arr_shift l i n : option (list A) :=
  if (0 <=? i) && (0 <=? n) && (i + 1 + n <=? zlen l)
  then Some (take (Z.to_nat i) l ++ take (Z.to_nat n) (drop (Z.to_nat i + 1) l)
             ++ drop (Z.to_nat i + Z.to_nat n) l)
  else None.

Lemma arr_read_in l i : 0 <= i -> arr_read l i = l !! Z.to_nat i.
Proof. intros. unfold arr_read. by ztest. Qed.

Lemma arr_write_in l i x :
  0 <= i < zlen l -> arr_write l i x = Some (<[Z.to_nat i := x]> l).
Proof. intros. unfold arr_write. by ztest. Qed.

Lemma arr_shift_in l i n :
  0 <= i -> 0 <= n -> i + 1 + n <= zlen l ->
  exists l', arr_shift l i n = Some l' /\ zlen l' = zlen l
    /\ forall j, l' !! j = if decide (i <= Z.of_nat j < i + n) then l !! S j else l !! j.
Proof.
  intros Hi Hn Hl. unfold arr_shift. ztest. eexists. split; [done|]. unfold zlen in *. split.
  { rewrite !length_app, !length_take, !length_drop. lia. }
  intros j. destruct (decide (j < Z.to_nat i)%nat) as [Hj|Hj].
  { rewrite lookup_app_l by (rewrite length_take; lia).
    rewrite decide_False by lia. by apply lookup_take_lt. }
  rewrite lookup_app_r by (rewrite length_take; lia). rewrite length_take.
  destruct (decide _).
  - rewrite lookup_app_l by (rewrite length_take, length_drop; lia).
    rewrite lookup_take_lt, lookup_drop by lia. f_equal. lia.
  - rewrite lookup_app_r by (rewrite length_take, length_drop; lia).
    rewrite length_take, length_drop, lookup_drop. f_equal. lia.
Qed.
End Arrays.
