(* ===== verification/CString.v ===== *)
(** * The C language and library, as far as the sources use it

    Objects in memory are byte lists, a C string is the prefix of an object up
    to its first NUL.  Accesses are checked: reading or writing outside an
    object gives [None].  The functions of <string.h> and <ctype.h> (C locale)
    are defined here once, for every component. *)

From S2P Require Import Prelude.

(** ** Characters *)

Definition NUL : ascii := "000"%char.

(** The value of an [unsigned char], and the conversion of an [int] to it. *)
Definition uchar (c : ascii) : Z := Z.of_N (N_of_ascii c).
Definition to_char (z : Z) : ascii := ascii_of_N (Z.to_N (z mod 256)).

Definition in_range (lo hi : Z) (c : ascii) : bool := (lo <=? uchar c) && (uchar c <=? hi).

(** <ctype.h> in the C locale. *)
Definition isdigit (c : ascii) : bool := in_range 48 57 c.
Definition isupper (c : ascii) : bool := in_range 65 90 c.
Definition islower (c : ascii) : bool := in_range 97 122 c.
Definition isalpha (c : ascii) : bool := isupper c || islower c.
Definition isalnum (c : ascii) : bool := isalpha c || isdigit c.
Definition isspace (c : ascii) : bool := in_range 9 13 c || (uchar c =? 32).

Definition ceq (a b : ascii) : bool := Ascii.eqb a b.
Definition is_nul (c : ascii) : bool := ceq c NUL.

Lemma ceq_eq a b : ceq a b = true <-> a = b.
Proof. apply Ascii.eqb_eq. Qed.

Lemma ceq_neq a b : ceq a b = false <-> a <> b.
Proof. apply Ascii.eqb_neq. Qed.

Lemma ceq_refl a : ceq a a = true.
Proof. by apply ceq_eq. Qed.

Lemma uchar_range c : 0 <= uchar c < 256.
Proof.
  unfold uchar. pose proof (N_ascii_bounded c). lia.
Qed.

Lemma uchar_inj a b : uchar a = uchar b -> a = b.
Proof.
  unfold uchar. intros H%N2Z.inj.
  by rewrite <- (ascii_N_embedding a), <- (ascii_N_embedding b), H.
Qed.

Lemma uchar_to_char z : uchar (to_char z) = z mod 256.
Proof.
  unfold uchar, to_char. pose proof (Z.mod_pos_bound z 256).
  rewrite N_ascii_embedding; lia.
Qed.

Lemma to_char_uchar c : to_char (uchar c) = c.
Proof.
  apply uchar_inj. rewrite uchar_to_char. apply Z.mod_small, uchar_range.
Qed.

(** ** C strings inside an object *)

(** The string at the start of an object. *)
Fixpoint cstr (m : bytes) : bytes :=
  match m with
  | [] => []
  | c :: r => if is_nul c then [] else c :: cstr r
  end.

(** A list of bytes that is the text of a C string: no NUL. *)
Definition no_nul (s : bytes) : Prop := NUL ∉ s.

(** The object holds a NUL, so that its string is terminated. *)
Definition terminated (m : bytes) : bool := existsb is_nul m.

#[global] Instance no_nul_dec s : Decision (no_nul s).
Proof. unfold no_nul. apply _. Defined.

Lemma no_nul_nil : no_nul [].
Proof. apply not_elem_of_nil. Qed.

Lemma no_nul_cons c s : no_nul (c :: s) <-> c <> NUL /\ no_nul s.
Proof. unfold no_nul. rewrite not_elem_of_cons. naive_solver. Qed.

Lemma no_nul_app s t : no_nul (s ++ t) <-> no_nul s /\ no_nul t.
Proof. unfold no_nul. rewrite not_elem_of_app. done. Qed.

Lemma no_nul_take n s : no_nul s -> no_nul (take n s).
Proof. intros H. rewrite <- (take_drop n s) in H. by apply no_nul_app in H as []. Qed.

Lemma no_nul_drop n s : no_nul s -> no_nul (drop n s).
Proof. intros H. rewrite <- (take_drop n s) in H. by apply no_nul_app in H as []. Qed.

Lemma cstr_no_nul m : no_nul (cstr m).
Proof.
  induction m as [|c m IH]; [apply no_nul_nil|].
  cbn [cstr]. unfold is_nul. destruct (ceq c NUL) eqn:E.
  - apply no_nul_nil.
  - apply no_nul_cons. split; [by apply ceq_neq | done].
Qed.

Lemma terminated_app m k : terminated (m ++ k) = terminated m || terminated k.
Proof. apply existsb_app. Qed.

Lemma terminated_nul s r : terminated (s ++ NUL :: r) = true.
Proof. rewrite terminated_app. cbn. by rewrite orb_true_r. Qed.

Lemma no_nul_not_terminated s : no_nul s <-> terminated s = false.
Proof.
  induction s as [|c s IH]; [by split; intros; [|apply no_nul_nil]|].
  rewrite no_nul_cons, IH. cbn. unfold is_nul. rewrite orb_false_iff, ceq_neq. done.
Qed.

Lemma no_nul_compute s : terminated s = false -> no_nul s.
Proof. apply no_nul_not_terminated. Qed.

(** An object with a terminated string splits at its first NUL. *)
Lemma cstr_split m :
  terminated m = true -> m = cstr m ++ NUL :: drop (S (length (cstr m))) m.
Proof.
  induction m as [|c m IH]; [done|].
  cbn. unfold is_nul. destruct (ceq c NUL) eqn:E; cbn.
  - intros _. by apply ceq_eq in E as ->.
  - intros H. f_equal. by apply IH.
Qed.

Lemma cstr_app_nul s r : no_nul s -> cstr (s ++ NUL :: r) = s.
Proof.
  induction s as [|c s IH]; intros H; [done|].
  apply no_nul_cons in H as [Hc Hs]. cbn.
  unfold is_nul. rewrite (proj2 (ceq_neq c NUL) Hc). by rewrite IH.
Qed.

Lemma cstr_app_no_nul s r : no_nul s -> cstr (s ++ r) = s ++ cstr r.
Proof.
  induction s as [|c s IH]; intros H; [done|].
  apply no_nul_cons in H as [Hc Hs]. cbn.
  unfold is_nul. rewrite (proj2 (ceq_neq c NUL) Hc). by rewrite IH.
Qed.

Lemma cstr_id s : no_nul s -> cstr s = s.
Proof. intros H. rewrite <- (app_nil_r s) at 1. rewrite cstr_app_no_nul by done. apply app_nil_r. Qed.

Lemma cstr_app_terminated m k : terminated m = true -> cstr (m ++ k) = cstr m.
Proof.
  intros H. rewrite (cstr_split m H) at 1.
  rewrite <- app_assoc. cbn [app]. apply cstr_app_nul, cstr_no_nul.
Qed.

Lemma cstr_length m : zlen (cstr m) <= zlen m.
Proof.
  induction m as [|c m IH]; cbn; [lia|].
  destruct (is_nul c); rewrite ?zlen_cons, ?zlen_nil; pose proof (zlen_nonneg m); lia.
Qed.

Lemma cstr_length_lt m : terminated m = true -> zlen (cstr m) < zlen m.
Proof.
  intros H. rewrite (cstr_split m H) at 2. rewrite zlen_app, zlen_cons.
  pose proof (zlen_nonneg (drop (S (length (cstr m))) m)). lia.
Qed.

(** ** Checked accesses *)

(** The bytes of [m] from the address [off] on; [None] past the object. *)
Definition mem_at (m : bytes) (off : Z) : option bytes :=
  if (0 <=? off) && (off <=? zlen m) then Some (drop (Z.to_nat off) m) else None.

(** [m[off] .. = bs]. *)
Definition mem_write (m : bytes) (off : Z) (bs : bytes) : option bytes :=
  if (0 <=? off) && (off + zlen bs <=? zlen m)
  then Some (take (Z.to_nat off) m ++ bs ++ drop (Z.to_nat off + length bs) m)
  else None.

(** [m[off]] *)
Definition mem_read (m : bytes) (off : Z) : option ascii :=
  if 0 <=? off then m !! Z.to_nat off else None.

(** memset (m + off, ch, n) *)
Definition memset (m : bytes) (off : Z) (ch : ascii) (n : Z) : option bytes :=
  if n <? 0 then None else mem_write m off (replicate (Z.to_nat n) ch).

(** The string at the address [off] of [m], and its strlen. *)
Definition str_at (m : bytes) (off : Z) : option bytes :=
  p ← mem_at m off; if terminated p then Some (cstr p) else None.

Definition strlen_at (m : bytes) (off : Z) : option Z := zlen <$> str_at m off.

Section Writes.
Implicit Types (m bs : bytes) (off : Z).

Lemma mem_write_in m off bs :
  0 <= off -> off + zlen bs <= zlen m ->
  mem_write m off bs
  = Some (take (Z.to_nat off) m ++ bs ++ drop (Z.to_nat off + length bs) m).
Proof. intros. unfold mem_write. by ztest. Qed.

Lemma mem_write_Some m off bs m' :
  mem_write m off bs = Some m' -> 0 <= off /\ off + zlen bs <= zlen m
  /\ m' = take (Z.to_nat off) m ++ bs ++ drop (Z.to_nat off + length bs) m.
Proof.
  unfold mem_write. case_match; [|done]. zbool. intros [= <-]. auto.
Qed.

Lemma mem_write_length m off bs m' :
  mem_write m off bs = Some m' -> length m' = length m.
Proof.
  intros (H1 & H2 & ->)%mem_write_Some. unfold zlen in *.
  rewrite !length_app, length_take, length_drop. lia.
Qed.

Lemma mem_write_last m off bs m' i :
  mem_write m off bs = Some m' -> off + zlen bs <= Z.of_nat i -> m' !! i = m !! i.
Proof.
  intros (H1 & H2 & ->)%mem_write_Some Hi. unfold zlen in *.
  rewrite !lookup_app_r by (rewrite ?length_take; lia).
  rewrite length_take, lookup_drop. f_equal. lia.
Qed.

Lemma mem_write_at m off bs m' i :
  mem_write m off bs = Some m' -> off <= Z.of_nat i < off + zlen bs ->
  m' !! i = bs !! (i - Z.to_nat off)%nat.
Proof.
  intros (H1 & H2 & ->)%mem_write_Some Hi. unfold zlen in *.
  rewrite lookup_app_r by (rewrite length_take; lia).
  rewrite length_take, lookup_app_l by lia. f_equal. lia.
Qed.

Lemma memset_in m off ch n :
  0 <= off -> 0 <= n -> off + n <= zlen m ->
  memset m off ch n
  = Some (take (Z.to_nat off) m ++ replicate (Z.to_nat n) ch
          ++ drop (Z.to_nat off + Z.to_nat n) m).
Proof.
  intros. unfold memset. ztest.
  rewrite mem_write_in by (rewrite ?zlen_replicate; lia).
  by rewrite length_replicate.
Qed.

Lemma mem_at_in m off :
  0 <= off <= zlen m -> mem_at m off = Some (drop (Z.to_nat off) m).
Proof. intros. unfold mem_at. by ztest. Qed.

Lemma mem_at_0 m : mem_at m 0 = Some m.
Proof. rewrite mem_at_in by (pose proof (zlen_nonneg m); lia). done. Qed.

Lemma str_at_0 m : str_at m 0 = if terminated m then Some (cstr m) else None.
Proof. unfold str_at. by rewrite mem_at_0. Qed.
End Writes.

(** ** <string.h> on string texts *)

(** strcmp, as the difference of the first bytes that differ (unsigned char,
    the terminating NUL included). *)
Fixpoint strcmp (a b : bytes) : Z :=
  match a, b with
  | [], [] => 0
  | [], d :: _ => - uchar d
  | c :: _, [] => uchar c
  | c :: a', d :: b' => if ceq c d then strcmp a' b' else uchar c - uchar d
  end.

Definition streq (a b : bytes) : bool := strcmp a b =? 0.

(** strncmp (a, b, n) *)
Definition strncmp (a b : bytes) (n : nat) : Z := strcmp (take n a) (take n b).

(** strchr / strrchr / strpbrk / strstr: the offset of the match. *)
Fixpoint find_index (p : ascii -> bool) (s : bytes) : option nat :=
  match s with
  | [] => None
  | c :: r => if p c then Some 0%nat else S <$> find_index p r
  end.

Definition mem_char (c : ascii) (s : bytes) : bool := existsb (ceq c) s.

Definition strchr (s : bytes) (c : ascii) : option nat := find_index (ceq c) s.
Definition strpbrk (s accept : bytes) : option nat := find_index (fun c => mem_char c accept) s.

Fixpoint strrchr (s : bytes) (c : ascii) : option nat :=
  match s with
  | [] => None
  | d :: r => match strrchr r c with
              | Some i => Some (S i)
              | None => if ceq c d then Some 0%nat else None
              end
  end.

Fixpoint is_prefix (p s : bytes) : bool :=
  match p, s with
  | [], _ => true
  | _ :: _, [] => false
  | c :: p', d :: s' => ceq c d && is_prefix p' s'
  end.

Fixpoint strstr (s needle : bytes) : option nat :=
  if is_prefix needle s then Some 0%nat
  else match s with
       | [] => None
       | _ :: r => S <$> strstr r needle
       end.

Lemma strcmp_eq a b : no_nul a -> no_nul b -> strcmp a b = 0 <-> a = b.
Proof.
  revert b; induction a as [|c a IH]; intros [|d b] Ha Hb; cbn; try done.
  - apply no_nul_cons in Hb as [Hd _]. split; [|done]. intros E.
    destruct Hd. apply uchar_inj. change (uchar NUL) with 0. lia.
  - apply no_nul_cons in Ha as [Hc _]. split; [|done]. intros E.
    destruct Hc. apply uchar_inj. change (uchar NUL) with 0. lia.
  - apply no_nul_cons in Ha as [Hc Ha]. apply no_nul_cons in Hb as [Hd Hb].
    destruct (ceq c d) eqn:E.
    + apply ceq_eq in E as ->. rewrite IH by done. naive_solver.
    + apply ceq_neq in E. split; [|naive_solver].
      intros H. destruct E. apply uchar_inj. lia.
Qed.

Lemma streq_eq a b : no_nul a -> no_nul b -> streq a b = true <-> a = b.
Proof. intros. unfold streq. rewrite Z.eqb_eq. by apply strcmp_eq. Qed.

Lemma strcmp_refl a : strcmp a a = 0.
Proof. induction a; cbn; [done|]. by rewrite ceq_refl. Qed.

Lemma streq_refl a : streq a a = true.
Proof. unfold streq. by rewrite strcmp_refl. Qed.

Lemma strcmp_antisym a b : strcmp b a = - strcmp a b.
Proof.
  revert b; induction a as [|c a IH]; intros [|d b]; cbn; try lia.
  destruct (ceq c d) eqn:E.
  - apply ceq_eq in E as ->. by rewrite ceq_refl.
  - assert (ceq d c = false) as -> by (apply ceq_neq in E; apply ceq_neq; congruence).
    lia.
Qed.

Lemma mem_char_In c s : mem_char c s = true <-> c ∈ s.
Proof.
  unfold mem_char. rewrite existsb_exists. split.
  - intros (x & Hx & E%ceq_eq). subst. by apply list_elem_of_In.
  - intros H. exists c. split; [by apply list_elem_of_In | apply ceq_refl].
Qed.

Lemma find_index_Some p s i :
  find_index p s = Some i ->
  exists c, s = take i s ++ c :: drop (S i) s /\ p c = true
            /\ Forall (fun d => p d = false) (take i s) /\ (i < length s)%nat.
Proof.
  revert i; induction s as [|c s IH]; intros i; cbn; [done|].
  destruct (p c) eqn:E.
  - intros [= <-]. exists c. cbn. rewrite drop_0. repeat split; auto with lia.
  - destruct (find_index p s) as [j|] eqn:F; [|done]. cbn. intros [= <-].
    destruct (IH j eq_refl) as (d & H1 & H2 & H3 & H4). exists d.
    cbn. repeat split; [by f_equal | done | by constructor | lia].
Qed.

Lemma find_index_pos p c r i : p c = false -> find_index p (c :: r) = Some i -> i <> 0%nat.
Proof. cbn. intros ->. by destruct (find_index p r); intros [= <-]. Qed.

Lemma find_index_None p s : find_index p s = None <-> Forall (fun c => p c = false) s.
Proof.
  induction s as [|c s IH]; cbn; [split; auto|].
  rewrite Forall_cons. destruct (p c) eqn:E; [naive_solver|].
  destruct (find_index p s); cbn; naive_solver.
Qed.

Lemma find_index_app p s c r :
  Forall (fun d => p d = false) s -> p c = true ->
  find_index p (s ++ c :: r) = Some (length s).
Proof.
  induction s as [|d s IH]; cbn; intros H E; [by rewrite E|].
  apply Forall_cons in H as [-> H]. by rewrite IH.
Qed.

(** ** The text stored at an address *)

(** The bytes of [s] and a NUL are stored at the address [off] of [m]. *)
Definition holds (m : bytes) (off : nat) (s : bytes) : Prop :=
  no_nul s
  /\ (forall i, (i < length s)%nat -> m !! (off + i)%nat = s !! i)
  /\ m !! (off + length s)%nat = Some NUL.

Section Holds.
Implicit Types (m s bs : bytes) (off : Z).

Lemma holds_intro m s r o :
  no_nul s -> drop o m = s ++ NUL :: r -> holds m o s.
Proof.
  intros Hs E. assert (H : forall i, m !! (o + i)%nat = (s ++ NUL :: r) !! i).
  { intros i. by rewrite <- E, lookup_drop. }
  split; [done|]. split.
  - intros i Hi. rewrite H. by apply lookup_app_l.
  - rewrite H, lookup_app_r, Nat.sub_diag by lia. done.
Qed.

Lemma text_holds_buffer s : no_nul s -> holds (s ++ [NUL]) 0 s.
Proof. intros Hs. by apply (holds_intro _ _ []). Qed.

Lemma holds_drop m o s :
  holds m o s -> drop o m = s ++ NUL :: drop (S (o + length s)) m.
Proof.
  intros (Hs & H1 & H2). apply list_eq. intros i. rewrite lookup_drop.
  destruct (decide (i < length s)%nat).
  - rewrite lookup_app_l by done. by apply H1.
  - rewrite lookup_app_r by lia. destruct (decide (i = length s)) as [->|].
    + by rewrite Nat.sub_diag.
    + rewrite lookup_cons_ne_0, lookup_drop by lia. f_equal. lia.
Qed.

Lemma str_at_holds m off s :
  0 <= off -> str_at m off = Some s <-> holds m (Z.to_nat off) s.
Proof.
  intros Hoff. unfold str_at, mem_at. split.
  - case_match; [|done]. cbn. case_match; [|done]. intros [= <-].
    eapply holds_intro; [apply cstr_no_nul | by apply cstr_split].
  - intros H. pose proof H as (Hs & H1 & H2). apply lookup_lt_Some in H2.
    unfold zlen. ztest. cbn. rewrite (holds_drop _ _ _ H), terminated_nul.
    by rewrite cstr_app_nul.
Qed.

Lemma str_at_0_holds m s : str_at m 0 = Some s <-> holds m 0 s.
Proof. by apply str_at_holds. Qed.

Lemma strlen_at_holds m off s :
  0 <= off -> holds m (Z.to_nat off) s -> strlen_at m off = Some (zlen s).
Proof. intros H1 H2. unfold strlen_at. apply str_at_holds in H2 as ->; done. Qed.

Lemma holds_inj m o s t : holds m o s -> holds m o t -> s = t.
Proof.
  intros Hs Ht. pose proof (holds_drop _ _ _ Hs) as E1.
  pose proof (holds_drop _ _ _ Ht) as E2. destruct Hs as [? _], Ht as [? _].
  rewrite <- (cstr_app_nul s (drop (S (o + length s)) m)) by done.
  rewrite <- E1, E2. by apply cstr_app_nul.
Qed.

(** Writing [s] with its terminator stores it. *)
Lemma holds_write m off s m' :
  no_nul s -> mem_write m off (s ++ [NUL]) = Some m' -> holds m' (Z.to_nat off) s.
Proof.
  intros Hs (H1 & H2 & ->)%mem_write_Some. rewrite zlen_app, zlen_cons, zlen_nil in H2.
  unfold zlen in H2. eapply holds_intro; [done|].
  rewrite drop_app_length' by (rewrite length_take; lia).
  rewrite <- app_assoc. cbn. reflexivity.
Qed.

(** A write elsewhere leaves the text in place. *)
Lemma holds_frame m m' o s :
  (forall i, (o <= i <= o + length s)%nat -> m' !! i = m !! i) ->
  holds m o s -> holds m' o s.
Proof.
  intros H (H1 & H2 & H3). split; [done|]. split.
  - intros i Hi. rewrite H by lia. by apply H2.
  - by rewrite H by lia.
Qed.

Lemma mem_write_lookup m off bs m' i :
  mem_write m off bs = Some m' ->
  m' !! i = if decide (off <= Z.of_nat i < off + zlen bs)
            then bs !! (i - Z.to_nat off)%nat else m !! i.
Proof.
  intros (H1 & H2 & ->)%mem_write_Some. unfold zlen in *.
  destruct (decide _).
  - rewrite lookup_app_r by (rewrite length_take; lia).
    rewrite length_take, lookup_app_l by lia. f_equal. lia.
  - destruct (decide (i < Z.to_nat off)%nat).
    + rewrite lookup_app_l by (rewrite length_take; lia).
      by rewrite lookup_take_lt by lia.
    + rewrite !lookup_app_r by (rewrite ?length_take; lia).
      rewrite length_take, lookup_drop. f_equal. lia.
Qed.

Lemma mem_write_exists m off bs :
  0 <= off -> off + zlen bs <= zlen m -> exists m', mem_write m off bs = Some m'.
Proof. intros. rewrite mem_write_in by done. eauto. Qed.
End Holds.
