(* ===== verification/Numerals.v ===== *)
(** * Numbers in text: printf and scanf of the C library

    The conversions %0<width>lx and %0<width>lo of sprintf, %<width>lx and
    %<width>lo of sscanf, and the device numbers of the system (makedev, major
    and minor of glibc). *)

From S2P Require Import Prelude CString.

(** ** Printing *)

(** A digit of a base of at most 16, in lower case. *)
Definition numeral_char (d : Z) : ascii := to_char (if d <? 10 then 48 + d else 87 + d).

(** The digits of [n] with at least [width] of them, the last one first. *)
Fixpoint numeral_rev (fuel : nat) (base : Z) (width : nat) (n : Z) : bytes :=
  match fuel with
  | O => []
  | S fuel =>
      if (n =? 0) && (width =? 0)%nat then []
      else numeral_char (n mod base) :: numeral_rev fuel base (pred width) (n / base)
  end.

(** %0<width>l of an unsigned long; 64 digits are enough for every base. *)
Definition numeral (base : Z) (width : nat) (n : Z) : bytes := reverse (numeral_rev (64 + width) base width n).

(** ** Scanning *)

Definition numeral_value (base : Z) (c : ascii) : option Z :=
  let v := if isdigit c then uchar c - 48
           else if islower c then uchar c - 87
           else if isupper c then uchar c - 55 else base in
  if v <? base then Some v else None.

(** The value of the digits at the start of the text, their number, and the
    text behind them. *)
Fixpoint scan_digits (base : Z) (s : bytes) (val : Z) (n : nat) : Z * nat * bytes :=
  match s with
  | c :: r => match numeral_value base c with
              | Some d => scan_digits base r (val * base + d) (S n)
              | None => (val, n, s)
              end
  | [] => (val, n, s)
  end.

Fixpoint skip_blanks (s : bytes) : bytes :=
  match s with c :: r => if isspace c then skip_blanks r else s | [] => [] end.

Definition scan_sign (s : bytes) : bool * bytes :=
  match s with
  | c :: r => if ceq c "-" then (true, r) else if ceq c "+" then (false, r) else (false, s)
  | [] => (false, s)
  end.

(** 0x and 0X in front of a hexadecimal number. *)
Definition scan_prefix (base : Z) (s : bytes) : bytes :=
  match s with
  | c :: d :: r => if (base =? 16) && ceq c "0" && (ceq d "x" || ceq d "X") then r else s
  | _ => s
  end.

(** One conversion: the value and the rest of the text, [None] when the text
    does not match.  A negative number wraps around. *)
Definition scan_ul (base : Z) (width : nat) (s : bytes) : option (Z * bytes) :=
  let s := skip_blanks s in
  let '(neg, item) := scan_sign (take width s) in
  let '(val, n, after) := scan_digits base (scan_prefix base item) 0 0 in
  if (n =? 0)%nat then None
  else Some (to_size (if neg then - val else val), after ++ drop width s).

(** sscanf with a list of conversions: the values of those that succeed. *)
Fixpoint sscanf_ul (base : Z) (widths : list nat) (s : bytes) : list Z :=
  match widths with
  | [] => []
  | w :: widths => match scan_ul base w s with
                   | Some (v, s) => v :: sscanf_ul base widths s
                   | None => []
                   end
  end.

(** ** Device numbers *)

(** [n] bits of [x] from the bit [a] on, moved to the bit [b]. *)
Definition bit_field (x a n b : Z) : Z := Z.shiftl (Z.land (Z.shiftr x a) (Z.ones n)) b.

(** Both parts have 32 bits, a device number 64. *)
Definition makedev (maj min : Z) : Z :=
  Z.lor (Z.lor (bit_field maj 0 12 8) (bit_field maj 12 20 44))
        (Z.lor (bit_field min 0 8 0) (bit_field min 8 24 20)).
Definition dev_major (dev : Z) : Z := Z.lor (bit_field dev 8 12 0) (bit_field dev 44 20 12).
Definition dev_minor (dev : Z) : Z := Z.lor (bit_field dev 0 8 0) (bit_field dev 20 24 8).

(** ** Facts *)

Lemma numeral_value_char base d : base <= 16 -> 0 <= d < base -> numeral_value base (numeral_char d) = Some d.
Proof.
  intros Hb Hd. unfold numeral_value, numeral_char, isdigit, islower, isupper, in_range.
  rewrite uchar_to_char. destruct (d <? 10) eqn:E; zbool; rewrite Z.mod_small by lia.
  - rewrite (proj2 (Z.leb_le 48 _)), (proj2 (Z.leb_le _ 57)) by lia. cbn [andb]. ztest. f_equal. lia.
  - rewrite (proj2 (Z.leb_le 48 _)), (proj2 (Z.leb_gt _ 57)), (proj2 (Z.leb_le 97 _)), (proj2 (Z.leb_le _ 122)) by lia.
    cbn [andb]. ztest. f_equal. lia.
Qed.

(** What the width leaves of the digits. *)
Lemma numeral_rev_exact base (w : nat) : 2 <= base -> forall n fuel, 0 <= n < base ^ Z.of_nat w -> (w < fuel)%nat ->
  length (numeral_rev fuel base w n) = w.
Proof.
  intros Hb. induction w as [|w IH]; intros n fuel Hn Hf; (destruct fuel as [|fuel]; [lia|]); cbn [numeral_rev].
  - assert (n = 0) as -> by (cbn in Hn; lia). done.
  - replace (S w =? 0)%nat with false by done. rewrite andb_false_r. cbn [length pred]. f_equal.
    apply IH; [|lia]. rewrite Nat2Z.inj_succ, Z.pow_succ_r in Hn by lia.
    split; [apply Z.div_pos; lia|apply Z.div_lt_upper_bound; lia].
Qed.

Lemma numeral_length base w n : 2 <= base -> 0 <= n < base ^ Z.of_nat w -> length (numeral base w n) = w.
Proof. intros. unfold numeral. rewrite length_reverse. apply numeral_rev_exact; [done|done|lia]. Qed.

(** Reading the digits back. *)
Lemma scan_digits_app base s t : (forall c, c ∈ s -> is_Some (numeral_value base c)) -> forall val n,
  scan_digits base (s ++ t) val n
  = let '(v, m, _) := scan_digits base s val n in scan_digits base t v m.
Proof.
  induction s as [|c s IH]; intros Hs val n; [done|]. cbn [scan_digits app].
  destruct (Hs c) as [d Hd]; [by left|]. rewrite Hd. apply IH. intros. apply Hs. by right.
Qed.

Lemma numeral_rev_digits base w : 2 <= base <= 16 -> forall fuel n, 0 <= n ->
  forall c, c ∈ numeral_rev fuel base w n -> is_Some (numeral_value base c).
Proof.
  intros Hb fuel. revert w. induction fuel as [|fuel IH]; intros w n Hn c; cbn [numeral_rev].
  - intros H. by apply not_elem_of_nil in H.
  - case_match; [intros Hc; by apply not_elem_of_nil in Hc|].
    intros [->|Hc]%elem_of_cons.
    + rewrite numeral_value_char; [done|lia|apply Z.mod_pos_bound; lia].
    + apply (IH (pred w) (n / base)); [apply Z.div_pos; lia|done].
Qed.

Lemma scan_numeral_rev base w : 2 <= base <= 16 -> forall fuel n, 0 <= n < base ^ Z.of_nat w -> (w < fuel)%nat ->
  scan_digits base (reverse (numeral_rev fuel base w n)) 0 0 = (n, w, []).
Proof.
  intros Hb. induction w as [|w IH]; intros fuel n Hn Hf; (destruct fuel as [|fuel]; [lia|]); cbn [numeral_rev].
  - assert (n = 0) as -> by (cbn in Hn; lia). done.
  - replace (S w =? 0)%nat with false by done. rewrite andb_false_r. cbn [pred].
    rewrite reverse_cons, scan_digits_app.
    2:{ intros c Hc. rewrite elem_of_reverse in Hc. apply (numeral_rev_digits base w Hb fuel (n / base)); [|done].
        apply Z.div_pos; lia. }
    assert (Hn' : 0 <= n / base < base ^ Z.of_nat w).
    { rewrite Nat2Z.inj_succ, Z.pow_succ_r in Hn by lia.
      split; [apply Z.div_pos; lia|apply Z.div_lt_upper_bound; lia]. }
    rewrite (IH fuel (n / base) Hn') by lia. cbn [scan_digits].
    rewrite numeral_value_char by (lia || (apply Z.mod_pos_bound; lia)).
    f_equal. f_equal. pose proof (Z.div_mod n base). lia.
Qed.

Lemma scan_digits_numeral base w n : 2 <= base <= 16 -> 0 <= n < base ^ Z.of_nat w ->
  scan_digits base (numeral base w n) 0 0 = (n, w, []).
Proof. intros. apply scan_numeral_rev; [done|done|lia]. Qed.

Lemma numeral_value_range base c d : base <= 16 -> numeral_value base c = Some d ->
  48 <= uchar c <= 57 \/ 65 <= uchar c <= 70 \/ 97 <= uchar c <= 102.
Proof.
  intros Hb. unfold numeral_value, isdigit, islower, isupper, in_range. intros H.
  repeat case_match; zbool; simplify_eq; lia.
Qed.

Lemma numeral_chars base w n c : 2 <= base <= 16 -> 0 <= n -> c ∈ numeral base w n ->
  48 <= uchar c <= 57 \/ 65 <= uchar c <= 70 \/ 97 <= uchar c <= 102.
Proof.
  intros Hb Hn Hc. unfold numeral in Hc. rewrite elem_of_reverse in Hc.
  destruct (numeral_rev_digits base w Hb _ n Hn c Hc) as [d Hd].
  apply (numeral_value_range base c d); [lia|done].
Qed.

Lemma ceq_uchar_ne c d : uchar c <> uchar d -> ceq c d = false.
Proof. intros H. apply ceq_neq. by intros ->. Qed.

(** A number of the exact width is read back, whatever follows it. *)
Lemma scan_ul_numeral base w n t : 2 <= base <= 16 -> (0 < w)%nat -> 0 <= n < base ^ Z.of_nat w -> n < 2 ^ 64 ->
  scan_ul base w (numeral base w n ++ t) = Some (n, t).
Proof.
  intros Hb Hw Hn Hn64. unfold scan_ul.
  pose proof (numeral_length base w n ltac:(lia) Hn) as Hlen.
  pose proof (scan_digits_numeral base w n Hb Hn) as Hscan.
  pose proof (numeral_chars base w n) as Hc. specialize (fun c => Hc c Hb (proj1 Hn)).
  destruct (numeral base w n) as [|c s] eqn:Es; [cbn in Hlen; lia|].
  pose proof (Hc c ltac:(by left)) as Hc0.
  assert (skip_blanks ((c :: s) ++ t) = (c :: s) ++ t) as ->.
  { cbn [skip_blanks app]. unfold isspace, in_range.
    rewrite (proj2 (Z.leb_gt (uchar c) 13)), (proj2 (Z.eqb_neq (uchar c) 32)) by lia. by rewrite andb_false_r. }
  rewrite <- Hlen, take_app_length, drop_app_length. unfold scan_sign.
  rewrite !ceq_uchar_ne by (change (uchar "-") with 45 || change (uchar "+") with 43; lia).
  assert (scan_prefix base (c :: s) = c :: s) as ->.
  { destruct s as [|d s]; [done|]. cbn [scan_prefix]. pose proof (Hc d ltac:(right; by left)) as Hd.
    rewrite !(ceq_uchar_ne d) by (change (uchar "x") with 120 || change (uchar "X") with 88; lia).
    cbn [orb]. by rewrite andb_false_r. }
  rewrite Hscan. destruct (w =? 0)%nat eqn:E; [apply Nat.eqb_eq in E; lia|].
  by rewrite to_size_id by lia.
Qed.

(** A list of numbers of exact widths. *)
Lemma sscanf_ul_numerals base (fs : list (nat * Z)) t : 2 <= base <= 16 ->
  Forall (fun f => (0 < f.1)%nat /\ 0 <= f.2 < base ^ Z.of_nat f.1 /\ f.2 < 2 ^ 64) fs ->
  sscanf_ul base (fst <$> fs) (concat ((fun f => numeral base f.1 f.2) <$> fs) ++ t) = snd <$> fs.
Proof.
  intros Hb Hfs. induction Hfs as [|[w n] fs (Hw & Hn & Hn64) Hfs IH]; [done|].
  cbn [fmap list_fmap sscanf_ul concat fst snd] in *. rewrite <- app_assoc.
  rewrite scan_ul_numeral by done. by rewrite IH.
Qed.

(** ** Device numbers *)

Lemma bit_field_spec x a n b i : 0 <= a -> 0 <= n -> 0 <= b -> 0 <= i ->
  Z.testbit (bit_field x a n b) i = (b <=? i) && (i <? b + n) && Z.testbit x (i - b + a).
Proof.
  intros Ha Hn Hb Hi. unfold bit_field. rewrite Z.shiftl_spec by done.
  destruct (b <=? i) eqn:E; zbool; [|by rewrite Z.testbit_neg_r by lia].
  rewrite Z.land_spec, Z.shiftr_spec by lia. cbn [andb].
  destruct (i <? b + n) eqn:E2; zbool.
  - rewrite Z.ones_spec_low by lia. by rewrite andb_true_r.
  - rewrite Z.ones_spec_high by lia. by rewrite andb_false_r.
Qed.

Lemma testbit_small x n i : 0 <= x < 2 ^ n -> 0 <= n <= i -> Z.testbit x i = false.
Proof.
  intros Hx Hi. rewrite <- (Z.mod_small x (2 ^ n)) by done. by apply Z.mod_pow2_bits_high.
Qed.

Lemma bit_field_above x k a n b : 0 <= x < 2 ^ k -> 0 <= k <= a -> bit_field x a n b = 0.
Proof.
  intros Hx Hk. unfold bit_field. rewrite Z.shiftr_div_pow2 by lia. rewrite Z.div_small; [by rewrite Z.shiftl_0_l|].
  pose proof (Z.pow_le_mono_r 2 k a). lia.
Qed.

Ltac bits_by_range :=
  repeat (rewrite Z.lor_spec || rewrite bit_field_spec by lia); ztest; rewrite ?andb_false_r, ?orb_false_r; cbn [andb orb].

Lemma dev_major_makedev maj min : 0 <= maj < 2 ^ 32 -> dev_major (makedev maj min) = maj.
Proof.
  intros Hm. apply Z.bits_inj'. intros i Hi. unfold dev_major, makedev.
  destruct (decide (i < 12)) as [H1|H1].
  - bits_by_range. f_equal. lia.
  - destruct (decide (i < 32)) as [H2|H2].
    + bits_by_range. f_equal. lia.
    + bits_by_range. by rewrite (testbit_small maj 32) by lia.
Qed.

Lemma dev_minor_makedev maj min : 0 <= min < 2 ^ 32 -> dev_minor (makedev maj min) = min.
Proof.
  intros Hm. apply Z.bits_inj'. intros i Hi. unfold dev_minor, makedev.
  destruct (decide (i < 8)) as [H1|H1].
  - bits_by_range. f_equal. lia.
  - destruct (decide (i < 32)) as [H2|H2].
    + bits_by_range. f_equal. lia.
    + bits_by_range. by rewrite (testbit_small min 32) by lia.
Qed.
