(* ===== verification/Decimals.v ===== *)
(** * Decimal numbers, as printf writes them *)

From S2P Require Import Prelude CString.

(** "%d" and "%lu" of a number that is not negative; 2^64 has 20 digits. *)
Fixpoint decimal_loop (fuel : nat) (n : Z) (acc : bytes) : bytes :=
  match fuel with
  | O => acc
  | S fuel =>
      let acc := to_char (48 + n mod 10) :: acc in
      if n / 10 =? 0 then acc else decimal_loop fuel (n / 10) acc
  end.
Definition decimal (n : Z) : bytes := decimal_loop 20 n [].

(** "%d" and "%02d" of any int. *)
Definition print_d (n : Z) : bytes := if n <? 0 then "-"%char :: decimal (- n) else decimal n.
Definition print_02d (n : Z) : bytes := if (0 <=? n) && (n <? 10) then "0"%char :: decimal n else print_d n.

(** "%-<width>d": blanks behind the number. *)
Definition print_left (width n : Z) : bytes := print_d n ++ replicate (Z.to_nat (width - zlen (print_d n))) " "%char.


(** The digits of a number of at most [fuel] digits. *)
Fixpoint digs (fuel : nat) (n : Z) : bytes :=
  match fuel with
  | O => []
  | S fuel => (if n / 10 =? 0 then [] else digs fuel (n / 10)) ++ [to_char (48 + n mod 10)]
  end.

Lemma decimal_loop_digs fuel : forall n acc, decimal_loop fuel n acc = digs fuel n ++ acc.
Proof.
  induction fuel as [|fuel IH]; intros n acc; cbn [decimal_loop digs]; [done|].
  rewrite <- app_assoc. destruct (n / 10 =? 0); [done|]. by rewrite IH.
Qed.

Lemma decimal_digs n : decimal n = digs 20 n.
Proof. unfold decimal. by rewrite decimal_loop_digs, app_nil_r. Qed.

Lemma uchar_digit n : uchar (to_char (48 + n mod 10)) = 48 + n mod 10.
Proof. rewrite uchar_to_char. pose proof (Z.mod_pos_bound n 10). apply Z.mod_small. lia. Qed.

Lemma digs_digits fuel : forall n, Forall (fun c => isdigit c = true) (digs fuel n).
Proof.
  induction fuel as [|fuel IH]; intros n; cbn [digs]; [done|]. apply Forall_app. split.
  - by destruct (n / 10 =? 0).
  - constructor; [|done]. unfold isdigit, in_range. rewrite uchar_digit. pose proof (Z.mod_pos_bound n 10).
    apply andb_true_iff. split; apply Z.leb_le; lia.
Qed.

Lemma digs_nonempty fuel n : (0 < fuel)%nat -> digs fuel n <> [].
Proof. destruct fuel; [lia|]. intros _ E. cbn in E. by apply app_eq_nil in E as [_ ?]. Qed.

(** The number of digits: at most [k] below 10 ^ k, and more from there on. *)
Lemma digs_length fuel : forall n k, 0 <= n < 10 ^ Z.of_nat fuel -> (0 < k)%nat ->
  (length (digs fuel n) <= k)%nat <-> n < 10 ^ Z.of_nat k.
Proof.
  induction fuel as [|fuel IH]; intros n k Hn Hk; [cbn in *; pose proof (Z.pow_pos_nonneg 10 (Z.of_nat k)); lia|].
  cbn [digs]. rewrite length_app. cbn [length].
  destruct k as [|k]; [lia|]. rewrite Nat2Z.inj_succ, Z.pow_succ_r in * by lia.
  pose proof (Z.pow_pos_nonneg 10 (Z.of_nat k)). pose proof (Z.div_mod n 10). pose proof (Z.mod_pos_bound n 10).
  destruct (Z.eqb_spec (n / 10) 0) as [E|E]; [cbn [length]; lia|].
  assert (0 < fuel)%nat by (destruct fuel; [cbn in Hn|]; lia).
  destruct k as [|k].
  - pose proof (digs_nonempty fuel (n / 10)) as Hd. destruct (digs fuel (n / 10)); [by destruct Hd|]. cbn [length Z.of_nat Z.pow]. lia.
  - assert (n / 10 < 10 ^ Z.of_nat fuel) by lia. rewrite Nat.add_1_r, <- Nat.succ_le_mono, IH by lia. lia.
Qed.

(** A number and its digits: a length the digits fix. *)
Definition ndigits (n : Z) : Z := zlen (decimal n).

Lemma ndigits_le n k : 0 <= n < 10 ^ 20 -> 1 <= k -> ndigits n <= k <-> n < 10 ^ k.
Proof.
  intros Hn Hk. unfold ndigits, zlen. rewrite decimal_digs.
  pose proof (digs_length 20 n (Z.to_nat k) Hn) as H. rewrite Z2Nat.id in H by lia. rewrite <- H; lia.
Qed.

Lemma ndigits_pos n : 1 <= ndigits n.
Proof.
  unfold ndigits, zlen. rewrite decimal_digs. pose proof (digs_nonempty 20 n).
  destruct (digs 20 n); [by destruct H; [lia|]|cbn; lia].
Qed.

Lemma digs_fuel f : forall g n, 0 <= n < 10 ^ Z.of_nat f -> n < 10 ^ Z.of_nat g -> (0 < f)%nat -> (0 < g)%nat ->
  digs f n = digs g n.
Proof.
  induction f as [|f IH]; intros g n Hn Hg H1 H2; [lia|]. destruct g as [|g]; [lia|]. cbn [digs].
  rewrite Nat2Z.inj_succ, Z.pow_succ_r in * by lia. pose proof (Z.div_mod n 10). pose proof (Z.mod_pos_bound n 10).
  destruct (Z.eqb_spec (n / 10) 0) as [E|E]; [done|]. f_equal.
  assert (n / 10 < 10 ^ Z.of_nat f /\ n / 10 < 10 ^ Z.of_nat g) as [Hf' Hg'] by lia.
  apply IH; [lia|done| |]; [destruct f|destruct g]; cbn in Hf', Hg'; lia.
Qed.

(** ** Reading them back *)

Definition dec_value (acc : Z) (ds : bytes) : Z := foldl (fun a c => 10 * a + (uchar c - 48)) acc ds.

Lemma dec_value_digs fuel : forall acc n, 0 <= n < 10 ^ Z.of_nat fuel -> (0 < fuel)%nat ->
  dec_value acc (digs fuel n) = acc * 10 ^ zlen (digs fuel n) + n.
Proof.
  induction fuel as [|fuel IH]; intros acc n Hn Hf; [lia|]. cbn [digs]. unfold dec_value in *.
  rewrite foldl_app. cbn [foldl]. rewrite uchar_digit, zlen_app. change (zlen [to_char (48 + n mod 10)]) with 1.
  rewrite Nat2Z.inj_succ, Z.pow_succ_r in Hn by lia.
  pose proof (Z.div_mod n 10). pose proof (Z.mod_pos_bound n 10).
  destruct (Z.eqb_spec (n / 10) 0) as [E|E]; [rewrite zlen_nil, Z.add_0_l, Z.pow_1_r; cbn [foldl]; lia|].
  assert (0 < fuel)%nat by (destruct fuel; [cbn in Hn; lia|lia]). rewrite IH by lia.
  rewrite Z.pow_add_r by (apply zlen_nonneg || lia). lia.
Qed.

Lemma digit_not_space c : isdigit c = true -> isspace c = false /\ ceq c "-"%char = false /\ ceq c "+"%char = false.
Proof.
  unfold isdigit, isspace, in_range. intros [H1 H2]%andb_true_iff. zbool. split; [|split].
  - apply orb_false_iff. split; [apply andb_false_iff; right; apply Z.leb_gt; lia|apply Z.eqb_neq; lia].
  - apply ceq_neq. intros ->. change (uchar "-"%char) with 45 in *. lia.
  - apply ceq_neq. intros ->. change (uchar "+"%char) with 43 in *. lia.
Qed.
