(* ===== verification/Strob.v ===== *)
(** * STROB, the unlimited-length string object (swsupplib/strob/strob.c)

    The buffer is modelled at the level of the memory it owns: [str_] is the
    allocated block, byte for byte, and every access of the C code is a checked
    access of that block.  An operation that would touch memory outside the
    block, or read past an unterminated string, is [None]. *)

From S2P Require Import Prelude CString.

Definition STROB_INITLENGTH : Z := 32.
Definition STROB_LENGTHINCR : Z := 156.

(** What malloc and realloc leave in the bytes they add: the bytes are
    indeterminate, so every theorem holds for every value of [junk]. *)
Class Malloc := junk : nat -> ascii.

(** The object.  The NULL pointer in [str_] is the empty block (malloc is never
    called with size 0 here); [tok_] is an offset into [str_], [None] while it
    is uninitialised. *)
Record STROB := mkSTROB {
  str_ : bytes;
  tok_ : option Z;
  length_ : Z;
  extra_ : Z;
  reserve_ : Z;
  fill_charM : Z;
}.

Definition set_str (m : bytes) (s : STROB) : STROB :=
  mkSTROB m (tok_ s) (length_ s) (extra_ s) (reserve_ s) (fill_charM s).
Definition set_tok (t : option Z) (s : STROB) : STROB :=
  mkSTROB (str_ s) t (length_ s) (extra_ s) (reserve_ s) (fill_charM s).
Definition set_len (n : Z) (s : STROB) : STROB :=
  mkSTROB (str_ s) (tok_ s) n (extra_ s) (reserve_ s) (fill_charM s).
Definition set_block (m : bytes) (res : Z) (s : STROB) : STROB :=
  mkSTROB m (tok_ s) (length_ s) (extra_ s) res (fill_charM s).

Section Operations.
Context `{Malloc}.

Definition malloc (n : nat) : bytes := junk <$> seq 0 n.

Definition realloc (m : bytes) (n : nat) : bytes :=
  take n m ++ (junk <$> seq (length m) (n - length m)).

(** ** Reserving memory *)

Definition strob_reopen_fill_with (strb : STROB) (new_length fill_char : Z) : option STROB :=
  let new_length := if new_length <=? 1 then 2 else new_length in
  let p := match str_ strb with [] => malloc 2 | m => m end in
  let tmpstr := realloc p (Z.to_nat new_length) in
  let strb := set_block tmpstr (to_int new_length) strb in
  m ← (if reserve_ strb >? length_ strb
       then memset (str_ strb) (length_ strb) (to_char fill_char) (reserve_ strb - length_ strb)
       else Some (str_ strb));
  m ← mem_write m (new_length - 1) [NUL];
  Some (set_str m strb).

Definition strob_reopen (strb : STROB) (new_length : Z) : option STROB :=
  strob_reopen_fill_with strb new_length 0.

Definition strob_reopen_if_fill_with (strb : STROB) (reqd_length fill_char : Z) : option STROB :=
  if to_int reqd_length >? reserve_ strb
  then strob_reopen_fill_with strb (to_size (reqd_length + extra_ strb)) fill_char
  else Some strb.

Definition strob_reopen_if (strb : STROB) (reqd_length : Z) : option STROB :=
  if to_int reqd_length >? reserve_ strb
  then strob_reopen strb (to_size (reqd_length + extra_ strb))
  else Some strb.

Definition strob_set_up (strb : STROB) (n : Z) : option STROB :=
  strb ← strob_reopen_if strb (to_size (n + 1));
  if n >? length_ strb
  then m ← mem_write (str_ strb) n [NUL]; Some (set_str m (set_len n strb))
  else Some strb.

(** [reserve_] is uninitialised until the first reopen sets it. *)
Definition strob_open (initial_size : Z) : option STROB :=
  let initial_size := if initial_size <=? 0 then STROB_INITLENGTH else initial_size in
  strob_reopen (mkSTROB [] None 0 STROB_LENGTHINCR 0 0) (initial_size + 1).

Definition strob_set_reserve (strb : STROB) (res : Z) : STROB :=
  mkSTROB (str_ strb) (tok_ strb) (length_ strb) res (reserve_ strb) (fill_charM strb).

Definition strob_trunc (strb : STROB) : option STROB :=
  strob_reopen strb (STROB_INITLENGTH + 1).

Definition strob_set_memlength (strb : STROB) (len : Z) : option STROB :=
  set_len len <$> strob_reopen_if strb (to_size len).

Definition strob_set_length (strb : STROB) (len : Z) : option STROB :=
  strb ← strob_set_memlength strb (len + 1);
  m ← mem_write (str_ strb) len [NUL];
  Some (set_str m strb).

(** ** Reading *)

(** strob_str / strob_get_str return the address of the block: the text a
    caller sees there. *)
Definition strob_str (strb : STROB) : option bytes := str_at (str_ strb) 0.
Definition strob_strlen (strb : STROB) : option Z := strlen_at (str_ strb) 0.

Definition strob_get_char (strb : STROB) (index : Z) : option Z :=
  if index <? 0 then Some (-1)
  else if index >=? length_ strb then Some (-1)
  else uchar <$> mem_read (str_ strb) index.

Definition strob_strcmp (strb : STROB) (str : bytes) : option Z :=
  s ← strob_str strb; Some (strcmp s str).

Definition strob_strrchr (strb : STROB) (c : ascii) : option (option nat) :=
  s ← strob_str strb; Some (strrchr s c).

Definition strob_strstr (strb : STROB) (str : bytes) : option (option nat) :=
  s ← strob_str strb; Some (strstr s str).

(** ** Writing NUL-terminated text

    A [char *] argument is the text it points to; it does not point into the
    buffer itself. *)

Definition strob_strcpy_at_offset (strb : STROB) (offset : Z) (str : bytes) : option STROB :=
  strb ← strob_reopen_if strb (to_size (zlen str + offset + 1));
  m ← mem_write (str_ strb) offset (str ++ [NUL]);
  Some (set_str m (set_len (to_int (offset + zlen str)) strb)).

Definition strob_strcpy (strb : STROB) (str : bytes) : option STROB :=
  strob_strcpy_at_offset strb 0 str.

Definition strob_chr_index (strb : STROB) (index ch : Z) : option STROB :=
  strb ← strob_reopen_if_fill_with strb (to_size (index + 2)) (fill_charM strb);
  strb ← (if index >=? length_ strb
          then m ← memset (str_ strb) (length_ strb) (to_char (fill_charM strb))
                     (index - length_ strb + 1);
               m ← mem_write m (index + 1) [NUL];
               Some (set_str m strb)
          else Some strb);
  strb ← (if index >? length_ strb - 1
          then m ← mem_write (str_ strb) (index + 1) [NUL];
               Some (set_str m (set_len (index + 1) strb))
          else Some strb);
  m ← mem_write (str_ strb) index [to_char ch];
  Some (set_str m strb).

Definition strob_strcat_at_offset (strb : STROB) (offset : Z) (str : bytes) : option STROB :=
  n ← strlen_at (str_ strb) offset;
  strb ← strob_reopen_if strb (to_size (zlen str + offset + 1 + n));
  n ← strlen_at (str_ strb) offset;
  m ← mem_write (str_ strb) (offset + n) (str ++ [NUL]);
  Some (set_str m (set_len (to_int (offset + zlen str)) strb)).

Definition strob_strcat (strb : STROB) (str : bytes) : option STROB :=
  n ← strob_strlen strb;
  strb ← strob_reopen_if strb (to_size (n + zlen str + 1));
  n ← strob_strlen strb;
  m ← mem_write (str_ strb) n (str ++ [NUL]);
  Some (set_str m (set_len (to_int (n + zlen str)) strb)).

Definition strob_catstr := strob_strcat.

Definition strob_cpy (s ct : STROB) : option STROB :=
  t ← strob_str ct; strob_strcpy_at_offset s 0 t.

Definition strob_cat (s ct : STROB) : option STROB :=
  t ← strob_str ct; strob_catstr s t.

Definition strob_cmp (cs ct : STROB) : option Z :=
  t ← strob_str ct; strob_strcmp cs t.

(** strncat appends at most [ilen] bytes and a NUL. *)
Definition strob_strncat (strb : STROB) (str : bytes) (len : Z) : option STROB :=
  let ilen := to_int len in
  n ← strob_strlen strb;
  strb ← strob_reopen_if strb (to_size (n + ilen + 1));
  n ← strob_strlen strb;
  m ← mem_write (str_ strb) n (take (Z.to_nat (to_size ilen)) str ++ [NUL]);
  n ← strlen_at m 0;
  m ← mem_write m n [NUL];
  Some (set_str m (set_len n strb)).

(** strncpy copies at most [n] bytes and pads with NUL up to [n]. *)
Definition strncpy_bytes (str : bytes) (n : nat) : bytes :=
  take n str ++ replicate (n - length str) NUL.

Definition strob_strncpy (strb : STROB) (str : bytes) (n : Z) : option STROB :=
  strb ← strob_reopen_if strb (to_size (n + 1));
  m ← mem_write (str_ strb) 0 (strncpy_bytes str (Z.to_nat n));
  m ← mem_write m n [NUL];
  l ← strlen_at m 0;
  Some (set_str m (set_len l strb)).

Definition strob_charcat (strb : STROB) (ch : Z) : option STROB :=
  if negb (ch =? 0) then strob_strcat strb (cstr [to_char ch; NUL])
  else strb ← strob_strcat strb (L "X");
       n ← strob_strlen strb;
       m ← mem_write (str_ strb) (n - 1) [NUL];
       Some (set_str m strb).

Definition strob_strchar (strb : STROB) (index : Z) : option STROB :=
  strob_reopen_if strb (to_size (index + 1)).

Definition strob_chr (strb : STROB) (ch : Z) : option STROB :=
  n ← strob_strlen strb; strob_chr_index strb n ch.

(** *p = '\0' at the first line feed, then at the first carriage return. *)
Definition chomp_at (c : ascii) (m : bytes) : option bytes :=
  s ← str_at m 0;
  match strchr s c with
  | Some i => mem_write m (Z.of_nat i) [NUL]
  | None => Some m
  end.

Definition strob_chomp (strb : STROB) : option STROB :=
  m ← chomp_at "010"%char (str_ strb);
  m ← chomp_at "013"%char m;
  Some (set_str m strb).

(** ** The binary interface *)

Definition strob_memcpy (strb : STROB) (ct : bytes) : option STROB :=
  strb ← strob_set_up strb (to_int (zlen ct));
  m ← mem_write (str_ strb) 0 ct;
  Some (set_str m strb).

Definition strob_append_hidden_null (strb : STROB) : option STROB :=
  strb ← strob_set_up strb (length_ strb + 1);
  m ← mem_write (str_ strb) (length_ strb) [NUL];
  Some (set_str m strb).

Definition strob_memcpy_at (strb : STROB) (offset : Z) (ct : bytes) : option STROB :=
  strb ← strob_set_up strb (to_int (zlen ct) + to_int offset);
  m ← mem_write (str_ strb) offset ct;
  Some (set_str m strb).

Definition strob_memmove_to (strb : STROB) (dst_offset : Z) (ct : bytes) : option STROB :=
  strb ← strob_set_up strb (to_int (dst_offset + zlen ct));
  m ← mem_write (str_ strb) dst_offset ct;
  Some (set_str m strb).

Definition strob_memmove (strb : STROB) (ct : bytes) : option STROB :=
  strob_memmove_to strb 0 ct.

Definition strob_memcat (strb : STROB) (ct : bytes) : option STROB :=
  strob_memmove_to strb (length_ strb) ct.

Definition strob_memset (strb : STROB) (c n : Z) : option STROB :=
  strb ← strob_set_up strb (to_int n);
  m ← memset (str_ strb) 0 (to_char c) n;
  Some (set_str m strb).

(** ** Formatted output *)

(** vsnprintf (start, len, ...): [out] is the whole formatted text; at most
    [len - 1] bytes and a NUL are stored, the length of [out] is returned. *)
Definition vsnprintf (m : bytes) (start len : Z) (out : bytes) : option (bytes * Z) :=
  if len <=? 0 then Some (m, zlen out)
  else m ← mem_write m start (take (Z.to_nat (len - 1)) out ++ [NUL]);
       Some (m, zlen out).

(** if (oldend) *oldend = '\0' *)
Definition clear_oldend (sb : STROB) (oldend : option Z) : option STROB :=
  match oldend with
  | Some p => m ← mem_write (str_ sb) p [NUL]; Some (set_str m sb)
  | None => Some sb
  end.

(** The do-while of strob_vsprintf and strob_vsprintf_at; [start_of] is the
    offset of [start] in the buffer, [oldend] the one of the previous round. *)
Fixpoint vsprintf_loop (fuel : nat) (sb : STROB) (start_of : STROB -> option Z) (out : bytes)
    (added_amount : Z) (oldend : option Z) : option (STROB * Z) :=
  match fuel with
  | O => None
  | S fuel =>
    sb ← clear_oldend sb oldend;
    sb ← strob_set_memlength sb (reserve_ sb + added_amount);
    start ← start_of sb;
    let len := reserve_ sb - start in
    '(m, ret) ← vsnprintf (str_ sb) start len out;
    let sb := set_str m sb in
    if (ret <? 0) || (ret >=? len)
    then vsprintf_loop fuel sb start_of out (added_amount + 128) (Some start)
    else Some (sb, ret)
  end.

(** The loop adds at least 128 bytes each round after the first, so one round
    per byte of output is more than enough. *)
Definition vsprintf_fuel (out : bytes) : nat := S (S (S (length out))).

(** Where strob_vsprintf puts [start]. *)
Definition vsprintf_start (do_append : bool) (sb : STROB) : option Z :=
  if do_append then strob_strlen sb else Some 0.

Definition strob_vsprintf (sb : STROB) (do_append : bool) (out : bytes) : option (STROB * Z) :=
  vsprintf_loop (vsprintf_fuel out) sb (vsprintf_start do_append) out 0 None.

Definition strob_vsprintf_at (sb : STROB) (at_offset : Z) (out : bytes) : option (STROB * Z) :=
  sb ← (if at_offset >? reserve_ sb then strob_set_memlength sb (at_offset + 128) else Some sb);
  vsprintf_loop (vsprintf_fuel out) sb (fun _ => Some at_offset) out 0 None.

Definition strob_sprintf := strob_vsprintf.

Definition strob_snprintf (sb : STROB) (do_append : bool) (len : Z) (out : bytes)
    : option (STROB * Z) :=
  if len <=? 0 then Some (sb, len)
  else old_len ← (if do_append then strob_strlen sb else Some 0);
       '(sb, ret) ← strob_vsprintf sb do_append out;
       sb ← strob_chr_index sb (old_len + len - 1) 0;
       Some (sb, ret).

(** ** Tokens *)

(** The first argument of strob_strtok: NULL to go on, a string to copy in, or
    the text of the buffer itself. *)
Inductive tokarg := TokNull | TokStr (s : bytes) | TokSelf.

(** What strob_strtok and strob_strstrtok do differently: how the next delimiter
    is found, how long it is, and the test that skips further ones. *)
Record delims := { d_find : bytes -> option nat; d_len : Z; d_at : bytes -> bool }.

(** do { if (p == start) start += len; p = find (start) } while (p && p == start) *)
Fixpoint skip_leading (fuel : nat) (m : bytes) (d : delims) (start : Z) : option (Z * option Z) :=
  match fuel with
  | O => None
  | S fuel =>
    s ← str_at m start;
    match d_find d s with
    | Some O => skip_leading fuel m d (start + d_len d)
    | Some i => Some (start, Some (start + Z.of_nat i))
    | None => Some (start, None)
    end
  end.

(** while ( *m && at_delimiter (m)) m += len; *)
Fixpoint skip_trailing (fuel : nat) (m : bytes) (d : delims) (p : Z) : option Z :=
  match fuel with
  | O => None
  | S fuel =>
    s ← str_at m p;
    if negb (is_nul (hd NUL s)) && d_at d s
    then skip_trailing fuel m d (p + d_len d) else Some p
  end.

(** The body after the argument is set up.  The result is the offset of the
    token, or [None] for the NULL pointer. *)
Definition strtok_body (buf : STROB) (d : delims) : option (STROB * option Z) :=
  start ← tok_ buf;
  n ← strlen_at (str_ buf) start;
  if n =? 0 then Some (buf, None)
  else
    let fuel := S (length (str_ buf)) in
    '(start, p) ← skip_leading fuel (str_ buf) d start;
    match p with
    | Some p =>
        m ← mem_write (str_ buf) p [NUL];
        k ← strlen_at m (p + d_len d);
        n ← strlen_at m start;
        tok ← skip_trailing fuel m d (p + d_len d);
        (* strlen (NULL) when nothing precedes the delimiter *)
        if n =? 0 then None else Some (set_tok (Some tok) (set_str m buf), Some start)
    | None =>
        n ← strlen_at (str_ buf) start;
        Some (set_tok (Some (start + n)) buf, if n =? 0 then None else Some start)
    end.

Definition strtok_arg (buf : STROB) (s : tokarg) : option STROB :=
  match s with
  | TokNull => Some buf
  | TokStr s => set_tok (Some 0) <$> strob_strcpy buf s
  | TokSelf => Some (set_tok (Some 0) buf)
  end.

Definition char_delims (delim : bytes) : delims :=
  {| d_find s := strpbrk s delim; d_len := 1;
     d_at s := match s with c :: _ => mem_char c delim | [] => false end |}.

Definition strob_strtok (buf : STROB) (s : tokarg) (delim : bytes) : option (STROB * option Z) :=
  buf ← strtok_arg buf s; strtok_body buf (char_delims delim).

Definition string_delims (delim : bytes) : delims :=
  {| d_find s := strstr s delim; d_len := zlen delim;
     d_at s := match strstr s delim with Some O => true | _ => false end |}.

Definition strob_strstrtok (buf : STROB) (s : tokarg) (delim : bytes) : option (STROB * option Z) :=
  buf ← strtok_arg buf s; strtok_body buf (string_delims delim).

(** The loop every caller writes: the tokens, each read when it is returned. *)
Fixpoint strtok_loop (fuel : nat) (next : STROB -> option (STROB * option Z)) (buf : STROB)
    : option (STROB * list bytes) :=
  match fuel with
  | O => None
  | S fuel =>
    '(buf, p) ← next buf;
    match p with
    | None => Some (buf, [])
    | Some p => t ← str_at (str_ buf) p;
                '(buf, ts) ← strtok_loop fuel next buf; Some (buf, t :: ts)
    end
  end.

(** ** The API as a step relation *)

Inductive call :=
  | Strcpy (u : bytes) | StrcpyAt (off : Z) (u : bytes)
  | Strcat (u : bytes) | StrcatAt (off : Z) (u : bytes)
  | Strncat (u : bytes) (n : Z) | Strncpy (u : bytes) (n : Z)
  | Charcat (ch : Z) | ChrIndex (index ch : Z) | Chr (ch : Z) | Chomp
  | SetMemlength (n : Z) | SetLength (n : Z) | Strchar (index : Z)
  | Memcpy (bs : bytes) | MemcpyAt (off : Z) (bs : bytes) | Memcat (bs : bytes)
  | MemmoveTo (off : Z) (bs : bytes) | Memset (c n : Z) | HiddenNull
  | Trunc | SetReserve (n : Z) | SetFillChar (c : Z)
  | Vsprintf (do_append : bool) (out : bytes) | VsprintfAt (off : Z) (out : bytes).

Definition strob_set_fill_char (strb : STROB) (ch : Z) : STROB :=
  mkSTROB (str_ strb) (tok_ strb) (length_ strb) (extra_ strb) (reserve_ strb) ch.

Definition run (c : call) (s : STROB) : option STROB :=
  match c with
  | Strcpy u => strob_strcpy s u
  | StrcpyAt off u => strob_strcpy_at_offset s off u
  | Strcat u => strob_strcat s u
  | StrcatAt off u => strob_strcat_at_offset s off u
  | Strncat u n => strob_strncat s u n
  | Strncpy u n => strob_strncpy s u n
  | Charcat ch => strob_charcat s ch
  | ChrIndex i ch => strob_chr_index s i ch
  | Chr ch => strob_chr s ch
  | Chomp => strob_chomp s
  | SetMemlength n => strob_set_memlength s n
  | SetLength n => strob_set_length s n
  | Strchar i => strob_strchar s i
  | Memcpy bs => strob_memcpy s bs
  | MemcpyAt off bs => strob_memcpy_at s off bs
  | Memcat bs => strob_memcat s bs
  | MemmoveTo off bs => strob_memmove_to s off bs
  | Memset c n => strob_memset s c n
  | HiddenNull => strob_append_hidden_null s
  | Trunc => strob_trunc s
  | SetReserve n => Some (strob_set_reserve s n)
  | SetFillChar c => Some (strob_set_fill_char s c)
  | Vsprintf a out => fst <$> strob_vsprintf s a out
  | VsprintfAt off out => fst <$> strob_vsprintf_at s off out
  end.

(** The bytes a call asks for, and the offset it names. *)
Definition arg_bytes (c : call) : bytes :=
  match c with
  | Strcpy u | StrcpyAt _ u | Strcat u | StrcatAt _ u | Strncat u _ | Strncpy u _
  | Vsprintf _ u | VsprintfAt _ u | Memcpy u | MemcpyAt _ u | Memcat u | MemmoveTo _ u => u
  | _ => []
  end.

Definition arg_int (c : call) : Z :=
  match c with
  | StrcpyAt n _ | StrcatAt n _ | Strncat _ n | Strncpy _ n | ChrIndex n _
  | SetMemlength n | SetLength n | Strchar n | MemcpyAt n _ | MemmoveTo n _ | Memset _ n
  | SetReserve n | VsprintfAt n _ => n
  | _ => 0
  end.

Definition is_text_call (c : call) : bool :=
  match c with
  | Memcpy _ | MemcpyAt _ _ | Memcat _ | MemmoveTo _ _ | Memset _ _ => false
  | _ => true
  end.

(** What the callers must respect: sizes and offsets are not negative and stay
    below [2^28] in total, text arguments are C strings, and an offset at which
    the operation reads is inside the block. *)
Definition allowed (c : call) (s : STROB) : Prop :=
  0 <= arg_int c /\ reserve_ s + length_ s + arg_int c + zlen (arg_bytes c) <= 2 ^ 28 - 2
  /\ (is_text_call c = true -> no_nul (arg_bytes c))
  /\ match c with
     | StrcatAt off _ | VsprintfAt off _ => off < reserve_ s
     | _ => True
     end.

Inductive reachable : STROB -> Prop :=
  | reach_open n s : n < 2 ^ 28 -> strob_open n = Some s -> reachable s
  | reach_call c s s' : reachable s -> allowed c s -> run c s = Some s' -> reachable s'.

Definition strtok_all (buf : STROB) (s delim : bytes) : option (STROB * list bytes) :=
  buf ← strtok_arg buf (TokStr s);
  strtok_loop (S (S (length s))) (fun b => strob_strtok b TokNull delim) buf.

End Operations.
