(* ===== verification/StrobSpec.v ===== *)
(** * Specification of STROB

    The invariant of the buffer, the text it represents, and for each operation
    of Strob.v what it leaves in memory.  The theorems at the end state memory
    safety of the whole interface, the refinement to plain strings, the
    termination of the printf loop and the meaning of strob_strtok; three of
    them are about defects of the code. *)

From S2P Require Import Prelude CString Strob.

(** ** Invariant and abstraction *)

(** Requests up to [SMALL] are served; the bound keeps the reserve, the request
    plus the lookahead, in an [int]. *)
Definition SMALL : Z := 2 ^ 30.

(** Memory safety invariant: the block has the recorded size and its last byte
    is NUL, so a string that starts in the block ends in it. *)
Record wf (s : STROB) : Prop := {
  wf_size : zlen (str_ s) = reserve_ s;
  wf_reserve : 2 <= reserve_ s <= INT_MAX;
  wf_length : 0 <= length_ s <= INT_MAX;
  wf_extra : 0 <= extra_ s < SMALL;
  wf_last : str_ s !! Z.to_nat (reserve_ s - 1) = Some NUL;
}.

(** [text s t]: the object represents the string [t].  The recorded length may
    run ahead of the text (chomp, printf) but not behind it. *)
Record text (s : STROB) (t : bytes) : Prop := {
  text_wf : wf s;
  text_holds : holds (str_ s) 0 t;
  text_length : zlen t <= length_ s;
}.

(** The fields that only their setters change. *)
Definition same_setup (s s' : STROB) : Prop :=
  extra_ s' = extra_ s /\ fill_charM s' = fill_charM s /\ tok_ s' = tok_ s.

Lemma same_setup_refl s : same_setup s s.
Proof. done. Qed.

Lemma same_setup_trans a b c : same_setup a b -> same_setup b c -> same_setup a c.
Proof. unfold same_setup. intuition congruence. Qed.

#[export] Hint Resolve same_setup_refl : strob.

Section Reserve.
Context `{Malloc}.
Implicit Types (s : STROB) (t : bytes).

Lemma realloc_length m n : length (realloc m n) = n.
Proof.
  unfold realloc. rewrite length_app, length_take, length_fmap, length_seq. lia.
Qed.

Lemma realloc_lookup m n i :
  (i < length m)%nat -> (i < n)%nat -> realloc m n !! i = m !! i.
Proof.
  intros. unfold realloc. rewrite lookup_app_l by (rewrite length_take; lia).
  by rewrite lookup_take_lt.
Qed.

(** What [strob_reopen_fill_with] leaves in memory. *)
Lemma strob_reopen_fill_with_spec s n f :
  n <= INT_MAX -> 0 <= length_ s ->
  exists m, strob_reopen_fill_with s n f = Some (set_block m (Z.max n 2) s)
    /\ zlen m = Z.max n 2
    /\ m !! Z.to_nat (Z.max n 2 - 1) = Some NUL
    /\ (forall i, (i < length (str_ s))%nat -> Z.of_nat i < length_ s ->
          Z.of_nat i < Z.max n 2 - 1 -> m !! i = str_ s !! i)
    /\ (forall i, length_ s <= Z.of_nat i < Z.max n 2 - 1 -> m !! i = Some (to_char f)).
Proof.
  intros Hn Hl. unfold strob_reopen_fill_with.
  assert ((if n <=? 1 then 2 else n) = Z.max n 2) as ->
    by (destruct (n <=? 1) eqn:E; zbool; lia).
  set (k := Z.max n 2).
  set (p := match str_ s with [] => _ | _ => _ end).
  assert (Hk : to_int k = k) by (apply to_int_id; unfold INT_MAX in *; lia).
  assert (Hlen : zlen (realloc p (Z.to_nat k)) = k)
    by (unfold zlen; rewrite realloc_length; lia).
  assert (Hold : forall i, (i < length (str_ s))%nat -> Z.of_nat i < k ->
            realloc p (Z.to_nat k) !! i = str_ s !! i).
  { intros i Hi Hi'. subst p. destruct (str_ s); [cbn in Hi; lia|].
    by apply realloc_lookup; [|lia]. }
  cbn [set_block str_ reserve_ length_]. rewrite Hk.
  set (m0 := realloc p (Z.to_nat k)) in *.
  assert (exists m1, (if k >? length_ s
            then memset m0 (length_ s) (to_char f) (k - length_ s) else Some m0) = Some m1
          /\ zlen m1 = k
          /\ forall i, m1 !! i = if decide (length_ s <= Z.of_nat i < k)
                                 then Some (to_char f) else m0 !! i) as (m1 & -> & Hl1 & H1).
  { destruct (k >? length_ s) eqn:E; zbool.
    - unfold memset. ztest. set (r := replicate _ _).
      assert (Hr : zlen r = k - length_ s) by (subst r; rewrite zlen_replicate; lia).
      destruct (mem_write_exists m0 (length_ s) r) as [m1 E1]; [lia|lia|].
      exists m1. split; [done|]. split.
      { unfold zlen in *. by rewrite (mem_write_length _ _ _ _ E1). }
      intros i. rewrite (mem_write_lookup _ _ _ _ i E1), Hr.
      replace (length_ s + (k - length_ s)) with k by lia.
      destruct (decide _); [|done]. subst r. apply lookup_replicate. split; [done|lia].
    - exists m0. repeat split; [done|]. intros i. destruct (decide _); [lia|done]. }
  cbn [mbind option_bind].
  destruct (mem_write_exists m1 (k - 1) [NUL]) as [m2 E2];
    [lia | rewrite zlen_cons, zlen_nil; lia |].
  exists m2. rewrite E2. cbn [mbind option_bind]. split; [done|].
  pose proof (fun i => mem_write_lookup _ _ _ _ i E2) as H2.
  rewrite zlen_cons, zlen_nil in H2.
  split; [unfold zlen in *; by rewrite (mem_write_length _ _ _ _ E2)|]. split.
  - rewrite H2, decide_True by lia. by rewrite Nat.sub_diag.
  - split; intros i; intros; rewrite H2, decide_False, H1 by lia.
    + rewrite decide_False by lia. apply Hold; lia.
    + by rewrite decide_True by lia.
Qed.

Lemma wf_zlen s : wf s -> Z.of_nat (length (str_ s)) = reserve_ s.
Proof. intros W. apply (wf_size s W). Qed.

(** A request of at most [SMALL] bytes is granted: the block is large enough
    and what lies below the recorded length is unchanged. *)
Lemma reopen_if_fill_spec s n f :
  wf s -> 0 <= n <= SMALL ->
  exists s', strob_reopen_if_fill_with s (to_size n) f = Some s' /\ wf s' /\ same_setup s s'
    /\ length_ s' = length_ s /\ Z.max n (reserve_ s) <= reserve_ s'
    /\ (forall i, Z.of_nat i < length_ s -> Z.of_nat i < reserve_ s ->
          str_ s' !! i = str_ s !! i)
    /\ (s' = s \/
        forall i, length_ s <= Z.of_nat i < reserve_ s' - 1 -> str_ s' !! i = Some (to_char f)).
Proof.
  intros W Hn. unfold strob_reopen_if_fill_with.
  pose proof (wf_reserve s W). pose proof (wf_extra s W). pose proof (wf_length s W).
  unfold SMALL, INT_MAX in *.
  rewrite (to_size_id n) by lia. rewrite to_int_id by (unfold INT_MAX; lia).
  destruct (n >? reserve_ s) eqn:E; zbool.
  - rewrite to_size_id by lia.
    destruct (strob_reopen_fill_with_spec s (n + extra_ s) f) as (m & -> & Hm & Hlast & Hlo & Hhi);
      [unfold INT_MAX; lia | lia |].
    eexists. split; [done|]. cbn.
    replace (Z.max (n + extra_ s) 2) with (n + extra_ s) in * by lia.
    split; [constructor; cbn; unfold SMALL, INT_MAX; auto; lia|].
    split; [done|]. split; [done|]. split; [lia|]. split; [|by right].
    intros i Hi1 Hi2. apply Hlo; [rewrite <- (wf_size s W) in Hi2; unfold zlen in Hi2; lia|lia|lia].
  - exists s. do 4 (split; [done|]). split; [lia|]. split; [done|by left].
Qed.

Lemma reopen_if_is_fill s n : strob_reopen_if s n = strob_reopen_if_fill_with s n 0.
Proof. done. Qed.

(** Zero-filling keeps the text. *)
Lemma reopen_if_spec s n :
  wf s -> 0 <= n <= SMALL ->
  exists s', strob_reopen_if s (to_size n) = Some s' /\ wf s' /\ same_setup s s'
    /\ length_ s' = length_ s /\ Z.max n (reserve_ s) <= reserve_ s'
    /\ (forall i, Z.of_nat i < length_ s -> Z.of_nat i < reserve_ s ->
          str_ s' !! i = str_ s !! i)
    /\ (forall t, holds (str_ s) 0 t -> zlen t <= length_ s -> holds (str_ s') 0 t).
Proof.
  intros W Hn. rewrite reopen_if_is_fill.
  destruct (reopen_if_fill_spec s n 0 W Hn) as (s' & E & W' & Hsame & Hl & Hr & Hlo & Hhi).
  exists s'. repeat (split; [done|]). intros t (H1 & H2 & H3) Ht.
  destruct Hhi as [->|Hhi]; [done|].
  pose proof (lookup_lt_Some _ _ _ H3) as Hlt. pose proof (wf_zlen s W).
  unfold zlen in Ht. split; [done|]. split.
  - intros i Hi. rewrite Hlo by lia. by apply H2.
  - destruct (decide (Z.of_nat (length t) < length_ s)).
    + rewrite Hlo; [done|lia|lia].
    + destruct (decide (Z.of_nat (length t) < reserve_ s' - 1)).
      * by rewrite Hhi by lia.
      * replace (0 + length t)%nat with (Z.to_nat (reserve_ s' - 1)) by lia. apply wf_last, W'.
Qed.

(** The last byte of a write that reaches the end of the block must be NUL. *)
Lemma wf_write s off bs m n :
  wf s -> mem_write (str_ s) off bs = Some m -> 0 <= n <= INT_MAX ->
  off + zlen bs < reserve_ s \/ last bs = Some NUL ->
  wf (set_str m (set_len n s)).
Proof.
  intros W E Hn Hlast. pose proof (mem_write_Some _ _ _ _ E) as (Ho & Hb & _).
  pose proof (wf_reserve s W).
  constructor; cbn; try apply W; [| done |].
  - rewrite <- (wf_size s W). unfold zlen. by rewrite (mem_write_length _ _ _ _ E).
  - rewrite (mem_write_lookup _ _ _ _ _ E). rewrite (wf_size s W) in Hb.
    destruct (decide _) as [Hd|]; [|apply W].
    destruct Hlast as [|Hlast]; [lia|].
    rewrite last_lookup in Hlast. rewrite <- Hlast. f_equal. unfold zlen in *. lia.
Qed.

Lemma wf_set_str s off bs m :
  wf s -> mem_write (str_ s) off bs = Some m ->
  off + zlen bs < reserve_ s \/ last bs = Some NUL ->
  wf (set_str m s).
Proof.
  intros W E Hl. pose proof (wf_write s off bs m (length_ s) W E (wf_length s W) Hl) as W'.
  by destruct s.
Qed.

Lemma wf_terminated s : wf s -> exists t, holds (str_ s) 0 t /\ zlen t < reserve_ s.
Proof.
  intros W. exists (cstr (str_ s)).
  assert (T : terminated (str_ s) = true).
  { apply existsb_exists. exists NUL. split; [|done].
    apply list_elem_of_In, list_elem_of_lookup. eexists. apply (wf_last s W). }
  split.
  - eapply holds_intro; [apply cstr_no_nul|]. rewrite drop_0. by apply cstr_split.
  - rewrite <- (wf_size s W). by apply cstr_length_lt.
Qed.

Lemma wf_terminated_at s o :
  wf s -> (o < length (str_ s))%nat ->
  exists t, holds (str_ s) o t /\ Z.of_nat o + zlen t < reserve_ s.
Proof.
  intros W Ho. exists (cstr (drop o (str_ s))).
  pose proof (wf_zlen s W). pose proof (wf_reserve s W).
  assert (T : terminated (drop o (str_ s)) = true).
  { apply existsb_exists. exists NUL. split; [|done].
    apply list_elem_of_In, list_elem_of_lookup. exists (Z.to_nat (reserve_ s - 1) - o)%nat.
    rewrite lookup_drop. rewrite <- (wf_last s W). f_equal. lia. }
  split.
  - eapply holds_intro; [apply cstr_no_nul|]. by apply cstr_split.
  - apply cstr_length_lt in T. unfold zlen in *. rewrite length_drop in T. lia.
Qed.
End Reserve.

(** ** The operations are defined on well-formed objects and do what they say *)


(** Grant the next request: [s1] is the object after the reopen. *)
Ltac reopened s1 :=
  match goal with
  | W : wf ?s |- context [strob_reopen_if ?s (to_size ?n)] =>
      let W1 := fresh "W1" in let Hs := fresh "Hs" in let Hl := fresh "Hl" in
      let Hr := fresh "Hr" in let Hlo := fresh "Hlo" in let Ht := fresh "Ht" in
      destruct (reopen_if_spec s n W ltac:(unfold SMALL in *; lia))
        as (s1 & -> & W1 & Hs & Hl & Hr & Hlo & Ht); obind
  end.

(** The next write is inside the block. *)
Ltac written m :=
  match goal with
  | W : wf ?s |- context [mem_write (str_ ?s) ?o ?bs] =>
      let Hm := fresh "Hm" in
      destruct (mem_write_exists (str_ s) o bs) as [m Hm];
      [ try lia | rewrite ?(wf_size s W), ?zlen_app, ?zlen_cons, ?zlen_nil; try lia
      | rewrite Hm; obind ]
  end.

Section Specs.
Context `{Malloc}.
Implicit Types (s : STROB) (t u : bytes).

Lemma last_snoc_nul u : last (u ++ [NUL]) = Some NUL.
Proof. by rewrite last_snoc. Qed.

Lemma strob_open_spec n :
  n < SMALL -> exists s, strob_open n = Some s /\ text s [] /\ length_ s = 0.
Proof.
  intros Hn. unfold strob_open, strob_reopen.
  set (k := if n <=? 0 then _ else n).
  assert (Hk : 1 <= k <= SMALL)
    by (subst k; unfold STROB_INITLENGTH, SMALL in *; destruct (n <=? 0) eqn:E; zbool; lia).
  unfold SMALL in Hk.
  destruct (strob_reopen_fill_with_spec (mkSTROB [] None 0 STROB_LENGTHINCR 0 0) (k + 1) 0)
    as (m & -> & Hm & Hlast & _ & Hhi); [unfold INT_MAX; lia | cbn; lia |].
  eexists. split; [done|]. cbn in *.
  replace (Z.max (k + 1) 2) with (k + 1) in * by lia.
  split; [|done]. constructor; cbn; [|split; [apply no_nul_nil|split]|rewrite zlen_nil; lia].
  - constructor; cbn; unfold INT_MAX, SMALL, STROB_LENGTHINCR; auto; lia.
  - cbn. lia.
  - cbn. destruct (decide (0 < k)); [|lia]. by rewrite (Hhi 0%nat) by lia.
Qed.

Lemma strob_strcpy_at_offset_spec s off u :
  wf s -> 0 <= off -> no_nul u -> zlen u + off + 1 <= SMALL ->
  exists s', strob_strcpy_at_offset s off u = Some s' /\ wf s' /\ same_setup s s'
    /\ length_ s' = off + zlen u /\ holds (str_ s') (Z.to_nat off) u
    /\ (forall i, Z.of_nat i < off -> Z.of_nat i < length_ s -> Z.of_nat i < reserve_ s ->
          str_ s' !! i = str_ s !! i).
Proof.
  intros W Ho Hu Hn. pose proof (zlen_nonneg u). unfold strob_strcpy_at_offset.
  reopened s1. written m. unfold SMALL in Hn.
  rewrite to_int_id by (unfold INT_MAX; lia).
  eexists. split; [done|].
  split; [eapply wf_write; eauto using last_snoc_nul; unfold INT_MAX; lia|].
  split; [done|]. split; [done|]. cbn. split; [by eapply holds_write|].
  intros i Hi1 Hi2 Hi3. rewrite (mem_write_lookup _ _ _ _ i Hm).
  rewrite decide_False by lia. by apply Hlo.
Qed.

Lemma strob_strcpy_spec s u :
  wf s -> no_nul u -> zlen u < SMALL ->
  exists s', strob_strcpy s u = Some s' /\ text s' u /\ same_setup s s' /\ length_ s' = zlen u.
Proof.
  intros W Hu Hn. unfold strob_strcpy.
  destruct (strob_strcpy_at_offset_spec s 0 u) as (s' & -> & W' & ? & Hl & Hh & _); try done; [lia|].
  exists s'. repeat (split; try done). lia.
Qed.

(** A NUL survives a reopen, so a text never becomes longer by one. *)
Lemma reopen_if_keeps_nul s n s' i :
  wf s -> 0 <= n <= SMALL -> strob_reopen_if s (to_size n) = Some s' ->
  str_ s !! i = Some NUL -> str_ s' !! i = Some NUL.
Proof.
  intros W Hn E Hi. pose proof (lookup_lt_Some _ _ _ Hi). pose proof (wf_zlen s W).
  destruct (reopen_if_fill_spec s n 0 W Hn) as (s1 & E1 & W1 & _ & Hl & Hr & Hlo & Hhi).
  rewrite <- reopen_if_is_fill, E in E1. simplify_eq.
  destruct Hhi as [->|Hhi]; [done|].
  destruct (decide (Z.of_nat i < length_ s)); [by rewrite Hlo by lia|].
  destruct (decide (Z.of_nat i < reserve_ s1 - 1)); [by rewrite Hhi by lia|].
  replace i with (Z.to_nat (reserve_ s1 - 1)) by lia. apply wf_last, W1.
Qed.

Lemma reopen_if_shrinks s n s' o t t' :
  wf s -> 0 <= n <= SMALL -> strob_reopen_if s (to_size n) = Some s' ->
  holds (str_ s) o t -> holds (str_ s') o t' -> zlen t' <= zlen t.
Proof.
  intros W Hn E (_ & _ & Ht) (Hn' & Ht' & _).
  apply (reopen_if_keeps_nul s n s') in Ht; [|done..].
  destruct (decide (length t < length t')%nat); [|unfold zlen; lia].
  rewrite Ht' in Ht by lia. exfalso. apply Hn', list_elem_of_lookup. eauto.
Qed.

Lemma strob_strlen_wf s :
  wf s -> exists t, holds (str_ s) 0 t /\ strob_strlen s = Some (zlen t) /\ zlen t < reserve_ s.
Proof.
  intros W. destruct (wf_terminated s W) as (t & Ht & Hlt).
  exists t. repeat split; try apply Ht; [|done]. by apply strlen_at_holds.
Qed.

Lemma holds_strlen s t : holds (str_ s) 0 t -> strob_strlen s = Some (zlen t).
Proof. intros Ht. by apply strlen_at_holds. Qed.

Lemma text_strlen s t : text s t -> strob_strlen s = Some (zlen t).
Proof. intros T. apply holds_strlen, T. Qed.

Lemma text_str s t : text s t -> strob_str s = Some t.
Proof. intros T. apply str_at_0_holds, T. Qed.

Lemma text_reserve s t : text s t -> zlen t < reserve_ s.
Proof.
  intros T. destruct (text_holds s t T) as (_ & _ & H2%lookup_lt_Some).
  rewrite <- (wf_size s (text_wf s t T)). unfold zlen. lia.
Qed.

Lemma holds_app m t u :
  no_nul t -> (forall i, (i < length t)%nat -> m !! i = t !! i) ->
  holds m (length t) u -> holds m 0 (t ++ u).
Proof.
  intros Ht H1 (Hu & H2 & H3). split; [by apply no_nul_app|]. split.
  - intros i Hi. rewrite length_app in Hi. cbn.
    destruct (decide (i < length t)%nat).
    + rewrite lookup_app_l by done. by apply H1.
    + rewrite lookup_app_r by lia. rewrite <- H2 by lia. f_equal. lia.
  - cbn. by rewrite length_app.
Qed.

(** [u] written at the end of [t]. *)
Lemma strcat_holds m t u m' :
  holds m 0 t -> no_nul u -> mem_write m (zlen t) (u ++ [NUL]) = Some m' ->
  holds m' 0 (t ++ u).
Proof.
  intros (Hn & Ht & _) Hu Hm. apply holds_app; [done| |].
  - intros i Hi. rewrite (mem_write_lookup _ _ _ _ i Hm).
    unfold zlen. rewrite decide_False by lia. by apply Ht.
  - apply holds_write in Hm; [|done]. unfold zlen in Hm. by rewrite Nat2Z.id in Hm.
Qed.

Lemma strob_strcat_spec s t u :
  text s t -> no_nul u -> zlen t + zlen u < SMALL ->
  exists s', strob_strcat s u = Some s' /\ text s' (t ++ u) /\ same_setup s s'
    /\ length_ s' = zlen (t ++ u).
Proof.
  intros T Hu Hn. pose proof (zlen_nonneg u). pose proof (zlen_nonneg t).
  pose proof (text_wf s t T) as W. pose proof (text_reserve s t T).
  unfold strob_strcat. rewrite (text_strlen s t T). obind. reopened s1.
  pose proof (Ht t (text_holds s t T) (text_length s t T)) as Ht1.
  rewrite (holds_strlen s1 t) by done. obind.
  written m. unfold SMALL in Hn. rewrite to_int_id by (unfold INT_MAX; lia).
  eexists. split; [done|]. rewrite zlen_app. split; [|done].
  constructor; cbn; [eapply wf_write; eauto using last_snoc_nul; unfold INT_MAX; lia | |
    rewrite zlen_app; lia].
  by apply (strcat_holds (str_ s1)).
Qed.

(** Whatever the recorded length is, [u] ends up behind some text [t]. *)
Lemma strob_strcat_safe s u :
  wf s -> no_nul u -> reserve_ s + zlen u <= SMALL ->
  exists s' t, strob_strcat s u = Some s' /\ wf s' /\ holds (str_ s') 0 (t ++ u).
Proof.
  intros W Hu Hn. pose proof (zlen_nonneg u).
  unfold strob_strcat. destruct (strob_strlen_wf s W) as (t & Ht & -> & Hlt). obind.
  pose proof (zlen_nonneg t).
  destruct (reopen_if_spec s (zlen t + zlen u + 1) W) as (s1 & E & W1 & _ & Hl & Hr & _);
    [unfold SMALL in *; lia|]. rewrite E. obind.
  destruct (strob_strlen_wf s1 W1) as (t1 & Ht1 & -> & Hlt1). obind.
  assert (zlen t1 <= zlen t)
    by (apply (reopen_if_shrinks s (zlen t + zlen u + 1) s1 0); try done; unfold SMALL in *; lia).
  pose proof (zlen_nonneg t1).
  written m. eexists _, t1. split; [done|]. unfold SMALL in Hn.
  rewrite to_int_id by (unfold INT_MAX; lia).
  split; [eapply wf_write; eauto using last_snoc_nul; unfold INT_MAX; lia|].
  by apply (strcat_holds (str_ s1)).
Qed.
End Specs.

Section MoreSpecs.
Context `{Malloc}.
Implicit Types (s : STROB) (t u : bytes).

(** *** strob_chr_index, strob_chr *)

(** The two assignments that extend the buffer up to [index]. *)
Definition chr_extend (s : STROB) (index : Z) : option STROB :=
  s ← (if index >=? length_ s
       then m ← memset (str_ s) (length_ s) (to_char (fill_charM s)) (index - length_ s + 1);
            m ← mem_write m (index + 1) [NUL];
            Some (set_str m s)
       else Some s);
  (if index >? length_ s - 1
   then m ← mem_write (str_ s) (index + 1) [NUL];
        Some (set_str m (set_len (index + 1) s))
   else Some s).

Lemma strob_chr_index_unfold s index ch :
  strob_chr_index s index ch
  = s ← strob_reopen_if_fill_with s (to_size (index + 2)) (fill_charM s);
    s ← chr_extend s index;
    m ← mem_write (str_ s) index [to_char ch]; Some (set_str m s).
Proof.
  unfold strob_chr_index, chr_extend.
  destruct (strob_reopen_if_fill_with _ _ _) as [s1|]; [|done]. obind.
  destruct (index >=? length_ s1); [|done].
  destruct (memset _ _ _ _) as [m|]; [|done]. obind.
  by destruct (mem_write m _ _).
Qed.

Lemma mem_write_same_nul m i m' :
  mem_write m i [NUL] = Some m' -> mem_write m' i [NUL] = Some m'.
Proof.
  intros E. pose proof (mem_write_Some _ _ _ _ E) as (H1 & H2 & _).
  destruct (mem_write_exists m' i [NUL]) as [m2 E2]; [done| |].
  { unfold zlen in *. by rewrite (mem_write_length _ _ _ _ E). }
  rewrite E2. f_equal. apply list_eq. intros j.
  rewrite (mem_write_lookup _ _ _ _ j E2), (mem_write_lookup _ _ _ _ j E).
  by destruct (decide _).
Qed.

Lemma chr_extend_spec s index :
  wf s -> 0 <= index -> index + 2 <= reserve_ s ->
  exists s', chr_extend s index = Some s' /\ wf s' /\ same_setup s s'
    /\ reserve_ s' = reserve_ s /\ length_ s' = Z.max (length_ s) (index + 1)
    /\ (forall i, Z.of_nat i < length_ s -> str_ s' !! i = str_ s !! i)
    /\ (forall i, length_ s <= Z.of_nat i <= index -> str_ s' !! i = Some (to_char (fill_charM s)))
    /\ (length_ s <= index -> str_ s' !! Z.to_nat (index + 1) = Some NUL).
Proof.
  intros W Hi Hr. pose proof (wf_reserve s W). pose proof (wf_length s W). unfold chr_extend.
  destruct (index >=? length_ s) eqn:E; zbool.
  2:{ obind. assert ((index >? length_ s - 1) = false) as -> by (rewrite Z.gtb_ltb; apply Z.ltb_ge; lia).
      exists s. do 4 (split; [done|]). split; [lia|]. repeat split; intros; lia || done. }
  unfold memset at 1. replace (index - length_ s + 1 <? 0) with false by (symmetry; apply Z.ltb_ge; lia).
  set (r := replicate _ _).
  assert (Hzr : zlen r = index - length_ s + 1) by (subst r; rewrite zlen_replicate; lia).
  destruct (mem_write_exists (str_ s) (length_ s) r) as [m1 E1]; [lia|rewrite wf_size by done; lia|].
  rewrite E1. obind.
  assert (W1 : wf (set_str m1 s)) by (eapply wf_set_str; eauto; left; lia).
  destruct (mem_write_exists m1 (index + 1) [NUL]) as [m2 E2]; [lia | |].
  { rewrite zlen_cons, zlen_nil. pose proof (wf_size _ W1) as Hz. cbn in Hz. lia. }
  rewrite E2. obind. cbn [length_ set_str].
  assert ((index >? length_ s - 1) = true) as -> by (rewrite Z.gtb_ltb; apply Z.ltb_lt; lia).
  cbn [str_ set_str]. rewrite (mem_write_same_nul _ _ _ E2). obind.
  eexists. split; [done|]. split.
  { apply (wf_write _ _ _ _ (index + 1) W1 E2); [unfold INT_MAX in *; lia | by right]. }
  split; [done|]. split; [done|]. cbn. split; [lia|].
  pose proof (fun i => mem_write_lookup _ _ _ _ i E1) as L1. rewrite Hzr in L1.
  pose proof (fun i => mem_write_lookup _ _ _ _ i E2) as L2. rewrite zlen_cons, zlen_nil in L2.
  split; [|split]; intros; rewrite L2.
  - rewrite decide_False, L1, decide_False by lia. done.
  - rewrite decide_False, L1, decide_True by lia. subst r.
    apply lookup_replicate. split; [done|lia].
  - rewrite decide_True by lia. by rewrite Nat.sub_diag.
Qed.

Lemma strob_chr_index_spec s index ch :
  wf s -> 0 <= index -> index + 2 <= SMALL ->
  exists s', strob_chr_index s index ch = Some s' /\ wf s' /\ same_setup s s'
    /\ length_ s' = Z.max (length_ s) (index + 1)
    /\ str_ s' !! Z.to_nat index = Some (to_char ch)
    /\ (forall i, Z.of_nat i < length_ s -> Z.of_nat i < reserve_ s -> Z.of_nat i <> index ->
          str_ s' !! i = str_ s !! i)
    /\ (forall i, length_ s <= Z.of_nat i < index ->
          str_ s' !! i = Some (to_char (fill_charM s)))
    /\ (length_ s <= index -> str_ s' !! Z.to_nat (index + 1) = Some NUL).
Proof.
  intros W Hi Hn. rewrite strob_chr_index_unfold.
  destruct (reopen_if_fill_spec s (index + 2) (fill_charM s) W)
    as (s1 & -> & W1 & S1 & Hl1 & Hr1 & Hlo1 & _); [lia|]. obind.
  destruct (chr_extend_spec s1 index) as (s2 & -> & W2 & S2 & Hr2 & Hl2 & Hlo2 & Hm2 & Hh2);
    [done|done|lia|]. obind.
  written m. eexists. split; [done|].
  split; [eapply wf_set_str; eauto; left; rewrite zlen_cons, zlen_nil; lia|].
  split; [by eapply same_setup_trans; [exact S1|exact S2]|]. cbn. split; [lia|].
  pose proof (fun i => mem_write_lookup _ _ _ _ i Hm) as L. rewrite zlen_cons, zlen_nil in L.
  split; [|split; [|split]]; intros; rewrite L.
  - rewrite decide_True by lia. by rewrite Nat.sub_diag.
  - rewrite decide_False, Hlo2 by lia. by apply Hlo1.
  - rewrite decide_False, Hm2 by lia. by destruct S1 as (_ & -> & _).
  - rewrite decide_False, Hh2 by lia. done.
Qed.

Lemma no_nul_single ch : to_char ch <> NUL -> no_nul [to_char ch].
Proof. intros. apply no_nul_cons. split; [done|apply no_nul_nil]. Qed.

Lemma strob_chr_spec s t ch :
  text s t -> length_ s = zlen t -> zlen t + 2 <= SMALL -> to_char ch <> NUL ->
  exists s', strob_chr s ch = Some s' /\ text s' (t ++ [to_char ch])
    /\ length_ s' = zlen t + 1.
Proof.
  intros T Hl Hn Hc. pose proof (zlen_nonneg t). pose proof (text_reserve s t T).
  unfold strob_chr. rewrite (text_strlen s t T). obind.
  destruct (strob_chr_index_spec s (zlen t) ch (text_wf s t T)) as
    (s' & -> & W' & _ & Hl' & Hc' & Hlo & _ & Hnul); [lia|lia|].
  exists s'. split; [done|]. split; [|lia]. destruct (text_holds s t T) as (Hnt & Ht & _).
  constructor; [done| |rewrite zlen_app, zlen_cons, zlen_nil; lia].
  unfold zlen in *. apply holds_app; [done| |].
  - intros i Hi. rewrite Hlo by lia. by apply Ht.
  - split; [by apply no_nul_single|]. split.
    + intros [|i] Hi; [|cbn in Hi; lia]. rewrite Nat.add_0_r. cbn. rewrite <- Hc'. f_equal. lia.
    + rewrite <- Hnul by lia. f_equal. cbn [length]. lia.
Qed.

(** *** strob_set_memlength, strob_set_length *)

Lemma strob_set_memlength_spec s len :
  wf s -> 0 <= len <= SMALL ->
  exists s', strob_set_memlength s len = Some s' /\ wf s' /\ length_ s' = len
    /\ Z.max len (reserve_ s) <= reserve_ s' /\ same_setup s s'
    /\ (forall i, Z.of_nat i < length_ s -> Z.of_nat i < reserve_ s ->
          str_ s' !! i = str_ s !! i)
    /\ (forall t, text s t -> zlen t <= len -> text s' t).
Proof.
  intros W Hn. unfold strob_set_memlength. reopened s1.
  assert (W2 : wf (set_len len s1)).
  { constructor; cbn; try apply W1. unfold SMALL, INT_MAX in *. lia. }
  eexists. split; [done|]. split; [exact W2|]. split; [done|]. split; [done|].
  split; [done|]. split; [done|]. intros t T Hle. constructor; [done|cbn|done].
  apply Ht; apply T.
Qed.

Lemma strob_set_length_spec s len :
  wf s -> 0 <= len < SMALL ->
  exists s', strob_set_length s len = Some s' /\ wf s' /\ length_ s' = len + 1
    /\ str_ s' !! Z.to_nat len = Some NUL
    /\ (forall i, Z.of_nat i < len -> Z.of_nat i < length_ s -> Z.of_nat i < reserve_ s ->
          str_ s' !! i = str_ s !! i).
Proof.
  intros W Hn. unfold strob_set_length.
  destruct (strob_set_memlength_spec s (len + 1) W) as (s1 & -> & W1 & Hl & Hr & _ & Hlo & _);
    [lia|]. obind. written m.
  eexists. split; [done|].
  split; [eapply wf_set_str; eauto|]. cbn. split; [done|].
  pose proof (fun i => mem_write_lookup _ _ _ _ i Hm) as L. rewrite zlen_cons, zlen_nil in L.
  split; intros; rewrite L.
  - rewrite decide_True by lia. by rewrite Nat.sub_diag.
  - rewrite decide_False by lia. by apply Hlo.
Qed.

(** *** strob_set_up and the binary interface *)

Lemma strob_set_up_spec s n :
  wf s -> 0 <= n < SMALL ->
  exists s', strob_set_up s n = Some s' /\ wf s' /\ same_setup s s'
    /\ length_ s' = Z.max n (length_ s) /\ n < reserve_ s'
    /\ (forall i, Z.of_nat i < length_ s -> Z.of_nat i < reserve_ s ->
          str_ s' !! i = str_ s !! i)
    /\ (length_ s < n -> str_ s' !! Z.to_nat n = Some NUL).
Proof.
  intros W Hn. unfold strob_set_up. reopened s1.
  destruct (n >? length_ s1) eqn:E; zbool.
  - written m. eexists. split; [done|].
    split; [eapply wf_write; eauto; unfold SMALL, INT_MAX in *; lia|].
    split; [done|]. cbn. split; [lia|]. split; [lia|].
    pose proof (fun i => mem_write_lookup _ _ _ _ i Hm) as L. rewrite zlen_cons, zlen_nil in L.
    split; intros; rewrite L.
    + rewrite decide_False by lia. by apply Hlo.
    + rewrite decide_True by lia. by rewrite Nat.sub_diag.
  - exists s1. do 3 (split; [done|]). split; [lia|]. split; [lia|]. split; [done|lia].
Qed.

(** The bytes [bs] are stored from the offset [off] on. *)
Definition stored (m : bytes) (off : Z) (bs : bytes) : Prop :=
  forall i, (i < length bs)%nat -> m !! (Z.to_nat off + i)%nat = bs !! i.

Lemma mem_write_stored m off bs m' : mem_write m off bs = Some m' -> stored m' off bs.
Proof.
  intros E i Hi. pose proof (mem_write_Some _ _ _ _ E) as (? & _ & _).
  rewrite (mem_write_lookup _ _ _ _ _ E). unfold zlen.
  rewrite decide_True by lia. f_equal. lia.
Qed.

Lemma strob_memmove_to_spec s off bs :
  wf s -> 0 <= off -> off + zlen bs < SMALL ->
  exists s', strob_memmove_to s off bs = Some s' /\ wf s'
    /\ length_ s' = Z.max (off + zlen bs) (length_ s)
    /\ stored (str_ s') off bs
    /\ (forall i, Z.of_nat i < off -> Z.of_nat i < length_ s -> Z.of_nat i < reserve_ s ->
          str_ s' !! i = str_ s !! i).
Proof.
  intros W Ho Hn. pose proof (zlen_nonneg bs). unfold strob_memmove_to.
  rewrite to_int_id by (unfold SMALL, INT_MAX in *; lia).
  destruct (strob_set_up_spec s (off + zlen bs) W) as (s1 & -> & W1 & _ & Hl & Hr & Hlo & _);
    [lia|]. obind. written m.
  eexists. split; [done|]. split; [eapply wf_set_str; eauto; by left|]. split; [done|].
  split; [by eapply mem_write_stored|]. cbn. intros i Hi1 Hi2 Hi3.
  rewrite (mem_write_lookup _ _ _ _ i Hm), decide_False by lia. by apply Hlo.
Qed.

Lemma strob_memcpy_at_is_memmove_to s off bs :
  0 <= off -> off + zlen bs < SMALL -> strob_memcpy_at s off bs = strob_memmove_to s off bs.
Proof.
  intros. pose proof (zlen_nonneg bs). unfold strob_memcpy_at, strob_memmove_to.
  unfold SMALL in *. rewrite !to_int_id by (unfold INT_MAX; lia). by rewrite Z.add_comm.
Qed.

Lemma strob_memcpy_is_memmove s bs : strob_memcpy s bs = strob_memmove s bs.
Proof. done. Qed.

Lemma strob_memset_is_memmove s c n :
  0 <= n < SMALL -> strob_memset s c n = strob_memmove s (replicate (Z.to_nat n) (to_char c)).
Proof.
  intros. unfold strob_memset, strob_memmove, strob_memmove_to, memset.
  rewrite zlen_replicate, Z.add_0_l, Z2Nat.id by lia. ztest. done.
Qed.
End MoreSpecs.

Section TextSpecs.
Context `{Malloc}.
Implicit Types (s : STROB) (t u : bytes).

Lemma holds_nil m o : m !! o = Some NUL -> holds m o [].
Proof.
  intros E. split; [apply no_nul_nil|]. split; [cbn; lia|]. by rewrite Nat.add_0_r.
Qed.

(** A NUL written inside a text cuts it. *)
Lemma holds_cut m t i m' :
  holds m 0 t -> (i <= length t)%nat -> mem_write m (Z.of_nat i) [NUL] = Some m' ->
  holds m' 0 (take i t).
Proof.
  intros (H1 & H2 & H3) Hi E. pose proof (fun j => mem_write_lookup _ _ _ _ j E) as L.
  rewrite zlen_cons, zlen_nil in L.
  assert (Hl : length (take i t) = i) by (rewrite length_take; lia).
  split; [by apply no_nul_take|]. rewrite Hl. split.
  - intros j Hj. rewrite L, decide_False by lia. rewrite lookup_take_lt by done. apply H2. lia.
  - rewrite L, decide_True by lia. cbn. by rewrite Nat2Z.id, Nat.sub_diag.
Qed.

Lemma text_cut s t i m :
  text s t -> (i <= length t)%nat -> mem_write (str_ s) (Z.of_nat i) [NUL] = Some m ->
  text (set_str m s) (take i t).
Proof.
  intros T Hi E. constructor.
  - eapply wf_set_str; [apply T|exact E|by right].
  - eapply holds_cut; [apply T|done|done].
  - pose proof (text_length s t T). cbn. unfold zlen in *. rewrite length_take. lia.
Qed.

Lemma strob_strncat_spec s t u n :
  text s t -> no_nul u -> 0 <= n -> zlen t + n < SMALL ->
  exists s', strob_strncat s u n = Some s' /\ text s' (t ++ take (Z.to_nat n) u)
    /\ length_ s' = zlen (t ++ take (Z.to_nat n) u).
Proof.
  intros T Hu Hn Hb. pose proof (zlen_nonneg t). pose proof (text_reserve s t T).
  pose proof (text_wf s t T) as W. unfold strob_strncat.
  rewrite to_int_id by (unfold SMALL, INT_MAX in *; lia).
  rewrite (to_size_id n) by (unfold SMALL in *; lia).
  rewrite (text_strlen s t T). obind. reopened s1.
  pose proof (Ht t (text_holds s t T) (text_length s t T)) as Ht1.
  rewrite (holds_strlen s1 t) by done. obind.
  set (v := take (Z.to_nat n) u).
  assert (Hv : no_nul v) by (by apply no_nul_take).
  assert (zlen v <= n) by (subst v; unfold zlen; rewrite length_take; lia).
  pose proof (zlen_nonneg v). written m.
  assert (Hm2 : holds m 0 (t ++ v)) by (by apply (strcat_holds (str_ s1))).
  rewrite (strlen_at_holds m 0 (t ++ v)) by done. obind.
  assert (W2 : wf (set_str m s1)) by (eapply wf_set_str; eauto using last_snoc_nul).
  destruct (mem_write_exists m (zlen (t ++ v)) [NUL]) as [m2 E2]; [apply zlen_nonneg| |].
  { pose proof (wf_size _ W2) as Hz. cbn in Hz. rewrite Hz, zlen_app, zlen_cons, zlen_nil. lia. }
  rewrite E2. obind. eexists. split; [done|]. split; [|done]. constructor; [| |cbn; lia].
  - apply (wf_write _ _ _ _ (zlen (t ++ v)) W2 E2); [|by right].
    rewrite zlen_app. unfold SMALL, INT_MAX in *. lia.
  - cbn. replace (t ++ v) with (take (length (t ++ v)) (t ++ v)) by (by rewrite take_ge).
    eapply holds_cut; [exact Hm2|done|exact E2].
Qed.

Lemma strncpy_bytes_holds m u n m2 m3 :
  no_nul u -> mem_write m 0 (strncpy_bytes u n) = Some m2 ->
  mem_write m2 (Z.of_nat n) [NUL] = Some m3 -> holds m3 0 (take n u).
Proof.
  intros Hu E2 E3. pose proof (fun j => mem_write_lookup _ _ _ _ j E2) as L2.
  pose proof (fun j => mem_write_lookup _ _ _ _ j E3) as L3.
  rewrite zlen_cons, zlen_nil in L3.
  assert (Hz : length (strncpy_bytes u n) = n).
  { unfold strncpy_bytes. rewrite length_app, length_take, length_replicate. lia. }
  unfold zlen in L2. rewrite Hz in L2.
  split; [by apply no_nul_take|]. rewrite length_take. split.
  - intros i Hi. cbn. rewrite L3, decide_False, L2, decide_True by lia.
    rewrite Nat.sub_0_r. unfold strncpy_bytes. apply lookup_app_l. rewrite length_take. lia.
  - cbn. destruct (decide (n <= length u)%nat).
    + rewrite L3, decide_True by lia. cbn.
      by replace (n `min` length u - Z.to_nat (Z.of_nat n))%nat with 0%nat by lia.
    + rewrite L3, decide_False, L2, decide_True by lia. unfold strncpy_bytes.
      rewrite lookup_app_r by (rewrite length_take; lia).
      apply lookup_replicate. rewrite length_take. split; [done|lia].
Qed.

Lemma strob_strncpy_spec s u n :
  wf s -> no_nul u -> 0 <= n < SMALL ->
  exists s', strob_strncpy s u n = Some s' /\ text s' (take (Z.to_nat n) u)
    /\ length_ s' = zlen (take (Z.to_nat n) u).
Proof.
  intros W Hu Hn. unfold strob_strncpy. reopened s1.
  assert (Hz : zlen (strncpy_bytes u (Z.to_nat n)) = n).
  { unfold zlen, strncpy_bytes. rewrite length_app, length_take, length_replicate. lia. }
  destruct (mem_write_exists (str_ s1) 0 (strncpy_bytes u (Z.to_nat n))) as [m2 E2];
    [done|rewrite Hz, wf_size by done; lia|]. rewrite E2. obind.
  assert (W2 : wf (set_str m2 s1)) by (eapply wf_set_str; eauto; left; lia).
  destruct (mem_write_exists m2 n [NUL]) as [m3 E3]; [lia| |].
  { pose proof (wf_size _ W2) as Hz2. cbn in Hz2. rewrite Hz2, zlen_cons, zlen_nil. lia. }
  rewrite E3. obind.
  assert (Hh : holds m3 0 (take (Z.to_nat n) u)).
  { eapply strncpy_bytes_holds; [done|exact E2|]. by rewrite Z2Nat.id by lia. }
  rewrite (strlen_at_holds m3 0 _ ltac:(lia) Hh). obind.
  eexists. split; [done|]. split; [|done]. constructor; [|exact Hh|cbn; lia].
  apply (wf_write _ _ _ _ (zlen (take (Z.to_nat n) u)) W2 E3); [|by right].
  pose proof (zlen_nonneg u). rewrite zlen_take. unfold SMALL, INT_MAX in *. lia.
Qed.

Lemma strob_charcat_spec s t ch :
  text s t -> zlen t + 1 < SMALL ->
  exists s', strob_charcat s ch = Some s' /\ text s' (t ++ cstr [to_char ch]).
Proof.
  intros T Hb. unfold strob_charcat. destruct (ch =? 0) eqn:E; cbn [negb]; zbool.
  - subst ch. change (cstr [to_char 0]) with (@nil ascii). rewrite app_nil_r.
    destruct (strob_strcat_spec s t (L "X") T) as (s1 & -> & T1 & _);
      [apply no_nul_cons; split; [done|apply no_nul_nil] | done |]. obind.
    rewrite (text_strlen _ _ T1). obind.
    rewrite zlen_app. change (zlen (L "X")) with 1.
    replace (zlen t + 1 - 1) with (Z.of_nat (length t)) by (unfold zlen; lia).
    destruct (mem_write_exists (str_ s1) (Z.of_nat (length t)) [NUL]) as [m Hm]; [lia| |].
    { pose proof (text_reserve _ _ T1) as Hr. rewrite zlen_app in Hr.
      change (zlen (L "X")) with 1 in Hr.
      rewrite (wf_size s1) by apply T1. rewrite zlen_cons, zlen_nil. unfold zlen in *. lia. }
    rewrite Hm. obind. eexists. split; [done|].
    assert (Hle : (length t <= length (t ++ L "X"))%nat) by (rewrite length_app; lia).
    pose proof (text_cut s1 _ (length t) m T1 Hle Hm) as T2. by rewrite take_app_length in T2.
  - assert (Hc : cstr [to_char ch; NUL] = cstr [to_char ch]) by (cbn; by destruct (is_nul _)).
    rewrite Hc. assert (zlen (cstr [to_char ch]) <= 1) by apply (cstr_length [to_char ch]).
    destruct (strob_strcat_spec s t (cstr [to_char ch]) T) as (s1 & -> & T1 & _);
      [apply cstr_no_nul | lia |]. eauto.
Qed.

(** The text before the first [c]. *)
Definition cut_at (c : ascii) (t : bytes) : bytes :=
  match strchr t c with Some i => take i t | None => t end.

Lemma chomp_at_spec s t c :
  text s t -> exists m, chomp_at c (str_ s) = Some m /\ text (set_str m s) (cut_at c t).
Proof.
  intros T. unfold chomp_at, cut_at.
  rewrite (proj2 (str_at_0_holds _ _) (text_holds s t T)). obind.
  destruct (strchr t c) as [i|] eqn:E.
  - apply find_index_Some in E as (_ & _ & _ & _ & Hi).
    destruct (mem_write_exists (str_ s) (Z.of_nat i) [NUL]) as [m Hm]; [lia| |].
    { pose proof (text_reserve _ _ T). rewrite (wf_size s) by apply T.
      rewrite zlen_cons, zlen_nil. unfold zlen in *. lia. }
    exists m. split; [done|]. apply text_cut; [done|lia|done].
  - exists (str_ s). split; [done|]. destruct s; apply T.
Qed.

Lemma strob_chomp_spec s t :
  text s t ->
  exists s', strob_chomp s = Some s' /\ text s' (cut_at "013"%char (cut_at "010"%char t)).
Proof.
  intros T. unfold strob_chomp.
  destruct (chomp_at_spec s t "010"%char T) as (m & -> & T1). obind.
  destruct (chomp_at_spec (set_str m s) _ "013"%char T1) as (m2 & E2 & T2). cbn in E2.
  rewrite E2. obind. eexists. by split.
Qed.
End TextSpecs.

Section TruncPrintf.
Context `{Malloc}.
Implicit Types (s : STROB) (t u out : bytes).

Lemma strob_trunc_spec s t :
  text s t ->
  exists s', strob_trunc s = Some s' /\ text s' (take 32 t) /\ length_ s' = length_ s
    /\ reserve_ s' = 33.
Proof.
  intros T. pose proof (text_wf s t T) as W. pose proof (wf_length s W).
  unfold strob_trunc, strob_reopen.
  destruct (strob_reopen_fill_with_spec s (STROB_INITLENGTH + 1) 0)
    as (m & -> & Hm & Hlast & Hlo & Hhi); [unfold STROB_INITLENGTH, INT_MAX; lia|lia|].
  change (Z.max (STROB_INITLENGTH + 1) 2) with 33 in *. change (Z.to_nat (33 - 1)) with 32%nat in *.
  eexists. split; [done|]. split; [|done].
  destruct (text_holds s t T) as (H1 & H2 & H3). pose proof (text_length s t T) as Hl.
  pose proof (lookup_lt_Some _ _ _ H3) as Hlt.
  constructor; cbn.
  - constructor; cbn; [done| | apply W | apply W | done]. unfold INT_MAX. lia.
  - split; [by apply no_nul_take|]. rewrite length_take. unfold zlen in Hl. split.
    + intros i Hi. rewrite lookup_take_lt by lia. cbn. rewrite Hlo by lia. apply H2. lia.
    + destruct (decide (32 <= length t)%nat).
      * by replace (0 + 32 `min` length t)%nat with 32%nat by lia.
      * replace (0 + 32 `min` length t)%nat with (length t) by lia.
        destruct (decide (Z.of_nat (length t) < length_ s)).
        -- rewrite Hlo by lia. exact H3.
        -- by rewrite Hhi by lia.
  - rewrite zlen_take. lia.
Qed.

(** *** The retry loop of strob_vsprintf *)

Lemma strob_set_memlength_same s :
  wf s -> strob_set_memlength s (reserve_ s + 0) = Some (set_len (reserve_ s) s).
Proof.
  intros W. pose proof (wf_reserve s W). unfold strob_set_memlength, strob_reopen_if.
  unfold INT_MAX in *. rewrite Z.add_0_r, to_size_id, to_int_id by (unfold INT_MAX; lia).
  by rewrite Z.gtb_ltb, Z.ltb_irrefl.
Qed.

(** The loop writes at the offset [o], behind the bytes [p]; when [nul] holds,
    [start_of] finds [o] as the end of the text. *)
Definition prefix (s : STROB) (p : bytes) : Prop :=
  forall i, (i < length p)%nat -> str_ s !! i = p !! i.

Record head (p : bytes) (nul : bool) (s : STROB) : Prop := {
  head_wf : wf s;
  head_room : zlen p < reserve_ s;
  head_prefix : prefix s p;
  head_nul : nul = true -> str_ s !! length p = Some NUL;
}.

Definition finds (start_of : STROB -> option Z) (p : bytes) (nul : bool) : Prop :=
  forall s : STROB, head p nul s -> start_of s = Some (zlen p).

(** One write of the formatted output behind [p]. *)
Lemma vsnprintf_spec s p nul out :
  head p nul s -> no_nul out ->
  exists m v, vsnprintf (str_ s) (zlen p) (reserve_ s - zlen p) out = Some (m, zlen out)
    /\ v = take (Z.to_nat (reserve_ s - zlen p - 1)) out
    /\ wf (set_str m s) /\ prefix (set_str m s) p /\ holds m (length p) v.
Proof.
  intros [W Hr Hp _] Ho. pose proof (zlen_nonneg p). pose proof (zlen_nonneg out).
  unfold vsnprintf. ztest. set (v := take _ out).
  assert (Hv : no_nul v) by (by apply no_nul_take).
  assert (zlen v <= reserve_ s - zlen p - 1) by (subst v; rewrite zlen_take; lia).
  written m. exists m, v. split; [done|]. split; [done|].
  split; [eapply wf_set_str; eauto using last_snoc_nul|]. cbn. split.
  - intros i Hi. cbn. rewrite (mem_write_lookup _ _ _ _ i Hm).
    unfold zlen. rewrite decide_False by lia. by apply Hp.
  - apply holds_write in Hm; [|done]. unfold zlen in Hm. by rewrite Nat2Z.id in Hm.
Qed.

(** Clearing the output of the previous round, then enlarging the buffer. *)
Lemma vsprintf_grow s p nul added oldend :
  head p (match oldend with Some _ => false | None => nul end) s ->
  (oldend = Some (zlen p) /\ zlen p < length_ s \/ oldend = None /\ added = 0) ->
  0 <= added -> reserve_ s + added <= SMALL ->
  exists s2, (s1 ← clear_oldend s oldend;
              strob_set_memlength s1 (reserve_ s1 + added)) = Some s2
    /\ head p nul s2 /\ length_ s2 = reserve_ s + added /\ reserve_ s + added <= reserve_ s2.
Proof.
  intros [W Hr Hp Hn] Hold Ha Hb. pose proof (zlen_nonneg p). pose proof (wf_reserve s W).
  destruct Hold as [[-> Hl]|[-> ->]]; cbn [clear_oldend]; obind.
  - written m. assert (W1 : wf (set_str m s)) by (eapply wf_set_str; eauto).
    pose proof (fun j => mem_write_lookup _ _ _ _ j Hm) as L. rewrite zlen_cons, zlen_nil in L.
    destruct (strob_set_memlength_spec (set_str m s) (reserve_ s + added) W1)
      as (s2 & E & W2 & Hl2 & Hr2 & _ & Hlo & _); [lia|]. cbn in *. rewrite E.
    exists s2. split; [done|]. split; [|split; [done|lia]].
    unfold zlen in *. constructor; [done|unfold zlen; lia| |].
    + intros i Hi. rewrite Hlo, L, decide_False by lia. by apply Hp.
    + intros _. rewrite Hlo, L, decide_True by lia. by rewrite Nat2Z.id, Nat.sub_diag.
  - rewrite (strob_set_memlength_same s W). eexists. split; [done|]. cbn.
    split; [|split; lia]. constructor; cbn; try done. constructor; cbn; try apply W. lia.
Qed.

(** From a buffer with [p] in front, the loop ends with the whole output
    behind [p]: the fuel covers every growth still needed. *)
Lemma vsprintf_loop_spec start_of p nul out fuel :
  finds start_of p nul -> no_nul out -> zlen p + zlen out <= 2 ^ 28 ->
  forall s added oldend,
  head p (match oldend with Some _ => false | None => nul end) s ->
  (oldend = Some (zlen p) /\ zlen p < length_ s \/ oldend = None /\ added = 0) ->
  0 <= added <= reserve_ s + 128 -> reserve_ s <= 2 ^ 28 ->
  (if added =? 0 then 1 else 0) + Z.max 0 (zlen p + zlen out + 1 - reserve_ s) < Z.of_nat fuel ->
  (added =? 0) || (128 <=? added) = true ->
  exists s', vsprintf_loop fuel s start_of out added oldend = Some (s', zlen out)
    /\ wf s' /\ prefix s' p /\ holds (str_ s') (length p) out
    /\ (zlen p + zlen out < reserve_ s -> added = 0 -> length_ s' = reserve_ s).
Proof.
  intros D Ho Hsz. induction fuel as [|fuel IH]; intros s added oldend Hh Hold Ha Hr Hf Hm.
  { destruct (added =? 0); lia. }
  pose proof (zlen_nonneg p). pose proof (zlen_nonneg out). cbn [vsprintf_loop].
  destruct (vsprintf_grow s p nul added oldend Hh Hold) as (s2 & E & H2 & Hl2 & Hr2);
    [lia | unfold SMALL; lia |].
  assert (reserve_ s >= 2) by (pose proof (wf_reserve s (head_wf _ _ _ Hh)); lia).
  destruct (clear_oldend s oldend) as [s1|];
    [cbn [mbind option_bind] in E |- * | discriminate E].
  rewrite E. obind. rewrite (D s2 H2). obind.
  destruct (vsnprintf_spec s2 p nul out H2 Ho) as (m & v & -> & Hv & W3 & P3 & V3). obind.
  assert ((zlen out <? 0) = false) as -> by (apply Z.ltb_ge; lia). cbn [orb].
  destruct (zlen out >=? reserve_ s2 - zlen p) eqn:Eret; zbool.
  - destruct (IH (set_str m s2) (added + 128) (Some (zlen p)))
      as (s' & -> & HW & HP & HH & _); clear IH; cbn [set_str reserve_ length_ str_] in *.
    + constructor; cbn; [done|apply H2|done|done].
    + left. split; [done|]. pose proof (head_room _ _ _ Hh). lia.
    + lia.
    + lia.
    + ztest. destruct (added =? 0) eqn:Ea; zbool; [lia|]. cbn in Hm. zbool. lia.
    + ztest. done.
    + exists s'. repeat (split; [done|]). intros. exfalso. lia.
  - rewrite take_ge in Hv by (unfold zlen in *; lia). subst v.
    eexists. split; [done|]. do 3 (split; [done|]). cbn. lia.
Qed.

Lemma vsprintf_fuel_enough (p : bytes) out added s :
  added = 0 -> zlen p < reserve_ s ->
  (if added =? 0 then 1 else 0) + Z.max 0 (zlen p + zlen out + 1 - reserve_ s)
    < Z.of_nat (vsprintf_fuel out).
Proof.
  intros -> Hr. unfold vsprintf_fuel. pose proof (zlen_nonneg out).
  unfold zlen in *. cbn -[Z.max]. lia.
Qed.

(** strob_vsprintf returns, whatever the size of the output: the text in the
    buffer is the old one (when appending) and the output. *)
Lemma strob_vsprintf_spec s t (do_append : bool) out :
  wf s -> strob_str s = Some t -> no_nul out ->
  reserve_ s <= 2 ^ 28 -> zlen t + zlen out <= 2 ^ 28 ->
  exists s', strob_vsprintf s do_append out = Some (s', zlen out) /\ wf s'
    /\ strob_str s' = Some ((if do_append then t else []) ++ out)
    /\ (zlen t + zlen out < reserve_ s -> length_ s' = reserve_ s).
Proof.
  intros W Ht Ho Hr Hsz. apply str_at_0_holds in Ht.
  pose proof (zlen_nonneg t). pose proof (zlen_nonneg out). pose proof (wf_reserve s W).
  set (p := if do_append then t else []).
  assert (Hp : holds (str_ s) 0 t -> prefix s p /\ no_nul p /\ zlen p <= zlen t).
  { intros (Hq1 & Hq2 & _). subst p. destruct do_append; [by repeat split|].
    split; [intros i Hi; cbn in Hi; lia|]. split; [apply no_nul_nil|]. rewrite zlen_nil. lia. }
  destruct (Hp Ht) as (Hpre & Hnp & Hpl).
  destruct Ht as (Hnt & Htb & Htn). pose proof (lookup_lt_Some _ _ _ Htn) as Hlt.
  pose proof (wf_zlen s W) as Hz. unfold strob_vsprintf.
  destruct (vsprintf_loop_spec (vsprintf_start do_append) p do_append out (vsprintf_fuel out))
    with (s := s) (added := 0) (oldend := @None Z) as (s' & -> & W' & P' & H' & Hl').
  - intros x [Wx Rx Px Nx]. subst p. unfold vsprintf_start. destruct do_append; [|done].
    apply holds_strlen. split; [done|]. split; [exact Px|by apply Nx].
  - done.
  - lia.
  - constructor; [done|unfold zlen in *; lia|done|]. intros ->. exact Htn.
  - by right.
  - lia.
  - done.
  - apply vsprintf_fuel_enough; [done|unfold zlen in *; lia].
  - done.
  - exists s'. split; [done|]. split; [done|]. split; [|intros; apply Hl'; lia].
    apply str_at_0_holds. by apply holds_app.
Qed.

(** strob_vsprintf_at keeps what precedes the offset and writes the whole
    output there, for an offset strictly inside the block. *)
Lemma strob_vsprintf_at_spec s o out :
  wf s -> no_nul out -> 0 <= o < reserve_ s -> reserve_ s <= 2 ^ 28 -> o + zlen out <= 2 ^ 28 ->
  exists s', strob_vsprintf_at s o out = Some (s', zlen out) /\ wf s'
    /\ holds (str_ s') (Z.to_nat o) out
    /\ (forall i, Z.of_nat i < o -> str_ s' !! i = str_ s !! i).
Proof.
  intros W Ho Hor Hr Hsz. pose proof (wf_zlen s W) as Hz. unfold strob_vsprintf_at.
  assert ((o >? reserve_ s) = false) as -> by (rewrite Z.gtb_ltb; apply Z.ltb_ge; lia). obind.
  set (p := take (Z.to_nat o) (str_ s)).
  assert (Hp : length p = Z.to_nat o) by (subst p; rewrite length_take; lia).
  destruct (vsprintf_loop_spec (fun _ => Some o) p false out (vsprintf_fuel out))
    with (s := s) (added := 0) (oldend := @None Z) as (s' & -> & W' & P' & H' & Hl').
  - intros x _. unfold zlen. rewrite Hp. f_equal. lia.
  - done.
  - unfold zlen in *. lia.
  - constructor; [done|unfold zlen in *; lia| |done].
    intros i Hi. subst p. by rewrite lookup_take_lt by lia.
  - by right.
  - lia.
  - done.
  - apply vsprintf_fuel_enough; [done|unfold zlen in *; lia].
  - done.
  - exists s'. rewrite Hp in H'. do 3 (split; [done|]). intros i Hi.
    rewrite P' by lia. subst p. by rewrite lookup_take_lt by lia.
Qed.
End TruncPrintf.

(** ** Tokens: what strob_strtok computes *)

(** The fields between the bytes that satisfy [p]. *)
Fixpoint fields (p : ascii -> bool) (s : bytes) : list bytes :=
  match s with
  | [] => [[]]
  | c :: r => if p c then [] :: fields p r
              else match fields p r with f :: fs => (c :: f) :: fs | [] => [[c]] end
  end.

Definition is_nil (t : bytes) : bool := match t with [] => true | _ => false end.

(** The tokens: the fields that are not empty. *)
Definition tokens (p : ascii -> bool) (s : bytes) : list bytes :=
  List.filter (fun t => negb (is_nil t)) (fields p s).

Definition delim_of (delim : bytes) : ascii -> bool := fun c => mem_char c delim.

Section Tokens.
Context (p : ascii -> bool).
Implicit Types (s t r : bytes).

Lemma fields_delim t c r :
  Forall (fun x => p x = false) t -> p c = true -> fields p (t ++ c :: r) = t :: fields p r.
Proof.
  intros Ht Hc. induction Ht as [|x t Hx _ IH]; cbn; [by rewrite Hc|].
  by rewrite Hx, IH.
Qed.

Lemma fields_free t : Forall (fun x => p x = false) t -> fields p t = [t].
Proof. intros Ht. induction Ht as [|x t Hx _ IH]; cbn; [done|]. by rewrite Hx, IH. Qed.

Lemma tokens_skip c r : p c = true -> tokens p (c :: r) = tokens p r.
Proof. intros Hc. unfold tokens. cbn [fields]. by rewrite Hc. Qed.

Lemma tokens_delim t c r :
  t <> [] -> Forall (fun x => p x = false) t -> p c = true ->
  tokens p (t ++ c :: r) = t :: tokens p r.
Proof.
  intros Hn Ht Hc. unfold tokens. rewrite fields_delim by done. by destruct t.
Qed.

Lemma tokens_free t :
  t <> [] -> Forall (fun x => p x = false) t -> tokens p t = [t].
Proof. intros Hn Ht. unfold tokens. rewrite fields_free by done. by destruct t. Qed.

Lemma tokens_nil : tokens p [] = [].
Proof. done. Qed.

(** Every text is delimiters, then a token (or nothing), then the rest. *)
Lemma split_leading s :
  exists ds r, s = ds ++ r /\ Forall (fun x => p x = true) ds
    /\ (r = [] \/ exists c r', r = c :: r' /\ p c = false).
Proof.
  induction s as [|c s (ds & r & -> & Hd & Hr)].
  - exists [], []. auto.
  - destruct (p c) eqn:E.
    + exists (c :: ds), r. repeat split; auto.
    + exists [], (c :: ds ++ r). repeat split; auto. right. eauto.
Qed.

Lemma tokens_skip_all ds r :
  Forall (fun x => p x = true) ds -> tokens p (ds ++ r) = tokens p r.
Proof. intros H. induction H; cbn [app]; [done|]. by rewrite tokens_skip. Qed.

Lemma tokens_length s : (length (tokens p s) <= length s)%nat.
Proof.
  remember (length s) as n eqn:Hn. revert s Hn.
  induction n as [n IH] using lt_wf_ind. intros s ->.
  destruct (split_leading s) as (ds & r & -> & Hd & [->|(c & r' & -> & Hc)]);
    rewrite tokens_skip_all, length_app by done; [cbn; lia|].
  destruct (find_index p (c :: r')) as [i|] eqn:E.
  - pose proof E as E'. apply find_index_Some in E as (d & Es & Hd' & Hf & Hi).
    rewrite Es. rewrite tokens_delim; [| |done|done].
    + cbn [length]. rewrite length_app. cbn [length].
      assert (length (drop (S i) (c :: r')) < length (ds ++ c :: r'))%nat.
      { rewrite length_drop, length_app. lia. }
      specialize (IH _ H _ eq_refl). rewrite length_take. cbn [length] in *.
      apply find_index_pos in E'; [lia|done].
    + apply find_index_pos in E'; [|done]. by destruct i.
  - apply find_index_None in E. rewrite tokens_free by done. cbn. lia.
Qed.
End Tokens.

Section Strtok.
Context `{Malloc}.
Implicit Types (m s t r delim : bytes).

(** [m] holds [r] at the offset [o]; a longer text is held further on. *)
Lemma holds_suffix m o t r : holds m o (t ++ r) -> holds m (o + length t) r.
Proof.
  intros (Hn & H1 & H2). apply no_nul_app in Hn as [_ Hr]. split; [done|].
  rewrite length_app in *. split.
  - intros i Hi. rewrite <- Nat.add_assoc, H1 by lia.
    rewrite lookup_app_r by lia. f_equal. lia.
  - rewrite <- H2. f_equal. lia.
Qed.

Lemma holds_cut_at m o t c r m' :
  holds m o (t ++ c :: r) -> mem_write m (Z.of_nat (o + length t)) [NUL] = Some m' ->
  holds m' o t /\ holds m' (o + length t + 1) r.
Proof.
  intros Hh E. pose proof (fun j => mem_write_lookup _ _ _ _ j E) as Lk.
  rewrite zlen_cons, zlen_nil in Lk. pose proof Hh as (Hn & H1 & H2).
  apply no_nul_app in Hn as [Ht _]. rewrite length_app in *. cbn [length] in *.
  split; [split; [done|split]|].
  - intros i Hi. rewrite Lk, decide_False by lia. rewrite H1 by lia. by apply lookup_app_l.
  - rewrite Lk, decide_True by lia.
    by replace (o + length t - Z.to_nat (Z.of_nat (o + length t)))%nat with 0%nat by lia.
  - assert (Hs : holds m (o + length t + 1) r).
    { pose proof (holds_suffix m o (t ++ [c]) r) as Hs. rewrite <- app_assoc in Hs.
      specialize (Hs Hh). rewrite length_app in Hs. cbn in Hs.
      by rewrite Nat.add_assoc in Hs. }
    eapply holds_frame; [|exact Hs]. intros i Hi. rewrite Lk, decide_False by lia. done.
Qed.

Lemma holds_bound m o s : holds m o s -> (o + length s < length m)%nat.
Proof. intros (_ & _ & Hl%lookup_lt_Some). done. Qed.

Lemma str_at_nat m o s : holds m o s -> str_at m (Z.of_nat o) = Some s.
Proof. intros Hh. apply str_at_holds; [lia|]. by rewrite Nat2Z.id. Qed.

Lemma strlen_at_nat m o s : holds m o s -> strlen_at m (Z.of_nat o) = Some (zlen s).
Proof. intros Hh. apply strlen_at_holds; [lia|]. by rewrite Nat2Z.id. Qed.

(** Both scans step over delimiters. *)
Lemma skip_leading_spec m delim ds r : forall fuel o,
  (length ds < fuel)%nat ->
  holds m o (ds ++ r) -> Forall (fun x => delim_of delim x = true) ds ->
  (r = [] \/ exists c r', r = c :: r' /\ delim_of delim c = false) ->
  skip_leading fuel m (char_delims delim) (Z.of_nat o)
  = Some (Z.of_nat (o + length ds),
          (fun i => Z.of_nat (o + length ds) + Z.of_nat i) <$> strpbrk r delim).
Proof.
  induction ds as [|c ds IH]; intros fuel o Hf Hh Hd Hr;
    (destruct fuel as [|fuel]; [lia|]); cbn [skip_leading];
    rewrite (str_at_nat _ _ _ Hh); obind; cbn [char_delims d_find d_len].
  - cbn [app length]. rewrite Nat.add_0_r. destruct Hr as [->|(c & r' & -> & Hc)]; [done|].
    unfold delim_of in Hc. unfold strpbrk. cbn [find_index]. rewrite Hc.
    by destruct (find_index _ r').
  - apply Forall_cons in Hd as [Hc Hd]. unfold delim_of in Hc.
    unfold strpbrk. cbn [find_index app]. rewrite Hc.
    replace (Z.of_nat o + 1) with (Z.of_nat (o + 1)) by lia.
    cbn [length] in *. rewrite (IH fuel (o + 1)%nat);
      [|lia|apply (holds_suffix m o [c] (ds ++ r)); exact Hh|done|done].
    replace (o + 1 + length ds)%nat with (o + S (length ds))%nat by lia. done.
Qed.

Lemma skip_trailing_spec m delim ds r : forall fuel o,
  (length ds < fuel)%nat ->
  holds m o (ds ++ r) -> Forall (fun x => delim_of delim x = true) ds ->
  (r = [] \/ exists c r', r = c :: r' /\ delim_of delim c = false) ->
  skip_trailing fuel m (char_delims delim) (Z.of_nat o) = Some (Z.of_nat (o + length ds)).
Proof.
  induction ds as [|c ds IH]; intros fuel o Hf Hh Hd Hr;
    (destruct fuel as [|fuel]; [lia|]); cbn [skip_trailing];
    rewrite (str_at_nat _ _ _ Hh); obind; cbn [char_delims d_at d_len].
  - cbn [app length]. rewrite Nat.add_0_r. destruct Hr as [->|(c & r' & -> & Hc)]; [done|].
    unfold delim_of in Hc. rewrite Hc. by rewrite andb_false_r.
  - apply Forall_cons in Hd as [Hc Hd]. unfold delim_of in Hc. cbn [app hd].
    destruct Hh as (Hn & Hh). pose proof Hn as Hn'. cbn [app] in Hn'.
    apply no_nul_cons in Hn' as [Hcn _]. apply ceq_neq in Hcn. unfold is_nul.
    rewrite Hcn, Hc. cbn [negb andb].
    replace (Z.of_nat o + 1) with (Z.of_nat (o + 1)) by lia.
    cbn [length] in *. rewrite (IH fuel (o + 1)%nat);
      [f_equal; lia|lia|apply (holds_suffix m o [c] (ds ++ r)); split; [exact Hn|exact Hh]|done|done].
Qed.

(** One call: it returns the next token and leaves the rest to be scanned. *)
Definition scanning (buf : STROB) (r : bytes) : Prop :=
  wf buf /\ exists o, tok_ buf = Some (Z.of_nat o) /\ holds (str_ buf) o r.

Lemma strtok_next_token buf r delim :
  scanning buf r ->
  match tokens (delim_of delim) r with
  | [] => exists buf', strob_strtok buf TokNull delim = Some (buf', None)
  | t :: ts => exists buf' o r', strob_strtok buf TokNull delim = Some (buf', Some o)
      /\ str_at (str_ buf') o = Some t
      /\ scanning buf' r' /\ tokens (delim_of delim) r' = ts
      /\ r' `suffix_of` r /\ (exists o', tok_ buf' = Some o' /\ 0 <= o /\ o + zlen t <= o')
  end.
Proof.
  intros (W & o & Htok & Hh). unfold strob_strtok. cbn [strtok_arg]. obind.
  unfold strtok_body. rewrite Htok. obind. rewrite (strlen_at_nat _ _ _ Hh). obind.
  destruct (split_leading (delim_of delim) r) as (ds & r1 & -> & Hd & Hr).
  pose proof (holds_bound _ _ _ Hh) as Hb. rewrite length_app in Hb.
  rewrite tokens_skip_all by done.
  destruct (decide (ds ++ r1 = [])) as [E0|Hne].
  { apply app_eq_nil in E0 as [-> ->]. cbn. eauto. }
  assert ((zlen (ds ++ r1) =? 0) = false) as ->.
  { apply Z.eqb_neq. intros E0%zlen_0. done. }
  rewrite (skip_leading_spec _ delim ds r1) by (done || lia). obind.
  pose proof (holds_suffix _ _ _ _ Hh) as Hh1.
  destruct Hr as [->|(c & r' & -> & Hc)].
  { rewrite (strlen_at_nat _ _ _ Hh1). cbn. eauto. }
  destruct (strpbrk (c :: r') delim) as [i|] eqn:E; obind.
  - unfold strpbrk in E. pose proof E as E'.
    apply find_index_Some in E as (d & Es & Hdd & Hf & Hi).
    set (t := take i (c :: r')) in *. set (r2 := drop (S i) (c :: r')) in *.
    assert (Ht : t <> []) by (apply find_index_pos in E'; [by destruct i|done]).
    assert (Hlt : length t = i) by (subst t; rewrite length_take; lia).
    clearbody t r2. rewrite Es in Hh1 |- *. rewrite tokens_delim by done.
    replace (Z.of_nat (o + length ds) + Z.of_nat i) with (Z.of_nat (o + length ds + length t)) by lia.
    destruct (mem_write_exists (str_ buf) (Z.of_nat (o + length ds + length t)) [NUL]) as [m Em];
      [lia|rewrite zlen_cons, zlen_nil; apply holds_bound in Hh1; rewrite length_app in Hh1;
           unfold zlen; lia|].
    rewrite Em. obind. destruct (holds_cut_at _ _ _ _ _ _ Hh1 Em) as [Ht1 Hr2].
    replace (Z.of_nat (o + length ds + length t) + d_len (char_delims delim))
      with (Z.of_nat (o + length ds + length t + 1)) by (cbn; lia).
    rewrite (strlen_at_nat _ _ _ Hr2), (strlen_at_nat _ _ _ Ht1). obind.
    destruct (split_leading (delim_of delim) r2) as (ds2 & r3 & Er2 & Hd2 & Hr3).
    rewrite Er2 in Hr2. pose proof (holds_bound _ _ _ Hr2) as Hb2.
    rewrite length_app, (mem_write_length _ _ _ _ Em) in Hb2.
    rewrite (skip_trailing_spec _ delim ds2 r3) by (done || lia). obind.
    assert ((zlen t =? 0) = false) as -> by (apply Z.eqb_neq; intros E0%zlen_0; done).
    eexists _, _, r3. split; [done|]. cbn. split; [by apply str_at_nat|]. split.
    + split; [|eexists; split; [done|by apply holds_suffix]].
      eapply (wf_set_str buf) in Em; [|done|by right]. by destruct Em; constructor.
    + rewrite Er2. split; [symmetry; by apply tokens_skip_all|]. split.
      * exists (ds ++ t ++ d :: ds2). by rewrite <- !app_assoc.
      * eexists. split; [done|]. unfold zlen. lia.
  - unfold strpbrk in E. apply find_index_None in E.
    rewrite (strlen_at_nat _ _ _ Hh1). obind.
    rewrite tokens_free by done.
    assert ((zlen (c :: r') =? 0) = false) as -> by done.
    eexists _, _, []. split; [done|]. cbn [str_ set_tok]. split; [by apply str_at_nat|]. split; [|split; [done|split]].
    + split; [by destruct W; constructor|].
      exists (o + length ds + length (c :: r'))%nat.
      split; [cbn [tok_ set_tok]; f_equal; unfold zlen; lia|].
      apply holds_nil. apply Hh1.
    + apply suffix_nil.
    + eexists. split; [done|]. lia.
Qed.

Lemma strtok_next_spec buf r delim :
  scanning buf r ->
  match tokens (delim_of delim) r with
  | [] => exists buf', strob_strtok buf TokNull delim = Some (buf', None)
  | t :: ts => exists buf' o r', strob_strtok buf TokNull delim = Some (buf', Some o)
      /\ str_at (str_ buf') o = Some t
      /\ scanning buf' r' /\ tokens (delim_of delim) r' = ts
  end.
Proof.
  intros Hs. pose proof (strtok_next_token buf r delim Hs) as HN. destruct (tokens _ r) as [|t ts]; [done|].
  destruct HN as (buf' & o & r' & E & Ht & Hs' & Hts & _). by exists buf', o, r'.
Qed.

(** What a call that found the tokens [ts] returns. *)
Definition strtok_result (delim : bytes) (r : option (STROB * option Z)) (ts : list bytes) : Prop :=
  match ts with
  | [] => exists buf', r = Some (buf', None)
  | t :: ts => exists buf' o r', r = Some (buf', Some o) /\ str_at (str_ buf') o = Some t
      /\ scanning buf' r' /\ tokens (delim_of delim) r' = ts
  end.

(** The first call copies the string in. *)
Lemma strtok_first_token buf s delim :
  wf buf -> no_nul s -> zlen s < SMALL ->
  exists b1, scanning b1 s /\ strob_strtok buf (TokStr s) delim = strob_strtok b1 TokNull delim.
Proof.
  intros W Hs Hb. unfold strob_strtok. cbn [strtok_arg].
  destruct (strob_strcpy_spec buf s W Hs Hb) as (b1 & -> & T & _). exists (set_tok (Some 0) b1). obind. split; [|done].
  split; [|exists 0%nat; split; [done|apply T]]. destruct (text_wf _ _ T). by constructor.
Qed.

Lemma strtok_first_spec buf s delim :
  wf buf -> no_nul s -> zlen s < SMALL ->
  strtok_result delim (strob_strtok buf (TokStr s) delim) (tokens (delim_of delim) s).
Proof.
  intros W Hs Hb. destruct (strtok_first_token buf s delim W Hs Hb) as (b1 & Hsc & ->). by apply strtok_next_spec.
Qed.

Lemma strtok_loop_spec delim : forall fuel buf r,
  scanning buf r -> (length (tokens (delim_of delim) r) < fuel)%nat ->
  exists buf', strtok_loop fuel (fun b => strob_strtok b TokNull delim) buf
               = Some (buf', tokens (delim_of delim) r).
Proof.
  induction fuel as [|fuel IH]; intros buf r Hs Hf; [lia|]. cbn [strtok_loop].
  pose proof (strtok_next_spec buf r delim Hs) as Hn.
  destruct (tokens (delim_of delim) r) as [|t ts].
  - destruct Hn as (buf' & ->). obind. eauto.
  - destruct Hn as (buf' & o & r' & -> & Ht & Hs' & <-). obind. rewrite Ht. obind.
    destruct (IH buf' r' Hs') as (buf2 & ->); [cbn in Hf; lia|]. obind. eauto.
Qed.
End Strtok.

Section Safety.
Context `{Malloc}.
Implicit Types (s : STROB) (t u : bytes).

Lemma strob_strcat_at_offset_safe s off u :
  wf s -> no_nul u -> 0 <= off < reserve_ s -> reserve_ s + off + zlen u <= 2 ^ 28 ->
  exists s', strob_strcat_at_offset s off u = Some s' /\ wf s'.
Proof.
  intros W Hu Ho Hn. pose proof (zlen_nonneg u). pose proof (wf_zlen s W).
  destruct (wf_terminated_at s (Z.to_nat off) W) as (t & Ht & Hlt); [lia|].
  pose proof (zlen_nonneg t). unfold strob_strcat_at_offset.
  rewrite (strlen_at_holds (str_ s) off t) by (done || lia). obind.
  destruct (reopen_if_spec s (zlen u + off + 1 + zlen t) W) as (s1 & E & W1 & _ & Hl & Hr & _);
    [unfold SMALL; lia|]. rewrite E. obind. pose proof (wf_zlen s1 W1).
  destruct (wf_terminated_at s1 (Z.to_nat off) W1) as (t1 & Ht1 & Hlt1); [lia|].
  rewrite (strlen_at_holds (str_ s1) off t1) by (done || lia). obind.
  assert (zlen t1 <= zlen t)
    by (apply (reopen_if_shrinks s (zlen u + off + 1 + zlen t) s1 (Z.to_nat off));
        try done; unfold SMALL; lia).
  pose proof (zlen_nonneg t1). written m. eexists. split; [done|].
  rewrite to_int_id by (unfold INT_MAX; lia).
  eapply wf_write; eauto using last_snoc_nul. unfold INT_MAX. lia.
Qed.

Lemma strob_strncat_safe s u n :
  wf s -> no_nul u -> 0 <= n -> reserve_ s + n <= 2 ^ 28 ->
  exists s', strob_strncat s u n = Some s' /\ wf s'.
Proof.
  intros W Hu Hn Hb. unfold strob_strncat.
  rewrite to_int_id by (unfold INT_MAX; pose proof (wf_reserve s W); lia).
  rewrite (to_size_id n) by (pose proof (wf_reserve s W); lia).
  destruct (strob_strlen_wf s W) as (t & Ht & -> & Hlt). obind. pose proof (zlen_nonneg t).
  destruct (reopen_if_spec s (zlen t + n + 1) W) as (s1 & E & W1 & _ & Hl & Hr & _);
    [unfold SMALL; lia|]. rewrite E. obind.
  destruct (strob_strlen_wf s1 W1) as (t1 & Ht1 & -> & Hlt1). obind.
  assert (zlen t1 <= zlen t)
    by (apply (reopen_if_shrinks s (zlen t + n + 1) s1 0); try done; unfold SMALL; lia).
  pose proof (zlen_nonneg t1).
  set (v := take (Z.to_nat n) u). assert (Hv : no_nul v) by (by apply no_nul_take).
  assert (zlen v <= n) by (subst v; rewrite zlen_take; lia). pose proof (zlen_nonneg v).
  written m. pose proof (strcat_holds _ _ _ _ Ht1 Hv Hm) as Hm2.
  assert (W2 : wf (set_str m s1)) by (eapply wf_set_str; eauto using last_snoc_nul).
  rewrite (strlen_at_holds m 0 (t1 ++ v)) by done. obind.
  destruct (mem_write_exists m (zlen (t1 ++ v)) [NUL]) as [m2 E2]; [apply zlen_nonneg| |].
  { pose proof (wf_size _ W2) as Hz. cbn in Hz. rewrite Hz, zlen_app, zlen_cons, zlen_nil. lia. }
  rewrite E2. obind. eexists. split; [done|].
  apply (wf_write _ _ _ _ (zlen (t1 ++ v)) W2 E2); [|by right].
  rewrite zlen_app. unfold INT_MAX. lia.
Qed.

Lemma strob_charcat_safe s ch :
  wf s -> reserve_ s + 1 <= 2 ^ 28 -> exists s', strob_charcat s ch = Some s' /\ wf s'.
Proof.
  intros W Hn. unfold strob_charcat. destruct (negb (ch =? 0)).
  - destruct (strob_strcat_safe s (cstr [to_char ch; NUL]) W) as (s' & t & -> & W' & _);
      [apply cstr_no_nul| |by eauto].
    pose proof (cstr_length_lt [to_char ch; NUL]) as Hc. rewrite !zlen_cons, zlen_nil in Hc.
    assert (T : terminated [to_char ch; NUL] = true) by apply (terminated_nul [to_char ch] []).
    specialize (Hc T). unfold SMALL. lia.
  - destruct (strob_strcat_safe s (L "X") W) as (s' & t & -> & W' & Hh);
      [apply no_nul_cons; split; [done|apply no_nul_nil]|change (zlen (L "X")) with 1; unfold SMALL; lia|].
    obind. rewrite (holds_strlen _ _ Hh). obind. rewrite zlen_app. change (zlen (L "X")) with 1.
    pose proof (holds_bound _ _ _ Hh) as Hb. rewrite length_app in Hb. pose proof (wf_zlen _ W').
    pose proof (zlen_nonneg t). written m; [unfold zlen in *; lia|].
    eexists. split; [done|]. eapply wf_set_str; eauto.
Qed.

Lemma chomp_at_safe s c :
  wf s -> exists m, chomp_at c (str_ s) = Some m /\ wf (set_str m s).
Proof.
  intros W. unfold chomp_at. destruct (wf_terminated s W) as (t & Ht & Hlt).
  rewrite (proj2 (str_at_0_holds _ _) Ht). obind.
  destruct (strchr t c) as [i|] eqn:E; [|exists (str_ s); split; [done|by destruct s]].
  apply find_index_Some in E as (_ & _ & _ & _ & Hi). unfold zlen in Hlt.
  written m. exists m. split; [done|]. eapply wf_set_str; eauto.
Qed.

Lemma strob_trunc_safe s : wf s -> exists s', strob_trunc s = Some s' /\ wf s'.
Proof.
  intros W. unfold strob_trunc, strob_reopen. pose proof (wf_length s W).
  destruct (strob_reopen_fill_with_spec s (STROB_INITLENGTH + 1) 0)
    as (m & -> & Hm & Hlast & _); [unfold STROB_INITLENGTH, INT_MAX; lia|lia|].
  eexists. split; [done|]. constructor; cbn; try apply W; try done.
Qed.

Lemma strob_append_hidden_null_safe s :
  wf s -> length_ s + 1 < SMALL -> exists s', strob_append_hidden_null s = Some s' /\ wf s'.
Proof.
  intros W Hb. pose proof (wf_length s W). unfold strob_append_hidden_null.
  destruct (strob_set_up_spec s (length_ s + 1) W) as (s1 & -> & W1 & _ & Hl & Hr & _); [lia|].
  obind. written m. eexists. split; [done|]. eapply wf_set_str; eauto.
Qed.
End Safety.

(** ** Theorems *)

(** What the text operations mean on plain strings; [None] for the operations
    that are not about the text. *)
Definition text_op (c : call) (t : bytes) : option bytes :=
  match c with
  | Strcpy u => Some u
  | Strcat u => Some (t ++ u)
  | Strncat u n => Some (t ++ take (Z.to_nat n) u)
  | Strncpy u n => Some (take (Z.to_nat n) u)
  | Charcat ch => Some (t ++ cstr [to_char ch])
  | Chomp => Some (cut_at "013"%char (cut_at "010"%char t))
  | SetMemlength n => if zlen t <=? n then Some t else None
  | Trunc => Some (take 32 t)
  | Strchar _ | SetFillChar _ => Some t
  | _ => None
  end.

Section Theorems.
Context `{Malloc}.
Implicit Types (s : STROB) (t u : bytes).

Lemma run_safe c s : wf s -> allowed c s -> exists s', run c s = Some s' /\ wf s'.
Proof.
  intros W (Ha & Hb & Hu & Hoff). pose proof (wf_length s W). pose proof (wf_reserve s W).
  destruct c; cbn [run arg_int arg_bytes is_text_call] in *;
    try change (zlen (@nil ascii)) with 0 in *;
    try match goal with u : bytes |- _ => pose proof (zlen_nonneg u) end;
    try specialize (Hu eq_refl).
  - destruct (strob_strcpy_spec s u W Hu) as (s' & E & T & _); [unfold SMALL; lia|].
    exists s'. split; [done|apply T].
  - destruct (strob_strcpy_at_offset_spec s off u W) as (s' & E & T & _);
      [lia|done|unfold SMALL; lia|]. eauto.
  - destruct (strob_strcat_safe s u W Hu) as (s' & t & E & T & _); [unfold SMALL; lia|]. eauto.
  - apply strob_strcat_at_offset_safe; auto; lia.
  - apply strob_strncat_safe; auto; lia.
  - destruct (strob_strncpy_spec s u n W Hu) as (s' & E & T & _); [unfold SMALL; lia|].
    exists s'. split; [done|apply T].
  - apply strob_charcat_safe; [done|lia].
  - destruct (strob_chr_index_spec s index ch W) as (s' & E & T & _); [lia|unfold SMALL; lia|]. eauto.
  - destruct (strob_strlen_wf s W) as (t & Ht & E & Hlt). unfold strob_chr. rewrite E. obind.
    destruct (strob_chr_index_spec s (zlen t) ch W) as (s' & E' & T & _);
      [apply zlen_nonneg|unfold SMALL; lia|]. eauto.
  - destruct (chomp_at_safe s "010"%char W) as (m & E1 & W1).
    destruct (chomp_at_safe (set_str m s) "013"%char W1) as (m2 & E2 & W2).
    unfold strob_chomp. rewrite E1. obind. cbn in E2. rewrite E2. obind. eauto.
  - destruct (strob_set_memlength_spec s n W) as (s' & E & T & _); [unfold SMALL; lia|]. eauto.
  - destruct (strob_set_length_spec s n W) as (s' & E & T & _); [unfold SMALL; lia|]. eauto.
  - unfold strob_strchar. reopened s1. eauto.
  - rewrite strob_memcpy_is_memmove.
    destruct (strob_memmove_to_spec s 0 bs W) as (s' & E & T & _); [lia|unfold SMALL; lia|]. eauto.
  - rewrite strob_memcpy_at_is_memmove_to by (unfold SMALL; lia).
    destruct (strob_memmove_to_spec s off bs W) as (s' & E & T & _); [lia|unfold SMALL; lia|]. eauto.
  - unfold strob_memcat.
    destruct (strob_memmove_to_spec s (length_ s) bs W) as (s' & E & T & _);
      [lia|unfold SMALL; lia|]. eauto.
  - destruct (strob_memmove_to_spec s off bs W) as (s' & E & T & _); [lia|unfold SMALL; lia|]. eauto.
  - rewrite strob_memset_is_memmove by (unfold SMALL; lia).
    destruct (strob_memmove_to_spec s 0 (replicate (Z.to_nat n) (to_char c)) W) as (s' & E & T & _);
      [lia|rewrite zlen_replicate; unfold SMALL; lia|]. eauto.
  - apply strob_append_hidden_null_safe; [done|unfold SMALL; lia].
  - by apply strob_trunc_safe.
  - eexists. split; [done|]. destruct W. constructor; cbn; auto. unfold SMALL. lia.
  - eexists. split; [done|]. destruct W. by constructor.
  - destruct (strob_strlen_wf s W) as (t & Ht & E & Hlt).
    destruct (strob_vsprintf_spec s t do_append out W) as (s' & Es & T & _);
      [by apply str_at_0_holds|done|lia|lia|]. rewrite Es. cbn. eauto.
  - destruct (strob_vsprintf_at_spec s off out W) as (s' & Es & T & _); [done|lia|lia|lia|].
    rewrite Es. cbn. eauto.
Qed.

Lemma reachable_wf s : reachable s -> wf s.
Proof.
  induction 1 as [n s Hn E|c s s' _ W Ha E].
  - destruct (strob_open_spec n) as (s1 & E1 & T & _); [unfold SMALL; lia|].
    simplify_eq. apply T.
  - destruct (run_safe c s W Ha) as (s1 & E1 & W1). by simplify_eq.
Qed.

Lemma run_text c s t t' :
  text s t -> allowed c s -> text_op c t = Some t' ->
  exists s', run c s = Some s' /\ text s' t'.
Proof.
  intros T (Ha & Hb & Hu & _) Hop. pose proof (text_wf s t T) as W.
  pose proof (wf_length s W). pose proof (wf_reserve s W). pose proof (text_reserve s t T).
  destruct c; cbn [run arg_int arg_bytes is_text_call text_op] in *; try done;
    try change (zlen (@nil ascii)) with 0 in *; try specialize (Hu eq_refl); simplify_eq.
  - destruct (strob_strcpy_spec s t' W Hu) as (s' & E & T' & _);
      [pose proof (zlen_nonneg t'); unfold SMALL; lia|]. eauto.
  - destruct (strob_strcat_spec s t u T Hu) as (s' & E & T' & _); [unfold SMALL; lia|]. eauto.
  - destruct (strob_strncat_spec s t u n T Hu) as (s' & E & T' & _);
      [lia|pose proof (zlen_nonneg u); unfold SMALL; lia|]. eauto.
  - destruct (strob_strncpy_spec s u n W Hu) as (s' & E & T' & _);
      [pose proof (zlen_nonneg u); unfold SMALL; lia|]. eauto.
  - apply strob_charcat_spec; [done|unfold SMALL; lia].
  - by apply strob_chomp_spec.
  - case_match; [|done]. simplify_eq. zbool.
    destruct (strob_set_memlength_spec s n W) as (s' & E & _ & _ & _ & _ & _ & Ht);
      [unfold SMALL; lia|]. eauto.
  - unfold strob_strchar. reopened s1. eexists. split; [done|].
    constructor; [done|apply Ht; apply T|rewrite Hl; apply T].
  - destruct (strob_trunc_spec s t T) as (s' & E & T' & _). eauto.
  - eexists. split; [done|]. destruct T as [Wt Hh Hl]. constructor; cbn; auto.
    destruct Wt. by constructor.
Qed.

(** A sequence of calls, each within what its caller may ask for. *)
Fixpoint run_all (cs : list call) (s : STROB) : option STROB :=
  match cs with [] => Some s | c :: cs => s ← run c s; run_all cs s end.

Fixpoint text_all (cs : list call) (t : bytes) : option bytes :=
  match cs with [] => Some t | c :: cs => t ← text_op c t; text_all cs t end.

Fixpoint all_allowed (cs : list call) (s : STROB) : Prop :=
  match cs with
  | [] => True
  | c :: cs => allowed c s /\ forall s', run c s = Some s' -> all_allowed cs s'
  end.

(** C2: memory safety of the whole interface.  Every object that strob_open
    and any sequence of permitted calls can produce keeps its invariant (the
    block has the recorded size and is NUL-terminated), and every further
    permitted call is defined: it reads and writes inside the block only. *)
Theorem strob_api_safe s :
  reachable s ->
  wf s /\ forall c, allowed c s -> exists s', run c s = Some s' /\ wf s' /\ reachable s'.
Proof.
  intros R. pose proof (reachable_wf s R) as W. split; [done|]. intros c Ha.
  destruct (run_safe c s W Ha) as (s' & E & W'). exists s'. split; [done|].
  split; [done|]. by eapply reach_call.
Qed.

(** C35: refinement.  Any permitted sequence of text operations on the buffer
    computes what the same sequence computes on plain strings. *)
Theorem strob_text_refinement cs s t t' :
  text s t -> all_allowed cs s -> text_all cs t = Some t' ->
  exists s', run_all cs s = Some s' /\ strob_str s' = Some t' /\ wf s'.
Proof.
  revert s t. induction cs as [|c cs IH]; cbn; intros s t T Ha Ht.
  - simplify_eq. exists s. split; [done|]. split; [by apply text_str|apply T].
  - destruct Ha as [Ha Hrest]. destruct (text_op c t) as [t1|] eqn:E1; [|done].
    destruct (run_text c s t t1 T Ha E1) as (s1 & E & T1). rewrite E. obind. eauto.
Qed.

(** C40: the printf loop terminates for every output and size, and leaves the
    old text (when appending) followed by the whole output. *)
Theorem strob_vsprintf_total s t do_append out :
  wf s -> strob_str s = Some t -> no_nul out ->
  reserve_ s <= 2 ^ 28 -> zlen t + zlen out <= 2 ^ 28 ->
  exists s', strob_vsprintf s do_append out = Some (s', zlen out) /\ wf s'
    /\ strob_str s' = Some ((if do_append then t else []) ++ out).
Proof.
  intros W Ht Ho Hr Hb.
  destruct (strob_vsprintf_spec s t do_append out W Ht Ho Hr Hb) as (s' & E & W' & H' & _). eauto.
Qed.

(** strob_strtok.  The loop of calls that every caller writes yields the
    non-empty fields between the delimiters, in order, and ends. *)
Theorem strob_strtok_tokens (buf : STROB) (s delim : bytes) :
  wf buf -> no_nul s -> zlen s < SMALL ->
  exists buf', strtok_all buf s delim = Some (buf', tokens (delim_of delim) s).
Proof.
  intros W Hs Hb. unfold strtok_all. cbn [strtok_arg].
  destruct (strob_strcpy_spec buf s W Hs Hb) as (b1 & -> & T & _). obind.
  apply strtok_loop_spec.
  - split; [|exists 0%nat; split; [done|apply T]].
    destruct (text_wf _ _ T). by constructor.
  - pose proof (tokens_length (delim_of delim) s). lia.
Qed.

(** the binary interface stores what it is given: after memcpy of [a] and
    memcat of [b] at the end, the bytes read back one by one are [a ++ b]. *)
Theorem strob_binary_roundtrip s (a b : bytes) :
  wf s -> length_ s <= zlen a -> zlen a + zlen b < SMALL ->
  exists s', (s1 ← strob_memcpy s a; strob_memcat s1 b) = Some s' /\ wf s'
    /\ strob_get_char s' (zlen (a ++ b)) = Some (-1)
    /\ forall i, (i < length (a ++ b))%nat ->
         strob_get_char s' (Z.of_nat i) = uchar <$> (a ++ b) !! i.
Proof.
  intros W Hl Hn. pose proof (zlen_nonneg a). pose proof (zlen_nonneg b).
  rewrite strob_memcpy_is_memmove. unfold strob_memmove, strob_memcat.
  destruct (strob_memmove_to_spec s 0 a W) as (s1 & -> & W1 & Hl1 & Hst1 & _); [lia|lia|]. obind.
  replace (length_ s1) with (zlen a) by lia.
  destruct (strob_memmove_to_spec s1 (zlen a) b W1) as (s2 & -> & W2 & Hl2 & Hst2 & Hlo); [lia|lia|].
  exists s2. split; [done|]. split; [done|]. unfold strob_get_char. rewrite zlen_app.
  assert (Hr1 : zlen a <= reserve_ s1).
  { destruct (decide (a = [])) as [->|Hne]; [pose proof (wf_reserve s1 W1); rewrite zlen_nil; lia|].
    rewrite <- (wf_size s1 W1).
    assert (length a <> 0)%nat by (by destruct a).
    specialize (Hst1 (length a - 1)%nat ltac:(lia)).
    destruct (lookup_lt_is_Some_2 a (length a - 1)%nat) as [x Hx]; [lia|].
    rewrite Hx in Hst1. apply lookup_lt_Some in Hst1. unfold zlen. lia. }
  unfold zlen in *. split; [by ztest|]. intros i Hi. rewrite length_app in Hi. ztest.
  f_equal. unfold mem_read. ztest. rewrite Nat2Z.id.
  destruct (decide (i < length a)%nat).
  - rewrite lookup_app_l by done. rewrite Hlo by lia. apply (Hst1 i). done.
  - rewrite lookup_app_r by lia. rewrite <- Hst2 by lia. f_equal. lia.
Qed.
End Theorems.

(** ** Defects of the code *)

Section Defects.
Context `{Malloc}.
Implicit Types (s : STROB) (out : bytes).

Lemma mem_write_past m c : mem_write m (zlen m) [c] = None.
Proof. unfold mem_write. change (zlen [c]) with 1. pose proof (zlen_nonneg m). by ztest. Qed.

Lemma vsprintf_loop_eq fuel sb start_of out added oldend :
  vsprintf_loop (S fuel) sb start_of out added oldend
  = sb ← clear_oldend sb oldend;
    sb ← strob_set_memlength sb (reserve_ sb + added);
    start ← start_of sb;
    '(m, ret) ← vsnprintf (str_ sb) start (reserve_ sb - start) out;
    if (ret <? 0) || (ret >=? reserve_ sb - start)
    then vsprintf_loop fuel (set_str m sb) start_of out (added + 128) (Some start)
    else Some (set_str m sb, ret).
Proof. done. Qed.

(** strob_vsprintf_at tests [at_offset > reserve] where it needs [>=]:
    when the offset is the size of the block, the first round has no room and
    the second one stores a NUL one byte past the block, whatever is printed. *)
Theorem strob_vsprintf_at_end_overflows s out :
  wf s -> reserve_ s <= 2 ^ 28 -> strob_vsprintf_at s (reserve_ s) out = None.
Proof.
  intros W Hr. pose proof (zlen_nonneg out). unfold strob_vsprintf_at.
  rewrite Z.gtb_ltb, Z.ltb_irrefl. obind.
  change (vsprintf_fuel out) with (S (S (S (length out)))).
  rewrite vsprintf_loop_eq. cbn [clear_oldend]. obind.
  rewrite (strob_set_memlength_same s W). obind. cbn [set_len reserve_ str_].
  rewrite Z.sub_diag. unfold vsnprintf. cbn [Z.leb Z.compare]. obind.
  ztest. rewrite vsprintf_loop_eq. cbn [clear_oldend set_str set_len str_].
  rewrite <- (wf_size s W) at 1. by rewrite mem_write_past.
Qed.

(** strob_vsprintf leaves the recorded length behind the text when the
    output fits into the lookahead of the last growth only; the next operation
    that reallocates clears the bytes from the recorded length on.  Printing
    150 bytes into a fresh object and appending 200 loses the last 11. *)
Theorem strob_sprintf_strcat_loses_text :
  let x := replicate 150 "x"%char in let y := replicate 200 "y"%char in
  (s ← strob_open 10; '(s, _) ← strob_vsprintf s false x;
   t ← strob_str s; s ← strob_strcat s y; u ← strob_str s; Some (t, u))
  = Some (x, replicate 139 "x"%char ++ y).
Proof. vm_compute. reflexivity. Qed.

(** strob_chomp cuts the text but not the recorded length, so strob_chr,
    which extends the text only past the recorded length, brings back what
    chomp removed; strob_trunc has the same effect on strob_get_length. *)
Theorem strob_chomp_chr_restores_tail :
  (s ← strob_open 10; s ← strob_strcpy s (L "ab" ++ "010"%char :: L "cd"); s ← strob_chomp s;
   t ← strob_str s; s ← strob_chr s (uchar "X"); u ← strob_str s; Some (t, u))
  = Some (L "ab", L "abXcd")
  /\ (s ← strob_open 10; s ← strob_strcpy s (replicate 40 "z"%char); s ← strob_trunc s;
      n ← strob_strlen s; Some (n, length_ s)) = Some (32, 40).
Proof. split; vm_compute; reflexivity. Qed.
End Defects.

(** ** Instances of the theorems on concrete objects *)

Module Witness.
(** An allocator whose memory is full of non-NUL garbage. *)
#[local] Instance garbage : Malloc := fun i => if Nat.even i then "z"%char else "q"%char.

Definition opened (n : Z) : STROB :=
  match strob_open n with Some s => s | None => mkSTROB [] None 0 0 0 0 end.

Lemma opened_text n : n < SMALL -> strob_open n = Some (opened n) /\ text (opened n) [].
Proof.
  intros Hn. unfold opened. destruct (strob_open_spec n Hn) as (s & E & T & _). by rewrite E.
Defined.

Lemma strob_api_safe_witness :
  wf (opened 10) /\ exists s', run (Strcat (L "bash")) (opened 10) = Some s'.
Proof.
  assert (R : reachable (opened 10)) by (apply (reach_open 10); [lia|apply opened_text; unfold SMALL; lia]).
  destruct (strob_api_safe (opened 10) R) as [W Hc]. split; [exact W|].
  destruct (Hc (Strcat (L "bash"))) as (s' & E & _); [|eauto].
  split; [cbn; lia|]. split; [vm_compute; done|]. split; [|done].
  intros _. apply no_nul_compute. vm_compute. reflexivity.
Defined.

Definition demo_calls : list call := [Strcpy (L "bash,"); Strcat (L "r==3.3"); Charcat 10; Chomp].

Lemma strob_text_refinement_witness :
  exists s', run_all demo_calls (opened 10) = Some s' /\ strob_str s' = Some (L "bash,r==3.3") /\ wf s'.
Proof.
  apply (strob_text_refinement demo_calls (opened 10) [] (L "bash,r==3.3")).
  - apply opened_text. unfold SMALL. lia.
  - cbn [all_allowed demo_calls].
    repeat (split; [repeat split; cbn; try lia; try (vm_compute; done);
                    intros; apply no_nul_compute; vm_compute; reflexivity
                   |intros ? E; vm_compute in E; injection E as <-]).
    exact I.
  - vm_compute. reflexivity.
Defined.

Lemma strob_vsprintf_total_witness :
  exists s', strob_vsprintf (opened 10) true (replicate 150 "x"%char) = Some (s', 150) /\ wf s'
    /\ strob_str s' = Some (replicate 150 "x"%char).
Proof.
  apply (strob_vsprintf_total (opened 10) [] true (replicate 150 "x"%char)).
  - apply opened_text. unfold SMALL. lia.
  - vm_compute. reflexivity.
  - apply no_nul_compute. vm_compute. reflexivity.
  - vm_compute. done.
  - vm_compute. done.
Defined.

Lemma strob_strtok_tokens_witness :
  exists buf', strtok_all (opened 10) (L ",,bash,r==3,,") (L ",") = Some (buf', [L "bash"; L "r==3"]).
Proof.
  apply (strob_strtok_tokens (opened 10) (L ",,bash,r==3,,") (L ",")).
  - apply opened_text. unfold SMALL. lia.
  - apply no_nul_compute. vm_compute. reflexivity.
  - vm_compute. done.
Defined.

Lemma strob_binary_roundtrip_witness :
  exists s', (s1 ← strob_memcpy (opened 10) (L "ab"); strob_memcat s1 (L "cd")) = Some s' /\ wf s'
    /\ strob_get_char s' 4 = Some (-1)
    /\ forall i, (i < 4)%nat -> strob_get_char s' (Z.of_nat i) = uchar <$> (L "abcd") !! i.
Proof.
  apply (strob_binary_roundtrip (opened 10) (L "ab") (L "cd")).
  - apply opened_text. unfold SMALL. lia.
  - vm_compute. done.
  - vm_compute. done.
Defined.

Lemma strob_vsprintf_at_end_overflows_witness :
  strob_vsprintf_at (opened 10) 11 (L "!") = None.
Proof.
  apply (strob_vsprintf_at_end_overflows (opened 10) (L "!")).
  - apply opened_text. unfold SMALL. lia.
  - vm_compute. done.
Defined.
End Witness.
