(* ===== verification/Stored.v ===== *)
(** * Bytes at an offset

    [stored m o bs]: the object [m] has the bytes [bs] from [o] on. *)

From S2P Require Import Prelude CString Strob StrobSpec.

Lemma stored_app m o a b : 0 <= o -> stored m o (a ++ b) <-> stored m o a /\ stored m (o + zlen a) b.
Proof.
  intros Ho. unfold stored, zlen. rewrite length_app. split.
  - intros Hs. split; intros i Hi.
    + rewrite Hs by lia. by apply lookup_app_l.
    + replace (Z.to_nat (o + Z.of_nat (length a)) + i)%nat with (Z.to_nat o + (length a + i))%nat by lia.
      rewrite Hs by lia. rewrite lookup_app_r by lia. f_equal. lia.
  - intros [Ha Hb] i Hi. destruct (decide (i < length a)%nat).
    + rewrite Ha by done. by rewrite lookup_app_l.
    + rewrite lookup_app_r by lia. rewrite <- Hb by lia. f_equal. lia.
Qed.

Lemma stored_keep m m' o bs e :
  0 <= o -> o + zlen bs <= e -> (forall i, Z.of_nat i < e -> m' !! i = m !! i) -> stored m o bs -> stored m' o bs.
Proof. intros Ho He Hk Hs i Hi. rewrite Hk; [by apply Hs|]. unfold zlen in He. lia. Qed.

Lemma stored_drop m p bs : 0 <= p -> stored m p bs -> (Z.to_nat p + length bs <= length m)%nat ->
  drop (Z.to_nat p) m = bs ++ drop (Z.to_nat p + length bs) m.
Proof.
  intros Hp Hs Hl. rewrite <- drop_drop, <- (take_drop (length bs) (drop (Z.to_nat p) m)) at 1. f_equal.
  apply list_eq. intros i. destruct (decide (i < length bs)%nat).
  - rewrite lookup_take_lt, lookup_drop by done. by apply Hs.
  - rewrite lookup_take_ge by lia. symmetry. apply lookup_ge_None. lia.
Qed.

Lemma str_at_terminated m p e : 0 <= p -> p <= Z.of_nat e -> m !! e = Some NUL ->
  str_at m p = Some (cstr (drop (Z.to_nat p) m)).
Proof.
  intros Hp He Hm. pose proof (lookup_lt_Some _ _ _ Hm). unfold str_at. rewrite mem_at_in by (unfold zlen; lia).
  obind. assert (terminated (drop (Z.to_nat p) m) = true) as ->; [|done].
  apply existsb_exists. exists NUL. split; [|apply ceq_refl].
  apply list_elem_of_In, (list_elem_of_lookup_2 _ (e - Z.to_nat p)). rewrite lookup_drop. by rewrite <- Hm; f_equal; lia.
Qed.

Lemma stored_eq m bs : length m = length bs -> stored m 0 bs -> m = bs.
Proof.
  intros Hl Hs. apply list_eq. intros i. destruct (decide (i < length bs)%nat) as [Hi|Hi].
  - by apply (Hs i).
  - by rewrite !lookup_ge_None_2 by lia.
Qed.

(** A text and its NUL. *)
Lemma str_at_stored m o t r : 0 <= o -> stored m o (t ++ NUL :: r) -> no_nul t -> str_at m o = Some t.
Proof.
  intros Ho Hs Ht. assert (m !! (Z.to_nat o + length t)%nat = Some NUL) as Hn.
  { rewrite Hs by (rewrite length_app; cbn; lia). by apply list_lookup_middle. }
  rewrite (str_at_terminated m o (Z.to_nat o + length t) Ho ltac:(lia) Hn). f_equal.
  apply stored_app in Hs as [Hs _]; [|done]. pose proof (lookup_lt_Some _ _ _ Hn).
  rewrite (stored_drop m o t) by (done || lia). rewrite cstr_app_no_nul by done.
  rewrite (drop_S _ NUL) by done. cbn. by rewrite app_nil_r.
Qed.

(** ** A new object *)

Lemma strob_open_shape `{Malloc} n : 0 < n <= 2 ^ 20 ->
  exists s, strob_open n = Some s /\ text s [] /\ length_ s = 0 /\ extra_ s = STROB_LENGTHINCR /\ reserve_ s = n + 1.
Proof.
  intros Hn. destruct (strob_open_spec n) as (s & E & T & L0); [unfold SMALL; lia|]. exists s. split; [done|].
  split; [done|]. split; [done|]. unfold strob_open, strob_reopen in E. destruct (Z.leb_spec n 0); [lia|].
  destruct (strob_reopen_fill_with_spec (mkSTROB [] None 0 STROB_LENGTHINCR 0 0) (n + 1) 0) as (m & E' & _);
    [unfold INT_MAX; lia|cbn; lia|]. rewrite E' in E. injection E as <-. cbn [extra_ reserve_ set_block].
  split; [done|lia].
Qed.
