(* ===== verification/Cplob.v ===== *)
(** * CPLOB and VPLOB, growing arrays of pointers
      (swsupplib/cplob/cplob.c, swsupplib/cplob/vplob.c)

    The array is the allocated block itself: [list_] has one cell per allocated
    pointer, [None] is the NULL pointer, and an access outside the block is
    undefined ([None] in the option monad). *)

From S2P Require Import Prelude.

Definition CPLOB_NINITLENGTH : Z := 16.
Definition CPLOB_NLENGTHINCR : Z := 8.

Record CPLOB (A : Type) := mkCPLOB { list_ : list (option A); nlen : Z; nused : Z }.
Arguments mkCPLOB {A}.
Arguments list_ {A}.
Arguments nlen {A}.
Arguments nused {A}.

Section Cplob.
Context {A : Type}.
Implicit Types (lob : CPLOB A) (addr : option A).

Definition set_list (l : list (option A)) lob : CPLOB A := mkCPLOB l (nlen lob) (nused lob).
Definition set_nused (n : Z) lob : CPLOB A := mkCPLOB (list_ lob) (nlen lob) n.

(** for (i = start; i < stop; i++) list[i] = NULL; *)
Fixpoint null_from (l : list (option A)) (start : Z) (count : nat) : option (list (option A)) :=
  match count with
  | O => Some l
  | S count => l ← arr_write l start None; null_from l (start + 1) count
  end.

Definition null_list lob (start stop : Z) : option (CPLOB A) :=
  l ← null_from (list_ lob) start (Z.to_nat (stop - start)); Some (set_list l lob).

Definition cplob_shallow_reset lob : option (CPLOB A) :=
  null_list (set_nused 0 lob) 0 (nlen lob).

(** malloc leaves the cells indeterminate; null_list sets all of them. *)
Definition cplob_open (nobj : Z) : option (CPLOB A) :=
  let nobj := if nobj <=? 0 then CPLOB_NINITLENGTH else nobj in
  let lob := mkCPLOB (replicate (Z.to_nat nobj) None) nobj 0 in
  lob ← null_list lob 0 nobj; cplob_shallow_reset lob.

(** The cells realloc adds are indeterminate until null_list sets them. *)
Definition cplob_reopen (new_length : Z) lob : option (CPLOB A) :=
  let new_length := if new_length <=? 1 then 2 else new_length in
  if new_length >? nlen lob
  then let l := take (Z.to_nat new_length) (list_ lob)
                ++ replicate (Z.to_nat new_length - length (list_ lob)) None in
       lob ← null_list (set_list l lob) (nlen lob) new_length;
       Some (mkCPLOB (list_ lob) new_length (nused lob))
  else Some lob.

Definition cplob_additem lob (index : Z) addr : option (CPLOB A) :=
  lob ← (if index + 1 >? nlen lob
         then cplob_reopen (index + 1 + CPLOB_NLENGTHINCR) lob else Some lob);
  l ← arr_write (list_ lob) index addr;
  let lob := set_list l lob in
  Some (if index + 1 >? nused lob then set_nused (index + 1) lob else lob).

Definition cplob_add lob addr : option (CPLOB A) := cplob_additem lob (nused lob) addr.

(** Add to the end of the NULL terminated array. *)
Definition cplob_add_nta lob addr : option (CPLOB A) :=
  let finish lob :=
    l ← arr_write (list_ lob) (nused lob - 1) addr;
    cplob_additem (set_list l lob) (nused lob) None in
  if nused lob =? 0 then
    let lob := set_nused (nused lob + 1) lob in
    lob ← cplob_reopen (nused lob + CPLOB_NLENGTHINCR) lob;
    l ← arr_write (list_ lob) (nused lob - 1) addr;
    let lob := set_list l lob in
    match addr with None => Some lob | Some _ => finish lob end
  else lob ← cplob_reopen (nused lob + CPLOB_NLENGTHINCR) lob; finish lob.

Definition cplob_set_nused lob (n : Z) : CPLOB A := set_nused n lob.
Definition cplob_get_nused lob : Z := nused lob.
Definition cplob_get_list lob : list (option A) := list_ lob.

(** The result is the pointer read, [Some None] for NULL. *)
Definition cplob_val lob (index : Z) : option (option A) :=
  if index <? 0 then Some None
  else if index >? nused lob then Some None
  else arr_read (list_ lob) index.

(** swbis_free on each pointer, then NULL. *)
Fixpoint free_from (l : list (option A)) (i : Z) (count : nat) : option (list (option A)) :=
  match count with
  | O => Some l
  | S count => p ← arr_read l i;
               l ← match p with Some _ => arr_write l i None | None => Some l end;
               free_from l (i + 1) count
  end.

Definition cplob_freeall lob : option (CPLOB A) :=
  l ← free_from (list_ lob) 0 (Z.to_nat (nused lob)); Some (set_list l lob).

Definition cplob_remove_index lob (i : Z) : option (CPLOB A * Z) :=
  if (i <? 0) || (i >=? nused lob) then Some (lob, -1)
  else if (nused lob =? 0) || (nlen lob =? 0) then Some (lob, 0)
  else l ← arr_shift (list_ lob) i (nused lob - i - 1);
       Some (mkCPLOB l (nlen lob - 1) (nused lob - 1), 0).

(** The inner while of cplob_backfill_and_nullterminate at the index [i]. *)
Fixpoint backfill_at (fuel : nat) lob (i : Z) : option (CPLOB A) :=
  match fuel with
  | O => None
  | S fuel =>
    if i <? nused lob then
      p ← arr_read (list_ lob) i;
      match p with
      | Some _ => Some lob
      | None =>
          if i + 1 =? nused lob then Some lob
          else l ← arr_shift (list_ lob) i (nused lob - i - 1);
               backfill_at fuel (mkCPLOB l (nlen lob) (nused lob - 1)) i
      end
    else Some lob
  end.

Fixpoint backfill_loop (fuel : nat) lob (i : Z) : option (CPLOB A) :=
  match fuel with
  | O => None
  | S fuel =>
    if i <? nused lob
    then lob ← backfill_at (S (Z.to_nat (nused lob))) lob i; backfill_loop fuel lob (i + 1)
    else Some lob
  end.

Definition cplob_backfill_and_nullterminate lob : option (CPLOB A) :=
  lob ← backfill_loop (S (Z.to_nat (nused lob))) lob 0;
  p ← arr_read (list_ lob) (nused lob);
  match p with Some _ => cplob_add lob None | None => Some lob end.

(** ** VPLOB: the same object with a NULL terminated array *)

Definition vplob_open : option (CPLOB A) := cplob_open 3.
Definition vplob_add lob addr : option (CPLOB A) := cplob_add_nta lob addr.
Definition vplob_val lob (index : Z) : option (option A) := cplob_val lob index.

(** for (i = 0; i < nused; i++) if (list[i] != NULL) ret++; *)
Fixpoint count_store (l : list (option A)) (i : Z) (count : nat) : option Z :=
  match count with
  | O => Some 0
  | S count => p ← arr_read l i; n ← count_store l (i + 1) count;
               Some (match p with Some _ => n + 1 | None => n end)
  end.

Definition vplob_get_nstore lob : option Z :=
  count_store (list_ lob) 0 (Z.to_nat (nused lob)).

Fixpoint delete_store (f_delete : list A -> A -> list A) (st : list A)
    (l : list (option A)) (i : Z) (count : nat) : option (list A) :=
  match count with
  | O => Some st
  | S count => p ← arr_read l i;
               delete_store f_delete (match p with Some a => f_delete st a | None => st end)
                 l (i + 1) count
  end.

(** [f_delete] is called on each stored pointer; its effect is on [st]. *)
Definition vplob_delete_store lob (f_delete : list A -> A -> list A) (st : list A)
    : option (list A) :=
  n ← vplob_get_nstore lob; delete_store f_delete st (list_ lob) 0 (Z.to_nat n).

Context `{EqDecision A}.

Fixpoint remove_loop lob (addr_to_remove : option A) (i : Z) (count : nat) : option (CPLOB A) :=
  match count with
  | O => Some lob
  | S count =>
      addr ← arr_read (list_ lob) i;
      lob ← (if decide (addr = addr_to_remove)
             then fst <$> cplob_remove_index lob i else Some lob);
      remove_loop lob addr_to_remove (i + 1) count
  end.

Definition vplob_remove_from_list lob (addr_to_remove : option A) : option (CPLOB A) :=
  n ← vplob_get_nstore lob; remove_loop lob addr_to_remove 0 (Z.to_nat n).
End Cplob.
