(* ===== verification/CplobSpec.v ===== *)
(** * Specification of CPLOB and VPLOB

    [nta lob xs] says that the object is a NULL terminated array of the pointers
    [xs]: this is the contract between the list and its clients (STRAR, SWVERID).
    The operations preserve it and act on [xs] as on a list. *)

From S2P Require Import Prelude Cplob.

Section CplobFacts.
Context {A : Type}.
Implicit Types (lob : CPLOB A) (xs : list A).

(** The recorded length never exceeds the block. *)
Definition sized lob : Prop := 0 <= nlen lob <= zlen (list_ lob).

(** A NULL terminated array of [xs]; one more cell is always allocated. *)
Record nta lob xs : Prop := {
  nta_sized : sized lob;
  nta_used : nused lob = zlen xs + 1;
  nta_room : nused lob < nlen lob;
  nta_items : forall i, (i < length xs)%nat -> list_ lob !! i = Some <$> xs !! i;
  nta_null : list_ lob !! length xs = Some None;
}.

(** An object with nothing in use, as cplob_open and cplob_shallow_reset leave it. *)
Record fresh lob : Prop := {
  fresh_sized : sized lob;
  fresh_used : nused lob = 0;
  fresh_some : 1 <= nlen lob;
  fresh_null : list_ lob !! 0%nat = Some None;
}.

Lemma null_from_spec n : forall (l : list (option A)) start,
  0 <= start -> start + Z.of_nat n <= zlen l ->
  exists l', null_from l start n = Some l' /\ zlen l' = zlen l
    /\ forall j, l' !! j = if decide (start <= Z.of_nat j < start + Z.of_nat n)
                           then Some None else l !! j.
Proof.
  induction n as [|n IH]; intros l start Hs Hl; cbn [null_from].
  - exists l. split; [done|]. split; [done|]. intros j. by rewrite decide_False by lia.
  - rewrite arr_write_in by lia. obind.
    destruct (IH (<[Z.to_nat start:=None]> l) (start + 1)) as (l' & -> & Hl' & Hj);
      [lia|unfold zlen in *; rewrite length_insert; lia|].
    exists l'. split; [done|]. split; [rewrite Hl'; unfold zlen; by rewrite length_insert|].
    intros j. rewrite Hj. unfold zlen in *.
    destruct (decide (start + 1 <= Z.of_nat j < start + 1 + Z.of_nat n)).
    + by rewrite decide_True by lia.
    + destruct (decide (Z.of_nat j = start)) as [E|].
      * rewrite decide_True by lia. replace j with (Z.to_nat start) by lia.
        apply list_lookup_insert_eq. lia.
      * rewrite decide_False by lia. apply list_lookup_insert_ne. lia.
Qed.

Lemma cplob_reopen_spec n lob :
  sized lob ->
  exists lob', cplob_reopen n lob = Some lob' /\ sized lob' /\ nused lob' = nused lob
    /\ nlen lob' = Z.max (nlen lob) (Z.max n 2)
    /\ forall i, list_ lob' !! i = if decide (Z.of_nat i < nlen lob) then list_ lob !! i
                                   else if decide (Z.of_nat i < nlen lob') then Some None
                                   else list_ lob' !! i.
Proof.
  intros W. unfold cplob_reopen.
  assert ((if n <=? 1 then 2 else n) = Z.max n 2) as -> by (destruct (n <=? 1) eqn:E; zbool; lia).
  set (k := Z.max n 2). unfold sized in W. destruct (k >? nlen lob) eqn:E; zbool.
  - unfold null_list. cbn [set_list list_]. set (l := take _ _ ++ _).
    assert (Hl : Z.max k 0 <= zlen l).
    { subst l. rewrite zlen_app, zlen_take, zlen_replicate. unfold zlen in *. lia. }
    destruct (null_from_spec (Z.to_nat (k - nlen lob)) l (nlen lob)) as (l' & -> & Hl' & Hj);
      [lia|lia|]. obind. eexists. split; [done|]. unfold sized. cbn.
    split; [lia|]. split; [done|]. split; [lia|]. intros i. rewrite Hj.
    destruct (decide (Z.of_nat i < nlen lob)).
    + rewrite decide_False by lia. subst l. unfold zlen in *.
      rewrite lookup_app_l by (rewrite length_take; lia). by rewrite lookup_take_lt by lia.
    + destruct (decide (Z.of_nat i < k)); [|done]. by rewrite decide_True by lia.
  - exists lob. split; [done|]. split; [done|]. split; [done|]. split; [lia|].
    intros i. destruct (decide (Z.of_nat i < nlen lob)); done.
Qed.

Lemma cplob_open_spec n :
  exists lob, @cplob_open A n = Some lob /\ fresh lob.
Proof.
  unfold cplob_open. set (k := if n <=? 0 then _ else n).
  assert (Hk : 1 <= k) by (subst k; unfold CPLOB_NINITLENGTH; destruct (n <=? 0) eqn:E; zbool; lia).
  unfold null_list, cplob_shallow_reset. cbn [list_ nlen set_list].
  set (l := replicate (Z.to_nat k) None).
  assert (Hl : zlen l = k) by (subst l; rewrite zlen_replicate; lia).
  destruct (null_from_spec (Z.to_nat (k - 0)) l 0) as (l' & -> & Hl' & _); [lia|lia|]. obind.
  unfold null_list. cbn [set_list set_nused list_ nlen nused].
  destruct (null_from_spec (Z.to_nat (k - 0)) l' 0) as (l2 & -> & Hl2 & Hj); [lia|lia|]. obind.
  eexists. split; [done|]. constructor; cbn; [unfold sized; cbn; lia|done|lia|].
  rewrite Hj. by rewrite decide_True by lia.
Qed.

Lemma cplob_open_exact n :
  0 < n -> exists lob, @cplob_open A n = Some lob /\ sized lob /\ nused lob = 0
    /\ nlen lob = n /\ zlen (list_ lob) = n.
Proof.
  intros Hn. unfold cplob_open. ztest. unfold null_list, cplob_shallow_reset. cbn [list_ nlen set_list].
  set (l := replicate (Z.to_nat n) None).
  assert (Hl : zlen l = n) by (subst l; rewrite zlen_replicate; lia).
  destruct (null_from_spec (Z.to_nat (n - 0)) l 0) as (l' & -> & Hl' & _); [lia|lia|]. obind.
  unfold null_list. cbn [set_list set_nused list_ nlen nused].
  destruct (null_from_spec (Z.to_nat (n - 0)) l' 0) as (l2 & -> & Hl2 & _); [lia|lia|]. obind.
  eexists. split; [done|]. unfold sized. cbn. lia.
Qed.

Lemma cplob_shallow_reset_spec lob :
  sized lob -> 1 <= nlen lob -> exists lob', cplob_shallow_reset lob = Some lob' /\ fresh lob'.
Proof.
  intros W Hn. unfold sized in W. unfold cplob_shallow_reset, null_list.
  cbn [set_list set_nused list_ nlen].
  destruct (null_from_spec (Z.to_nat (nlen lob - 0)) (list_ lob) 0) as (l & -> & Hl & Hj);
    [lia|lia|]. obind. eexists. split; [done|].
  constructor; cbn; unfold sized; cbn; [lia|done|lia|]. rewrite Hj. by rewrite decide_True by lia.
Qed.

Lemma cplob_additem_spec lob index addr :
  sized lob -> 0 <= index ->
  exists lob', cplob_additem lob index addr = Some lob' /\ sized lob'
    /\ nused lob' = Z.max (nused lob) (index + 1) /\ nlen lob <= nlen lob'
    /\ index < nlen lob' /\ list_ lob' !! Z.to_nat index = Some addr
    /\ (index + 1 <= nlen lob -> nlen lob' = nlen lob /\ zlen (list_ lob') = zlen (list_ lob))
    /\ forall i, Z.of_nat i <> index -> Z.of_nat i < nlen lob -> list_ lob' !! i = list_ lob !! i.
Proof.
  intros W Hi. unfold cplob_additem.
  assert (exists lob1, (if index + 1 >? nlen lob
            then cplob_reopen (index + 1 + CPLOB_NLENGTHINCR) lob else Some lob) = Some lob1
      /\ sized lob1 /\ nused lob1 = nused lob /\ nlen lob <= nlen lob1 /\ index < nlen lob1
      /\ (index + 1 <= nlen lob -> nlen lob1 = nlen lob /\ zlen (list_ lob1) = zlen (list_ lob))
      /\ forall i, Z.of_nat i < nlen lob -> list_ lob1 !! i = list_ lob !! i)
    as (lob1 & -> & W1 & Hu & Hn & Hin & Hnn & Hl).
  { destruct (index + 1 >? nlen lob) eqn:E; zbool.
    - destruct (cplob_reopen_spec (index + 1 + CPLOB_NLENGTHINCR) lob W)
        as (lob1 & -> & W1 & Hu & Hn & Hj). unfold CPLOB_NLENGTHINCR in *.
      exists lob1. split; [done|]. do 2 (split; [done|]). split; [lia|]. split; [lia|].
      split; [lia|]. intros i Hi2. rewrite Hj. by rewrite decide_True.
    - exists lob. do 3 (split; [done|]). split; [lia|]. split; [lia|]. done. }
  obind. unfold sized in W1. rewrite arr_write_in by lia. obind.
  eexists. split; [done|].
  destruct (index + 1 >? nused (set_list _ lob1)) eqn:E; zbool; cbn in E |- *; unfold sized; cbn;
    rewrite zlen_insert; (split; [lia|]); (split; [lia|]); (split; [done|]); (split; [done|]);
    (split; [apply list_lookup_insert_eq; unfold zlen in *; lia|]); (split; [done|]);
    intros i Hi1 Hi2; rewrite list_lookup_insert_ne by lia; by apply Hl.
Qed.

Lemma lookup_snoc_lt (xs : list A) x i : (i < length xs)%nat -> (xs ++ [x]) !! i = xs !! i.
Proof. apply lookup_app_l. Qed.

Lemma lookup_snoc_eq (xs : list A) x : (xs ++ [x]) !! length xs = Some x.
Proof. rewrite lookup_app_r by lia. by rewrite Nat.sub_diag. Qed.

(** Writing [x] over the terminator and terminating again. *)
Lemma nta_finish lob xs x :
  sized lob -> nused lob = zlen xs + 1 -> nused lob + 1 < nlen lob ->
  (forall i, (i < length xs)%nat -> list_ lob !! i = Some <$> xs !! i) ->
  exists lob', (l ← arr_write (list_ lob) (nused lob - 1) (Some x);
                cplob_additem (set_list l lob) (nused lob) None) = Some lob'
    /\ nta lob' (xs ++ [x]).
Proof.
  intros W Hu Hr Hx. pose proof (zlen_nonneg xs). unfold sized in W.
  rewrite arr_write_in by lia. obind. set (lob1 := set_list _ lob).
  assert (W1 : sized lob1) by (unfold sized; cbn; rewrite zlen_insert; lia).
  destruct (cplob_additem_spec lob1 (nused lob) None W1) as
    (lob2 & -> & W2 & Hu2 & Hn2 & Hin & Hnull & Hsame & Hl); [lia|].
  exists lob2. split; [done|]. cbn in Hu2, Hn2, Hl, Hsame.
  constructor; [done|rewrite zlen_app, zlen_cons, zlen_nil; lia|lia| |].
  - intros i Hi. rewrite length_app in Hi. cbn [length] in Hi. unfold zlen in *.
    rewrite Hl by lia. destruct (decide (i = length xs)) as [->|].
    + rewrite lookup_snoc_eq. replace (Z.to_nat (nused lob - 1)) with (length xs) by lia.
      apply list_lookup_insert_eq. lia.
    + rewrite lookup_snoc_lt, list_lookup_insert_ne by lia. apply Hx. lia.
  - rewrite length_app. cbn [length]. rewrite <- Hnull. f_equal. unfold zlen in *. lia.
Qed.

Lemma cplob_add_nta_spec lob xs x :
  nta lob xs -> exists lob', cplob_add_nta lob (Some x) = Some lob' /\ nta lob' (xs ++ [x]).
Proof.
  intros [W Hu Hr Hx Hnull]. pose proof (zlen_nonneg xs). unfold cplob_add_nta.
  assert ((nused lob =? 0) = false) as -> by (apply Z.eqb_neq; lia).
  destruct (cplob_reopen_spec (nused lob + CPLOB_NLENGTHINCR) lob W) as (lob1 & -> & W1 & Hu1 & Hn1 & Hj).
  obind. unfold CPLOB_NLENGTHINCR in *. apply nta_finish; [done|lia|lia|].
  intros i Hi. rewrite Hj. unfold zlen in *. rewrite decide_True by lia. by apply Hx.
Qed.

Lemma cplob_add_nta_fresh lob (p : option A) :
  fresh lob ->
  exists lob', cplob_add_nta lob p = Some lob'
    /\ nta lob' (match p with Some x => [x] | None => [] end).
Proof.
  intros [W Hu Hn _]. unfold cplob_add_nta. rewrite Hu. cbn [Z.eqb].
  destruct (cplob_reopen_spec (1 + CPLOB_NLENGTHINCR) (set_nused 1 lob)) as
    (lob1 & E1 & W1 & Hu1 & Hn1 & Hj); [exact W|].
  change (0 + 1) with 1. cbn [nused set_nused nlen] in *. rewrite E1. obind. rewrite Hu1.
  unfold sized, CPLOB_NLENGTHINCR in *. cbn [Z.sub Z.add Z.opp Z.pos_sub].
  rewrite arr_write_in by lia. obind. destruct p as [x|].
  - apply (nta_finish _ [] x); cbn; [|rewrite zlen_nil; lia|lia|intros i Hi; cbn in Hi; lia].
    unfold sized. cbn. rewrite zlen_insert. lia.
  - eexists. split; [done|].
    constructor; cbn; unfold sized; cbn; rewrite ?zlen_insert, ?zlen_nil;
      [lia|lia|lia|lia|]. apply list_lookup_insert_eq. unfold zlen in *. lia.
Qed.

(** cplob_val is defined at every index of a NULL terminated array. *)
Lemma cplob_val_nta lob xs i :
  nta lob xs -> 
  exists p, cplob_val lob i = Some p
    /\ (0 <= i <= zlen xs -> p = xs !! Z.to_nat i) /\ (i < 0 \/ zlen xs + 1 < i -> p = None).
Proof.
  intros [W Hu Hr Hx Hnull]. unfold cplob_val, sized in *.
  destruct (i <? 0) eqn:E1; zbool.
  { exists None. split; [done|]. split; [lia|done]. }
  destruct (i >? nused lob) eqn:E2; zbool.
  { exists None. split; [done|]. split; [lia|done]. }
  rewrite arr_read_in by lia. unfold zlen in *.
  destruct (lookup_lt_is_Some_2 (list_ lob) (Z.to_nat i)) as [p Hp]; [lia|].
  exists p. split; [done|]. split; [|lia]. intros Hi.
  destruct (decide (Z.to_nat i < length xs)%nat).
  - rewrite Hx in Hp by lia. destruct (xs !! Z.to_nat i); cbn in Hp; congruence.
  - replace (Z.to_nat i) with (length xs) in * by lia. rewrite Hnull in Hp.
    rewrite lookup_ge_None_2 by lia. congruence.
Qed.

Lemma cplob_remove_index_spec lob xs i :
  nta lob xs -> 0 <= i < zlen xs ->
  exists lob', cplob_remove_index lob i = Some (lob', 0)
    /\ nta lob' (delete (Z.to_nat i) xs).
Proof.
  intros [W Hu Hr Hx Hnull] Hi. unfold cplob_remove_index, sized in *. ztest.
  destruct (arr_shift_in (list_ lob) i (nused lob - i - 1)) as (l & -> & Hl & Hj); [lia|lia|lia|].
  obind. eexists. split; [done|]. unfold zlen in *.
  assert (Hd : length (delete (Z.to_nat i) xs) = (length xs - 1)%nat)
    by (apply length_delete, lookup_lt_is_Some_2; lia).
  constructor; cbn; unfold sized; cbn; unfold zlen; [lia|lia|lia| |].
  - intros j Hjl. rewrite Hd in Hjl. rewrite Hj. rewrite list_lookup_delete.
    destruct (decide (j < Z.to_nat i)%nat).
    + rewrite decide_False by lia. apply Hx. lia.
    + rewrite decide_True by lia. apply Hx. lia.
  - rewrite Hd, Hj, decide_True by lia. rewrite <- Hnull. f_equal. lia.
Qed.
End CplobFacts.

(** ** cplob_backfill_and_nullterminate *)

Section Backfill.
Context {A : Type}.
Implicit Types (lob : CPLOB A) (P Q U R : list (option A)).

(** The cells in use are [U], the rest of the block is [R]. *)
Definition layout lob U R : Prop := list_ lob = U ++ R /\ nused lob = zlen U.

Lemma arr_shift_app P (x : option A) Q R :
  arr_shift (P ++ x :: Q ++ R) (zlen P) (zlen Q)
  = Some (P ++ Q ++ drop (length Q) (x :: Q) ++ R).
Proof.
  unfold arr_shift. pose proof (zlen_nonneg P). pose proof (zlen_nonneg Q). pose proof (zlen_nonneg R).
  rewrite !zlen_app, zlen_cons, !zlen_app. ztest. unfold zlen. rewrite !Nat2Z.id. f_equal.
  rewrite take_app_length. f_equal.
  replace (length P + 1)%nat with (length (P ++ [x])) by (rewrite length_app; cbn; lia).
  replace (P ++ x :: Q ++ R) with ((P ++ [x]) ++ Q ++ R) at 1 by (by rewrite <- app_assoc).
  rewrite drop_app_length, take_app_length. f_equal.
  rewrite drop_app_add'; [|done].
  change (x :: Q ++ R) with ((x :: Q) ++ R). rewrite drop_app_le by (cbn; lia). done.
Qed.

(** The NULL run at the front, of which the last cell in use is kept. *)
Fixpoint skip_nulls Q : list (option A) :=
  match Q with
  | None :: Q' => match Q' with [] => Q | _ => skip_nulls Q' end
  | _ => Q
  end.

Lemma backfill_at_spec Q : forall P R lob fuel,
  layout lob (P ++ Q) R -> (length Q < fuel)%nat ->
  exists lob' R', backfill_at fuel lob (zlen P) = Some lob'
    /\ layout lob' (P ++ skip_nulls Q) R' /\ nlen lob' = nlen lob
    /\ zlen (list_ lob') = zlen (list_ lob).
Proof.
  induction Q as [|p Q IH]; intros P R lob fuel [Hl Hu] Hf; (destruct fuel as [|fuel]; [lia|]);
    cbn [backfill_at]; rewrite Hu, ?app_nil_r, ?zlen_app, ?zlen_cons;
    pose proof (zlen_nonneg P).
  - ztest. exists lob, R. cbn [skip_nulls]. rewrite ?app_nil_r in *.
    by repeat (split; [done|]).
  - pose proof (zlen_nonneg Q). ztest.
    assert (arr_read (list_ lob) (zlen P) = Some p) as ->.
    { rewrite arr_read_in, Hl by lia. replace (Z.to_nat (zlen P)) with (length P) by (unfold zlen; lia).
      by rewrite <- app_assoc, lookup_app_r, Nat.sub_diag by lia. }
    cbn [mbind option_bind].
    assert (Hsame : layout lob (P ++ p :: Q) R) by (by split).
    destruct p as [a|]; [exists lob, R; cbn [skip_nulls]; split_and!; done|].
    destruct Q as [|q Q].
    { rewrite zlen_nil. ztest. exists lob, R. cbn [skip_nulls]. split_and!; done. }
    assert ((zlen P + 1 =? zlen P + (1 + zlen (q :: Q))) = false) as ->
      by (rewrite zlen_cons; pose proof (zlen_nonneg Q); apply Z.eqb_neq; lia).
    assert (arr_shift (list_ lob) (zlen P) (zlen P + (1 + zlen (q :: Q)) - zlen P - 1)
            = Some (P ++ (q :: Q) ++ drop (length (q :: Q)) (None :: q :: Q) ++ R)) as ->.
    { rewrite Hl, <- app_assoc. replace (_ - zlen P - 1) with (zlen (q :: Q)) by lia.
      apply (arr_shift_app P None (q :: Q) R). }
    obind.
    set (lob1 := mkCPLOB _ _ _).
    destruct (IH P (drop (length (q :: Q)) (None :: q :: Q) ++ R) lob1 fuel)
      as (lob' & R' & -> & HL & Hn & Hz); [|cbn [length] in *; lia|].
    { split; [by rewrite <- app_assoc|]. cbn [nused lob1]. rewrite zlen_app. lia. }
    exists lob', R'. split; [done|]. split; [exact HL|]. split; [by rewrite Hn|].
    rewrite Hz. subst lob1. cbn [list_]. rewrite Hl. unfold zlen.
    rewrite !length_app, length_drop. cbn [length]. lia.
Qed.

(** The pointers that are stored, without the NULLs between them; a NULL at the
    very end stays. *)
Definition compact Q : list (option A) :=
  (Some <$> omap id Q) ++ (match last Q with Some None => [None] | _ => [] end).

Lemma compact_skip_nulls Q : compact (skip_nulls Q) = compact Q.
Proof.
  induction Q as [|[a|] Q IH]; [done|done|]. destruct Q as [|q Q]; [done|].
  transitivity (compact (q :: Q)); [exact IH|]. done.
Qed.

Lemma compact_cons (a : A) Q : compact (Some a :: Q) = Some a :: compact Q.
Proof. unfold compact. cbn. by destruct Q. Qed.

Lemma skip_nulls_cases Q :
  Q <> [] -> skip_nulls Q = [None] \/ exists a Q', skip_nulls Q = Some a :: Q' /\ (length Q' < length Q)%nat.
Proof.
  induction Q as [|[a|] Q IH]; intros Hne; [done| |].
  - right. exists a, Q. cbn. split; [done|lia].
  - destruct Q as [|q Q]; [by left|]. destruct IH as [E|(a & Q' & E & Hl)]; [done| |].
    + by left.
    + right. exists a, Q'. split; [exact E|]. cbn [length] in *. lia.
Qed.

Lemma backfill_loop_spec fuel : forall P Q R lob,
  layout lob (P ++ Q) R -> (length Q < fuel)%nat ->
  exists lob' R', backfill_loop fuel lob (zlen P) = Some lob'
    /\ layout lob' (P ++ compact Q) R' /\ nlen lob' = nlen lob
    /\ zlen (list_ lob') = zlen (list_ lob).
Proof.
  induction fuel as [|fuel IH]; intros P Q R lob HL Hf; [lia|]. cbn [backfill_loop].
  pose proof HL as [Hl Hu]. rewrite Hu, zlen_app.
  pose proof (zlen_nonneg P). destruct (decide (Q = [])) as [->|Hne].
  { rewrite zlen_nil. ztest. exists lob, R. by repeat (split; [done|]). }
  assert (Hq : 0 < zlen Q) by (destruct Q; [done|]; rewrite zlen_cons; pose proof (zlen_nonneg Q); lia).
  ztest. destruct (backfill_at_spec Q P R lob (S (Z.to_nat (zlen P + zlen Q))) HL)
    as (lob1 & R1 & -> & HL1 & Hn1 & Hz1); [unfold zlen in *; lia|]. obind.
  rewrite <- (compact_skip_nulls Q).
  destruct (skip_nulls_cases Q Hne) as [E|(a & Q' & E & Hlen)]; rewrite E in HL1 |- *.
  - replace (P ++ [None]) with ((P ++ [None]) ++ []) in HL1 by apply app_nil_r.
    destruct (IH (P ++ [None]) [] R1 lob1 HL1) as (lob2 & R2 & E2 & HL2 & Hn2 & Hz2);
      [destruct Q; [done|cbn [length] in *; lia]|].
    rewrite zlen_snoc in E2. rewrite E2.
    exists lob2, R2. rewrite <- app_assoc in HL2. do 2 (split; [done|]). split; congruence.
  - replace (P ++ Some a :: Q') with ((P ++ [Some a]) ++ Q') in HL1 by (by rewrite <- app_assoc).
    destruct (IH (P ++ [Some a]) Q' R1 lob1 HL1) as (lob2 & R2 & E2 & HL2 & Hn2 & Hz2); [lia|].
    rewrite zlen_snoc in E2. rewrite E2.
    exists lob2, R2. rewrite <- app_assoc in HL2. rewrite compact_cons.
    do 2 (split; [done|]). split; congruence.
Qed.

Lemma lookup_compact U (ys := omap id U) R i :
  (i < length ys)%nat -> (compact U ++ R) !! i = Some <$> ys !! i.
Proof.
  intros Hi. unfold compact. rewrite <- app_assoc, lookup_app_l by (by rewrite length_fmap).
  apply list_lookup_fmap.
Qed.
End Backfill.

(** ** Lists of pointers as the clients see them *)

Section Client.
Context {A : Type} `{EqDecision A}.
Implicit Types (lob : CPLOB A) (xs : list A) (a : A).

(** The list a reachable object stands for. *)
Definition rep lob xs : Prop := nta lob xs \/ (fresh lob /\ xs = []).

(** The loop of vplob_remove_from_list steps over the element that follows a
    removed one. *)
Fixpoint skip_remove a xs : list A :=
  match xs with
  | [] => []
  | x :: ys => if decide (x = a) then match ys with [] => [] | y :: zs => y :: skip_remove a zs end
               else x :: skip_remove a ys
  end.

Lemma skip_remove_notin a xs : a ∉ xs -> skip_remove a xs = xs.
Proof.
  induction xs as [|x ys IH]; [done|]. intros [Hx Hy]%not_elem_of_cons. cbn.
  rewrite decide_False by congruence. by rewrite IH.
Qed.

Lemma skip_remove_nodup a xs : NoDup xs -> skip_remove a xs = filter (.≠ a) xs.
Proof.
  induction 1 as [|x ys Hx Hnd IH]; [done|]. cbn [skip_remove]. destruct (decide (x = a)) as [->|Hne].
  - rewrite filter_cons_False by (intros []; done).
    assert (filter (.≠ a) ys = ys) as ->.
    { clear -Hx. induction ys as [|y ys IH]; [done|]. apply not_elem_of_cons in Hx as [? ?].
      rewrite filter_cons_True by congruence. by rewrite IH. }
    destruct ys as [|y zs]; [done|]. rewrite skip_remove_notin; [done|].
    intros ?. apply Hx. by right.
  - rewrite filter_cons_True by done. by rewrite IH.
Qed.

(** Somewhere in the list an [a] is directly behind another one. *)
Fixpoint paired a xs : bool :=
  match xs with
  | x :: (y :: _) as ys => (bool_decide (x = a) && bool_decide (y = a)) || paired a ys
  | _ => false
  end.

Lemma paired_tail a x ys : paired a (x :: ys) = false -> paired a ys = false.
Proof. destruct ys as [|y ys]; [done|]. by intros [_ H]%orb_false_iff. Qed.

Lemma skip_remove_unpaired a xs : paired a xs = false -> skip_remove a xs = filter (.≠ a) xs.
Proof.
  induction xs as [xs IH] using (induction_ltof1 _ length); unfold ltof in IH. intros Hp.
  destruct xs as [|x ys]; [done|]. cbn [skip_remove]. destruct (decide (x = a)) as [->|Hne].
  - rewrite filter_cons_False by (intros []; done). destruct ys as [|y zs]; [done|].
    assert (y <> a) as Hy. { intros ->. cbn in Hp. by rewrite bool_decide_true in Hp. }
    rewrite filter_cons_True by done. f_equal. apply IH; [cbn; lia|]. by eapply paired_tail, paired_tail.
  - rewrite filter_cons_True by done. f_equal. apply IH; [cbn; lia|]. by eapply paired_tail.
Qed.

(** [k] removals leave [k] more NULL cells behind the terminator. *)
Record slack lob xs (n : nat) : Prop := {
  slack_nta : nta lob xs;
  slack_len : (length xs <= n)%nat;
  slack_null : forall j, (length xs <= j <= n)%nat -> list_ lob !! j = Some None;
}.

Lemma slack_read lob xs n i :
  slack lob xs n -> (i <= n)%nat -> arr_read (list_ lob) (Z.of_nat i) = Some (xs !! i).
Proof.
  intros [[W Hu Hr Hx Hnull] Hl Hs] Hi.
  assert (Hv : list_ lob !! i = Some (xs !! i)).
  { destruct (decide (i < length xs)%nat) as [H|H].
    - rewrite Hx by done. apply lookup_lt_is_Some_2 in H as [x ->]. done.
    - rewrite Hs by lia. by rewrite lookup_ge_None_2 by lia. }
  rewrite arr_read_in, Nat2Z.id; [done|]. apply lookup_lt_Some in Hv. unfold zlen. lia.
Qed.

Lemma slack_remove lob xs n i :
  slack lob xs n -> (i < length xs)%nat ->
  exists lob', cplob_remove_index lob (Z.of_nat i) = Some (lob', 0)
    /\ slack lob' (delete i xs) n.
Proof.
  intros [Hnta Hl Hs] Hi.
  destruct (cplob_remove_index_spec lob xs (Z.of_nat i)) as (lob' & E & HN);
    [done|unfold zlen; lia|]. rewrite Nat2Z.id in HN. exists lob'. split; [done|].
  assert (Hd : length (delete i xs) = (length xs - 1)%nat)
    by (apply length_delete, lookup_lt_is_Some_2; lia).
  split; [done|lia|]. intros j Hj. destruct Hnta as [W Hu Hr Hx Hnull].
  revert E. unfold cplob_remove_index, sized, zlen in *. ztest.
  destruct (arr_shift_in (list_ lob) (Z.of_nat i) (nused lob - Z.of_nat i - 1)) as (l & -> & Hll & Hjj);
    [lia|lia|unfold zlen in *; lia|]. obind. intros [= <-]. cbn [list_]. rewrite Hjj.
  case_decide; apply Hs; lia.
Qed.

Lemma remove_loop_past a xs n lob : slack lob xs n -> forall m k,
  (length xs <= k)%nat -> (k + m <= n)%nat ->
  remove_loop lob (Some a) (Z.of_nat k) m = Some lob.
Proof.
  intros Hs. induction m as [|m IH]; intros k Hk Hm; [done|]. cbn [remove_loop].
  rewrite (slack_read _ _ _ _ Hs) by lia. obind. rewrite lookup_ge_None_2 by lia.
  rewrite decide_False by done. obind.
  replace (Z.of_nat k + 1) with (Z.of_nat (k + 1)) by lia. apply IH; lia.
Qed.

Lemma remove_loop_spec a ys : forall ws lob n m,
  slack lob (ws ++ ys) n -> (length ws + m <= n)%nat -> (length ys <= m)%nat ->
  exists lob', remove_loop lob (Some a) (Z.of_nat (length ws)) m = Some lob'
    /\ nta lob' (ws ++ skip_remove a ys).
Proof.
  induction ys as [ys IH] using (induction_ltof1 _ length); unfold ltof in IH.
  intros ws lob n m Hs Hn Hm. destruct ys as [|y ys].
  { rewrite app_nil_r in Hs. rewrite (remove_loop_past _ _ _ _ Hs) by lia.
    exists lob. cbn. rewrite app_nil_r. split; [done|apply Hs]. }
  destruct m as [|m]; [cbn in Hm; lia|]. cbn [remove_loop length] in *.
  rewrite (slack_read _ _ _ _ Hs) by lia. obind.
  assert (Hnext : forall w, Z.of_nat (length ws) + 1 = Z.of_nat (length (ws ++ [w])))
    by (intros w; rewrite length_app; cbn; lia).
  rewrite list_lookup_middle by done. cbn [skip_remove].
  destruct (decide (y = a)) as [->|Hne].
  - rewrite decide_True by done.
    destruct (slack_remove lob (ws ++ a :: ys) n (length ws) Hs) as (lob1 & -> & Hs1);
      [rewrite length_app; cbn; lia|]. obind.
    rewrite delete_middle in Hs1. destruct ys as [|z ys].
    + rewrite app_nil_r in *. rewrite (Hnext a), length_app.
      rewrite (remove_loop_past _ _ _ _ Hs1) by (cbn; lia). exists lob1. split; [done|apply Hs1].
    + rewrite cons_middle, app_assoc in Hs1. rewrite (Hnext z).
      destruct (IH ys ltac:(cbn; lia) (ws ++ [z]) lob1 n m Hs1) as (lob' & E & HN);
        [rewrite length_app; cbn; lia|cbn in *; lia|].
      rewrite <- app_assoc in HN. exists lob'. by split.
  - rewrite decide_False by congruence. obind.
    rewrite cons_middle, app_assoc in Hs. rewrite (Hnext y).
    destruct (IH ys ltac:(cbn; lia) (ws ++ [y]) lob n m Hs) as (lob' & E & HN);
      [rewrite length_app; cbn; lia|lia|].
    rewrite <- app_assoc in HN. exists lob'. by split.
Qed.

Lemma count_store_nta lob xs : nta lob xs -> forall m k, (k + m = S (length xs))%nat ->
  count_store (list_ lob) (Z.of_nat k) m = Some (Z.of_nat (length xs - k)).
Proof.
  intros HN. assert (Hs : slack lob xs (length xs)).
  { split; [done|done|]. intros j Hj. replace j with (length xs) by lia. apply HN. }
  induction m as [|m IH]; intros k Hk; cbn [count_store].
  - f_equal. lia.
  - rewrite (slack_read _ _ _ _ Hs) by lia. obind.
    replace (Z.of_nat k + 1) with (Z.of_nat (S k)) by lia. rewrite IH by lia. obind.
    destruct (decide (k < length xs)%nat) as [H|].
    + apply lookup_lt_is_Some_2 in H as Hx. destruct Hx as [x ->]. f_equal. lia.
    + rewrite lookup_ge_None_2 by lia. f_equal. lia.
Qed.

Lemma vplob_get_nstore_rep lob xs : rep lob xs -> vplob_get_nstore lob = Some (zlen xs).
Proof.
  unfold vplob_get_nstore. intros [HN|[[_ -> _] ->]]; [|done].
  rewrite (nta_used _ _ HN). replace (zlen xs) with (Z.of_nat (length xs - 0)) by (unfold zlen; lia).
  apply (count_store_nta lob xs HN _ 0). lia.
Qed.

Lemma vplob_remove_from_list_rep lob xs a :
  rep lob xs ->
  exists lob', vplob_remove_from_list lob (Some a) = Some lob' /\ rep lob' (skip_remove a xs).
Proof.
  intros HR. unfold vplob_remove_from_list. rewrite (vplob_get_nstore_rep _ _ HR). obind.
  destruct HR as [HN|[HF ->]]; [|exists lob; split; [done|right; by split]].
  assert (Hs : slack lob ([] ++ xs) (length xs)).
  { split; [done|done|]. intros j Hj. replace j with (length xs) by (cbn in *; lia). apply HN. }
  destruct (remove_loop_spec a xs [] lob (length xs) (Z.to_nat (zlen xs)) Hs) as (lob' & E & HN');
    [unfold zlen; cbn; lia|unfold zlen; lia|]. exists lob'. split; [exact E|by left].
Qed.

Lemma cplob_add_nta_rep lob xs x :
  rep lob xs -> exists lob', cplob_add_nta lob (Some x) = Some lob' /\ rep lob' (xs ++ [x]).
Proof.
  intros [HN|[HF ->]].
  - destruct (cplob_add_nta_spec lob xs x HN) as (l & ? & ?). exists l. split; [done|by left].
  - destruct (cplob_add_nta_fresh lob (Some x) HF) as (l & ? & ?). exists l. split; [done|by left].
Qed.

Lemma cplob_val_rep lob xs i :
  rep lob xs -> i <> zlen xs + 1 ->
  cplob_val lob i = Some (if i <? 0 then None else xs !! Z.to_nat i).
Proof.
  intros [HN|[[W Hu Hn H0] ->]] Hi.
  - destruct (cplob_val_nta lob xs i HN) as (p & -> & Hin & Hout). f_equal.
    destruct (i <? 0) eqn:E; zbool; [apply Hout; lia|].
    destruct (decide (i <= zlen xs)); [apply Hin; lia|].
    rewrite Hout by lia. rewrite lookup_ge_None_2; [done|]. unfold zlen in *. lia.
  - unfold cplob_val. rewrite Hu. destruct (i <? 0) eqn:E; zbool; [done|].
    destruct (i >? 0) eqn:E2; zbool; [done|]. replace i with 0 by lia.
    unfold sized in W. rewrite arr_read_in by lia. done.
Qed.

Lemma cplob_remove_index_rep lob xs i :
  rep lob xs -> i <> zlen xs ->
  exists lob', cplob_remove_index lob i
      = Some (lob', if decide (0 <= i < zlen xs) then 0 else -1)
    /\ rep lob' (if decide (0 <= i < zlen xs) then delete (Z.to_nat i) xs else xs).
Proof.
  intros HR Hi. destruct (decide (0 <= i < zlen xs)) as [H|H].
  - destruct HR as [HN|[_ ->]]; [|change (zlen []) with 0 in H; lia].
    destruct (cplob_remove_index_spec lob xs i HN H) as (l & ? & ?).
    exists l. split; [done|by left].
  - exists lob. split; [|done]. unfold cplob_remove_index.
    assert (nused lob <= zlen xs + 1)
      by (pose proof (zlen_nonneg xs);
          destruct HR as [HN|[HF _]]; [rewrite (nta_used _ _ HN)|rewrite (fresh_used _ HF)]; lia).
    destruct (i <? 0) eqn:E; [done|]. destruct (i >=? nused lob) eqn:E2; [done|]. zbool. lia.
Qed.

(** ** A client's sequence of calls *)

Inductive lob_op :=
| Add (a : A)
| RemoveIndex (i : Z)
| RemoveAddr (a : A)
| Val (i : Z)
| ShallowReset.

(** What a call gives back: the status of cplob_remove_index, the pointer of
    cplob_val, nothing otherwise. *)
Inductive lob_result := Nothing | Status (r : Z) | Pointer (p : option A).

Definition lob_step lob (o : lob_op) : option (CPLOB A * lob_result) :=
  match o with
  | Add a => l ← vplob_add lob (Some a); Some (l, Nothing)
  | RemoveIndex i => '(l, r) ← cplob_remove_index lob i; Some (l, Status r)
  | RemoveAddr a => l ← vplob_remove_from_list lob (Some a); Some (l, Nothing)
  | Val i => p ← vplob_val lob i; Some (lob, Pointer p)
  | ShallowReset => l ← cplob_shallow_reset lob; Some (l, Nothing)
  end.

Fixpoint lob_run lob (ops : list lob_op) : option (CPLOB A * list lob_result) :=
  match ops with
  | [] => Some (lob, [])
  | o :: ops => '(lob, r) ← lob_step lob o; '(lob, rs) ← lob_run lob ops; Some (lob, r :: rs)
  end.

(** The same calls on a plain list. Not permitted are the removal of the index of
    the terminator, the reading of the cell behind it, and the removal of an
    element that is directly behind another one of the same address (the loop of
    vplob_remove_from_list leaves the second one, see skip_remove). *)
Definition list_step xs (o : lob_op) : option (list A * lob_result) :=
  match o with
  | Add a => Some (xs ++ [a], Nothing)
  | RemoveIndex i =>
      if decide (i = zlen xs) then None
      else if decide (0 <= i < zlen xs) then Some (delete (Z.to_nat i) xs, Status 0)
      else Some (xs, Status (-1))
  | RemoveAddr a => if paired a xs then None else Some (filter (.≠ a) xs, Nothing)
  | Val i => if decide (i = zlen xs + 1) then None
             else Some (xs, Pointer (if i <? 0 then None else xs !! Z.to_nat i))
  | ShallowReset => Some ([], Nothing)
  end.

Fixpoint list_run xs (ops : list lob_op) : option (list A * list lob_result) :=
  match ops with
  | [] => Some (xs, [])
  | o :: ops => '(xs, r) ← list_step xs o; '(xs, rs) ← list_run xs ops; Some (xs, r :: rs)
  end.

Lemma rep_sized lob xs : rep lob xs -> sized lob /\ 1 <= nlen lob.
Proof.
  intros [[W Hu Hr _ _]|[[W Hu Hn _] _]]; split; auto. pose proof (zlen_nonneg xs). lia.
Qed.

Lemma lob_step_rep lob xs o xs' r :
  rep lob xs -> list_step xs o = Some (xs', r) ->
  exists lob', lob_step lob o = Some (lob', r) /\ rep lob' xs'.
Proof.
  intros HR. destruct o; cbn [list_step lob_step].
  - intros [= <- <-]. destruct (cplob_add_nta_rep lob xs a HR) as (l & E & ?).
    unfold vplob_add. rewrite E. by exists l.
  - destruct (decide (i = zlen xs)) as [|Hi]; [done|].
    destruct (cplob_remove_index_rep lob xs i HR Hi) as (l & -> & ?).
    destruct (decide (0 <= i < zlen xs)); intros [= <- <-]; by exists l.
  - destruct (paired a xs) eqn:E; [done|]. intros [= <- <-].
    destruct (vplob_remove_from_list_rep lob xs a HR) as (l & -> & HR'). exists l. by rewrite <- skip_remove_unpaired.
  - destruct (decide (i = zlen xs + 1)) as [|Hi]; [done|]. intros [= <- <-].
    unfold vplob_val. rewrite (cplob_val_rep lob xs i HR Hi). by exists lob.
  - intros [= <- <-]. destruct (rep_sized _ _ HR).
    destruct (cplob_shallow_reset_spec lob) as (l & -> & ?); [done|done|]. exists l.
    split; [done|]. right. by split.
Qed.

Lemma lob_run_rep ops : forall lob xs xs' rs,
  rep lob xs -> list_run xs ops = Some (xs', rs) ->
  exists lob', lob_run lob ops = Some (lob', rs) /\ rep lob' xs'.
Proof.
  induction ops as [|o ops IH]; intros lob xs xs' rs HR; cbn [list_run lob_run].
  - intros [= <- <-]. by exists lob.
  - destruct (list_step xs o) as [[xs1 r1]|] eqn:E; [|done]. obind.
    destruct (list_run xs1 ops) as [[xs2 rs2]|] eqn:E2; [|done]. obind. intros [= <- <-].
    destruct (lob_step_rep _ _ _ _ _ HR E) as (l1 & -> & HR1). obind.
    destruct (IH _ _ _ _ HR1 E2) as (l2 & -> & HR2). by exists l2.
Qed.
End Client.

(** C37: A permitted sequence of calls on the array vplob_open gives (add at the
    end, remove by index or all of an address, read by index, reset) returns what
    the same sequence returns on a plain list, and leaves the object standing for
    that list. Not permitted are the two cells behind the list (removing the
    index of the terminator, reading the cell behind it) and removing an address
    that is twice in a row in the list, of which the code leaves one. *)
Theorem vplob_list_refinement {A} `{EqDecision A} (ops : list lob_op) (xs : list A) rs :
  list_run [] ops = Some (xs, rs) ->
  exists lob lob', vplob_open = Some lob /\ lob_run lob ops = Some (lob', rs)
    /\ rep lob' xs /\ vplob_get_nstore lob' = Some (zlen xs).
Proof.
  intros E. destruct (cplob_open_spec (A := A) 3) as (lob & E0 & HF).
  destruct (lob_run_rep ops lob [] xs rs) as (lob' & E1 & HR); [by right|done|].
  exists lob, lob'. by auto using vplob_get_nstore_rep.
Qed.

Lemma compact_length {A} (Q : list (option A)) : zlen (compact Q) <= zlen Q.
Proof.
  induction Q as [|[a|] Q IH]; [done| |].
  - rewrite compact_cons, !zlen_cons. lia.
  - rewrite <- compact_skip_nulls. destruct Q as [|q Q]; [done|].
    change (skip_nulls (None :: q :: Q)) with (skip_nulls (q :: Q)).
    rewrite compact_skip_nulls, zlen_cons. lia.
Qed.

Lemma zlen_compact {A} (Q : list (option A)) (ys := omap id Q) :
  zlen (compact Q) = zlen ys \/ (zlen (compact Q) = zlen ys + 1 /\ compact Q !! length ys = Some None).
Proof.
  unfold compact. fold ys. rewrite zlen_app.
  assert (zlen (Some <$> ys) = zlen ys) as -> by (unfold zlen; by rewrite length_fmap).
  destruct (last Q) as [[a|]|]; [left|right|left]; rewrite ?zlen_cons, ?zlen_nil; [lia| |lia].
  split; [done|]. by rewrite lookup_app_r, length_fmap, Nat.sub_diag by (rewrite length_fmap; lia).
Qed.

(** What the final test of cplob_backfill_and_nullterminate leaves. *)
Lemma terminate_spec {A} (lob : CPLOB A) :
  sized lob -> 0 <= nused lob < nlen lob ->
  exists lob', (p ← arr_read (list_ lob) (nused lob);
                match p with Some _ => cplob_add lob None | None => Some lob end) = Some lob'
    /\ sized lob' /\ nused lob <= nused lob' /\ list_ lob' !! Z.to_nat (nused lob) = Some None
    /\ forall i, Z.of_nat i < nused lob -> list_ lob' !! i = list_ lob !! i.
Proof.
  intros W Hu. unfold sized in *. rewrite arr_read_in by lia.
  destruct (lookup_lt_is_Some_2 (list_ lob) (Z.to_nat (nused lob))) as [p Hp];
    [unfold zlen in *; lia|]. rewrite Hp. obind. destruct p as [a|].
  - destruct (cplob_additem_spec lob (nused lob) None W) as (l & E & W' & Hu' & _ & _ & Hv & _ & Hl); [lia|].
    exists l. unfold cplob_add. split; [done|]. split; [done|]. split; [lia|]. split; [done|].
    intros i Hi. apply Hl; lia.
  - exists lob. split; [done|]. split; [done|]. split; [lia|]. by split.
Qed.

(** cplob_backfill_and_nullterminate moves the pointers in use together, in
    their order, terminates them with a NULL, loses none and stays inside the
    block, whatever cells in use are NULL. *)
Theorem cplob_backfill_correct {A} (lob : CPLOB A) :
  sized lob -> 0 <= nused lob < nlen lob ->
  let ys := omap id (take (Z.to_nat (nused lob)) (list_ lob)) in
  exists lob', cplob_backfill_and_nullterminate lob = Some lob' /\ sized lob'
    /\ zlen ys <= nused lob'
    /\ (forall i, (i < length ys)%nat -> list_ lob' !! i = Some <$> ys !! i)
    /\ list_ lob' !! length ys = Some None.
Proof.
  intros W Hu. cbn zeta. unfold sized in W.
  set (U := take _ _). set (R := drop (Z.to_nat (nused lob)) (list_ lob)). set (ys := omap id U).
  assert (HU : zlen U = nused lob) by (subst U; rewrite zlen_take; lia).
  destruct (backfill_loop_spec (S (Z.to_nat (nused lob))) [] U R lob) as (lob1 & R1 & E & HL & Hn & Hz).
  { split; rewrite app_nil_l; [symmetry; apply take_drop|done]. }
  { unfold zlen in *. lia. }
  destruct HL as [Hl Hu1]. rewrite app_nil_l in *.
  pose proof (compact_length U). pose proof (zlen_nonneg (compact U)).
  destruct (terminate_spec lob1) as (lob2 & E2 & W2 & Hu2 & Hnull & Hsame);
    [unfold sized; lia|lia|].
  change (zlen []) with 0 in E.
  exists lob2. unfold cplob_backfill_and_nullterminate. rewrite E. obind.
  split; [exact E2|]. split; [done|]. destruct (zlen_compact U) as [Hc|[Hc Hnone]]; fold ys in Hc.
  - split; [lia|]. split.
    + intros i Hi. rewrite Hsame, Hl by (unfold zlen in *; lia). by apply lookup_compact.
    + rewrite <- Hnull. f_equal. unfold zlen in *. lia.
  - split; [lia|]. split.
    + intros i Hi. rewrite Hsame, Hl by (unfold zlen in *; lia). by apply lookup_compact.
    + fold ys in Hnone. rewrite Hsame, Hl by (unfold zlen in *; lia).
      rewrite lookup_app_l; [done|]. by apply lookup_lt_Some in Hnone.
Qed.

Lemma skip_remove_app {A} `{EqDecision A} (a : A) ws ys :
  a ∉ ws -> skip_remove a (ws ++ a :: a :: ys) = ws ++ a :: skip_remove a ys.
Proof.
  induction ws as [|w ws IH]; cbn; [intros _; by rewrite decide_True|].
  intros [? ?]%not_elem_of_cons. rewrite decide_False by congruence. by rewrite IH.
Qed.

(** On a list without duplicates vplob_remove_from_list removes the address
    and nothing else; of two adjacent occurrences the second one survives. *)
Theorem vplob_remove_from_list_exact {A} `{EqDecision A} (lob : CPLOB A) (xs : list A) a :
  rep lob xs ->
  exists lob', vplob_remove_from_list lob (Some a) = Some lob'
    /\ (NoDup xs -> rep lob' (filter (.≠ a) xs))
    /\ (forall ws ys, xs = ws ++ a :: a :: ys -> a ∉ ws -> rep lob' (ws ++ a :: skip_remove a ys)).
Proof.
  intros HR. destruct (vplob_remove_from_list_rep lob xs a HR) as (lob' & E & HR').
  exists lob'. split; [done|]. split.
  - intros Hnd. by rewrite <- skip_remove_nodup.
  - intros ws ys -> Hw. by rewrite <- skip_remove_app.
Qed.

Definition add_all {A} (lob : CPLOB A) (xs : list A) : option (CPLOB A) :=
  foldl (fun l x => l ← l; cplob_add l (Some x)) (Some lob) xs.

Lemma add_all_fills {A} (xs : list A) : forall lob n,
  sized lob -> 0 <= nused lob -> zlen (list_ lob) = n -> nlen lob = n -> nused lob + zlen xs = n ->
  exists lob', add_all lob xs = Some lob' /\ nused lob' = n /\ zlen (list_ lob') = n.
Proof.
  induction xs as [|x xs IH]; intros lob n W Hp Hz Hn Hu; unfold add_all; cbn [foldl].
  - exists lob. rewrite zlen_nil in Hu. split; [done|]. split; [lia|done].
  - rewrite zlen_cons in Hu. pose proof (zlen_nonneg xs). obind. unfold cplob_add.
    destruct (cplob_additem_spec lob (nused lob) (Some x) W) as (l & -> & W' & Hu' & _ & _ & _ & Hs & _); [lia|].
    destruct Hs as [Hn' Hz']; [lia|]. apply IH; [done|lia|lia|lia|lia].
Qed.

(** cplob_val lets the index equal the number of cells in use: filling the
    block cplob_open(n) allocated with n pointers and asking for index n reads
    the cell behind the block. *)
Theorem cplob_val_reads_past_block {A} (xs : list A) :
  0 < zlen xs ->
  exists lob lob', cplob_open (zlen xs) = Some lob /\ add_all lob xs = Some lob'
    /\ cplob_get_nused lob' = zlen xs /\ cplob_val lob' (zlen xs) = None.
Proof.
  intros Hx. destruct (cplob_open_exact (A := A) (zlen xs) Hx) as (lob & E & W & Hu & Hn & Hz).
  destruct (add_all_fills xs lob (zlen xs)) as (lob' & E' & Hu' & Hz'); [done|lia|done|done|lia|].
  exists lob, lob'. split; [done|]. split; [done|]. split; [done|].
  unfold cplob_val. ztest. rewrite arr_read_in by lia. apply lookup_ge_None_2. unfold zlen in *. lia.
Qed.

Module Witness.
Definition demo : list (@lob_op Z) :=
  [Add 3; Add 5; Add 7; RemoveIndex 1; Val 1; Val (-2); Add 9; RemoveAddr 3; RemoveIndex 8; Val 0].

Lemma vplob_list_refinement_witness :
  exists lob lob', vplob_open = Some lob
    /\ lob_run lob demo = Some (lob', [Nothing; Nothing; Nothing; Status 0; Pointer (Some 7);
                                        Pointer None; Nothing; Nothing; Status (-1); Pointer (Some 7)])
    /\ rep lob' [7; 9] /\ vplob_get_nstore lob' = Some 2.
Proof. apply (vplob_list_refinement demo [7; 9]). reflexivity. Defined.

Definition holes : CPLOB Z := mkCPLOB [None; Some 3; None; None; Some 5; Some 8; None] 7 5.

Lemma cplob_backfill_correct_witness :
  exists lob', cplob_backfill_and_nullterminate holes = Some lob' /\ sized lob'
    /\ 2 <= nused lob'
    /\ (forall i, (i < 2)%nat -> list_ lob' !! i = Some <$> [3; 5] !! i)
    /\ list_ lob' !! 2%nat = Some None.
Proof. apply (cplob_backfill_correct holes); unfold sized, zlen; cbn; lia. Defined.

Definition trio : CPLOB Z := mkCPLOB [Some 2; Some 4; Some 4; None; None] 5 4.

Lemma trio_rep : rep trio [2; 4; 4].
Proof.
  left. constructor; [unfold sized, zlen; cbn; lia|reflexivity|cbn; lia| |reflexivity].
  intros [|[|[|i]]] Hi; [reflexivity..|cbn in Hi; lia].
Qed.

Lemma vplob_remove_from_list_exact_witness :
  exists lob', vplob_remove_from_list trio (Some 4) = Some lob'
    /\ (NoDup [2; 4; 4] -> rep lob' (filter (.≠ 4) [2; 4; 4]))
    /\ (forall ws ys, [2; 4; 4] = ws ++ 4 :: 4 :: ys -> 4 ∉ ws -> rep lob' (ws ++ 4 :: skip_remove 4 ys)).
Proof. apply (vplob_remove_from_list_exact trio [2; 4; 4] 4 trio_rep). Defined.

Lemma cplob_val_reads_past_block_witness :
  exists lob lob', cplob_open 2 = Some lob /\ add_all lob [1; 2] = Some lob'
    /\ cplob_get_nused lob' = 2 /\ cplob_val lob' 2 = None.
Proof. apply (cplob_val_reads_past_block [1; 2]). reflexivity. Defined.
End Witness.
