(* ===== verification/HardLinks.v ===== *)
(** * Hard links and virtual inodes (swsupplib/taru/hllist.c and porinode.c)

    HLLIST remembers the path of every file with more than one link by its
    device and inode; PORINODE numbers the files of a cpio archive with virtual
    devices and inodes of 16 bits, the same number for the links of one file. *)

From S2P Require Import Prelude CString Cplob.

(** ** HLLIST *)

(** An entry is not changed after it is made, so that the array holds the
    entries where the code holds their addresses. *)
Record hllist_entry := mkEntry {
  path_ : bytes;
  dev_ : Z;
  ino_ : Z;
  v_dev_ : Z;
  v_ino_ : Z;
}.

Record HLLIST := mkHLLIST {
  disable_find_ : Z;
  disable_add_ : Z;
  hl_list_ : CPLOB hllist_entry;
}.

Definition hllist_open : option HLLIST :=
  lob ← cplob_open 8;
  lob ← cplob_additem lob 0 None;
  Some (mkHLLIST 0 0 lob).

Definition hllist_add_vrecord (hllist : HLLIST) (path : bytes) (dev ino v_dev v_ino : Z) : option HLLIST :=
  if negb (disable_add_ hllist =? 0) then Some hllist
  else
    let en := mkEntry path dev ino v_dev v_ino in
    lob ← cplob_additem (hl_list_ hllist) (cplob_get_nused (hl_list_ hllist) - 1) (Some en);
    lob ← cplob_additem lob (cplob_get_nused lob) None;
    Some (mkHLLIST (disable_find_ hllist) (disable_add_ hllist) lob).

Definition hllist_add_record (hllist : HLLIST) (path : bytes) (dev ino : Z) : option HLLIST :=
  if negb (disable_add_ hllist =? 0) then Some hllist
  else hllist_add_vrecord hllist path dev ino 0 0.

(** while ((en = cplob_val (list, i++))): the entry and nfound. *)
Fixpoint find_loop (fuel : nat) (lob : CPLOB hllist_entry) (i dev ino occurance nfound : Z)
    : option (option hllist_entry * Z) :=
  match fuel with
  | O => None
  | S fuel =>
      en ← cplob_val lob i;
      match en with
      | None => Some (None, nfound)
      | Some en =>
          if (ino_ en =? ino) && (dev_ en =? dev) then
            let nfound := nfound + 1 in
            if (occurance >? 0) && (nfound =? occurance) then Some (Some en, nfound)
            else find_loop fuel lob (i + 1) dev ino occurance nfound
          else find_loop fuel lob (i + 1) dev ino occurance nfound
      end
  end.

Definition hllist_find_file_entry (hllist : HLLIST) (dev ino occurance nfound : Z)
    : option (option hllist_entry * Z) :=
  if negb (disable_find_ hllist =? 0) then Some (None, nfound)
  else find_loop (S (length (list_ (hl_list_ hllist)))) (hl_list_ hllist) 0 dev ino occurance nfound.

Definition hllist_disable_add (hllist : HLLIST) : HLLIST :=
  mkHLLIST (disable_find_ hllist) 1 (hl_list_ hllist).
Definition hllist_disable_find (hllist : HLLIST) : HLLIST :=
  mkHLLIST 1 (disable_add_ hllist) (hl_list_ hllist).

(** The entries are freed with the array; a new one takes its place. *)
Definition hllist_clear_entries_and_disable (hllist : HLLIST) : option HLLIST :=
  lob ← cplob_open 8;
  lob ← cplob_additem lob 0 None;
  Some (mkHLLIST 1 (disable_add_ hllist) lob).

(** ** PORINODE *)

Definition PORINODE_MAX : Z := 65535 - 1.

Record PORINODE := mkPORINODE {
  current_inodeM : Z;
  current_deviceM : Z;
  max_inodeM : Z;
  max_deviceM : Z;
  hllistM : HLLIST;
}.

Definition porinode_open : option PORINODE :=
  hllist ← hllist_open;
  Some (mkPORINODE 1 1 PORINODE_MAX PORINODE_MAX hllist).

(** An increment of an int, undefined at the largest one. *)
Definition int_incr (n : Z) : option Z := if n <? INT_MAX then Some (n + 1) else None.

(** The object, *p_dev and *p_ino. *)
Definition porinode_i_get_next_vinode (porinode : PORINODE) : option (PORINODE * Z * Z) :=
  '(inode, device) ←
    (if current_inodeM porinode >=? max_inodeM porinode - 1 then
       if current_deviceM porinode >=? max_deviceM porinode
       then Some (current_inodeM porinode, current_deviceM porinode)
       else device ← int_incr (current_deviceM porinode); Some (0, device)
     else Some (current_inodeM porinode, current_deviceM porinode));
  inode ← int_incr inode;
  Some (mkPORINODE inode device (max_inodeM porinode) (max_deviceM porinode) (hllistM porinode), device, inode).

Definition porinode_add_vrecord (porinode : PORINODE) (path : bytes) (dev ino v_dev v_ino : Z)
    : option PORINODE :=
  hllist ← hllist_add_vrecord (hllistM porinode) path dev ino v_dev v_ino;
  Some (mkPORINODE (current_inodeM porinode) (current_deviceM porinode) (max_inodeM porinode)
          (max_deviceM porinode) hllist).

(** An entry that is not there when nfound is not 0 is a NULL that is used. *)
Definition porinode_make_next_inode (porinode : PORINODE) (nlinks dev ino : Z) : option (PORINODE * Z * Z) :=
  if nlinks <? 2 then porinode_i_get_next_vinode porinode
  else
    '(en, nfound) ← hllist_find_file_entry (hllistM porinode) dev ino 1 0;
    if nfound =? 0 then
      '(porinode, v_dev, v_ino) ← porinode_i_get_next_vinode porinode;
      porinode ← porinode_add_vrecord porinode [] dev ino v_dev v_ino;
      Some (porinode, v_dev, v_ino)
    else
      en ← en; Some (porinode, v_dev_ en, v_ino_ en).
