(* ===== verification/HardLinksSpec.v ===== *)
(** * Specification of hard links and virtual inodes

    The list of hard links finds the paths that were recorded for a file in the
    order in which they were recorded; two members of a cpio archive have the
    same virtual inode exactly when they are links of one file. *)

From S2P Require Import Prelude CString Cplob CplobSpec HardLinks.

(** ** The array of entries *)

(** The entries [xs] and a NULL behind them. *)
Record entries (lob : CPLOB hllist_entry) (xs : list hllist_entry) : Prop := {
  en_sized : sized lob;
  en_used : nused lob = zlen xs + 1;
  en_room : nused lob <= nlen lob;
  en_items : forall i, (i < length xs)%nat -> list_ lob !! i = Some <$> xs !! i;
  en_null : list_ lob !! length xs = Some None;
}.

Lemma entries_open : exists lob, (lob ← cplob_open 8; cplob_additem lob 0 None) = Some lob /\ entries lob [].
Proof.
  destruct (@cplob_open_exact hllist_entry 8) as (lob & -> & W & Hu & Hn & Hl); [lia|]. obind.
  destruct (cplob_additem_spec lob 0 None W) as (lob' & -> & W' & Hu' & _ & Hi & H0 & Hn' & _); [lia|].
  exists lob'. split; [done|]. destruct Hn' as [Hn' _]; [lia|].
  constructor; cbn [length]; [done|unfold zlen; cbn; lia|lia|intros i ?; lia|done].
Qed.

Lemma entries_add lob xs en :
  entries lob xs ->
  exists lob', (lob ← cplob_additem lob (cplob_get_nused lob - 1) (Some en);
                cplob_additem lob (cplob_get_nused lob) None) = Some lob' /\ entries lob' (xs ++ [en]).
Proof.
  intros [W Hu Hr Hx Hnull]. unfold cplob_get_nused.
  destruct (cplob_additem_spec lob (nused lob - 1) (Some en) W) as (l1 & -> & W1 & Hu1 & Hn1 & _ & Hi1 & _ & Ho1);
    [unfold zlen in *; lia|]. obind.
  destruct (cplob_additem_spec l1 (nused l1) None W1) as (l2 & -> & W2 & Hu2 & Hn2 & Hin & Hi2 & _ & Ho2);
    [unfold zlen in *; lia|].
  exists l2. split; [done|]. unfold zlen in *.
  assert (Hlen : length (xs ++ [en]) = S (length xs)) by (rewrite length_app; cbn; lia).
  constructor; [done|unfold zlen; lia|lia| |].
  - intros i Hi. destruct (decide (i = length xs)) as [->|].
    + rewrite lookup_snoc_eq, Ho2 by lia.
      replace (length xs) with (Z.to_nat (nused lob - 1)) by lia. by rewrite Hi1.
    + rewrite Ho2, Ho1, Hx by lia. by rewrite lookup_snoc_lt by lia.
  - rewrite Hlen, <- Hi2. f_equal. lia.
Qed.

Lemma entries_val lob xs i :
  entries lob xs -> 0 <= i <= zlen xs -> cplob_val lob i = Some (xs !! Z.to_nat i).
Proof.
  intros [W Hu Hr Hx Hnull] Hi. unfold cplob_val, sized, zlen in *. ztest. rewrite arr_read_in by lia.
  destruct (decide (Z.to_nat i < length xs)%nat).
  - rewrite Hx by lia. destruct (lookup_lt_is_Some_2 xs (Z.to_nat i)) as [e ->]; [lia|done].
  - replace (Z.to_nat i) with (length xs) by lia. rewrite Hnull. by rewrite lookup_ge_None_2 by lia.
Qed.

(** ** Finding *)

(** The entry is for the file. *)
Definition is_file (dev ino : Z) (en : hllist_entry) : Prop := ino_ en = ino /\ dev_ en = dev.

#[global] Instance is_file_dec dev ino en : Decision (is_file dev ino en).
Proof. unfold is_file. apply _. Defined.

(** The links of the file, in the order in which they were recorded. *)
Definition links_of (dev ino : Z) (xs : list hllist_entry) : list hllist_entry := filter (is_file dev ino) xs.

(** What the search answers: the link with the number, or how many there are. *)
Definition nth_link (links : list hllist_entry) (occurance nfound : Z) : option hllist_entry * Z :=
  if decide (nfound < occurance <= nfound + zlen links /\ 0 < occurance)
  then (links !! Z.to_nat (occurance - nfound - 1), occurance)
  else (None, nfound + zlen links).

Lemma nth_link_cons en links occ n :
  ~ (0 < occ /\ occ = n + 1) -> nth_link (en :: links) occ n = nth_link links occ (n + 1).
Proof.
  intros Hne. unfold nth_link. rewrite zlen_cons.
  pose proof (zlen_nonneg links).
  repeat case_decide; try lia.
  - f_equal. replace (Z.to_nat (occ - n - 1)) with (S (Z.to_nat (occ - (n + 1) - 1))) by lia. done.
  - f_equal. lia.
Qed.

Lemma find_loop_spec fuel : forall lob xs i dev ino occ n,
  entries lob xs -> 0 <= i <= zlen xs -> (length xs - Z.to_nat i < fuel)%nat ->
  find_loop fuel lob i dev ino occ n = Some (nth_link (links_of dev ino (drop (Z.to_nat i) xs)) occ n).
Proof.
  induction fuel as [|fuel IH]; intros lob xs i dev ino occ n He Hi Hf; [lia|].
  cbn [find_loop]. rewrite (entries_val _ _ _ He Hi). obind.
  destruct (xs !! Z.to_nat i) as [en|] eqn:Hen.
  2:{ apply lookup_ge_None_1 in Hen. rewrite drop_ge by lia. unfold nth_link. cbn.
      rewrite decide_False by (unfold zlen; cbn; lia). do 2 f_equal. unfold zlen. cbn. lia. }
  pose proof (lookup_lt_Some _ _ _ Hen) as Hlt.
  rewrite (drop_S _ _ _ Hen). unfold links_of. rewrite filter_cons.
  assert (Hr : forall n, find_loop fuel lob (i + 1) dev ino occ n
                 = Some (nth_link (filter (is_file dev ino) (drop (S (Z.to_nat i)) xs)) occ n)).
  { intros n'. rewrite (IH _ xs) by (done || unfold zlen in *; lia).
    unfold links_of. do 4 f_equal. lia. }
  destruct (decide (is_file dev ino en)) as [[<- <-]|Hne].
  - rewrite !Z.eqb_refl. cbn [andb].
    destruct ((occ >? 0) && (n + 1 =? occ)) eqn:E; zbool.
    + unfold nth_link. rewrite zlen_cons. pose proof (zlen_nonneg (filter (is_file (dev_ en) (ino_ en)) (drop (S (Z.to_nat i)) xs))).
      rewrite decide_True by lia. replace (occ - n - 1) with 0 by lia. cbn. do 2 f_equal. lia.
    + rewrite Hr. rewrite nth_link_cons; [done|]. intros [? ->]. destruct E; zbool; lia.
  - destruct ((ino_ en =? ino) && (dev_ en =? dev)) eqn:E; zbool; [|apply Hr].
    by destruct Hne.
Qed.

(** ** The list and its operations *)

Record links (h : HLLIST) (xs : list hllist_entry) : Prop := {
  ln_add : disable_add_ h = 0;
  ln_find : disable_find_ h = 0;
  ln_entries : entries (hl_list_ h) xs;
}.

Lemma hllist_open_links : exists h, hllist_open = Some h /\ links h [].
Proof.
  unfold hllist_open. destruct entries_open as (lob & H & He).
  destruct (cplob_open 8) as [l0|]; [|done]. cbn in H |- *. rewrite H. cbn. by eexists.
Qed.

Lemma hllist_add_vrecord_links h xs path dev ino v_dev v_ino :
  links h xs ->
  exists h', hllist_add_vrecord h path dev ino v_dev v_ino = Some h'
    /\ links h' (xs ++ [mkEntry path dev ino v_dev v_ino]).
Proof.
  intros [Ha Hf He]. unfold hllist_add_vrecord. rewrite Ha. cbn [Z.eqb negb].
  destruct (entries_add _ _ (mkEntry path dev ino v_dev v_ino) He) as (lob & H & He').
  destruct (cplob_additem (hl_list_ h) _ _) as [l1|]; [|done]. cbn in H |- *. rewrite H. cbn.
  eexists. split; [done|]. constructor; done.
Qed.

Lemma hllist_find_links h xs dev ino occ n :
  links h xs -> hllist_find_file_entry h dev ino occ n = Some (nth_link (links_of dev ino xs) occ n).
Proof.
  intros [Ha Hf He]. unfold hllist_find_file_entry. rewrite Hf. cbn [Z.eqb negb].
  assert (length xs < length (list_ (hl_list_ h)))%nat.
  { pose proof (en_null _ _ He) as H. by apply lookup_lt_Some in H. }
  rewrite (find_loop_spec _ _ xs) by (done || unfold zlen; lia). done.
Qed.

(** The code that records the paths of one run. *)
Fixpoint add_records (h : HLLIST) (files : list (bytes * Z * Z)) : option HLLIST :=
  match files with
  | [] => Some h
  | (path, dev, ino) :: files => h ← hllist_add_record h path dev ino; add_records h files
  end.

Definition record_of (f : bytes * Z * Z) : hllist_entry := let '(path, dev, ino) := f in mkEntry path dev ino 0 0.

Lemma add_records_links files : forall h xs,
  links h xs -> exists h', add_records h files = Some h' /\ links h' (xs ++ (record_of <$> files)).
Proof.
  induction files as [|[[path dev] ino] files IH]; intros h xs Hl.
  { exists h. cbn. by rewrite app_nil_r. }
  cbn [add_records]. unfold hllist_add_record. rewrite (ln_add _ _ Hl). cbn [Z.eqb negb].
  destruct (hllist_add_vrecord_links h xs path dev ino 0 0 Hl) as (h' & -> & Hl'). obind.
  destruct (IH _ _ Hl') as (h2 & -> & Hl2). exists h2. split; [done|].
  cbn [fmap list_fmap record_of]. by rewrite cons_middle, app_assoc.
Qed.

(** After any sequence of hllist_add_record calls on a new list, looking
    for the link number [occurance] of a file with hllist_find_file_entry
    answers the entry whose path was recorded [occurance]-th for that device
    and inode, and the counter tells the number; when there are fewer links, or
    the number is not positive, the answer is NULL and the counter is the
    number of all links of the file.  Neither the growing of the array nor the
    search leaves its memory. *)
Theorem hllist_finds_links (files : list (bytes * Z * Z)) (dev ino occurance : Z) :
  let paths := (fun f => f.1.1) <$> filter (fun f : bytes * Z * Z => f.2 = ino /\ f.1.2 = dev) files in
  exists h0 h, hllist_open = Some h0 /\ add_records h0 files = Some h
    /\ exists en nfound, hllist_find_file_entry h dev ino occurance 0 = Some (en, nfound)
    /\ (1 <= occurance <= zlen paths ->
        path_ <$> en = paths !! Z.to_nat (occurance - 1) /\ nfound = occurance)
    /\ (~ 1 <= occurance <= zlen paths -> en = None /\ nfound = zlen paths).
Proof.
  intros paths. destruct hllist_open_links as (h0 & Ho & Hl0).
  destruct (add_records_links files h0 [] Hl0) as (h & Ha & Hl). exists h0, h.
  split; [done|]. split; [done|]. rewrite (hllist_find_links _ _ _ _ _ _ Hl). cbn [app].
  assert (Hp : path_ <$> links_of dev ino (record_of <$> files) = paths).
  { subst paths. unfold links_of. clear. induction files as [|[[p d] i] files IH]; [done|].
    cbn [fmap list_fmap]. rewrite !filter_cons. cbn [fst snd].
    repeat case_decide; cbn [fmap list_fmap]; unfold is_file in *; cbn in *; try tauto.
    by rewrite IH. }
  assert (Hz : zlen (links_of dev ino (record_of <$> files)) = zlen paths)
    by (rewrite <- Hp; unfold zlen; by rewrite length_fmap).
  unfold nth_link. rewrite Hz. destruct (decide _) as [Hd|Hd].
  - do 2 eexists. split; [done|]. split; [|lia]. intros _. split; [|done].
    rewrite <- Hp, list_lookup_fmap. do 2 f_equal. lia.
  - do 2 eexists. split; [done|]. split; [lia|done].
Qed.

(** ** Virtual inodes *)

(** A file of an archive: links, device and inode. *)
Abbreviation request := (Z * Z * Z)%type.

(** Two members of the archive are links of one file. *)
Definition same_file (q r : request) : Prop :=
  2 <= q.1.1 /\ 2 <= r.1.1 /\ q.1.2 = r.1.2 /\ q.2 = r.2.

Lemma same_file_sym q r : same_file q r <-> same_file r q.
Proof. unfold same_file. split; intros (? & ? & ? & ?); done. Qed.

(** The calls for the members in the order of the archive. *)
Fixpoint make_inodes (p : PORINODE) (qs : list request) : option (PORINODE * list (Z * Z)) :=
  match qs with
  | [] => Some (p, [])
  | (nlinks, dev, ino) :: qs =>
      '(p, v_dev, v_ino) ← porinode_make_next_inode p nlinks dev ino;
      '(p, vs) ← make_inodes p qs;
      Some (p, (v_dev, v_ino) :: vs)
  end.

(** The numbers in the order in which they are given out: [INODES] for each
    device. *)
Definition INODES : Z := PORINODE_MAX - 1.
Definition MAX_NUMBER : Z := PORINODE_MAX * INODES.

Definition number (v : Z * Z) : Z := (v.1 - 1) * INODES + v.2.
Definition proper_number (v : Z * Z) : Prop := 1 <= v.1 <= PORINODE_MAX /\ 1 <= v.2 <= INODES.

Lemma number_inj v w : proper_number v -> proper_number w -> number v = number w -> v = w.
Proof.
  destruct v as [d i], w as [d' i']. unfold proper_number, number, INODES, PORINODE_MAX. cbn. intros.
  f_equal; lia.
Qed.

(** The object has given out the numbers up to [k]. *)
Record at_number (p : PORINODE) (k : Z) : Prop := {
  at_max : max_inodeM p = PORINODE_MAX /\ max_deviceM p = PORINODE_MAX;
  at_proper : proper_number (current_deviceM p, current_inodeM p);
  at_current : number (current_deviceM p, current_inodeM p) = k;
}.

Lemma next_number p k :
  at_number p k -> k < MAX_NUMBER ->
  exists p' d i, porinode_i_get_next_vinode p = Some (p', d, i) /\ at_number p' (k + 1)
    /\ number (d, i) = k + 1 /\ proper_number (d, i) /\ hllistM p' = hllistM p.
Proof.
  intros [[Hmi Hmd] Hp Hc] Hk. unfold porinode_i_get_next_vinode. rewrite Hmi, Hmd.
  unfold proper_number, number, MAX_NUMBER, INODES, PORINODE_MAX in *. cbn [fst snd] in *.
  destruct (current_inodeM p >=? 65535 - 1 - 1) eqn:E1; zbool.
  - destruct (current_deviceM p >=? 65535 - 1) eqn:E2; zbool; [lia|].
    unfold int_incr, INT_MAX. ztest. obind. ztest. obind.
    do 3 eexists. split; [done|]. split; [constructor|]; unfold proper_number, number, INODES, PORINODE_MAX; cbn;
      repeat split; try done; lia.
  - unfold int_incr, INT_MAX. obind. ztest. obind.
    do 3 eexists. split; [done|]. split; [constructor|]; unfold proper_number, number, INODES, PORINODE_MAX; cbn;
      repeat split; try done; lia.
Qed.

(** What the members [hist] with their numbers have left in the object. *)
Record numbered (p : PORINODE) (k : Z) (xs : list hllist_entry) (hist : list (request * (Z * Z))) : Prop := {
  nb_at : at_number p k;
  nb_links : links (hllistM p) xs;
  nb_given : forall q v, (q, v) ∈ hist -> proper_number v /\ number v <= k;
  nb_entry : forall en, en ∈ xs ->
    exists q v, (q, v) ∈ hist /\ 2 <= q.1.1 /\ q.1.2 = dev_ en /\ q.2 = ino_ en /\ v = (v_dev_ en, v_ino_ en);
  nb_known : forall q v, (q, v) ∈ hist -> 2 <= q.1.1 ->
    exists en, en ∈ xs /\ is_file q.1.2 q.2 en;
  nb_same : forall i j q v r w, i <> j -> hist !! i = Some (q, v) -> hist !! j = Some (r, w) ->
    (v = w <-> same_file q r);
}.

(** Another member, with a number that is new or that of an entry. *)
Lemma same_snoc hist (q : request) (v : Z * Z) :
  (forall r w, (r, w) ∈ hist -> (w = v <-> same_file r q)) ->
  (forall i j q v r w, i <> j -> hist !! i = Some (q, v) -> hist !! j = Some (r, w) -> (v = w <-> same_file q r)) ->
  forall i j q1 v1 r w, i <> j -> (hist ++ [(q, v)]) !! i = Some (q1, v1) -> (hist ++ [(q, v)]) !! j = Some (r, w) ->
    (v1 = w <-> same_file q1 r).
Proof.
  intros Hnew Hold i j q1 v1 r w Hij Hi Hj.
  apply lookup_app_Some in Hi as [Hi|[Hi Hi']], Hj as [Hj|[Hj Hj']].
  - by apply (Hold i j).
  - apply list_lookup_singleton_Some in Hj' as [_ Heq]. simplify_eq.
    apply Hnew. by apply list_elem_of_lookup_2 in Hi.
  - apply list_lookup_singleton_Some in Hi' as [_ Heq]. simplify_eq.
    apply list_elem_of_lookup_2 in Hj. specialize (Hnew _ _ Hj).
    rewrite same_file_sym, <- Hnew. done.
  - apply list_lookup_singleton_Some in Hi' as [? _], Hj' as [? _]. lia.
Qed.

Lemma numbered_snoc p k xs hist q v p' k' xs' :
  numbered p k xs hist -> at_number p' k' -> k <= k' -> links (hllistM p') xs' ->
  proper_number v -> number v <= k' -> xs ⊆ xs' ->
  (forall en, en ∈ xs' -> en ∈ xs \/ 2 <= q.1.1 /\ q.1.2 = dev_ en /\ q.2 = ino_ en /\ v = (v_dev_ en, v_ino_ en)) ->
  (2 <= q.1.1 -> exists en, en ∈ xs' /\ is_file q.1.2 q.2 en) ->
  (forall r w, (r, w) ∈ hist -> (w = v <-> same_file r q)) ->
  numbered p' k' xs' (hist ++ [(q, v)]).
Proof.
  intros [Hat Hl Hg He Hk Hs] Hat' Hkk Hl' Hpv Hv Hsub Hen Hq Hnew. constructor; [done|done|..].
  - intros r w [H|H]%elem_of_app.
    + apply Hg in H as []. split; [done|lia].
    + apply list_elem_of_singleton in H. simplify_eq. by split.
  - intros en [Hin|Hin]%Hen.
    + destruct (He en Hin) as (r & w & H & ?). exists r, w. split; [|done]. apply elem_of_app. by left.
    + exists q, v. split; [|done]. apply elem_of_app. right. by apply list_elem_of_singleton.
  - intros r w [H|H]%elem_of_app Hr.
    + destruct (Hk r w H Hr) as (en & ? & ?). exists en. split; [by apply Hsub|done].
    + apply list_elem_of_singleton in H. simplify_eq. by apply Hq.
  - by apply same_snoc.
Qed.

Lemma fresh_number p k xs hist q v :
  numbered p k xs hist -> number v = k + 1 -> (2 <= q.1.1 -> links_of q.1.2 q.2 xs = []) ->
  forall r w, (r, w) ∈ hist -> (w = v <-> same_file r q).
Proof.
  intros [Hat Hl Hg He Hk Hs] Hv Hnone r w Hrw. split.
  - intros ->. apply Hg in Hrw. lia.
  - intros (Hr & Hq & Hd & Hi). destruct (Hk r w Hrw Hr) as (en & Hen & Hf).
    rewrite Hd, Hi in Hf. exfalso. apply (not_elem_of_nil en). rewrite <- (Hnone Hq).
    unfold links_of. by apply list_elem_of_filter.
Qed.

Lemma known_number p k xs hist q en :
  numbered p k xs hist -> 2 <= q.1.1 -> en ∈ links_of q.1.2 q.2 xs ->
  forall r w, (r, w) ∈ hist -> (w = (v_dev_ en, v_ino_ en) <-> same_file r q).
Proof.
  intros [Hat Hl Hg He Hk Hs] Hq Hen r w Hrw. apply list_elem_of_filter in Hen as [[Hi Hd] Hen].
  destruct (He en Hen) as (q0 & v & H0 & Hq0 & Hd0 & Hi0 & ->).
  apply list_elem_of_lookup in H0 as [i0 H0]. apply list_elem_of_lookup in Hrw as [i Hr].
  assert (Hsame : same_file r q0 <-> same_file r q).
  { unfold same_file. rewrite Hd0, Hi0, Hd, Hi. split; intros (? & ? & ? & ?); done. }
  destruct (decide (i = i0)) as [->|Hne].
  - simplify_eq. rewrite <- Hsame. split; [intros _; unfold same_file; split_and!; done|done].
  - rewrite <- Hsame. by apply (Hs i i0).
Qed.

Lemma make_next_inode_numbered p k xs hist nlinks dev ino :
  numbered p k xs hist -> k < MAX_NUMBER ->
  exists p' d i k' xs', porinode_make_next_inode p nlinks dev ino = Some (p', d, i) /\ k' <= k + 1
    /\ numbered p' k' xs' (hist ++ [((nlinks, dev, ino), (d, i))]).
Proof.
  intros Hn Hk. destruct (next_number p k (nb_at _ _ _ _ Hn) Hk) as (p' & d & i & Hnext & Hat & Hv & Hpv & Hll).
  pose proof (nb_links _ _ _ _ Hn) as Hl. unfold porinode_make_next_inode.
  destruct (nlinks <? 2) eqn:E; zbool.
  { exists p', d, i, (k + 1), xs. split; [done|]. split; [lia|].
    apply (numbered_snoc p k xs); rewrite ?Hll; try done; try lia; cbn; [by left|lia|].
    apply (fresh_number _ _ _ _ _ _ Hn); [done|cbn; lia]. }
  rewrite (hllist_find_links _ _ _ _ _ _ Hl). obind.
  destruct (links_of dev ino xs) as [|en es] eqn:Hes; unfold nth_link.
  - rewrite decide_False by (unfold zlen; cbn; lia). cbn [fst snd]. unfold zlen. cbn [length Z.of_nat Z.add Z.eqb].
    rewrite Hnext. obind. unfold porinode_add_vrecord. rewrite Hll.
    destruct (hllist_add_vrecord_links _ _ [] dev ino d i Hl) as (h' & -> & Hl'). obind.
    do 5 eexists. split; [done|]. split; [reflexivity|].
    eapply (numbered_snoc p k xs); [done|by destruct Hat|lia|done|done|lia|set_solver|..].
    + intros e [He|He]%elem_of_app; [by left|right]. apply list_elem_of_singleton in He as ->. cbn. split; [lia|done].
    + intros _. eexists. split; [apply elem_of_app; right; by apply list_elem_of_singleton|]. done.
    + apply (fresh_number _ _ _ _ _ _ Hn); done.
  - rewrite zlen_cons. pose proof (zlen_nonneg es). rewrite decide_True by lia. cbn [fst snd].
    cbn [Z.eqb Z.sub Z.to_nat Nat.pred lookup list_lookup].
    assert (Hen : en ∈ links_of dev ino xs) by (rewrite Hes; left).
    change ((en :: es) !! Z.to_nat (1 - 0 - 1)) with (Some en). obind.
    exists p, (v_dev_ en), (v_ino_ en), k, xs. split; [done|]. split; [lia|].
    assert (Hx : en ∈ xs) by (by apply list_elem_of_filter in Hen as []).
    destruct (nb_entry _ _ _ _ Hn en Hx) as (q0 & v0 & H0 & _ & _ & _ & ->).
    destruct (nb_given _ _ _ _ Hn _ _ H0) as [Hp0 Hk0].
    apply (numbered_snoc p k xs); try done; [apply Hn|by left|..].
    + intros _. exists en. split; [done|]. by apply list_elem_of_filter in Hen as [].
    + by apply (known_number _ _ _ _ _ _ Hn).
Qed.

Lemma make_inodes_numbered qs : forall p k xs hist,
  numbered p k xs hist -> k + zlen qs <= MAX_NUMBER ->
  exists p' vs k' xs', make_inodes p qs = Some (p', vs) /\ length vs = length qs
    /\ numbered p' k' xs' (hist ++ zip qs vs).
Proof.
  induction qs as [|[[nlinks dev] ino] qs IH]; intros p k xs hist Hn Hk.
  { exists p, [], k, xs. cbn. by rewrite app_nil_r. }
  rewrite zlen_cons in Hk. pose proof (zlen_nonneg qs).
  destruct (make_next_inode_numbered p k xs hist nlinks dev ino Hn) as (p1 & d & i & k1 & xs1 & H1 & Hk1 & Hn1); [lia|].
  destruct (IH p1 k1 xs1 _ Hn1) as (p2 & vs & k2 & xs2 & H2 & Hlen & Hn2); [lia|].
  exists p2, ((d, i) :: vs), k2, xs2. cbn [make_inodes]. rewrite H1. obind. rewrite H2. obind.
  split; [done|]. split; [by cbn; rewrite Hlen|].
  cbn [zip zip_with]. by rewrite cons_middle, app_assoc.
Qed.

Lemma porinode_open_numbered : exists p, porinode_open = Some p /\ numbered p 1 [] [].
Proof.
  unfold porinode_open. destruct hllist_open_links as (h & -> & Hl). obind. eexists. split; [done|].
  constructor; cbn; [|done|..].
  - constructor; cbn; [done| |done]. unfold proper_number, INODES, PORINODE_MAX. cbn. lia.
  - intros q v H. by apply not_elem_of_nil in H.
  - intros en H. by apply not_elem_of_nil in H.
  - intros q v H. by apply not_elem_of_nil in H.
  - intros i j q v r w _ H. by rewrite lookup_nil in H.
Qed.

(** C18: The virtual inodes of an archive identify its files.  For any members
    (links, device, inode) whose number is below 65534 * 65533, the calls of
    porinode_make_next_inode answer a device of at most 65534 and an inode of
    at most 65533 for each, none of them zero, and two members get the same
    pair exactly when both have more than one link and the same device and
    inode. *)
Theorem porinode_identifies_files (qs : list request) (Hqs : zlen qs < MAX_NUMBER) :
  exists p0 p vs, porinode_open = Some p0 /\ make_inodes p0 qs = Some (p, vs) /\ length vs = length qs
    /\ Forall proper_number vs
    /\ forall i j q v r w, i <> j -> qs !! i = Some q -> vs !! i = Some v -> qs !! j = Some r -> vs !! j = Some w ->
         (v = w <-> same_file q r).
Proof.
  destruct porinode_open_numbered as (p0 & H0 & Hn).
  destruct (make_inodes_numbered qs p0 1 [] [] Hn) as (p & vs & k & xs & H1 & Hlen & Hn'); [lia|].
  exists p0, p, vs. do 3 (split; [done|]). cbn [app] in Hn'. split.
  - apply Forall_lookup. intros i v Hv.
    destruct (lookup_lt_is_Some_2 qs i) as [q Hq]; [rewrite <- Hlen; by apply lookup_lt_Some in Hv|].
    eapply (nb_given _ _ _ _ Hn' q v). apply (list_elem_of_lookup_2 _ i).
    apply lookup_zip_with_Some. by eauto.
  - intros i j q v r w Hij Hq Hv Hr Hw.
    apply (nb_same _ _ _ _ Hn' i j); [done|..]; apply lookup_zip_with_Some; by eauto.
Qed.

(** ** Witnesses *)

Module Witness.
Definition members : list request := [(2, 8, 100); (1, 8, 101); (3, 8, 100); (2, 9, 100); (1, 8, 101)].

Lemma porinode_identifies_files_witness :
  (exists p0 p vs, porinode_open = Some p0 /\ make_inodes p0 members = Some (p, vs) /\ length vs = length members
    /\ Forall proper_number vs
    /\ forall i j q v r w, i <> j -> members !! i = Some q -> vs !! i = Some v -> members !! j = Some r ->
         vs !! j = Some w -> (v = w <-> same_file q r))
  /\ (p0 ← porinode_open; snd <$> make_inodes p0 members) = Some [(1, 2); (1, 3); (1, 2); (1, 4); (1, 5)].
Proof.
  split; [|by vm_compute].
  apply porinode_identifies_files. unfold zlen, MAX_NUMBER, INODES, PORINODE_MAX. cbn. lia.
Defined.
End Witness.
