(* ===== verification/Strar.v ===== *)
(** * STRAR, an array of strings (swsupplib/misc/strar.c)

    The strings live one after another in one STROB; a CPLOB holds their
    addresses.  [baseM] is the address of the STROB's block: reallocating the
    block may move it, and the list then holds stale addresses until
    strar_return_store has relocated them. *)

From S2P Require Import Prelude CString Strob Cplob.

Record STRAR := mkSTRAR {
  nsM : Z;
  lenM : Z;
  listM : CPLOB Z;
  storageM : STROB;
  baseM : Z;
}.

(** The address malloc gives, and the one realloc gives for a block at an old
    address: any pair of functions whose values are not NULL. *)
Class Heap := { first_base : Z; moved : Z -> Z -> Z }.

Class HeapOk (heap : Heap) : Prop := {
  first_base_pos : 0 < first_base;
  moved_pos b n : 0 < moved b n;
}.

Section Strar.
Context `{Malloc} {heap : Heap}.

(** The address after a request that goes through strob_reopen_if. *)
Definition base_after (strar : STRAR) (reqd : Z) : Z :=
  if to_int (to_size reqd) >? reserve_ (storageM strar)
  then moved (baseM strar) (reqd + extra_ (storageM strar)) else baseM strar.

Definition strar_open : option STRAR :=
  st ← strob_open 132;
  lob ← cplob_open 10;
  lob ← cplob_add_nta lob None;
  Some (mkSTRAR 0 0 lob st first_base).

Definition strar_reset (strar : STRAR) : option STRAR :=
  st ← strob_strcpy (storageM strar) [];
  lob ← cplob_shallow_reset (listM strar);
  Some (mkSTRAR 0 0 lob st (base_after strar 1)).

Definition strar_num_elements (strar : STRAR) : Z := nsM strar.

(** A pointer; [Some None] is NULL. *)
Definition strar_get (strar : STRAR) (index : Z) : option (option Z) :=
  if (index >=? nsM strar) || (index <? 0) then Some None
  else cplob_val (listM strar) index.

(** while ((p = cplob_val (listM, index))) *)
Fixpoint relocate (fuel : nat) (lob : CPLOB Z) (base oldbase index : Z) : option (CPLOB Z) :=
  match fuel with
  | O => None
  | S fuel =>
      p ← cplob_val lob index;
      match p with
      | None => Some lob
      | Some p => lob ← cplob_additem lob index (Some (base + to_int (p - oldbase)));
                  relocate fuel lob base oldbase (index + 1)
      end
  end.

(** The string a pointer into the storage points to. *)
Definition at_ptr (strar : STRAR) (p : Z) : option bytes :=
  str_at (str_ (storageM strar)) (p - baseM strar).

Definition set_storage (st : STROB) (strar : STRAR) : STRAR :=
  mkSTRAR (nsM strar) (lenM strar) (listM strar) st (baseM strar).

(** The address behind the string of the last pointer and its NUL. *)
Definition next_free (strar : STRAR) : option Z :=
  let nused := cplob_get_nused (listM strar) - 1 in
  last ← (if nused >? 0 then cplob_val (listM strar) (nused - 1) else Some None);
  match last with
  | Some last => s ← at_ptr strar last; Some (last + zlen s + 1)
  | None => Some (baseM strar)
  end.

Definition strar_return_store (strar : STRAR) (len : Z) : option (STRAR * Z) :=
  let lenM := lenM strar + len + 1 in
  let oldbase := baseM strar in
  let base := base_after strar lenM in
  st ← strob_set_memlength (storageM strar) lenM;
  lob ← (if negb (base =? oldbase)
         then relocate (S (S (Z.to_nat (nused (listM strar))))) (listM strar) base oldbase 0
         else Some (listM strar));
  let strar := mkSTRAR (nsM strar + 1) lenM lob st base in
  last ← next_free strar;
  lob ← cplob_add_nta lob (Some last);
  m ← memset (str_ st) (last - base) "_"%char len;
  m ← mem_write m (last - base + len) [NUL];
  Some (mkSTRAR (nsM strar) lenM lob (set_str m st) base, last).

Definition strar_add (strar : STRAR) (src : bytes) : option STRAR :=
  '(strar, last) ← strar_return_store strar (zlen src);
  m ← mem_write (str_ (storageM strar)) (last - baseM strar) (src ++ [NUL]);
  Some (set_storage (set_str m (storageM strar)) strar).

(** while ((s = strar_get (src, i++))) strar_add (ret, s); *)
Fixpoint copy_loop (fuel : nat) (src ret : STRAR) (i : Z) : option STRAR :=
  match fuel with
  | O => None
  | S fuel =>
      p ← strar_get src i;
      match p with
      | None => Some ret
      | Some p => s ← at_ptr src p; ret ← strar_add ret s; copy_loop fuel src ret (i + 1)
      end
  end.

Definition strar_copy_construct (src : STRAR) : option STRAR :=
  ret ← strar_open; copy_loop (S (Z.to_nat (nsM src))) src ret 0.

Definition strar_remove_index (strar : STRAR) (index : Z) : option STRAR :=
  '(lob, _) ← cplob_remove_index (listM strar) index;
  Some (mkSTRAR (nsM strar - 1) (lenM strar) lob (storageM strar) (baseM strar)).
End Strar.
