(* ===== verification/StrarSpec.v ===== *)
(** * Specification of STRAR

    [strar_rep sa xs]: the array holds the strings [xs].  The proofs use the
    list of addresses only through [rep] of CplobSpec and the storage only
    through the memory facts of StrobSpec. *)

From S2P Require Import Prelude CString Strob StrobSpec Cplob CplobSpec Strar.

(** The strings [xs] at the offsets [ps], in this order and disjoint, between
    the offsets [o] and [e]. *)
Fixpoint placed (m : bytes) (o : Z) (xs : list bytes) (ps : list Z) (e : Z) : Prop :=
  match xs, ps with
  | [], [] => o <= e
  | x :: xs, p :: ps => o <= p /\ holds m (Z.to_nat p) x /\ placed m (p + zlen x + 1) xs ps e
  | _, _ => False
  end.

(** The offset behind the last string. *)
Fixpoint next_off (o : Z) (xs : list bytes) (ps : list Z) : Z :=
  match xs, ps with x :: xs, p :: ps => next_off (p + zlen x + 1) xs ps | _, _ => o end.

Record strar_rep (sa : STRAR) (xs : list bytes) : Prop := {
  rep_wf : wf (storageM sa);
  rep_num : nsM sa = zlen xs;
  rep_base : 0 < baseM sa;
  rep_len : length_ (storageM sa) = lenM sa;
  rep_room : lenM sa <= reserve_ (storageM sa);
  rep_strings : exists ps, placed (str_ (storageM sa)) 0 xs ps (lenM sa)
                  /\ rep (listM sa) (Z.add (baseM sa) <$> ps);
}.

Lemma placed_next m xs : forall o ps e, placed m o xs ps e ->
  o <= next_off o xs ps <= e /\ length ps = length xs.
Proof.
  induction xs as [|x xs IH]; intros o [|p ps] e; cbn; try done.
  intros (Hp & _ & H). destruct (IH _ _ _ H) as [? ->]. pose proof (zlen_nonneg x). lia.
Qed.

Lemma placed_snoc m m' x e' xs : forall o ps e, 0 <= o -> placed m o xs ps e ->
  (forall i, Z.of_nat i < next_off o xs ps -> m' !! i = m !! i) ->
  holds m' (Z.to_nat (next_off o xs ps)) x -> next_off o xs ps + zlen x + 1 <= e' ->
  placed m' o (xs ++ [x]) (ps ++ [next_off o xs ps]) e'.
Proof.
  induction xs as [|y xs IH]; intros o [|p ps] e Ho; cbn [placed next_off app]; try done.
  intros (Hp & Hy & H) Hm Hx He. pose proof (zlen_nonneg y).
  destruct (placed_next _ _ _ _ _ H) as [Hn _]. split; [done|]. split.
  - eapply holds_frame; [|exact Hy]. intros i Hi. apply Hm. unfold zlen in *. lia.
  - eapply IH; eauto. lia.
Qed.

Lemma placed_frame m m' xs : forall o ps e, 0 <= o -> placed m o xs ps e ->
  (forall i, Z.of_nat i < e -> m' !! i = m !! i) -> placed m' o xs ps e.
Proof.
  induction xs as [|y xs IH]; intros o [|p ps] e Ho; cbn [placed]; try done.
  intros (Hp & Hy & H) Hm. pose proof (zlen_nonneg y).
  destruct (placed_next _ _ _ _ _ H) as [Hn _]. split; [done|]. split; [|apply IH; auto; lia].
  eapply holds_frame; [|exact Hy]. intros i Hi. apply Hm. unfold zlen in *. lia.
Qed.

Lemma placed_weaken m xs : forall o o' ps e, o' <= o -> placed m o xs ps e -> placed m o' xs ps e.
Proof.
  destruct xs; intros o o' [|p ps] e Ho; cbn; intuition lia.
Qed.

Lemma placed_delete m xs : forall o ps e i, placed m o xs ps e ->
  placed m o (delete i xs) (delete i ps) e.
Proof.
  induction xs as [|x xs IH]; intros o [|p ps] e i; try done. intros (Hp & Hx & H).
  destruct i as [|i]; cbn [delete list_delete].
  - eapply placed_weaken; [|exact H]. pose proof (zlen_nonneg x). lia.
  - cbn [placed]. split; [done|]. split; [done|]. by apply IH.
Qed.

Lemma placed_lookup m xs : forall o ps e i x, 0 <= o -> placed m o xs ps e -> xs !! i = Some x ->
  exists p, ps !! i = Some p /\ 0 <= p /\ holds m (Z.to_nat p) x.
Proof.
  induction xs as [|y xs IH]; intros o [|p ps] e i x Ho; try done. intros (Hp & Hx & H).
  destruct i as [|i]; cbn.
  - intros [= <-]. exists p. split; [done|]. split; [lia|done].
  - intros Hi. pose proof (zlen_nonneg y). eapply (IH (p + zlen y + 1)); [lia|exact H|exact Hi].
Qed.

Lemma placed_last m o xs ps e x :
  placed m o (xs ++ [x]) ps e ->
  exists p, ps !! length xs = Some p /\ holds m (Z.to_nat p) x /\ o <= p
    /\ next_off o (xs ++ [x]) ps = p + zlen x + 1.
Proof.
  revert o ps. induction xs as [|y xs IH]; intros o [|p ps]; cbn [app placed next_off]; try done.
  - intros (Hp & Hx & H). exists p. destruct ps; done.
  - intros (Hp & Hx & H). destruct (IH _ _ H) as (q & ? & ? & ? & ?). pose proof (zlen_nonneg y).
    exists q. repeat (split; [done|]). split; [lia|done].
Qed.

(** ** Relocation of the addresses *)

Lemma cplob_additem_nta (lob : CPLOB Z) qs i v :
  nta lob qs -> (i < length qs)%nat ->
  exists lob', cplob_additem lob (Z.of_nat i) (Some v) = Some lob' /\ nta lob' (<[i:=v]> qs).
Proof.
  intros [W Hu Hr Hx Hnull] Hi.
  destruct (cplob_additem_spec lob (Z.of_nat i) (Some v) W) as
    (l & -> & W' & Hu' & Hn & _ & Hv & _ & Hl); [lia|].
  exists l. split; [done|]. rewrite Nat2Z.id in Hv. unfold zlen in *.
  constructor; [done|unfold zlen; rewrite length_insert; lia|lia| |].
  - intros j Hj. rewrite length_insert in Hj. destruct (decide (j = i)) as [->|Hne].
    + rewrite Hv, list_lookup_insert_eq by done. done.
    + rewrite list_lookup_insert_ne by done. rewrite Hl by lia. by apply Hx.
  - rewrite length_insert, Hl by lia. done.
Qed.

Lemma relocate_spec base oldbase ps : forall ws lob fuel,
  nta lob (ws ++ (Z.add oldbase <$> ps)) -> Forall (fun p => 0 <= p < INT_MAX) ps ->
  (length ps < fuel)%nat ->
  exists lob', relocate fuel lob base oldbase (zlen ws) = Some lob'
    /\ nta lob' (ws ++ (Z.add base <$> ps)).
Proof.
  induction ps as [|p ps IH]; intros ws lob fuel HN HF Hf; (destruct fuel as [|fuel]; [lia|]);
    cbn [relocate fmap list_fmap] in *.
  - destruct (cplob_val_nta _ _ (zlen ws) HN) as (v & -> & Hv & _). obind.
    pose proof (zlen_nonneg ws). rewrite Hv by (rewrite app_nil_r; lia).
    rewrite lookup_ge_None_2 by (rewrite app_nil_r; unfold zlen; lia). by exists lob.
  - destruct (cplob_val_nta _ _ (zlen ws) HN) as (v & -> & Hv & _). obind.
    pose proof (zlen_nonneg ws). pose proof (zlen_nonneg (Z.add oldbase <$> ps)).
    rewrite Hv by (rewrite zlen_app, zlen_cons; lia). unfold zlen at 1. rewrite Nat2Z.id.
    rewrite list_lookup_middle by done. apply Forall_cons in HF as [Hp HF].
    destruct (cplob_additem_nta _ _ (length ws) (base + to_int (oldbase + p - oldbase)) HN)
      as (lob1 & E & HN1); [rewrite length_app; cbn; lia|].
    fold (zlen ws) in E. rewrite E. obind.
    rewrite insert_app_r_alt, Nat.sub_diag in HN1 by lia. cbn [insert list_insert] in HN1.
    replace (oldbase + p - oldbase) with p in HN1 by lia. rewrite to_int_id in HN1 by lia.
    rewrite cons_middle, app_assoc in HN1.
    destruct (IH _ lob1 fuel HN1 HF) as (lob' & E' & HN'); [cbn in Hf; lia|].
    rewrite zlen_snoc in E'. exists lob'. rewrite <- app_assoc in HN'. by split.
Qed.

Lemma placed_bound m xs : forall o ps e, 0 <= o -> placed m o xs ps e ->
  Forall (fun p => 0 <= p < e) ps.
Proof.
  induction xs as [|x xs IH]; intros o [|p ps] e Ho; try done. intros (Hp & Hx & H).
  pose proof (zlen_nonneg x). pose proof (placed_next _ _ _ _ _ H) as [? _].
  constructor; [lia|]. eapply Forall_impl; [eapply (IH _ _ _ _ H)|done].
  Unshelve. lia.
Qed.

Lemma relocate_rep base oldbase lob m xs ps e :
  e <= INT_MAX -> placed m 0 xs ps e -> rep lob (Z.add oldbase <$> ps) ->
  exists lob', (if negb (base =? oldbase)
                then relocate (S (S (Z.to_nat (nused lob)))) lob base oldbase 0
                else Some lob) = Some lob' /\ rep lob' (Z.add base <$> ps).
Proof.
  intros He HP HR. destruct (base =? oldbase) eqn:E; zbool; cbn [negb].
  { subst. by exists lob. }
  destruct HR as [HN|[HF Eps]].
  - destruct (relocate_spec base oldbase ps [] lob (S (S (Z.to_nat (nused lob)))))
      as (lob' & E' & HN'); [done| | |exists lob'; split; [exact E'|by left]].
    + eapply Forall_impl; [by eapply placed_bound|]. cbn. lia.
    + rewrite (nta_used _ _ HN). unfold zlen. rewrite length_fmap. lia.
  - exists lob. destruct ps; [|done]. split; [|by right].
    cbn [relocate]. rewrite (cplob_val_rep lob [] 0) by (try (by right); done). done.
Qed.

(** ** The operations *)

Section StrarFacts.
Context `{Malloc} {heap : Heap} `{!HeapOk heap}.
Implicit Types (sa : STRAR) (xs : list bytes).

Lemma strar_open_spec : exists sa, strar_open = Some sa /\ strar_rep sa [] /\ lenM sa = 0.
Proof.
  unfold strar_open. destruct (strob_open_spec 132) as (st & -> & T & Hl); [unfold SMALL; lia|].
  obind. destruct (cplob_open_spec (A := Z) 10) as (lob & -> & HF). obind.
  destruct (cplob_add_nta_fresh lob None HF) as (lob' & -> & HN). obind.
  eexists. split; [done|]. split; [|done].
  constructor; cbn; [apply T|done|apply first_base_pos|done| |].
  - pose proof (wf_reserve _ (text_wf _ _ T)). lia.
  - exists []. split; [cbn; lia|by left].
Qed.

Lemma base_after_pos sa n : 0 < baseM sa -> 0 < base_after sa n.
Proof. intros. unfold base_after. case_match; [apply moved_pos|done]. Qed.

Lemma strar_reset_spec sa xs :
  strar_rep sa xs ->
  exists sa', strar_reset sa = Some sa' /\ strar_rep sa' [] /\ lenM sa' = 0.
Proof.
  intros [W Hn Hb Hl Hr Hs]. unfold strar_reset.
  destruct (strob_strcpy_spec (storageM sa) [] W) as (st & -> & T & _ & Hlen);
    [apply no_nul_nil|reflexivity|]. obind.
  destruct Hs as (ps & _ & HR). destruct (rep_sized _ _ HR) as [HS Hsz].
  destruct (cplob_shallow_reset_spec _ HS Hsz) as (lob & -> & HF). obind.
  eexists. split; [done|]. split; [|done].
  constructor; cbn; [apply T|done|by apply base_after_pos| | |].
  - done.
  - pose proof (wf_reserve _ (text_wf _ _ T)). lia.
  - exists []. split; [cbn; lia|]. right. by split.
Qed.

Lemma at_ptr_holds sa p x :
  0 <= p -> holds (str_ (storageM sa)) (Z.to_nat p) x -> at_ptr sa (baseM sa + p) = Some x.
Proof.
  intros Hp Hx. unfold at_ptr. replace (baseM sa + p - baseM sa) with p by lia.
  rewrite <- (Z2Nat.id p) by done. by apply str_at_nat.
Qed.

(** The pointer strar_get returns, read as a string. *)
Definition get_text sa (i : Z) : option (option bytes) :=
  p ← strar_get sa i;
  match p with None => Some None | Some p => s ← at_ptr sa p; Some (Some s) end.

Lemma strar_get_spec sa xs i :
  strar_rep sa xs ->
  get_text sa i = Some (if i <? 0 then None else xs !! Z.to_nat i)
  /\ strar_get sa i <> None /\ (strar_get sa i = Some None <-> i < 0 \/ zlen xs <= i).
Proof.
  intros [W Hn Hb Hl Hr (ps & HP & HR)]. unfold get_text, strar_get. rewrite Hn.
  destruct (placed_next _ _ _ _ _ HP) as [_ Hps].
  destruct (i >=? zlen xs) eqn:E1; zbool; cbn [orb].
  { split; [|split; [done|split; [lia|done]]]. obind. destruct (i <? 0); [done|].
    rewrite lookup_ge_None_2; [done|]. unfold zlen in *. lia. }
  destruct (i <? 0) eqn:E2; zbool; [split; [done|split; [done|split; [lia|done]]]|].
  rewrite (cplob_val_rep _ _ _ HR) by (unfold zlen in *; rewrite length_fmap; lia).
  rewrite list_lookup_fmap. ztest.
  destruct (lookup_lt_is_Some_2 xs (Z.to_nat i)) as [x Hx]; [unfold zlen in *; lia|].
  destruct (placed_lookup _ _ _ _ _ _ _ (Z.le_refl 0) HP Hx) as (p & Hp & Hp0 & Hh).
  rewrite Hp, Hx. obind. rewrite at_ptr_holds with (x := x) by done. obind.
  split; [done|]. split; [done|]. split; [done|lia].
Qed.

Lemma next_free_spec sa xs ps :
  0 < baseM sa -> rep (listM sa) (Z.add (baseM sa) <$> ps) ->
  placed (str_ (storageM sa)) 0 xs ps (next_off 0 xs ps) ->
  next_free sa = Some (baseM sa + next_off 0 xs ps).
Proof.
  intros Hb HR HP. destruct (placed_next _ _ _ _ _ HP) as [_ Hps]. unfold next_free, cplob_get_nused.
  assert (Hu : nused (listM sa) - 1 = zlen ps \/ (nused (listM sa) - 1 = -1 /\ ps = [])).
  { destruct HR as [HN|[HF E]]; [left; rewrite (nta_used _ _ HN); unfold zlen; rewrite length_fmap; lia|].
    right. rewrite (fresh_used _ HF). split; [done|]. by destruct ps. }
  destruct xs as [|x xs _] using rev_ind.
  - destruct ps; [|done]. assert ((nused (listM sa) - 1 >? 0) = false) as ->
      by (destruct Hu as [->|[-> _]]; done). obind. f_equal. cbn. lia.
  - rewrite length_app in Hps. cbn in Hps.
    destruct (placed_last _ _ _ _ _ _ HP) as (p & Hp & Hh & Hp0 & Hnext).
    destruct Hu as [Hu|[_ ->]]; [|done]. rewrite Hu. unfold zlen. rewrite Hps.
    assert ((Z.of_nat (length xs + 1) >? 0) = true) as -> by (apply Z.gtb_lt; lia).
    rewrite (cplob_val_rep _ _ _ HR) by (unfold zlen; rewrite length_fmap; lia). ztest.
    rewrite list_lookup_fmap. replace (Z.to_nat _) with (length xs) by lia. rewrite Hp. obind.
    rewrite at_ptr_holds with (x := x) by done. obind. rewrite Hnext. f_equal. unfold zlen. lia.
Qed.

Lemma placed_tight m xs : forall o ps e, placed m o xs ps e -> placed m o xs ps (next_off o xs ps).
Proof.
  induction xs as [|x xs IH]; intros o [|p ps] e; cbn [placed next_off]; try done.
  intros (? & ? & ?). split; [done|]. split; [done|]. by eapply IH.
Qed.

Lemma no_nul_replicate n c : c <> NUL -> no_nul (replicate n c).
Proof. intros Hc Hin. apply elem_of_replicate in Hin as [? _]. congruence. Qed.

(** Storing [bs] and a NUL at an offset inside the block. *)
Lemma store_text st q bs :
  wf st -> no_nul bs -> 0 <= q -> q + zlen bs + 1 <= reserve_ st ->
  exists m, mem_write (str_ st) q (bs ++ [NUL]) = Some m /\ wf (set_str m st)
    /\ holds m (Z.to_nat q) bs /\ forall i, Z.of_nat i < q -> m !! i = str_ st !! i.
Proof.
  intros W Hbs Hq Hr. destruct (mem_write_exists (str_ st) q (bs ++ [NUL])) as [m Hm];
    [done|rewrite (wf_size _ W), zlen_snoc; lia|].
  exists m. split; [done|]. split; [eapply wf_set_str; eauto using last_snoc_nul|].
  split; [by eapply holds_write|]. intros i Hi.
  rewrite (mem_write_lookup _ _ _ _ i Hm). by rewrite decide_False by lia.
Qed.

(** memset, then the NUL behind it. *)
Lemma store_blank st q c len :
  wf st -> c <> NUL -> 0 <= q -> 0 <= len -> q + len + 1 <= reserve_ st ->
  exists m1 m, memset (str_ st) q c len = Some m1 /\ mem_write m1 (q + len) [NUL] = Some m
    /\ wf (set_str m st) /\ holds m (Z.to_nat q) (replicate (Z.to_nat len) c)
    /\ forall i, Z.of_nat i < q -> m !! i = str_ st !! i.
Proof.
  intros W Hc Hq Hl Hr. unfold memset. ztest.
  destruct (mem_write_exists (str_ st) q (replicate (Z.to_nat len) c)) as [m1 Hm1];
    [done|rewrite (wf_size _ W), zlen_replicate; lia|].
  assert (W1 : wf (set_str m1 st))
    by (eapply wf_set_str; eauto; left; rewrite zlen_replicate; lia).
  destruct (mem_write_exists m1 (q + len) [NUL]) as [m Hm];
    [lia|change (zlen m1) with (zlen (str_ (set_str m1 st))); rewrite (wf_size _ W1), zlen_cons, zlen_nil; cbn; lia|].
  exists m1, m. split; [done|]. split; [done|].
  split; [exact (wf_set_str (set_str m1 st) _ _ _ W1 Hm (or_intror eq_refl))|].
  pose proof (fun i => mem_write_lookup _ _ _ _ i Hm1) as L1. rewrite zlen_replicate in L1.
  pose proof (fun i => mem_write_lookup _ _ _ _ i Hm) as L. rewrite zlen_cons, zlen_nil in L.
  split; [split; [by apply no_nul_replicate|]; rewrite length_replicate; split|].
  - intros i Hi. rewrite L, decide_False, L1, decide_True by lia. f_equal. lia.
  - rewrite L, decide_True by lia. by replace (_ - _)%nat with O by lia.
  - intros i Hi. by rewrite L, decide_False, L1, decide_False by lia.
Qed.

Lemma strar_return_store_spec sa xs len :
  strar_rep sa xs -> 0 <= len -> lenM sa + len + 1 <= SMALL ->
  exists sa' last, strar_return_store sa len = Some (sa', last)
    /\ strar_rep sa' (xs ++ [replicate (Z.to_nat len) "_"%char])
    /\ lenM sa' = lenM sa + len + 1
    /\ forall s, no_nul s -> zlen s <= len ->
         exists m, mem_write (str_ (storageM sa')) (last - baseM sa') (s ++ [NUL]) = Some m
           /\ strar_rep (set_storage (set_str m (storageM sa')) sa') (xs ++ [s]).
Proof.
  intros [W Hn Hb Hlen Hr (ps & HP & HR)] Hl Hs. unfold strar_return_store. cbn zeta.
  destruct (placed_next _ _ _ _ _ HP) as [Hnext Hps].
  set (n := lenM sa + len + 1) in *. set (base := base_after sa n). set (q := next_off 0 xs ps) in *.
  destruct (strob_set_memlength_spec (storageM sa) n W) as (st & -> & W1 & Hl1 & Hr1 & _ & Hlo & _); [lia|].
  obind. assert (Hb' : 0 < base) by by apply base_after_pos.
  assert (exists lob, (if negb (base =? baseM sa)
         then relocate (S (S (Z.to_nat (nused (listM sa))))) (listM sa) base (baseM sa) 0
         else Some (listM sa)) = Some lob /\ rep lob (Z.add base <$> ps)) as (lob & -> & HR1).
  { by apply relocate_rep with (m := str_ (storageM sa)) (xs := xs) (e := lenM sa); [unfold SMALL, INT_MAX in *; lia|..]. }
  obind. assert (HP1 : placed (str_ st) 0 xs ps (lenM sa)).
  { eapply placed_frame; [done|exact HP|]. intros i Hi. apply Hlo; lia. }
  rewrite (next_free_spec _ xs ps) by eauto using placed_tight. obind.
  cbn [storageM baseM nsM lenM listM]. fold q.
  destruct (cplob_add_nta_rep _ _ (base + q) HR1) as (lob2 & -> & HR2). obind.
  replace (base + q - base) with q by lia.
  destruct (store_blank st q "_"%char len W1) as (m1 & m & -> & E & W2 & Hm & Hframe); [done|lia..|].
  obind. rewrite E. obind. eexists _, _. split; [done|].
  assert (Hgen : forall s m2, wf (set_str m2 st) -> zlen s <= len -> holds m2 (Z.to_nat q) s ->
    (forall i, Z.of_nat i < q -> m2 !! i = str_ st !! i) ->
    strar_rep (mkSTRAR (nsM sa + 1) n lob2 (set_str m2 st) base) (xs ++ [s])).
  { intros s m2 W3 Hsl Hh Hf. constructor; cbn; [done|rewrite zlen_snoc; lia|done|done|lia|].
    exists (ps ++ [q]). rewrite fmap_app. split; [|exact HR2].
    eapply placed_snoc; eauto; fold q; lia. }
  split; [apply Hgen; auto; rewrite zlen_replicate; lia|]. split; [done|].
  intros s Hs0 Hsl. cbn [storageM baseM]. replace (base + q - base) with q by lia.
  destruct (store_text (set_str m st) q s W2 Hs0) as (m2 & E2 & W3 & Hh & Hf); [lia|cbn; lia|].
  exists m2. split; [exact E2|]. apply Hgen; auto. intros i Hi. rewrite Hf by done. by apply Hframe.
Qed.

Lemma strar_add_spec sa xs x :
  strar_rep sa xs -> no_nul x -> lenM sa + zlen x + 1 <= SMALL ->
  exists sa', strar_add sa x = Some sa' /\ strar_rep sa' (xs ++ [x])
    /\ lenM sa' = lenM sa + zlen x + 1.
Proof.
  intros HR Hx Hs. unfold strar_add. pose proof (zlen_nonneg x).
  destruct (strar_return_store_spec sa xs (zlen x) HR) as (sa' & last & -> & _ & Hl & Hw); [done|done|].
  obind. destruct (Hw x Hx) as (m & -> & HR'); [done|]. obind. eexists. split; [done|]. by split.
Qed.

Lemma strar_remove_index_spec sa xs i :
  strar_rep sa xs -> 0 <= i < zlen xs ->
  exists sa', strar_remove_index sa i = Some sa' /\ strar_rep sa' (delete (Z.to_nat i) xs)
    /\ lenM sa' = lenM sa.
Proof.
  intros [W Hn Hb Hl Hr (ps & HP & HR)] Hi. unfold strar_remove_index.
  destruct (placed_next _ _ _ _ _ HP) as [_ Hps].
  assert (Hz : zlen (Z.add (baseM sa) <$> ps) = zlen xs)
    by (unfold zlen; rewrite length_fmap; lia).
  destruct (cplob_remove_index_rep _ _ i HR) as (lob & -> & HR'); [lia|]. rewrite Hz in HR'.
  rewrite decide_True in HR' by lia. obind. eexists. split; [done|]. split; [|done].
  constructor; cbn; [done| |done|done|done|].
  - rewrite Hn. unfold zlen in *. rewrite length_delete by (apply lookup_lt_is_Some_2; lia). lia.
  - exists (delete (Z.to_nat i) ps). split; [by apply placed_delete|]. by rewrite list_fmap_delete.
Qed.

(** ** Sequences of calls *)

Inductive strar_op :=
| SAdd (s : bytes)
| SGet (i : Z)
| SNum
| SRemove (i : Z)
| SReset.

Inductive strar_result := Done | Text (t : option bytes) | Num (n : Z).

Definition strar_step sa (o : strar_op) : option (STRAR * strar_result) :=
  match o with
  | SAdd s => sa ← strar_add sa s; Some (sa, Done)
  | SGet i => t ← get_text sa i; Some (sa, Text t)
  | SNum => Some (sa, Num (strar_num_elements sa))
  | SRemove i => sa ← strar_remove_index sa i; Some (sa, Done)
  | SReset => sa ← strar_reset sa; Some (sa, Done)
  end.

Fixpoint strar_run sa (ops : list strar_op) : option (STRAR * list strar_result) :=
  match ops with
  | [] => Some (sa, [])
  | o :: ops => '(sa, r) ← strar_step sa o; '(sa, rs) ← strar_run sa ops; Some (sa, r :: rs)
  end.

(** The same calls on a list of strings; [room] is what is left of the largest
    storage a STROB serves.  Only a string that is there may be removed. *)
Definition strings_step xs (room : Z) (o : strar_op) : option (list bytes * Z * strar_result) :=
  match o with
  | SAdd s => if terminated s || (room <? zlen s + 1) then None
              else Some (xs ++ [s], room - (zlen s + 1), Done)
  | SGet i => Some (xs, room, Text (if i <? 0 then None else xs !! Z.to_nat i))
  | SNum => Some (xs, room, Num (zlen xs))
  | SRemove i => if (i <? 0) || (zlen xs <=? i) then None
                 else Some (delete (Z.to_nat i) xs, room, Done)
  | SReset => Some ([], SMALL, Done)
  end.

Fixpoint strings_run xs (room : Z) (ops : list strar_op) : option (list bytes * list strar_result) :=
  match ops with
  | [] => Some (xs, [])
  | o :: ops => '(xs, room, r) ← strings_step xs room o;
                '(xs, rs) ← strings_run xs room ops; Some (xs, r :: rs)
  end.

Lemma strar_step_rep sa xs o xs' room' r :
  strar_rep sa xs -> strings_step xs (SMALL - lenM sa) o = Some (xs', room', r) ->
  exists sa', strar_step sa o = Some (sa', r) /\ strar_rep sa' xs' /\ room' = SMALL - lenM sa'.
Proof.
  intros HR. destruct o; cbn [strings_step strar_step].
  - destruct (terminated s || _) eqn:E; [done|]. zbool. intros [= <- <- <-].
    destruct (strar_add_spec sa xs s HR) as (sa' & -> & HR' & Hl);
      [by apply no_nul_compute|lia|]. exists sa'. split; [done|]. split; [done|lia].
  - intros [= <- <- <-]. destruct (strar_get_spec sa xs i HR) as [-> _]. by exists sa.
  - intros [= <- <- <-]. exists sa. split; [|done]. unfold strar_num_elements.
    by rewrite (rep_num _ _ HR).
  - destruct ((i <? 0) || (zlen xs <=? i)) eqn:E; [done|]. zbool. intros [= <- <- <-].
    destruct (strar_remove_index_spec sa xs i HR) as (sa' & -> & HR' & Hl); [lia|].
    exists sa'. split; [done|]. split; [done|lia].
  - intros [= <- <- <-]. destruct (strar_reset_spec sa xs HR) as (sa' & -> & HR' & Hl).
    exists sa'. split; [done|]. split; [done|lia].
Qed.

Lemma strar_run_rep ops : forall sa xs xs' rs,
  strar_rep sa xs -> strings_run xs (SMALL - lenM sa) ops = Some (xs', rs) ->
  exists sa', strar_run sa ops = Some (sa', rs) /\ strar_rep sa' xs'.
Proof.
  induction ops as [|o ops IH]; intros sa xs xs' rs HR; cbn [strings_run strar_run].
  - intros [= <- <-]. by exists sa.
  - destruct (strings_step xs _ o) as [[[xs1 room1] r1]|] eqn:E; [|done]. obind.
    destruct (strar_step_rep _ _ _ _ _ _ HR E) as (sa1 & -> & HR1 & ->). obind.
    destruct (strings_run xs1 _ ops) as [[xs2 rs2]|] eqn:E2; [|done]. obind. intros [= <- <-].
    destruct (IH _ _ _ _ HR1 E2) as (sa2 & -> & HR2). by exists sa2.
Qed.

(** What copying a list of strings needs. *)
Definition storage_size xs : Z := foldr (fun x n => zlen x + 1 + n) 0 xs.

Lemma storage_size_drop xs i x :
  xs !! i = Some x -> storage_size (drop i xs) = zlen x + 1 + storage_size (drop (S i) xs).
Proof. intros Hx. by rewrite (drop_S _ _ _ Hx). Qed.

Lemma storage_size_nonneg xs : 0 <= storage_size xs.
Proof. unfold storage_size. induction xs as [|x xs IH]; cbn [foldr]; [done|]. pose proof (zlen_nonneg x). lia. Qed.

Lemma strar_rep_no_nul sa xs i x : strar_rep sa xs -> xs !! i = Some x -> no_nul x.
Proof.
  intros [_ _ _ _ _ (ps & HP & _)] Hx.
  destruct (placed_lookup _ _ _ _ _ _ _ (Z.le_refl 0) HP Hx) as (p & _ & _ & Hh). apply Hh.
Qed.

Lemma copy_loop_spec src xs : strar_rep src xs -> forall fuel ret i,
  strar_rep ret (take i xs) -> (length xs < i + fuel)%nat -> (i <= length xs)%nat ->
  lenM ret + storage_size (drop i xs) <= SMALL ->
  exists ret', copy_loop fuel src ret (Z.of_nat i) = Some ret' /\ strar_rep ret' xs.
Proof.
  intros HS. induction fuel as [|fuel IH]; intros ret i HR Hf Hi Hsz; [lia|]. cbn [copy_loop].
  destruct (strar_get_spec src xs (Z.of_nat i) HS) as (Hg & Hne & Hnull).
  unfold get_text in Hg. destruct (strar_get src (Z.of_nat i)) as [[p|]|]; [| |congruence].
  - obind. cbn [mbind option_bind] in Hg. destruct (at_ptr src p) as [x|]; [|done]. cbn [mbind option_bind] in Hg.
    assert ((Z.of_nat i <? 0) = false) as Hlt by (apply Z.ltb_ge; lia).
    rewrite Hlt, Nat2Z.id in Hg. injection Hg as Hx. symmetry in Hx. obind.
    rewrite (storage_size_drop _ _ _ Hx) in Hsz. pose proof (storage_size_nonneg (drop (S i) xs)).
    destruct (strar_add_spec ret _ x HR) as (ret1 & -> & HR1 & Hl1);
      [exact (strar_rep_no_nul _ _ _ _ HS Hx)|lia|]. obind.
    replace (Z.of_nat i + 1) with (Z.of_nat (S i)) by lia. rewrite <- (take_S_r _ _ _ Hx) in HR1.
    apply IH; [done|lia|apply lookup_lt_Some in Hx; lia|lia].
  - assert (length xs <= i)%nat by (pose proof (proj1 Hnull eq_refl); unfold zlen in *; lia).
    exists ret. split; [done|]. by rewrite take_ge in HR by lia.
Qed.
End StrarFacts.

(** ** Theorems *)

Section StrarTheorems.
Context `{Malloc} {heap : Heap} `{!HeapOk heap}.

(** C38: A permitted sequence of calls on a STRAR that strar_open returned (add a
    string, read one through the pointer strar_get gives, count, remove one,
    reset) answers as the same sequence on a list of strings does, wherever
    realloc moves the storage meanwhile. Not permitted are the removal of an index
    that is out of range (strar_remove_index_out_of_range) and strings with a NUL
    or for which the storage would pass 2^30 bytes. *)
Theorem strar_list_refinement (ops : list strar_op) (xs : list bytes) rs :
  strings_run [] SMALL ops = Some (xs, rs) ->
  exists sa sa', strar_open = Some sa /\ strar_run sa ops = Some (sa', rs) /\ strar_rep sa' xs.
Proof.
  intros E. pose proof strar_open_spec as (sa & E0 & HR & Hl).
  destruct (strar_run_rep ops sa [] xs rs HR) as (sa' & E1 & HR'); [by replace (SMALL - lenM sa) with SMALL by lia|].
  by exists sa, sa'.
Qed.

(** strar_copy_construct terminates and builds an array of its own that
    holds the same strings. *)
Theorem strar_copy_construct_same (src : STRAR) (xs : list bytes) :
  strar_rep src xs -> storage_size xs <= SMALL ->
  exists ret, strar_copy_construct src = Some ret /\ strar_rep ret xs.
Proof.
  intros HS Hsz. unfold strar_copy_construct. pose proof strar_open_spec as (sa & -> & HR & Hl). obind.
  apply (copy_loop_spec src xs HS _ sa 0 HR); [|lia|by rewrite Hl].
  rewrite (rep_num _ _ HS). unfold zlen. lia.
Qed.

(** strar_remove_index counts down even when the index is out of range: no
    pointer is removed, but the last string is no longer reachable. *)
Theorem strar_remove_index_out_of_range (sa : STRAR) (xs : list bytes) (x : bytes) i :
  strar_rep sa (xs ++ [x]) -> i < 0 \/ zlen xs + 1 < i ->
  exists sa', strar_remove_index sa i = Some sa' /\ listM sa' = listM sa
    /\ get_text sa (zlen xs) = Some (Some x) /\ get_text sa' (zlen xs) = Some None.
Proof.
  intros HR Hi. pose proof (zlen_nonneg xs).
  destruct (strar_get_spec sa _ (zlen xs) HR) as (Hg & _ & _).
  pose proof HR as [W Hn Hb Hl Hr (ps & HP & HL)]. destruct (placed_next _ _ _ _ _ HP) as [_ Hps].
  assert (Hz : zlen (Z.add (baseM sa) <$> ps) = zlen xs + 1)
    by (rewrite length_app in Hps; cbn in Hps; unfold zlen; rewrite length_fmap; lia).
  unfold strar_remove_index.
  destruct (cplob_remove_index_rep _ _ i HL) as (lob & E & _); [lia|]. rewrite Hz in E.
  rewrite decide_False in E by lia. rewrite E. obind. rewrite zlen_snoc in Hn.
  assert (lob = listM sa) as ->.
  { revert E. unfold cplob_remove_index. destruct ((i <? 0) || _); [by intros [= <-]|].
    destruct (_ || _); [done|]. by destruct (arr_shift _ _ _). }
  eexists. split; [done|]. split; [done|]. split.
  - rewrite Hg. ztest. unfold zlen. rewrite Nat2Z.id, list_lookup_middle by done. done.
  - unfold get_text, strar_get. cbn [nsM]. by ztest.
Qed.
End StrarTheorems.

Module Witness.
#[local] Instance zeros : Malloc := fun _ => NUL.

(** A heap where every realloc moves the block up. *)
#[local] Instance bump : Heap := { first_base := 4096; moved b n := Z.max 1 b + 65536 }.
#[local] Instance bump_ok : HeapOk bump.
Proof. split; cbn; intros; lia. Qed.

Definition long : bytes := L "a string of more than forty bytes, to move the storage twice".

Definition demo : list strar_op :=
  [SAdd long; SAdd (L "bin"); SAdd long; SAdd long; SNum; SGet 1; SGet 3; SGet 4; SRemove 1; SGet 1;
   SAdd []; SGet 3; SReset; SGet 0; SAdd (L "new")].

Lemma strar_list_refinement_witness :
  exists sa sa', strar_open = Some sa
    /\ strar_run sa demo = Some (sa', [Done; Done; Done; Done; Num 4; Text (Some (L "bin"));
         Text (Some long); Text None; Done; Text (Some long); Done; Text (Some []); Done; Text None; Done])
    /\ strar_rep sa' [L "new"].
Proof. apply (strar_list_refinement demo [L "new"]). vm_compute. reflexivity. Defined.

Definition two : list bytes := [L "usr"; L "bin"].

Lemma two_rep : exists sa, strar_rep sa two.
Proof.
  destruct strar_open_spec as (sa & _ & HR & Hl).
  destruct (strar_run_rep [SAdd (L "usr"); SAdd (L "bin")] sa [] two [Done; Done] HR) as (sa' & _ & HR');
    [by rewrite Hl|]. by exists sa'.
Qed.

Lemma strar_copy_construct_same_witness :
  exists sa ret, strar_rep sa two /\ strar_copy_construct sa = Some ret /\ strar_rep ret two.
Proof.
  destruct two_rep as [sa HR].
  destruct (strar_copy_construct_same sa two HR) as (ret & E & HR'); [discriminate|].
  exists sa, ret. exact (conj HR (conj E HR')).
Defined.

Lemma strar_remove_index_out_of_range_witness :
  exists sa sa', strar_remove_index sa 7 = Some sa' /\ listM sa' = listM sa
    /\ get_text sa 1 = Some (Some (L "bin")) /\ get_text sa' 1 = Some None.
Proof.
  destruct two_rep as [sa HR].
  destruct (strar_remove_index_out_of_range sa [L "usr"] (L "bin") 7 HR) as (sa' & H);
    [right; reflexivity|]. exists sa, sa'. exact H.
Defined.
End Witness.
