(* ===== verification/Vercmp.v ===== *)
(** * swlib_rpmvercmp, the comparison of version strings (swsupplib/misc/vercmp.c)

    The two scan pointers are the suffixes [one] and [two] of the strings; the
    segment between a scan pointer and [str1] ([str2]) is a prefix of it.
    The specification reads a version as its list of numbers and words and
    compares these lists. *)

From S2P Require Import Prelude CString.

(** Stepping over the characters that satisfy [p]: the part stepped over and the rest. *)
Fixpoint take_while (p : ascii -> bool) (s : bytes) : bytes :=
  match s with c :: r => if p c then c :: take_while p r else [] | [] => [] end.
Fixpoint drop_while (p : ascii -> bool) (s : bytes) : bytes :=
  match s with c :: r => if p c then drop_while p r else s | [] => [] end.

Definition is_sep (c : ascii) : bool := negb (isalnum c).
Definition is_zero (c : ascii) : bool := ceq c "0"%char.

Definition starts_digit (s : bytes) : bool := match s with c :: _ => isdigit c | [] => false end.

(** The comparison of two numeric or two alphabetic segments. *)
Definition segment_cmp (isnum : bool) (one two : bytes) : Z :=
  if isnum then
    let one := drop_while is_zero one in
    let two := drop_while is_zero two in
    if zlen one >? zlen two then 1
    else if zlen two >? zlen one then -1
    else strcmp one two
  else strcmp one two.

Definition leftover (one two : bytes) : Z :=
  match one, two with [], [] => 0 | [], _ => -1 | _, _ => 1 end.

Fixpoint vercmp_loop (fuel : nat) (one two : bytes) : option Z :=
  match fuel with
  | O => None
  | S fuel =>
    match one, two with
    | _ :: _, _ :: _ =>
        let one := drop_while is_sep one in
        let two := drop_while is_sep two in
        let isnum := starts_digit one in
        let p := if isnum then isdigit else isalpha in
        let seg1 := take_while p one in
        let seg2 := take_while p two in
        match seg1, seg2 with
        | [], _ => Some (-1)
        | _, [] => Some (if isnum then 1 else -1)
        | _, _ =>
            let rc := segment_cmp isnum seg1 seg2 in
            if negb (rc =? 0) then Some rc
            else vercmp_loop fuel (drop_while p one) (drop_while p two)
        end
    | _, _ => Some (leftover one two)
    end
  end.

Definition swlib_rpmvercmp (a b : bytes) : option Z :=
  if strcmp a b =? 0 then Some 0 else vercmp_loop (S (length a)) a b.

(** ** Versions as lists of segments *)

Inductive segment := Number (n : Z) | Word (w : bytes).

Fixpoint decimal (ds : bytes) : Z :=
  match ds with c :: r => (uchar c - 48) * 10 ^ zlen r + decimal r | [] => 0 end.

Fixpoint segments (fuel : nat) (s : bytes) : list segment :=
  match fuel with
  | O => []
  | S fuel =>
      let s := drop_while is_sep s in
      match s with
      | [] => []
      | c :: _ =>
          if isdigit c then Number (decimal (take_while isdigit s)) :: segments fuel (drop_while isdigit s)
          else Word (take_while isalpha s) :: segments fuel (drop_while isalpha s)
      end
  end.

Definition version (s : bytes) : list segment := segments (length s) s.

(** A comparison function that orders its type totally. *)
Class TotalOrder {A} (cmp : A -> A -> Z) : Prop := {
  order_anti x y : cmp y x = - cmp x y;
  order_eq x y : cmp x y = 0 -> x = y;
  order_trans x y z : cmp x y < 0 -> cmp y z < 0 -> cmp x z < 0;
}.

(** The lexicographic order; a proper prefix is smaller. *)
Fixpoint lexi {A} (cmp : A -> A -> Z) (v w : list A) : Z :=
  match v, w with
  | [], [] => 0
  | [], _ => -1
  | _, [] => 1
  | x :: v, y :: w => let c := cmp x y in if c =? 0 then lexi cmp v w else c
  end.

Definition char_order (c d : ascii) : Z := Z.sgn (uchar c - uchar d).

(** Numbers by value, words lexicographically, a number over a word. *)
Definition segment_order (x y : segment) : Z :=
  match x, y with
  | Number n, Number m => Z.sgn (n - m)
  | Number _, Word _ => 1
  | Word _, Number _ => -1
  | Word v, Word w => lexi char_order v w
  end.

Definition version_order : list segment -> list segment -> Z := lexi segment_order.

#[export] Instance char_order_total : TotalOrder char_order.
Proof.
  unfold char_order. split.
  - intros x y. rewrite <- Z.sgn_opp. f_equal. lia.
  - intros x y E. apply uchar_inj. lia.
  - intros x y z. lia.
Qed.

Lemma order_refl {A} (cmp : A -> A -> Z) `{!TotalOrder cmp} x : cmp x x = 0.
Proof. pose proof (order_anti x x). lia. Qed.

#[export] Instance lexi_total {A} (cmp : A -> A -> Z) `{!TotalOrder cmp} : TotalOrder (lexi cmp).
Proof.
  split.
  - induction x as [|x v IH]; intros [|y w]; cbn; try done. rewrite order_anti, IH.
    destruct (cmp x y =? 0) eqn:E; zbool; ztest; done.
  - induction x as [|x v IH]; intros [|y w]; cbn; try done.
    destruct (cmp x y =? 0) eqn:E; zbool; intros Hl; [|done].
    by rewrite (order_eq _ _ E), (IH _ Hl).
  - induction x as [|x v IH]; intros [|y w] [|z u]; cbn; try done; try (case_match; lia).
    destruct (cmp x y =? 0) eqn:E1; zbool.
    + apply order_eq in E1 as ->. destruct (cmp y z =? 0); [apply IH|done].
    + destruct (cmp y z =? 0) eqn:E2; zbool.
      * apply order_eq in E2 as ->. intros. by ztest.
      * intros H1 H2. pose proof (order_trans _ _ _ H1 H2). by ztest.
Qed.

#[export] Instance segment_order_total : TotalOrder segment_order.
Proof.
  split.
  - intros [n|v] [m|w]; cbn; [|done|done|apply order_anti]. rewrite <- Z.sgn_opp. f_equal. lia.
  - intros [n|v] [m|w]; cbn; try done; intros E; f_equal; [lia|by apply order_eq in E].
  - intros [n|v] [m|w] [k|u]; cbn; try lia. apply order_trans.
Qed.

#[export] Instance version_order_total : TotalOrder version_order.
Proof. apply lexi_total, _. Qed.

Lemma strcmp_lexi a : forall b, no_nul a -> no_nul b -> Z.sgn (strcmp a b) = lexi char_order a b.
Proof.
  assert (Hpos : forall c, c <> NUL -> 0 < uchar c).
  { intros c Hc. pose proof (uchar_range c). assert (uchar c <> uchar NUL) by (intros E; by apply Hc, uchar_inj).
    change (uchar NUL) with 0 in *. lia. }
  induction a as [|c a IH]; intros [|d b] Ha Hb; cbn; rewrite ?no_nul_cons in *; try done.
  - destruct Hb as [Hd _]. pose proof (Hpos d Hd). lia.
  - destruct Ha as [Hc _]. pose proof (Hpos c Hc). lia.
  - destruct Ha as [_ Ha], Hb as [_ Hb]. unfold char_order. destruct (ceq c d) eqn:E.
    + apply ceq_eq in E as ->. rewrite Z.sub_diag. by apply IH.
    + assert (uchar c <> uchar d) by (intros Eu; apply ceq_neq in E; by apply E, uchar_inj).
      destruct (Z.sgn (uchar c - uchar d) =? 0) eqn:E2; zbool; [lia|done].
Qed.

(** The string does not end in a separator. *)
Definition proper (s : bytes) : Prop := forall c, last s = Some c -> isalnum c = true.

(** ** Scanning *)

Section Scan.
Implicit Types (p : ascii -> bool) (s : bytes).

Lemma take_drop_while p s : take_while p s ++ drop_while p s = s.
Proof. induction s as [|c s IH]; [done|]. cbn. destruct (p c); cbn; [by rewrite IH|done]. Qed.

Lemma drop_while_length p s : (length (drop_while p s) <= length s)%nat.
Proof. induction s as [|c s IH]; [done|]. cbn. destruct (p c); cbn; lia. Qed.

Lemma take_while_all p s : Forall (fun c => p c = true) (take_while p s).
Proof. induction s as [|c s IH]; [done|]. cbn. destruct (p c) eqn:E; [by constructor|done]. Qed.

Lemma drop_while_head p s c r : drop_while p s = c :: r -> p c = false.
Proof.
  induction s as [|d s IH]; cbn; [done|]. destruct (p d) eqn:E; [done|]. by intros [= <- <-].
Qed.

Lemma drop_while_progress p s : take_while p s <> [] -> (length (drop_while p s) < length s)%nat.
Proof.
  intros H. rewrite <- (take_drop_while p s) at 2. rewrite length_app.
  destruct (take_while p s); [done|cbn; lia].
Qed.

Lemma proper_drop_while p s : proper s -> proper (drop_while p s).
Proof.
  intros H c Hc. apply H. rewrite <- (take_drop_while p s).
  by rewrite last_app, Hc.
Qed.

Lemma proper_not_seps s : proper s -> s <> [] -> drop_while is_sep s <> [].
Proof.
  intros H Hne E. destruct (last s) as [c|] eqn:Hc; [|by apply last_None in Hc].
  pose proof (take_drop_while is_sep s) as Hs. rewrite E, app_nil_r in Hs.
  pose proof (take_while_all is_sep s) as HF. rewrite Hs in HF.
  rewrite last_lookup in Hc. apply (Forall_lookup_1 _ _ _ _ HF) in Hc as Hsep.
  rewrite <- last_lookup in Hc. apply H in Hc. unfold is_sep in Hsep. by rewrite Hc in Hsep.
Qed.
End Scan.

(** ** Numbers *)

Section Numbers.
Implicit Types (ds es : bytes).

Definition digits ds : Prop := Forall (fun c => isdigit c = true) ds.

Lemma isdigit_range c : isdigit c = true -> 48 <= uchar c <= 57.
Proof. unfold isdigit, in_range. intros H. zbool. lia. Qed.

Lemma decimal_bound ds : digits ds -> 0 <= decimal ds < 10 ^ zlen ds.
Proof.
  induction 1 as [|c ds Hc Hds IH]; [done|]. cbn [decimal]. apply isdigit_range in Hc.
  rewrite zlen_cons, Z.pow_add_r by (pose proof (zlen_nonneg ds); lia). nia.
Qed.

Lemma decimal_strip ds : decimal (drop_while is_zero ds) = decimal ds.
Proof.
  induction ds as [|c ds IH]; [done|]. cbn [drop_while]. destruct (is_zero c) eqn:E; [|done].
  apply ceq_eq in E as ->. rewrite IH. cbn [decimal]. change (uchar "0") with 48. lia.
Qed.

Lemma digits_strip ds : digits ds -> digits (drop_while is_zero ds).
Proof. induction 1 as [|c ds Hc Hds IH]; [constructor|]. cbn. destruct (is_zero c); [done|by constructor]. Qed.

(** Of two numbers without leading zeros the longer one is the greater one. *)
Lemma decimal_longer ds es c r :
  digits ds -> digits es -> ds = c :: r -> is_zero c = false -> zlen es < zlen ds ->
  decimal es < decimal ds.
Proof.
  intros Hd He -> Hc Hl. pose proof (decimal_bound es He) as Be.
  apply Forall_cons in Hd as [Hdc Hr]. pose proof (decimal_bound r Hr) as Br.
  apply isdigit_range in Hdc. rewrite zlen_cons in Hl. cbn [decimal].
  assert (uchar c <> 48).
  { intros E. apply ceq_neq in Hc. apply Hc. apply uchar_inj. done. }
  assert (10 ^ zlen es <= 10 ^ zlen r) by (apply Z.pow_le_mono_r; lia). nia.
Qed.

Lemma decimal_same_length ds : forall es,
  digits ds -> digits es -> zlen ds = zlen es ->
  Z.sgn (strcmp ds es) = Z.sgn (decimal ds - decimal es).
Proof.
  induction ds as [|c ds IH]; intros [|d es] Hd He Hl; try done. rewrite !zlen_cons in Hl.
  apply Forall_cons in Hd as [Hc Hd]. apply Forall_cons in He as [Hd' He].
  pose proof (decimal_bound ds Hd). pose proof (decimal_bound es He).
  assert (E : zlen ds = zlen es) by lia. cbn [strcmp decimal]. rewrite E in *.
  destruct (ceq c d) eqn:Ec.
  - apply ceq_eq in Ec as ->. rewrite IH by done. f_equal. lia.
  - assert (uchar c <> uchar d).
    { intros Eu. apply ceq_neq in Ec. by apply Ec, uchar_inj. }
    destruct (Z_lt_le_dec (uchar c) (uchar d)); [rewrite !Z.sgn_neg|rewrite !Z.sgn_pos]; try done; nia.
Qed.

Lemma zlen_pos_head ds : 0 < zlen (drop_while is_zero ds) ->
  exists c r, drop_while is_zero ds = c :: r /\ is_zero c = false.
Proof.
  destruct (drop_while is_zero ds) as [|c r] eqn:E; [done|]. intros _. exists c, r.
  split; [done|]. by eapply drop_while_head.
Qed.

(** Comparing length and then text compares the numbers. *)
Lemma segment_cmp_number ds es :
  digits ds -> digits es -> Z.sgn (segment_cmp true ds es) = Z.sgn (decimal ds - decimal es).
Proof.
  intros Hd He. unfold segment_cmp. cbn zeta.
  rewrite <- (decimal_strip ds), <- (decimal_strip es).
  pose proof (zlen_pos_head ds) as Hpd. pose proof (zlen_pos_head es) as Hpe.
  apply digits_strip in Hd, He. revert Hd He Hpd Hpe.
  generalize (drop_while is_zero ds) (drop_while is_zero es). intros d e Hd He Hpd Hpe.
  pose proof (zlen_nonneg d). pose proof (zlen_nonneg e).
  destruct (zlen d >? zlen e) eqn:E1; zbool.
  { destruct Hpd as (c & r & -> & Hc); [lia|].
    rewrite (Z.sgn_pos (_ - _)); [done|]. pose proof (decimal_longer _ _ c r Hd He eq_refl Hc E1). lia. }
  destruct (zlen e >? zlen d) eqn:E2; zbool.
  { destruct Hpe as (c & r & -> & Hc); [lia|].
    rewrite (Z.sgn_neg (_ - _)); [done|]. pose proof (decimal_longer _ _ c r He Hd eq_refl Hc E2). lia. }
  apply decimal_same_length; [done|done|lia].
Qed.
End Numbers.

(** ** The loop compares the lists of segments *)

Lemma segments_fuel n : forall m s, (length s <= n)%nat -> (length s <= m)%nat ->
  segments n s = segments m s.
Proof.
  assert (Hnil : forall k, segments k [] = []) by (by intros []).
  induction n as [|n IH]; intros m s Hn Hm.
  { destruct s; [|cbn in Hn; lia]. by rewrite !Hnil. }
  destruct m as [|m]; [destruct s; [|cbn in Hm; lia]; by rewrite !Hnil|].
  cbn [segments]. pose proof (drop_while_length is_sep s) as Hs.
  destruct (drop_while is_sep s) as [|c r] eqn:E; [done|].
  apply drop_while_head in E. cbn [length] in Hs.
  assert (Hsep : isdigit c = true \/ isalpha c = true).
  { unfold is_sep, isalnum in E. zbool. tauto. }
  destruct (isdigit c) eqn:Ed.
  - f_equal. pose proof (drop_while_progress isdigit (c :: r)) as Hp.
    cbn [take_while] in Hp. rewrite Ed in Hp. specialize (Hp ltac:(done)). cbn [length] in Hp.
    apply IH; lia.
  - destruct Hsep as [?|Ea]; [done|]. f_equal.
    pose proof (drop_while_progress isalpha (c :: r)) as Hp.
    cbn [take_while] in Hp. rewrite Ea in Hp. specialize (Hp ltac:(done)). cbn [length] in Hp.
    apply IH; lia.
Qed.

Definition class_of (isnum : bool) : ascii -> bool := if isnum then isdigit else isalpha.
Definition seg_of (isnum : bool) (x : bytes) : segment := if isnum then Number (decimal x) else Word x.

Lemma isalpha_not_digit c : isalpha c = true -> isdigit c = false.
Proof.
  unfold isalpha, isupper, islower, isdigit, in_range. intros H.
  destruct (48 <=? uchar c) eqn:E1, (uchar c <=? 57) eqn:E2; try done. zbool.
  destruct H as [H|H]; zbool; lia.
Qed.

Lemma version_step s (s' := drop_while is_sep s) (isnum := starts_digit s') :
  proper s -> s <> [] ->
  take_while (class_of isnum) s' <> []
  /\ version s = seg_of isnum (take_while (class_of isnum) s') :: version (drop_while (class_of isnum) s')
  /\ (length (drop_while (class_of isnum) s') < length s)%nat
  /\ proper (drop_while (class_of isnum) s').
Proof.
  intros Hp Hne. pose proof (proper_not_seps s Hp Hne) as Hs'. fold s' in Hs'.
  pose proof (drop_while_length is_sep s) as Hl. fold s' in Hl.
  assert (Ht : take_while (class_of isnum) s' <> []).
  { subst isnum. destruct s' as [|c r] eqn:E; [done|]. apply drop_while_head in E.
    cbn. destruct (isdigit c) eqn:Ed; cbn; [by rewrite Ed|].
    unfold is_sep, isalnum in E. rewrite Ed in E. destruct (isalpha c); done. }
  pose proof (drop_while_progress _ _ Ht) as Hd.
  split; [done|]. split; [|split; [lia|by apply proper_drop_while, proper_drop_while]].
  unfold version. destruct s as [|x s0]; [done|].
  rewrite (segments_fuel _ (S (length s0)) _ (le_n _)) by done. cbn [segments length]. fold s'.
  destruct s' as [|c r] eqn:E; [done|]. subst isnum. cbn [starts_digit] in *. unfold seg_of, class_of in *.
  destruct (isdigit c); f_equal; apply segments_fuel; cbn [length] in *; lia.
Qed.

Lemma isalpha_no_nul s : no_nul (take_while isalpha s).
Proof.
  intros Hin. pose proof (take_while_all isalpha s) as HF. rewrite Forall_forall in HF.
  by apply HF in Hin.
Qed.

Lemma segment_order_seg b s t (x := take_while (class_of b) s) (y := take_while (class_of b) t) :
  segment_order (seg_of b x) (seg_of b y) = Z.sgn (segment_cmp b x y).
Proof.
  destruct b; cbn [seg_of segment_order].
  - symmetry. apply segment_cmp_number; apply take_while_all.
  - symmetry. apply strcmp_lexi; apply isalpha_no_nul.
Qed.

Lemma version_nil_inv s : proper s -> version s = [] -> s = [].
Proof.
  intros Hp Hv. destruct (decide (s = [])) as [|Hne]; [done|].
  destruct (version_step s Hp Hne) as (_ & E & _). congruence.
Qed.

Lemma take_while_cross isnum s (s' := drop_while is_sep s) :
  s' <> [] -> starts_digit s' <> isnum -> take_while (class_of isnum) s' = [].
Proof.
  intros Hne Hd. destruct s' as [|c r] eqn:E; [done|]. apply drop_while_head in E. cbn in Hd |- *.
  unfold is_sep, isalnum in E. destruct isnum; cbn [class_of].
  - by destruct (isdigit c).
  - destruct (isalpha c) eqn:Ea; [|done]. apply isalpha_not_digit in Ea. by rewrite Ea in Hd.
Qed.

Lemma vercmp_loop_spec fuel : forall a b,
  proper a -> proper b -> (length a < fuel)%nat ->
  exists r, vercmp_loop fuel a b = Some r /\ Z.sgn r = version_order (version a) (version b).
Proof.
  induction fuel as [|fuel IH]; intros a b Ha Hb Hf; [lia|].
  destruct a as [|x a0] eqn:Ea.
  { exists (leftover [] b). split; [done|]. destruct b as [|y b0] eqn:Eb; [done|].
    destruct (version (y :: b0)) eqn:Ev; [by apply version_nil_inv in Ev|done]. }
  destruct b as [|y b0] eqn:Eb.
  { exists 1. split; [done|]. destruct (version (x :: a0)) eqn:Ev; [by apply version_nil_inv in Ev|done]. }
  assert (Hva := version_step (x :: a0) Ha ltac:(done)). assert (Hvb := version_step (y :: b0) Hb ltac:(done)).
  assert (Hsb := proper_not_seps (y :: b0) Hb ltac:(done)).
  cbn zeta in Hva, Hvb. cbn [vercmp_loop]. revert Hva Hvb Hsb.
  pose proof (take_while_cross (starts_digit (drop_while is_sep (x :: a0))) (y :: b0)) as Hc. revert Hc.
  cbn zeta.
  generalize (drop_while is_sep (x :: a0)) as one, (drop_while is_sep (y :: b0)) as two.
  intros one two Hc (Ht1 & -> & Hl1 & Hp1) (Ht2 & -> & Hl2 & Hp2) Hsb.
  fold (class_of (starts_digit one)).
  destruct (decide (starts_digit two = starts_digit one)) as [E|E].
  - rewrite E in *. set (n := starts_digit one) in *.
    pose proof (segment_order_seg n one two) as HF. cbn zeta in HF.
    unfold version_order. cbn [lexi]. fold version_order. rewrite HF.
    destruct (take_while (class_of n) one) as [|c1 s1]; [done|].
    destruct (take_while (class_of n) two) as [|c2 s2]; [done|].
    destruct (segment_cmp n (c1 :: s1) (c2 :: s2) =? 0) eqn:Ez; cbn [negb]; zbool.
    + rewrite Ez. cbn [Z.sgn Z.eqb]. apply IH; [done|done|]. cbn [length] in *. lia.
    + eexists. split; [done|]. destruct (segment_cmp n (c1 :: s1) (c2 :: s2)); done.
  - rewrite (Hc Hsb E). destruct (take_while (class_of (starts_digit one)) one) as [|c1 s1]; [done|].
    eexists. split; [done|].
    destruct (starts_digit one), (starts_digit two); done.
Qed.

(** ** Theorems *)

Section Theorems.
Implicit Types a b c : bytes.

Lemma rpmvercmp_sgn a b :
  no_nul a /\ proper a -> no_nul b /\ proper b ->
  exists r, swlib_rpmvercmp a b = Some r /\ Z.sgn r = version_order (version a) (version b).
Proof.
  intros [Na Ha] [Nb Hb]. unfold swlib_rpmvercmp. destruct (strcmp a b =? 0) eqn:E; zbool.
  - apply strcmp_eq in E as ->; [|done..]. exists 0. by rewrite (order_refl version_order).
  - apply vercmp_loop_spec; [done|done|lia].
Qed.

(** C36: swlib_rpmvercmp terminates; on versions that do not end in a separator
    its sign is the order of the two versions as lists of segments: numbers by
    value whatever their length and leading zeros, words by strcmp, a number
    above a word, a longer version above its prefix. *)
Theorem rpmvercmp_is_segment_order a b :
  no_nul a -> no_nul b -> proper a -> proper b ->
  exists r, swlib_rpmvercmp a b = Some r /\ Z.sgn r = version_order (version a) (version b).
Proof.
  intros Na Nb Ha Hb. by apply rpmvercmp_sgn.
Qed.

(** On versions that do not end in a separator swlib_rpmvercmp is a total
    preorder: exchanging the arguments changes the sign, equivalent versions
    compare alike, and "older than" is transitive. *)
Theorem rpmvercmp_total_preorder a b c :
  no_nul a /\ proper a -> no_nul b /\ proper b -> no_nul c /\ proper c ->
  exists ab ba bc ac, swlib_rpmvercmp a b = Some ab /\ swlib_rpmvercmp b a = Some ba
    /\ swlib_rpmvercmp b c = Some bc /\ swlib_rpmvercmp a c = Some ac
    /\ Z.sgn ba = - Z.sgn ab
    /\ (ab = 0 -> Z.sgn ac = Z.sgn bc)
    /\ (ab < 0 -> bc < 0 -> ac < 0).
Proof.
  intros Ha Hb Hc.
  destruct (rpmvercmp_sgn a b Ha Hb) as (ab & -> & Eab). destruct (rpmvercmp_sgn b a Hb Ha) as (ba & -> & Eba).
  destruct (rpmvercmp_sgn b c Hb Hc) as (bc & -> & Ebc). destruct (rpmvercmp_sgn a c Ha Hc) as (ac & -> & Eac).
  exists ab, ba, bc, ac. do 4 (split; [done|]). split; [|split].
  - rewrite Eba, Eab. apply order_anti.
  - intros ->. rewrite Eac, Ebc. symmetry in Eab. by apply order_eq in Eab as ->.
  - intros H1 H2. apply Z.sgn_neg_iff in H1, H2. apply Z.sgn_neg_iff.
    pose proof (order_trans (version a) (version b) (version c)). lia.
Qed.

(** A trailing separator breaks the order: each of two versions that differ
    only in the separator they end in is older than the other. *)
Theorem rpmvercmp_trailing_separator s t :
  is_sep s = true -> is_sep t = true -> s <> t ->
  swlib_rpmvercmp [s] [t] = Some (-1) /\ swlib_rpmvercmp [t] [s] = Some (-1)
  /\ swlib_rpmvercmp ("1"%char :: [s]) ("1"%char :: [t]) = Some (-1)
  /\ swlib_rpmvercmp ("1"%char :: [t]) ("1"%char :: [s]) = Some (-1).
Proof.
  intros Hs Ht Hne.
  assert (Hc : forall x y, is_sep x = true -> is_sep y = true -> x <> y ->
    swlib_rpmvercmp [x] [y] = Some (-1)
    /\ swlib_rpmvercmp ("1"%char :: [x]) ("1"%char :: [y]) = Some (-1)).
  { intros x y Hx Hy Hxy. assert (uchar x <> uchar y) by (intros E; by apply Hxy, uchar_inj).
    assert (Hdx : isdigit x = false) by (unfold is_sep, isalnum in Hx; zbool; tauto).
    assert (Hdy : isdigit y = false) by (unfold is_sep, isalnum in Hy; zbool; tauto).
    unfold swlib_rpmvercmp. cbn [strcmp]. apply ceq_neq in Hxy. rewrite Hxy, ceq_refl.
    assert ((uchar x - uchar y =? 0) = false) as -> by (apply Z.eqb_neq; lia).
    assert (Hend : forall n, vercmp_loop (S n) [x] [y] = Some (-1))
      by (intros n; cbn [vercmp_loop drop_while]; by rewrite Hx, Hy).
    split; [apply Hend|]. rewrite <- (Hend 1%nat). cbn [length].
    assert (H1 : forall z, isdigit z = false -> take_while isdigit ["1"%char; z] = ["1"%char]
                                   /\ drop_while isdigit ["1"%char; z] = [z])
      by (intros z Hz; cbn [take_while drop_while]; rewrite Hz; done).
    destruct (H1 x Hdx) as [Tx Dx], (H1 y Hdy) as [Ty Dy].
    transitivity (match take_while isdigit ["1"%char; x], take_while isdigit ["1"%char; y] with
      | [], _ => Some (-1) | _, [] => Some 1
      | s1, s2 => if negb (segment_cmp true s1 s2 =? 0) then Some (segment_cmp true s1 s2)
                  else vercmp_loop 2 (drop_while isdigit ["1"%char; x]) (drop_while isdigit ["1"%char; y]) end);
      [reflexivity|]. by rewrite Tx, Ty, Dx, Dy. }
  destruct (Hc s t Hs Ht Hne), (Hc t s Ht Hs (not_eq_sym Hne)). tauto.
Qed.
End Theorems.

Module Witness.
Lemma proper_compute s : match last s with Some c => isalnum c | None => true end = true -> proper s.
Proof. intros E c Hc. by rewrite Hc in E. Qed.

Lemma rpmvercmp_is_segment_order_witness :
  exists r, swlib_rpmvercmp (L "1.010-beta2") (L "1.9-rc1") = Some r
    /\ Z.sgn r = version_order (version (L "1.010-beta2")) (version (L "1.9-rc1")).
Proof.
  apply rpmvercmp_is_segment_order;
    [by apply no_nul_compute|by apply no_nul_compute|by apply proper_compute|by apply proper_compute].
Defined.

Example demo_order :
  version (L "1.010-beta2") = [Number 1; Number 10; Word (L "beta"); Number 2]
  /\ swlib_rpmvercmp (L "1.010-beta2") (L "1.9-rc1") = Some 1.
Proof. split; reflexivity. Qed.

Lemma rpmvercmp_total_preorder_witness :
  exists ab ba bc ac, swlib_rpmvercmp (L "1.0") (L "1.0.a") = Some ab
    /\ swlib_rpmvercmp (L "1.0.a") (L "1.0") = Some ba
    /\ swlib_rpmvercmp (L "1.0.a") (L "1.0.1") = Some bc /\ swlib_rpmvercmp (L "1.0") (L "1.0.1") = Some ac
    /\ Z.sgn ba = - Z.sgn ab
    /\ (ab = 0 -> Z.sgn ac = Z.sgn bc)
    /\ (ab < 0 -> bc < 0 -> ac < 0).
Proof.
  apply rpmvercmp_total_preorder; (split; [by apply no_nul_compute|by apply proper_compute]).
Defined.

Lemma rpmvercmp_trailing_separator_witness :
  swlib_rpmvercmp (L ".") (L "-") = Some (-1) /\ swlib_rpmvercmp (L "-") (L ".") = Some (-1)
  /\ swlib_rpmvercmp (L "1.") (L "1-") = Some (-1) /\ swlib_rpmvercmp (L "1-") (L "1.") = Some (-1).
Proof. apply (rpmvercmp_trailing_separator "."%char "-"%char); done. Defined.
End Witness.
