(* ===== verification/Pathname.v ===== *)
(** * Pathnames edited in place (swsupplib/misc/swlib.c)

    A [char *path] that is edited in place is the buffer it points to: the
    functions take the whole buffer and return it, the text is the string at
    offset 0.  A pointer into the buffer is its offset.  As in Strob.v an access
    outside the buffer is [None]. *)

From S2P Require Import Prelude CString Strob.

Definition slash : ascii := "/"%char.
Definition is_slash (c : ascii) : bool := ceq c slash.

(** memmove (m + dst, m + src, n) *)
Definition memmove (m : bytes) (dst src n : Z) : option bytes :=
  if (0 <=? src) && (0 <=? n) && (src + n <=? zlen m)
  then mem_write m dst (take (Z.to_nat n) (drop (Z.to_nat src) m)) else None.

(** The text of the buffer. *)
Definition text_of (m : bytes) : option bytes := str_at m 0.

Definition starts_with (p s : bytes) : bool := is_prefix p s.

(** ** Squashing *)

(** The second component is the result: 0 when a character was removed. *)
Definition squash_trailing_char (path : bytes) (ch : ascii) (min_len : Z) : option (bytes * Z) :=
  s ← text_of path;
  if (zlen s >? min_len) && (match last s with Some c => ceq c ch | None => false end)
  then m ← mem_write path (zlen s - 1) [NUL]; Some (m, 0)
  else Some (path, 1).

Definition swlib_squash_trailing_char (path : bytes) (ch : ascii) : option (bytes * Z) :=
  squash_trailing_char path ch 0.

Fixpoint squash_all_newlines (fuel : nat) (path : bytes) : option bytes :=
  match fuel with
  | O => None
  | S fuel =>
      '(m, r) ← squash_trailing_char path "010"%char 0;
      if r =? 0 then '(m, _) ← squash_trailing_char m "013"%char 0; squash_all_newlines fuel m
      else Some m
  end.

Definition swlib_squash_all_trailing_vnewline (path : bytes) : option bytes :=
  squash_all_newlines (S (length path)) path.

Definition swlib_squash_trailing_vnewline (path : bytes) : option bytes :=
  '(m, _) ← squash_trailing_char path "013"%char 0;
  '(m, _) ← squash_trailing_char m "010"%char 0; Some m.

Definition swlib_squash_trailing_slash (path : bytes) : option bytes :=
  fst <$> squash_trailing_char path slash 1.

(** Both branches of the code are the same memmove. *)
Definition swlib_squash_embedded_dot_slash (path : bytes) : option bytes :=
  s ← text_of path;
  match strstr s (L "/./") with
  | Some p1 => let p1 := Z.of_nat p1 in
               n ← strlen_at path (p1 + 2); memmove path (p1 + 1) (p1 + 3) n
  | None => Some path
  end.

Fixpoint squash_double_slash_loop (fuel : nat) (path : bytes) : option bytes :=
  match fuel with
  | O => None
  | S fuel =>
      s ← text_of path;
      match strstr s (L "//") with
      | Some p1 => let p1 := Z.of_nat p1 in
                   n ← strlen_at path p1; m ← memmove path p1 (p1 + 1) n;
                   squash_double_slash_loop fuel m
      | None => Some path
      end
  end.

Definition swlib_squash_double_slash (path : bytes) : option bytes :=
  squash_double_slash_loop (S (length path)) path.

Definition swlib_squash_leading_dot_slash (path : bytes) : option bytes :=
  s ← text_of path;
  if (zlen s >=? 3) && (strncmp s (L "./") 2 =? 0)
  then n ← strlen_at path 1; memmove path 0 2 n
  else Some path.

Fixpoint squash_all_loop (fuel : nat) (path : bytes) : option bytes :=
  match fuel with
  | O => None
  | S fuel =>
      s ← text_of path;
      match strstr s (L "/./") with
      | Some _ => m ← swlib_squash_embedded_dot_slash path; squash_all_loop fuel m
      | None => Some path
      end
  end.

Definition swlib_squash_all_dot_slash (path : bytes) : option bytes :=
  m ← swlib_squash_leading_dot_slash path; squash_all_loop (S (length m)) m.

(** The offset of the result in [path]. *)
Definition swlib_return_no_leading (path : bytes) : option Z :=
  s ← text_of path;
  Some (match strstr s (L "/") with
        | Some O => 1
        | _ => match strstr s (L "./") with Some O => 2 | _ => 0 end
        end).

Definition swlib_squash_leading_slash (name : bytes) : option bytes :=
  s ← text_of name;
  match s with
  | c :: _ => if is_slash c then memmove name 0 1 (zlen s) else Some name
  | [] => Some name
  end.

Fixpoint skip_slashes (s : bytes) : Z :=
  match s with c :: r => if is_slash c then 1 + skip_slashes r else 0 | [] => 0 end.

Definition swlib_return_relative_path (path : bytes) : option Z :=
  s ← text_of path; Some (skip_slashes s).

Definition starts_slash (s : bytes) : bool := match s with c :: _ => is_slash c | [] => false end.

Fixpoint squash_leading_loop (fuel : nat) (name : bytes) : option bytes :=
  match fuel with
  | O => None
  | S fuel =>
      s ← text_of name;
      if starts_slash s then m ← swlib_squash_leading_slash name; squash_leading_loop fuel m
      else Some name
  end.

Definition swlib_squash_all_leading_slash (name : bytes) : option bytes :=
  s ← text_of name;
  m ← squash_leading_loop (S (length name)) name;
  s' ← text_of m;
  if starts_slash s && (zlen s' =? 0) then mem_write m 0 (L "." ++ [NUL]) else Some m.

Definition swlib_slashclean (path : bytes) : option bytes :=
  m ← swlib_squash_double_slash path;
  m ← swlib_squash_leading_dot_slash m;
  swlib_squash_trailing_slash m.

(** ** Dropping and restoring the ends of a path

    Each function takes the mode, the buffer and the flag, and returns the
    buffer and the flag. *)

Definition drop_mode (mode : bytes) : bool := streq mode (L "drop").

Definition swlib_toggle_trailing_slashdot (mode name : bytes) (flag : Z) : option (bytes * Z) :=
  s ← text_of name;
  if drop_mode mode then
    if zlen s <? 2 then Some (name, 0)
    else e ← str_at name (zlen s - 2);
         if streq e (L "/.") then m ← mem_write name (zlen s - 2) [NUL]; Some (m, 1)
         else Some (name, flag)
  else if negb (flag =? 0) then m ← mem_write name (zlen s) (L "/." ++ [NUL]); Some (m, 0)
  else Some (name, flag).

Definition swlib_toggle_leading_dotslash (mode name : bytes) (flag : Z) : option (bytes * Z) :=
  s ← text_of name;
  if drop_mode mode then
    if zlen s <? 2 then Some (name, 0)
    else if (strncmp s (L "./") 2 =? 0) && (zlen s >? 2)
    then m ← memmove name 0 2 (zlen s - 1); Some (m, 1)
    else Some (name, 0)
  else if negb (flag =? 0) then
    if streq s (L ".") then m ← mem_write name (zlen s) (L "/" ++ [NUL]); Some (m, flag)
    else m ← memmove name 2 0 (zlen s + 1);
         m ← mem_write m 0 (L "."); m ← mem_write m 1 (L "/"); Some (m, 0)
  else Some (name, flag).

Definition swlib_toggle_trailing_slash (mode name : bytes) (flag : Z) : option (bytes * Z) :=
  s ← text_of name;
  if drop_mode mode then
    if (zlen s >? 1) && (match last s with Some c => is_slash c | None => false end)
    then m ← mem_write name (zlen s - 1) [NUL]; Some (m, 1)
    else Some (name, 0)
  else if negb (flag =? 0) then m ← mem_write name (zlen s) [slash]; Some (m, flag)
  else Some (name, flag).

Fixpoint toggle_all_loop (fuel : nat) (mode name : bytes) (flag pf : Z) : option (bytes * Z) :=
  match fuel with
  | O => None
  | S fuel =>
      if pf =? 0 then Some (name, flag)
      else '(m, pf) ← swlib_toggle_trailing_slash mode name 0;
           toggle_all_loop fuel mode m (flag + 1) pf
  end.

Definition swlib_toggle_all_trailing_slash (mode name : bytes) : option (bytes * Z) :=
  '(m, pf) ← swlib_toggle_trailing_slash mode name 0;
  toggle_all_loop (S (length m)) mode m 0 pf.

Definition swlib_toggle_leading_slash (mode name : bytes) (flag : Z) : option (bytes * Z) :=
  s ← text_of name;
  if drop_mode mode then
    if starts_slash s && (zlen s >? 1)
    then m ← memmove name 0 1 (zlen s); Some (m, 1)
    else Some (name, 0)
  else if streq mode (L "restore") then
    if negb (flag =? 0)
    then m ← memmove name 1 0 (zlen s + 1); m ← mem_write m 0 [slash]; Some (m, 0)
    else Some (name, flag)
  else Some (name, flag).

(** ** Comparison *)

Definition SWC_FC_NOOP : Z := 0.
Definition SWC_FC_NOAB : Z := 1.

(** Run a toggle on a buffer and the flag it keeps for it. *)
Definition toggle (f : bytes -> bytes -> Z -> option (bytes * Z)) (mode : bytes)
    (st : bytes * Z) : option (bytes * Z) := f mode (fst st) (snd st).

(** The ends dropped from one argument of swlib_dir_compare, with the four
    flags it keeps, and their restoration; the calls on the other argument
    interleave with these but touch another buffer. *)
Record dropped := mkDropped { d_path : bytes; leading_p : Z; trailing_p : Z; trailing_d : Z; leading_d : Z }.

Definition drop_ends (noab : bool) (s : bytes) : option dropped :=
  '(s, lp) ← (if noab then swlib_toggle_leading_slash (L "drop") s 0 else Some (s, 0));
  '(s, tp) ← swlib_toggle_trailing_slash (L "drop") s 0;
  '(s, td) ← swlib_toggle_trailing_slashdot (L "drop") s 0;
  '(s, ld) ← swlib_toggle_leading_dotslash (L "drop") s 0;
  Some (mkDropped s lp tp td ld).

Definition restore_ends (noab : bool) (d : dropped) : option bytes :=
  '(s, _) ← swlib_toggle_leading_dotslash (L "restore") (d_path d) (leading_d d);
  '(s, _) ← swlib_toggle_trailing_slashdot (L "restore") s (trailing_d d);
  '(s, _) ← swlib_toggle_trailing_slash (L "restore") s (trailing_p d);
  if noab then fst <$> swlib_toggle_leading_slash (L "restore") s (leading_p d) else Some s.

(** The buffers afterwards and the result of strcmp. *)
Definition swlib_dir_compare (s1 s2 : bytes) (FC_compare_flag : Z) : option (bytes * bytes * Z) :=
  let noab := FC_compare_flag =? SWC_FC_NOAB in
  d1 ← drop_ends noab s1;
  d2 ← drop_ends noab s2;
  t1 ← text_of (d_path d1);
  t2 ← text_of (d_path d2);
  let ret := strcmp t1 t2 in
  s1 ← restore_ends noab d1;
  s2 ← restore_ends noab d2;
  Some (s1, s2, ret).

(** The pointer behind the last slash, when there is a name behind it. *)
Definition basename_offset (s : bytes) : Z :=
  match strrchr s slash with
  | Some i => if (S i <? length s)%nat then Z.of_nat (S i) else 0
  | None => 0
  end.

(** The result; the names are compared (and restored) in place. *)
Definition swlib_basename_compare (s1 s2 : bytes) : option Z :=
  t1 ← text_of s1; t2 ← text_of s2;
  b1 ← mem_at s1 (basename_offset t1); b2 ← mem_at s2 (basename_offset t2);
  '(_, ret) ← swlib_dir_compare b1 b2 SWC_FC_NOOP; Some ret.

(** ** Pathnames in a STROB *)

Section StrobPaths.
Context `{Malloc}.

(** Run an in-place edit on the block of a STROB. *)
Definition on_str (f : bytes -> option bytes) (s : STROB) : option STROB :=
  m ← f (str_ s); Some (set_str m s).

Definition swlib_dirname (dest : STROB) (source : bytes) : option STROB :=
  dest ← strob_strcpy dest source;
  s ← strob_strrchr dest slash;
  match s with
  | None => strob_strcpy dest (L ".")
  | Some i => on_str (fun m => mem_write m (if (i =? 0)%nat then 1 else Z.of_nat i) [NUL]) dest
  end.

(** swlib_basename (NULL, source): the offset of the result in [source]. *)
Definition basename_of (source : bytes) : Z :=
  match strrchr source slash with
  | None => 0
  | Some i =>
      let rest := drop (S i) source in
      let s := Z.of_nat (S i) + skip_slashes rest in
      if s =? zlen source then (if s >? 0 then s - 1 else 0) else s
  end.

Definition swlib_basename (dest : STROB) (source : bytes) : option STROB :=
  dest ← strob_strcpy dest source;
  t ← strob_str dest;
  let s := basename_of t in
  n ← strlen_at (str_ dest) s;
  on_str (fun m => memmove m 0 s (n + 1)) dest.

Definition swlib_unix_dirtrunc (buf : STROB) : option (STROB * Z) :=
  buf ← on_str swlib_squash_trailing_slash buf;
  buf ← on_str swlib_squash_all_dot_slash buf;
  t ← strob_str buf;
  match strrchr t slash with
  | None => Some (buf, 0)
  | Some i =>
      if (i =? 0)%nat || ((i =? 1)%nat && (match t with c :: _ => ceq c "."%char | [] => false end))
      then Some (buf, 0)
      else buf ← on_str (fun m => mem_write m (Z.of_nat i) [NUL]) buf; Some (buf, 1)
  end.

(** while (i > 0) *)
Fixpoint dirtrunc_loop (i : nat) (buf : STROB) : option (STROB * nat) :=
  match i with
  | O => Some (buf, O)
  | S i' => '(buf, ret) ← swlib_unix_dirtrunc buf;
            if ret =? 0 then Some (buf, i) else dirtrunc_loop i' buf
  end.

Definition swlib_unix_dirtrunc_n (buf : STROB) (n : Z) : option (STROB * Z) :=
  '(buf, i) ← dirtrunc_loop (Z.to_nat n) buf; Some (buf, if n <? 0 then 0 else n - Z.of_nat i).

Definition swlib_unix_dircat (dest : STROB) (dirname : option bytes) : option STROB :=
  match dirname with
  | None | Some [] => Some dest
  | Some dirname =>
      s ← strob_str dest;
      dest ← (match last s with
              | Some c => if is_slash c then Some dest else strob_strcat dest (L "/")
              | None => Some dest
              end);
      n ← strob_strlen dest;
      newp ← (if n =? 0 then Some (dirname ++ [NUL])
              else swlib_squash_leading_dot_slash (dirname ++ [NUL]));
      t ← text_of newp;
      dest ← strob_strcat dest t;
      on_str swlib_squash_double_slash dest
  end.

Definition swlib_add_trailing_slash (path : STROB) : option STROB :=
  p ← strob_str path;
  match last p with
  | None => strob_strcat path (L "/")
  | Some c => if is_slash c then Some path else strob_strcat path (L "/")
  end.

(** One component in swlib_resolve_path: the depth and whether a name was seen. *)
Definition resolve_step (s : bytes) (count : Z) (startnames : bool) : Z * bool :=
  if streq s (L "..") && negb startnames then (count + 1, startnames)
  else if streq s (L ".") then (count, startnames)
  else if streq s (L "..") && startnames then (count - 1, startnames)
  else (count + 1, true).

Fixpoint resolve_loop (fuel : nat) (tmp : STROB) (s : option Z) (count : Z) (startnames : bool)
    (numcomponents : Z) (resolved_path : STROB) : option (Z * Z * STROB) :=
  match fuel with
  | O => None
  | S fuel =>
      match s with
      | None => Some (numcomponents, count, resolved_path)
      | Some p =>
          s ← str_at (str_ tmp) p;
          let '(count, startnames) := resolve_step s count startnames in
          resolved_path ← strob_strcat resolved_path s;
          resolved_path ← strob_strcat resolved_path (L "/");
          '(tmp, s) ← strob_strtok tmp TokNull (L "/");
          resolve_loop fuel tmp s count startnames (numcomponents + 1) resolved_path
      end
  end.

(** The number of components, the depth and the path written out. *)
Definition swlib_resolve_path (ppath : bytes) (resolved_path : STROB) : option (Z * Z * STROB) :=
  path ← swlib_slashclean (ppath ++ [NUL]);
  tmp ← strob_open 10;
  resolved_path ← strob_strcpy resolved_path [];
  t ← text_of path;
  '(tmp, s) ← strob_strtok tmp (TokStr t) (L "/");
  resolve_loop (S (S (length t))) tmp s 0 false 0 resolved_path.

Definition swlib_apply_location (relocated_path : STROB) (path location directory : bytes)
    : option STROB :=
  relocated_path ← strob_strcpy relocated_path [];
  if zlen path =? 0 then Some relocated_path
  else
    i ← swlib_return_no_leading (path ++ [NUL]);
    j ← swlib_return_no_leading (directory ++ [NUL]);
    let clean_path := drop (Z.to_nat i) path in
    let clean_directory := drop (Z.to_nat j) directory in
    let clean_path :=
      if (zlen clean_directory >? 0) && (zlen clean_path >? 0)
      then match strstr clean_path clean_directory with
           | Some O => drop (length clean_directory) clean_path
           | _ => clean_path
           end
      else clean_path in
    relocated_path ← strob_strcpy relocated_path location;
    swlib_unix_dircat relocated_path (Some clean_path).

(** char cwd[200]: strncpy copies 198 bytes, byte 199 is NUL, byte 198 keeps
    what the stack held. *)
Definition cwd_buffer (pcwd : bytes) : bytes := strncpy_bytes pcwd 198 ++ [junk 198; NUL].

(** [cwd] is the argument; with a NULL argument the code calls getcwd. *)
Definition form_abspath (sb1 : STROB) (s1 pcwd : bytes) : option (STROB * Z) :=
  if starts_slash s1 then Some (sb1, 1)
  else sb1 ← strob_strcpy sb1 (cstr (cwd_buffer pcwd));
       sb1 ← swlib_unix_dircat sb1 (Some s1); Some (sb1, 0).

Definition swlib_vrelpath_compare (s1 s2 cwd : bytes) : option Z :=
  if Bool.eqb (starts_slash s1) (starts_slash s2)
  then snd <$> swlib_dir_compare (s1 ++ [NUL]) (s2 ++ [NUL]) SWC_FC_NOOP
  else
    tmp ← strob_open 100;
    '(tmp, r) ← form_abspath tmp s1 cwd;
    if r =? 0
    then snd <$> swlib_dir_compare (str_ tmp) (s2 ++ [NUL]) SWC_FC_NOOP
    else '(tmp, r) ← form_abspath tmp s2 cwd;
         if r =? 0 then snd <$> swlib_dir_compare (s1 ++ [NUL]) (str_ tmp) SWC_FC_NOOP
         else None.
End StrobPaths.

(** ** Checks on a path or a tag

    [None] as an argument is NULL. *)

Definition SWBIS_TAINTED_CHARS : bytes := "'"%char :: "034"%char :: L "|*?;&<>`$[]".
Definition SWBIS_WS_TAINTED_CHARS : bytes := ["010"; "013"; "009"; " "]%char.

Definition found {A} (r : option A) (n : Z) : Z := match r with Some _ => n | None => 0 end.

Definition swlib_is_sh_tainted_string (s : option bytes) : Z :=
  match s with None => 0 | Some s => found (strpbrk s SWBIS_TAINTED_CHARS) 1 end.

Definition swlib_check_safe_path (s : option bytes) : Z :=
  match s with
  | None => 1
  | Some s =>
      if zlen s =? 0 then 5
      else match strstr s (L ".."), strchr s " "%char with
           | Some _, _ => 6
           | None, Some _ => 7
           | None, None => swlib_is_sh_tainted_string (Some s)
           end
  end.

Definition swlib_check_clean_path (s : option bytes) : Z :=
  match s with
  | None => 1
  | Some s =>
      if zlen s =? 0 then 2
      else match strstr s (L "//"), strstr s (L ".."), strchr s " "%char with
           | Some _, _, _ => 3
           | None, Some _, _ => 4
           | None, None, Some _ => 5
           | None, None, None =>
               if negb (swlib_is_sh_tainted_string (Some s) =? 0) then 6
               else found (strpbrk s SWBIS_WS_TAINTED_CHARS) 7
           end
  end.

Definition swlib_check_clean_absolute_path (s : option bytes) : Z :=
  match s with
  | None => 1
  | Some t => if zlen t =? 0 then 2 else if negb (starts_slash t) then 3 else swlib_check_clean_path s
  end.

Definition swlib_check_clean_relative_path (s : option bytes) : Z :=
  match s with
  | None => 1
  | Some t => if starts_slash t then 2 else swlib_check_clean_path s
  end.

Definition swlib_check_legal_tag_value (s : option bytes) : Z :=
  match s with None => 0 | Some s => found (strpbrk s (L ":.,")) 1 end.

Definition squash_tag_char (c : ascii) : ascii :=
  if mem_char c (L ".,:") then "_"%char else c.

Definition swlib_squash_illegal_tag_chars (s : bytes) : bytes := squash_tag_char <$> s.

(** A signed char outside 33 .. 126. *)
Definition unprintable (c : ascii) : bool := (uchar c >? 126) || (uchar c <? 33).

Definition swlib_printable_safe_ascii (sf : bytes) : bytes :=
  (fun c => if unprintable c then "."%char else c) <$> sf.

Definition swlib_is_ascii_noaccept (str : option bytes) (acc : bytes) (minlen : Z) : Z :=
  match str with
  | None => 1
  | Some s => if zlen s <? minlen then 1
              else if negb (found (strpbrk s acc) 1 =? 0) then 1
              else if existsb unprintable s then 1 else 0
  end.

(** The number of characters replaced; [to] and [from] are the characters. *)
Definition swlib_tr (src : bytes) (to from : ascii) : bytes * Z :=
  ((fun c => if ceq c from then to else c) <$> src,
   Z.of_nat (length (filter (fun c => ceq c from = true) src))).
