(* ===== verification/PathSpec.v ===== *)
(** * Specification of the pathname functions

    [edited m s m' s']: the buffer [m] held the text [s]; editing it in place
    gave the buffer [m'] with the text [s'], touching nothing behind the old
    text.  What a path means is its list of [names] and whether it starts with
    a slash. *)

From S2P Require Import Prelude CString Strob StrobSpec Pathname.

(** ** In-place edits *)

Record edited (m s m' s' : bytes) : Prop := {
  ed_holds : holds m' 0 s';
  ed_length : length m' = length m;
  ed_frame : forall i, (length s <= i)%nat -> m' !! i = m !! i;
  ed_shorter : (length s' <= length s)%nat;
}.

Lemma edited_refl m s : holds m 0 s -> edited m s m s.
Proof. intros H. by split. Qed.

Lemma edited_trans m s m1 s1 m2 s2 :
  edited m s m1 s1 -> edited m1 s1 m2 s2 -> edited m s m2 s2.
Proof.
  intros [H1 L1 F1 S1] [H2 L2 F2 S2]. split; [done|lia| |lia].
  intros i Hi. rewrite F2 by lia. by apply F1.
Qed.

#[export] Hint Resolve edited_refl : path.

Lemma holds_text_of m s : holds m 0 s -> text_of m = Some s.
Proof. intros H. by apply str_at_0_holds. Qed.

Lemma holds_room m s : holds m 0 s -> zlen s < zlen m.
Proof. intros H. pose proof (holds_bound _ _ _ H). unfold zlen. lia. Qed.

Lemma holds_at m s k : holds m 0 s -> (k <= length s)%nat -> holds m k (drop k s).
Proof.
  intros H Hk. rewrite <- (take_drop k s) in H. apply holds_suffix in H.
  rewrite length_take in H. by replace (0 + k `min` length s)%nat with k in H by lia.
Qed.

Lemma str_at_drop m s k : holds m 0 s -> 0 <= k <= zlen s -> str_at m k = Some (drop (Z.to_nat k) s).
Proof.
  intros H Hk. apply str_at_holds; [lia|]. apply holds_at; [done|]. unfold zlen in Hk. lia.
Qed.

Lemma strlen_at_drop m s k : holds m 0 s -> 0 <= k <= zlen s -> strlen_at m k = Some (zlen s - k).
Proof.
  intros H Hk. unfold strlen_at. rewrite (str_at_drop _ _ _ H Hk). cbn.
  f_equal. rewrite zlen_drop by (unfold zlen in *; lia). lia.
Qed.

Lemma holds_no_nul m s : holds m 0 s -> no_nul s.
Proof. by intros [? _]. Qed.

Lemma edit_cut m s i :
  holds m 0 s -> (i < length s)%nat ->
  exists m', mem_write m (Z.of_nat i) [NUL] = Some m' /\ edited m s m' (take i s).
Proof.
  intros H Hi. pose proof (holds_room _ _ H).
  destruct (mem_write_exists m (Z.of_nat i) [NUL]) as [m' E];
    [lia|rewrite zlen_cons, zlen_nil; unfold zlen in *; lia|].
  exists m'. split; [done|]. split.
  - eapply holds_cut; [exact H|lia|exact E].
  - exact (mem_write_length _ _ _ _ E).
  - intros j Hj. eapply mem_write_last; [exact E|]. rewrite zlen_cons, zlen_nil. lia.
  - rewrite length_take. lia.
Qed.

(** Moving the rest of the text and its NUL over a part of it. *)
Lemma edit_move m pre cut post :
  holds m 0 (pre ++ cut ++ post) -> cut <> [] ->
  exists m', memmove m (zlen pre) (zlen pre + zlen cut) (zlen post + 1) = Some m'
    /\ edited m (pre ++ cut ++ post) m' (pre ++ post).
Proof.
  intros H Hcut. pose proof H as (Hn & H1 & H2). pose proof (holds_bound _ _ _ H) as Hb.
  rewrite !length_app in Hb, H2.
  assert (Hc : (0 < length cut)%nat) by (destruct cut; [done|cbn; lia]).
  unfold memmove, zlen. ztest. set (bs := take _ _).
  assert (Hbs : bs = post ++ [NUL]).
  { subst bs. pose proof (holds_at m _ (length pre + length cut) H) as Hp.
    rewrite !length_app in Hp. specialize (Hp ltac:(lia)).
    rewrite app_assoc, drop_app_length' in Hp by (rewrite length_app; lia).
    apply holds_drop in Hp.
    replace (Z.to_nat (Z.of_nat (length pre) + _)) with (length pre + length cut)%nat by lia.
    rewrite Hp. replace (Z.to_nat (_ + 1)) with (length post + 1)%nat by lia.
    rewrite cons_middle, app_assoc. rewrite take_app_length'; [done|]. rewrite length_app. cbn. lia. }
  destruct (mem_write_exists m (zlen pre) bs) as [m' E];
    [apply zlen_nonneg|rewrite Hbs, zlen_snoc; unfold zlen; lia|].
  unfold zlen in E. rewrite E. exists m'. split; [done|].
  assert (Hpost : holds m' (length pre) post).
  { rewrite Hbs in E. apply holds_write in E; [by rewrite Nat2Z.id in E|].
    apply no_nul_app in Hn as [_ Hn]. by apply no_nul_app in Hn as [_ ?]. }
  split.
  - destruct Hpost as (Hp1 & Hp2 & Hp3). apply no_nul_app in Hn as [Hpre _]. split; [by apply no_nul_app|].
    split; [|rewrite length_app; exact Hp3]. intros i Hi. cbn [Nat.add].
    destruct (decide (i < length pre)%nat).
    + rewrite (mem_write_lookup _ _ _ _ i E), decide_False by lia.
      rewrite lookup_app_l by done. specialize (H1 i). cbn [Nat.add] in H1.
      rewrite H1 by (rewrite !length_app; lia). by apply lookup_app_l.
    + rewrite lookup_app_r by lia. rewrite length_app in Hi.
      rewrite <- Hp2 by lia. f_equal. lia.
  - exact (mem_write_length _ _ _ _ E).
  - intros i Hi. rewrite !length_app in Hi. eapply mem_write_last; [exact E|].
    rewrite Hbs, zlen_snoc. unfold zlen. lia.
  - rewrite !length_app. lia.
Qed.

(** ** strstr *)

Lemma is_prefix_spec p s : is_prefix p s = true <-> exists r, s = p ++ r.
Proof.
  revert s. induction p as [|c p IH]; intros [|d s]; cbn.
  - split; [by exists []|done].
  - split; [by exists (d :: s)|done].
  - split; [done|by intros [r ?]].
  - rewrite andb_true_iff, ceq_eq, IH. split.
    + intros [-> [r ->]]. by exists r.
    + intros [r [= -> ->]]. split; [done|by exists r].
Qed.

Lemma strstr_Some s n i : strstr s n = Some i -> s = take i s ++ n ++ drop (i + length n) s.
Proof.
  revert i. induction s as [|c s IH]; intros i; cbn [strstr].
  - destruct (is_prefix n []) eqn:E; [|done]. intros [= <-]. apply is_prefix_spec in E as [r E].
    symmetry in E. apply app_nil in E as [-> ->]. done.
  - destruct (is_prefix n (c :: s)) eqn:E.
    + intros [= <-]. apply is_prefix_spec in E as [r E]. rewrite E at 1. cbn [take Nat.add app].
      f_equal. rewrite E. by rewrite drop_app_length.
    + destruct (strstr s n) as [j|]; [|done]. intros [= <-]. cbn. f_equal. by apply IH.
Qed.

Lemma strstr_bound s n i : strstr s n = Some i -> (i + length n <= length s)%nat.
Proof.
  revert i. induction s as [|c s IH]; intros i; cbn [strstr].
  - destruct (is_prefix n []) eqn:E; [|done]. intros [= <-]. apply is_prefix_spec in E as [r E].
    symmetry in E. apply app_nil in E as [-> ->]. done.
  - destruct (is_prefix n (c :: s)) eqn:E.
    + intros [= <-]. apply is_prefix_spec in E as [r ->]. rewrite length_app. lia.
    + destruct (strstr s n) as [j|] eqn:Ej; [|done]. intros [= <-]. cbn.
      pose proof (IH j eq_refl). lia.
Qed.

(** The split at an occurrence. *)
Lemma strstr_split s n i :
  strstr s n = Some i -> exists pre post, s = pre ++ n ++ post /\ length pre = i.
Proof.
  intros E. exists (take i s), (drop (i + length n) s). split; [by apply strstr_Some|].
  pose proof (strstr_bound _ _ _ E). rewrite length_take. lia.
Qed.

Lemma strstr_0 s n : strstr s n = Some O <-> exists r, s = n ++ r.
Proof.
  destruct s as [|c s]; cbn [strstr].
  - destruct (is_prefix n []) eqn:E.
    + apply is_prefix_spec in E. by split.
    + split; [done|]. intros H. apply is_prefix_spec in H. congruence.
  - destruct (is_prefix n (c :: s)) eqn:E.
    + apply is_prefix_spec in E. by split.
    + split; [by destruct (strstr s n)|]. intros H. apply is_prefix_spec in H. congruence.
Qed.

Lemma strstr_None_app s n pre post : strstr s n = None -> s = pre ++ n ++ post -> False.
Proof.
  intros E ->. induction pre as [|c pre IH]; cbn [app] in *.
  - assert (strstr (n ++ post) n = Some O) by (apply strstr_0; by exists post). congruence.
  - apply IH. cbn [strstr] in E. destruct (is_prefix n _); [done|].
    by destruct (strstr (pre ++ n ++ post) n).
Qed.

(** ** What a path names *)

Definition names (s : bytes) : list bytes :=
  List.filter (fun t => negb (streq t (L "."))) (tokens is_slash s).

Definition no_slash (s : bytes) : Prop := Forall (fun c => is_slash c = false) s.

Lemma tokens_app_slash a b : tokens is_slash (a ++ slash :: b) = tokens is_slash a ++ tokens is_slash b.
Proof.
  assert (Hf : forall x, fields is_slash (x ++ slash :: b) = fields is_slash x ++ fields is_slash b).
  { induction x as [|c x IH]; [done|]. cbn [app fields]. rewrite IH. destruct (is_slash c); [done|].
    assert (Hne : fields is_slash x <> []).
    { destruct x as [|y x]; [done|]. cbn. destruct (is_slash y); [done|]. by destruct (fields is_slash x). }
    by destruct (fields is_slash x). }
  unfold tokens. by rewrite Hf, List.filter_app.
Qed.

Lemma names_app_slash a b : names (a ++ slash :: b) = names a ++ names b.
Proof. unfold names. by rewrite tokens_app_slash, List.filter_app. Qed.

Lemma names_slash b : names (slash :: b) = names b.
Proof. apply (names_app_slash [] b). Qed.

Lemma names_snoc_slash a : names (a ++ [slash]) = names a.
Proof. rewrite names_app_slash. apply app_nil_r. Qed.

Lemma names_dot_slash b : names (L "./" ++ b) = names b.
Proof. apply (names_app_slash (L ".") b). Qed.

(** ** Squashing *)

(** Every run of slashes becomes one. *)
Fixpoint squeeze (s : bytes) : bytes :=
  match s with
  | c :: r => if is_slash c && starts_slash r then squeeze r else c :: squeeze r
  | [] => []
  end.

Lemma is_slash_eq c : is_slash c = true <-> c = slash.
Proof. apply ceq_eq. Qed.

Lemma squeeze_starts s : starts_slash (squeeze s) = starts_slash s.
Proof.
  induction s as [|c s IH]; [done|]. cbn [squeeze]. destruct (is_slash c) eqn:E; cbn [andb].
  - destruct (starts_slash s) eqn:E2; [|done]. rewrite IH. cbn. by rewrite E.
  - done.
Qed.

Lemma squeeze_app_slashes pre post :
  squeeze (pre ++ L "//" ++ post) = squeeze (pre ++ L "/" ++ post).
Proof.
  induction pre as [|c pre IH]; [done|]. cbn [app squeeze]. rewrite IH.
  destruct (is_slash c); [|done]. by destruct pre.
Qed.

Lemma squeeze_id s : strstr s (L "//") = None -> squeeze s = s.
Proof.
  induction s as [|c s IH]; [done|]. cbn [strstr squeeze].
  destruct (is_prefix (L "//") (c :: s)) eqn:E; [done|].
  destruct (strstr s (L "//")); [done|]. intros _. rewrite (IH eq_refl).
  destruct (is_slash c) eqn:Ec; [|done]. destruct s as [|d s]; [done|]. cbn [starts_slash].
  destruct (is_slash d) eqn:Ed; [|done]. apply is_slash_eq in Ec as ->, Ed as ->. done.
Qed.

Lemma names_squeeze s : names (squeeze s) = names s.
Proof.
  remember (length s) as n eqn:Hn. revert s Hn. induction n as [n IH] using lt_wf_ind. intros s ->.
  destruct (strstr s (L "//")) as [i|] eqn:E; [|by rewrite squeeze_id].
  destruct (strstr_split _ _ _ E) as (pre & post & -> & _).
  rewrite squeeze_app_slashes. erewrite IH; [|shelve|reflexivity].
  cbn [app L list_ascii_of_string]. by rewrite !(names_app_slash pre).
  Unshelve. rewrite !length_app. cbn. lia.
Qed.

Lemma no_double_slash_squeeze s : strstr (squeeze s) (L "//") = None.
Proof.
  induction s as [|c s IH]; [done|]. cbn [squeeze]. destruct (is_slash c && starts_slash s) eqn:E; [done|].
  cbn [strstr]. rewrite IH. destruct (is_prefix (L "//") (c :: squeeze s)) eqn:Ep; [|done].
  apply is_prefix_spec in Ep as [r [= -> Er]]. pose proof (squeeze_starts s) as Hs.
  rewrite Er in Hs. cbn in Hs. by rewrite <- Hs in E.
Qed.

Lemma squash_double_slash_loop_spec fuel : forall m s,
  holds m 0 s -> (length s < fuel)%nat ->
  exists m', squash_double_slash_loop fuel m = Some m' /\ edited m s m' (squeeze s).
Proof.
  induction fuel as [|fuel IH]; intros m s H Hf; [lia|].
  cbn [squash_double_slash_loop]. rewrite (holds_text_of _ _ H). obind.
  destruct (strstr s (L "//")) as [i|] eqn:E.
  - destruct (strstr_split _ _ _ E) as (pre & post & -> & <-).
    change (pre ++ L "//" ++ post) with (pre ++ [slash] ++ (slash :: post)) in *.
    fold (zlen pre). rewrite (strlen_at_drop _ _ _ H)
      by (unfold zlen; rewrite !length_app; cbn [length]; lia).
    obind. destruct (edit_move m pre [slash] (slash :: post) H ltac:(discriminate)) as (m1 & E1 & ED).
    replace (zlen (pre ++ [slash] ++ slash :: post) - zlen pre) with (zlen (slash :: post) + 1)
      by (unfold zlen; rewrite !length_app; cbn [length]; lia).
    change (zlen [slash]) with 1 in E1. rewrite E1. obind.
    destruct (IH m1 (pre ++ slash :: post)) as (m2 & -> & ED2).
    { apply ED. }
    { rewrite !length_app in *. cbn [length] in *. lia. }
    exists m2. split; [done|].
    replace (squeeze (pre ++ [slash] ++ slash :: post)) with (squeeze (pre ++ slash :: post))
      by (symmetry; apply squeeze_app_slashes).
    by eapply edited_trans.
  - exists m. split; [done|]. rewrite (squeeze_id _ E). auto with path.
Qed.

Lemma squash_double_slash_spec m s :
  holds m 0 s -> exists m', swlib_squash_double_slash m = Some m' /\ edited m s m' (squeeze s).
Proof.
  intros H. apply squash_double_slash_loop_spec; [done|].
  pose proof (holds_bound _ _ _ H) as Hb. cbn in Hb. lia.
Qed.

(** A leading "./" goes when something follows it. *)
Definition strip_dot_slash (s : bytes) : bytes :=
  if (zlen s >=? 3) && is_prefix (L "./") s then drop 2 s else s.

Lemma strncmp_prefix s p n :
  no_nul s -> no_nul p -> length p = n -> (strncmp s p n =? 0) = is_prefix p s.
Proof.
  intros Hs Hp <-. unfold strncmp. rewrite (take_ge p) by lia.
  destruct (is_prefix p s) eqn:E.
  - apply is_prefix_spec in E as [r ->]. by rewrite take_app_length, strcmp_refl.
  - apply Z.eqb_neq. rewrite strcmp_eq by auto using no_nul_take. intros Et.
    assert (is_prefix p s = true); [|congruence]. apply is_prefix_spec.
    exists (drop (length p) s). rewrite <- Et at 1. by rewrite take_drop.
Qed.

Lemma squash_leading_dot_slash_spec m s :
  holds m 0 s -> exists m', swlib_squash_leading_dot_slash m = Some m' /\ edited m s m' (strip_dot_slash s).
Proof.
  intros H. unfold swlib_squash_leading_dot_slash, strip_dot_slash. rewrite (holds_text_of _ _ H). obind.
  rewrite strncmp_prefix; [|by eapply holds_no_nul|by apply no_nul_compute|done].
  destruct ((zlen s >=? 3) && is_prefix (L "./") s) eqn:E; [|eauto with path].
  apply andb_true_iff in E as [El Ep]. zbool. apply is_prefix_spec in Ep as [r ->].
  rewrite (strlen_at_drop _ _ _ H) by lia. obind.
  destruct (edit_move m [] (L "./") r H ltac:(discriminate)) as (m1 & E1 & ED).
  exists m1. split; [|exact ED]. rewrite <- E1. f_equal. rewrite zlen_app. change (zlen (L "./")) with 2. lia.
Qed.


Lemma last_snoc_inv (s : bytes) c : last s = Some c -> s = take (length s - 1) s ++ [c].
Proof.
  destruct s as [|x s _] using rev_ind; [done|]. rewrite last_snoc. intros [= ->].
  rewrite length_app. cbn [length]. replace (length s + 1 - 1)%nat with (length s) by lia.
  by rewrite take_app_length.
Qed.

Definition ends_with (c : ascii) (s : bytes) : bool :=
  match last s with Some d => ceq d c | None => false end.

Lemma ends_with_inv c s : ends_with c s = true -> exists r, s = r ++ [c].
Proof.
  unfold ends_with. destruct (last s) as [d|] eqn:E; [|done]. intros ->%ceq_eq.
  apply last_snoc_inv in E. eauto.
Qed.

Lemma ends_with_snoc c d s : ends_with c (s ++ [d]) = ceq d c.
Proof. unfold ends_with. by rewrite last_snoc. Qed.

(** The text without its last character when that is [c]. *)
Definition chop (c : ascii) (min : Z) (s : bytes) : bytes :=
  if (zlen s >? min) && ends_with c s then take (length s - 1) s else s.

Lemma chop_snoc c min s : min <= zlen s -> chop c min (s ++ [c]) = s.
Proof.
  intros H. unfold chop. rewrite ends_with_snoc, ceq_refl, zlen_snoc. ztest.
  rewrite length_app. cbn [length]. replace (length s + 1 - 1)%nat with (length s) by lia.
  by rewrite take_app_length.
Qed.

Lemma chop_cases c min s : 0 <= min ->
  (chop c min s = s /\ (zlen s >? min) && ends_with c s = false)
  \/ exists r, s = r ++ [c] /\ chop c min s = r /\ min <= zlen r.
Proof.
  intros Hm. unfold chop. destruct ((zlen s >? min) && ends_with c s) eqn:E; [right|by left].
  apply andb_true_iff in E as [El Ee]. zbool. apply ends_with_inv in Ee as [r ->].
  rewrite zlen_snoc in El. exists r. split; [done|]. split; [|lia].
  rewrite length_app. cbn [length]. replace (length r + 1 - 1)%nat with (length r) by lia.
  by rewrite take_app_length.
Qed.

Lemma squash_trailing_char_spec m s c min :
  holds m 0 s -> 0 <= min ->
  exists m' r, squash_trailing_char m c min = Some (m', r) /\ edited m s m' (chop c min s)
    /\ r = if (zlen s >? min) && ends_with c s then 0 else 1.
Proof.
  intros H Hm. unfold squash_trailing_char. rewrite (holds_text_of _ _ H). obind.
  unfold chop. fold (ends_with c s). destruct ((zlen s >? min) && ends_with c s) eqn:E.
  - apply andb_true_iff in E as [El _]. zbool.
    destruct (edit_cut m s (length s - 1) H) as (m' & E & ED); [unfold zlen in *; lia|].
    replace (Z.of_nat (length s - 1)) with (zlen s - 1) in E by (unfold zlen in *; lia).
    rewrite E. obind. eauto.
  - eexists _, _. split; [done|]. auto with path.
Qed.

Lemma squash_trailing_slash_spec m s :
  holds m 0 s -> exists m', swlib_squash_trailing_slash m = Some m' /\ edited m s m' (chop slash 1 s).
Proof.
  intros H. unfold swlib_squash_trailing_slash.
  destruct (squash_trailing_char_spec m s slash 1 H) as (m' & r & -> & ED & _); [lia|]. eauto.
Qed.

Lemma names_chop s : names (chop slash 1 s) = names s.
Proof.
  destruct (chop_cases slash 1 s) as [[-> _]|(r & -> & -> & _)]; [lia|done|].
  by rewrite names_snoc_slash.
Qed.

Lemma names_strip_dot_slash s : names (strip_dot_slash s) = names s.
Proof.
  unfold strip_dot_slash. destruct (_ && is_prefix (L "./") s) eqn:E; [|done].
  apply andb_true_iff in E as [_ Ep]. apply is_prefix_spec in Ep as [r ->].
  by rewrite names_dot_slash.
Qed.

Lemma starts_chop s : starts_slash (chop slash 1 s) = starts_slash s.
Proof.
  destruct (chop_cases slash 1 s) as [[-> _]|(r & -> & -> & Hr)]; [lia|done|].
  destruct r; [rewrite zlen_nil in Hr; lia|done].
Qed.

Lemma strstr_mid s n a b : strstr (a ++ s ++ b) n = None -> strstr s n = None.
Proof.
  intros E. destruct (strstr s n) as [i|] eqn:Es; [|done].
  destruct (strstr_split _ _ _ Es) as (pre & post & -> & _).
  exfalso. eapply (strstr_None_app _ n (a ++ pre) (post ++ b)); [exact E|]. by rewrite !app_assoc.
Qed.

(** What swlib_slashclean leaves. *)
Definition clean (s : bytes) : bytes := chop slash 1 (strip_dot_slash (squeeze s)).

Lemma slashclean_spec m s :
  holds m 0 s -> exists m', swlib_slashclean m = Some m' /\ edited m s m' (clean s).
Proof.
  intros H. unfold swlib_slashclean, clean.
  destruct (squash_double_slash_spec m s H) as (m1 & -> & ED1). obind.
  destruct (squash_leading_dot_slash_spec m1 _ (ed_holds _ _ _ _ ED1)) as (m2 & -> & ED2). obind.
  destruct (squash_trailing_slash_spec m2 _ (ed_holds _ _ _ _ ED2)) as (m3 & -> & ED3).
  exists m3. split; [done|]. eauto using edited_trans.
Qed.

Lemma strip_dot_slash_sub s : exists a, s = a ++ strip_dot_slash s.
Proof.
  unfold strip_dot_slash. destruct (_ && is_prefix _ _); [|by exists []].
  exists (take 2 s). by rewrite take_drop.
Qed.

Lemma chop_sub c min s : 0 <= min -> exists b, s = chop c min s ++ b.
Proof.
  intros Hm. destruct (chop_cases c min s) as [[-> _]|(r & -> & -> & _)]; [done|exists []; by rewrite app_nil_r|by exists [c]].
Qed.

Lemma clean_facts s :
  names (clean s) = names s /\ starts_slash (clean s) = starts_slash s
  /\ strstr (clean s) (L "//") = None.
Proof.
  unfold clean. split; [by rewrite names_chop, names_strip_dot_slash, names_squeeze|].
  pose proof (no_double_slash_squeeze s) as Hd. split.
  - rewrite starts_chop. rewrite <- (squeeze_starts s). revert Hd. generalize (squeeze s) as t.
    intros t Hd. unfold strip_dot_slash. destruct ((zlen t >=? 3) && is_prefix (L "./") t) eqn:E; [|done].
    apply andb_true_iff in E as [_ Ep]. apply is_prefix_spec in Ep as [r ->]. cbn [L list_ascii_of_string app drop] in *.
    destruct r as [|c r]; [done|]. destruct (is_slash c) eqn:Ec; [|cbn; by rewrite Ec].
    apply is_slash_eq in Ec as ->. done.
  - destruct (strip_dot_slash_sub (squeeze s)) as [a Ha].
    destruct (chop_sub slash 1 (strip_dot_slash (squeeze s))) as [b Hb]; [lia|].
    eapply (strstr_mid _ _ a b). by rewrite <- Hb, <- Ha.
Qed.

(** ** Dot components *)

Lemma squash_embedded_spec m pre post :
  holds m 0 (pre ++ L "/./" ++ post) -> strstr (pre ++ L "/./" ++ post) (L "/./") = Some (length pre) ->
  exists m', swlib_squash_embedded_dot_slash m = Some m'
    /\ edited m (pre ++ L "/./" ++ post) m' (pre ++ L "/" ++ post).
Proof.
  intros H E. unfold swlib_squash_embedded_dot_slash. rewrite (holds_text_of _ _ H). obind. rewrite E.
  rewrite (strlen_at_drop _ _ _ H) by (unfold zlen; rewrite !length_app; cbn; lia). obind.
  change (pre ++ L "/./" ++ post) with (pre ++ [slash] ++ L "./" ++ post) in *.
  rewrite app_assoc in H |- *.
  destruct (edit_move m (pre ++ [slash]) (L "./") post H ltac:(discriminate)) as (m1 & E1 & ED).
  replace (pre ++ L "/" ++ post) with ((pre ++ [slash]) ++ post) by (by rewrite <- app_assoc).
  exists m1. split; [|exact ED]. rewrite <- E1.
  unfold zlen. rewrite !length_app. f_equal; cbn; lia.
Qed.

(** The result of removing every "/./". *)
Record undotted (s t : bytes) : Prop := {
  ud_names : names t = names s;
  ud_starts : starts_slash t = starts_slash s;
  ud_clean : strstr t (L "/./") = None;
  ud_same : strstr s (L "/./") = None -> t = s;
}.

Lemma squash_all_loop_spec fuel : forall m s,
  holds m 0 s -> (length s < fuel)%nat ->
  exists m' t, squash_all_loop fuel m = Some m' /\ edited m s m' t /\ undotted s t.
Proof.
  induction fuel as [|fuel IH]; intros m s H Hf; [lia|].
  cbn [squash_all_loop]. rewrite (holds_text_of _ _ H). obind.
  destruct (strstr s (L "/./")) as [i|] eqn:E.
  - destruct (strstr_split _ _ _ E) as (pre & post & -> & <-).
    destruct (squash_embedded_spec m pre post H E) as (m1 & -> & ED). obind.
    destruct (IH m1 (pre ++ L "/" ++ post)) as (m2 & t & -> & ED2 & [U1 U2 U3 _]).
    { apply ED. } { rewrite !length_app in *. cbn [length L list_ascii_of_string] in *. lia. }
    exists m2, t. split; [done|]. split; [by eapply edited_trans|]. split; [|rewrite U2; by destruct pre|done|by rewrite E].
    rewrite U1. cbn [app L list_ascii_of_string]. by rewrite !(names_app_slash pre).
  - exists m, s. split; [done|]. split; [auto with path|]. by split.
Qed.

Lemma squash_all_dot_slash_spec m s :
  holds m 0 s ->
  exists m' t, swlib_squash_all_dot_slash m = Some m' /\ edited m s m' t
    /\ undotted (strip_dot_slash s) t.
Proof.
  intros H. unfold swlib_squash_all_dot_slash.
  destruct (squash_leading_dot_slash_spec m s H) as (m1 & -> & ED1). obind.
  destruct (squash_all_loop_spec (S (length m1)) m1 _ (ed_holds _ _ _ _ ED1)) as (m2 & t & -> & ED2 & HU).
  { pose proof (holds_bound _ _ _ (ed_holds _ _ _ _ ED1)) as Hb. cbn in Hb. lia. }
  exists m2, t. split; [done|]. split; [by eapply edited_trans|done].
Qed.

(** ** Dropping and restoring the ends *)

Lemma drop_is_drop : drop_mode (L "drop") = true.
Proof. done. Qed.

Lemma restore_not_drop : drop_mode (L "restore") = false.
Proof. done. Qed.

(** The leading "./" that swlib_toggle_leading_dotslash drops. *)
Definition lead_dot (s : bytes) : bytes :=
  if is_prefix (L "./") s && (zlen s >? 2) then drop 2 s else s.
Definition trail_dot (s : bytes) : bytes :=
  if (1 <? zlen s) && streq (drop (length s - 2) s) (L "/.") then take (length s - 2) s else s.
Definition lead_slash (noab : bool) (s : bytes) : bytes :=
  if noab && starts_slash s && (zlen s >? 1) then drop 1 s else s.

(** What swlib_dir_compare compares of a path. *)
Definition core (noab : bool) (s : bytes) : bytes :=
  lead_dot (trail_dot (chop slash 1 (lead_slash noab s))).

Definition flag (b : bool) : Z := if b then 1 else 0.

Lemma toggle_leading_slash_drop m s :
  holds m 0 s ->
  exists m' (b : bool), swlib_toggle_leading_slash (L "drop") m 0 = Some (m', flag b)
    /\ edited m s m' (lead_slash true s)
    /\ (if b then s = slash :: lead_slash true s else s = lead_slash true s).
Proof.
  intros H. unfold swlib_toggle_leading_slash, lead_slash. rewrite (holds_text_of _ _ H). obind.
  rewrite drop_is_drop. destruct (starts_slash s && (zlen s >? 1)) eqn:E; cbn [andb].
  - rewrite E. apply andb_true_iff in E as [Es _]. destruct s as [|c r]; [done|]. apply is_slash_eq in Es as ->.
    destruct (edit_move m [] [slash] r H ltac:(discriminate)) as (m1 & E1 & ED).
    rewrite zlen_cons, Z.add_comm. change (zlen []) with 0 in E1. change (0 + zlen [slash]) with 1 in E1.
    rewrite E1. obind. exists m1, true. split; [done|]. split; [exact ED|done].
  - rewrite E. exists m, false. split; [done|]. split; [auto with path|done].
Qed.

Lemma toggle_trailing_slash_drop m s :
  holds m 0 s ->
  exists m' (b : bool), swlib_toggle_trailing_slash (L "drop") m 0 = Some (m', flag b)
    /\ edited m s m' (chop slash 1 s)
    /\ (if b then s = chop slash 1 s ++ [slash] else s = chop slash 1 s).
Proof.
  intros H. unfold swlib_toggle_trailing_slash. rewrite (holds_text_of _ _ H). obind.
  rewrite drop_is_drop. fold (ends_with slash s).
  change (match last s with Some c => is_slash c | None => false end) with (ends_with slash s).
  destruct (chop_cases slash 1 s) as [[E1 E2]|(r & -> & E & Hr)]; [lia| |].
  - rewrite E1, E2. exists m, false. split; [done|]. split; [auto with path|done].
  - rewrite E, ends_with_snoc, ceq_refl, zlen_snoc. ztest.
    destruct (edit_cut m (r ++ [slash]) (length r) H) as (m1 & Em & ED); [rewrite length_app; cbn; lia|].
    rewrite take_app_length in ED. fold (zlen r) in Em. replace (zlen r + 1 - 1) with (zlen r) by lia.
    rewrite Em. obind. exists m1, true. split; [done|]. split; [exact ED|done].
Qed.

Lemma toggle_trailing_slashdot_drop m s :
  holds m 0 s ->
  exists m' (b : bool), swlib_toggle_trailing_slashdot (L "drop") m 0 = Some (m', flag b)
    /\ edited m s m' (trail_dot s)
    /\ (if b then s = trail_dot s ++ L "/." else s = trail_dot s).
Proof.
  intros H. unfold swlib_toggle_trailing_slashdot, trail_dot. rewrite (holds_text_of _ _ H). obind.
  rewrite drop_is_drop. destruct (zlen s <? 2) eqn:E1; zbool.
  { assert ((1 <? zlen s) = false) as -> by (apply Z.ltb_ge; lia). cbn [andb].
    exists m, false. split; [done|]. split; [auto with path|done]. }
  assert ((1 <? zlen s) = true) as -> by (apply Z.ltb_lt; lia). cbn [andb].
  rewrite (str_at_drop _ _ _ H) by lia. obind.
  replace (Z.to_nat (zlen s - 2)) with (length s - 2)%nat by (unfold zlen; lia).
  destruct (streq (drop (length s - 2) s) (L "/.")) eqn:E2.
  - destruct (edit_cut m s (length s - 2) H) as (m1 & Em & ED); [unfold zlen in *; lia|].
    replace (Z.of_nat (length s - 2)) with (zlen s - 2) in Em by (unfold zlen in *; lia).
    rewrite Em. obind. exists m1, true. split; [done|]. split; [exact ED|].
    apply streq_eq in E2; [|by apply no_nul_drop; eapply holds_no_nul|by apply no_nul_compute].
    rewrite <- E2. by rewrite take_drop.
  - exists m, false. split; [done|]. split; [auto with path|done].
Qed.

Lemma toggle_leading_dotslash_drop m s :
  holds m 0 s ->
  exists m' (b : bool), swlib_toggle_leading_dotslash (L "drop") m 0 = Some (m', flag b)
    /\ edited m s m' (lead_dot s)
    /\ (if b then s = L "./" ++ lead_dot s /\ lead_dot s <> [] else s = lead_dot s).
Proof.
  intros H. unfold swlib_toggle_leading_dotslash, lead_dot. rewrite (holds_text_of _ _ H). obind.
  rewrite drop_is_drop. rewrite strncmp_prefix; [|by eapply holds_no_nul|by apply no_nul_compute|done].
  destruct (zlen s <? 2) eqn:E1; zbool.
  { assert ((zlen s >? 2) = false) as -> by (rewrite Z.gtb_ltb; apply Z.ltb_ge; lia). rewrite andb_false_r.
    exists m, false. split; [done|]. split; [auto with path|done]. }
  destruct (is_prefix (L "./") s && (zlen s >? 2)) eqn:E2.
  - apply andb_true_iff in E2 as [Ep El]. apply is_prefix_spec in Ep as [r ->]. zbool.
    destruct (edit_move m [] (L "./") r H ltac:(discriminate)) as (m1 & E & ED).
    replace (zlen (L "./" ++ r) - 1) with (zlen r + 1) by (rewrite zlen_app; change (zlen (L "./")) with 2; lia).
    change (zlen []) with 0 in E. change (0 + zlen (L "./")) with 2 in E. rewrite E. obind.
    exists m1, true. split; [done|]. split; [exact ED|]. split; [done|].
    change (drop 2 (L "./" ++ r)) with (drop 0 r). rewrite drop_0. intros ->. vm_compute in El. done.
  - exists m, false. split; [done|]. split; [auto with path|done].
Qed.

(** [grown m s m' s' k]: the edit put [s'] in place of [s] and touched nothing
    behind the first [k] bytes. *)
Record grown (m m' s' : bytes) (k : nat) : Prop := {
  gr_holds : holds m' 0 s';
  gr_length : length m' = length m;
  gr_frame : forall i, (k < i)%nat -> m' !! i = m !! i;
}.

Lemma grown_refl m s k : holds m 0 s -> grown m m s k.
Proof. by split. Qed.

Lemma write_append m s bs :
  holds m 0 s -> no_nul bs -> (length s + length bs < length m)%nat ->
  exists m', mem_write m (zlen s) (bs ++ [NUL]) = Some m'
    /\ grown m m' (s ++ bs) (length s + length bs).
Proof.
  intros H Hbs Hl. destruct (mem_write_exists m (zlen s) (bs ++ [NUL])) as [m' E];
    [apply zlen_nonneg|rewrite zlen_snoc; unfold zlen; lia|].
  exists m'. split; [done|]. split.
  - by eapply strcat_holds.
  - exact (mem_write_length _ _ _ _ E).
  - intros i Hi. eapply mem_write_last; [exact E|]. rewrite zlen_snoc. unfold zlen. lia.
Qed.

(** Making room for [k] bytes in front of the text. *)
Lemma memmove_front m s k :
  holds m 0 s -> (length s + k < length m)%nat ->
  exists m1, memmove m (Z.of_nat k) 0 (zlen s + 1) = Some m1 /\ length m1 = length m
    /\ holds m1 k s /\ forall i, (k + length s < i)%nat -> m1 !! i = m !! i.
Proof.
  intros H Hl. pose proof H as (Hs & H1 & H2). unfold memmove, zlen. ztest.
  assert (Hbs : take (Z.to_nat (Z.of_nat (length s) + 1)) (drop (Z.to_nat 0) m) = s ++ [NUL]).
  { replace (Z.to_nat (_ + 1)) with (length s + 1)%nat by lia. pose proof (holds_drop _ _ _ H) as E.
    change (Z.to_nat 0) with O. rewrite E, cons_middle, app_assoc.
    rewrite take_app_length'; [done|]. rewrite length_app. cbn. lia. }
  rewrite Hbs. destruct (mem_write_exists m (Z.of_nat k) (s ++ [NUL])) as [m1 E];
    [lia|rewrite zlen_snoc; unfold zlen; lia|].
  rewrite E. exists m1. split; [done|]. split; [exact (mem_write_length _ _ _ _ E)|]. split.
  - apply holds_write in E; [|done]. by rewrite Nat2Z.id in E.
  - intros i Hi. eapply mem_write_last; [exact E|]. rewrite zlen_snoc. unfold zlen. lia.
Qed.

(** Writing the bytes in front. *)
Lemma holds_front m1 m2 s p :
  holds m1 (length p) s -> no_nul p -> (forall i, (i < length p)%nat -> m2 !! i = p !! i) ->
  (forall i, (length p <= i)%nat -> m2 !! i = m1 !! i) -> holds m2 0 (p ++ s).
Proof.
  intros H Hp H1 H2. apply holds_app; [done|done|]. eapply holds_frame; [|exact H].
  intros i Hi. apply H2. lia.
Qed.

(** *** The four restorations *)

Lemma restore_leading_dotslash m s (b : bool) s' :
  holds m 0 s -> (if b then s' = L "./" ++ s /\ s <> [] else s' = s) -> (b = true -> s <> L ".") ->
  (length s' < length m)%nat ->
  exists m' f, swlib_toggle_leading_dotslash (L "restore") m (flag b) = Some (m', f)
    /\ grown m m' s' (length s').
Proof.
  intros H Hs' Hdot Hl. unfold swlib_toggle_leading_dotslash. rewrite (holds_text_of _ _ H). obind.
  rewrite restore_not_drop. destruct b; cbn [flag Z.eqb negb]; [|exists m, 0; subst; split; [done|by apply grown_refl]].
  destruct Hs' as [-> Hne]. rewrite length_app in Hl. cbn in Hl.
  assert (streq s (L ".") = false) as ->.
  { destruct (streq s (L ".")) eqn:E; [|done]. apply streq_eq in E;
      [|by eapply holds_no_nul|by apply no_nul_compute]. by destruct Hdot. }
  destruct (memmove_front m s 2 H) as (m1 & E1 & Hl1 & H1 & F1); [lia|].
  change (Z.of_nat 2) with 2 in E1. rewrite E1. obind.
  destruct (mem_write_exists m1 0 (L ".")) as [m2 E2]; [done|unfold zlen; cbn; lia|]. rewrite E2. obind.
  pose proof (mem_write_length _ _ _ _ E2) as Hl2.
  destruct (mem_write_exists m2 1 (L "/")) as [m3 E3]; [done|unfold zlen; cbn; lia|]. rewrite E3. obind.
  pose proof (mem_write_length _ _ _ _ E3) as Hl3.
  exists m3, 0. split; [done|].
  pose proof (fun i => mem_write_lookup _ _ _ _ i E2) as L2. pose proof (fun i => mem_write_lookup _ _ _ _ i E3) as L3.
  change (zlen (L ".")) with 1 in L2. change (zlen (L "/")) with 1 in L3.
  assert (Hhi : forall i, (2 <= i)%nat -> m3 !! i = m1 !! i).
  { intros i Hi. by rewrite L3, decide_False, L2, decide_False by lia. }
  split; [|lia|].
  - apply (holds_front m1 m3 s (L "./")); [done|by apply no_nul_compute| |done].
    intros [|[|i]] Hi; [|by rewrite L3, decide_True by lia|cbn in Hi; lia].
    by rewrite L3, decide_False, L2, decide_True by lia.
  - intros i Hi. rewrite length_app in Hi. cbn in Hi. rewrite Hhi by lia. apply F1. lia.
Qed.

Lemma restore_trailing_slashdot m s (b : bool) s' :
  holds m 0 s -> (if b then s' = s ++ L "/." else s' = s) -> (length s' < length m)%nat ->
  exists m' f, swlib_toggle_trailing_slashdot (L "restore") m (flag b) = Some (m', f)
    /\ grown m m' s' (length s').
Proof.
  intros H Hs' Hl. unfold swlib_toggle_trailing_slashdot. rewrite (holds_text_of _ _ H). obind.
  rewrite restore_not_drop. destruct b; cbn [flag Z.eqb negb]; subst s';
    [|exists m, 0; split; [done|by apply grown_refl]].
  rewrite length_app in Hl. destruct (write_append m s (L "/.") H) as (m' & -> & HG);
    [by apply no_nul_compute|cbn in *; lia|]. obind. exists m', 0. split; [done|]. by rewrite length_app.
Qed.

Lemma restore_trailing_slash m s (b : bool) s' :
  holds m 0 s -> (if b then s' = s ++ [slash] else s' = s) ->
  (b = true -> m !! (length s + 1)%nat = Some NUL) ->
  exists m' f, swlib_toggle_trailing_slash (L "restore") m (flag b) = Some (m', f)
    /\ grown m m' s' (length s').
Proof.
  intros H Hs' Hnul. unfold swlib_toggle_trailing_slash. rewrite (holds_text_of _ _ H). obind.
  rewrite restore_not_drop. destruct b; cbn [flag Z.eqb negb]; subst s';
    [|exists m, 0; split; [done|by apply grown_refl]].
  specialize (Hnul eq_refl). pose proof (lookup_lt_Some _ _ _ Hnul) as Hl.
  destruct (mem_write_exists m (zlen s) [slash]) as [m' E];
    [apply zlen_nonneg|rewrite zlen_cons, zlen_nil; unfold zlen; lia|].
  rewrite E. obind. exists m', 1. split; [done|].
  pose proof (fun i => mem_write_lookup _ _ _ _ i E) as LL. rewrite zlen_cons, zlen_nil in LL. unfold zlen in LL.
  pose proof H as (Hn & H1 & _). split; [|exact (mem_write_length _ _ _ _ E)|].
  - split; [apply no_nul_app; split; [done|by apply no_nul_compute]|]. rewrite length_app. cbn [length]. split.
    + intros i Hi. cbn [Nat.add]. rewrite LL. destruct (decide (i < length s)%nat).
      * rewrite decide_False by lia. rewrite lookup_app_l by done. by apply H1.
      * rewrite decide_True by lia. rewrite lookup_app_r by lia. f_equal. lia.
    + rewrite LL, decide_False by lia. exact Hnul.
  - intros i Hi. rewrite length_app in Hi. cbn in Hi. rewrite LL. by rewrite decide_False by lia.
Qed.

Lemma restore_leading_slash m s (b : bool) s' :
  holds m 0 s -> (if b then s' = slash :: s else s' = s) -> (length s' < length m)%nat ->
  exists m' f, swlib_toggle_leading_slash (L "restore") m (flag b) = Some (m', f)
    /\ grown m m' s' (length s').
Proof.
  intros H Hs' Hl. unfold swlib_toggle_leading_slash. rewrite (holds_text_of _ _ H). obind.
  rewrite restore_not_drop. change (streq (L "restore") (L "restore")) with true. cbn iota.
  destruct b; cbn [flag Z.eqb negb]; subst s'; [|exists m, 0; split; [done|by apply grown_refl]].
  cbn [length] in Hl.
  destruct (memmove_front m s 1 H) as (m1 & E1 & Hl1 & H1 & F1); [lia|].
  change (Z.of_nat 1) with 1 in E1. rewrite E1. obind.
  destruct (mem_write_exists m1 0 [slash]) as [m2 E2]; [done|unfold zlen; cbn; lia|]. rewrite E2. obind.
  exists m2, 0. split; [done|]. pose proof (fun i => mem_write_lookup _ _ _ _ i E2) as L2.
  change (zlen [slash]) with 1 in L2. pose proof (mem_write_length _ _ _ _ E2) as Hl2. split; [|lia|].
  - apply (holds_front m1 m2 s [slash]); [done|by apply no_nul_compute| |].
    + intros [|i] Hi; [by rewrite L2, decide_True by lia|cbn in Hi; lia].
    + intros i Hi. cbn in Hi. by rewrite L2, decide_False by lia.
  - intros i Hi. cbn in Hi. rewrite L2, decide_False by lia. apply F1. lia.
Qed.

(** The one shape swlib_dir_compare does not put back. *)
Definition unrestorable (noab : bool) (s : bytes) : Prop := chop slash 1 (lead_slash noab s) = L "././.".

Lemma trail_dot_exception s : trail_dot s = L "./." -> s = L "././.".
Proof.
  unfold trail_dot. destruct ((1 <? zlen s) && streq (drop (length s - 2) s) (L "/.")) eqn:E.
  - intros Ht. apply andb_true_iff in E as [E1 E2]. zbool.
    assert (Hs : s = take (length s - 2) s ++ drop (length s - 2) s) by (symmetry; apply take_drop).
    rewrite Ht in Hs.
    assert (drop (length s - 2) s = L "/." \/ strcmp (drop (length s - 2) s) (L "/.") <> 0) as [Hd|Hd].
    { pose proof (length_drop s (length s - 2)) as Hlen. unfold zlen in E1.
      destruct (drop (length s - 2) s) as [|x [|y [|z r]]]; cbn in Hlen; try lia.
      unfold streq in E2. zbool. cbn in E2 |- *. destruct (ceq x "/") eqn:Ex.
      - apply ceq_eq in Ex as ->. destruct (ceq y ".") eqn:Ey; [apply ceq_eq in Ey as ->; by left|].
        apply ceq_neq in Ey. right. intros E. apply Ey, uchar_inj. lia.
      - apply ceq_neq in Ex. right. intros E. apply Ex, uchar_inj. lia. }
    + rewrite Hd in Hs. exact Hs.
    + unfold streq in E2. zbool. done.
  - intros ->. done.
Qed.

(** One argument of swlib_dir_compare: its ends are dropped, and the buffer is
    as it was when they have been restored. *)
Lemma drop_restore m s noab :
  holds m 0 s -> ~ unrestorable noab s ->
  exists d, drop_ends noab m = Some d /\ text_of (d_path d) = Some (core noab s)
    /\ restore_ends noab d = Some m.
Proof.
  intros H Hex. unfold drop_ends, core.
  assert (exists m1 b1, (if noab then swlib_toggle_leading_slash (L "drop") m 0 else Some (m, 0)) = Some (m1, flag b1)
    /\ edited m s m1 (lead_slash noab s)
    /\ (if b1 then s = slash :: lead_slash noab s else s = lead_slash noab s) /\ (noab = false -> b1 = false))
    as (m1 & b1 & -> & ED1 & Hb1 & Hno).
  { destruct noab; [|exists m, false; by auto with path].
    destruct (toggle_leading_slash_drop m s H) as (m1 & b1 & ? & ? & ?). by exists m1, b1. }
  obind. set (s1 := lead_slash noab s) in *. pose proof ED1 as [H1 L1 F1 S1].
  destruct (toggle_trailing_slash_drop m1 s1 H1) as (m2 & b2 & -> & ED2 & Hb2). obind.
  unfold unrestorable in Hex. fold s1 in Hex. set (s2 := chop slash 1 s1) in *. pose proof ED2 as [H2 L2 F2 S2].
  destruct (toggle_trailing_slashdot_drop m2 s2 H2) as (m3 & b3 & -> & ED3 & Hb3). obind.
  pose proof (trail_dot_exception s2) as Hexc. set (s3 := trail_dot s2) in *. pose proof ED3 as [H3 L3 F3 S3].
  destruct (toggle_leading_dotslash_drop m3 s3 H3) as (m4 & b4 & -> & ED4 & Hb4). obind.
  set (s4 := lead_dot s3) in *. pose proof ED4 as [H4 L4 F4 S4].
  eexists. split; [done|]. cbn [d_path]. split; [by apply holds_text_of|].
  pose proof (holds_bound _ _ _ H) as Hroom. cbn in Hroom. unfold restore_ends. cbn [d_path leading_p trailing_p trailing_d leading_d].
  destruct (restore_leading_dotslash m4 s4 b4 s3 H4 Hb4) as (m5 & f5 & -> & [H5 L5 F5]); [|lia|].
  { intros -> E. destruct Hb4 as [Hb4 _]. rewrite E in Hb4. auto. }
  obind. destruct (restore_trailing_slashdot m5 s3 b3 s2 H5 Hb3) as (m6 & f6 & -> & [H6 L6 F6]); [lia|]. obind.
  destruct (restore_trailing_slash m6 s2 b2 s1 H6 Hb2) as (m7 & f7 & -> & [H7 L7 F7]).
  { intros ->. assert (length s1 = length s2 + 1)%nat by (rewrite Hb2, length_app; done).
    rewrite F6, F5, F4, F3, F2 by lia. destruct H1 as (_ & _ & Hnul).
    replace (length s2 + 1)%nat with (0 + length s1)%nat by lia. exact Hnul. }
  obind.
  assert (exists m8, (if noab then fst <$> swlib_toggle_leading_slash (L "restore") m7 (flag b1) else Some m7) = Some m8
    /\ grown m7 m8 s (length s)) as (m8 & -> & [H8 L8 F8]).
  { destruct noab.
    - destruct (restore_leading_slash m7 s1 b1 s H7 Hb1) as (m8 & f8 & -> & HG); [lia|]. by exists m8.
    - exists m7. split; [done|]. rewrite (Hno eq_refl) in Hb1. rewrite Hb1. by apply grown_refl. }
  f_equal. apply list_eq. intros i. destruct (decide (i <= length s)%nat) as [Hi|Hi].
  - destruct H as (_ & Ht & Hn), H8 as (_ & Ht8 & Hn8). cbn [Nat.add] in *.
    destruct (decide (i = length s)) as [->|]; [by rewrite Hn, Hn8|]. rewrite Ht, Ht8 by lia. done.
  - rewrite F8, F7, F6, F5, F4, F3, F2, F1 by lia. done.
Qed.

(** ** Paths in a STROB *)

Section StrobPathSpecs.
Context `{Malloc}.
Implicit Types (b : STROB) (t : bytes).

(** An in-place edit keeps the object well-formed. *)
Lemma text_edited b t m t' : text b t -> edited (str_ b) t m t' -> text (set_str m b) t'.
Proof.
  intros T [Hh Hl Hf Hs]. pose proof (text_reserve _ _ T) as Hr. destruct T as [W Ht Hlen].
  constructor; [|done|cbn; unfold zlen in *; lia]. destruct W. constructor; cbn; try done.
  - unfold zlen in *. lia.
  - rewrite Hf by (unfold zlen in *; lia). done.
Qed.

Lemma on_str_spec f b t t' :
  text b t -> (exists m', f (str_ b) = Some m' /\ edited (str_ b) t m' t') ->
  exists b', on_str f b = Some b' /\ text b' t' /\ same_setup b b' /\ length_ b' = length_ b.
Proof.
  intros T (m' & E & ED). unfold on_str. rewrite E. obind. eexists. split; [done|].
  split; [by eapply text_edited|]. by split.
Qed.

(** *** strrchr *)

Lemma strrchr_None s c : strrchr s c = None <-> Forall (fun d => ceq c d = false) s.
Proof.
  induction s as [|d s IH]; cbn; [by split|]. rewrite Forall_cons.
  destruct (strrchr s c); [split; [done|intros [_ HF]; by apply IH in HF]|].
  destruct (ceq c d); [split; [done|by intros [? _]]|]. split; [|done]. intros _. split; [done|by apply IH].
Qed.

Lemma strrchr_Some s c i :
  strrchr s c = Some i ->
  exists pre post, s = pre ++ c :: post /\ length pre = i /\ Forall (fun d => ceq c d = false) post.
Proof.
  revert i. induction s as [|d s IH]; intros i; cbn; [done|].
  destruct (strrchr s c) as [j|] eqn:E.
  - intros [= <-]. destruct (IH j eq_refl) as (pre & post & -> & <- & HF).
    exists (d :: pre), post. by split.
  - destruct (ceq c d) eqn:Ec; [|done]. intros [= <-]. apply ceq_eq in Ec as ->.
    exists [], s. split; [done|]. split; [done|]. by apply strrchr_None.
Qed.

Lemma strrchr_app pre c post :
  Forall (fun d => ceq c d = false) post -> strrchr (pre ++ c :: post) c = Some (length pre).
Proof.
  intros HF. induction pre as [|d pre IH]; cbn; [|by rewrite IH].
  apply strrchr_None in HF. by rewrite HF, ceq_refl.
Qed.

Lemma no_slash_strrchr x : no_slash x -> Forall (fun d => ceq slash d = false) x.
Proof.
  intros Hx. eapply Forall_impl; [exact Hx|]. intros y Hy. apply ceq_neq. apply ceq_neq in Hy. congruence.
Qed.

(** *** swlib_unix_dircat *)

(** What is appended for a component. *)
Definition joined t d : bytes :=
  match last t with
  | None => d
  | Some c => (if is_slash c then t else t ++ L "/") ++ strip_dot_slash d
  end.

Lemma no_nul_strip d : no_nul d -> no_nul (strip_dot_slash d).
Proof. intros Hd. destruct (strip_dot_slash_sub d) as [a Ha]. rewrite Ha in Hd. by apply no_nul_app in Hd as [_ ?]. Qed.

Lemma strip_dot_slash_length d : zlen (strip_dot_slash d) <= zlen d.
Proof. destruct (strip_dot_slash_sub d) as [a Ha]. rewrite Ha at 2. rewrite zlen_app. pose proof (zlen_nonneg a). lia. Qed.

Lemma strip_buffer d : no_nul d ->
  exists m, swlib_squash_leading_dot_slash (d ++ [NUL]) = Some m /\ text_of m = Some (strip_dot_slash d).
Proof.
  intros Hd. destruct (squash_leading_dot_slash_spec (d ++ [NUL]) d) as (m & -> & ED);
    [eapply (holds_intro _ d []); done|]. exists m. split; [done|]. apply holds_text_of, ED.
Qed.

Lemma unix_dircat_spec b t d :
  text b t -> no_nul d -> d <> [] -> zlen t + zlen d + 1 < SMALL ->
  exists b', swlib_unix_dircat b (Some d) = Some b' /\ text b' (squeeze (joined t d)).
Proof.
  intros T Hd Hne Hsz. pose proof (zlen_nonneg d). pose proof (zlen_nonneg t).
  unfold swlib_unix_dircat, joined. destruct d as [|c0 d0] eqn:Ed; [done|]. rewrite <- Ed in *. clear Hne.
  rewrite (text_str _ _ T). obind.
  assert (Hcat : forall b1 t1 u, text b1 t1 -> no_nul u -> zlen t1 + zlen u < SMALL ->
    exists b2, (b1 ← strob_strcat b1 u; on_str swlib_squash_double_slash b1) = Some b2
      /\ text b2 (squeeze (t1 ++ u))).
  { intros b1 t1 u T1 Hu Hs. destruct (strob_strcat_spec b1 t1 u T1 Hu Hs) as (b2 & -> & T2 & _). obind.
    destruct (on_str_spec swlib_squash_double_slash b2 _ (squeeze (t1 ++ u)) T2) as (b3 & -> & T3 & _);
      [apply squash_double_slash_spec, T2|]. by exists b3. }
  destruct (last t) as [c|] eqn:El.
  - pose proof (strip_dot_slash_length d) as Hsl. pose proof (no_nul_strip d Hd) as Hsn.
    assert (exists b1, (if is_slash c then Some b else strob_strcat b (L "/")) = Some b1
      /\ text b1 (if is_slash c then t else t ++ L "/")) as (b1 & -> & T1).
    { destruct (is_slash c); [by exists b|].
      destruct (strob_strcat_spec b t (L "/") T) as (b1 & -> & T1 & _);
        [by apply no_nul_compute|change (zlen (L "/")) with 1; lia|by exists b1]. }
    obind. rewrite (text_strlen _ _ T1). obind.
    assert ((zlen (if is_slash c then t else t ++ L "/") =? 0) = false) as ->.
    { apply Z.eqb_neq. intros E%zlen_0. destruct (is_slash c); [by subst|]. by destruct t. }
    destruct (strip_buffer d Hd) as (m & -> & Em). obind. rewrite Em. obind.
    apply Hcat; [done|done|]. destruct (is_slash c); rewrite ?zlen_app; [lia|].
    change (zlen (L "/")) with 1. lia.
  - apply last_None in El as ->. obind. rewrite (text_strlen _ _ T). cbn [Z.eqb]. obind.
    change (zlen [] =? 0) with true. cbn iota. obind.
    rewrite (holds_text_of (d ++ [NUL]) d) by (eapply (holds_intro _ d []); done). obind.
    apply (Hcat b [] d); [done|done|]. rewrite zlen_nil. lia.
Qed.

Lemma joined_facts t d :
  names (squeeze (joined t d)) = names t ++ names d
  /\ starts_slash (squeeze (joined t d)) = starts_slash (if decide (t = []) then d else t).
Proof.
  rewrite names_squeeze, squeeze_starts. unfold joined. destruct (last t) as [c|] eqn:E.
  - destruct (is_slash c) eqn:Ec.
    + apply is_slash_eq in Ec as ->. apply last_snoc_inv in E.
      split; [|destruct t; [done|by rewrite decide_False]].
      revert E. generalize (take (length t - 1) t). intros r ->.
      rewrite <- app_assoc. cbn [app]. by rewrite names_app_slash, names_strip_dot_slash, names_snoc_slash.
    + split; [|destruct t; [done|by rewrite decide_False]].
      rewrite <- app_assoc. cbn [app L list_ascii_of_string]. by rewrite names_app_slash, names_strip_dot_slash.
  - apply last_None in E as ->. split; [done|]. by rewrite decide_True.
Qed.

(** *** swlib_dirname, swlib_basename *)

Lemma strob_strcpy_text b t u :
  text b t -> no_nul u -> zlen u < SMALL -> exists b', strob_strcpy b u = Some b' /\ text b' u.
Proof. intros T Hu Hs. destruct (strob_strcpy_spec b u (text_wf _ _ T) Hu Hs) as (b' & ? & ? & _). eauto. Qed.

Lemma text_cut_on b t i :
  text b t -> (i < length t)%nat ->
  exists b', on_str (fun m => mem_write m (Z.of_nat i) [NUL]) b = Some b' /\ text b' (take i t).
Proof.
  intros T Hi. destruct (on_str_spec (fun m => mem_write m (Z.of_nat i) [NUL]) b t (take i t) T)
    as (b' & ? & ? & _); [apply edit_cut; [apply T|done]|eauto].
Qed.

Lemma dirname_spec b t d n :
  text b t -> no_nul (d ++ slash :: n) -> no_slash n -> n <> [] -> zlen (d ++ slash :: n) < SMALL ->
  exists b', swlib_dirname b (d ++ slash :: n) = Some b' /\ text b' (if decide (d = []) then L "/" else d).
Proof.
  intros T Hs Hn Hne Hsz. unfold swlib_dirname.
  destruct (strob_strcpy_text b t _ T Hs Hsz) as (b1 & -> & T1). obind.
  unfold strob_strrchr. rewrite (text_str _ _ T1). obind.
  rewrite strrchr_app by by apply no_slash_strrchr. destruct d as [|c d].
  - destruct (text_cut_on b1 _ 1 T1) as (b2 & E & T2); [destruct n; [done|cbn; lia]|].
    exists b2. split; [exact E|exact T2].
  - destruct (text_cut_on b1 _ (length (c :: d)) T1) as (b2 & E & T2); [rewrite length_app; cbn; lia|].
    rewrite take_app_length in T2. exists b2. split; [exact E|exact T2].
Qed.

Lemma dirname_plain b t n :
  text b t -> no_nul n -> no_slash n -> zlen n < SMALL ->
  exists b', swlib_dirname b n = Some b' /\ text b' (L ".").
Proof.
  intros T Hs Hn Hsz. unfold swlib_dirname.
  destruct (strob_strcpy_text b t _ T Hs Hsz) as (b1 & -> & T1). obind.
  unfold strob_strrchr. rewrite (text_str _ _ T1). obind.
  apply no_slash_strrchr, strrchr_None in Hn as ->.
  apply (strob_strcpy_text b1 n); [done|by apply no_nul_compute|done].
Qed.

Lemma skip_slashes_none n : no_slash n -> skip_slashes n = 0.
Proof. destruct 1 as [|c n Hc _]; cbn; [done|by rewrite Hc]. Qed.

Lemma basename_spec b t d n :
  text b t -> no_nul (d ++ n) -> no_slash n -> n <> [] -> zlen (d ++ n) < SMALL ->
  d = [] \/ ends_with slash d = true ->
  exists b', swlib_basename b (d ++ n) = Some b' /\ text b' n.
Proof.
  intros T Hs Hn Hne Hsz Hd. unfold swlib_basename.
  destruct (strob_strcpy_text b t _ T Hs Hsz) as (b1 & -> & T1). obind.
  rewrite (text_str _ _ T1). obind.
  assert (Hlen : 0 < zlen n) by (destruct n; [done|rewrite zlen_cons; pose proof (zlen_nonneg n); lia]).
  assert (Hoff : basename_of (d ++ n) = zlen d).
  { unfold basename_of. destruct Hd as [->|Hd].
    - cbn [app]. apply no_slash_strrchr, strrchr_None in Hn as ->. done.
    - apply ends_with_inv in Hd as [r ->]. rewrite <- app_assoc. cbn [app].
      rewrite strrchr_app by by apply no_slash_strrchr.
      rewrite cons_middle, app_assoc. replace (S (length r)) with (length (r ++ [slash])) by (rewrite length_app; cbn; lia).
      rewrite drop_app_length, skip_slashes_none, zlen_app by done. fold (zlen (r ++ [slash])).
      destruct (_ =? _) eqn:E; zbool; lia. }
  rewrite Hoff. pose proof (zlen_nonneg d).
  rewrite (strlen_at_drop _ _ _ (text_holds _ _ T1)) by (rewrite zlen_app; lia). obind.
  replace (zlen (d ++ n) - zlen d) with (zlen n) by (rewrite zlen_app; lia).
  destruct (on_str_spec (fun m => memmove m 0 (zlen d) (zlen n + 1)) b1 (d ++ n) n T1) as (b2 & -> & T2 & _).
  - destruct (decide (d = [])) as [->|Hdn].
    + destruct (memmove_front (str_ b1) n 0 (text_holds _ _ T1)) as (m1 & E & Hl & Hh & Hf).
      { pose proof (holds_bound _ _ _ (text_holds _ _ T1)). cbn in *. lia. }
      exists m1. split; [exact E|]. split; [done|done| |done]. cbn [app]. intros i Hi.
      destruct (decide (i = length n)) as [->|]; [|apply Hf; lia].
      destruct Hh as (_ & _ & E1), T1 as [_ (_ & _ & E2) _]. cbn in E1, E2. by rewrite E1, E2.
    + destruct (edit_move (str_ b1) [] d n (text_holds _ _ T1) Hdn) as (m1 & E & ED). exists m1. by split.
  - by exists b2.
Qed.

(** *** swlib_unix_dirtrunc *)

(** A path in normal form that names more than the current directory. *)
Record canonical t : Prop := {
  ca_nonempty : t <> [];
  ca_dot : t <> L ".";
  ca_dotslash : is_prefix (L "./") t = false;
  ca_end : ends_with slash t = false;
  ca_double : strstr t (L "//") = None;
  ca_dots : strstr (t ++ L "/") (L "/./") = None;
}.

(** One component of a path. *)
Record component n : Prop := {
  co_nonempty : n <> [];
  co_slash : no_slash n;
  co_dot : n <> L ".";
  co_nul : no_nul n;
}.

Lemma last_slash_unique a x d y :
  no_slash x -> no_slash y -> a ++ slash :: x = d ++ slash :: y -> a = d /\ x = y.
Proof.
  intros Hx Hy E. pose proof (strrchr_app a slash x (no_slash_strrchr _ Hx)) as E1.
  rewrite E, strrchr_app in E1 by by apply no_slash_strrchr. injection E1 as E1.
  apply app_inj_1 in E as [-> [= ->]]; done.
Qed.

Lemma split_last_slash s : no_slash s \/ exists a x, s = a ++ slash :: x /\ no_slash x.
Proof.
  destruct (strrchr s slash) as [i|] eqn:E.
  - right. apply strrchr_Some in E as (a & x & -> & _ & HF). exists a, x. split; [done|].
    eapply Forall_impl; [exact HF|]. intros c Hc. apply ceq_neq. apply ceq_neq in Hc. congruence.
  - left. apply strrchr_None in E. eapply Forall_impl; [exact E|]. intros c Hc.
    apply ceq_neq. apply ceq_neq in Hc. congruence.
Qed.

Lemma strstr_None_intro s n : (forall pre post, s <> pre ++ n ++ post) -> strstr s n = None.
Proof.
  intros Hno. destruct (strstr s n) as [i|] eqn:E; [|done].
  destruct (strstr_split _ _ _ E) as (pre & post & E' & _). by apply Hno in E'.
Qed.

Lemma app_slash_shift (a x : bytes) : a ++ slash :: x = (a ++ [slash]) ++ x.
Proof. by rewrite <- app_assoc. Qed.

(** An occurrence of [w ++ "/"] followed by a text, in a path that ends in a
    name, lies before the last slash. *)
Lemma occurrence_before t n w pre post :
  no_slash n -> t ++ slash :: n = pre ++ (w ++ [slash]) ++ post ->
  (post = n /\ t = pre ++ w) \/ exists p, post = p ++ slash :: n /\ t = pre ++ (w ++ [slash]) ++ p.
Proof.
  intros Hn E. destruct (split_last_slash post) as [Hp|(p & x & -> & Hx)].
  - left. replace (pre ++ (w ++ [slash]) ++ post) with ((pre ++ w) ++ slash :: post) in E
      by (by rewrite <- !app_assoc). apply last_slash_unique in E as [-> ->]; done.
  - right. replace (pre ++ (w ++ [slash]) ++ p ++ slash :: x) with ((pre ++ (w ++ [slash]) ++ p) ++ slash :: x) in E
      by (by rewrite <- !app_assoc). apply last_slash_unique in E as [-> ->]; [|done|done]. by exists p.
Qed.

Lemma ends_with_app c a (x : bytes) : x <> [] -> ends_with c (a ++ x) = ends_with c x.
Proof.
  intros Hx. unfold ends_with. rewrite last_app. destruct (last x) eqn:E; [done|]. by apply last_None in E.
Qed.

Lemma component_end n : component n -> ends_with slash n = false.
Proof.
  intros [Hne Hs _ _]. destruct (ends_with slash n) eqn:E; [|done]. apply ends_with_inv in E as [r ->].
  apply Forall_app in Hs as [_ Hs]. by apply Forall_cons in Hs as [? _].
Qed.

Lemma canonical_app t n : canonical t -> component n -> canonical (t ++ slash :: n).
Proof.
  intros [C1 C2 C3 C4 C5 C6] Hc. pose proof Hc as [N1 N2 N3 N4]. constructor.
  - by destruct t.
  - intros E. assert (Hin : slash ∈ L ".") by (rewrite <- E; set_solver).
    apply list_elem_of_In in Hin as [?|[]]; done.
  - destruct (is_prefix (L "./") (t ++ slash :: n)) eqn:E; [|done].
    apply is_prefix_spec in E as [r E]. destruct t as [|x [|y t]]; [done| |].
    + by injection E as -> _.
    + injection E as -> -> _. done.
  - rewrite app_slash_shift, ends_with_app by done. by apply component_end.
  - apply strstr_None_intro. intros pre post E.
    apply (occurrence_before t n [slash] pre post N2) in E as [[_ ->]|(p & _ & ->)].
    + by rewrite ends_with_snoc, ceq_refl in C4.
    + eapply (strstr_None_app _ (L "//") pre p); [exact C5|done].
  - apply strstr_None_intro. intros pre post E.
    change ((t ++ slash :: n) ++ L "/") with ((t ++ slash :: n) ++ slash :: []) in E.
    apply (occurrence_before _ [] (L "/.") pre post (Forall_nil_2 _)) in E as [[_ E]|(p & _ & E)].
    + change (pre ++ L "/.") with (pre ++ slash :: L ".") in E.
      apply last_slash_unique in E as [_ ->]; [done|done|]. by repeat constructor.
    + apply (occurrence_before t n (L "/.") pre p N2) in E as [[_ ->]|(q & _ & ->)].
      * eapply (strstr_None_app _ (L "/./") pre []); [exact C6|by rewrite <- app_assoc].
      * eapply (strstr_None_app _ (L "/./") pre (q ++ L "/")); [exact C6|by rewrite <- !app_assoc].
Qed.

Lemma canonical_strip t : canonical t -> strip_dot_slash t = t.
Proof. intros HC. unfold strip_dot_slash. by rewrite (ca_dotslash _ HC), andb_false_r. Qed.

Lemma dircat_component b t n :
  text b t -> canonical t -> component n -> zlen t + zlen n + 1 < SMALL ->
  exists b', swlib_unix_dircat b (Some n) = Some b' /\ text b' (t ++ slash :: n).
Proof.
  intros T HC Hn Hs. destruct (unix_dircat_spec b t n T (co_nul _ Hn) (co_nonempty _ Hn) Hs) as (b' & -> & T').
  exists b'. split; [done|]. replace (t ++ slash :: n) with (squeeze (joined t n)); [done|].
  unfold joined. pose proof (ca_end _ HC) as He. unfold ends_with in He.
  destruct (last t) as [c|] eqn:El; [|apply last_None in El; by destruct (ca_nonempty _ HC)].
  unfold is_slash. rewrite He. assert (strip_dot_slash n = n) as ->.
  { unfold strip_dot_slash. destruct (is_prefix (L "./") n) eqn:E; [|by rewrite andb_false_r].
    apply is_prefix_spec in E as [r ->]. pose proof (co_slash _ Hn) as HF. inversion HF as [|? ? _ HF2].
    by inversion HF2. }
  rewrite <- app_assoc. apply squeeze_id, (ca_double _ (canonical_app _ _ HC Hn)).
Qed.

(** Whatever the path, the parts of swlib_unix_dirtrunc before the cut. *)
Lemma dirtrunc_prepare b t :
  text b t ->
  exists b1 t1, (b ← on_str swlib_squash_trailing_slash b; on_str swlib_squash_all_dot_slash b) = Some b1
    /\ text b1 t1 /\ undotted (strip_dot_slash (chop slash 1 t)) t1.
Proof.
  intros T. destruct (on_str_spec swlib_squash_trailing_slash b t (chop slash 1 t) T) as (b1 & -> & T1 & _);
    [apply squash_trailing_slash_spec, T|]. obind.
  destruct (squash_all_dot_slash_spec (str_ b1) _ (text_holds _ _ T1)) as (m & t1 & E & ED & HU).
  destruct (on_str_spec swlib_squash_all_dot_slash b1 _ t1 T1) as (b2 & -> & T2 & _); [by exists m|].
  by exists b2, t1.
Qed.

Lemma dirtrunc_component b t n :
  text b (t ++ slash :: n) -> canonical t -> component n ->
  exists b', swlib_unix_dirtrunc b = Some (b', 1) /\ text b' t.
Proof.
  intros T HC Hn. pose proof (canonical_app _ _ HC Hn) as HC'. set (u := t ++ slash :: n) in *.
  destruct (dirtrunc_prepare b u T) as (b1 & t1 & E & T1 & HU).
  assert (chop slash 1 u = u) as Hch.
  { unfold chop. by rewrite (ca_end _ HC'), andb_false_r. }
  rewrite Hch, (canonical_strip _ HC') in HU.
  assert (t1 = u) as ->.
  { apply HU. eapply (strstr_mid _ _ [] (L "/")). apply HC'. }
  unfold swlib_unix_dirtrunc. destruct (on_str swlib_squash_trailing_slash b) as [b0|]; [|done].
  cbn [mbind option_bind] in E |- *. rewrite E. obind. rewrite (text_str _ _ T1). obind.
  subst u. rewrite strrchr_app by apply no_slash_strrchr, Hn.
  destruct (text_cut_on b1 _ (length t) T1) as (b2 & E2 & T2); [rewrite length_app; cbn; lia|].
  assert ((length t =? 0)%nat || (length t =? 1)%nat
          && match t ++ slash :: n with c :: _ => ceq c "." | [] => false end = false) as ->.
  { destruct HC as [C1 C2 _ _ _ _]. destruct t as [|c [|d t]]; [done| |done]. cbn.
    destruct (ceq c ".") eqn:Ec; [|done]. by apply ceq_eq in Ec as ->. }
  rewrite E2. obind. exists b2. split; [done|]. by rewrite take_app_length in T2.
Qed.

Definition dircat_all b (ns : list bytes) : option STROB :=
  foldl (fun r n => d ← r; swlib_unix_dircat d (Some n)) (Some b) ns.

Definition path_of t (ns : list bytes) : bytes := foldl (fun t n => t ++ slash :: n) t ns.

Definition total (ns : list bytes) : Z := foldr (fun n k => zlen n + 1 + k) 0 ns.

Lemma total_nonneg ns : 0 <= total ns.
Proof. unfold total. induction ns as [|n ns IH]; cbn [foldr]; [done|]. pose proof (zlen_nonneg n). lia. Qed.

Lemma dircat_all_spec ns : forall b t,
  text b t -> canonical t -> Forall component ns -> zlen t + total ns < SMALL ->
  exists b', dircat_all b ns = Some b' /\ text b' (path_of t ns).
Proof.
  unfold total. induction ns as [|n ns IH]; intros b t T HC HF Hs; cbn [foldr] in Hs.
  - by exists b.
  - apply Forall_cons in HF as [Hn HF]. pose proof (total_nonneg ns) as Ht. unfold total in Ht.
    destruct (dircat_component b t n T HC Hn) as (b1 & E & T1); [lia|].
    unfold dircat_all. cbn [foldl]. obind. rewrite E.
    apply (IH b1 (t ++ slash :: n)); [done|by apply canonical_app|done|].
    rewrite zlen_app, zlen_cons. lia.
Qed.

Lemma dirtrunc_loop_spec ns : forall b t,
  text b (path_of t ns) -> canonical t -> Forall component ns ->
  exists b', dirtrunc_loop (length ns) b = Some (b', O) /\ text b' t.
Proof.
  induction ns as [|n ns IH] using rev_ind; intros b t T HC HF; [by exists b|].
  apply Forall_app in HF as [HF Hn]. apply Forall_cons in Hn as [Hn _].
  unfold path_of in T. rewrite foldl_app in T. cbn [foldl] in T. fold (path_of t ns) in T.
  assert (HCp : canonical (path_of t ns)).
  { clear T IH. revert t HC. induction HF as [|m ns Hm HF IH]; intros t HC; [done|].
    cbn. apply IH. by apply canonical_app. }
  rewrite length_app, Nat.add_comm. cbn [length Nat.add dirtrunc_loop].
  destruct (dirtrunc_component b _ n T HCp Hn) as (b1 & -> & T1). obind. cbn [Z.eqb].
  by apply IH.
Qed.

(** *** swlib_resolve_path *)

Lemma tokens_ext p q s : (forall c, p c = q c) -> tokens p s = tokens q s.
Proof.
  intros Hpq. unfold tokens. f_equal. induction s as [|c s IH]; [done|]. cbn. by rewrite Hpq, IH.
Qed.

Lemma delim_slash s : tokens (delim_of (L "/")) s = tokens is_slash s.
Proof. apply tokens_ext. intros c. cbn. by rewrite orb_false_r. Qed.

Lemma tokens_no_nul p s : no_nul s -> Forall no_nul (tokens p s).
Proof.
  intros Hs. unfold tokens. assert (HF : Forall no_nul (fields p s)).
  { induction s as [|c s IH]; cbn; [repeat constructor; apply no_nul_nil|].
    apply no_nul_cons in Hs as [Hc Hs]. specialize (IH Hs). destruct (p c).
    - constructor; [apply no_nul_nil|done].
    - destruct (fields p s) as [|f fs]; [repeat constructor; by apply no_nul_cons; split; [|apply no_nul_nil]|].
      apply Forall_cons in IH as [Hf HF]. constructor; [by apply no_nul_cons|done]. }
  induction HF as [|f fs Hf HF IH]; cbn; [constructor|]. destruct (is_nil f); cbn; [done|by constructor].
Qed.

(** The components written out, each with a slash behind it. *)
Definition written (ts : list bytes) : bytes := concat ((fun t => t ++ L "/") <$> ts).

Fixpoint resolve_fold (ts : list bytes) (count : Z) (started : bool) : Z :=
  match ts with
  | [] => count
  | t :: ts => let '(c, st) := resolve_step t count started in resolve_fold ts c st
  end.

Lemma resolve_loop_spec fuel : forall res t0 ts (r : option (STROB * option Z)) count st n,
  strtok_result (L "/") r ts -> text res t0 -> Forall no_nul ts -> (length ts < fuel)%nat ->
  zlen t0 + total ts < SMALL ->
  exists tmp' s res', r = Some (tmp', s)
    /\ resolve_loop fuel tmp' s count st n res
       = Some (n + zlen ts, resolve_fold ts count st, res')
    /\ text res' (t0 ++ written ts).
Proof.
  induction fuel as [|fuel IH]; intros res t0 ts r count st n Hr T HF Hf Hs; [lia|].
  destruct ts as [|t ts]; cbn [strtok_result] in Hr.
  - destruct Hr as [buf' ->]. exists buf', None, res. split; [done|]. cbn [resolve_loop resolve_fold].
    split; [by rewrite Z.add_0_r|]. unfold written. cbn. by rewrite app_nil_r.
  - destruct Hr as (buf' & o & r' & -> & Ht & Hsc & Hts). exists buf', (Some o).
    apply Forall_cons in HF as [Hn HF]. unfold total in Hs. cbn [foldr] in Hs. fold (total ts) in Hs.
    pose proof (total_nonneg ts). pose proof (zlen_nonneg t0). pose proof (zlen_nonneg t).
    cbn [resolve_loop resolve_fold]. rewrite Ht. obind.
    destruct (resolve_step t count st) as [c1 st1].
    destruct (strob_strcat_spec res t0 t T Hn) as (res1 & -> & T1 & _); [lia|]. obind.
    destruct (strob_strcat_spec res1 _ (L "/") T1) as (res2 & -> & T2 & _);
      [by apply no_nul_compute|rewrite zlen_app; change (zlen (L "/")) with 1; lia|]. obind.
    pose proof (strtok_next_spec buf' r' (L "/") Hsc) as HN. rewrite Hts in HN.
    destruct (IH res2 _ ts _ c1 st1 (n + 1) HN T2 HF) as (tmp' & s' & res' & E & E' & T');
      [cbn in Hf; lia|rewrite !zlen_app; change (zlen (L "/")) with 1; lia|].
    rewrite E. obind. exists res'. split; [done|]. rewrite E'. split.
    + by rewrite zlen_cons, Z.add_assoc.
    + change (written (t :: ts)) with ((t ++ L "/") ++ written ts). rewrite <- app_assoc. rewrite <- !app_assoc in T'. by rewrite <- ?app_assoc in T'.
Qed.

(** The depth: what comes before the first name counts its "..", behind it
    names count up and ".." counts down. *)
Definition is_dot t : bool := streq t (L ".").
Definition is_dotdot t : bool := streq t (L "..").
Definition count_of (f : bytes -> bool) (ts : list bytes) : Z := zlen (List.filter f ts).

Definition is_name t : bool := negb (is_dot t) && negb (is_dotdot t).

Fixpoint before_name (ts : list bytes) : list bytes :=
  match ts with t :: r => if is_name t then [] else t :: before_name r | [] => [] end.
Fixpoint from_name (ts : list bytes) : list bytes :=
  match ts with t :: r => if is_name t then ts else from_name r | [] => [] end.

Definition depth_of (ts : list bytes) : Z :=
  count_of is_dotdot (before_name ts) + count_of is_name (from_name ts) - count_of is_dotdot (from_name ts).

Lemma dot_not_dotdot t : no_nul t -> is_dot t = true -> is_dotdot t = false.
Proof.
  intros Hn Hd. apply streq_eq in Hd as ->; [done|done|by apply no_nul_compute].
Qed.

Lemma resolve_fold_started ts : Forall no_nul ts -> forall count,
  resolve_fold ts count true = count + count_of is_name ts - count_of is_dotdot ts.
Proof.
  unfold count_of. induction 1 as [|t ts Hn HF IH]; intros count; cbn [resolve_fold]; [cbn; lia|].
  unfold resolve_step. fold (is_dot t) (is_dotdot t). cbn [List.filter]. rewrite andb_false_r, andb_true_r.
  pose proof (dot_not_dotdot t Hn). unfold is_name at 1.
  destruct (is_dot t), (is_dotdot t); cbn [negb andb]; rewrite ?zlen_cons, IH; lia.
Qed.

Lemma resolve_fold_depth ts : Forall no_nul ts -> forall count,
  resolve_fold ts count false = count + depth_of ts.
Proof.
  unfold depth_of. induction 1 as [|t ts Hn HF IH]; intros count; cbn [resolve_fold]; [change (count = count + 0); lia|].
  unfold resolve_step. fold (is_dot t) (is_dotdot t). cbn [before_name from_name].
  pose proof (dot_not_dotdot t Hn). rewrite andb_true_r, andb_false_r.
  destruct (is_name t) eqn:Hname; pose proof Hname as Hn2; unfold is_name in Hn2.
  - destruct (is_dot t), (is_dotdot t) eqn:Edd; try done. rewrite resolve_fold_started by done.
    unfold count_of. cbn [List.filter]. rewrite Hname, Edd, zlen_cons. rewrite zlen_nil. lia.
  - unfold count_of in *. cbn [List.filter].
    destruct (is_dot t), (is_dotdot t) eqn:Edd; try done; rewrite ?zlen_cons, IH; lia.
Qed.
End StrobPathSpecs.

(** ** Theorems *)

Section PathTheorems.
Context `{Malloc}.

(** swlib_slashclean terminates, edits inside the text it was given, and
    leaves a path that names the same thing: the same components (dots aside),
    absolute when it was, with no double slash. *)
Theorem slashclean_preserves_names (m s : bytes) :
  holds m 0 s ->
  exists m' t, swlib_slashclean m = Some m' /\ edited m s m' t
    /\ names t = names s /\ starts_slash t = starts_slash s /\ strstr t (L "//") = None.
Proof.
  intros Hh. destruct (slashclean_spec m s Hh) as (m' & E & ED). exists m', (clean s).
  split; [done|]. split; [done|]. apply clean_facts.
Qed.

(** swlib_dir_compare compares what is left of the two paths without a
    leading slash (when asked), a trailing slash, a trailing "/." and a leading
    "./"; afterwards both buffers are byte for byte what they were, except for
    paths of the shape "././.". *)
Theorem dir_compare_restores (m1 m2 s1 s2 : bytes) (flag : Z) (noab := flag =? SWC_FC_NOAB) :
  holds m1 0 s1 -> holds m2 0 s2 -> ~ unrestorable noab s1 -> ~ unrestorable noab s2 ->
  swlib_dir_compare m1 m2 flag = Some (m1, m2, strcmp (core noab s1) (core noab s2)).
Proof.
  intros H1 H2 U1 U2. unfold swlib_dir_compare. fold noab.
  destruct (drop_restore m1 s1 noab H1 U1) as (d1 & -> & T1 & R1). obind.
  destruct (drop_restore m2 s2 noab H2 U2) as (d2 & -> & T2 & R2). obind.
  rewrite T1, T2. obind. rewrite R1, R2. done.
Qed.

(** swlib_unix_dirtrunc_n undoes swlib_unix_dircat: after joining [ns] names
    to a path in normal form, truncating as many components gives the path back
    and counts them all. *)
Theorem dirtrunc_inverts_dircat (b : STROB) (t : bytes) (ns : list bytes) :
  text b t -> canonical t -> Forall component ns -> zlen t + total ns < SMALL ->
  exists b1 b2, dircat_all b ns = Some b1 /\ text b1 (path_of t ns)
    /\ swlib_unix_dirtrunc_n b1 (zlen ns) = Some (b2, zlen ns) /\ text b2 t.
Proof.
  intros T HC HF Hs. destruct (dircat_all_spec ns b t T HC HF Hs) as (b1 & E1 & T1).
  destruct (dirtrunc_loop_spec ns b1 t T1 HC HF) as (b2 & E2 & T2).
  exists b1, b2. split; [done|]. split; [done|]. split; [|done].
  unfold swlib_unix_dirtrunc_n, zlen. rewrite Nat2Z.id, E2. obind.
  assert ((Z.of_nat (length ns) <? 0) = false) as -> by (apply Z.ltb_ge; lia).
  by rewrite Z.sub_0_r.
Qed.

(** swlib_dirname and swlib_basename split a path at its last slash; the
    directory of a name alone is ".", that of a name in the root is "/". *)
Theorem dirname_basename_split (b1 b2 : STROB) (t1 t2 d n : bytes) :
  text b1 t1 -> text b2 t2 -> no_nul (d ++ slash :: n) -> no_slash n -> n <> [] ->
  zlen (d ++ slash :: n) < SMALL ->
  (exists b, swlib_dirname b1 (d ++ slash :: n) = Some b /\ text b (if decide (d = []) then L "/" else d))
  /\ (exists b, swlib_basename b2 (d ++ slash :: n) = Some b /\ text b n)
  /\ (exists b, swlib_dirname b1 n = Some b /\ text b (L "."))
  /\ (exists b, swlib_basename b2 n = Some b /\ text b n).
Proof.
  intros T1 T2 Hs Hn Hne Hsz. pose proof Hs as Hs'. apply no_nul_app in Hs' as [_ Hs'].
  apply no_nul_cons in Hs' as [_ Hnn]. pose proof (zlen_nonneg d).
  rewrite zlen_app, zlen_cons in Hsz. split; [|split; [|split]].
  - apply (dirname_spec b1 t1); try done. rewrite zlen_app, zlen_cons. lia.
  - rewrite (app_slash_shift d n). apply (basename_spec b2 t2 (d ++ [slash]) n); [done|by rewrite <- (app_slash_shift d n)|done|done| |].
    + rewrite <- (app_slash_shift d n), zlen_app, zlen_cons. lia.
    + right. exact (eq_trans (ends_with_snoc slash slash d) (ceq_refl slash)).
  - apply (dirname_plain b1 t1); try done. lia.
  - apply (basename_spec b2 t2 [] n); auto. cbn [app]. lia.
Qed.

(** swlib_resolve_path terminates and counts the components of the cleaned
    path, writes them out with a slash behind each, and returns as depth the
    leading ".." plus the names minus the ".." that follow the first name. *)
Theorem resolve_path_counts (res : STROB) (t0 s : bytes) (ts := tokens is_slash (clean s)) :
  text res t0 -> no_nul s -> zlen s < SMALL -> total ts < SMALL ->
  exists res', swlib_resolve_path s res = Some (zlen ts, depth_of ts, res')
    /\ text res' (written ts).
Proof.
  intros T Hs Hsz Htot. unfold swlib_resolve_path.
  assert (Hh : holds (s ++ [NUL]) 0 s) by (eapply (holds_intro _ s []); done).
  destruct (slashclean_spec _ s Hh) as (m & -> & ED). obind.
  destruct (strob_open_spec 10) as (tmp & -> & Tt & _); [unfold SMALL; lia|]. obind.
  destruct (strob_strcpy_text res t0 [] T no_nul_nil) as (res1 & -> & T1); [done|]. obind.
  rewrite (holds_text_of _ _ (ed_holds _ _ _ _ ED)). obind.
  pose proof (holds_no_nul _ _ (ed_holds _ _ _ _ ED)) as Hc. pose proof (ed_shorter _ _ _ _ ED) as Hl.
  pose proof (strtok_first_spec tmp (clean s) (L "/") (text_wf _ _ Tt) Hc) as HN.
  rewrite delim_slash in HN. fold ts in HN. specialize (HN ltac:(unfold zlen in *; lia)).
  destruct (resolve_loop_spec (S (S (length (clean s)))) res1 [] ts _ 0 false 0 HN T1)
    as (tmp' & s' & res' & E & E' & T'); [by apply tokens_no_nul| |by rewrite zlen_nil|].
  { subst ts. pose proof (tokens_length is_slash (clean s)). lia. }
  rewrite E. obind. rewrite E'. exists res'.
  rewrite resolve_fold_depth by by apply tokens_no_nul. by rewrite !Z.add_0_l.
Qed.

(** swlib_unix_dirtrunc turns a relative path that starts with ".//" into an
    absolute one: squashing the leading "./" first leaves the second slash. *)
Theorem dot_slash_slash_becomes_absolute (b : STROB) (r : bytes) :
  text b (L ".//" ++ r) -> r <> [] -> no_slash r ->
  exists b', swlib_unix_dirtrunc b = Some (b', 0) /\ text b' (L "/" ++ r).
Proof.
  intros T Hne Hr. destruct (dirtrunc_prepare b _ T) as (b1 & t1 & E & T1 & HU).
  assert (chop slash 1 (L ".//" ++ r) = L ".//" ++ r) as Hch.
  { unfold chop. rewrite ends_with_app by done. destruct (ends_with slash r) eqn:Ee; [|by rewrite andb_false_r].
    apply ends_with_inv in Ee as [q ->]. apply Forall_app in Hr as [_ Hr]. by apply Forall_cons in Hr as [? _]. }
  rewrite Hch in HU. assert (t1 = L "/" ++ r) as ->.
  { assert (strip_dot_slash (L ".//" ++ r) = L "/" ++ r) as Hst.
    { unfold strip_dot_slash. rewrite zlen_app. change (zlen (L ".//")) with 3. pose proof (zlen_nonneg r).
      assert ((3 + zlen r >=? 3) = true) as -> by (apply Z.geb_le; lia). done. }
    rewrite Hst in HU. apply HU. apply strstr_None_intro. intros pre post Eo.
    destruct pre as [|c pre]; injection Eo as Eo.
    - subst r. by inversion Hr as [|? ? _ H2]; inversion H2.
    - subst. apply Forall_app in Hr as [_ Hr]. by inversion Hr. }
  unfold swlib_unix_dirtrunc. destruct (on_str swlib_squash_trailing_slash b) as [b0|]; [|done].
  cbn [mbind option_bind] in E |- *. rewrite E. obind. rewrite (text_str _ _ T1). obind.
  pose proof (strrchr_app [] slash r (no_slash_strrchr _ Hr)) as Hs. cbn [app length] in Hs.
  change (L "/" ++ r) with (slash :: r). rewrite Hs. by exists b1.
Qed.

(** swlib_dir_compare changes the path "././.": it comes back as ".//.". *)
Lemma dir_compare_spoils_dots :
  swlib_dir_compare (L "././." ++ [NUL]) (L "a" ++ [NUL]) SWC_FC_NOOP
  = Some (L ".//." ++ [NUL; NUL], L "a" ++ [NUL], strcmp (L ".") (L "a")).
Proof. reflexivity. Qed.

(** swlib_apply_location strips the directory from the path by characters:
    it also strips it when the directory's last component is only a prefix of
    the path's component, and what is left of the name is appended. *)
Theorem apply_location_splits_component (b : STROB) (t dir rest loc : bytes) :
  text b t -> canonical loc -> no_nul loc -> component dir -> component rest -> component (dir ++ rest) ->
  zlen loc + zlen rest + 1 < SMALL ->
  exists b', swlib_apply_location b (slash :: dir ++ rest) loc (slash :: dir) = Some b'
    /\ text b' (loc ++ slash :: rest).
Proof.
  intros T HC Hl Hd Hr Hdr Hs. unfold swlib_apply_location.
  destruct (strob_strcpy_text b t [] T no_nul_nil) as (b1 & -> & T1); [done|]. obind.
  assert ((zlen (slash :: dir ++ rest) =? 0) = false) as ->
    by (rewrite zlen_cons; pose proof (zlen_nonneg (dir ++ rest)); apply Z.eqb_neq; lia).
  assert (Hlead : forall x, no_nul x -> swlib_return_no_leading ((slash :: x) ++ [NUL]) = Some 1).
  { intros x Hx. unfold swlib_return_no_leading.
    rewrite (holds_text_of _ (slash :: x)); [obind|].
    - assert (strstr (slash :: x) (L "/") = Some O) as -> by (apply strstr_0; by exists x). done.
    - eapply (holds_intro _ _ []); [|done]. by apply no_nul_cons. }
  rewrite !Hlead by (apply Hdr || apply Hd). obind. change (Z.to_nat 1) with 1%nat. cbn [drop]. rewrite !drop_0.
  assert (Hp : forall x : bytes, component x -> 0 < zlen x).
  { intros x [Hx _ _ _]. destruct x; [done|]. rewrite zlen_cons. pose proof (zlen_nonneg x). lia. }
  pose proof (Hp _ Hd). pose proof (Hp _ Hdr). ztest.
  assert (strstr (dir ++ rest) dir = Some O) as -> by (apply strstr_0; by exists rest).
  rewrite drop_app_length.
  destruct (strob_strcpy_text b1 [] loc T1 Hl) as (b2 & -> & T2); [pose proof (Hp _ Hr); lia|]. obind.
  by apply dircat_component.
Qed.
End PathTheorems.

(** ** Instances *)

Module Witness.
#[local] Instance zeros : Malloc := fun _ => NUL.

Definition buffer (s : bytes) : bytes := s ++ [NUL].

Lemma buffer_holds s : terminated s = false -> holds (buffer s) 0 s.
Proof. intros Hs. eapply (holds_intro _ s []); [by apply no_nul_compute|done]. Qed.

Lemma slashclean_preserves_names_witness :
  exists m' t, swlib_slashclean (buffer (L ".//usr//./bin/")) = Some m'
    /\ edited (buffer (L ".//usr//./bin/")) (L ".//usr//./bin/") m' t
    /\ names t = [L "usr"; L "bin"] /\ starts_slash t = false /\ strstr t (L "//") = None.
Proof. apply (slashclean_preserves_names (buffer (L ".//usr//./bin/"))). by apply buffer_holds. Defined.

Lemma dir_compare_restores_witness :
  swlib_dir_compare (buffer (L "/./usr/bin/")) (buffer (L "usr/bin/.")) SWC_FC_NOAB
  = Some (buffer (L "/./usr/bin/"), buffer (L "usr/bin/."), 0).
Proof.
  apply (dir_compare_restores (buffer (L "/./usr/bin/")) (buffer (L "usr/bin/."))
           (L "/./usr/bin/") (L "usr/bin/.") SWC_FC_NOAB);
    [by apply buffer_holds|by apply buffer_holds|intros E; discriminate E|intros E; discriminate E].
Defined.

Lemma opt_local : canonical (L "/opt/local").
Proof. constructor; [discriminate|discriminate|reflexivity..]. Qed.

Lemma component_compute n :
  match n with [] => false | _ => forallb (fun c => negb (is_slash c || is_nul c)) n && negb (streq n (L ".")) end = true ->
  component n.
Proof.
  intros E. destruct n as [|c n0] eqn:En; [done|]. rewrite <- En in *. apply andb_true_iff in E as [E1 E2].
  rewrite forallb_forall in E1. split.
  - by subst.
  - apply Forall_forall. intros x Hx. apply list_elem_of_In, E1 in Hx. zbool. tauto.
  - intros ->. done.
  - intros Hx. apply list_elem_of_In, E1 in Hx. done.
Qed.

Lemma dirtrunc_inverts_dircat_witness :
  exists b b1 b2, dircat_all b [L "lib"; L "a.b"] = Some b1 /\ text b1 (L "/opt/local/lib/a.b")
    /\ swlib_unix_dirtrunc_n b1 2 = Some (b2, 2) /\ text b2 (L "/opt/local").
Proof.
  destruct (strob_open_spec 10) as (b0 & _ & T0 & _); [reflexivity|].
  destruct (strob_strcpy_text b0 [] (L "/opt/local") T0) as (b & _ & T);
    [by apply no_nul_compute|reflexivity|].
  exists b. apply (dirtrunc_inverts_dircat b (L "/opt/local") [L "lib"; L "a.b"] T);
    [exact opt_local|repeat constructor; by apply component_compute|reflexivity].
Defined.

Lemma dirname_basename_split_witness :
  exists b : STROB,
    (exists b', swlib_dirname b (L "usr/bin/ls") = Some b' /\ text b' (L "usr/bin"))
    /\ (exists b', swlib_basename b (L "usr/bin/ls") = Some b' /\ text b' (L "ls"))
    /\ (exists b', swlib_dirname b (L "ls") = Some b' /\ text b' (L "."))
    /\ (exists b', swlib_basename b (L "ls") = Some b' /\ text b' (L "ls")).
Proof.
  destruct (strob_open_spec 10) as (b & _ & T & _); [reflexivity|]. exists b.
  apply (dirname_basename_split b b [] [] (L "usr/bin") (L "ls") T T);
    [by apply no_nul_compute|by repeat constructor|discriminate|reflexivity].
Defined.

Lemma resolve_path_counts_witness :
  exists b res' : STROB, swlib_resolve_path (L "./../a//./b/../c/") b = Some (6, 3, res')
    /\ text res' (L "../a/./b/../c/").
Proof.
  destruct (strob_open_spec 10) as (b & _ & T & _); [reflexivity|]. exists b.
  apply (resolve_path_counts b [] (L "./../a//./b/../c/") T);
    [by apply no_nul_compute|reflexivity|reflexivity].
Defined.

Lemma dot_slash_slash_becomes_absolute_witness :
  exists b b', text b (L ".//etc") /\ swlib_unix_dirtrunc b = Some (b', 0) /\ text b' (L "/etc").
Proof.
  destruct (strob_open_spec 10) as (b0 & _ & T0 & _); [reflexivity|].
  destruct (strob_strcpy_text b0 [] (L ".//etc") T0) as (b & _ & T);
    [by apply no_nul_compute|reflexivity|].
  destruct (dot_slash_slash_becomes_absolute b (L "etc") T) as (b' & E & T');
    [discriminate|by repeat constructor|]. exists b, b'. exact (conj T (conj E T')).
Defined.

Lemma apply_location_splits_component_witness :
  exists b b' : STROB, swlib_apply_location b (L "/usrlocal") (L "/opt/local") (L "/usr") = Some b'
    /\ text b' (L "/opt/local/local").
Proof.
  destruct (strob_open_spec 10) as (b & _ & T & _); [reflexivity|]. exists b.
  apply (apply_location_splits_component b [] (L "usr") (L "local") (L "/opt/local") T opt_local);
    [by apply no_nul_compute|by apply component_compute|by apply component_compute
    |by apply component_compute|reflexivity].
Defined.
End Witness.
