(* ===== verification/Escape.v ===== *)
(** * Escape sequences in attribute values and file names (swsupplib/misc/swlib.c)

    Expanding writes a text so that it survives the parser (quotes and '#' get
    a backslash, bytes outside printable ASCII become \xHH), unexpanding and the
    hexadecimal pass undo it.  swlib_compare_8859, which compares two names up
    to their escapes, is here too. *)

From S2P Require Import Prelude CString Strob StrobSpec Pathname.

Definition backslash : ascii := "092"%char.
Definition quote : ascii := "034"%char.

(** ** Hexadecimal sequences *)

Definition toupper (n : Z) : Z := if (97 <=? n) && (n <=? 122) then n - 32 else n.
Definition digit_code (n : Z) : bool := (48 <=? n) && (n <=? 57).

Definition convert_hex_seq (d1 d2 : Z) : Z :=
  if negb (digit_code d1) && ((d1 <? 65) || (d1 >? 70)) then -1
  else
    let d1 := if digit_code d1 then d1 else d1 - 7 in
    if negb (digit_code d2) && ((d2 <? 65) || (d2 >? 70)) then -1
    else
      let d2 := if digit_code d2 then d2 else d2 - 7 in
      16 * (d1 - 48) + (d2 - 48).

(** [src] is the offset of the scan in the buffer; the result is the offset of
    the sequence and its value, [Some None] when there is none. *)
Definition does_have_hex_escape (m : bytes) (src : Z) : option (option (Z * Z)) :=
  s ← str_at m src;
  match strstr s [backslash; "x"%char] with
  | None => Some None
  | Some t =>
      prev ← (if (t =? 0)%nat then Some "x"%char else mem_read m (src + Z.of_nat t - 1));
      if ceq prev backslash then Some None
      else
        let seq := src + Z.of_nat t + 2 in
        c1 ← mem_read m seq;
        if is_nul c1 then Some None
        else
          c2 ← mem_read m (seq + 1);
          if is_nul c2 then Some None
          else
            let value := convert_hex_seq (toupper (uchar c1)) (toupper (uchar c2)) in
            Some (if value <? 0 then None else Some (src + Z.of_nat t, value))
  end.

Fixpoint hex_loop (fuel : nat) (m : bytes) (s : Z) : option bytes :=
  match fuel with
  | O => None
  | S fuel =>
      r ← does_have_hex_escape m s;
      match r with
      | None => Some m
      | Some (r, value) =>
          n ← strlen_at m (r + 4);
          m ← memmove m (r + 1) (r + 4) (n + 1);
          m ← mem_write m r [to_char value];
          hex_loop fuel m (r + 1)
      end
  end.

Definition process_all_hex_escapes (src : bytes) : option bytes := hex_loop (S (length src)) src 0.

Definition swlib_process_hex_escapes (s1 : bytes) : option bytes := process_all_hex_escapes s1.

(** ** Single characters *)

Definition swlib_is_c701_escape (c : ascii) : bool := mem_char c [quote; "#"%char; backslash].

Definition swlib_is_ansi_escape (c : ascii) : bool :=
  mem_char c (L "ntvbrfxa" ++ [backslash; "?"%char; "'"%char; quote]).

(** The value and whether the character is an escape. *)
Definition swlib_c701_escaped_value (src : ascii) : ascii * bool :=
  if mem_char src [backslash; "#"%char; quote] then (src, true) else (src, false).

Definition swlib_ansi_escaped_value (src : ascii) : ascii * bool :=
  if ceq src backslash then (backslash, true)
  else if ceq src "n" then ("010"%char, true)
  else if ceq src "r" then ("013"%char, true)
  else if ceq src "v" then ("011"%char, true)
  else if ceq src "b" then ("008"%char, true)
  else if ceq src "f" then ("012"%char, true)
  else (src, false).

(** ** Unexpanding *)

(** SWLIB_ASSERT (0) ends the process. *)
Inductive outcome (A : Type) := Returns (a : A) | Fatal.
Arguments Returns {A}.
Arguments Fatal {A}.

(** A byte from 128 on is a negative (int)(char). *)
Definition negative_char (c : ascii) : bool := 128 <=? uchar c.

(** dst[len] = ...; the source is another buffer, or the destination itself
    when [src] is [None]. *)
Fixpoint unexpand_loop (fuel : nat) (src : option bytes) (dst : bytes) (k n len : Z)
    : option (outcome (bytes * Z)) :=
  match fuel with
  | O => None
  | S fuel =>
    if k <? n then
      let lp := match src with Some s => s | None => dst end in
      c ← mem_read lp k;
      d ← (if ceq c backslash then mem_read lp (k + 1) else Some NUL);
      if ceq c backslash && negb (is_nul d) then
        let '(v, rec) := swlib_ansi_escaped_value d in
        let '(v, rec) := if rec then (v, rec) else swlib_c701_escaped_value d in
        if negative_char v then m ← mem_write dst len [NUL]; Some Fatal
        else if rec
        then m ← mem_write dst len [v]; unexpand_loop fuel src m (k + 2) n (len + 1)
        else m ← mem_write dst len [c]; unexpand_loop fuel src m (k + 1) n (len + 1)
      else m ← mem_write dst len [c]; unexpand_loop fuel src m (k + 1) n (len + 1)
    else m ← mem_write dst len [NUL]; Some (Returns (m, len))
  end.

Section Expand.
Context `{Malloc}.

(** The object and the return value; [src] is a string. *)
Definition swlib_unexpand_escapes (store : STROB) (src : bytes) : option (outcome STROB) :=
  store ← strob_set_length store (zlen src);
  store ← strob_strcpy store [];
  r ← unexpand_loop (S (length src)) (Some (src ++ [NUL])) (str_ store) 0 (zlen src) 0;
  Some (match r with Returns (m, _) => Returns (set_str m store) | Fatal => Fatal end).

(** With a NULL store the text is rewritten in place. *)
Definition swlib_unexpand_escapes_in_place (src : bytes) : option (outcome bytes) :=
  s ← text_of src;
  r ← unexpand_loop (S (length s)) None src 0 (zlen s) 0;
  Some (match r with Returns (m, _) => Returns m | Fatal => Fatal end).

Definition swlib_unexpand_escapes2 (src : bytes) : option (outcome (bytes * Z)) :=
  s ← text_of src;
  dst ← strob_open 10;
  r ← swlib_unexpand_escapes dst s;
  match r with
  | Fatal => Some Fatal
  | Returns dst =>
      t ← strob_str dst;
      if zlen t >? zlen s then Some (Returns (src, -1))
      else m ← mem_write src 0 (t ++ [NUL]); Some (Returns (m, 0))
  end.

(** ** Expanding *)

Definition hex_digit (n : Z) : ascii := to_char (if n <? 10 then 48 + n else 55 + n).

(** "\\x%02X" *)
Definition hex_text (c : ascii) : bytes :=
  [backslash; "x"%char; hex_digit (uchar c / 16); hex_digit (uchar c mod 16)].

(** [count] backslashes so far; [i] counts the characters of the source that
    were written, [j] the characters that were added. *)
Fixpoint expand_loop (fuel : nat) (src : bytes) (store : STROB) (count i j k : Z)
    : option (STROB * Z) :=
  match fuel with
  | O => None
  | S fuel =>
    if k <? zlen src then
      c ← mem_read (src ++ [NUL]) k;
      next ← mem_read (src ++ [NUL]) (k + 1);
      if ceq c backslash then
        let count := count + 1 in
        if negb (count mod 2 =? 0) && ceq next "n" then
          store ← strob_chr_index store (i + j) 10;
          expand_loop fuel src store 0 (i + 1) j (k + 2)
        else
          store ← strob_chr_index store (i + j) (uchar c);
          if negb (count mod 2 =? 0) && negb (swlib_is_ansi_escape next) && negb (swlib_is_c701_escape next)
          then store ← strob_chr_index store (i + (j + 1)) (uchar c);
               expand_loop fuel src store count (i + 1) (j + 1) (k + 1)
          else expand_loop fuel src store count (i + 1) j (k + 1)
      else if ((uchar c <? 7) && (uchar c >? 0)) || (uchar c >=? 127) then
        '(store, _) ← strob_sprintf store true (hex_text c);
        expand_loop fuel src store count (i + 1) (j + 3) (k + 1)
      else
        if ceq c "#" || ceq c quote then
          b ← strob_get_char store (i + j - 1);
          if negb (b =? 92) then
            store ← strob_chr_index store (i + j) 92;
            store ← strob_chr_index store (i + (j + 1)) (uchar c);
            expand_loop fuel src store 0 (i + 1) (j + 1) (k + 1)
          else
            store ← strob_chr_index store (i + j) (uchar c);
            expand_loop fuel src store 0 (i + 1) j (k + 1)
        else
          store ← strob_chr_index store (i + j) (uchar c);
          expand_loop fuel src store 0 (i + 1) j (k + 1)
    else
      store ← strob_chr_index store (i + j) 0;
      Some (store, i + j)
  end.

(** The store afterwards and *newlen. *)
Definition swlib_expand_escapes (src : bytes) (ustore : option STROB) : option (STROB * Z) :=
  store ← (match ustore with Some u => strob_strcpy u [] | None => strob_open 20 end);
  expand_loop (S (length src)) src store 0 0 0 0.

(** ** Comparison up to escapes *)

(** One side: the text to compare, in a buffer of its own when the name holds a
    backslash. *)
Definition unescaped (s : bytes) : option (outcome (bytes * bool)) :=
  t ← text_of s;
  match strchr t backslash with
  | None => Some (Returns (s, false))
  | Some _ =>
      so ← strob_open (zlen t);
      r ← swlib_unexpand_escapes so t;
      match r with
      | Fatal => Some Fatal
      | Returns so => m ← process_all_hex_escapes (str_ so); Some (Returns (m, true))
      end
  end.

(** The two buffers of the caller afterwards and the result. *)
Definition swlib_compare_8859 (s1 s2 : bytes) : option (outcome (bytes * bytes * Z)) :=
  r1 ← unescaped s1;
  r2 ← unescaped s2;
  match r1, r2 with
  | Returns b1, Returns b2 =>
      '(m1, m2, ret) ← swlib_dir_compare (fst b1) (fst b2) SWC_FC_NOAB;
      Some (Returns (if snd b1 : bool then s1 else m1, if snd b2 : bool then s2 else m2, ret))
  | _, _ => Some Fatal
  end.
End Expand.
