(* ===== verification/EscapeSpec.v ===== *)
(** * Specification of the escape functions

    Round trips: unexpanding undoes expanding, the hexadecimal pass undoes the
    \xHH encoding.  One theorem is about a defect: an object that held a longer
    text garbles the next expansion. *)

From S2P Require Import Prelude CString Strob StrobSpec Pathname PathSpec Escape.

(** ** Quoting *)

(** Printable ASCII and white space, without the backslash. *)
Definition plain (c : ascii) : bool := (7 <=? uchar c) && (uchar c <? 127) && negb (ceq c backslash).

Definition quoted (c : ascii) : bool := ceq c "#" || ceq c quote.

Definition escape_char (c : ascii) : bytes := if quoted c then [backslash; c] else [c].

(** What swlib_expand_escapes writes for plain characters. *)
Definition escaped (s : bytes) : bytes := concat (escape_char <$> s).

Lemma escaped_cons c s : escaped (c :: s) = escape_char c ++ escaped s.
Proof. done. Qed.

Lemma escaped_snoc s c : escaped (s ++ [c]) = escaped s ++ escape_char c.
Proof. unfold escaped. rewrite fmap_app, concat_app. cbn. by rewrite app_nil_r. Qed.

Lemma escaped_length s : zlen (escaped s) <= 2 * zlen s.
Proof.
  induction s as [|c s IH]; [done|]. rewrite escaped_cons, zlen_app, zlen_cons.
  unfold escape_char. destruct (quoted c); rewrite !zlen_cons, zlen_nil; lia.
Qed.

Lemma plain_not_nul c : plain c = true -> c <> NUL.
Proof. intros H ->. done. Qed.

Lemma plain_backslash c : plain c = true -> ceq c backslash = false.
Proof. unfold plain. intros H. zbool. done. Qed.

Lemma to_char_id c : to_char (uchar c) = c.
Proof. apply to_char_uchar. Qed.

Section Expanding.
Context `{Malloc}.
Implicit Types (b : STROB) (s t : bytes).

(** The text and its exact length. *)
Definition exact b t : Prop := text b t /\ length_ b = zlen t.

Lemma chr_index_exact b t c :
  exact b t -> zlen t + 2 <= SMALL -> c <> NUL ->
  exists b', strob_chr_index b (zlen t) (uchar c) = Some b' /\ exact b' (t ++ [c]).
Proof.
  intros [T Hl] Hs Hc. pose proof (strob_chr_spec b t (uchar c) T Hl Hs) as HS.
  rewrite to_char_id in HS. destruct (HS Hc) as (b' & E & T' & HL).
  unfold strob_chr in E. rewrite (text_strlen _ _ T) in E. exists b'. split; [done|]. split; [done|]. by rewrite zlen_snoc.
Qed.

Lemma mem_read_before_nul s k c : s !! k = Some c -> mem_read (s ++ [NUL]) (Z.of_nat k) = Some c.
Proof.
  intros Hk. unfold mem_read. ztest. rewrite Nat2Z.id.
  rewrite lookup_app_l; [done|]. by apply lookup_lt_Some in Hk.
Qed.

Lemma mem_read_some s k : (k <= length s)%nat -> exists c, mem_read (s ++ [NUL]) (Z.of_nat k) = Some c.
Proof.
  intros Hk. unfold mem_read. ztest. rewrite Nat2Z.id. apply lookup_lt_is_Some_2. rewrite length_app. cbn. lia.
Qed.

Lemma escaped_last_not_backslash s : Forall (fun c => plain c = true) s ->
  ends_with backslash (escaped s) = false.
Proof.
  intros HF. destruct s as [|c s _] using rev_ind; [done|].
  apply Forall_app in HF as [_ HF]. apply Forall_cons in HF as [Hc _].
  rewrite escaped_snoc. unfold escape_char. destruct (quoted c).
  - rewrite (app_assoc _ [backslash] [c]). rewrite ends_with_snoc. by apply plain_backslash.
  - rewrite ends_with_snoc. by apply plain_backslash.
Qed.

Lemma get_char_last b t :
  exact b t -> strob_get_char b (zlen t - 1) = Some (match last t with Some c => uchar c | None => -1 end).
Proof.
  intros [T Hl]. unfold strob_get_char. rewrite Hl. pose proof (zlen_nonneg t).
  destruct (zlen t - 1 <? 0) eqn:E; zbool.
  { assert (t = []) as -> by (apply zlen_0; lia). done. }
  ztest. unfold mem_read. ztest. destruct (text_holds _ _ T) as (_ & Ht & _).
  specialize (Ht (Z.to_nat (zlen t - 1))). cbn [Nat.add] in Ht. rewrite Ht by (unfold zlen in *; lia).
  rewrite last_lookup. replace (Z.to_nat (zlen t - 1)) with (pred (length t)) by (unfold zlen; lia).
  destruct (lookup_lt_is_Some_2 t (pred (length t))) as [c ->]; [unfold zlen in *; lia|done].
Qed.

Lemma expand_loop_plain rest : forall fuel pre store count i j,
  Forall (fun c => plain c = true) (pre ++ rest) -> exact store (escaped pre) ->
  i = zlen pre -> i + j = zlen (escaped pre) -> (length rest < fuel)%nat ->
  zlen (escaped (pre ++ rest)) + 4 <= SMALL ->
  exists store', expand_loop fuel (pre ++ rest) store count i j (zlen pre)
                 = Some (store', zlen (escaped (pre ++ rest)))
    /\ text store' (escaped (pre ++ rest)).
Proof.
  induction rest as [|c rest IH]; intros fuel pre store count i j HF HE Hi Hj Hf Hs;
    (destruct fuel as [|fuel]; [lia|]); cbn [expand_loop].
  - rewrite app_nil_r in *. ztest. rewrite Hj. destruct HE as [T Hl]. pose proof (zlen_nonneg (escaped pre)).
    destruct (strob_chr_index_spec store (zlen (escaped pre)) 0 (text_wf _ _ T))
      as (s' & -> & W' & _ & Hl' & Hc & Hlo & _); [lia|lia|]. obind.
    exists s'. split; [done|]. constructor; [done| |lia]. pose proof T as T0.
    destruct T as [_ (Hn & Ht & Hz) _]. split; [done|]. unfold zlen in *. split.
    + intros k Hk. cbn [Nat.add]. pose proof (text_reserve _ _ T0). unfold zlen in *.
      rewrite Hlo by lia. by apply Ht.
    + rewrite Nat2Z.id in Hc. exact Hc.
  - assert (Hc : plain c = true) by (apply Forall_app in HF as [_ HF]; by apply Forall_cons in HF as [? _]).
    assert (Hlt : zlen pre < zlen (pre ++ c :: rest))
      by (rewrite zlen_app, zlen_cons; pose proof (zlen_nonneg rest); lia).
    ztest. assert (mem_read ((pre ++ c :: rest) ++ [NUL]) (zlen pre) = Some c) as ->
      by (apply mem_read_before_nul; by apply list_lookup_middle). obind.
    destruct (mem_read_some (pre ++ c :: rest) (S (length pre))) as [next Hnext]; [rewrite length_app; cbn; lia|].
    replace (Z.of_nat (S (length pre))) with (zlen pre + 1) in Hnext by (unfold zlen; lia).
    rewrite Hnext. obind. rewrite (plain_backslash _ Hc).
    assert (Hr : 7 <= uchar c < 127) by (unfold plain in Hc; zbool; lia). ztest.
    pose proof (plain_not_nul _ Hc) as Hnn.
    assert (Hpre : Forall (fun c => plain c = true) pre) by (by apply Forall_app in HF as [? _]).
    assert (Hsz : zlen (escaped pre) + zlen (escape_char c) + 4 <= SMALL).
    { unfold escaped in *. rewrite fmap_app, concat_app, zlen_app in Hs. cbn [fmap list_fmap concat] in Hs.
      rewrite zlen_app in Hs. pose proof (zlen_nonneg (concat (escape_char <$> rest))). lia. }
    assert (Hgo : forall st j', exact st (escaped (pre ++ [c])) -> i + 1 + j' = zlen (escaped (pre ++ [c])) ->
      exists store', expand_loop fuel (pre ++ c :: rest) st 0 (i + 1) j' (zlen pre + 1)
                     = Some (store', zlen (escaped (pre ++ c :: rest)))
        /\ text store' (escaped (pre ++ c :: rest))).
    { intros st j' HE' Hj'. rewrite cons_middle, app_assoc in HF, Hs |- *.
      rewrite <- (zlen_snoc pre c). apply IH; try done; [rewrite zlen_snoc; lia|cbn in Hf; lia]. }
    unfold escape_char in Hsz. rewrite escaped_snoc in Hgo. unfold escape_char in Hgo.
    fold (quoted c). destruct (quoted c) eqn:Eq.
    + change (zlen [backslash; c]) with 2 in Hsz. rewrite Hj, (get_char_last _ _ HE). obind.
      pose proof (escaped_last_not_backslash pre Hpre) as Hlast. unfold ends_with in Hlast.
      assert (((match last (escaped pre) with Some c => uchar c | None => -1 end) =? 92) = false) as ->.
      { destruct (last (escaped pre)) as [d|]; [|done]. apply Z.eqb_neq. intros E.
        apply ceq_neq in Hlast. apply Hlast, uchar_inj. by rewrite E. }
      cbn [negb]. destruct (chr_index_exact store _ backslash HE) as (s1 & E1 & HE1); [lia|done|].
      change (uchar backslash) with 92 in E1. rewrite E1. obind.
      replace (i + (j + 1)) with (zlen (escaped pre ++ [backslash])) by (rewrite zlen_snoc; lia).
      destruct (chr_index_exact s1 _ c HE1) as (s2 & -> & HE2); [rewrite zlen_snoc; lia|done|]. obind.
      rewrite <- app_assoc in HE2. apply Hgo; [exact HE2|rewrite zlen_app; change (zlen ([backslash] ++ [c])) with 2; change (zlen [backslash; c]) with 2; lia].
    + change (zlen [c]) with 1 in Hsz. rewrite Hj. destruct (chr_index_exact store _ c HE) as (s1 & -> & HE1); [lia|done|]. obind.
      apply Hgo; [exact HE1|rewrite zlen_snoc; lia].
Qed.
End Expanding.

(** ** Unexpanding *)

Section Unexpanding.
Context `{Malloc}.
Implicit Types (b : STROB) (s t m : bytes).

(** [m] starts with [t] and agrees with [m0] behind it. *)
Record filled m0 m t : Prop := {
  fi_length : length m = length m0;
  fi_prefix : forall i, (i < length t)%nat -> m !! i = t !! i;
  fi_rest : forall i, (length t <= i)%nat -> m !! i = m0 !! i;
}.

Lemma filled_refl m : filled m m [].
Proof. split; [done| |done]. intros i Hi. cbn in Hi. lia. Qed.

Lemma filled_snoc m0 m t c :
  filled m0 m t -> (length t < length m0)%nat ->
  exists m', mem_write m (zlen t) [c] = Some m' /\ filled m0 m' (t ++ [c]).
Proof.
  intros [Hl Hp Hr] Hlt. destruct (mem_write_exists m (zlen t) [c]) as [m' E];
    [apply zlen_nonneg|rewrite zlen_cons, zlen_nil; unfold zlen; lia|].
  exists m'. split; [done|]. pose proof (fun i => mem_write_lookup _ _ _ _ i E) as LL.
  change (zlen [c]) with 1 in LL. unfold zlen in LL.
  split; [rewrite (mem_write_length _ _ _ _ E); lia| |]; intros i Hi; rewrite length_app in Hi; cbn in Hi; rewrite LL.
  - destruct (decide (i < length t)%nat).
    + rewrite decide_False, lookup_app_l by lia. by apply Hp.
    + rewrite decide_True, lookup_app_r by lia. f_equal. lia.
  - rewrite decide_False by lia. apply Hr. lia.
Qed.

Lemma filled_nul m0 m t :
  filled m0 m t -> no_nul t -> (length t < length m0)%nat ->
  exists m', mem_write m (zlen t) [NUL] = Some m' /\ holds m' 0 t /\ length m' = length m0
    /\ forall i, (length t < i)%nat -> m' !! i = m0 !! i.
Proof.
  intros HF Hn Hl. destruct (filled_snoc m0 m t NUL HF Hl) as (m' & E & [Hl' Hp Hr]).
  exists m'. split; [done|]. rewrite length_app in Hp, Hr. cbn in Hp, Hr. split; [|split; [done|]].
  - split; [done|]. split.
    + intros i Hi. cbn [Nat.add]. rewrite Hp by lia. by apply lookup_app_l.
    + cbn [Nat.add]. rewrite Hp by lia. by apply list_lookup_middle.
  - intros i Hi. apply Hr. lia.
Qed.

Lemma plain_value c : plain c = true -> quoted c = true ->
  (let '(v, rec) := swlib_ansi_escaped_value c in if rec then (v, rec) else swlib_c701_escaped_value c)
  = (c, true).
Proof.
  unfold quoted. intros _ Hq. zbool. by destruct Hq as [->%ceq_eq| ->%ceq_eq].
Qed.

Lemma unexpand_loop_escaped rest : forall fuel pre A m0 m,
  Forall (fun c => plain c = true) rest -> filled m0 m pre ->
  (length (pre ++ rest) < length m0)%nat -> no_nul pre -> (length (escaped rest) < fuel)%nat ->
  exists m', unexpand_loop fuel (Some ((A ++ escaped rest) ++ [NUL])) m (zlen A) (zlen (A ++ escaped rest)) (zlen pre)
             = Some (Returns (m', zlen (pre ++ rest)))
    /\ holds m' 0 (pre ++ rest) /\ length m' = length m0
    /\ forall i, (length (pre ++ rest) < i)%nat -> m' !! i = m0 !! i.
Proof.
  induction rest as [|c rest IH]; intros fuel pre A m0 m HF HM Hl Hn Hf; (destruct fuel as [|fuel]; [lia|]);
    cbn [unexpand_loop].
  - change (escaped []) with (@nil ascii) in *. rewrite !app_nil_r in *. ztest.
    destruct (filled_nul m0 m pre HM Hn Hl) as (m' & -> & Hh & Hl' & Hr). obind. by exists m'.
  - apply Forall_cons in HF as [Hc HF]. rewrite escaped_cons in Hf |- *.
    assert (Hnn := plain_not_nul c Hc). assert (Hlp : (length pre < length m0)%nat) by (rewrite length_app in Hl; lia).
    assert (Hnext : forall A' : bytes, A' ++ escaped rest = A ++ escape_char c ++ escaped rest ->
      forall m1, filled m0 m1 (pre ++ [c]) ->
      exists m', unexpand_loop fuel (Some ((A ++ escape_char c ++ escaped rest) ++ [NUL])) m1 (zlen A')
                   (zlen (A ++ escape_char c ++ escaped rest)) (zlen pre + 1)
                 = Some (Returns (m', zlen (pre ++ c :: rest)))
        /\ holds m' 0 (pre ++ c :: rest) /\ length m' = length m0
        /\ forall i, (length (pre ++ c :: rest) < i)%nat -> m' !! i = m0 !! i).
    { intros A' <- m1 HM1. replace (pre ++ c :: rest) with ((pre ++ [c]) ++ rest) in * by (by rewrite <- app_assoc).
      rewrite <- (zlen_snoc pre c).
      apply IH; try done; [apply no_nul_app; split; [done|]; by apply no_nul_cons; split; [|apply no_nul_nil]|].
      rewrite length_app in Hf. unfold escape_char in Hf. destruct (quoted c); cbn in Hf; lia. }
    assert (Hval := plain_value c Hc). unfold escape_char in *. destruct (quoted c) eqn:Eq.
    + assert ((zlen A <? zlen (A ++ [backslash; c] ++ escaped rest)) = true) as ->.
      { apply Z.ltb_lt. rewrite !zlen_app. change (zlen [backslash; c]) with 2. pose proof (zlen_nonneg (escaped rest)). lia. }
      assert (mem_read ((A ++ [backslash; c] ++ escaped rest) ++ [NUL]) (zlen A) = Some backslash) as ->
        by (apply mem_read_before_nul; by apply list_lookup_middle). obind.
      assert (mem_read ((A ++ [backslash; c] ++ escaped rest) ++ [NUL]) (zlen A + 1) = Some c) as ->.
      { replace (zlen A + 1) with (Z.of_nat (length (A ++ [backslash]))) by (rewrite length_app; unfold zlen; cbn; lia).
        apply mem_read_before_nul. change ([backslash; c] ++ escaped rest) with ([backslash] ++ c :: escaped rest).
        rewrite app_assoc. by apply list_lookup_middle. }
      rewrite ceq_refl. obind. assert (is_nul c = false) as -> by by apply ceq_neq. cbn [andb negb].
      specialize (Hval eq_refl). destruct (swlib_ansi_escaped_value c) as [v rec]. rewrite Hval.
      assert (negative_char c = false) as -> by (unfold plain in Hc; unfold negative_char; zbool; apply Z.leb_gt; lia).
      destruct (filled_snoc m0 m pre c HM Hlp) as (m1 & -> & HM1). obind.
      replace (zlen A + 2) with (zlen (A ++ [backslash; c])) by (rewrite zlen_app; done).
      apply Hnext; [by rewrite <- app_assoc|done].
    + assert ((zlen A <? zlen (A ++ [c] ++ escaped rest)) = true) as ->.
      { apply Z.ltb_lt. rewrite !zlen_app. change (zlen [c]) with 1. pose proof (zlen_nonneg (escaped rest)). lia. }
      assert (mem_read ((A ++ [c] ++ escaped rest) ++ [NUL]) (zlen A) = Some c) as ->
        by (apply mem_read_before_nul; by apply list_lookup_middle). obind.
      rewrite (plain_backslash _ Hc). cbn [andb]. obind.
      destruct (filled_snoc m0 m pre c HM Hlp) as (m1 & -> & HM1). obind.
      rewrite <- (zlen_snoc A c). apply Hnext; [by rewrite <- app_assoc|done].
Qed.
End Unexpanding.

Section UnexpandStore.
Context `{Malloc}.

Lemma strcpy_empty b :
  wf b -> exists m, strob_strcpy b [] = Some (set_str m (set_len 0 b)) /\ wf (set_str m (set_len 0 b))
    /\ length m = length (str_ b).
Proof.
  intros W. pose proof (wf_reserve _ W) as Hr. unfold strob_strcpy, strob_strcpy_at_offset.
  unfold strob_reopen_if. change (to_int (to_size (zlen (@nil ascii) + 0 + 1))) with 1. assert ((1 >? reserve_ b) = false) as -> by (rewrite Z.gtb_ltb; apply Z.ltb_ge; lia).
  obind. destruct (mem_write_exists (str_ b) 0 [NUL]) as [m E];
    [done|rewrite (wf_size _ W); change (zlen [NUL]) with 1; lia|].
  change ([] ++ [NUL]) with [NUL]. rewrite E. obind. exists m. split; [done|].
  split; [|exact (mem_write_length _ _ _ _ E)].
  eapply wf_write; [exact W|exact E|done|by right].
Qed.

Lemma unexpand_escapes_spec b s :
  wf b -> Forall (fun c => plain c = true) s -> zlen (escaped s) + 1 < SMALL ->
  exists d, swlib_unexpand_escapes b (escaped s) = Some (Returns d) /\ wf d
    /\ strob_str d = Some s /\ length_ d = 0.
Proof.
  intros W HF Hs. unfold swlib_unexpand_escapes. pose proof (zlen_nonneg (escaped s)) as H0.
  destruct (strob_set_length_spec b (zlen (escaped s)) W) as (b1 & E1 & W1 & Hl1 & Hn1 & _); [lia|].
  assert (Hroom : zlen (escaped s) < zlen (str_ b1)) by (apply lookup_lt_Some in Hn1; unfold zlen in *; lia).
  rewrite E1. obind. destruct (strcpy_empty b1 W1) as (m1 & -> & W2 & Hm1). obind. cbn [str_ set_str].
  assert (Hlen : (length s <= length (escaped s))%nat).
  { clear. induction s as [|c s IH]; [done|]. rewrite escaped_cons, length_app. unfold escape_char.
    destruct (quoted c); cbn; lia. }
  destruct (unexpand_loop_escaped s (S (length (escaped s))) [] [] m1 m1 HF) as (m2 & E2 & Hh & Hl2 & Hr2);
    [by apply filled_refl|unfold zlen in *; cbn; lia|apply no_nul_nil|lia|].
  cbn [app] in E2. change (zlen []) with 0 in E2. rewrite E2. obind.
  eexists. split; [done|]. split; [|split; [by apply str_at_0_holds|done]].
  pose proof (wf_size _ W2) as Hz. pose proof (wf_reserve _ W2). cbn in Hz.
  destruct W2. constructor; cbn in *; try done; [unfold zlen in *; lia|].
  destruct Hh as (_ & _ & Hnul). cbn [app Nat.add] in Hnul, Hr2.
  destruct (decide (Z.to_nat (reserve_ b1 - 1) = length s)) as [->|]; [done|].
  rewrite Hr2; [done|]. unfold zlen in *. lia.
Qed.

Lemma expand_escapes_spec s (ustore : option STROB) :
  Forall (fun c => plain c = true) s -> 2 * zlen s + 4 <= SMALL ->
  (forall u, ustore = Some u -> wf u) ->
  exists e, swlib_expand_escapes s ustore = Some (e, zlen (escaped s)) /\ text e (escaped s).
Proof.
  intros HF Hs Hu. unfold swlib_expand_escapes.
  assert (exists st, (match ustore with Some u => strob_strcpy u [] | None => strob_open 20 end) = Some st
    /\ exact st []) as (st & -> & HE).
  { destruct ustore as [u|].
    - destruct (strob_strcpy_spec u [] (Hu u eq_refl) no_nul_nil) as (st & E & T & _ & Hl); [done|].
      exists st. by split.
    - destruct (strob_open_spec 20) as (st & E & T & Hl); [done|]. exists st. by split. }
  obind. pose proof (escaped_length s).
  apply (expand_loop_plain s (S (length s)) [] st 0 0 0 HF HE); [done|done|lia|cbn [app]; lia].
Qed.
End UnexpandStore.

(** ** Hexadecimal sequences *)

Definition hex_plain (c : ascii) : bool := (7 <=? uchar c) && (uchar c <? 127).

(** Every byte outside 7 .. 126 written as \xHH. *)
Definition hex_char (c : ascii) : bytes := if hex_plain c then [c] else hex_text c.
Definition hex_escaped (s : bytes) : bytes := concat (hex_char <$> s).

Lemma hex_digit_value n : 0 <= n < 16 ->
  exists d, hex_digit n = to_char d /\ 0 <= d < 128 /\ d <> 0
    /\ convert_hex_seq (toupper d) 48 = 16 * n /\ convert_hex_seq 48 (toupper d) = n.
Proof.
  intros Hn. exists (if n <? 10 then 48 + n else 55 + n).
  assert (Hin : In n [0;1;2;3;4;5;6;7;8;9;10;11;12;13;14;15]) by (cbn; lia).
  cbn in Hin. repeat (destruct Hin as [<-|Hin]; [repeat split; vm_compute; congruence|]). done.
Qed.

Lemma convert_split a b x y :
  convert_hex_seq a 48 = 16 * x -> 0 <= x -> convert_hex_seq 48 b = y -> 0 <= y -> convert_hex_seq a b = 16 * x + y.
Proof.
  unfold convert_hex_seq. change (digit_code 48) with true. cbn [negb andb].
  destruct (negb (digit_code a) && _); [lia|]. destruct (negb (digit_code b) && _); [lia|].
  intros. destruct (digit_code a), (digit_code b); lia.
Qed.

Lemma hex_text_value c :
  exists d1 d2, hex_text c = [backslash; "x"%char; d1; d2] /\ d1 <> NUL /\ d2 <> NUL
    /\ convert_hex_seq (toupper (uchar d1)) (toupper (uchar d2)) = uchar c.
Proof.
  pose proof (uchar_range c) as Hr. pose proof (Z.div_mod (uchar c) 16) as Hdm.
  pose proof (Z.mod_pos_bound (uchar c) 16).
  destruct (hex_digit_value (uchar c / 16)) as (a & Ea & Ha & Ha0 & Va & _).
  { split; [apply Z.div_pos; lia|apply Z.div_lt_upper_bound; lia]. }
  destruct (hex_digit_value (uchar c mod 16)) as (b & Eb & Hb & Hb0 & _ & Vb); [lia|].
  exists (hex_digit (uchar c / 16)), (hex_digit (uchar c mod 16)). split; [done|].
  rewrite Ea, Eb. assert (Hu : forall d, 0 <= d < 128 -> uchar (to_char d) = d)
    by (intros d Hd; rewrite uchar_to_char, Z.mod_small; lia).
  assert (Hnz : forall d, 0 <= d < 128 -> d <> 0 -> to_char d <> NUL).
  { intros d Hd Hd0 E. apply Hd0. rewrite <- (Hu d Hd), E. done. }
  split; [by apply Hnz|]. split; [by apply Hnz|]. rewrite !Hu by done.
  rewrite (convert_split _ _ _ _ Va (proj1 (conj (Z.div_pos (uchar c) 16 (proj1 Hr) eq_refl) I)) Vb); lia.
Qed.

Section HexPass.
Implicit Types (m s p : bytes).

Definition no_backslash s : Prop := Forall (fun c => ceq c backslash = false) s.

Lemma hex_escaped_cons c s : hex_escaped (c :: s) = hex_char c ++ hex_escaped s.
Proof. done. Qed.

Lemma hex_escaped_app p s : hex_escaped (p ++ s) = hex_escaped p ++ hex_escaped s.
Proof. unfold hex_escaped. by rewrite fmap_app, concat_app. Qed.

Lemma hex_escaped_plain p : Forall (fun c => hex_plain c = true) p -> hex_escaped p = p.
Proof.
  induction 1 as [|c p Hc HF IH]; [done|]. rewrite hex_escaped_cons, IH. unfold hex_char. by rewrite Hc.
Qed.

(** Up to the first byte that is written in hexadecimal. *)
Lemma first_hex s :
  Forall (fun c => hex_plain c = true) s
  \/ exists p c r, s = p ++ c :: r /\ Forall (fun c => hex_plain c = true) p /\ hex_plain c = false.
Proof.
  induction s as [|c s IH]; [by left|]. destruct (hex_plain c) eqn:E.
  - destruct IH as [HF|(p & d & r & -> & HF & Hd)]; [left; by constructor|right].
    exists (c :: p), d, r. split; [done|]. split; [by constructor|done].
  - right. by exists [], c, s.
Qed.

Lemma strstr_after_plain p q n : no_backslash p -> strstr (p ++ q) (backslash :: n) =
  match strstr q (backslash :: n) with Some i => Some (length p + i)%nat | None => None end.
Proof.
  induction 1 as [|c p Hc HF IH]; cbn [app]; [cbn; by destruct (strstr q _)|].
  cbn [strstr is_prefix]. assert (ceq backslash c = false) as ->
    by (apply ceq_neq in Hc; apply ceq_neq; congruence). cbn [andb]. rewrite IH.
  by destruct (strstr q _).
Qed.

Lemma mem_read_holds m s k c : holds m 0 s -> s !! k = Some c -> mem_read m (Z.of_nat k) = Some c.
Proof.
  intros (_ & Hs & _) Hk. unfold mem_read. ztest. rewrite Nat2Z.id, <- Hk. apply (Hs k).
  by apply lookup_lt_Some in Hk.
Qed.

(** Overwriting one character of the text. *)
Lemma edit_set m a x b c :
  holds m 0 (a ++ x :: b) -> c <> NUL ->
  exists m', mem_write m (zlen a) [c] = Some m' /\ edited m (a ++ x :: b) m' (a ++ c :: b).
Proof.
  intros H Hc. pose proof (holds_bound _ _ _ H) as Hb. rewrite length_app in Hb. cbn in Hb.
  destruct (mem_write_exists m (zlen a) [c]) as [m' E];
    [apply zlen_nonneg|change (zlen [c]) with 1; unfold zlen; lia|].
  exists m'. split; [done|]. pose proof (fun i => mem_write_lookup _ _ _ _ i E) as LL.
  change (zlen [c]) with 1 in LL. unfold zlen in LL. destruct H as (Hn & Hs & Hz).
  apply no_nul_app in Hn as [Hna Hn]. apply no_nul_cons in Hn as [_ Hnb].
  split; [|exact (mem_write_length _ _ _ _ E)| |rewrite !length_app; cbn; lia].
  - split; [apply no_nul_app; split; [done|by apply no_nul_cons]|]. rewrite length_app in *. cbn [length Nat.add] in *. split.
    + intros i Hi. rewrite LL. destruct (decide (i = length a)) as [->|Hne].
      * rewrite decide_True, list_lookup_middle, Nat2Z.id, Nat.sub_diag by lia. done.
      * rewrite decide_False by lia. specialize (Hs i). cbn [Nat.add] in Hs. rewrite Hs by lia.
        destruct (decide (i < length a)%nat); [by rewrite !lookup_app_l by done|].
        rewrite !lookup_app_r by lia. destruct (i - length a)%nat eqn:Ei; [lia|done].
    + rewrite LL, decide_False by lia. exact Hz.
  - intros i Hi. rewrite length_app in Hi. cbn in Hi. rewrite LL. by rewrite decide_False by lia.
Qed.

Definition seq4 d1 d2 : bytes := [backslash; "x"%char; d1; d2].

Lemma hex_found m pre p c d1 d2 E :
  holds m 0 (pre ++ p ++ seq4 d1 d2 ++ E) -> no_backslash p -> d1 <> NUL -> d2 <> NUL ->
  convert_hex_seq (toupper (uchar d1)) (toupper (uchar d2)) = uchar c ->
  does_have_hex_escape m (zlen pre) = Some (Some (zlen (pre ++ p), uchar c)).
Proof.
  intros H HBp Hd1 Hd2 Hv. unfold does_have_hex_escape. pose proof (zlen_nonneg pre).
  rewrite (str_at_drop _ _ _ H) by (rewrite zlen_app; pose proof (zlen_nonneg (p ++ seq4 d1 d2 ++ E)); lia).
  replace (Z.to_nat (zlen pre)) with (length pre) by (unfold zlen; lia). rewrite drop_app_length. obind.
  rewrite (strstr_after_plain p _ ["x"%char] HBp).
  assert (strstr (seq4 d1 d2 ++ E) [backslash; "x"%char] = Some O) as -> by (apply strstr_0; by eexists).
  rewrite Nat.add_0_r. set (rp := zlen (pre ++ p)).
  replace (zlen pre + Z.of_nat (length p)) with rp by (subst rp; rewrite zlen_app; done).
  assert (Hrd : forall k d, seq4 d1 d2 !! k = Some d -> mem_read m (rp + Z.of_nat k) = Some d).
  { intros k d Hk. pose proof (lookup_lt_Some _ _ _ Hk) as Hkl.
    replace (rp + Z.of_nat k) with (Z.of_nat (length (pre ++ p) + k)) by (subst rp; unfold zlen; lia).
    eapply mem_read_holds; [exact H|]. rewrite app_assoc, lookup_app_r, Nat.add_comm, Nat.add_sub by lia.
    by rewrite lookup_app_l. }
  assert (exists d, (if (length p =? 0)%nat then Some "x"%char else mem_read m (rp - 1)) = Some d
                    /\ ceq d backslash = false) as (d & -> & Hd).
  { destruct p as [|x p' _] using rev_ind; [by exists "x"%char|].
    assert ((length (p' ++ [x]) =? 0)%nat = false) as -> by (apply Nat.eqb_neq; rewrite length_app; cbn; lia).
    exists x. apply Forall_app in HBp as [_ HBp]. apply Forall_cons in HBp as [Hx _]. split; [|done].
    replace (rp - 1) with (Z.of_nat (length (pre ++ p'))) by (subst rp; unfold zlen; rewrite !length_app; cbn; lia).
    eapply mem_read_holds; [exact H|]. rewrite <- app_assoc, (app_assoc pre p'). by apply list_lookup_middle. }
  obind. rewrite Hd. rewrite (Hrd 2%nat d1 eq_refl : mem_read m (rp + 2) = Some d1). obind.
  assert (is_nul d1 = false) as -> by by apply ceq_neq.
  replace (rp + 2 + 1) with (rp + Z.of_nat 3) by lia. rewrite (Hrd 3%nat d2 eq_refl). obind.
  assert (is_nul d2 = false) as -> by by apply ceq_neq. rewrite Hv.
  pose proof (uchar_range c) as Hcr. by ztest.
Qed.

Lemma hex_replace m q c d1 d2 E :
  holds m 0 (q ++ seq4 d1 d2 ++ E) -> c <> NUL ->
  exists m', (n ← strlen_at m (zlen q + 4); m ← memmove m (zlen q + 1) (zlen q + 4) (n + 1);
              mem_write m (zlen q) [c]) = Some m'
    /\ edited m (q ++ seq4 d1 d2 ++ E) m' ((q ++ [c]) ++ E).
Proof.
  intros H Hc. pose proof (zlen_nonneg q). pose proof (zlen_nonneg E).
  assert (HzT : zlen (q ++ seq4 d1 d2 ++ E) = zlen q + 4 + zlen E)
    by (rewrite !zlen_app; change (zlen (seq4 d1 d2)) with 4; lia).
  rewrite (strlen_at_drop _ _ _ H) by lia. obind. rewrite HzT.
  replace (zlen q + 4 + zlen E - (zlen q + 4) + 1) with (zlen E + 1) by lia.
  replace (q ++ seq4 d1 d2 ++ E) with ((q ++ [backslash]) ++ ["x"%char; d1; d2] ++ E) in *
    by (rewrite <- !app_assoc; reflexivity).
  destruct (edit_move m (q ++ [backslash]) ["x"%char; d1; d2] E H ltac:(discriminate)) as (m1 & E1 & ED1).
  rewrite zlen_snoc in E1. replace (zlen q + 1 + zlen ["x"%char; d1; d2]) with (zlen q + 4) in E1
    by (change (zlen ["x"%char; d1; d2]) with 3; lia).
  rewrite E1. obind. replace ((q ++ [backslash]) ++ E) with (q ++ backslash :: E) in ED1 by (by rewrite <- app_assoc).
  destruct (edit_set m1 q backslash E c (ed_holds _ _ _ _ ED1) Hc) as (m2 & E2 & ED2).
  exists m2. split; [done|]. rewrite <- (app_assoc q [c]). exact (edited_trans _ _ _ _ _ _ ED1 ED2).
Qed.

Lemma hex_pass rest : forall fuel m pre,
  holds m 0 (pre ++ hex_escaped rest) -> no_backslash rest -> no_nul rest -> (length rest < fuel)%nat ->
  exists m', hex_loop fuel m (zlen pre) = Some m' /\ edited m (pre ++ hex_escaped rest) m' (pre ++ rest).
Proof.
  induction rest as [rest IH] using (induction_ltof1 _ length); unfold ltof in IH.
  intros fuel m pre H HB HN Hf. destruct fuel as [|fuel]; [lia|]. cbn [hex_loop].
  destruct (first_hex rest) as [HF|(p & c & r & -> & HF & Hc)].
  - rewrite (hex_escaped_plain _ HF) in H |- *. unfold does_have_hex_escape. pose proof (zlen_nonneg pre).
    rewrite (str_at_drop _ _ _ H) by (rewrite zlen_app; pose proof (zlen_nonneg rest); lia).
    replace (Z.to_nat (zlen pre)) with (length pre) by (unfold zlen; lia). rewrite drop_app_length. obind.
    pose proof (strstr_after_plain rest [] ["x"%char] HB) as E.
    rewrite app_nil_r in E. rewrite E. obind. exists m. split; [done|auto with path].
  - apply Forall_app in HB as [HBp HB]. apply Forall_cons in HB as [HBc HB].
    apply no_nul_app in HN as [HNp HN]. apply no_nul_cons in HN as [HNc HN].
    destruct (hex_text_value c) as (d1 & d2 & Ht & Hd1 & Hd2 & Hv).
    assert (He : hex_escaped (p ++ c :: r) = p ++ seq4 d1 d2 ++ hex_escaped r).
    { rewrite hex_escaped_app, (hex_escaped_plain p HF), hex_escaped_cons. unfold hex_char. by rewrite Hc, Ht. }
    rewrite He in H |- *. rewrite (hex_found m pre p c d1 d2 _ H HBp Hd1 Hd2 Hv). obind.
    rewrite (app_assoc pre p) in H |- *. rewrite to_char_id.
    destruct (hex_replace m (pre ++ p) c d1 d2 _ H HNc) as (m2 & E2 & ED2).
    destruct (strlen_at m (zlen (pre ++ p) + 4)) as [n|]; [|done]. cbn [mbind option_bind] in E2 |- *.
    destruct (memmove m _ _ _) as [m1|]; [|done]. cbn [mbind option_bind] in E2 |- *. rewrite E2. obind.
    rewrite <- (zlen_snoc (pre ++ p) c).
    destruct (IH r ltac:(rewrite length_app; cbn; lia) fuel m2 ((pre ++ p) ++ [c])) as (m3 & -> & ED3);
      [apply ED2|done|done|rewrite length_app in Hf; cbn in Hf; lia|].
    exists m3. split; [done|]. replace (pre ++ p ++ c :: r) with (((pre ++ p) ++ [c]) ++ r) by (by rewrite <- !app_assoc).
    by eapply edited_trans.
Qed.
End HexPass.

(** ** Theorems *)

Section EscapeTheorems.
Context `{Malloc}.

(** For text of printable ASCII and white space without backslashes,
    swlib_expand_escapes quotes '#' and the double quote, whatever object it is
    given to reuse, and swlib_unexpand_escapes gives the text back; both
    terminate.  The recorded length of the object stays 0. *)
Theorem escape_roundtrip (s : bytes) (ustore : option STROB) (dst : STROB) :
  Forall (fun c => plain c = true) s -> 2 * zlen s + 4 <= SMALL ->
  (forall u, ustore = Some u -> wf u) -> wf dst ->
  exists e d, swlib_expand_escapes s ustore = Some (e, zlen (escaped s)) /\ text e (escaped s)
    /\ swlib_unexpand_escapes dst (escaped s) = Some (Returns d)
    /\ wf d /\ strob_str d = Some s /\ length_ d = 0.
Proof.
  intros HF Hs Hu W. destruct (expand_escapes_spec s ustore HF Hs Hu) as (e & E & T).
  destruct (unexpand_escapes_spec dst s W HF) as (d & E2 & ?); [pose proof (escaped_length s); lia|].
  by exists e, d.
Qed.
End EscapeTheorems.

(** process_all_hex_escapes terminates and turns the \xHH encoding of any
    text without backslashes back into the text, in place. *)
Theorem hex_escape_roundtrip (m s : bytes) :
  holds m 0 (hex_escaped s) -> no_backslash s -> no_nul s ->
  exists m', process_all_hex_escapes m = Some m' /\ edited m (hex_escaped s) m' s.
Proof.
  intros H HB HN. apply (hex_pass s _ m []); [done|done|done|].
  pose proof (holds_bound _ _ _ H) as Hb. cbn in Hb.
  assert (length s <= length (hex_escaped s))%nat; [|lia]. clear. induction s as [|c s IH]; [done|].
  rewrite hex_escaped_cons, length_app. unfold hex_char. destruct (hex_plain c); cbn; lia.
Qed.

(** The text of the object after expanding [second] in the object that was used
    to expand [first]. *)
Definition expand_reusing `{Malloc} (first second : bytes) : option bytes :=
  '(u, _) ← swlib_expand_escapes first None;
  '(u, _) ← swlib_expand_escapes second (Some u);
  strob_str u.

(** An object that held a longer text garbles the expansion of bytes outside
    ASCII: the second \xHH is printed behind the stale tail and cut off, and
    the tail takes its place.  A fresh object is fine. *)
Theorem expand_reuse_garbles `{Malloc} :
  expand_reusing [] (["001"%char] ++ L "bc" ++ ["200"%char] ++ L "z") = Some (L "\x01bc\xC8z")
  /\ expand_reusing (L "0123456789abcdef") (["001"%char] ++ L "bc" ++ ["200"%char] ++ L "z")
     = Some (L "\x01bc6789z").
Proof. split; vm_compute; reflexivity. Qed.

(** A backslash before a byte from 128 on ends the process. *)
Lemma unexpand_fatal `{Malloc} :
  (o ← strob_open 8; swlib_unexpand_escapes o [backslash; "200"%char]) = Some Fatal.
Proof. vm_compute. reflexivity. Qed.

Module Witness.
#[local] Instance zeros : Malloc := fun _ => NUL.

Definition title : bytes := L "Issue #3: say " ++ [quote] ++ L "hi" ++ [quote].

Lemma escape_roundtrip_witness :
  exists dst e d : STROB, swlib_expand_escapes title None = Some (e, 21)
    /\ text e (L "Issue \#3: say \" ++ [quote] ++ L "hi\" ++ [quote])
    /\ swlib_unexpand_escapes dst (L "Issue \#3: say \" ++ [quote] ++ L "hi\" ++ [quote]) = Some (Returns d)
    /\ wf d /\ strob_str d = Some title /\ length_ d = 0.
Proof.
  destruct (strob_open_spec 4) as (dst & _ & T & _); [reflexivity|]. exists dst.
  apply (escape_roundtrip title None dst); [by repeat constructor|discriminate|done|apply T].
Defined.

Lemma hex_escape_roundtrip_witness :
  exists m', process_all_hex_escapes (L "caf\xC3\xA9" ++ [NUL]) = Some m'
    /\ edited (L "caf\xC3\xA9" ++ [NUL]) (L "caf\xC3\xA9") m' (L "caf" ++ ["195"; "169"]%char).
Proof.
  apply (hex_escape_roundtrip (L "caf\xC3\xA9" ++ [NUL]) (L "caf" ++ ["195"; "169"]%char));
    [|by repeat constructor|by apply no_nul_compute].
  eapply (holds_intro _ _ []); [by apply no_nul_compute|reflexivity].
Defined.
End Witness.
