(* ===== verification/Effects.v ===== *)
(** * A state monad for functions that change shared memory

    A computation takes the state and is undefined ([None]), ends the process
    ([Exited]), returns the new state and a result ([Done]), or is still in one
    of its loops, in the state it has come to, when the fuel is used up
    ([Running]).  A loop that never ends is thus one that is [Running] with any
    fuel, and differs from a step that is undefined. *)

From S2P Require Import Prelude CString Strob Escape.

Inductive result (S A : Type) :=
  | Done (s : S) (a : A)
  | Exited
  | Running (s : S).
Arguments Done {S A}.
Arguments Exited {S A}.
Arguments Running {S A}.

Definition ST (S A : Type) : Type := S -> option (result S A).

(** An outcome of a function without a state, with the state [s]. *)
Definition in_state {S A} (s : S) (r : outcome A) : result S A :=
  match r with Fatal => Exited | Returns a => Done s a end.

Section Monad.
Context {S : Type}.

Definition ret {A} (a : A) : ST S A := fun s => Some (Done s a).
Definition bind {A B} (m : ST S A) (k : A -> ST S B) : ST S B := fun s =>
  r ← m s; match r with Done s a => k a s | Exited => Some Exited | Running s => Some (Running s) end.
Definition undef {A} : ST S A := fun _ => None.
Definition exit_process {A} : ST S A := fun _ => Some Exited.
Definition out_of_fuel {A} : ST S A := fun s => Some (Running s).
Definition gets {A} (f : S -> A) : ST S A := fun s => Some (Done s (f s)).
Definition modify (f : S -> S) : ST S () := fun s => Some (Done (f s) ()).

(** A computation that only looks at the state, and one that replaces it. *)
Definition reads {A} (f : S -> option A) : ST S A := fun s => a ← f s; Some (Done s a).
Definition updates (f : S -> option S) : ST S () := fun s => s ← f s; Some (Done s ()).
Definition lift {A} (o : option A) : ST S A := fun s => a ← o; Some (Done s a).

(** A step that is taken when the condition holds. *)
Definition when (b : bool) (m : ST S ()) : ST S () := if b then m else ret ().

(** The computation on a part of a larger state. *)
Definition zoom {T A} (get : T -> S) (put : S -> T -> T) (m : ST S A) : ST T A := fun t =>
  r ← m (get t);
  Some (match r with Done s a => Done (put s t) a | Exited => Exited | Running s => Running (put s t) end).
End Monad.

Declare Scope effects_scope.
Delimit Scope effects_scope with effects.
Notation "'let!' p := m 'in' k" := (bind m (fun p => k))
  (at level 10, p pattern, m at level 100, k at level 200) : effects_scope.
Notation "'do!' m 'in' k" := (bind m (fun _ => k))
  (at level 10, m at level 100, k at level 200) : effects_scope.

(** ** Running a computation *)

Section Runs.
Context {S : Type}.

(** [runs m s s' a]: from [s] the computation returns [a] and leaves [s']. *)
Definition runs {A} (m : ST S A) (s s' : S) (a : A) : Prop := m s = Some (Done s' a).

Lemma runs_ret {A} (a : A) s : runs (ret a) s s a.
Proof. done. Qed.

Lemma runs_bind {A B} (m : ST S A) (k : A -> ST S B) s s1 s2 a b :
  runs m s s1 a -> runs (k a) s1 s2 b -> runs (bind m k) s s2 b.
Proof. unfold runs, bind. intros ->. obind. done. Qed.

Lemma runs_bind_eq {A B} (m : ST S A) (k : A -> ST S B) s s1 a : runs m s s1 a -> bind m k s = k a s1.
Proof. unfold runs, bind. by intros ->. Qed.

Lemma runs_gets {A} (f : S -> A) s : runs (gets f) s s (f s).
Proof. done. Qed.

Lemma runs_modify (f : S -> S) s : runs (modify f) s (f s) ().
Proof. done. Qed.

Lemma runs_reads {A} (f : S -> option A) s a : f s = Some a -> runs (reads f) s s a.
Proof. unfold runs, reads. by intros ->. Qed.

Lemma runs_updates (f : S -> option S) s s' : f s = Some s' -> runs (updates f) s s' ().
Proof. unfold runs, updates. by intros ->. Qed.

Lemma runs_lift {A} (o : option A) s a : o = Some a -> runs (lift o) s s a.
Proof. unfold runs, lift. by intros ->. Qed.

Lemma runs_when_true (m : ST S ()) s s' : runs m s s' () -> runs (when true m) s s' ().
Proof. done. Qed.

Lemma runs_when_false (m : ST S ()) s : runs (when false m) s s ().
Proof. done. Qed.

Lemma runs_det {A} (m : ST S A) s s1 s2 a b : runs m s s1 a -> runs m s s2 b -> s1 = s2 /\ a = b.
Proof. unfold runs. intros -> [= -> ->]. done. Qed.
End Runs.

(** *** A computation whose loops go on *)

(** [running m s s']: the fuel is used up in a loop, in the state [s']. *)
Definition running {S A} (m : ST S A) (s s' : S) : Prop := m s = Some (Running s').

Lemma running_out {S A} (s : S) : running (out_of_fuel : ST S A) s s.
Proof. done. Qed.

Lemma running_now {S A B} (m : ST S A) (k : A -> ST S B) s s1 : running m s s1 -> running (bind m k) s s1.
Proof. unfold running, bind. by intros ->. Qed.

Lemma running_later {S A B} (m : ST S A) (k : A -> ST S B) s s1 s2 a :
  runs m s s1 a -> running (k a) s1 s2 -> running (bind m k) s s2.
Proof. unfold runs, running, bind. intros ->. obind. done. Qed.

Lemma runs_zoom {S T A} (get : T -> S) (put : S -> T -> T) (m : ST S A) t s' a :
  runs m (get t) s' a -> runs (zoom get put m) t (put s' t) a.
Proof. unfold runs, zoom. by intros ->. Qed.

Create HintDb runs.
#[export] Hint Resolve runs_ret runs_gets runs_modify runs_when_false : runs.

(** ** Relations that every run keeps *)

(** Every run of the computation stays in the relation. *)
Definition keeps {S A} (R : S -> S -> Prop) (m : ST S A) : Prop := forall s s' a, runs m s s' a -> R s s'.

Section Keeping.
Context {S : Type} (R : S -> S -> Prop) {HR : PreOrder R}.

Lemma runs_bind_inv {A B} (m : ST S A) (k : A -> ST S B) s s2 b :
  runs (bind m k) s s2 b -> exists s1 a, runs m s s1 a /\ runs (k a) s1 s2 b.
Proof.
  unfold runs, bind. destruct (m s) as [[s1 a| |s1]|] eqn:E; cbn [mbind option_bind]; [|done..]. intros Hk. by exists s1, a.
Qed.

Lemma keeps_bind {A B} (m : ST S A) (k : A -> ST S B) : keeps R m -> (forall a, keeps R (k a)) -> keeps R (bind m k).
Proof.
  intros Hm Hk s s' b Hr. apply runs_bind_inv in Hr as (s1 & a & R1 & R2).
  transitivity s1; [by eapply Hm|by eapply Hk].
Qed.

Lemma keeps_ret {A} (a : A) : keeps R (ret a).
Proof. intros s s' b [= -> _]. reflexivity. Qed.
Lemma keeps_undef {A} : keeps R (@undef S A).
Proof. intros s s' a Hr. done. Qed.
Lemma keeps_out_of_fuel {A} : keeps R (@out_of_fuel S A).
Proof. intros s s' a Hr. done. Qed.
Lemma keeps_exit {A} : keeps R (@exit_process S A).
Proof. intros s s' a Hr. done. Qed.
Lemma keeps_gets {A} (g : S -> A) : keeps R (gets g).
Proof. intros s s' a [= -> _]. reflexivity. Qed.
Lemma keeps_reads {A} (g : S -> option A) : keeps R (reads g).
Proof. intros s s' a. unfold runs, reads. destruct (g s); [|done]. intros [= -> _]. reflexivity. Qed.
Lemma keeps_lift {A} (o : option A) : keeps R (lift o).
Proof. intros s s' a. unfold runs, lift. destruct o; [|done]. intros [= -> _]. reflexivity. Qed.
Lemma keeps_modify (g : S -> S) : (forall s, R s (g s)) -> keeps R (modify g).
Proof. intros Hg s s' a [= <- _]. apply Hg. Qed.
Lemma keeps_updates (g : S -> option S) : (forall s s', g s = Some s' -> R s s') -> keeps R (updates g).
Proof. intros Hg s s' a. unfold runs, updates. destruct (g s) eqn:E; [|done]. intros [= -> _]. by apply Hg. Qed.
Lemma keeps_when (b : bool) (m : ST S ()) : keeps R m -> keeps R (when b m).
Proof. intros Hm. destruct b; [done|]. apply keeps_ret. Qed.
End Keeping.

Create HintDb shape.
#[export] Hint Resolve keeps_ret keeps_undef keeps_out_of_fuel keeps_exit keeps_gets keeps_reads keeps_lift keeps_when : shape.

Ltac keep :=
  repeat first
    [ progress eauto with shape typeclass_instances nocore
    | apply keeps_bind; [exact _| |intros ?]
    | apply keeps_when; [exact _|]
    | match goal with |- keeps _ (match ?x with _ => _ end) => destruct x end ].
