(* ===== verification/Swpath.v ===== *)
(** * SWPATH, the parser of package pathnames (swsupplib/misc/swpath.c)

    An archive holds <prepath>/catalog/<dfiles>, <prepath>/catalog/<product>/
    <pfiles>, <prepath>/catalog/<product>/<fileset> and, behind the catalog, the
    files <prepath>/<product>/<fileset>/<path>.  swpath_parse_path is called on
    the names of an archive in their order and splits each.

    - A STROB of the object is the text it holds: strob_strcpy, strob_strcat and
      strob_strncpy act on texts (StrobSpec.v); edits through strob_str are
      those of a buffer with the text and its NUL, accesses checked.
    - swpath_p_prepath_, swpath_p_dfiles_ and swpath_p_pfiles_ are NULL or the
      text of prepath_, p_dfiles_ and p_pfiles_; of swpath_p_fileset_dir_ only
      whether it is NULL is ever used: a bool says that the pointer is set.
    - the fields swpath_e_dfiles_, swpath_e_pfiles_, swpath_p_product_dir_ and
      all_filesets_ are never read. *)

From S2P Require Import Prelude CString Strob Pathname Escape.

Definition SWPATH_PARSE_CA : nat := 22.
Definition SWPATH_DEGEN_N : Z := 4.
Definition SW_A_catalog : bytes := L "catalog".

Record SWPATH := mkSWPATH {
  swpath_is_catalog_ : Z;
  errorM : Z;
  control_path_nominal_depth_ : Z;
  max_rel_n_ : Z;
  product_control_dir_ : bytes;
  fileset_control_dir_ : bytes;
  pfiles_ : bytes;
  dfiles_ : bytes;
  open_pathname_ : bytes;
  swpackage_pathname_ : bytes;
  pathname_ : bytes;
  buffer_ : bytes;
  basename_ : bytes;
  pfiles_default : bytes;
  dfiles_default : bytes;
  prepath_ : bytes;
  p_pfiles_ : bytes;
  p_dfiles_ : bytes;
  swpath_p_prepath_ : bool;
  swpath_p_dfiles_ : bool;
  swpath_p_pfiles_ : bool;
  swpath_p_fileset_dir_ : bool;
  pathlist_ : list bytes;
  is_minimal_layoutM : Z;
  dfiles_guardM : Z;
  catalog_guardM : Z;
}.

(** Assignment to one field. *)
Definition eta (s : SWPATH) : SWPATH :=
  mkSWPATH (swpath_is_catalog_ s) (errorM s) (control_path_nominal_depth_ s) (max_rel_n_ s)
    (product_control_dir_ s) (fileset_control_dir_ s) (pfiles_ s) (dfiles_ s) (open_pathname_ s)
    (swpackage_pathname_ s) (pathname_ s) (buffer_ s) (basename_ s) (pfiles_default s)
    (dfiles_default s) (prepath_ s) (p_pfiles_ s) (p_dfiles_ s) (swpath_p_prepath_ s)
    (swpath_p_dfiles_ s) (swpath_p_pfiles_ s) (swpath_p_fileset_dir_ s) (pathlist_ s)
    (is_minimal_layoutM s) (dfiles_guardM s) (catalog_guardM s).

Ltac put f v s :=
  let t := eval cbv beta delta [eta] in (eta s) in
  let t := eval pattern (f s) in t in
  match t with ?g _ => let r := eval cbv beta in (g v) in exact r end.

Definition put_is_catalog (v : Z) (s : SWPATH) : SWPATH := ltac:(put swpath_is_catalog_ v s).
Definition put_errorM (v : Z) (s : SWPATH) : SWPATH := ltac:(put errorM v s).
Definition put_control_path_nominal_depth (v : Z) (s : SWPATH) : SWPATH := ltac:(put control_path_nominal_depth_ v s).
Definition put_max_rel_n (v : Z) (s : SWPATH) : SWPATH := ltac:(put max_rel_n_ v s).
Definition put_product_control_dir (v : bytes) (s : SWPATH) : SWPATH := ltac:(put product_control_dir_ v s).
Definition put_fileset_control_dir (v : bytes) (s : SWPATH) : SWPATH := ltac:(put fileset_control_dir_ v s).
Definition put_pfiles (v : bytes) (s : SWPATH) : SWPATH := ltac:(put pfiles_ v s).
Definition put_dfiles (v : bytes) (s : SWPATH) : SWPATH := ltac:(put dfiles_ v s).
Definition put_open_pathname (v : bytes) (s : SWPATH) : SWPATH := ltac:(put open_pathname_ v s).
Definition put_swpackage_pathname (v : bytes) (s : SWPATH) : SWPATH := ltac:(put swpackage_pathname_ v s).
Definition put_pathname (v : bytes) (s : SWPATH) : SWPATH := ltac:(put pathname_ v s).
Definition put_buffer (v : bytes) (s : SWPATH) : SWPATH := ltac:(put buffer_ v s).
Definition put_basename (v : bytes) (s : SWPATH) : SWPATH := ltac:(put basename_ v s).
Definition put_pfiles_default (v : bytes) (s : SWPATH) : SWPATH := ltac:(put pfiles_default v s).
Definition put_dfiles_default (v : bytes) (s : SWPATH) : SWPATH := ltac:(put dfiles_default v s).
Definition put_prepath (v : bytes) (s : SWPATH) : SWPATH := ltac:(put prepath_ v s).
Definition put_p_pfiles (v : bytes) (s : SWPATH) : SWPATH := ltac:(put p_pfiles_ v s).
Definition put_p_dfiles (v : bytes) (s : SWPATH) : SWPATH := ltac:(put p_dfiles_ v s).
Definition put_p_prepath_set (v : bool) (s : SWPATH) : SWPATH := ltac:(put swpath_p_prepath_ v s).
Definition put_p_dfiles_set (v : bool) (s : SWPATH) : SWPATH := ltac:(put swpath_p_dfiles_ v s).
Definition put_p_pfiles_set (v : bool) (s : SWPATH) : SWPATH := ltac:(put swpath_p_pfiles_ v s).
Definition put_p_fileset_dir (v : bool) (s : SWPATH) : SWPATH := ltac:(put swpath_p_fileset_dir_ v s).
Definition put_pathlist (v : list bytes) (s : SWPATH) : SWPATH := ltac:(put pathlist_ v s).
Definition put_is_minimal_layoutM (v : Z) (s : SWPATH) : SWPATH := ltac:(put is_minimal_layoutM v s).
Definition put_dfiles_guardM (v : Z) (s : SWPATH) : SWPATH := ltac:(put dfiles_guardM v s).
Definition put_catalog_guardM (v : Z) (s : SWPATH) : SWPATH := ltac:(put catalog_guardM v s).

(** ** Buffers *)

(** An edit of the text of a STROB through its address. *)
Definition in_place (f : bytes -> option bytes) (t : bytes) : option bytes :=
  m ← f (t ++ [NUL]); text_of m.

(** The loop on double slashes is the one of swlib_squash_double_slash. *)
Definition swpath__slashclean (madelist : bytes) : option bytes :=
  m ← squash_double_slash_loop (S (length madelist)) madelist;
  s ← text_of m;
  m ← (if (zlen s >=? 3) && (strncmp s (L "./") 2 =? 0)
       then n ← strlen_at m 1; memmove m 0 2 n else Some m);
  s ← text_of m;
  m ← (if starts_slash s && (zlen s >? 1) then memmove m 0 1 (zlen s) else Some m);
  s ← text_of m;
  if (zlen s >? 1) && (match last s with Some c => is_slash c | None => false end)
  then mem_write m (zlen s - 1) [NUL] else Some m.

(** strtok (p, "/") of the C library: the end of the token at or behind [p],
    and where the next call goes on; [None] when there is no token. *)
Definition strtok_slash (m : bytes) (p : Z) : option (bytes * option Z) :=
  s ← str_at m p;
  let start := skip_slashes s in
  let tok := drop (Z.to_nat start) s in
  match tok with
  | [] => Some (m, None)
  | _ :: _ =>
      match strchr tok slash with
      | Some i => let e := p + start + Z.of_nat i in m ← mem_write m e [NUL]; Some (m, Some (e + 1))
      | None => Some (m, Some (p + zlen s))
      end
  end.

Fixpoint components_loop (fuel : nat) (m : bytes) (p : Z) (i : Z) : option (bytes * Z) :=
  match fuel with
  | O => None
  | S fuel =>
      '(m, q) ← strtok_slash m p;
      match q with
      | Some q => components_loop fuel m q (i + 1)
      | None => Some (m, i)
      end
  end.

Definition swpath_num_of_components (swpath : SWPATH) (str : bytes) : option (SWPATH * Z) :=
  '(m, i) ← components_loop (S (S (length str))) (str ++ [NUL]) 0 0;
  t ← text_of m;
  Some (put_buffer t swpath, i).

(** ** Setters *)

Definition check_error (swpath : SWPATH) (ret : Z) : Z :=
  if (dfiles_guardM swpath >? 1) || (catalog_guardM swpath >? 1) || negb (errorM swpath =? 0)
  then -1 else ret.

Definition set_control_depth (swpath : SWPATH) (nd : Z) : SWPATH :=
  if swpath_is_catalog_ swpath =? 0 then swpath
  else if control_path_nominal_depth_ swpath <? nd then put_control_path_nominal_depth nd swpath
  else swpath.

Definition set_p_pfiles (swpath : SWPATH) (name : option bytes) : SWPATH :=
  match name with
  | Some name => if negb (swpath_p_pfiles_ swpath)
                 then put_p_pfiles_set true (put_p_pfiles name swpath) else swpath
  | None => swpath
  end.

Definition set_p_dfiles (swpath : SWPATH) (name : bytes) : SWPATH :=
  if negb (swpath_p_dfiles_ swpath)
  then put_p_dfiles_set true (put_p_dfiles name swpath) else swpath.

(** [None] is the NULL pointer. *)
Definition get_p_dfiles (swpath : SWPATH) : option bytes :=
  if swpath_p_dfiles_ swpath then Some (p_dfiles_ swpath) else None.

Definition get_p_pfiles (swpath : SWPATH) : option bytes :=
  if swpath_p_pfiles_ swpath then Some (p_pfiles_ swpath) else None.

Definition swpath_set_is_catalog (swpath : SWPATH) (n : Z) : SWPATH := put_is_catalog n swpath.
Definition swpath_get_is_catalog (swpath : SWPATH) : Z := swpath_is_catalog_ swpath.
Definition swpath_set_is_minimal_layout (swpath : SWPATH) (n : Z) : SWPATH :=
  put_is_minimal_layoutM n swpath.
Definition swpath_get_is_minimal_layout (swpath : SWPATH) : Z := is_minimal_layoutM swpath.

(** Outside the catalog of a package without control directories the names are
    dropped. *)
Definition control_dir (swpath : SWPATH) (s : bytes) : bytes :=
  if (swpath_is_catalog_ swpath =? 0) && (control_path_nominal_depth_ swpath =? 0) then [] else s.

Definition swpath_set_product_control_dir (swpath : SWPATH) (s : bytes) : SWPATH :=
  let swpath := if negb (zlen s =? 0) then set_control_depth swpath 2 else swpath in
  put_product_control_dir (control_dir swpath s) swpath.

Definition swpath_set_fileset_control_dir (swpath : SWPATH) (s : bytes) : SWPATH :=
  let swpath := if negb (zlen s =? 0) then set_control_depth swpath 1 else swpath in
  put_fileset_control_dir (control_dir swpath s) swpath.

Definition set_p_fileset_dir (swpath : SWPATH) (name : option bytes) : SWPATH :=
  match name with
  | None => put_p_fileset_dir false (swpath_set_fileset_control_dir swpath [])
  | Some name => put_p_fileset_dir true (swpath_set_fileset_control_dir swpath name)
  end.

Definition swpath__set__basename (swpath : SWPATH) (pathname : bytes) : SWPATH :=
  match strrchr pathname slash with
  | None => put_basename pathname swpath
  | Some i => put_basename (drop (S i) pathname) swpath
  end.

Definition swpath_set_pathname (swpath : SWPATH) (s : bytes) : SWPATH := put_pathname s swpath.
Definition swpath_set_pkgpathname (swpath : SWPATH) (s : bytes) : SWPATH :=
  put_swpackage_pathname s swpath.
Definition swpath_set_filename (swpath : SWPATH) (s : option bytes) : SWPATH :=
  match s with
  | None => swpath__set__basename swpath (pathname_ swpath)
  | Some s => swpath__set__basename swpath s
  end.
Definition swpath_set_dfiles (swpath : SWPATH) (name : bytes) : SWPATH := put_dfiles_default name swpath.
Definition swpath_set_pfiles (swpath : SWPATH) (name : bytes) : SWPATH := put_pfiles_default name swpath.

Definition set_v_dfiles (swpath : SWPATH) (s : bytes) : SWPATH :=
  let swpath := if (zlen (dfiles_ swpath) =? 0) && negb (zlen s =? 0)
                then put_dfiles_guardM (dfiles_guardM swpath + 1) swpath else swpath in
  put_dfiles s swpath.

Definition set_v_pfiles (swpath : SWPATH) (s : bytes) : SWPATH := put_pfiles s swpath.

Definition set_max_rel_n (swpath : SWPATH) (n : Z) : SWPATH :=
  if n >? max_rel_n_ swpath then put_max_rel_n n swpath else swpath.

(** The transitions of the section: once behind the leading directories there
    is no way back to them, and the catalog is entered once. *)
Definition set_is_catalog (swpath : SWPATH) (n : Z) : SWPATH :=
  let old := swpath_is_catalog_ swpath in
  let swpath := if (old =? -1) && (n =? 0) then put_errorM 2 swpath else swpath in
  let swpath := if (old =? 1) && (n =? -1) then put_errorM 2 swpath else swpath in
  let swpath := if negb (old =? 1) && (n =? 1)
                then put_catalog_guardM (catalog_guardM swpath + 1) swpath else swpath in
  let swpath := if catalog_guardM swpath >? 1 then put_errorM 2 swpath else swpath in
  swpath_set_is_catalog swpath n.

Definition is_in_pfiles (swpath : SWPATH) (ca1 ca2 : bytes) : Z :=
  let rest :=
    if streq ca1 (pfiles_ swpath) then 2
    else if streq ca1 (pfiles_default swpath) then 2
    else if streq ca2 (pfiles_ swpath) then 3
    else if streq ca2 (pfiles_default swpath) then 3
    else if swpath_p_dfiles_ swpath && negb (swpath_p_pfiles_ swpath)
            && negb (swpath_p_fileset_dir_ swpath) then 3
    else 0 in
  match get_p_pfiles swpath with
  | Some ppf => if streq ca1 ppf then 2 else if streq ca2 ppf then 3 else rest
  | None => rest
  end.

(** ** The leading directories *)

(** As long as no name contains "catalog" the names of the leading directories
    are accumulated in prepath_; what precedes "catalog" is the prepath. *)
Definition swpath_resolve_prepath (swpath : SWPATH) (name : bytes) : SWPATH * Z :=
  if swpath_p_prepath_ swpath then (swpath, 0)
  else
    let pre := prepath_ swpath in
    match strstr name SW_A_catalog with
    | None =>
        let swpath := match strstr name pre with
                      | Some _ => put_prepath (pre ++ drop (length pre) name) swpath
                      | None => put_prepath [] swpath
                      end in
        (put_p_prepath_set false swpath, -1)
    | Some len =>
        if zlen pre =? 0 then
          (* strncpy of len + 20 bytes, then a NUL at len - 1, or at 0 *)
          (put_p_prepath_set true (put_prepath (take (len - 1) (take (len + 20) name)) swpath), 0)
        else
          let swpath := put_p_prepath_set true (put_prepath (take len pre) swpath) in
          (swpath, if strncmp name (prepath_ swpath) (len - 1) =? 0 then 0 else 1)
    end.

(** The name does not continue the prepath. *)
Definition wrong_prepath (swpath : SWPATH) : option bool :=
  let pre := prepath_ swpath in
  if zlen pre =? 0 then Some false
  else match strstr (buffer_ swpath) pre with
       | Some O => c ← mem_read (buffer_ swpath ++ [NUL]) (zlen pre); Some (negb (is_slash c))
       | _ => Some true
       end.

(** ** One name with its components

    The branches of swpath_parse_path on relative_n: they set the fields and
    give compy, the component at which the file name starts, and ret. *)

Definition parse_relative_1 (swpath : SWPATH) (ca0 : bytes) : SWPATH * nat * Z :=
  if negb (streq ca0 SW_A_catalog) then
    let swpath := set_v_dfiles swpath [] in
    let swpath := set_v_pfiles swpath [] in
    let swpath := set_is_catalog swpath 0 in
    if max_rel_n_ swpath >=? SWPATH_DEGEN_N
    then (swpath_set_product_control_dir swpath ca0, 1%nat, 1)
    else (swpath, 0%nat, 0)
  else
    let swpath := set_max_rel_n swpath 1 in
    (set_is_catalog swpath 1, 1%nat, 0).

Definition parse_catalog_2 (swpath : SWPATH) (ca1 : bytes) : SWPATH * nat * Z :=
  let INDEX := L "INDEX" in
  let is_dfiles := match get_p_dfiles swpath with
                   | Some d => streq ca1 d
                   | None => negb (streq ca1 INDEX)
                   end in
  if is_dfiles then (set_p_dfiles (set_v_dfiles swpath ca1) ca1, 2%nat, 0)
  else if (zlen (product_control_dir_ swpath) =? 0) && negb (swpath_p_pfiles_ swpath)
          && streq ca1 (pfiles_default swpath) then
    let swpath := swpath_set_is_minimal_layout swpath 1 in
    let swpath := set_v_pfiles swpath ca1 in
    let swpath := set_p_pfiles swpath (Some ca1) in
    (set_v_dfiles swpath [], 2%nat, 0)
  else if streq ca1 (pfiles_default swpath) then
    let swpath := set_v_pfiles swpath (pfiles_default swpath) in
    let swpath := set_p_pfiles swpath (Some (pfiles_default swpath)) in
    let swpath := swpath_set_is_minimal_layout swpath 1 in
    (set_v_dfiles swpath [], 2%nat, 0)
  else if swpath_p_dfiles_ swpath && negb (streq ca1 INDEX) && negb (streq ca1 (p_dfiles_ swpath)) then
    let swpath := set_v_dfiles swpath [] in
    let swpath := set_v_pfiles swpath [] in
    let swpath := set_p_fileset_dir swpath None in
    let swpath := set_p_pfiles swpath None in
    if negb (swpath_get_is_minimal_layout swpath =? 0) then (swpath, 1%nat, 1)
    else (swpath_set_product_control_dir swpath ca1, 2%nat, 1)
  else if streq ca1 INDEX then (swpath, 1%nat, 0)
  else (swpath, 2%nat, 0).

(** Behind the catalog: the control directories of a file in storage. *)
Definition storage_dirs (swpath : SWPATH) (ca0 ca1 : bytes) : SWPATH :=
  swpath_set_fileset_control_dir (swpath_set_product_control_dir swpath ca0) ca1.

Definition parse_relative_2 (swpath : SWPATH) (ca0 ca1 : bytes) : SWPATH * nat * Z :=
  if streq ca0 SW_A_catalog then
    let swpath := set_max_rel_n swpath 2 in
    parse_catalog_2 (set_is_catalog swpath 1) ca1
  else
    let swpath := set_v_dfiles swpath [] in
    let swpath := set_v_pfiles swpath [] in
    let swpath := set_is_catalog swpath 0 in
    if max_rel_n_ swpath >=? SWPATH_DEGEN_N
    then (set_p_fileset_dir (storage_dirs swpath ca0 ca1) (Some ca1), 2%nat, 2)
    else (swpath, 0%nat, 0).

(** The part of <catalog>/ca1/ca2 that is not in dfiles. *)
Definition parse_product_3 (swpath : SWPATH) (ca1 ca2 : bytes) : SWPATH * nat * Z :=
  let swpath := if negb (streq (product_control_dir_ swpath) ca1)
                then set_p_pfiles (set_p_fileset_dir swpath None) None else swpath in
  let pfiles_index := is_in_pfiles swpath ca1 ca2 in
  let swpath :=
    if negb (swpath_p_pfiles_ swpath) && negb (streq ca1 (pfiles_default swpath))
    then swpath_set_product_control_dir (set_v_dfiles swpath []) ca1
    else if negb (swpath_p_pfiles_ swpath) && streq ca1 (pfiles_default swpath)
    then set_p_pfiles (set_v_pfiles (set_v_dfiles swpath []) ca1) (Some ca1)
    else swpath_set_product_control_dir (set_v_dfiles swpath []) ca1 in
  if negb (pfiles_index =? 0) then
    let swpath := if pfiles_index =? 2 then swpath_set_product_control_dir swpath [] else swpath in
    let swpath := set_p_fileset_dir swpath None in
    let swpath := if negb (zlen (pfiles_ swpath) =? 0)
                  then set_v_pfiles swpath (pfiles_ swpath)
                  else set_v_pfiles (set_p_pfiles swpath (Some ca2)) ca2 in
    let swpath := set_v_dfiles swpath [] in
    (set_p_pfiles swpath (Some (pfiles_ swpath)), Z.to_nat pfiles_index, 1)
  else if negb (streq ca2 (pfiles_ swpath)) then
    let swpath := set_v_pfiles swpath [] in
    let swpath := swpath_set_fileset_control_dir swpath ca2 in
    (set_p_fileset_dir swpath (Some ca2), 3%nat, 2)
  else (swpath, 2%nat, 1).

Definition parse_relative_3 (swpath : SWPATH) (ca0 ca1 ca2 : bytes) : SWPATH * nat * Z :=
  if streq ca0 SW_A_catalog then
    let swpath := set_max_rel_n swpath 3 in
    let swpath := set_is_catalog swpath 1 in
    if swpath_p_dfiles_ swpath && negb (streq ca1 (p_dfiles_ swpath))
    then parse_product_3 swpath ca1 ca2
    else (set_p_dfiles (set_v_dfiles swpath ca1) ca1, 2%nat, 0)
  else
    let swpath := set_is_catalog swpath 0 in
    let swpath := set_v_pfiles swpath [] in
    let swpath := set_v_dfiles swpath [] in
    if max_rel_n_ swpath >=? SWPATH_DEGEN_N
    then (set_p_fileset_dir (storage_dirs swpath ca0 ca1) (Some ca1), 2%nat, 2)
    else (swpath, 0%nat, 0).

(** The part of <catalog>/ca1/ca2/... that is not in dfiles. *)
Definition parse_product_n (swpath : SWPATH) (ca1 ca2 : bytes) : SWPATH * nat * Z :=
  let swpath := swpath_set_product_control_dir swpath ca1 in
  if negb (streq ca2 (pfiles_default swpath)) && negb (streq ca2 (pfiles_ swpath)) then
    let swpath := swpath_set_fileset_control_dir swpath ca2 in
    let swpath := set_v_pfiles swpath [] in
    let swpath := set_v_dfiles swpath [] in
    (set_p_fileset_dir swpath (Some ca2), 3%nat, 2)
  else if match get_p_pfiles swpath with Some ppf => streq ca2 ppf | None => false end
          || (streq ca2 (pfiles_default swpath) || streq ca2 (pfiles_ swpath)) then
    let swpath := if negb (zlen (pfiles_ swpath) =? 0)
                  then set_v_pfiles swpath (pfiles_ swpath)
                  else set_v_pfiles swpath (pfiles_default swpath) in
    let swpath := set_p_pfiles swpath (Some (pfiles_ swpath)) in
    (set_v_dfiles swpath [], 3%nat, 1)
  else (swpath, 2%nat, 1).

Definition parse_relative_n (swpath : SWPATH) (n : nat) (ca0 ca1 ca2 : bytes) : SWPATH * nat * Z :=
  if streq ca0 SW_A_catalog then
    let swpath := set_max_rel_n swpath (Z.of_nat n) in
    let swpath := set_is_catalog swpath 1 in
    if negb (streq ca1 (dfiles_default swpath)) then parse_product_n swpath ca1 ca2
    else (swpath, 2%nat, 0)
  else
    let swpath := set_is_catalog swpath 0 in
    if max_rel_n_ swpath >=? SWPATH_DEGEN_N
    then (storage_dirs swpath ca0 ca1, 2%nat, 2)
    else (swpath, 0%nat, 0).

(** relative_n is never 0. *)
Definition parse_components (swpath : SWPATH) (cs : list bytes) : SWPATH * nat * Z :=
  match cs with
  | [] => (swpath, 0%nat, 0)
  | [c0] => parse_relative_1 swpath c0
  | [c0; c1] => parse_relative_2 swpath c0 c1
  | [c0; c1; c2] => parse_relative_3 swpath c0 c1 c2
  | c0 :: c1 :: c2 :: _ => parse_relative_n swpath (length cs) c0 c1 c2
  end.

(** ** Splitting the buffer and putting it together *)

(** while ((p = strchr (s, '/')) && n < SWPATH_PARSE_CA): the addresses ca and
    the last value of s; [k] is SWPATH_PARSE_CA - n. *)
Fixpoint split_components (k : nat) (m : bytes) (s : Z) : option (bytes * list Z * Z) :=
  match k with
  | O => Some (m, [], s)
  | S k =>
      t ← str_at m s;
      match strchr t slash with
      | None => Some (m, [], s)
      | Some i =>
          let p := s + Z.of_nat i in
          m ← mem_write m p [NUL];
          '(m, ca, last) ← split_components k m (p + 1);
          Some (m, s :: ca, last)
      end
  end.

(** *(ca[i] + strlen (ca[i])) = '/' for each of [ca]. *)
Fixpoint join_components (m : bytes) (ca : list Z) : option bytes :=
  match ca with
  | [] => Some m
  | c :: ca => n ← strlen_at m c; m ← mem_write m (c + n) [slash]; join_components m ca
  end.

(** The part of swpath_parse_path that handles the components at the address
    [s] of the buffer [m]. *)
Definition parse_buffer (swpath : SWPATH) (m : bytes) (s : Z) : option (outcome (SWPATH * Z)) :=
  '(m, ca, s) ← split_components SWPATH_PARSE_CA m s;
  if (SWPATH_PARSE_CA - 1 <=? length ca)%nat then Some Fatal
  else
    let ca := ca ++ [s] in
    cs ← mapM (str_at m) ca;
    let '(swpath, compy, ret) := parse_components swpath cs in
    let compy := if (control_path_nominal_depth_ swpath =? 0) && (swpath_is_catalog_ swpath =? 0)
                 then 0%nat else compy in
    m ← join_components m (drop compy (take (length ca - 1) ca));
    b ← text_of m;
    let swpath := put_buffer b swpath in
    match ca !! compy with
    | Some p =>
        t ← str_at m p;
        let swpath := swpath_set_filename (swpath_set_pathname swpath t) (Some t) in
        Some (Returns (swpath, check_error swpath ret))
    | None => Some (Returns (swpath, check_error swpath ret))
    end.

(** swpath_parse_path, up to the call of swpath_resolve_prepath: [b] is the
    name after the three squashes. *)
Definition cleared (swpath : SWPATH) (name b : bytes) : SWPATH :=
  let swpath := put_buffer b (swpath_set_pkgpathname (put_buffer name swpath) name) in
  let swpath := put_pathlist (pathlist_ swpath ++ [b]) swpath in
  let swpath := swpath_set_product_control_dir swpath [] in
  let swpath := swpath_set_fileset_control_dir swpath [] in
  put_basename [] (put_pathname [] swpath).

(** ... and with this call. *)
Definition prepared (swpath : SWPATH) (name b : bytes) : SWPATH :=
  let swpath := cleared swpath name b in
  if negb (swpath_p_prepath_ swpath)
  then fst (swpath_resolve_prepath swpath (buffer_ swpath)) else swpath.

(** The rest: the tests of the prepath, the cleaning, and the components. *)
Definition parse_prepared (swpath : SWPATH) (name : bytes) : option (outcome (SWPATH * Z)) :=
  if negb (swpath_p_prepath_ swpath) then
    let swpath := swpath_set_is_catalog swpath (-1) in
    Some (Returns (swpath, check_error swpath 0))
  else
    bad ← wrong_prepath swpath;
    if (bad : bool) then Some (Returns (put_errorM 1 (swpath_set_is_catalog swpath (-1)), -1))
    else
      pre ← in_place swpath__slashclean (prepath_ swpath);
      '(swpath, _) ← swpath_num_of_components (put_prepath pre swpath) pre;
      b ← in_place swpath__slashclean name;
      let m := b ++ [NUL] in
      let s := zlen (prepath_ swpath) in
      c ← mem_read m s;
      parse_buffer (put_buffer b swpath) m (if is_slash c then s + 1 else s).

Definition swpath_parse_path (swpath : SWPATH) (name : bytes) : option (outcome (SWPATH * Z)) :=
  b ← in_place swlib_squash_trailing_slash name;
  b ← in_place swlib_squash_leading_dot_slash b;
  b ← in_place swlib_squash_leading_slash b;
  parse_prepared (prepared swpath name b) name.

(** ** Objects *)

Definition swpath__setup1 : SWPATH :=
  mkSWPATH 0 0 0 0 [] [] [] [] [] [] [] [] [] (L "pfiles") (L "dfiles") [] [] []
    false false false false [] 0 0 0.

Definition swpath_open (path : bytes) : option (outcome SWPATH) :=
  let swpath := put_open_pathname path swpath__setup1 in
  if negb (zlen path =? 0) then
    r ← swpath_parse_path swpath (open_pathname_ swpath);
    Some (match r with Returns (swpath, _) => Returns swpath | Fatal => Fatal end)
  else Some (Returns swpath).

(** Everything is freed and set up again. *)
Definition swpath_reset (swpath : SWPATH) : option (outcome SWPATH) :=
  swpath_open (open_pathname_ swpath).

(** ** The name of the parsed file *)

(** strcat (buf, "/") unless [s] is empty, then strcat (buf, s). *)
Definition add_component (buf s : bytes) : bytes :=
  (if negb (zlen s =? 0) then buf ++ [slash] else buf) ++ s.

Definition swpath__form_path1 (swpath : SWPATH) (buf : bytes) (name : option bytes) : bytes :=
  let prod := product_control_dir_ swpath in
  let buf := if negb (zlen prod =? 0) && negb (zlen buf =? 0) then buf ++ [slash] else buf in
  let buf := buf ++ prod in
  let buf := add_component buf (fileset_control_dir_ swpath) in
  let buf := add_component buf (dfiles_ swpath) in
  let buf := add_component buf (pfiles_ swpath) in
  match name with
  | None => add_component buf (pathname_ swpath)
  | Some name => buf ++ name
  end.

(** strncpy of at most 200 bytes. *)
Definition swpath_form_catalog_path (swpath : SWPATH) : bytes :=
  let buf := take 200 (prepath_ swpath) in
  if swpath_is_catalog_ swpath <? 0 then buf
  else
    let buf := if negb (zlen buf =? 0) then buf ++ [slash] else buf in
    swpath__form_path1 swpath (buf ++ SW_A_catalog) None.

Definition swpath_form_storage_path (swpath : SWPATH) : bytes :=
  swpath__form_path1 swpath (take 200 (prepath_ swpath)) None.

Definition swpath_form_path (swpath : SWPATH) : bytes :=
  if negb (swpath_is_catalog_ swpath =? 0) then swpath_form_catalog_path swpath
  else swpath_form_storage_path swpath.

(** ** Exported objects *)

Record SWPATH_EX := mkSWPATH_EX {
  ex_is_catalog : Z;
  ex_is_minimal_layoutM : Z;
  ex_ctl_depth : Z;
  ex_pkgpathname : bytes;
  ex_prepath : bytes;
  ex_dfiles : bytes;
  ex_pfiles : bytes;
  ex_product_control_dir : bytes;
  ex_fileset_control_dir : bytes;
  ex_pathname : bytes;
  ex_basename : bytes;
}.

(** [None] is the NULL pointer. *)
Definition swpath_create_export (sp : option SWPATH) : SWPATH_EX :=
  match sp with
  | None => mkSWPATH_EX 0 0 0 [] [] [] [] [] [] [] []
  | Some sp =>
      mkSWPATH_EX (swpath_get_is_catalog sp) (swpath_get_is_minimal_layout sp)
        (control_path_nominal_depth_ sp) (swpackage_pathname_ sp) (prepath_ sp) (dfiles_ sp)
        (pfiles_ sp) (product_control_dir_ sp) (fileset_control_dir_ sp) (pathname_ sp) (basename_ sp)
  end.

(** swpath_parse_path on the names of an archive, in their order: the results,
    and the state after each name. *)
Fixpoint parse_archive (swpath : SWPATH) (names : list bytes) : option (outcome (list (SWPATH * Z))) :=
  match names with
  | [] => Some (Returns [])
  | n :: names =>
      r ← swpath_parse_path swpath n;
      match r with
      | Fatal => Some Fatal
      | Returns (swpath, ret) =>
          rest ← parse_archive swpath names;
          Some (match rest with Fatal => Fatal | Returns l => Returns ((swpath, ret) :: l) end)
      end
  end.
