(* ===== verification/SwpathSpec.v ===== *)
(** * Specification of SWPATH

    The guards and the order of the sections of an archive; the split of a name
    at its slashes and its repair; and the call on a name in normal form behind
    a known prepath, which is the call of parse_components on what follows the
    prepath. *)

From S2P Require Import Prelude CString Strob StrobSpec Pathname PathSpec Escape Swpath.

(** ** Errors stay *)

Definition errored (sp : SWPATH) : Prop := check_error sp 0 = -1.

(** [sp'] has every error of [sp]. *)
Record grows (sp sp' : SWPATH) : Prop := {
  gr_error : errorM sp <> 0 -> errorM sp' <> 0;
  gr_dfiles : dfiles_guardM sp <= dfiles_guardM sp';
  gr_catalog : catalog_guardM sp <= catalog_guardM sp';
}.

Lemma grows_refl sp : grows sp sp.
Proof. by split. Qed.

Lemma grows_trans a b c : grows a b -> grows b c -> grows a c.
Proof. intros [H1 H2 H3] [K1 K2 K3]. split; [auto|lia|lia]. Qed.

Lemma check_error_cases sp ret :
  (errored sp /\ check_error sp ret = -1) \/ (~ errored sp /\ check_error sp ret = ret).
Proof. unfold errored, check_error. destruct (_ || _); [by left|right; done]. Qed.

Lemma errored_iff sp :
  errored sp <-> dfiles_guardM sp > 1 \/ catalog_guardM sp > 1 \/ errorM sp <> 0.
Proof.
  unfold errored, check_error. destruct (_ || _) eqn:E.
  - split; [intros _|done]. apply orb_true_iff in E as [E|E]; zbool; [destruct E; zbool; lia|lia].
  - split; [done|]. zbool. lia.
Qed.

Lemma grows_errored sp sp' : grows sp sp' -> errored sp -> errored sp'.
Proof. rewrite !errored_iff. intros [H1 H2 H3] [?|[?|?]]; [lia|lia|right; right; auto]. Qed.

(** The steps that only touch fields without a guard. *)
Lemma grows_same sp sp' sp0 :
  grows sp0 sp -> errorM sp' = errorM sp -> dfiles_guardM sp' = dfiles_guardM sp ->
  catalog_guardM sp' = catalog_guardM sp -> grows sp0 sp'.
Proof. intros [H1 H2 H3] E1 E2 E3. split; rewrite ?E1, ?E2, ?E3; auto. Qed.

Section Grows.
Context (sp0 : SWPATH).
Implicit Types (sp : SWPATH).

Ltac keeps H := eapply grows_same; [exact H|..]; repeat case_match; done.
Ltac same := let H := fresh in intros H; keeps H.

Lemma grows_set_v_dfiles sp s : grows sp0 sp -> grows sp0 (set_v_dfiles sp s).
Proof.
  intros H. eapply grows_trans; [exact H|]. unfold set_v_dfiles. split; destruct (_ && _); cbn; auto; lia.
Qed.

Lemma grows_set_is_catalog sp n : grows sp0 sp -> grows sp0 (set_is_catalog sp n).
Proof.
  intros H. eapply grows_trans; [exact H|]. unfold set_is_catalog, swpath_set_is_catalog.
  split; repeat case_match; cbn; auto; lia.
Qed.

Lemma grows_set_v_pfiles sp s : grows sp0 sp -> grows sp0 (set_v_pfiles sp s).
Proof. same. Qed.

Lemma grows_set_max_rel_n sp n : grows sp0 sp -> grows sp0 (set_max_rel_n sp n).
Proof. unfold set_max_rel_n. same. Qed.

Lemma grows_set_control_depth sp n : grows sp0 sp -> grows sp0 (set_control_depth sp n).
Proof. unfold set_control_depth. same. Qed.

Lemma grows_product sp s : grows sp0 sp -> grows sp0 (swpath_set_product_control_dir sp s).
Proof.
  intros H. unfold swpath_set_product_control_dir. destruct (negb _).
  - apply (grows_set_control_depth _ 2) in H. keeps H.
  - keeps H.
Qed.

Lemma grows_fileset sp s : grows sp0 sp -> grows sp0 (swpath_set_fileset_control_dir sp s).
Proof.
  intros H. unfold swpath_set_fileset_control_dir. destruct (negb _).
  - apply (grows_set_control_depth _ 1) in H. keeps H.
  - keeps H.
Qed.

Lemma grows_p_fileset sp n : grows sp0 sp -> grows sp0 (set_p_fileset_dir sp n).
Proof.
  intros H. unfold set_p_fileset_dir. destruct n as [n|].
  - apply (grows_fileset _ n) in H. keeps H.
  - apply (grows_fileset _ []) in H. keeps H.
Qed.

Lemma grows_p_pfiles sp n : grows sp0 sp -> grows sp0 (set_p_pfiles sp n).
Proof. unfold set_p_pfiles. same. Qed.

Lemma grows_p_dfiles sp n : grows sp0 sp -> grows sp0 (set_p_dfiles sp n).
Proof. unfold set_p_dfiles. same. Qed.

Lemma grows_minimal sp n : grows sp0 sp -> grows sp0 (swpath_set_is_minimal_layout sp n).
Proof. same. Qed.
End Grows.

Create HintDb swpath.
#[export] Hint Resolve grows_refl grows_set_v_dfiles grows_set_is_catalog grows_set_v_pfiles
  grows_set_max_rel_n grows_product grows_fileset grows_p_fileset grows_p_pfiles grows_p_dfiles
  grows_minimal : swpath.

(** Split the tests of a branch, then apply the lemmas of its setters. *)
Ltac branches := repeat case_match; cbn [fst]; auto 12 with swpath.

Lemma parse_product_3_grows sp0 sp a b : grows sp0 sp -> grows sp0 (parse_product_3 sp a b).1.1.
Proof. intros H. unfold parse_product_3. branches. Qed.

Lemma parse_catalog_2_grows sp0 sp a : grows sp0 sp -> grows sp0 (parse_catalog_2 sp a).1.1.
Proof. intros H. unfold parse_catalog_2. branches. Qed.

Lemma parse_product_n_grows sp0 sp a b : grows sp0 sp -> grows sp0 (parse_product_n sp a b).1.1.
Proof. intros H. unfold parse_product_n. branches. Qed.

#[export] Hint Resolve parse_product_3_grows parse_catalog_2_grows parse_product_n_grows : swpath.

Lemma parse_components_grows sp cs : grows sp (parse_components sp cs).1.1.
Proof.
  destruct cs as [|a [|b [|c [|d cs]]]]; cbn [parse_components].
  - auto with swpath.
  - unfold parse_relative_1. branches.
  - unfold parse_relative_2, storage_dirs. branches.
  - unfold parse_relative_3, storage_dirs. branches.
  - unfold parse_relative_n, storage_dirs. branches.
Qed.

(** ** Sections *)

(** What set_is_catalog reads and writes, and whether the prepath is known. *)
Definition section (sp : SWPATH) : Z * Z * Z * bool :=
  (swpath_is_catalog_ sp, catalog_guardM sp, errorM sp, swpath_p_prepath_ sp).

Definition entered (x : Z * Z * Z * bool) (n : Z) : Z * Z * Z * bool :=
  let '(old, g, e, p) := x in
  let g := if negb (old =? 1) && (n =? 1) then g + 1 else g in
  let bad := (old =? -1) && (n =? 0) || (old =? 1) && (n =? -1) || (g >? 1) in
  (n, g, if bad then 2 else e, p).

Lemma section_set_is_catalog sp n : section (set_is_catalog sp n) = entered (section sp) n.
Proof.
  unfold section, set_is_catalog, swpath_set_is_catalog, entered.
  destruct ((swpath_is_catalog_ sp =? -1) && (n =? 0)); cbn;
  destruct ((swpath_is_catalog_ sp =? 1) && (n =? -1)); cbn;
  destruct (negb (swpath_is_catalog_ sp =? 1) && (n =? 1)); cbn;
  by destruct (_ >? 1).
Qed.

Section Sections.
Implicit Types (sp : SWPATH).

Lemma section_set_v_dfiles sp s : section (set_v_dfiles sp s) = section sp.
Proof. unfold set_v_dfiles. by destruct (_ && _). Qed.

Lemma section_set_v_pfiles sp s : section (set_v_pfiles sp s) = section sp.
Proof. done. Qed.

Lemma section_set_max_rel_n sp n : section (set_max_rel_n sp n) = section sp.
Proof. unfold set_max_rel_n. by destruct (_ >? _). Qed.

Lemma section_control_depth sp n : section (set_control_depth sp n) = section sp.
Proof. unfold set_control_depth. by repeat case_match. Qed.

Lemma section_product sp s : section (swpath_set_product_control_dir sp s) = section sp.
Proof.
  unfold swpath_set_product_control_dir. destruct (negb _); [|done]. apply (section_control_depth sp 2).
Qed.

Lemma section_fileset sp s : section (swpath_set_fileset_control_dir sp s) = section sp.
Proof.
  unfold swpath_set_fileset_control_dir. destruct (negb _); [|done]. apply (section_control_depth sp 1).
Qed.

Lemma section_p_fileset sp n : section (set_p_fileset_dir sp n) = section sp.
Proof. destruct n as [n|]; [apply (section_fileset sp n)|apply (section_fileset sp [])]. Qed.

Lemma section_p_pfiles sp n : section (set_p_pfiles sp n) = section sp.
Proof. unfold set_p_pfiles. by repeat case_match. Qed.

Lemma section_p_dfiles sp n : section (set_p_dfiles sp n) = section sp.
Proof. unfold set_p_dfiles. by repeat case_match. Qed.

Lemma section_minimal sp n : section (swpath_set_is_minimal_layout sp n) = section sp.
Proof. done. Qed.
End Sections.

Create Rewrite HintDb swsection.
#[export] Hint Rewrite section_set_is_catalog section_set_v_dfiles section_set_v_pfiles
  section_set_max_rel_n section_product section_fileset section_p_fileset section_p_pfiles
  section_p_dfiles section_minimal : swsection.

Ltac sections := repeat case_match; cbn [fst]; by autorewrite with swsection.

Lemma parse_product_3_section sp a b : section (parse_product_3 sp a b).1.1 = section sp.
Proof. unfold parse_product_3. sections. Qed.

Lemma parse_catalog_2_section sp a : section (parse_catalog_2 sp a).1.1 = section sp.
Proof. unfold parse_catalog_2. sections. Qed.

Lemma parse_product_n_section sp a b : section (parse_product_n sp a b).1.1 = section sp.
Proof. unfold parse_product_n. sections. Qed.

#[export] Hint Rewrite parse_product_3_section parse_catalog_2_section parse_product_n_section : swsection.

Definition in_catalog (cs : list bytes) : bool :=
  match cs with c :: _ => streq c SW_A_catalog | [] => false end.

(** Every name with components moves to the section of its first component. *)
Lemma parse_components_section sp cs :
  cs <> [] -> section (parse_components sp cs).1.1 = entered (section sp) (if in_catalog cs then 1 else 0).
Proof.
  destruct cs as [|a [|b [|c [|d cs]]]]; [done|..]; intros _; cbn [parse_components in_catalog].
  - unfold parse_relative_1. destruct (streq a SW_A_catalog); cbn [negb]; sections.
  - unfold parse_relative_2, storage_dirs. destruct (streq a SW_A_catalog); sections.
  - unfold parse_relative_3, storage_dirs. destruct (streq a SW_A_catalog); sections.
  - unfold parse_relative_n, storage_dirs. destruct (streq a SW_A_catalog); sections.
Qed.

(** *** What one call does to the section and the guards *)

Lemma cleared_facts sp name b : grows sp (cleared sp name b) /\ section (cleared sp name b) = section sp.
Proof. destruct sp. by split. Qed.

Lemma prepared_facts sp name b :
  grows sp (prepared sp name b) /\ (section (prepared sp name b)).1 = (section sp).1
  /\ (swpath_p_prepath_ sp = true -> swpath_p_prepath_ (prepared sp name b) = true).
Proof.
  unfold prepared. destruct (cleared_facts sp name b) as [G E].
  assert (swpath_p_prepath_ (cleared sp name b) = swpath_p_prepath_ sp) as Ep by done.
  generalize dependent (cleared sp name b). intros c G E Ep. cbv zeta. rewrite Ep. destruct (swpath_p_prepath_ sp) eqn:Epp; cbn [negb].
  - split; [done|]. by rewrite E.
  - unfold swpath_resolve_prepath. rewrite Ep. repeat case_match; cbn [fst];
      (split; [eapply grows_same; [exact G|done..]|by rewrite <- E]).
Qed.

Lemma parse_components_ret sp cs : 0 <= (parse_components sp cs).2.
Proof.
  destruct cs as [|a [|b [|c [|d cs]]]]; cbn [parse_components].
  - done.
  - unfold parse_relative_1. by repeat case_match.
  - unfold parse_relative_2, parse_catalog_2. by repeat case_match.
  - unfold parse_relative_3, parse_product_3. by repeat case_match.
  - unfold parse_relative_n, parse_product_n. by repeat case_match.
Qed.

Lemma parse_buffer_section sp m s sp' ret :
  parse_buffer sp m s = Some (Returns (sp', ret)) ->
  exists cs r, cs <> [] /\ section sp' = section (parse_components sp cs).1.1
    /\ grows sp sp' /\ ret = check_error sp' r /\ 0 <= r.
Proof.
  unfold parse_buffer. destruct (split_components _ _ _) as [[[m1 ca] e]|]; [|done]. obind.
  destruct (_ <=? _)%nat; [done|]. destruct (mapM (str_at m1) (ca ++ [e])) as [cs|] eqn:Ec; [|done]. obind.
  pose proof (parse_components_grows sp cs) as G. pose proof (parse_components_ret sp cs) as Hr.
  destruct (parse_components sp cs) as [[sp1 compy] r] eqn:Ep.
  destruct (join_components _ _) as [m2|]; [|done]. obind. destruct (text_of m2) as [b|]; [|done]. obind.
  intros E. exists cs, r. rewrite Ep. cbn [fst] in *. split.
  { intros ->. apply length_mapM in Ec. rewrite length_app in Ec. cbn in Ec. lia. }
  assert (forall t, section (swpath_set_filename (swpath_set_pathname (put_buffer b sp1) t) (Some t))
    = section sp1 /\ grows sp (swpath_set_filename (swpath_set_pathname (put_buffer b sp1) t) (Some t))) as Hf.
  { intros t. cbn. unfold swpath__set__basename. destruct (strrchr _ _); (split; [done|]);
      (eapply grows_same; [exact G|done..]). }
  destruct (_ !! _) as [p|].
  - destruct (str_at m2 p) as [t|]; [|done]. cbn [mbind option_bind] in E. injection E as <- <-.
    destruct (Hf t) as [E1 E2]. split; [exact E1|]. split; [exact E2|]. done.
  - injection E as <- <-. split; [done|]. split; [|done]. eapply grows_same; [exact G|done..].
Qed.

(** The three ways in which a call returns. *)
Inductive called (sp1 : SWPATH) : SWPATH -> Z -> Prop :=
  | called_leading sp' ret :
      swpath_p_prepath_ sp1 = false -> section sp' = ((-1, catalog_guardM sp1, errorM sp1), false) ->
      ret = check_error sp' 0 -> called sp1 sp' ret
  | called_wrong sp' :
      errorM sp' <> 0 -> swpath_p_prepath_ sp1 = true -> section sp' = ((-1, catalog_guardM sp1, 1), true) ->
      called sp1 sp' (-1)
  | called_parsed sp' ret n r :
      n = 0 \/ n = 1 -> swpath_p_prepath_ sp1 = true -> section sp' = entered (section sp1) n ->
      ret = check_error sp' r -> 0 <= r -> called sp1 sp' ret.

Lemma parse_path_called sp name sp' ret :
  swpath_parse_path sp name = Some (Returns (sp', ret)) ->
  exists b, called (prepared sp name b) sp' ret /\ grows sp sp'.
Proof.
  unfold swpath_parse_path. intros E.
  apply bind_Some in E as (b1 & _ & E). apply bind_Some in E as (b2 & _ & E).
  apply bind_Some in E as (b & _ & E). exists b. destruct (prepared_facts sp name b) as (G & _ & _).
  generalize dependent (prepared sp name b). intros sp1 E G. unfold parse_prepared in E.
  destruct (swpath_p_prepath_ sp1) eqn:Ep; cbn [negb] in E; cbv zeta in E.
  2:{ injection E as <- <-. split; [|eapply grows_same; [exact G|done..]].
      apply called_leading; [done| |done]. unfold section. cbn. by rewrite Ep. }
  apply bind_Some in E as (bad & _ & E). destruct bad.
  { injection E as <- <-. split.
    - apply called_wrong; [done|done|]. unfold section. cbn. by rewrite Ep.
    - eapply grows_trans; [exact G|]. by split. }
  apply bind_Some in E as (pre & _ & E). apply bind_Some in E as ([sp2 k] & E2 & E).
  apply bind_Some in E as (b3 & _ & E). apply bind_Some in E as (c & _ & E).
  assert (section sp2 = section sp1 /\ grows sp sp2) as [E3 G2].
  { unfold swpath_num_of_components in E2. apply bind_Some in E2 as ([m i] & _ & E2).
    apply bind_Some in E2 as (t & _ & E2). injection E2 as <- _. split; [done|].
    eapply grows_same; [exact G|done..]. }
  apply parse_buffer_section in E as (cs & r & Hcs & E5 & G5 & -> & Hr). split.
  - eapply (called_parsed _ _ _ (if in_catalog cs then 1 else 0)); [destruct (in_catalog cs); auto|done| |done|done].
    rewrite E5, parse_components_section by done. f_equal. exact E3.
  - eapply grows_trans; [|exact G5]. eapply grows_same; [exact G2|done..].
Qed.

Lemma called_result sp1 sp' ret : called sp1 sp' ret -> ret = -1 <-> errored sp'.
Proof.
  destruct 1 as [sp' ret _ _ ->|sp' E _ _|sp' ret n r _ _ _ -> Hr].
  - done.
  - split; [intros _|done]. apply errored_iff. auto.
  - destruct (check_error_cases sp' r) as [[? ->]|[? ->]]; split; try done. lia.
Qed.

(** *** The catalog is one run of names *)

Inductive zone := Before | Inside | After.

Definition in_zone (z : zone) (sp : SWPATH) : Prop :=
  match z with
  | Before => catalog_guardM sp = 0 /\ swpath_is_catalog_ sp <> 1
  | Inside => catalog_guardM sp = 1 /\ swpath_is_catalog_ sp = 1 /\ swpath_p_prepath_ sp = true
  | After => catalog_guardM sp = 1 /\ swpath_is_catalog_ sp = 0 /\ swpath_p_prepath_ sp = true
  end.

Definition follows (z z' : zone) : bool :=
  match z, z' with
  | Before, (Before | Inside) | Inside, (Inside | After) | After, After => true
  | _, _ => false
  end.

Lemma zone_step z sp name sp' ret :
  in_zone z sp -> swpath_parse_path sp name = Some (Returns (sp', ret)) -> ret <> -1 ->
  exists z', in_zone z' sp' /\ follows z z' = true.
Proof.
  intros Hz E Hr. destruct (parse_path_called _ _ _ _ E) as (b & HC & _).
  rewrite (called_result _ _ _ HC), errored_iff in Hr.
  destruct (prepared_facts sp name b) as (_ & E1 & Hp).
  assert (in_zone z (prepared sp name b)) as Hz1.
  { unfold section in E1. cbn in E1. injection E1 as E1 E2 E3. destruct z; cbn in *; rewrite ?E1, ?E2; naive_solver. }
  clear E Hz Hp E1. generalize dependent (prepared sp name b). intros sp1 HC Hz.
  destruct HC as [sp' ret Hp Es _|sp' He _ _|sp' ret n r Hn Hp Es _ _]; [|naive_solver|].
  - injection Es as E1 E2 E3 E4. destruct z; cbn in Hz; [|naive_solver congruence..].
    exists Before. cbn. rewrite E1, E2. naive_solver.
  - unfold section, entered in Es. injection Es as E1 E2 E3 E4.
    destruct Hn as [-> | ->], z; cbn in Hz, E2; destruct Hz as [Hg Hz];
      repeat match type of Hz with _ /\ _ => destruct Hz as [Hz ?] end; rewrite ?Hg, ?Hz in E2.
  + exists Before. cbn. rewrite andb_false_r in E2. by rewrite E1, E2.
  + exists After. cbn in *. by rewrite E1, E2, E4.
  + exists After. cbn in *. by rewrite E1, E2, E4.
  + exists Inside. rewrite (proj2 (Z.eqb_neq _ _) Hz) in E2. cbn in *. by rewrite E1, E2, E4.
  + exists Inside. cbn in *. by rewrite E1, E2, E4.
  + exfalso. apply Hr. right. left. cbn in E2. lia.
Qed.

(** The sections of the names of an archive. *)
Definition sections_of (l : list (SWPATH * Z)) : list Z := (fun r => swpath_is_catalog_ r.1) <$> l.

Definition section_run (z : zone) (l : list Z) : Prop :=
  exists a b c, l = a ++ b ++ c /\ Forall (fun n => n <> 1) a /\ Forall (fun n => n = 1) b
    /\ Forall (fun n => n = 0) c /\ (z <> Before -> a = []) /\ (z = After -> b = []).

Lemma section_run_cons z z' sp l :
  in_zone z' sp -> follows z z' = true -> section_run z' l -> section_run z (swpath_is_catalog_ sp :: l).
Proof.
  intros Hz Hf (a & b & c & -> & Ha & Hb & Hc & H1 & H2). destruct z'; cbn in Hz.
  - exists (swpath_is_catalog_ sp :: a), b, c. destruct z; try done.
    split; [done|]. split; [constructor; [tauto|done]|]. naive_solver.
  - rewrite (H1 ltac:(done)). exists [], (swpath_is_catalog_ sp :: b), c.
    destruct z; try done; (split; [done|]); (split; [done|]); (split; [constructor; [tauto|done]|]); naive_solver.
  - rewrite (H1 ltac:(done)), (H2 ltac:(done)). exists [], [], (swpath_is_catalog_ sp :: c).
    (split; [done|]); (split; [done|]); (split; [done|]); (split; [constructor; [tauto|done]|]); naive_solver.
Qed.

Lemma parse_archive_cons sp n names l :
  parse_archive sp (n :: names) = Some (Returns l) ->
  exists sp' ret l', swpath_parse_path sp n = Some (Returns (sp', ret))
    /\ parse_archive sp' names = Some (Returns l') /\ l = (sp', ret) :: l'.
Proof.
  cbn [parse_archive]. destruct (swpath_parse_path sp n) as [[[sp' ret]|]|]; [|done..]. obind.
  destruct (parse_archive sp' names) as [[l'|]|] eqn:E; [|done..]. obind. intros [= <-].
  exists sp', ret, l'. auto.
Qed.

Lemma parse_archive_run names : forall z sp l,
  in_zone z sp -> parse_archive sp names = Some (Returns l) -> Forall (fun r => r.2 <> -1) l ->
  section_run z (sections_of l).
Proof.
  induction names as [|n names IH]; intros z sp l Hz.
  - intros [= <-] _. exists [], [], []. naive_solver.
  - intros (sp' & ret & l' & E & El & ->)%parse_archive_cons HF. apply Forall_cons in HF as [Hr HF].
    destruct (zone_step _ _ _ _ _ Hz E Hr) as (z' & Hz' & Hf). cbn.
    eapply section_run_cons; eauto.
Qed.

(** ** The components of a name *)

(** The components with [x] between them. *)
Fixpoint sepby (x : ascii) (cs : list bytes) : bytes :=
  match cs with
  | [] => []
  | c :: r => match r with [] => c | _ => c ++ x :: sepby x r end
  end.

(** The addresses of the components behind [s] bytes. *)
Fixpoint offsets (s : Z) (cs : list bytes) : list Z :=
  match cs with
  | [] => []
  | c :: r => s :: offsets (s + zlen c + 1) r
  end.

Definition plain (cs : list bytes) : Prop := Forall (fun c => no_slash c /\ no_nul c) cs.

Lemma sepby_cons x c r : r <> [] -> sepby x (c :: r) = c ++ x :: sepby x r.
Proof. by destruct r. Qed.

Lemma sepby_no_nul cs : plain cs -> no_nul (sepby slash cs).
Proof.
  induction cs as [|c r IH]; [intros _; apply no_nul_nil|]. intros [[_ Hc] HF]%Forall_cons.
  destruct r as [|d r]; [done|]. rewrite sepby_cons by done. apply no_nul_app. split; [done|].
  apply no_nul_cons. split; [done|]. by apply IH.
Qed.

Lemma offsets_length s cs : length (offsets s cs) = length cs.
Proof. revert s. induction cs as [|c r IH]; intros s; cbn; [done|]. by rewrite IH. Qed.

Lemma sepby_length x y cs : zlen (sepby x cs) = zlen (sepby y cs).
Proof.
  induction cs as [|c r IH]; [done|]. destruct r as [|d r]; [done|].
  rewrite (sepby_cons x), (sepby_cons y) by done. rewrite !zlen_app, !zlen_cons. by rewrite IH.
Qed.

(** A text at its place in a buffer. *)
Lemma str_at_mid (pre t r : bytes) : no_nul t -> str_at (pre ++ t ++ NUL :: r) (zlen pre) = Some t.
Proof.
  intros Ht. apply str_at_holds; [unfold zlen; lia|]. apply (holds_intro _ _ r); [done|].
  unfold zlen. by rewrite Nat2Z.id, drop_app_length.
Qed.

Lemma mem_write_mid (pre t : bytes) c d r :
  mem_write (pre ++ t ++ c :: r) (zlen pre + zlen t) [d] = Some (pre ++ t ++ d :: r).
Proof.
  rewrite mem_write_in by (unfold zlen; rewrite ?length_app; cbn [length]; lia).
  f_equal. unfold zlen. rewrite <- Nat2Z.inj_add, Nat2Z.id. cbn [length].
  replace (pre ++ t ++ c :: r) with ((pre ++ t ++ [c]) ++ r) by by rewrite <- !app_assoc.
  rewrite (drop_app_length' (pre ++ t ++ [c])) by (rewrite !length_app; cbn; lia).
  rewrite <- app_assoc. replace (pre ++ (t ++ [c]) ++ r) with ((pre ++ t) ++ c :: r) by by rewrite <- !app_assoc.
  rewrite take_app_length' by by rewrite length_app. by rewrite <- !app_assoc.
Qed.

Lemma slash_free c : no_slash c -> Forall (fun d => ceq slash d = false) c.
Proof. apply no_slash_strrchr. Qed.

Lemma split_components_spec cs : forall k pre,
  plain cs -> cs <> [] -> (length cs <= S k)%nat ->
  exists e, offsets (zlen pre) cs = take (length cs - 1) (offsets (zlen pre) cs) ++ [e]
    /\ split_components k (pre ++ sepby slash cs ++ [NUL]) (zlen pre)
       = Some (pre ++ sepby NUL cs ++ [NUL], take (length cs - 1) (offsets (zlen pre) cs), e).
Proof.
  induction cs as [|c r IH]; intros k pre HF Hne Hk; [done|].
  pose proof HF as [[Hs Hn] HF']%Forall_cons. destruct r as [|d r].
  - exists (zlen pre). split; [done|]. destruct k as [|k]; [done|]. cbn [split_components sepby].
    rewrite str_at_mid by done. obind. unfold strchr.
    by rewrite (proj2 (find_index_None _ _) (slash_free _ Hs)).
  - destruct k as [|k]; [cbn in Hk; lia|]. rewrite !sepby_cons by done. cbn [split_components].
    replace (pre ++ (c ++ slash :: sepby slash (d :: r)) ++ [NUL])
      with (pre ++ c ++ slash :: sepby slash (d :: r) ++ [NUL]) by by rewrite <- !app_assoc.
    replace (str_at _ _) with (Some (c ++ slash :: sepby slash (d :: r))).
    2:{ symmetry. replace (pre ++ c ++ slash :: sepby slash (d :: r) ++ [NUL])
          with (pre ++ (c ++ slash :: sepby slash (d :: r)) ++ [NUL]) by by rewrite <- !app_assoc.
        apply str_at_mid. rewrite <- sepby_cons by done. by apply sepby_no_nul. }
    obind. unfold strchr. rewrite find_index_app; [|by apply slash_free|done].
    fold (zlen c). rewrite mem_write_mid. obind.
    destruct (IH k (pre ++ c ++ [NUL])) as (e & E1 & E2); [done|done|cbn in *; lia|].
    replace (zlen (pre ++ c ++ [NUL])) with (zlen pre + zlen c + 1) in E1, E2 by (zl; lia).
    replace ((pre ++ c ++ [NUL]) ++ sepby slash (d :: r) ++ [NUL])
      with (pre ++ c ++ NUL :: sepby slash (d :: r) ++ [NUL]) in E2 by by rewrite <- !app_assoc.
    exists e. rewrite E2. obind. cbn [length] in *. replace (S (length r) - 0)%nat with (S (length r)) in * by lia.
    cbn [offsets] in *. replace (S (S (length r)) - 1)%nat with (S (length r)) by lia.
    replace (S (length r) - 1)%nat with (length r) in * by lia. cbn [take app]. split; [by f_equal|].
    f_equal. f_equal. f_equal. rewrite (sepby_cons NUL c) by done. by rewrite <- !app_assoc.
Qed.

Lemma offsets_texts cs : forall pre, plain cs ->
  mapM (str_at (pre ++ sepby NUL cs ++ [NUL])) (offsets (zlen pre) cs) = Some cs.
Proof.
  induction cs as [|c r IH]; intros pre HF; [done|]. pose proof HF as [[Hs Hn] HF']%Forall_cons.
  cbn [offsets]. destruct r as [|d r].
  - cbn [sepby offsets]. cbn. rewrite str_at_mid by done. done.
  - rewrite sepby_cons by done.
    replace (pre ++ (c ++ NUL :: sepby NUL (d :: r)) ++ [NUL])
      with ((pre ++ c ++ [NUL]) ++ sepby NUL (d :: r) ++ [NUL]) by by rewrite <- !app_assoc.
    specialize (IH (pre ++ c ++ [NUL]) HF').
    replace (zlen (pre ++ c ++ [NUL])) with (zlen pre + zlen c + 1) in IH by (zl; lia).
    remember (d :: r) as dr. cbn [mapM]. rewrite IH.
    replace ((pre ++ c ++ [NUL]) ++ sepby NUL dr ++ [NUL])
      with (pre ++ c ++ NUL :: sepby NUL dr ++ [NUL]) by by rewrite <- !app_assoc.
    by rewrite str_at_mid.
Qed.

Lemma join_components_spec cs : forall pre, plain cs -> cs <> [] ->
  join_components (pre ++ sepby NUL cs ++ [NUL]) (take (length cs - 1) (offsets (zlen pre) cs))
  = Some (pre ++ sepby slash cs ++ [NUL]).
Proof.
  induction cs as [|c r IH]; intros pre HF Hne; [done|]. pose proof HF as [[Hs Hn] HF']%Forall_cons.
  destruct r as [|d r]; [done|]. rewrite !(sepby_cons _ c) by done. cbn [offsets length].
  replace (S (S (length r)) - 1)%nat with (S (length r)) by lia. cbn [take join_components].
  replace (pre ++ (c ++ NUL :: sepby NUL (d :: r)) ++ [NUL])
    with (pre ++ c ++ NUL :: sepby NUL (d :: r) ++ [NUL]) by by rewrite <- !app_assoc.
  unfold strlen_at. rewrite str_at_mid by done. obind. rewrite mem_write_mid. obind.
  specialize (IH (pre ++ c ++ [slash]) HF' ltac:(done)).
  replace (zlen (pre ++ c ++ [slash])) with (zlen pre + zlen c + 1) in IH by (zl; lia).
  cbn [offsets length] in IH. replace (S (length r) - 1)%nat with (length r) in IH by lia.
  replace (pre ++ c ++ slash :: sepby NUL (d :: r) ++ [NUL])
    with ((pre ++ c ++ [slash]) ++ sepby NUL (d :: r) ++ [NUL]) by by rewrite <- !app_assoc.
  destruct r as [|e r]; [cbn [offsets take length] in *|]; rewrite IH; by rewrite <- !app_assoc.
Qed.

(** The buffer in front of the component [k]. *)
Lemma split_at_component cs : forall k pre, (k < length cs)%nat ->
  exists pre', pre ++ sepby NUL cs = pre' ++ sepby NUL (drop k cs)
    /\ offsets (zlen pre) cs !! k = Some (zlen pre')
    /\ drop k (offsets (zlen pre) cs) = offsets (zlen pre') (drop k cs).
Proof.
  induction cs as [|c r IH]; intros k pre Hk; [cbn in Hk; lia|]. destruct k as [|k].
  - by exists pre.
  - cbn [length] in Hk. destruct r as [|d r]; [cbn in Hk; lia|]. rewrite sepby_cons by done.
    destruct (IH k (pre ++ c ++ [NUL])) as (pre' & E1 & E2 & E3); [lia|].
    replace (zlen (pre ++ c ++ [NUL])) with (zlen pre + zlen c + 1) in E2, E3 by (zl; lia).
    exists pre'. cbn [offsets drop lookup list_lookup] in *. split; [|by split].
    rewrite <- E1. by rewrite <- !app_assoc.
Qed.

(** *** The part behind the prepath *)

(** The file name, when there is one, and its last component. *)
Definition finished (sp : SWPATH) (rest : list bytes) : SWPATH :=
  match rest with
  | [] => sp
  | _ => let t := sepby slash rest in swpath_set_filename (swpath_set_pathname sp t) (Some t)
  end.

Lemma check_error_finished sp rest ret : check_error (finished sp rest) ret = check_error sp ret.
Proof.
  destruct rest as [|r rest]; [done|]. unfold finished. cbn [swpath_set_filename].
  unfold swpath__set__basename. by destruct (strrchr _ _).
Qed.

Lemma text_of_terminated t : exists b, text_of (t ++ [NUL]) = Some b.
Proof. unfold text_of. rewrite str_at_0, terminated_nul. eauto. Qed.

(** The component at which the file name starts. *)
Definition name_start (sp : SWPATH) (compy : nat) : nat :=
  if (control_path_nominal_depth_ sp =? 0) && (swpath_is_catalog_ sp =? 0) then 0%nat else compy.

Lemma plain_drop k cs : plain cs -> plain (drop k cs).
Proof. intros H. by apply Forall_drop. Qed.

Lemma parse_buffer_spec sp pre cs : plain cs -> cs <> [] -> (length cs < SWPATH_PARSE_CA)%nat ->
  exists b, parse_buffer sp (pre ++ sepby slash cs ++ [NUL]) (zlen pre)
    = let '(sp1, compy, ret) := parse_components sp cs in
      Some (Returns (finished (put_buffer b sp1) (drop (name_start sp1 compy) cs), check_error sp1 ret)).
Proof.
  intros HF Hne Hl. unfold SWPATH_PARSE_CA in Hl.
  destruct (split_components_spec cs SWPATH_PARSE_CA pre HF Hne) as (e & E1 & E2); [unfold SWPATH_PARSE_CA; lia|].
  unfold parse_buffer. rewrite E2. obind.
  assert (length (take (length cs - 1) (offsets (zlen pre) cs)) = length cs - 1)%nat as El.
  { rewrite length_take, offsets_length. lia. }
  rewrite El. unfold SWPATH_PARSE_CA. rewrite (proj2 (Nat.leb_gt (22 - 1) (length cs - 1))) by lia.
  cbv zeta. rewrite <- E1, offsets_texts by done. obind.
  destruct (parse_components sp cs) as [[sp1 compy] ret]. fold (name_start sp1 compy).
  set (k := name_start sp1 compy). rewrite offsets_length.
  destruct (decide (k < length cs)%nat) as [Hk|Hk].
  - destruct (split_at_component cs k pre Hk) as (pre' & S1 & S2 & S3). rewrite S2.
    assert (drop k cs <> []) as Hd. { intros E. apply (f_equal length) in E. rewrite length_drop in E. cbn in E. lia. }
    replace (drop k (take (length cs - 1) (offsets (zlen pre) cs)))
      with (take (length (drop k cs) - 1) (offsets (zlen pre') (drop k cs))).
    2:{ rewrite <- S3, length_drop, skipn_firstn_comm. f_equal. lia. }
    rewrite (app_assoc pre), S1, <- app_assoc, join_components_spec by (done || by apply plain_drop). obind.
    destruct (text_of_terminated (pre' ++ sepby slash (drop k cs))) as [b Eb].
    rewrite <- app_assoc in Eb. rewrite Eb. obind.
    rewrite str_at_mid by by apply sepby_no_nul, plain_drop. obind.
    exists b. destruct (drop k cs) as [|d ds] eqn:Ed; [done|].
    do 3 f_equal. apply (check_error_finished (put_buffer b sp1) (d :: ds)).
  - rewrite (lookup_ge_None_2 (offsets _ _)) by (rewrite offsets_length; lia).
    rewrite (drop_ge (take _ _)) by lia. cbn [join_components]. obind.
    destruct (text_of_terminated (pre ++ sepby NUL cs)) as [b Eb].
    rewrite <- app_assoc in Eb. rewrite Eb. obind. exists b. by rewrite (drop_ge cs) by lia.
Qed.

Lemma sepby_mid pre c r :
  pre ++ (c ++ slash :: sepby slash r) ++ [NUL] = pre ++ c ++ slash :: sepby slash r ++ [NUL].
Proof. by rewrite <- !app_assoc. Qed.

Lemma split_components_count cs : forall k pre, plain cs -> cs <> [] ->
  exists m ca e, split_components k (pre ++ sepby slash cs ++ [NUL]) (zlen pre) = Some (m, ca, e)
    /\ length ca = Nat.min k (length cs - 1).
Proof.
  induction cs as [|c r IH]; intros k pre HF Hne; [done|].
  pose proof HF as [[Hs Hn] HF']%Forall_cons. destruct k as [|k]; [by eexists _, [], _|].
  destruct r as [|d r]; cbn [split_components].
  - cbn [sepby]. rewrite str_at_mid by done. obind. unfold strchr.
    rewrite (proj2 (find_index_None _ _) (slash_free _ Hs)). by eexists _, [], _.
  - pose proof (sepby_no_nul _ HF) as Hnn. rewrite (sepby_cons _ c) in * by done.
    rewrite str_at_mid by done. obind.
    unfold strchr. rewrite find_index_app; [|by apply slash_free|done].
    fold (zlen c). rewrite sepby_mid, mem_write_mid. obind.
    destruct (IH k (pre ++ c ++ [NUL])) as (m & ca & e & E & El); [done..|].
    replace (zlen (pre ++ c ++ [NUL])) with (zlen pre + zlen c + 1) in E by (zl; lia).
    replace ((pre ++ c ++ [NUL]) ++ sepby slash (d :: r) ++ [NUL])
      with (pre ++ c ++ NUL :: sepby slash (d :: r) ++ [NUL]) in E by by rewrite <- !app_assoc.
    rewrite E. obind. eexists _, _, _. split; [done|]. cbn [length] in *. lia.
Qed.

Lemma parse_buffer_deep sp pre cs : plain cs -> (SWPATH_PARSE_CA <= length cs)%nat ->
  parse_buffer sp (pre ++ sepby slash cs ++ [NUL]) (zlen pre) = Some Fatal.
Proof.
  intros HF Hl. unfold SWPATH_PARSE_CA in Hl.
  assert (cs <> []) as Hne by (by intros ->; cbn in Hl; lia).
  destruct (split_components_count cs SWPATH_PARSE_CA pre HF Hne) as (m & ca & e & E & El).
  unfold parse_buffer. rewrite E. obind. unfold SWPATH_PARSE_CA in *.
  by rewrite (proj2 (Nat.leb_le (22 - 1) (length ca))) by lia.
Qed.

(** ** Cleaning *)

Lemma in_place_spec f t t' :
  no_nul t -> (exists m', f (t ++ [NUL]) = Some m' /\ edited (t ++ [NUL]) t m' t') -> in_place f t = Some t'.
Proof. intros Hn (m' & E & ED). unfold in_place. rewrite E. obind. by apply holds_text_of, ED. Qed.

(** A leading slash goes when something follows it. *)
Definition strip_slash (s : bytes) : bytes :=
  if starts_slash s && (zlen s >? 1) then drop 1 s else s.

(** What swpath__slashclean leaves. *)
Definition sp_clean (s : bytes) : bytes := chop slash 1 (strip_slash (strip_dot_slash (squeeze s))).

Lemma swpath__slashclean_spec m s :
  holds m 0 s -> exists m', swpath__slashclean m = Some m' /\ edited m s m' (sp_clean s).
Proof.
  intros H. destruct (squash_double_slash_spec m s H) as (m1 & E1 & ED1).
  destruct (squash_leading_dot_slash_spec m1 _ (ed_holds _ _ _ _ ED1)) as (m2 & E2 & ED2).
  unfold swlib_squash_leading_dot_slash in E2.
  unfold swpath__slashclean. fold (swlib_squash_double_slash m). rewrite E1. obind.
  rewrite (holds_text_of _ _ (ed_holds _ _ _ _ ED1)) in *. cbn [mbind option_bind] in E2 |- *.
  rewrite E2. obind. set (t := strip_dot_slash (squeeze s)) in *.
  pose proof (ed_holds _ _ _ _ ED2) as H2. rewrite (holds_text_of _ _ H2). obind.
  assert (exists m3, (if starts_slash t && (zlen t >? 1) then memmove m2 0 1 (zlen t) else Some m2) = Some m3
    /\ edited m2 t m3 (strip_slash t)) as (m3 & E3 & ED3).
  { unfold strip_slash. destruct (starts_slash t && (zlen t >? 1)) eqn:E; [|eauto with path].
    apply andb_true_iff in E as [Es _]. destruct t as [|c t]; [done|].
    destruct (edit_move m2 [] [c] t H2 ltac:(discriminate)) as (m3 & E3 & ED3).
    exists m3. split; [|exact ED3]. rewrite <- E3. f_equal. rewrite zlen_cons. lia. }
  rewrite E3. obind. pose proof (ed_holds _ _ _ _ ED3) as H3. rewrite (holds_text_of _ _ H3). obind.
  destruct (squash_trailing_slash_spec m3 _ H3) as (m4 & E4 & ED4).
  exists m4. split; [|eapply edited_trans; [exact ED1|]; eapply edited_trans; [exact ED2|]; by eapply edited_trans].
  unfold swlib_squash_trailing_slash, squash_trailing_char in E4. rewrite (holds_text_of _ _ H3) in E4.
  cbn [mbind option_bind] in E4. unfold is_slash. clear E2 E3. destruct (_ && _).
  - destruct (mem_write _ _ _); [|done]. by cbn in E4; injection E4 as ->.
  - by cbn in E4; injection E4 as ->.
Qed.

(** ** swpath_num_of_components *)

Lemma skip_slashes_split s :
  exists ds r, s = ds ++ r /\ Forall (fun x => is_slash x = true) ds /\ starts_slash r = false
    /\ skip_slashes s = zlen ds.
Proof.
  induction s as [|c s (ds & r & -> & Hd & Hr & E)]; [by exists [], []|]. cbn [skip_slashes].
  destruct (is_slash c) eqn:Ec.
  - exists (c :: ds), r. rewrite zlen_cons. split; [done|]. split; [by constructor|]. split; [done|lia].
  - exists [], (c :: ds ++ r). split; [done|]. split; [done|]. cbn. by rewrite Ec.
Qed.

Lemma strtok_slash_spec pre s : no_nul s ->
  exists ds tok, s = ds ++ tok /\ Forall (fun x => is_slash x = true) ds
    /\ match tok with
       | [] => strtok_slash (pre ++ s ++ [NUL]) (zlen pre) = Some (pre ++ s ++ [NUL], None)
       | _ :: _ =>
         (no_slash tok /\ strtok_slash (pre ++ s ++ [NUL]) (zlen pre)
            = Some (pre ++ s ++ [NUL], Some (zlen (pre ++ s))))
         \/ exists t r, tok = t ++ slash :: r /\ no_slash t /\ t <> []
              /\ strtok_slash (pre ++ s ++ [NUL]) (zlen pre)
                 = Some ((pre ++ ds ++ t ++ [NUL]) ++ r ++ [NUL], Some (zlen (pre ++ ds ++ t ++ [NUL])))
       end.
Proof.
  intros Hn. destruct (skip_slashes_split s) as (ds & tok & -> & Hd & Hr & E).
  exists ds, tok. split; [done|]. split; [done|]. unfold strtok_slash. rewrite str_at_mid by done. obind.
  rewrite E. cbv zeta.
  replace (Z.to_nat (zlen ds)) with (length ds) by (unfold zlen; lia). rewrite drop_app_length.
  destruct tok as [|c tok]; [done|]. cbn in Hr. unfold strchr.
  destruct (find_index (ceq slash) (c :: tok)) as [i|] eqn:Ei.
  - right. pose proof Ei as Ei'. apply find_index_Some in Ei as (x & Es & Ex%ceq_eq & Hf & Hi). subst x.
    set (t := take i (c :: tok)) in *. set (r := drop (S i) (c :: tok)) in *. clearbody r.
    assert (length t = i) as El by (unfold t; rewrite length_take; lia). clearbody t. subst i.
    exists t, r. split; [done|].
    assert (no_slash t) as Hs.
    { eapply Forall_impl; [exact Hf|]. intros y Hy. apply ceq_neq. apply ceq_neq in Hy. congruence. }
    split; [done|]. split. { intros ->. injection Es as -> _. done. }
    rewrite Es. replace (pre ++ (ds ++ t ++ slash :: r) ++ [NUL])
      with ((pre ++ ds) ++ t ++ slash :: r ++ [NUL]) by by rewrite <- !app_assoc.
    fold (zlen t). rewrite <- zlen_app, mem_write_mid. obind. do 2 f_equal.
    + by rewrite <- !app_assoc.
    + zl. f_equal. lia.
  - left. apply find_index_None in Ei. split.
    + eapply Forall_impl; [exact Ei|]. intros y Hy. apply ceq_neq. apply ceq_neq in Hy. congruence.
    + by rewrite !zlen_app.
Qed.

Lemma components_loop_spec fuel : forall pre s i, no_nul s -> (length s < fuel)%nat ->
  exists m, components_loop fuel (pre ++ s ++ [NUL]) (zlen pre) i
    = Some (m, i + zlen (tokens is_slash s)) /\ terminated m = true.
Proof.
  assert (forall pre : bytes, terminated (pre ++ [NUL]) = true) as Ht by (intros; apply terminated_nul).
  induction fuel as [|fuel IH]; intros pre s i Hn Hf; [lia|]. cbn [components_loop].
  destruct (strtok_slash_spec pre s Hn) as (ds & tok & -> & Hd & H).
  rewrite tokens_skip_all by done. destruct tok as [|c tok].
  - rewrite H. obind. eexists. split; [by rewrite tokens_nil, zlen_nil, Z.add_0_r|]. rewrite app_assoc. apply Ht.
  - destruct H as [[Hs ->]|(t & r & E & Hs & Hne & ->)]; obind.
    + rewrite tokens_free by done. destruct (IH (pre ++ ds ++ c :: tok) [] (i + 1)) as (m & E & Hm).
      { apply no_nul_nil. } { rewrite length_app in Hf. cbn [length] in *. lia. }
      rewrite <- (app_assoc pre) in E. cbn [app] in E. rewrite <- (app_assoc ds) in E.
      exists m. split; [|done]. rewrite <- (app_assoc ds). cbn [app] in *. rewrite E. do 2 f_equal.
      rewrite tokens_nil. unfold zlen. cbn [length]. lia.
    + rewrite E in *. rewrite tokens_delim by done.
      destruct (IH (pre ++ ds ++ t ++ [NUL]) r (i + 1)) as (m & E2 & Hm).
      { apply no_nul_app in Hn as [_ Hn]. apply no_nul_app in Hn as [_ Hn]. by apply no_nul_cons in Hn as [_ ?]. }
      { rewrite !length_app in Hf. cbn [length] in *. lia. }
      exists m. split; [|done]. rewrite E2, zlen_cons. do 2 f_equal. lia.
Qed.

Lemma num_of_components_spec sp str : no_nul str ->
  exists b, swpath_num_of_components sp str = Some (put_buffer b sp, zlen (tokens is_slash str)).
Proof.
  intros Hn. unfold swpath_num_of_components.
  destruct (components_loop_spec (S (S (length str))) [] str 0 Hn) as (m & E & Hm); [lia|].
  cbn [app] in E. change (zlen []) with 0 in E. rewrite E. obind.
  unfold text_of. rewrite str_at_0, Hm. obind. by eexists.
Qed.

(** ** Names in normal form *)

Lemma sepby_app x a b : a <> [] -> b <> [] -> sepby x (a ++ b) = sepby x a ++ x :: sepby x b.
Proof.
  intros Ha Hb. induction a as [|c a IH]; [done|]. destruct a as [|d a].
  - cbn [app]. by rewrite sepby_cons.
  - cbn [app] in *. rewrite (sepby_cons x c (d :: a ++ b)), (sepby_cons x c (d :: a)) by done.
    rewrite IH by done. by rewrite <- app_assoc.
Qed.

Lemma component_no_dots n : component n -> forall pre post, n ++ L "/" <> pre ++ L "/./" ++ post.
Proof.
  intros [Hne Hs Hd _] pre post E.
  apply (occurrence_before n [] (L "/.") pre post (Forall_nil_2 _)) in E.
  assert (forall a (b : bytes), n <> a ++ slash :: b) as Hno.
  { intros a b ->. apply Forall_app in Hs as [_ Hs]. by apply Forall_cons in Hs as [? _]. }
  destruct E as [[_ E]|(p & _ & E)]; [exact (Hno pre (L ".") E)|exact (Hno pre (L "./" ++ p) E)].
Qed.

Lemma component_canonical n : component n -> canonical n.
Proof.
  intros HC. pose proof HC as [Hne Hs Hd _].
  assert (forall a (b : bytes), n <> a ++ slash :: b) as Hno.
  { intros a b ->. apply Forall_app in Hs as [_ Hs]. by apply Forall_cons in Hs as [? _]. }
  split; [done|done| | | |].
  - destruct (is_prefix (L "./") n) eqn:E; [|done]. apply is_prefix_spec in E as [r E].
    by destruct (Hno (L ".") r).
  - by apply component_end.
  - apply strstr_None_intro. intros pre post E. by destruct (Hno pre (slash :: post)).
  - apply strstr_None_intro. by apply component_no_dots.
Qed.

Lemma canonical_sepby cs : cs <> [] -> Forall component cs -> canonical (sepby slash cs).
Proof.
  induction cs as [|n cs IH] using rev_ind; [done|]. intros _ [HF Hn]%Forall_app.
  apply Forall_cons in Hn as [Hn _]. destruct cs as [|c cs]; [by apply component_canonical|].
  rewrite sepby_app by done. apply canonical_app; [|done]. by apply IH.
Qed.

Lemma components_plain cs : Forall component cs -> plain cs.
Proof. intros H. eapply Forall_impl; [exact H|]. by intros c [_ ? _ ?]. Qed.

Lemma component_first c r : component c -> starts_slash (c ++ r) = false.
Proof. intros [Hne Hs _ _]. destruct c as [|x c]; [done|]. by apply Forall_cons in Hs as [? _]. Qed.

Lemma sepby_first cs : cs <> [] -> Forall component cs -> starts_slash (sepby slash cs) = false.
Proof.
  destruct cs as [|c r]; [done|]. intros _ [Hc _]%Forall_cons. destruct r as [|d r].
  - cbn [sepby]. rewrite <- (app_nil_r c). by apply component_first.
  - rewrite sepby_cons by done. by apply component_first.
Qed.

(** Cleaning leaves a name in normal form alone. *)
Lemma canonical_fixed t :
  canonical t -> starts_slash t = false ->
  chop slash 1 t = t /\ strip_dot_slash t = t /\ sp_clean t = t.
Proof.
  intros HC Hs. assert (chop slash 1 t = t) as E1.
  { unfold chop. by rewrite (ca_end _ HC), andb_false_r. }
  split; [done|]. split; [by apply canonical_strip|]. unfold sp_clean.
  rewrite (squeeze_id _ (ca_double _ HC)), (canonical_strip _ HC). unfold strip_slash. by rewrite Hs.
Qed.

Lemma slashclean_text t : no_nul t -> in_place swpath__slashclean t = Some (sp_clean t).
Proof. intros Hn. apply in_place_spec; [done|]. by apply swpath__slashclean_spec, text_holds_buffer. Qed.

Lemma parse_path_canonical sp cs : cs <> [] -> Forall component cs ->
  swpath_parse_path sp (sepby slash cs)
  = parse_prepared (prepared sp (sepby slash cs) (sepby slash cs)) (sepby slash cs).
Proof.
  intros Hne HF. pose proof (sepby_no_nul _ (components_plain _ HF)) as Hn.
  destruct (canonical_fixed _ (canonical_sepby _ Hne HF) (sepby_first _ Hne HF)) as (E1 & E2 & _).
  pose proof (sepby_first _ Hne HF) as Hs. set (t := sepby slash cs) in *.
  assert (in_place swlib_squash_trailing_slash t = Some t) as R1.
  { rewrite <- E1 at 2. apply in_place_spec; [done|]. by apply squash_trailing_slash_spec, text_holds_buffer. }
  assert (in_place swlib_squash_leading_dot_slash t = Some t) as R2.
  { rewrite <- E2 at 2. apply in_place_spec; [done|]. by apply squash_leading_dot_slash_spec, text_holds_buffer. }
  unfold swpath_parse_path. rewrite R1. obind. rewrite R2. obind.
  assert (in_place swlib_squash_leading_slash t = Some t) as R3; [|rewrite R3; done].
  apply in_place_spec; [done|]. unfold swlib_squash_leading_slash.
  pose proof (text_holds_buffer _ Hn) as Hh. rewrite (holds_text_of _ _ Hh). obind.
  exists (t ++ [NUL]). split; [|auto with path]. destruct t as [|c t]; [done|]. cbn in Hs. by rewrite Hs.
Qed.

(** *** Names behind a known prepath *)

Lemma mem_read_mid (a : bytes) c r t : mem_read ((a ++ c :: r) ++ t) (zlen a) = Some c.
Proof.
  unfold mem_read. rewrite (proj2 (Z.leb_le 0 (zlen a))) by apply zlen_nonneg.
  unfold zlen. rewrite Nat2Z.id, <- app_assoc. cbn [app]. by apply list_lookup_middle.
Qed.

Section Known.
Context (sp : SWPATH) (ps cs : list bytes).
Let pre := sepby slash ps.
Let name := sepby slash (ps ++ cs).
Hypothesis Hcs : cs <> [].
Hypothesis HF : Forall component (ps ++ cs).
Hypothesis Hset : swpath_p_prepath_ sp = true.
Hypothesis Hpre : prepath_ sp = pre.
Hypothesis Hbuf : buffer_ sp = name.

Lemma known_name : name = match ps with [] => sepby slash cs | _ => pre ++ slash :: sepby slash cs end.
Proof. unfold name, pre. destruct ps as [|p ps']; [done|]. by rewrite sepby_app. Qed.

Lemma known_parts : Forall component ps /\ Forall component cs.
Proof. by apply Forall_app. Qed.

Lemma pre_length : pre = [] <-> ps = [].
Proof.
  destruct known_parts as [Hp _]. unfold pre. destruct ps as [|p ps']; [done|]. split; [|done].
  apply Forall_cons in Hp as [[Hne _ _ _] _]. destruct p; [done|]. by destruct ps'.
Qed.

Lemma wrong_prepath_known : wrong_prepath sp = Some false.
Proof.
  unfold wrong_prepath. rewrite Hpre, Hbuf, known_name. destruct ps as [|p ps'] eqn:Eps; [done|].
  destruct (zlen pre =? 0) eqn:E; [done|].
  assert (strstr (pre ++ slash :: sepby slash cs) pre = Some O) as ->
    by (apply strstr_0; by exists (slash :: sepby slash cs)).
  by rewrite mem_read_mid.
Qed.

Lemma pre_fixed : sp_clean pre = pre /\ no_nul pre.
Proof.
  destruct known_parts as [Hp _]. unfold pre. destruct (decide (ps = [])) as [->|Hne].
  - split; [done|apply no_nul_nil].
  - split; [|by apply sepby_no_nul, components_plain].
    by apply canonical_fixed; [apply canonical_sepby|apply sepby_first].
Qed.

Lemma name_fixed : sp_clean name = name /\ no_nul name.
Proof.
  assert (ps ++ cs <> []) as Hne by (by destruct ps).
  unfold name. split; [|by apply sepby_no_nul, components_plain].
  by apply canonical_fixed; [apply canonical_sepby|apply sepby_first].
Qed.

(** The address of the first component behind the prepath. *)
Lemma known_start :
  exists c, mem_read (name ++ [NUL]) (zlen pre) = Some c
    /\ exists p, name = p ++ sepby slash cs /\ (if is_slash c then zlen pre + 1 else zlen pre) = zlen p.
Proof.
  rewrite known_name. destruct known_parts as [_ Hc]. destruct ps as [|p ps'] eqn:Eps.
  - pose proof (sepby_first _ Hcs Hc) as Hs. assert (sepby slash cs <> []) as Hne.
    { apply canonical_sepby; done. }
    destruct (sepby slash cs) as [|x t]; [done|]. exists x. split; [done|]. exists []. cbn in Hs. by rewrite Hs.
  - exists slash. split.
    + by rewrite mem_read_mid.
    + exists (pre ++ [slash]). rewrite <- app_assoc, zlen_snoc. done.
Qed.

Lemma put_same b : exists b', put_buffer name (put_buffer b (put_prepath pre sp)) = sp
  /\ b' = buffer_ sp.
Proof. exists (buffer_ sp). split; [|done]. rewrite <- Hpre, <- Hbuf. by destruct sp. Qed.

Lemma parse_prepared_buffer :
  exists p, parse_prepared sp name = parse_buffer sp (p ++ sepby slash cs ++ [NUL]) (zlen p).
Proof.
  unfold parse_prepared. rewrite Hset. cbn [negb]. rewrite wrong_prepath_known. obind.
  destruct pre_fixed as [E1 H1], name_fixed as [E2 H2]. rewrite Hpre.
  rewrite (slashclean_text pre H1), (slashclean_text name H2), E1, E2. obind.
  destruct (num_of_components_spec (put_prepath pre sp) pre H1) as (b & ->). obind. cbv zeta.
  change (prepath_ (put_buffer b (put_prepath pre sp))) with pre.
  destruct known_start as (c & -> & p & Hp & Ep). obind. rewrite Ep. exists p.
  destruct (put_same b) as (_ & -> & _). by rewrite Hp, <- app_assoc.
Qed.

Lemma parse_prepared_spec : (length cs < SWPATH_PARSE_CA)%nat ->
  exists b, parse_prepared sp name
    = let '(sp1, compy, ret) := parse_components sp cs in
      Some (Returns (finished (put_buffer b sp1) (drop (name_start sp1 compy) cs), check_error sp1 ret)).
Proof.
  intros Hl. destruct parse_prepared_buffer as [p ->]. apply parse_buffer_spec; [|done|done].
  apply components_plain, known_parts.
Qed.

Lemma parse_prepared_deep : (SWPATH_PARSE_CA <= length cs)%nat -> parse_prepared sp name = Some Fatal.
Proof.
  intros Hl. destruct parse_prepared_buffer as [p ->]. apply parse_buffer_deep; [|done].
  apply components_plain, known_parts.
Qed.
End Known.
