(* ===== verification/SwpathLayout.v ===== *)
(** * The layout of a package, as SWPATH parses it

    [entry] is a name of a well formed archive, [phase] what the parser
    remembers, [step] which names may follow: the branches of
    swpath_parse_path, run on every entry in every phase. *)

From S2P Require Import Prelude CString Strob StrobSpec Pathname PathSpec Escape Swpath SwpathSpec.

(** ** The layout of a package

    The names of an archive: the leading directories, the catalog directory,
    INDEX, the dfiles directory and a file in it; in the catalog a product
    directory, its pfiles directory (or a file in it) and its fileset
    directories (or a file there); behind the catalog a product directory and
    what is in a fileset directory. *)
Inductive entry :=
  | Lead (k : nat)
  | Catalog
  | Index
  | Dfiles (f : list bytes)
  | Product (p : bytes)
  | Pfiles (p : bytes) (rest : list bytes)
  | Fileset (p f : bytes) (rest : list bytes)
  | SProduct (p : bytes)
  | SFileset (p f : bytes) (rest : list bytes).

(** The directories of an entry, and the file name behind them. *)
Definition entry_product (e : entry) : bytes :=
  match e with Product p | Pfiles p _ | Fileset p _ _ | SProduct p | SFileset p _ _ => p | _ => [] end.
Definition entry_fileset (e : entry) : bytes :=
  match e with Fileset _ f _ | SFileset _ f _ => f | _ => [] end.
Definition entry_dfiles (e : entry) : bytes := match e with Dfiles _ => L "dfiles" | _ => [] end.
Definition entry_pfiles (e : entry) : bytes := match e with Pfiles _ _ => L "pfiles" | _ => [] end.
Definition entry_rest (e : entry) : list bytes :=
  match e with
  | Index => [L "INDEX"]
  | Dfiles rest | Pfiles _ rest | Fileset _ _ rest | SFileset _ _ rest => rest
  | _ => []
  end.
Definition entry_storage (e : entry) : bool :=
  match e with SProduct _ | SFileset _ _ _ => true | _ => false end.

(** The directories that are there, in the order of a name. *)
Definition entry_dirs (e : entry) : list bytes :=
  List.filter (fun d => negb (is_nil d)) [entry_product e; entry_fileset e; entry_dfiles e; entry_pfiles e].

Definition entry_components (e : entry) : list bytes :=
  (if entry_storage e then [] else [SW_A_catalog]) ++ entry_dirs e ++ entry_rest e.

Definition entry_name (ps : list bytes) (e : entry) : list bytes :=
  match e with Lead k => take k ps | _ => ps ++ entry_components e end.

(** The directory names with a meaning of their own. *)
Definition ordinary (n : bytes) : bool :=
  negb (existsb (streq n) [SW_A_catalog; L "INDEX"; L "dfiles"; L "pfiles"]).

Definition good_entry (e : entry) : Prop :=
  Forall component (entry_rest e) /\ (length (entry_components e) < SWPATH_PARSE_CA)%nat
  /\ match e with
     | Dfiles f => (length f <= 1)%nat
     | Product p | Pfiles p _ | SProduct p => component p /\ ordinary p = true
     | Fileset p f _ | SFileset p f _ =>
         (component p /\ ordinary p = true) /\ (component f /\ ordinary f = true)
     | _ => True
     end.

(** *** What the parser remembers *)

Inductive phase :=
  | PLead (k : nat)
  | PReady
  | PIndex
  | PDfiles
  | PProducts (known deep clean : bool)
  | PStorage (known : bool).

Definition nonempty (rest : list bytes) : bool := match rest with [] => false | _ => true end.

(** Which name may follow: the leading directories from the outside in (or
    none), the catalog, INDEX, the dfiles, the products.  A fileset directory
    may come before any pfiles directory only with a file of its own, else it
    is taken for one ([known]); storage starts behind a control file of a
    product or fileset ([deep]); and directly behind pfiles only with a name of
    at most three components ([clean]). *)
Definition step (ps : list bytes) (ph : phase) (e : entry) : option phase :=
  match ph, e with
  | PLead k, Lead j => if (j =? S k)%nat && (j <=? length ps)%nat then Some (PLead j) else None
  | PLead k, (Catalog | Index) =>
      if (k =? 0)%nat || (k =? length ps)%nat then Some PIndex else None
  | (PReady | PIndex), (Catalog | Index) => Some PIndex
  | (PIndex | PDfiles), Dfiles _ => Some PDfiles
  | PDfiles, Product _ => Some (PProducts false false true)
  | PDfiles, Pfiles _ rest => Some (PProducts true (nonempty rest) false)
  | PDfiles, Fileset _ _ rest => if nonempty rest then Some (PProducts false true true) else None
  | PProducts known deep _, Product _ => Some (PProducts known deep true)
  | PProducts _ deep _, Pfiles _ rest => Some (PProducts true (deep || nonempty rest) false)
  | PProducts known deep _, Fileset _ _ rest =>
      if known || nonempty rest then Some (PProducts known (deep || nonempty rest) true) else None
  | PProducts known true _, SProduct _ => Some (PStorage known)
  | PProducts known true clean, SFileset _ _ rest =>
      if clean || (length rest <=? 1)%nat then Some (PStorage known) else None
  | PStorage known, (SProduct _ | SFileset _ _ _) => Some (PStorage known)
  | _, _ => None
  end.

Record settled (ps : list bytes) (sec cg dg : Z) (df pf : bytes) (pd pp : bool) (depth : Z) (deep : bool)
    (sp : SWPATH) : Prop := {
  st_prepath : prepath_ sp = sepby slash ps;
  st_set : swpath_p_prepath_ sp = true;
  st_section : swpath_is_catalog_ sp = sec;
  st_error : errorM sp = 0;
  st_minimal : is_minimal_layoutM sp = 0;
  st_catalog : catalog_guardM sp = cg;
  st_guard : dfiles_guardM sp = dg;
  st_defaults : dfiles_default sp = L "dfiles" /\ pfiles_default sp = L "pfiles";
  st_dfiles : dfiles_ sp = df;
  st_pfiles : pfiles_ sp = pf;
  st_pd : swpath_p_dfiles_ sp = pd;
  st_pp : swpath_p_pfiles_ sp = pp;
  st_p_dfiles : pd = true -> p_dfiles_ sp = L "dfiles";
  st_p_pfiles : pp = true -> p_pfiles_ sp = L "pfiles";
  st_depth : control_path_nominal_depth_ sp = depth;
  st_deep : deep = true -> 4 <= max_rel_n_ sp;
}.

Definition at_phase (ps : list bytes) (ph : phase) (sp : SWPATH) : Prop :=
  match ph with
  | PLead k =>
      swpath_p_prepath_ sp = false
      /\ exists sec, (sec = 0 \/ sec = -1)
           /\ settled (take k ps) sec 0 0 [] [] false false 0 false (put_p_prepath_set true sp)
  | PReady => exists sec, (sec = 0 \/ sec = -1) /\ settled ps sec 0 0 [] [] false false 0 false sp
  | PIndex => settled ps 1 1 0 [] [] false false 0 false sp
  | PDfiles => settled ps 1 1 1 (L "dfiles") [] true false 0 false sp
  | PProducts known deep clean =>
      settled ps 1 1 1 [] (if clean then [] else L "pfiles") true known 2 deep sp
  | PStorage known => settled ps 0 1 1 [] [] true known 2 true sp
  end.

(** The fields of the name just parsed. *)
Record describes (ps : list bytes) (e : entry) (sp : SWPATH) : Prop := {
  de_product : product_control_dir_ sp = entry_product e;
  de_fileset : fileset_control_dir_ sp = entry_fileset e;
  de_dfiles : dfiles_ sp = entry_dfiles e;
  de_pfiles : pfiles_ sp = entry_pfiles e;
  de_rest : pathname_ sp = sepby slash (entry_rest e);
}.

Lemma streq_refl_bytes a : streq a a = true.
Proof. apply streq_refl. Qed.

Lemma ordinary_facts n : ordinary n = true ->
  streq n SW_A_catalog = false /\ streq n (L "INDEX") = false
  /\ streq n (L "dfiles") = false /\ streq n (L "pfiles") = false.
Proof.
  unfold ordinary. cbn [existsb]. destruct (streq n SW_A_catalog), (streq n (L "INDEX")),
    (streq n (L "dfiles")), (streq n (L "pfiles")); naive_solver.
Qed.

Lemma component_facts n : component n -> (zlen n =? 0) = false /\ streq n [] = false /\ streq [] n = false.
Proof.
  intros [Hne _ _ Hn]. destruct n as [|c n]; [done|]. split; [rewrite zlen_cons; pose proof (zlen_nonneg n); lia|].
  apply no_nul_cons in Hn as [Hc _].
  assert (uchar c <> 0) as Hu by (intros E; apply Hc, uchar_inj, E).
  unfold streq. cbn. split; lia.
Qed.

(** The state in which parse_components is called. *)
Definition fresh (sp : SWPATH) : Prop :=
  product_control_dir_ sp = [] /\ fileset_control_dir_ sp = [] /\ pathname_ sp = [].

(** *** States by their fields

    [st] is a state of the right layout; the setters act on its arguments. *)

Section States.
Context (ps : list bytes) (opn pkg pth buf bas : bytes) (pl : list bytes).

Definition st (sec cg dg : Z) (df pf : bytes) (pd : bool) (pdf : bytes) (pp : bool) (ppf : bytes)
    (depth mr : Z) (prod fs : bytes) (pfd : bool) : SWPATH :=
  mkSWPATH sec 0 depth mr prod fs pf df opn pkg pth buf bas (L "pfiles") (L "dfiles")
    (sepby slash ps) ppf pdf true pd pp pfd pl 0 dg cg.

Context (sec cg dg : Z) (df pf : bytes) (pd : bool) (pdf : bytes) (pp : bool) (ppf : bytes)
  (depth mr : Z) (prod fs : bytes) (pfd : bool).
Let this := st sec cg dg df pf pd pdf pp ppf depth mr prod fs pfd.

Lemma st_set_max_rel_n n :
  set_max_rel_n this n = st sec cg dg df pf pd pdf pp ppf depth (Z.max n mr) prod fs pfd.
Proof.
  unfold set_max_rel_n. cbn. destruct (n >? mr) eqn:E; zbool; unfold this, st, put_max_rel_n; cbn;
    f_equal; lia.
Qed.

Lemma st_stay : sec = 1 -> cg = 1 -> set_is_catalog this 1 = this.
Proof. by intros -> ->. Qed.

Lemma st_enter : sec = 0 \/ sec = -1 -> cg = 0 ->
  set_is_catalog this 1 = st 1 1 dg df pf pd pdf pp ppf depth mr prod fs pfd.
Proof. by intros [-> | ->] ->. Qed.

Lemma st_leave : sec = 1 \/ sec = 0 -> cg = 1 ->
  set_is_catalog this 0 = st 0 1 dg df pf pd pdf pp ppf depth mr prod fs pfd.
Proof. by intros [-> | ->] ->. Qed.

Lemma st_v_dfiles_nil : set_v_dfiles this [] = st sec cg dg [] pf pd pdf pp ppf depth mr prod fs pfd.
Proof. unfold set_v_dfiles. change (zlen (@nil ascii) =? 0) with true. by rewrite andb_false_r. Qed.

Lemma st_v_dfiles s : (zlen s =? 0) = false ->
  set_v_dfiles this s
  = st sec cg (if zlen df =? 0 then dg + 1 else dg) s pf pd pdf pp ppf depth mr prod fs pfd.
Proof. intros H. unfold set_v_dfiles. rewrite H. cbn. by destruct (zlen df =? 0). Qed.

Lemma st_v_pfiles s : set_v_pfiles this s = st sec cg dg df s pd pdf pp ppf depth mr prod fs pfd.
Proof. done. Qed.

Lemma st_p_dfiles_set s : set_p_dfiles this s
  = st sec cg dg df pf true (if pd then pdf else s) pp ppf depth mr prod fs pfd.
Proof. unfold set_p_dfiles. cbn. unfold this. by destruct pd. Qed.

Lemma st_p_pfiles_set s : set_p_pfiles this (Some s)
  = st sec cg dg df pf pd pdf true (if pp then ppf else s) depth mr prod fs pfd.
Proof. unfold set_p_pfiles. cbn. unfold this. by destruct pp. Qed.

Lemma st_p_pfiles_none : set_p_pfiles this None = this.
Proof. done. Qed.

Lemma st_product s : (zlen s =? 0) = false -> sec = 1 \/ (sec = 0 /\ depth = 2) ->
  swpath_set_product_control_dir this s
  = st sec cg dg df pf pd pdf pp ppf (Z.max depth 2) mr s fs pfd.
Proof.
  intros H Hs. unfold swpath_set_product_control_dir, control_dir, set_control_depth. rewrite H. cbn.
  unfold this. destruct Hs as [-> | [-> ->]]; [|done]. cbn. destruct (depth <? 2) eqn:E; zbool; cbn;
    unfold st, put_product_control_dir, put_control_path_nominal_depth; cbn; f_equal; lia.
Qed.

Lemma st_fileset s : (zlen s =? 0) = false -> sec = 1 \/ (sec = 0 /\ depth = 2) ->
  swpath_set_fileset_control_dir this s
  = st sec cg dg df pf pd pdf pp ppf (Z.max depth 1) mr prod s pfd.
Proof.
  intros H Hs. unfold swpath_set_fileset_control_dir, control_dir, set_control_depth. rewrite H. cbn.
  unfold this. destruct Hs as [-> | [-> ->]]; [|done]. cbn. destruct (depth <? 1) eqn:E; zbool; cbn;
    unfold st, put_fileset_control_dir, put_control_path_nominal_depth; cbn; f_equal; lia.
Qed.

Lemma st_fileset_nil :
  swpath_set_fileset_control_dir this [] = st sec cg dg df pf pd pdf pp ppf depth mr prod [] pfd.
Proof.
  unfold swpath_set_fileset_control_dir, control_dir. change (zlen (@nil ascii) =? 0) with true. cbn.
  by destruct (_ && _).
Qed.

Lemma st_p_fileset_none :
  set_p_fileset_dir this None = st sec cg dg df pf pd pdf pp ppf depth mr prod [] false.
Proof. unfold set_p_fileset_dir. by rewrite st_fileset_nil. Qed.
End States.

Lemma st_p_fileset ps opn pkg pth buf bas pl sec cg dg df pf pd pdf pp ppf depth mr prod fs pfd s :
  (zlen s =? 0) = false -> sec = 1 \/ (sec = 0 /\ depth = 2) ->
  set_p_fileset_dir (st ps opn pkg pth buf bas pl sec cg dg df pf pd pdf pp ppf depth mr prod fs pfd) (Some s)
  = st ps opn pkg pth buf bas pl sec cg dg df pf pd pdf pp ppf (Z.max depth 1) mr prod s true.
Proof. intros H Hs. unfold set_p_fileset_dir. by rewrite st_fileset. Qed.

Section Projections.
Context (ps : list bytes) (opn pkg pth buf bas : bytes) (pl : list bytes)
  (sec cg dg : Z) (df pf : bytes) (pd : bool) (pdf : bytes) (pp : bool) (ppf : bytes)
  (depth mr : Z) (prod fs : bytes) (pfd : bool).
Let this := st ps opn pkg pth buf bas pl sec cg dg df pf pd pdf pp ppf depth mr prod fs pfd.

Lemma st_product_of : product_control_dir_ this = prod. Proof. done. Qed.
Lemma st_pfiles_of : pfiles_ this = pf. Proof. done. Qed.
Lemma st_max_rel_of : max_rel_n_ this = mr. Proof. done. Qed.
Lemma st_minimal_of : swpath_get_is_minimal_layout this = 0. Proof. done. Qed.
Lemma st_pd_of : swpath_p_dfiles_ this = pd. Proof. done. Qed.
Lemma st_pp_of : swpath_p_pfiles_ this = pp. Proof. done. Qed.
Lemma st_pdf_of : p_dfiles_ this = pdf. Proof. done. Qed.
Lemma st_pfd_of : swpath_p_fileset_dir_ this = pfd. Proof. done. Qed.
Lemma st_get_pd : get_p_dfiles this = if pd then Some pdf else None. Proof. done. Qed.
Lemma st_get_pp : get_p_pfiles this = if pp then Some ppf else None. Proof. done. Qed.
Lemma st_pdefault_of : pfiles_default this = L "pfiles". Proof. done. Qed.
Lemma st_ddefault_of : dfiles_default this = L "dfiles". Proof. done. Qed.

(** A state of the right layout is settled, and the other way round. *)
Lemma st_settled deep :
  (pd = true -> pdf = L "dfiles") -> (pp = true -> ppf = L "pfiles") -> (deep = true -> 4 <= mr) ->
  settled ps sec cg dg df pf pd pp depth deep this.
Proof. intros. by constructor. Qed.
End Projections.

Lemma settled_st ps sec cg dg df pf pd pp depth deep sp :
  settled ps sec cg dg df pf pd pp depth deep sp -> fresh sp ->
  exists opn pkg buf bas pl pdf ppf mr pfd,
    sp = st ps opn pkg [] buf bas pl sec cg dg df pf pd pdf pp ppf depth mr [] [] pfd
    /\ (pd = true -> pdf = L "dfiles") /\ (pp = true -> ppf = L "pfiles") /\ (deep = true -> 4 <= mr).
Proof.
  intros [? ? ? ? ? ? ? [? ?] ? ? ? ? ? ? ? ?] (? & ? & ?). destruct sp. cbn in *. subst.
  by eexists _, _, _, _, _, _, _, _, _.
Qed.

Create Rewrite HintDb swst.
#[export] Hint Rewrite st_product_of st_pfiles_of st_max_rel_of st_minimal_of st_pd_of st_pp_of st_pdf_of
  st_pfd_of st_get_pd st_get_pp st_pdefault_of st_ddefault_of st_set_max_rel_n st_v_dfiles_nil
  st_v_pfiles st_p_dfiles_set st_p_pfiles_set st_p_pfiles_none st_fileset_nil st_p_fileset_none : swst.

(** What a branch must give for the entry [e]. *)
Definition arrives (ps : list bytes) (ph : phase) (e : entry) (r : SWPATH * nat * Z) : Prop :=
  let '(sp1, compy, ret) := r in
  at_phase ps ph sp1 /\ 0 <= ret
  /\ product_control_dir_ sp1 = entry_product e /\ fileset_control_dir_ sp1 = entry_fileset e
  /\ dfiles_ sp1 = entry_dfiles e /\ pfiles_ sp1 = entry_pfiles e /\ pathname_ sp1 = []
  /\ drop (name_start sp1 compy) (entry_components e) = entry_rest e.

(** Run a branch on such a state: the tests that the hypotheses decide, then
    the setters. *)
Ltac facts :=
  repeat match goal with
  | H : component ?n |- _ =>
      lazymatch goal with
      | _ : (zlen n =? 0) = false |- _ => fail
      | _ => destruct (component_facts n H) as (? & ? & ?)
      end
  | H : ordinary ?n = true |- _ => apply ordinary_facts in H as (? & ? & ? & ?)
  end.

Ltac compute_test b :=
  let r := eval lazy in b in
  lazymatch r with true => change b with true | false => change b with false end.

Ltac decide_tests :=
  repeat match goal with
  | H : ?x = false |- context [?x] => rewrite H
  | H : ?x = true |- context [?x] => rewrite H
  | |- context [?a =? ?b] => compute_test (a =? b)
  | |- context [streq (L ?a) (L ?b)] => compute_test (streq (L a) (L b))
  | |- context [streq (L ?a) SW_A_catalog] => compute_test (streq (L a) SW_A_catalog)
  | |- context [streq (L ?a) []] => compute_test (streq (L a) [])
  | |- context [?a >=? SWPATH_DEGEN_N] =>
      rewrite (proj2 (Z.geb_le a SWPATH_DEGEN_N)) by (unfold SWPATH_DEGEN_N; lia)
  end; cbn [andb orb negb].

Ltac run :=
  unfold is_in_pfiles; change (streq SW_A_catalog SW_A_catalog) with true;
  repeat (progress (autorewrite with swst; decide_tests;
    rewrite ?st_stay, ?st_enter, ?st_leave, ?st_v_dfiles, ?st_product, ?st_fileset, ?st_p_fileset
      by (auto; lia))).

Lemma component_is_nil n : component n -> is_nil n = false.
Proof. intros [Hne _ _ _]. by destruct n. Qed.

(** The components of an entry, its directories written out. *)
Lemma entry_components_cons e : good_entry e ->
  entry_components e = match e with
    | Lead _ | Catalog => [SW_A_catalog]
    | Index => [SW_A_catalog; L "INDEX"]
    | Dfiles rest => SW_A_catalog :: L "dfiles" :: rest
    | Product p => [SW_A_catalog; p]
    | Pfiles p rest => SW_A_catalog :: p :: L "pfiles" :: rest
    | Fileset p f rest => SW_A_catalog :: p :: f :: rest
    | SProduct p => [p]
    | SFileset p f rest => p :: f :: rest
    end.
Proof.
  intros (_ & _ & H). unfold entry_components, entry_dirs.
  destruct e as [| | | |p|p rest|p f rest|p|p f rest]; cbn in *; try done;
    repeat match goal with H : _ /\ _ |- _ => destruct H end;
    by rewrite ?component_is_nil by done.
Qed.

Ltac compute_max :=
  repeat match goal with
  | |- context [Z.max ?a ?b] =>
      let r := eval lazy in (Z.max a b) in
      lazymatch r with Zpos _ => change (Z.max a b) with r end
  end.

Ltac arrive :=
  compute_max; unfold arrives;
  match goal with HE : entry_components _ = _ |- _ => rewrite HE end;
  split; [cbn [at_phase]; apply st_settled; try done; intros; cbn [length] in *; lia|];
  repeat (split; [done|]); done.

Lemma let_step {A B} (P : B -> Prop) (f : A -> B) e e' : e = e' -> P (f e') -> P (let x := e in f x).
Proof. by intros ->. Qed.

Lemma if_step {B} (P : B -> Prop) (b : bool) (x y : B) (b' : bool) : b = b' -> P (if b' then x else y) -> P (if b then x else y).
Proof. by intros ->. Qed.

(** Evaluate a branch in the order of the code: one [let] or one test at a time. *)
Ltac exec :=
  repeat lazymatch goal with
  | |- arrives _ _ _ (let x := ?e in @?f x) =>
      refine (let_step (arrives _ _ _) f e _ _ _); [run; reflexivity|cbv beta]
  | |- arrives _ _ _ (if ?b then ?x else ?y) =>
      refine (if_step (arrives _ _ _) b x y _ _ _); [run; reflexivity|cbv iota]
  | |- arrives _ _ _ (parse_catalog_2 _ _) => run; cbv beta delta [parse_catalog_2]
  | |- arrives _ _ _ (parse_product_3 _ _ _) => run; cbv beta delta [parse_product_3]
  | |- arrives _ _ _ (parse_product_n _ _ _) => run; cbv beta delta [parse_product_n]
  | |- arrives _ _ _ (parse_relative_1 _ _) => cbv beta delta [parse_relative_1]
  | |- arrives _ _ _ (parse_relative_2 _ _ _) => cbv beta delta [parse_relative_2 storage_dirs]
  | |- arrives _ _ _ (parse_relative_3 _ _ _ _) => cbv beta delta [parse_relative_3 storage_dirs]
  | |- arrives _ _ _ (parse_relative_n _ _ _ _ _) => cbv beta delta [parse_relative_n storage_dirs]
  end;
  run.

(** The components written out, and the facts about the names. *)
Ltac go_run He :=
  let HE := fresh "HE" in
  pose proof (entry_components_cons _ He) as HE; cbv iota in HE; rewrite HE;
  destruct He as (? & ? & He); repeat match goal with H : _ /\ _ |- _ => destruct H end; facts;
  cbn [parse_components]; exec.

(** *** Every branch on every phase *)

Ltac entry_case HP Hf Hs He :=
  let H1 := fresh in let H2 := fresh in let H3 := fresh in
  destruct (settled_st _ _ _ _ _ _ _ _ _ _ _ HP Hf)
    as (opn & pkg & buf & bas & pl & pdf & ppf & mr & pfd & -> & H1 & H2 & H3);
  try (specialize (H1 eq_refl); subst pdf); try (specialize (H2 eq_refl); subst ppf);
  try specialize (H3 eq_refl); clear HP Hf; cbn in Hs; try discriminate Hs; apply (inj Some) in Hs; subst;
  go_run He; arrive.

Section Entries.
Context (ps : list bytes) (ph ph' : phase) (sp : SWPATH).
Hypothesis HP : at_phase ps ph sp.
Hypothesis Hf : fresh sp.


Lemma arrives_pfiles p rest :
  step ps ph (Pfiles p rest) = Some ph' -> good_entry (Pfiles p rest) ->
  arrives ps ph' (Pfiles p rest) (parse_components sp (entry_components (Pfiles p rest))).
Proof.
  intros Hs He. destruct ph as [k| | | |[] [] []|known]; try discriminate Hs; cbn [at_phase] in HP;
    destruct rest as [|r1 rest]; try discriminate Hs; entry_case HP Hf Hs He.
Qed.

Lemma arrives_fileset p f rest :
  step ps ph (Fileset p f rest) = Some ph' -> good_entry (Fileset p f rest) ->
  arrives ps ph' (Fileset p f rest) (parse_components sp (entry_components (Fileset p f rest))).
Proof.
  intros Hs He. destruct ph as [k| | | |[] [] []|known]; try discriminate Hs; cbn [at_phase] in HP;
    destruct rest as [|r1 rest]; try discriminate Hs; entry_case HP Hf Hs He.
Qed.

Lemma arrives_product p :
  step ps ph (Product p) = Some ph' -> good_entry (Product p) ->
  arrives ps ph' (Product p) (parse_components sp (entry_components (Product p))).
Proof.
  intros Hs He. destruct ph as [k| | | |[] [] []|known]; try discriminate Hs; cbn [at_phase] in HP;
    entry_case HP Hf Hs He.
Qed.

Lemma arrives_dfiles rest :
  step ps ph (Dfiles rest) = Some ph' -> good_entry (Dfiles rest) ->
  arrives ps ph' (Dfiles rest) (parse_components sp (entry_components (Dfiles rest))).
Proof.
  intros Hs He. assert (length rest <= 1)%nat as Hl by apply He.
  destruct ph as [k| | | |[] [] []|known]; try discriminate Hs; cbn [at_phase] in HP;
    destruct rest as [|r1 [|r2 rest]]; try (cbn in Hl; lia); entry_case HP Hf Hs He.
Qed.

Lemma arrives_sproduct p :
  step ps ph (SProduct p) = Some ph' -> good_entry (SProduct p) ->
  arrives ps ph' (SProduct p) (parse_components sp (entry_components (SProduct p))).
Proof.
  intros Hs He. destruct ph as [k| | | |[] [] []|[]]; try discriminate Hs; cbn [at_phase] in HP;
    entry_case HP Hf Hs He.
Qed.

Lemma arrives_sfileset p f rest :
  step ps ph (SFileset p f rest) = Some ph' -> good_entry (SFileset p f rest) ->
  arrives ps ph' (SFileset p f rest) (parse_components sp (entry_components (SFileset p f rest))).
Proof.
  intros Hs He. destruct ph as [k| | | |[] [] []|[]]; try discriminate Hs; cbn [at_phase] in HP;
    destruct rest as [|r1 [|r2 rest]]; try discriminate Hs; entry_case HP Hf Hs He.
Qed.
End Entries.

Lemma arrives_first ps ph ph' sp e :
  at_phase ps ph sp -> fresh sp -> e = Catalog \/ e = Index -> ph = PReady \/ ph = PIndex ->
  step ps ph e = Some ph' -> good_entry e ->
  arrives ps ph' e (parse_components sp (entry_components e)).
Proof.
  intros HP Hf Hcat Hph Hs He.
  destruct Hph as [-> | ->]; cbn [at_phase] in HP; [destruct HP as (sec & [-> | ->] & HP)|];
    destruct Hcat as [-> | ->]; entry_case HP Hf Hs He.
Qed.

Lemma arrives_entry ps ph ph' sp e :
  at_phase ps ph sp -> fresh sp -> (forall k, ph <> PLead k) -> step ps ph e = Some ph' -> good_entry e ->
  arrives ps ph' e (parse_components sp (entry_components e)).
Proof.
  intros HP Hf Hph Hs He. destruct e as [j| | |f|p|p rest|p f rest|p|p f rest].
  - by destruct ph as [k| | | |? [] ?|?]; [destruct (Hph k)|..].
  - apply (arrives_first _ ph); [done..|auto| |done|done].
    by destruct ph as [k| | | |? [] ?|?]; [destruct (Hph k)|auto|auto|..].
  - apply (arrives_first _ ph); [done..|auto| |done|done].
    by destruct ph as [k| | | |? [] ?|?]; [destruct (Hph k)|auto|auto|..].
  - by apply (arrives_dfiles _ ph).
  - by apply (arrives_product _ ph).
  - by apply (arrives_pfiles _ ph).
  - by apply (arrives_fileset _ ph).
  - by apply (arrives_sproduct _ ph).
  - by apply (arrives_sfileset _ ph).
Qed.
