(* ===== verification/SwpathPackage.v ===== *)
(** * Parsing a whole package

    On every archive made of the steps of SwpathLayout.v each name is taken
    apart into the directories it was made of, and swpath_form_path puts it
    together again. *)

From S2P Require Import Prelude CString Strob StrobSpec Pathname PathSpec Escape Swpath SwpathSpec SwpathLayout.

(** *** What the other parts of a call leave alone *)

(** Two states that agree on the fields of [settled]. *)
Definition same_layout (a b : SWPATH) : Prop :=
  forall ps sec cg dg df pf pd pp depth deep,
    settled ps sec cg dg df pf pd pp depth deep a -> settled ps sec cg dg df pf pd pp depth deep b.

Lemma same_layout_cleared sp name b : same_layout sp (cleared sp name b).
Proof. intros ? ? ? ? ? ? ? ? ? ? []. destruct sp. by constructor. Qed.

Lemma same_layout_finished sp b rest : same_layout sp (finished (put_buffer b sp) rest).
Proof.
  intros ? ? ? ? ? ? ? ? ? ? []. destruct rest as [|r rest]; [destruct sp; by constructor|].
  unfold finished. cbn [swpath_set_filename]. unfold swpath__set__basename.
  destruct (strrchr _ _); destruct sp; by constructor.
Qed.

Lemma at_phase_same ps ph a b :
  same_layout a b -> (forall k, ph <> PLead k) -> at_phase ps ph a -> at_phase ps ph b.
Proof.
  intros HS Hph. destruct ph as [k| | | |known deep clean|known]; cbn [at_phase];
    [by destruct (Hph k)| |apply HS..].
  intros (sec & Hs & H). exists sec. auto.
Qed.

Lemma cleared_fresh sp name b : fresh (cleared sp name b).
Proof.
  assert (forall sp, control_dir sp [] = []) as E by (intros s; unfold control_dir; by destruct (_ && _)).
  split; [apply E|]. split; [apply E|done].
Qed.

Lemma at_phase_ok ps ph sp ret : (forall k, ph <> PLead k) -> at_phase ps ph sp -> check_error sp ret = ret.
Proof.
  intros Hph HP. unfold check_error.
  assert (exists dg cg, dfiles_guardM sp = dg /\ catalog_guardM sp = cg /\ errorM sp = 0 /\ dg <= 1 /\ cg <= 1)
    as (dg & cg & -> & -> & -> & H1 & H2).
  { destruct ph as [k| | | |known deep clean|known]; cbn [at_phase] in HP;
      [by destruct (Hph k)|destruct HP as (sec & _ & HP)|..]; destruct HP; eexists _, _; repeat split; eauto; lia. }
  by ztest.
Qed.

Lemma finished_fields sp b rest :
  product_control_dir_ (finished (put_buffer b sp) rest) = product_control_dir_ sp
  /\ fileset_control_dir_ (finished (put_buffer b sp) rest) = fileset_control_dir_ sp
  /\ dfiles_ (finished (put_buffer b sp) rest) = dfiles_ sp
  /\ pfiles_ (finished (put_buffer b sp) rest) = pfiles_ sp
  /\ pathname_ (finished (put_buffer b sp) rest)
     = match rest with [] => pathname_ sp | _ => sepby slash rest end
  /\ swpath_is_catalog_ (finished (put_buffer b sp) rest) = swpath_is_catalog_ sp
  /\ prepath_ (finished (put_buffer b sp) rest) = prepath_ sp.
Proof.
  destruct rest as [|r rest]; [done|]. unfold finished. cbn [swpath_set_filename].
  unfold swpath__set__basename. by destruct (strrchr _ _).
Qed.

(** ** One entry *)

Definition entry_text (ps : list bytes) (e : entry) : bytes := sepby slash (entry_name ps e).

Lemma good_components e : good_entry e -> Forall component (entry_components e).
Proof.
  intros He. rewrite entry_components_cons by done. destruct He as (Hr & _ & He).
  assert (component SW_A_catalog /\ component (L "INDEX") /\ component (L "dfiles") /\ component (L "pfiles"))
    as (C1 & C2 & C3 & C4).
  { repeat split; try done; try (by repeat constructor); by apply no_nul_compute. }
  destruct e; cbn [entry_rest] in Hr; repeat match goal with H : _ /\ _ |- _ => destruct H end;
    repeat (apply Forall_cons_2; [done|]); first [done|apply Forall_nil_2].
Qed.

Lemma entry_components_ne e : entry_storage e = false \/ (exists p, entry_product e = p /\ component p) ->
  entry_components e <> [].
Proof.
  unfold entry_components, entry_dirs. intros [->|(p & E & Hp)]; [done|].
  destruct (entry_storage e); [|done]. cbn. rewrite E, (component_is_nil _ Hp). done.
Qed.

Lemma good_ne e : good_entry e -> entry_components e <> [].
Proof.
  intros (_ & _ & He). apply entry_components_ne. destruct e; [by left..|right|right]; cbn; eexists; split; [done|tauto|done|tauto].
Qed.

(** The result of a call on an entry, in a state prepared for it. *)
Record parsed (ps : list bytes) (ph : phase) (e : entry) (sp : SWPATH) (ret : Z) : Prop := {
  pa_phase : at_phase ps ph sp;
  pa_ret : 0 <= ret;
  pa_fields : describes ps e sp;
}.

Lemma parse_prepared_entry ps ph ph' e sp :
  (forall k, ph <> PLead k) -> (forall k, e <> Lead k) -> Forall component ps ->
  at_phase ps ph sp -> fresh sp -> step ps ph e = Some ph' -> good_entry e ->
  buffer_ sp = entry_text ps e ->
  exists sp' ret, parse_prepared sp (entry_text ps e) = Some (Returns (sp', ret)) /\ parsed ps ph' e sp' ret.
Proof.
  intros Hph Hlead Hps HP Hf Hs He Hb. unfold entry_text in *.
  assert (entry_name ps e = ps ++ entry_components e) as Hn by (by destruct e; [destruct (Hlead k)|..]).
  rewrite Hn in *.
  assert (swpath_p_prepath_ sp = true /\ prepath_ sp = sepby slash ps) as [Hset Hpre].
  { destruct ph as [k| | | |known deep clean|known]; cbn [at_phase] in HP;
      [by destruct (Hph k)|destruct HP as (sec & _ & HP)|..]; by destruct HP. }
  destruct (parse_prepared_spec sp ps (entry_components e)) as [b ->]; try done.
  { by apply good_ne. } { apply Forall_app. split; [done|by apply good_components]. } { apply He. }
  pose proof (arrives_entry ps ph ph' sp e HP Hf Hph Hs He) as HA.
  destruct (parse_components sp (entry_components e)) as [[sp1 compy] ret].
  destruct HA as (A1 & A2 & A3 & A4 & A5 & A6 & A7 & A8). rewrite A8.
  assert (forall k, ph' <> PLead k) as Hph'.
  { intros k ->. by destruct ph as [j| | | |? [] ?|?], e as [?| | | |?|? [|]|? ? [|]|?|? ? [|]];
      cbn in Hs; repeat case_match; simplify_eq; destruct (Hph j). }
  rewrite (at_phase_ok ps ph') by done. eexists _, _. split; [done|].
  destruct (finished_fields sp1 b (entry_rest e)) as (F1 & F2 & F3 & F4 & F5 & _ & _).
  constructor; [|done|].
  - eapply at_phase_same; [apply same_layout_finished|done..].
  - constructor; rewrite ?F1, ?F2, ?F3, ?F4, ?F5; try done. rewrite A7. by destruct (entry_rest e).
Qed.

Lemma entry_text_canonical ps e : Forall component ps -> good_entry e -> (forall k, e <> Lead k) ->
  entry_name ps e = ps ++ entry_components e /\ Forall component (entry_name ps e) /\ entry_name ps e <> [].
Proof.
  intros Hps He Hl. assert (entry_name ps e = ps ++ entry_components e) as -> by (by destruct e; [destruct (Hl k)|..]).
  split; [done|]. split; [apply Forall_app; split; [done|by apply good_components]|].
  pose proof (good_ne _ He). intros E. by apply app_nil in E as [_ ?].
Qed.

Lemma parse_entry ps ph ph' e sp :
  (forall k, ph <> PLead k) -> (forall k, e <> Lead k) -> Forall component ps ->
  at_phase ps ph sp -> step ps ph e = Some ph' -> good_entry e ->
  exists sp' ret, swpath_parse_path sp (entry_text ps e) = Some (Returns (sp', ret)) /\ parsed ps ph' e sp' ret.
Proof.
  intros Hph Hl Hps HP Hs He. destruct (entry_text_canonical ps e Hps He Hl) as (_ & HF & Hne).
  set (t := entry_text ps e). assert (swpath_p_prepath_ sp = true) as Hset.
  { destruct ph as [k| | | |known deep clean|known]; cbn [at_phase] in HP;
      [by destruct (Hph k)|destruct HP as (sec & _ & HP)|..]; by destruct HP. }
  assert (prepared sp t t = cleared sp t t) as Ep.
  { unfold prepared. change (swpath_p_prepath_ (cleared sp t t)) with (swpath_p_prepath_ sp). by rewrite Hset. }
  unfold t, entry_text. rewrite parse_path_canonical by done. fold (entry_text ps e). fold t. rewrite Ep.
  apply (parse_prepared_entry ps ph); try done.
  - eapply at_phase_same; [apply same_layout_cleared|done..].
  - apply cleared_fresh.
Qed.

(** ** The first names *)

Lemma no_slash_catalog : no_slash SW_A_catalog.
Proof. by repeat constructor. Qed.

Lemma is_prefix_app n a (b : bytes) c : is_prefix n (a ++ c :: b) = true -> ~ c ∈ n -> is_prefix n a = true.
Proof.
  revert a. induction n as [|x n IH]; intros a; [done|]. destruct a as [|y a]; cbn.
  - intros [->%ceq_eq _]%andb_true_iff Hc. destruct Hc. apply list_elem_of_here.
  - intros [-> H]%andb_true_iff Hc. apply IH; [done|]. intros ?. apply Hc. by apply list_elem_of_further.
Qed.

(** The first occurrence of a name without a slash that follows a slash. *)
Lemma strstr_after_slash n a b :
  ~ slash ∈ n -> n <> [] -> strstr a n = None -> is_prefix n b = true ->
  strstr (a ++ slash :: b) n = Some (S (length a)).
Proof.
  intros Hn Hne. induction a as [|c a IH]; intros Ha Hb.
  - cbn [app strstr]. destruct (is_prefix n (slash :: b)) eqn:E.
    + by apply (is_prefix_app n []) in E; [destruct n|].
    + destruct b as [|d b]; [by destruct n|]. cbn [strstr]. by rewrite Hb.
  - cbn [app strstr] in *. destruct (is_prefix n (c :: a)) eqn:E; [done|].
    destruct (strstr a n) eqn:E2; [done|]. rewrite IH by done.
    destruct (is_prefix n (c :: a ++ slash :: b)) eqn:E3; [|done].
    apply (is_prefix_app n (c :: a)) in E3; [congruence|done].
Qed.

Lemma slash_not_in_catalog : ~ slash ∈ SW_A_catalog.
Proof. intros H. apply list_elem_of_In in H. by repeat destruct H as [?|H]. Qed.

(** Where "catalog" starts in a name of the catalog. *)
Lemma strstr_catalog ps r : strstr (sepby slash ps) SW_A_catalog = None ->
  strstr (sepby slash (ps ++ SW_A_catalog :: r)) SW_A_catalog
  = Some (match ps with [] => O | _ => S (length (sepby slash ps)) end).
Proof.
  intros H. assert (is_prefix SW_A_catalog (sepby slash (SW_A_catalog :: r)) = true) as Hp.
  { apply is_prefix_spec. destruct r as [|x r]; [by exists []|]. rewrite sepby_cons by done. by eexists. }
  destruct ps as [|p ps].
  - apply strstr_0. by apply is_prefix_spec.
  - rewrite sepby_app by done. apply strstr_after_slash; [apply slash_not_in_catalog|done..].
Qed.

Definition put_known (pre : bytes) (sp : SWPATH) : SWPATH := put_p_prepath_set true (put_prepath pre sp).

(** The prepath is found at the first name with a catalog. *)
Lemma resolve_catalog sp ps r k :
  swpath_p_prepath_ sp = false -> prepath_ sp = sepby slash (take k ps) -> k = O \/ k = length ps ->
  Forall component ps -> strstr (sepby slash ps) SW_A_catalog = None ->
  fst (swpath_resolve_prepath sp (sepby slash (ps ++ SW_A_catalog :: r)))
  = put_known (sepby slash ps) sp.
Proof.
  intros Hset Hpre Hk HF Hno. unfold swpath_resolve_prepath. rewrite Hset, strstr_catalog by done. cbv zeta.
  assert (sepby slash (ps ++ SW_A_catalog :: r)
    = match ps with [] => [] | _ => sepby slash ps ++ [slash] end ++ sepby slash (SW_A_catalog :: r)) as En.
  { destruct ps as [|p ps']; [done|]. rewrite sepby_app, <- app_assoc by done. done. }
  destruct ps as [|p ps'].
  - rewrite Hpre, take_nil. cbn. destruct sp. done.
  - set (pre := sepby slash (p :: ps')) in *. assert (pre <> []) as Hne by by apply canonical_sepby.
    rewrite Hpre. destruct Hk as [-> | ->].
    + change (zlen (sepby slash (take 0 (p :: ps'))) =? 0) with true. cbn [fst]. unfold put_known.
      do 2 f_equal. rewrite En. replace (S (length pre) - 1)%nat with (length pre) by lia.
      rewrite take_take, Nat.min_l by lia. rewrite <- app_assoc. by apply take_app_length.
    + rewrite firstn_all. fold pre. rewrite zlen_nonempty by done. cbn [fst]. unfold put_known. do 2 f_equal. apply take_ge. lia.
Qed.

Lemma entry_text_catalog ps e : e = Catalog \/ e = Index ->
  exists r, entry_text ps e = sepby slash (ps ++ SW_A_catalog :: r) /\ good_entry e /\ (forall k, e <> Lead k).
Proof.
  assert (component (L "INDEX")) by (split; [done|by repeat constructor|done|by apply no_nul_compute]).
  intros [-> | ->]; eexists; (split; [done|]); (split; [|done]); (split; [|split; [cbn; unfold SWPATH_PARSE_CA; lia|done]]).
  - apply Forall_nil_2.
  - apply Forall_cons_2; [done|apply Forall_nil_2].
Qed.

Lemma cleared_prepath sp name b :
  prepath_ (cleared sp name b) = prepath_ sp
  /\ swpath_p_prepath_ (cleared sp name b) = swpath_p_prepath_ sp
  /\ buffer_ (cleared sp name b) = b.
Proof. by destruct sp. Qed.

Lemma fresh_put_known pre c : fresh c -> fresh (put_known pre c).
Proof. by destruct c. Qed.

Lemma settled_put_known k ps sec c :
  settled (take k ps) sec 0 0 [] [] false false 0 false (put_p_prepath_set true c) ->
  settled ps sec 0 0 [] [] false false 0 false (put_known (sepby slash ps) c).
Proof. intros []. destruct c. by constructor. Qed.

Lemma settled_cleared k ps sec sp name b :
  settled (take k ps) sec 0 0 [] [] false false 0 false (put_p_prepath_set true sp) ->
  settled (take k ps) sec 0 0 [] [] false false 0 false (put_p_prepath_set true (cleared sp name b)).
Proof. intros []. destruct sp. by constructor. Qed.

Lemma prepared_lead sp t : swpath_p_prepath_ sp = false ->
  prepared sp t t = fst (swpath_resolve_prepath (cleared sp t t) t).
Proof.
  intros H. unfold prepared. destruct (cleared_prepath sp t t) as (E1 & E2 & E3).
  generalize dependent (cleared sp t t). intros c E1 E2 E3. cbv zeta. by rewrite E2, E3, H.
Qed.

Lemma parse_first ps k e sp :
  Forall component ps -> strstr (sepby slash ps) SW_A_catalog = None ->
  at_phase ps (PLead k) sp -> k = O \/ k = length ps -> e = Catalog \/ e = Index ->
  exists sp' ret, swpath_parse_path sp (entry_text ps e) = Some (Returns (sp', ret)) /\ parsed ps PIndex e sp' ret.
Proof.
  intros Hps Hno (Hset & sec & Hsec & HS) Hk He. destruct (entry_text_catalog ps e He) as (r & Et & Hg & Hl).
  destruct (entry_text_canonical ps e Hps Hg Hl) as (_ & HF & Hne).
  set (t := entry_text ps e) in *. assert (prepath_ sp = sepby slash (take k ps)) as Hpre by apply HS.
  assert (prepared sp t t = put_known (sepby slash ps) (cleared sp t t)) as Ep.
  { rewrite prepared_lead by done. rewrite Et. by apply (resolve_catalog _ _ _ k). }
  unfold t, entry_text. rewrite parse_path_canonical by done. fold (entry_text ps e). fold t. rewrite Ep.
  apply (parse_prepared_entry ps PReady); try done.
  - exists sec. split; [done|]. by apply (settled_put_known k), settled_cleared.
  - apply fresh_put_known, cleared_fresh.
  - by destruct He as [-> | ->].
Qed.

Lemma lead_result ps k sec c :
  settled (take k ps) sec 0 0 [] [] false false 0 false (put_p_prepath_set true c) ->
  product_control_dir_ c = [] -> fileset_control_dir_ c = [] -> pathname_ c = [] ->
  let t := sepby slash (take (S k) ps) in
  exists sp', parse_prepared (put_p_prepath_set false (put_prepath t c)) t = Some (Returns (sp', 0))
    /\ at_phase ps (PLead (S k)) sp' /\ describes ps (Lead (S k)) sp' /\ swpath_is_catalog_ sp' = -1.
Proof.
  intros [] F1 F2 F3 t. destruct c. cbn in * |-. subst. eexists. split; [reflexivity|].
  split; [|by split]. split; [done|]. exists (-1). split; [by right|]. by constructor.
Qed.

(** A name of the leading directories. *)
Lemma parse_lead ps k sp :
  Forall component ps -> strstr (sepby slash ps) SW_A_catalog = None ->
  at_phase ps (PLead k) sp -> (k < length ps)%nat ->
  exists sp', swpath_parse_path sp (entry_text ps (Lead (S k))) = Some (Returns (sp', 0))
    /\ at_phase ps (PLead (S k)) sp' /\ describes ps (Lead (S k)) sp' /\ swpath_is_catalog_ sp' = -1.
Proof.
  intros Hps Hno (Hset & sec & Hsec & HS) Hk. unfold entry_text. cbn [entry_name].
  set (ns := take (S k) ps). assert (Forall component ns) as HF by by apply Forall_take.
  assert (ns <> []) as Hne by (unfold ns; destruct ps; [cbn in Hk; lia|done]).
  rewrite parse_path_canonical by done. set (t := sepby slash ns).
  assert (prepath_ sp = sepby slash (take k ps)) as Hpre by apply HS.
  assert (exists x, t = prepath_ sp ++ x) as [x Ex].
  { rewrite Hpre. unfold t, ns. destruct (lookup_lt_is_Some_2 ps k Hk) as [y Hy].
    rewrite (take_S_r _ _ _ Hy). destruct (take k ps) as [|a b]; [by eexists|].
    rewrite sepby_app by done. by eexists. }
  assert (strstr t SW_A_catalog = None) as Ht.
  { unfold t, ns. destruct (drop (S k) ps) as [|a b] eqn:Ed.
    - rewrite <- (take_drop (S k) ps), Ed, app_nil_r in Hno. done.
    - rewrite <- (take_drop (S k) ps), Ed, sepby_app in Hno by done. by eapply (strstr_mid _ _ []). }
  assert (prepared sp t t = put_p_prepath_set false (put_prepath t (cleared sp t t))) as Ep.
  { rewrite prepared_lead by done. unfold swpath_resolve_prepath.
    destruct (cleared_prepath sp t t) as (-> & -> & _). rewrite Hset, Ht. cbv zeta. set (pre := prepath_ sp) in *.
    assert (strstr t pre = Some O) as -> by (apply strstr_0; by exists x).
    cbn [fst]. do 2 f_equal. rewrite Ex at 1. by rewrite drop_app_length, Ex. }
  rewrite Ep. pose proof (cleared_fresh sp t t) as HFr.
  assert (settled (take k ps) sec 0 0 [] [] false false 0 false (put_p_prepath_set true (cleared sp t t)))
    as HSc by by apply settled_cleared.
  generalize dependent (cleared sp t t). intros c _ (F1 & F2 & F3) HSc. by apply (lead_result _ _ sec).
Qed.

(** ** The name put together again *)

Definition opt (d : bytes) : list bytes := if is_nil d then [] else [d].

Lemma add_component_sepby xs d : xs <> [] -> sepby slash xs <> [] ->
  add_component (sepby slash xs) d = sepby slash (xs ++ opt d) /\ sepby slash (xs ++ opt d) <> [].
Proof.
  intros Hne Hn. unfold add_component, opt. destruct d as [|c d].
  - by rewrite !app_nil_r.
  - rewrite zlen_nonempty by done. cbn [negb is_nil]. rewrite sepby_app by done. rewrite <- app_assoc. split; [done|]. by destruct (sepby slash xs).
Qed.

Lemma add_component_rest xs rest : xs <> [] -> sepby slash xs <> [] -> Forall component rest ->
  add_component (sepby slash xs) (sepby slash rest) = sepby slash (xs ++ rest).
Proof.
  intros Hne Hn HF. destruct rest as [|r rest]; [by rewrite app_nil_r; unfold add_component; cbn; rewrite app_nil_r|].
  assert (sepby slash (r :: rest) <> []) as Hr by by apply canonical_sepby.
  unfold add_component. rewrite (zlen_nonempty (sepby slash (r :: rest))) by done.
  cbn [negb]. by rewrite sepby_app, <- app_assoc by done.
Qed.

(** The product directory, behind the prepath or at the start of the name. *)
Lemma form_product xs prod : sepby slash xs <> [] /\ xs <> [] \/ xs = [] /\ prod <> [] ->
  (if negb (zlen prod =? 0) && negb (zlen (sepby slash xs) =? 0) then sepby slash xs ++ [slash]
   else sepby slash xs) ++ prod = sepby slash (xs ++ opt prod) /\ sepby slash (xs ++ opt prod) <> [].
Proof.
  intros [[Hn Hne]|[-> Hp]].
  - rewrite (zlen_nonempty (sepby slash xs)) by done. cbn [negb]. rewrite andb_true_r. by apply add_component_sepby.
  - change (zlen (sepby slash []) =? 0) with true. rewrite andb_false_r. by destruct prod.
Qed.

Lemma form_path1_spec ps e sp xs : describes ps e sp ->
  sepby slash xs <> [] /\ xs <> [] \/ xs = [] /\ entry_product e <> [] -> Forall component (entry_rest e) ->
  swpath__form_path1 sp (sepby slash xs) None = sepby slash (xs ++ entry_dirs e ++ entry_rest e).
Proof.
  intros [E1 E2 E3 E4 E5] Hx HF. unfold swpath__form_path1. rewrite E1, E2, E3, E4, E5.
  destruct (form_product xs _ Hx) as [-> N1].
  assert (entry_dirs e = opt (entry_product e) ++ opt (entry_fileset e) ++ opt (entry_dfiles e) ++ opt (entry_pfiles e)) as ->.
  { unfold entry_dirs, opt. cbn. by destruct (is_nil (entry_product e)), (is_nil (entry_fileset e)),
      (is_nil (entry_dfiles e)), (is_nil (entry_pfiles e)). }
  set (ys := xs ++ opt (entry_product e)) in *.
  assert (ys <> []) as Hy by by intros E; rewrite E in N1.
  destruct (add_component_sepby ys (entry_fileset e)) as [-> N2]; [done..|].
  destruct (add_component_sepby (ys ++ opt (entry_fileset e)) (entry_dfiles e)) as [-> N3]; [by destruct ys|done|].
  destruct (add_component_sepby ((ys ++ opt (entry_fileset e)) ++ opt (entry_dfiles e)) (entry_pfiles e))
    as [-> N4]; [by destruct ys|done|].
  rewrite add_component_rest; [|by destruct ys|done..]. unfold ys. by rewrite <- !app_assoc.
Qed.

Lemma step_section ps ph ph' e sp :
  step ps ph e = Some ph' -> (forall k, e <> Lead k) -> at_phase ps ph' sp ->
  prepath_ sp = sepby slash ps /\ swpath_is_catalog_ sp = (if entry_storage e then 0 else 1).
Proof.
  intros Hs Hl HP.
  destruct ph as [k| | | |known deep clean|known], e as [j| | |f|p|p rest|p f rest|p|p f rest];
    try (by destruct (Hl j)); cbn [step] in Hs; repeat case_match; try done; simplify_eq;
    cbn [at_phase] in HP; by destruct HP.
Qed.

Lemma form_path_entry ps ph ph' e sp :
  Forall component ps -> zlen (sepby slash ps) <= 200 -> step ps ph e = Some ph' -> (forall k, e <> Lead k) ->
  good_entry e -> at_phase ps ph' sp -> describes ps e sp -> swpath_form_path sp = entry_text ps e.
Proof.
  intros Hps H200 Hs Hl He HP HD. destruct (step_section _ _ _ _ _ Hs Hl HP) as [Ep Ec].
  destruct (entry_text_canonical ps e Hps He Hl) as (En & _ & _).
  unfold swpath_form_path. rewrite Ec. unfold entry_text. rewrite En. unfold entry_components.
  assert (take 200 (sepby slash ps) = sepby slash ps) as Et by (apply take_ge; unfold zlen in H200; lia).
  pose proof (proj1 He) as Hr. destruct (entry_storage e) eqn:Es; cbn [negb Z.eqb].
  - unfold swpath_form_storage_path. rewrite Ep, Et. cbn [app]. apply (form_path1_spec ps); [done| |done].
    destruct ps as [|p ps']; [right|left; by split; [apply canonical_sepby|]]. split; [done|].
    destruct e; try done; apply He.
  - unfold swpath_form_catalog_path. rewrite Ep, Ec, Et. change (1 <? 0) with false. cbv iota zeta.
    replace ((if negb (zlen (sepby slash ps) =? 0) then sepby slash ps ++ [slash] else sepby slash ps) ++ SW_A_catalog)
      with (sepby slash (ps ++ [SW_A_catalog])).
    + assert (ps ++ [SW_A_catalog] <> []) as Hne by by destruct ps.
      rewrite (form_path1_spec ps e) by first [done | left; split; [|done]; apply canonical_sepby; [done|];
        apply Forall_app; split; [done|]; apply (good_components Catalog); by repeat split; [apply Forall_nil_2|cbn; unfold SWPATH_PARSE_CA; lia] ].
      by rewrite <- app_assoc.
    + destruct ps as [|p ps']; [done|]. rewrite sepby_app by done.
      assert (sepby slash (p :: ps') <> []) as Hne by by apply canonical_sepby.
      rewrite zlen_nonempty by done. cbn [negb]. by rewrite <- app_assoc.
Qed.

(** ** Archives *)

Fixpoint steps (ps : list bytes) (ph : phase) (es : list entry) : option phase :=
  match es with
  | [] => Some ph
  | e :: es => ph ← step ps ph e; steps ps ph es
  end.

Definition well_parsed (ps : list bytes) (e : entry) (r : SWPATH * Z) : Prop :=
  0 <= r.2 /\ describes ps e r.1 /\ swpath_form_path r.1 = entry_text ps e.

Section Packages.
Context (ps : list bytes).
Hypothesis Hps : Forall component ps.
Hypothesis Hno : strstr (sepby slash ps) SW_A_catalog = None.
Hypothesis H200 : zlen (sepby slash ps) <= 200.

Lemma lead_form k sp : at_phase ps (PLead k) sp -> swpath_is_catalog_ sp = -1 ->
  swpath_form_path sp = sepby slash (take k ps).
Proof.
  intros (_ & sec & _ & HS) Hc. unfold swpath_form_path, swpath_form_catalog_path. rewrite Hc.
  cbn [negb Z.eqb]. change (-1 <? 0) with true. cbv iota zeta.
  assert (prepath_ sp = sepby slash (take k ps)) as -> by apply HS. apply take_ge.
  assert (zlen (sepby slash (take k ps)) <= zlen (sepby slash ps)); [|unfold zlen in *; lia].
  rewrite <- (take_drop k ps) at 2. destruct (take k ps) as [|a l] eqn:E1; [apply zlen_nonneg|].
  destruct (drop k ps) as [|b r]; [by rewrite app_nil_r|]. rewrite sepby_app, zlen_app by done.
  pose proof (zlen_nonneg (slash :: sepby slash (b :: r))). lia.
Qed.

Lemma parse_step_lead k ph' e sp :
  at_phase ps (PLead k) sp -> step ps (PLead k) e = Some ph' ->
  exists sp' ret, swpath_parse_path sp (entry_text ps e) = Some (Returns (sp', ret))
    /\ at_phase ps ph' sp' /\ well_parsed ps e (sp', ret).
Proof.
  intros HP Hs. destruct e as [j| | |f|p|p rest|p f rest|p|p f rest]; cbn [step] in Hs; try done.
  - destruct (_ && _) eqn:E; [|done]. apply andb_true_iff in E as [->%Nat.eqb_eq Hk%Nat.leb_le].
    injection Hs as <-. destruct (parse_lead ps k sp Hps Hno HP) as (sp' & E & P1 & P2 & P3); [lia|].
    eexists _, _. split; [exact E|]. split; [done|]. split; [done|]. split; [done|]. by apply (lead_form (S k)).
  - destruct (_ || _) eqn:E; [|done]. injection Hs as <-.
    assert (k = O \/ k = length ps) as Hk by (apply orb_true_iff in E as [E%Nat.eqb_eq|E%Nat.eqb_eq]; auto).
    destruct (parse_first ps k Catalog sp Hps Hno HP Hk (or_introl eq_refl)) as (sp' & ret & E2 & [P1 P2 P3]).
    exists sp', ret. split; [done|]. split; [done|]. split; [done|]. split; [done|].
    destruct (entry_text_catalog ps Catalog (or_introl eq_refl)) as (_ & _ & Hg & Hl).
    by apply (form_path_entry ps PReady PIndex).
  - destruct (_ || _) eqn:E; [|done]. injection Hs as <-.
    assert (k = O \/ k = length ps) as Hk by (apply orb_true_iff in E as [E%Nat.eqb_eq|E%Nat.eqb_eq]; auto).
    destruct (parse_first ps k Index sp Hps Hno HP Hk (or_intror eq_refl)) as (sp' & ret & E2 & [P1 P2 P3]).
    exists sp', ret. split; [done|]. split; [done|]. split; [done|]. split; [done|].
    destruct (entry_text_catalog ps Index (or_intror eq_refl)) as (_ & _ & Hg & Hl).
    by apply (form_path_entry ps PReady PIndex).
Qed.

Lemma parse_step ph ph' e sp :
  at_phase ps ph sp -> step ps ph e = Some ph' -> good_entry e ->
  exists sp' ret, swpath_parse_path sp (entry_text ps e) = Some (Returns (sp', ret))
    /\ at_phase ps ph' sp' /\ well_parsed ps e (sp', ret).
Proof.
  intros HP Hs He.
  assert ((exists k, ph = PLead k) \/ forall k, ph <> PLead k) as [[k ->]|Hph] by (destruct ph; naive_solver).
  - by apply (parse_step_lead k).
  - assert (forall k, e <> Lead k) as Hl by (intros k ->; by destruct ph as [j| | | |? [] ?|?]; [destruct (Hph j)|..]).
    destruct (parse_entry ps ph ph' e sp Hph Hl Hps HP Hs He) as (sp' & ret & E & [P1 P2 P3]).
    exists sp', ret. split; [done|]. split; [done|]. split; [done|]. split; [done|]. by apply (form_path_entry ps ph ph').
Qed.

Lemma parse_steps es : forall ph ph' sp,
  at_phase ps ph sp -> steps ps ph es = Some ph' -> Forall good_entry es ->
  exists l, parse_archive sp (entry_text ps <$> es) = Some (Returns l) /\ Forall2 (well_parsed ps) es l.
Proof.
  induction es as [|e es IH]; intros ph ph' sp HP Hs HF; [by exists []|].
  apply Forall_cons in HF as [He HF]. cbn [steps] in Hs.
  destruct (step ps ph e) as [ph1|] eqn:E1; [|done]. cbn in Hs.
  destruct (parse_step ph ph1 e sp HP E1 He) as (sp' & ret & E & P1 & P2).
  destruct (IH ph1 ph' sp' P1 Hs HF) as (l & El & Hl).
  exists ((sp', ret) :: l). cbn [parse_archive fmap list_fmap]. rewrite E. obind. rewrite El. obind.
  split; [done|]. by constructor.
Qed.
End Packages.

Lemma setup_at_phase ps : at_phase ps (PLead 0) swpath__setup1.
Proof. split; [done|]. exists 0. split; [by left|]. by constructor. Qed.

(** ** The properties *)

(** C12: swpath_parse_path on the names of a well formed package: for every
    prepath (of at most 200 bytes, without "catalog" in it) and every sequence
    of names that the layout permits, from the leading directories over the
    catalog to the storage section, every call succeeds, the product, fileset,
    dfiles and pfiles directories and the file name are the ones the name was
    made of, and swpath_form_path gives the name back. *)
Theorem swpath_parses_package ps es ph :
  Forall component ps -> strstr (sepby slash ps) SW_A_catalog = None -> zlen (sepby slash ps) <= 200 ->
  Forall good_entry es -> steps ps (PLead 0) es = Some ph ->
  exists l, parse_archive swpath__setup1 (entry_text ps <$> es) = Some (Returns l)
    /\ Forall2 (fun e r => 0 <= r.2 /\ describes ps e r.1 /\ swpath_form_path r.1 = entry_text ps e) es l.
Proof. intros Hps Hno H200 HF Hs. by apply (parse_steps ps Hps Hno H200 es (PLead 0) ph), HF; [apply setup_at_phase|]. Qed.

(** C17: Whatever the names, as long as no call fails the catalog is one run of
    consecutive names: before it no name is in the catalog, behind it all names
    are in storage. *)
Theorem catalog_is_one_run names l :
  parse_archive swpath__setup1 names = Some (Returns l) -> Forall (fun r => r.2 <> -1) l ->
  exists a b c, sections_of l = a ++ b ++ c /\ Forall (fun n => n <> 1) a /\ Forall (fun n => n = 1) b
    /\ Forall (fun n => n = 0) c.
Proof.
  intros E HF. assert (in_zone Before swpath__setup1) as Hz by done.
  destruct (parse_archive_run names Before _ l Hz E HF) as (a & b & c & H1 & H2 & H3 & H4 & _). eauto 8.
Qed.

(** A call returns -1 exactly when a guard or the error code is set
    afterwards, and these stay set: after an error every later call, on any
    name, returns -1. *)
Theorem swpath_errors_stay sp name sp' ret :
  swpath_parse_path sp name = Some (Returns (sp', ret)) ->
  (ret = -1 <-> errored sp') /\ (errored sp -> ret = -1).
Proof.
  intros E. destruct (parse_path_called _ _ _ _ E) as (b & HC & HG).
  pose proof (called_result _ _ _ HC) as Hr. split; [done|].
  intros He. apply Hr. by eapply grows_errored.
Qed.

(** Behind a known prepath, a name in normal form with up to 21 components
    is parsed without any access outside a buffer; with 22 or more the process
    exits (exit (87)). *)
Theorem swpath_depth_limit sp ps cs :
  Forall component (ps ++ cs) -> cs <> [] -> swpath_p_prepath_ sp = true -> prepath_ sp = sepby slash ps ->
  let r := swpath_parse_path sp (sepby slash (ps ++ cs)) in
  if (length cs <? 22)%nat then exists sp' ret, r = Some (Returns (sp', ret)) else r = Some Fatal.
Proof.
  intros HF Hne Hset Hpre. cbv zeta. assert (ps ++ cs <> []) as Hne2 by by destruct ps.
  rewrite parse_path_canonical by done.
  destruct (cleared_prepath sp (sepby slash (ps ++ cs)) (sepby slash (ps ++ cs))) as (E1 & E2 & E3). unfold prepared.
  generalize dependent (cleared sp (sepby slash (ps ++ cs)) (sepby slash (ps ++ cs))). intros c E1 E2 E3. cbv zeta. rewrite E2, Hset. cbn [negb].
  rewrite Hset in E2. rewrite Hpre in E1. destruct (Nat.ltb_spec (length cs) 22) as [Hl|Hl].
  - destruct (parse_prepared_spec c ps cs Hne HF E2 E1 E3 Hl) as [b ->].
    destruct (parse_components c cs) as [[sp1 compy] ret]. by eexists _, _.
  - by apply (parse_prepared_deep c ps cs).
Qed.

(** ** What the parser gets wrong

    The prepath is looked for with strstr, so a leading directory whose name
    merely contains "catalog" is taken for the catalog: the first name already
    fails, and with it the whole package. *)
Example prepath_with_catalog_in_it :
  (fun r => match r with Returns l => map snd l | Fatal => [] end) <$>
    parse_archive swpath__setup1 [L "mycatalog"; L "mycatalog/catalog"; L "mycatalog/catalog/INDEX"]
  = Some [-1; -1; -1].
Proof. vm_compute. reflexivity. Qed.

(** A storage name with more than three components directly behind a pfiles
    directory keeps the pfiles member, and the path that is formed has a
    component the name never had. *)
Example pfiles_kept_in_storage :
  (fun r => match r with Returns l => swpath_form_path <$> (fst <$> last l) | Fatal => None end) <$>
    parse_archive swpath__setup1
      [L "catalog/INDEX"; L "catalog/dfiles/INFO"; L "catalog/bash/pfiles/INFO";
       L "bash/doc/usr/bin/x"]
  = Some (Some (L "bash/doc/pfiles/usr/bin/x")).
Proof. vm_compute. reflexivity. Qed.

(** ** The hypotheses at concrete packages *)

Module Witness.
Definition component_b (n : bytes) : bool :=
  match n with [] => false | _ => forallb (fun c => negb (is_slash c || is_nul c)) n && negb (streq n (L ".")) end.

Lemma components_compute l : forallb component_b l = true -> Forall component l.
Proof.
  induction l as [|n l IH]; [by constructor|]. cbn [forallb]. intros [H1 H2]%andb_true_iff.
  constructor; [by apply PathSpec.Witness.component_compute|auto].
Qed.

Definition entries : list entry :=
  [Lead 1; Catalog; Index; Dfiles [L "INFO"]; Product (L "bash"); Pfiles (L "bash") [L "INFO"];
   Fileset (L "bash") (L "doc") [L "INFO"]; SProduct (L "bash");
   SFileset (L "bash") (L "doc") [L "usr"; L "bin"; L "bash"]].

Lemma swpath_parses_package_witness : exists l,
  parse_archive swpath__setup1
    [L "bash-5"; L "bash-5/catalog"; L "bash-5/catalog/INDEX"; L "bash-5/catalog/dfiles/INFO";
     L "bash-5/catalog/bash"; L "bash-5/catalog/bash/pfiles/INFO"; L "bash-5/catalog/bash/doc/INFO";
     L "bash-5/bash"; L "bash-5/bash/doc/usr/bin/bash"] = Some (Returns l)
  /\ Forall2 (fun e r => 0 <= r.2 /\ describes [L "bash-5"] e r.1
       /\ swpath_form_path r.1 = entry_text [L "bash-5"] e) entries l.
Proof.
  apply (swpath_parses_package [L "bash-5"] entries (PStorage true)).
  - by apply components_compute.
  - reflexivity.
  - discriminate.
  - repeat (apply Forall_cons; split); try apply Forall_nil_2; unfold good_entry; split_and?;
      first [by apply components_compute | by apply PathSpec.Witness.component_compute | apply Nat.ltb_lt; reflexivity
            | apply Nat.leb_le; reflexivity | reflexivity].
  - reflexivity.
Defined.

Lemma catalog_is_one_run_witness : exists l a b c,
  parse_archive swpath__setup1 [L "x"; L "x/catalog/INDEX"; L "x/bash/doc/bin/ls"] = Some (Returns l)
  /\ sections_of l = a ++ b ++ c /\ Forall (fun n => n <> 1) a /\ Forall (fun n => n = 1) b
  /\ Forall (fun n => n = 0) c.
Proof.
  eexists. edestruct (catalog_is_one_run [L "x"; L "x/catalog/INDEX"; L "x/bash/doc/bin/ls"])
    as (a & b & c & H); [vm_compute; reflexivity|repeat (apply Forall_cons; split); try apply Forall_nil_2; discriminate|].
  exists a, b, c. split; [vm_compute; reflexivity|]. exact H.
Defined.

Definition state_after (r : option (outcome (SWPATH * Z))) : SWPATH :=
  match r with Some (Returns (sp, _)) => sp | _ => swpath__setup1 end.
Definition failed : SWPATH := state_after (swpath_parse_path swpath__setup1 (L "mycatalog")).
Definition next : SWPATH := state_after (swpath_parse_path failed (L "usr")).

Lemma swpath_errors_stay_witness :
  swpath_parse_path failed (L "usr") = Some (Returns (next, -1)) /\ errored failed /\ errored next.
Proof.
  assert (swpath_parse_path failed (L "usr") = Some (Returns (next, -1))) as E by (vm_compute; reflexivity).
  destruct (swpath_errors_stay failed (L "usr") next (-1) E) as [H _].
  split; [exact E|]. split; [vm_compute; reflexivity|apply H; reflexivity].
Defined.

Lemma swpath_depth_limit_witness : exists sp,
  swpath_p_prepath_ sp = true /\ exists sp' ret,
    swpath_parse_path sp (L "bash-5/usr/bin") = Some (Returns (sp', ret)).
Proof.
  pose (sp := put_p_prepath_set true (put_prepath (L "bash-5") swpath__setup1)).
  exists sp. split; [reflexivity|].
  apply (swpath_depth_limit sp [L "bash-5"] [L "usr"; L "bin"]);
    [by apply components_compute|discriminate|reflexivity|reflexivity].
Defined.
End Witness.
