(* ===== verification/Swuts.v ===== *)
(** * System identification (swsupplib/misc/swuts.c) and the attribute events it
      reads (swevent_parse_attribute_event of swsupplib/misc/swevents.c)

    fnmatch is third-party code: a parameter of the comparison. *)

From S2P Require Import Prelude CString Strob.

(** A strdup'ed member is its text, [None] for the NULL pointer. *)
Record SWUTS := mkSWUTS {
  machineM : option bytes;
  sysnameM : option bytes;
  releaseM : option bytes;
  versionM : option bytes;
  arch_tripletM : option bytes;
  result_machineM : Z;
  result_sysnameM : Z;
  result_releaseM : Z;
  result_versionM : Z;
  match_resultM : Z;
}.

Definition SW_A_os_name : bytes := L "os_name".
Definition SW_A_os_version : bytes := L "os_version".
Definition SW_A_os_release : bytes := L "os_release".
Definition SW_A_machine_type : bytes := L "machine_type".
Definition SW_A_architecture : bytes := L "architecture".

Definition swuts_create : SWUTS := mkSWUTS None None None None None 0 0 0 0 (-1).

Definition set_machine (v : bytes) (u : SWUTS) : SWUTS :=
  mkSWUTS (Some v) (sysnameM u) (releaseM u) (versionM u) (arch_tripletM u)
    (result_machineM u) (result_sysnameM u) (result_releaseM u) (result_versionM u) (match_resultM u).
Definition set_sysname (v : bytes) (u : SWUTS) : SWUTS :=
  mkSWUTS (machineM u) (Some v) (releaseM u) (versionM u) (arch_tripletM u)
    (result_machineM u) (result_sysnameM u) (result_releaseM u) (result_versionM u) (match_resultM u).
Definition set_release (v : bytes) (u : SWUTS) : SWUTS :=
  mkSWUTS (machineM u) (sysnameM u) (Some v) (versionM u) (arch_tripletM u)
    (result_machineM u) (result_sysnameM u) (result_releaseM u) (result_versionM u) (match_resultM u).
Definition set_version (v : bytes) (u : SWUTS) : SWUTS :=
  mkSWUTS (machineM u) (sysnameM u) (releaseM u) (Some v) (arch_tripletM u)
    (result_machineM u) (result_sysnameM u) (result_releaseM u) (result_versionM u) (match_resultM u).
Definition set_arch_triplet (v : bytes) (u : SWUTS) : SWUTS :=
  mkSWUTS (machineM u) (sysnameM u) (releaseM u) (versionM u) (Some v)
    (result_machineM u) (result_sysnameM u) (result_releaseM u) (result_versionM u) (match_resultM u).

Definition swuts_add_attribute (uts : SWUTS) (attribute value : bytes) : SWUTS :=
  if streq attribute SW_A_os_name then set_sysname value uts
  else if streq attribute SW_A_os_version then set_version value uts
  else if streq attribute SW_A_os_release then set_release value uts
  else if streq attribute SW_A_machine_type then set_machine value uts
  else if streq attribute SW_A_architecture then set_arch_triplet value uts
  else uts.

Definition swuts_is_uts_attribute (name : bytes) : Z :=
  if negb (strcmp name SW_A_os_name =? 0) && negb (strcmp name SW_A_os_release =? 0)
     && negb (strcmp name SW_A_os_version =? 0) && negb (strcmp name SW_A_machine_type =? 0)
     && negb (strcmp name SW_A_architecture =? 0)
  then 0 else 1.

(** ** Attribute events *)

(** [line] is the buffer of the line: '=' is overwritten by NUL.  The result is
    the buffer, the status, and the offsets of the attribute and the value. *)
Definition swevent_parse_attribute_event (line : bytes) : option (bytes * Z * option (Z * Z)) :=
  t ← str_at line 0;
  match strstr t (L "315:") with
  | None => Some (line, -1, None)
  | Some s =>
      let s := Z.of_nat s + 4 in
      r ← str_at line s;
      match strchr r "="%char with
      | Some O => Some (line, -2, None)
      | None => Some (line, if zlen r =? 0 then -2 else -3, None)
      | Some i => let s1 := s + Z.of_nat i in
                  m ← mem_write line s1 [NUL]; Some (m, 0, Some (s, s1 + 1))
      end
  end.

Section Events.
Context `{Malloc}.

(** One line: the token is parsed in a buffer of its own, because strob_strtok
    goes on behind the token and never reads it again. *)
Definition uts_event (uts : SWUTS) (line : bytes) : option (SWUTS * Z) :=
  '(m, ret, r) ← swevent_parse_attribute_event (line ++ [NUL]);
  match r with
  | None => Some (uts, ret)
  | Some (a, v) =>
      attribute ← str_at m a;
      value ← str_at m v;
      if streq attribute SW_A_os_name then Some (set_sysname value uts, ret)
      else if streq attribute SW_A_os_version then Some (set_version value uts, ret)
      else if streq attribute SW_A_os_release then Some (set_release value uts, ret)
      else if streq attribute SW_A_machine_type then Some (set_machine value uts, ret)
      else if streq attribute SW_A_architecture then Some (set_arch_triplet value uts, ret)
      else Some (uts, -1)
  end.

(** while (line) {...} *)
Fixpoint uts_events_loop (fuel : nat) (uts : SWUTS) (tmp : STROB) (line : option Z) (ret : Z)
    : option (SWUTS * Z) :=
  match fuel with
  | O => None
  | S fuel =>
    match line with
    | None => Some (uts, ret)
    | Some p =>
        l ← str_at (str_ tmp) p;
        '(uts, ret) ← uts_event uts l;
        '(tmp, line) ← strob_strtok tmp TokNull (["013"; "010"]%char);
        uts_events_loop fuel uts tmp line ret
    end
  end.

Definition swuts_read_from_events (uts : SWUTS) (events : bytes) : option (SWUTS * Z) :=
  tmp ← strob_open 10;
  '(tmp, line) ← strob_strtok tmp (TokStr events) (["013"; "010"]%char);
  uts_events_loop (S (length events)) uts tmp line 0.
End Events.

(** ** Matching *)

Section Matching.
(** fnmatch (pattern, string, flags) *)
Context (fnmatch : bytes -> bytes -> Z -> Z).

Definition compare_name (target sw : option bytes) : Z :=
  match sw, target with
  | Some ((_ :: _) as sw), Some ((_ :: _) as target) => fnmatch sw target 0
  | _, _ => 0
  end.

(** The results are stored in [char] members. *)
Definition to_schar (z : Z) : Z := (z + 128) mod 256 - 128.

Definition swuts_compare (uts_target uts_swdef : SWUTS) : SWUTS * Z :=
  let sysname := to_schar (compare_name (sysnameM uts_target) (sysnameM uts_swdef)) in
  let machine := to_schar (compare_name (machineM uts_target) (machineM uts_swdef)) in
  let release := to_schar (compare_name (releaseM uts_target) (releaseM uts_swdef)) in
  let version := to_schar (compare_name (versionM uts_target) (versionM uts_swdef)) in
  let res := if (sysname =? 0) && (machine =? 0) && (release =? 0) && (version =? 0) then 0 else 1 in
  (mkSWUTS (machineM uts_swdef) (sysnameM uts_swdef) (releaseM uts_swdef) (versionM uts_swdef)
     (arch_tripletM uts_swdef) machine sysname release version res, res).
End Matching.
