(* ===== verification/Swverid.v ===== *)
(** * Software specifications and version identifiers (swsupplib/misc/swverid.c)

    "bash.doc,r>=3.0,a=i686|sh": alternates, each with tags and version ids.

    - A struct VER_ID is a record; the list through nextM is a [list VER_ID] and
      a pointer into it is an index.
    - A SWVERID is a record without altM; an object with the objects reachable
      from it through altM is the list of them, the object itself first.
    - sg_swverid_uuid, the static counter, is passed and returned.
    - fnmatch, third-party code, is a parameter of the comparison. *)

From S2P Require Import Prelude CString Strob Cplob Vercmp Pathname Escape Swuts.

(** ** Constants *)

Definition SWVERID_NS_NA : Z := -1.
Definition SWVERID_NS_TOP : Z := 1.
Definition SWVERID_NS_MID : Z := 2.
Definition SWVERID_NS_LOW : Z := 3.

Definition SWVERID_CMP_NOT_USED : Z := -50.
Definition SWVERID_CMP_NEQ : Z := 0.
Definition SWVERID_CMP_LT : Z := 1.
Definition SWVERID_CMP_LTE : Z := 2.
Definition SWVERID_CMP_EQ2 : Z := 3.
Definition SWVERID_CMP_EQ : Z := 4.
Definition SWVERID_CMP_GTE : Z := 5.
Definition SWVERID_CMP_GT : Z := 6.

Definition rel_op_array : list bytes := [L "!="; L "<"; L "<="; L "="; L "=="; L ">="; L ">"].

(** SWVERID_VERIDS_POSIX SWVERID_VERIDS_SWBIS, and SWVERID_QUALIFIER *)
Definition SWVERID_VERIDS : bytes := L "ravlqig".
Definition SWVERID_QUALIFIER : bytes := L "bpf".

(** All the SWVERID_RELOP_* strings concatenated. *)
Definition RELOP_CHARS : bytes := concat rel_op_array.

(** ** Version ids *)

Record VER_ID := mkVER_ID {
  ver_idM : bytes;      (* id with its qualifier *)
  idM : bytes;
  vqM : bytes;
  rel_opM : bytes;
  rel_op_codeM : Z;
  valueM : option bytes;
}.

Definition set_rel_op_code (c : Z) (v : VER_ID) : VER_ID :=
  mkVER_ID (ver_idM v) (idM v) (vqM v) (rel_opM v) c (valueM v).
Definition set_vq (q : bytes) (v : VER_ID) : VER_ID :=
  mkVER_ID (ver_idM v) (idM v) q (rel_opM v) (rel_op_codeM v) (valueM v).

Definition get_ver_id_char_from_this (this : VER_ID) : ascii :=
  let verid := ver_idM this in
  if zlen verid >? 1 then hd NUL (tl verid) else hd NUL verid.

Fixpoint rel_op_index (ops : list bytes) (rel_op : bytes) (index : Z) : Z :=
  match ops with
  | [] => -1
  | s :: ops => if strcmp s rel_op =? 0 then index else rel_op_index ops rel_op (index + 1)
  end.

Definition determine_rel_op_code (rel_op : bytes) : Z := rel_op_index rel_op_array rel_op 0.

Definition is_rel_char (c : ascii) : bool := mem_char c (L "=|<>").

(** The lower case letters of the id and its qualifier, when they are valid. *)
Definition split_version_id (id : bytes) : option (bytes * bytes) :=
  match id with
  | [c] => _ ← strpbrk [c] SWVERID_VERIDS; Some ([], [c])
  | [q; c] => _ ← strpbrk [q] SWVERID_QUALIFIER; _ ← strpbrk [c] SWVERID_VERIDS; Some ([q], [c])
  | _ => None
  end.

(** Only the revision takes the operators, and not '='. *)
Definition rel_op_permitted (id : bytes) (code : Z) : bool :=
  if ceq (hd NUL id) "r"%char then negb (code =? SWVERID_CMP_EQ2) else code =? SWVERID_CMP_EQ2.

Section Verids.
Context `{Malloc}.

(** The value; [obj] is the string object that holds it from the offset [off]
    on: the value of a location loses its trailing slash in place. *)
Definition store_value (id : bytes) (obj : bytes) (off : Z) : option (bytes * bytes) :=
  s ← str_at obj off;
  if negb (zlen s =? 0) then
    if strcmp id (L "l") =? 0 then
      p ← mem_at obj off;
      p ← swlib_squash_trailing_slash p;
      s ← text_of p;
      let obj := take (Z.to_nat off) obj ++ p in
      if negb (ceq (hd NUL s) slash) then
        tmp ← strob_open 10;
        tmp ← strob_strcpy tmp (L "/");
        tmp ← strob_strcat tmp s;
        s ← strob_str tmp;
        Some (obj, s)
      else Some (obj, s)
    else Some (obj, s)
  else Some (obj, []).

(** The caller's string object afterwards, and the new version id or NULL. *)
Definition create_version_id (obj : bytes) : option (bytes * option VER_ID) :=
  s ← str_at obj 0;
  let id := take_while isalpha s in
  match split_version_id id with
  | None => Some (obj, None)
  | Some (vq, idc) =>
      let s := drop_while isalpha s in
      let rel_op := take 3 (take_while is_rel_char s) in
      if (zlen rel_op =? 0) || (zlen rel_op >? 2) then Some (obj, None)
      else
        let code := determine_rel_op_code rel_op in
        if (code <? 0) || negb (rel_op_permitted idc code) then Some (obj, None)
        else
          '(obj, value) ← store_value idc obj (zlen id + zlen rel_op);
          Some (obj, Some (mkVER_ID id idc vq rel_op code (Some value)))
  end.

Definition swverid_create_version_id (verid_string : bytes) : option (bytes * option VER_ID) :=
  create_version_id verid_string.

(** strob_strcat of a member that may be NULL *)
Definition strcat_value (buf : STROB) (v : option bytes) : option STROB :=
  match v with Some v => strob_strcat buf v | None => Some buf end.

(** vqM, idM, rel_opM and the value appended to [buf]. *)
Definition cat_ver_id (buf : STROB) (v : VER_ID) : option STROB :=
  buf ← strob_strcat buf (vqM v);
  buf ← strob_strcat buf (idM v);
  buf ← strob_strcat buf (rel_opM v);
  strcat_value buf (valueM v).

Definition copy_construct_version_id (ver_id : VER_ID) : option (option VER_ID) :=
  buf ← strob_open 12;
  buf ← strob_strcpy buf (vqM ver_id);
  buf ← strob_strcat buf (idM ver_id);
  buf ← strob_strcat buf (rel_opM ver_id);
  buf ← strcat_value buf (valueM ver_id);
  '(_, new_ver_id) ← create_version_id (str_ buf);
  Some new_ver_id.

Fixpoint print_ver_id_loop (next : list VER_ID) (buf : STROB) (n : Z) : option STROB :=
  match next with
  | [] => Some buf
  | v :: next =>
      buf ← (if n =? 0 then Some buf else strob_strcat buf (L ","));
      buf ← cat_ver_id buf v;
      print_ver_id_loop next buf (n + 1)
  end.

Definition swverid_print_ver_id (next : list VER_ID) (buf : STROB) : option STROB :=
  buf ← strob_strcpy buf []; print_ver_id_loop next buf 0.
End Verids.

(** ** Objects *)

Record SWVERID := mkSWVERID {
  object_nameM : bytes;
  source_copyM : option bytes;
  catalogM : bytes;
  use_path_compareM : Z;
  taglistM : CPLOB bytes;
  namespaceM : Z;
  comparison_codeM : Z;
  ver_id_listM : list VER_ID;
  swutsM : SWUTS;
  alter_uuidM : Z;
}.

Definition set_object_name (x : bytes) (s : SWVERID) : SWVERID :=
  mkSWVERID x (source_copyM s) (catalogM s) (use_path_compareM s) (taglistM s) (namespaceM s)
    (comparison_codeM s) (ver_id_listM s) (swutsM s) (alter_uuidM s).
Definition set_source_copy (x : option bytes) (s : SWVERID) : SWVERID :=
  mkSWVERID (object_nameM s) x (catalogM s) (use_path_compareM s) (taglistM s) (namespaceM s)
    (comparison_codeM s) (ver_id_listM s) (swutsM s) (alter_uuidM s).
Definition set_catalog (x : bytes) (s : SWVERID) : SWVERID :=
  mkSWVERID (object_nameM s) (source_copyM s) x (use_path_compareM s) (taglistM s) (namespaceM s)
    (comparison_codeM s) (ver_id_listM s) (swutsM s) (alter_uuidM s).
Definition set_use_path_compare (x : Z) (s : SWVERID) : SWVERID :=
  mkSWVERID (object_nameM s) (source_copyM s) (catalogM s) x (taglistM s) (namespaceM s)
    (comparison_codeM s) (ver_id_listM s) (swutsM s) (alter_uuidM s).
Definition set_taglist (x : CPLOB bytes) (s : SWVERID) : SWVERID :=
  mkSWVERID (object_nameM s) (source_copyM s) (catalogM s) (use_path_compareM s) x (namespaceM s)
    (comparison_codeM s) (ver_id_listM s) (swutsM s) (alter_uuidM s).
Definition set_namespace (x : Z) (s : SWVERID) : SWVERID :=
  mkSWVERID (object_nameM s) (source_copyM s) (catalogM s) (use_path_compareM s) (taglistM s) x
    (comparison_codeM s) (ver_id_listM s) (swutsM s) (alter_uuidM s).
Definition set_code (x : Z) (s : SWVERID) : SWVERID :=
  mkSWVERID (object_nameM s) (source_copyM s) (catalogM s) (use_path_compareM s) (taglistM s)
    (namespaceM s) x (ver_id_listM s) (swutsM s) (alter_uuidM s).
Definition set_ver_ids (x : list VER_ID) (s : SWVERID) : SWVERID :=
  mkSWVERID (object_nameM s) (source_copyM s) (catalogM s) (use_path_compareM s) (taglistM s)
    (namespaceM s) (comparison_codeM s) x (swutsM s) (alter_uuidM s).
Definition set_swuts (x : SWUTS) (s : SWVERID) : SWVERID :=
  mkSWVERID (object_nameM s) (source_copyM s) (catalogM s) (use_path_compareM s) (taglistM s)
    (namespaceM s) (comparison_codeM s) (ver_id_listM s) x (alter_uuidM s).
Definition set_uuid (x : Z) (s : SWVERID) : SWVERID :=
  mkSWVERID (object_nameM s) (source_copyM s) (catalogM s) (use_path_compareM s) (taglistM s)
    (namespaceM s) (comparison_codeM s) (ver_id_listM s) (swutsM s) x.

Definition classify_namespace (object_kw : option bytes) : Z :=
  match object_kw with
  | None => SWVERID_NS_NA
  | Some kw =>
      if strncmp (L "fileset") kw 7 =? 0 then SWVERID_NS_MID
      else if strncmp (L "control_file") kw 11 =? 0 then SWVERID_NS_MID
      else if strncmp (L "subproduct") kw 10 =? 0 then SWVERID_NS_MID
      else if strncmp (L "product") kw 7 =? 0 then SWVERID_NS_TOP
      else if strncmp (L "bundle") kw 6 =? 0 then SWVERID_NS_TOP
      else if strncmp (L "file") kw 4 =? 0 then SWVERID_NS_LOW
      else SWVERID_NS_NA
  end.

Definition swverid_set_object_name (swverid : SWVERID) (name : option bytes) : SWVERID :=
  set_object_name (match name with Some n => n | None => [] end) swverid.

Definition swverid_set_namespace (swverid : SWVERID) (object_keyword : option bytes) : SWVERID :=
  swverid_set_object_name (set_namespace (classify_namespace object_keyword) swverid) object_keyword.

Definition swverid_get_tag (swverid : SWVERID) (n : Z) : option (option bytes) :=
  cplob_val (taglistM swverid) n.

Definition swverid_get_alternate (swverid : list SWVERID) : list SWVERID := tl swverid.

(** altM = NULL in every object of the chain *)
Definition swverid_disconnect_alternates (swverid : list SWVERID) : list (list SWVERID) :=
  map (fun s => [s]) swverid.

(** ** The list of version ids *)

(** Adding NULL leaves the list as it is. *)
Definition swverid_add_verid (swverid : SWVERID) (verid : option VER_ID) : SWVERID :=
  set_ver_ids (ver_id_listM swverid ++ match verid with Some v => [v] | None => [] end) swverid.

(** The loop of swverid_get_verid; the result is the index of the id. *)
Fixpoint get_verid_loop (last : list VER_ID) (c : ascii) (qualifier : bytes) (occno occ_count : Z)
    (i : nat) : option nat :=
  match last with
  | [] => None
  | v :: last =>
      let found :=
        if occ_count >=? occno - 1 then Some i
        else get_verid_loop last c qualifier occno (occ_count + 1) (S i) in
      let next := get_verid_loop last c qualifier occno occ_count (S i) in
      if ceq (hd NUL (idM v)) c then
        if zlen qualifier >? 0 then
          if zlen (vqM v) >? 0
          then if ceq (hd NUL (vqM v)) (hd NUL qualifier) then found else next
          else found
        else found
      else next
  end.

(** The qualifier is read after stepping over it, so it is always "". *)
Definition swverid_get_verid (swverid : SWVERID) (fp_verid : bytes) (occno : Z) : option nat :=
  if zlen fp_verid >? 2 then None
  else
    let verid := if zlen fp_verid >? 1 then tl fp_verid else fp_verid in
    let qualifier := if zlen verid >? 1 then verid else [] in
    get_verid_loop (ver_id_listM swverid) (hd NUL verid) qualifier occno 0 0.

Definition swverid_get_verid_value (swverid : SWVERID) (fp_verid : bytes) (occno : Z) : option bytes :=
  i ← swverid_get_verid swverid fp_verid occno; v ← ver_id_listM swverid !! i; valueM v.

(** The pointer is the index; one that is not in the list is out of range. *)
Definition swverid_ver_id_unlink (swverid : SWVERID) (verid : nat) : SWVERID * Z :=
  if (verid <? length (ver_id_listM swverid))%nat
  then (set_ver_ids (delete verid (ver_id_listM swverid)) swverid, 0)
  else (swverid, -1).

(** [last] is the rest of the list, [i] the index of its first element in the
    list of the object. *)
Fixpoint delete_tainted_loop (last : list VER_ID) (swverid : SWVERID) (i : nat) (retval : Z)
    : SWVERID * Z :=
  match last with
  | [] => (swverid, retval)
  | tmp :: last =>
      if negb (swlib_is_sh_tainted_string (valueM tmp) =? 0)
      then delete_tainted_loop last (fst (swverid_ver_id_unlink swverid i)) i (retval + 1)
      else delete_tainted_loop last swverid (S i) retval
  end.

Definition swverid_delete_non_fully_qualified_verids (swverid : SWVERID) : SWVERID * Z :=
  delete_tainted_loop (ver_id_listM swverid) swverid 0 0.

Definition swverid_ver_id_set_object_qualifier (swverid : SWVERID) (objkeyword : bytes) : SWVERID :=
  set_ver_ids (map (set_vq (take 1 objkeyword)) (ver_id_listM swverid)) swverid.

Section Replace.
Context `{Malloc}.

(** The loop of i_replace_verid from the index [i] on; [has_prev] is prev != NULL.
    The version id passed in is not in the list (its nextM is cleared). *)
Fixpoint replace_verid_loop (last : list VER_ID) (swverid : SWVERID) (verid : VER_ID)
    (do_replace has_prev : bool) (i : nat) : option SWVERID :=
  match last with
  | [] => newverid ← copy_construct_version_id verid; Some (swverid_add_verid swverid newverid)
  | v :: last =>
      if ceq (get_ver_id_char_from_this v) (get_ver_id_char_from_this verid) then
        if do_replace then
          newverid ← copy_construct_version_id verid;
          newverid ← newverid;                       (* newverid->nextM = ... *)
          Some (if has_prev then set_ver_ids (<[i := newverid]> (ver_id_listM swverid)) swverid
                else swverid)
        else Some swverid
      else replace_verid_loop last swverid verid do_replace true (S i)
  end.

Definition i_replace_verid (swverid : SWVERID) (verid : VER_ID) (do_replace : bool) : option SWVERID :=
  replace_verid_loop (ver_id_listM swverid) swverid verid do_replace false 0.

Definition swverid_add_verid_if (swverid : SWVERID) (verid : VER_ID) : option SWVERID :=
  i_replace_verid swverid verid false.

Definition swverid_replace_verid (swverid : SWVERID) (verid : VER_ID) : option SWVERID :=
  i_replace_verid swverid verid true.
End Replace.

(** ** Parsing *)

Definition comma : bytes := L ",".
Definition dot : bytes := L ".".

Section Parsing.
Context `{Malloc}.

(** The loop of parse_version_ids_string: [s] is the last token.  The token is
    parsed in a copy: what create_version_id does to its string is done to the
    text in front of where strob_strtok goes on. *)
Fixpoint version_ids_loop (fuel : nat) (swverid : SWVERID) (buf : STROB) (s : option Z)
    : option (SWVERID * Z) :=
  match fuel with
  | O => None
  | S fuel =>
    match s with
    | None => Some (swverid, 0)
    | Some p =>
        t ← str_at (str_ buf) p;
        '(_, verid) ← create_version_id (t ++ [NUL]);
        match verid with
        | None => Some (swverid, -1)
        | Some v =>
            let swverid := swverid_add_verid swverid (Some v) in
            '(buf, s) ← strob_strtok buf TokNull comma;
            version_ids_loop fuel swverid buf s
        end
    end
  end.

Definition parse_version_ids_string (swverid : SWVERID) (verid_string : bytes) : option (SWVERID * Z) :=
  buf ← strob_open 10;
  '(buf, s) ← strob_strtok buf (TokStr verid_string) comma;
  version_ids_loop (S (length verid_string)) swverid buf s.

(** while (tag) {...}: the tags added to the list. *)
Fixpoint tag_loop (fuel : nat) (taglist : CPLOB bytes) (tag_tmp2 : STROB) (tag : option Z)
    : option (CPLOB bytes) :=
  match fuel with
  | O => None
  | S fuel =>
    match tag with
    | None => Some taglist
    | Some p =>
        t ← str_at (str_ tag_tmp2) p;
        taglist ← cplob_add_nta taglist (Some t);
        '(tag_tmp2, tag) ← strob_strtok tag_tmp2 TokNull dot;
        tag_loop fuel taglist tag_tmp2 tag
    end
  end.

(** while (verid) {...} *)
Fixpoint verids_loop (fuel : nat) (swverid : SWVERID) (tmp : STROB) (verid : option Z)
    : option (SWVERID * Z) :=
  match fuel with
  | O => None
  | S fuel =>
    match verid with
    | None => Some (swverid, 0)
    | Some p =>
        t ← str_at (str_ tmp) p;
        '(swverid, ret) ← (if strcmp t (L "*") =? 0 then Some (swverid, 0)
                           else parse_version_ids_string swverid t);
        if negb (ret =? 0) then Some (swverid, -1)
        else '(tmp, verid) ← strob_strtok tmp TokNull comma;
             verids_loop fuel swverid tmp verid
    end
  end.

(** strob_strtok of the string at [p], or of NULL *)
Definition strtok_at (buf : STROB) (m : bytes) (p : option Z) (delim : bytes)
    : option (STROB * option Z) :=
  match p with
  | Some p => t ← str_at m p; strob_strtok buf (TokStr t) delim
  | None => strob_strtok buf TokNull delim
  end.

(** The tags and the first of them: of the source, or of "*," and the source
    when the source starts with a version id. *)
Definition first_tag (tmp tag_tmp2 : STROB) (source : bytes) (tag : Z)
    : option (STROB * STROB * option Z) :=
  t ← str_at (str_ tag_tmp2) tag;
  match strpbrk t RELOP_CHARS with
  | None => Some (tmp, tag_tmp2, Some tag)
  | Some _ =>
      tag_tmp2 ← strob_strcpy tag_tmp2 (L "*");
      tag_tmp2 ← strob_strcat tag_tmp2 comma;
      tag_tmp2 ← strob_strcat tag_tmp2 source;
      s ← strob_str tag_tmp2;
      '(tmp, tags) ← strob_strtok tmp (TokStr s) comma;
      '(tag_tmp2, tag) ← strtok_at tag_tmp2 (str_ tmp) tags dot;
      Some (tmp, tag_tmp2, tag)
  end.

Definition parse_swspec_string (swverid : SWVERID) : option (SWVERID * Z) :=
  match source_copyM swverid with
  | None | Some [] => Some (swverid, -2)
  | Some source =>
      tmp ← strob_open 20;
      tag_tmp2 ← strob_open 20;
      taglist ← cplob_shallow_reset (taglistM swverid);
      let swverid := set_taglist taglist swverid in
      '(tmp, tags) ← strob_strtok tmp (TokStr source) comma;
      match tags with
      | None => Some (swverid, -1)
      | Some tags =>
          '(tag_tmp2, tag) ← strtok_at tag_tmp2 (str_ tmp) (Some tags) dot;
          match tag with
          | None => Some (swverid, -1)
          | Some tag =>
              '(tmp, tag_tmp2, tag) ← first_tag tmp tag_tmp2 source tag;
              taglist ← tag_loop (S (length source)) taglist tag_tmp2 tag;
              let swverid := set_taglist taglist swverid in
              '(tmp, verids) ← strob_strtok tmp TokNull comma;
              verids_loop (S (length source)) swverid tmp verids
          end
      end
  end.

(** NULL when the string does not parse. *)
Definition swverid_i_open (object_keyword swversion_string : option bytes) : option (option SWVERID) :=
  taglist ← cplob_open 3;
  taglist ← cplob_add_nta taglist None;
  let swverid := mkSWVERID [] None [] 0 taglist 0 SWVERID_CMP_EQ [] swuts_create 0 in
  let swverid := swverid_set_namespace swverid object_keyword in
  let swverid := swverid_set_object_name swverid object_keyword in
  match swversion_string with
  | None => Some (Some swverid)
  | Some s =>
      '(swverid, ret) ← parse_swspec_string (set_source_copy (Some s) swverid);
      Some (if ret <? 0 then None else Some swverid)
  end.

(** |, line feed, carriage return *)
Definition alternate_delims : bytes := ["|"; "010"; "013"]%char.

(** The loop of swverid_open: the objects of the alternates in order. *)
Fixpoint open_loop (fuel : nat) (object_keyword : option bytes) (tmp : STROB) (s : option Z)
    : option (option (list SWVERID)) :=
  match fuel with
  | O => None
  | S fuel =>
    match s with
    | None => Some (Some [])
    | Some p =>
        t ← str_at (str_ tmp) p;
        swverid ← swverid_i_open object_keyword (Some t);
        match swverid with
        | None => Some None
        | Some swverid =>
            '(tmp, s) ← strob_strtok tmp TokNull alternate_delims;
            last ← open_loop fuel object_keyword tmp s;
            Some (option_map (cons swverid) last)
        end
    end
  end.

(** sg_swverid_uuid++, which must not overflow the int *)
Definition next_uuid (u : Z) : option Z := if u =? INT_MAX then None else Some (u + 1).

(** The object (NULL when it does not parse) and the counter afterwards. *)
Definition swverid_open (sg_swverid_uuid : Z) (object_keyword swversion_string : option bytes)
    : option (option (list SWVERID) * Z) :=
  match swversion_string with
  | Some str =>
      tmp ← strob_open 32;
      '(tmp, s) ← strob_strtok tmp (TokStr str) alternate_delims;
      chain ← open_loop (S (length str)) object_keyword tmp s;
      match chain with
      | None | Some [] => Some (None, sg_swverid_uuid)
      | Some chain =>
          u ← (if sg_swverid_uuid =? 0 then next_uuid sg_swverid_uuid else Some sg_swverid_uuid);
          u' ← next_uuid u;
          Some (Some (map (set_uuid u) chain), u')
      end
  | None =>
      parent ← swverid_i_open object_keyword None;
      match parent with
      | None => Some (None, sg_swverid_uuid)
      | Some parent => u' ← next_uuid sg_swverid_uuid;
                       Some (Some [set_uuid sg_swverid_uuid parent], u')
      end
  end.

(** The list of tags; taglistM and source_copyM are put back, the version ids of
    [swspec] stay in the object. *)
Definition swverid_u_parse_swspec (swverid : SWVERID) (swspec : bytes) : option (SWVERID * CPLOB bytes) :=
  list ← cplob_open 3;
  '(s, _) ← parse_swspec_string (set_source_copy (Some swspec) (set_taglist list swverid));
  Some (set_source_copy (source_copyM swverid) (set_taglist (taglistM swverid) s), taglistM s).
End Parsing.

(** ** Printing, copying, attributes *)

Section Objects.
Context `{Malloc}.

(** while ((s = cplob_val (taglistM, i++))) *)
Fixpoint print_tags (fuel : nat) (taglist : CPLOB bytes) (buf : STROB) (i : Z) : option STROB :=
  match fuel with
  | O => None
  | S fuel =>
    s ← cplob_val taglist i;
    match s with
    | None => Some buf
    | Some s =>
        buf ← (if i + 1 >? 1 then strob_strcat buf (L ".") else Some buf);
        buf ← strob_strcat buf s;
        print_tags fuel taglist buf (i + 1)
    end
  end.

Definition taglist_fuel (taglist : CPLOB bytes) : nat := S (S (length (list_ taglist))).

Definition swverid_i_print (swverid : SWVERID) (buf : STROB) : option STROB :=
  version ← strob_open 32;
  buf ← print_tags (taglist_fuel (taglistM swverid)) (taglistM swverid) buf 0;
  version ← swverid_print_ver_id (ver_id_listM swverid) version;
  n ← strob_strlen version;
  if n >? 0 then
    buf ← strob_strcat buf comma;
    v ← strob_str version;
    strob_strcat buf v
  else Some buf.

Fixpoint print_alternates (next : list SWVERID) (buf : STROB) : option STROB :=
  match next with
  | [] => Some buf
  | s :: next => buf ← strob_strcat buf (L "|"); buf ← swverid_i_print s buf; print_alternates next buf
  end.

(** With the buffer of the caller; the static one it replaces is reused alike. *)
Definition swverid_print (swverid : list SWVERID) (fp_buf : STROB) : option STROB :=
  match swverid with
  | [] => None
  | s :: next => buf ← strob_strcpy fp_buf []; buf ← swverid_i_print s buf; print_alternates next buf
  end.

(** Version ids whose copy does not parse are dropped. *)
Fixpoint ver_ids_copy_loop (last : list VER_ID) (dst : SWVERID) : option SWVERID :=
  match last with
  | [] => Some dst
  | v :: last => copy_of_last ← copy_construct_version_id v;
                 ver_ids_copy_loop last (swverid_add_verid dst copy_of_last)
  end.

Definition ver_ids_copy (dst src : SWVERID) : option SWVERID :=
  ver_ids_copy_loop (ver_id_listM src) (set_ver_ids [] dst).

(** while ((tag = swverid_get_tag (src, n++)) != NULL) *)
Fixpoint copy_tags_loop (fuel : nat) (src : SWVERID) (taglist : CPLOB bytes) (n : Z)
    : option (CPLOB bytes) :=
  match fuel with
  | O => None
  | S fuel =>
    tag ← swverid_get_tag src n;
    match tag with
    | None => Some taglist
    | Some _ => taglist ← cplob_add_nta taglist tag; copy_tags_loop fuel src taglist (n + 1)
    end
  end.

(** The copy has no alternates: only the object itself is copied. *)
Definition swverid_copy (sg_swverid_uuid : Z) (src : SWVERID) : option (SWVERID * Z) :=
  '(dst, u) ← swverid_open sg_swverid_uuid None None;
  match dst with
  | Some [dst] =>
      let dst := set_object_name (object_nameM src) dst in
      let dst := set_source_copy (source_copyM src) dst in
      let dst := set_catalog (catalogM src) dst in
      let dst := set_use_path_compare (use_path_compareM src) dst in
      let dst := set_namespace (namespaceM src) dst in
      let dst := set_code (comparison_codeM src) dst in
      taglist ← cplob_open 1;
      taglist ← cplob_add_nta taglist None;
      taglist ← copy_tags_loop (taglist_fuel (taglistM src)) src taglist 0;
      dst ← ver_ids_copy (set_taglist taglist dst) src;
      Some (dst, u)
  | _ => None
  end.

Definition swverid_add_tag (swverid : SWVERID) (tag : bytes) : option SWVERID :=
  taglist ← cplob_add_nta (taglistM swverid) (Some tag); Some (set_taglist taglist swverid).

Definition swverid_set_tag (swverid : SWVERID) (key : bytes) (value : option bytes) : option SWVERID :=
  match value with
  | None => Some swverid
  | Some value =>
      if strcmp key (L "catalog") =? 0 then Some (set_catalog value swverid)
      else _ ← cplob_val (taglistM swverid) 0;
           taglist ← cplob_additem (taglistM swverid) 0 (Some value);
           Some (set_taglist taglist swverid)
  end.

(** The letter of a version id attribute, 0 for a tag or path, -1 otherwise. *)
Definition swverid_get_ver_id_char (object attr_name : bytes) : Z :=
  if strcmp attr_name (L "revision") =? 0 then uchar "r"
  else if strcmp attr_name (L "architecture") =? 0 then uchar "a"
  else if strcmp attr_name (L "vendor_tag") =? 0 then uchar "v"
  else if strcmp attr_name (L "location") =? 0 then uchar "l"
  else if strcmp attr_name (L "qualifier") =? 0 then uchar "q"
  else if strcmp attr_name (L "tag") =? 0 then 0
  else if strcmp attr_name (L "path") =? 0 then
    if (strcmp object (L "file") =? 0) || (strcmp object (L "distribution") =? 0) then 0 else -1
  else -1.

Definition swverid_add_attribute (swverid : SWVERID) (object_keyword keyword value : bytes)
    : option (SWVERID * Z) :=
  let swverid :=
    if (strcmp object_keyword (L "file") =? 0) || (strcmp object_keyword (L "control_file") =? 0)
    then set_use_path_compare 1 swverid else swverid in
  let c := swverid_get_ver_id_char object_keyword keyword in
  if c <? 0 then
    Some (set_swuts (swuts_add_attribute (swutsM swverid) keyword value) swverid, 0)
  else if c =? 0 then
    let swverid := set_source_copy (Some value) swverid in
    taglist ← cplob_additem (taglistM swverid) 0 (Some value);
    Some (set_taglist taglist swverid, 1)
  else
    let ver_id := to_char c in
    verid_string ← strob_open 24;
    verid_string ← strob_strcpy verid_string [ver_id];
    verid_string ← strob_strcat verid_string (if ceq ver_id "r"%char then L "==" else L "=");
    verid_string ← strob_strcat verid_string value;
    '(_, version_id) ← create_version_id (str_ verid_string);
    match version_id with
    | None => Some (swverid, -1)
    | Some _ => Some (swverid_add_verid swverid version_id, 1)
    end.
End Objects.

(** ** Comparing *)

Definition compare_relop (rel req : Z) : Z :=
  if req =? SWVERID_CMP_NOT_USED then rel
  else if req =? SWVERID_CMP_NEQ then
    if negb (rel =? SWVERID_CMP_EQ) then 0 else 1
  else if (req =? SWVERID_CMP_EQ) || (req =? SWVERID_CMP_EQ2) then
    if negb (rel =? SWVERID_CMP_EQ) && negb (rel =? SWVERID_CMP_EQ2) then 1 else 0
  else if req =? SWVERID_CMP_LTE then
    if (rel =? SWVERID_CMP_EQ) || (rel =? SWVERID_CMP_LTE) || (rel =? SWVERID_CMP_LT) then 0 else 1
  else if req =? SWVERID_CMP_LT then
    if rel =? SWVERID_CMP_LTE then -1 else if rel =? SWVERID_CMP_LT then 0 else 1
  else if req =? SWVERID_CMP_GT then
    if rel =? SWVERID_CMP_GTE then -1 else if rel =? SWVERID_CMP_GT then 0 else 1
  else if req =? SWVERID_CMP_GTE then
    if (rel =? SWVERID_CMP_EQ) || (rel =? SWVERID_CMP_GTE) || (rel =? SWVERID_CMP_GT) then 0 else 1
  else -1.

Definition swverid_i_rpmvercmp (target_list candidate_list : option bytes) : option Z :=
  match target_list, candidate_list with
  | Some target, Some candidate => swlib_rpmvercmp target candidate
  | _, _ => Some 0
  end.

Section Comparing.
Context `{Malloc} (fnmatch : bytes -> bytes -> Z -> Z).

Definition swverid_i_fnmatch (candidate target : option bytes) (flags : Z) : Z :=
  match target, candidate with
  | Some target, Some candidate => fnmatch candidate target flags
  | _, _ => 0
  end.

(** The candidate afterwards (its rel_op_codeM is overwritten) and the result. *)
Definition compare_version_id (id_target id_candidate : option VER_ID) (req : Z)
    : option (option VER_ID * Z) :=
  match id_target, id_candidate with
  | Some t, Some c =>
      if ceq (get_ver_id_char_from_this c) "r"%char then
        ret ← swverid_i_rpmvercmp (valueM t) (valueM c);
        let finish code := Some (Some (set_rel_op_code code c), compare_relop code req) in
        if ret =? 1 then finish SWVERID_CMP_LT
        else if ret =? -1 then finish SWVERID_CMP_GT
        else if ret =? 0 then finish SWVERID_CMP_EQ
        else Some (Some c, -1)
      else
        let ret := swverid_i_fnmatch (valueM c) (valueM t) 0 in
        let code := if ret =? 0 then SWVERID_CMP_EQ else SWVERID_CMP_NEQ in
        Some (Some (set_rel_op_code code c), compare_relop code req)
  | _, _ => Some (option_map (set_rel_op_code SWVERID_CMP_NOT_USED) id_candidate, 0)
  end.

Definition is_fully_qualified (spec : SWVERID) : Z := 0.

Definition compare_taglist (pattern fq_candidate : SWVERID) : Z := -1.

(** One id letter compared; the candidate's id is updated in its list. *)
Definition compare_one_verid (target candidate : SWVERID) (letter : bytes) : option SWVERID :=
  let get s := i ← swverid_get_verid s letter 1; ver_id_listM s !! i in
  '(c, _) ← compare_version_id (get target) (get candidate) SWVERID_CMP_NOT_USED;
  Some (match swverid_get_verid candidate letter 1, c with
        | Some i, Some c => set_ver_ids (<[i := c]> (ver_id_listM candidate)) candidate
        | _, _ => candidate
        end).

(** The candidate afterwards and the result. *)
Definition compare_all_version_ids (target candidate : SWVERID) : option (SWVERID * Z) :=
  if is_fully_qualified target =? 0 then Some (candidate, -1)
  else
    candidate ← compare_one_verid target candidate (L "r");
    candidate ← compare_one_verid target candidate (L "a");
    candidate ← compare_one_verid target candidate (L "v");
    candidate ← compare_one_verid target candidate (L "l");
    candidate ← compare_one_verid target candidate (L "q");
    Some (candidate, 0).

Definition swverid_verid_compare (target candidate : SWVERID) : option (SWVERID * Z) :=
  compare_all_version_ids target candidate.

(** swlib_compare_8859 of the first tags, which it edits in place. *)
Definition compare_first_tags (target candidate : SWVERID)
    : option (outcome (SWVERID * SWVERID * Z)) :=
  t1 ← cplob_val (taglistM target) 0;
  t2 ← cplob_val (taglistM candidate) 0;
  t1 ← t1;
  t2 ← t2;
  r ← swlib_compare_8859 (t1 ++ [NUL]) (t2 ++ [NUL]);
  match r with
  | Fatal => Some Fatal
  | Returns (m1, m2, ret) =>
      t1 ← text_of m1;
      t2 ← text_of m2;
      l1 ← cplob_additem (taglistM target) 0 (Some t1);
      l2 ← cplob_additem (taglistM candidate) 0 (Some t2);
      Some (Returns (set_taglist l1 target, set_taglist l2 candidate,
                     if ret =? 0 then SWVERID_CMP_EQ else SWVERID_CMP_NEQ))
  end.

(** The tests both comparisons start with; [None] to go on. *)
Definition different_objects (target candidate : SWVERID) : bool :=
  negb (strcmp (object_nameM target) (object_nameM candidate) =? 0)
  || (negb (namespaceM target =? SWVERID_NS_NA) && negb (namespaceM target =? namespaceM candidate)).

Definition swverid_compare (target candidate : SWVERID) : option (outcome (SWVERID * SWVERID * Z)) :=
  if different_objects target candidate then Some (Returns (target, candidate, SWVERID_CMP_NEQ))
  else
    tag1 ← cplob_val (taglistM target) 0;
    match tag1 with
    | None | Some [] => Some (Returns (target, candidate, SWVERID_CMP_EQ))
    | Some _ =>
        if negb (use_path_compareM target =? 0) && negb (use_path_compareM candidate =? 0)
        then compare_first_tags target candidate
        else if (use_path_compareM target =? 0) && (use_path_compareM candidate =? 0)
        then '(candidate, ret) ← compare_all_version_ids target candidate;
             Some (Returns (target, candidate, ret))
        else Some (Returns (target, candidate, -1))
    end.

Definition swverid_vtagOLD_compare (target candidate : SWVERID)
    : option (outcome (SWVERID * SWVERID * Z)) :=
  if different_objects target candidate then Some (Returns (target, candidate, SWVERID_CMP_NEQ))
  else
    tag1 ← cplob_val (taglistM target) 0;
    match tag1 with
    | None | Some [] => Some (Returns (target, candidate, SWVERID_CMP_EQ))
    | Some tag1 =>
        if strcmp tag1 (L "*") =? 0 then Some (Returns (target, candidate, SWVERID_CMP_EQ))
        else if negb (use_path_compareM target =? 0) || negb (use_path_compareM candidate =? 0)
        then compare_first_tags target candidate
        else
          tag2 ← cplob_val (taglistM candidate) 0;
          tag2 ← tag2;
          Some (Returns (target, candidate,
                         if strcmp tag1 tag2 =? 0 then SWVERID_CMP_EQ else SWVERID_CMP_NEQ))
    end.
End Comparing.
