(* ===== verification/SwveridSpec.v ===== *)
(** * Specification of software specs and version ids

    A version id has a grammar ([version_id_text]); a software spec is a list of
    alternates, each with tags and version ids ([spec]).  The theorems: the
    parser accepts exactly the grammar; printing and parsing specs are inverse;
    what copying, replacing and comparing do on every object. *)

From S2P Require Import Prelude CString Strob StrobSpec Cplob CplobSpec Vercmp Pathname PathSpec Escape Swuts Swverid.

(** ** What create_version_id computes *)

(** The value a location is stored as: without one trailing slash, absolute. *)
Definition verid_value (id x : bytes) : bytes :=
  if negb (zlen x =? 0) && (strcmp id (L "l") =? 0) then
    let y := chop slash 1 x in if ceq (hd NUL y) slash then y else slash :: y
  else x.

Definition parse_verid (s : bytes) : option VER_ID :=
  let id := take_while isalpha s in
  '(vq, idc) ← split_version_id id;
  let s := drop_while isalpha s in
  let rel_op := take 3 (take_while is_rel_char s) in
  if (zlen rel_op =? 0) || (zlen rel_op >? 2) then None
  else
    let code := determine_rel_op_code rel_op in
    if (code <? 0) || negb (rel_op_permitted idc code) then None
    else Some (mkVER_ID id idc vq rel_op code (Some (verid_value idc (drop (length rel_op) s)))).

Definition text_or_nil (v : option bytes) : bytes := match v with Some v => v | None => [] end.

(** How a version id is printed. *)
Definition ver_text (v : VER_ID) : bytes := vqM v ++ idM v ++ rel_opM v ++ text_or_nil (valueM v).

Section Create.
Context `{Malloc}.

Lemma text_no_nul s t : text s t -> no_nul t.
Proof. intros T. apply (holds_no_nul _ _ (text_holds s t T)). Qed.

(** A text that is cut at the front of another one. *)
Lemma holds_drop_at m o s : holds m o s -> holds (drop o m) 0 s.
Proof.
  intros Hh. pose proof (holds_drop _ _ _ Hh) as E. destruct Hh as [Hn _].
  by eapply (holds_intro _ s _ 0).
Qed.

Lemma prepend_slash s :
  no_nul s -> zlen s + 1 < SMALL ->
  (tmp ← strob_open 10; tmp ← strob_strcpy tmp (L "/"); tmp ← strob_strcat tmp s; strob_str tmp)
  = Some (slash :: s).
Proof.
  intros Hn Hb. pose proof (zlen_nonneg s).
  destruct (strob_open_spec 10) as (b0 & -> & T0 & _); [reflexivity|]. obind.
  destruct (strob_strcpy_spec b0 (L "/") (text_wf _ _ T0)) as (b1 & -> & T1 & _);
    [by apply no_nul_compute|reflexivity|]. obind.
  destruct (strob_strcat_spec b1 (L "/") s T1 Hn) as (b2 & -> & T2 & _);
    [change (zlen (L "/")) with 1; lia|]. obind.
  by rewrite (text_str _ _ T2).
Qed.

Lemma store_value_spec id m o x :
  holds m o x -> zlen x + 1 < SMALL ->
  exists m', store_value id m (Z.of_nat o) = Some (m', verid_value id x).
Proof.
  intros Hh Hb. unfold store_value, verid_value. rewrite (str_at_nat _ _ _ Hh). obind.
  destruct (zlen x =? 0) eqn:E0; cbn [negb andb].
  { zbool. apply zlen_0 in E0 as ->. eauto. }
  destruct (strcmp id (L "l") =? 0); [|eauto].
  pose proof (holds_bound _ _ _ Hh) as Hlt.
  rewrite mem_at_in by (unfold zlen; lia). obind. rewrite Nat2Z.id.
  destruct (squash_trailing_slash_spec _ _ (holds_drop_at _ _ _ Hh)) as (p & -> & ED). obind.
  rewrite (holds_text_of _ _ (ed_holds _ _ _ _ ED)). obind.
  destruct (ceq (hd NUL (chop slash 1 x)) slash); cbn [negb]; [eauto|].
  pose proof (ed_shorter _ _ _ _ ED) as Hs. pose proof (holds_no_nul _ _ (ed_holds _ _ _ _ ED)) as Hn.
  pose proof (prepend_slash _ Hn ltac:(unfold zlen in *; lia)) as E.
  destruct (strob_open 10) as [b0|]; [|done]. cbn [mbind option_bind] in E |- *.
  destruct (strob_strcpy b0 _) as [b1|]; [|done]. cbn [mbind option_bind] in E |- *.
  destruct (strob_strcat b1 _) as [b2|]; [|done]. cbn [mbind option_bind] in E |- *.
  rewrite E. obind. eauto.
Qed.

Lemma create_version_id_spec m s :
  holds m 0 s -> zlen s + 1 < SMALL ->
  exists m', create_version_id m = Some (m', parse_verid s).
Proof.
  intros Hh Hb. unfold create_version_id, parse_verid. rewrite (proj2 (str_at_0_holds _ _) Hh). obind.
  set (id := take_while isalpha s). destruct (split_version_id id) as [[vq idc]|]; obind; [|eauto].
  set (r := drop_while isalpha s). set (op := take 3 (take_while is_rel_char r)).
  destruct ((zlen op =? 0) || (zlen op >? 2)); [eauto|].
  destruct ((determine_rel_op_code op <? 0) || _); [eauto|].
  assert (Hs : s = (id ++ op) ++ drop (length op) r).
  { rewrite <- (take_drop_while isalpha s) at 1. fold id r. rewrite <- app_assoc. f_equal.
    assert (op = take (length op) r) as E.
    { subst op. rewrite <- (take_drop_while is_rel_char r) at 3. set (w := take_while is_rel_char r).
      rewrite length_take. rewrite take_app_le by lia.
      destruct (decide (3 <= length w)%nat); [by rewrite Nat.min_l by lia|].
      rewrite Nat.min_r by lia. rewrite !take_ge by lia. done. }
    rewrite E at 1. by rewrite take_drop. }
  rewrite Hs in Hh. apply holds_suffix in Hh. cbn [Nat.add] in Hh.
  rewrite length_app in Hh.
  destruct (store_value_spec idc m _ _ Hh) as (m' & E).
  { rewrite Hs, zlen_app in Hb. pose proof (zlen_nonneg (id ++ op)). lia. }
  exists m'. replace (zlen id + zlen op) with (Z.of_nat (length id + length op)) by (unfold zlen; lia).
  rewrite E. done.
Qed.
End Create.

(** ** The grammar *)

(** The operators of the revision, and of every other id. *)
Definition revision_ops : list (bytes * Z) :=
  [(L "<", SWVERID_CMP_LT); (L "<=", SWVERID_CMP_LTE); (L "==", SWVERID_CMP_EQ);
   (L ">=", SWVERID_CMP_GTE); (L ">", SWVERID_CMP_GT)].
Definition ops_of (c : ascii) : list (bytes * Z) :=
  if ceq c "r"%char then revision_ops else [(L "=", SWVERID_CMP_EQ2)].

(** The first character of the value does not extend the operator. *)
Definition no_op_start (x : bytes) : Prop := forall d r, x = d :: r -> is_rel_char d = false.

(** qualifier, id, operator, value *)
Inductive version_id_text : bytes -> VER_ID -> Prop :=
| vid_text q c op code x :
    q = [] \/ (exists k, q = [k] /\ k ∈ SWVERID_QUALIFIER) -> c ∈ SWVERID_VERIDS ->
    (op, code) ∈ ops_of c -> no_op_start x ->
    version_id_text (q ++ [c] ++ op ++ x)
      (mkVER_ID (q ++ [c]) [c] q op code (Some (verid_value [c] x))).

Lemma span_app p a b :
  Forall (fun c => p c = true) a -> (forall d r, b = d :: r -> p d = false) ->
  take_while p (a ++ b) = a /\ drop_while p (a ++ b) = b.
Proof.
  intros Ha Hb. induction Ha as [|c a Hc Ha [IH1 IH2]]; cbn.
  - destruct b as [|d r]; [done|]. cbn. by rewrite (Hb d r).
  - by rewrite Hc, IH1, IH2.
Qed.

Lemma span_nil p s : drop_while p s = s \/ take_while p s <> [].
Proof. destruct s as [|c s]; [by left|]. cbn. destruct (p c); [by right|by left]. Qed.

Lemma rel_chars_no_nul op : Forall (fun c => is_rel_char c = true) op -> no_nul op.
Proof. intros HF Hin. rewrite Forall_forall in HF. by apply HF in Hin. Qed.

Lemma determine_rel_op op :
  Forall (fun c => is_rel_char c = true) op -> 0 <= determine_rel_op_code op ->
  (op, determine_rel_op_code op) ∈ revision_ops \/ (op = L "=" /\ determine_rel_op_code op = SWVERID_CMP_EQ2).
Proof.
  intros HF. pose proof (rel_chars_no_nul _ HF) as Hn.
  unfold determine_rel_op_code, rel_op_array. cbn [rel_op_index].
  assert (Hc : forall s, no_nul s -> (strcmp s op =? 0) = true -> op = s).
  { intros s Hs E. zbool. symmetry. by apply strcmp_eq. }
  repeat match goal with
  | |- context [strcmp ?s op =? 0] =>
      let E := fresh "E" in destruct (strcmp s op =? 0) eqn:E;
      [apply Hc in E; [subst op; intros _; cbn|by apply no_nul_compute]|]
  end; try (by right); try (left; unfold revision_ops; set_solver); by inversion HF.
Qed.

Lemma ops_of_spec c op code :
  (op, code) ∈ ops_of c ->
  Forall (fun d => is_rel_char d = true) op /\ 0 < zlen op <= 2 /\ code = determine_rel_op_code op
  /\ 0 <= code /\ rel_op_permitted [c] code = true.
Proof.
  unfold ops_of, revision_ops, rel_op_permitted. cbn [hd].
  destruct (ceq c "r"); rewrite ?elem_of_cons, elem_of_nil; intros HE;
    repeat match goal with H : _ \/ _ |- _ => destruct H end; try done;
    match goal with H : (_, _) = (_, _) |- _ => injection H as -> -> end;
    (split; [by repeat constructor|done]).
Qed.

Lemma strpbrk_single c acc : is_Some (strpbrk [c] acc) <-> c ∈ acc.
Proof.
  unfold strpbrk. cbn. destruct (mem_char c acc) eqn:E.
  - apply mem_char_In in E. split; eauto.
  - split; [by intros [? ?]|]. intros Hin. by apply mem_char_In in Hin; rewrite Hin in E.
Qed.

Lemma split_version_id_spec id q c :
  split_version_id id = Some (q, c) <->
  exists k, c = [k] /\ id = q ++ [k] /\ k ∈ SWVERID_VERIDS
    /\ (q = [] \/ (exists k, q = [k] /\ k ∈ SWVERID_QUALIFIER)).
Proof.
  split.
  - destruct id as [|k [|k2 [|? ?]]]; cbn [split_version_id]; try done; intros E.
    + destruct (strpbrk [k] SWVERID_VERIDS) eqn:E1; [|done]. cbn [mbind option_bind] in E. injection E as <- <-.
      exists k. repeat split; try done; [apply strpbrk_single; by rewrite E1|by left].
    + destruct (strpbrk [k] SWVERID_QUALIFIER) eqn:E1; [|done]. cbn [mbind option_bind] in E.
      destruct (strpbrk [k2] SWVERID_VERIDS) eqn:E2; [|done]. cbn [mbind option_bind] in E. injection E as <- <-.
      exists k2. repeat split; try done; [apply strpbrk_single; by rewrite E2|right].
      exists k. split; [done|]. apply strpbrk_single; by rewrite E1.
  - intros (k & -> & -> & Hk & [->|(k2 & -> & Hq)]); cbn [app split_version_id].
    + apply strpbrk_single in Hk as [i Hk]. by rewrite Hk.
    + apply strpbrk_single in Hk as [i Hk]. apply strpbrk_single in Hq as [j Hq]. by rewrite Hq, Hk.
Qed.

Lemma id_alpha q k :
  k ∈ SWVERID_VERIDS -> q = [] \/ (exists k, q = [k] /\ k ∈ SWVERID_QUALIFIER) ->
  Forall (fun c => isalpha c = true) (q ++ [k]).
Proof.
  assert (Hall : forall s c, forallb isalpha s = true -> c ∈ s -> isalpha c = true).
  { intros s c Hs Hc. rewrite forallb_forall in Hs. apply Hs. by apply list_elem_of_In. }
  intros Hk%(Hall SWVERID_VERIDS _ eq_refl) [->|(k2 & -> & Hq%(Hall SWVERID_QUALIFIER _ eq_refl))];
    by repeat constructor.
Qed.

Lemma rel_char_not_alpha c : is_rel_char c = true -> isalpha c = false.
Proof.
  intros Hc. apply mem_char_In in Hc. revert Hc. unfold L. cbn.
  rewrite !elem_of_cons, elem_of_nil. intros HE.
  repeat match goal with H : _ \/ _ |- _ => destruct H as [->|] end; done.
Qed.

Lemma parse_verid_complete s v : version_id_text s v -> parse_verid s = Some v.
Proof.
  intros [q c op code x Hq Hc Hop Hx]. unfold parse_verid.
  destruct (ops_of_spec _ _ _ Hop) as (HF & Hz & Hcode & H0 & Hp).
  destruct (span_app isalpha (q ++ [c]) (op ++ x) (id_alpha _ _ Hc Hq)) as [E1 E2].
  { intros d r E. apply rel_char_not_alpha. destruct op as [|d' op]; [by destruct Hz as [Hz%Z.lt_gt _]|].
    injection E as <- <-. by apply Forall_cons in HF as [? _]. }
  rewrite <- app_assoc in E1, E2. rewrite E1, E2.
  assert (split_version_id (q ++ [c]) = Some (q, [c])) as -> by (apply split_version_id_spec; by exists c).
  obind. destruct (span_app is_rel_char op x HF Hx) as [-> _].
  rewrite take_ge by (unfold zlen in Hz; lia). ztest. rewrite <- Hcode, Hp. ztest. cbn [negb].
  by rewrite drop_app_length.
Qed.

Lemma parse_verid_sound s v : parse_verid s = Some v -> version_id_text s v.
Proof.
  unfold parse_verid. set (id := take_while isalpha s). set (r := drop_while isalpha s).
  destruct (split_version_id id) as [[q idc]|] eqn:Es; [|done]. obind.
  apply split_version_id_spec in Es as (c & -> & Eid & Hc & Hq).
  destruct ((zlen (take 3 (take_while is_rel_char r)) =? 0) || _) eqn:Ez; [done|].
  apply orb_false_iff in Ez as [Ez0 Ez2]. zbool.
  set (op := take_while is_rel_char r) in *.
  assert (take 3 op = op) as Eop.
  { apply take_ge. unfold zlen in Ez2. rewrite length_take in Ez2. lia. }
  rewrite Eop in *. pose proof (take_while_all is_rel_char r) as HF. fold op in HF.
  destruct ((determine_rel_op_code op <? 0) || _) eqn:Ep; [done|].
  apply orb_false_iff in Ep as [Ep0 Ep]. zbool. intros [= <-].
  rewrite <- (take_drop_while isalpha s). fold id r. rewrite Eid, <- (take_drop_while is_rel_char r).
  fold op. rewrite drop_app_length, <- app_assoc. constructor; [done|done| |].
  - unfold rel_op_permitted in Ep. cbn [hd] in Ep. unfold ops_of.
    destruct (ceq c "r"); destruct (determine_rel_op op HF ltac:(lia)) as [Hr|[-> Hr]].
    + done.
    + by rewrite Hr in Ep.
    + apply Z.eqb_eq in Ep. rewrite Ep in Hr. unfold revision_ops in Hr. set_solver.
    + rewrite Hr. apply list_elem_of_singleton. reflexivity.
  - intros d t E. by eapply drop_while_head.
Qed.

(** ** Printing *)

(** The texts with a separator in front of each, and between them. *)
Definition tails (sep : bytes) (ts : list bytes) : bytes := concat (map (fun t => sep ++ t) ts).
Definition join (sep : bytes) (ts : list bytes) : bytes :=
  match ts with [] => [] | t :: ts => t ++ tails sep ts end.

(** The text of one alternate. *)
Definition spec_text (tags : list bytes) (ids : list VER_ID) : bytes :=
  join dot tags ++ (let v := join comma (map ver_text ids) in if is_nil v then [] else comma ++ v).

(** The object holds these tags and version ids. *)
Definition holds_spec (o : SWVERID) (sp : list bytes * list VER_ID) : Prop :=
  rep (taglistM o) (fst sp) /\ ver_id_listM o = snd sp.

Definition chain_text (sps : list (list bytes * list VER_ID)) : bytes :=
  join (L "|") (map (fun sp => spec_text (fst sp) (snd sp)) sps).

Section Printing.
Context `{Malloc}.
Implicit Types (b : STROB) (t : bytes).

(** Appending [u] to the text of [b]. *)
Definition appends (b : STROB) (t u : bytes) (r : option STROB) : Prop :=
  exists b', r = Some b' /\ text b' (t ++ u).

Lemma strcat_appends b t u :
  text b t -> no_nul u -> zlen (t ++ u) < SMALL -> appends b t u (strob_strcat b u).
Proof.
  intros T Hn Hb. rewrite zlen_app in Hb.
  destruct (strob_strcat_spec b t u T Hn Hb) as (b' & E & T' & _). by exists b'.
Qed.

Lemma appends_bind b t u v r (f : STROB -> option STROB) :
  appends b t u r -> (forall b', text b' (t ++ u) -> appends b' (t ++ u) v (f b')) ->
  appends b t (u ++ v) (r ≫= f).
Proof.
  intros (b1 & -> & T1) Hf. cbn [mbind option_bind]. destruct (Hf b1 T1) as (b2 & E & T2).
  exists b2. split; [done|]. by rewrite app_assoc.
Qed.

Lemma appends_nil b t : text b t -> appends b t [] (Some b).
Proof. intros T. exists b. by rewrite app_nil_r. Qed.

Lemma zlen_prefix t u v : zlen (t ++ u ++ v) < SMALL -> zlen (t ++ u) < SMALL.
Proof. rewrite !zlen_app. pose proof (zlen_nonneg v). lia. Qed.

Ltac nn := rewrite ?no_nul_app in *; naive_solver.

Lemma strcat_value_appends b t v :
  text b t -> no_nul (text_or_nil v) -> zlen (t ++ text_or_nil v) < SMALL ->
  appends b t (text_or_nil v) (strcat_value b v).
Proof. destruct v; cbn; intros; [by apply strcat_appends|by apply appends_nil]. Qed.

Lemma cat_ver_id_appends b t v :
  text b t -> no_nul (ver_text v) -> zlen (t ++ ver_text v) < SMALL ->
  appends b t (ver_text v) (cat_ver_id b v).
Proof.
  intros T Hn Hb. unfold cat_ver_id, ver_text in *.
  apply no_nul_app in Hn as [N1 Hn]. apply no_nul_app in Hn as [N2 Hn]. apply no_nul_app in Hn as [N3 N4].
  eapply appends_bind; [apply strcat_appends; [done|done|by eapply zlen_prefix]|].
  intros b1 T1. rewrite app_assoc in Hb.
  eapply appends_bind; [apply strcat_appends; [done|done|by eapply zlen_prefix]|].
  intros b2 T2. rewrite app_assoc in Hb.
  eapply appends_bind; [apply strcat_appends; [done|done|by eapply zlen_prefix]|].
  intros b3 T3. rewrite app_assoc in Hb. by apply strcat_value_appends.
Qed.

Lemma print_tails ids : forall b t n,
  text b t -> 0 < n -> no_nul (tails comma (map ver_text ids)) ->
  zlen (t ++ tails comma (map ver_text ids)) < SMALL ->
  appends b t (tails comma (map ver_text ids)) (print_ver_id_loop ids b n).
Proof.
  induction ids as [|v ids IH]; cbn [map tails concat print_ver_id_loop]; intros b t n T Hn HN Hb;
    [by apply appends_nil|]. ztest. fold (tails comma (map ver_text ids)) in *.
  rewrite <- app_assoc in HN, Hb |- *.
  apply no_nul_app in HN as [N1 HN]. apply no_nul_app in HN as [N2 N3].
  eapply appends_bind; [apply strcat_appends; [done|done|by eapply zlen_prefix]|].
  intros b1 T1. rewrite app_assoc in Hb.
  eapply appends_bind; [apply cat_ver_id_appends; [done|done|by eapply zlen_prefix]|].
  intros b2 T2. rewrite app_assoc in Hb. apply IH; [done|lia|done|done].
Qed.

Lemma print_ver_id_spec ids b :
  wf b -> no_nul (join comma (map ver_text ids)) -> zlen (join comma (map ver_text ids)) < SMALL ->
  exists b', swverid_print_ver_id ids b = Some b' /\ text b' (join comma (map ver_text ids)).
Proof.
  intros W HN Hb. unfold swverid_print_ver_id.
  destruct (strob_strcpy_spec b [] W no_nul_nil ltac:(reflexivity)) as (b1 & -> & T1 & _). obind.
  change (appends b1 [] (join comma (map ver_text ids)) (print_ver_id_loop ids b1 0)).
  destruct ids as [|v ids]; cbn [map join print_ver_id_loop] in *; [by apply appends_nil|].
  change (0 =? 0) with true. cbn iota. cbn [mbind option_bind].
  apply no_nul_app in HN as [N1 N2].
  eapply appends_bind; [apply cat_ver_id_appends; [done|done|by eapply zlen_prefix]|].
  intros b2 T2. by apply print_tails.
Qed.

Lemma tag_at lob (ws ys : list bytes) : rep lob (ws ++ ys) -> cplob_val lob (zlen ws) = Some (hd_error ys).
Proof.
  intros R. pose proof (zlen_nonneg ws). pose proof (zlen_nonneg ys).
  rewrite (cplob_val_rep lob (ws ++ ys)) by (try done; rewrite zlen_app; lia). ztest.
  unfold zlen. rewrite Nat2Z.id, lookup_app_r, Nat.sub_diag by lia. by destruct ys.
Qed.

(** The tags from the index [i] on. *)
Lemma print_tags_spec lob xs ys : forall fuel ws b t,
  rep lob xs -> xs = ws ++ ys -> (length ys < fuel)%nat -> text b t ->
  let u := match ws with [] => join dot ys | _ => tails dot ys end in
  no_nul u -> zlen (t ++ u) < SMALL ->
  appends b t u (print_tags fuel lob b (zlen ws)).
Proof.
  induction ys as [|y ys IH]; intros fuel ws b t R Hx Hf T u HN Hb; (destruct fuel; [cbn in Hf; lia|]);
    cbn [print_tags]; subst xs; rewrite (tag_at _ _ _ R); cbn [hd_error mbind option_bind].
  - subst u. destruct ws; by apply appends_nil.
  - rewrite <- (zlen_snoc ws y).
    assert (HI : forall b' t', text b' t' -> no_nul (tails dot ys) -> zlen (t' ++ tails dot ys) < SMALL ->
      appends b' t' (tails dot ys) (print_tags fuel lob b' (zlen (ws ++ [y])))).
    { intros b' t' T'. specialize (IH fuel (ws ++ [y]) b' t' R). destruct (ws ++ [y]) eqn:E; [by destruct ws|].
      rewrite <- E in *. apply IH; [by rewrite <- app_assoc|cbn in Hf; lia|done]. }
    clear IH. destruct ws as [|w ws]; subst u; cbn [join tails map concat] in *.
    + change (zlen ([] ++ [y]) >? 1) with false. cbn iota. cbn [mbind option_bind]. apply no_nul_app in HN as [N1 N2].
      eapply appends_bind; [apply strcat_appends; [done|done|by eapply zlen_prefix]|].
      intros b1 T1. rewrite app_assoc in Hb. by apply HI.
    + fold (tails dot ys) in *. rewrite <- app_assoc in HN, Hb |- *.
      apply no_nul_app in HN as [N1 HN]. apply no_nul_app in HN as [N2 N3].
      assert ((zlen ((w :: ws) ++ [y]) >? 1) = true) as ->.
      { apply Z.gtb_lt. rewrite zlen_snoc, zlen_cons. pose proof (zlen_nonneg ws). lia. }
      eapply appends_bind; [apply strcat_appends; [done|done|by eapply zlen_prefix]|].
      intros b1 T1. rewrite app_assoc in Hb.
      eapply appends_bind; [apply strcat_appends; [done|done|by eapply zlen_prefix]|].
      intros b2 T2. rewrite app_assoc in Hb. by apply HI.
Qed.
Lemma rep_fuel (lob : CPLOB bytes) xs : rep lob xs -> (length xs < taglist_fuel lob)%nat.
Proof.
  unfold taglist_fuel. intros [[W Hu Hr _ _]|[_ ->]]; [|cbn; lia]. unfold sized, zlen in *. lia.
Qed.

Lemma i_print_spec o tags ids b t :
  holds_spec o (tags, ids) -> text b t -> no_nul (spec_text tags ids) ->
  zlen (t ++ spec_text tags ids) < SMALL ->
  appends b t (spec_text tags ids) (swverid_i_print o b).
Proof.
  intros [R Hids] T HN Hb. cbn [fst snd] in R, Hids. unfold swverid_i_print, spec_text in *.
  destruct (strob_open_spec 32) as (ver & -> & Tv & _); [reflexivity|]. cbn [mbind option_bind].
  apply no_nul_app in HN as [N1 N2].
  pose proof (zlen_nonneg t). pose proof (zlen_nonneg (join dot tags)).
  eapply appends_bind.
  { apply (print_tags_spec _ tags tags _ []); [done|done|by apply rep_fuel|done|done|].
    by eapply zlen_prefix. }
  intros b1 T1. rewrite Hids. set (v := join comma (map ver_text ids)) in *. rewrite !zlen_app in Hb.
  assert (no_nul v /\ zlen v < SMALL) as [Nv Bv].
  { destruct v; cbn [is_nil] in *; [done|]. apply no_nul_app in N2 as [_ N2]. split; [done|].
    rewrite zlen_app in Hb. change (zlen comma) with 1 in Hb. lia. }
  destruct (print_ver_id_spec ids ver (text_wf _ _ Tv) Nv Bv) as (ver' & -> & Tv').
  cbn [mbind option_bind]. fold v in Tv'. rewrite (text_strlen _ _ Tv'). cbn [mbind option_bind].
  destruct v as [|c v'] eqn:Ev; cbn [is_nil] in *; [by apply appends_nil|].
  assert ((zlen (c :: v') >? 0) = true) as ->.
  { apply Z.gtb_lt. rewrite zlen_cons. pose proof (zlen_nonneg v'). lia. }
  rewrite zlen_app in Hb. change (zlen comma) with 1 in Hb. pose proof (zlen_nonneg (c :: v')).
  eapply appends_bind.
  { apply strcat_appends; [done|by apply no_nul_compute|rewrite !zlen_app; change (zlen comma) with 1; lia]. }
  intros b2 T2. rewrite (text_str _ _ Tv'). cbn [mbind option_bind].
  apply strcat_appends; [done|done|]. rewrite !zlen_app. change (zlen comma) with 1. lia.
Qed.

Lemma print_alternates_spec sps : forall os b t,
  Forall2 holds_spec os sps -> text b t ->
  let u := tails (L "|") (map (fun sp => spec_text (fst sp) (snd sp)) sps) in
  no_nul u -> zlen (t ++ u) < SMALL -> appends b t u (print_alternates os b).
Proof.
  induction sps as [|[tags ids] sps IH]; intros os b t HF T u HN Hb; inversion HF; subst;
    cbn [print_alternates]; [by apply appends_nil|]. subst u. cbn [map tails concat fst snd] in *.
  fold (tails (L "|") (map (fun sp => spec_text (fst sp) (snd sp)) sps)) in *.
  rewrite <- app_assoc in HN, Hb |- *.
  apply no_nul_app in HN as [N1 HN]. apply no_nul_app in HN as [N2 N3].
  eapply appends_bind; [apply strcat_appends; [done|done|by eapply zlen_prefix]|].
  intros b1 T1. rewrite app_assoc in Hb.
  eapply appends_bind; [apply i_print_spec; [done|done|done|by eapply zlen_prefix]|].
  intros b2 T2. rewrite app_assoc in Hb. by apply IH.
Qed.

Lemma swverid_print_spec os sps b :
  sps <> [] -> Forall2 holds_spec os sps -> wf b -> no_nul (chain_text sps) -> zlen (chain_text sps) < SMALL ->
  exists b', swverid_print os b = Some b' /\ text b' (chain_text sps).
Proof.
  intros Hne HF W HN Hb. destruct sps as [|[tags ids] sps]; [done|]. inversion HF; subst.
  unfold swverid_print, chain_text in *. cbn [map join fst snd] in *.
  destruct (strob_strcpy_spec b [] W no_nul_nil ltac:(reflexivity)) as (b1 & -> & T1 & _).
  cbn [mbind option_bind]. apply no_nul_app in HN as [N1 N2].
  apply (appends_bind b1 []); [apply i_print_spec; [done|done|done|by eapply zlen_prefix]|].
  intros b2 T2. by apply print_alternates_spec.
Qed.
End Printing.

(** ** Parsing *)

(** The version ids of a list of tokens; "*" stands for none. *)
Fixpoint parse_ids (ts : list bytes) : option (list VER_ID) :=
  match ts with
  | [] => Some []
  | t :: ts => if strcmp t (L "*") =? 0 then parse_ids ts
               else v ← parse_verid t; vs ← parse_ids ts; Some (v :: vs)
  end.

(** One alternate: tags up to the first comma, unless it looks like a version id. *)
Definition parse_spec (s : bytes) : option (list bytes * list VER_ID) :=
  match tokens (delim_of comma) s with
  | [] => None
  | t :: ts =>
      match tokens (delim_of dot) t with
      | [] => None
      | tag :: tags =>
          match strpbrk tag RELOP_CHARS with
          | None => ids ← parse_ids ts; Some (tag :: tags, ids)
          | Some _ => ids ← parse_ids (t :: ts); Some ([L "*"], ids)
          end
      end
  end.

(** The alternates in order; every one has to parse. *)
Fixpoint parse_all (ts : list bytes) : option (list (list bytes * list VER_ID)) :=
  match ts with
  | [] => Some []
  | t :: ts => sp ← parse_spec t; sps ← parse_all ts; Some (sp :: sps)
  end.

Definition parse_chain (s : bytes) : option (list (list bytes * list VER_ID)) :=
  match tokens (delim_of alternate_delims) s with [] => None | ts => parse_all ts end.

(** A token: not empty, free of delimiters, and short. *)
Definition tokenish (p : ascii -> bool) (n : Z) (t : bytes) : Prop :=
  t <> [] /\ Forall (fun c => p c = false) t /\ no_nul t /\ zlen t <= n.

Lemma tokens_tokenish p s : no_nul s -> Forall (tokenish p (zlen s)) (tokens p s).
Proof.
  remember (length s) as n eqn:Hn. revert s Hn.
  induction n as [n IH] using lt_wf_ind. intros s -> HN.
  destruct (split_leading p s) as (ds & r & -> & Hd & [->|(c & r' & -> & Hc)]);
    rewrite tokens_skip_all by done; [constructor|]. apply no_nul_app in HN as [_ HN].
  rewrite zlen_app. pose proof (zlen_nonneg ds).
  destruct (find_index p (c :: r')) as [i|] eqn:E.
  - pose proof E as E'. apply find_index_Some in E as (d & Es & Hd' & Hf & Hi).
    apply find_index_pos in E'; [|done]. rewrite Es, tokens_delim by (done || by destruct i).
    rewrite Es in HN. apply no_nul_app in HN as [N1 N2]. apply no_nul_cons in N2 as [_ N2]. constructor.
    + split; [by destruct i|]. split; [done|]. split; [done|]. rewrite zlen_app.
      pose proof (zlen_nonneg (d :: drop (S i) (c :: r'))). lia.
    + eapply Forall_impl; [apply (IH (length (drop (S i) (c :: r')))); [|done|done]|].
      * rewrite length_app, length_drop. cbn [length]. lia.
      * intros t (? & ? & ? & ?). repeat split; try done. rewrite zlen_app, zlen_cons.
        pose proof (zlen_nonneg (take i (c :: r'))). lia.
  - apply find_index_None in E. rewrite tokens_free by done. constructor; [|constructor].
    split; [done|]. split; [done|]. split; [done|lia].
Qed.

Lemma tokenish_once p n t : tokenish p n t -> tokens p t = [t].
Proof. intros (Hne & HF & _). by apply tokens_free. Qed.

Lemma tokenish_nul p n t : tokenish p n t -> holds (t ++ [NUL]) 0 t.
Proof. intros (_ & _ & Hn & _). by eapply (holds_intro _ t []). Qed.

Section Parse.
Context `{Malloc}.
Implicit Types (o : SWVERID) (buf tmp : STROB).

(** Using the result of strob_strtok. *)
Lemma strtok_step delim buf p ts :
  strtok_result delim (Some (buf, p)) ts ->
  match ts with
  | [] => p = None
  | t :: ts => exists i, p = Some i /\ str_at (str_ buf) i = Some t /\ wf buf
               /\ strtok_result delim (strob_strtok buf TokNull delim) ts
  end.
Proof.
  destruct ts as [|t ts]; cbn [strtok_result].
  - by intros (b & [= -> ->]).
  - intros (b & i & r & [= -> ->] & Ht & Hs & Hr). exists i. split; [done|]. split; [done|].
    split; [apply Hs|]. rewrite <- Hr. apply (strtok_next_spec _ r delim Hs).
Qed.

Lemma strtok_result_Some delim r ts : strtok_result delim r ts -> exists buf p, r = Some (buf, p).
Proof. destruct ts; cbn; [intros (b & ->)|intros (b & i & ? & -> & _)]; eauto. Qed.

Lemma set_ver_ids_nil o : set_ver_ids (ver_id_listM o ++ []) o = o.
Proof. destruct o. unfold set_ver_ids. cbn. by rewrite app_nil_r. Qed.

Lemma parse_version_ids_string_spec o t n :
  tokenish (delim_of comma) n t -> n + 1 < SMALL ->
  parse_version_ids_string o t
  = Some (match parse_verid t with Some v => (swverid_add_verid o (Some v), 0) | None => (o, -1) end).
Proof.
  intros Ht Hb. pose proof Ht as (Hne & _ & Hn & Hz). unfold parse_version_ids_string.
  destruct (strob_open_spec 10) as (b0 & -> & T0 & _); [reflexivity|]. obind.
  pose proof (strtok_first_spec b0 t comma (text_wf _ _ T0) Hn ltac:(lia)) as HR.
  rewrite (tokenish_once _ _ _ Ht) in HR.
  destruct (strtok_result_Some _ _ _ HR) as (b1 & p & E). rewrite E in HR |- *. obind.
  apply strtok_step in HR as (i & -> & Hi & _ & HR). cbn [version_ids_loop]. rewrite Hi. obind.
  destruct (create_version_id_spec (t ++ [NUL]) t (tokenish_nul _ _ _ Ht) ltac:(lia)) as (m & ->). obind.
  destruct (parse_verid t) as [v|]; [|done].
  destruct (strtok_result_Some _ _ _ HR) as (b2 & q & E2). rewrite E2 in HR |- *. obind.
  apply strtok_step in HR as ->. destruct t; [done|reflexivity].
Qed.

Lemma verids_loop_spec n ts : forall fuel o tmp p,
  strtok_result comma (Some (tmp, p)) ts -> Forall (tokenish (delim_of comma) n) ts -> n + 1 < SMALL ->
  (length ts < fuel)%nat ->
  exists o' r, verids_loop fuel o tmp p = Some (o', r)
    /\ match parse_ids ts with
       | None => r = -1
       | Some vs => r = 0 /\ o' = set_ver_ids (ver_id_listM o ++ vs) o
       end.
Proof.
  induction ts as [|t ts IH]; intros fuel o tmp p HR HF Hb Hf; (destruct fuel as [|fuel]; [cbn in Hf; lia|]);
    apply strtok_step in HR; cbn [verids_loop parse_ids].
  - subst p. eexists _, _. split; [done|]. by rewrite set_ver_ids_nil.
  - destruct HR as (i & -> & Hi & _ & HR). apply Forall_cons in HF as [Ht HF]. rewrite Hi. obind.
    destruct (strtok_result_Some _ _ _ HR) as (b2 & q & E2). cbn [length] in Hf.
    destruct (strcmp t (L "*") =? 0).
    { obind. change (negb (0 =? 0)) with false. cbn iota. rewrite E2 in HR |- *. obind. apply IH; [done|done|done|lia]. }
    rewrite (parse_version_ids_string_spec o t n Ht Hb). obind.
    destruct (parse_verid t) as [v|]; obind; [|by eexists _, _].
    change (negb (0 =? 0)) with false. cbn iota. rewrite E2 in HR |- *. obind.
    destruct (IH fuel (swverid_add_verid o (Some v)) b2 q HR HF Hb ltac:(lia)) as (o' & r & -> & Hr).
    exists o', r. split; [done|]. destruct (parse_ids ts) as [vs|]; obind; [|done].
    destruct Hr as [-> ->]. split; [done|]. destruct o. unfold swverid_add_verid, set_ver_ids. cbn.
    by rewrite <- app_assoc.
Qed.

Lemma tag_loop_spec ts : forall fuel lob xs buf p,
  strtok_result dot (Some (buf, p)) ts -> rep lob xs -> (length ts < fuel)%nat ->
  exists lob', tag_loop fuel lob buf p = Some lob' /\ rep lob' (xs ++ ts).
Proof.
  induction ts as [|t ts IH]; intros fuel lob xs buf p HR Hrep Hf; (destruct fuel as [|fuel]; [cbn in Hf; lia|]);
    apply strtok_step in HR; cbn [tag_loop].
  - subst p. exists lob. by rewrite app_nil_r.
  - destruct HR as (i & -> & Hi & _ & HR). rewrite Hi. obind. cbn [length] in Hf.
    destruct (cplob_add_nta_rep lob xs t Hrep) as (lob1 & -> & Hrep1). obind.
    destruct (strtok_result_Some _ _ _ HR) as (b2 & q & E2). rewrite E2 in HR |- *. obind.
    destruct (IH fuel lob1 (xs ++ [t]) b2 q HR Hrep1 ltac:(lia)) as (lob' & -> & Hrep').
    exists lob'. split; [done|]. by rewrite <- app_assoc in Hrep'.
Qed.

(** The first call of strob_strtok on the token at [i]. *)
Lemma strtok_at_spec buf m i t delim :
  str_at m i = Some t -> wf buf -> no_nul t -> zlen t < SMALL ->
  exists b p, strtok_at buf m (Some i) delim = Some (b, p)
    /\ strtok_result delim (Some (b, p)) (tokens (delim_of delim) t).
Proof.
  intros Hi W Hn Hb. unfold strtok_at. rewrite Hi. obind.
  pose proof (strtok_first_spec buf t delim W Hn Hb) as HR.
  destruct (strtok_result_Some _ _ _ HR) as (b & p & E). exists b, p. rewrite <- E. done.
Qed.

Lemma tokens_star s :
  tokens (delim_of comma) (L "*," ++ s) = L "*" :: tokens (delim_of comma) s.
Proof. by apply (tokens_delim (delim_of comma) (L "*") ","%char s); [|repeat constructor|]. Qed.

(** first_tag: the buffers hold the remaining comma and dot tokens. *)
Lemma first_tag_spec tmp tmp2 source i tag tags ts :
  no_nul source -> zlen source + 3 < SMALL -> wf tmp -> wf tmp2 ->
  str_at (str_ tmp2) i = Some tag ->
  strtok_result comma (strob_strtok tmp TokNull comma) ts ->
  strtok_result dot (Some (tmp2, Some i)) (tag :: tags) ->
  exists tmp' tmp2' p, first_tag tmp tmp2 source i = Some (tmp', tmp2', p)
    /\ match strpbrk tag RELOP_CHARS with
       | None => strtok_result comma (strob_strtok tmp' TokNull comma) ts
                 /\ strtok_result dot (Some (tmp2', p)) (tag :: tags)
       | Some _ => strtok_result comma (strob_strtok tmp' TokNull comma) (tokens (delim_of comma) source)
                   /\ strtok_result dot (Some (tmp2', p)) [L "*"]
       end.
Proof.
  intros Hn Hb W W2 Hi HR HR2. pose proof (zlen_nonneg source). unfold first_tag. rewrite Hi. obind.
  destruct (strpbrk tag RELOP_CHARS) as [k|]; [|by eexists _, _, _].
  destruct (strob_strcpy_spec tmp2 (L "*") W2) as (b1 & -> & T1 & _); [by apply no_nul_compute|done|]. obind.
  destruct (strob_strcat_spec b1 _ comma T1) as (b2 & -> & T2 & _); [by apply no_nul_compute|done|]. obind.
  destruct (strob_strcat_spec b2 _ source T2) as (b3 & -> & T3 & _); [done|change (zlen (L "*" ++ comma)) with 2; lia|].
  obind. rewrite (text_str _ _ T3). obind.
  change ((L "*" ++ comma) ++ source) with (L "*," ++ source) in *.
  pose proof (strtok_first_spec tmp (L "*," ++ source) comma W (text_no_nul _ _ T3)) as HR3.
  rewrite tokens_star in HR3. specialize (HR3 ltac:(rewrite zlen_app; change (zlen (L "*,")) with 2; lia)).
  destruct (strtok_result_Some _ _ _ HR3) as (b4 & q & E4). rewrite E4 in HR3 |- *. obind.
  apply strtok_step in HR3 as (j & -> & Hj & W4 & HR3).
  destruct (strtok_at_spec b3 _ j (L "*") dot Hj (text_wf _ _ T3)) as (b5 & r & -> & HR5);
    [by apply no_nul_compute|done|]. obind. by exists b4, b5, r.
Qed.

Lemma parse_swspec_spec o source :
  source_copyM o = Some source -> no_nul source -> zlen source + 3 < SMALL ->
  sized (taglistM o) -> 1 <= nlen (taglistM o) ->
  exists o' r, parse_swspec_string o = Some (o', r)
    /\ match parse_spec source with
       | None => r < 0
       | Some (tags, ids) => r = 0 /\ exists lob, rep lob tags
           /\ o' = set_ver_ids (ver_id_listM o ++ ids) (set_taglist lob o)
       end.
Proof.
  intros Hs Hn Hb W1 W2. unfold parse_swspec_string. rewrite Hs.
  destruct source as [|c0 s0] eqn:Esrc; [by eexists _, _|]. rewrite <- Esrc in *. clear Esrc.
  destruct (strob_open_spec 20) as (tmp & -> & T1 & _); [reflexivity|]. obind.
  destruct (cplob_shallow_reset_spec _ W1 W2) as (lob & -> & HF). obind.
  pose proof (strtok_first_spec tmp source comma (text_wf _ _ T1) Hn ltac:(lia)) as HR.
  pose proof (tokens_tokenish (delim_of comma) source Hn) as HT.
  pose proof (tokens_length (delim_of comma) source) as HL. unfold parse_spec.
  destruct (strtok_result_Some _ _ _ HR) as (b1 & p & E1). rewrite E1 in HR |- *. obind.
  apply strtok_step in HR. destruct (tokens (delim_of comma) source) as [|t ts] eqn:Etok.
  { subst p. by eexists _, _. }
  destruct HR as (i & -> & Hi & Wb1 & HR). apply Forall_cons in HT as [Ht HT].
  pose proof Ht as (_ & _ & Htn & Htz).
  destruct (strtok_at_spec tmp _ i t dot Hi (text_wf _ _ T1) Htn ltac:(lia)) as (b2 & q & -> & HR2). obind.
  pose proof (tokens_length (delim_of dot) t) as HL2.
  destruct (tokens (delim_of dot) t) as [|tag tags]; pose proof (strtok_step _ _ _ _ HR2) as HS;
    cbn [strtok_result] in HS.
  { subst q. by eexists _, _. }
  destruct HS as (j & -> & Hj & Wb2 & _).
  destruct (first_tag_spec b1 b2 source j tag tags ts Hn Hb Wb1 Wb2 Hj HR HR2) as (tmp' & tmp2' & p' & -> & HP).
  obind. set (n := zlen source) in *. cbn [length] in HL, HL2.
  assert (exists tags' ts', strtok_result comma (strob_strtok tmp' TokNull comma) ts'
    /\ strtok_result dot (Some (tmp2', p')) tags' /\ Forall (tokenish (delim_of comma) n) ts'
    /\ (length ts' < S (length source))%nat /\ (length tags' < S (length source))%nat
    /\ match strpbrk tag RELOP_CHARS with
       | None => ids ← parse_ids ts; Some (tag :: tags, ids)
       | Some _ => ids ← parse_ids (t :: ts); Some ([L "*"], ids)
       end = (ids ← parse_ids ts'; Some (tags', ids))) as (tags' & ts' & HR3 & HR4 & HT' & Hf1 & Hf2 & ->).
  { rewrite Etok in HP. unfold zlen in Htz. destruct (strpbrk tag RELOP_CHARS), HP as [HP1 HP2].
    - exists [L "*"], (t :: ts). repeat (split; try done); [by constructor|cbn; lia|cbn; lia].
    - exists (tag :: tags), ts. repeat (split; try done); cbn; subst n; unfold zlen in *; lia. }
  destruct (tag_loop_spec tags' (S (length source)) lob [] tmp2' p' HR4) as (lob' & -> & Hrep);
    [right; by split|done|]. obind.
  destruct (strtok_result_Some _ _ _ HR3) as (b3 & r & E3). rewrite E3 in HR3 |- *. obind.
  set (o1 := set_taglist lob' (set_taglist lob o)).
  destruct (verids_loop_spec n ts' (S (length source)) o1 b3 r HR3 HT') as (o' & res & -> & Hres);
    [subst n; lia|done|].
  eexists _, _. split; [done|]. destruct (parse_ids ts') as [ids|]; obind; [|lia].
  destruct Hres as [-> ->]. split; [done|]. exists lob'. split; [done|]. by destruct o.
Qed.

(** What swverid_i_open makes of a keyword and a string, beside the tags and ids. *)
Definition opened_as (kw : option bytes) (s : bytes) (o : SWVERID) : Prop :=
  object_nameM o = text_or_nil kw /\ source_copyM o = Some s /\ catalogM o = []
  /\ use_path_compareM o = 0 /\ namespaceM o = classify_namespace kw
  /\ comparison_codeM o = SWVERID_CMP_EQ /\ swutsM o = swuts_create.

Lemma i_open_spec kw s :
  no_nul s -> zlen s + 3 < SMALL ->
  exists r, swverid_i_open kw (Some s) = Some r
    /\ match parse_spec s with
       | None => r = None
       | Some sp => exists o, r = Some o /\ holds_spec o sp /\ opened_as kw s o
       end.
Proof.
  intros Hn Hb. unfold swverid_i_open.
  destruct (@cplob_open_spec bytes 3) as (lob & -> & HF). obind.
  destruct (cplob_add_nta_fresh lob None HF) as (lob1 & -> & HN). obind.
  match goal with |- context [parse_swspec_string ?x] => set (o := x) end.
  destruct (rep_sized (taglistM o) [] ltac:(by left)) as [W1 W2].
  destruct (parse_swspec_spec o s eq_refl Hn Hb W1 W2) as (o' & r & -> & Hr). obind.
  destruct (parse_spec s) as [[tags ids]|]; [|ztest; by eexists].
  destruct Hr as (-> & lob' & Hrep & ->). eexists. split; [done|]. by eexists.
Qed.

Lemma open_loop_spec n kw ts : forall fuel buf p,
  strtok_result alternate_delims (Some (buf, p)) ts ->
  Forall (tokenish (delim_of alternate_delims) n) ts -> n + 3 < SMALL -> (length ts < fuel)%nat ->
  exists r, open_loop fuel kw buf p = Some r
    /\ match parse_all ts with
       | None => r = None
       | Some sps => exists chain, r = Some chain /\ Forall2 holds_spec chain sps
                     /\ Forall2 (fun o t => opened_as kw t o) chain ts
       end.
Proof.
  induction ts as [|t ts IH]; intros fuel buf p HR HF Hb Hf; (destruct fuel as [|fuel]; [cbn in Hf; lia|]);
    apply strtok_step in HR; cbn [open_loop parse_all].
  - subst p. eexists. split; [done|]. exists []. by repeat split.
  - destruct HR as (i & -> & Hi & _ & HR). apply Forall_cons in HF as [Ht HF]. rewrite Hi. obind.
    destruct Ht as (_ & _ & Hn & Hz). cbn [length] in Hf.
    destruct (i_open_spec kw t Hn ltac:(lia)) as (r & -> & Hr). obind.
    destruct (parse_spec t) as [sp|]; obind; [|subst r; by eexists].
    destruct Hr as (o & -> & Ho & Hop).
    destruct (strtok_result_Some _ _ _ HR) as (b2 & q & E2). rewrite E2 in HR |- *. obind.
    destruct (IH fuel b2 q HR HF Hb ltac:(lia)) as (r & -> & Hr). obind. eexists. split; [done|].
    destruct (parse_all ts) as [sps|]; obind; [|by subst r].
    destruct Hr as (chain & -> & H1 & H2). exists (o :: chain). split; [done|].
    split; by constructor.
Qed.

(** The number an alternation group gets. *)
Definition group_uuid (u : Z) : Z := Z.max u 1.

Lemma swverid_open_spec u kw s :
  no_nul s -> zlen s + 3 < SMALL -> 0 <= u < INT_MAX - 1 ->
  exists r u', swverid_open u kw (Some s) = Some (r, u')
    /\ match parse_chain s with
       | None => r = None /\ u' = u
       | Some sps => exists chain, r = Some chain /\ Forall2 holds_spec chain sps
           /\ Forall2 (fun o t => opened_as kw t o) chain (tokens (delim_of alternate_delims) s)
           /\ Forall (fun o => alter_uuidM o = group_uuid u) chain /\ u' = group_uuid u + 1
       end.
Proof.
  intros Hn Hb Hu. unfold swverid_open, parse_chain, group_uuid.
  destruct (strob_open_spec 32) as (tmp & -> & T & _); [reflexivity|]. obind.
  pose proof (strtok_first_spec tmp s alternate_delims (text_wf _ _ T) Hn ltac:(lia)) as HR.
  pose proof (tokens_tokenish (delim_of alternate_delims) s Hn) as HT.
  pose proof (tokens_length (delim_of alternate_delims) s) as HL.
  destruct (strtok_result_Some _ _ _ HR) as (b1 & p & E1). rewrite E1 in HR |- *. obind.
  destruct (open_loop_spec _ kw _ (S (length s)) b1 p HR HT Hb ltac:(lia)) as (r & -> & Hr). obind.
  destruct (tokens (delim_of alternate_delims) s) as [|t ts] eqn:Et.
  { destruct Hr as (chain & -> & H1 & H2). inversion H2. by eexists _, _. }
  destruct (parse_all (t :: ts)) as [sps|]; [|subst r; by eexists _, _].
  destruct Hr as (chain & -> & H1 & H2). destruct chain as [|o chain]; [by inversion H2|].
  assert (exists v, (if u =? 0 then next_uuid u else Some u) = Some v /\ v = Z.max u 1) as (v & -> & Hv).
  { unfold next_uuid, INT_MAX in *. destruct (u =? 0) eqn:E; zbool; [|exists u; split; [done|lia]].
    subst u. by exists 1. }
  obind. unfold next_uuid. unfold INT_MAX in *. ztest. obind. eexists _, _. split; [done|].
  exists (map (set_uuid v) (o :: chain)). split; [done|]. rewrite <- Hv.
  split; [|split; [|split; [|done]]].
  - apply Forall2_fmap_l. eapply Forall2_impl; [exact H1|]. by intros ? ? [? ?].
  - apply Forall2_fmap_l. eapply Forall2_impl; [exact H2|]. intros ? ? HO. exact HO.
  - apply Forall_fmap, Forall_forall. by intros.
Qed.
End Parse.

(** ** Specs that survive printing *)

(** Free of the delimiters [ds] and of NUL. *)
Definition free_of (ds t : bytes) : Prop := Forall (fun c => mem_char c (NUL :: ds) = false) t.

Definition id_delims : bytes := comma ++ alternate_delims.
Definition tag_delims : bytes := dot ++ id_delims.

(** Tags that are not mistaken for version ids, version ids in normal form. *)
Record good_spec (sp : list bytes * list VER_ID) : Prop := {
  good_some : fst sp <> [];
  good_tags : Forall (fun t => t <> [] /\ free_of tag_delims t) (fst sp);
  good_first : forall t ts, fst sp = t :: ts -> strpbrk t RELOP_CHARS = None;
  good_ids : Forall (fun v => parse_verid (ver_text v) = Some v /\ free_of id_delims (ver_text v)) (snd sp);
}.

Lemma free_of_sub ds es t : (forall c, c ∈ es -> c ∈ ds) -> free_of ds t -> free_of es t.
Proof.
  intros Hs Ht. eapply Forall_impl; [exact Ht|]. intros c Hc. cbn beta in *.
  destruct (mem_char c (NUL :: es)) eqn:E; [|done]. apply mem_char_In in E.
  enough (mem_char c (NUL :: ds) = true) by congruence. apply mem_char_In.
  apply elem_of_cons in E as [->|E]; apply elem_of_cons; auto.
Qed.

Lemma free_of_app ds s t : free_of ds s -> free_of ds t -> free_of ds (s ++ t).
Proof. intros. by apply Forall_app. Qed.

Lemma free_of_no_nul ds t : free_of ds t -> no_nul t.
Proof. intros Ht Hin. unfold free_of in Ht. rewrite Forall_forall in Ht. by apply Ht in Hin. Qed.

Lemma free_of_delim ds t : free_of ds t -> Forall (fun c => delim_of ds c = false) t.
Proof.
  intros Ht. eapply Forall_impl; [exact Ht|]. intros c. cbn. by intros [_ ?]%orb_false_iff.
Qed.

Lemma free_of_join ds sep ts :
  free_of ds sep -> Forall (free_of ds) ts -> free_of ds (join sep ts).
Proof.
  intros Hs HF. destruct HF as [|t ts Ht HF]; [constructor|]. cbn [join]. apply free_of_app; [done|].
  induction HF; cbn [tails map concat]; [constructor|]. apply free_of_app; [by apply free_of_app|done].
Qed.

Lemma tokens_join p c ts :
  p c = true -> Forall (fun t => t <> [] /\ Forall (fun d => p d = false) t) ts ->
  tokens p (join [c] ts) = ts.
Proof.
  intros Hc HF. destruct HF as [|t ts [Hne Ht] HF]; [apply tokens_nil|]. cbn [join].
  revert t Hne Ht. induction HF as [|u us [Hu1 Hu2] HF IH]; intros t Hne Ht; cbn [tails map concat app].
  - rewrite app_nil_r. by apply tokens_free.
  - rewrite tokens_delim by done. f_equal. by apply IH.
Qed.

Lemma spec_text_join tags ids :
  Forall (fun v => ver_text v <> []) ids ->
  spec_text tags ids = join comma (join dot tags :: map ver_text ids).
Proof.
  intros HF. unfold spec_text. cbn [join]. f_equal. destruct HF as [|v ids Hv HF]; [done|].
  cbn [map join tails concat]. destruct (ver_text v) as [|c r]; [done|]. reflexivity.
Qed.

Lemma good_ids_text sp : good_spec sp -> Forall (fun v => ver_text v <> []) (snd sp).
Proof.
  intros G. eapply Forall_impl; [apply (good_ids _ G)|]. intros v [Hv _] E. by rewrite E in Hv.
Qed.

Lemma good_free sp : good_spec sp -> free_of alternate_delims (spec_text (fst sp) (snd sp)) /\
  spec_text (fst sp) (snd sp) <> [].
Proof.
  intros G. rewrite spec_text_join by (by apply good_ids_text). split.
  - apply free_of_join; [by repeat constructor|]. constructor.
    + apply free_of_join; [by repeat constructor|]. eapply Forall_impl; [apply (good_tags _ G)|].
      intros t [_ Ht]. eapply free_of_sub; [|exact Ht]. intros c. unfold tag_delims, id_delims. set_solver.
    + apply Forall_fmap. eapply Forall_impl; [apply (good_ids _ G)|].
      intros v [_ Ht]. eapply free_of_sub; [|exact Ht]. intros c. unfold id_delims. set_solver.
  - pose proof (good_some _ G). pose proof (good_tags _ G) as HF. destruct (fst sp) as [|t ts]; [done|].
    apply Forall_cons in HF as [[Ht _] _]. by destruct t.
Qed.

Lemma parse_ids_texts ids :
  Forall (fun v => parse_verid (ver_text v) = Some v /\ free_of id_delims (ver_text v)) ids ->
  parse_ids (map ver_text ids) = Some ids.
Proof.
  induction 1 as [|v ids [Hv Hf] HF IH]; [done|]. cbn [map parse_ids].
  destruct (strcmp (ver_text v) (L "*") =? 0) eqn:E.
  - zbool. apply strcmp_eq in E; [|by eapply free_of_no_nul|by apply no_nul_compute]. by rewrite E in Hv.
  - by rewrite Hv, IH.
Qed.

Lemma parse_spec_text sp : good_spec sp -> parse_spec (spec_text (fst sp) (snd sp)) = Some sp.
Proof.
  intros G. unfold parse_spec. rewrite spec_text_join by (by apply good_ids_text).
  pose proof (good_some _ G). pose proof (good_tags _ G) as HF. pose proof (good_first _ G) as Hfirst.
  rewrite (tokens_join (delim_of comma) ","%char); [|done|].
  - rewrite (tokens_join (delim_of dot) "."%char); [|done|].
    + destruct sp as [[|t ts] ids]; [done|]. cbn [fst snd] in *. rewrite (Hfirst t ts eq_refl).
      rewrite parse_ids_texts by apply (good_ids _ G). done.
    + eapply Forall_impl; [exact HF|]. intros t [? Ht]. split; [done|]. apply free_of_delim.
      eapply free_of_sub; [|exact Ht]. intros c. unfold tag_delims. set_solver.
  - constructor; [split|].
    + destruct (fst sp) as [|t ts]; [done|]. apply Forall_cons in HF as [[Ht _] _]. by destruct t.
    + apply free_of_delim, free_of_join; [by repeat constructor|]. eapply Forall_impl; [exact HF|].
      intros t [_ Ht]. eapply free_of_sub; [|exact Ht]. intros c. unfold tag_delims, id_delims. set_solver.
    + apply Forall_fmap. pose proof (good_ids _ G) as HI.
      eapply Forall_impl; [exact HI|]. intros v [Hv Ht]. split; [intros E; unfold compose in *; by rewrite E in Hv|].
      apply free_of_delim. eapply free_of_sub; [|exact Ht]. intros c. unfold id_delims. set_solver.
Qed.

Lemma parse_chain_text sps : sps <> [] -> Forall good_spec sps -> parse_chain (chain_text sps) = Some sps.
Proof.
  intros Hne HF. unfold parse_chain, chain_text.
  rewrite (tokens_join (delim_of alternate_delims) "|"%char); [|done|].
  - assert (parse_all (map (fun sp => spec_text (fst sp) (snd sp)) sps) = Some sps) as E.
    { clear Hne. induction HF as [|sp sps G HF IH]; [done|]. cbn [map parse_all].
      by rewrite parse_spec_text, IH. }
    destruct sps as [|sp sps]; [done|]. exact E.
  - apply Forall_fmap. eapply Forall_impl; [exact HF|]. intros sp G. destruct (good_free sp G).
    split; [done|]. by apply free_of_delim.
Qed.

Lemma chain_text_no_nul sps : Forall good_spec sps -> no_nul (chain_text sps).
Proof.
  intros HF. apply (free_of_no_nul []). apply free_of_join; [by repeat constructor|].
  apply Forall_fmap. eapply Forall_impl; [exact HF|]. intros sp G. destruct (good_free sp G) as [Hf _].
  eapply free_of_sub; [|exact Hf]. intros c. set_solver.
Qed.

(** ** Copying and replacing *)

Section Copying.
Context `{Malloc}.
Implicit Types (o : SWVERID) (v : VER_ID).

(** The text of the version id can be printed into a buffer and parsed. *)
Definition printable (v : VER_ID) : Prop := no_nul (ver_text v) /\ zlen (ver_text v) + 1 < SMALL.

Lemma copy_construct_spec v :
  printable v -> copy_construct_version_id v = Some (parse_verid (ver_text v)).
Proof.
  intros [HN Hb]. unfold copy_construct_version_id.
  destruct (strob_open_spec 12) as (b0 & -> & T0 & _); [reflexivity|]. obind.
  assert (appends b0 [] (ver_text v)
    (b ← strob_strcpy b0 (vqM v); b ← strob_strcat b (idM v); b ← strob_strcat b (rel_opM v);
     strcat_value b (valueM v))) as (b & E & T).
  { unfold ver_text in *. apply no_nul_app in HN as [N1 HN]. apply no_nul_app in HN as [N2 HN].
    apply no_nul_app in HN as [N3 N4]. rewrite !zlen_app in Hb.
    pose proof (zlen_nonneg (vqM v)). pose proof (zlen_nonneg (idM v)). pose proof (zlen_nonneg (rel_opM v)).
    pose proof (zlen_nonneg (text_or_nil (valueM v))).
    apply (appends_bind b0 []).
    { destruct (strob_strcpy_spec b0 (vqM v) (text_wf _ _ T0) N1) as (b1 & E1 & T1 & _); [lia|]. by exists b1. }
    intros b1 T1. eapply appends_bind; [apply strcat_appends; [done|done|rewrite !zlen_app, zlen_nil; lia]|].
    intros b2 T2. eapply appends_bind; [apply strcat_appends; [done|done|rewrite !zlen_app, zlen_nil; lia]|].
    intros b3 T3. apply strcat_value_appends; [done|done|rewrite !zlen_app, zlen_nil; lia]. }
  destruct (strob_strcpy b0 _) as [b1|]; [|done]. cbn [mbind option_bind] in E |- *.
  destruct (strob_strcat b1 _) as [b2|]; [|done]. cbn [mbind option_bind] in E |- *.
  destruct (strob_strcat b2 _) as [b3|]; [|done]. cbn [mbind option_bind] in E |- *.
  rewrite E. obind.
  destruct (create_version_id_spec (str_ b) (ver_text v) (text_holds _ _ T) Hb) as (m & ->). done.
Qed.

(** What is left of a list of version ids when each is printed and parsed. *)
Definition reparsed (vs : list VER_ID) : list VER_ID := omap (fun v => parse_verid (ver_text v)) vs.

Lemma ver_ids_copy_loop_spec vs : forall dst,
  Forall printable vs ->
  ver_ids_copy_loop vs dst = Some (set_ver_ids (ver_id_listM dst ++ reparsed vs) dst).
Proof.
  induction vs as [|v vs IH]; intros dst HF; cbn [ver_ids_copy_loop].
  - unfold reparsed. cbn. by rewrite set_ver_ids_nil.
  - apply Forall_cons in HF as [Hv HF]. rewrite (copy_construct_spec v Hv). obind.
    rewrite IH by done. unfold reparsed. cbn [omap list_omap]. destruct dst.
    unfold swverid_add_verid, set_ver_ids. cbn. rewrite <- app_assoc. by destruct (parse_verid _).
Qed.

Lemma copy_tags_loop_spec src ys : forall fuel ws lob,
  rep (taglistM src) (ws ++ ys) -> rep lob ws -> (length ys < fuel)%nat ->
  exists lob', copy_tags_loop fuel src lob (zlen ws) = Some lob' /\ rep lob' (ws ++ ys).
Proof.
  induction ys as [|y ys IH]; intros fuel ws lob R Rl Hf; (destruct fuel as [|fuel]; [cbn in Hf; lia|]);
    cbn [copy_tags_loop]; unfold swverid_get_tag; rewrite (tag_at _ _ _ R); cbn [hd_error mbind option_bind].
  - exists lob. by rewrite app_nil_r.
  - destruct (cplob_add_nta_rep lob ws y Rl) as (lob1 & -> & R1). obind. rewrite <- (zlen_snoc ws y).
    replace (ws ++ y :: ys) with ((ws ++ [y]) ++ ys) in R |- * by (by rewrite <- app_assoc).
    apply IH; [done|done|cbn in Hf; lia].
Qed.

Lemma swverid_copy_spec u src tags :
  rep (taglistM src) tags -> Forall printable (ver_id_listM src) -> 0 <= u < INT_MAX ->
  exists d, swverid_copy u src = Some (d, u + 1)
    /\ holds_spec d (tags, reparsed (ver_id_listM src))
    /\ object_nameM d = object_nameM src /\ source_copyM d = source_copyM src
    /\ catalogM d = catalogM src /\ use_path_compareM d = use_path_compareM src
    /\ namespaceM d = namespaceM src /\ comparison_codeM d = comparison_codeM src
    /\ swutsM d = swuts_create /\ alter_uuidM d = u.
Proof.
  intros R HF Hu. unfold swverid_copy, swverid_open, swverid_i_open.
  destruct (@cplob_open_spec bytes 3) as (lob & -> & HFr). obind.
  destruct (cplob_add_nta_fresh lob None HFr) as (lob1 & -> & HN). obind.
  unfold next_uuid. ztest. obind.
  destruct (@cplob_open_spec bytes 1) as (lob2 & -> & HFr2). obind.
  destruct (cplob_add_nta_fresh lob2 None HFr2) as (lob3 & -> & HN3). obind.
  destruct (copy_tags_loop_spec src tags (taglist_fuel (taglistM src)) [] lob3 R) as (lob4 & E4 & R4);
    [by left|by apply rep_fuel|]. change (zlen []) with 0 in E4. rewrite E4. obind.
  unfold ver_ids_copy. rewrite ver_ids_copy_loop_spec by done. obind.
  eexists. split; [done|]. split; [by split|]. repeat split.
Qed.

(** The letter is not that of [v]. *)
Definition other_letter (v x : VER_ID) : Prop :=
  get_ver_id_char_from_this x <> get_ver_id_char_from_this v.

Lemma replace_loop_skip o v dr pre post hp i :
  Forall (other_letter v) pre ->
  replace_verid_loop (pre ++ post) o v dr hp i
  = replace_verid_loop post o v dr (match pre with [] => hp | _ => true end) (i + length pre).
Proof.
  intros HF. revert hp i. induction HF as [|x pre Hx HF IH]; intros hp i.
  - by rewrite Nat.add_0_r.
  - cbn [app replace_verid_loop]. rewrite (proj2 (ceq_neq _ _) Hx), IH.
    cbn [length]. rewrite Nat.add_succ_r. by destruct pre.
Qed.

(** i_replace_verid when no version id has the letter, and when one has. *)
Lemma replace_absent o v dr :
  printable v -> Forall (other_letter v) (ver_id_listM o) ->
  i_replace_verid o v dr = Some (swverid_add_verid o (parse_verid (ver_text v))).
Proof.
  intros Hp HF. unfold i_replace_verid. rewrite <- (app_nil_r (ver_id_listM o)) at 1.
  rewrite replace_loop_skip by done. cbn [replace_verid_loop]. by rewrite copy_construct_spec.
Qed.

Lemma replace_present o v w pre x post :
  printable v -> parse_verid (ver_text v) = Some w -> ver_id_listM o = pre ++ x :: post ->
  Forall (other_letter v) pre -> get_ver_id_char_from_this x = get_ver_id_char_from_this v ->
  swverid_replace_verid o v
  = Some (set_ver_ids (match pre with [] => x :: post | _ => pre ++ w :: post end) o)
  /\ swverid_add_verid_if o v = Some o.
Proof.
  intros Hp Hw Ho HF Hx. unfold swverid_replace_verid, swverid_add_verid_if, i_replace_verid.
  rewrite Ho, !replace_loop_skip by done. cbn [replace_verid_loop].
  rewrite Hx, ceq_refl, copy_construct_spec, Hw by done. obind. split; [|done].
  destruct pre as [|y pre]; [by destruct o; cbn in *; subst|]. rewrite Ho. cbn [Nat.add].
  by rewrite insert_app_r_alt, Nat.sub_diag by lia.
Qed.
End Copying.

(** ** Comparing *)

(** What the six relations mean for a candidate that is older (-1), equal (0) or
    newer (1) than the target. *)
Definition relation_holds (req order : Z) : bool :=
  if req =? SWVERID_CMP_LT then order <? 0
  else if req =? SWVERID_CMP_LTE then order <=? 0
  else if (req =? SWVERID_CMP_EQ) || (req =? SWVERID_CMP_EQ2) then order =? 0
  else if req =? SWVERID_CMP_GTE then 0 <=? order
  else if req =? SWVERID_CMP_GT then 0 <? order
  else negb (order =? 0).

Definition order_code (order : Z) : Z :=
  if order =? 0 then SWVERID_CMP_EQ else if order <? 0 then SWVERID_CMP_LT else SWVERID_CMP_GT.

Lemma compare_relop_order req order :
  0 <= req <= 6 -> order = -1 \/ order = 0 \/ order = 1 ->
  compare_relop (order_code order) req = if relation_holds req order then 0 else 1.
Proof.
  intros Hr Ho. assert (req = 0 \/ req = 1 \/ req = 2 \/ req = 3 \/ req = 4 \/ req = 5 \/ req = 6) as Hq by lia.
  repeat destruct Hq as [->|Hq]; try subst req; destruct Ho as [->|[->| ->]]; reflexivity.
Qed.

(** ** Theorems *)

Section SwveridTheorems.
Context `{Malloc}.

(** create_version_id terminates on every string and accepts exactly the
    grammar of version ids: an optional qualifier b, p or f, one of the letters
    ravlqig, an operator (one of < <= == >= > for the revision, = for the
    others), and a value, which for a location is stored absolute and without
    one trailing slash. *)
Theorem create_version_id_grammar (m s : bytes) :
  holds m 0 s -> zlen s + 1 < SMALL ->
  exists m' r, create_version_id m = Some (m', r) /\ forall v, r = Some v <-> version_id_text s v.
Proof.
  intros Hh Hb. destruct (create_version_id_spec m s Hh Hb) as (m' & E). exists m', (parse_verid s).
  split; [done|]. intros v. split; [apply parse_verid_sound|apply parse_verid_complete].
Qed.

(** C13: swverid_open terminates on every string and implements the pure parser
    [parse_chain]: NULL when that rejects, otherwise the objects of the
    alternates in order, with their tags, version ids and sources, all carrying
    the same new group number. *)
Theorem swverid_open_parses u kw s :
  no_nul s -> zlen s + 3 < SMALL -> 0 <= u < INT_MAX - 1 ->
  exists r u', swverid_open u kw (Some s) = Some (r, u')
    /\ match parse_chain s with
       | None => r = None /\ u' = u
       | Some sps => exists chain, r = Some chain /\ Forall2 holds_spec chain sps
           /\ Forall2 (fun o t => opened_as kw t o) chain (tokens (delim_of alternate_delims) s)
           /\ Forall (fun o => alter_uuidM o = group_uuid u) chain /\ u' = group_uuid u + 1
       end.
Proof. apply swverid_open_spec. Qed.

(** C33: printing a software spec and opening the text gives objects with the
    same tags and version ids, for every chain of alternates whose tags and
    version ids hold no delimiters. *)
Theorem swverid_print_open_roundtrip u kw os sps b :
  sps <> [] -> Forall good_spec sps -> Forall2 holds_spec os sps -> wf b ->
  zlen (chain_text sps) + 3 < SMALL -> 0 <= u < INT_MAX - 1 ->
  exists b' s chain, swverid_print os b = Some b' /\ strob_str b' = Some s
    /\ swverid_open u kw (Some s) = Some (Some chain, group_uuid u + 1)
    /\ Forall2 holds_spec chain sps.
Proof.
  intros Hne HG HF W Hb Hu. pose proof (chain_text_no_nul sps HG) as Hn.
  destruct (swverid_print_spec os sps b Hne HF W Hn ltac:(lia)) as (b' & E & T).
  destruct (swverid_open_spec u kw (chain_text sps) Hn Hb Hu) as (r & u' & E2 & Hr).
  rewrite parse_chain_text in Hr by done. destruct Hr as (chain & -> & Hc & _ & _ & ->).
  exists b', (chain_text sps), chain. repeat split; try done. by apply text_str.
Qed.

(** swverid_copy copies the members, the tags and, of the version ids, what
    printing and parsing each of them leaves; alternates and system attributes
    are not copied.  Version ids in normal form are copied as they are. *)
Theorem swverid_copy_reparses u src tags :
  rep (taglistM src) tags -> Forall printable (ver_id_listM src) -> 0 <= u < INT_MAX ->
  exists d, swverid_copy u src = Some (d, u + 1)
    /\ holds_spec d (tags, reparsed (ver_id_listM src))
    /\ (object_nameM d, source_copyM d, catalogM d, use_path_compareM d, namespaceM d, comparison_codeM d)
       = (object_nameM src, source_copyM src, catalogM src, use_path_compareM src, namespaceM src,
          comparison_codeM src)
    /\ swutsM d = swuts_create /\ alter_uuidM d = u
    /\ (Forall (fun v => parse_verid (ver_text v) = Some v) (ver_id_listM src) ->
        ver_id_listM d = ver_id_listM src).
Proof.
  intros R HF Hu. destruct (swverid_copy_spec u src tags R HF Hu)
    as (d & E & Hd & E1 & E2 & E3 & E4 & E5 & E6 & E7 & E8).
  exists d. rewrite E1, E2, E3, E4, E5, E6. do 5 (split; [done|]). intros HG. destruct Hd as [_ ->]. cbn [snd].
  unfold reparsed. induction HG as [|v vs Hv _ IH]; [done|]. cbn. rewrite Hv. f_equal. apply IH.
  by apply Forall_cons in HF as [_ ?].
Qed.

(** swverid_replace_verid appends a version id whose letter is new and
    replaces the first one with its letter, unless that is the head of the list:
    then the new one is lost. *)
Theorem replace_verid_loses_head o v w pre x post :
  printable v -> parse_verid (ver_text v) = Some w -> Forall (other_letter v) pre ->
  (ver_id_listM o = pre -> swverid_replace_verid o v = Some (swverid_add_verid o (Some w)))
  /\ (ver_id_listM o = pre ++ x :: post -> get_ver_id_char_from_this x = get_ver_id_char_from_this v ->
      swverid_replace_verid o v
      = Some (match pre with [] => o | _ => set_ver_ids (pre ++ w :: post) o end)).
Proof.
  intros Hp Hw HF. split.
  - intros Ho. unfold swverid_replace_verid. by rewrite replace_absent, Hw by (done || by rewrite Ho).
  - intros Ho Hx. destruct (replace_present o v w pre x post Hp Hw Ho HF Hx) as [-> _].
    destruct pre; [|done]. f_equal. destruct o. cbn in *. by subst.
Qed.

(** compare_version_id on revisions answers the relation asked for, when the
    version comparison gives -1, 0 or 1; when it gives another value, which it
    does for alphabetic segments, the result is the error -1. *)
Theorem compare_version_id_revision (fnmatch : bytes -> bytes -> Z -> Z) (t c : VER_ID) a b req rc :
  get_ver_id_char_from_this c = "r"%char -> valueM t = Some a -> valueM c = Some b ->
  swlib_rpmvercmp a b = Some rc -> 0 <= req <= 6 ->
  compare_version_id fnmatch (Some t) (Some c) req
  = Some (if (-1 <=? rc) && (rc <=? 1)
          then (Some (set_rel_op_code (order_code (- rc)) c), if relation_holds req (- rc) then 0 else 1)
          else (Some c, -1)).
Proof.
  intros Hc Ha Hb E Hr. unfold compare_version_id. rewrite Hc, ceq_refl, Ha, Hb.
  cbn [swverid_i_rpmvercmp]. rewrite E. obind.
  destruct ((-1 <=? rc) && (rc <=? 1)) eqn:Ein.
  - zbool. rewrite <- compare_relop_order by lia.
    assert (rc = -1 \/ rc = 0 \/ rc = 1) as [->|[->| ->]] by lia; reflexivity.
  - ztest. assert (rc < -1 \/ 1 < rc) as Ho by (apply andb_false_iff in Ein as [Ein|Ein]; zbool; lia).
    by destruct (Z.eqb_spec rc 1), (Z.eqb_spec rc (-1)), (Z.eqb_spec rc 0); try lia.
Qed.

(** swverid_compare of two objects that are not files never says that
    specs match or differ: it answers NEQ for another kind of object, EQ for a
    target without a tag, and the error -1 otherwise, whatever the tags and
    version ids are. *)
Theorem swverid_compare_ignores_versions (fnmatch : bytes -> bytes -> Z -> Z) target candidate tags :
  rep (taglistM target) tags -> use_path_compareM target = 0 -> use_path_compareM candidate = 0 ->
  swverid_compare fnmatch target candidate
  = Some (Returns (target, candidate,
      if different_objects target candidate then SWVERID_CMP_NEQ
      else match tags with [] | [] :: _ => SWVERID_CMP_EQ | _ => -1 end)).
Proof.
  intros R H1 H2. unfold swverid_compare. destruct (different_objects target candidate); [done|].
  change 0 with (@zlen bytes []). rewrite (tag_at _ [] tags R). obind. rewrite H1, H2.
  by destruct tags as [|[|] tags].
Qed.
End SwveridTheorems.

Module Witness.
#[local] Instance zeros : Malloc := fun _ => NUL.

Definition revision_3 : VER_ID := mkVER_ID (L "r") (L "r") [] (L ">=") SWVERID_CMP_GTE (Some (L "3.0")).
Definition location_usr : VER_ID := mkVER_ID (L "l") (L "l") [] (L "=") SWVERID_CMP_EQ2 (Some (L "/usr")).

Lemma create_version_id_grammar_witness :
  exists m' r, create_version_id (L "l=usr/" ++ [NUL]) = Some (m', r)
    /\ forall v, r = Some v <-> version_id_text (L "l=usr/") v.
Proof.
  apply (create_version_id_grammar (L "l=usr/" ++ [NUL]) (L "l=usr/")); [|done].
  by apply (holds_intro _ _ []); [apply no_nul_compute|].
Defined.

Lemma swverid_open_parses_witness :
  parse_chain (L "bash.doc,r>=3.0|sh") = Some [([L "bash"; L "doc"], [revision_3]); ([L "sh"], [])]
  /\ exists r u', swverid_open 0 (Some (L "product")) (Some (L "bash.doc,r>=3.0|sh")) = Some (r, u')
    /\ match parse_chain (L "bash.doc,r>=3.0|sh") with
       | None => r = None /\ u' = 0
       | Some sps => exists chain, r = Some chain /\ Forall2 holds_spec chain sps
           /\ Forall2 (fun o t => opened_as (Some (L "product")) t o) chain
                (tokens (delim_of alternate_delims) (L "bash.doc,r>=3.0|sh"))
           /\ Forall (fun o => alter_uuidM o = group_uuid 0) chain /\ u' = group_uuid 0 + 1
       end.
Proof.
  split; [reflexivity|]. apply (swverid_open_parses 0 (Some (L "product")) (L "bash.doc,r>=3.0|sh"));
    [by apply no_nul_compute|done|done].
Defined.

(** An object with one tag and two version ids. *)
Definition bash : SWVERID :=
  mkSWVERID (L "product") None [] 0 (mkCPLOB [Some (L "bash"); None; None] 3 2) SWVERID_NS_TOP
    SWVERID_CMP_EQ [revision_3; location_usr] swuts_create 0.

Lemma bash_tags : rep (taglistM bash) [L "bash"].
Proof.
  left. split; [done|done|done| |done]. intros [|i] Hi; [done|cbn in Hi; lia].
Qed.

Lemma swverid_print_open_roundtrip_witness :
  exists b b' s chain, swverid_print [bash] b = Some b' /\ strob_str b' = Some s
    /\ swverid_open 7 (Some (L "product")) (Some s) = Some (Some chain, 8)
    /\ Forall2 holds_spec chain [([L "bash"], [revision_3; location_usr])].
Proof.
  destruct (strob_open_spec 4) as (b & _ & T & _); [reflexivity|]. exists b.
  apply (swverid_print_open_roundtrip 7 (Some (L "product")) [bash]
           [([L "bash"], [revision_3; location_usr])] b); [done| | |apply T|done|done].
  - repeat constructor; try done. by intros ? ? [= <- <-].
  - constructor; [split; [apply bash_tags|done]|constructor].
Defined.

Lemma swverid_copy_reparses_witness :
  exists d, swverid_copy 5 bash = Some (d, 6)
    /\ holds_spec d ([L "bash"], reparsed (ver_id_listM bash))
    /\ (object_nameM d, source_copyM d, catalogM d, use_path_compareM d, namespaceM d, comparison_codeM d)
       = (object_nameM bash, source_copyM bash, catalogM bash, use_path_compareM bash, namespaceM bash,
          comparison_codeM bash)
    /\ swutsM d = swuts_create /\ alter_uuidM d = 5
    /\ (Forall (fun v => parse_verid (ver_text v) = Some v) (ver_id_listM bash) ->
        ver_id_listM d = ver_id_listM bash).
Proof.
  apply (swverid_copy_reparses 5 bash [L "bash"]); [apply bash_tags| |done].
  repeat constructor; by apply no_nul_compute.
Defined.

Definition revision_4 : VER_ID := mkVER_ID (L "r") (L "r") [] (L ">") SWVERID_CMP_GT (Some (L "4")).

(** The head of the list is the revision: the new one is lost. *)
Lemma replace_verid_loses_head_witness :
  swverid_replace_verid bash revision_4 = Some bash.
Proof.
  refine (proj2 (replace_verid_loses_head bash revision_4 revision_4 [] revision_3 [location_usr] _ _ _)
            eq_refl eq_refl); [split; [by apply no_nul_compute|done]|done|constructor].
Defined.

(** A revision; alphabetic segments two letters apart. *)
Definition v (x : string) : VER_ID := mkVER_ID (L "r") (L "r") [] (L ">=") SWVERID_CMP_GTE (Some (L x)).

Lemma compare_version_id_revision_witness :
  compare_version_id (fun _ _ _ => 0) (Some (v "1.0a"%string)) (Some (v "1.0c"%string)) SWVERID_CMP_GTE
  = Some (Some (v "1.0c"%string), -1)
  /\ compare_version_id (fun _ _ _ => 0) (Some (v "1.9"%string)) (Some (v "1.10"%string)) SWVERID_CMP_GTE
  = Some (Some (set_rel_op_code SWVERID_CMP_GT (v "1.10"%string)), 0).
Proof.
  split.
  - apply (compare_version_id_revision (fun _ _ _ => 0) (v "1.0a"%string) (v "1.0c"%string)
             (L "1.0a") (L "1.0c") SWVERID_CMP_GTE (-2)); done.
  - apply (compare_version_id_revision (fun _ _ _ => 0) (v "1.9"%string) (v "1.10"%string)
             (L "1.9") (L "1.10") SWVERID_CMP_GTE (-1)); done.
Defined.

(** A spec that has nothing in common with the first one: the same answer. *)
Definition sh : SWVERID := set_ver_ids [] (set_taglist (mkCPLOB [Some (L "sh"); None; None] 3 2) bash).

Lemma swverid_compare_ignores_versions_witness :
  swverid_compare (fun _ _ _ => 0) bash bash = Some (Returns (bash, bash, -1))
  /\ swverid_compare (fun _ _ _ => 0) bash sh = Some (Returns (bash, sh, -1)).
Proof.
  split.
  - apply (swverid_compare_ignores_versions (fun _ _ _ => 0) bash bash [L "bash"]); [apply bash_tags|done|done].
  - apply (swverid_compare_ignores_versions (fun _ _ _ => 0) bash sh [L "bash"]); [apply bash_tags|done|done].
Defined.
End Witness.
