(* ===== verification/FileMode.v ===== *)
(** * Mode strings and file types (swsupplib/taru/filemode.c and the file type
      functions of swsupplib/taru/otar.c)

    The "drwxr-xr-x" text of a mode and the mode of such a text; the tar
    type flags and cpio type bits of a mode. *)

From S2P Require Import Prelude CString.

(** ** Mode bits *)

Definition S_IFMT : Z := 61440.     (* 0170000 *)
Definition S_ISUID : Z := 2048.
Definition S_ISGID : Z := 1024.
Definition S_ISVTX : Z := 512.
Definition S_IRUSR : Z := 256.
Definition S_IWUSR : Z := 128.
Definition S_IXUSR : Z := 64.
Definition S_IRGRP : Z := 32.
Definition S_IWGRP : Z := 16.
Definition S_IXGRP : Z := 8.
Definition S_IROTH : Z := 4.
Definition S_IWOTH : Z := 2.
Definition S_IXOTH : Z := 1.

(** The CP_IF* type bits, which are those of the system. *)
Definition CP_IFSOCK : Z := 49152.  (* 0140000 *)
Definition CP_IFLNK : Z := 40960.   (* 0120000 *)
Definition CP_IFREG : Z := 32768.   (* 0100000 *)
Definition CP_IFBLK : Z := 24576.   (* 0060000 *)
Definition CP_IFDIR : Z := 16384.   (* 0040000 *)
Definition CP_IFCHR : Z := 8192.    (* 0020000 *)
Definition CP_IFIFO : Z := 4096.    (* 0010000 *)

(** S_ISDIR (mode) and the like *)
Definition is_type (t mode : Z) : bool := Z.land mode S_IFMT =? t.

(** bits & mask, as a condition *)
Definition bit (bits mask : Z) : bool := negb (Z.land bits mask =? 0).

(** Conversion to unsigned short. *)
Definition to_ushort (z : Z) : Z := z mod 2 ^ 16.

(** ** The text of a mode: [str] is the caller's buffer *)

Definition ftypelet (bits : Z) : ascii :=
  if is_type CP_IFBLK bits then "b"
  else if is_type CP_IFCHR bits then "c"
  else if is_type CP_IFDIR bits then "d"
  else if is_type CP_IFREG bits then "-"
  else if is_type CP_IFIFO bits then "p"
  else if is_type CP_IFLNK bits then "l"
  else if is_type CP_IFSOCK bits then "s"
  else "?".

Definition rwx (bits : Z) (str : bytes) (chars : Z) : option bytes :=
  str ← mem_write str chars [if bit bits S_IRUSR then "r"%char else "-"%char];
  str ← mem_write str (chars + 1) [if bit bits S_IWUSR then "w"%char else "-"%char];
  mem_write str (chars + 2) [if bit bits S_IXUSR then "x"%char else "-"%char].

(** One of the three tests of setst. *)
Definition setst_at (bits mask : Z) (str : bytes) (i : Z) (upper lower : ascii) : option bytes :=
  if bit bits mask then
    c ← mem_read str i;
    mem_write str i [if negb (ceq c "x"%char) then upper else lower]
  else Some str.

Definition setst (bits : Z) (chars : bytes) : option bytes :=
  chars ← setst_at bits S_ISUID chars 3 "S" "s";
  chars ← setst_at bits S_ISGID chars 6 "S" "s";
  setst_at bits S_ISVTX chars 9 "T" "t".

Definition mode_string (mode : Z) (str : bytes) : option bytes :=
  str ← mem_write str 0 [ftypelet mode];
  str ← rwx (to_ushort (Z.shiftl (Z.land mode 448) 0)) str 1;
  str ← rwx (to_ushort (Z.shiftl (Z.land mode 56) 3)) str 4;
  str ← rwx (to_ushort (Z.shiftl (Z.land mode 7) 6)) str 7;
  setst mode str.

Definition swlib_filemodestring (mode : Z) (str : bytes) : option bytes :=
  mode_string (to_ushort mode) str.

(** ** The mode of a text *)

(** The masks of user, group and other. *)
Definition perm_masks (set : Z) : Z * Z * Z * Z * Z :=
  if set =? 0 then (S_IRUSR, S_IWUSR, S_IXUSR, S_ISUID, 0)
  else if set =? 1 then (S_IRGRP, S_IWGRP, S_IXGRP, S_ISGID, 0)
  else if set =? 2 then (S_IROTH, S_IWOTH, S_IXOTH, 0, S_ISVTX)
  else (0, 0, 0, 0, 0).

(** The mode, or [None] for p_error: the text ends too early. *)
Definition set_perms (fps : bytes) (set : Z) : option Z :=
  let '(m_r, m_w, m_x, m_s, m_t) := perm_masks set in
  match fps with
  | r_b :: w_b :: x_b :: _ =>
      let ret_mode := 0 in
      let ret_mode := if ceq r_b "r"%char then Z.lor ret_mode m_r else ret_mode in
      let ret_mode := if ceq w_b "w"%char then Z.lor ret_mode m_w else ret_mode in
      let ret_mode := if ceq x_b "x"%char then Z.lor ret_mode m_x else ret_mode in
      let ret_mode := if ceq x_b "s"%char then Z.lor (Z.lor ret_mode m_x) m_s else ret_mode in
      Some (if ceq x_b "t"%char then Z.lor (Z.lor ret_mode m_x) m_t else ret_mode)
  | _ => None
  end.

(** Three times s++; if *s is NUL, give up. *)
Definition advance3 (s : bytes) : option bytes :=
  match s with _ :: _ :: _ :: ((_ :: _) as t) => Some t | _ => None end.

(** The permission bits behind the type character. *)
Definition string_perms (s : bytes) : option Z :=
  user ← set_perms s 0;
  s ← advance3 s;
  group ← set_perms s 1;
  s ← advance3 s;
  other ← set_perms s 2;
  Some (Z.lor (Z.lor (Z.lor 0 user) group) other).

Definition swlib_filestring_to_mode (str : bytes) (do_include_type : Z) : Z :=
  let type := hd NUL str in
  if ceq type "d"%char || ceq type "-"%char || ceq type "l"%char || ceq type "s"%char
  then match string_perms (tl str) with Some mode_ret => mode_ret | None => 0 end
  else 0.

(** ** Tar type flags *)

Definition REGTYPE : ascii := "0".
Definition LNKTYPE : ascii := "1".
Definition SYMTYPE : ascii := "2".
Definition CHRTYPE : ascii := "3".
Definition BLKTYPE : ascii := "4".
Definition DIRTYPE : ascii := "5".
Definition FIFOTYPE : ascii := "6".
Definition CONTTYPE : ascii := "7".
Definition AREGTYPE : ascii := NUL.
Definition NOTDUMPEDTYPE : ascii := "009".

(** The type bits of a type flag and the status; [filename] is the text of the
    name for the old regular type.  An empty name is read one byte in front. *)
Definition tartype_bits (ch : ascii) (filename : option bytes) : option (Z * Z) :=
  if ceq ch REGTYPE || ceq ch CONTTYPE then Some (CP_IFREG, 0)
  else if ceq ch DIRTYPE then Some (CP_IFDIR, 0)
  else if ceq ch CHRTYPE then Some (CP_IFCHR, 0)
  else if ceq ch BLKTYPE then Some (CP_IFBLK, 0)
  else if ceq ch FIFOTYPE then Some (CP_IFIFO, 0)
  else if ceq ch SYMTYPE then Some (CP_IFLNK, 0)
  else if ceq ch LNKTYPE then Some (CP_IFREG, 0)
  else if ceq ch AREGTYPE then
    match filename with
    | None => Some (CP_IFREG, 0)
    | Some name => c ← last name; Some (if ceq c "/"%char then CP_IFDIR else CP_IFREG, 0)
    end
  else if ceq ch NOTDUMPEDTYPE then Some (CP_IFSOCK, 0)
  else Some (CP_IFREG, 1).

(** The mode afterwards (mode_t is 32 bits wide) and the status. *)
Definition taru_set_filetype_from_tartype (ch : ascii) (mode : Z) (filename : option bytes)
    : option (Z * Z) :=
  '(t, ret) ← tartype_bits ch filename;
  Some (Z.lor (Z.ldiff mode S_IFMT) t, ret).

(** cpio type and tar flag; -1 is the int value of the flag (char)(-1). *)
Definition tarui_get_filetypes (mode : Z) : Z * Z :=
  if is_type CP_IFREG mode then (CP_IFREG, uchar REGTYPE)
  else if is_type CP_IFDIR mode then (CP_IFDIR, uchar DIRTYPE)
  else if is_type CP_IFBLK mode then (CP_IFBLK, uchar BLKTYPE)
  else if is_type CP_IFCHR mode then (CP_IFCHR, uchar CHRTYPE)
  else if is_type CP_IFIFO mode then (CP_IFIFO, uchar FIFOTYPE)
  else if is_type CP_IFLNK mode then (CP_IFLNK, uchar SYMTYPE)
  else if is_type CP_IFSOCK mode then (CP_IFSOCK, uchar NOTDUMPEDTYPE)
  else (-1, -1).

Definition taru_get_tar_filetype (mode : Z) : Z := snd (tarui_get_filetypes mode).
Definition taru_get_cpio_filetype (mode : Z) : Z := fst (tarui_get_filetypes mode).

(** ** Lemmas *)

Lemma bit_testbit a k : 0 <= k -> bit a (2 ^ k) = Z.testbit a k.
Proof.
  intros Hk. unfold bit. destruct (Z.testbit a k) eqn:E.
  - destruct (Z.eqb_spec (Z.land a (2 ^ k)) 0) as [E0|]; [|done].
    apply (f_equal (fun z => Z.testbit z k)) in E0.
    by rewrite Z.land_spec, Z.pow2_bits_true, E, Z.bits_0 in E0.
  - assert (Z.land a (2 ^ k) = 0) as ->; [|done]. apply Z.bits_inj'. intros n Hn.
    rewrite Z.land_spec, Z.bits_0, Z.pow2_bits_eqb by done.
    destruct (Z.eqb_spec k n) as [->|]; [by rewrite E|by rewrite andb_false_r].
Qed.

Lemma ushort_testbit a k : 0 <= k < 16 -> Z.testbit (to_ushort a) k = Z.testbit a k.
Proof. intros Hk. unfold to_ushort. apply Z.mod_pow2_bits_low. lia. Qed.

Lemma masked_testbit a mask sh k :
  0 <= sh -> sh <= k < 16 ->
  Z.testbit (to_ushort (Z.shiftl (Z.land a mask) sh)) k = Z.testbit a (k - sh) && Z.testbit mask (k - sh).
Proof.
  intros Hs Hk. rewrite ushort_testbit by lia. rewrite Z.shiftl_spec by lia. apply Z.land_spec.
Qed.

(** The three characters of one set, with its special bit. *)
Definition triple (r w x s : bool) (upper lower : ascii) : bytes :=
  [if r then "r"%char else "-"%char; if w then "w"%char else "-"%char;
   if s then (if x then lower else upper) else if x then "x"%char else "-"%char].

(** The text of a mode. *)
Definition mode_text (mode : Z) : bytes :=
  let b := Z.testbit mode in
  ftypelet mode :: triple (b 8) (b 7) (b 6) (b 11) "S" "s" ++ triple (b 5) (b 4) (b 3) (b 10) "S" "s"
    ++ triple (b 2) (b 1) (b 0) (b 9) "T" "t".

Lemma rwx_bits mode mask sh str chars :
  0 <= sh -> sh <= 6 ->
  Z.testbit mask (8 - sh) = true -> Z.testbit mask (7 - sh) = true -> Z.testbit mask (6 - sh) = true ->
  rwx (to_ushort (Z.shiftl (Z.land mode mask) sh)) str chars
  = (str ← mem_write str chars [if Z.testbit mode (8 - sh) then "r"%char else "-"%char];
     str ← mem_write str (chars + 1) [if Z.testbit mode (7 - sh) then "w"%char else "-"%char];
     mem_write str (chars + 2) [if Z.testbit mode (6 - sh) then "x"%char else "-"%char]).
Proof.
  intros H0 H6 E8 E7 E6. unfold rwx, S_IRUSR, S_IWUSR, S_IXUSR.
  change 256 with (2 ^ 8). change 128 with (2 ^ 7). change 64 with (2 ^ 6).
  rewrite !bit_testbit, !masked_testbit, E8, E7, E6, !andb_true_r by lia. done.
Qed.

Lemma mem_write_one m i c :
  0 <= i < zlen m -> mem_write m i [c] = Some (<[Z.to_nat i := c]> m).
Proof.
  intros Hi. rewrite mem_write_in by (rewrite ?zlen_cons, ?zlen_nil; lia). f_equal.
  rewrite insert_take_drop by (unfold zlen in *; lia). cbn [length app].
  by rewrite Nat.add_1_r.
Qed.

Lemma mem_read_in m i : 0 <= i -> mem_read m i = m !! Z.to_nat i.
Proof. intros. unfold mem_read. by ztest. Qed.

(** setst_at on a stored triple: the special bit replaces the third character. *)
Lemma setst_at_spec bits k str i (x : bool) upper lower :
  0 <= k -> 0 <= i < zlen str -> str !! Z.to_nat i = Some (if x then "x"%char else "-"%char) ->
  setst_at bits (2 ^ k) str i upper lower
  = Some (<[Z.to_nat i := if Z.testbit bits k then (if x then lower else upper)
                          else if x then "x"%char else "-"%char]> str).
Proof.
  intros Hk Hi Hx. unfold setst_at. rewrite bit_testbit, mem_read_in, Hx by lia. obind.
  rewrite mem_write_one by done. destruct (Z.testbit bits k); [by destruct x|].
  by rewrite list_insert_id.
Qed.

(** Storing one byte at a literal offset of an explicit list. *)
Ltac store_byte :=
  match goal with
  | |- context [mem_write ?m ?i [?c]] =>
      let r := eval simpl in (<[Z.to_nat i := c]> m) in
      replace (mem_write m i [c]) with (Some r)
        by (symmetry; apply (mem_write_one m i c); unfold zlen; cbn [length]; lia)
  end; cbn [mbind option_bind].

(** mode_string stores the text in the first ten bytes. *)
Lemma mode_string_text mode str :
  (10 <= length str)%nat -> mode_string mode str = Some (mode_text mode ++ drop 10 str).
Proof.
  intros Hl. do 10 (destruct str as [|? str]; [cbn in Hl; lia|]). clear Hl. unfold mode_string.
  store_byte. rewrite rwx_bits by (lia || reflexivity). do 3 store_byte.
  rewrite rwx_bits by (lia || reflexivity). do 3 store_byte.
  rewrite rwx_bits by (lia || reflexivity). do 3 store_byte.
  unfold setst, S_ISUID, S_ISGID, S_ISVTX.
  change 2048 with (2 ^ 11). change 1024 with (2 ^ 10). change 512 with (2 ^ 9).
  rewrite (setst_at_spec _ 11 _ 3 (Z.testbit mode 6)) by (lia || reflexivity || (unfold zlen; rewrite ?length_insert; cbn [length]; lia)).
  cbn [mbind option_bind].
  rewrite (setst_at_spec _ 10 _ 6 (Z.testbit mode 3)) by (lia || reflexivity || (unfold zlen; rewrite ?length_insert; cbn [length]; lia)).
  cbn [mbind option_bind].
  rewrite (setst_at_spec _ 9 _ 9 (Z.testbit mode 0)) by (lia || reflexivity || (unfold zlen; rewrite ?length_insert; cbn [length]; lia)).
  reflexivity.
Qed.

(** ** Reading a text back *)

(** The permission bits a text keeps: a special bit only with its execute bit. *)
Definition kept_bit (mode k : Z) : bool :=
  Z.testbit mode k
  && ((k <? 9) || (k =? 11) && Z.testbit mode 6 || (k =? 10) && Z.testbit mode 3
      || (k =? 9) && Z.testbit mode 0).

(** The types whose texts swlib_filestring_to_mode accepts. *)
Definition readable_type (mode : Z) : bool :=
  is_type CP_IFDIR mode || is_type CP_IFREG mode || is_type CP_IFLNK mode || is_type CP_IFSOCK mode.

Lemma set_perms_triple r w x s upper lower rest set m_r m_w m_x m_s m_t :
  perm_masks set = (m_r, m_w, m_x, m_s, m_t) ->
  (upper = "S"%char /\ lower = "s"%char) \/ (upper = "T"%char /\ lower = "t"%char) ->
  set_perms (triple r w x s upper lower ++ rest) set
  = Some (Z.lor (Z.lor (Z.lor (if r then m_r else 0) (if w then m_w else 0)) (if x then m_x else 0))
            (if x && s then (if ceq lower "s"%char then m_s else m_t) else 0)).
Proof.
  intros E HU. unfold set_perms. rewrite E.
  destruct HU as [[-> ->]|[-> ->]]; destruct r, w, x, s; cbn [triple app ceq];
    vm_compute (ceq _ _); cbn [andb]; rewrite ?Z.lor_0_l, ?Z.lor_0_r; reflexivity.
Qed.

Lemma advance_triple r w x s upper lower t :
  t <> [] -> advance3 (triple r w x s upper lower ++ t) = Some t.
Proof. by destruct t. Qed.

Lemma mask_testbit (b : bool) m j k :
  m = 2 ^ j -> 0 <= j -> Z.testbit (if b then m else 0) k = b && (j =? k).
Proof. intros -> Hj. destruct b; [by rewrite Z.pow2_bits_eqb|by rewrite Z.bits_0]. Qed.

Lemma string_perms_text mode :
  exists p, string_perms (tl (mode_text mode)) = Some p
    /\ forall k, 0 <= k -> Z.testbit p k = kept_bit mode k.
Proof.
  set (b := Z.testbit mode). unfold string_perms, mode_text. cbn [tl]. fold b.
  rewrite (set_perms_triple _ _ _ _ _ _ _ 0 _ _ _ _ _ eq_refl) by (by left). obind.
  rewrite advance_triple by done. obind.
  rewrite (set_perms_triple _ _ _ _ _ _ _ 1 _ _ _ _ _ eq_refl) by (by left). obind.
  rewrite advance_triple by done. obind. rewrite <- (app_nil_r (triple (b 2) _ _ _ _ _)).
  rewrite (set_perms_triple _ _ _ _ _ _ _ 2 _ _ _ _ _ eq_refl) by (by right). obind.
  eexists. split; [done|]. intros k Hk.
  unfold kept_bit. fold (b k) (b 6) (b 3) (b 0).
  rewrite !Z.lor_spec, Z.bits_0. change (ceq "s" "s") with true. change (ceq "t" "s") with false. cbn iota.
  rewrite (mask_testbit (b 8) _ 8), (mask_testbit (b 7) _ 7), (mask_testbit (b 6) _ 6),
    (mask_testbit (b 6 && b 11) _ 11), (mask_testbit (b 5) _ 5), (mask_testbit (b 4) _ 4),
    (mask_testbit (b 3) _ 3), (mask_testbit (b 3 && b 10) _ 10), (mask_testbit (b 2) _ 2),
    (mask_testbit (b 1) _ 1), (mask_testbit (b 0) _ 0), (mask_testbit (b 0 && b 9) _ 9) by (lia || reflexivity).
  destruct (Z.leb_spec 12 k).
  { repeat match goal with |- context [?a =? k] => rewrite (proj2 (Z.eqb_neq a k)) by lia end.
    rewrite !(Z.eqb_sym k). repeat match goal with |- context [?a =? k] => rewrite (proj2 (Z.eqb_neq a k)) by lia end.
    rewrite (proj2 (Z.ltb_ge k 9)) by lia. by rewrite !andb_false_r. }
  assert (k = 0 \/ k = 1 \/ k = 2 \/ k = 3 \/ k = 4 \/ k = 5 \/ k = 6 \/ k = 7 \/ k = 8 \/ k = 9
    \/ k = 10 \/ k = 11) as Hc by lia.
  repeat destruct Hc as [->|Hc]; try subst k;
    cbn [Z.eqb Z.ltb Z.compare Pos.eqb Pos.compare Pos.compare_cont];
    rewrite ?andb_true_r, ?andb_false_r, ?orb_false_r, ?orb_false_l, ?andb_true_l; cbn [orb andb];
    try reflexivity; apply andb_comm.
Qed.

(** ** Theorems *)

(** The text that swlib_filemodestring stores for a mode is the usual
    ten-character one, and swlib_filestring_to_mode reads the permission bits
    back.  Lost on the way are the set-id and sticky bits of files without the
    corresponding execute bit, and everything when the type is not a
    directory, regular file, symbolic link or socket. *)
Theorem filemode_roundtrip mode str (m := to_ushort mode) d :
  (10 <= length str)%nat ->
  swlib_filemodestring mode str = Some (mode_text m ++ drop 10 str)
  /\ (readable_type m = true ->
      forall k, 0 <= k -> Z.testbit (swlib_filestring_to_mode (mode_text m) d) k = kept_bit m k)
  /\ (readable_type m = false -> swlib_filestring_to_mode (mode_text m) d = 0).
Proof.
  intros Hl. split; [by apply mode_string_text|]. unfold swlib_filestring_to_mode.
  destruct (string_perms_text m) as (p & -> & Hp).
  change (hd NUL (mode_text m)) with (ftypelet m). unfold readable_type, ftypelet, is_type.
  generalize (Z.land m S_IFMT) as t. intros t. split; intros Hr.
  - assert (t = CP_IFDIR \/ t = CP_IFREG \/ t = CP_IFLNK \/ t = CP_IFSOCK) as Ht.
    { repeat (apply orb_true_iff in Hr as [Hr|Hr]); zbool; auto. }
    by destruct Ht as [->|[->|[->| ->]]].
  - repeat (apply orb_false_iff in Hr as [Hr ?]).
    repeat match goal with H : (t =? _) = false |- _ => rewrite !H; clear H end.
    by destruct (t =? CP_IFBLK), (t =? CP_IFCHR), (t =? CP_IFIFO).
Qed.

(** Converting a mode to a tar type flag and back gives the type bits of the
    mode again and keeps the others, for the seven file types; the cpio type is
    the type bits themselves. *)
Theorem tar_filetype_roundtrip mode other name c :
  is_type CP_IFREG mode || is_type CP_IFDIR mode || is_type CP_IFBLK mode || is_type CP_IFCHR mode
  || is_type CP_IFIFO mode || is_type CP_IFLNK mode || is_type CP_IFSOCK mode = true ->
  uchar c = taru_get_tar_filetype mode ->
  taru_set_filetype_from_tartype c other name
  = Some (Z.lor (Z.ldiff other S_IFMT) (Z.land mode S_IFMT), 0)
  /\ taru_get_cpio_filetype mode = Z.land mode S_IFMT.
Proof.
  unfold taru_get_tar_filetype, taru_get_cpio_filetype, tarui_get_filetypes, is_type,
    taru_set_filetype_from_tartype.
  generalize (Z.land mode S_IFMT) as t. intros t Ht Hc.
  repeat (apply orb_true_iff in Ht as [Ht|Ht]); zbool; subst t;
    rewrite <- (to_char_uchar c), Hc; split; reflexivity.
Qed.

Module Witness.
(** -rwsr-xr-x *)
Definition m : Z := to_ushort 35309.

Lemma filemode_roundtrip_witness :
  swlib_filemodestring 35309 (replicate 11 NUL) = Some (mode_text m ++ drop 10 (replicate 11 NUL))
  /\ (readable_type m = true ->
      forall k, 0 <= k -> Z.testbit (swlib_filestring_to_mode (mode_text m) 0) k = kept_bit m k)
  /\ (readable_type m = false -> swlib_filestring_to_mode (mode_text m) 0 = 0).
Proof. apply (filemode_roundtrip 35309 (replicate 11 NUL) 0). cbn. lia. Defined.

Lemma tar_filetype_roundtrip_witness :
  taru_set_filetype_from_tartype SYMTYPE 33188 None = Some (Z.lor (Z.ldiff 33188 S_IFMT) (Z.land 41471 S_IFMT), 0)
  /\ taru_get_cpio_filetype 41471 = Z.land 41471 S_IFMT.
Proof. apply (tar_filetype_roundtrip 41471 33188 None SYMTYPE); reflexivity. Defined.
End Witness.
