(* ===== verification/SysDb.v ===== *)
(** * Users and groups (swsupplib/taru/otar.c)

    The caches of user and group names in front of the system data base, as one
    state [SYSDBCACHE] per data base, and the copies of a name into a buffer. *)

From S2P Require Import Prelude CString Strob.

Definition CACHE_LEN : Z := 10.
Definition NOBODY_ID : Z := 2097151.
Definition AHS_USERNAME_NOBODY : bytes := L "nobody".
Definition SNAME_LEN : Z := 32.
Definition TARU_SYSDBNAME_LEN : Z := 120.

(** The system's functions: getpwnam and getgrnam give an id, getpwuid and
    getgrgid a name. *)
Class SysDB := {
  getpwnam : bytes -> option Z;
  getpwuid : Z -> option bytes;
  getgrnam : bytes -> option Z;
  getgrgid : Z -> option bytes;
}.

(** A cell; the cells in use have a name (a NULL one is opened when it is set). *)
Record SYSDBPAIR := mkSYSDBPAIR { idM : Z; snameM : bytes; in_sysM : Z }.

(** dbpair_user_nset and userCacheM, or dbpair_group_nset and groupCacheM. *)
Record SYSDBCACHE := mkSYSDBCACHE { dbpair_nset : Z; cacheM : list SYSDBPAIR }.

Definition empty_cache : SYSDBCACHE :=
  mkSYSDBCACHE 0 (replicate (Z.to_nat CACHE_LEN) (mkSYSDBPAIR 0 [] (-1))).

(** ** The cache *)

(** A full cache starts again with one cell.  The id is an int. *)
Definition dbcache_set (c : SYSDBCACHE) (name : bytes) (id in_sys : Z) : option SYSDBCACHE :=
  let '(cell, nset) := if dbpair_nset c >=? CACHE_LEN then (0, 1)
                       else (dbpair_nset c, dbpair_nset c + 1) in
  l ← arr_write (cacheM c) cell (mkSYSDBPAIR (to_int id) name in_sys);
  Some (mkSYSDBCACHE nset l).

(** By name, or with NULL by id; the first of the cells in use that matches. *)
Fixpoint lookup_loop (cells : list SYSDBPAIR) (name : option bytes) (id : Z) : option SYSDBPAIR :=
  match cells with
  | [] => None
  | p :: cells =>
      if match name with Some name => streq (snameM p) name | None => false end then Some p
      else if (id >=? 0) && (idM p =? id) then Some p
      else lookup_loop cells name id
  end.

Definition dbcache_lookup (c : SYSDBCACHE) (name : option bytes) (id : Z) : option SYSDBPAIR :=
  lookup_loop (take (Z.to_nat (dbpair_nset c)) (cacheM c)) name id.

(** The name and *is_in_sysdb. *)
Definition return_name_by_cache (c : SYSDBCACHE) (id : Z) : option (bytes * Z) :=
  p ← dbcache_lookup c None (to_int id); Some (snameM p, in_sysM p).

(** The id, -1 when there is none, and *is_in_sysdb. *)
Definition return_id_by_cache (c : SYSDBCACHE) (name : bytes) : Z * Z :=
  match dbcache_lookup c (Some name) (-1) with
  | Some p => (to_int (idM p), in_sysM p)
  | None => (-1, 0)
  end.

(** get_pwent with a name: the cache, *ppid ([None] when it is left alone) and
    the result. *)
Definition get_pwent_id (v_get_id : bytes -> option Z) (c : SYSDBCACHE) (userkey : bytes)
    : option (SYSDBCACHE * option Z * Z) :=
  if zlen userkey =? 0 then Some (c, None, -1)
  else
    let '(n, is_in_sysdb) := return_id_by_cache c userkey in
    if n >=? 0 then Some (c, Some n, is_in_sysdb)
    else match v_get_id userkey with
         | Some id => c ← dbcache_set c userkey id 0; Some (c, Some id, 0)
         | None => c ← dbcache_set c userkey NOBODY_ID (-1); Some (c, Some NOBODY_ID, -1)
         end.

(** get_pwent with an id: the cache, the name and the result. *)
Definition get_pwent_name (v_get_name : Z -> option bytes) (c : SYSDBCACHE) (id : Z)
    : option (SYSDBCACHE * bytes * Z) :=
  match return_name_by_cache c id with
  | Some (cname, is_in_sysdb) => Some (c, cname, is_in_sysdb)
  | None =>
      match v_get_name id with
      | Some cname => c ← dbcache_set c cname id 0; Some (c, cname, 0)
      | None => c ← dbcache_set c AHS_USERNAME_NOBODY id (-1); Some (c, AHS_USERNAME_NOBODY, -1)
      end
  end.

(** ** Copies into a buffer *)

(** swlib_strncpy: at most n - 1 bytes, padded, and a NUL at n - 1. *)
Definition swlib_strncpy (m : bytes) (dst : Z) (src : bytes) (n : Z) : option bytes :=
  m ← mem_write m dst (strncpy_bytes src (Z.to_nat (n - 1))); mem_write m (dst + (n - 1)) [NUL].

(** The copy at the end of get_pwent, into the object [tarbuf]. *)
Definition copy_tarbuf (tarbuf cname : bytes) : option bytes :=
  m ← mem_write tarbuf 0 (strncpy_bytes cname (Z.to_nat (TARU_SYSDBNAME_LEN - 1)));
  mem_write m (TARU_SYSDBNAME_LEN - 1) [NUL].

(** l_tar_sysdata_getuser and l_tar_sysdata_getgroup without a paxbuf, on what
    the data base finds. *)
Definition l_tar_sysdata_get (found : option bytes) (tarbuf : bytes) : option bytes :=
  match found with
  | None => memset tarbuf 0 NUL SNAME_LEN
  | Some name => swlib_strncpy tarbuf 0 name SNAME_LEN
  end.

Section Lookups.
Context `{SysDB}.

(** uid_t and gid_t are unsigned and 32 bits wide. *)
Definition to_id (z : Z) : Z := z mod 2 ^ 32.

Definition taru_get_uid_by_name (c : SYSDBCACHE) (username : bytes) : option (SYSDBCACHE * option Z * Z) :=
  '(c, pid, ret) ← get_pwent_id getpwnam c username; Some (c, option_map to_id pid, ret).
Definition taru_get_gid_by_name (c : SYSDBCACHE) (groupname : bytes) : option (SYSDBCACHE * option Z * Z) :=
  '(c, pid, ret) ← get_pwent_id getgrnam c groupname; Some (c, option_map to_id pid, ret).

Definition taru_get_tar_user_by_uid (c : SYSDBCACHE) (uid : Z) (buf : bytes) : option (SYSDBCACHE * bytes * Z) :=
  '(c, cname, ret) ← get_pwent_name getpwuid c (to_id uid);
  buf ← copy_tarbuf buf cname; Some (c, buf, ret).
Definition taru_get_tar_group_by_gid (c : SYSDBCACHE) (gid : Z) (buf : bytes) : option (SYSDBCACHE * bytes * Z) :=
  '(c, cname, ret) ← get_pwent_name getgrgid c (to_id gid);
  buf ← copy_tarbuf buf cname; Some (c, buf, ret).
Definition taru_get_pax_user_by_uid `{Malloc} (c : SYSDBCACHE) (uid : Z) (buf : STROB)
    : option (SYSDBCACHE * STROB * Z) :=
  '(c, cname, ret) ← get_pwent_name getpwuid c (to_id uid);
  buf ← strob_strcpy buf cname; Some (c, buf, ret).
Definition taru_get_pax_group_by_gid `{Malloc} (c : SYSDBCACHE) (gid : Z) (buf : STROB)
    : option (SYSDBCACHE * STROB * Z) :=
  '(c, cname, ret) ← get_pwent_name getgrgid c (to_id gid);
  buf ← strob_strcpy buf cname; Some (c, buf, ret).
End Lookups.
