(* ===== verification/SysDbSpec.v ===== *)
(** * What the caches of user and group names promise

    Any sequence of look-ups through a cache gives the answers of the data base
    itself, apart from the name "nobody" and the id that stands for it. *)

From S2P Require Import Prelude CString Strob StrobSpec SysDb.

Section Cache.
Context (v_get_id : bytes -> option Z) (v_get_name : Z -> option bytes).

(** What the manual pages of the data base functions say: names are C strings,
    an id belongs to the name it is found under; and the ids fit in an int. *)
Record sane_db : Prop := {
  db_name : forall i n, v_get_name i = Some n -> no_nul n /\ v_get_id n = Some i;
  db_id : forall n i, v_get_id n = Some i -> 0 <= i <= INT_MAX;
}.

Inductive query := ByName (n : bytes) | ById (i : Z).
Inductive answer := AnId (ppid : option Z) (ret : Z) | AName (cname : bytes) (ret : Z).

Definition ask (c : SYSDBCACHE) (q : query) : option (SYSDBCACHE * answer) :=
  match q with
  | ByName n => '(c, ppid, ret) ← get_pwent_id v_get_id c n; Some (c, AnId ppid ret)
  | ById i => '(c, cname, ret) ← get_pwent_name v_get_name c i; Some (c, AName cname ret)
  end.

Fixpoint ask_all (c : SYSDBCACHE) (qs : list query) : option (SYSDBCACHE * list answer) :=
  match qs with
  | [] => Some (c, [])
  | q :: qs => '(c, a) ← ask c q; '(c, l) ← ask_all c qs; Some (c, a :: l)
  end.

(** Permitted queries, and the right answers. *)
Definition query_ok (q : query) : Prop :=
  match q with
  | ByName n => no_nul n /\ n <> [] /\ n <> AHS_USERNAME_NOBODY
  | ById i => 0 <= i <= INT_MAX /\ i <> NOBODY_ID
  end.

Definition right_answer (q : query) (a : answer) : Prop :=
  match q, a with
  | ByName n, AnId ppid ret =>
      match v_get_id n with
      | Some i => ppid = Some i /\ ret = 0
      | None => ppid = Some NOBODY_ID /\ ret = -1
      end
  | ById i, AName n ret =>
      (ret = 0 /\ v_get_id n = Some i) \/ (ret = -1 /\ n = AHS_USERNAME_NOBODY /\ v_get_name i = None)
  | _, _ => False
  end.

(** ** The invariant of a cell, and of a cache *)

Definition cell_ok (p : SYSDBPAIR) : Prop :=
  no_nul (snameM p) /\ 0 <= idM p <= INT_MAX
  /\ ((in_sysM p = 0 /\ v_get_id (snameM p) = Some (idM p))
      \/ (in_sysM p = -1 /\ v_get_id (snameM p) = None /\ idM p = NOBODY_ID)
      \/ (in_sysM p = -1 /\ snameM p = AHS_USERNAME_NOBODY /\ v_get_name (idM p) = None)).

Record cache_ok (c : SYSDBCACHE) : Prop := {
  cache_cells : length (cacheM c) = 10%nat;
  cache_nset : 0 <= dbpair_nset c <= 10;
  cache_used : Forall cell_ok (take (Z.to_nat (dbpair_nset c)) (cacheM c));
}.

Lemma cache_ok_empty : cache_ok empty_cache.
Proof. split; [done|done|constructor]. Qed.

Lemma dbcache_set_ok c name id in_sys :
  cache_ok c -> 0 <= id <= INT_MAX -> cell_ok (mkSYSDBPAIR id name in_sys) ->
  exists c', dbcache_set c name id in_sys = Some c' /\ cache_ok c'.
Proof.
  intros [H1 H2 H3] Hid Hc. unfold dbcache_set, CACHE_LEN. rewrite to_int_id by lia.
  destruct (Z.geb_spec (dbpair_nset c) 10) as [Hf|Hf]; (rewrite arr_write_in by (unfold zlen; lia)); obind;
    eexists; (split; [done|]); split; cbn [cacheM dbpair_nset]; rewrite ?length_insert; [done|lia| |done|lia|].
  - destruct (cacheM c); [done|]. cbn. constructor; [done|constructor].
  - replace (Z.to_nat (dbpair_nset c + 1)) with (S (Z.to_nat (dbpair_nset c))) by lia.
    rewrite (take_S_r _ _ (mkSYSDBPAIR id name in_sys)) by (rewrite list_lookup_insert_eq; [done|lia]).
    rewrite take_insert_ge by lia. apply Forall_app. split; [done|]. by constructor; [|constructor].
Qed.

Lemma lookup_loop_spec cells name id p :
  lookup_loop cells name id = Some p ->
  p ∈ cells /\ (match name with Some n => streq (snameM p) n | None => false end = true \/ (0 <= id /\ idM p = id)).
Proof.
  induction cells as [|q cells IH]; cbn [lookup_loop]; [done|]. intros E.
  destruct (match name with Some n => streq (snameM q) n | None => false end) eqn:E1;
    [injection E as ->; split; [left|by left]|].
  destruct (_ && _) eqn:E2.
  - injection E as ->. apply andb_true_iff in E2 as [Ha Hb]. zbool. split; [left|right; lia].
  - destruct (IH E) as [Hin Hm]. split; [by right|done].
Qed.

Lemma lookup_name c n p :
  cache_ok c -> no_nul n -> dbcache_lookup c (Some n) (-1) = Some p -> cell_ok p /\ snameM p = n.
Proof.
  intros [_ _ HF] Hn E. apply lookup_loop_spec in E as [Hin Hm]. rewrite Forall_forall in HF.
  pose proof (HF p Hin) as Hp. split; [done|]. destruct Hm as [Hm|Hm]; [|lia].
  apply streq_eq in Hm; [done|apply Hp|done].
Qed.

Lemma lookup_id c i p : cache_ok c -> dbcache_lookup c None i = Some p -> cell_ok p /\ idM p = i.
Proof.
  intros [_ _ HF] E. apply lookup_loop_spec in E as [Hin Hm]. rewrite Forall_forall in HF.
  split; [by apply HF|]. by destruct Hm as [Hm|[_ Hm]].
Qed.

(** ** One query *)

Lemma ask_name c n :
  sane_db -> cache_ok c -> query_ok (ByName n) ->
  exists c' a, ask c (ByName n) = Some (c', a) /\ cache_ok c' /\ right_answer (ByName n) a.
Proof.
  intros HS HC (Hn & Hne & Hnb). cbn [ask right_answer]. unfold get_pwent_id. rewrite zlen_nonempty by done.
  unfold return_id_by_cache. destruct (dbcache_lookup c (Some n) (-1)) as [p|] eqn:El.
  - destruct (lookup_name c n p HC Hn El) as [(_ & Hi & Hp) Hnm]. rewrite to_int_id by lia.
    assert ((idM p >=? 0) = true) as -> by (apply Z.geb_le; lia). obind. eexists _, _. split; [done|]. split; [done|].
    rewrite <- Hnm in Hnb |- *. destruct Hp as [(Hs & ->)|[(Hs & -> & ->)|(_ & ? & _)]]; done.
  - change (-1 >=? 0) with false. cbv iota. destruct (v_get_id n) as [i|] eqn:Ei.
    + pose proof (db_id HS n i Ei) as Hi.
      destruct (dbcache_set_ok c n i 0 HC Hi) as (c' & -> & HC'); [split; [done|]; split; [done|by left]|]. obind. by eexists _, _.
    + destruct (dbcache_set_ok c n NOBODY_ID (-1) HC) as (c' & -> & HC');
        [done|split; [done|]; split; [done|]; right; by left|]. obind. by eexists _, _.
Qed.

Lemma ask_id c i :
  sane_db -> cache_ok c -> query_ok (ById i) ->
  exists c' a, ask c (ById i) = Some (c', a) /\ cache_ok c' /\ right_answer (ById i) a.
Proof.
  intros HS HC [Hi Hnb]. cbn [ask right_answer]. unfold get_pwent_name, return_name_by_cache.
  rewrite to_int_id by lia. destruct (dbcache_lookup c None i) as [p|] eqn:El; obind.
  - destruct (lookup_id c i p HC El) as [(_ & _ & Hp) Hid]. rewrite Hid in Hp. eexists _, _. split; [done|].
    split; [done|]. destruct Hp as [Hp|[(_ & _ & Hp)|Hp]]; [by left|done|by right].
  - destruct (v_get_name i) as [n|] eqn:Ei.
    + destruct (db_name HS i n Ei) as [Hn Hni].
      destruct (dbcache_set_ok c n i 0 HC Hi) as (c' & -> & HC'); [split; [done|]; split; [done|by left]|]. obind.
      eexists _, _. split; [done|]. split; [done|]. by left.
    + destruct (dbcache_set_ok c AHS_USERNAME_NOBODY i (-1) HC Hi) as (c' & -> & HC');
        [split; [by apply no_nul_compute|]; split; [done|]; right; by right|]. obind.
      eexists _, _. split; [done|]. split; [done|]. by right.
Qed.

Lemma ask_all_ok qs : sane_db -> forall c,
  cache_ok c -> Forall query_ok qs ->
  exists c' l, ask_all c qs = Some (c', l) /\ Forall2 right_answer qs l.
Proof.
  intros HS. induction qs as [|q qs IH]; intros c HC HF; [by exists c, []|].
  apply Forall_cons in HF as [Hq HF]. cbn [ask_all].
  assert (exists c' a, ask c q = Some (c', a) /\ cache_ok c' /\ right_answer q a) as (c1 & a & -> & HC1 & Ha)
    by (destruct q; [by apply ask_name|by apply ask_id]). obind.
  destruct (IH c1 HC1 HF) as (c' & l & -> & Hl). obind. exists c', (a :: l). split; [done|]. by constructor.
Qed.

(** C32: The caches are transparent: in every sequence of permitted look-ups by
    name and by id, through caches that wrap around after ten entries, each name
    gives the id of the data base, or the id of nobody and -1; each id gives a
    name that has this id, or "nobody" and -1 when the data base has none.
    Permitted ([query_ok]) are names that are neither empty nor "nobody", and ids
    from 0 to INT_MAX other than the one that stands for nobody (nobody_spoiled);
    in the data base the name found for an id has that id ([sane_db]). *)
Theorem sysdb_cache_transparent qs :
  sane_db -> Forall query_ok qs ->
  exists c' l, ask_all empty_cache qs = Some (c', l) /\ Forall2 right_answer qs l.
Proof. intros HS HF. by apply ask_all_ok; [|apply cache_ok_empty|]. Qed.

(** An unknown id is stored under the name "nobody": from then on the data base
    is not asked for "nobody" any more, and the look-up fails with that id. *)
Lemma nobody_spoiled i :
  0 <= i <= INT_MAX -> v_get_name i = None ->
  exists c', ask_all empty_cache [ById i; ByName AHS_USERNAME_NOBODY]
    = Some (c', [AName AHS_USERNAME_NOBODY (-1); AnId (Some i) (-1)]).
Proof.
  intros Hi Hn. cbn [ask_all ask]. unfold get_pwent_name, return_name_by_cache.
  change (dbcache_lookup empty_cache None (to_int i)) with (@None SYSDBPAIR). obind. rewrite Hn.
  unfold dbcache_set. cbn [dbpair_nset empty_cache]. change (0 >=? CACHE_LEN) with false. cbv iota.
  rewrite arr_write_in by done. obind. unfold get_pwent_id. change (zlen AHS_USERNAME_NOBODY =? 0) with false.
  cbv iota. unfold return_id_by_cache. rewrite (to_int_id i) by lia.
  match goal with |- context [dbcache_lookup ?c ?n (-1)] =>
    change (dbcache_lookup c n (-1)) with (Some (mkSYSDBPAIR i AHS_USERNAME_NOBODY (-1))) end.
  cbn [idM in_sysM]. rewrite to_int_id by lia.
  assert ((i >=? 0) = true) as -> by (apply Z.geb_le; lia). obind. by eexists.
Qed.
End Cache.

Module Witness.
Definition by_name (n : bytes) : option Z :=
  if streq n (L "root") then Some 0 else if streq n (L "lp") then Some 7 else None.
Definition by_id (i : Z) : option bytes :=
  if i =? 0 then Some (L "root") else if i =? 7 then Some (L "lp") else None.

Lemma sane : sane_db by_name by_id.
Proof.
  split; intros x y E; unfold by_id, by_name in *; repeat case_match; simplify_eq;
    first [done | (split; [by apply no_nul_compute|]; zbool; by subst)].
Qed.

Lemma sysdb_cache_transparent_witness :
  exists c' l, ask_all by_name by_id empty_cache [ByName (L "lp"); ById 7; ById 12; ByName (L "jane"); ById 0]
    = Some (c', l)
    /\ Forall2 (right_answer by_name by_id)
         [ByName (L "lp"); ById 7; ById 12; ByName (L "jane"); ById 0] l.
Proof.
  apply (sysdb_cache_transparent by_name by_id _ sane).
  repeat (apply Forall_cons; split); try apply Forall_nil_2; cbn; repeat split;
    first [by apply no_nul_compute | discriminate].
Defined.
End Witness.
