(* ===== verification/TarNumbers.v ===== *)
(** * Numbers in archive headers (swsupplib/taru/to_oct.c and the number
      readers and writers of swsupplib/taru/otar.c)

    [m] is the object that holds the header, [where] the offset of the field in
    it.  Integers are those of a 64-bit system: uintmax_t and unsigned long are
    taken modulo 2^64, uid_t, gid_t and mode_t are unsigned and 32 bits wide. *)

From S2P Require Import Prelude CString FileMode.

Definition LG_8 : Z := 3.
Definition LG_256 : Z := 8.
Definition CHAR_BIT : Z := 8.

(** enum gnutar_archive_format *)
Inductive gnutar_archive_format :=
  DEFAULT_FORMAT | V7_FORMAT | OLDGNU_FORMAT | POSIX_FORMAT | GNU_FORMAT.

Definition is_gnu (f : gnutar_archive_format) : bool := match f with GNU_FORMAT => true | _ => false end.
Definition is_posix (f : gnutar_archive_format) : bool := match f with POSIX_FORMAT => true | _ => false end.
Definition is_oldgnu (f : gnutar_archive_format) : bool := match f with OLDGNU_FORMAT => true | _ => false end.

(** ** Writing a field *)

(** The digits from [buf] downwards; 2^64 has 20 digits. *)
Fixpoint stringify_loop (fuel : nat) (m : bytes) (o buf : Z) : option (bytes * Z) :=
  match fuel with
  | O => None
  | S fuel =>
    let buf := buf - 1 in
    m ← mem_write m buf [to_char (48 + o mod 10)];
    let o := o / 10 in
    if negb (o =? 0) then stringify_loop fuel m o buf else Some (m, buf)
  end.

(** The object afterwards and the start of the text. *)
Definition stringify_uintmax_t_backwards (m : bytes) (o buf : Z) : option (bytes * Z) :=
  m ← mem_write m (buf - 1) [NUL]; stringify_loop 20 m o (buf - 1).

Definition MAX_VAL_WITH_DIGITS (digits bits_per_digit : Z) : Z :=
  if to_size (digits * bits_per_digit) <? 64 then 2 ^ to_size (digits * bits_per_digit) - 1 else 2 ^ 64 - 1.

(** do {...} while (i), from [i] = size down; a size of 0 wraps around, and the
    store is outside every object. *)
Fixpoint octal_loop (i : nat) (m : bytes) (where_ v : Z) : option bytes :=
  match i with
  | O => None
  | S i =>
    m ← mem_write m (where_ + Z.of_nat i) [to_char (48 + Z.land v (2 ^ LG_8 - 1))];
    match i with O => Some m | _ => octal_loop i m where_ (Z.shiftr v LG_8) end
  end.

Definition to_octal (value : Z) (m : bytes) (where_ size : Z) : option bytes :=
  octal_loop (Z.to_nat size) m where_ value.

Fixpoint base256_loop (i : nat) (m : bytes) (where_ v propagated_sign_bits : Z) : option bytes :=
  match i with
  | O => None
  | S i =>
    m ← mem_write m (where_ + Z.of_nat i) [to_char (Z.land v (2 ^ LG_256 - 1))];
    match i with
    | O => Some m
    | _ => base256_loop i m where_ (Z.lor propagated_sign_bits (Z.shiftr v LG_256)) propagated_sign_bits
    end
  end.

Definition to_base256 (negative : bool) (value : Z) (m : bytes) (where_ size : Z) : option bytes :=
  let propagated_sign_bits := to_size (Z.shiftl (to_size (if negative then -1 else 0)) (CHAR_BIT * 8 - LG_256)) in
  base256_loop (Z.to_nat size) m where_ value propagated_sign_bits.

(** [substitute] is what the substitute function gives: its value and whether
    that is negative, [None] for the NULL pointer.  The recursion is at most
    three deep: an id, "id_again", a substitute. *)
Fixpoint to_chars_rec (depth : nat) (negative : bool) (value valsize : Z) (substitute : option (Z * bool))
    (m : bytes) (where_ size : Z) (type : bytes) (archive_format : gnutar_archive_format) (termch : Z)
    : option bytes :=
  match depth with
  | O => None
  | S depth =>
    let base256_allowed := is_gnu archive_format || is_oldgnu archive_format in
    if negb negative && (value <=? MAX_VAL_WITH_DIGITS (size - 1) LG_8) then
      m ← mem_write m (where_ + (size - 1)) [to_char termch];
      to_octal value m where_ (size - 1)
    else if (strcmp type (L "uid_t") =? 0) || (strcmp type (L "gid_t") =? 0) then
      to_chars_rec depth negative (Z.lxor 8 (size - 1)) valsize substitute m where_ size (L "id_again")
        archive_format termch
    else if (to_size (if negative then -1 - value else value) <=? MAX_VAL_WITH_DIGITS (size - 1) LG_256)
            && base256_allowed then
      m ← mem_write m where_ [to_char (if negative then -1 else 2 ^ (LG_256 - 1))];
      to_base256 negative value m (where_ + 1) (size - 1)
    else if negative && (valsize * CHAR_BIT <=? to_size ((size - 1) * LG_8)) then
      m ← mem_write m (where_ + (size - 1)) [NUL];
      to_octal (Z.land value (MAX_VAL_WITH_DIGITS (valsize * CHAR_BIT) 1)) m where_ (size - 1)
    else
      let maxval := if base256_allowed then MAX_VAL_WITH_DIGITS (size - 1) LG_256
                    else MAX_VAL_WITH_DIGITS (size - 1) LG_8 in
      match substitute with
      | Some (sub, negsub) =>
          let sub := Z.land sub maxval in
          let negsub := negsub && is_gnu archive_format in
          let s := to_size (if negsub then - sub else sub) in
          to_chars_rec depth negsub s valsize None m where_ size type archive_format termch
      | None => Some m
      end
  end.

Definition to_chars := to_chars_rec 3.

(** ** The typed fields

    [nobody] is what gid_substitute and uid_substitute find in the system
    database: the id and whether the look-up failed. *)
Section Fields.
Context (nobody : Z * bool).

Definition gid_to_chars (v : Z) (m : bytes) (p s : Z) (archive_format : gnutar_archive_format) (termch : Z) :=
  to_chars false v 4 (Some nobody) m p s (L "gid_t") archive_format termch.
Definition uid_to_chars (v : Z) (m : bytes) (p s : Z) (archive_format : gnutar_archive_format) (termch : Z) :=
  to_chars false v 4 (Some nobody) m p s (L "uid_t") archive_format termch.
End Fields.

(** major_t and minor_t are int; uintmax_t of a negative one wraps. *)
Definition major_to_chars (v : Z) (m : bytes) (p s : Z) (archive_format : gnutar_archive_format) (termch : Z) :=
  to_chars (v <? 0) (to_size v) 4 None m p s (L "major_t") archive_format termch.
Definition minor_to_chars (v : Z) (m : bytes) (p s : Z) (archive_format : gnutar_archive_format) (termch : Z) :=
  to_chars (v <? 0) (to_size v) 4 None m p s (L "minor_t") archive_format termch.
Definition off_to_chars (v : Z) (m : bytes) (p s : Z) (archive_format : gnutar_archive_format) (termch : Z) :=
  to_chars (v <? 0) (to_size v) 8 None m p s (L "off_t") archive_format termch.
Definition time_to_chars (v : Z) (m : bytes) (p s : Z) (archive_format : gnutar_archive_format) (termch : Z) :=
  to_chars (v <? 0) (to_size v) 8 None m p s (L "time_t") archive_format termch.
Definition size_to_chars (v : Z) (m : bytes) (p s : Z) (archive_format : gnutar_archive_format) (termch : Z) :=
  to_chars false v 8 None m p s (L "size_t") archive_format termch.
Definition uintmax_to_chars (v : Z) (m : bytes) (p s : Z) (archive_format : gnutar_archive_format) (termch : Z) :=
  to_chars false v 8 None m p s (L "uintmax_t") archive_format termch.

(** The system's mode bits and the archive's have the same values. *)
Definition mode_map : list (Z * Z) :=
  [(S_ISUID, 2048); (S_ISGID, 1024); (S_ISVTX, 512); (S_IRUSR, 256); (S_IWUSR, 128); (S_IXUSR, 64);
   (S_IRGRP, 32); (S_IWGRP, 16); (S_IXGRP, 8); (S_IROTH, 4); (S_IWOTH, 2); (S_IXOTH, 1)].

Definition mode_bits (v : Z) : Z :=
  foldr (fun '(s, t) u => Z.lor (if bit v s then t else 0) u) 0 mode_map.

Definition mode_to_chars (v : Z) (m : bytes) (p s : Z) (archive_format : gnutar_archive_format) (termch : Z) :=
  let u := if forallb (fun '(s, t) => s =? t) mode_map && negb (is_posix archive_format)
              && negb (is_gnu archive_format)
           then v else mode_bits v in
  to_chars false u 4 None m p s (L "mode_t") archive_format termch.

Definition taru_mode_to_chars (v : Z) (m : bytes) (p s termch : Z) : option bytes :=
  mode_to_chars v m p s POSIX_FORMAT termch.

(** ** Reading a field *)

Definition isodigit (c : ascii) : bool := in_range 48 55 c.

(** A long of 64 bits. *)
Definition to_long (z : Z) : Z := (z + 2 ^ 63) mod 2 ^ 64 - 2 ^ 63.

(** Skipping the blanks: [None] inside when the field is all blank.  The fuel is
    the object's length, which the offset cannot pass. *)
Fixpoint from_oct_blanks (fuel : nat) (m : bytes) (where_ digs : Z) : option (option (Z * Z)) :=
  match fuel with
  | O => None
  | S fuel =>
    c ← mem_read m where_;
    if isspace c then
      if digs - 1 <=? 0 then Some None else from_oct_blanks fuel m (where_ + 1) (digs - 1)
    else Some (Some (where_, digs))
  end.

Fixpoint from_oct_digits (fuel : nat) (m : bytes) (where_ digs value : Z) : option (Z * Z * Z) :=
  match fuel with
  | O => None
  | S fuel =>
    if digs >? 0 then
      c ← mem_read m where_;
      if isodigit c
      then from_oct_digits fuel m (where_ + 1) (digs - 1) (to_long (Z.lor (Z.shiftl value 3) (uchar c - 48)))
      else Some (where_, digs, value)
    else Some (where_, digs, value)
  end.

Definition taru_from_oct (digs : Z) (m : bytes) (where_ : Z) : option Z :=
  r ← from_oct_blanks (S (length m)) m where_ digs;
  match r with
  | None => Some (-1)
  | Some (where_, digs) =>
      '(where_, digs, value) ← from_oct_digits (S (Z.to_nat digs)) m where_ digs 0;
      if digs >? 0 then
        c ← mem_read m where_;
        Some (if negb (is_nul c) && negb (isspace c) then -1 else value)
      else Some value
  end.

(** The digits downwards, at least one, then leading spaces.  [digits] is the
    offset of the last store. *)
Fixpoint to_oct_digits (fuel : nat) (m : bytes) (where_ value digits : Z) : option (bytes * Z) :=
  match fuel with
  | O => None
  | S fuel =>
    let digits := digits - 1 in
    m ← mem_write m (where_ + digits) [to_char (48 + Z.land value 7)];
    let value := Z.shiftr value 3 in
    if (digits >? 0) && negb (value =? 0) then to_oct_digits fuel m where_ value digits
    else Some (m, digits)
  end.

Fixpoint to_oct_blanks (fuel : nat) (m : bytes) (where_ digits : Z) : option bytes :=
  match fuel with
  | O => None
  | S fuel =>
    if digits >? 0 then
      m ← mem_write m (where_ + (digits - 1)) [" "%char]; to_oct_blanks fuel m where_ (digits - 1)
    else Some m
  end.

Definition taru_to_oct (value digits : Z) (m : bytes) (where_ : Z) : option bytes :=
  let digits := digits - 2 in
  m ← mem_write m (where_ + digits) [" "%char];
  '(m, digits) ← to_oct_digits (S (Z.to_nat digits)) m where_ value digits;
  to_oct_blanks (S (Z.to_nat digits)) m where_ digits.

Definition is_space (c : ascii) : bool := ceq c " "%char.

(** while the next character is a digit of the base; [s] is the text. *)
Fixpoint digits_loop (base : Z) (digit : ascii -> bool) (s : bytes) (val : Z) : bytes * Z :=
  match s with
  | c :: r => if digit c then digits_loop base digit r (to_size (base * val + (uchar c - 48))) else (s, val)
  | [] => (s, val)
  end.

Fixpoint skip_spaces (s : bytes) : bytes :=
  match s with c :: r => if is_space c then skip_spaces r else s | [] => [] end.

(** *n and the result *)
Definition taru_otoul (s : bytes) : Z * Z :=
  let '(s, val) := digits_loop 8 isodigit (skip_spaces s) 0 in
  (val, match skip_spaces s with [] => 1 | _ => 0 end).

Definition taru_otoumax (s : bytes) : Z * Z :=
  let '(s, val) := digits_loop 8 isodigit (skip_spaces s) 0 in
  (val, match skip_spaces s with [] => 1 | _ => 0 end).

(** val >= oldval stops the loop after a wrap-around. *)
Fixpoint datoul_loop (s : bytes) (oldval val : Z) : bytes * Z * Z :=
  match s with
  | c :: r => if isdigit c && (val >=? oldval)
              then datoul_loop r val (to_size (10 * val + uchar c - 48)) else (s, oldval, val)
  | [] => (s, oldval, val)
  end.

(** The value stored, [None] when *n is left alone, and the result. *)
Definition taru_datoul (s : bytes) : option Z * Z :=
  let '(s, oldval, val) := datoul_loop (skip_spaces s) 0 0 in
  if negb (oldval =? 0) && (val / oldval <? 10) then (None, 2)
  else (Some val, match skip_spaces s with [] => 0 | _ => 1 end).
