(* ===== verification/TarNumbersSpec.v ===== *)
(** * Specification of the number fields

    Every writer stores one block of bytes at the field; [oct n v] is the octal
    text.  The theorems: what to_chars stores in each case, and that the readers
    read it back. *)

From S2P Require Import Prelude CString Strob StrobSpec FileMode TarNumbers.

(** The [n] last octal digits of [v], and the [n] last bytes of [v]. *)
Fixpoint oct (n : nat) (v : Z) : bytes :=
  match n with O => [] | S n => oct n (Z.shiftr v 3) ++ [to_char (48 + Z.land v 7)] end.

Fixpoint base256 (n : nat) (v sign : Z) : bytes :=
  match n with
  | O => []
  | S n => base256 n (Z.lor sign (Z.shiftr v 8)) sign ++ [to_char (Z.land v 255)]
  end.

Lemma length_oct n v : length (oct n v) = n.
Proof. revert v. induction n; intros; cbn [oct]; [done|]. rewrite length_app, IHn. cbn. lia. Qed.

Lemma length_base256 n v sign : length (base256 n v sign) = n.
Proof. revert v. induction n; intros; cbn [base256]; [done|]. rewrite length_app, IHn. cbn. lia. Qed.

Lemma zlen_oct n v : zlen (oct n v) = Z.of_nat n.
Proof. unfold zlen. by rewrite length_oct. Qed.

(** ** Blocks *)

(** Two adjacent blocks, the second stored first. *)
Lemma mem_write_join m o a b :
  0 <= o -> o + zlen a + zlen b <= zlen m ->
  (m1 ← mem_write m (o + zlen a) b; mem_write m1 o a) = mem_write m o (a ++ b).
Proof.
  intros Ho Hb. pose proof (zlen_nonneg a). pose proof (zlen_nonneg b).
  destruct (mem_write_exists m (o + zlen a) b) as [m1 E1]; [lia|lia|].
  pose proof (mem_write_length _ _ _ _ E1) as L1. rewrite E1. obind.
  destruct (mem_write_exists m1 o a) as [m2 E2]; [lia|unfold zlen in *; lia|].
  destruct (mem_write_exists m o (a ++ b)) as [m3 E3]; [lia|rewrite zlen_app; lia|].
  rewrite E2, E3. f_equal. apply list_eq. intros i.
  rewrite (mem_write_lookup _ _ _ _ i E2), (mem_write_lookup _ _ _ _ i E3), (mem_write_lookup _ _ _ _ i E1).
  rewrite zlen_app. unfold zlen in *.
  destruct (decide (o <= Z.of_nat i < o + Z.of_nat (length a))).
  - rewrite decide_True by lia. by rewrite lookup_app_l by lia.
  - destruct (decide (o + Z.of_nat (length a) <= Z.of_nat i < o + Z.of_nat (length a) + Z.of_nat (length b))).
    + rewrite decide_True by lia. rewrite lookup_app_r by lia. f_equal. lia.
    + by rewrite decide_False by lia.
Qed.

Lemma octal_loop_write n : forall m o v,
  0 <= o -> o + Z.of_nat (S n) <= zlen m ->
  octal_loop (S n) m o v = mem_write m o (oct (S n) v).
Proof.
  induction n as [|n IH]; intros m o v Ho Hb.
  - cbn [octal_loop oct app Z.of_nat]. rewrite Z.add_0_r. change (2 ^ LG_8 - 1) with 7.
    by destruct (mem_write m o _).
  - remember (S n) as k. cbn [octal_loop oct]. subst k.
    rewrite <- mem_write_join by (rewrite ?zlen_oct, ?zlen_cons, ?zlen_nil; lia).
    rewrite zlen_oct. change (2 ^ LG_8 - 1) with 7.
    destruct (mem_write m _ _) as [m1|] eqn:E; [|done]. cbn [mbind option_bind].
    apply mem_write_length in E. apply IH; [done|unfold zlen in *; lia].
Qed.

Lemma base256_loop_write n sign : forall m o v,
  0 <= o -> o + Z.of_nat (S n) <= zlen m ->
  base256_loop (S n) m o v sign = mem_write m o (base256 (S n) v sign).
Proof.
  induction n as [|n IH]; intros m o v Ho Hb.
  - cbn [base256_loop base256 app Z.of_nat]. rewrite Z.add_0_r. change (2 ^ LG_256 - 1) with 255.
    by destruct (mem_write m o _).
  - remember (S n) as k. cbn [base256_loop base256]. subst k.
    assert (Hz : forall w, zlen (base256 (S n) w sign) = Z.of_nat (S n))
      by (intros; unfold zlen; by rewrite length_base256).
    rewrite <- mem_write_join by (rewrite ?Hz, ?zlen_cons, ?zlen_nil; lia).
    rewrite Hz. change (2 ^ LG_256 - 1) with 255.
    destruct (mem_write m _ _) as [m1|] eqn:E; [|done]. cbn [mbind option_bind].
    apply mem_write_length in E. apply IH; [done|unfold zlen in *; lia].
Qed.

(** The terminator and the digits: one block of [n + 2] bytes. *)
Lemma octal_field m o v n t :
  0 <= o -> o + Z.of_nat n + 2 <= zlen m ->
  (m1 ← mem_write m (o + Z.of_nat (S n)) [t]; to_octal v m1 o (Z.of_nat (S n)))
  = mem_write m o (oct (S n) v ++ [t]).
Proof.
  intros Ho Hb. rewrite <- mem_write_join by (rewrite ?zlen_oct, ?zlen_cons, ?zlen_nil; lia).
  rewrite zlen_oct. destruct (mem_write m _ _) as [m1|] eqn:E; [|done]. cbn [mbind option_bind].
  apply mem_write_length in E. unfold to_octal. rewrite Nat2Z.id.
  apply octal_loop_write; [done|unfold zlen in *; lia].
Qed.

Lemma base256_field m o v n c sign :
  0 <= o -> o + Z.of_nat n + 2 <= zlen m ->
  (m1 ← mem_write m o [c]; base256_loop (S n) m1 (o + 1) v sign)
  = mem_write m o (c :: base256 (S n) v sign).
Proof.
  intros Ho Hb. destruct (mem_write_exists m o [c]) as [m1 E1]; [lia|rewrite zlen_cons, zlen_nil; lia|].
  pose proof (mem_write_length _ _ _ _ E1) as L1. rewrite E1. obind.
  rewrite base256_loop_write by (unfold zlen in *; lia). set (bs := base256 (S n) v sign).
  assert (Hz : zlen bs = Z.of_nat (S n)) by (unfold zlen, bs; by rewrite length_base256).
  destruct (mem_write_exists m1 (o + 1) bs) as [m2 E2]; [lia|unfold zlen in *; lia|].
  destruct (mem_write_exists m o (c :: bs)) as [m3 E3]; [lia|rewrite zlen_cons; lia|].
  rewrite E2, E3. f_equal. apply list_eq. intros i.
  rewrite (mem_write_lookup _ _ _ _ i E2), (mem_write_lookup _ _ _ _ i E3), (mem_write_lookup _ _ _ _ i E1).
  rewrite !zlen_cons, zlen_nil.
  destruct (decide (o + 1 <= Z.of_nat i < o + 1 + zlen bs)).
  - rewrite decide_True by lia. replace (i - Z.to_nat o)%nat with (S (i - Z.to_nat (o + 1))) by lia. done.
  - destruct (decide (o <= Z.of_nat i < o + (1 + 0))).
    + rewrite decide_True by lia. by replace (i - Z.to_nat o)%nat with 0%nat by lia.
    + by rewrite decide_False by lia.
Qed.

(** ** Values *)

Definition oct_digit (c : ascii) : Prop := isodigit c = true.

Lemma oct_digits n v : Forall oct_digit (oct n v).
Proof.
  revert v. induction n as [|n IH]; intros v; cbn [oct]; [constructor|]. apply Forall_app. split; [done|].
  constructor; [|constructor]. unfold oct_digit, isodigit, in_range. rewrite uchar_to_char.
  change 7 with (Z.ones 3). rewrite Z.land_ones by lia.
  pose proof (Z.mod_pos_bound v (2 ^ 3)). rewrite Z.mod_small by lia. by ztest.
Qed.

(** The number a list of digits stands for, behind the digits of [acc]. *)
Definition oct_value (acc : Z) (ds : bytes) : Z := foldl (fun a c => 8 * a + (uchar c - 48)) acc ds.

Lemma oct_value_oct n : forall acc v, 0 <= v < 8 ^ Z.of_nat n ->
  oct_value acc (oct n v) = acc * 8 ^ Z.of_nat n + v.
Proof.
  induction n as [|n IH]; intros acc v Hv; cbn [oct].
  - change (8 ^ Z.of_nat 0) with 1 in *. cbn. lia.
  - rewrite Nat2Z.inj_succ, Z.pow_succ_r in Hv |- * by lia.
    assert (Hs : Z.shiftr v 3 = v / 8) by (by rewrite Z.shiftr_div_pow2).
    assert (Hl : Z.land v 7 = v mod 8) by (change 7 with (Z.ones 3); by rewrite Z.land_ones).
    unfold oct_value. rewrite foldl_app. cbn [foldl]. fold (oct_value acc (oct n (Z.shiftr v 3))).
    rewrite Hs, Hl, IH by (split; [apply Z.div_pos; lia|apply Z.div_lt_upper_bound; lia]).
    rewrite uchar_to_char. pose proof (Z.mod_pos_bound v 8). rewrite Z.mod_small by lia.
    pose proof (Z.div_mod v 8). lia.
Qed.

Lemma oct_value_grows ds : forall acc, 0 <= acc -> Forall oct_digit ds -> acc <= oct_value acc ds.
Proof.
  induction ds as [|c ds IH]; intros acc Ha HF; [done|]. apply Forall_cons in HF as [Hc HF].
  unfold oct_digit, isodigit, in_range in Hc. apply andb_true_iff in Hc as [Hc1 Hc2]. zbool.
  specialize (IH (8 * acc + (uchar c - 48)) ltac:(lia) HF). change (oct_value acc (c :: ds)) with (oct_value (8 * acc + (uchar c - 48)) ds). lia.
Qed.

(** ** Reading *)

Lemma shift_in a d : 0 <= d < 8 -> Z.lor (Z.shiftl a 3) d = 8 * a + d.
Proof.
  intros Hd. rewrite <- Z.add_nocarry_lor.
  - rewrite Z.shiftl_mul_pow2 by lia. lia.
  - apply Z.bits_inj'. intros n Hn. rewrite Z.land_spec, Z.bits_0.
    destruct (Z.ltb_spec n 3); [by rewrite Z.shiftl_spec_low by lia|].
    replace d with (d mod 2 ^ 3) by (by apply Z.mod_small).
    by rewrite Z.mod_pow2_bits_high, andb_false_r by lia.
Qed.

Lemma to_long_id z : 0 <= z < 2 ^ 63 -> to_long z = z.
Proof. intros. unfold to_long. rewrite Z.mod_small; lia. Qed.

Lemma stored_cons m o c bs : 0 <= o -> stored m o (c :: bs) -> mem_read m o = Some c /\ stored m (o + 1) bs.
Proof.
  intros Ho Hs. split.
  - unfold mem_read. ztest. specialize (Hs 0%nat ltac:(cbn; lia)). by rewrite Nat.add_0_r in Hs.
  - intros i Hi. specialize (Hs (S i) ltac:(cbn; lia)). rewrite <- Nat.add_succ_comm in Hs.
    by replace (Z.to_nat (o + 1)) with (S (Z.to_nat o)) by lia.
Qed.

Lemma oct_digit_not_space c : oct_digit c -> isspace c = false /\ 0 <= uchar c - 48 < 8.
Proof.
  unfold oct_digit, isodigit, isspace, in_range. intros [H1 H2]%andb_true_iff. zbool.
  split; [by ztest|lia].
Qed.

Lemma from_oct_digits_spec m t ds : forall fuel o digs acc,
  0 <= o -> stored m o (ds ++ [t]) -> Forall oct_digit ds -> isodigit t = false -> 0 <= acc ->
  zlen ds < digs -> oct_value acc ds < 2 ^ 63 -> (length ds < fuel)%nat ->
  from_oct_digits fuel m o digs acc = Some (o + zlen ds, digs - zlen ds, oct_value acc ds).
Proof.
  induction ds as [|c ds IH]; intros fuel o digs acc Ho Hs HF Ht Ha Hd Hv Hf;
    (destruct fuel as [|fuel]; [cbn in Hf; lia|]); cbn [from_oct_digits app] in *;
    apply stored_cons in Hs as [Hc Hs]; try done.
  - rewrite zlen_nil in *. ztest. rewrite Hc. obind. rewrite Ht. by rewrite Z.add_0_r, Z.sub_0_r.
  - rewrite zlen_cons in *. pose proof (zlen_nonneg ds). ztest. rewrite Hc. obind.
    apply Forall_cons in HF as [Hod HF]. destruct (oct_digit_not_space _ Hod) as [_ Hr].
    unfold oct_digit in Hod. rewrite Hod. rewrite shift_in by done.
    change (oct_value acc (c :: ds)) with (oct_value (8 * acc + (uchar c - 48)) ds) in *.
    pose proof (oct_value_grows ds (8 * acc + (uchar c - 48)) ltac:(lia) HF).
    rewrite to_long_id by lia. rewrite IH; [|lia|done|done|done|lia|lia|done|cbn in Hf; lia].
    do 2 f_equal. f_equal; lia.
Qed.

(** A field of digits and a terminator reads as its value. *)
Lemma from_oct_field digs m o ds t :
  0 <= o -> stored m o (ds ++ [t]) -> Forall oct_digit ds -> ds <> [] ->
  is_nul t || isspace t = true -> oct_value 0 ds < 2 ^ 63 -> zlen ds < digs ->
  taru_from_oct digs m o = Some (oct_value 0 ds).
Proof.
  intros Ho Hs HF Hne Ht Hv Hdigs. destruct ds as [|c ds]; [done|]. clear Hne. unfold taru_from_oct.
  cbn [from_oct_blanks]. pose proof (stored_cons m o c (ds ++ [t]) Ho Hs) as [Hc _]. rewrite Hc. obind.
  pose proof (Forall_inv HF) as Hod. destruct (oct_digit_not_space _ Hod) as [-> _]. obind.
  assert (isodigit t = false) as Hto.
  { destruct (isodigit t) eqn:E; [|done]. destruct (oct_digit_not_space t E) as [E1 _].
    rewrite E1, orb_false_r in Ht. apply ceq_eq in Ht as ->. done. }
  rewrite (from_oct_digits_spec m t (c :: ds)); [|done|done|done|done|lia|lia|done|unfold zlen in *; lia].
  obind. pose proof (zlen_nonneg (c :: ds)). ztest.
  assert (mem_read m (o + zlen (c :: ds)) = Some t) as ->.
  { unfold mem_read. ztest. specialize (Hs (length (c :: ds))). rewrite lookup_app_r, Nat.sub_diag in Hs by lia.
    replace (Z.to_nat (o + zlen (c :: ds))) with (Z.to_nat o + length (c :: ds))%nat by (unfold zlen; lia).
    apply Hs. rewrite length_app. cbn. lia. }
  obind. by destruct (is_nul t), (isspace t).
Qed.

Lemma digits_loop_oct ds : forall acc, 0 <= acc -> Forall oct_digit ds -> oct_value acc ds < 2 ^ 64 ->
  digits_loop 8 isodigit ds acc = ([], oct_value acc ds).
Proof.
  induction ds as [|c ds IH]; intros acc Ha HF Hv; [done|]. apply Forall_cons in HF as [Hod HF].
  destruct (oct_digit_not_space _ Hod) as [_ Hr]. cbn [digits_loop]. unfold oct_digit in Hod. rewrite Hod.
  change (oct_value acc (c :: ds)) with (oct_value (8 * acc + (uchar c - 48)) ds) in *.
  pose proof (oct_value_grows ds (8 * acc + (uchar c - 48)) ltac:(lia) HF).
  rewrite to_size_id by lia. apply IH; [lia|done|done].
Qed.

Lemma otoul_digits ds : Forall oct_digit ds -> oct_value 0 ds < 2 ^ 64 -> taru_otoul ds = (oct_value 0 ds, 1).
Proof.
  intros HF Hv. unfold taru_otoul.
  assert (skip_spaces ds = ds) as ->.
  { destruct HF as [|c ds Hod _]; [done|]. cbn. destruct (is_space c) eqn:E; [|done].
    apply ceq_eq in E as ->. done. }
  by rewrite digits_loop_oct.
Qed.

Lemma oct_no_nul n v : no_nul (oct n v).
Proof. intros Hin. pose proof (oct_digits n v) as HF. rewrite Forall_forall in HF. by apply HF in Hin. Qed.

Lemma max_val_oct size : 2 <= size <= 21 -> MAX_VAL_WITH_DIGITS (size - 1) LG_8 = 8 ^ (size - 1) - 1.
Proof.
  intros Hs. unfold MAX_VAL_WITH_DIGITS, LG_8. rewrite to_size_id by lia. ztest.
  rewrite Z.mul_comm, Z.pow_mul_r by lia. done.
Qed.

(** The first case of to_chars. *)
Lemma to_chars_fits d v valsize subst m o size type fmt t :
  2 <= size <= 21 -> 0 <= v < 8 ^ (size - 1) -> 0 <= o -> o + size <= zlen m ->
  to_chars_rec (S d) false v valsize subst m o size type fmt t
  = mem_write m o (oct (Z.to_nat (size - 1)) v ++ [to_char t]).
Proof.
  intros Hs Hv Ho Hb. cbn [to_chars_rec]. rewrite max_val_oct by done.
  assert ((v <=? 8 ^ (size - 1) - 1) = true) as -> by (apply Z.leb_le; lia). cbn [negb andb].
  replace (size - 1) with (Z.of_nat (S (Z.to_nat (size - 2)))) by lia. rewrite Nat2Z.id.
  apply octal_field; [done|lia].
Qed.

(** ** Staying inside the field *)

(** [m'] differs from [m] at most in the [size] bytes at [o]. *)
Definition only_field (m : bytes) (o size : Z) (m' : bytes) : Prop :=
  length m' = length m
  /\ forall i, Z.of_nat i < o \/ o + size <= Z.of_nat i -> m' !! i = m !! i.

Lemma only_field_refl m o size : only_field m o size m.
Proof. by split. Qed.

Lemma write_only_field m o bs : 
  0 <= o -> o + zlen bs <= zlen m -> exists m', mem_write m o bs = Some m' /\ only_field m o (zlen bs) m'.
Proof.
  intros Ho Hb. destruct (mem_write_exists m o bs Ho Hb) as [m' E]. exists m'. split; [done|].
  split; [by eapply mem_write_length|]. intros i Hi. rewrite (mem_write_lookup _ _ _ _ i E).
  by rewrite decide_False by lia.
Qed.

Definition is_id_type (type : bytes) : bool :=
  (strcmp type (L "uid_t") =? 0) || (strcmp type (L "gid_t") =? 0).

(** A body of to_chars: the recursive calls are replaced by a hypothesis. *)
Lemma to_chars_step d neg v valsize subst m o size type fmt t :
  3 <= size <= 13 -> 0 <= o -> o + size <= zlen m ->
  (is_id_type type = true -> exists m',
     to_chars_rec d neg (Z.lxor 8 (size - 1)) valsize subst m o size (L "id_again") fmt t = Some m'
     /\ only_field m o size m') ->
  (forall sub negsub s, is_id_type type = false -> subst = Some (sub, negsub) -> exists m',
     to_chars_rec d (negsub && is_gnu fmt) s valsize None m o size type fmt t = Some m'
     /\ only_field m o size m') ->
  exists m', to_chars_rec (S d) neg v valsize subst m o size type fmt t = Some m'
    /\ only_field m o size m'.
Proof.
  intros Hs Ho Hb Hid Hsub. cbn [to_chars_rec]. fold (is_id_type type).
  assert (Hoct : forall w u, exists m', (m1 ← mem_write m (o + (size - 1)) [u];
    to_octal w m1 o (size - 1)) = Some m' /\ only_field m o size m').
  { intros w u. replace (size - 1) with (Z.of_nat (S (Z.to_nat (size - 2)))) by lia.
    rewrite octal_field by lia. set (bs := oct _ w ++ [u]).
    assert (zlen bs = size) as E by (subst bs; rewrite zlen_snoc, zlen_oct; lia).
    destruct (write_only_field m o bs Ho ltac:(lia)) as (m' & -> & Hf). rewrite E in Hf. by exists m'. }
  destruct (negb neg && _); [apply Hoct|].
  destruct (is_id_type type) eqn:Ei; [by apply Hid|].
  destruct (_ && (is_gnu fmt || is_oldgnu fmt)).
  { unfold to_base256. set (sign := to_size _). set (c := to_char _).
    replace (Z.to_nat (size - 1)) with (S (Z.to_nat (size - 2))) by lia.
    rewrite base256_field by lia. set (bs := c :: _).
    assert (zlen bs = size) as E by (subst bs; unfold zlen; cbn [length]; rewrite length_base256; lia).
    destruct (write_only_field m o bs Ho ltac:(lia)) as (m' & -> & Hf). rewrite E in Hf. by exists m'. }
  destruct (neg && _); [apply Hoct|].
  destruct subst as [[sub negsub]|]; [by eapply Hsub|]. exists m. split; [done|apply only_field_refl].
Qed.

Lemma to_chars_in_bounds neg v valsize subst m o size type fmt t :
  3 <= size <= 13 -> 0 <= o -> o + size <= zlen m ->
  exists m', to_chars neg v valsize subst m o size type fmt t = Some m' /\ only_field m o size m'.
Proof.
  intros Hs Ho Hb. unfold to_chars.
  assert (H1 : forall d neg v ty, is_id_type ty = false -> exists m',
    to_chars_rec (S d) neg v valsize None m o size ty fmt t = Some m' /\ only_field m o size m').
  { intros d ng w ty Hty. apply to_chars_step; [done|done|done|by rewrite Hty|done]. }
  assert (H2 : forall d neg v ty, is_id_type ty = false -> exists m',
    to_chars_rec (S (S d)) neg v valsize subst m o size ty fmt t = Some m' /\ only_field m o size m').
  { intros d ng w ty Hty. apply to_chars_step; [done|done|done|by rewrite Hty|]. intros. by apply H1. }
  apply to_chars_step; [done|done|done| |].
  - intros _. by apply H2.
  - intros. by apply H1.
Qed.

(** ** Theorems *)

(** A number that fits is stored as octal digits and the terminator and
    reads back as itself with both readers, whatever the type and format. *)
Theorem octal_field_roundtrip v valsize subst m o size type fmt t :
  2 <= size <= 21 -> 0 <= v < 8 ^ (size - 1) -> 0 <= o -> o + size <= zlen m -> t = 0 \/ t = 32 ->
  exists m', to_chars false v valsize subst m o size type fmt t = Some m'
    /\ only_field m o size m' /\ taru_from_oct size m' o = Some v
    /\ (t = 0 -> taru_otoul <$> str_at m' o = Some (v, 1)).
Proof.
  intros Hs Hv Ho Hb Ht. unfold to_chars. rewrite to_chars_fits by done.
  set (ds := oct (Z.to_nat (size - 1)) v).
  assert (Hd : zlen ds = size - 1) by (subst ds; rewrite zlen_oct; lia).
  assert (Hval : oct_value 0 ds = v).
  { subst ds. rewrite oct_value_oct; rewrite Z2Nat.id by lia; lia. }
  assert (Hmax : v < 2 ^ 60).
  { apply Z.lt_le_trans with (8 ^ (size - 1)); [lia|]. change (2 ^ 60) with (8 ^ 20). apply Z.pow_le_mono_r; lia. }
  destruct (write_only_field m o (ds ++ [to_char t]) Ho) as (m' & E & Hf); [rewrite zlen_snoc; lia|].
  rewrite zlen_snoc in Hf. replace (zlen ds + 1) with size in Hf by lia.
  exists m'. split; [done|]. split; [done|]. split.
  - rewrite <- Hval.
    apply from_oct_field with (to_char t); [done|by apply mem_write_stored with m|apply oct_digits| | |lia|lia].
    + intros E0. rewrite E0, zlen_nil in Hd. lia.
    + by destruct Ht as [->| ->].
  - intros ->. change (to_char 0) with NUL in E.
    pose proof (holds_write m o ds m' (oct_no_nul _ _) E) as Hh. apply str_at_holds in Hh; [|done].
    rewrite Hh. cbn [fmap option_fmap option_map]. f_equal.
    rewrite (otoul_digits ds (oct_digits _ _)) by lia. by rewrite Hval.
Qed.

(** C39: to_chars is defined for every value, sign, type and format and changes
    nothing outside the field; but a user or group id that does not fit is
    replaced by 8 xor (size - 1), which is 15 for the fields of a header. *)
Theorem to_chars_stays_in_field neg v valsize subst m o size type fmt t :
  3 <= size <= 13 -> 0 <= o -> o + size <= zlen m ->
  (exists m', to_chars neg v valsize subst m o size type fmt t = Some m' /\ only_field m o size m')
  /\ (size = 8 -> 8 ^ 7 <= v -> is_id_type type = true -> t = 0 \/ t = 32 ->
      exists m', to_chars false v valsize subst m o size type fmt t = Some m'
        /\ taru_from_oct size m' o = Some 15).
Proof.
  intros Hs Ho Hb. split; [by apply to_chars_in_bounds|]. intros -> Hv Hi Ht.
  unfold to_chars. cbn [to_chars_rec]. fold (is_id_type type). rewrite max_val_oct by lia.
  assert ((v <=? 8 ^ (8 - 1) - 1) = false) as -> by (apply Z.leb_gt; lia). cbn [negb andb]. rewrite Hi.
  change (Z.lxor 8 (8 - 1)) with 15.
  match goal with |- exists m', ?f = Some m' /\ _ =>
    change f with (to_chars_rec 2 false 15 valsize subst m o 8 (L "id_again") fmt t) end.
  rewrite to_chars_fits by lia. set (ds := oct _ 15).
  destruct (mem_write_exists m o (ds ++ [to_char t]) Ho) as (m' & E); [done|].
  exists m'. split; [done|]. change 15 with (oct_value 0 ds).
  apply from_oct_field with (to_char t); [done|by apply mem_write_stored with m|apply oct_digits|done| |done|done].
  by destruct Ht as [->| ->].
Qed.

Module Witness.
Lemma octal_field_roundtrip_witness :
  exists m', to_chars false 493 4 None (replicate 512 "x"%char) 100 8 (L "mode_t") POSIX_FORMAT 0 = Some m'
    /\ only_field (replicate 512 "x"%char) 100 8 m' /\ taru_from_oct 8 m' 100 = Some 493
    /\ (0 = 0 -> taru_otoul <$> str_at m' 100 = Some (493, 1)).
Proof.
  apply (octal_field_roundtrip 493 4 None (replicate 512 "x"%char) 100 8 (L "mode_t") POSIX_FORMAT 0);
    [lia|done|lia|done|by left].
Defined.

(** The user id 3000000. *)
Lemma to_chars_stays_in_field_witness :
  (exists m', to_chars false 3000000 4 None (replicate 512 NUL) 108 8 (L "uid_t") GNU_FORMAT 0 = Some m'
     /\ only_field (replicate 512 NUL) 108 8 m')
  /\ (8 = 8 -> 8 ^ 7 <= 3000000 -> is_id_type (L "uid_t") = true -> 0 = 0 \/ 0 = 32 ->
      exists m', to_chars false 3000000 4 None (replicate 512 NUL) 108 8 (L "uid_t") GNU_FORMAT 0 = Some m'
        /\ taru_from_oct 8 m' 108 = Some 15).
Proof.
  apply (to_chars_stays_in_field false 3000000 4 None (replicate 512 NUL) 108 8 (L "uid_t") GNU_FORMAT 0);
    [lia|lia|done].
Defined.
End Witness.
