(* ===== verification/TarHeader.v ===== *)
(** * Tar headers (swsupplib/taru/otar.c, mtar.c and etar.c)

    A struct tar_header is the object [m] of at least 512 bytes, with the fields
    at their offsets; user data base look-ups are the parameter [nobody] of the
    id fields. *)

From S2P Require Import Prelude CString Strob Pathname Escape FileMode TarNumbers.

Definition TARRECORDSIZE : Z := 512.
Definition NAME_FIELD_SIZE : Z := 100.
Definition PREFIX_FIELD_SIZE : Z := 155.
Definition TARNAMESIZE : Z := 100.
Definition HEADER_ALLOC : Z := 2048.

(** THB_BO_*: the offsets of the fields *)
Definition THB_BO_name : Z := 0.
Definition THB_BO_mode : Z := 100.
Definition THB_BO_uid : Z := 108.
Definition THB_BO_gid : Z := 116.
Definition THB_BO_size : Z := 124.
Definition THB_BO_mtime : Z := 136.
Definition THB_BO_chksum : Z := 148.
Definition THB_BO_typeflag : Z := 156.
Definition THB_BO_linkname : Z := 157.
Definition THB_BO_magic : Z := 257.
Definition THB_BO_version : Z := 263.
Definition THB_BO_uname : Z := 265.
Definition THB_BO_gname : Z := 297.
Definition THB_BO_devmajor : Z := 329.
Definition THB_BO_devminor : Z := 337.
Definition THB_BO_prefix : Z := 345.

(** ** The check sum *)

(** The sum of the [n] bytes from [p] on. *)
Fixpoint sum_bytes (m : bytes) (p : Z) (n : nat) : option Z :=
  match n with
  | O => Some 0
  | S n => c ← mem_read m p; s ← sum_bytes m (p + 1) n; Some (uchar c + s)
  end.

(** The check sum field counts as eight blanks. *)
Definition taru_tar_checksum (hdr : bytes) : option Z :=
  a ← sum_bytes hdr 0 (Z.to_nat THB_BO_chksum);
  b ← sum_bytes hdr (THB_BO_chksum + 8) (Z.to_nat (TARRECORDSIZE - THB_BO_chksum - 8));
  Some (a + 8 * 32 + b).

Definition TARU_TAR_BE_LIKE_PAX : Z := 1.
Definition TARU_TAR_BE_LIKE_STAR : Z := 32.

Definition taru_set_tar_header_sum (tar_hdr : bytes) (tar_iflags : Z) : option bytes :=
  let tar_iflags_like_star := bit tar_iflags TARU_TAR_BE_LIKE_STAR in
  let tar_iflags_like_pax := bit tar_iflags TARU_TAR_BE_LIKE_PAX in
  let termch := if tar_iflags_like_star then 32 else 0 in
  sum ← taru_tar_checksum tar_hdr;
  uintmax_to_chars sum tar_hdr THB_BO_chksum (if tar_iflags_like_pax || tar_iflags_like_star then 8 else 7)
    POSIX_FORMAT termch.

(** 0, 1 (no magic) or -1 (wrong sum). *)
Definition taru_tarheader_check (buffer : bytes) : option Z :=
  p ← mem_at buffer THB_BO_magic;
  if negb (strncmp (cstr (take 5 p)) (L "ustar") 5 =? 0) then Some 1
  else
    sumis ← taru_from_oct 8 buffer THB_BO_chksum;
    sum ← taru_tar_checksum buffer;
    Some (if negb (sum =? to_size sumis) then -1 else 0).

(** ** Names *)

Fixpoint split_loop (name : bytes) (i : nat) : option nat :=
  match i with
  | O => Some O
  | S j => c ← name !! i; if is_slash c then Some i else split_loop name j
  end.

Definition split_long_name (name : bytes) (length : Z) : option nat :=
  let length := if length >? PREFIX_FIELD_SIZE then PREFIX_FIELD_SIZE + 1 else length in
  split_loop name (Z.to_nat (length - 1)).

(** The header afterwards and the result; a name that cannot be split leaves
    both fields empty. *)
Definition taru_split_name_ustar (tar_hdr name : bytes) : option (bytes * Z) :=
  let length := zlen name in
  m ← memset tar_hdr THB_BO_name NUL NAME_FIELD_SIZE;
  m ← memset m THB_BO_prefix NUL PREFIX_FIELD_SIZE;
  if length >? PREFIX_FIELD_SIZE + NAME_FIELD_SIZE + 1 then Some (m, -1)
  else
    i ← split_long_name name length;
    if length - Z.of_nat i - 1 >? NAME_FIELD_SIZE then Some (m, -1)
    else if Z.of_nat i =? 0 then Some (m, 0)
    else
      m ← mem_write m THB_BO_name (drop (i + 1) name);
      m ← mem_write m THB_BO_prefix (take i name);
      Some (m, 0).

Section Names.
Context `{Malloc}.

(** The name without its hexadecimal escapes. *)
Definition unescape_name (fpname : bytes) : option bytes :=
  match strstr fpname (L "\x") with
  | Some _ =>
      tmp ← strob_open 64;
      tmp ← strob_strcpy tmp fpname;
      m ← swlib_process_hex_escapes (str_ tmp);
      text_of m
  | None => Some fpname
  end.

Definition taru_set_new_name (tar_hdr fpname : bytes) (tar_iflags : Z) : option (bytes * Z) :=
  name ← unescape_name fpname;
  '(m, ret) ← (if zlen name <=? TARNAMESIZE
               then m ← mem_write tar_hdr THB_BO_name (strncpy_bytes name (Z.to_nat TARNAMESIZE)); Some (m, 0)
               else taru_split_name_ustar tar_hdr name);
  if negb (ret =? 0) then Some (m, ret)
  else m ← taru_set_tar_header_sum m tar_iflags; Some (m, ret).
End Names.

Definition taru_set_new_linkname (tar_hdr name : bytes) : option (bytes * Z) :=
  m ← memset tar_hdr THB_BO_linkname NUL 100;
  m ← mem_write m THB_BO_linkname (strncpy_bytes name 100);
  Some (m, if zlen name >? 100 then -1 else 0).

(** ** ETAR, the simple interface *)

Record ETAR := mkETAR { etar_tarheaderflagsM : Z; tar_hdrM : bytes; timeM : Z }.

Definition set_hdr (m : bytes) (e : ETAR) : ETAR := mkETAR (etar_tarheaderflagsM e) m (timeM e).

(** [now] is what time (NULL) returns; malloc's bytes are cleared at once. *)
Definition etar_open (flags now : Z) : ETAR := mkETAR flags (replicate (Z.to_nat HEADER_ALLOC) NUL) now.

Definition etar_get_hdr (e : ETAR) : bytes := tar_hdrM e.

(** The header changed by [f]. *)
Definition on_hdr (f : bytes -> option bytes) (e : ETAR) : option ETAR :=
  m ← f (tar_hdrM e); Some (set_hdr m e).

Section Etar.
Context `{Malloc} (nobody : Z * bool).
Implicit Types (e : ETAR).

Definition etar_set_pathname e (pathname : bytes) : option (ETAR * Z) :=
  '(m, ret) ← taru_set_new_name (tar_hdrM e) pathname (etar_tarheaderflagsM e); Some (set_hdr m e, ret).

Definition etar_set_linkname e (name : bytes) : option (ETAR * Z) :=
  m ← memset (tar_hdrM e) THB_BO_linkname NUL 100;
  m ← mem_write m THB_BO_linkname (strncpy_bytes name 100);
  Some (set_hdr m e, if zlen name <=? 100 then 0 else 1).

Definition etar_set_uname e (name : bytes) : option (ETAR * Z) :=
  m ← mem_write (tar_hdrM e) THB_BO_uname (strncpy_bytes name 32);
  Some (set_hdr m e, if zlen name >? 32 then -1 else 0).

Definition etar_set_gname e (name : bytes) : option (ETAR * Z) :=
  m ← mem_write (tar_hdrM e) THB_BO_gname (strncpy_bytes name 32);
  Some (set_hdr m e, if zlen name >? 32 then -1 else 0).

Definition etar_set_chksum e : option ETAR :=
  on_hdr (fun m => taru_set_tar_header_sum m (etar_tarheaderflagsM e)) e.

(** The arguments are unsigned int and unsigned long; the ids and device
    numbers are converted to the types of the fields. *)
Definition etar_set_mode_ul e (mode_i : Z) : option ETAR :=
  on_hdr (fun m => mode_to_chars mode_i m THB_BO_mode 8 POSIX_FORMAT 0) e.
Definition etar_set_uid e (val : Z) : option ETAR :=
  on_hdr (fun m => uid_to_chars nobody val m THB_BO_uid 8 POSIX_FORMAT 0) e.
Definition etar_set_gid e (val : Z) : option ETAR :=
  on_hdr (fun m => gid_to_chars nobody val m THB_BO_gid 8 POSIX_FORMAT 0) e.
Definition etar_set_size e (val : Z) : option ETAR :=
  on_hdr (fun m => off_to_chars val m THB_BO_size 12 POSIX_FORMAT 0) e.
Definition etar_set_time e (val : Z) : option ETAR :=
  on_hdr (fun m => time_to_chars (to_long (to_size val)) m THB_BO_mtime 12 POSIX_FORMAT 0) e.
Definition etar_set_typeflag e (tar_type : ascii) : option ETAR :=
  on_hdr (fun m => mem_write m THB_BO_typeflag [tar_type]) e.
Definition etar_set_devmajor e (devno : Z) : option ETAR :=
  on_hdr (fun m => major_to_chars (to_int devno) m THB_BO_devmajor 8 POSIX_FORMAT 0) e.
Definition etar_set_devminor e (devno : Z) : option ETAR :=
  on_hdr (fun m => minor_to_chars (to_int devno) m THB_BO_devminor 8 POSIX_FORMAT 0) e.

(** The length of the data; a negative size means a string. *)
Definition etar_set_size_from_buffer e (buf : bytes) (bufsize : Z) : option (ETAR * Z) :=
  len ← (if bufsize <? 0 then strlen_at buf 0 else Some bufsize);
  e ← etar_set_size e (len mod 2 ^ 32);
  Some (e, len).

Definition ETAR_UNSET_FILENAME : bytes := L "ETAR_UNSET_FILENAME".

Definition etar_init_hdr e : option ETAR :=
  let m := replicate (Z.to_nat HEADER_ALLOC) NUL in
  m ← mem_write m THB_BO_version (L "0");
  m ← mem_write m (THB_BO_version + 1) (L "0");
  m ← mem_write m THB_BO_magic (strncpy_bytes (L "ustar") 6);
  m ← mem_write m (THB_BO_magic + 6) (strncpy_bytes (L "00") 2);
  '(e, _) ← etar_set_pathname (set_hdr m e) ETAR_UNSET_FILENAME;
  e ← etar_set_mode_ul e 360;
  e ← etar_set_uid e 0;
  e ← etar_set_gid e 0;
  e ← etar_set_size e 0;
  e ← etar_set_time e (timeM e);
  e ← etar_set_typeflag e DIRTYPE;
  '(e, _) ← etar_set_linkname e [];
  '(e, _) ← etar_set_uname e [];
  '(e, _) ← etar_set_gname e [];
  e ← etar_set_devmajor e 0;
  e ← etar_set_devminor e 0;
  etar_set_chksum e.
End Etar.
