(* ===== verification/TarHeaderSpec.v ===== *)
(** * Specification of tar headers

    A header with its check sum set passes the check, and any other header that
    differs in one byte does not; long names are split when they can be. *)

From S2P Require Import Prelude CString Strob StrobSpec Pathname PathSpec Escape FileMode TarNumbers TarNumbersSpec TarHeader.

(** ** Sums *)

Lemma sum_bytes_ext m m' n : forall p,
  0 <= p -> (forall i, p <= Z.of_nat i < p + Z.of_nat n -> m !! i = m' !! i) -> sum_bytes m p n = sum_bytes m' p n.
Proof.
  induction n as [|n IH]; intros p Hp Hi; cbn [sum_bytes]; [done|].
  assert (mem_read m p = mem_read m' p) as ->.
  { unfold mem_read. ztest. apply Hi. lia. }
  destruct (mem_read m' p); [|done]. cbn [mbind option_bind]. rewrite (IH (p + 1)); [done|lia|].
  intros i ?. apply Hi. lia.
Qed.

Lemma sum_bytes_total m n : forall p,
  0 <= p -> p + Z.of_nat n <= zlen m ->
  exists s, sum_bytes m p n = Some s /\ 0 <= s <= 255 * Z.of_nat n.
Proof.
  induction n as [|n IH]; intros p Hp Hb; cbn [sum_bytes]; [by exists 0|].
  unfold mem_read. ztest. destruct (lookup_lt_is_Some_2 m (Z.to_nat p)) as [c Hc]; [unfold zlen in *; lia|].
  rewrite Hc. obind. destruct (IH (p + 1)) as (s & -> & Hs); [lia|lia|]. obind.
  exists (uchar c + s). split; [done|]. pose proof (uchar_range c). lia.
Qed.

(** Changing one byte changes the sum by the difference. *)
Lemma sum_bytes_insert m i c c0 n : forall p s,
  0 <= p -> m !! i = Some c0 -> sum_bytes m p n = Some s ->
  sum_bytes (<[i := c]> m) p n
  = Some (s + if (p <=? Z.of_nat i) && (Z.of_nat i <? p + Z.of_nat n) then uchar c - uchar c0 else 0).
Proof.
  induction n as [|n IH]; intros p s Hp Hi Hs; cbn [sum_bytes] in *.
  { injection Hs as <-. destruct (_ && _) eqn:E; [zbool; lia|done]. }
  unfold mem_read in *. ztest. rewrite (proj2 (Z.leb_le 0 p) Hp) in Hs.
  destruct (m !! Z.to_nat p) as [d|] eqn:Hd; [|done]. cbn [mbind option_bind] in Hs.
  destruct (sum_bytes m (p + 1) n) as [s1|] eqn:Hs1; [|done]. injection Hs as <-.
  specialize (IH (p + 1) s1 ltac:(lia) Hi Hs1).
  destruct (decide (i = Z.to_nat p)) as [->|Hne].
  - rewrite list_lookup_insert_eq by (by eapply lookup_lt_Some). obind. rewrite IH. obind. f_equal.
    replace d with c0 by congruence. ztest. lia.
  - rewrite list_lookup_insert_ne, Hd by done. obind. rewrite IH. obind. f_equal.
    destruct ((p + 1 <=? Z.of_nat i) && _) eqn:E1, ((p <=? Z.of_nat i) && (Z.of_nat i <? p + Z.of_nat (S n))) eqn:E2;
      zbool; try lia; exfalso;
      repeat match goal with H : _ \/ _ |- _ => destruct H end; zbool; lia.
Qed.

Lemma checksum_total m : 512 <= zlen m ->
  exists s, taru_tar_checksum m = Some s /\ 0 <= s < 8 ^ 6.
Proof.
  intros Hm. unfold taru_tar_checksum.
  destruct (sum_bytes_total m (Z.to_nat THB_BO_chksum) 0) as (a & -> & Ha); [lia|unfold THB_BO_chksum; lia|]. obind.
  destruct (sum_bytes_total m (Z.to_nat (TARRECORDSIZE - THB_BO_chksum - 8)) (THB_BO_chksum + 8)) as (b & -> & Hb);
    [done|unfold TARRECORDSIZE, THB_BO_chksum; lia|]. obind.
  eexists. split; [done|]. unfold TARRECORDSIZE, THB_BO_chksum in *. lia.
Qed.

(** The field itself does not count. *)
Lemma checksum_field m m' : only_field m 148 8 m' -> taru_tar_checksum m' = taru_tar_checksum m.
Proof.
  intros [_ Hf]. unfold taru_tar_checksum.
  rewrite (sum_bytes_ext m' m _ 0), (sum_bytes_ext m' m _ (THB_BO_chksum + 8)); [done|done| |done|];
    unfold TARRECORDSIZE, THB_BO_chksum; intros i Hi; apply Hf; lia.
Qed.

(** A counted byte. *)
Definition counted (i : nat) : Prop := (i < 512)%nat /\ ~ (148 <= i < 156)%nat.

Lemma checksum_insert m i c c0 s :
  counted i -> m !! i = Some c0 -> taru_tar_checksum m = Some s ->
  taru_tar_checksum (<[i := c]> m) = Some (s + (uchar c - uchar c0)).
Proof.
  intros [H1 H2] Hi. unfold taru_tar_checksum, TARRECORDSIZE, THB_BO_chksum.
  destruct (sum_bytes m 0 _) as [a|] eqn:Ea; [|done]. cbn [mbind option_bind].
  destruct (sum_bytes m (148 + 8) _) as [b|] eqn:Eb; [|done]. cbn [mbind option_bind]. intros [= <-].
  rewrite (sum_bytes_insert m i c c0 _ 0 _ ltac:(lia) Hi Ea). obind.
  rewrite (sum_bytes_insert m i c c0 _ (148 + 8) _ ltac:(lia) Hi Eb). obind. f_equal.
  destruct ((0 <=? Z.of_nat i) && _) eqn:E1, ((148 + 8 <=? Z.of_nat i) && _) eqn:E2; zbool; try lia;
    exfalso; repeat match goal with H : _ \/ _ |- _ => destruct H end; zbool; lia.
Qed.

(** ** Setting the sum *)

Lemma set_sum_spec m flags s :
  512 <= zlen m -> taru_tar_checksum m = Some s -> 0 <= s < 8 ^ 6 ->
  exists m', taru_set_tar_header_sum m flags = Some m' /\ only_field m 148 8 m'
    /\ forall m2, (forall j, (148 <= j < 156)%nat -> m2 !! j = m' !! j) -> taru_from_oct 8 m2 148 = Some s.
Proof.
  intros Hm Hs Hr. unfold taru_set_tar_header_sum, uintmax_to_chars, THB_BO_chksum. rewrite Hs. obind.
  set (t := if bit flags TARU_TAR_BE_LIKE_STAR then 32 else 0).
  set (size := if _ || _ then 8 else 7).
  assert (Hsz : size = 7 \/ size = 8) by (subst size; destruct (_ || _); auto).
  assert (H7 : 8 ^ 6 <= 8 ^ (size - 1)) by (apply Z.pow_le_mono_r; lia).
  unfold to_chars. rewrite to_chars_fits by lia. set (ds := oct (Z.to_nat (size - 1)) s).
  assert (Hd : zlen ds = size - 1) by (subst ds; rewrite zlen_oct; lia).
  destruct (write_only_field m 148 (ds ++ [to_char t])) as (m' & E & [Hl Hf]); [lia|rewrite zlen_snoc; lia|].
  exists m'. split; [done|]. split; [split; [done|]|].
  - intros i Hi. apply Hf. rewrite zlen_snoc. lia.
  - assert (oct_value 0 ds = s) as Hval.
    { subst ds. rewrite oct_value_oct; rewrite Z2Nat.id by lia; lia. }
    intros m2 H2. rewrite <- Hval.
    apply from_oct_field with (to_char t); [done| |apply oct_digits| | | |lia].
    + apply mem_write_stored in E. intros j Hj. rewrite H2; [by apply E|].
      rewrite length_app in Hj. unfold zlen in Hd. cbn in Hj. lia.
    + intros E0. rewrite E0, zlen_nil in Hd. lia.
    + subst t. destruct (bit flags TARU_TAR_BE_LIKE_STAR); reflexivity.
    + lia.
Qed.

(** ** The check *)

(** The bytes of the magic. *)
Definition magic (m : bytes) : bytes := take 5 (drop 257 m).

Lemma magic_test x : length x = 5%nat -> (strncmp (cstr x) (L "ustar") 5 =? 0) = true <-> x = L "ustar".
Proof.
  intros Hl. unfold strncmp. rewrite Z.eqb_eq.
  rewrite (take_ge (cstr x)) by (pose proof (cstr_length x); unfold zlen in *; lia).
  change (take 5 (L "ustar")) with (L "ustar"). rewrite strcmp_eq by (apply cstr_no_nul || by apply no_nul_compute).
  split; [|by intros ->]. intros E. destruct (terminated x) eqn:T.
  - apply cstr_length_lt in T. rewrite E in T. unfold zlen in T. rewrite Hl in T. cbn in T. lia.
  - apply no_nul_not_terminated in T. by rewrite cstr_id in E.
Qed.

Lemma check_spec m v s :
  512 <= zlen m -> taru_from_oct 8 m 148 = Some v -> taru_tar_checksum m = Some s -> 0 <= v < 2 ^ 63 ->
  taru_tarheader_check m = Some (if decide (magic m = L "ustar") then (if s =? v then 0 else -1) else 1).
Proof.
  intros Hm Hv Hs Hr. unfold taru_tarheader_check, THB_BO_magic, THB_BO_chksum.
  rewrite mem_at_in by lia. obind. change (Z.to_nat 257) with 257%nat. fold (magic m).
  assert (Hl : length (magic m) = 5%nat).
  { unfold magic. rewrite length_take, length_drop. unfold zlen in Hm. lia. }
  pose proof (magic_test (magic m) Hl) as HM. destruct (decide (magic m = L "ustar")) as [E|E].
  - rewrite (proj2 HM E). cbn [negb]. rewrite Hv. obind. rewrite Hs. obind.
    rewrite to_size_id by lia. by destruct (s =? v).
  - destruct (strncmp _ _ _ =? 0) eqn:E1; [by destruct E; apply HM|done].
Qed.

(** ** Splitting names *)

(** [bs] in a field of [n] bytes, padded with NUL. *)
Definition padded (n : nat) (bs : bytes) : bytes := strncpy_bytes bs n.

Lemma padded_length n bs : (length bs <= n)%nat -> length (padded n bs) = n.
Proof. intros. unfold padded, strncpy_bytes. rewrite length_app, length_take, length_replicate. lia. Qed.

Lemma padded_fits n bs : (length bs <= n)%nat -> padded n bs = bs ++ replicate (n - length bs) NUL.
Proof. intros. unfold padded, strncpy_bytes. by rewrite take_ge. Qed.

(** The loop finds the last slash at an index from 1 to [i], or gives 0. *)
Lemma split_loop_spec name i :
  (i < length name)%nat ->
  exists k, split_loop name i = Some k /\ (k <= i)%nat
    /\ (k = 0%nat \/ name !! k = Some slash)
    /\ forall j, (k < j <= i)%nat -> name !! j <> Some slash.
Proof.
  induction i as [|i IH]; intros Hi; cbn [split_loop].
  - exists 0%nat. repeat split; auto; lia.
  - destruct (lookup_lt_is_Some_2 name (S i) Hi) as [c Hc]. rewrite Hc. obind.
    destruct (is_slash c) eqn:E.
    + apply ceq_eq in E as ->. exists (S i). repeat split; auto; lia.
    + destruct IH as (k & -> & Hk & Hs & Hn); [lia|]. exists k. split; [done|]. split; [lia|]. split; [done|].
      intros j Hj. destruct (decide (j = S i)) as [->|]; [|apply Hn; lia].
      rewrite Hc. intros [= ->]. discriminate E.
Qed.

Lemma slash_split name k : name !! k = Some slash -> name = take k name ++ slash :: drop (S k) name.
Proof. intros H. symmetry. by apply take_drop_middle. Qed.

(** Writing the start of a field of NULs. *)
Lemma stored_prefix m o n bs m' :
  0 <= o -> stored m o (replicate n NUL) -> (length bs <= n)%nat -> mem_write m o bs = Some m' ->
  stored m' o (padded n bs).
Proof.
  intros Ho Hs Hl E i Hi. rewrite padded_length in Hi by done. rewrite padded_fits by done.
  rewrite (mem_write_lookup _ _ _ _ _ E). unfold zlen. destruct (decide _).
  - rewrite lookup_app_l by lia. f_equal. lia.
  - rewrite lookup_app_r by lia. rewrite Hs by (rewrite length_replicate; lia).
    rewrite !lookup_replicate_2 by lia. done.
Qed.

Lemma stored_frame m o bs m' o2 n :
  0 <= o -> only_field m o2 n m' -> (o + zlen bs <= o2 \/ o2 + n <= o) -> stored m o bs -> stored m' o bs.
Proof.
  intros Ho [_ Hf] Hd Hs i Hi. rewrite Hf; [by apply Hs|]. unfold zlen in Hd. lia.
Qed.

Lemma memset_field m o n :
  0 <= o -> 0 <= n -> o + n <= zlen m ->
  exists m', memset m o NUL n = Some m' /\ only_field m o n m' /\ stored m' o (replicate (Z.to_nat n) NUL).
Proof.
  intros Ho Hn Hb. unfold memset. ztest.
  destruct (write_only_field m o (replicate (Z.to_nat n) NUL) Ho) as (m' & E & Hf); [rewrite zlen_replicate; lia|].
  exists m'. split; [done|]. split; [by rewrite zlen_replicate, Z2Nat.id in Hf by lia|by eapply mem_write_stored].
Qed.

Lemma only_field_len m o n m' : only_field m o n m' -> zlen m' = zlen m.
Proof. intros [H _]. unfold zlen. by rewrite H. Qed.

(** Both fields of a header. *)
Definition name_fields (m : bytes) (prefix name : bytes) : Prop :=
  stored m 345 (padded 155 prefix) /\ stored m 0 (padded 100 name).

(** What [taru_split_name_ustar] starts with: both fields cleared. *)
Lemma clear_names m :
  512 <= zlen m ->
  exists m1 m2, memset m THB_BO_name NUL NAME_FIELD_SIZE = Some m1
    /\ memset m1 THB_BO_prefix NUL PREFIX_FIELD_SIZE = Some m2 /\ name_fields m2 [] []
    /\ zlen m2 = zlen m
    /\ forall i, (i < 512)%nat -> (100 <= i < 345 \/ 500 <= i)%nat -> m2 !! i = m !! i.
Proof.
  intros Hm. unfold THB_BO_name, NAME_FIELD_SIZE, THB_BO_prefix, PREFIX_FIELD_SIZE.
  destruct (memset_field m 0 100) as (m1 & E1 & F1 & S1); [lia|lia|lia|].
  pose proof (only_field_len _ _ _ _ F1) as L1.
  destruct (memset_field m1 345 155) as (m2 & E2 & F2 & S2); [lia|lia|lia|].
  pose proof (only_field_len _ _ _ _ F2) as L2.
  exists m1, m2. split; [done|]. split; [done|]. split; [split|split].
  - exact S2.
  - refine (stored_frame _ _ _ _ _ _ _ F2 _ S1); [lia|left; rewrite zlen_replicate; lia].
  - lia.
  - intros i Hi Hr. destruct F1 as [_ F1], F2 as [_ F2]. rewrite F2, F1; [done|lia|lia].
Qed.

(** A way to split a name. *)
Definition splits (name p n : bytes) : Prop :=
  name = p ++ slash :: n /\ p <> [] /\ (length p <= 155)%nat /\ (length n <= 100)%nat.

(** The store of both parts. *)
Lemma store_parts m p n :
  name_fields m [] [] -> (length p <= 155)%nat -> (length n <= 100)%nat -> 512 <= zlen m ->
  exists m', (m ← mem_write m THB_BO_name n; mem_write m THB_BO_prefix p) = Some m'
    /\ name_fields m' p n /\ length m' = length m
    /\ forall i, (100 <= i < 345 \/ 500 <= i)%nat -> m' !! i = m !! i.
Proof.
  intros [Sp Sn] Hp Hn Hm. unfold THB_BO_name, THB_BO_prefix.
  destruct (write_only_field m 0 n) as (m1 & E1 & F1); [lia|unfold zlen in *; lia|].
  pose proof (only_field_len _ _ _ _ F1) as L1. rewrite E1. obind.
  destruct (write_only_field m1 345 p) as (m2 & E2 & F2); [lia|unfold zlen in *; lia|].
  exists m2. split; [done|]. split; [split|split].
  - apply (stored_prefix m1 345 155 p m2); [lia| |done|done].
    refine (stored_frame _ _ _ _ _ _ _ F1 _ Sp); [lia|right; unfold zlen; lia].
  - refine (stored_frame _ _ _ _ _ _ _ F2 _ (stored_prefix m 0 100 n m1 _ Sn Hn E1)); [lia| |lia].
    left. unfold zlen. rewrite padded_length by done. lia.
  - destruct F1, F2. congruence.
  - intros i Hi. destruct F1 as [_ F1], F2 as [_ F2]. unfold zlen in *. rewrite F2, F1; [done|lia|lia].
Qed.

(** taru_split_name_ustar on names that do not fit into the name field. *)
Lemma split_name_spec m name :
  512 <= zlen m -> 100 < zlen name ->
  exists m' r, taru_split_name_ustar m name = Some (m', r)
    /\ length m' = length m /\ (forall i, (i < 512)%nat -> (100 <= i < 345 \/ 500 <= i)%nat -> m' !! i = m !! i)
    /\ ((r = 0 /\ exists p n, splits name p n /\ name_fields m' p n)
        \/ (r = 0 /\ name_fields m' [] [] /\ zlen name = 101 /\ forall j, (1 <= j)%nat -> name !! j <> Some slash)
        \/ (r = -1 /\ name_fields m' [] [] /\ forall p n, ~ splits name p n)).
Proof.
  intros Hm Hlen. unfold taru_split_name_ustar.
  destruct (clear_names m Hm) as (m1 & m2 & -> & E2 & Hz & Lz & Fz). obind. rewrite E2. obind.
  assert (Hl2 : length m2 = length m) by (unfold zlen in Lz; lia).
  assert (Hno : forall p n, splits name p n -> zlen name <= 256).
  { intros p n (-> & _ & Hp & Hn). unfold zlen. rewrite length_app. cbn [length]. lia. }
  unfold PREFIX_FIELD_SIZE at 1, NAME_FIELD_SIZE at 1. destruct (zlen name >? 155 + 100 + 1) eqn:E; zbool.
  { exists m2, (-1). repeat (split; try done). right; right. split; [done|]. split; [done|].
    intros p n Hs%Hno. lia. }
  unfold split_long_name. set (len := if zlen name >? PREFIX_FIELD_SIZE then _ else _).
  assert (Hlen' : len = Z.min (zlen name) 156).
  { subst len. unfold PREFIX_FIELD_SIZE. destruct (zlen name >? 155) eqn:E3; zbool; lia. }
  destruct (split_loop_spec name (Z.to_nat (len - 1))) as (k & -> & Hk & Hsl & Hlast); [unfold zlen in *; lia|].
  obind. unfold NAME_FIELD_SIZE. destruct (zlen name - Z.of_nat k - 1 >? 100) eqn:E4; zbool.
  { exists m2, (-1). repeat (split; try done). right; right. split; [done|]. split; [done|].
    intros p n (-> & Hp & Hp1 & Hn1). unfold zlen in *. rewrite length_app in *. cbn [length] in *.
    apply (Hlast (length p)); [lia|]. by apply list_lookup_middle. }
  destruct (Z.of_nat k =? 0) eqn:E5; zbool.
  { exists m2, 0. repeat (split; try done). right; left. repeat split; try apply Hz; [lia|].
    intros j Hj Hin. apply (Hlast j); [|done]. apply lookup_lt_Some in Hin. unfold zlen in *. lia. }
  destruct Hsl as [->|Hsl]; [done|]. pose proof (slash_split name k Hsl) as Hname.
  assert (Hk2 : (k < length name)%nat) by (by eapply lookup_lt_Some).
  rewrite Nat.add_1_r.
  destruct (store_parts m2 (take k name) (drop (S k) name) Hz) as (m' & E6 & Hf & Hl & Hfr);
    [rewrite length_take; unfold zlen in *; lia|rewrite length_drop; unfold zlen in *; lia|lia|].
  destruct (mem_write m2 THB_BO_name _) as [m3|]; [|done]. cbn [mbind option_bind] in E6 |- *. rewrite E6. obind.
  exists m', 0. split; [done|]. split; [lia|]. split; [intros i Hi1 Hi2; rewrite Hfr by done; by apply Fz|].
  left. split; [done|]. exists (take k name), (drop (S k) name). split; [|done].
  split; [done|]. rewrite length_take, length_drop. unfold zlen in *. split; [|lia].
  intros E7. apply (f_equal length) in E7. rewrite length_take in E7. cbn in E7. lia.
Qed.

(** ** Headers that keep their magic *)

Definition hdr_ok (m : bytes) : Prop := length m = 2048%nat /\ magic m = L "ustar".

Lemma hdr_size m : hdr_ok m -> 512 <= zlen m /\ zlen m = 2048.
Proof. intros [H _]. unfold zlen. lia. Qed.

Lemma magic_ext m m' :
  (forall i, (257 <= i < 262)%nat -> m' !! i = m !! i) -> magic m' = magic m.
Proof.
  intros H. apply list_eq. intros i. unfold magic.
  destruct (decide (i < 5)%nat); [|by rewrite !lookup_take_ge by lia].
  rewrite !lookup_take_lt, !lookup_drop by lia. apply H. lia.
Qed.

Lemma hdr_ok_frame m m' :
  hdr_ok m -> length m' = length m -> (forall i, (257 <= i < 262)%nat -> m' !! i = m !! i) -> hdr_ok m'.
Proof. intros [H1 H2] Hl Hf. split; [lia|]. by rewrite (magic_ext m m' Hf). Qed.

Lemma hdr_ok_field m o n m' :
  hdr_ok m -> only_field m o n m' -> o + n <= 257 \/ 262 <= o -> hdr_ok m'.
Proof. intros Hk [Hl Hf] Hd. apply (hdr_ok_frame m); [done|done|]. intros i Hi. apply Hf. lia. Qed.

(** The result is defined and still a header. *)
Definition keeps (r : option bytes) : Prop := exists m', r = Some m' /\ hdr_ok m'.

Lemma keeps_write m o bs :
  hdr_ok m -> 0 <= o -> o + zlen bs <= 512 -> o + zlen bs <= 257 \/ 262 <= o -> keeps (mem_write m o bs).
Proof.
  intros Hk Ho Hb Hd. destruct (hdr_size m Hk).
  destruct (write_only_field m o bs Ho) as (m' & E & Hf); [lia|]. exists m'. split; [done|].
  by apply (hdr_ok_field m o (zlen bs)).
Qed.

Lemma keeps_memset m o n :
  hdr_ok m -> 0 <= o -> 0 <= n -> o + n <= 512 -> o + n <= 257 \/ 262 <= o -> keeps (memset m o NUL n).
Proof.
  intros Hk Ho Hn Hb Hd. destruct (hdr_size m Hk).
  destruct (memset_field m o n Ho Hn) as (m' & E & Hf & _); [lia|]. exists m'. split; [done|].
  by apply (hdr_ok_field m o n).
Qed.

Lemma keeps_chars neg v valsize subst m o size type fmt t :
  hdr_ok m -> 3 <= size <= 13 -> 0 <= o -> o + size <= 512 -> o + size <= 257 \/ 262 <= o ->
  keeps (to_chars neg v valsize subst m o size type fmt t).
Proof.
  intros Hk Hs Ho Hb Hd. destruct (hdr_size m Hk).
  destruct (to_chars_in_bounds neg v valsize subst m o size type fmt t Hs Ho) as (m' & E & Hf); [lia|].
  exists m'. split; [done|]. by apply (hdr_ok_field m o size).
Qed.

(** Setting the sum makes the check succeed. *)
Lemma keeps_sum m flags :
  hdr_ok m -> exists m', taru_set_tar_header_sum m flags = Some m' /\ hdr_ok m' /\ taru_tarheader_check m' = Some 0.
Proof.
  intros Hk. destruct (hdr_size m Hk) as [Hm _]. destruct (checksum_total m Hm) as (s & Hs & Hr).
  destruct (set_sum_spec m flags s Hm Hs Hr) as (m' & E & Hf & Ho).
  assert (Hk' : hdr_ok m') by (apply (hdr_ok_field m 148 8); [done|done|lia]).
  exists m'. split; [done|]. split; [done|]. pose proof (only_field_len _ _ _ _ Hf).
  rewrite (check_spec m' s s); [|lia|by apply Ho|by rewrite (checksum_field m)|lia].
  destruct Hk' as [_ ->]. by rewrite decide_True, Z.eqb_refl.
Qed.

Lemma strncpy_zlen bs n : zlen (strncpy_bytes bs n) = Z.of_nat n.
Proof. unfold zlen, strncpy_bytes. rewrite length_app, length_take, length_replicate. lia. Qed.

Section EtarSpec.
Context `{Malloc} (nobody : Z * bool).

(** The setters, as one call each. *)
Inductive etar_call :=
  | Pathname (n : bytes) | Linkname (n : bytes) | Uname (n : bytes) | Gname (n : bytes)
  | Mode (v : Z) | Uid (v : Z) | Gid (v : Z) | Size (v : Z) | Time (v : Z)
  | Typeflag (c : ascii) | Devmajor (v : Z) | Devminor (v : Z).

Definition etar_run (e : ETAR) (c : etar_call) : option ETAR :=
  match c with
  | Pathname n => fst <$> etar_set_pathname e n
  | Linkname n => fst <$> etar_set_linkname e n
  | Uname n => fst <$> etar_set_uname e n
  | Gname n => fst <$> etar_set_gname e n
  | Mode v => etar_set_mode_ul e v
  | Uid v => etar_set_uid nobody e v
  | Gid v => etar_set_gid nobody e v
  | Size v => etar_set_size e v
  | Time v => etar_set_time e v
  | Typeflag c => etar_set_typeflag e c
  | Devmajor v => etar_set_devmajor e v
  | Devminor v => etar_set_devminor e v
  end.

Fixpoint etar_run_all (e : ETAR) (cs : list etar_call) : option ETAR :=
  match cs with [] => Some e | c :: cs => e ← etar_run e c; etar_run_all e cs end.

(** A path name without hexadecimal escapes. *)
Definition etar_allowed (c : etar_call) : Prop :=
  match c with Pathname n => strstr n (L "\x") = None | _ => True end.

Lemma set_new_name_keeps m n flags :
  hdr_ok m -> strstr n (L "\x") = None ->
  exists m' r, taru_set_new_name m n flags = Some (m', r) /\ hdr_ok m'.
Proof.
  intros Hk Hn. destruct (hdr_size m Hk) as [Hm _]. unfold taru_set_new_name, unescape_name.
  rewrite Hn. obind. unfold TARNAMESIZE.
  assert (exists m1 r, (if zlen n <=? 100
      then m ← mem_write m THB_BO_name (strncpy_bytes n (Z.to_nat 100)); Some (m, 0)
      else taru_split_name_ustar m n) = Some (m1, r) /\ hdr_ok m1) as (m1 & r & -> & Hk1).
  { destruct (zlen n <=? 100) eqn:E; zbool.
    - destruct (keeps_write m THB_BO_name (strncpy_bytes n (Z.to_nat 100)) Hk) as (m1 & -> & Hk1);
        [done|by rewrite strncpy_zlen|rewrite strncpy_zlen; left; done|]. obind. by exists m1, 0.
    - destruct (split_name_spec m n Hm E) as (m1 & r & -> & Hl & Hf & _). exists m1, r. split; [done|].
      apply (hdr_ok_frame m); [done|done|]. intros i Hi. apply Hf; lia. }
  obind. destruct (negb (r =? 0)); [by exists m1, r|].
  destruct (keeps_sum m1 flags Hk1) as (m2 & -> & Hk2 & _). obind. by exists m2, r.
Qed.

Lemma on_hdr_keeps e f : keeps (f (tar_hdrM e)) -> exists e', on_hdr f e = Some e' /\ hdr_ok (tar_hdrM e').
Proof. intros (m' & E & Hk). unfold on_hdr. rewrite E. by eexists. Qed.

Lemma etar_run_keeps e c :
  hdr_ok (tar_hdrM e) -> etar_allowed c -> exists e', etar_run e c = Some e' /\ hdr_ok (tar_hdrM e').
Proof.
  intros Hk Ha. destruct c; cbn [etar_run etar_allowed] in *;
    try (apply on_hdr_keeps; first [apply keeps_chars | apply keeps_write]; try done; try lia; by left).
  - unfold etar_set_pathname.
    destruct (set_new_name_keeps (tar_hdrM e) n (etar_tarheaderflagsM e) Hk Ha) as (m & r & -> & Hm).
    obind. by eexists.
  - unfold etar_set_linkname. destruct (keeps_memset (tar_hdrM e) THB_BO_linkname 100 Hk) as (m & -> & Hm);
      [done|done|done|by left|]. obind.
    destruct (keeps_write m THB_BO_linkname (strncpy_bytes n 100) Hm) as (m1 & -> & Hm1);
      [done|by rewrite strncpy_zlen|rewrite strncpy_zlen; by left|]. obind. by eexists.
  - unfold etar_set_uname.
    destruct (keeps_write (tar_hdrM e) THB_BO_uname (strncpy_bytes n 32) Hk) as (m1 & -> & Hm1);
      [done|by rewrite strncpy_zlen|rewrite strncpy_zlen; by right|]. obind. by eexists.
  - unfold etar_set_gname.
    destruct (keeps_write (tar_hdrM e) THB_BO_gname (strncpy_bytes n 32) Hk) as (m1 & -> & Hm1);
      [done|by rewrite strncpy_zlen|rewrite strncpy_zlen; by right|]. obind. by eexists.
  - apply on_hdr_keeps, keeps_chars; [done|lia|done|done|by right].
  - apply on_hdr_keeps, keeps_chars; [done|lia|done|done|by right].
Qed.

Lemma etar_run_all_keeps cs : forall e,
  hdr_ok (tar_hdrM e) -> Forall etar_allowed cs ->
  exists e', etar_run_all e cs = Some e' /\ hdr_ok (tar_hdrM e').
Proof.
  induction cs as [|c cs IH]; intros e Hk HF; cbn [etar_run_all]; [by exists e|].
  apply Forall_cons in HF as [Hc HF]. destruct (etar_run_keeps e c Hk Hc) as (e1 & -> & Hk1). obind. by apply IH.
Qed.
End EtarSpec.

(** The magic and version of a new header. *)
Definition stamped : option bytes :=
  m ← mem_write (replicate (Z.to_nat HEADER_ALLOC) NUL) THB_BO_version (L "0");
  m ← mem_write m (THB_BO_version + 1) (L "0");
  m ← mem_write m THB_BO_magic (strncpy_bytes (L "ustar") 6);
  mem_write m (THB_BO_magic + 6) (strncpy_bytes (L "00") 2).

Lemma stamped_ok : exists m, stamped = Some m /\ hdr_ok m.
Proof. eexists. split; [vm_compute; reflexivity|]. split; vm_compute; reflexivity. Qed.

Section Init.
Context `{Malloc} (nobody : Z * bool).

(** The setter calls of etar_init_hdr. *)
Definition init_calls (now : Z) : list etar_call :=
  [Pathname ETAR_UNSET_FILENAME; Mode 360; Uid 0; Gid 0; Size 0; Time now; Typeflag DIRTYPE;
   Linkname []; Uname []; Gname []; Devmajor 0; Devminor 0].

Lemma on_hdr_time f e e' : on_hdr f e = Some e' -> timeM e' = timeM e.
Proof. unfold on_hdr. destruct (f (tar_hdrM e)); [|done]. by intros [= <-]. Qed.

Lemma etar_run_time e c e' : etar_run nobody e c = Some e' -> timeM e' = timeM e.
Proof.
  destruct c; cbn [etar_run]; try apply on_hdr_time.
  - unfold etar_set_pathname. destruct (taru_set_new_name _ _ _) as [[m r]|]; [|done]. by intros [= <-].
  - unfold etar_set_linkname. destruct (memset _ _ _ _) as [m|]; [|done]. cbn [mbind option_bind].
    destruct (mem_write _ _ _); [|done]. by intros [= <-].
  - unfold etar_set_uname. destruct (mem_write _ _ _); [|done]. by intros [= <-].
  - unfold etar_set_gname. destruct (mem_write _ _ _); [|done]. by intros [= <-].
Qed.

Lemma init_is_calls e :
  etar_init_hdr nobody e
  = (m ← stamped; e ← etar_run_all nobody (set_hdr m e) (init_calls (timeM e)); etar_set_chksum e).
Proof.
  unfold etar_init_hdr, stamped.
  destruct (mem_write _ THB_BO_version _) as [m1|]; [|done]. cbn [mbind option_bind].
  destruct (mem_write m1 _ _) as [m2|]; [|done]. cbn [mbind option_bind].
  destruct (mem_write m2 _ _) as [m3|]; [|done]. cbn [mbind option_bind].
  destruct (mem_write m3 _ _) as [m4|]; [|done]. cbn [mbind option_bind].
  unfold init_calls. cbn [etar_run_all etar_run].
  destruct (etar_set_pathname _ _) as [[e1 r]|] eqn:E1; [|done]. cbn [mbind option_bind fmap option_fmap option_map fst].
  destruct (etar_set_mode_ul _ _) as [e2|] eqn:E2; [|done]. cbn [mbind option_bind].
  destruct (etar_set_uid _ _ _) as [e3|] eqn:E3; [|done]. cbn [mbind option_bind].
  destruct (etar_set_gid _ _ _) as [e4|] eqn:E4; [|done]. cbn [mbind option_bind].
  destruct (etar_set_size _ _) as [e5|] eqn:E5; [|done]. cbn [mbind option_bind].
  assert (timeM e5 = timeM e) as ->.
  { rewrite (on_hdr_time _ _ _ E5), (on_hdr_time _ _ _ E4), (on_hdr_time _ _ _ E3), (on_hdr_time _ _ _ E2).
    apply (etar_run_time (set_hdr m4 e) (Pathname ETAR_UNSET_FILENAME)). cbn [etar_run]. by rewrite E1. }
  destruct (etar_set_time _ _) as [e6|]; [|done]. cbn [mbind option_bind].
  destruct (etar_set_typeflag _ _) as [e7|]; [|done]. cbn [mbind option_bind].
  destruct (etar_set_linkname _ _) as [[e8 ?]|]; [|done]. cbn [mbind option_bind fmap option_fmap option_map fst].
  destruct (etar_set_uname _ _) as [[e9 ?]|]; [|done]. cbn [mbind option_bind fmap option_fmap option_map fst].
  destruct (etar_set_gname _ _) as [[e10 ?]|]; [|done]. cbn [mbind option_bind fmap option_fmap option_map fst].
  destruct (etar_set_devmajor _ _) as [e11|]; [|done]. cbn [mbind option_bind].
  by destruct (etar_set_devminor _ _).
Qed.
End Init.

(** ** Theorems *)

Section TarHeaderTheorems.
Context `{Malloc} (nobody : Z * bool).


(** Changing one byte of a header whose sum was set makes the check fail:
    with 1 when the byte belongs to the magic, otherwise with -1. *)
Theorem header_sum_detects_change m flags i c :
  hdr_ok m -> counted i ->
  exists m', taru_set_tar_header_sum m flags = Some m'
    /\ (m' !! i <> Some c ->
        taru_tarheader_check (<[i := c]> m')
        = Some (if decide (257 <= i < 262)%nat then 1 else -1)).
Proof.
  intros Hk Hi. destruct (hdr_size m Hk) as [Hm _]. destruct (checksum_total m Hm) as (s & Hs & Hr).
  destruct (set_sum_spec m flags s Hm Hs Hr) as (m' & E & Hf & Ho). exists m'. split; [done|]. intros Hc.
  assert (Hk' : hdr_ok m') by (apply (hdr_ok_field m 148 8); [done|done|lia]).
  pose proof (only_field_len _ _ _ _ Hf) as Hl. destruct Hi as [Hi1 Hi2].
  destruct (lookup_lt_is_Some_2 m' i) as [c0 Hc0]; [unfold zlen in *; lia|].
  assert (Hne : uchar c <> uchar c0) by (intros ->%uchar_inj; done).
  rewrite (check_spec _ s (s + (uchar c - uchar c0))).
  - destruct Hk' as [Hlen Hmag]. destruct (decide (257 <= i < 262)%nat) as [Hin|Hout].
    + rewrite decide_False; [done|]. intros HM. apply Hc. rewrite <- Hmag in HM.
      apply (f_equal (fun l => l !! (i - 257)%nat)) in HM. unfold magic in HM.
      rewrite !lookup_take_lt, !lookup_drop in HM by lia. replace (257 + (i - 257))%nat with i in HM by lia.
      rewrite list_lookup_insert_eq in HM by (unfold zlen in *; lia). by rewrite <- HM.
    + rewrite decide_True.
      * assert ((s + (uchar c - uchar c0) =? s) = false) as -> by (apply Z.eqb_neq; lia). done.
      * rewrite <- Hmag. apply magic_ext. intros j Hj. apply list_lookup_insert_ne. lia.
  - rewrite zlen_insert. lia.
  - apply Ho. intros j Hj. apply list_lookup_insert_ne. lia.
  - apply checksum_insert; [done|done|]. by rewrite (checksum_field m).
  - lia.
Qed.

(** A name of more than 100 characters is stored as prefix and name exactly
    when it can be split at a slash into at most 155 and 100 characters;
    otherwise the result is -1 and both fields are empty.  A name of 101
    characters without a slash behind the first character is lost: the result is
    0 and both fields are empty. *)
Theorem split_name_or_lose m name :
  512 <= zlen m -> 100 < zlen name ->
  exists m' r, taru_split_name_ustar m name = Some (m', r)
    /\ ((r = 0 /\ exists p n, splits name p n /\ name_fields m' p n)
        \/ (r = 0 /\ name_fields m' [] [] /\ zlen name = 101 /\ forall j, (1 <= j)%nat -> name !! j <> Some slash)
        \/ (r = -1 /\ name_fields m' [] [] /\ forall p n, ~ splits name p n)).
Proof.
  intros Hm Hn. destruct (split_name_spec m name Hm Hn) as (m' & r & E & _ & _ & Hr). eauto.
Qed.
End TarHeaderTheorems.

Module Witness.
#[local] Instance zeros : Malloc := fun _ => NUL.

Definition calls : list etar_call :=
  [Pathname (L "catalog/INDEX"); Mode 420; Uid 3000000; Size 1234; Time (-1); Typeflag REGTYPE].


Definition blank : bytes := replicate 257 NUL ++ L "ustar" ++ replicate 1786 NUL.

Lemma header_sum_detects_change_witness :
  exists m', taru_set_tar_header_sum blank 0 = Some m'
    /\ (m' !! 0%nat <> Some "x"%char ->
        taru_tarheader_check (<[0%nat := "x"%char]> m') = Some (if decide (257 <= 0 < 262)%nat then 1 else -1)).
Proof.
  apply (header_sum_detects_change blank 0 0 "x"%char); [split; vm_compute; reflexivity|split; lia].
Defined.

(** 101 characters without a slash. *)
Definition name : bytes := replicate 101 "n"%char.

Lemma split_name_or_lose_witness :
  exists m' r, taru_split_name_ustar (replicate 512 NUL) name = Some (m', r)
    /\ ((r = 0 /\ exists p n, splits name p n /\ name_fields m' p n)
        \/ (r = 0 /\ name_fields m' [] [] /\ zlen name = 101 /\ forall j, (1 <= j)%nat -> name !! j <> Some slash)
        \/ (r = -1 /\ name_fields m' [] [] /\ forall p n, ~ splits name p n)).
Proof. apply (split_name_or_lose (replicate 512 NUL) (replicate 101 "n"%char)); done. Defined.
End Witness.
