(* ===== verification/FileHdr.v ===== *)
(** * The file header (swsupplib/taru/cpiohdr.h, ahs.c, taru.c and mtar.c)

    struct new_cpio_header, which the readers fill and the writers take apart,
    its accessors, the attributes of extended headers, and what does not fit in
    a tar header.  The four names are STROB objects that are opened when they
    are first used; here they are their texts, and NULL is the empty text. *)

From S2P Require Import Prelude CString Strob Pathname FileMode TarHeader SysDb.

(** An attribute of an extended header; [attrvalueM] is the value with its
    bytes of value zero. *)
Record EXATT := mkEXATT {
  is_in_useM : Z;
  vendorM : bytes;
  namespaceM : bytes;
  attrnameM : bytes;
  attrvalueM : bytes;
  lenM : Z;
}.

(** The digests (digsM) and the magic number are not read or written here. *)
Record new_cpio_header := mkHDR {
  c_ino : Z;
  c_mode : Z;
  c_uid : Z;
  c_gid : Z;
  c_nlink : Z;
  c_mtime : Z;
  c_filesize : Z;
  c_dev_maj : Z;
  c_dev_min : Z;
  c_rdev_maj : Z;
  c_rdev_min : Z;
  c_namesize : Z;
  c_chksum : Z;
  c_name : bytes;
  c_tar_linkname : bytes;
  c_username : bytes;
  c_groupname : bytes;
  c_cu : Z;
  c_cg : Z;
  c_is_tar_lnktype : Z;
  usage_maskM : Z;
  extHeader_usage_maskM : Z;
  extHeader_needs_maskM : Z;
  extattlistM : list EXATT;
  c_atime : Z;
  c_atime_nsec : Z;
  c_ctime : Z;
  c_ctime_nsec : Z;
}.

(** ** Assignment to one field *)

Definition eta_hdr (h : new_cpio_header) : new_cpio_header :=
  mkHDR (c_ino h) (c_mode h) (c_uid h) (c_gid h) (c_nlink h) (c_mtime h) (c_filesize h) (c_dev_maj
    h) (c_dev_min h) (c_rdev_maj h) (c_rdev_min h) (c_namesize h) (c_chksum h) (c_name h)
    (c_tar_linkname h) (c_username h) (c_groupname h) (c_cu h) (c_cg h) (c_is_tar_lnktype h)
    (usage_maskM h) (extHeader_usage_maskM h) (extHeader_needs_maskM h) (extattlistM h) (c_atime h)
    (c_atime_nsec h) (c_ctime h) (c_ctime_nsec h).

Ltac put f v h :=
  let t := eval cbv beta delta [eta_hdr] in (eta_hdr h) in
  let t := eval pattern (f h) in t in
  match t with ?g _ => let r := eval cbv beta in (g v) in exact r end.

Definition put_c_ino (v : Z) (h : new_cpio_header) : new_cpio_header := ltac:(put c_ino v h).
Definition put_c_mode (v : Z) (h : new_cpio_header) : new_cpio_header := ltac:(put c_mode v h).
Definition put_c_uid (v : Z) (h : new_cpio_header) : new_cpio_header := ltac:(put c_uid v h).
Definition put_c_gid (v : Z) (h : new_cpio_header) : new_cpio_header := ltac:(put c_gid v h).
Definition put_c_nlink (v : Z) (h : new_cpio_header) : new_cpio_header := ltac:(put c_nlink v h).
Definition put_c_mtime (v : Z) (h : new_cpio_header) : new_cpio_header := ltac:(put c_mtime v h).
Definition put_c_filesize (v : Z) (h : new_cpio_header) : new_cpio_header := ltac:(put c_filesize v h).
Definition put_c_dev_maj (v : Z) (h : new_cpio_header) : new_cpio_header := ltac:(put c_dev_maj v h).
Definition put_c_dev_min (v : Z) (h : new_cpio_header) : new_cpio_header := ltac:(put c_dev_min v h).
Definition put_c_rdev_maj (v : Z) (h : new_cpio_header) : new_cpio_header := ltac:(put c_rdev_maj v h).
Definition put_c_rdev_min (v : Z) (h : new_cpio_header) : new_cpio_header := ltac:(put c_rdev_min v h).
Definition put_c_namesize (v : Z) (h : new_cpio_header) : new_cpio_header := ltac:(put c_namesize v h).
Definition put_c_chksum (v : Z) (h : new_cpio_header) : new_cpio_header := ltac:(put c_chksum v h).
Definition put_c_name (v : bytes) (h : new_cpio_header) : new_cpio_header := ltac:(put c_name v h).
Definition put_c_tar_linkname (v : bytes) (h : new_cpio_header) : new_cpio_header := ltac:(put c_tar_linkname v h).
Definition put_c_username (v : bytes) (h : new_cpio_header) : new_cpio_header := ltac:(put c_username v h).
Definition put_c_groupname (v : bytes) (h : new_cpio_header) : new_cpio_header := ltac:(put c_groupname v h).
Definition put_c_cu (v : Z) (h : new_cpio_header) : new_cpio_header := ltac:(put c_cu v h).
Definition put_c_cg (v : Z) (h : new_cpio_header) : new_cpio_header := ltac:(put c_cg v h).
Definition put_c_is_tar_lnktype (v : Z) (h : new_cpio_header) : new_cpio_header := ltac:(put c_is_tar_lnktype v h).
Definition put_usage_maskM (v : Z) (h : new_cpio_header) : new_cpio_header := ltac:(put usage_maskM v h).
Definition put_ext_usage_maskM (v : Z) (h : new_cpio_header) : new_cpio_header := ltac:(put extHeader_usage_maskM v h).
Definition put_ext_needs_maskM (v : Z) (h : new_cpio_header) : new_cpio_header := ltac:(put extHeader_needs_maskM v h).
Definition put_extattlistM (v : list EXATT) (h : new_cpio_header) : new_cpio_header := ltac:(put extattlistM v h).
Definition put_c_atime (v : Z) (h : new_cpio_header) : new_cpio_header := ltac:(put c_atime v h).
Definition put_c_atime_nsec (v : Z) (h : new_cpio_header) : new_cpio_header := ltac:(put c_atime_nsec v h).
Definition put_c_ctime (v : Z) (h : new_cpio_header) : new_cpio_header := ltac:(put c_ctime v h).
Definition put_c_ctime_nsec (v : Z) (h : new_cpio_header) : new_cpio_header := ltac:(put c_ctime_nsec v h).

(** ** Constants *)

Definition TARPREFIXSIZE : Z := 155.
Definition TARLINKNAMESIZE : Z := 100.
Definition AHS_ID_NOBODY : Z := 2097151.
Definition TAR_MAX_7OCTAL : Z := 2097151.
Definition TAR_MAX_UID : Z := TAR_MAX_7OCTAL.
Definition TAR_MAX_GID : Z := TAR_MAX_7OCTAL.
Definition TAR_MAX_DEVICE : Z := TAR_MAX_7OCTAL.
Definition TAR_MAX_SIZE : Z := 8589934591.
Definition THB_FL_uname : Z := 32.
Definition THB_FL_gname : Z := 32.

(** TARU_C_BY_* *)
Definition TARU_C_BY_UNONE : Z := 0.
Definition TARU_C_BY_USYS : Z := 1.
Definition TARU_C_BY_UID : Z := 2.
Definition TARU_C_BY_UNAME : Z := 3.

(** TARU_TAR_* *)
Definition TARU_TAR_NUMERIC_UIDS : Z := 2.
Definition TARU_TAR_GNU_LONG_LINKS : Z := 4.
Definition TARU_TAR_GNU_GNUTAR : Z := 8.
Definition TARU_TAR_FRAGILE_FORMAT : Z := 64.
Definition TARU_TAR_RETAIN_HEADER_IDS : Z := 256.
Definition TARU_TAR_GNU_OLDGNUTAR : Z := 512.
Definition TARU_TAR_GNU_OLDGNUPOSIX : Z := 1024.
Definition TARU_TAR_NAMESIZE_99 : Z := 2048.
Definition TARU_TAR_PAXEXTHDR : Z := 4096.
Definition TARU_TAR_PAXEXTHDR_MD : Z := 8192.

(** TARU_EHUM_* *)
Definition TARU_EHUM_ATIME : Z := 1.
Definition TARU_EHUM_CTIME : Z := 8.
Definition TARU_EHUM_GID : Z := 16.
Definition TARU_EHUM_GNAME : Z := 32.
Definition TARU_EHUM_LINKPATH : Z := 64.
Definition TARU_EHUM_MTIME : Z := 128.
Definition TARU_EHUM_PATH : Z := 256.
Definition TARU_EHUM_SIZE : Z := 2048.
Definition TARU_EHUM_UID : Z := 4096.
Definition TARU_EHUM_UNAME : Z := 8192.
Definition TARU_EHUM_ANY : Z := 16384.
Definition TARU_EHUM_DEV_MAJ : Z := 32768.
Definition TARU_EHUM_DEV_MIN : Z := 65536.

(** ** Accessors *)

Implicit Types (h : new_cpio_header).

(** A name of undetermined length is copied whole, a link name of a tar header
    up to the size of its field. *)
Definition ahsStaticSetPaxLinkname h (name : bytes) := put_c_tar_linkname name h.
Definition ahsStaticSetTarLinkname h (name : bytes) :=
  put_c_tar_linkname (take (Z.to_nat TARLINKNAMESIZE) name) h.
Definition ahsStaticSetTarFilename h (name : bytes) := put_c_name name h.
Definition ahsStaticSetTarUsername h (name : bytes) := put_c_username name h.
Definition ahsStaticSetTarGroupname h (name : bytes) := put_c_groupname name h.

Definition ahsStaticGetTarLinkname h := c_tar_linkname h.
Definition ahsStaticGetTarFilename h := c_name h.
Definition ahsStaticGetTarUsername h := c_username h.
Definition ahsStaticGetTarGroupname h := c_groupname h.

(** As long as a slash is not the last character, it is dropped. *)
Fixpoint ahsStatic_strip_leading_slash_i (name : bytes) : bytes :=
  match name with
  | c :: ((_ :: _) as r) => if is_slash c then ahsStatic_strip_leading_slash_i r else name
  | _ => name
  end.

Definition ahsStatic_strip_name_leading_slash h :=
  put_c_name (ahsStatic_strip_leading_slash_i (c_name h)) h.

(** S_IRWXU | S_IRWXG | S_IRWXO | S_ISUID | S_ISGID | S_ISVTX *)
Definition ALL_PERMS : Z := 4095.

Definition ahs_get_mode h : Z := c_mode h mod 2 ^ 32.
Definition ahs_set_mode h (mode : Z) := put_c_mode mode h.
Definition ahs_set_perms h (perms : Z) :=
  ahs_set_mode h (Z.lor (Z.ldiff (ahs_get_mode h) ALL_PERMS) perms).
Definition ahs_get_perms h : Z := Z.land (ahs_get_mode h) ALL_PERMS.
Definition ahs_set_filetype_from_tartype h (s : ascii) : option new_cpio_header :=
  '(modet, _) ← taru_set_filetype_from_tartype s (ahs_get_mode h) None;
  Some (put_c_mode modet h).
Definition ahs_get_tar_typeflag h : Z := taru_get_tar_filetype (ahs_get_mode h).

(** The look-ups of an owner or group that is not in the data base. *)
Definition ahs_set_uid_by_name `{SysDB} (c : SYSDBCACHE) h (username : bytes)
    : option (SYSDBCACHE * new_cpio_header) :=
  '(c, x, ret) ← taru_get_uid_by_name c username;
  if negb (ret =? 0) then Some (c, put_c_uid AHS_ID_NOBODY h)
  else x ← x; Some (c, put_c_uid x h).
Definition ahs_set_gid_by_name `{SysDB} (c : SYSDBCACHE) h (groupname : bytes)
    : option (SYSDBCACHE * new_cpio_header) :=
  '(c, x, ret) ← taru_get_gid_by_name c groupname;
  if negb (ret =? 0) then Some (c, put_c_gid AHS_ID_NOBODY h)
  else x ← x; Some (c, put_c_gid x h).

(** A fresh header; [now] is what time (NULL) returns.  The list of attributes
    stays as it is: is_in_useM is compared with 0 where it was to be set. *)
Definition taru_init_header (now : Z) h : new_cpio_header :=
  mkHDR (c_ino h) 256 AHS_ID_NOBODY AHS_ID_NOBODY 0 now 0 0 0 0 0 (c_namesize h) (c_chksum h)
    [] [] [] [] TARU_C_BY_USYS TARU_C_BY_USYS (-1) 0 0 0 (extattlistM h) now 0 now 0.

(** taru_filehdr2filehdr; the list of attributes is shared in the code, and no
    modelled operation changes it through one of the two headers only. *)
Definition taru_filehdr2filehdr (dst src : new_cpio_header) : new_cpio_header :=
  mkHDR (c_ino src) (c_mode src) (c_uid src) (c_gid src) (c_nlink src) (c_mtime src) (c_filesize src)
    (c_dev_maj src) (c_dev_min src) (c_rdev_maj src) (c_rdev_min src) (c_namesize src) (c_chksum src)
    (c_name src) (c_tar_linkname src) (c_username src) (c_groupname src) (c_cu src) (c_cg src)
    (c_is_tar_lnktype src) (usage_maskM dst) (extHeader_usage_maskM dst) (extHeader_needs_maskM dst)
    (extattlistM src) (c_atime src) (c_atime_nsec src) (c_ctime src) (c_ctime_nsec src).

(** ** What does not fit in a tar header *)

(** The result and *p_do_gnu_long_link. *)
Definition taru_is_tar_linkname_too_long (name : bytes) (tarheaderflags : Z) : Z * Z :=
  if zlen name <=? TARLINKNAMESIZE then (0, 0)
  else if bit tarheaderflags TARU_TAR_GNU_LONG_LINKS
       then if zlen name <? TARRECORDSIZE then (0, 1) else (1, 0)
  else if bit tarheaderflags TARU_TAR_PAXEXTHDR then (0, 0)
  else (1, 0).

(** A slash at which the name splits into a prefix and a name; [off] is p - start
    at the text [s]. *)
Fixpoint good_split (s : bytes) (off tarnamesize : Z) : bool :=
  match s with
  | [] => false
  | c :: r =>
      if is_slash c && ((off <? TARPREFIXSIZE) && ((zlen r <=? tarnamesize) && negb (off =? 0)))
      then true else good_split r (off + 1) tarnamesize
  end.

(** The name without a trailing slash; it is put back at the end. *)
Definition squash_slash (name : bytes) : bytes :=
  if (zlen name >? 1) && (match last name with Some c => is_slash c | None => false end)
  then take (length name - 1) name else name.

Definition tar_name_size (tarheaderflags : Z) (is_dir : bool) : Z :=
  let tarnamesize :=
    if (bit tarheaderflags TARU_TAR_GNU_LONG_LINKS && bit tarheaderflags TARU_TAR_NAMESIZE_99)
       || bit tarheaderflags TARU_TAR_GNU_OLDGNUTAR
    then TARNAMESIZE - 1 else TARNAMESIZE in
  if is_dir then tarnamesize - 1 else tarnamesize.

(** The result and *p_do_gnu_long_link. *)
Definition taru_is_tar_filename_too_long (name : bytes) (tarheaderflags : Z) (is_dir : bool) : Z * Z :=
  let name := squash_slash name in
  let do_gnu_longlinks := bit tarheaderflags TARU_TAR_GNU_LONG_LINKS in
  let do_exthdr := bit tarheaderflags TARU_TAR_PAXEXTHDR in
  let tarnamesize := tar_name_size tarheaderflags is_dir in
  let whole_name_len := zlen name in
  let retval :=
    if whole_name_len <? tarnamesize then 0
    else if (whole_name_len >? tarnamesize + TARPREFIXSIZE + 1) && (negb do_gnu_longlinks && negb do_exthdr)
    then 1
    else if good_split name 0 tarnamesize then 0 else 1 in
  if retval =? 0 then (0, 0)
  else if do_gnu_longlinks then
    if whole_name_len >=? 512 then (1, 0)
    else if whole_name_len >? tarnamesize then (0, 1)
    else (0, 0)
  else if do_exthdr then (0, 0)
  else (retval, 0).

(** The mask of the fields that need an extended header. *)
Definition taru_fill_exthdr_needs_mask h (tarheaderflags : Z) : Z :=
  let on (b : bool) (m mask : Z) := if b then Z.lor mask m else mask in
  let mask := on (negb (fst (taru_is_tar_filename_too_long (c_name h) 0 false) =? 0)) TARU_EHUM_PATH 0 in
  let mask := on (negb (fst (taru_is_tar_linkname_too_long (c_tar_linkname h) 0) =? 0)) TARU_EHUM_LINKPATH mask in
  let mask := on (c_filesize h >? TAR_MAX_SIZE) TARU_EHUM_SIZE mask in
  let mask := on (c_uid h >? TAR_MAX_UID) TARU_EHUM_UID mask in
  let mask := on (c_gid h >? TAR_MAX_GID) TARU_EHUM_GID mask in
  let mask := on (zlen (c_username h) >=? THB_FL_uname) TARU_EHUM_UNAME mask in
  let mask := on (zlen (c_groupname h) >=? THB_FL_gname) TARU_EHUM_GNAME mask in
  let mask := on (c_filesize h >? TAR_MAX_SIZE) TARU_EHUM_SIZE mask in
  let mask := on (c_dev_maj h >? TAR_MAX_DEVICE) TARU_EHUM_DEV_MAJ mask in
  let mask := on (c_dev_min h >? TAR_MAX_DEVICE) TARU_EHUM_DEV_MIN mask in
  if negb (Z.land tarheaderflags TARU_TAR_PAXEXTHDR_MD =? 0) then
    foldl Z.lor mask [TARU_EHUM_PATH; TARU_EHUM_LINKPATH; TARU_EHUM_SIZE; TARU_EHUM_UID; TARU_EHUM_GID;
                      TARU_EHUM_UNAME; TARU_EHUM_GNAME; TARU_EHUM_MTIME; TARU_EHUM_SIZE]
  else mask.

(** ** Attributes *)

Definition taru_exatt_init (p : EXATT) : EXATT := mkEXATT 0 [] [] [] [] (-1).
Definition taru_exatt_create : EXATT := mkEXATT 0 [] [] [] [] (-1).

(** The index of the first attribute not in use, which is cleared, or of a new
    one at the end. *)
Fixpoint get_free_loop (l : list EXATT) : nat * list EXATT :=
  match l with
  | [] => (0%nat, [taru_exatt_create])
  | p :: l => if is_in_useM p =? 0 then (0%nat, taru_exatt_init p :: l)
              else let '(i, l) := get_free_loop l in (S i, p :: l)
  end.

Definition taru_exattlist_get_free h : new_cpio_header * nat :=
  let '(i, l) := get_free_loop (extattlistM h) in (put_extattlistM l h, i).

(** taru_exattlist_init compares is_in_useM with 0 and changes nothing. *)
Definition taru_exattlist_init h : new_cpio_header := h.
