(* ===== verification/PaxHeader.v ===== *)
(** * Extended headers (swsupplib/taru/copyout.c, taru.c and readinheader.c)

    The records "<length> <keyword>=<value>\n" of a POSIX extended header: the
    writer puts them into a STROB, the reader takes them out of the memory
    block [m] the data blocks were read into. *)

From S2P Require Import Prelude CString Decimals Strob Pathname Escape FileMode TarNumbers TarHeader SysDb FileHdr.

(** ** Numbers of the C library *)

Fixpoint skip_isspace (s : bytes) : bytes :=
  match s with c :: r => if isspace c then skip_isspace r else s | [] => [] end.

(** The digits at the start of the text, their number and their value. *)
Fixpoint scan_digits (s : bytes) (count : Z) (val : Z) : Z * Z :=
  match s with
  | c :: r => if isdigit c then scan_digits r (count + 1) (10 * val + (uchar c - 48)) else (count, val)
  | [] => (count, val)
  end.

(** What strtol and strtoul read: the sign, the number, and the length of what
    was used, 0 when there is no number. *)
Definition scan_number (s : bytes) : bool * Z * Z :=
  let s1 := skip_isspace s in
  let '(neg, sign, s2) := match s1 with
                          | c :: r => if ceq c "-"%char then (true, 1, r)
                                      else if ceq c "+"%char then (false, 1, r) else (false, 0, s1)
                          | [] => (false, 0, s1)
                          end in
  let '(count, val) := scan_digits s2 0 0 in
  if count =? 0 then (false, 0, 0) else (neg, val, zlen s - zlen s1 + sign + count).

Definition LONG_MAX : Z := 2 ^ 63 - 1.
Definition LONG_MIN : Z := - 2 ^ 63.
Definition ULONG_MAX : Z := 2 ^ 64 - 1.

(** The value and the length of what was used. *)
Definition strtol (s : bytes) : Z * Z :=
  let '(neg, val, used) := scan_number s in
  (Z.max LONG_MIN (Z.min LONG_MAX (if neg then - val else val)), used).

(** The value, whether it was out of range, and the length of what was used. *)
Definition strtoul (s : bytes) : Z * bool * Z :=
  let '(neg, val, used) := scan_number s in
  if val >? ULONG_MAX then (ULONG_MAX, true, used)
  else (to_size (if neg then - val else val), false, used).

(** swlib_atoi2: the int, *result and the length of what was used; errno is 0
    before the call. *)
Definition swlib_atoi2 (s : bytes) : Z * Z * Z :=
  let '(ret, used) := strtol s in
  let '(_, val, _) := scan_number s in
  let erange := (val >? LONG_MAX + 1) || ((val =? LONG_MAX + 1) && (ret =? LONG_MAX)) in
  (to_int ret,
   if ((used =? 0) && (ret =? 0)) || (((ret =? LONG_MIN) || (ret =? LONG_MAX)) && erange) then 1 else 0, used).

(** swlib_atoul compares the local endptr, which strtoul has only set when
    fp_endptr is NULL; [stray] is whether it happens to be nptr otherwise. *)
Definition swlib_atoul (stray : bool) (s : bytes) (fp_endptr : bool) : Z * Z * Z :=
  let '(ret, erange, used) := strtoul s in
  let at_start := if fp_endptr then stray else used =? 0 in
  (ret, if (at_start && (ret =? 0)) || ((ret =? ULONG_MAX) && erange) then 1 else 0, used).

(** ** Writing records *)

(** The loop that counts the digits of r. *)
Fixpoint count_digits (fuel : nat) (r n : Z) : Z :=
  match fuel with
  | O => n
  | S fuel => if r / 10 >=? 1 then count_digits fuel (r / 10) (n + 1) else n + 1
  end.

(** From [i] up to 98. *)
Fixpoint ilen_loop (fuel : nat) (rlen i : Z) : Z :=
  match fuel with
  | O => -1
  | S fuel =>
      if i <? 99 then
        let j := count_digits 11 (rlen + i) 0 in
        if i =? j then i + rlen else ilen_loop fuel rlen (i + 1)
      else -1
  end.

(** The length of a record whose decimal length is part of it. *)
Definition get_ilen (rlen : Z) : Z := ilen_loop 99 rlen (count_digits 11 rlen 0).

Section Writer.
Context `{Malloc}.

(** [value] are the [len] bytes at the address of the value. *)
Definition construct_exthdr_record (buf : STROB) (initial_offset : Z) (keyword value : bytes)
    : option (outcome (STROB * Z)) :=
  let len := zlen value in
  let rlen := get_ilen (to_int (1 + zlen keyword + len + 1 + 1)) in
  if rlen <? 0 then Some Fatal
  else
    '(buf, _) ← strob_vsprintf_at buf initial_offset (decimal rlen ++ L " " ++ keyword ++ L "=");
    ret ← strlen_at (str_ buf) initial_offset;
    buf ← strob_memcpy_at buf (initial_offset + ret) value;
    if negb (ret + len + 1 =? rlen) then Some Fatal
    else
      buf ← strob_memcpy_at buf (initial_offset + rlen - 1) ["010"%char];
      Some (Returns (buf, rlen)).

(** One record when the bit is set, and then the field of the tar header gets a
    value that fits. *)
Definition ustar_record (bit_ : Z) (keyword : bytes) (value : new_cpio_header -> bytes)
    (fit : new_cpio_header -> new_cpio_header) (st : STROB * new_cpio_header * Z)
    : option (outcome (STROB * new_cpio_header * Z)) :=
  let '(buf, h, data_len) := st in
  if bit (extHeader_needs_maskM h) bit_ then
    r ← construct_exthdr_record buf data_len keyword (value h);
    Some (match r with
          | Fatal => Fatal
          | Returns (buf, ret) => Returns (buf, fit h, data_len + ret)
          end)
  else Some (Returns st).

Definition and_then {A} (r : option (outcome A)) (f : A -> option (outcome A)) : option (outcome A) :=
  r ← r; match r with Fatal => Some Fatal | Returns a => f a end.

(** strob_chr_index of a NUL cuts the name behind [n] bytes. *)
Definition cut_name (n : Z) (name : bytes) : bytes := take (Z.to_nat n) name.

(** The state is the buffer, the header and data_len; a group id that does not
    fit replaces the user id. *)
Definition write_exthdrs_ustar_records (buf : STROB) (h : new_cpio_header)
    : option (outcome (STROB * new_cpio_header * Z)) :=
  let r := ustar_record TARU_EHUM_LINKPATH (L "linkpath") c_tar_linkname
             (fun h => put_c_tar_linkname (cut_name TARNAMESIZE (c_tar_linkname h)) h) (buf, h, 0) in
  let r := and_then r (ustar_record TARU_EHUM_PATH (L "path") c_name
             (fun h => put_c_name (cut_name TARNAMESIZE (c_name h)) h)) in
  let r := and_then r (ustar_record TARU_EHUM_SIZE (L "size") (fun h => decimal (c_filesize h))
             (put_c_filesize TAR_MAX_SIZE)) in
  let r := and_then r (ustar_record TARU_EHUM_UID (L "uid") (fun h => decimal (c_uid h))
             (put_c_uid TAR_MAX_UID)) in
  let r := and_then r (ustar_record TARU_EHUM_GID (L "gid") (fun h => decimal (c_gid h))
             (put_c_uid TAR_MAX_GID)) in
  let r := and_then r (ustar_record TARU_EHUM_UNAME (L "uname") c_username
             (fun h => put_c_username (cut_name (THB_FL_uname - 1) (c_username h)) h)) in
  let r := and_then r (ustar_record TARU_EHUM_GNAME (L "gname") c_groupname
             (fun h => put_c_groupname (cut_name (THB_FL_gname - 1) (c_groupname h)) h)) in
  let r := and_then r (ustar_record TARU_EHUM_DEV_MAJ (L "SWBIS.devmajor") (fun h => decimal (c_dev_maj h))
             (put_c_dev_maj TAR_MAX_DEVICE)) in
  and_then r (ustar_record TARU_EHUM_DEV_MIN (L "SWBIS.devminor") (fun h => decimal (c_dev_min h))
             (put_c_dev_min TAR_MAX_DEVICE)).

(** "vendor.namespace.name" *)
Definition exatt_fqname (p : EXATT) : bytes :=
  vendorM p ++ (if negb (zlen (vendorM p) =? 0) then L "." else [])
  ++ namespaceM p ++ (if negb (zlen (namespaceM p) =? 0) then L "." else []) ++ attrnameM p.

(** Up to the first attribute that is not in use; a value has lenM bytes. *)
Fixpoint write_exthdrs_xattr_records (buf : STROB) (extlist : list EXATT) (data_len : Z)
    : option (outcome (STROB * Z)) :=
  match extlist with
  | p :: extlist =>
      if negb (is_in_useM p =? 0) then
        value ← (if (0 <=? lenM p) && (lenM p <=? zlen (attrvalueM p))
                 then Some (take (Z.to_nat (lenM p)) (attrvalueM p)) else None);
        r ← construct_exthdr_record buf data_len (exatt_fqname p) value;
        match r with
        | Fatal => Some Fatal
        | Returns (buf, ret) => write_exthdrs_xattr_records buf extlist (data_len + ret)
        end
      else Some (Returns (buf, data_len))
  | [] => Some (Returns (buf, data_len))
  end.
End Writer.

(** ** Reading records *)

(** [n] bytes from the address [p] on. *)
Definition bytes_at (m : bytes) (p n : Z) : option bytes :=
  if (0 <=? p) && (0 <=? n) && (p + n <=? zlen m) then Some (take (Z.to_nat n) (drop (Z.to_nat p) m)) else None.

Definition EXATT_PREFIX_LEN : Z := 100.
Definition EXATT_NAMESPACE_LEN : Z := 100.

(** The text that swlib_strncpy leaves in an array of [n] bytes. *)
Definition array_text (n : Z) (s : bytes) : bytes := take (Z.to_nat (n - 1)) s.

Section Reader.
Context `{Malloc}.

(** while (s) {...}: the attribute, the flags has_prefix, has_namespace and
    has_name, and the result. *)
Fixpoint fqname_loop (fuel : nat) (p : EXATT) (pre ns nm : bool) (tmp : STROB) (s : option Z)
    : option (EXATT * (bool * bool * bool) * Z) :=
  match fuel with
  | O => None
  | S fuel =>
    match s with
    | None => Some (p, (pre, ns, nm), 0)
    | Some o =>
        t ← str_at (str_ tmp) o;
        let upper := match t with c :: _ => isupper c | [] => false end in
        let next p pre ns nm :=
          '(tmp, s) ← strob_strtok tmp TokNull (L "."); fqname_loop fuel p pre ns nm tmp s in
        if upper && negb pre then
          next (mkEXATT (is_in_useM p) (array_text EXATT_PREFIX_LEN t) (namespaceM p) (attrnameM p)
                  (attrvalueM p) (lenM p)) true ns nm
        else if negb upper && negb ns then
          next (mkEXATT (is_in_useM p) (vendorM p) (array_text EXATT_NAMESPACE_LEN t) (attrnameM p)
                  (attrvalueM p) (lenM p)) pre true nm
        else if negb upper && negb nm then
          next (mkEXATT (is_in_useM p) (vendorM p) (namespaceM p) t (attrvalueM p) (lenM p)) pre ns true
        else Some (p, (pre, ns, nm), -1)
    end
  end.

Definition taru_exatt_parse_fqname (exatt : EXATT) (attr : bytes) (attrlen : Z) : option (EXATT * Z) :=
  tmp ← strob_open 32;
  tmp ← strob_strncpy tmp attr attrlen;
  let p := mkEXATT (is_in_useM exatt) [] [] [] (attrvalueM exatt) (lenM exatt) in
  '(tmp, s) ← strob_strtok tmp TokSelf (L ".");
  '(p, flags, retval) ← fqname_loop (S (Z.to_nat attrlen)) p false false false tmp s;
  let '(has_prefix, has_namespace, has_name) := flags in
  if has_namespace && negb has_name && negb has_prefix
  then Some (mkEXATT (is_in_useM p) (vendorM p) [] (namespaceM p) (attrvalueM p) (lenM p), retval)
  else Some (p, retval).

(** The header, and the address behind the record or the error code. *)
Definition taru_read_ext_header_record (h : new_cpio_header) (m : bytes) (data : Z)
    : option (new_cpio_header * (Z + Z)) :=
  s ← str_at m data;
  let '(len, _, used) := swlib_atoi2 s in
  let pos := data + used in
  c ← mem_read m pos;
  if negb (isspace c) then Some (h, inr (-1))
  else
    let attr := pos + 1 in
    a ← str_at m attr;
    match strchr a "="%char with
    | None => Some (h, inr (-2))
    | Some k =>
        let attrlen := Z.of_nat k in
        let value := attr + attrlen + 1 in
        let valuelen := len - (value - data) - 1 in
        if valuelen <? 0 then Some (h, inr (-4))
        else
          let '(h, i) := taru_exattlist_get_free h in
          exatt ← extattlistM h !! i;
          '(exatt, retval) ← taru_exatt_parse_fqname exatt a attrlen;
          if retval <? 0 then Some (put_extattlistM (<[i := exatt]> (extattlistM h)) h, inr (-5))
          else
            v ← bytes_at m value valuelen;
            let exatt := mkEXATT 1 (vendorM exatt) (namespaceM exatt) (attrnameM exatt) v valuelen in
            Some (put_extattlistM (<[i := exatt]> (extattlistM h)) h, inl (value + valuelen + 1))
    end.

(** The header and the number of records, or minus the number of records in
    front of one that could not be read; a record has more than one byte. *)
Fixpoint read_records (fuel : nat) (h : new_cpio_header) (m : bytes) (data len pos num : Z)
    : option (new_cpio_header * Z) :=
  match fuel with
  | O => None
  | S fuel =>
    if pos - data <? len then
      '(h, r) ← taru_read_ext_header_record h m pos;
      match r with
      | inr _ => Some (h, - num)
      | inl retpos => read_records fuel h m data len retpos (num + 1)
      end
    else Some (h, num)
  end.

Definition taru_read_all_ext_header_records (h : new_cpio_header) (m : bytes) (data len : Z)
    : option (new_cpio_header * Z) :=
  let h := put_ext_usage_maskM (Z.lor (extHeader_usage_maskM h) TARU_EHUM_ANY) h in
  read_records (S (Z.to_nat len)) h m data len data 0.
End Reader.

(** ** From the attributes to the header *)

Section Override.
Context (stray : bool).

(** *al and the result; with [nsec] also *al_nsec, behind a point. *)
Definition set_unsigned_long_value (value : bytes) : Z * Z :=
  let '(ret, result, _) := swlib_atoul stray value true in
  (if negb (result =? 0) then 0 else ret, result).

Definition set_unsigned_long_nsec (value : bytes) : Z * Z * Z :=
  let '(ret, result, used) := swlib_atoul stray value true in
  if negb (result =? 0) then (0, 0, result)
  else match drop (Z.to_nat used) value with
       | "."%char :: r =>
           let '(nsec, result, _) := swlib_atoul stray r false in
           (ret, if negb (result =? 0) then 0 else nsec, result)
       | _ => (ret, 0, result)
       end.

Definition used (bit_ : Z) (h : new_cpio_header) : new_cpio_header :=
  put_ext_usage_maskM (Z.lor (extHeader_usage_maskM h) bit_) h.

(** The header, the attribute and the result; the value of "size" goes to the
    user id. *)
Definition taru_exatt_override_ustar (h : new_cpio_header) (exatt : EXATT)
    : new_cpio_header * EXATT * Z :=
  let attr := attrnameM exatt in
  if negb ((zlen (namespaceM exatt) =? 0) && match attr with c :: _ => islower c | [] => false end)
  then (h, exatt, 0)
  else
    let value := cstr (attrvalueM exatt) in
    let in_use n := mkEXATT n (vendorM exatt) (namespaceM exatt) attr (attrvalueM exatt) (lenM exatt) in
    let number put_ bit_ :=
      let '(v, ret) := set_unsigned_long_value value in (used bit_ (put_ v h), in_use 0, ret) in
    if streq attr (L "path") then (used TARU_EHUM_PATH (ahsStaticSetTarFilename h value), in_use 0, 0)
    else if streq attr (L "linkpath") then (used TARU_EHUM_LINKPATH (ahsStaticSetPaxLinkname h value), in_use 0, 0)
    else if streq attr (L "gname") then (used TARU_EHUM_GNAME (ahsStaticSetTarGroupname h value), in_use 0, 0)
    else if streq attr (L "uname") then (used TARU_EHUM_UNAME (ahsStaticSetTarUsername h value), in_use 0, 0)
    else if streq attr (L "atime") then
      let '(v, ns, ret) := set_unsigned_long_nsec value in
      (used TARU_EHUM_ATIME (put_c_atime_nsec ns (put_c_atime v h)), in_use 0, ret)
    else if streq attr (L "mtime") then number put_c_mtime TARU_EHUM_MTIME
    else if streq attr (L "ctime") then
      let '(v, ns, ret) := set_unsigned_long_nsec value in
      (used TARU_EHUM_CTIME (put_c_ctime_nsec ns (put_c_ctime v h)), in_use 0, ret)
    else if streq attr (L "gid") then number put_c_gid TARU_EHUM_GID
    else if streq attr (L "uid") then number put_c_uid TARU_EHUM_UID
    else if streq attr (L "size") then number put_c_uid TARU_EHUM_SIZE
    else (h, in_use 1, 0).

(** The loop of taru_read_in_tar_header2 over the whole list, whether an
    attribute is in use or not. *)
Fixpoint override_loop (h : new_cpio_header) (l : list EXATT) : new_cpio_header * list EXATT :=
  match l with
  | [] => (h, [])
  | p :: l => let '(h, p, _) := taru_exatt_override_ustar h p in
              let '(h, l) := override_loop h l in (h, p :: l)
  end.

Definition override_all (h : new_cpio_header) : new_cpio_header :=
  let '(h', l) := override_loop h (extattlistM h) in put_extattlistM l h'.
End Override.
