(* ===== verification/PaxHeaderSpec.v ===== *)
(** * What extended headers promise

    Decimal numbers and record lengths, a record in a buffer, and the reader on
    the records of a writer. *)

From S2P Require Import Prelude CString Decimals Strob StrobSpec Stored Pathname Escape FileMode TarNumbers TarHeader SysDb FileHdr PaxHeader.

(** ** Lengths of records *)

Lemma count_digits_digs fuel : forall r n,
  0 <= r < 10 ^ Z.of_nat fuel -> (0 < fuel)%nat -> count_digits fuel r n = n + zlen (digs fuel r).
Proof.
  induction fuel as [|fuel IH]; intros r n Hr Hf; [lia|]. cbn [count_digits digs]. rewrite zlen_app.
  change (zlen [to_char (48 + r mod 10)]) with 1. rewrite Nat2Z.inj_succ, Z.pow_succ_r in Hr by lia.
  pose proof (Z.div_mod r 10). pose proof (Z.mod_pos_bound r 10).
  destruct (Z.eqb_spec (r / 10) 0) as [E|E].
  - rewrite E. change (0 >=? 1) with false. cbv iota. rewrite zlen_nil. lia.
  - assert ((r / 10 >=? 1) = true) as -> by (apply Z.geb_le; lia).
    rewrite IH; [lia|lia|]. destruct fuel; [cbn in Hr|]; lia.
Qed.

Lemma count_digits_ndigits r : 0 <= r < 10 ^ 11 -> count_digits 11 r 0 = ndigits r.
Proof.
  intros Hr. rewrite count_digits_digs by (done || lia). unfold ndigits. rewrite decimal_digs.
  rewrite (digs_fuel 11 20) by (done || lia || (cbn in *; lia)). lia.
Qed.

(** The length of a record counts the digits of this length. *)
Lemma get_ilen_spec r : 0 <= r < 10 ^ 9 ->
  exists n, get_ilen r = n /\ n = r + ndigits n /\ r < n <= r + 10.
Proof.
  intros Hr. unfold get_ilen. rewrite count_digits_ndigits by lia. pose proof (ndigits_pos r) as Hp.
  set (i := ndigits r) in *.
  assert (i <= 9) as Hi by (apply ndigits_le; lia).
  assert (r < 10 ^ i) as Hlt by (apply ndigits_le; [lia|lia|done]).
  assert (1 <= i - 1 -> 10 ^ (i - 1) <= r) as Hge.
  { intros H. destruct (Z.le_gt_cases (10 ^ (i - 1)) r) as [?|Hc]; [done|].
    apply (ndigits_le r (i - 1)) in Hc; [fold i in Hc; lia|lia|lia]. }
  assert (10 ^ 9 + 10 < 10 ^ 11) as H11 by done.
  cbn [ilen_loop]. assert ((i <? 99) = true) as -> by (apply Z.ltb_lt; lia).
  rewrite count_digits_ndigits by lia.
  assert (ndigits r <= ndigits (r + i)) as Hm.
  { destruct (Z.le_gt_cases (ndigits r) (ndigits (r + i))) as [?|Hc]; [done|]. fold i in Hc.
    pose proof (ndigits_pos (r + i)). assert (ndigits (r + i) <= i - 1) as Hc2 by lia.
    apply ndigits_le in Hc2; [|lia|lia]. pose proof (Hge ltac:(lia)). lia. }
  fold i in Hm. destruct (Z.eqb_spec i (ndigits (r + i))) as [E|E].
  - eexists. split; [done|]. replace (i + r) with (r + i) by lia. lia.
  - assert ((i + 1 <? 99) = true) as -> by (apply Z.ltb_lt; lia). rewrite count_digits_ndigits by lia.
    assert (ndigits (r + (i + 1)) = i + 1) as En.
    { assert (10 ^ i <= r + i) as Hb.
      { destruct (Z.le_gt_cases (10 ^ i) (r + i)) as [?|Hc]; [done|].
        apply ndigits_le in Hc; lia. }
      apply Z.le_antisymm.
      - apply ndigits_le; [lia|lia|]. rewrite Z.pow_add_r by lia. lia.
      - destruct (Z.le_gt_cases (i + 1) (ndigits (r + (i + 1)))) as [?|Hc]; [done|].
        assert (ndigits (r + (i + 1)) <= i) as Hc2 by lia. apply ndigits_le in Hc2; lia. }
    rewrite En, Z.eqb_refl. eexists. split; [done|]. replace (i + 1 + r) with (r + (i + 1)) by lia. lia.
Qed.

(** ** Reading decimal numbers *)

Lemma scan_digits_spec ds r : forall count val,
  Forall (fun c => isdigit c = true) ds -> match r with c :: _ => isdigit c = false | [] => True end ->
  scan_digits (ds ++ r) count val = (count + zlen ds, dec_value val ds).
Proof.
  induction ds as [|c ds IH]; intros count val HF Hr; cbn [app].
  - rewrite zlen_nil, Z.add_0_r. destruct r as [|c r]; [done|]. cbn [scan_digits]. by rewrite Hr.
  - apply Forall_cons in HF as [Hc HF]. cbn [scan_digits]. rewrite Hc, IH by done.
    rewrite zlen_cons. f_equal. lia.
Qed.

Lemma scan_number_decimal n r :
  0 <= n < 10 ^ 20 -> match r with c :: _ => isdigit c = false | [] => True end ->
  scan_number (decimal n ++ r) = (false, n, ndigits n).
Proof.
  intros Hn Hr. unfold scan_number, ndigits. rewrite decimal_digs.
  pose proof (digs_digits 20 n) as HF. pose proof (dec_value_digs 20 0 n Hn ltac:(lia)) as Hv.
  destruct (digs 20 n) as [|c ds] eqn:E; [by apply digs_nonempty in E; [|lia]|].
  apply Forall_cons in HF as [Hc HF]. destruct (digit_not_space c Hc) as (S1 & S2 & S3).
  cbn [app skip_isspace]. rewrite S1, S2, S3.
  change (c :: ds ++ r) with ((c :: ds) ++ r). rewrite scan_digits_spec by (done || by constructor).
  rewrite Hv, zlen_cons. pose proof (zlen_nonneg ds).
  destruct (Z.eqb_spec (0 + (1 + zlen ds)) 0); [lia|]. apply pair_equal_spec. split; [|lia].
  rewrite Z.mul_0_l. done.
Qed.

Lemma atoi2_decimal n r :
  0 <= n <= INT_MAX -> match r with c :: _ => isdigit c = false | [] => True end ->
  swlib_atoi2 (decimal n ++ r) = (n, 0, ndigits n).
Proof.
  unfold INT_MAX. intros Hn Hr. unfold swlib_atoi2, strtol. rewrite scan_number_decimal by (done || lia).
  rewrite Z.min_r, Z.max_r by (unfold LONG_MAX, LONG_MIN; lia). rewrite to_int_id by (unfold INT_MAX; lia).
  pose proof (ndigits_pos n). destruct (Z.eqb_spec (ndigits n) 0); [lia|]. cbn [andb orb].
  destruct (Z.eqb_spec n LONG_MIN); [unfold LONG_MIN in *; lia|].
  by destruct (Z.eqb_spec n LONG_MAX); [unfold LONG_MAX in *; lia|].
Qed.

Lemma set_value_decimal stray n : 0 <= n < 2 ^ 64 -> fst (set_unsigned_long_value stray (decimal n)) = n.
Proof.
  intros Hn. unfold set_unsigned_long_value, swlib_atoul, strtoul.
  rewrite <- (app_nil_r (decimal n)), scan_number_decimal by (done || lia).
  destruct (Z.gtb_spec n ULONG_MAX); [unfold ULONG_MAX in *; lia|]. rewrite to_size_id by lia.
  rewrite andb_false_r, orb_false_r. by destruct stray, (Z.eqb_spec n 0) as [->|].
Qed.

(** ** The text of a record *)

Definition record_length (k v : bytes) : Z := get_ilen (zlen k + zlen v + 3).
Definition record_head (k v : bytes) : bytes := decimal (record_length k v) ++ L " " ++ k ++ L "=".
Definition record_text (k v : bytes) : bytes := record_head k v ++ v ++ ["010"%char].

Lemma record_text_length k v : zlen k + zlen v < 2 ^ 29 ->
  zlen (record_text k v) = record_length k v /\ zlen (record_head k v) + zlen v + 1 = record_length k v
  /\ zlen k + zlen v + 3 < record_length k v <= zlen k + zlen v + 13.
Proof.
  intros Hs. pose proof (zlen_nonneg k). pose proof (zlen_nonneg v).
  destruct (get_ilen_spec (zlen k + zlen v + 3)) as (n & E & Hn & Hr); [lia|].
  unfold record_text, record_head. unfold record_length in *. rewrite E, !zlen_app. fold (ndigits n).
  change (zlen (L " ")) with 1. change (zlen (L "=")) with 1. change (zlen ["010"%char]) with 1. lia.
Qed.

Lemma no_nul_digits ds : Forall (fun c => isdigit c = true) ds -> no_nul ds.
Proof. intros HF Hin. rewrite Forall_forall in HF. by apply HF in Hin. Qed.

Lemma record_head_no_nul k v : no_nul k -> no_nul (record_head k v).
Proof.
  intros Hk. unfold record_head. rewrite !no_nul_app. split; [|split; [by apply no_nul_compute|split; [done|by apply no_nul_compute]]].
  apply no_nul_digits. rewrite decimal_digs. apply digs_digits.
Qed.

(** ** A record in a buffer *)

Section WriterSpec.
Context `{Malloc}.

Lemma reopen_if_shape s n s' :
  wf s -> 0 <= n <= SMALL -> strob_reopen_if s (to_size n) = Some s' ->
  extra_ s' = extra_ s /\ reserve_ s' <= Z.max (reserve_ s) (n + extra_ s + 2)
  /\ (n <= reserve_ s -> reserve_ s' = reserve_ s).
Proof.
  intros W Hn. pose proof (wf_extra s W). unfold SMALL in *. unfold strob_reopen_if, strob_reopen.
  rewrite (to_size_id n), (to_int_id n) by (unfold INT_MAX; lia).
  destruct (Z.gtb_spec n (reserve_ s)); [|intros [= <-]; lia]. rewrite to_size_id by lia.
  destruct (strob_reopen_fill_with_spec s (n + extra_ s) 0) as (m & -> & _);
    [unfold INT_MAX; lia|apply (wf_length s W)|].
  intros [= <-]. cbn [extra_ reserve_ set_block]. lia.
Qed.

Lemma memlength_shape s n s' :
  wf s -> 0 <= n <= SMALL -> strob_set_memlength s n = Some s' ->
  extra_ s' = extra_ s /\ reserve_ s' <= Z.max (reserve_ s) (n + extra_ s + 2)
  /\ (n <= reserve_ s -> reserve_ s' = reserve_ s).
Proof.
  intros W Hn. unfold strob_set_memlength. destruct (strob_reopen_if s (to_size n)) as [s1|] eqn:E; [|done].
  intros [= <-]. exact (reopen_if_shape s n s1 W Hn E).
Qed.

(** One round of the loop in strob_vsprintf_at. *)
Lemma vsprintf_round fuel s o out added oldend s' r :
  wf s -> 0 <= added -> reserve_ s + added <= SMALL -> 0 <= o < reserve_ s ->
  (oldend = Some o \/ oldend = None) ->
  vsprintf_loop (S fuel) s (fun _ => Some o) out added oldend = Some (s', r) ->
  exists s2, wf s2 /\ extra_ s2 = extra_ s /\ reserve_ s + added <= reserve_ s2
    /\ reserve_ s2 <= reserve_ s + added + extra_ s + 2 /\ (added = 0 -> reserve_ s2 = reserve_ s) /\ length_ s2 = reserve_ s + added
    /\ ((zlen out < reserve_ s2 - o /\ s' = s2)
        \/ (reserve_ s2 - o <= zlen out
            /\ vsprintf_loop fuel s2 (fun _ => Some o) out (added + 128) (Some o) = Some (s', r))).
Proof.
  intros W Ha Hb Ho Hold. cbn [vsprintf_loop].
  destruct (clear_oldend s oldend) as [s1|] eqn:E1; [|done].
  assert (wf s1 /\ extra_ s1 = extra_ s /\ reserve_ s1 = reserve_ s) as (W1 & X1 & R1).
  { destruct Hold as [->| ->]; cbn [clear_oldend] in E1; [|by injection E1 as <-].
    destruct (mem_write (str_ s) o [NUL]) as [m|] eqn:Em; [|done]. injection E1 as <-.
    split; [by eapply (wf_set_str s o [NUL]); [..|right]|done]. }
  obind. rewrite R1. destruct (strob_set_memlength_spec s1 (reserve_ s + added) W1)
    as (s2 & E & W2 & Hl2 & Hr2 & _ & _ & _); [pose proof (wf_reserve s W); lia|].
  destruct (memlength_shape s1 (reserve_ s + added) s2 W1 ltac:(pose proof (wf_reserve s W); lia) E) as (X2 & R2 & R3). rewrite E. obind.
  destruct (vsnprintf (str_ s2) o (reserve_ s2 - o) out) as [[m ret]|] eqn:Ev; [|done]. obind.
  assert (ret = zlen out /\ wf (set_str m s2)) as [-> W3].
  { unfold vsnprintf in Ev. destruct (_ <=? 0); [injection Ev as <- <-; split; [done|by destruct s2]|].
    destruct (mem_write _ _ _) as [m0|] eqn:Em; [|done]. injection Ev as <- <-.
    split; [done|]. eapply wf_set_str; [done|exact Em|right]. by rewrite last_snoc. }
  intros Hend. exists (set_str m s2). cbn [set_str extra_ reserve_ length_] in *. rewrite R1, X1 in *.
  split; [done|]. split; [done|]. split; [lia|]. split; [pose proof (wf_extra s W); lia|].
  split; [intros; apply R3; lia|]. split; [done|].
  pose proof (zlen_nonneg out). destruct (Z.ltb_spec (zlen out) 0); [lia|]. cbn [orb] in Hend.
  destruct (Z.geb_spec (zlen out) (reserve_ s2 - o)); [right; split; [lia|done]|left].
  injection Hend as <- _. split; [lia|done].
Qed.

(** A short output at an offset inside the block ends below the recorded
    length, so a later growth does not clear it. *)
Lemma vsprintf_at_shape s o out s' r :
  wf s -> reserve_ s <= 2 ^ 28 -> 0 <= o < reserve_ s -> zlen out <= 128 ->
  strob_vsprintf_at s o out = Some (s', r) ->
  extra_ s' = extra_ s /\ reserve_ s <= reserve_ s' <= reserve_ s + 2 * extra_ s + 132
  /\ o + zlen out <= length_ s' /\ o + zlen out < reserve_ s'.
Proof.
  intros W Hr Ho Hz. unfold strob_vsprintf_at, vsprintf_fuel.
  assert ((o >? reserve_ s) = false) as -> by (rewrite Z.gtb_ltb; apply Z.ltb_ge; lia). obind. intros E.
  pose proof (wf_extra s W). unfold SMALL in *.
  apply vsprintf_round in E as (s1 & W1 & X1 & R1 & R2 & R3 & L1 & E); [|done|lia|unfold SMALL; lia|lia|by right].
  rewrite Z.add_0_r in *. rewrite R3 in * by done. destruct E as [[Hfit ->]|[Hfull E]]; [lia|].
  rewrite <- (Z.add_0_l 128) in E at 1.
  apply vsprintf_round in E as (s2 & W2 & X2 & Q1 & Q2 & _ & L2 & E);
    [|done|lia|unfold SMALL; lia|lia|by left].
  destruct E as [[Hfit ->]|[Hfull2 _]]; lia.
Qed.

Lemma memcpy_at_spec s off bs :
  wf s -> 0 <= off < reserve_ s -> off <= length_ s -> off + zlen bs + 1 <= SMALL ->
  exists s', strob_memcpy_at s off bs = Some s' /\ wf s' /\ extra_ s' = extra_ s
    /\ stored (str_ s') off bs /\ (forall i, Z.of_nat i < off -> str_ s' !! i = str_ s !! i)
    /\ off + zlen bs < reserve_ s' /\ off + zlen bs <= length_ s'
    /\ reserve_ s' <= Z.max (reserve_ s) (off + zlen bs + extra_ s + 3).
Proof.
  intros W Ho Hl Hb. pose proof (zlen_nonneg bs). rewrite strob_memcpy_at_is_memmove_to by lia.
  unfold strob_memmove_to. rewrite to_int_id by (unfold SMALL, INT_MAX in *; lia).
  destruct (strob_set_up_spec s (off + zlen bs) W) as (s1 & E & W1 & (X1 & _) & Hl1 & Hr & Hlo & _); [lia|].
  assert (reserve_ s1 <= Z.max (reserve_ s) (off + zlen bs + extra_ s + 3)) as Hup.
  { unfold strob_set_up in E. destruct (strob_reopen_if s _) as [s0|] eqn:E0; [|done].
    apply reopen_if_shape in E0 as (_ & R0 & _); [|done|lia]. cbn [mbind option_bind] in E.
    destruct (_ >? length_ s0); [|injection E as <-; lia].
    destruct (mem_write _ _ _); [|done]. injection E as <-. cbn [set_str set_len reserve_]. lia. }
  rewrite E. obind. written m. eexists. split; [done|].
  split; [eapply wf_set_str; eauto; by left|]. cbn [set_str extra_ str_ reserve_ length_].
  split; [done|]. split; [by eapply mem_write_stored|]. split; [|lia].
  intros i Hi. rewrite (mem_write_lookup _ _ _ _ i Hm), decide_False by lia. apply Hlo; lia.
Qed.

(** Room for [j] more records behind the offset [o]. *)
Record room (j : nat) (s : STROB) (o : Z) : Prop := {
  room_wf : wf s;
  room_extra : extra_ s = 156;
  room_offset : 0 <= o < reserve_ s;
  room_length : o <= length_ s;
  room_size : reserve_ s + 444 * Z.of_nat j <= 2 ^ 28;
}.

Lemma record_head_short k v : zlen k <= 100 -> zlen k + zlen v < 2 ^ 29 -> zlen (record_head k v) <= 128.
Proof.
  intros Hk Hs. destruct (record_text_length k v Hs) as (_ & H1 & H2). lia.
Qed.

#[local] Strategy opaque [decimal get_ilen].
#[local] Strategy expand [ndigits record_length record_head record_text].

Lemma construct_record_spec j s o k v :
  room (S j) s o -> no_nul k -> zlen k <= 100 -> o + record_length k v + 444 * Z.of_nat j <= 2 ^ 27 ->
  zlen v < 2 ^ 28 ->
  exists s', construct_exthdr_record s o k v = Some (Returns (s', record_length k v))
    /\ room j s' (o + record_length k v) /\ stored (str_ s') o (record_text k v)
    /\ (forall i, Z.of_nat i < o -> str_ s' !! i = str_ s !! i).
Proof.
  intros [W X Ho Hl Hr] Hk Hz Hb Hv. pose proof (zlen_nonneg k). pose proof (zlen_nonneg v).
  destruct (record_text_length k v ltac:(lia)) as (_ & T1 & T2).
  pose proof (record_head_short k v Hz ltac:(lia)) as Hh.
  pose proof (record_head_no_nul k v Hk) as Hn. unfold construct_exthdr_record.
  rewrite to_int_id by (unfold INT_MAX; lia).
  replace (1 + zlen k + zlen v + 1 + 1) with (zlen k + zlen v + 3) by lia. fold (record_length k v).
  destruct (Z.ltb_spec (record_length k v) 0); [lia|].
  fold (record_head k v). pose proof (zlen_nonneg (record_head k v)).
  destruct (strob_vsprintf_at_spec s o (record_head k v) W Hn) as (s1 & E & W1 & Hh1 & K1); [lia..|].
  destruct (vsprintf_at_shape s o _ _ _ W ltac:(lia) Ho Hh E) as (X1 & R1 & L1 & L1').
  rewrite E. obind. rewrite (strlen_at_holds _ _ _ (proj1 Ho) Hh1). obind.
  destruct (memcpy_at_spec s1 (o + zlen (record_head k v)) v W1) as (s2 & -> & W2 & X2 & S2 & K2 & R2 & L2 & U2);
    [lia|lia|unfold SMALL; lia|]. obind.
  destruct (Z.eqb_spec (zlen (record_head k v) + zlen v + 1) (record_length k v)) as [_|]; [|lia]. cbn [negb].
  destruct (memcpy_at_spec s2 (o + record_length k v - 1) ["010"%char] W2) as (s3 & -> & W3 & X3 & S3 & K3 & R3 & L3 & U3);
    [lia|lia|unfold SMALL; change (zlen ["010"%char]) with 1; lia|]. obind.
  change (zlen ["010"%char]) with 1 in *. eexists. split; [done|]. split; [|split].
  - split; [done|lia|lia|lia|lia].
  - unfold record_text. rewrite !stored_app by lia. split; [|split].
    + apply (stored_keep (str_ s1) _ _ _ (o + zlen (record_head k v))); [lia|lia| |].
      * intros i Hi. rewrite K3 by lia. by apply K2.
      * intros i Hi. destruct Hh1 as (_ & Hh1 & _). by apply Hh1.
    + apply (stored_keep (str_ s2) _ _ _ (o + record_length k v - 1)); [lia|lia|apply K3|done].
    + replace (o + zlen (record_head k v) + zlen v) with (o + record_length k v - 1) by lia. done.
  - intros i Hi. rewrite K3, K2, K1 by lia. done.
Qed.
End WriterSpec.

(** ** Names of attributes *)

(** What the loop does with the components of the name. *)
Fixpoint fq_tokens (p : EXATT) (pre ns nm : bool) (ts : list bytes) : EXATT * (bool * bool * bool) * Z :=
  match ts with
  | [] => (p, (pre, ns, nm), 0)
  | t :: ts =>
      let upper := match t with c :: _ => isupper c | [] => false end in
      if upper && negb pre then
        fq_tokens (mkEXATT (is_in_useM p) (array_text EXATT_PREFIX_LEN t) (namespaceM p) (attrnameM p)
                    (attrvalueM p) (lenM p)) true ns nm ts
      else if negb upper && negb ns then
        fq_tokens (mkEXATT (is_in_useM p) (vendorM p) (array_text EXATT_NAMESPACE_LEN t) (attrnameM p)
                    (attrvalueM p) (lenM p)) pre true nm ts
      else if negb upper && negb nm then
        fq_tokens (mkEXATT (is_in_useM p) (vendorM p) (namespaceM p) t (attrvalueM p) (lenM p)) pre ns true ts
      else (p, (pre, ns, nm), -1)
  end.

Definition fq_result (exatt : EXATT) (name : bytes) : EXATT * Z :=
  let '(p, (pre, ns, nm), retval) :=
    fq_tokens (mkEXATT (is_in_useM exatt) [] [] [] (attrvalueM exatt) (lenM exatt)) false false false
      (tokens (delim_of (L ".")) name) in
  if ns && negb nm && negb pre
  then (mkEXATT (is_in_useM p) (vendorM p) [] (namespaceM p) (attrvalueM p) (lenM p), retval)
  else (p, retval).

Section Names.
Context `{Malloc}.

Lemma fqname_loop_spec ts : forall fuel p pre ns nm tmp s,
  (length ts < fuel)%nat ->
  (match ts with
   | [] => s = None
   | t :: ts => exists o r, s = Some o /\ str_at (str_ tmp) o = Some t
       /\ scanning tmp r /\ tokens (delim_of (L ".")) r = ts
   end) ->
  fqname_loop fuel p pre ns nm tmp s = Some (fq_tokens p pre ns nm ts).
Proof.
  induction ts as [|t ts IH]; intros fuel p pre ns nm tmp s Hf Hs; (destruct fuel as [|fuel]; [cbn in Hf; lia|]);
    cbn [fqname_loop fq_tokens]; [by subst|].
  destruct Hs as (o & r & -> & Ht & Hsc & Htok). rewrite Ht. obind.
  assert (forall p pre ns nm, ('(tmp, s) ← strob_strtok tmp TokNull (L "."); fqname_loop fuel p pre ns nm tmp s)
            = Some (fq_tokens p pre ns nm ts)) as Hnext.
  { intros q a b c. pose proof (strtok_next_spec tmp r (L ".") Hsc) as HN. rewrite Htok in HN.
    destruct ts as [|t' ts'].
    - destruct HN as (buf' & ->). obind. apply IH; [cbn in *; lia|done].
    - destruct HN as (buf' & o' & r' & -> & H1 & H2 & H3). obind. apply IH; [cbn in *; lia|]. by exists o', r'. }
  destruct (_ && negb pre); [apply Hnext|]. destruct (_ && negb ns); [apply Hnext|].
  destruct (_ && negb nm); [apply Hnext|done].
Qed.

Lemma parse_fqname_spec exatt a n :
  no_nul a -> 0 <= n <= zlen a -> n < SMALL ->
  taru_exatt_parse_fqname exatt a n = Some (fq_result exatt (take (Z.to_nat n) a)).
Proof.
  intros Ha Hn Hs. unfold taru_exatt_parse_fqname.
  destruct (strob_open_spec 32) as (tmp & -> & T0 & _); [unfold SMALL; lia|]. obind.
  destruct (strob_strncpy_spec tmp a n (text_wf _ _ T0) Ha) as (t1 & -> & T1 & _); [lia|]. obind.
  set (k := take (Z.to_nat n) a) in *.
  change (strob_strtok t1 TokSelf (L ".")) with (strob_strtok (set_tok (Some 0) t1) TokNull (L ".")).
  assert (scanning (set_tok (Some 0) t1) k) as Hsc.
  { split; [|exists 0%nat; split; [done|apply T1]]. destruct (text_wf _ _ T1). by constructor. }
  pose proof (strtok_next_spec _ k (L ".") Hsc) as HN. pose proof (tokens_length (delim_of (L ".")) k) as Hl.
  assert (length k <= Z.to_nat n)%nat as Hk by (unfold k; rewrite length_take; lia).
  unfold fq_result. destruct (tokens (delim_of (L ".")) k) as [|t ts] eqn:Et.
  - destruct HN as (b & ->). obind. rewrite (fqname_loop_spec []) by (done || (cbn; lia)). done.
  - destruct HN as (b & o & r & -> & H1 & H2 & H3). obind.
    rewrite (fqname_loop_spec (t :: ts)) by (try lia; by exists o, r). obind.
    by destruct (fq_tokens _ _ _ _ _) as [[p [[x y] z]] ret], (y && negb z && negb x).
Qed.
End Names.

(** ** A record in memory *)

(** The attribute a record gives. *)
Definition exatt_of (kv : bytes * bytes) : EXATT :=
  let p := fst (fq_result taru_exatt_create kv.1) in
  mkEXATT 1 (vendorM p) (namespaceM p) (attrnameM p) kv.2 (zlen kv.2).

Record keyword (k : bytes) : Prop := {
  kw_no_nul : no_nul k;
  kw_no_equals : "="%char ∉ k;
  kw_short : zlen k <= 100;
  kw_parses : snd (fq_result taru_exatt_create k) = 0;
}.

Definition all_in_use (l : list EXATT) : Prop := Forall (fun p => is_in_useM p <> 0) l.

Lemma get_free_in_use l : all_in_use l -> get_free_loop l = (length l, l ++ [taru_exatt_create]).
Proof.
  induction l as [|p l IH]; intros HF; [done|]. apply Forall_cons in HF as [Hp HF]. cbn [get_free_loop].
  destruct (Z.eqb_spec (is_in_useM p) 0); [done|]. by rewrite IH.
Qed.

Lemma strchr_head k r : "="%char ∉ k -> strchr (k ++ "="%char :: r) "="%char = Some (length k).
Proof.
  intros Hk. unfold strchr. induction k as [|c k IH]; cbn [app find_index length].
  - by rewrite ceq_refl.
  - apply not_elem_of_cons in Hk as [Hc Hk]. rewrite (proj2 (ceq_neq _ _)) by done. by rewrite IH.
Qed.

Lemma bytes_at_stored m p bs : 0 <= p -> stored m p bs -> p + zlen bs <= zlen m -> bytes_at m p (zlen bs) = Some bs.
Proof.
  intros Hp Hs Hl. unfold bytes_at, zlen in *. ztest. f_equal.
  rewrite (stored_drop m p bs) by (done || lia). rewrite Nat2Z.id. apply take_app_length.
Qed.

Section ReaderSpec.
Context `{Malloc}.

(** The parts of a record in memory, the digits of its length first. *)
Lemma text_parts m p e d k v :
  0 <= p -> stored m p ((d ++ " "%char :: k ++ ["="%char]) ++ v ++ ["010"%char]) -> m !! e = Some NUL ->
  p + zlen d + zlen k + zlen v + 3 <= Z.of_nat e -> no_nul d -> no_nul k ->
  (exists r, str_at m p = Some (d ++ " "%char :: r))
  /\ mem_read m (p + zlen d) = Some " "%char
  /\ (exists r, str_at m (p + zlen d + 1) = Some (k ++ "="%char :: r))
  /\ bytes_at m (p + zlen d + 1 + zlen k + 1) (zlen v) = Some v.
Proof.
  intros Hp Hs He Hle Hd Hk. pose proof (lookup_lt_Some _ _ _ He) as Hlt.
  pose proof (zlen_nonneg d) as Zd. pose proof (zlen_nonneg k) as Zk. pose proof (zlen_nonneg v) as Zv.
  assert (stored m p (d ++ [" "%char])) as H1.
  { rewrite <- app_assoc in Hs. cbn [app] in Hs.
    rewrite (cons_middle " "%char d), app_assoc in Hs. apply stored_app in Hs as [Hs _]; done. }
  assert (stored m (p + zlen d) [" "%char]) as H2 by (apply stored_app in H1 as [_ ?]; done).
  assert (stored m (p + zlen d + 1) (k ++ ["="%char])) as H3.
  { apply stored_app in Hs as [Hs _]; [|lia].
    replace (d ++ " "%char :: k ++ ["="%char]) with ((d ++ [" "%char]) ++ k ++ ["="%char]) in Hs
      by (by rewrite <- app_assoc). apply stored_app in Hs as [_ Hs]; [|lia].
    rewrite zlen_app in Hs. by rewrite <- Z.add_assoc. }
  assert (stored m (p + zlen d + 1 + zlen k + 1) v) as H4.
  { apply stored_app in Hs as [_ Hs]; [|lia]. apply stored_app in Hs as [Hs _];
      [|rewrite zlen_app, zlen_cons, zlen_app; change (zlen ["="%char]) with 1; lia].
    rewrite zlen_app, zlen_cons, zlen_app in Hs. change (zlen ["="%char]) with 1 in Hs.
    by replace (p + zlen d + 1 + zlen k + 1) with (p + (zlen d + (1 + (zlen k + 1)))) by lia. }
  split; [|split; [|split]].
  - rewrite (str_at_terminated m p e) by (done || lia).
    rewrite (stored_drop m p (d ++ [" "%char])) by (done || (rewrite length_app; unfold zlen in *; cbn; lia)).
    rewrite <- app_assoc, cstr_app_no_nul by done. by eexists.
  - unfold mem_read. destruct (Z.leb_spec 0 (p + zlen d)); [|lia].
    specialize (H2 0%nat). rewrite Nat.add_0_r in H2. apply H2. cbn. lia.
  - rewrite (str_at_terminated m _ e) by (done || lia).
    rewrite (stored_drop m (p + zlen d + 1) (k ++ ["="%char])) by
      (done || lia || (rewrite length_app; unfold zlen in *; cbn; lia)).
    rewrite <- app_assoc, cstr_app_no_nul by done. by eexists.
  - apply bytes_at_stored; [lia|done|unfold zlen in *; lia].
Qed.

Lemma record_text_shape k v :
  record_text k v = (decimal (record_length k v) ++ " "%char :: k ++ ["="%char]) ++ v ++ ["010"%char].
Proof. done. Qed.

Lemma record_length_shape k v : zlen k + zlen v < 2 ^ 29 ->
  record_length k v = ndigits (record_length k v) + zlen k + zlen v + 3.
Proof.
  intros Hz. destruct (record_text_length k v Hz) as (T0 & _). rewrite <- T0 at 1. rewrite record_text_shape.
  rewrite !zlen_app, zlen_cons, zlen_app. change (zlen ["="%char]) with 1. change (zlen ["010"%char]) with 1.
  unfold ndigits. lia.
Qed.

Lemma decimal_no_nul n : no_nul (decimal n).
Proof. apply no_nul_digits. rewrite decimal_digs. apply digs_digits. Qed.

Lemma record_parts m p e k v n d :
  0 <= p -> stored m p (record_text k v) -> m !! e = Some NUL -> p + n <= Z.of_nat e ->
  no_nul k -> n = record_length k v -> d = decimal n -> n = zlen d + zlen k + zlen v + 3 ->
  (exists r, str_at m p = Some (d ++ " "%char :: r))
  /\ mem_read m (p + zlen d) = Some " "%char
  /\ (exists r, str_at m (p + zlen d + 1) = Some (k ++ "="%char :: r))
  /\ bytes_at m (p + zlen d + 1 + zlen k + 1) (zlen v) = Some v.
Proof.
  intros Hp Hs He Hle Hk Hn Hd Hl. rewrite record_text_shape, <- Hn, <- Hd in Hs.
  pose proof (decimal_no_nul n) as Hd'. rewrite <- Hd in Hd'.
  apply text_parts with (e := e); [done|done|done|lia|done|done].
Qed.

Lemma ndigits_eq n : ndigits n = zlen (decimal n).
Proof. done. Qed.

Lemma take_zlen_app (k r : bytes) : take (Z.to_nat (zlen k)) (k ++ r) = k.
Proof. unfold zlen. rewrite Nat2Z.id. apply take_app_length. Qed.

Lemma read_record_spec h m p e k v :
  0 <= p -> stored m p (record_text k v) -> m !! e = Some NUL -> p + record_length k v <= Z.of_nat e ->
  keyword k -> zlen v < 2 ^ 28 -> all_in_use (extattlistM h) ->
  taru_read_ext_header_record h m p
  = Some (put_extattlistM (extattlistM h ++ [exatt_of (k, v)]) h, inl (p + record_length k v)).
Proof.
  intros Hp Hs He Hle [K1 K2 K3 K4] Hv HF.
  pose proof (zlen_nonneg k). pose proof (zlen_nonneg v).
  destruct (record_text_length k v ltac:(lia)) as (T0 & T1 & T2).
  pose proof (record_length_shape k v ltac:(lia)) as Hl.
  remember (record_length k v) as n eqn:En. rewrite (ndigits_eq n) in Hl.
  destruct (record_parts m p e k v n _ Hp Hs He Hle K1 En eq_refl Hl) as ((r1 & P1) & P2 & (r2 & P3) & P4).
  rewrite <- (ndigits_eq n) in P2, P3, P4, Hl. clear Hs T0 T1.
  unfold taru_read_ext_header_record. rewrite P1. obind.
  rewrite atoi2_decimal by (done || (unfold INT_MAX; lia)). rewrite P2. obind.
  change (negb (isspace " "%char)) with false. cbv iota. rewrite P3. obind. rewrite strchr_head by done.
  cbv zeta. fold (zlen k).
  assert (n - (p + ndigits n + 1 + zlen k + 1 - p) - 1 = zlen v) as -> by lia.
  destruct (Z.ltb_spec (zlen v) 0); [lia|]. unfold taru_exattlist_get_free. rewrite get_free_in_use by done.
  change (extattlistM (put_extattlistM ?l ?h)) with l.
  rewrite lookup_app_r, Nat.sub_diag by done. cbn [lookup list_lookup mbind option_bind].
  rewrite parse_fqname_spec; [| |rewrite zlen_app; pose proof (zlen_nonneg ("="%char :: r2)); lia|unfold SMALL; lia].
  2: { pose proof (cstr_no_nul (drop (Z.to_nat (p + ndigits n + 1)) m)) as Hn.
       rewrite (str_at_terminated m _ e) in P3 by (done || lia). by injection P3 as <-. }
  rewrite take_zlen_app.
  destruct (fq_result taru_exatt_create k) as [q ret] eqn:Eq. cbn [snd] in K4. subst ret.
  obind. change (0 <? 0) with false. cbv iota. rewrite P4. obind.
  rewrite insert_app_r_alt, Nat.sub_diag by done. cbn [list_insert].
  unfold exatt_of. cbn [fst snd]. rewrite Eq. cbn [fst].
  by replace (p + ndigits n + 1 + zlen k + 1 + zlen v + 1) with (p + n) by lia.
Qed.

(** The records one after the other. *)
Definition records_text (l : list (bytes * bytes)) : bytes := concat (map (fun kv => record_text kv.1 kv.2) l).
#[local] Strategy expand [records_text].
Definition good_record (kv : bytes * bytes) : Prop := keyword kv.1 /\ zlen kv.2 < 2 ^ 28.

Lemma records_text_cons kv l : records_text (kv :: l) = record_text kv.1 kv.2 ++ records_text l.
Proof. done. Qed.

Lemma extattlistM_put a h : extattlistM (put_extattlistM a h) = a.
Proof. by destruct h. Qed.

Lemma put_extattlistM_put a b h : put_extattlistM a (put_extattlistM b h) = put_extattlistM a h.
Proof. by destruct h. Qed.

Lemma good_record_length kv : good_record kv ->
  zlen (record_text kv.1 kv.2) = record_length kv.1 kv.2 /\ 3 < record_length kv.1 kv.2 <= zlen kv.1 + zlen kv.2 + 13.
Proof.
  intros [[_ _ Hk _] Hv]. destruct (record_text_length kv.1 kv.2 ltac:(lia)) as (-> & _ & ?).
  pose proof (zlen_nonneg kv.1). pose proof (zlen_nonneg kv.2). lia.
Qed.

Lemma read_records_spec l : forall fuel h m p e data len num,
  0 <= p -> stored m p (records_text l) -> m !! e = Some NUL -> data + len <= Z.of_nat e ->
  p + zlen (records_text l) = data + len -> (length l < fuel)%nat -> Forall good_record l ->
  all_in_use (extattlistM h) ->
  read_records fuel h m data len p num
  = Some (put_extattlistM (extattlistM h ++ map exatt_of l) h, num + zlen l).
Proof.
  induction l as [|kv l IH]; intros fuel h m p e data len num Hp Hs He Hd Hend Hf HG HF;
    (destruct fuel as [|fuel]; [cbn in Hf; lia|]); cbn [read_records].
  - change (zlen (records_text [])) with 0 in Hend. destruct (Z.ltb_spec (p - data) len); [lia|].
    cbn [map]. rewrite app_nil_r, Z.add_0_r. by destruct h.
  - apply Forall_cons in HG as [G1 HG]. destruct (good_record_length kv G1) as [T0 T1].
    rewrite records_text_cons in Hs, Hend. rewrite zlen_app in Hend. pose proof (zlen_nonneg (records_text l)). rewrite T0 in Hend.
    destruct (Z.ltb_spec (p - data) len); [|lia]. apply stored_app in Hs as [S1 S2]; [|done]. rewrite T0 in S2.
    destruct G1 as [G1 G2]. rewrite (read_record_spec h m p e kv.1 kv.2) by (done || lia). obind.
    rewrite (IH fuel _ m _ e) by (done || lia || (cbn in Hf; lia) || (apply Forall_app; repeat constructor; done)).
    rewrite <- surjective_pairing, put_extattlistM_put, extattlistM_put, <- app_assoc, zlen_cons.
    by replace (num + (1 + zlen l)) with (num + 1 + zlen l) by lia.
Qed.
End ReaderSpec.

(** ** The fields of the tar header *)

(** Bit, keyword, value, and what is left of the field in the tar header. *)
Definition field : Type := Z * bytes * (new_cpio_header -> bytes) * (new_cpio_header -> new_cpio_header).

Definition ustar_fields : list field := [
  (TARU_EHUM_LINKPATH, L "linkpath", c_tar_linkname, fun h => put_c_tar_linkname (cut_name TARNAMESIZE (c_tar_linkname h)) h);
  (TARU_EHUM_PATH, L "path", c_name, fun h => put_c_name (cut_name TARNAMESIZE (c_name h)) h);
  (TARU_EHUM_SIZE, L "size", fun h => decimal (c_filesize h), put_c_filesize TAR_MAX_SIZE);
  (TARU_EHUM_UID, L "uid", fun h => decimal (c_uid h), put_c_uid TAR_MAX_UID);
  (TARU_EHUM_GID, L "gid", fun h => decimal (c_gid h), put_c_uid TAR_MAX_GID);
  (TARU_EHUM_UNAME, L "uname", c_username, fun h => put_c_username (cut_name (THB_FL_uname - 1) (c_username h)) h);
  (TARU_EHUM_GNAME, L "gname", c_groupname, fun h => put_c_groupname (cut_name (THB_FL_gname - 1) (c_groupname h)) h);
  (TARU_EHUM_DEV_MAJ, L "SWBIS.devmajor", fun h => decimal (c_dev_maj h), put_c_dev_maj TAR_MAX_DEVICE);
  (TARU_EHUM_DEV_MIN, L "SWBIS.devminor", fun h => decimal (c_dev_min h), put_c_dev_min TAR_MAX_DEVICE)
].

(** The records for the fields whose bits are set. *)
Definition records_of (fs : list field) (h : new_cpio_header) : list (bytes * bytes) :=
  omap (fun '(b, k, value, _) => if bit (extHeader_needs_maskM h) b then Some (k, value h) else None) fs.

Lemma records_of_cons b k value fit fs h :
  records_of ((b, k, value, fit) :: fs) h
  = (if bit (extHeader_needs_maskM h) b then [(k, value h)] else []) ++ records_of fs h.
Proof. unfold records_of. cbn [omap list_omap]. by destruct (bit _ _). Qed.

Lemma records_of_keep fs h h1 :
  (forall g, g ∈ fs -> (let '(_, _, v, _) := g in v h1 = v h) /\ extHeader_needs_maskM h1 = extHeader_needs_maskM h) ->
  records_of fs h1 = records_of fs h.
Proof.
  induction fs as [|[[[b k] v] f] fs IH]; intros Hg; [done|]. rewrite !records_of_cons.
  destruct (Hg (b, k, v, f)) as [-> ->]; [by left|]. rewrite IH; [done|]. intros g Hin. apply Hg. by right.
Qed.

(** A field does not depend on what was left of the ones in front of it. *)
Definition keeps (f g : field) : Prop :=
  let '(_, _, _, fit) := f in let '(_, _, value, _) := g in
  forall h, value (fit h) = value h /\ extHeader_needs_maskM (fit h) = extHeader_needs_maskM h.

Definition good_field (h : new_cpio_header) (f : field) : Prop :=
  let '(_, k, value, _) := f in keyword k /\ zlen (value h) < 2 ^ 21.

Section Fields.
Context `{Malloc}.

Definition run_fields (fs : list field) (r : option (outcome (STROB * new_cpio_header * Z))) :=
  foldl (fun r '(b, k, value, fit) => and_then r (ustar_record b k value fit)) r fs.

(** [d] bytes are written, and there is room for [j] more records. *)
Record wrote (j : nat) (buf : STROB) (d : Z) (l : list (bytes * bytes)) : Prop := {
  wrote_room : room j buf d;
  wrote_text : stored (str_ buf) 0 (records_text l);
  wrote_length : d = zlen (records_text l);
  wrote_bound : d + 2 ^ 22 * Z.of_nat j <= 2 ^ 26;
}.

Lemma records_text_app a b : records_text (a ++ b) = records_text a ++ records_text b.
Proof. unfold records_text. by rewrite map_app, concat_app. Qed.

Lemma ustar_record_spec j buf h d l b k value fit :
  wrote (S j) buf d l -> keyword k -> zlen (value h) < 2 ^ 21 ->
  let set_ := bit (extHeader_needs_maskM h) b in
  exists buf' d',
    ustar_record b k value fit (buf, h, d) = Some (Returns (buf', if set_ then fit h else h, d'))
    /\ wrote j buf' d' (l ++ if set_ then [(k, value h)] else []).
Proof.
  intros [R T Hd Hb] [K1 K2 K3 K4] Hv set_. unfold ustar_record. fold set_. destruct set_.
  - pose proof (zlen_nonneg (value h)). destruct (record_text_length k (value h) ltac:(lia)) as (L1 & _ & L2).
    destruct (construct_record_spec j buf d k (value h) R K1 K3) as (s' & -> & R' & S' & Keep); [lia|lia|]. obind.
    eexists _, _. split; [done|]. split; [done| | |lia].
    + rewrite records_text_app, records_text_cons, app_nil_r. apply stored_app; [done|]. rewrite <- Hd.
      split; [|exact S']. apply (stored_keep (str_ buf) _ _ _ d); [done|lia|done|done].
    + rewrite records_text_app, records_text_cons, app_nil_r, zlen_app. cbn [fst snd]. lia.
  - eexists _, _. split; [done|]. rewrite app_nil_r. split; [|done|done|lia].
    destruct R. split; [done|done|done|done|lia].
Qed.

Lemma run_fields_spec fs : forall buf h d l,
  wrote (length fs) buf d l -> Forall (good_field h) fs -> ForallOrdPairs keeps fs ->
  exists buf' h' d', run_fields fs (Some (Returns (buf, h, d))) = Some (Returns (buf', h', d'))
    /\ wrote 0 buf' d' (l ++ records_of fs h).
Proof.
  induction fs as [|[[[b k] value] fit] fs IH]; intros buf h d l W HG HK.
  - exists buf, h, d. split; [done|]. by rewrite app_nil_r.
  - apply Forall_cons in HG as [[G1 G2] HG]. inversion HK as [|? ? K1 K2]; subst.
    destruct (ustar_record_spec _ buf h d l b k value fit W G1 G2) as (buf1 & d1 & E & W1).
    unfold run_fields in *. cbn [foldl and_then mbind option_bind]. rewrite E. clear E.
    set (set_ := bit (extHeader_needs_maskM h) b) in *. set (h1 := if set_ then fit h else h) in *.
    assert (forall g, g ∈ fs -> (let '(_, _, v, _) := g in v h1 = v h)
              /\ extHeader_needs_maskM h1 = extHeader_needs_maskM h) as Hkeep.
    { intros [[[b' k'] v'] f'] Hg. unfold h1. destruct set_; [|done].
      rewrite Forall_forall in K1. apply (K1 _ Hg h). }
    destruct (IH buf1 h1 d1 _ W1) as (buf' & h' & d' & E & W'); [|done|].
    + rewrite Forall_forall in HG |- *. intros [[[b' k'] v'] f'] Hg. specialize (HG _ Hg). destruct HG as [G3 G4].
      split; [done|]. destruct (Hkeep _ Hg) as [-> _]. done.
    + exists buf', h', d'. split; [done|]. rewrite <- app_assoc in W'.
      rewrite records_of_cons. rewrite (records_of_keep fs h h1) in W' by done. by fold set_.
Qed.
End Fields.

(** ** From a header to a header *)

Lemma keyword_compute k :
  negb (existsb (ceq NUL) k) && negb (existsb (ceq "="%char) k) && (zlen k <=? 100)
  && (snd (fq_result taru_exatt_create k) =? 0) = true -> keyword k.
Proof.
  rewrite !andb_true_iff, !negb_true_iff, Z.leb_le, Z.eqb_eq. intros [[[H1 H2] H3] H4].
  assert (forall c, existsb (ceq c) k = false -> c ∉ k) as Hin.
  { intros c Hf Hc. apply not_true_iff_false in Hf. apply Hf. apply existsb_exists. exists c.
    split; [by apply list_elem_of_In|apply ceq_refl]. }
  by split; [apply Hin|apply Hin| |].
Qed.

(** The sizes of the fields. *)
Record pax_values (h : new_cpio_header) : Prop := {
  pax_no_nul : Forall no_nul [c_tar_linkname h; c_name h; c_username h; c_groupname h];
  pax_short : Forall (fun s => zlen s < 2 ^ 21) [c_tar_linkname h; c_name h; c_username h; c_groupname h];
  pax_numbers : Forall (fun n => 0 <= n <= ULONG_MAX)
                  [c_filesize h; c_uid h; c_gid h; c_dev_maj h; c_dev_min h];
}.

Lemma decimal_short n : 0 <= n <= ULONG_MAX -> zlen (decimal n) < 2 ^ 21.
Proof.
  unfold ULONG_MAX. intros Hn. pose proof (proj2 (ndigits_le n 20 ltac:(lia) ltac:(lia))). unfold ndigits in *. lia.
Qed.

Lemma ustar_fields_good h : pax_values h -> Forall (good_field h) ustar_fields.
Proof.
  intros [_ Hs Hn]. repeat (apply Forall_cons in Hs as [? Hs]). repeat (apply Forall_cons in Hn as [? Hn]).
  unfold ustar_fields.
  repeat (apply Forall_cons_2; [split; [apply keyword_compute; vm_compute; reflexivity|try done; by apply decimal_short]|]).
  apply Forall_nil_2.
Qed.

Lemma ustar_fields_keep : ForallOrdPairs keeps ustar_fields.
Proof.
  repeat (apply FOP_cons; [repeat (apply Forall_cons_2; [intros h; by split|]); apply Forall_nil_2|]).
  apply FOP_nil.
Qed.

(** What the attribute of a record does to the header. *)
Definition apply_record (stray : bool) (r : new_cpio_header) (kv : bytes * bytes) : new_cpio_header :=
  fst (fst (taru_exatt_override_ustar stray r (exatt_of kv))).

Lemma override_loop_records stray l : forall r,
  fst (override_loop stray r (map exatt_of l)) = foldl (apply_record stray) r l.
Proof.
  induction l as [|kv l IH]; intros r; [done|]. cbn [map override_loop foldl]. rewrite <- IH. unfold apply_record.
  destruct (taru_exatt_override_ustar stray r (exatt_of kv)) as [[r1 p1] x]. cbn [fst].
  by destruct (override_loop stray r1 (map exatt_of l)).
Qed.

(** The fields that records restore. *)
Definition pax_fields (h : new_cpio_header) : bytes * bytes * Z * Z * bytes * bytes :=
  (c_tar_linkname h, c_name h, c_uid h, c_gid h, c_username h, c_groupname h).

(** An attribute with a keyword in small letters has no vendor and no namespace. *)
Ltac plain_attribute :=
  unfold apply_record;
  match goal with |- context [exatt_of (?k, ?v)] =>
    replace (exatt_of (k, v)) with (mkEXATT 1 [] [] k v (zlen v)) by reflexivity
  end;
  unfold taru_exatt_override_ustar; cbn [attrvalueM].

Lemma apply_texts stray r v : no_nul v ->
  pax_fields (apply_record stray r (L "linkpath", v)) = (v, c_name r, c_uid r, c_gid r, c_username r, c_groupname r)
  /\ pax_fields (apply_record stray r (L "path", v))
     = (c_tar_linkname r, v, c_uid r, c_gid r, c_username r, c_groupname r)
  /\ pax_fields (apply_record stray r (L "uname", v))
     = (c_tar_linkname r, c_name r, c_uid r, c_gid r, v, c_groupname r)
  /\ pax_fields (apply_record stray r (L "gname", v))
     = (c_tar_linkname r, c_name r, c_uid r, c_gid r, c_username r, v).
Proof. intros Hv. split_and!; plain_attribute; by rewrite (cstr_id v Hv). Qed.

Lemma apply_numbers stray r n : 0 <= n <= ULONG_MAX ->
  pax_fields (apply_record stray r (L "size", decimal n))
  = (c_tar_linkname r, c_name r, n, c_gid r, c_username r, c_groupname r)
  /\ pax_fields (apply_record stray r (L "uid", decimal n))
     = (c_tar_linkname r, c_name r, n, c_gid r, c_username r, c_groupname r)
  /\ pax_fields (apply_record stray r (L "gid", decimal n))
     = (c_tar_linkname r, c_name r, c_uid r, n, c_username r, c_groupname r).
Proof.
  intros Hn. pose proof (set_value_decimal stray n) as Hs. unfold ULONG_MAX in Hn.
  split_and!; plain_attribute; rewrite (cstr_id _ (decimal_no_nul n));
    destruct (set_unsigned_long_value stray (decimal n)) as [v ret]; cbn [fst] in Hs; rewrite Hs by lia; done.
Qed.

Lemma apply_devices stray r v :
  apply_record stray r (L "SWBIS.devmajor", v) = r /\ apply_record stray r (L "SWBIS.devminor", v) = r.
Proof. split; unfold apply_record, exatt_of; cbn [fst snd]; done. Qed.

(** What the fields are after the records of [h]. *)
Definition restored (h r : new_cpio_header) : bytes * bytes * Z * Z * bytes * bytes :=
  let on b {A} (x y : A) := if bit (extHeader_needs_maskM h) b then x else y in
  (on TARU_EHUM_LINKPATH (c_tar_linkname h) (c_tar_linkname r),
   on TARU_EHUM_PATH (c_name h) (c_name r),
   on TARU_EHUM_UID (c_uid h) (on TARU_EHUM_SIZE (c_filesize h) (c_uid r)),
   on TARU_EHUM_GID (c_gid h) (c_gid r),
   on TARU_EHUM_UNAME (c_username h) (c_username r),
   on TARU_EHUM_GNAME (c_groupname h) (c_groupname r)).

Lemma fold_record stray r b kv l :
  foldl (apply_record stray) r ((if b : bool then [kv] else []) ++ l)
  = foldl (apply_record stray) (if b then apply_record stray r kv else r) l.
Proof. rewrite foldl_app. by destruct b. Qed.

Lemma step_fields stray r (b : bool) kv t :
  pax_fields (apply_record stray r kv) = t ->
  pax_fields (if b then apply_record stray r kv else r) = if b then t else pax_fields r.
Proof. by destruct b. Qed.

Lemma step_device stray r (b : bool) kv :
  apply_record stray r kv = r -> (if b then apply_record stray r kv else r) = r.
Proof. by destruct b. Qed.

(** The header is known by its six fields. *)
Ltac next_field r1 lemma :=
  rewrite fold_record;
  match goal with |- context [foldl (apply_record ?s) (if ?b then apply_record ?s ?r ?kv else ?r) _] =>
    let E := fresh "E" in
    pose proof (step_fields s r b kv _ lemma) as E;
    generalize dependent (if b then apply_record s r kv else r); intros r1 E
  end.

Lemma records_restored stray h r : pax_values h ->
  pax_fields (foldl (apply_record stray) r (records_of ustar_fields h)) = restored h r.
Proof.
  intros [Hs _ Hn]. repeat (apply Forall_cons in Hs as [? Hs]). repeat (apply Forall_cons in Hn as [? Hn]).
  unfold ustar_fields. rewrite !records_of_cons. unfold restored.
  generalize (bit (extHeader_needs_maskM h)). intros b.
  next_field r1 (proj1 (apply_texts stray r (c_tar_linkname h) ltac:(done))).
  next_field r2 (proj1 (proj2 (apply_texts stray r1 (c_name h) ltac:(done)))).
  next_field r3 (proj1 (apply_numbers stray r2 (c_filesize h) ltac:(done))).
  next_field r4 (proj1 (proj2 (apply_numbers stray r3 (c_uid h) ltac:(done)))).
  next_field r5 (proj2 (proj2 (apply_numbers stray r4 (c_gid h) ltac:(done)))).
  next_field r6 (proj1 (proj2 (proj2 (apply_texts stray r5 (c_username h) ltac:(done))))).
  next_field r7 (proj2 (proj2 (proj2 (apply_texts stray r6 (c_groupname h) ltac:(done))))).
  rewrite !fold_record, !step_device by apply apply_devices. cbn [records_of omap list_omap foldl].
  unfold pax_fields in *.
  repeat match goal with H : _ = if ?c then _ else _ |- _ => destruct c end; congruence.
Qed.

Lemma records_good fs h : Forall (good_field h) fs -> Forall good_record (records_of fs h).
Proof.
  induction 1 as [|[[[b k] v] f] fs [G1 G2] _ IH]; [done|]. rewrite records_of_cons. apply Forall_app.
  split; [|done]. destruct (bit _ _); [|done]. apply Forall_cons. split; [|done]. split; [done|cbn [snd]; lia].
Qed.

Lemma records_more l : Forall good_record l -> zlen l <= zlen (records_text l).
Proof.
  induction 1 as [|kv l G _ IH]; [done|]. rewrite records_text_cons, zlen_app, zlen_cons.
  destruct (good_record_length kv G). lia.
Qed.

Lemma override_all_fields stray r :
  pax_fields (override_all stray r) = pax_fields (fst (override_loop stray r (extattlistM r))).
Proof. unfold override_all. by destruct (override_loop stray r (extattlistM r)). Qed.

(** A new buffer has room for the nine records. *)
Lemma open_room `{Malloc} n : 0 < n <= 2 ^ 20 -> exists s, strob_open n = Some s /\ room 9 s 0.
Proof.
  intros Hn. destruct (strob_open_shape n Hn) as (s & E & T & L0 & X & R). exists s. split; [done|].
  split; [apply T|by rewrite X|lia|lia|lia].
Qed.

Section RoundTrip.
Context `{Malloc}.

(** C24: Extended headers round trip.  The writer of the records of an extended
    header succeeds, and the reader, given the bytes it wrote, finds one record
    for each field that did not fit and puts the field into the header that it
    reads: link name, name, user id, group id, user name and group name are
    restored, and the others keep their values.  The exception is the size,
    whose value is stored as the user id (and is lost if a user id follows). *)
Theorem pax_header_roundtrip (stray : bool) (buf : STROB) (h r : new_cpio_header) :
  room 9 buf 0 -> pax_values h -> extattlistM r = [] ->
  exists buf' h' n r',
    write_exthdrs_ustar_records buf h = Some (Returns (buf', h', n))
    /\ taru_read_all_ext_header_records r (str_ buf') 0 n = Some (r', zlen (records_of ustar_fields h))
    /\ pax_fields (override_all stray r') = restored h r.
Proof.
  intros R V Hr.
  destruct (run_fields_spec ustar_fields buf h 0 []) as (buf' & h' & n & E & [R' T' Hn Hb]);
    [split; [done|intros i Hi; cbn in Hi; lia|done|done]|by apply ustar_fields_good|apply ustar_fields_keep|].
  exists buf', h', n. destruct R' as [W _ Ho _ _]. cbn [app] in *.
  pose proof (records_good ustar_fields h (ustar_fields_good h V)) as HG.
  set (r0 := put_ext_usage_maskM (Z.lor (extHeader_usage_maskM r) TARU_EHUM_ANY) r).
  pose proof (records_restored stray h (put_extattlistM (map exatt_of (records_of ustar_fields h)) r0) V) as Hres.
  generalize dependent (records_of ustar_fields h). intros l T' Hn HG Hres.
  exists (put_extattlistM (map exatt_of l) r0). split; [exact E|]. split.
  - unfold taru_read_all_ext_header_records. fold r0. rewrite <- (app_nil_l (map exatt_of l)).
    rewrite <- Hr. change (extattlistM r) with (extattlistM r0).
    apply (read_records_spec l _ r0 _ 0 (Z.to_nat (reserve_ buf' - 1))); [done|done|apply wf_last, W|lia|lia| |done|].
    + apply records_more in HG. unfold zlen in *. lia.
    + change (extattlistM r0) with (extattlistM r). rewrite Hr. apply Forall_nil_2.
  - by rewrite override_all_fields, extattlistM_put, override_loop_records, Hres.
Qed.
End RoundTrip.

Module Witness.
#[local] Instance junk_q : Malloc := fun _ => "q"%char.

(** A name of 120 characters, a large user id and a size of more than 8 GiB. *)
Definition large : new_cpio_header :=
  put_ext_needs_maskM (TARU_EHUM_PATH + TARU_EHUM_GID + TARU_EHUM_SIZE)
    (put_c_name (repeat "n"%char 120) (put_c_gid 3000000 (put_c_filesize (2 ^ 33)
      (taru_init_header 0 (mkHDR 0 0 0 0 0 0 0 0 0 0 0 0 0 [] [] [] [] 0 0 0 0 0 0 [] 0 0 0 0))))).
Definition fresh : new_cpio_header := taru_init_header 0 (put_extattlistM [] large).

Lemma large_values : pax_values large.
Proof.
  split; [|by (repeat apply Forall_cons_2)|repeat (apply Forall_cons_2; [vm_compute; by split|]); apply Forall_nil_2].
  repeat (apply Forall_cons_2; [by apply no_nul_compute|]). apply Forall_nil_2.
Qed.

Lemma pax_header_roundtrip_witness :
  exists s buf h n r, strob_open 64 = Some s
    /\ write_exthdrs_ustar_records s large = Some (Returns (buf, h, n))
    /\ taru_read_all_ext_header_records fresh (str_ buf) 0 n = Some (r, 3)
    /\ pax_fields (override_all false r) = ([], repeat "n"%char 120, 2 ^ 33, 3000000, [], []).
Proof.
  destruct (open_room 64) as (s & E & R); [lia|].
  destruct (pax_header_roundtrip false s large fresh R large_values eq_refl) as (buf & h & n & r & E1 & E2 & E3).
  exists s, buf, h, n, r. split; [exact E|]. split; [exact E1|]. split; [|exact E3]. exact E2.
Defined.
End Witness.

(** The value of "size" is the user id of the header that was read. *)
Lemma size_record_is_uid stray h r :
  pax_values h -> extHeader_needs_maskM h = TARU_EHUM_SIZE ->
  let q := foldl (apply_record stray) r (records_of ustar_fields h) in
  c_uid q = c_filesize h /\ c_filesize q = c_filesize r.
Proof.
  intros V Hm q. assert (q = apply_record stray r (L "size", decimal (c_filesize h))) as ->.
  { unfold q, ustar_fields. rewrite !records_of_cons, Hm. done. }
  pose proof (proj1 (Forall_cons _ _ _) (pax_numbers h V)) as [Hn _].
  split.
  - pose proof (proj1 (apply_numbers stray r _ Hn)) as Hf. unfold pax_fields in Hf. congruence.
  - plain_attribute. by destruct (set_unsigned_long_value _ _).
Qed.

(** When the first record cannot be read, the number of records is 0 as for an
    empty header, and the caller goes on. *)
Lemma bad_first_record_is_no_error `{Malloc} h m data len :
  (exists h' e, taru_read_ext_header_record (put_ext_usage_maskM (Z.lor (extHeader_usage_maskM h) TARU_EHUM_ANY) h) m data
     = Some (h', inr e)) -> 0 < len ->
  exists h', taru_read_all_ext_header_records h m data len = Some (h', 0).
Proof.
  intros (h' & e & E) Hl. exists h'. unfold taru_read_all_ext_header_records. cbn [read_records].
  destruct (Z.ltb_spec (data - data) len); [|lia]. by rewrite E.
Qed.
