(* ===== verification/TarWrite.v ===== *)
(** * Writing a tar header (swsupplib/taru/otar.c and taru.c)

    taru_write_out_tar_header2: a header is filled field by field in an object
    of 512 zero bytes, summed, and copied to a buffer or appended to the bytes
    that were written to the descriptor. *)

From S2P Require Import Prelude CString Strob Pathname Escape FileMode TarNumbers TarHeader SysDb FileHdr.

Definition GNU_LONG_LINK : bytes := L "././@LongLink".
Definition GNUTYPE_LONGNAME : ascii := "L".
Definition GNUTYPE_LONGLINK : ascii := "K".
Definition XHDTYPE : ascii := "x".
Definition XGLTYPE : ascii := "g".
Definition CPIO_INBAND_EOA_FILENAME : bytes := L "TRAILER!!!".
Definition CHKBLANKS : bytes := L "        ".

(** The parts of a TARU object that the header functions use. *)
Record TARU := mkTARU {
  headerM : STROB;
  header_lengthM : Z;
  taru_tarheaderflagsM : Z;
  do_record_headerM : Z;
  u_name_bufferM : STROB;
  u_ent_bufferM : STROB;
  read_bufferM : STROB;
  read_buffer_posM : Z;
  exthdr_dataM : STROB;
}.

Definition put_header (s : STROB) (len : Z) (t : TARU) : TARU :=
  mkTARU s len (taru_tarheaderflagsM t) (do_record_headerM t) (u_name_bufferM t) (u_ent_bufferM t)
    (read_bufferM t) (read_buffer_posM t) (exthdr_dataM t).
Definition put_u_name (s : STROB) (t : TARU) : TARU :=
  mkTARU (headerM t) (header_lengthM t) (taru_tarheaderflagsM t) (do_record_headerM t) s (u_ent_bufferM t)
    (read_bufferM t) (read_buffer_posM t) (exthdr_dataM t).
Definition put_u_ent (m : bytes) (t : TARU) : TARU :=
  mkTARU (headerM t) (header_lengthM t) (taru_tarheaderflagsM t) (do_record_headerM t) (u_name_bufferM t)
    (set_str m (u_ent_bufferM t)) (read_bufferM t) (read_buffer_posM t) (exthdr_dataM t).
Definition put_read (s : STROB) (pos : Z) (t : TARU) : TARU :=
  mkTARU (headerM t) (header_lengthM t) (taru_tarheaderflagsM t) (do_record_headerM t) (u_name_bufferM t)
    (u_ent_bufferM t) s pos (exthdr_dataM t).

(** The caches of users and groups. *)
Record SYSDBCACHES := mkSYSDBCACHES { userCacheM : SYSDBCACHE; groupCacheM : SYSDBCACHE }.

Section Writer.
Context `{Malloc} `{SysDB} (nobody : Z * bool).

Definition taru_create (flags record : Z) : option TARU :=
  h ← strob_open 1024;
  n ← strob_open 8;
  e ← strob_open (SNAME_LEN + SNAME_LEN);
  r ← strob_open (TARRECORDSIZE * 4);
  x ← strob_open 16;
  Some (mkTARU h 0 flags record n e r 0 x).

(** ** Names *)

(** The slash behind the name of a directory. *)
Definition directory_slash (name : STROB) (mode tar_iflags : Z) : option STROB :=
  if Z.land mode S_IFMT =? CP_IFDIR then
    len ← strob_strlen name;
    c ← mem_read (str_ name) (len - 1);
    if is_slash c then Some name
    else if (len >=? TARNAMESIZE - 1)
            && (bit tar_iflags TARU_TAR_GNU_OLDGNUTAR || bit tar_iflags TARU_TAR_GNU_OLDGNUPOSIX)
    then Some name
    else strob_strcat name (L "/")
  else Some name.

(** ** The file type *)

(** The header, or the code that is returned. *)
Definition set_typeflag (m : bytes) h (termch : Z) : option (bytes + Z) :=
  let set c m := mem_write m THB_BO_typeflag [c] in
  let link c size :=
    m ← size m;
    m ← mem_write m THB_BO_typeflag [c];
    m ← mem_write m THB_BO_linkname (strncpy_bytes (c_tar_linkname h) (Z.to_nat TARLINKNAMESIZE));
    Some (inl m) in
  let linkname_size n m := size_to_chars n m THB_BO_size 12 POSIX_FORMAT termch in
  let linklen := zlen (c_tar_linkname h) in
  let t := Z.land (c_mode h) S_IFMT in
  if t =? CP_IFREG then
    if negb (linklen =? 0) then
      if linklen >? TARLINKNAMESIZE then Some (inr (-4)) else link LNKTYPE (linkname_size 0)
    else m ← set REGTYPE m; Some (inl m)
  else if t =? CP_IFDIR then m ← set DIRTYPE m; Some (inl m)
  else if t =? CP_IFCHR then m ← set CHRTYPE m; Some (inl m)
  else if t =? CP_IFBLK then m ← set BLKTYPE m; Some (inl m)
  else if (t =? CP_IFSOCK) || (t =? CP_IFIFO) then m ← set FIFOTYPE m; Some (inl m)
  else if t =? CP_IFLNK then
    if streq (c_name h) GNU_LONG_LINK then
      if linklen >? 510 then Some (inr (-5)) else link GNUTYPE_LONGLINK (linkname_size linklen)
    else if linklen >? TARLINKNAMESIZE then Some (inr (-5)) else link SYMTYPE (linkname_size 0)
  else if (c_mode h =? 0) && streq (c_name h) GNU_LONG_LINK then
    m ← set (if linklen =? 0 then GNUTYPE_LONGNAME else GNUTYPE_LONGLINK) m; Some (inl m)
  else Some (inl m).

Definition set_magic (m : bytes) (tar_iflags : Z) : option bytes :=
  if negb (bit tar_iflags TARU_TAR_GNU_GNUTAR) && negb (bit tar_iflags TARU_TAR_GNU_OLDGNUTAR) then
    m ← mem_write m THB_BO_magic (strncpy_bytes (L "ustar") 6);
    mem_write m (THB_BO_magic + 6) (strncpy_bytes (L "00") 2)
  else
    m ← mem_write m THB_BO_magic (strncpy_bytes (L "ustar ") 6);
    mem_write m (THB_BO_magic + 6) (strncpy_bytes (L " ") 2).

(** ** User and group *)

Definition is_nil (name : option bytes) : bool :=
  match name with Some (_ :: _) => false | _ => true end.

(** The object with the caches and the header, which gets the name at [off] and
    the id with [id_chars]; [found] is what the data base knows of the id,
    [by_name] and [by_id] are the look-ups through the cache. [copy] is the copy
    of the first case. *)
Definition set_owner (cu id tar_iflags off : Z) (name : option bytes) (m u_ent : bytes)
    (cache : SYSDBCACHE) (found : option bytes)
    (by_name : SYSDBCACHE -> bytes -> option (SYSDBCACHE * option Z * Z))
    (by_id : SYSDBCACHE -> Z -> bytes -> option (SYSDBCACHE * bytes * Z))
    (copy : bytes -> bytes -> option bytes) (id_chars : Z -> bytes -> option bytes)
    : option (SYSDBCACHE * bytes * bytes) :=
  if is_nil name && negb (cu =? TARU_C_BY_UNONE) then
    u_ent ← l_tar_sysdata_get found u_ent;
    s ← str_at u_ent 0;
    m ← copy m s;
    Some (cache, u_ent, m)
  else
    '(cache, u_ent, m, pid) ←
      (if (cu =? TARU_C_BY_USYS) || (cu =? TARU_C_BY_UNAME) then
         name ← name;
         '(cache, pid, ret) ← by_name cache name;
         pid ← (if negb (ret =? 0) then Some NOBODY_ID else pid);
         m ← swlib_strncpy m off name SNAME_LEN;
         Some (cache, u_ent, m, pid)
       else if cu =? TARU_C_BY_UID then
         if bit tar_iflags TARU_TAR_NUMERIC_UIDS then
           m ← swlib_strncpy m off [] SNAME_LEN; Some (cache, u_ent, m, to_id id)
         else
           '(cache, u_ent, _) ← by_id cache (to_id id) u_ent;
           s ← str_at u_ent 0;
           m ← swlib_strncpy m off s SNAME_LEN;
           Some (cache, u_ent, m, to_id id)
       else
         name ← name;
         m ← swlib_strncpy m off name SNAME_LEN;
         Some (cache, u_ent, m, to_id id));
    m ← id_chars pid m;
    Some (cache, u_ent, m).

(** ** Device numbers *)

Definition set_devices (m : bytes) h (tar_iflags termch : Z) : option bytes :=
  t ← mem_read m THB_BO_typeflag;
  let fill s := m ← mem_write m THB_BO_devmajor (strncpy_bytes (L s) 8);
                mem_write m THB_BO_devminor (strncpy_bytes (L s) 8) in
  if ceq t CHRTYPE || ceq t BLKTYPE then
    m ← major_to_chars (to_int (c_rdev_maj h)) m THB_BO_devmajor 8 POSIX_FORMAT termch;
    minor_to_chars (to_int (c_rdev_min h)) m THB_BO_devminor 8 POSIX_FORMAT termch
  else if bit tar_iflags TARU_TAR_BE_LIKE_PAX then fill "0000000"
  else if bit tar_iflags TARU_TAR_BE_LIKE_STAR then fill "0000000 "
  else if bit tar_iflags TARU_TAR_GNU_GNUTAR || bit tar_iflags TARU_TAR_GNU_OLDGNUTAR
          || bit tar_iflags TARU_TAR_GNU_OLDGNUPOSIX then Some m
  else fill "0000000".

(** ** The whole header *)

(** The numbers of the file. *)
Definition set_numbers (m : bytes) h (tar_iflags termch : Z) : option bytes :=
  m ← mode_to_chars (c_mode h mod 2 ^ 32) m THB_BO_mode 8
        (if bit tar_iflags TARU_TAR_GNU_OLDGNUTAR then OLDGNU_FORMAT else POSIX_FORMAT) termch;
  m ← uid_to_chars nobody (to_id (c_uid h)) m THB_BO_uid 8 POSIX_FORMAT termch;
  m ← gid_to_chars nobody (to_id (c_gid h)) m THB_BO_gid 8 POSIX_FORMAT termch;
  m ← off_to_chars (to_long (c_filesize h)) m THB_BO_size 12 POSIX_FORMAT termch;
  m ← time_to_chars (to_long (c_mtime h)) m THB_BO_mtime 12 POSIX_FORMAT termch;
  m ← mem_write m THB_BO_version ["0"%char];
  mem_write m (THB_BO_version + 1) ["0"%char].

Definition set_sum (m : bytes) (tar_iflags termch : Z) : option bytes :=
  m ← mem_write m THB_BO_chksum CHKBLANKS;
  sum ← taru_tar_checksum m;
  uintmax_to_chars sum m THB_BO_chksum
    (if bit tar_iflags TARU_TAR_BE_LIKE_PAX || bit tar_iflags TARU_TAR_BE_LIKE_STAR then 8 else 7)
    POSIX_FORMAT termch.

Definition set_user (m u_ent : bytes) (c : SYSDBCACHES) h (username : option bytes) (tar_iflags termch : Z) :=
  '(cache, u_ent, m) ← set_owner (c_cu h) (c_uid h) tar_iflags THB_BO_uname username m u_ent (userCacheM c)
    (getpwuid (to_id (c_uid h))) taru_get_uid_by_name taru_get_tar_user_by_uid
    (fun m s => swlib_strncpy m THB_BO_uname s SNAME_LEN)
    (fun pid m => uid_to_chars nobody pid m THB_BO_uid 8 POSIX_FORMAT termch);
  Some (mkSYSDBCACHES cache (groupCacheM c), u_ent, m).

Definition set_group (m u_ent : bytes) (c : SYSDBCACHES) h (groupname : option bytes) (tar_iflags termch : Z) :=
  '(cache, u_ent, m) ← set_owner (c_cg h) (c_gid h) tar_iflags THB_BO_gname groupname m u_ent (groupCacheM c)
    (getgrgid (to_id (c_gid h))) taru_get_gid_by_name taru_get_tar_group_by_gid
    (fun m s => mem_write m THB_BO_gname (strncpy_bytes s (Z.to_nat SNAME_LEN)))
    (fun pid m => gid_to_chars nobody pid m THB_BO_gid 8 POSIX_FORMAT termch);
  Some (mkSYSDBCACHES (userCacheM c) cache, u_ent, m).

(** The objects and the caches, and the header or the code that is returned. *)
Definition make_tar_header (taru : TARU) (c : SYSDBCACHES) h (username groupname : option bytes)
    (tar_iflags : Z) : option (TARU * SYSDBCACHES * (bytes + Z)) :=
  let m := replicate (Z.to_nat TARRECORDSIZE) NUL in
  let termch := if bit tar_iflags TARU_TAR_BE_LIKE_STAR then 32 else 0 in
  name ← strob_strcpy (u_name_bufferM taru) (c_name h);
  let taru := put_u_name name taru in
  len ← strob_strlen name;
  if len =? 0 then Some (taru, c, inr (-1))
  else
    name ← directory_slash name (c_mode h) tar_iflags;
    let taru := put_u_name name taru in
    u_name_buffer ← str_at (str_ name) 0;
    '(m, ret) ← taru_set_new_name m u_name_buffer (taru_tarheaderflagsM taru);
    if negb (ret =? 0) then Some (taru, c, inr (-13))
    else
      m ← set_numbers m h tar_iflags termch;
      r ← set_typeflag m h termch;
      match r with
      | inr code => Some (taru, c, inr code)
      | inl m =>
          m ← set_magic m tar_iflags;
          '(c, u_ent, m) ← set_user m (str_ (u_ent_bufferM taru)) c h username tar_iflags termch;
          '(c, u_ent, m) ← set_group m u_ent c h groupname tar_iflags termch;
          let taru := put_u_ent u_ent taru in
          m ← (if bit tar_iflags TARU_TAR_NUMERIC_UIDS
               then m ← memset m THB_BO_uname NUL SNAME_LEN; memset m THB_BO_gname NUL SNAME_LEN
               else Some m);
          m ← set_devices m h tar_iflags termch;
          m ← set_sum m tar_iflags termch;
          Some (taru, c, inl m)
      end.

(** The copy of the header in the object. *)
Definition record_header (taru : TARU) (tar_rec : bytes) : option TARU :=
  if negb (do_record_headerM taru =? 0) then
    s ← strob_set_memlength (headerM taru) TARRECORDSIZE;
    m ← mem_write (str_ s) 0 tar_rec;
    Some (put_header (set_str m s) TARRECORDSIZE taru)
  else Some taru.

(** Where the header goes. *)
Inductive target := ToBuffer (header_buffer : bytes) | ToFd (written : bytes).

(** Every byte that is written to the descriptor is accepted. *)
Definition taru_write_out_tar_header2 (taru : TARU) (c : SYSDBCACHES) h (out : target)
    (username groupname : option bytes) (tar_iflags : Z) : option (TARU * SYSDBCACHES * target * Z) :=
  '(taru, c, r) ← make_tar_header taru c h username groupname tar_iflags;
  match r with
  | inr code => Some (taru, c, out, code)
  | inl tar_rec =>
      taru ← record_header taru tar_rec;
      match out with
      | ToBuffer b => b ← mem_write b 0 tar_rec; Some (taru, c, ToBuffer b, 512)
      | ToFd w => Some (taru, c, ToFd (w ++ tar_rec), TARRECORDSIZE)
      end
  end.
End Writer.
