(* ===== verification/TarRead.v ===== *)
(** * Reading a tar header (swsupplib/taru/otar.c, mtar.c and taru.c)

    taru_read_in_tar_header2: one header with the extended headers in front of
    it, from a descriptor (the bytes that are left) or from memory. *)

From S2P Require Import Prelude CString Strob Pathname Escape FileMode TarNumbers TarHeader SysDb FileHdr PaxHeader TarWrite.

(** ** Where the bytes come from *)

(** [Mem m o]: fsource_buffer is the address [o] in the object [m]. *)
Inductive source := Mem (m : bytes) (o : Z) | Fd (rest : bytes).

Definition is_memory (s : source) : bool := match s with Mem _ _ => true | Fd _ => false end.

(** uxfio_sfa_read: up to [n] bytes, fewer only at the end. *)
Definition taru_tape_buffered_read (rest : bytes) (n : Z) : bytes * bytes :=
  (take (Z.to_nat n) rest, drop (Z.to_nat n) rest).

(** ** Names *)

(** strncpy of the bytes of a field; the texts after the copies. *)
Definition field_text (n : Z) (s : bytes) : bytes := take (Z.to_nat n) s.

Definition stash_tar_filename (prefix : option bytes) (filename : bytes) : bytes :=
  match prefix with
  | None | Some [] => field_text TARNAMESIZE filename
  | Some prefix =>
      take (Z.to_nat (TARPREFIXSIZE + TARNAMESIZE))
        (field_text TARPREFIXSIZE prefix ++ L "/" ++ field_text TARNAMESIZE filename)
  end.

(** strncmp with TMAGIC on five bytes. *)
Definition taru_dup_tar_name (m : bytes) : option bytes :=
  p ← mem_at m THB_BO_magic;
  filename ← str_at m THB_BO_name;
  if negb (strncmp (cstr (take 5 p)) (L "ustar") 5 =? 0) then Some (stash_tar_filename None filename)
  else prefix ← str_at m THB_BO_prefix; Some (stash_tar_filename (Some prefix) filename).

Definition taru_dup_tar_linkname (m : bytes) : option bytes :=
  s ← str_at m THB_BO_linkname; Some (field_text TARLINKNAMESIZE s).

(** ** Blocks *)

Section Reader.
Context `{Malloc} `{SysDB} (stray : bool).

Definition null_block (m : bytes) (size : Z) : option bool :=
  b ← bytes_at m 0 size; Some (forallb (ceq NUL) b).

(** [len] bytes of [m] behind the header that is recorded. *)
Definition append_header (taru : TARU) (block : bytes) : option TARU :=
  if negb (do_record_headerM taru =? 0) then
    s ← strob_set_memlength (headerM taru) (header_lengthM taru + TARRECORDSIZE);
    m ← mem_write (str_ s) (header_lengthM taru) block;
    Some (put_header (set_str m s) (header_lengthM taru + TARRECORDSIZE) taru)
  else Some taru.

(** The object, the source and the number of bytes, or -1. *)
Fixpoint data_blocks_loop (blocks : nat) (taru : TARU) (src : source) (base n retval : Z)
    : option (TARU * source * Z) :=
  match blocks with
  | O => Some (taru, src, retval)
  | S blocks =>
      '(block, src) ← match src with
                      | Mem m o => b ← bytes_at m (o + (n + 1) * TARRECORDSIZE) TARRECORDSIZE; Some (b, src)
                      | Fd rest => let '(b, rest) := taru_tape_buffered_read rest TARRECORDSIZE in Some (b, Fd rest)
                      end;
      m ← mem_write (str_ (read_bufferM taru)) (base + n * TARRECORDSIZE) block;
      let taru := put_read (set_str m (read_bufferM taru)) (read_buffer_posM taru) taru in
      if negb (zlen block =? TARRECORDSIZE) then Some (taru, src, -1)
      else
        taru ← append_header taru block;
        let taru := put_read (read_bufferM taru) (read_buffer_posM taru + TARRECORDSIZE) taru in
        data_blocks_loop blocks taru src base (n + 1) (retval + TARRECORDSIZE)
  end.

Definition taru_read_pax_data_blocks (taru : TARU) (src : source) (data_len : Z)
    : option (TARU * source * Z) :=
  let n_blocks := Z.quot data_len TARRECORDSIZE + if Z.rem data_len TARRECORDSIZE =? 0 then 0 else 1 in
  let base := read_buffer_posM taru in
  strb ← strob_set_length (read_bufferM taru) (base + n_blocks * TARRECORDSIZE + TARRECORDSIZE + 10);
  '(taru, src, retval) ← data_blocks_loop (Z.to_nat n_blocks) (put_read strb base taru) src base 0 0;
  if retval <? 0 then Some (taru, src, retval)
  else
    m ← mem_write (str_ (read_bufferM taru)) (base + retval) [NUL];
    Some (put_read (set_str m (read_bufferM taru)) (read_buffer_posM taru) taru, src, retval).

(** ** The fields of the header *)

(** *n of taru_otoul on the field at [o]; the text ends at the first NUL. *)
Definition field_number (m : bytes) (o : Z) : option Z := s ← str_at m o; Some (fst (taru_otoul s)).
Definition field_size (m : bytes) (o : Z) : option Z := s ← str_at m o; Some (fst (taru_otoumax s)).

(** The id that the name has in the data base, or the id of the header. *)
Definition owner_id (retain : bool) (m : bytes) (o : Z) (name : bytes) (cache : SYSDBCACHE)
    (by_name : SYSDBCACHE -> bytes -> option (SYSDBCACHE * option Z * Z)) : option (SYSDBCACHE * Z) :=
  if retain then n ← field_number m o; Some (cache, n)
  else
    '(cache, pid, ret) ← by_name cache name;
    if ret =? 0 then pid ← pid; Some (cache, pid)
    else n ← field_number m o; Some (cache, n).

(** The last character, which an empty text has in front of it. *)
Definition ends_with_slash (name : bytes) : option bool := c ← last name; Some (is_slash c).

(** The type bits, the link name and the size by the type flag. *)
Definition header_by_type (m : bytes) (t : ascii) (h : new_cpio_header) : option new_cpio_header :=
  let type b := put_c_mode (Z.lor (c_mode h) b) h in
  let linked h := s ← str_at m THB_BO_linkname; Some (ahsStaticSetTarLinkname h s) in
  let special b := h ← linked (type b); Some (put_c_filesize 0 h) in
  if ceq t DIRTYPE then Some (type CP_IFDIR)
  else if ceq t CHRTYPE then special CP_IFCHR
  else if ceq t BLKTYPE then special CP_IFBLK
  else if ceq t FIFOTYPE then special CP_IFIFO
  else if ceq t SYMTYPE then
    h ← (if bit (extHeader_usage_maskM h) TARU_EHUM_LINKPATH then Some (type CP_IFLNK) else linked (type CP_IFLNK));
    Some (put_c_filesize 0 h)
  else if ceq t LNKTYPE then special CP_IFREG
  else if ceq t AREGTYPE then
    slash ← ends_with_slash (c_name h); Some (type (if slash : bool then CP_IFDIR else CP_IFREG))
  else Some (type CP_IFREG).

(** From the good header in [m] to the file header. *)
Definition header_fields (m : bytes) (h : new_cpio_header) (c : SYSDBCACHES) (retain : bool)
    : option (new_cpio_header * SYSDBCACHES) :=
  '(h, tmpname) ← (if bit (extHeader_usage_maskM h) TARU_EHUM_PATH then Some (h, None)
                   else s ← taru_dup_tar_name m; Some (ahsStaticSetTarFilename h s, Some s));
  let h := put_c_namesize (zlen (c_name h) + 1) h in
  t ← mem_read m THB_BO_typeflag;
  let h := put_c_nlink (if ceq t LNKTYPE then 2 else 1) h in
  mode ← field_number m THB_BO_mode;
  let h := put_c_mode (Z.land mode 4095) h in
  uname ← str_at m THB_BO_uname;
  let h := ahsStaticSetTarUsername h uname in
  '(cache, uid) ← owner_id retain m THB_BO_uid uname (userCacheM c) taru_get_uid_by_name;
  let h := put_c_uid uid h in
  let c := mkSYSDBCACHES cache (groupCacheM c) in
  _ ← tartype_bits t tmpname;
  let h := put_c_is_tar_lnktype (if ceq t LNKTYPE then 1 else 0) h in
  gname ← str_at m THB_BO_gname;
  let h := ahsStaticSetTarGroupname h gname in
  '(cache, gid) ← owner_id retain m THB_BO_gid gname (groupCacheM c) taru_get_gid_by_name;
  let h := put_c_gid gid h in
  let c := mkSYSDBCACHES (userCacheM c) cache in
  size ← field_size m THB_BO_size;
  mtime ← field_number m THB_BO_mtime;
  maj ← field_number m THB_BO_devmajor;
  min ← field_number m THB_BO_devminor;
  let h := put_c_rdev_min min (put_c_rdev_maj maj (put_c_mtime mtime (put_c_filesize size h))) in
  h ← header_by_type m t h;
  Some (h, c).

(** ** The header at the position of the source *)

(** One round of while (1) in front of the fields: the sum is right ([inl]), or
    the code that is returned, or another round with a byte less ([inr None]). *)
Definition check_round (m : bytes) (src : source) (tarheaderflags : Z)
    : option (source * (unit + option Z)) :=
  chksum ← field_number m THB_BO_chksum;
  sum ← taru_tar_checksum m;
  if chksum =? sum then Some (src, inl ())
  else match src with
       | Mem _ _ => Some (src, inr (Some (-3)))
       | Fd rest => if bit tarheaderflags TARU_TAR_FRAGILE_FORMAT then Some (src, inr (Some (-2)))
                    else Some (Fd (drop 1 rest), inr None)
       end.

(** [None] inside when [rounds] rounds were not enough. *)
Fixpoint check_rounds (rounds : nat) (m : bytes) (src : source) (tarheaderflags : Z)
    : option (option (source * (unit + Z))) :=
  match rounds with
  | O => Some None
  | S rounds =>
      '(src, r) ← check_round m src tarheaderflags;
      match r with
      | inl _ => Some (Some (src, inl ()))
      | inr (Some code) => Some (Some (src, inr code))
      | inr None => check_rounds rounds m src tarheaderflags
      end
  end.

(** Everything a call changes. *)
Record reading := mkReading {
  rd_taru : TARU;
  rd_caches : SYSDBCACHES;
  rd_hdr : new_cpio_header;
  rd_src : source;
  rd_eoa : Z;
}.

Definition put_hdr (h : new_cpio_header) (r : reading) : reading :=
  mkReading (rd_taru r) (rd_caches r) h (rd_src r) (rd_eoa r).
Definition put_taru (t : TARU) (s : source) (r : reading) : reading :=
  mkReading t (rd_caches r) (rd_hdr r) s (rd_eoa r).

(** The first block: the state with it in the buffer, or the result. *)
Definition read_block (r : reading) : option (reading * option Z) :=
  let taru := rd_taru r in
  let pos := read_buffer_posM taru in
  strb ← strob_set_length (read_bufferM taru) (pos + TARRECORDSIZE);
  '(block, src) ← match rd_src r with
                  | Mem m o => b ← bytes_at m (o + pos) TARRECORDSIZE; Some (b, rd_src r)
                  | Fd rest => let '(b, rest) := taru_tape_buffered_read rest TARRECORDSIZE in Some (b, Fd rest)
                  end;
  m ← mem_write (str_ strb) 0 block;
  let r := put_taru (put_read (set_str m strb) pos taru) src r in
  if negb (is_memory src) && negb (zlen block =? TARRECORDSIZE)
  then Some (r, Some (if zlen block =? 0 then 0 else -1))
  else
    strb ← strob_set_length (set_str m strb) (pos + TARRECORDSIZE + TARRECORDSIZE);
    b ← bytes_at (str_ strb) 0 TARRECORDSIZE;
    taru ← append_header (put_read strb (pos + TARRECORDSIZE) taru) b;
    Some (put_taru taru src r, None).

(** Behind a block of zeros: the end, if another one follows. *)
Definition end_of_archive (r : reading) : option (reading * Z) :=
  let taru := rd_taru r in
  let strb := read_bufferM taru in
  '(block, src) ← match rd_src r with
                  | Mem _ _ => Some (replicate (Z.to_nat TARRECORDSIZE) NUL, rd_src r)
                  | Fd rest => let '(b, rest) := taru_tape_buffered_read rest TARRECORDSIZE in Some (b, Fd rest)
                  end;
  m ← mem_write (str_ strb) 0 block;
  null ← null_block m TARRECORDSIZE;
  let retval := if negb (zlen block =? TARRECORDSIZE) || negb null then -1 else 1024 in
  let taru := put_read (set_str m strb) (read_buffer_posM taru + TARRECORDSIZE) taru in
  Some (mkReading taru (rd_caches r) (ahsStaticSetTarFilename (rd_hdr r) CPIO_INBAND_EOA_FILENAME) src retval, retval).

(** The data of an extended header: the state, or the process ends; the
    reading goes on behind it unless there is a result.  tar_hdr still points
    into the old block when the buffer had to grow. *)
Definition extended_header (r : reading) (len : Z) : option (outcome (reading * Z * option Z)) :=
  size ← field_size (str_ (read_bufferM (rd_taru r))) THB_BO_size;
  let h := put_c_filesize size (rd_hdr r) in
  '(taru, src, got) ← (if is_memory (rd_src r) && (to_size len <? size) then Some (rd_taru r, rd_src r, -1)
                       else taru_read_pax_data_blocks (rd_taru r) (rd_src r) (to_int size));
  if got <? 0 then Some Fatal
  else
    let data := read_buffer_posM taru - got in
    let m := str_ (read_bufferM taru) in
    t ← (if reserve_ (read_bufferM taru) =? reserve_ (read_bufferM (rd_taru r))
         then mem_read m THB_BO_typeflag else None);
    if ceq t GNUTYPE_LONGNAME then
      s ← str_at m data;
      Some (Returns (put_hdr (used TARU_EHUM_PATH (ahsStaticSetTarFilename h s)) (put_taru taru src r), got, None))
    else if ceq t GNUTYPE_LONGLINK then
      s ← str_at m data;
      Some (Returns (put_hdr (used TARU_EHUM_LINKPATH (ahsStaticSetPaxLinkname h s)) (put_taru taru src r), got, None))
    else if ceq t XHDTYPE then
      '(h, n) ← taru_read_all_ext_header_records h m data (to_int size);
      Some (Returns (put_hdr h (put_taru taru src r), got, if n <? 0 then Some (-11) else None))
    else Some Fatal.

Definition is_extended (t : ascii) : bool :=
  ceq t GNUTYPE_LONGNAME || ceq t GNUTYPE_LONGLINK || ceq t XHDTYPE || ceq t XGLTYPE.

(** while (1): [inl]: the state and the result; [inr]: the rounds were not
    enough. *)
Definition checked_header (rounds : nat) (r : reading) (tarheaderflags fp_retval : Z)
    : option (outcome (reading * Z + unit)) :=
  let m := str_ (read_bufferM (rd_taru r)) in
  chk ← check_rounds rounds m (rd_src r) tarheaderflags;
  match chk with
  | None => Some (Returns (inr ()))
  | Some (src, inr code) =>
      chksum ← field_number m THB_BO_chksum;
      Some (Returns (inl (put_hdr (put_c_chksum chksum (rd_hdr r)) (put_taru (rd_taru r) src r), code)))
  | Some (src, inl _) =>
      chksum ← field_number m THB_BO_chksum;
      '(h, c) ← header_fields m (put_c_chksum chksum (rd_hdr r)) (rd_caches r)
                  (bit tarheaderflags TARU_TAR_RETAIN_HEADER_IDS);
      Some (Returns (inl (mkReading (rd_taru r) c h src (rd_eoa r), 512 + fp_retval)))
  end.

Fixpoint i_taru_read_in_tar_header2 (fuel rounds : nat) (r : reading) (tarheaderflags len fp_retval : Z)
    : option (outcome (reading * Z + unit)) :=
  match fuel with
  | O => None
  | S fuel =>
    let r := mkReading (rd_taru r) (rd_caches r) (rd_hdr r) (rd_src r) 0 in
    '(r, ret) ← read_block r;
    match ret with
    | Some code => Some (Returns (inl (r, code)))
    | None =>
      let len := if is_memory (rd_src r) then len - TARRECORDSIZE else len in
      let m := str_ (read_bufferM (rd_taru r)) in
      null ← null_block m TARRECORDSIZE;
      if null : bool then r ← end_of_archive r; Some (Returns (inl r))
      else
        t ← mem_read m THB_BO_typeflag;
        if is_extended t then
          e ← extended_header r len;
          match e with
          | Fatal => Some Fatal
          | Returns (r, got, Some code) => Some (Returns (inl (r, code)))
          | Returns (r, got, None) =>
              let read_so_far := TARRECORDSIZE + got in
              let r := put_taru (rd_taru r)
                         (match rd_src r with Mem m o => Mem m (o + read_so_far) | s => s end) r in
              let len := if is_memory (rd_src r) && (got >? 0) then len - got else len in
              i_taru_read_in_tar_header2 fuel rounds r tarheaderflags len (fp_retval + read_so_far)
          end
        else
          checked_header rounds r tarheaderflags fp_retval
    end
  end.

(** The number of headers that the source can hold. *)
Definition source_fuel (s : source) : nat := S (length match s with Mem m _ => m | Fd rest => rest end).

(** What is reset in front of a header. *)
Definition started (r : reading) : reading :=
  let taru := put_read (read_bufferM (rd_taru r)) 0 (rd_taru r) in
  let taru := if negb (do_record_headerM taru =? 0) then put_header (headerM taru) 0 taru else taru in
  let h := taru_exattlist_init (put_ext_usage_maskM 0 (rd_hdr r)) in
  mkReading taru (rd_caches r) (ahsStaticSetPaxLinkname (ahsStaticSetTarFilename h []) []) (rd_src r) (rd_eoa r).

Definition taru_read_in_tar_header2 (rounds : nat) (r : reading) (tarheaderflags len : Z)
    : option (outcome (reading * Z + unit)) :=
  res ← i_taru_read_in_tar_header2 (source_fuel (rd_src r)) rounds (started r) tarheaderflags len 0;
  Some (match res with
        | Returns (inl (r, ret)) =>
            Returns (inl (if negb (extHeader_usage_maskM (rd_hdr r) =? 0)
                          then put_hdr (override_all stray (rd_hdr r)) r else r, ret))
        | res => res
        end).
End Reader.
