(* ===== verification/TarImage.v ===== *)
(** * The layout of a tar header

    A header is the concatenation of its fields, so that writing a field is
    replacing one of the blocks, and reading a field is looking at one. *)

From S2P Require Import Prelude CString Strob StrobSpec Stored Pathname Escape FileMode TarNumbers TarNumbersSpec TarHeader TarHeaderSpec SysDb.

(** The lengths of the 17 fields. *)
Definition field_sizes : list nat := [100; 8; 8; 8; 12; 12; 8; 1; 100; 6; 2; 32; 32; 8; 8; 155; 12]%nat.

Definition hdr_blocks (l : list bytes) : Prop := map (@length ascii) l = field_sizes.

(** The offset of a field. *)
Definition field_offset (i : nat) : Z := Z.of_nat (sum_list_with id (take i field_sizes)).

Lemma length_concat_sizes l : length (concat l) = sum_list_with id (map (@length ascii) l).
Proof. induction l as [|b l IH]; [done|]. cbn [concat map sum_list_with]. by rewrite length_app, IH. Qed.

Lemma hdr_blocks_length l : hdr_blocks l -> length (concat l) = 512%nat.
Proof. intros E. by rewrite length_concat_sizes, E. Qed.

Lemma hdr_blocks_zlen l : hdr_blocks l -> zlen (concat l) = 512.
Proof. intros E. unfold zlen. by rewrite hdr_blocks_length. Qed.

Lemma concat_split (l : list bytes) i b :
  l !! i = Some b -> concat l = concat (take i l) ++ b ++ concat (drop (S i) l).
Proof.
  intros Hi. rewrite <- (take_drop_middle l i b Hi) at 1. rewrite concat_app. done.
Qed.

Lemma take_length l i : hdr_blocks l -> Z.of_nat (length (concat (take i l))) = field_offset i.
Proof.
  intros E. unfold field_offset. rewrite length_concat_sizes, <- E. change (map (@length ascii)) with (fmap (M:=list) (@length ascii)). by rewrite <- fmap_take.
Qed.

Lemma block_length l i b : hdr_blocks l -> l !! i = Some b -> field_sizes !! i = Some (length b).
Proof. intros E Hi. rewrite <- E. change (map (@length ascii) l) with (@length ascii <$> l). by rewrite list_lookup_fmap, Hi. Qed.

Lemma hdr_blocks_insert l i b b' :
  hdr_blocks l -> l !! i = Some b -> length b' = length b -> hdr_blocks (<[i := b']> l).
Proof.
  intros E Hi Hl. unfold hdr_blocks in *. change (map length (<[i:=b']> l)) with (@length ascii <$> <[i:=b']> l).
  rewrite list_fmap_insert, Hl. rewrite <- E. apply list_insert_id. by rewrite list_lookup_fmap, Hi.
Qed.

(** A write inside one block. *)
Lemma write_block l i b b' d x :
  hdr_blocks l -> l !! i = Some b -> 0 <= d -> mem_write b d x = Some b' ->
  mem_write (concat l) (field_offset i + d) x = Some (concat (<[i := b']> l)).
Proof.
  intros E Hi Hd Hw. pose proof (lookup_lt_Some _ _ _ Hi) as Hlt.
  pose proof (take_length l i E) as Ho. unfold mem_write in Hw.
  destruct ((0 <=? d) && (d + zlen x <=? zlen b)) eqn:Hb; [|done]. zbool. injection Hw as <-.
  rewrite (concat_split l i b Hi). rewrite <- Ho. set (p := concat (take i l)).
  rewrite mem_write_in by (rewrite ?zlen_app; unfold zlen in *; lia). f_equal.
  rewrite insert_take_drop by done. rewrite concat_app. cbn [concat]. fold p.
  rewrite Z2Nat.inj_add, Nat2Z.id by lia.
  rewrite take_app_add', <- (app_assoc p), <- !app_assoc by done. f_equal.
  rewrite (take_app_le b) by (unfold zlen in *; lia). f_equal. f_equal.
  rewrite <- Nat.add_assoc, drop_app_add' by done. rewrite drop_app_le by (unfold zlen in *; lia). done.
Qed.

Lemma write_full l i b x :
  hdr_blocks l -> l !! i = Some b -> length x = length b ->
  mem_write (concat l) (field_offset i) x = Some (concat (<[i := x]> l)).
Proof.
  intros E Hi Hl. rewrite <- (Z.add_0_r (field_offset i)). apply (write_block l i b x 0 x E Hi); [lia|].
  rewrite mem_write_in by (unfold zlen; lia). cbn [take Z.to_nat app]. f_equal.
  rewrite drop_ge by lia. by rewrite app_nil_r.
Qed.

(** ** Reading *)

Lemma block_stored l i b : hdr_blocks l -> l !! i = Some b -> stored (concat l) (field_offset i) b.
Proof.
  intros E Hi j Hj. rewrite (concat_split l i b Hi), <- (take_length l i E), Nat2Z.id.
  rewrite lookup_app_r by lia. rewrite lookup_app_l by lia. f_equal. lia.
Qed.

(** The object [m] starts with the header. *)
Definition starts (m : bytes) (l : list bytes) : Prop := hdr_blocks l /\ take 512 m = concat l.

Lemma starts_lookup m l i : starts m l -> (i < 512)%nat -> m !! i = concat l !! i.
Proof. intros [_ E] Hi. rewrite <- E. by rewrite lookup_take_lt. Qed.

Lemma starts_length m l : starts m l -> (512 <= length m)%nat.
Proof. intros [E1 E2]. apply hdr_blocks_length in E1. rewrite <- E2, length_take in E1. lia. Qed.

Lemma starts_stored m l i b : starts m l -> l !! i = Some b -> stored m (field_offset i) b.
Proof.
  intros Hs Hi j Hj. rewrite (starts_lookup m l) by
    (done || (pose proof (block_length l i b (proj1 Hs) Hi) as Hl; pose proof (concat_split l i b Hi) as Hc;
              apply (f_equal length) in Hc; rewrite !length_app, (hdr_blocks_length l (proj1 Hs)) in Hc;
              rewrite <- (take_length l i (proj1 Hs)); lia)).
  by apply (block_stored l i b (proj1 Hs) Hi).
Qed.


(** ** Numbers *)

Lemma digits_loop_stop ds c r : forall acc, 0 <= acc -> Forall oct_digit ds -> oct_value acc ds < 2 ^ 64 ->
  isodigit c = false -> digits_loop 8 isodigit (ds ++ c :: r) acc = (c :: r, oct_value acc ds).
Proof.
  induction ds as [|d ds IH]; intros acc Ha HF Hv Hc; cbn [app digits_loop]; [by rewrite Hc|].
  apply Forall_cons in HF as [Hod HF]. destruct (oct_digit_not_space _ Hod) as [_ Hr]. unfold oct_digit in Hod. rewrite Hod.
  change (oct_value acc (d :: ds)) with (oct_value (8 * acc + (uchar d - 48)) ds) in *.
  pose proof (oct_value_grows ds (8 * acc + (uchar d - 48)) ltac:(lia) HF).
  rewrite to_size_id by lia. apply IH; [lia|done|done|done].
Qed.

Lemma skip_spaces_digits ds : Forall oct_digit ds -> forall r, ds <> [] -> skip_spaces (ds ++ r) = ds ++ r.
Proof.
  intros [|c ds' Hod _] r Hne; [done|]. cbn. destruct (is_space c) eqn:E; [|done]. apply ceq_eq in E as ->. done.
Qed.

(** A number of [n] digits and its end at [o]. *)
Definition number_field (n : nat) (v : Z) (t : ascii) : Prop :=
  (t = NUL \/ (t = " "%char /\ n <> 0%nat)) /\ 0 <= v < 8 ^ Z.of_nat n /\ (n <= 21)%nat.

Lemma number_text n v t k : number_field n v t ->
  exists r, cstr (oct n v ++ t :: k) = oct n v ++ r /\ (r = [] \/ n <> 0%nat /\ exists r', r = " "%char :: r').
Proof.
  intros [[->|[-> Hn]] _].
  - exists []. rewrite cstr_app_nul by apply oct_no_nul. split; [by rewrite app_nil_r|by left].
  - exists (" "%char :: cstr k). rewrite cstr_app_no_nul by apply oct_no_nul. split; [done|].
    right. split; [done|by eexists].
Qed.

Lemma otoul_number n v t k : number_field n v t ->
  fst (taru_otoul (cstr (oct n v ++ t :: k))) = v /\ fst (taru_otoumax (cstr (oct n v ++ t :: k))) = v.
Proof.
  intros Hf. assert (oct_value 0 (oct n v) = v) as Hv by (rewrite oct_value_oct; [lia|apply Hf]).
  assert (v < 2 ^ 64) as Hb.
  { destruct Hf as (_ & [_ Hv1] & Hn). eapply Z.lt_le_trans; [exact Hv1|].
    transitivity (8 ^ 21); [apply Z.pow_le_mono_r; lia|lia]. }
  change (taru_otoumax) with taru_otoul. split; destruct (number_text n v t k Hf) as (r & -> & [->|[Hn (r' & ->)]]);
    try (rewrite app_nil_r, otoul_digits; [done|apply oct_digits|by rewrite Hv]);
    (unfold taru_otoul; rewrite skip_spaces_digits;
     [rewrite digits_loop_stop; [done|lia|apply oct_digits|by rewrite Hv|done]
     |apply oct_digits|intros E; apply (f_equal length) in E; rewrite length_oct in E; done]).
Qed.

(** ** Writing fields *)

Definition num (n : nat) (v : Z) (t : ascii) : bytes := oct n v ++ [t].

Lemma length_num n v t : length (num n v t) = S n.
Proof. unfold num. rewrite length_app, length_oct. cbn. lia. Qed.

Lemma block_exists l i k : hdr_blocks l -> field_sizes !! i = Some k -> exists b, l !! i = Some b /\ length b = k.
Proof.
  intros E Hi. rewrite <- E in Hi. change (map (@length ascii) l) with (@length ascii <$> l) in Hi.
  rewrite list_lookup_fmap in Hi. destruct (l !! i) as [b|]; [|done]. exists b. by injection Hi.
Qed.

Lemma hdr_blocks_set l i x : hdr_blocks l -> field_sizes !! i = Some (length x) -> hdr_blocks (<[i := x]> l).
Proof. intros E Hi. destruct (block_exists l i _ E Hi) as (b & Hb & Hl). by apply (hdr_blocks_insert l i b). Qed.

Lemma write_field l i x : hdr_blocks l -> field_sizes !! i = Some (length x) ->
  mem_write (concat l) (field_offset i) x = Some (concat (<[i := x]> l)).
Proof. intros E Hi. destruct (block_exists l i _ E Hi) as (b & Hb & Hl). by apply (write_full l i b). Qed.

Lemma write_prefix l i b x : hdr_blocks l -> l !! i = Some b -> (length x <= length b)%nat ->
  mem_write (concat l) (field_offset i) x = Some (concat (<[i := x ++ drop (length x) b]> l)).
Proof.
  intros E Hi Hl. rewrite <- (Z.add_0_r (field_offset i)). apply (write_block l i b _ 0 x E Hi); [lia|].
  rewrite mem_write_in by (unfold zlen; lia). done.
Qed.

Lemma field_offset_nonneg i : 0 <= field_offset i.
Proof. unfold field_offset. lia. Qed.

Lemma field_in_image l i b : hdr_blocks l -> l !! i = Some b -> field_offset i + zlen b <= 512.
Proof.
  intros E Hi. pose proof (f_equal length (concat_split l i b Hi)) as Hc.
  rewrite !length_app, (hdr_blocks_length l E) in Hc. rewrite <- (take_length l i E). unfold zlen. lia.
Qed.

(** A number that fits. *)
Lemma to_chars_field l i n v valsize subst type fmt t :
  hdr_blocks l -> field_sizes !! i = Some (S n) -> (0 < n <= 20)%nat -> 0 <= v < 8 ^ Z.of_nat n ->
  to_chars false v valsize subst (concat l) (field_offset i) (Z.of_nat (S n)) type fmt t
  = Some (concat (<[i := num n v (to_char t)]> l)).
Proof.
  intros E Hi Hn Hv. destruct (block_exists l i _ E Hi) as (b & Hb & Hl). pose proof (field_in_image l i b E Hb).
  unfold to_chars. rewrite to_chars_fits;
    [|lia|by replace (Z.of_nat (S n) - 1) with (Z.of_nat n) by lia|apply field_offset_nonneg
     |rewrite (hdr_blocks_zlen l E); unfold zlen in *; lia].
  replace (Z.to_nat (Z.of_nat (S n) - 1)) with n by lia. fold (num n v (to_char t)).
  apply write_field; [done|]. by rewrite length_num.
Qed.

(** A text in a field, with at least one NUL behind it. *)
Lemma strncpy_field l i s n :
  hdr_blocks l -> field_sizes !! i = Some (S n) -> (length s <= n)%nat ->
  swlib_strncpy (concat l) (field_offset i) s (Z.of_nat (S n)) = Some (concat (<[i := padded (S n) s]> l)).
Proof.
  intros E Hi Hn. destruct (block_exists l i _ E Hi) as (b & Hb & Hl). unfold swlib_strncpy.
  replace (Z.to_nat (Z.of_nat (S n) - 1)) with n by lia. fold (padded n s).
  rewrite (write_prefix l i b) by (done || rewrite padded_length by done; lia). obind.
  assert (hdr_blocks (<[i := padded n s ++ drop (length (padded n s)) b]> l)) as E1.
  { apply hdr_blocks_set; [done|]. rewrite length_app, length_drop, padded_length, Hi by done. f_equal. lia. }
  rewrite (write_block _ i (padded n s ++ drop (length (padded n s)) b) (padded (S n) s)); [|done| | |].
  - by rewrite list_insert_insert_eq.
  - apply list_lookup_insert_eq. by apply lookup_lt_Some in Hb.
  - lia.
  - rewrite mem_write_in by (unfold zlen; rewrite ?length_app, ?length_drop, ?padded_length by done; cbn; lia).
    replace (Z.to_nat (Z.of_nat (S n) - 1)) with (length (padded n s)) by (rewrite padded_length by done; lia).
    rewrite take_app_length, drop_ge by (rewrite length_app, length_drop, padded_length by done; cbn; lia).
    rewrite app_nil_r, !padded_fits by lia. rewrite <- app_assoc. f_equal. f_equal.
    replace (S n - length s)%nat with (n - length s + 1)%nat by lia. by rewrite replicate_add.
Qed.
