(* ===== verification/TarWriteSpec.v ===== *)
(** * What taru_write_out_tar_header2 writes

    The header that is made is the list of its fields, for every file whose
    name, ids, size and time fit into a tar header. *)

From S2P Require Import Prelude CString Strob StrobSpec Stored Pathname Escape FileMode TarNumbers TarNumbersSpec TarHeader TarHeaderSpec SysDb FileHdr TarWrite TarImage.

Definition zero_blocks : list bytes := map (fun n => replicate n NUL) field_sizes.

Lemma zero_image : replicate (Z.to_nat TARRECORDSIZE) NUL = concat zero_blocks.
Proof. reflexivity. Qed.

(** An object that has all fields of [l]. *)
Lemma stored_blocks m l : forall o, 0 <= o ->
  (forall i b, l !! i = Some b -> stored m (o + Z.of_nat (length (concat (take i l)))) b) -> stored m o (concat l).
Proof.
  induction l as [|b l IH]; intros o Ho Hs; [intros i Hi; cbn in Hi; lia|].
  cbn [concat]. apply stored_app; [done|]. split.
  - specialize (Hs 0%nat b eq_refl). cbn in Hs. by rewrite Z.add_0_r in Hs.
  - apply IH; [unfold zlen; lia|]. intros i b' Hi. specialize (Hs (S i) b' Hi). cbn [take concat] in Hs.
    rewrite length_app in Hs. unfold zlen. rewrite <- Z.add_assoc, <- Nat2Z.inj_add. done.
Qed.

Lemma image_by_blocks m l : hdr_blocks l -> length m = 512%nat ->
  (forall i b, l !! i = Some b -> stored m (field_offset i) b) -> m = concat l.
Proof.
  intros E Hm Hs. apply stored_eq; [by rewrite hdr_blocks_length|]. apply stored_blocks; [done|].
  intros i b Hi. rewrite take_length by done. by apply Hs.
Qed.

(** ** The sum *)

Lemma sum_field l b s t (wide : bool) :
  hdr_blocks l -> l !! 6%nat = Some b -> 0 <= s < 8 ^ 6 ->
  uintmax_to_chars s (concat l) THB_BO_chksum (if wide then 8 else 7) POSIX_FORMAT t
  = Some (concat (<[6%nat := if wide then num 7 s (to_char t) else num 6 s (to_char t) ++ drop 7 b]> l)).
Proof.
  intros E Hb Hs. unfold uintmax_to_chars. change THB_BO_chksum with (field_offset 6). destruct wide.
  - apply (to_chars_field l 6 7); [done|done|lia|]. change (8 ^ Z.of_nat 7) with 2097152.
    change (8 ^ 6) with 262144 in Hs. lia.
  - pose proof (block_length l 6 b E Hb) as Hl. injection Hl as Hl.
    unfold to_chars. rewrite to_chars_fits; [|lia|done|done|rewrite (hdr_blocks_zlen l E); vm_compute; done].
    change (oct (Z.to_nat (7 - 1)) s ++ [to_char t]) with (num 6 s (to_char t)).
    rewrite (write_prefix l 6 b) by (done || rewrite length_num; lia). by rewrite length_num.
Qed.

(** ** The name *)

(** How a name is stored. *)
Definition name_parts (nm p n : bytes) : Prop := (p = [] /\ n = nm /\ (length nm <= 100)%nat) \/ splits nm p n.

Lemma zero_block i b : zero_blocks !! i = Some b -> exists k, b = replicate k NUL /\ field_sizes !! i = Some k.
Proof.
  unfold zero_blocks. change (map ?f field_sizes) with (f <$> field_sizes). rewrite list_lookup_fmap.
  destruct (field_sizes !! i) as [k|]; [|done]. intros [= <-]. by exists k.
Qed.

Lemma name_blocks nm p m' :
  length m' = 512%nat -> (forall i, (i < 512)%nat -> (100 <= i < 345 \/ 500 <= i)%nat -> m' !! i = Some NUL) ->
  (length nm <= 100)%nat -> (length p <= 155)%nat -> name_fields m' p nm ->
  m' = concat (<[15%nat := padded 155 p]> (<[0%nat := padded 100 nm]> zero_blocks)).
Proof.
  intros Hl Hz Hn Hp [Sp Sn]. apply image_by_blocks; [|done|].
  - apply hdr_blocks_set; [apply hdr_blocks_set; [done|]|]; by rewrite padded_length.
  - assert (forall o k, 0 <= o -> (100 <= Z.to_nat o /\ Z.to_nat o + k <= 345 \/ 500 <= Z.to_nat o /\ Z.to_nat o + k <= 512)%nat ->
              stored m' o (replicate k NUL)) as Hzero.
    { intros o k Ho Hr i Hi. rewrite length_replicate in Hi. rewrite Hz by lia. symmetry. by apply lookup_replicate_2. }
    intros i b Hi. destruct (decide (i = 15%nat)) as [->|H15].
    { rewrite list_lookup_insert_eq in Hi by (rewrite length_insert; vm_compute; lia). injection Hi as <-. exact Sp. }
    rewrite list_lookup_insert_ne in Hi by done. destruct (decide (i = 0%nat)) as [->|H0].
    { rewrite list_lookup_insert_eq in Hi by (vm_compute; lia). injection Hi as <-. exact Sn. }
    rewrite list_lookup_insert_ne in Hi by done.
    destruct (zero_block i b Hi) as (k & -> & Hk). apply Hzero; [apply field_offset_nonneg|].
    do 17 (destruct i as [|i]; [first [done|injection Hk as <-; vm_compute; lia]|]). done.
Qed.

Lemma name_parts_short nm p n : name_parts nm p n -> (length n <= 100)%nat /\ (length p <= 155)%nat.
Proof. intros [(-> & -> & Hl)|(_ & _ & H1 & H2)]; [cbn; lia|done]. Qed.

Section Names.
Context `{Malloc}.

Lemma set_new_name_blocks nm flags :
  strstr nm (L "\x") = None -> (length nm <= 100)%nat \/ (exists p n, splits nm p n) ->
  exists p n ck, name_parts nm p n /\ length ck = 8%nat
    /\ taru_set_new_name (concat zero_blocks) nm flags
       = Some (concat (<[6%nat := ck]> (<[15%nat := padded 155 p]> (<[0%nat := padded 100 n]> zero_blocks))), 0).
Proof.
  intros Hx Hfit. unfold taru_set_new_name, unescape_name. rewrite Hx. obind. unfold TARNAMESIZE.
  assert (exists p n, name_parts nm p n /\ (length n <= 100)%nat /\ (length p <= 155)%nat
    /\ (if zlen nm <=? 100
        then m ← mem_write (concat zero_blocks) THB_BO_name (strncpy_bytes nm (Z.to_nat 100)); Some (m, 0)
        else taru_split_name_ustar (concat zero_blocks) nm)
       = Some (concat (<[15%nat := padded 155 p]> (<[0%nat := padded 100 n]> zero_blocks)), 0)) as (p & n & Hp & L1 & L2 & ->).
  { destruct (Z.leb_spec (zlen nm) 100) as [Hl|Hl].
    - exists [], nm. unfold zlen in Hl. split; [left; repeat split; lia|]. split; [lia|]. split; [cbn; lia|].
      change THB_BO_name with (field_offset 0). fold (padded 100 nm). change (Z.to_nat 100) with 100%nat. fold (padded 100 nm).
      rewrite (write_field zero_blocks 0) by (done || by rewrite padded_length by lia). obind. done.
    - destruct Hfit as [Hfit|(p0 & n0 & S0)]; [unfold zlen in Hl; lia|].
      destruct (split_name_spec (concat zero_blocks) nm) as (m' & r & -> & Lm & Fm & HC); [done|done|].
      destruct HC as [(-> & p & n & Sp & NF)|[(_ & _ & _ & Hno)|(_ & _ & Hno)]].
      + exists p, n. split; [by right|]. destruct Sp as (_ & _ & B1 & B2). split; [done|]. split; [done|].
        rewrite <- (name_blocks n p m'); [done|done| |done|done|done].
        intros i H1 H2. rewrite Fm by done. rewrite <- zero_image. by apply lookup_replicate_2.
      + exfalso. destruct S0 as (-> & Hne & _). apply (Hno (length p0)); [destruct p0; [done|cbn; lia]|].
        by apply list_lookup_middle.
      + exfalso. by apply (Hno p0 n0). }
  obind. change (negb (0 =? 0)) with false. cbv iota.
  set (l := <[15%nat := padded 155 p]> (<[0%nat := padded 100 n]> zero_blocks)).
  assert (hdr_blocks l) as E.
  { apply hdr_blocks_set; [apply hdr_blocks_set; [done|]|]; by rewrite padded_length. }
  assert (l !! 6%nat = Some (replicate 8 NUL)) as H6 by done.
  unfold taru_set_tar_header_sum.
  destruct (checksum_total (concat l)) as (s & -> & Hs); [by rewrite hdr_blocks_zlen|]. obind.
  rewrite (sum_field l (replicate 8 NUL)) by done. obind.
  eexists p, n, _. split; [done|]. split; [|done].
  destruct (_ || _); [by rewrite length_num|]. rewrite length_app, length_num. done.
Qed.
End Names.

(** ** The fields of a file *)

Definition tchar (flags : Z) : ascii := if bit flags TARU_TAR_BE_LIKE_STAR then " "%char else NUL.
Definition tcode (flags : Z) : Z := if bit flags TARU_TAR_BE_LIKE_STAR then 32 else 0.

Lemma tchar_code flags : to_char (tcode flags) = tchar flags.
Proof. unfold tcode, tchar. by destruct (bit _ _). Qed.

Definition file_type (h : new_cpio_header) : Z := Z.land (c_mode h) S_IFMT.
Definition has_link (h : new_cpio_header) : bool :=
  ((file_type h =? CP_IFREG) && negb (zlen (c_tar_linkname h) =? 0)) || (file_type h =? CP_IFLNK).
Definition is_device (h : new_cpio_header) : bool := (file_type h =? CP_IFCHR) || (file_type h =? CP_IFBLK).

(** The type flag. *)
Definition tar_type (h : new_cpio_header) : ascii :=
  let t := file_type h in
  if t =? CP_IFREG then if has_link h then LNKTYPE else REGTYPE
  else if t =? CP_IFDIR then DIRTYPE
  else if t =? CP_IFCHR then CHRTYPE
  else if t =? CP_IFBLK then BLKTYPE
  else if t =? CP_IFLNK then SYMTYPE else FIFOTYPE.

(** The name with the slash of a directory. *)
Definition stored_name (h : new_cpio_header) (flags : Z) : bytes :=
  if (file_type h =? CP_IFDIR) && negb (match last (c_name h) with Some c => is_slash c | None => false end)
     && negb ((zlen (c_name h) >=? TARNAMESIZE - 1)
              && (bit flags TARU_TAR_GNU_OLDGNUTAR || bit flags TARU_TAR_GNU_OLDGNUPOSIX))
  then c_name h ++ L "/" else c_name h.

(** What fits into a tar header, written with the ids and names as they are. *)
Record tar_file (h : new_cpio_header) (flags : Z) (user group : bytes) : Prop := {
  tf_name : no_nul (c_name h) /\ c_name h <> [];
  tf_escape : strstr (stored_name h flags) (L "\x") = None;
  tf_fits : (length (stored_name h flags) <= 100)%nat \/ exists p n, splits (stored_name h flags) p n;
  tf_mode : 0 <= c_mode h < 2 ^ 16;
  tf_type : file_type h ∈ [CP_IFREG; CP_IFDIR; CP_IFCHR; CP_IFBLK; CP_IFSOCK; CP_IFIFO; CP_IFLNK];
  tf_link : no_nul (c_tar_linkname h) /\ zlen (c_tar_linkname h) <= 100;
  tf_symlink : file_type h = CP_IFLNK -> streq (c_name h) GNU_LONG_LINK = false;
  tf_ids : 0 <= c_uid h < 8 ^ 7 /\ 0 <= c_gid h < 8 ^ 7;
  tf_size : 0 <= c_filesize h < 8 ^ 11;
  tf_mtime : 0 <= c_mtime h < 8 ^ 11;
  tf_dev : is_device h = true -> 0 <= c_rdev_maj h < 8 ^ 7 /\ 0 <= c_rdev_min h < 8 ^ 7;
  tf_policy : c_cu h = TARU_C_BY_UNONE /\ c_cg h = TARU_C_BY_UNONE;
  tf_user : no_nul user /\ zlen user < 32;
  tf_group : no_nul group /\ zlen group < 32;
}.

Lemma mode_bits_land v : 0 <= v -> mode_bits v = Z.land v 4095.
Proof.
  intros Hv. apply Z.bits_inj'. intros k Hk. rewrite Z.land_spec. unfold mode_bits, mode_map. cbn [foldr].
  rewrite !Z.lor_spec, Z.bits_0. change S_ISUID with (2 ^ 11). change S_ISGID with (2 ^ 10).
  change S_ISVTX with (2 ^ 9). change S_IRUSR with (2 ^ 8). change S_IWUSR with (2 ^ 7). change S_IXUSR with (2 ^ 6).
  change S_IRGRP with (2 ^ 5). change S_IWGRP with (2 ^ 4). change S_IXGRP with (2 ^ 3). change S_IROTH with (2 ^ 2).
  change S_IWOTH with (2 ^ 1). change S_IXOTH with (2 ^ 0). rewrite !bit_testbit by lia.
  change 4095 with (Z.ones 12). rewrite Z.testbit_ones_nonneg by lia.
  rewrite (mask_testbit _ 2048 11), (mask_testbit _ 1024 10), (mask_testbit _ 512 9), (mask_testbit _ 256 8),
    (mask_testbit _ 128 7), (mask_testbit _ 64 6), (mask_testbit _ 32 5), (mask_testbit _ 16 4),
    (mask_testbit _ 8 3), (mask_testbit _ 4 2), (mask_testbit _ 2 1), (mask_testbit _ 1 0) by (lia || reflexivity).
  destruct (Z.ltb_spec k 12).
  - assert (k = 0 \/ k = 1 \/ k = 2 \/ k = 3 \/ k = 4 \/ k = 5 \/ k = 6 \/ k = 7 \/ k = 8 \/ k = 9
      \/ k = 10 \/ k = 11) as Hc by lia.
    repeat destruct Hc as [->|Hc]; try subst k; cbn [Z.eqb Pos.eqb];
      by rewrite ?andb_true_r, ?andb_false_r, ?orb_false_r, ?orb_false_l.
  - repeat match goal with |- context [?a =? k] => rewrite (proj2 (Z.eqb_neq a k)) by lia end.
    by rewrite !andb_false_r.
Qed.

(** The mode as it is stored. *)
Definition stored_mode (h : new_cpio_header) (flags : Z) : Z :=
  if bit flags TARU_TAR_GNU_OLDGNUTAR then c_mode h else Z.land (c_mode h) 4095.

Section Steps.
Context `{Malloc} (nobody : Z * bool).
Context (h : new_cpio_header) (flags : Z) (user group : bytes) (F : tar_file h flags user group).

Lemma land_4095_small v : 0 <= v -> 0 <= Z.land v 4095 < 4096.
Proof.
  intros Hv. change 4095 with (Z.ones 12). rewrite Z.land_ones by lia.
  apply Z.mod_pos_bound. lia.
Qed.

Lemma stored_mode_small : 0 <= stored_mode h flags < 8 ^ 7.
Proof.
  pose proof (tf_mode _ _ _ _ F) as Hm. unfold stored_mode. destruct (bit _ _); [lia|].
  pose proof (land_4095_small (c_mode h)). lia.
Qed.

Lemma mode_to_chars_field l :
  hdr_blocks l ->
  mode_to_chars (c_mode h mod 2 ^ 32) (concat l) THB_BO_mode 8
    (if bit flags TARU_TAR_GNU_OLDGNUTAR then OLDGNU_FORMAT else POSIX_FORMAT) (tcode flags)
  = Some (concat (<[1%nat := num 7 (stored_mode h flags) (tchar flags)]> l)).
Proof.
  intros E. pose proof (tf_mode _ _ _ _ F) as Hm. rewrite Z.mod_small by lia. unfold mode_to_chars.
  rewrite mode_bits_land by lia.
  assert ((if forallb (fun '(s, t) => s =? t) mode_map
              && negb (is_posix (if bit flags TARU_TAR_GNU_OLDGNUTAR then OLDGNU_FORMAT else POSIX_FORMAT))
              && negb (is_gnu (if bit flags TARU_TAR_GNU_OLDGNUTAR then OLDGNU_FORMAT else POSIX_FORMAT))
           then c_mode h else Z.land (c_mode h) 4095) = stored_mode h flags) as ->.
  { unfold stored_mode. by destruct (bit flags TARU_TAR_GNU_OLDGNUTAR). }
  change THB_BO_mode with (field_offset 1). change 8 with (Z.of_nat 8) at 1.
  rewrite (to_chars_field l 1 7), tchar_code; [done|done|done|lia|apply stored_mode_small].
Qed.

(** Fields that are written keep the layout. *)
Ltac blocks :=
  repeat first [assumption | apply hdr_blocks_set];
  first [done | by rewrite length_num | by rewrite padded_length by (unfold zlen in *; cbn in *; lia) | idtac].

Lemma set_numbers_blocks l :
  hdr_blocks l ->
  exists v, length v = 2%nat /\
  set_numbers nobody (concat l) h flags (tcode flags)
  = Some (concat (<[10%nat := v]> (<[5%nat := num 11 (c_mtime h) (tchar flags)]>
      (<[4%nat := num 11 (c_filesize h) (tchar flags)]> (<[3%nat := num 7 (c_gid h) (tchar flags)]>
      (<[2%nat := num 7 (c_uid h) (tchar flags)]> (<[1%nat := num 7 (stored_mode h flags) (tchar flags)]> l))))))).
Proof.
  intros E. destruct F as [_ _ _ _ _ _ _ [Hu Hg] Hs Ht _ _ _ _]. unfold set_numbers.
  rewrite mode_to_chars_field by done. obind. set (l1 := <[1%nat := _]> l).
  assert (hdr_blocks l1) as E1 by blocks.
  unfold to_id, uid_to_chars, gid_to_chars, off_to_chars, time_to_chars. rewrite !Z.mod_small by lia.
  rewrite !to_long_id by lia. rewrite !to_size_id by lia.
  destruct (Z.ltb_spec (c_filesize h) 0); [lia|]. destruct (Z.ltb_spec (c_mtime h) 0); [lia|].
  rewrite (to_chars_field l1 2 7), tchar_code by (done || lia). obind. set (l2 := <[2%nat := _]> l1).
  assert (hdr_blocks l2) as E2 by blocks.
  rewrite (to_chars_field l2 3 7), tchar_code by (done || lia). obind. set (l3 := <[3%nat := _]> l2).
  assert (hdr_blocks l3) as E3 by blocks.
  rewrite (to_chars_field l3 4 11), tchar_code by (done || lia). obind. set (l4 := <[4%nat := _]> l3).
  assert (hdr_blocks l4) as E4 by blocks.
  rewrite (to_chars_field l4 5 11), tchar_code by (done || lia). obind. set (l5 := <[5%nat := _]> l4).
  assert (hdr_blocks l5) as E5 by blocks.
  destruct (block_exists l5 10 2 E5 eq_refl) as (b & Hb & Lb).
  destruct b as [|x [|y []]]; try done.
  change THB_BO_version with (field_offset 10).
  rewrite (write_prefix l5 10 [x; y]) by (done || cbn; lia). obind. cbn [length drop app].
  rewrite (write_block _ 10 ["0"%char; y] ["0"%char; "0"%char]); [|by blocks| |lia|done].
  - exists ["0"%char; "0"%char]. split; [done|]. by rewrite list_insert_insert_eq.
  - apply list_lookup_insert_eq. by apply lookup_lt_Some in Hb.
Qed.

(** *** The type flag *)

Lemma size_field l v :
  hdr_blocks l -> 0 <= v < 8 ^ 11 ->
  size_to_chars v (concat l) THB_BO_size 12 POSIX_FORMAT (tcode flags)
  = Some (concat (<[4%nat := num 11 v (tchar flags)]> l)).
Proof.
  intros E Hv. unfold size_to_chars. change THB_BO_size with (field_offset 4).
  by rewrite (to_chars_field l 4 11), tchar_code by (done || lia).
Qed.

Lemma write_type l c : hdr_blocks l ->
  mem_write (concat l) THB_BO_typeflag [c] = Some (concat (<[7%nat := [c]]> l)).
Proof. intros E. by apply (write_field l 7). Qed.

Lemma set_typeflag_blocks l :
  hdr_blocks l ->
  set_typeflag (concat l) h (tcode flags)
  = Some (inl (concat (if has_link h
      then <[8%nat := padded 100 (c_tar_linkname h)]> (<[7%nat := [tar_type h]]> (<[4%nat := num 11 0 (tchar flags)]> l))
      else <[7%nat := [tar_type h]]> l))).
Proof.
  intros E. pose proof (tf_type _ _ _ _ F) as Ht. destruct (tf_link _ _ _ _ F) as [_ Hl].
  pose proof (tf_symlink _ _ _ _ F) as Hsym. unfold set_typeflag, has_link, tar_type, has_link in *.
  fold (file_type h). set (t := file_type h) in *. clearbody t.
  assert (forall c, (m ← size_to_chars 0 (concat l) THB_BO_size 12 POSIX_FORMAT (tcode flags);
            m ← mem_write m THB_BO_typeflag [c];
            m ← mem_write m THB_BO_linkname (strncpy_bytes (c_tar_linkname h) (Z.to_nat TARLINKNAMESIZE)); Some (inl m))
          = Some (inl (concat (<[8%nat := padded 100 (c_tar_linkname h)]> (<[7%nat := [c]]> (<[4%nat := num 11 0 (tchar flags)]> l))))
              : bytes + Z)) as Hlink.
  { intros c. rewrite size_field by done. obind. set (l1 := <[4%nat := _]> l). assert (hdr_blocks l1) as E1 by blocks.
    rewrite write_type by done. obind. set (l2 := <[7%nat := _]> l1). assert (hdr_blocks l2) as E2 by blocks.
    change THB_BO_linkname with (field_offset 8). change (Z.to_nat TARLINKNAMESIZE) with 100%nat.
    fold (padded 100 (c_tar_linkname h)).
    rewrite (write_field l2 8) by (done || by rewrite padded_length by (unfold zlen in Hl; lia)). done. }
  assert (forall c, (m ← mem_write (concat l) THB_BO_typeflag [c]; Some (inl m))
          = Some (inl (concat (<[7%nat := [c]]> l)) : bytes + Z)) as Hset.
  { intros c. by rewrite write_type. }
  assert ((zlen (c_tar_linkname h) >? TARLINKNAMESIZE) = false) as Hgt.
  { rewrite Z.gtb_ltb. apply Z.ltb_ge. exact Hl. }
  rewrite !Hgt.
  repeat (apply elem_of_cons in Ht as [->|Ht]); [..|by apply not_elem_of_nil in Ht];
    cbn [Z.eqb Pos.eqb CP_IFREG CP_IFDIR CP_IFCHR CP_IFBLK CP_IFSOCK CP_IFIFO CP_IFLNK andb orb].
  - rewrite orb_false_r. destruct (negb (zlen (c_tar_linkname h) =? 0)); [apply Hlink|apply Hset].
  - apply Hset.
  - apply Hset.
  - apply Hset.
  - apply Hset.
  - apply Hset.
  - rewrite Hsym by done. apply Hlink.
Qed.

(** *** Magic, owner and device numbers *)

Definition magic_field : bytes :=
  if negb (bit flags TARU_TAR_GNU_GNUTAR) && negb (bit flags TARU_TAR_GNU_OLDGNUTAR)
  then padded 6 (L "ustar") else L "ustar ".
Definition version_field : bytes :=
  if negb (bit flags TARU_TAR_GNU_GNUTAR) && negb (bit flags TARU_TAR_GNU_OLDGNUTAR) then L "00" else padded 2 (L " ").

Lemma set_magic_blocks l : hdr_blocks l ->
  set_magic (concat l) flags = Some (concat (<[10%nat := version_field]> (<[9%nat := magic_field]> l))).
Proof.
  intros E. unfold set_magic, version_field, magic_field. change (THB_BO_magic + 6) with (field_offset 10).
  change THB_BO_magic with (field_offset 9). destruct (_ && _); (rewrite (write_field l 9) by done); obind;
    (rewrite (write_field _ 10) by (done || by blocks)); done.
Qed.

Lemma set_user_blocks `{SysDB} l u_ent c : hdr_blocks l ->
  set_user nobody (concat l) u_ent c h (Some user) flags (tcode flags)
  = Some (c, u_ent, concat (<[2%nat := num 7 (c_uid h) (tchar flags)]> (<[11%nat := padded 32 user]> l))).
Proof.
  intros E. destruct (tf_policy _ _ _ _ F) as [Hu _]. destruct (tf_user _ _ _ _ F) as [_ Hl].
  destruct (tf_ids _ _ _ _ F) as [Hi _]. unfold set_user, set_owner. rewrite Hu. cbn [negb andb orb].
  rewrite andb_false_r. cbn [TARU_C_BY_UNONE TARU_C_BY_USYS TARU_C_BY_UNAME TARU_C_BY_UID Z.eqb orb]. obind.
  change THB_BO_uname with (field_offset 11). change SNAME_LEN with (Z.of_nat 32).
  rewrite (strncpy_field l 11 user 31) by (done || (unfold zlen in Hl; lia)). obind.
  unfold to_id, uid_to_chars. rewrite Z.mod_small by lia. change THB_BO_uid with (field_offset 2).
  rewrite (to_chars_field _ 2 7), tchar_code by (done || lia || by blocks). obind. by destruct c.
Qed.

Lemma set_group_blocks `{SysDB} l u_ent c : hdr_blocks l ->
  set_group nobody (concat l) u_ent c h (Some group) flags (tcode flags)
  = Some (c, u_ent, concat (<[3%nat := num 7 (c_gid h) (tchar flags)]> (<[12%nat := padded 32 group]> l))).
Proof.
  intros E. destruct (tf_policy _ _ _ _ F) as [_ Hu]. destruct (tf_group _ _ _ _ F) as [_ Hl].
  destruct (tf_ids _ _ _ _ F) as [_ Hi]. unfold set_group, set_owner. rewrite Hu. cbn [negb andb orb].
  rewrite andb_false_r. cbn [TARU_C_BY_UNONE TARU_C_BY_USYS TARU_C_BY_UNAME TARU_C_BY_UID Z.eqb orb]. obind.
  change THB_BO_gname with (field_offset 12). change SNAME_LEN with (Z.of_nat 32).
  rewrite (strncpy_field l 12 group 31) by (done || (unfold zlen in Hl; lia)). obind.
  unfold to_id, gid_to_chars. rewrite Z.mod_small by lia. change THB_BO_gid with (field_offset 3).
  rewrite (to_chars_field _ 3 7), tchar_code by (done || lia || by blocks). obind. by destruct c.
Qed.

Definition owner_field (name : bytes) : bytes := if bit flags TARU_TAR_NUMERIC_UIDS then [] else name.

Lemma memset_name l i : hdr_blocks l -> field_sizes !! i = Some 32%nat ->
  memset (concat l) (field_offset i) NUL SNAME_LEN = Some (concat (<[i := padded 32 []]> l)).
Proof. intros E Hi. unfold memset. cbn [Z.leb SNAME_LEN Z.compare]. by apply write_field. Qed.

Lemma numeric_blocks l : hdr_blocks l ->
  l !! 11%nat = Some (padded 32 user) -> l !! 12%nat = Some (padded 32 group) ->
  (if bit flags TARU_TAR_NUMERIC_UIDS
   then m ← memset (concat l) THB_BO_uname NUL SNAME_LEN; memset m THB_BO_gname NUL SNAME_LEN
   else Some (concat l))
  = Some (concat (<[12%nat := padded 32 (owner_field group)]> (<[11%nat := padded 32 (owner_field user)]> l))).
Proof.
  intros E H1 H2. unfold owner_field. destruct (bit flags TARU_TAR_NUMERIC_UIDS).
  - change THB_BO_uname with (field_offset 11). change THB_BO_gname with (field_offset 12).
    rewrite (memset_name l 11) by done. obind. by rewrite memset_name by (done || by blocks).
  - rewrite (list_insert_id l 11) by done. by rewrite list_insert_id.
Qed.

(** A block with a number in it. *)
Definition holds_number (v : Z) (b : bytes) : Prop := exists n t k, number_field n v t /\ b = oct n v ++ t :: k.

Lemma num_holds n v t : number_field n v t -> holds_number v (num n v t).
Proof. intros Hf. by exists n, t, []. Qed.

Lemma tchar_number n v : 0 <= v < 8 ^ Z.of_nat n -> (0 < n <= 21)%nat -> number_field n v (tchar flags).
Proof.
  intros Hv Hn. split; [|split; [done|lia]]. unfold tchar. destruct (bit _ _); [right|by left]. split; [done|lia].
Qed.

Definition dev_number (v : Z) : Z := if is_device h then v else 0.

Lemma is_device_type :
  (ceq (tar_type h) CHRTYPE || ceq (tar_type h) BLKTYPE) = is_device h.
Proof.
  pose proof (tf_type _ _ _ _ F) as Ht. unfold tar_type, is_device, has_link. set (t := file_type h) in *. clearbody t.
  repeat (apply elem_of_cons in Ht as [->|Ht]); [..|by apply not_elem_of_nil in Ht]; try done.
  cbn [Z.eqb Pos.eqb CP_IFREG]. match goal with |- context [if ?c then LNKTYPE else _] => by destruct c end.
Qed.

Lemma set_devices_blocks l : hdr_blocks l ->
  l !! 7%nat = Some [tar_type h] -> l !! 13%nat = Some (replicate 8 NUL) -> l !! 14%nat = Some (replicate 8 NUL) ->
  exists dj dn, length dj = 8%nat /\ length dn = 8%nat
    /\ holds_number (dev_number (c_rdev_maj h)) dj /\ holds_number (dev_number (c_rdev_min h)) dn
    /\ set_devices (concat l) h flags (tcode flags) = Some (concat (<[14%nat := dn]> (<[13%nat := dj]> l))).
Proof.
  intros E H7 H13 H14. pose proof (tf_dev _ _ _ _ F) as Hd. unfold set_devices.
  assert (mem_read (concat l) THB_BO_typeflag = Some (tar_type h)) as ->.
  { unfold mem_read. change (0 <=? THB_BO_typeflag) with true. cbv iota.
    pose proof (block_stored l 7 _ E H7 0%nat ltac:(cbn; lia)) as Hr. by rewrite Nat.add_0_r in Hr. }
  obind. rewrite is_device_type. unfold dev_number.
  assert (forall n v w t, length (num n v t) = 8%nat -> length (num n w t) = 8%nat ->
    (m ← mem_write (concat l) THB_BO_devmajor (num n v t); mem_write m THB_BO_devminor (num n w t))
    = Some (concat (<[14%nat := num n w t]> (<[13%nat := num n v t]> l)))) as Hw.
  { intros n v w t L1 L2. change THB_BO_devmajor with (field_offset 13). change THB_BO_devminor with (field_offset 14).
    rewrite (write_field l 13) by (done || by rewrite L1). obind.
    assert (hdr_blocks (<[13%nat := num n v t]> l)) by (apply hdr_blocks_set; [done|by rewrite L1]).
    by rewrite (write_field _ 14) by (done || by rewrite L2). }
  assert (forall t, t = NUL \/ t = " "%char -> exists dj dn, length dj = 8%nat /\ length dn = 8%nat
     /\ holds_number 0 dj /\ holds_number 0 dn
     /\ (m ← mem_write (concat l) THB_BO_devmajor (num 7 0 t); mem_write m THB_BO_devminor (num 7 0 t))
        = Some (concat (<[14%nat := dn]> (<[13%nat := dj]> l)))) as Hzero.
  { intros t Ht. exists (num 7 0 t), (num 7 0 t). rewrite Hw by by rewrite length_num. rewrite !length_num.
    assert (holds_number 0 (num 7 0 t)).
    { apply num_holds. split; [|split; [done|lia]]. destruct Ht as [->| ->]; [by left|by right]. }
    done. }
  destruct (is_device h) eqn:Edev.
  - specialize (Hd eq_refl) as [D1 D2]. exists (num 7 (c_rdev_maj h) (tchar flags)), (num 7 (c_rdev_min h) (tchar flags)).
    rewrite !length_num. split; [done|]. split; [done|].
    split; [apply num_holds, tchar_number; lia|]. split; [apply num_holds, tchar_number; lia|].
    rewrite !to_int_id by (unfold INT_MAX; lia). unfold major_to_chars, minor_to_chars.
    destruct (Z.ltb_spec (c_rdev_maj h) 0); [lia|]. destruct (Z.ltb_spec (c_rdev_min h) 0); [lia|].
    rewrite !to_size_id by lia. change THB_BO_devmajor with (field_offset 13). change THB_BO_devminor with (field_offset 14).
    rewrite (to_chars_field l 13 7), tchar_code by (done || lia). obind.
    by rewrite (to_chars_field _ 14 7), tchar_code by (done || lia || by blocks).
  - destruct (bit flags TARU_TAR_BE_LIKE_PAX); [by apply (Hzero NUL); left|].
    destruct (bit flags TARU_TAR_BE_LIKE_STAR); [by apply (Hzero " "%char); right|].
    destruct (_ || _); [|by apply (Hzero NUL); left].
    exists (replicate 8 NUL), (replicate 8 NUL). split; [done|]. split; [done|].
    assert (holds_number 0 (replicate 8 NUL)) by (exists 0%nat, NUL, (replicate 7 NUL); split; [split; [by left|split; [done|lia]]|done]).
    split; [done|]. split; [done|]. by rewrite (list_insert_id l 13), list_insert_id.
Qed.

(** *** The sum *)

Lemma checksum_skips l x : hdr_blocks l -> length x = 8%nat ->
  taru_tar_checksum (concat (<[6%nat := x]> l)) = taru_tar_checksum (concat l).
Proof.
  intros E Hx. apply checksum_field.
  destruct (write_only_field (concat l) 148 x) as (m' & Em & Hf);
    [lia|rewrite hdr_blocks_zlen by done; unfold zlen; lia|].
  change 148 with (field_offset 6) in Em. rewrite (write_field l 6) in Em by (done || by rewrite Hx).
  injection Em as ->. unfold zlen in Hf. rewrite Hx in Hf. exact Hf.
Qed.

Lemma set_sum_blocks l : hdr_blocks l ->
  exists s ck, length ck = 8%nat /\ holds_number s ck
    /\ set_sum (concat l) flags (tcode flags) = Some (concat (<[6%nat := ck]> l))
    /\ taru_tar_checksum (concat (<[6%nat := ck]> l)) = Some s.
Proof.
  intros E. unfold set_sum. change THB_BO_chksum with (field_offset 6) at 1.
  rewrite (write_field l 6) by done. obind. set (l1 := <[6%nat := CHKBLANKS]> l).
  assert (hdr_blocks l1) as E1 by blocks.
  destruct (checksum_total (concat l1)) as (s & Hs & Hb); [by rewrite hdr_blocks_zlen|]. rewrite Hs. obind.
  assert (l1 !! 6%nat = Some CHKBLANKS) as H6.
  { apply list_lookup_insert_eq. apply (f_equal length) in E. rewrite length_map in E. rewrite E. vm_compute. lia. }
  rewrite (sum_field l1 CHKBLANKS) by done. rewrite tchar_code.
  eexists s, _. split; [|split; [|split; [unfold l1; by rewrite list_insert_insert_eq|]]].
  - by destruct (_ || _).
  - destruct (_ || _); [apply num_holds, tchar_number|eexists 6%nat, (tchar flags), _; split; [apply tchar_number|
      unfold num; rewrite <- app_assoc; reflexivity]]; change (8 ^ Z.of_nat 7) with 2097152;
      change (8 ^ 6) with 262144 in Hb; change (8 ^ Z.of_nat 6) with 262144; lia.
  - rewrite checksum_skips; [|done|by destruct (_ || _)]. rewrite <- Hs. symmetry. by apply checksum_skips.
Qed.

(** ** The whole header *)

Definition written_link : bytes := if has_link h then c_tar_linkname h else [].
Definition written_size : Z := if has_link h then 0 else c_filesize h.

Record tar_image (l : list bytes) : Prop := {
  ti_blocks : hdr_blocks l;
  ti_name : exists p n, name_parts (stored_name h flags) p n
              /\ l !! 0%nat = Some (padded 100 n) /\ l !! 15%nat = Some (padded 155 p);
  ti_mode : l !! 1%nat = Some (num 7 (stored_mode h flags) (tchar flags));
  ti_uid : l !! 2%nat = Some (num 7 (c_uid h) (tchar flags));
  ti_gid : l !! 3%nat = Some (num 7 (c_gid h) (tchar flags));
  ti_size : l !! 4%nat = Some (num 11 written_size (tchar flags));
  ti_mtime : l !! 5%nat = Some (num 11 (c_mtime h) (tchar flags));
  ti_sum : exists s ck, l !! 6%nat = Some ck /\ holds_number s ck /\ taru_tar_checksum (concat l) = Some s;
  ti_type : l !! 7%nat = Some [tar_type h];
  ti_link : l !! 8%nat = Some (padded 100 written_link);
  ti_magic : l !! 9%nat = Some magic_field;
  ti_uname : l !! 11%nat = Some (padded 32 (owner_field user));
  ti_gname : l !! 12%nat = Some (padded 32 (owner_field group));
  ti_devs : exists dj dn, l !! 13%nat = Some dj /\ l !! 14%nat = Some dn
              /\ holds_number (dev_number (c_rdev_maj h)) dj /\ holds_number (dev_number (c_rdev_min h)) dn;
}.

Lemma name_short : zlen (c_name h) <= 256.
Proof.
  assert (length (c_name h) <= length (stored_name h flags))%nat as Hle.
  { unfold stored_name. destruct (_ && _); [rewrite length_app|]; lia. }
  destruct (tf_fits _ _ _ _ F) as [Hf|(p & n & Hf & _ & H1 & H2)]; [unfold zlen; lia|].
  apply (f_equal length) in Hf. rewrite length_app in Hf. cbn in Hf. unfold zlen. lia.
Qed.

Lemma directory_slash_spec s :
  text s (c_name h) -> exists s', directory_slash s (c_mode h) flags = Some s' /\ text s' (stored_name h flags).
Proof.
  intros T. destruct (tf_name _ _ _ _ F) as [Hn Hne]. unfold directory_slash, stored_name. fold (file_type h).
  destruct (file_type h =? CP_IFDIR); [|by exists s]. rewrite (holds_strlen s (c_name h)) by apply T. obind.
  pose proof name_short as Hsmall.
  destruct (last (c_name h)) as [c|] eqn:El; [|by apply last_None in El].
  assert (mem_read (str_ s) (zlen (c_name h) - 1) = Some c) as ->.
  { rewrite last_lookup in El. pose proof (lookup_lt_Some _ _ _ El) as Hlt.
    rewrite mem_read_in by (unfold zlen; lia). destruct (text_holds s _ T) as (_ & Hs & _).
    replace (Z.to_nat (zlen (c_name h) - 1)) with (pred (length (c_name h))) by (unfold zlen; lia).
    specialize (Hs (pred (length (c_name h))) Hlt). cbn in Hs. by rewrite Hs. }
  obind. destruct (is_slash c); [by exists s|]. cbn [negb andb].
  destruct (_ && _); [by exists s|]. cbn [negb].
  destruct (strob_strcat_spec s (c_name h) (L "/") T) as (s' & -> & T' & _);
    [by apply no_nul_compute|change (zlen (L "/")) with 1; unfold SMALL; lia|]. by exists s'.
Qed.

Lemma written_blocks l1 :
  hdr_blocks l1 -> l1 !! 4%nat = Some (num 11 (c_filesize h) (tchar flags)) -> l1 !! 8%nat = Some (replicate 100 NUL) ->
  (if has_link h
   then <[8%nat := padded 100 (c_tar_linkname h)]> (<[7%nat := [tar_type h]]> (<[4%nat := num 11 0 (tchar flags)]> l1))
   else <[7%nat := [tar_type h]]> l1)
  = <[8%nat := padded 100 written_link]> (<[7%nat := [tar_type h]]> (<[4%nat := num 11 written_size (tchar flags)]> l1)).
Proof.
  intros E H4 H8. unfold written_link, written_size. destruct (has_link h); [done|].
  rewrite (list_insert_id l1 4) by done. rewrite (list_insert_id _ 8); [done|].
  rewrite list_lookup_insert_ne by done. exact H8.
Qed.

Lemma make_tar_header_blocks `{SysDB} taru c :
  wf (u_name_bufferM taru) ->
  exists taru' l, make_tar_header nobody taru c h (Some user) (Some group) flags = Some (taru', c, inl (concat l))
    /\ tar_image l /\ headerM taru' = headerM taru /\ do_record_headerM taru' = do_record_headerM taru.
Proof.
  intros W. destruct (tf_name _ _ _ _ F) as [Hn Hne]. pose proof name_short as Hshort. unfold make_tar_header.
  fold (tcode flags). rewrite zero_image.
  destruct (strob_strcpy_spec (u_name_bufferM taru) (c_name h) W Hn) as (s1 & -> & T1 & _); [unfold SMALL; lia|]. obind.
  rewrite (holds_strlen s1 (c_name h)) by apply T1. obind.
  destruct (Z.eqb_spec (zlen (c_name h)) 0) as [Hz|_]; [by destruct (c_name h)|].
  destruct (directory_slash_spec s1 T1) as (s2 & -> & T2). obind.
  rewrite (proj2 (str_at_0_holds (str_ s2) (stored_name h flags))) by apply T2. obind.
  destruct (set_new_name_blocks (stored_name h flags) (taru_tarheaderflagsM taru)) as (p & n & ck0 & Hp & L0 & E0);
    [apply (tf_escape _ _ _ _ F)|apply (tf_fits _ _ _ _ F)|].
  change (taru_tarheaderflagsM (put_u_name s2 (put_u_name s1 taru))) with (taru_tarheaderflagsM taru).
  rewrite E0. obind. clear E0. change (negb (0 =? 0)) with false. cbv iota.
  set (l0 := <[6%nat := ck0]> _).
  assert (hdr_blocks l0) as B0.
  { destruct (name_parts_short _ _ _ Hp). apply hdr_blocks_set; [|by rewrite L0].
    apply hdr_blocks_set; [apply hdr_blocks_set; [done|]|]; by rewrite padded_length. }
  destruct (set_numbers_blocks l0 B0) as (v & Lv & ->). obind. set (l1 := <[10%nat := v]> _).
  assert (hdr_blocks l1) as B1 by (unfold l1; apply hdr_blocks_set; [|by rewrite Lv]; blocks).
  rewrite set_typeflag_blocks by done. obind. rewrite (written_blocks l1) by done. set (l2 := <[8%nat := _]> _).
  assert (hdr_blocks l2) as B2.
  { unfold l2. destruct (tf_link _ _ _ _ F). unfold written_link. blocks. destruct (has_link h); by rewrite padded_length by (unfold zlen in *; cbn; lia). }
  rewrite set_magic_blocks by done. obind. set (l3 := <[10%nat := _]> _).
  assert (hdr_blocks l3) as B3 by (unfold l3, version_field, magic_field; blocks; by destruct (_ && _)).
  rewrite set_user_blocks by done. obind. set (l4 := <[2%nat := _]> _).
  assert (hdr_blocks l4) as B4 by (destruct (tf_user _ _ _ _ F); unfold l4; blocks).
  rewrite set_group_blocks by done. obind. set (l5 := <[3%nat := _]> _).
  assert (hdr_blocks l5) as B5 by (destruct (tf_group _ _ _ _ F); unfold l5; blocks).
  rewrite numeric_blocks by done. obind. set (l6 := <[12%nat := _]> _).
  assert (hdr_blocks l6) as B6.
  { destruct (tf_group _ _ _ _ F), (tf_user _ _ _ _ F). unfold l6, owner_field. blocks;
      destruct (bit _ _); by rewrite padded_length by (unfold zlen in *; cbn; lia). }
  destruct (set_devices_blocks l6 B6) as (dj & dn & Lj & Ln & Nj & Nn & ->); [done|done|done|]. obind.
  set (l7 := <[14%nat := dn]> _).
  assert (hdr_blocks l7) as B7 by (unfold l7; apply hdr_blocks_set; [apply hdr_blocks_set; [done|]|]; by rewrite ?Lj, ?Ln).
  destruct (set_sum_blocks l7 B7) as (s & ck & Lk & Nk & -> & Hs). obind.
  eexists _, (<[6%nat := ck]> l7). split; [done|]. split; [|done].
  split; try done.
  - apply hdr_blocks_set; [done|by rewrite Lk].
  - by exists p, n.
  - by exists s, ck.
  - by exists dj, dn.
Qed.
End Steps.
