(* ===== verification/TarReadSpec.v ===== *)
(** * Reading back a tar header

    taru_read_in_tar_header2 on what taru_write_out_tar_header2 has written. *)

From S2P Require Import Prelude CString Strob StrobSpec Stored Pathname Escape FileMode TarNumbers TarNumbersSpec TarHeader TarHeaderSpec SysDb FileHdr PaxHeader TarWrite TarImage TarWriteSpec TarRead.

(** ** Fields in memory *)

(** The object [m] starts with the header [l] and has a NUL at the end. *)
Record memory (m : bytes) (l : list bytes) : Prop := {
  mem_starts : starts m l;
  mem_end : exists e, (512 <= e)%nat /\ m !! e = Some NUL;
}.

Lemma memory_text m l i b : memory m l -> l !! i = Some b ->
  exists r, str_at m (field_offset i) = Some (cstr (b ++ r)).
Proof.
  intros [Hs (e & He & Hm)] Hi. pose proof (starts_stored m l i b Hs Hi) as Hst.
  pose proof (field_in_image l i b (proj1 Hs) Hi) as Hin. pose proof (field_offset_nonneg i).
  pose proof (lookup_lt_Some _ _ _ Hm). pose proof (zlen_nonneg b).
  rewrite (str_at_terminated m (field_offset i) e) by (done || lia).
  eexists. rewrite (stored_drop m (field_offset i) b) by (done || (unfold zlen in *; lia)). done.
Qed.

(** A padded text. *)
Lemma cstr_padded n t r : (length t <= n)%nat -> no_nul t -> field_text (Z.of_nat n) (cstr (padded n t ++ r)) = t.
Proof.
  intros Hl Ht. unfold field_text. rewrite Nat2Z.id, padded_fits by done.
  destruct (n - length t)%nat as [|k] eqn:Ek.
  - cbn [replicate]. rewrite app_nil_r, cstr_app_no_nul by done. rewrite take_app_le by lia.
    rewrite take_ge; [done|lia].
  - cbn [replicate]. rewrite <- app_assoc. cbn [app]. rewrite cstr_app_nul by done. apply take_ge. lia.
Qed.

Lemma cstr_padded_short n t r : (length t < n)%nat -> no_nul t -> cstr (padded n t ++ r) = t.
Proof.
  intros Hl Ht. rewrite padded_fits by lia. destruct (n - length t)%nat as [|k] eqn:Ek; [lia|].
  cbn [replicate]. rewrite <- app_assoc. cbn [app]. by rewrite cstr_app_nul.
Qed.

Lemma memory_number m l i b v : memory m l -> l !! i = Some b -> holds_number v b ->
  field_number m (field_offset i) = Some v /\ field_size m (field_offset i) = Some v.
Proof.
  intros Hm Hi (n & t & k & Hf & ->). destruct (memory_text m l i _ Hm Hi) as (r & E).
  unfold field_number, field_size. rewrite E. obind. rewrite <- app_assoc. cbn [app].
  by destruct (otoul_number n v t (k ++ r) Hf) as [-> ->].
Qed.

Lemma memory_byte m l i c : memory m l -> l !! i = Some [c] -> mem_read m (field_offset i) = Some c.
Proof.
  intros [Hs _] Hi. rewrite mem_read_in by apply field_offset_nonneg.
  pose proof (starts_stored m l i _ Hs Hi 0%nat ltac:(cbn; lia)) as Hr. by rewrite Nat.add_0_r in Hr.
Qed.

Lemma memory_checksum m l s : memory m l -> taru_tar_checksum (concat l) = Some s -> taru_tar_checksum m = Some s.
Proof.
  intros [Hs _] E. rewrite <- E. unfold taru_tar_checksum.
  rewrite (sum_bytes_ext m (concat l) _ 0), (sum_bytes_ext m (concat l) _ (THB_BO_chksum + 8)); [done|done| |done|];
    unfold TARRECORDSIZE, THB_BO_chksum; intros i Hi; (apply starts_lookup; [done|lia]).
Qed.

(** ** The fields of the file header *)

(** The mode of a socket is the one of a pipe. *)
Definition read_mode (h : new_cpio_header) : Z :=
  if file_type h =? CP_IFSOCK then Z.lor (Z.land (c_mode h) 4095) CP_IFIFO else c_mode h.

Definition read_size (h : new_cpio_header) : Z :=
  if (ceq (tar_type h) REGTYPE || ceq (tar_type h) DIRTYPE)%bool then c_filesize h else 0.

Definition is_hard_link (h : new_cpio_header) : bool := ceq (tar_type h) LNKTYPE.

(** What a header says about the file. *)
Definition tar_fields (h : new_cpio_header) :=
  (c_name h, c_mode h, (c_uid h, c_gid h), c_filesize h, c_mtime h, c_tar_linkname h, (c_username h, c_groupname h),
   (c_rdev_maj h, c_rdev_min h), c_nlink h, c_is_tar_lnktype h).

(** What is read for the file [h] with the names of its owners. *)
Definition read_fields (h : new_cpio_header) (flags : Z) (user group : bytes) :=
  (take 255 (stored_name h flags), read_mode h, (c_uid h, c_gid h), read_size h, c_mtime h, written_link h,
   (owner_field flags user, owner_field flags group),
   (dev_number h (c_rdev_maj h), dev_number h (c_rdev_min h)), (if is_hard_link h then 2 else 1),
   (if is_hard_link h then 1 else 0)).

Section Fields.
Context `{Malloc} `{SysDB}.
Context (h : new_cpio_header) (flags : Z) (user group : bytes) (F : tar_file h flags user group).
Context (m : bytes) (l : list bytes) (M : memory m l) (I : tar_image h flags user group l).

Lemma stored_name_no_nul : no_nul (stored_name h flags).
Proof.
  destruct (tf_name _ _ _ _ F) as [Hn _]. unfold stored_name. destruct (_ && _); [|done].
  apply no_nul_app. split; [done|by apply no_nul_compute].
Qed.

Lemma read_name : taru_dup_tar_name m = Some (take 255 (stored_name h flags)).
Proof.
  destruct (ti_name _ _ _ _ _ I) as (p & n & Hp & Hb0 & Hb15). destruct (name_parts_short _ _ _ Hp) as [Ln Lp].
  pose proof stored_name_no_nul as Hnul.
  destruct (memory_text m l 0 _ M Hb0) as (r & E0). destruct (memory_text m l 15 _ M Hb15) as (r' & E15).
  pose proof (starts_length m l (mem_starts _ _ M)) as Hlen.
  unfold taru_dup_tar_name, THB_BO_magic. rewrite mem_at_in by (unfold zlen; lia). obind.
  change THB_BO_name with (field_offset 0). rewrite E0. obind.
  change THB_BO_prefix with (field_offset 15). change (Z.to_nat 257) with 257%nat. fold (magic m).
  assert (magic m = L "ustar") as Hmg.
  { pose proof (starts_stored m l 9 _ (mem_starts _ _ M) (ti_magic _ _ _ _ _ I)) as Hst.
    assert (forall i, (i < 6)%nat -> m !! (257 + i)%nat = magic_field flags !! i) as Hb.
    { intros i Hi. apply (Hst i). unfold magic_field. by destruct (_ && _). }
    apply list_eq. intros i. unfold magic. destruct (decide (i < 5)%nat); [|rewrite lookup_take_ge by lia; symmetry; apply lookup_ge_None; cbn; lia].
    rewrite lookup_take_lt, lookup_drop by done. rewrite Hb by lia. unfold magic_field.
    destruct (_ && _); do 5 (destruct i as [|i]; [done|]); lia. }
  rewrite (proj2 (magic_test (magic m) ltac:(by rewrite Hmg)) Hmg). cbn [negb]. rewrite E15. obind. f_equal.
  unfold stash_tar_filename. destruct Hp as [(-> & -> & Hl)|(E & Hne & _)].
  - rewrite (cstr_padded_short 155 []) by first [apply no_nul_nil | cbn; lia].
    change TARNAMESIZE with (Z.of_nat 100). rewrite cstr_padded by done. by rewrite take_ge by lia.
  - rewrite E in Hnul. apply no_nul_app in Hnul as [Np Nn]. apply no_nul_cons in Nn as [_ Nn].
    assert (field_text TARPREFIXSIZE (cstr (padded 155 p ++ r')) = p) as Hpre by by apply (cstr_padded 155).
    destruct (cstr (padded 155 p ++ r')) as [|c pre]; [by destruct p|]. rewrite Hpre.
    change TARNAMESIZE with (Z.of_nat 100) at 2. rewrite cstr_padded by done. rewrite E. done.
Qed.

Lemma read_owner i name : field_sizes !! i = Some 32%nat -> l !! i = Some (padded 32 (owner_field flags name)) ->
  no_nul name -> zlen name < 32 -> str_at m (field_offset i) = Some (owner_field flags name).
Proof.
  intros Hi Hl Hn Hz. destruct (memory_text m l i _ M Hl) as (r & ->).
  rewrite cstr_padded_short; [done| |]; unfold owner_field, zlen in *; destruct (bit _ _);
    first [apply no_nul_nil | done | cbn; lia].
Qed.

Lemma read_link g : exists s, str_at m THB_BO_linkname = Some s
  /\ ahsStaticSetTarLinkname g s = put_c_tar_linkname (written_link h) g.
Proof.
  destruct (memory_text m l 8 _ M (ti_link _ _ _ _ _ I)) as (r & E). exists (cstr (padded 100 (written_link h) ++ r)).
  split; [exact E|]. unfold ahsStaticSetTarLinkname. f_equal. destruct (tf_link _ _ _ _ F) as [Hn Hz].
  apply (cstr_padded 100); unfold written_link, zlen in *; destruct (has_link h); first [apply no_nul_nil | done | cbn; lia].
Qed.

(** The type bits that the flag stands for. *)
Definition type_bits : Z := if file_type h =? CP_IFSOCK then CP_IFIFO else file_type h.

Lemma type_cases :
  (tar_type h, has_link h, type_bits) ∈
    [(REGTYPE, false, CP_IFREG); (LNKTYPE, true, CP_IFREG); (DIRTYPE, false, CP_IFDIR); (CHRTYPE, false, CP_IFCHR);
     (BLKTYPE, false, CP_IFBLK); (FIFOTYPE, false, CP_IFIFO); (SYMTYPE, true, CP_IFLNK)].
Proof.
  pose proof (tf_type _ _ _ _ F) as Ht. unfold tar_type, has_link, type_bits. set (t := file_type h) in *. clearbody t.
  repeat (apply elem_of_cons in Ht as [->|Ht]); [..|by apply not_elem_of_nil in Ht];
    cbn [Z.eqb Pos.eqb CP_IFREG CP_IFDIR CP_IFCHR CP_IFBLK CP_IFSOCK CP_IFIFO CP_IFLNK andb orb];
    [rewrite orb_false_r; destruct (negb _)|..]; repeat (first [by left | right]).
Qed.

Lemma header_by_type_spec g :
  c_tar_linkname g = [] -> extHeader_usage_maskM g = 0 -> c_filesize g = written_size h ->
  header_by_type m (tar_type h) g
  = Some (put_c_filesize (read_size h) (put_c_tar_linkname (written_link h) (put_c_mode (Z.lor (c_mode g) type_bits) g))).
Proof.
  intros Hlk Hus Hsz. pose proof type_cases as Hc.
  assert (forall b, (s ← str_at m THB_BO_linkname; Some (ahsStaticSetTarLinkname (put_c_mode b g) s))
                    = Some (put_c_tar_linkname (written_link h) (put_c_mode b g))) as Hlink.
  { intros b. destruct (read_link (put_c_mode b g)) as (s & -> & Hs). obind. by rewrite Hs. }
  assert (forall b, bit (extHeader_usage_maskM (put_c_mode b g)) TARU_EHUM_LINKPATH = false) as Hbit.
  { intros b. change (extHeader_usage_maskM (put_c_mode b g)) with (extHeader_usage_maskM g). by rewrite Hus. }
  unfold read_size, written_size, written_link in *.
  repeat (apply elem_of_cons in Hc as [Hc|Hc]); [..|by apply not_elem_of_nil in Hc];
    injection Hc as Et El Eb; rewrite Et, El, Eb in *; unfold header_by_type;
    match goal with |- context [ceq ?c DIRTYPE] => cbn [ceq Ascii.eqb REGTYPE LNKTYPE DIRTYPE CHRTYPE BLKTYPE FIFOTYPE SYMTYPE AREGTYPE Bool.eqb orb] end.
  - destruct g. cbn in Hlk, Hsz. by subst.
  - by rewrite Hlink.
  - destruct g. cbn in Hlk, Hsz. by subst.
  - by rewrite Hlink.
  - by rewrite Hlink.
  - by rewrite Hlink.
  - by rewrite Hus, Hlink.
Qed.

Lemma tartype_defined name : exists r, tartype_bits (tar_type h) name = Some r.
Proof.
  pose proof type_cases as Hc.
  repeat (apply elem_of_cons in Hc as [Hc|Hc]); [..|by apply not_elem_of_nil in Hc]; injection Hc as -> _ _; by eexists.
Qed.

Lemma read_mode_bits : Z.lor (Z.land (stored_mode h flags) 4095) type_bits = read_mode h.
Proof.
  assert (Z.land (stored_mode h flags) 4095 = Z.land (c_mode h) 4095) as ->.
  { unfold stored_mode. destruct (bit _ _); [done|]. by rewrite <- Z.land_assoc. }
  unfold type_bits, read_mode. destruct (file_type h =? CP_IFSOCK); [done|]. unfold file_type.
  rewrite <- Z.land_lor_distr_r. change (Z.lor 4095 S_IFMT) with (Z.ones 16). rewrite Z.land_ones by lia.
  pose proof (tf_mode _ _ _ _ F). by rewrite Z.mod_small.
Qed.

Lemma written_size_small : 0 <= written_size h < 8 ^ Z.of_nat 11.
Proof. unfold written_size. destruct (has_link h); [done|]. exact (tf_size _ _ _ _ F). Qed.

(** The names come from the header when the ids are kept. *)
Lemma header_fields_spec g c :
  c_tar_linkname g = [] -> extHeader_usage_maskM g = 0 ->
  exists g', header_fields m g c true = Some (g', c) /\ tar_fields g' = read_fields h flags user group
    /\ extHeader_usage_maskM g' = 0.
Proof.
  intros Hlk Hus. unfold header_fields. rewrite Hus. change (bit 0 TARU_EHUM_PATH) with false. cbv iota.
  rewrite read_name. obind. change THB_BO_typeflag with (field_offset 7).
  rewrite (memory_byte m l 7 _ M (ti_type _ _ _ _ _ I)). obind.
  change THB_BO_mode with (field_offset 1). rewrite (proj1 (memory_number m l 1 _ _ M (ti_mode _ _ _ _ _ I)
    ltac:(apply num_holds, tchar_number; [apply (stored_mode_small h flags user group F)|lia]))). obind.
  change THB_BO_uname with (field_offset 11).
  destruct (tf_user _ _ _ _ F) as [Nu Zu], (tf_group _ _ _ _ F) as [Ng Zg], (tf_ids _ _ _ _ F) as [Iu Ig].
  rewrite (read_owner 11 user) by (done || apply (ti_uname _ _ _ _ _ I)). obind. unfold owner_id.
  change THB_BO_uid with (field_offset 2). rewrite (proj1 (memory_number m l 2 _ _ M (ti_uid _ _ _ _ _ I)
    ltac:(apply num_holds, tchar_number; [done|lia]))). obind.
  destruct (tartype_defined (Some (take 255 (stored_name h flags)))) as (x & ->). obind.
  change THB_BO_gname with (field_offset 12).
  rewrite (read_owner 12 group) by (done || apply (ti_gname _ _ _ _ _ I)). obind.
  change THB_BO_gid with (field_offset 3). rewrite (proj1 (memory_number m l 3 _ _ M (ti_gid _ _ _ _ _ I)
    ltac:(apply num_holds, tchar_number; [done|lia]))). obind.
  change THB_BO_size with (field_offset 4). rewrite (proj2 (memory_number m l 4 _ _ M (ti_size _ _ _ _ _ I)
    ltac:(apply num_holds, tchar_number; [apply written_size_small|lia]))). obind.
  change THB_BO_mtime with (field_offset 5). rewrite (proj1 (memory_number m l 5 _ _ M (ti_mtime _ _ _ _ _ I)
    ltac:(apply num_holds, tchar_number; [apply (tf_mtime _ _ _ _ F)|lia]))). obind.
  destruct (ti_devs _ _ _ _ _ I) as (dj & dn & Lj & Ln & Nj & Nn).
  change THB_BO_devmajor with (field_offset 13). change THB_BO_devminor with (field_offset 14).
  rewrite (proj1 (memory_number m l 13 _ _ M Lj Nj)). obind.
  rewrite (proj1 (memory_number m l 14 _ _ M Ln Nn)). obind.
  rewrite header_by_type_spec by done. obind. eexists. split; [by destruct c|]. split; [|exact Hus].
  unfold read_fields. rewrite <- read_mode_bits. reflexivity.
Qed.
End Fields.

(** ** The whole read *)

Record reader_ok (t : TARU) : Prop := {
  ro_read : wf (read_bufferM t);
  ro_header : wf (headerM t);
  ro_room : 512 < reserve_ (headerM t);
}.

Section Read.
Context `{Malloc} `{SysDB} (stray : bool).

Lemma take_app_zlen (b r : bytes) n : zlen b = n -> take (Z.to_nat n) (b ++ r) = b /\ drop (Z.to_nat n) (b ++ r) = r.
Proof. intros <-. unfold zlen. rewrite Nat2Z.id. by rewrite take_app_length, drop_app_length. Qed.

Lemma append_header_spec t b :
  reader_ok t -> (do_record_headerM t <> 0 -> header_lengthM t = 0) -> zlen b = 512 ->
  exists t', append_header t b = Some t' /\ reader_ok t' /\ read_bufferM t' = read_bufferM t.
Proof.
  intros [R1 R2 R3] Hl Hb. unfold append_header. destruct (Z.eqb_spec (do_record_headerM t) 0) as [|Hd]; [by exists t|]. cbn [negb]. rewrite Hl by done.
  change (0 + TARRECORDSIZE) with 512.
  destruct (strob_set_memlength_spec (headerM t) 512 R2) as (s & -> & W & _ & Hr & _); [unfold SMALL; lia|]. obind.
  destruct (mem_write_exists (str_ s) 0 b) as (m & E); [lia|rewrite (wf_size s W); lia|]. rewrite E. obind.
  eexists. split; [done|]. split; [|done]. split; [done| |cbn; lia].
  apply (wf_set_str s 0 b m W E). left. lia.
Qed.

Lemma read_block_spec r b tail :
  reader_ok (rd_taru r) -> read_buffer_posM (rd_taru r) = 0 ->
  (do_record_headerM (rd_taru r) <> 0 -> header_lengthM (rd_taru r) = 0) ->
  rd_src r = Fd (b ++ tail) -> zlen b = 512 ->
  exists t', read_block r = Some (put_taru t' (Fd tail) r, None) /\ reader_ok t'
    /\ take 512 (str_ (read_bufferM t')) = b /\ exists e, (512 <= e)%nat /\ str_ (read_bufferM t') !! e = Some NUL.
Proof.
  intros [R1 R2 R3] Hp Hl Hs Hb. unfold read_block. rewrite Hp, Hs. obind.
  change (0 + TARRECORDSIZE) with 512. change (512 + TARRECORDSIZE) with 1024.
  destruct (strob_set_length_spec (read_bufferM (rd_taru r)) 512 R1) as (s1 & -> & W1 & L1 & N1 & _); [unfold SMALL; lia|].
  obind. unfold taru_tape_buffered_read. change (Z.to_nat TARRECORDSIZE) with (Z.to_nat 512).
  destruct (take_app_zlen b tail 512 Hb) as [-> ->]. obind.
  pose proof (lookup_lt_Some _ _ _ N1) as Hlt. pose proof (wf_zlen s1 W1) as Hz.
  destruct (mem_write_exists (str_ s1) 0 b) as (m & E); [lia|unfold zlen in *; lia|]. rewrite E. obind.
  assert (wf (set_str m s1)) as W1' by (apply (wf_set_str s1 0 b m W1 E); left; lia).
  cbn [is_memory negb andb]. rewrite Hb. change (negb (512 =? TARRECORDSIZE)) with false. cbv iota.
  destruct (strob_set_length_spec (set_str m s1) 1024 W1') as (s2 & -> & W2 & L2 & N2 & K2); [unfold SMALL; lia|]. obind.
  assert (take 512 (str_ s2) = b) as Htake.
  { apply list_eq. intros i. destruct (decide (i < 512)%nat) as [Hi|Hi].
    - rewrite lookup_take_lt by done. rewrite K2; [|lia|cbn [set_str length_]; lia|cbn [set_str reserve_]; lia].
      cbn [set_str str_]. rewrite (mem_write_lookup _ _ _ _ i E), decide_True by lia. f_equal. lia.
    - rewrite lookup_take_ge by lia. symmetry. apply lookup_ge_None. unfold zlen in Hb. lia. }
  pose proof (lookup_lt_Some _ _ _ N2) as Hlt2.
  assert (bytes_at (str_ s2) 0 TARRECORDSIZE = Some b) as ->.
  { unfold bytes_at, TARRECORDSIZE. ztest. rewrite (proj2 (Z.leb_le _ _)) by (unfold zlen; lia). cbn [andb]. change (Z.to_nat 512) with 512%nat. change (Z.to_nat 0) with 0%nat. by rewrite drop_0, Htake. }
  obind.
  destruct (append_header_spec (put_read s2 512 (rd_taru r)) b) as (t' & -> & R' & Er); [by split|done|done|]. obind.
  exists t'. split; [done|]. split; [done|]. rewrite Er. split; [exact Htake|].
  exists 1024%nat. split; [lia|exact N2].
Qed.

Lemma null_block_take m b : (512 <= length m)%nat -> take 512 m = b -> null_block m TARRECORDSIZE = Some (forallb (ceq NUL) b).
Proof.
  intros Hl <-. unfold null_block, bytes_at, TARRECORDSIZE. ztest.
  rewrite (proj2 (Z.leb_le _ _)) by (unfold zlen; lia). done.
Qed.

Lemma zeros_null n : forallb (ceq NUL) (replicate n NUL) = true.
Proof. induction n; [done|]. cbn [replicate forallb]. by rewrite ceq_refl. Qed.

Lemma null_zeros b : forallb (ceq NUL) b = true -> b = replicate (length b) NUL.
Proof.
  induction b as [|c b IH]; [done|]. cbn [forallb length replicate]. intros [Hc Hb]%andb_true_iff.
  apply ceq_eq in Hc as <-. f_equal. by apply IH.
Qed.

Lemma null_block_false m l i c : memory m l -> l !! i = Some [c] -> c <> NUL -> null_block m TARRECORDSIZE = Some false.
Proof.
  intros M Hi Hc. unfold null_block. pose proof (starts_length m l (mem_starts _ _ M)) as Hlen.
  pose proof (field_in_image l i [c] (proj1 (mem_starts _ _ M)) Hi) as Hin. pose proof (field_offset_nonneg i).
  change (zlen [c]) with 1 in Hin.
  assert (bytes_at m 0 TARRECORDSIZE = Some (take 512 m)) as ->.
  { unfold bytes_at, TARRECORDSIZE. ztest. rewrite (proj2 (Z.leb_le _ _)) by (unfold zlen; lia). done. }
  obind. f_equal. apply not_true_iff_false. rewrite forallb_forall. intros Hf.
  pose proof (starts_stored m l i _ (mem_starts _ _ M) Hi 0%nat ltac:(cbn; lia)) as Hr.
  rewrite Nat.add_0_r in Hr. specialize (Hf c). rewrite <- (lookup_take_lt m 512) in Hr by lia.
  apply list_elem_of_lookup_2, list_elem_of_In in Hr. specialize (Hf Hr). by apply ceq_eq in Hf.
Qed.

Lemma type_ordinary h flags user group : tar_file h flags user group -> tar_type h <> NUL /\ is_extended (tar_type h) = false.
Proof.
  intros F. pose proof (type_cases h flags user group F) as Hc.
  repeat (apply elem_of_cons in Hc as [Hc|Hc]); [..|by apply not_elem_of_nil in Hc]; by injection Hc as -> _ _.
Qed.

(** The state in front of the first block. *)
Definition at_start (r : reading) : reading :=
  mkReading (rd_taru (started r)) (rd_caches (started r)) (rd_hdr (started r)) (rd_src (started r)) 0.

Lemma started_spec r b tail :
  reader_ok (rd_taru r) -> rd_src r = Fd (b ++ tail) -> zlen b = 512 ->
  exists t', read_block (at_start r) = Some (put_taru t' (Fd tail) (at_start r), None) /\ reader_ok t'
    /\ take 512 (str_ (read_bufferM t')) = b /\ exists e, (512 <= e)%nat /\ str_ (read_bufferM t') !! e = Some NUL.
Proof.
  intros R Hs Hb.
  assert (reader_ok (rd_taru (at_start r)) /\ read_buffer_posM (rd_taru (at_start r)) = 0
    /\ (do_record_headerM (rd_taru (at_start r)) <> 0 -> header_lengthM (rd_taru (at_start r)) = 0)) as (R0 & P0 & L0).
  { destruct R as [R1 R2 R3]. unfold at_start, started. cbv zeta. cbn [rd_taru].
    destruct (Z.eqb_spec (do_record_headerM (put_read (read_bufferM (rd_taru r)) 0 (rd_taru r))) 0) as [E|E].
    - split; [by split|]. split; [done|]. intros Hd. destruct (Hd E).
    - split; [by split|done]. }
  by apply read_block_spec.
Qed.

(** An ordinary block at the front of the descriptor. *)
Lemma read_front r l t tail :
  reader_ok (rd_taru r) -> rd_src r = Fd (concat l ++ tail) -> hdr_blocks l ->
  l !! 7%nat = Some [t] -> t <> NUL -> is_extended t = false ->
  exists r1, reader_ok (rd_taru r1) /\ rd_src r1 = Fd tail /\ rd_caches r1 = rd_caches r
    /\ memory (str_ (read_bufferM (rd_taru r1))) l
    /\ c_tar_linkname (rd_hdr r1) = [] /\ extHeader_usage_maskM (rd_hdr r1) = 0
    /\ forall rounds rflags len, taru_read_in_tar_header2 stray rounds r rflags len
       = (res ← checked_header rounds r1 rflags 0;
          Some (match res with
                | Returns (inl (r, ret)) =>
                    Returns (inl (if negb (extHeader_usage_maskM (rd_hdr r) =? 0)
                                  then put_hdr (override_all stray (rd_hdr r)) r else r, ret))
                | res => res
                end)).
Proof.
  intros R Hs B Hty Hnul Hext. destruct (started_spec r (concat l) tail R Hs) as (t' & E & R' & Ht & He); [by apply hdr_blocks_zlen|].
  assert (memory (str_ (read_bufferM t')) l) as M by by split.
  exists (put_taru t' (Fd tail) (at_start r)). split; [done|]. split; [done|]. split; [done|]. split; [exact M|].
  split; [done|]. split; [done|]. intros rounds rflags len. unfold taru_read_in_tar_header2, source_fuel.
  cbn [i_taru_read_in_tar_header2]. fold (at_start r). rewrite E. obind.
  change (read_bufferM (rd_taru (put_taru t' (Fd tail) (at_start r)))) with (read_bufferM t').
  rewrite (null_block_false _ l 7 t M Hty Hnul). obind.
  change THB_BO_typeflag with (field_offset 7). rewrite (memory_byte _ l 7 _ M Hty). obind. by rewrite Hext.
Qed.

Lemma read_header_spec h flags user group l r tail rounds rflags len :
  tar_file h flags user group -> tar_image h flags user group l ->
  reader_ok (rd_taru r) -> rd_src r = Fd (concat l ++ tail) ->
  bit rflags TARU_TAR_RETAIN_HEADER_IDS = true -> (0 < rounds)%nat ->
  exists r', taru_read_in_tar_header2 stray rounds r rflags len = Some (Returns (inl (r', 512)))
    /\ tar_fields (rd_hdr r') = read_fields h flags user group
    /\ rd_src r' = Fd tail /\ reader_ok (rd_taru r') /\ rd_caches r' = rd_caches r.
Proof.
  intros F I R Hs Hret Hrounds. destruct (type_ordinary h flags user group F) as [Hnul Hext].
  destruct (read_front r l (tar_type h) tail R Hs (ti_blocks _ _ _ _ _ I) (ti_type _ _ _ _ _ I) Hnul Hext)
    as (r1 & R1 & S1 & C1 & M & K1 & U1 & ->).
  destruct (ti_sum _ _ _ _ _ I) as (s & ck & Hck & Nck & Hsum). destruct rounds as [|rounds]; [lia|].
  unfold checked_header. cbn [check_rounds]. unfold check_round. change THB_BO_chksum with (field_offset 6).
  rewrite (proj1 (memory_number _ l 6 _ _ M Hck Nck)). obind.
  rewrite (memory_checksum _ l s M Hsum). obind. rewrite Z.eqb_refl. obind. rewrite Hret.
  destruct (header_fields_spec h flags user group F _ l M I (put_c_chksum s (rd_hdr r1)) (rd_caches r1))
    as (g & -> & Hf & Hu); [done|done|]. obind.
  eexists. split; [reflexivity|]. cbn [rd_hdr rd_src rd_taru rd_caches]. rewrite Hu. cbn [Z.eqb negb].
  split; [exact Hf|]. by split.
Qed.

Record writer_ok (t : TARU) : Prop := {
  wo_name : wf (u_name_bufferM t);
  wo_header : wf (headerM t);
  wo_room : 512 < reserve_ (headerM t);
}.

Lemma record_header_spec t b : wf (headerM t) -> 512 < reserve_ (headerM t) -> zlen b = 512 ->
  exists t', record_header t b = Some t'.
Proof.
  intros W Hr Hb. unfold record_header. destruct (negb _); [|by eexists].
  destruct (strob_set_memlength_spec (headerM t) TARRECORDSIZE W) as (s & -> & Ws & _ & Hs & _); [done|]. obind.
  destruct (mem_write_exists (str_ s) 0 b) as (m & ->); [lia|rewrite (wf_size s Ws); lia|]. obind. by eexists.
Qed.



(** The end of an archive: two blocks of zeros give 1024, the name of the
    trailer and the bytes behind them; one that is followed by anything else,
    or by the end of the file, gives -1. *)
Theorem end_of_archive_is_two_blocks r rest rounds rflags len :
  reader_ok (rd_taru r) -> rd_src r = Fd (replicate 512 NUL ++ rest) ->
  exists r', taru_read_in_tar_header2 stray rounds r rflags len
      = Some (Returns (inl (r', if decide (take 512 rest = replicate 512 NUL) then 1024 else -1)))
    /\ c_name (rd_hdr r') = L "TRAILER!!!" /\ rd_src r' = Fd (drop 512 rest)
    /\ rd_eoa r' = (if decide (take 512 rest = replicate 512 NUL) then 1024 else -1).
Proof.
  intros R Hs. destruct (started_spec r (replicate 512 NUL) rest R Hs) as (t' & E & R' & Ht & (e & He & Hn)); [done|].
  unfold taru_read_in_tar_header2, source_fuel. cbn [i_taru_read_in_tar_header2]. fold (at_start r). rewrite E. obind.
  set (r1 := put_taru t' (Fd rest) (at_start r)). change (read_bufferM (rd_taru r1)) with (read_bufferM t').
  set (m := str_ (read_bufferM t')) in *. pose proof (lookup_lt_Some _ _ _ Hn) as Hlen.
  rewrite (null_block_take m (replicate 512 NUL)) by (lia || done). change (forallb _ (replicate 512 NUL)) with true. obind.
  unfold end_of_archive. change (rd_src r1) with (Fd rest). obind. unfold taru_tape_buffered_read.
  change (Z.to_nat TARRECORDSIZE) with 512%nat. change (str_ (read_bufferM (rd_taru r1))) with m.
  pose proof (length_take rest 512) as Lt. set (b2 := take 512 rest) in *. obind.
  destruct (mem_write_exists m 0 b2) as (m2 & E2); [lia|unfold zlen; lia|]. rewrite E2. obind.
  pose proof (mem_write_length _ _ _ _ E2) as Lm.
  rewrite (null_block_take m2 (b2 ++ replicate (512 - length b2) NUL)); [|lia|].
  2: { rewrite mem_write_in in E2 by (unfold zlen; lia). injection E2 as <-. cbn [Z.to_nat take app Nat.add].
       rewrite take_app_ge by lia. f_equal. rewrite take_drop_commute.
       replace (length b2 + (512 - length b2))%nat with 512%nat by lia. by rewrite Ht, drop_replicate. }
  obind. rewrite forallb_app, (zeros_null (512 - length b2)), andb_true_r.
  assert ((if negb (zlen b2 =? TARRECORDSIZE) || negb (forallb (ceq NUL) b2) then -1 else 1024)
    = (if decide (b2 = replicate 512 NUL) then 1024 else -1)) as ->.
  { destruct (decide (b2 = replicate 512 NUL)) as [->|Hb]; [done|].
    destruct (Z.eqb_spec (zlen b2) TARRECORDSIZE) as [Hz|]; [|done]. cbn [negb orb].
    destruct (forallb (ceq NUL) b2) eqn:Eb; [|done]. destruct Hb. apply null_zeros in Eb as ->.
    f_equal. unfold zlen, TARRECORDSIZE in Hz. lia. }
  eexists. split; [reflexivity|]. done.
Qed.
End Read.

(** ** New objects *)

Lemma taru_create_ok `{Malloc} flags record : exists t, taru_create flags record = Some t
  /\ writer_ok t /\ reader_ok t /\ zlen (str_ (u_ent_bufferM t)) = 65.
Proof.
  unfold taru_create.
  destruct (strob_open_shape 1024) as (h & -> & Th & _ & _ & Rh); [lia|]. obind.
  destruct (strob_open_shape 8) as (n & -> & Tn & _); [lia|]. obind.
  destruct (strob_open_shape (SNAME_LEN + SNAME_LEN)) as (e & -> & Te & _ & _ & Re); [unfold SNAME_LEN; lia|]. obind.
  destruct (strob_open_shape (TARRECORDSIZE * 4)) as (b & -> & Tb & _); [unfold TARRECORDSIZE; lia|]. obind.
  destruct (strob_open_shape 16) as (x & -> & _); [lia|]. obind.
  eexists. split; [done|]. split; [split; cbn; [apply Tn|apply Th|lia]|]. split; [split; cbn; [apply Tb|apply Th|lia]|].
  cbn. rewrite (wf_size e (text_wf _ _ Te)), Re. done.
Qed.

(** get_pwent writes 120 bytes, whatever the size of the buffer. *)
Lemma owner_by_id_overflows `{Malloc} `{SysDB} nobody m u_ent c h user flags termch :
  c_cu h = TARU_C_BY_UID -> is_nil (Some user) = false -> bit flags TARU_TAR_NUMERIC_UIDS = false -> zlen u_ent < 120 ->
  set_user nobody m u_ent c h (Some user) flags termch = None.
Proof.
  intros Hc Hu Hn Hz. unfold set_user, set_owner. rewrite Hc, Hu, Hn. cbn [andb TARU_C_BY_UID TARU_C_BY_USYS TARU_C_BY_UNAME Z.eqb Pos.eqb orb].
  unfold taru_get_tar_user_by_uid. destruct (get_pwent_name _ _ _) as [[[cache cname] ret]|]; [|done]. obind.
  assert (copy_tarbuf u_ent cname = None) as ->; [|done].
  unfold copy_tarbuf. destruct (mem_write u_ent 0 _) as [m'|] eqn:E; [|done]. obind.
  pose proof (mem_write_length _ _ _ _ E). unfold mem_write.
  rewrite (proj2 (Z.leb_gt (TARU_SYSDBNAME_LEN - 1 + zlen [NUL]) (zlen m'))); [by rewrite andb_false_r|].
  change (TARU_SYSDBNAME_LEN - 1 + zlen [NUL]) with 120. unfold zlen in *. lia.
Qed.

Module Witness.
#[local] Instance junk_z : Malloc := fun _ => "z"%char.
#[local] Instance no_users : SysDB :=
  {| getpwnam := fun _ => None; getpwuid := fun _ => None; getgrnam := fun _ => None; getgrgid := fun _ => None |}.

Definition blank : new_cpio_header := mkHDR 0 0 0 0 0 0 0 0 0 0 0 0 0 [] [] [] [] 0 0 0 0 0 0 [] 0 0 0 0.
Definition caches : SYSDBCACHES := mkSYSDBCACHES empty_cache empty_cache.

(** A directory with a name of 120 characters, which is split. *)
Definition dir : new_cpio_header :=
  put_c_mode (CP_IFDIR + 1005) (put_c_mtime 1102000000 (put_c_uid 501 (put_c_gid 20
    (put_c_name (L "catalog/" ++ repeat "a"%char 60 ++ L "/" ++ repeat "b"%char 51) blank)))).

Lemma dir_fits : tar_file dir TARU_TAR_BE_LIKE_STAR (L "joe") (L "staff").
Proof.
  split.
  - split; [by apply no_nul_compute|done].
  - vm_compute. reflexivity.
  - right. exists (L "catalog/" ++ repeat "a"%char 60), (repeat "b"%char 51 ++ L "/").
    split; [vm_compute; reflexivity|]. split; [done|]. vm_compute. lia.
  - vm_compute. by split.
  - right. by left.
  - split; [by apply no_nul_compute|done].
  - done.
  - vm_compute. by repeat split.
  - vm_compute. by split.
  - vm_compute. by split.
  - done.
  - by split.
  - split; [by apply no_nul_compute|done].
  - split; [by apply no_nul_compute|done].
Qed.


(** A header whose fields are empty except for a wrong sum. *)
Definition wrong : list bytes :=
  <[7%nat := ["0"%char]]> (<[6%nat := num 7 8 NUL]> zero_blocks).


Lemma end_of_archive_is_two_blocks_witness :
  exists r r', rd_src r = Fd (replicate 512 NUL ++ replicate 512 NUL)
    /\ taru_read_in_tar_header2 false 0 r 0 0 = Some (Returns (inl (r', 1024)))
    /\ c_name (rd_hdr r') = L "TRAILER!!!" /\ rd_src r' = Fd [] /\ rd_eoa r' = 1024.
Proof.
  destruct (taru_create_ok 0 0) as (t & _ & _ & R & _).
  destruct (end_of_archive_is_two_blocks false (mkReading t caches blank (Fd (replicate 512 NUL ++ replicate 512 NUL)) 0)
              (replicate 512 NUL) 0 0 0 R eq_refl) as (r' & E & H).
  exists (mkReading t caches blank (Fd (replicate 512 NUL ++ replicate 512 NUL)) 0), r'.
  split; [reflexivity|]. split; [exact E|exact H].
Defined.
End Witness.
