(* ===== verification/Cpio.v ===== *)
(** * Headers of cpio archives (swsupplib/taru/copyout.c, readinheader.c,
      copyinnew.c, copyinold.c and otar.c)

    The writer of one header in every format, the padding behind headers and
    data, the trailer of an archive, and the readers.  A descriptor that is
    written is the bytes that were written to it, every one of them accepted;
    a descriptor that is read is the bytes that are left. *)

From S2P Require Import Prelude CString Numerals Strob Pathname Escape FileMode TarNumbers TarHeader SysDb FileHdr PaxHeader TarWrite TarRead.

Inductive archive_format :=
  | arf_unknown | arf_binary | arf_oldascii | arf_newascii | arf_crcascii
  | arf_tar | arf_ustar | arf_hpoldascii | arf_hpbinary | arf_filesystem.

#[global] Instance archive_format_eq_dec : EqDecision archive_format.
Proof. solve_decision. Defined.

Definition is_format (fs : list archive_format) (f : archive_format) : bool := existsb (fun g => bool_decide (g = f)) fs.
Definition is_newc := is_format [arf_newascii; arf_crcascii].
Definition is_tar := is_format [arf_tar; arf_ustar].
Definition is_odc := is_format [arf_oldascii; arf_hpoldascii].

Definition TARU_TAR_GNU_BLOCKSIZE_B1 : Z := 16.
Definition TARU_TAR_DO_STRIP_LEADING_SLASH : Z := 128.

(** ** Writing *)

(** tarui_tape_buffered_write of [n] bytes from an object that holds [bs]; the
    bytes behind [bs] are not determined. *)
Definition tarui_tape_buffered_write (bs : bytes) (out : bytes) (n : Z) : option (bytes * Z) :=
  if (0 <=? n) && (n <=? zlen bs) then Some (out ++ take (Z.to_nat n) bs, n) else None.

Definition zeros_512 : bytes := replicate 512 NUL.

(** The bytes that are missing to a multiple; [offset] may be negative. *)
Definition pad_to (k offset : Z) : Z := Z.rem (k - Z.rem offset k) k.

Definition output_pad (offset : Z) (f : archive_format) : Z :=
  if is_newc f then pad_to 4 offset
  else if is_tar f then pad_to 512 offset
  else if negb (is_odc f) then pad_to 2 offset
  else 0.

Definition taru_tape_pad_output (out : bytes) (offset : Z) (f : archive_format) : option (bytes * Z) :=
  let pad := output_pad offset f in
  if negb (pad =? 0) then tarui_tape_buffered_write zeros_512 out pad else Some (out, 0).

(** sprintf into an array of [room] bytes. *)
Definition sprintf_fits (room : Z) (text : bytes) : option bytes :=
  if zlen text <? room then Some text else None.

Definition hex8 (n : Z) : bytes := numeral 16 8 n.

Definition newc_text (magic : bytes) (h : new_cpio_header) : bytes :=
  magic ++ concat (hex8 <$> [c_ino h; c_mode h; c_uid h; c_gid h; c_nlink h; c_mtime h; c_filesize h;
                             c_dev_maj h; c_dev_min h; c_rdev_maj h; c_rdev_min h; c_namesize h; c_chksum h]).

Definition oct6 (n : Z) : bytes := numeral 8 6 n.
Definition oct11 (n : Z) : bytes := numeral 8 11 n.
Definition low16 (n : Z) : Z := Z.land n 65535.

Definition odc_text (dev rdev : Z) (h : new_cpio_header) : bytes :=
  L "070707" ++ oct6 (low16 dev) ++ oct6 (low16 (c_ino h)) ++ oct6 (low16 (c_mode h))
  ++ oct6 (low16 (c_uid h)) ++ oct6 (low16 (c_gid h)) ++ oct6 (low16 (c_nlink h)) ++ oct6 (low16 rdev)
  ++ oct11 (c_mtime h) ++ oct6 (low16 (c_namesize h)) ++ oct11 (c_filesize h).

(** Devices, sockets and pipes, for which HP-UX stores the device number in the
    file size. *)
Definition is_special (mode : Z) : bool :=
  let t := Z.land mode S_IFMT in (t =? CP_IFCHR) || (t =? CP_IFBLK) || (t =? CP_IFSOCK) || (t =? CP_IFIFO).

Definition header_dev (h : new_cpio_header) : Z := makedev (c_dev_maj h) (c_dev_min h).
Definition header_rdev (h : new_cpio_header) : Z := makedev (c_rdev_maj h) (c_rdev_min h).

(** An unsigned short in memory, the low byte first. *)
Definition short_bytes (n : Z) : bytes := [to_char n; to_char (n / 256)].

(** struct old_cpio_header, its first 26 bytes. *)
Definition binary_header (rdev : Z) (h : new_cpio_header) : bytes :=
  concat (short_bytes <$> [29127; header_dev h; low16 (c_ino h); low16 (c_mode h); low16 (c_uid h); low16 (c_gid h);
    low16 (c_nlink h); rdev; Z.shiftr (c_mtime h) 16; low16 (c_mtime h); low16 (c_namesize h);
    Z.shiftr (c_filesize h) 16; low16 (c_filesize h)]).

(** The object that holds the name. *)
Definition name_object (h : new_cpio_header) : bytes := c_name h ++ [NUL].

Definition write_name (h : new_cpio_header) (out : bytes) : option (bytes * Z) :=
  tarui_tape_buffered_write (name_object h) out (c_namesize h).

Section Output.
Context `{Malloc} `{SysDB} (nobody : Z * bool).
Implicit Types (h : new_cpio_header) (out : bytes) (f : archive_format).

Definition write_newc h out f : option (new_cpio_header * bytes * Z) :=
  let h := if bool_decide (f = arf_crcascii) then h else put_c_chksum 0 h in
  text ← sprintf_fits 112 (newc_text (if bool_decide (f = arf_crcascii) then L "070702" else L "070701") h);
  '(out, r1) ← tarui_tape_buffered_write (text ++ [NUL]) out 110;
  '(out, r2) ← write_name h out;
  '(out, r3) ← taru_tape_pad_output out (c_namesize h + 110) f;
  Some (h, out, to_int (r1 + r2 + r3)).

Definition write_odc h out f : option (new_cpio_header * bytes * Z) :=
  let '(h, dev, rdev) :=
    if bool_decide (f = arf_oldascii) then (h, header_dev h, header_rdev h)
    else if is_special (c_mode h) then (put_c_filesize (header_rdev h) h, 0, 1)
    else (h, header_dev h, header_rdev h) in
  text ← sprintf_fits 78 (odc_text dev rdev h);
  '(out, r1) ← tarui_tape_buffered_write (text ++ [NUL]) out 76;
  '(out, r2) ← write_name h out;
  Some (h, out, to_int (r1 + r2)).

Definition write_binary h out f : option (new_cpio_header * bytes * Z) :=
  let '(h, rdev) :=
    if bool_decide (f = arf_hpbinary) && is_special (c_mode h)
    then (put_c_filesize (header_rdev h) h, makedev 0 1)
    else (h, header_rdev h) in
  '(out, r1) ← tarui_tape_buffered_write (binary_header rdev h) out 26;
  '(out, r2) ← write_name h out;
  '(out, r3) ← taru_tape_pad_output out (c_namesize h + 26) f;
  Some (h, out, to_int (r1 + r2 + r3)).

(** The header is changed in place.  header_buffer is NULL in every call, and
    no preview is asked for. *)
Definition taru_write_out_header (taru : TARU) (c : SYSDBCACHES) h out f (tarheaderflags : Z)
    : option (TARU * SYSDBCACHES * new_cpio_header * bytes * Z) :=
  let h := if bit tarheaderflags TARU_TAR_DO_STRIP_LEADING_SLASH
           then ahsStatic_strip_name_leading_slash h else h in
  if is_newc f then '(h, out, ret) ← write_newc h out f; Some (taru, c, h, out, ret)
  else if is_odc f then '(h, out, ret) ← write_odc h out f; Some (taru, c, h, out, ret)
  else if is_tar f then
    '(taru, c, t, ret) ← taru_write_out_tar_header2 nobody taru c h (ToFd out)
                           (Some (ahsStaticGetTarUsername h)) (Some (ahsStaticGetTarGroupname h)) tarheaderflags;
    match t with ToFd out => Some (taru, c, h, out, ret) | ToBuffer _ => None end
  else '(h, out, ret) ← write_binary h out f; Some (taru, c, h, out, ret).

(** ** The trailer *)

(** while (n < io_block_size && ret >= 0), with a size that is positive. *)
Fixpoint clear_loop (fuel : nat) out (io_block_size n retval : Z) : option (bytes * Z) :=
  match fuel with
  | O => None
  | S fuel =>
      if n <? io_block_size then
        let k := if io_block_size - n >? 512 then 512 else io_block_size - n in
        '(out, ret) ← tarui_tape_buffered_write zeros_512 out k;
        clear_loop fuel out io_block_size (n + ret) (retval + ret)
      else Some (out, retval)
  end.

Definition tape_clear_rest_of_block out (io_block_size output_size : Z) : option (bytes * Z) :=
  clear_loop (S (Z.to_nat io_block_size)) out io_block_size (Z.rem output_size io_block_size) 0.

(** A header with nothing in it; the fields that stay indeterminate in the new
    object are set before they are read.  [now] is the time. *)
Definition taru_make_header (now : Z) : new_cpio_header :=
  taru_init_header now (mkHDR 0 0 0 0 0 0 0 0 0 0 0 0 0 [] [] [] [] 0 0 0 0 0 0 [] 0 0 0 0).

Definition ahsStaticCreateFilehdr (now : Z) : new_cpio_header :=
  ahsStaticSetTarGroupname (ahsStaticSetTarUsername
    (ahsStaticSetTarFilename (ahsStaticSetPaxLinkname (taru_make_header now) []) []) []) [].

Definition trailer_header (now : Z) : new_cpio_header :=
  let h := ahsStaticCreateFilehdr now in
  let h := put_c_nlink 1 (put_c_gid 0 (put_c_uid 0 (put_c_mode 0 (put_c_ino 0 h)))) in
  let h := put_c_rdev_min 0 (put_c_rdev_maj 0 (put_c_dev_min 0 (put_c_dev_maj 0 h))) in
  let h := put_c_namesize 11 (put_c_filesize 0 (put_c_chksum 0 (put_c_mtime 0 h))) in
  ahsStaticSetTarFilename h CPIO_INBAND_EOA_FILENAME.

(** The number of blocks of zeros behind a tar archive. *)
Definition trailer_blocks (io_block_size bytes_written flags : Z) : Z :=
  let gnu_tar_block_size := if negb (io_block_size =? 0) then io_block_size else 10240 in
  if bit flags TARU_TAR_GNU_BLOCKSIZE_B1 then if bit flags TARU_TAR_BE_LIKE_STAR then 3 else 2
  else if bit flags TARU_TAR_GNU_OLDGNUTAR then
    let n_tar_blocks := Z.quot gnu_tar_block_size 512 in
    let nblock := n_tar_blocks - Z.quot (bytes_written mod to_size gnu_tar_block_size) 512 in
    if nblock <? 2 then nblock + n_tar_blocks else nblock
  else 2.

Fixpoint write_zero_blocks (n : nat) out (ret : Z) : option (bytes * Z) :=
  match n with
  | O => Some (out, ret)
  | S n => '(out, r) ← tarui_tape_buffered_write zeros_512 out 512; write_zero_blocks n out (ret + r)
  end.

Definition taru_write_archive_trailer (now : Z) (taru : TARU) (c : SYSDBCACHES) f out
    (io_block_size bytes_written flags : Z) : option (TARU * SYSDBCACHES * bytes * Z) :=
  if negb (is_tar f) then
    '(taru, c, _, out, ret) ← taru_write_out_header taru c (trailer_header now) out f 0;
    if negb (bytes_written =? 0) then
      let bytes_written := if ret >? 0 then to_size (bytes_written + ret) else bytes_written in
      '(out, r) ← tape_clear_rest_of_block out 512 bytes_written;
      Some (taru, c, out, to_int (ret + r))
    else Some (taru, c, out, ret)
  else
    let odd := negb (bytes_written mod 512 =? 0) in
    let nblock := trailer_blocks io_block_size bytes_written (if odd then 0 else flags) in
    '(out, ret) ← write_zero_blocks (Z.to_nat nblock) out 0;
    Some (taru, c, out, if odd then -1 else to_int ret).
End Output.

(** ** Reading *)

(** taru_read_amount: the bytes are thrown away; all of them when the amount is
    negative. *)
Definition taru_read_amount (rest : bytes) (amount : Z) : bytes * Z :=
  if amount <? 0 then ([], zlen rest)
  else let '(b, rest) := taru_tape_buffered_read rest amount in (rest, zlen b).

Definition input_pad (offset : Z) (f : archive_format) : Z :=
  if is_newc f then (4 - offset mod 4) mod 4
  else if is_format [arf_binary; arf_hpbinary] f then (2 - offset mod 2) mod 2
  else if is_tar f then (512 - offset mod 512) mod 512
  else 0.

Definition taru_tape_skip_padding (rest : bytes) (offset : Z) (f : archive_format) : bytes * Z :=
  let pad := input_pad offset f in
  if negb (pad =? 0) then taru_read_amount rest pad else (rest, 0).

(** The text of a name that was read into its object; without a NUL it goes on
    with what the object held before, which is not determined here. *)
Definition text_read (bs : bytes) : option bytes := if terminated bs then Some (cstr bs) else None.

(** The values that were scanned, each to its field. *)
Definition assign (puts : list (Z -> new_cpio_header -> new_cpio_header)) (vals : list Z) (h : new_cpio_header)
    : new_cpio_header :=
  foldl (fun h pv => pv.1 pv.2 h) h (zip puts vals).

(** The file size goes through a variable, which is indeterminate when its
    number is not there. *)
Definition skip_field (_ : Z) (h : new_cpio_header) : new_cpio_header := h.

Definition newc_fields : list (Z -> new_cpio_header -> new_cpio_header) :=
  [put_c_ino; put_c_mode; put_c_uid; put_c_gid; put_c_nlink; put_c_mtime; skip_field;
   put_c_dev_maj; put_c_dev_min; put_c_rdev_maj; put_c_rdev_min; put_c_namesize; put_c_chksum].

Definition tarui_read_new_ascii_from_buf (h : new_cpio_header) (ascii_header : bytes) : option (new_cpio_header * Z) :=
  let vals := sscanf_ul 16 (replicate 13 8%nat) ascii_header in
  xx ← vals !! 6%nat;
  let h := put_c_filesize xx (assign newc_fields vals h) in
  Some (h, if c_namesize h >? 6000 then -1 else 104).

(** The header, the bytes that are left and the result. *)
Definition taru_read_in_new_ascii (h : new_cpio_header) (rest : bytes) (f : archive_format)
    : option (new_cpio_header * bytes * Z) :=
  let '(b, rest) := taru_tape_buffered_read rest 104 in
  if negb (zlen b =? 104) then Some (h, rest, -1)
  else
    '(h, bytesread) ← tarui_read_new_ascii_from_buf h (cstr b);
    if bytesread <? 0 then Some (h, rest, - bytesread)
    else
      let '(name, rest) := taru_tape_buffered_read rest (c_namesize h) in
      text ← text_read name;
      let h := ahsStaticSetTarFilename h text in
      let bytesread := bytesread + c_namesize h in
      let '(rest, skipped) := taru_tape_skip_padding rest (bytesread + 6) f in
      Some (h, rest, bytesread + skipped).

Definition odc_fields : list (Z -> new_cpio_header -> new_cpio_header) :=
  [skip_field; put_c_ino; put_c_mode; put_c_uid; put_c_gid; put_c_nlink; skip_field; put_c_mtime;
   put_c_namesize; skip_field].

Definition odc_widths : list nat := [6; 6; 6; 6; 6; 6; 6; 11; 6; 11]%nat.

(** The device number of an HP-UX archive back from the file size. *)
Definition hpux_device (h : new_cpio_header) : new_cpio_header :=
  if is_special (c_mode h) && (negb (c_filesize h =? 0) && ((c_rdev_maj h =? 0) && (c_rdev_min h =? 1)))
  then put_c_filesize 0 (put_c_rdev_min (dev_minor (c_filesize h)) (put_c_rdev_maj (dev_major (c_filesize h)) h))
  else h.

(** From a descriptor; [buf] is NULL in every call.  The name of a header that
    is cut off is what the object holds, if that is determined. *)
Definition taru_read_in_old_ascii2 (h : new_cpio_header) (rest : bytes) : option (new_cpio_header * bytes * Z) :=
  let '(b, rest) := taru_tape_buffered_read rest 70 in
  if negb (zlen b =? 70) then Some (h, rest, -1)
  else
    let vals := sscanf_ul 8 odc_widths (cstr b) in
    dev ← vals !! 0%nat;
    rdev ← vals !! 6%nat;
    xxsize ← vals !! 9%nat;
    let h := put_c_filesize xxsize (assign odc_fields vals h) in
    let h := put_c_dev_min (dev_minor dev) (put_c_dev_maj (dev_major dev) h) in
    let h := put_c_rdev_min (dev_minor rdev) (put_c_rdev_maj (dev_major rdev) h) in
    let '(name, rest) := taru_tape_buffered_read rest (c_namesize h) in
    if negb (zlen name =? to_int (c_namesize h)) then Some (ahsStaticSetTarFilename h (default (c_name h) (text_read name)), rest, -70)
    else
      text ← text_read name;
      let h := ahsStaticSetTarFilename h text in
      Some (hpux_device h, rest, to_int (70 + c_namesize h)).

(** ** The search for the magic number *)

(** What a call changes for a cpio archive: the header, the bytes that are left
    and the end of the archive. *)
Record cpio_reading := mkCpioReading { cr_hdr : new_cpio_header; cr_rest : bytes; cr_eoa : Z }.

Definition has_magic (magic : bytes) (s : string) : bool := strncmp (cstr magic) (L s) 6 =? 0.

(** c_magic of the six bytes. *)
Definition c_magic (magic : bytes) : Z :=
  match magic with a :: b :: _ => uchar a + 256 * uchar b | _ => 0 end.
Definition swab_short (i : Z) : Z := Z.lor (Z.land (Z.shiftl i 8) 65280) (Z.land (Z.shiftr i 8) 255).

Definition trailer_seen (h : new_cpio_header) (eoa : Z) : Z :=
  if streq (ahsStaticGetTarFilename h) CPIO_INBAND_EOA_FILENAME then 1 else eoa.

(** The six bytes are the magic number of the format: the reader that is
    called, [None] when it is not supported. *)
Definition magic_reader (f : archive_format) (magic : bytes)
    : option (option (new_cpio_header -> bytes -> option (new_cpio_header * bytes * Z))) :=
  if bool_decide (f = arf_newascii) && has_magic magic "070701"
     || bool_decide (f = arf_crcascii) && has_magic magic "070702"
  then Some (Some (fun h rest => taru_read_in_new_ascii h rest f))
  else if is_odc f && has_magic magic "070707"
  then Some (Some (fun h rest => '(h, rest, ret) ← taru_read_in_old_ascii2 h rest;
                                 Some (h, rest, if ret <=? 0 then -1 else ret)))
  else if is_format [arf_binary; arf_hpbinary] f
          && ((c_magic magic =? 29127) || (c_magic magic =? swab_short 29127))
  then Some None
  else None.

(** One round of while (1): the result, or the next six bytes. *)
Fixpoint magic_loop (fuel : nat) (r : cpio_reading) (magic : bytes) (f : archive_format) (retval : Z)
    : option (cpio_reading * Z) :=
  match fuel with
  | O => None
  | S fuel =>
      match magic_reader f magic with
      | Some (Some read) =>
          '(h, rest, ret) ← read (cr_hdr r) (cr_rest r);
          if ret <? 0 then Some (mkCpioReading h rest (cr_eoa r), - retval)
          else Some (mkCpioReading h rest (trailer_seen h (cr_eoa r)), retval + ret)
      | Some None => Some (r, retval)
      | None =>
          let '(b, rest) := taru_tape_buffered_read (cr_rest r) 1 in
          let r := mkCpioReading (cr_hdr r) rest (cr_eoa r) in
          match b with
          | [] => Some (r, - retval)
          | _ => magic_loop fuel r (drop 1 magic ++ b) f (retval + 1)
          end
      end
  end.

Definition read_cpio_header (r : cpio_reading) (f : archive_format) : option (cpio_reading * Z) :=
  let h := ahsStaticSetPaxLinkname (cr_hdr r) [] in
  let '(magic, rest) := taru_tape_buffered_read (cr_rest r) 6 in
  let r := mkCpioReading h rest (cr_eoa r) in
  if negb (zlen magic =? 6) then Some (r, -1)
  else magic_loop (S (length rest)) r magic f 6.

(** taru_read_header behind the header of a cpio archive: the link name is the
    data of the member. *)
Definition read_link_name (r : cpio_reading) (f : archive_format) (retval : Z) : option (cpio_reading * Z) :=
  let h := cr_hdr r in
  if Z.land (c_mode h) S_IFMT =? CP_IFLNK then
    let idx := to_int (c_filesize h) in
    let '(b, rest) := taru_tape_buffered_read (cr_rest r) (c_filesize h) in
    if (0 <=? idx) && (zlen b <=? idx) && ((zlen b =? idx) || terminated b) then
      let '(rest, skipped) := taru_tape_skip_padding rest (c_filesize h) f in
      Some (mkCpioReading (ahsStaticSetPaxLinkname h (cstr (b ++ [NUL]))) rest (cr_eoa r), retval + zlen b + skipped)
    else None
  else Some (mkCpioReading (ahsStaticSetPaxLinkname h []) (cr_rest r) (cr_eoa r), retval).

Section Input.
Context `{Malloc} `{SysDB} (stray : bool).

(** In every format; cpio archives are read from descriptors only. *)
Definition taru_read_in_header (rounds : nat) (r : reading) (f : archive_format) (flags : Z)
    : option (outcome (reading * Z + unit)) :=
  if bool_decide (f = arf_unknown) then Some (Returns (inl (r, -1)))
  else if is_tar f then
    res ← taru_read_in_tar_header2 stray rounds r flags TARRECORDSIZE;
    Some (match res with
          | Returns (inl (r, ret)) => Returns (inl (r, if ret <? 0 then -1 else ret))
          | res => res
          end)
  else
    match rd_src r with
    | Mem _ _ => None
    | Fd rest =>
        '(c, ret) ← read_cpio_header (mkCpioReading (rd_hdr r) rest (rd_eoa r)) f;
        Some (Returns (inl (mkReading (rd_taru r) (rd_caches r) (cr_hdr c) (Fd (cr_rest c)) (cr_eoa c), ret)))
    end.

Definition taru_read_header (rounds : nat) (r : reading) (f : archive_format) (flags : Z)
    : option (outcome (reading * Z + unit)) :=
  res ← taru_read_in_header rounds r f flags;
  match res with
  | Returns (inl (r, ret)) =>
      if ret <? 0 then Some (Returns (inl (r, -1)))
      else if is_tar f then Some (Returns (inl (r, ret)))
      else match rd_src r with
           | Mem _ _ => None
           | Fd rest =>
               '(c, ret) ← read_link_name (mkCpioReading (rd_hdr r) rest (rd_eoa r)) f ret;
               Some (Returns (inl (mkReading (rd_taru r) (rd_caches r) (cr_hdr c) (Fd (cr_rest c)) (cr_eoa c), ret)))
           end
  | res => Some res
  end.
End Input.
