(* ===== verification/CpioSpec.v ===== *)
(** * Specification of cpio headers

    The readers undo the writers: in the formats newc, crc and odc a header that
    fits is read back whole, from behind any junk without a magic number, and
    what follows it is left for the next read. *)

From S2P Require Import Prelude CString Numerals Strob Pathname Escape FileMode TarNumbers TarHeader SysDb FileHdr PaxHeader TarWrite TarRead Cpio.

(** ** What fits *)

(** The name with its NUL is as long as the header says. *)
Definition named (h : new_cpio_header) : Prop := no_nul (c_name h) /\ c_namesize h = zlen (c_name h) + 1.

Definition below (k : Z) (n : Z) : Prop := 0 <= n < k.

Definition newc_values (h : new_cpio_header) : list Z :=
  [c_ino h; c_mode h; c_uid h; c_gid h; c_nlink h; c_mtime h; c_filesize h;
   c_dev_maj h; c_dev_min h; c_rdev_maj h; c_rdev_min h; c_namesize h; c_chksum h].

Definition fits_newc (h : new_cpio_header) : Prop :=
  named h /\ c_namesize h <= 6000 /\ Forall (below (2 ^ 32)) (newc_values h).

Definition fits_odc (h : new_cpio_header) : Prop :=
  named h
  /\ Forall (below (2 ^ 16)) [c_ino h; c_mode h; c_uid h; c_gid h; c_nlink h; c_namesize h]
  /\ Forall (below (2 ^ 33)) [c_mtime h; c_filesize h]
  /\ Forall (below (2 ^ 8)) [c_dev_maj h; c_dev_min h; c_rdev_maj h; c_rdev_min h].

Definition fits (f : archive_format) (h : new_cpio_header) : Prop :=
  match f with
  | arf_newascii | arf_crcascii => fits_newc h
  | arf_oldascii => fits_odc h
  | _ => False
  end.

(** Take a list of bounds apart. *)
Ltac bounds :=
  repeat match goal with
  | H : Forall _ (_ :: _) |- _ => let B := fresh "B" in apply Forall_cons in H as [B H]
  | H : Forall _ [] |- _ => clear H
  end.

(** ** What arrives *)

Definition received_chksum (f : archive_format) (h h0 : new_cpio_header) : Z :=
  match f with arf_newascii => 0 | arf_crcascii => c_chksum h | _ => c_chksum h0 end.

(** The header that is read into [h0]. *)
Definition received (f : archive_format) (h h0 : new_cpio_header) : new_cpio_header :=
  mkHDR (c_ino h) (c_mode h) (c_uid h) (c_gid h) (c_nlink h) (c_mtime h) (c_filesize h)
    (c_dev_maj h) (c_dev_min h) (c_rdev_maj h) (c_rdev_min h) (c_namesize h) (received_chksum f h h0)
    (c_name h) [] (c_username h0) (c_groupname h0) (c_cu h0) (c_cg h0) (c_is_tar_lnktype h0) (usage_maskM h0)
    (extHeader_usage_maskM h0) (extHeader_needs_maskM h0) (extattlistM h0)
    (c_atime h0) (c_atime_nsec h0) (c_ctime h0) (c_ctime_nsec h0).

Definition format_magic (f : archive_format) : bytes :=
  match f with arf_newascii => L "070701" | arf_crcascii => L "070702" | _ => L "070707" end.

(** No magic number starts in the junk in front of a header. *)
Definition junk_ok (f : archive_format) (junk : bytes) : Prop :=
  forall i, (i < length junk)%nat -> magic_reader f (take 6 (drop i (junk ++ format_magic f))) = None.

(** ** The image of a header *)

Definition newc_fields_text (h : new_cpio_header) : bytes := concat (hex8 <$> newc_values h).

Definition newc_body (h : new_cpio_header) : bytes :=
  newc_fields_text h ++ c_name h ++ [NUL] ++ replicate (Z.to_nat (pad_to 4 (c_namesize h + 110))) NUL.

Lemma hex8_length n : below (2 ^ 32) n -> length (hex8 n) = 8%nat.
Proof. intros H. apply numeral_length; [lia|]. exact H. Qed.

Lemma concat_length_const {A} (ls : list (list A)) k : Forall (fun l => length l = k) ls ->
  length (concat ls) = (length ls * k)%nat.
Proof. intros H. induction H as [|l ls Hl H IH]; [done|]. cbn. rewrite length_app, Hl, IH. lia. Qed.

Lemma newc_fields_text_length h : Forall (below (2 ^ 32)) (newc_values h) -> length (newc_fields_text h) = 104%nat.
Proof.
  intros H. unfold newc_fields_text. rewrite (concat_length_const _ 8); [done|].
  apply Forall_fmap. eapply Forall_impl; [exact H|]. intros n Hn. by apply hex8_length.
Qed.

Lemma numeral_no_nul base w n : 2 <= base <= 16 -> 0 <= n -> no_nul (numeral base w n).
Proof.
  intros Hb Hn Hin. apply numeral_chars in Hin; [|done|done].
  change (uchar NUL) with 0 in Hin. lia.
Qed.

Lemma concat_no_nul ls : Forall no_nul ls -> no_nul (concat ls).
Proof. intros H. induction H; [apply no_nul_nil|]. cbn. by apply no_nul_app. Qed.

Lemma cstr_whole s : no_nul s -> cstr s = s.
Proof. intros H. rewrite <- (app_nil_r s) at 1. rewrite cstr_app_no_nul by done. cbn. by rewrite app_nil_r. Qed.

Lemma text_read_name s : no_nul s -> text_read (s ++ [NUL]) = Some s.
Proof. intros H. unfold text_read. by rewrite terminated_nul, cstr_app_nul. Qed.

Lemma read_exact s t : taru_tape_buffered_read (s ++ t) (zlen s) = (s, t).
Proof. unfold taru_tape_buffered_read, zlen. by rewrite Nat2Z.id, take_app_length, drop_app_length. Qed.

Lemma read_n s t n : n = zlen s -> taru_tape_buffered_read (s ++ t) n = (s, t).
Proof. intros ->. apply read_exact. Qed.

Lemma pad_rem k n : 0 < k -> 0 <= n -> pad_to k n = (k - n mod k) mod k.
Proof.
  intros. unfold pad_to. rewrite !Z.rem_mod_nonneg; try lia.
  rewrite Z.rem_mod_nonneg by lia. pose proof (Z.mod_pos_bound n k). lia.
Qed.

Lemma pad_range k n : 0 < k -> 0 <= n -> 0 <= pad_to k n < k.
Proof. intros. rewrite pad_rem by done. apply Z.mod_pos_bound. lia. Qed.

Lemma zeros_take n : (n <= 512)%nat -> take n zeros_512 = replicate n NUL.
Proof. intros. unfold zeros_512. rewrite take_replicate. f_equal. lia. Qed.

Lemma pad_output_eq out n f k : 0 <= n -> output_pad n f = pad_to k n -> 0 < k <= 512 ->
  taru_tape_pad_output out n f = Some (out ++ replicate (Z.to_nat (pad_to k n)) NUL, pad_to k n).
Proof.
  intros Hn Ho Hk. unfold taru_tape_pad_output. rewrite Ho.
  pose proof (pad_range k n ltac:(lia) Hn) as Hp. destruct (pad_to k n =? 0) eqn:E; zbool; cbn [negb].
  - rewrite E. cbn. by rewrite app_nil_r.
  - unfold tarui_tape_buffered_write. change (zlen zeros_512) with 512. ztest. by rewrite zeros_take by lia.
Qed.

Lemma write_name_eq h out : named h -> write_name h out = Some (out ++ c_name h ++ [NUL], c_namesize h).
Proof.
  intros [_ Hn]. unfold write_name, tarui_tape_buffered_write, name_object.
  pose proof (zlen_nonneg (c_name h)). rewrite Hn, zlen_snoc. ztest.
  rewrite take_ge; [done|]. rewrite length_app. unfold zlen. cbn. lia.
Qed.

(** ** Writing newc *)

(** The header that is printed, and left in the object. *)
Definition printed (f : archive_format) (h : new_cpio_header) : new_cpio_header :=
  match f with arf_newascii => put_c_chksum 0 h | _ => h end.

Lemma printed_fits f h : fits_newc h -> fits_newc (printed f h).
Proof.
  intros (Hn & Hs & Hv). destruct f; try exact (conj Hn (conj Hs Hv)). split; [exact Hn|]. split; [exact Hs|].
  unfold newc_values in *. cbn [printed put_c_chksum c_ino c_mode c_uid c_gid c_nlink c_mtime c_filesize c_dev_maj c_dev_min
    c_rdev_maj c_rdev_min c_namesize c_chksum].
  rewrite !Forall_cons in Hv |- *. unfold below in *. intuition lia.
Qed.

Lemma write_newc_eq f h out : f = arf_newascii \/ f = arf_crcascii -> fits_newc h ->
  let h' := printed f h in
  write_newc h out f = Some (h', out ++ format_magic f ++ newc_body h', 6 + zlen (newc_body h')).
Proof.
  intros Hf Hfit h'. pose proof (printed_fits f h Hfit) as Hfit'. fold h' in Hfit'.
  destruct Hfit' as (Hn & Hs & Hv).
  assert (Hh : (if bool_decide (f = arf_crcascii) then h else put_c_chksum 0 h) = h')
    by (by destruct Hf as [-> | ->]).
  assert (Hm : (if bool_decide (f = arf_crcascii) then L "070702" else L "070701") = format_magic f)
    by (by destruct Hf as [-> | ->]).
  assert (Hpad : forall n, output_pad n f = pad_to 4 n) by (by destruct Hf as [-> | ->]).
  assert (Hlm : zlen (format_magic f) = 6) by (by destruct Hf as [-> | ->]).
  unfold write_newc. rewrite Hh, Hm.
  pose proof (newc_fields_text_length h' Hv) as Hlen.
  assert (Htext : newc_text (format_magic f) h' = format_magic f ++ newc_fields_text h') by done.
  rewrite Htext. unfold sprintf_fits.
  assert (Hz : zlen (format_magic f ++ newc_fields_text h') = 110) by (rewrite zlen_app; unfold zlen in *; lia).
  rewrite Hz. ztest. obind.
  unfold tarui_tape_buffered_write at 1. rewrite zlen_snoc, Hz. ztest.
  rewrite take_app_le by (unfold zlen in Hz; lia). rewrite take_ge by (unfold zlen in Hz; lia). obind.
  rewrite write_name_eq by done. obind.
  pose proof (zlen_nonneg (c_name h')). destruct Hn as [_ Hns].
  rewrite (pad_output_eq _ _ f 4) by (lia || apply Hpad). obind.
  unfold newc_body. rewrite <- !app_assoc. do 3 f_equal.
  rewrite !zlen_app, zlen_replicate. pose proof (pad_range 4 (c_namesize h' + 110) ltac:(lia) ltac:(lia)).
  rewrite to_int_id by (unfold INT_MAX; lia). unfold zlen in *. rewrite Hlen. cbn [length]. lia.
Qed.

(** ** Reading newc *)

Lemma newc_fields_text_no_nul h : Forall (below (2 ^ 32)) (newc_values h) -> no_nul (newc_fields_text h).
Proof.
  intros H. apply concat_no_nul, Forall_fmap. eapply Forall_impl; [exact H|].
  intros n [Hn _]. by apply numeral_no_nul; [lia|].
Qed.

Lemma newc_scan h : Forall (below (2 ^ 32)) (newc_values h) ->
  sscanf_ul 16 (replicate 13 8%nat) (newc_fields_text h) = newc_values h.
Proof.
  intros H. pose proof (sscanf_ul_numerals 16 (pair 8%nat <$> newc_values h) [] ltac:(lia)) as Hs.
  rewrite app_nil_r in Hs. rewrite <- !list_fmap_compose in Hs. apply Hs.
  apply Forall_fmap. eapply Forall_impl; [exact H|]. intros n [? ?]. cbn [compose fst snd]. lia.
Qed.

Lemma newc_read_fields h h0 : fits_newc h ->
  tarui_read_new_ascii_from_buf h0 (newc_fields_text h)
  = Some (put_c_filesize (c_filesize h) (assign newc_fields (newc_values h) h0), 104).
Proof.
  intros (Hn & Hs & Hv). unfold tarui_read_new_ascii_from_buf. rewrite newc_scan by done.
  unfold newc_values at 1. cbn [lookup list_lookup]. obind.
  unfold assign, newc_fields, newc_values. cbn [zip zip_with foldl fst snd].
  cbn [put_c_filesize put_c_chksum put_c_namesize put_c_rdev_min put_c_rdev_maj put_c_dev_min put_c_dev_maj skip_field
       put_c_mtime put_c_nlink put_c_gid put_c_uid put_c_mode put_c_ino c_namesize].
  destruct (c_namesize h >? 6000) eqn:E; [zbool; lia|done].
Qed.

Lemma newc_read f h h0 rest : f = arf_newascii \/ f = arf_crcascii -> fits_newc h -> (f = arf_newascii -> c_chksum h = 0) ->
  taru_read_in_new_ascii (ahsStaticSetPaxLinkname h0 []) (newc_body h ++ rest) f
  = Some (received f h h0, rest, zlen (newc_body h)).
Proof.
  intros Hf Hfit Hsum. pose proof Hfit as (Hn & Hs & Hv). unfold taru_read_in_new_ascii, newc_body.
  pose proof (newc_fields_text_length h Hv) as Hlen.
  set (pad := replicate _ NUL). rewrite <- app_assoc.
  rewrite (read_n (newc_fields_text h)) by (unfold zlen; lia).
  replace (zlen (newc_fields_text h)) with 104 by (unfold zlen; lia). cbn [Z.eqb Pos.eqb negb].
  rewrite cstr_whole by (by apply newc_fields_text_no_nul). rewrite (newc_read_fields h) by done. obind.
  cbn [Z.ltb Z.compare]. destruct Hn as [Hnn Hns]. pose proof (zlen_nonneg (c_name h)).
  assert (Hcn : c_namesize (put_c_filesize (c_filesize h)
            (assign newc_fields (newc_values h) (ahsStaticSetPaxLinkname h0 []))) = c_namesize h) by done.
  rewrite Hcn. rewrite !(app_assoc (c_name h)), <- (app_assoc _ pad rest).
  rewrite (read_n (c_name h ++ [NUL])) by (rewrite zlen_snoc; lia).
  rewrite text_read_name by done. obind.
  assert (Hpz : zlen pad = pad_to 4 (c_namesize h + 110)).
  { subst pad. rewrite zlen_replicate. pose proof (pad_range 4 (c_namesize h + 110)). lia. }
  assert (Hip : input_pad (104 + c_namesize h + 6) f = zlen pad).
  { rewrite Hpz, pad_rem by lia. replace (104 + c_namesize h + 6) with (c_namesize h + 110) by lia.
    by destruct Hf as [-> | ->]. }
  assert (Hskip : taru_tape_skip_padding (pad ++ rest) (104 + c_namesize h + 6) f = (rest, zlen pad)).
  { unfold taru_tape_skip_padding. rewrite Hip. destruct (zlen pad =? 0) eqn:E; zbool; cbn [negb].
    - rewrite E. by rewrite (zlen_0 _ E).
    - unfold taru_read_amount. pose proof (zlen_nonneg pad). ztest. by rewrite read_exact. }
  assert (Hcn' : forall s, c_namesize (ahsStaticSetTarFilename (put_c_filesize (c_filesize h)
            (assign newc_fields (newc_values h) (ahsStaticSetPaxLinkname h0 []))) s) = c_namesize h) by done.
  rewrite Hcn', Hskip. do 2 f_equal; [f_equal|].
  - destruct Hf as [-> | ->]; unfold received; cbn [received_chksum]; [rewrite <- Hsum by done|]; by destruct h0.
  - rewrite !zlen_app. unfold zlen in *. cbn [length]. lia.
Qed.

(** ** The old ASCII header *)

Definition odc_values (h : new_cpio_header) : list Z :=
  [low16 (header_dev h); c_ino h; c_mode h; c_uid h; c_gid h; c_nlink h; low16 (header_rdev h); c_mtime h;
   c_namesize h; c_filesize h].

Definition odc_fields_text (h : new_cpio_header) : bytes :=
  concat ((fun f => numeral 8 f.1 f.2) <$> zip odc_widths (odc_values h)).

Definition odc_body (h : new_cpio_header) : bytes := odc_fields_text h ++ c_name h ++ [NUL].

Lemma low16_mod n : low16 n = n mod 2 ^ 16.
Proof. unfold low16. change 65535 with (Z.ones 16). by rewrite Z.land_ones by lia. Qed.

Lemma low16_id n : below (2 ^ 16) n -> low16 n = n.
Proof. intros H. rewrite low16_mod. by apply Z.mod_small. Qed.

Lemma low16_below n : below (2 ^ 16) (low16 n).
Proof. rewrite low16_mod. apply Z.mod_pos_bound. lia. Qed.

Lemma odc_values_fit h : fits_odc h ->
  Forall (fun f : nat * Z => (0 < f.1)%nat /\ 0 <= f.2 < 8 ^ Z.of_nat f.1 /\ f.2 < 2 ^ 64) (zip odc_widths (odc_values h)).
Proof.
  intros (Hn & H16 & H33 & H8). bounds. unfold below in *.
  unfold odc_widths, odc_values. cbn [zip zip_with].
  pose proof (low16_below (header_dev h)). pose proof (low16_below (header_rdev h)). unfold below in *.
  repeat (apply Forall_cons_2; [cbn [fst snd]; lia|]). apply Forall_nil_2.
Qed.

Lemma odc_text_eq h : fits_odc h ->
  odc_text (header_dev h) (header_rdev h) h = L "070707" ++ odc_fields_text h.
Proof.
  intros (Hn & H16 & H33 & H8). bounds.
  unfold odc_text.
  rewrite (low16_id (c_ino h)), (low16_id (c_mode h)), (low16_id (c_uid h)), (low16_id (c_gid h)),
    (low16_id (c_nlink h)), (low16_id (c_namesize h)) by done.
  unfold odc_fields_text, odc_widths, odc_values. cbn [zip zip_with fmap list_fmap concat fst snd].
  by rewrite app_nil_r.
Qed.

Lemma odc_fields_text_length h : fits_odc h -> zlen (odc_fields_text h) = 70.
Proof.
  intros H. apply odc_values_fit in H. unfold odc_fields_text, zlen.
  unfold odc_widths, odc_values in *. cbn [zip zip_with fmap list_fmap concat fst snd] in *.
  bounds. cbn [fst snd] in *.
  rewrite !length_app, !numeral_length by (lia || tauto). done.
Qed.

Lemma write_odc_eq h out : fits_odc h ->
  write_odc h out arf_oldascii = Some (h, out ++ L "070707" ++ odc_body h, 6 + zlen (odc_body h)).
Proof.
  intros H. unfold write_odc. rewrite bool_decide_true by done. rewrite (odc_text_eq h H).
  pose proof (odc_fields_text_length h H) as Hl. destruct H as (Hn & H16 & _).
  unfold sprintf_fits. assert (Hz : zlen (L "070707" ++ odc_fields_text h) = 76) by (rewrite zlen_app, Hl; done).
  rewrite Hz. ztest. obind. unfold tarui_tape_buffered_write at 1. rewrite zlen_snoc, Hz. ztest.
  rewrite take_app_le, take_ge by (unfold zlen in Hz; lia). obind.
  rewrite write_name_eq by done. obind. unfold odc_body. rewrite <- !app_assoc. do 3 f_equal.
  rewrite !zlen_app, Hl, zlen_cons, zlen_nil. destruct Hn as [_ Hns].
  bounds. unfold below in *. pose proof (zlen_nonneg (c_name h)).
  rewrite to_int_id by (unfold INT_MAX; lia). lia.
Qed.

Lemma odc_fields_text_no_nul h : fits_odc h -> no_nul (odc_fields_text h).
Proof.
  intros H. apply odc_values_fit in H. apply concat_no_nul, Forall_fmap.
  eapply Forall_impl; [exact H|]. intros f (_ & [Hf _] & _). by apply numeral_no_nul; [lia|].
Qed.

Lemma odc_scan h : fits_odc h -> sscanf_ul 8 odc_widths (odc_fields_text h) = odc_values h.
Proof.
  intros H. pose proof (sscanf_ul_numerals 8 _ [] ltac:(lia) (odc_values_fit h H)) as Hs.
  rewrite app_nil_r in Hs. exact Hs.
Qed.

(** The low 16 bits of a device number keep two bytes of its parts. *)
Lemma dev_low16 maj min : below (2 ^ 8) maj -> below (2 ^ 8) min ->
  dev_major (low16 (makedev maj min)) = maj /\ dev_minor (low16 (makedev maj min)) = min.
Proof.
  intros Hj Hn. assert (Hl : low16 (makedev maj min) = makedev maj min).
  { unfold low16. change 65535 with (Z.ones 16). apply Z.bits_inj'. intros i Hi. rewrite Z.land_spec.
    destruct (decide (i < 16)); [rewrite Z.ones_spec_low by lia; by rewrite andb_true_r|].
    rewrite Z.ones_spec_high by lia. rewrite andb_false_r. symmetry. unfold makedev, below in *.
    rewrite (bit_field_above maj 8 12), (bit_field_above min 8 8), !Z.lor_0_r, Z.lor_spec, !bit_field_spec by lia.
    rewrite (testbit_small maj 8), (testbit_small min 8) by lia. by rewrite !andb_false_r. }
  rewrite Hl. unfold below in *. by rewrite dev_major_makedev, dev_minor_makedev by lia.
Qed.

Lemma odc_read h h0 rest : fits_odc h ->
  taru_read_in_old_ascii2 (ahsStaticSetPaxLinkname h0 []) (odc_body h ++ rest)
  = Some (hpux_device (received arf_oldascii h h0), rest, zlen (odc_body h)).
Proof.
  intros H. unfold taru_read_in_old_ascii2, odc_body. pose proof (odc_fields_text_length h H) as Hl.
  rewrite <- app_assoc. rewrite (read_n (odc_fields_text h)) by done. rewrite Hl. cbn [Z.eqb Pos.eqb negb].
  rewrite cstr_whole by (by apply odc_fields_text_no_nul). rewrite odc_scan by done.
  assert (odc_values h !! 0%nat = Some (low16 (header_dev h))) as -> by done. obind.
  assert (odc_values h !! 6%nat = Some (low16 (header_rdev h))) as -> by done. obind.
  assert (odc_values h !! 9%nat = Some (c_filesize h)) as -> by done. obind.
  destruct H as ([Hnn Hns] & H16 & H33 & H8). bounds.
  destruct (dev_low16 (c_dev_maj h) (c_dev_min h)) as [Hj Hm]; [done|done|].
  destruct (dev_low16 (c_rdev_maj h) (c_rdev_min h)) as [Hrj Hrm]; [done|done|].
  fold (header_dev h) in Hj, Hm. fold (header_rdev h) in Hrj, Hrm. rewrite Hj, Hm, Hrj, Hrm.
  set (h1 := put_c_rdev_min _ _). assert (Hcn : c_namesize h1 = c_namesize h) by done. rewrite Hcn.
  unfold below in *. pose proof (zlen_nonneg (c_name h)).
  rewrite (read_n (c_name h ++ [NUL])) by (rewrite zlen_snoc; lia).
  rewrite to_int_id by (unfold INT_MAX; lia). rewrite zlen_snoc, <- Hns, Z.eqb_refl. cbn [negb].
  rewrite text_read_name by done. obind.
  assert (Hcn' : c_namesize (ahsStaticSetTarFilename h1 (c_name h)) = c_namesize h) by done.
  rewrite Hcn'. rewrite to_int_id by (unfold INT_MAX; lia).
  do 2 f_equal. rewrite !zlen_app, Hl, zlen_cons, zlen_nil. lia.
Qed.


(** ** The search for the magic number *)

(** The reader of a format that is modelled whole. *)
Definition reader (f : archive_format) : new_cpio_header -> bytes -> option (new_cpio_header * bytes * Z) :=
  if is_odc f
  then fun h rest => '(h, rest, ret) ← taru_read_in_old_ascii2 h rest; Some (h, rest, if ret <=? 0 then -1 else ret)
  else fun h rest => taru_read_in_new_ascii h rest f.

Definition known_format (f : archive_format) : Prop := f = arf_newascii \/ f = arf_crcascii \/ f = arf_oldascii.

Lemma magic_reader_known f : known_format f -> magic_reader f (format_magic f) = Some (Some (reader f)).
Proof. by intros [-> | [-> | ->]]. Qed.

Lemma format_magic_length f : length (format_magic f) = 6%nat.
Proof. by destruct f. Qed.

Lemma format_magic_zlen f : zlen (format_magic f) = 6.
Proof. by destruct f. Qed.

(** The loop passes over the junk. *)
Lemma magic_loop_junk f tail : forall junk fuel magic rest retval h0 eoa,
  known_format f -> junk_ok f junk -> length magic = 6%nat -> magic ++ rest = junk ++ format_magic f ++ tail ->
  (length junk < fuel)%nat ->
  exists fuel', magic_loop fuel (mkCpioReading h0 rest eoa) magic f retval
    = magic_loop (S fuel') (mkCpioReading h0 tail eoa) (format_magic f) f (retval + zlen junk).
Proof.
  intros junk. induction junk as [|j junk IH]; intros fuel magic rest retval h0 eoa Hf Hj Hm Heq Hfuel.
  - cbn [app] in Heq. apply app_inj_1 in Heq as [-> ->]; [|by rewrite format_magic_length].
    destruct fuel as [|fuel]; [cbn in Hfuel; lia|]. exists fuel. f_equal. unfold zlen. cbn. lia.
  - destruct fuel as [|fuel]; [cbn in Hfuel; lia|]. cbn [magic_loop].
    assert (Hmag : magic = take 6 ((j :: junk) ++ format_magic f)).
    { transitivity (take 6 (magic ++ rest)); [by rewrite take_app_le, take_ge by lia|].
      rewrite Heq, app_assoc. apply take_app_le. rewrite length_app, format_magic_length. cbn. lia. }
    pose proof (Hj 0%nat ltac:(cbn; lia)) as H0. rewrite drop_0, <- Hmag in H0. rewrite H0. cbn [cr_rest cr_hdr cr_eoa].
    destruct rest as [|b rest].
    { exfalso. apply (f_equal length) in Heq. rewrite !length_app, format_magic_length in Heq. cbn in Heq. lia. }
    change (taru_tape_buffered_read (b :: rest) 1) with ([b], rest).
    destruct magic as [|m0 magic]; [done|]. cbn [app] in Heq.
    change (drop 1 (m0 :: magic)) with magic. injection Heq as -> Heq.
    destruct (IH fuel (magic ++ [b]) rest (retval + 1) h0 eoa Hf) as [fuel' Hloop].
    + intros i Hi. apply (Hj (S i)). cbn. lia.
    + rewrite length_app. cbn in Hm |- *. lia.
    + by rewrite <- app_assoc.
    + cbn in Hfuel. lia.
    + exists fuel'. rewrite Hloop. replace (retval + 1 + zlen junk) with (retval + zlen (j :: junk)); [done|].
      rewrite zlen_cons. lia.
Qed.

(** A header behind junk, when the reader of the format reads what is behind
    the magic number. *)
Lemma read_cpio_header_junk f junk body rest h h0 eoa :
  known_format f -> junk_ok f junk ->
  reader f (ahsStaticSetPaxLinkname h0 []) (body ++ rest) = Some (h, rest, zlen body) ->
  read_cpio_header (mkCpioReading h0 (junk ++ format_magic f ++ body ++ rest) eoa) f
  = Some (mkCpioReading h rest (trailer_seen h eoa), 6 + zlen junk + zlen body).
Proof.
  intros Hf Hj Hr. unfold read_cpio_header. cbn [cr_hdr cr_rest cr_eoa].
  set (src := junk ++ _). assert (Hlen : (6 <= length src)%nat).
  { subst src. rewrite !length_app, format_magic_length. lia. }
  assert (Hsplit : taru_tape_buffered_read src 6 = (take 6 src, drop 6 src)) by done. rewrite Hsplit.
  assert (zlen (take 6 src) = 6) as -> by (unfold zlen; rewrite length_take; lia). cbn [Z.eqb Pos.eqb negb].
  destruct (magic_loop_junk f (body ++ rest) junk (S (length (drop 6 src))) (take 6 src) (drop 6 src) 6
              (ahsStaticSetPaxLinkname h0 []) eoa Hf Hj) as [fuel ->].
  - rewrite length_take. lia.
  - by rewrite take_drop.
  - rewrite length_drop. subst src. rewrite !length_app, format_magic_length. lia.
  - cbn [magic_loop]. rewrite magic_reader_known by done. cbn [cr_hdr cr_rest cr_eoa]. rewrite Hr. obind.
    pose proof (zlen_nonneg body). destruct (zlen body <? 0) eqn:E; zbool; [lia|]. done.
Qed.

(** ** The round trip *)

(** The bytes of a header in its archive. *)
Definition header_image (f : archive_format) (h : new_cpio_header) : bytes :=
  format_magic f ++ if is_odc f then odc_body h else newc_body (printed f h).

(** HP-UX archives are read as if a device number were in the file size. *)
Definition not_hpux (h : new_cpio_header) : Prop :=
  is_special (c_mode h) = true -> c_rdev_maj h = 0 -> c_rdev_min h = 1 -> c_filesize h = 0.

Lemma hpux_device_id h : not_hpux h -> hpux_device h = h.
Proof.
  intros H. unfold hpux_device, not_hpux in *. destruct (_ && _) eqn:E; [|done]. zbool.
  exfalso. auto.
Qed.

Lemma received_printed f h h0 : known_format f -> received f (printed f h) h0 = received f h h0.
Proof. by intros [-> | [-> | ->]]. Qed.

Lemma reader_received f h h0 rest : known_format f -> fits f h -> not_hpux h ->
  exists body, header_image f h = format_magic f ++ body
    /\ reader f (ahsStaticSetPaxLinkname h0 []) (body ++ rest) = Some (received f h h0, rest, zlen body).
Proof.
  intros Hf Hfit Hhp.
  exists (if is_odc f then odc_body h else newc_body (printed f h)). split; [done|].
  destruct (decide (f = arf_oldascii)) as [-> |Hne].
  - unfold reader. change (is_odc arf_oldascii) with true. lazy iota beta. rewrite (odc_read h h0 rest Hfit). obind.
    rewrite hpux_device_id by exact Hhp. do 2 f_equal.
    destruct Hfit as [_ ?]. pose proof (zlen_nonneg (odc_body h)).
    destruct (zlen (odc_body h) <=? 0) eqn:E; [|done]. zbool. exfalso.
    unfold odc_body in *. rewrite !zlen_app, zlen_cons in *.
    pose proof (zlen_nonneg (odc_fields_text h)). pose proof (zlen_nonneg (c_name h)). rewrite zlen_nil in *. lia.
  - assert (Hf' : f = arf_newascii \/ f = arf_crcascii) by (destruct Hf as [? | [? | ?]]; tauto).
    assert (Ho : is_odc f = false) by (by destruct Hf' as [-> | ->]). unfold reader. rewrite Ho.
    rewrite <- received_printed by done.
    apply newc_read; [done| |by intros ->]. apply printed_fits. by destruct Hf' as [-> | ->].
Qed.

Section RoundTrip.
Context `{Malloc} `{SysDB} (nobody : Z * bool).

Lemma write_header_eq f h taru c out flags : known_format f -> fits f h ->
  bit flags TARU_TAR_DO_STRIP_LEADING_SLASH = false ->
  taru_write_out_header nobody taru c h out f flags
  = Some (taru, c, printed f h, out ++ header_image f h, zlen (header_image f h)).
Proof.
  intros Hf Hfit Hs. unfold taru_write_out_header, header_image. rewrite Hs, zlen_app.
  destruct Hf as [-> | [-> | ->]]; cbn [fits] in Hfit;
    [rewrite (write_newc_eq _ h out) by auto | rewrite (write_newc_eq _ h out) by auto | rewrite (write_odc_eq h out) by done];
    done.
Qed.

(** C20: The cpio readers undo the writer.  In the formats newc, crc and odc a
    header whose numbers fit (32 bits each in newc and crc, 16 and 33 bits in
    odc) and whose name length is right is written as its image, whose length
    is returned and in newc and crc is a multiple of 4.  Reading it from behind
    any bytes in which no magic number starts gives all its fields and its
    name, whatever the header held before, the number of bytes that were read
    with the ones skipped, and leaves exactly what follows the header; the end
    of the archive is signalled when the name is that of the trailer. *)
Theorem cpio_header_roundtrip (f : archive_format) (h : new_cpio_header) (taru : TARU) (c : SYSDBCACHES)
    (out : bytes) (flags : Z) (Hf : known_format f) (Hfit : fits f h) (Hhp : not_hpux h)
    (Hflags : bit flags TARU_TAR_DO_STRIP_LEADING_SLASH = false) :
  exists h' image,
    taru_write_out_header nobody taru c h out f flags = Some (taru, c, h', out ++ image, zlen image)
    /\ (is_newc f = true -> (zlen image) mod 4 = 0)
    /\ forall junk rest h0 eoa, junk_ok f junk ->
         read_cpio_header (mkCpioReading h0 (junk ++ image ++ rest) eoa) f
         = Some (mkCpioReading (received f h h0) rest (if streq (c_name h) CPIO_INBAND_EOA_FILENAME then 1 else eoa),
                 zlen junk + zlen image).
Proof.
  exists (printed f h), (header_image f h). split; [by apply write_header_eq|]. split.
  - intros Hn. unfold header_image.
    assert (Ho : is_odc f = false) by (by destruct f). rewrite Ho, zlen_app.
    assert (Hf' : fits_newc h) by (by destruct f).
    destruct (printed_fits f h Hf') as ([_ Hns] & _ & Hv).
    unfold newc_body. rewrite !zlen_app, zlen_replicate. unfold zlen at 2. rewrite newc_fields_text_length by done.
    rewrite format_magic_zlen. pose proof (zlen_nonneg (c_name (printed f h))).
    pose proof (pad_range 4 (c_namesize (printed f h) + 110)). rewrite Z2Nat.id by lia.
    rewrite pad_rem by lia. rewrite zlen_cons, zlen_nil. rewrite Hns. Z.to_euclidean_division_equations. lia.
  - intros junk rest h0 eoa Hj.
    destruct (reader_received f h h0 rest Hf Hfit Hhp) as (body & -> & Hr).
    rewrite <- app_assoc. rewrite (read_cpio_header_junk f junk body rest _ h0 eoa Hf Hj Hr).
    do 2 f_equal. rewrite zlen_app, format_magic_zlen. lia.
Qed.
End RoundTrip.

(** ** The trailer *)

Lemma trailer_fits f now : known_format f -> fits f (trailer_header now) /\ not_hpux (trailer_header now).
Proof.
  intros Hf. split; [|done].
  assert (Hn : named (trailer_header now)) by (split; [by apply no_nul_compute|done]).
  destruct Hf as [-> | [-> | ->]]; cbn [fits]; (split; [exact Hn|]); cbn;
    repeat match goal with
    | |- _ /\ _ => split
    | |- Forall _ (_ :: _) => apply Forall_cons_2; [unfold below; lia|]
    | |- Forall _ [] => apply Forall_nil_2
    end; try lia; unfold newc_values; cbn;
    repeat (apply Forall_cons_2; [unfold below; lia|]); apply Forall_nil_2.
Qed.

Lemma clear_block out n : 0 <= n < 512 ->
  tape_clear_rest_of_block out 512 n = Some (out ++ replicate (Z.to_nat (512 - n)) NUL, 512 - n).
Proof.
  intros Hn. unfold tape_clear_rest_of_block. rewrite Z.rem_small by lia.
  change (S (Z.to_nat 512)) with (S (S (Z.to_nat 511))). cbn [clear_loop]. ztest.
  unfold tarui_tape_buffered_write. change (zlen zeros_512) with 512. ztest. obind.
  ztest. rewrite zeros_take by lia. done.
Qed.

Lemma rem_block out n : 0 <= n -> tape_clear_rest_of_block out 512 n = tape_clear_rest_of_block out 512 (n mod 512).
Proof.
  intros Hn. unfold tape_clear_rest_of_block. rewrite !Z.rem_mod_nonneg by (try apply Z.mod_pos_bound; lia).
  by rewrite Z.mod_mod by lia.
Qed.

Lemma write_zero_blocks_eq n : forall out ret,
  write_zero_blocks n out ret = Some (out ++ replicate (n * 512) NUL, ret + 512 * Z.of_nat n).
Proof.
  induction n as [|n IH]; intros out ret; cbn [write_zero_blocks].
  - cbn. rewrite app_nil_r. do 2 f_equal. lia.
  - unfold tarui_tape_buffered_write. change (zlen zeros_512) with 512. ztest. obind. rewrite IH.
    rewrite zeros_take, <- app_assoc, <- replicate_add by lia. do 2 f_equal. lia.
Qed.

(** The size of a block of the archive, a multiple of 512. *)
Definition blocking (io_block_size : Z) : Z := if io_block_size =? 0 then 10240 else io_block_size.

Lemma trailer_blocks_spec io written flags : 0 <= io -> io mod 512 = 0 -> io < 2 ^ 30 -> 0 <= written -> written mod 512 = 0 ->
  2 <= trailer_blocks io written flags <= 2 ^ 21 + 1
  /\ (bit flags TARU_TAR_GNU_BLOCKSIZE_B1 = false -> bit flags TARU_TAR_GNU_OLDGNUTAR = true ->
      (written + 512 * trailer_blocks io written flags) mod blocking io = 0).
Proof.
  intros Hio Hmod Hmax Hw Hwm. unfold trailer_blocks, blocking.
  destruct (bit flags TARU_TAR_GNU_BLOCKSIZE_B1); [destruct (bit flags TARU_TAR_BE_LIKE_STAR); split; done || lia|].
  destruct (bit flags TARU_TAR_GNU_OLDGNUTAR); [|split; done || lia].
  assert (exists b, (if negb (io =? 0) then io else 10240) = 512 * b /\ (if io =? 0 then 10240 else io) = 512 * b
                    /\ 1 <= b < 2 ^ 21) as (b & -> & -> & Hb).
  { destruct (io =? 0) eqn:E; zbool; cbn [negb]; [exists 20; lia|]. exists (io / 512).
    Z.to_euclidean_division_equations. lia. }
  assert (exists w, written = 512 * w /\ 0 <= w) as (w & -> & Hw').
  { exists (written / 512). Z.to_euclidean_division_equations. lia. }
  rewrite to_size_id by lia. rewrite Z.mul_mod_distr_l by lia.
  rewrite (Z.mul_comm 512 b), Z.quot_mul, (Z.mul_comm 512 (w mod b)), Z.quot_mul by lia.
  pose proof (Z.mod_pos_bound w b). pose proof (Z.div_mod w b).
  split; [destruct (b - w mod b <? 2) eqn:E; zbool; lia|]. intros _ _.
  assert (Hq : exists k, 512 * w + 512 * (if b - w mod b <? 2 then b - w mod b + b else b - w mod b) = k * (b * 512)).
  { destruct (b - w mod b <? 2); [exists (w / b + 2)|exists (w / b + 1)]; nia. }
  destruct Hq as [k ->]. apply Z.mod_mul. lia.
Qed.

Section Trailer.
Context `{Malloc} `{SysDB} (nobody : Z * bool).

Definition trailer_image (f : archive_format) (now : Z) : bytes := header_image f (trailer_header now).

Lemma trailer_image_length f now : known_format f -> 0 < zlen (trailer_image f now) <= 200.
Proof. intros [-> | [-> | ->]]; vm_compute; split; congruence. Qed.

(** The trailer of a cpio archive, with zeros to the end of the block unless
    nothing is said to be in front of it. *)
Lemma cpio_trailer_written f now taru c out io written flags : known_format f -> 0 <= written < 2 ^ 63 ->
  exists zeros,
    taru_write_archive_trailer nobody now taru c f out io written flags
    = Some (taru, c, out ++ trailer_image f now ++ replicate zeros NUL, zlen (trailer_image f now) + Z.of_nat zeros)
    /\ (0 < written -> (written + zlen (trailer_image f now) + Z.of_nat zeros) mod 512 = 0).
Proof.
  intros Hf Hb. destruct (trailer_fits f now Hf) as [Hfit Hhp]. pose proof (trailer_image_length f now Hf) as Hlen.
  set (hd := trailer_image f now) in *.
  pose proof (Z.mod_pos_bound (written + zlen hd) 512 ltac:(lia)) as Hm.
  unfold taru_write_archive_trailer. assert (Ht : is_tar f = false) by (by destruct Hf as [-> | [-> | ->]]).
  rewrite Ht. cbn [negb]. rewrite (write_header_eq nobody f (trailer_header now)) by done. obind.
  fold (trailer_image f now). fold hd. destruct (written =? 0) eqn:E; zbool; cbn [negb].
  - exists 0%nat. cbn [replicate]. rewrite app_nil_r, Z.add_0_r. split; [done|lia].
  - exists (Z.to_nat (512 - (written + zlen hd) mod 512)).
    ztest. rewrite to_size_id by lia. rewrite rem_block, clear_block by lia. obind. split; [|intros _].
    + rewrite <- app_assoc. do 2 f_equal. rewrite to_int_id by (unfold INT_MAX; lia). lia.
    + rewrite Z2Nat.id by lia. Z.to_euclidean_division_equations. lia.
Qed.

Lemma trailer_read f now h0 eoa rest : known_format f ->
  read_cpio_header (mkCpioReading h0 (trailer_image f now ++ rest) eoa) f
  = Some (mkCpioReading (received f (trailer_header now) h0) rest 1, zlen (trailer_image f now)).
Proof.
  intros Hf. destruct (trailer_fits f now Hf) as [Hfit Hhp].
  destruct (reader_received f (trailer_header now) h0 rest Hf Hfit Hhp) as (body & Hi & Hr).
  unfold trailer_image. rewrite Hi, <- app_assoc.
  pose proof (read_cpio_header_junk f [] body rest _ h0 eoa Hf ltac:(intros i Hi'; cbn in Hi'; lia) Hr) as Hread.
  cbn [app] in Hread. rewrite Hread. do 2 f_equal. rewrite zlen_app, format_magic_zlen, zlen_nil. lia.
Qed.

(** C23: The trailer of an archive is what its readers expect.  Behind the
    bytes of a cpio archive it is a header with the name TRAILER!!! that reads
    back as the end of the archive, and zeros up to a multiple of 512 bytes;
    the value that is returned is its length.  Behind a tar archive it is at
    least two blocks of zeros, and with the flag for the old GNU format the
    archive ends on a boundary of its block size. *)
Theorem archive_trailer (f : archive_format) (now : Z) (taru : TARU) (c : SYSDBCACHES) (out : bytes)
    (io_block_size bytes_written flags : Z) (Hb : 0 < bytes_written < 2 ^ 63)
    (Hio : 0 <= io_block_size < 2 ^ 30 /\ io_block_size mod 512 = 0) :
  (known_format f ->
   exists header zeros,
     taru_write_archive_trailer nobody now taru c f out io_block_size bytes_written flags
     = Some (taru, c, out ++ header ++ replicate zeros NUL, zlen header + Z.of_nat zeros)
     /\ (bytes_written + zlen header + Z.of_nat zeros) mod 512 = 0
     /\ forall h0 eoa rest,
          read_cpio_header (mkCpioReading h0 (header ++ rest) eoa) f
          = Some (mkCpioReading (received f (trailer_header now) h0) rest 1, zlen header))
  /\ (is_tar f = true -> bytes_written mod 512 = 0 ->
      exists n, (2 <= n)%nat
        /\ taru_write_archive_trailer nobody now taru c f out io_block_size bytes_written flags
           = Some (taru, c, out ++ replicate (n * 512) NUL, 512 * Z.of_nat n)
        /\ (bit flags TARU_TAR_GNU_BLOCKSIZE_B1 = false -> bit flags TARU_TAR_GNU_OLDGNUTAR = true ->
            (bytes_written + 512 * Z.of_nat n) mod blocking io_block_size = 0)).
Proof.
  split.
  - intros Hf. destruct (cpio_trailer_written f now taru c out io_block_size bytes_written flags Hf) as (zeros & Hw & Hz); [lia|].
    exists (trailer_image f now), zeros. split; [done|]. split; [apply Hz; lia|]. intros h0 eoa rest. by apply trailer_read.
  - intros Ht Hmod. destruct (trailer_blocks_spec io_block_size bytes_written flags) as [Hn Hold]; [lia..|].
    exists (Z.to_nat (trailer_blocks io_block_size bytes_written flags)). split; [lia|].
    rewrite Z2Nat.id by lia. split; [|done]. unfold taru_write_archive_trailer. rewrite Ht. cbn [negb].
    rewrite Hmod. cbn [Z.eqb negb]. rewrite write_zero_blocks_eq. obind. do 2 f_equal.
    rewrite Z2Nat.id, to_int_id by (unfold INT_MAX; lia). lia.
Qed.
End Trailer.

(** ** What goes wrong *)

(** A name length above 6000 is reported by the reader as one byte read, so
    that the callers, which look for a negative value, go on with the header. *)
Lemma bad_name_size_is_no_error f h h0 rest : Forall (below (2 ^ 32)) (newc_values h) -> 6000 < c_namesize h ->
  taru_read_in_new_ascii h0 (newc_fields_text h ++ rest) f
  = Some (put_c_filesize (c_filesize h) (assign newc_fields (newc_values h) h0), rest, 1).
Proof.
  intros Hv Hs. pose proof (newc_fields_text_length h Hv) as Hlen. unfold taru_read_in_new_ascii.
  rewrite (read_n (newc_fields_text h)) by (unfold zlen; lia).
  replace (zlen (newc_fields_text h)) with 104 by (unfold zlen; lia). cbn [Z.eqb Pos.eqb negb].
  rewrite cstr_whole by (by apply newc_fields_text_no_nul).
  unfold tarui_read_new_ascii_from_buf. rewrite newc_scan by done.
  assert (newc_values h !! 6%nat = Some (c_filesize h)) as -> by done. obind.
  assert (Hcn : c_namesize (put_c_filesize (c_filesize h) (assign newc_fields (newc_values h) h0)) = c_namesize h) by done.
  rewrite Hcn. destruct (c_namesize h >? 6000) eqn:E; [|zbool; lia]. done.
Qed.

Module Witness.
Definition plain : new_cpio_header :=
  mkHDR 42 33188 1000 100 1 1300000000 5 8 1 0 0 4 77 (L "a/b") [] [] [] 0 0 0 0 0 0 [] 0 0 0 0.

(** A file of 4 GiB is printed with nine digits; the header that is read has
    another size, another device and another name length, and the name is lost. *)
Definition huge : new_cpio_header := put_c_filesize (2 ^ 32) plain.

Definition written : option (new_cpio_header * bytes * Z) := write_newc huge [] arf_newascii.

Example huge_file_is_garbled :
  (w ← written; r ← tarui_read_new_ascii_from_buf plain (take 104 (drop 6 w.1.2));
   Some (c_filesize r.1, c_dev_maj r.1, c_namesize r.1)) = Some (2 ^ 28, 0, 0).
Proof. by vm_compute. Qed.

#[local] Instance junk_y : Malloc := fun _ => "y"%char.
#[local] Instance nobody_there : SysDB :=
  {| getpwnam := fun _ => None; getpwuid := fun _ => None; getgrnam := fun _ => None; getgrgid := fun _ => None |}.

Definition buffer : STROB := mkSTROB [] None 0 0 0 0.
Definition object : TARU := mkTARU buffer 0 0 0 buffer buffer buffer 0 buffer.
Definition no_caches : SYSDBCACHES := mkSYSDBCACHES empty_cache empty_cache.

Lemma plain_fits f : known_format f -> fits f plain.
Proof.
  intros Hf. assert (Hn : named plain) by (split; [by apply no_nul_compute|done]).
  destruct Hf as [-> | [-> | ->]]; cbn [fits]; (split; [exact Hn|]); cbn;
    repeat match goal with
    | |- _ /\ _ => split
    | |- Forall _ (_ :: _) => apply Forall_cons_2; [unfold below; lia|]
    | |- Forall _ [] => apply Forall_nil_2
    end; try lia; unfold newc_values; cbn;
    repeat (apply Forall_cons_2; [unfold below; lia|]); apply Forall_nil_2.
Qed.

Definition junk : bytes := L "070".

Lemma cpio_header_roundtrip_witness :
  (exists h' image,
    taru_write_out_header (0, true) object no_caches plain (L "old") arf_crcascii 0
    = Some (object, no_caches, h', L "old" ++ image, zlen image)
    /\ (is_newc arf_crcascii = true -> (zlen image) mod 4 = 0)
    /\ forall junk rest h0 eoa, junk_ok arf_crcascii junk ->
         read_cpio_header (mkCpioReading h0 (junk ++ image ++ rest) eoa) arf_crcascii
         = Some (mkCpioReading (received arf_crcascii plain h0) rest
                   (if streq (c_name plain) CPIO_INBAND_EOA_FILENAME then 1 else eoa), zlen junk + zlen image))
  /\ junk_ok arf_crcascii junk.
Proof.
  split.
  - apply (cpio_header_roundtrip (0, true) arf_crcascii plain object no_caches (L "old") 0).
    + right. by left.
    + apply plain_fits. right. by left.
    + done.
    + done.
  - intros i Hi. cbn in Hi. do 3 (destruct i as [|i]; [by vm_compute|]). lia.
Defined.

Lemma archive_trailer_witness :
  (known_format arf_newascii ->
   exists header zeros,
     taru_write_archive_trailer (0, true) 1300000000 object no_caches arf_newascii (L "x") 0 1 0
     = Some (object, no_caches, L "x" ++ header ++ replicate zeros NUL, zlen header + Z.of_nat zeros)
     /\ (1 + zlen header + Z.of_nat zeros) mod 512 = 0
     /\ forall h0 eoa rest,
          read_cpio_header (mkCpioReading h0 (header ++ rest) eoa) arf_newascii
          = Some (mkCpioReading (received arf_newascii (trailer_header 1300000000) h0) rest 1, zlen header))
  /\ known_format arf_newascii.
Proof.
  split; [|by left].
  apply (archive_trailer (0, true) arf_newascii 1300000000 object no_caches (L "x") 0 1 0); [lia|].
  split; [lia|done].
Defined.
End Witness.
