(* ===== verification/Defer.v ===== *)
(** * Deferred hard links of cpio archives (swsupplib/taru/defer.c)

    In a newc or crc archive the data of a file with several links is stored
    with its last link: the headers of the others are kept until then and
    written without data. *)

From S2P Require Import Prelude CString Numerals Strob Pathname Escape FileMode TarNumbers TarHeader SysDb FileHdr PaxHeader TarWrite TarRead Cpio.

(** ** The data of a member *)

Section Data.
Implicit Types (h : new_cpio_header) (out rest : bytes).

(** swlib_pump_amount8: up to [n] bytes, all of them when [n] is negative. *)
Definition pump (out rest : bytes) (n : Z) : bytes * bytes * Z :=
  if n <? 0 then (out ++ rest, [], zlen rest)
  else let '(b, rest) := taru_tape_buffered_read rest n in (out ++ b, rest, zlen b).

Definition has_data h : bool :=
  (Z.land (c_mode h) S_IFMT =? CP_IFREG) && (zlen (ahsStaticGetTarLinkname h) =? 0).

(** The bytes that were written, those that are left, and the amount.  fout and
    adjuct_ofd are not used. *)
Definition write_data h out rest (f : archive_format) : option (bytes * bytes * Z) :=
  if has_data h then
    let '(out, rest, ret) := pump out rest (to_long (c_filesize h)) in
    if negb (ret =? to_long (c_filesize h)) then Some (out, rest, -1)
    else
      '(out, pad) ← taru_tape_pad_output out (to_long (c_filesize h)) f;
      Some (out, rest, ret + pad)
  else Some (out, rest, 0).

(** input_fd < 0: the data comes from the file with the name, [contents] of the
    file system ([None]: open fails). *)
Definition write_file_data (contents : bytes -> option bytes) h out (f : archive_format) : option (bytes * Z) :=
  if has_data h then
    match contents (ahsStaticGetTarFilename h) with
    | None => Some (out, -1)
    | Some data => '(out, _, ret) ← write_data h out data f; Some (out, ret)
    end
  else Some (out, 0).

(** taru_read_for_crc_checksum with the position put back: whole buffers are
    read, and every byte of them counts. *)
Definition TARU_BUFSIZ : Z := 8192.

Fixpoint byte_sum (bs : bytes) : Z := match bs with c :: bs => uchar c + byte_sum bs | [] => 0 end.

Fixpoint crc_loop (fuel : nat) rest (bytes_left crc : Z) : option Z :=
  match fuel with
  | O => None
  | S fuel =>
      if bytes_left >? 0 then
        let '(buf, rest) := taru_tape_buffered_read rest TARU_BUFSIZ in
        if zlen buf =? 0 then Some crc
        else crc_loop fuel rest (bytes_left - zlen buf) (to_size (crc + byte_sum buf))
      else Some crc
  end.

Definition taru_read_for_crc_checksum rest (file_size : Z) : option Z :=
  crc_loop (S (length rest)) rest file_size 0.
End Data.

(** ** The deferred members *)

(** The TARU object that defer_set_taru records is the one of the caller, which
    the functions get as an argument; a list of headers for the linked list. *)
Record DEFER := mkDEFER { formatM : archive_format; deferoutsM : list new_cpio_header }.

Definition defer_open (format : archive_format) : DEFER := mkDEFER format [].
Definition defer_set_format (def : DEFER) (format : archive_format) : DEFER := mkDEFER format (deferoutsM def).

(** The three numbers are compared as int. *)
Definition same_link (h g : new_cpio_header) : bool :=
  (to_int (c_ino h) =? to_int (c_ino g)) && (to_int (c_dev_maj h) =? to_int (c_dev_maj g))
  && (to_int (c_dev_min h) =? to_int (c_dev_min g)).

Fixpoint count_links (ds : list new_cpio_header) (h : new_cpio_header) : Z :=
  match ds with
  | d :: ds => (if same_link d h then 1 else 0) + count_links ds h
  | [] => 0
  end.

Definition def_count_defered_links_to_dev_ino (def : DEFER) (h : new_cpio_header) : Z :=
  count_links (deferoutsM def) h.

Definition defer_is_last_link (def : DEFER) (h : new_cpio_header) : bool :=
  to_int (c_nlink h) =? def_count_defered_links_to_dev_ino def h + 1.

Definition def_create_deferment (now : Z) (h : new_cpio_header) : new_cpio_header :=
  ahsStaticSetPaxLinkname (taru_filehdr2filehdr (ahsStaticCreateFilehdr now) h) [].

Definition defer_add_link_defer (now : Z) (def : DEFER) (h : new_cpio_header) : DEFER :=
  mkDEFER (formatM def) (deferoutsM def ++ [def_create_deferment now h]).

Section Defer.
Context `{Malloc} `{SysDB} (nobody : Z * bool) (contents : bytes -> option bytes).
Implicit Types (h : new_cpio_header) (out : bytes).

(** What is written to the descriptor, and the objects of the writer. *)
Definition writer_state : Type := TARU * SYSDBCACHES * bytes.

Definition put_header_out (w : writer_state) h (f : archive_format) (flags : Z)
    : option (writer_state * new_cpio_header * Z) :=
  let '(taru, c, out) := w in
  '(taru, c, h, out, ret) ← taru_write_out_header nobody taru c h out f flags;
  Some ((taru, c, out), h, ret).

Definition def_writeout_defered_file (w : writer_state) h (f : archive_format) : option (writer_state * Z) :=
  '(w, h, ret) ← put_header_out w h f 0;
  let '(taru, c, out) := w in
  '(out, ret2) ← write_file_data contents h out f;
  Some ((taru, c, out), ret + ret2).

(** while (d != NULL): [before] are the members that were passed, so that
    [before ++ d :: ds] is the list as it is at that time. *)
Fixpoint writeout_loop (ds before : list new_cpio_header) (w : writer_state) h (f : archive_format)
    (is_final : bool) (retval : Z) : option (list new_cpio_header * writer_state * Z) :=
  match ds with
  | [] => Some (before, w, retval)
  | d :: ds =>
      if same_link d h then
        let remaining_links := count_links (before ++ d :: ds) d in
        '(w, ret) ←
          (if negb is_final || (remaining_links >? 1)
           then '(w, _, ret) ← put_header_out w (put_c_filesize 0 d) f 0; Some (w, ret)
           else if remaining_links =? 1 then def_writeout_defered_file w d f
           else Some (w, 0));
        writeout_loop ds before w h f is_final (retval + ret)
      else writeout_loop ds (before ++ [d]) w h f is_final retval
  end.

Definition def_writeout_defers (def : DEFER) (w : writer_state) h (is_final : bool) : option (DEFER * writer_state * Z) :=
  '(ds, w, ret) ← writeout_loop (deferoutsM def) [] w h (formatM def) is_final 0;
  Some (mkDEFER (formatM def) ds, w, ret).

Definition defer_writeout_zero_length_defers (def : DEFER) (w : writer_state) h : option (DEFER * writer_state * Z) :=
  def_writeout_defers def w h false.

(** while (def->deferoutsM != NULL && ret >= 0) *)
Fixpoint final_loop (fuel : nat) (def : DEFER) (w : writer_state) (ret retval : Z) : option (DEFER * writer_state * Z) :=
  match fuel with
  | O => None
  | S fuel =>
      match deferoutsM def with
      | d :: _ =>
          if ret >=? 0 then
            '(def, w, ret) ← def_writeout_defers def w d true;
            final_loop fuel def w ret (retval + ret)
          else Some (def, w, ret)
      | [] => Some (def, w, if ret <? 0 then ret else retval)
      end
  end.

Definition defer_writeout_final_defers (def : DEFER) (w : writer_state) : option (DEFER * writer_state * Z) :=
  final_loop (S (length (deferoutsM def))) def w 0 0.
End Defer.
