(* ===== verification/Member.v ===== *)
(** * Members of archives (swsupplib/taru/copyout.c and mtar.c)

    taru_write_archive_member_header puts together what the other files model:
    virtual inodes and deferred links of cpio archives, long names and links of
    GNU archives, extended headers, and the hard links of a tar archive; behind
    it tarui_write_archive_member_ writes the data. *)

From S2P Require Import Prelude CString Decimals Numerals Strob Cplob HardLinks Pathname Escape FileMode TarNumbers TarHeader SysDb FileHdr PaxHeader TarWrite TarRead Cpio Defer.

(** ** The state of the writer *)

(** The objects that the calls change, and the bytes written to the archive. *)
Record archiving := mkArchiving {
  ar_taru : TARU;
  ar_caches : SYSDBCACHES;
  ar_etar : ETAR;
  ar_out : bytes;
  ar_links : option HLLIST;
  ar_defer : option DEFER;
  ar_porinode : option PORINODE;
}.

Definition put_writer (taru : TARU) (c : SYSDBCACHES) (out : bytes) (s : archiving) : archiving :=
  mkArchiving taru c (ar_etar s) out (ar_links s) (ar_defer s) (ar_porinode s).
Definition put_out (out : bytes) (s : archiving) : archiving :=
  put_writer (ar_taru s) (ar_caches s) out s.
Definition put_etar (e : ETAR) (s : archiving) : archiving :=
  mkArchiving (ar_taru s) (ar_caches s) e (ar_out s) (ar_links s) (ar_defer s) (ar_porinode s).
Definition put_links (l : option HLLIST) (s : archiving) : archiving :=
  mkArchiving (ar_taru s) (ar_caches s) (ar_etar s) (ar_out s) l (ar_defer s) (ar_porinode s).
Definition put_defer (d : option DEFER) (s : archiving) : archiving :=
  mkArchiving (ar_taru s) (ar_caches s) (ar_etar s) (ar_out s) (ar_links s) d (ar_porinode s).
Definition put_porinode (p : option PORINODE) (s : archiving) : archiving :=
  mkArchiving (ar_taru s) (ar_caches s) (ar_etar s) (ar_out s) (ar_links s) (ar_defer s) p.
Definition put_exthdr_data (x : STROB) (t : TARU) : TARU :=
  mkTARU (headerM t) (header_lengthM t) (taru_tarheaderflagsM t) (do_record_headerM t) (u_name_bufferM t)
    (u_ent_bufferM t) (read_bufferM t) (read_buffer_posM t) x.

(** ** A monad for the functions with many returns

    The state, undefined behaviour, the end of the process, and the codes that
    are returned early ([inr]). *)

Definition M (A : Type) : Type := archiving -> option (outcome (archiving * (A + Z))).

Definition mret {A} (a : A) : M A := fun s => Some (Returns (s, inl a)).
Definition mbind_ {A B} (m : M A) (k : A -> M B) : M B := fun s =>
  r ← m s;
  match r with
  | Fatal => Some Fatal
  | Returns (s, inl a) => k a s
  | Returns (s, inr code) => Some (Returns (s, inr code))
  end.
Definition mreturn {A} (code : Z) : M A := fun s => Some (Returns (s, inr code)).
Definition mfatal {A} : M A := fun _ => Some Fatal.
Definition mget {A} (f : archiving -> A) : M A := fun s => Some (Returns (s, inl (f s))).
Definition mput (f : archiving -> archiving) : M unit := fun s => Some (Returns (f s, inl ())).
Definition mlift {A} (o : option A) : M A := fun s => a ← o; Some (Returns (s, inl a)).
Definition moutcome {A} (o : option (outcome A)) : M A := fun s =>
  r ← o; match r with Fatal => Some Fatal | Returns a => Some (Returns (s, inl a)) end.

(** A call: the code that it returns early is its result. *)
Definition mcall {A} (m : M A) : M (A + Z) := fun s =>
  r ← m s; match r with Fatal => Some Fatal | Returns (s, x) => Some (Returns (s, inl x)) end.

(** A step that is taken when the condition holds. *)
Definition mwhen {A} (b : bool) (m : M A) (a : A) : M A := if b then m else mret a.

Declare Scope member_scope.
Delimit Scope member_scope with member.
Notation "'let*' p := m 'in' k" := (mbind_ m (fun p => k))
  (at level 10, p pattern, m at level 100, k at level 200) : member_scope.
Notation "'do*' m 'in' k" := (mbind_ m (fun _ => k))
  (at level 10, m at level 100, k at level 200) : member_scope.

(** ** Owner names (taru_set_filehdr_sysdb_nameid_by_policy of otar.c)

    The id that is looked up by name is not stored; only a name that is missing
    is filled in. *)

Section Policy.
Context `{SysDB}.

Definition by_policy (c_c c_id : Z) (sysusername : bytes) (numeric_uids : bool) (found : Z -> option bytes)
    (cache : SYSDBCACHE) (by_name : SYSDBCACHE -> bytes -> option (SYSDBCACHE * option Z * Z))
    : option (SYSDBCACHE * bytes) :=
  let from_id := default [] (found (to_id c_id)) in
  if (zlen sysusername =? 0) && negb (c_c =? TARU_C_BY_UNONE) then Some (cache, from_id)
  else if (c_c =? TARU_C_BY_USYS) || (c_c =? TARU_C_BY_UNAME) then
    '(cache, _, _) ← by_name cache sysusername; Some (cache, sysusername)
  else if c_c =? TARU_C_BY_UID then
    Some (cache, if numeric_uids then sysusername else from_id)
  else Some (cache, sysusername).

(** The group with "G", then the user with "U". *)
Definition set_names_by_policy (h : new_cpio_header) (c : SYSDBCACHES) (numeric_uids : bool)
    : option (new_cpio_header * SYSDBCACHES) :=
  '(g, gname) ← by_policy (c_cg h) (c_gid h) (c_groupname h) numeric_uids getgrgid (groupCacheM c) taru_get_gid_by_name;
  let h := put_c_groupname gname h in
  '(u, uname) ← by_policy (c_cu h) (c_uid h) (c_username h) numeric_uids getpwuid (userCacheM c) taru_get_uid_by_name;
  Some (put_c_username uname h, mkSYSDBCACHES u g).
End Policy.

(** ** struct stat *)

Record stat := mkStat {
  st_mode : Z; st_ino : Z; st_dev : Z; st_rdev : Z; st_nlink : Z; st_uid : Z; st_gid : Z;
  st_size : Z; st_atime : Z; st_ctime : Z; st_mtime : Z; st_blksize : Z; st_blocks : Z;
}.

(** The type bits of a mode, those that are known. *)
Definition mode_type (mode : Z) : Z :=
  let t := Z.land mode S_IFMT in
  if existsb (Z.eqb t) [CP_IFREG; CP_IFDIR; CP_IFBLK; CP_IFCHR; CP_IFIFO; CP_IFLNK; CP_IFSOCK] then t else 0.

(** readlink gives the target of the source, up to 1024 bytes, [None] when it
    fails; linkname is an array of 101 bytes in the callers, which holds the
    target, a NUL and nothing else: [None] when it overflows.  The header, the
    array and the result. *)
Definition LINKNAME_ROOM : Z := 101.

Definition taru_statbuf2filehdr (readlink : bytes -> option bytes) (h : new_cpio_header) (st : stat)
    (sourcefilename filename linkname : option bytes) : option (new_cpio_header * option bytes * Z) :=
  let sourcefilename := match sourcefilename with Some s => Some s | None => filename end in
  let h := put_c_mode (Z.lor (Z.land (st_mode st) 4095) (mode_type (st_mode st))) h in
  let h := put_c_nlink (st_nlink st) (put_c_ino (st_ino st) h) in
  let h := put_c_gid (st_gid st) (put_c_uid (st_uid st) h) in
  let h := put_c_filesize (to_size (st_size st)) h in
  let h := put_c_ctime (to_size (st_ctime st)) (put_c_mtime (to_size (st_mtime st)) h) in
  let h := put_c_atime (to_size (st_atime st)) h in
  let h := put_c_ctime_nsec 0 (put_c_atime_nsec 0 h) in
  let h := put_c_dev_min (dev_minor (st_dev st)) (put_c_dev_maj (dev_major (st_dev st)) h) in
  let h := put_c_rdev_min (dev_minor (st_rdev st)) (put_c_rdev_maj (dev_major (st_rdev st)) h) in
  let h := put_c_namesize (zlen (default [] filename) + 1) (ahsStaticSetTarFilename h (default [] filename)) in
  '(h, linkname, ret) ←
    match filename, linkname with
    | Some (_ :: _), Some [] =>
        if is_type CP_IFLNK (st_mode st) then
          source ← sourcefilename;
          match readlink source with
          | None => Some (h, linkname, -1)
          | Some target => if zlen target <? LINKNAME_ROOM
                           then Some (ahsStaticSetPaxLinkname h (cstr target), Some (cstr target), 0) else None
          end
        else Some (ahsStaticSetPaxLinkname h [], linkname, 0)
    | Some (_ :: _), _ => Some (ahsStaticSetPaxLinkname h (default [] linkname), linkname, 0)
    | _, _ => Some (h, linkname, 0)
    end;
  Some (if ret <? 0 then h else put_c_is_tar_lnktype (-1) h, linkname, ret).

(** time_t is signed, the ids are unsigned 32-bit numbers; [tim] is the time.
    The two look-ups by name have their conditions exchanged. *)
Definition taru_filehdr2statbuf `{SysDB} (tim : Z) (h : new_cpio_header) (c : SYSDBCACHES)
    : option (stat * SYSDBCACHES) :=
  let size := to_long (c_filesize h) in
  '(cg, gid) ← (if c_cu h =? TARU_C_BY_UNAME then
                  '(cache, x, ret) ← taru_get_gid_by_name (groupCacheM c) (ahsStaticGetTarGroupname h);
                  if ret =? 0 then x ← x; Some (cache, x) else Some (cache, to_id (c_gid h))
                else Some (groupCacheM c, to_id (c_gid h)));
  '(cu, uid) ← (if c_cg h =? TARU_C_BY_UNAME then
                  '(cache, x, ret) ← taru_get_uid_by_name (userCacheM c) (ahsStaticGetTarUsername h);
                  if ret =? 0 then x ← x; Some (cache, x) else Some (cache, to_id (c_uid h))
                else Some (userCacheM c, to_id (c_uid h)));
  Some (mkStat (c_mode h mod 2 ^ 32) (c_ino h) (header_dev h) (header_rdev h) (c_nlink h) uid gid
          size tim tim (to_long (c_mtime h)) 512 (Z.quot size 512 + 1), mkSYSDBCACHES cu cg).

(** ** GNU long names and links *)

Definition TARU_TAR_NO_OVERFLOW : Z := 65536.
Definition OLDGNU_TARNAMESIZE : Z := 99.

Definition with_slash (filename : bytes) (c_type : Z) : bool :=
  is_type CP_IFDIR c_type && (negb (zlen filename =? 0)
  && (negb (match last filename with Some c => is_slash c | None => false end) && (zlen filename <? 511))).

(** The header of the member that holds the name. *)
Definition zero_stat : stat := mkStat 0 0 0 0 0 0 0 0 0 0 0 0 0.

Definition long_link_header (now : Z) (filename : bytes) (gnu_long_type : ascii) (c_type : Z) : option new_cpio_header :=
  '(h, _, _) ← taru_statbuf2filehdr (fun _ => None) (ahsStaticCreateFilehdr now) zero_stat None None (Some []);
  let h := ahsStaticSetTarFilename h GNU_LONG_LINK in
  let h := if is_type CP_IFREG c_type || is_type CP_IFDIR c_type
           then put_c_mode 0 (ahsStaticSetPaxLinkname h (if ceq gnu_long_type GNUTYPE_LONGNAME then [] else filename))
           else put_c_mode c_type (ahsStaticSetPaxLinkname h filename) in
  let h := put_c_nlink 0 (put_c_ino 0 (put_c_namesize (zlen GNU_LONG_LINK + 1) h)) in
  let h := put_c_filesize (zlen filename + 1 + (if with_slash filename c_type then 1 else 0))
             (put_c_gid 0 (put_c_uid 0 h)) in
  Some (put_c_rdev_maj 0 (put_c_dev_min 0 (put_c_dev_maj 0 (put_c_mtime 0 h)))).

(** The block with the name. *)
Definition name_block (filename : bytes) (c_type : Z) : bytes :=
  let name := filename ++ (if with_slash filename c_type then L "/" else []) in
  name ++ replicate (512 - length name) NUL.

Section Member.
Context `{Malloc} `{SysDB} (nobody : Z * bool) (contents : bytes -> option bytes).

(** The time, the process id in the names of extended headers, and
    linkrecord_disableM of the TARU object. *)
Context (now pid linkrecord_disable : Z).
Implicit Types (h : new_cpio_header) (f : archive_format).
Local Open Scope member_scope.

Definition taru_write_long_link_member (filename : bytes) (gnu_long_type : ascii) (c_type flags : Z) : M Z :=
  if zlen filename >=? 510 then mret (-1)
  else
    let* s := mget id in
    let* h := mlift (long_link_header now filename gnu_long_type c_type) in
    let* (taru, c, t, ret) := mlift (taru_write_out_tar_header2 nobody (ar_taru s) (ar_caches s) h (ToFd (ar_out s))
                                       (Some (L "root")) (Some (L "root")) flags) in
    let* out := mlift (match t with ToFd out => Some out | ToBuffer _ => None end) in
    if ret =? 512 then
      do* mput (put_writer taru c (out ++ name_block filename c_type)) in mret (512 + 512)
    else do* mput (put_writer taru c out) in mret (-1).

(** ** The header of a member *)

(** The virtual inode of a file that is not in a file system. *)
Definition pseudo_inode h f : M new_cpio_header :=
  let* porinode := mget ar_porinode in
  match porinode with
  | Some p =>
      if is_format [arf_oldascii; arf_newascii; arf_crcascii] f then
        let mylink := if is_type CP_IFLNK (c_mode h) || is_type CP_IFDIR (c_mode h) then 1 else to_int (c_nlink h) in
        let* (p, v_dev, v_ino) := mlift (porinode_make_next_inode p mylink (header_dev h) (c_ino h)) in
        do* mput (put_porinode (Some p)) in
        mret (put_c_ino v_ino (put_c_dev_min (dev_minor v_dev) (put_c_dev_maj (dev_major v_dev) h)))
      else mret h
  | None => mret h
  end.

(** taru_set_filehdr_sysdb_nameid_by_policy for the group and the user. *)
Definition set_names h (flags : Z) : M new_cpio_header :=
  let* s := mget id in
  let* (h, c) := mlift (set_names_by_policy h (ar_caches s) (bit flags TARU_TAR_NUMERIC_UIDS)) in
  do* mput (put_writer (ar_taru s) c (ar_out s)) in mret h.

Definition pax_name (name : bytes) : bytes :=
  L "./PaxHeaders." ++ decimal pid ++ L "/" ++ drop (Z.to_nat (basename_of name)) name.

(** The records in exthdr_dataM, and their length. *)
Definition pax_records h : M (new_cpio_header * Z) :=
  let* s := mget id in
  let* buf := mlift (strob_strcpy (exthdr_dataM (ar_taru s)) []) in
  let* (buf, h, n) := moutcome (write_exthdrs_ustar_records buf h) in
  do* mput (fun s => put_writer (put_exthdr_data buf (ar_taru s)) (ar_caches s) (ar_out s) s) in
  if n <? 0 then mreturn (-3)
  else
    let* (buf, n) := moutcome (write_exthdrs_xattr_records buf (extattlistM h) n) in
    do* mput (fun s => put_writer (put_exthdr_data buf (ar_taru s)) (ar_caches s) (ar_out s) s) in
    if n <? 0 then mreturn (-4) else mret (h, n).

(** The header, the data and the padding of the extended header member. *)
Definition pax_member h (n : Z) : M unit :=
  let* s := mget id in
  let taru := ar_taru s in
  let e := mkETAR (taru_tarheaderflagsM taru) (tar_hdrM (ar_etar s)) (timeM (ar_etar s)) in
  let* e := mlift (etar_init_hdr nobody e) in
  let* name := mlift (strob_strcpy (u_name_bufferM taru) []) in
  let* (name, _) := mlift (strob_sprintf name true (L "./PaxHeaders." ++ decimal pid ++ L "/")) in
  let* (name, _) := mlift (strob_sprintf name true (drop (Z.to_nat (basename_of (c_name h))) (c_name h))) in
  let* e := mlift (etar_set_uid nobody e 0) in
  let* e := mlift (etar_set_gid nobody e 0) in
  let* (e, _) := mlift (etar_set_uname e []) in
  let* (e, _) := mlift (etar_set_gname e []) in
  let* e := mlift (etar_set_mode_ul e 420) in
  let* text := mlift (strob_str name) in
  let* (e, ret) := mlift (etar_set_pathname e text) in
  if negb (ret =? 0) then mfatal
  else
    let* e := mlift (etar_set_typeflag e XHDTYPE) in
    let* e := mlift (etar_set_size e n) in
    let* e := mlift (etar_set_chksum e) in
    let* hdr := mlift (mem_at (etar_get_hdr e) 0) in
    let* (out, _) := mlift (tarui_tape_buffered_write hdr (ar_out s) TARRECORDSIZE) in
    let* (out, ret) := mlift (tarui_tape_buffered_write (str_ (exthdr_dataM taru)) out n) in
    let* (out, _) := mlift (taru_tape_pad_output out ret arf_ustar) in
    mput (fun s => put_etar e (put_writer (put_u_name name taru) (ar_caches s) out s)).

(** The names of a tar member: what does not fit is an error, or it goes to a
    member of its own.  The header, do_gnu_long_link and the bytes of the member
    with the long name. *)
Definition is_pax (flags : Z) : bool := bit flags TARU_TAR_PAXEXTHDR || bit flags TARU_TAR_PAXEXTHDR_MD.

Definition tar_names h (flags : Z) : M (new_cpio_header * Z * Z) :=
  let (too_long, do_name) := taru_is_tar_filename_too_long (c_name h) flags false in
  if negb (too_long =? 0) then mreturn (-2)
  else
    let (too_long, do_link) := taru_is_tar_linkname_too_long (c_tar_linkname h) flags in
    if negb (too_long =? 0) then mreturn (-3)
    else
      let needy := taru_fill_exthdr_needs_mask h flags in
      if negb (needy =? 0) && (negb (is_pax flags) && bit flags TARU_TAR_NO_OVERFLOW) then mreturn (-14)
      else
        let h := put_ext_needs_maskM needy h in
        let* h := mwhen (is_pax flags && negb (bit flags TARU_TAR_NUMERIC_UIDS)) (set_names h flags) h in
        let do_name := if is_pax flags then 0 else do_name in
        let do_link := if is_pax flags then 0 else do_link in
        if negb (do_name =? 0) || negb (do_link =? 0) then
          let* ret := taru_write_long_link_member (c_name h) GNUTYPE_LONGNAME (Z.land (c_mode h) S_IFMT) flags in
          if negb (ret =? 1024) then mreturn (-3)
          else
            let size := if bit flags TARU_TAR_GNU_OLDGNUTAR || bit flags TARU_TAR_NAMESIZE_99
                        then OLDGNU_TARNAMESIZE else TARNAMESIZE in
            mret (put_c_name (take (Z.to_nat size) (c_name h)) h, do_link, ret)
        else if is_pax flags
                && (negb (extHeader_needs_maskM h =? 0) || negb (length (extattlistM h) =? 0)%nat) then
          let* h := set_names h flags in
          let* (h, n) := pax_records h in
          do* mwhen (negb (n =? 0)) (pax_member h n) () in
          mret (h, do_link, 0)
        else mret (h, do_link, 0).

Definition write_header h f (flags : Z) : M (new_cpio_header * Z) :=
  let* s := mget id in
  let* (taru, c, h, out, ret) := mlift (taru_write_out_header nobody (ar_taru s) (ar_caches s) h (ar_out s) f flags) in
  do* mput (put_writer taru c out) in mret (h, ret).

(** linkrecord_active *)
Definition active_links : M (option HLLIST) :=
  let* links := mget ar_links in
  mret (if linkrecord_disable =? 0 then links else None).

(** The path under which the file is in the archive; an entry that is not there
    when nfound is not 0 is a NULL that is used. *)
Definition recorded_path h : M (option bytes) :=
  let* links := active_links in
  match links with
  | None => mret None
  | Some l =>
      let* (en, nfound) := mlift (hllist_find_file_entry l (header_dev h) (c_ino h) 1 0) in
      if nfound =? 0 then mret None else let* en := mlift en in mret (Some (path_ en))
  end.

Definition record_path h : M unit :=
  let* links := active_links in
  match links with
  | Some l => if c_nlink h >? 1 then
                let* l := mlift (hllist_add_record l (c_name h) (header_dev h) (c_ino h)) in
                mput (put_links (Some l))
              else mret ()
  | None => mret ()
  end.

(** The result of a type: the header, retval and the bytes of a member with a
    long link. *)
Definition written_member : Type := new_cpio_header * Z * Z.

Definition write_plain h f (flags : Z) : M written_member :=
  let* (h, ret) := write_header h f flags in mret (h, ret, 0).

(** A file of a cpio archive with other links: its header is written with the
    last one of them. *)
Definition write_cpio_link h f (flags : Z) : M written_member :=
  let* s := mget id in
  match ar_defer s with
  | None => write_plain h f flags
  | Some d =>
      if defer_is_last_link d h then
        let* (d, w, _) := mlift (defer_writeout_zero_length_defers nobody contents d
                                   (ar_taru s, ar_caches s, ar_out s) h) in
        let '(taru, c, out) := w in
        do* mput (fun s => put_defer (Some d) (put_writer taru c out s)) in
        write_plain h f flags
      else
        do* mput (put_defer (Some (defer_add_link_defer now d h))) in
        mret (h, 0, 0)
  end.

(** The member with a long link name, which is cut. *)
Definition write_long_link h (flags code : Z) : M (new_cpio_header * Z) :=
  let* ret := taru_write_long_link_member (c_tar_linkname h) GNUTYPE_LONGLINK (Z.land (c_mode h) S_IFMT) flags in
  if negb (ret =? 1024) then mreturn code
  else mret (put_c_tar_linkname (take 99 (c_tar_linkname h)) h, ret).

Definition write_regular h f (flags do_link : Z) : M written_member :=
  if is_format [arf_oldascii; arf_newascii; arf_crcascii] f && (c_nlink h >? 1) then write_cpio_link h f flags
  else if is_tar f then
    let* links := active_links in
    let* path := mwhen (c_nlink h >? 1) (recorded_path h) None in
    if bool_decide (is_Some path)
       || (bool_decide (is_Some links) && ((c_nlink h >? 1) && (c_is_tar_lnktype h =? 1))) then
      write_plain (match path with Some p => ahsStaticSetPaxLinkname h p | None => h end) f flags
    else
      let* (h, extra) := mwhen (negb (zlen (c_tar_linkname h) =? 0) && negb (do_link =? 0))
                           (write_long_link h flags (-3)) (h, 0) in
      let* (h, ret) := write_header h f flags in
      do* record_path h in
      mret (h, ret, extra)
  else write_plain h f flags.

(** A device or a pipe. *)
Definition write_special h f (flags : Z) : M written_member :=
  if bool_decide (f = arf_tar) then mreturn 0
  else
    let* path := mwhen (bool_decide (f = arf_ustar)) (recorded_path h) None in
    match path with
    | Some p => write_plain (ahsStaticSetPaxLinkname (put_c_mode (Z.lor (c_mode h) CP_IFREG) h) p) f flags
    | None =>
        let* (h, ret) := write_header (put_c_filesize 0 h) f flags in
        do* mwhen (is_tar f) (record_path h) () in
        mret (h, ret, 0)
    end.

Definition write_symlink h f (flags do_link : Z) : M written_member :=
  let link_size := zlen (c_tar_linkname h) in
  let h := put_c_filesize link_size h in
  if is_tar f then
    if do_link =? 0 then
      if link_size + 1 >? TARNAMESIZE then mreturn (-4) else write_plain h f flags
    else
      let* (h, extra) := write_long_link h flags (-6) in
      let* (h, ret) := write_header (put_c_filesize 0 h) f flags in
      if ret <? 0 then mreturn (-7) else mret (h, ret, extra)
  else
    let* (h, ret) := write_header h f flags in
    let* out := mget ar_out in
    let* (out, r1) := mlift (tarui_tape_buffered_write (c_tar_linkname h) out link_size) in
    let* (out, r2) := mlift (taru_tape_pad_output out link_size f) in
    do* mput (put_out out) in mret (h, ret + r1 + r2, 0).

(** switch (file_hdr->c_mode & CP_IFMT) *)
Definition write_by_type h f (flags do_link : Z) : M written_member :=
  let t := Z.land (c_mode h) S_IFMT in
  if t =? CP_IFREG then write_regular h f flags do_link
  else if t =? CP_IFDIR then write_plain (put_c_filesize 0 h) f flags
  else if t =? CP_IFSOCK then mret (h, 0, 0)
  else if (t =? CP_IFIFO) || ((t =? CP_IFCHR) || (t =? CP_IFBLK)) then write_special h f flags
  else if t =? CP_IFLNK then write_symlink h f flags do_link
  else mret (h, 0, 0).

(** The header for file_hdr_return and the result; a code that is returned
    early leaves file_hdr_return as it is. *)
Definition member_header h f (flags : Z) : M (new_cpio_header * Z) :=
  let h := taru_filehdr2filehdr (ahsStaticCreateFilehdr now) h in
  let* h := pseudo_inode h f in
  let h := if bit flags TARU_TAR_DO_STRIP_LEADING_SLASH then ahsStatic_strip_name_leading_slash h else h in
  let h := put_c_namesize (zlen (c_name h) + 1) h in
  let* (h, do_link, long_name) := mwhen (is_tar f) (tar_names h flags) (h, 0, 0) in
  let* (h, ret, long_link) := write_by_type h f flags do_link in
  mret (h, ret + long_name + long_link).

Definition taru_write_archive_member_header (file_stat : option stat) h f (file_hdr_return : new_cpio_header)
    (flags : Z) : M (new_cpio_header * Z) :=
  if bool_decide (is_Some file_stat) then mfatal
  else
    let* r := mcall (member_header h f flags) in
    mret (match r with
          | inl (h, ret) => (taru_filehdr2filehdr file_hdr_return h, ret)
          | inr code => (file_hdr_return, code)
          end).

(** ** Header and data *)

(** taru_write_archive_member_data; [input] is what is left of the descriptor,
    [None] for a negative one. *)
Definition member_data h f (input : option bytes) : M (option bytes * Z) :=
  let* out := mget ar_out in
  match input with
  | Some rest =>
      let* (out, rest, ret) := mlift (write_data h out rest f) in
      do* mput (put_out out) in mret (Some rest, ret)
  | None =>
      let* (out, ret) := mlift (write_file_data contents h out f) in
      do* mput (put_out out) in mret (None, ret)
  end.

(** The header of the caller, which gets the check sum, the descriptor and the
    result. *)
Definition tarui_write_archive_member_ (file_stat : option stat) h f (input : option bytes) (flags : Z)
    : M (new_cpio_header * option bytes * Z) :=
  let h := put_c_chksum 0 h in
  let* h := match input with
            | Some rest =>
                if bool_decide (f = arf_crcascii) then
                  let size := match file_stat with Some st => st_size st | None => c_filesize h end in
                  let* sum := mlift (taru_read_for_crc_checksum rest (to_int size)) in
                  mret (put_c_chksum sum h)
                else mret h
            | None => mret h
            end in
  let* (h1, ret) := taru_write_archive_member_header file_stat h f (ahsStaticCreateFilehdr now) flags in
  if ret <? 0 then mret (h, input, ret)
  else if has_data h1 && (ret >? 0) then
    let* (input, ret1) := member_data h1 f input in
    mret (h, input, if ret1 <? 0 then ret1 else ret + ret1)
  else mret (h, input, ret).

(** ** Copying a tar archive

    The result, and what the descriptor has left; [inr] the state in which the
    copier, or the reader it calls, is still in its loop when the rounds are used
    up. *)
Section CopyOut.
Context (stray : bool) (rounds : nat).

Definition copy_result : Type := archiving * bytes * Z + archiving.

Definition reader_of (s : archiving) h (rest : bytes) (eoa : Z) : reading :=
  mkReading (ar_taru s) (ar_caches s) h (Fd rest) eoa.

(** while (eoa == 0): the state, the descriptor, and the bytes that were written
    or the code that is returned. *)
Fixpoint copy_out_loop (fuel : nat) (s : archiving) h (rest : bytes) (eoa : Z) f (retvalx : Z)
    : option (outcome (archiving * bytes * (Z + Z) + archiving)) :=
  match fuel with
  | O => Some (Returns (inr s))
  | S fuel =>
      if eoa =? 0 then
        r ← taru_read_in_tar_header2 stray rounds (reader_of s h rest eoa) 0 (-1);
        match r with
        | Fatal => Some Fatal
        | Returns (inr tt) => Some (Returns (inr s))
        | Returns (inl (r, read_ret)) =>
            let s := put_writer (rd_taru r) (rd_caches r) (ar_out s) s in
            rest ← (match rd_src r with Fd rest => Some rest | Mem _ _ => None end);
            if read_ret <? 0 then Some (Returns (inl (s, rest, inr (-11))))
            else if rd_eoa r =? 0 then
              w ← tarui_write_archive_member_ None (rd_hdr r) f (Some rest) (taru_tarheaderflagsM (ar_taru s)) s;
              match w with
              | Fatal => Some Fatal
              | Returns (s, inr code) => Some (Returns (inl (s, rest, inr code)))
              | Returns (s, inl (h, input, retx)) =>
                  rest ← input;
                  if retx <? 0 then Some (Returns (inl (s, rest, inr (-9))))
                  else
                    let '(rest, skipped) := taru_tape_skip_padding rest (c_filesize h) arf_ustar in
                    if skipped <? 0 then Some (Returns (inl (s, rest, inr (-8))))
                    else copy_out_loop fuel s h rest 0 f (retvalx + retx)
              end
            else copy_out_loop fuel s (rd_hdr r) rest (rd_eoa r) f retvalx
        end
      else Some (Returns (inl (s, rest, inl retvalx)))
  end.

(** ls_fd is negative and no digests are taken; *nb is not kept. *)
Definition taru_process_copy_out (fuel : nat) (s : archiving) (rest : bytes) f : option (outcome copy_result) :=
  l ← hllist_open;
  let s := put_links (Some (hllist_disable_find (hllist_disable_add l))) s in
  r ← copy_out_loop fuel s (ahsStaticCreateFilehdr now) rest 0 f 0;
  match r with
  | Fatal => Some Fatal
  | Returns (inr s) => Some (Returns (inr s))
  | Returns (inl (s, rest, inr code)) => Some (Returns (inl (s, rest, code)))
  | Returns (inl (s, rest, inl _)) =>
      '(taru, c, out, ret) ← taru_write_archive_trailer nobody now (ar_taru s) (ar_caches s) f (ar_out s) 512 0 0;
      let s := put_writer taru c out s in
      Some (Returns (inl (s, rest, if ret <=? 0 then -10 else 0)))
  end.
End CopyOut.
End Member.
