(* ===== verification/ArchiveSpec.v ===== *)
(** * Archives of members (swsupplib/taru/copyout.c and readinheader.c)

    A cpio archive that is written member by member is read back member by
    member: the composition of the member writer, the header writer, the trailer
    and the readers. *)

From S2P Require Import Prelude CString Numerals Strob Pathname Escape FileMode TarNumbers TarHeader SysDb FileHdr PaxHeader TarWrite TarRead Cpio CpioSpec Defer HardLinks Member.

(** ** What a member is stored as *)

Definition file_kind (h : new_cpio_header) : Z := Z.land (c_mode h) S_IFMT.

(** The bytes behind the header. *)
Definition payload (h : new_cpio_header) (data : bytes) : bytes :=
  if file_kind h =? CP_IFREG then data else if file_kind h =? CP_IFLNK then c_tar_linkname h else [].

(** The header that is printed; [now] is the time. *)
Definition stored_header (now : Z) (f : archive_format) (h : new_cpio_header) (data : bytes) : new_cpio_header :=
  let h := put_c_chksum (match f with arf_crcascii => byte_sum data | _ => 0 end) h in
  let h := taru_filehdr2filehdr (ahsStaticCreateFilehdr now) h in
  put_c_filesize (zlen (payload h data)) (put_c_namesize (zlen (c_name h) + 1) h).

(** A member that the format can hold: a regular file that is no link, with its
    size, or a directory, a symbolic link, a device or a pipe. *)
Definition storable (now : Z) (f : archive_format) (m : new_cpio_header * bytes) : Prop :=
  let '(h, data) := m in
  fits f (stored_header now f h data)
  /\ file_kind h ∈ [CP_IFREG; CP_IFDIR; CP_IFIFO; CP_IFCHR; CP_IFBLK; CP_IFLNK]
  /\ (file_kind h = CP_IFREG -> c_tar_linkname h = [] /\ c_filesize h = zlen data)
  /\ (file_kind h <> CP_IFREG -> data = [])
  /\ no_nul (c_tar_linkname h)
  /\ zlen (payload h data) < 2 ^ 31
  /\ c_name h <> CPIO_INBAND_EOA_FILENAME.

Definition member_image (now : Z) (f : archive_format) (m : new_cpio_header * bytes) : bytes :=
  let '(h, data) := m in
  header_image f (stored_header now f h data) ++ payload h data
  ++ replicate (Z.to_nat (output_pad (zlen (payload h data)) f)) NUL.

(** ** The check sum *)

Lemma byte_sum_app a b : byte_sum (a ++ b) = byte_sum a + byte_sum b.
Proof. induction a as [|c a IH]; cbn [byte_sum app]; [done|]. rewrite IH. lia. Qed.

Lemma crc_loop_whole fuel : forall rest left crc, zlen rest <= left -> (length rest < fuel)%nat ->
  to_size crc = crc -> crc_loop fuel rest left crc = Some (to_size (crc + byte_sum rest)).
Proof.
  induction fuel as [|fuel IH]; intros rest left crc Hl Hf Hc; [lia|]. cbn [crc_loop].
  destruct rest as [|c rest].
  - cbn [byte_sum]. rewrite Z.add_0_r, Hc. unfold taru_tape_buffered_read. rewrite take_nil. cbn [drop].
    by destruct (left >? 0).
  - rewrite zlen_cons in Hl. pose proof (zlen_nonneg rest). ztest.
    unfold taru_tape_buffered_read. set (n := Z.to_nat TARU_BUFSIZ). set (s := c :: rest) in *.
    assert (Hn : (1 <= length (take n s))%nat) by (rewrite length_take; subst s n; cbn [length]; unfold TARU_BUFSIZ; lia).
    assert (Hz : (zlen (take n s) =? 0) = false) by (apply Z.eqb_neq; unfold zlen; lia). rewrite Hz.
    pose proof (take_drop n s) as Htd. pose proof (f_equal length Htd) as Hlen. rewrite length_app in Hlen.
    rewrite IH.
    + f_equal. unfold to_size. rewrite Zplus_mod_idemp_l. f_equal. rewrite <- Htd at 3. rewrite byte_sum_app. lia.
    + unfold zlen in *. cbn [length] in *. subst s. cbn [length] in *. lia.
    + lia.
    + unfold to_size. by rewrite Z.mod_mod by lia.
Qed.

Lemma byte_sum_nonneg s : 0 <= byte_sum s.
Proof. induction s as [|c s IH]; cbn [byte_sum]; [lia|]. pose proof (uchar_range c). lia. Qed.

Lemma byte_sum_bound bs : byte_sum bs <= 255 * zlen bs.
Proof. induction bs as [|c bs IH]; cbn [byte_sum]; [done|]. pose proof (uchar_range c). rewrite zlen_cons. lia. Qed.

Lemma member_sum rest : zlen rest < 2 ^ 31 -> byte_sum rest < 2 ^ 64 ->
  taru_read_for_crc_checksum rest (to_int (zlen rest)) = Some (byte_sum rest).
Proof.
  intros Hl Hs. pose proof (zlen_nonneg rest). pose proof (byte_sum_nonneg rest). unfold taru_read_for_crc_checksum.
  rewrite to_int_id by (unfold INT_MAX; lia). rewrite crc_loop_whole by (done || lia).
  by rewrite Z.add_0_l, to_size_id by lia.
Qed.

(** ** Running the monad *)

Lemma bind_ret {A B} (a : A) (k : A -> M B) s : mbind_ (mret a) k s = k a s.
Proof. done. Qed.

Lemma bind_run {A B} (m : M A) (k : A -> M B) s s' a :
  m s = Some (Returns (s', inl a)) -> mbind_ m k s = k a s'.
Proof. intros E. unfold mbind_. by rewrite E. Qed.

Lemma bind_get {A B} (g : archiving -> A) (k : A -> M B) s : mbind_ (mget g) k s = k (g s) s.
Proof. done. Qed.

Lemma bind_put {B} (g : archiving -> archiving) (k : unit -> M B) s : mbind_ (mput g) k s = k () (g s).
Proof. done. Qed.

Lemma bind_lift {A B} (o : option A) (k : A -> M B) s a : o = Some a -> mbind_ (mlift o) k s = k a s.
Proof. by intros ->. Qed.

(** ** Writing one member *)

Section Archive.
Context `{Malloc} `{SysDB} (nobody : Z * bool) (contents : bytes -> option bytes) (now pid linkrecord_disable : Z).
Implicit Types (f : archive_format) (s : archiving).

Lemma known_facts f : known_format f ->
  is_tar f = false /\ is_format [arf_oldascii; arf_newascii; arf_crcascii] f = true
  /\ bool_decide (f = arf_tar) = false /\ bool_decide (f = arf_ustar) = false.
Proof. by intros [-> | [-> | ->]]. Qed.

Lemma write_header_run f hd flags s : known_format f -> fits f hd -> bit flags TARU_TAR_DO_STRIP_LEADING_SLASH = false ->
  write_header nobody hd f flags s
  = Some (Returns (put_out (ar_out s ++ header_image f hd) s, inl (printed f hd, zlen (header_image f hd)))).
Proof.
  intros Hf Hfit Hs. unfold write_header, mbind_, mlift, mget, mput, mret. obind.
  cbv beta iota. change (id s) with s. rewrite (write_header_eq nobody) by done. obind. done.
Qed.

(** The bytes that the link of a symbolic link adds in the header routine. *)
Definition link_part f (hd : new_cpio_header) : bytes :=
  if file_kind hd =? CP_IFLNK
  then c_tar_linkname hd ++ replicate (Z.to_nat (output_pad (zlen (c_tar_linkname hd)) f)) NUL else [].

Lemma output_pad_known f n : known_format f -> 0 <= n ->
  0 <= output_pad n f < 512 /\ output_pad n f = input_pad n f.
Proof.
  intros Hf Hn. destruct Hf as [-> | [-> | ->]]; cbn [output_pad input_pad is_newc is_format existsb].
  all: change (output_pad n ?g) with (pad_to 4 n) || change (output_pad n ?g) with 0.
  all: change (input_pad n ?g) with ((4 - n mod 4) mod 4) || change (input_pad n ?g) with 0.
  all: try (pose proof (pad_range 4 n ltac:(lia) Hn); rewrite (pad_rem 4 n) in * by lia; split; [lia|done]).
Qed.

Lemma pad_output_known out n f : known_format f -> 0 <= n ->
  taru_tape_pad_output out n f = Some (out ++ replicate (Z.to_nat (output_pad n f)) NUL, output_pad n f).
Proof.
  intros Hf Hn. destruct (output_pad_known f n Hf Hn) as [Hr _]. unfold taru_tape_pad_output.
  destruct (output_pad n f =? 0) eqn:E; zbool; cbn [negb].
  - rewrite E. cbn. by rewrite app_nil_r.
  - unfold tarui_tape_buffered_write. change (zlen zeros_512) with 512. ztest. by rewrite zeros_take by lia.
Qed.

Lemma write_plain_run f hd flags s : known_format f -> fits f hd -> bit flags TARU_TAR_DO_STRIP_LEADING_SLASH = false ->
  write_plain nobody hd f flags s
  = Some (Returns (put_out (ar_out s ++ header_image f hd) s, inl (printed f hd, zlen (header_image f hd), 0))).
Proof. intros Hf Hfit Hs. unfold write_plain, mbind_ at 1. rewrite write_header_run by done. done. Qed.

Lemma write_symlink_run f hd flags s : known_format f -> 0 <= zlen (c_tar_linkname hd) ->
  fits f (put_c_filesize (zlen (c_tar_linkname hd)) hd) -> bit flags TARU_TAR_DO_STRIP_LEADING_SLASH = false ->
  let hd' := put_c_filesize (zlen (c_tar_linkname hd)) hd in
  let pad := output_pad (zlen (c_tar_linkname hd)) f in
  write_symlink nobody now hd f flags 0 s
  = Some (Returns (put_out (ar_out s ++ header_image f hd' ++ c_tar_linkname hd ++ replicate (Z.to_nat pad) NUL) s,
                   inl (printed f hd', zlen (header_image f hd') + zlen (c_tar_linkname hd) + pad, 0))).
Proof.
  intros Hf Hl Hfit Hs hd' pad. destruct (known_facts f Hf) as (Ht & _). unfold write_symlink. rewrite Ht.
  fold hd'. unfold mbind_ at 1. rewrite write_header_run by done. obind. cbv beta iota.
  set (out := ar_out s ++ header_image f hd').
  assert (Hpr : c_tar_linkname (printed f hd') = c_tar_linkname hd) by (by destruct Hf as [-> | [-> | ->]]). rewrite Hpr.
  unfold mbind_, mget, mlift, mput, mret. obind. cbv beta iota.
  change (ar_out (put_out out s)) with out.
  unfold tarui_tape_buffered_write at 1. ztest. rewrite take_ge by (unfold zlen; lia). obind. cbv beta iota.
  rewrite pad_output_known by done. obind. cbv beta iota. subst out pad. by rewrite <- !app_assoc.
Qed.

(** No link of the member is deferred, and its inode is kept. *)
Definition plain_writer s : Prop := ar_defer s = None /\ ar_porinode s = None.

(** The header of a member when its type is looked at. *)
Definition set_header f (h : new_cpio_header) (data : bytes) : new_cpio_header :=
  put_c_namesize (zlen (c_name h) + 1)
    (taru_filehdr2filehdr (ahsStaticCreateFilehdr now)
       (put_c_chksum (match f with arf_crcascii => byte_sum data | _ => 0 end) h)).

Lemma put_filesize_same hd : put_c_filesize (c_filesize hd) hd = hd.
Proof. by destruct hd. Qed.

Lemma payload_size h data f : storable now f (h, data) ->
  stored_header now f h data = put_c_filesize (zlen (payload h data)) (set_header f h data).
Proof. done. Qed.

(** The type of a member and what is stored behind its header. *)
Inductive kind_of (h : new_cpio_header) (data : bytes) : Prop :=
  | is_file : file_kind h = CP_IFREG -> c_tar_linkname h = [] -> c_filesize h = zlen data -> payload h data = data -> kind_of h data
  | is_link : file_kind h = CP_IFLNK -> payload h data = c_tar_linkname h -> kind_of h data
  | is_bare : file_kind h ∈ [CP_IFDIR; CP_IFIFO; CP_IFCHR; CP_IFBLK] -> payload h data = [] -> kind_of h data.

Lemma storable_kind f h data : storable now f (h, data) -> kind_of h data.
Proof.
  intros (_ & Hk & Hr & _).
  apply elem_of_cons in Hk as [Hk|Hk]; [destruct (Hr Hk); apply is_file; try done; unfold payload; by rewrite Hk|].
  assert (Hin : file_kind h = CP_IFLNK \/ file_kind h ∈ [CP_IFDIR; CP_IFIFO; CP_IFCHR; CP_IFBLK]).
  { set_solver. }
  destruct Hin as [E|Hin]; [apply is_link; [done|]; unfold payload; by rewrite E|]. apply is_bare; [done|]. unfold payload.
  rewrite !elem_of_cons in Hin. destruct Hin as [-> | [-> | [-> | [-> | Hin]]]]; done || by apply not_elem_of_nil in Hin.
Qed.

Lemma write_by_type_run f h data flags s : known_format f -> storable now f (h, data) -> plain_writer s ->
  bit flags TARU_TAR_DO_STRIP_LEADING_SLASH = false ->
  let hd := stored_header now f h data in
  let link := if file_kind h =? CP_IFLNK
              then c_tar_linkname h ++ replicate (Z.to_nat (output_pad (zlen (c_tar_linkname h)) f)) NUL else [] in
  write_by_type nobody contents now linkrecord_disable (set_header f h data) f flags 0 s
  = Some (Returns (put_out (ar_out s ++ header_image f hd ++ link) s,
                   inl (printed f hd, zlen (header_image f hd) + zlen link, 0))).
Proof.
  intros Hf Hst [Hd _] Hs hd link. destruct (known_facts f Hf) as (Ht & Hfm & Htar & Hust).
  pose proof (storable_kind f h data Hst) as Hk. pose proof Hst as (Hfit & _). fold hd in Hfit.
  assert (Hkind : Z.land (c_mode (set_header f h data)) S_IFMT = file_kind h) by done.
  unfold write_by_type. rewrite Hkind. destruct Hk as [Hk Hl Hz Hp|Hk Hp|Hk Hp].
  - subst link. rewrite Hk. change (CP_IFREG =? CP_IFLNK) with false. change (CP_IFREG =? CP_IFREG) with true.
    cbv iota. rewrite app_nil_r. change (zlen (@nil ascii)) with 0. rewrite Z.add_0_r.
    assert (Hhd : set_header f h data = hd).
    { subst hd. rewrite (payload_size h data f Hst), Hp, <- Hz.
      exact (eq_sym (put_filesize_same (set_header f h data))). }
    rewrite Hhd. unfold write_regular. rewrite Hfm, Ht. destruct (_ && _); [|by apply write_plain_run].
    unfold write_cpio_link, mbind_ at 1, mget. obind. cbv beta iota. unfold id. rewrite Hd. by apply write_plain_run.
  - subst link. rewrite Hk. change (CP_IFLNK =? CP_IFLNK) with true. change (CP_IFLNK =? CP_IFREG) with false.
    change (CP_IFLNK =? CP_IFDIR) with false. change (CP_IFLNK =? CP_IFSOCK) with false.
    change (CP_IFLNK =? CP_IFIFO) with false. change (CP_IFLNK =? CP_IFCHR) with false.
    change (CP_IFLNK =? CP_IFBLK) with false. cbv iota. cbn [orb].
    assert (Hhd : hd = put_c_filesize (zlen (c_tar_linkname (set_header f h data))) (set_header f h data)).
    { subst hd. by rewrite (payload_size h data f Hst), Hp. }
    rewrite Hhd in Hfit. rewrite (write_symlink_run f _ flags s) by (done || apply zlen_nonneg). rewrite <- Hhd.
    assert (Hln : c_tar_linkname (set_header f h data) = c_tar_linkname h) by done. rewrite Hln.
    rewrite zlen_app, zlen_replicate.
    destruct (output_pad_known f (zlen (c_tar_linkname h)) Hf (zlen_nonneg _)) as [Hpad _].
    rewrite Z2Nat.id by lia. by rewrite Z.add_assoc.
  - assert (Hhd : hd = put_c_filesize 0 (set_header f h data)).
    { subst hd. by rewrite (payload_size h data f Hst), Hp. }
    assert (Hnl : (file_kind h =? CP_IFLNK) = false /\ (file_kind h =? CP_IFREG) = false /\ (file_kind h =? CP_IFSOCK) = false).
    { rewrite !elem_of_cons in Hk. destruct Hk as [-> | [-> | [-> | [-> | Hk]]]]; done || by apply not_elem_of_nil in Hk. }
    destruct Hnl as (Hnl & Hnr & Hns). subst link. rewrite Hnl, Hnr, Hns. rewrite app_nil_r. change (zlen (@nil ascii)) with 0. rewrite Z.add_0_r.
    destruct (file_kind h =? CP_IFDIR) eqn:Edir; [rewrite <- Hhd; by apply write_plain_run|].
    assert (Hsp : ((file_kind h =? CP_IFIFO) || ((file_kind h =? CP_IFCHR) || (file_kind h =? CP_IFBLK))) = true).
    { rewrite !elem_of_cons in Hk. destruct Hk as [E | [-> | [-> | [-> | Hk]]]]; try done.
      - rewrite E in Edir. done.
      - by apply not_elem_of_nil in Hk. }
    rewrite Hsp. unfold write_special. rewrite Htar, Hust, Ht. cbn [mwhen].
    rewrite bind_ret. cbv iota. by rewrite <- Hhd, (bind_run _ _ _ _ _ (write_header_run f hd flags s Hf Hfit Hs)).
Qed.

(** The sum that is stored: of the bytes of a file, and of nothing otherwise. *)
Lemma stored_sum f h data : storable now f (h, data) ->
  (if bool_decide (f = arf_crcascii)
   then sum ← taru_read_for_crc_checksum data (to_int (c_filesize h)); Some (put_c_chksum sum (put_c_chksum 0 h))
   else Some (put_c_chksum 0 h))
  = Some (put_c_chksum (match f with arf_crcascii => byte_sum data | _ => 0 end) h).
Proof.
  intros (_ & _ & Hr & Hn & _ & Hsz & _). case_bool_decide as E; [subst f|by destruct f].
  destruct (decide (file_kind h = CP_IFREG)) as [Hk|Hk].
  - destruct (Hr Hk) as [_ Hz]. unfold payload in Hsz. rewrite Hk in Hsz. change (CP_IFREG =? CP_IFREG) with true in Hsz.
    cbv iota in Hsz. pose proof (byte_sum_bound data). rewrite Hz, member_sum by lia. done.
  - rewrite (Hn Hk). unfold taru_read_for_crc_checksum. cbn [length crc_loop].
    destruct (to_int (c_filesize h) >? 0); done.
Qed.

Lemma member_header_run f h data flags s : known_format f -> storable now f (h, data) -> plain_writer s ->
  bit flags TARU_TAR_DO_STRIP_LEADING_SLASH = false ->
  let hd := stored_header now f h data in
  let link := if file_kind h =? CP_IFLNK
              then c_tar_linkname h ++ replicate (Z.to_nat (output_pad (zlen (c_tar_linkname h)) f)) NUL else [] in
  member_header nobody contents now pid linkrecord_disable
    (put_c_chksum (match f with arf_crcascii => byte_sum data | _ => 0 end) h) f flags s
  = Some (Returns (put_out (ar_out s ++ header_image f hd ++ link) s,
                   inl (printed f hd, zlen (header_image f hd) + zlen link))).
Proof.
  intros Hf Hst Hp Hs hd link. destruct (known_facts f Hf) as (Ht & _). unfold member_header.
  assert (Hps : forall h', pseudo_inode h' f s = Some (Returns (s, inl h'))).
  { intros h'. unfold pseudo_inode. rewrite bind_get. by rewrite (proj2 Hp). }
  rewrite (bind_run _ _ _ _ _ (Hps _)). rewrite Hs, Ht. cbn [mwhen]. rewrite bind_ret. cbv iota.
  rewrite (bind_run _ _ _ _ _ (write_by_type_run f h data flags s Hf Hst Hp Hs)).
  unfold mret. by rewrite !Z.add_0_r.
Qed.

(** The header that the data routine gets. *)
Lemma printed_kind f hd : known_format f ->
  let h1 := taru_filehdr2filehdr (ahsStaticCreateFilehdr now) (printed f hd) in
  has_data h1 = has_data hd /\ c_filesize h1 = c_filesize hd.
Proof. by intros [-> | [-> | ->]]. Qed.

Lemma write_data_run f hd data out : known_format f -> has_data hd = true -> c_filesize hd = zlen data -> zlen data < 2 ^ 31 ->
  write_data hd out data f
  = Some (out ++ data ++ replicate (Z.to_nat (output_pad (zlen data) f)) NUL, [], zlen data + output_pad (zlen data) f).
Proof.
  intros Hf Hd Hz Hl. pose proof (zlen_nonneg data) as Hnn. unfold write_data. rewrite Hd, Hz.
  assert (Hlong : to_long (zlen data) = zlen data) by (unfold to_long; rewrite Z.mod_small; lia). rewrite Hlong.
  unfold pump. ztest. rewrite (surjective_pairing (taru_tape_buffered_read _ _)).
  pose proof (read_exact data []) as Hr. rewrite app_nil_r in Hr. rewrite Hr. cbn [fst snd]. ztest.
  rewrite pad_output_known by done. obind. by rewrite <- app_assoc.
Qed.

Lemma member_data_run f hd data s : known_format f -> has_data hd = true -> c_filesize hd = zlen data -> zlen data < 2 ^ 31 ->
  member_data contents hd f (Some data) s
  = Some (Returns (put_out (ar_out s ++ data ++ replicate (Z.to_nat (output_pad (zlen data) f)) NUL) s,
                   inl (Some [], zlen data + output_pad (zlen data) f))).
Proof.
  intros Hf Hd Hz Hl. unfold member_data. rewrite bind_get.
  by rewrite (bind_lift _ _ _ _ (write_data_run f hd data (ar_out s) Hf Hd Hz Hl)).
Qed.

Lemma header_image_pos f hd : known_format f -> 0 < zlen (header_image f hd).
Proof.
  intros Hf. unfold header_image. rewrite zlen_app, format_magic_zlen.
  pose proof (zlen_nonneg (if is_odc f then odc_body hd else newc_body (printed f hd))). lia.
Qed.

Lemma write_member_run f h data flags s : known_format f -> storable now f (h, data) -> plain_writer s ->
  bit flags TARU_TAR_DO_STRIP_LEADING_SLASH = false ->
  exists h', tarui_write_archive_member_ nobody contents now pid linkrecord_disable None h f (Some data) flags s
  = Some (Returns (put_out (ar_out s ++ member_image now f (h, data)) s,
                   inl (h', Some [], zlen (member_image now f (h, data))))).
Proof.
  intros Hf Hst Hp Hs. exists (put_c_chksum (match f with arf_crcascii => byte_sum data | _ => 0 end) h).
  unfold tarui_write_archive_member_. pose proof (stored_sum f h data Hst) as Hsum.
  set (h2 := put_c_chksum (match f with arf_crcascii => byte_sum data | _ => 0 end) h) in *.
  set (hd := stored_header now f h data).
  assert (Hcrc : forall k : new_cpio_header -> M (new_cpio_header * option bytes * Z),
    mbind_ (if bool_decide (f = arf_crcascii) then
              let* sum := mlift (taru_read_for_crc_checksum data (to_int (c_filesize (put_c_chksum 0 h)))) in
              mret (put_c_chksum sum (put_c_chksum 0 h))
            else mret (put_c_chksum 0 h))%member k s = k h2 s).
  { intros k. change (c_filesize (put_c_chksum 0 h)) with (c_filesize h). destruct (bool_decide _).
    - apply bind_Some in Hsum as (sum & E & Eh). apply bind_run. rewrite (bind_lift _ _ _ _ E). unfold mret. congruence.
    - apply bind_run. unfold mret. congruence. }
  rewrite Hcrc. clear Hcrc.
  pose proof (member_header_run f h data flags s Hf Hst Hp Hs) as Hhd. fold h2 hd in Hhd. cbv zeta in Hhd.
  set (link := if file_kind h =? CP_IFLNK then _ else _) in Hhd.
  set (h1 := taru_filehdr2filehdr (ahsStaticCreateFilehdr now) (printed f hd)).
  assert (Hmh : taru_write_archive_member_header nobody contents now pid linkrecord_disable None h2 f
                  (ahsStaticCreateFilehdr now) flags s
                = Some (Returns (put_out (ar_out s ++ header_image f hd ++ link) s,
                                 inl (h1, zlen (header_image f hd) + zlen link)))).
  { unfold taru_write_archive_member_header. rewrite bool_decide_false by (by intros [? ?]).
    unfold mbind_, mcall. rewrite Hhd. obind. done. }
  rewrite (bind_run _ _ _ _ _ Hmh). clear Hmh Hhd. cbv beta iota.
  pose proof (header_image_pos f hd Hf) as Hpos. pose proof (zlen_nonneg link) as Hlink. ztest. rewrite andb_true_r.
  destruct (printed_kind f hd Hf) as [Hhas Hsize]. fold h1 in Hhas, Hsize. rewrite Hhas.
  assert (Hhd : has_data hd = ((file_kind h =? CP_IFREG) && (zlen (c_tar_linkname h) =? 0))) by done. rewrite Hhd.
  unfold member_image. fold hd. pose proof (storable_kind f h data Hst) as Hk.
  destruct Hst as (_ & _ & _ & Hn & _ & Hsz & _). destruct Hk as [Hk Hl Hz Hpl|Hk Hpl|Hk Hpl].
  - subst link. rewrite Hk, Hl in Hhd |- *. change (CP_IFREG =? CP_IFLNK) with false. cbv iota. rewrite Hpl in Hsz |- *. rewrite app_nil_r.
    change (zlen (@nil ascii)) with 0. rewrite Z.add_0_r. cbn [andb Z.eqb]. change (CP_IFREG =? CP_IFREG) with true. cbv iota.
    assert (Hfs : c_filesize hd = zlen data) by (change (c_filesize hd) with (zlen (payload h data)); by rewrite Hpl).
    assert (Hhas1 : has_data h1 = true) by (by rewrite Hhas, Hhd).
    cbn [andb]. cbv iota. rewrite (bind_run _ _ _ _ _ (member_data_run f h1 data _ Hf Hhas1 ltac:(by rewrite Hsize) Hsz)). cbv iota.
    destruct (output_pad_known f (zlen data) Hf (zlen_nonneg _)) as [Hpad _]. pose proof (zlen_nonneg data). ztest.
    unfold mret. change (ar_out (put_out ?o s)) with o. rewrite <- app_assoc.
    rewrite !zlen_app, zlen_replicate, Z2Nat.id by lia. done.
  - subst link. rewrite Hk. change (CP_IFLNK =? CP_IFLNK) with true. change (CP_IFLNK =? CP_IFREG) with false. cbv iota.
    cbn [andb]. rewrite Hpl. rewrite zlen_app, (Hn ltac:(by rewrite Hk)). unfold mret. rewrite !zlen_app. done.
  - subst link. assert (Hnl : (file_kind h =? CP_IFLNK) = false /\ (file_kind h =? CP_IFREG) = false /\ file_kind h <> CP_IFREG).
    { rewrite !elem_of_cons in Hk. destruct Hk as [-> | [-> | [-> | [-> | Hk]]]]; done || by apply not_elem_of_nil in Hk. }
    destruct Hnl as (-> & -> & Hne). cbn [andb]. rewrite Hpl. change (zlen (@nil ascii)) with 0.
    rewrite (Hn Hne). unfold mret. assert (output_pad 0 f = 0) as -> by (by destruct Hf as [-> | [-> | ->]]).
    cbn [Z.to_nat replicate app]. by rewrite !app_nil_r, Z.add_0_r.
Qed.

(** ** Reading one member *)

Section Reading.
Context (stray : bool) (rounds : nat) (taru : TARU) (c : SYSDBCACHES).

Definition delivered f (h h0 : new_cpio_header) (data : bytes) : new_cpio_header :=
  put_c_tar_linkname (if file_kind h =? CP_IFLNK then c_tar_linkname h else [])
    (received f (stored_header now f h data) h0).

(** What follows when the header was read: a link was read with it. *)
Definition behind_header f (h : new_cpio_header) (data rest : bytes) : bytes :=
  if file_kind h =? CP_IFLNK then rest
  else payload h data ++ replicate (Z.to_nat (output_pad (zlen (payload h data)) f)) NUL ++ rest.

Lemma skip_padding_known f n rest : known_format f -> 0 <= n ->
  taru_tape_skip_padding (replicate (Z.to_nat (output_pad n f)) NUL ++ rest) n f = (rest, output_pad n f).
Proof.
  intros Hf Hn. destruct (output_pad_known f n Hf Hn) as [Hr He]. unfold taru_tape_skip_padding. rewrite <- He.
  destruct (output_pad n f =? 0) eqn:E; zbool; cbn [negb]; [by rewrite E|].
  unfold taru_read_amount. ztest. rewrite read_n; [|by rewrite zlen_replicate; lia].
  by rewrite zlen_replicate, Z2Nat.id by lia.
Qed.

Lemma fits_no_nul f hd : known_format f -> fits f hd -> no_nul (c_name hd).
Proof. intros [-> | [-> | ->]] [[Hn _] _]; exact Hn. Qed.

Lemma read_header_run f h data h0 rest : known_format f -> storable now f (h, data) ->
  exists ret, 0 <= ret /\
    taru_read_header stray rounds (mkReading taru c h0 (Fd (member_image now f (h, data) ++ rest)) 0) f 0
    = Some (Returns (inl (mkReading taru c (delivered f h h0 data) (Fd (behind_header f h data rest)) 0, ret))).
Proof.
  intros Hf Hst. destruct (known_facts f Hf) as (Ht & _). pose proof (storable_kind f h data Hst) as Hk.
  pose proof Hst as (Hfit & _ & _ & _ & Hnn & Hsz & Hname). set (hd := stored_header now f h data) in *.
  assert (Hhp : not_hpux hd).
  { intros Hsp _ _. change (c_filesize hd) with (zlen (payload h data)). change (c_mode hd) with (c_mode h) in Hsp.
    unfold is_special in Hsp. fold (file_kind h) in Hsp.
    destruct Hk as [Hk _ _ _|Hk _|_ Hp]; [by rewrite Hk in Hsp|by rewrite Hk in Hsp|by rewrite Hp]. }
  unfold member_image. fold hd. rewrite <- !app_assoc.
  set (tail := payload h data ++ _).
  destruct (reader_received f hd h0 tail Hf Hfit Hhp) as (body & Himg & Hr).
  pose proof (zlen_nonneg body) as Hb.
  unfold taru_read_header, taru_read_in_header. rewrite Ht.
  rewrite bool_decide_false by (by destruct Hf as [-> | [-> | ->]]). cbn [rd_src rd_hdr rd_eoa rd_taru rd_caches].
  rewrite Himg, <- app_assoc.
  pose proof (read_cpio_header_junk f [] body tail _ h0 0 Hf ltac:(intros i Hi'; cbn in Hi'; lia) Hr) as Hread.
  cbn [app] in Hread. rewrite Hread. obind. change (zlen (@nil ascii)) with 0. cbv iota beta. ztest.
  unfold trailer_seen. cbn [cr_hdr cr_rest cr_eoa rd_src rd_hdr rd_eoa rd_taru rd_caches].
  change (ahsStaticGetTarFilename (received f hd h0)) with (c_name h).
  assert (Hne : streq (c_name h) CPIO_INBAND_EOA_FILENAME = false).
  { apply not_true_is_false. rewrite streq_eq; [done|apply (fits_no_nul f hd Hf Hfit)|by apply no_nul_compute]. }
  rewrite Hne.
  unfold read_link_name. cbn [cr_hdr cr_rest cr_eoa]. change (c_mode (received f hd h0)) with (c_mode h).
  fold (file_kind h). unfold delivered, behind_header. fold hd.
  destruct (file_kind h =? CP_IFLNK) eqn:El; [|obind; exists (6 + 0 + zlen body); split; [lia|done]]. zbool.
  assert (Hpl : payload h data = c_tar_linkname h) by (unfold payload; by rewrite El).
  change (c_filesize (received f hd h0)) with (zlen (payload h data)). subst tail. rewrite Hpl in *.
  pose proof (zlen_nonneg (c_tar_linkname h)) as Hlink. rewrite read_exact.
  rewrite to_int_id by (unfold INT_MAX; lia). ztest.
  rewrite skip_padding_known by done. obind. cbn [cr_hdr cr_rest cr_eoa].
  destruct (output_pad_known f (zlen (c_tar_linkname h)) Hf Hlink) as [Hpad _].
  eexists. split; [|rewrite cstr_app_nul by done; done]. lia.
Qed.
End Reading.

(** ** Whole archives *)

(** Every member in its turn, until one fails; the bytes that are written. *)
Fixpoint write_members (ms : list (new_cpio_header * bytes)) f (flags : Z) : M Z :=
  match ms with
  | [] => mret 0
  | (h, data) :: ms =>
      let* (_, _, ret) := tarui_write_archive_member_ nobody contents now pid linkrecord_disable None h f (Some data) flags in
      if ret <? 0 then mret ret
      else let* n := write_members ms f flags in mret (if n <? 0 then n else ret + n)
  end%member.

Definition write_archive (ms : list (new_cpio_header * bytes)) f (flags : Z) : M Z :=
  (let* n := write_members ms f flags in
   if n <? 0 then mret n
   else
     let* s := mget id in
     let* (taru, c, out, ret) := mlift (taru_write_archive_trailer nobody now (ar_taru s) (ar_caches s) f (ar_out s) 512 n 0) in
     do* mput (put_writer taru c out) in mret (n + ret))%member.

(** The members up to the end of the archive: a header, its data and the
    padding behind them. *)
Fixpoint read_archive (stray : bool) (rounds fuel : nat) (r : reading) f : option (list (new_cpio_header * bytes) * reading) :=
  match fuel with
  | O => None
  | S fuel =>
      res ← taru_read_header stray rounds r f 0;
      match res with
      | Returns (inl (r, ret)) =>
          if ret <? 0 then None
          else if rd_eoa r =? 0 then
            match rd_src r with
            | Fd rest =>
                let size := if has_data (rd_hdr r) then c_filesize (rd_hdr r) else 0 in
                let '(data, rest) := taru_tape_buffered_read rest size in
                let '(rest, _) := taru_tape_skip_padding rest size f in
                '(ms, r') ← read_archive stray rounds fuel (mkReading (rd_taru r) (rd_caches r) (rd_hdr r) (Fd rest) (rd_eoa r)) f;
                Some ((rd_hdr r, data) :: ms, r')
            | Mem _ _ => None
            end
          else Some ([], r)
      | _ => None
      end
  end.

Definition members_image f (ms : list (new_cpio_header * bytes)) : bytes := concat (member_image now f <$> ms).

Lemma write_members_run f flags : known_format f -> bit flags TARU_TAR_DO_STRIP_LEADING_SLASH = false ->
  forall ms s, Forall (storable now f) ms -> plain_writer s ->
  write_members ms f flags s
  = Some (Returns (put_out (ar_out s ++ members_image f ms) s, inl (zlen (members_image f ms)))).
Proof.
  intros Hf Hs. induction ms as [|[h data] ms IH]; intros s Hms Hp.
  - unfold members_image. cbn. rewrite app_nil_r. by destruct s.
  - apply Forall_cons in Hms as [Hm Hms]. cbn [write_members].
    destruct (write_member_run f h data flags s Hf Hm Hp Hs) as [h' Hw].
    rewrite (bind_run _ _ _ _ _ Hw). cbv iota. pose proof (zlen_nonneg (member_image now f (h, data))). ztest.
    set (s1 := put_out _ s). rewrite (bind_run _ _ _ _ _ (IH s1 Hms Hp)).
    pose proof (zlen_nonneg (members_image f ms)). ztest. unfold mret. subst s1. change (ar_out (put_out ?o s)) with o.
    unfold members_image. cbn [fmap list_fmap concat]. rewrite zlen_app, app_assoc. done.
Qed.

Lemma received_link f (h h0 : new_cpio_header) l : received f h (put_c_tar_linkname l h0) = received f h h0.
Proof. exact eq_refl. Qed.

Lemma received_again f (h h' h0 : new_cpio_header) : known_format f ->
  received f h (received f h' h0) = received f h h0.
Proof. intros [-> | [-> | ->]]; exact eq_refl. Qed.

Lemma delivered_again f h h0 data h' data' : known_format f ->
  delivered f h (delivered f h' h0 data') data = delivered f h h0 data.
Proof. intros Hf. unfold delivered. by rewrite received_link, (received_again f _ _ h0 Hf). Qed.

Lemma kind_data f h h0 data : has_data (delivered f h h0 data) = (file_kind h =? CP_IFREG).
Proof.
  unfold has_data. change (Z.land (c_mode (delivered f h h0 data)) S_IFMT) with (file_kind h).
  destruct (file_kind h =? CP_IFREG) eqn:E; [|done]. zbool. unfold delivered. by rewrite E.
Qed.

Lemma read_nothing f tail : known_format f ->
  taru_tape_buffered_read tail 0 = ([], tail) /\ taru_tape_skip_padding tail 0 f = (tail, 0).
Proof. intros [-> | [-> | ->]]; by split. Qed.

Definition final_header f (h0 : new_cpio_header) : new_cpio_header :=
  ahsStaticSetPaxLinkname (received f (trailer_header now) h0) [].

Lemma read_trailer_run f stray rounds taru c h0 rest n : known_format f ->
  read_archive stray rounds (S n) (mkReading taru c h0 (Fd (trailer_image f now ++ rest)) 0) f
  = Some ([], mkReading taru c (final_header f h0) (Fd rest) 1).
Proof.
  intros Hf. destruct (known_facts f Hf) as (Ht & _). pose proof (trailer_image_length f now Hf).
  cbn [read_archive]. unfold taru_read_header, taru_read_in_header. rewrite Ht.
  rewrite bool_decide_false by (by destruct Hf as [-> | [-> | ->]]). cbn [rd_src rd_hdr rd_eoa rd_taru rd_caches].
  rewrite (trailer_read f now h0 0 rest Hf). obind. cbv iota beta. ztest. cbn [cr_hdr cr_rest cr_eoa rd_src rd_hdr rd_eoa rd_taru rd_caches].
  unfold read_link_name. cbn [cr_hdr cr_rest cr_eoa]. change (Z.land (c_mode (received f (trailer_header now) h0)) S_IFMT) with 0.
  change (0 =? CP_IFLNK) with false. cbv iota. obind. ztest. cbn [cr_hdr cr_rest cr_eoa rd_eoa]. done.
Qed.

Lemma read_members_run f stray rounds taru c rest n : known_format f ->
  forall ms h0, Forall (storable now f) ms ->
  read_archive stray rounds (length ms + S n)
    (mkReading taru c h0 (Fd (members_image f ms ++ trailer_image f now ++ rest)) 0) f
  = Some ((fun m => (delivered f m.1 h0 m.2, m.2)) <$> ms, mkReading taru c (final_header f h0) (Fd rest) 1).
Proof.
  intros Hf. induction ms as [|[h data] ms IH]; intros h0 Hms; [by apply read_trailer_run|].
  apply Forall_cons in Hms as [Hm Hms]. unfold members_image. cbn [fmap list_fmap concat length Nat.add read_archive].
  fold (members_image f ms). rewrite <- app_assoc.
  destruct (read_header_run stray rounds taru c f h data h0 (members_image f ms ++ trailer_image f now ++ rest) Hf Hm) as (ret & Hret & Hr).
  rewrite Hr. obind. cbv iota beta. ztest. cbn [rd_eoa rd_src rd_hdr rd_taru rd_caches Z.eqb]. rewrite kind_data.
  pose proof (storable_kind f h data Hm) as Hk. destruct Hm as (_ & _ & _ & Hn & _ & Hsz & _).
  set (tail := members_image f ms ++ trailer_image f now ++ rest).
  assert (Hstep : forall hd, hd = delivered f h h0 data ->
    (let '(b, rest0) := taru_tape_buffered_read (behind_header f h data tail) (if file_kind h =? CP_IFREG then c_filesize hd else 0) in
     let '(rest0, _) := taru_tape_skip_padding rest0 (if file_kind h =? CP_IFREG then c_filesize hd else 0) f in
     '(l, r') ← read_archive stray rounds (length ms + S n) (mkReading taru c hd (Fd rest0) 0) f; Some ((hd, b) :: l, r'))
    = '(l, r') ← read_archive stray rounds (length ms + S n) (mkReading taru c hd (Fd tail) 0) f; Some ((hd, data) :: l, r')).
  { intros hd ->. unfold behind_header. change (c_filesize (delivered f h h0 data)) with (zlen (payload h data)).
    destruct Hk as [Hk Hl Hz Hpl|Hk Hpl|Hk Hpl].
    - rewrite Hk, Hpl in *. change (CP_IFREG =? CP_IFLNK) with false. change (CP_IFREG =? CP_IFREG) with true. cbv iota.
      rewrite read_exact, skip_padding_known by (done || apply zlen_nonneg). done.
    - rewrite Hk. change (CP_IFLNK =? CP_IFREG) with false. change (CP_IFLNK =? CP_IFLNK) with true. cbv iota.
      rewrite (Hn ltac:(by rewrite Hk)). destruct (read_nothing f tail Hf) as [-> ->]; done.
    - rewrite Hpl. change (zlen (@nil ascii)) with 0.
      assert (output_pad 0 f = 0) as -> by (by destruct Hf as [-> | [-> | ->]]). change (replicate (Z.to_nat 0) NUL ++ tail) with tail. cbn [app].
      assert (Hne : file_kind h <> CP_IFREG).
      { rewrite !elem_of_cons in Hk. destruct Hk as [-> | [-> | [-> | [-> | Hk]]]]; done || by apply not_elem_of_nil in Hk. }
      rewrite (Hn Hne). destruct (file_kind h =? CP_IFLNK), (file_kind h =? CP_IFREG);
        destruct (read_nothing f tail Hf) as [-> ->]; done. }
  rewrite (Hstep _ eq_refl), IH by done. obind. do 3 f_equal; [|unfold final_header, delivered; by rewrite received_link, (received_again f _ _ h0 Hf)].
  apply list_fmap_ext. intros i m _. by rewrite delivered_again.
Qed.

(** C1: A cpio archive comes back as it was written.  In the formats newc, crc
    and odc any sequence of members that the format can hold (regular files,
    directories, symbolic links, devices and pipes) is written by the member
    writer, one behind the other, with the trailer behind them, without
    touching the bytes that were there; the returned lengths add up to the size
    of the archive, which is a multiple of 512 when there are members.  Reading
    headers, data and padding in turn gives every member in its order with its
    numbers, its name, the target of a link and its data, then the end of the
    archive, and leaves exactly what follows it. *)
Theorem cpio_archive_roundtrip f (ms : list (new_cpio_header * bytes)) s (flags : Z) (h0 : new_cpio_header)
    (stray : bool) (rounds : nat) (taru : TARU) (c : SYSDBCACHES)
    (Hf : known_format f) (Hms : Forall (storable now f) ms) (Hp : plain_writer s)
    (Hflags : bit flags TARU_TAR_DO_STRIP_LEADING_SLASH = false) (Hsize : zlen (members_image f ms) < 2 ^ 63) :
  exists archive s',
    write_archive ms f flags s = Some (Returns (s', inl (zlen archive)))
    /\ ar_out s' = ar_out s ++ archive
    /\ (ms <> [] -> zlen archive mod 512 = 0)
    /\ forall rest fuel, (length ms < fuel)%nat -> exists zeros r',
         read_archive stray rounds fuel (mkReading taru c h0 (Fd (archive ++ rest)) 0) f
         = Some ((fun m => (delivered f m.1 h0 m.2, m.2)) <$> ms, r')
         /\ rd_eoa r' = 1 /\ rd_src r' = Fd (replicate zeros NUL ++ rest).
Proof.
  pose proof (zlen_nonneg (members_image f ms)) as Hnn.
  pose proof (write_members_run f flags Hf Hflags ms s Hms Hp) as Hw. set (s1 := put_out _ s) in Hw.
  destruct (cpio_trailer_written nobody f now (ar_taru s1) (ar_caches s1) (ar_out s1) 512 (zlen (members_image f ms)) 0 Hf)
    as (zeros & Ht & Hz); [lia|].
  exists (members_image f ms ++ trailer_image f now ++ replicate zeros NUL).
  eexists. split; [|split; [|split]].
  - unfold write_archive. rewrite (bind_run _ _ _ _ _ Hw). ztest. rewrite bind_get. unfold id.
    rewrite (bind_lift _ _ _ _ Ht), bind_put. unfold mret. by rewrite !zlen_app, zlen_replicate.
  - subst s1. change (ar_out (put_out ?o s)) with o. cbn [ar_out put_writer]. by rewrite <- app_assoc.
  - intros Hne. assert (Hpos : 0 < zlen (members_image f ms)).
    { destruct ms as [|[h data] ms']; [done|]. unfold members_image. cbn [fmap list_fmap concat member_image].
      rewrite !zlen_app. pose proof (header_image_pos f (stored_header now f h data) Hf).
      pose proof (zlen_nonneg (payload h data)). rewrite zlen_replicate.
      pose proof (zlen_nonneg (concat (member_image now f <$> ms'))). lia. }
    rewrite !zlen_app, zlen_replicate, Z.add_assoc. by apply Hz.
  - intros rest fuel Hfuel. exists zeros, (mkReading taru c (final_header f h0) (Fd (replicate zeros NUL ++ rest)) 1).
    split; [|done]. replace fuel with (length ms + S (fuel - length ms - 1))%nat by lia. rewrite <- !app_assoc.
    by apply read_members_run.
Qed.
End Archive.

Module Witness.
Definition hd (mode nlink size : Z) (name link : bytes) : new_cpio_header :=
  mkHDR 42 mode 1000 100 nlink 1300000000 size 8 1 0 0 0 0 name link [] [] 0 0 0 0 0 0 [] 0 0 0 0.

(** A directory, a file, a symbolic link and a pipe. *)
Definition members : list (new_cpio_header * bytes) :=
  [(hd 16877 2 4096 (L "d") [], []); (hd 33188 1 5 (L "d/file") [], L "hello");
   (hd 41471 1 0 (L "d/link") (L "file"), []); (hd 4516 1 0 (L "d/pipe") [], [])].

#[local] Instance junk_x : Malloc := fun _ => "x"%char.
#[local] Instance no_names : SysDB :=
  {| getpwnam := fun _ => None; getpwuid := fun _ => None; getgrnam := fun _ => None; getgrgid := fun _ => None |}.

Definition buffer : STROB := mkSTROB [] None 0 0 0 0.
Definition object : TARU := mkTARU buffer 0 0 0 buffer buffer buffer 0 buffer.
Definition caches : SYSDBCACHES := mkSYSDBCACHES empty_cache empty_cache.
Definition start : archiving := mkArchiving object caches (etar_open 0 0) (L "before") None None None.

Lemma members_storable : Forall (storable 0 arf_crcascii) members.
Proof.
  unfold members.
  repeat (apply Forall_cons_2; [
    split; [split; [split; [by apply no_nul_compute|done]|split; [vm_compute; congruence|]];
            unfold newc_values; repeat (apply Forall_cons_2; [vm_compute; split; congruence|]); apply Forall_nil_2|];
    split; [vm_compute; set_solver|]; split; [by vm_compute|]; split; [by vm_compute|]; split; [by apply no_nul_compute|];
    split; [vm_compute; reflexivity|done]|]).
  apply Forall_nil_2.
Qed.

Lemma cpio_archive_roundtrip_witness : exists archive s',
  write_archive (0, false) (fun _ => None) 0 1 0 members arf_crcascii 0 start = Some (Returns (s', inl (zlen archive)))
  /\ ar_out s' = L "before" ++ archive
  /\ (members <> [] -> zlen archive mod 512 = 0)
  /\ forall rest fuel, (length members < fuel)%nat -> exists zeros r',
       read_archive false 2 fuel (mkReading object caches (hd 0 0 0 [] []) (Fd (archive ++ rest)) 0) arf_crcascii
       = Some ((fun m => (delivered 0 arf_crcascii m.1 (hd 0 0 0 [] []) m.2, m.2)) <$> members, r')
       /\ rd_eoa r' = 1 /\ rd_src r' = Fd (replicate zeros NUL ++ rest).
Proof.
  apply (cpio_archive_roundtrip (0, false) (fun _ => None) 0 1 0 arf_crcascii members start 0 (hd 0 0 0 [] []) false 2
           object caches).
  - right. by left.
  - apply members_storable.
  - by split.
  - reflexivity.
  - vm_compute. reflexivity.
Defined.
End Witness.
