(* ===== verification/MemberSpec.v ===== *)
(** * Specification of the member writer

    A rule for every step of the monad, the sizes of what the routines write,
    and what follows for whole members: a tar archive grows by whole blocks, and
    by as many bytes as the result says. *)

From S2P Require Import Prelude CString Numerals Strob Cplob HardLinks Pathname Escape FileMode TarNumbers TarHeader SysDb FileHdr PaxHeader TarWrite TarRead Cpio CpioSpec Defer Member.

(** ** Taking computations apart *)

(** A computation that gave a result, step by step. *)
Ltac inv_opt H :=
  cbv beta iota zeta in H;
  lazymatch type of H with
  | mbind _ _ = Some _ =>
      let E := fresh "E" in apply bind_Some in H; destruct H as (? & E & H); inv_opt E; inv_opt H
  | match ?x with _ => _ end = Some _ => let E := fresh "E" in destruct x eqn:E; inv_opt H
  | None = Some _ => discriminate H
  | Some _ = Some _ => injection H; clear H; intros; try subst
  | _ => idtac
  end.

(** ** The size of a header *)

Section Sizes.
Implicit Types (m : bytes).

(** A routine that changes bytes of the header and not its size. *)
Definition same_size (m : bytes) (r : option bytes) : Prop := forall m', r = Some m' -> zlen m' = zlen m.

Lemma write_size m o bs : same_size m (mem_write m o bs).
Proof. intros m' E. apply mem_write_length in E. unfold zlen. lia. Qed.

Lemma bind_size m r (k : bytes -> option bytes) :
  same_size m r -> (forall m1, same_size m1 (k m1)) -> same_size m (m1 ← r; k m1).
Proof.
  intros Hr Hk m' E. apply bind_Some in E as (m1 & E1 & E). rewrite (Hk m1 m' E). by apply Hr.
Qed.

Lemma bind_any {A} m (r : option A) (k : A -> option bytes) :
  (forall a, same_size m (k a)) -> same_size m (a ← r; k a).
Proof. intros Hk m' E. apply bind_Some in E as (a & _ & E). by apply (Hk a). Qed.

Lemma none_size m : same_size m None.
Proof. by intros m'. Qed.

Lemma some_size m : same_size m (Some m).
Proof. by intros m' [= <-]. Qed.

Lemma memset_size m o c n : same_size m (memset m o c n).
Proof. unfold memset. destruct (n <? 0); [apply none_size|apply write_size]. Qed.

Lemma octal_loop_size i : forall m w v, same_size m (octal_loop i m w v).
Proof.
  induction i as [|i IH]; intros m w v; cbn [octal_loop]; [apply none_size|].
  apply bind_size; [apply write_size|]. intros m1. destruct i; [apply some_size|apply IH].
Qed.

Lemma base256_loop_size i : forall m w v p, same_size m (base256_loop i m w v p).
Proof.
  induction i as [|i IH]; intros m w v p; cbn [base256_loop]; [apply none_size|].
  apply bind_size; [apply write_size|]. intros m1. destruct i; [apply some_size|apply IH].
Qed.

Lemma to_chars_size d : forall neg v vs sub m w s t f c, same_size m (to_chars_rec d neg v vs sub m w s t f c).
Proof.
  induction d as [|d IH]; intros; cbn [to_chars_rec]; [apply none_size|].
  repeat case_match; try apply IH; try apply some_size;
    (apply bind_size; [apply write_size|]; intros; try apply octal_loop_size; apply base256_loop_size).
Qed.

Lemma strncpy_size m d s n : same_size m (swlib_strncpy m d s n).
Proof. unfold swlib_strncpy. apply bind_size; [apply write_size|]. intros; apply write_size. Qed.
End Sizes.

Create HintDb sizes.
#[export] Hint Resolve write_size none_size some_size memset_size to_chars_size strncpy_size : sizes.

Ltac sizes :=
  repeat match goal with
  | |- same_size _ (mbind _ _) => first [apply bind_size; [solve [sizes]|intros ?] | apply bind_any; intros ?]
  | |- same_size _ (match ?x with _ => _ end) => destruct x
  | |- same_size _ _ => progress (unfold uintmax_to_chars, size_to_chars, time_to_chars, off_to_chars, uid_to_chars,
       gid_to_chars, major_to_chars, minor_to_chars, mode_to_chars, to_chars)
  | |- _ => solve [eauto with sizes]
  end.

Section HeaderSize.
Context `{Malloc} `{SysDB} (nobody : Z * bool).

Lemma sum_size m flags : same_size m (set_sum m flags (if bit flags TARU_TAR_BE_LIKE_STAR then 32 else 0)).
Proof. unfold set_sum. sizes. Qed.

Lemma header_sum_size m flags : same_size m (taru_set_tar_header_sum m flags).
Proof. unfold taru_set_tar_header_sum. sizes. Qed.

Lemma numbers_size m h flags t : same_size m (set_numbers nobody m h flags t).
Proof. unfold set_numbers. sizes. Qed.

Lemma magic_size m flags : same_size m (set_magic m flags).
Proof. unfold set_magic. sizes. Qed.

Lemma devices_size m h flags t : same_size m (set_devices m h flags t).
Proof. unfold set_devices. sizes. Qed.

Lemma size_chars_size v m p n f t : same_size m (size_to_chars v m p n f t).
Proof. exact (to_chars_size 3 false v 8 None m p n (L "size_t") f t). Qed.

Lemma typeflag_size m h t r : set_typeflag m h t = Some r ->
  match r with inl m' => zlen m' = zlen m | inr code => code = -4 \/ code = -5 end.
Proof.
  intros E. unfold set_typeflag in E. inv_opt E; auto;
    repeat match goal with
    | E : mem_write _ _ _ = Some _ |- _ => apply write_size in E
    | E : size_to_chars _ _ _ _ _ _ = Some _ |- _ => apply size_chars_size in E
    end; congruence.
Qed.

Lemma split_size m name m' ret : taru_split_name_ustar m name = Some (m', ret) -> zlen m' = zlen m.
Proof.
  intros E. unfold taru_split_name_ustar in E. inv_opt E;
    repeat match goal with
    | E : mem_write _ _ _ = Some _ |- _ => apply write_size in E
    | E : memset _ _ _ _ = Some _ |- _ => apply memset_size in E
    end; congruence.
Qed.

Lemma new_name_size m name flags m' ret : taru_set_new_name m name flags = Some (m', ret) -> zlen m' = zlen m.
Proof.
  intros E. unfold taru_set_new_name in E. inv_opt E;
    repeat match goal with
    | E : mem_write _ _ _ = Some _ |- _ => apply write_size in E
    | E : taru_split_name_ustar _ _ = Some _ |- _ => apply split_size in E
    | E : taru_set_tar_header_sum _ _ = Some _ |- _ => apply header_sum_size in E
    end; congruence.
Qed.

(** The owner's name and number. *)
Lemma owner_size cu id flags off name m u c found by_name by_id copy chars c' u' m' :
  (forall m s, same_size m (copy m s)) -> (forall p m, same_size m (chars p m)) ->
  set_owner cu id flags off name m u c found by_name by_id copy chars = Some (c', u', m') -> zlen m' = zlen m.
Proof.
  intros Hcopy Hchars E. unfold set_owner in E. inv_opt E;
    repeat match goal with
    | E : copy _ _ = Some _ |- _ => apply Hcopy in E
    | E : chars _ _ = Some _ |- _ => apply Hchars in E
    | E : swlib_strncpy _ _ _ _ = Some _ |- _ => apply strncpy_size in E
    end; congruence.
Qed.

Lemma user_size m u c h name flags t c' u' m' : set_user nobody m u c h name flags t = Some (c', u', m') -> zlen m' = zlen m.
Proof.
  intros E. unfold set_user in E. inv_opt E. eapply owner_size; [| |eassumption]; intros; sizes.
Qed.

Lemma group_size m u c h name flags t c' u' m' : set_group nobody m u c h name flags t = Some (c', u', m') -> zlen m' = zlen m.
Proof.
  intros E. unfold set_group in E. inv_opt E. eapply owner_size; [| |eassumption]; intros; sizes.
Qed.

(** A header has 512 bytes, or there is none. *)
Lemma make_header_size taru c h user group flags taru' c' r :
  make_tar_header nobody taru c h user group flags = Some (taru', c', r) ->
  match r with inl m => zlen m = 512 | inr code => code ∈ [-1; -13; -4; -5] end.
Proof.
  intros E. unfold make_tar_header in E. inv_opt E;
    repeat match goal with
    | E : set_sum _ _ _ = Some _ |- _ => apply sum_size in E
    | E : set_devices _ _ _ _ = Some _ |- _ => apply devices_size in E
    | E : set_magic _ _ = Some _ |- _ => apply magic_size in E
    | E : set_numbers _ _ _ _ _ = Some _ |- _ => apply numbers_size in E
    | E : memset _ _ _ _ = Some _ |- _ => apply memset_size in E
    | E : set_user _ _ _ _ _ _ _ _ = Some _ |- _ => apply user_size in E
    | E : set_group _ _ _ _ _ _ _ _ = Some _ |- _ => apply group_size in E
    | E : set_typeflag _ _ _ = Some (inl _) |- _ => apply typeflag_size in E
    | E : taru_set_new_name _ _ _ = Some _ |- _ => apply new_name_size in E
    end; change (zlen (replicate (Z.to_nat TARRECORDSIZE) NUL)) with 512 in *;
    first [congruence | by repeat constructor | idtac].
  match goal with E : set_typeflag _ _ _ = Some (inr _) |- _ => destruct (typeflag_size _ _ _ _ E) as [-> | ->] end;
    by repeat constructor.
Qed.

(** ** What a step appends *)

(** The bytes that were appended, and how many. *)
Definition grown (out : bytes) (n : Z) (out' : bytes) : Prop := exists bs, out' = out ++ bs /\ zlen bs = n.

Lemma grew_none out : grown out 0 out.
Proof. exists []. by rewrite app_nil_r. Qed.

Lemma grown_app out bs : grown out (zlen bs) (out ++ bs).
Proof. by exists bs. Qed.

Lemma grown_trans a n b m c : grown a n b -> grown b m c -> grown a (n + m) c.
Proof. intros (x & -> & <-) (y & -> & <-). exists (x ++ y). by rewrite app_assoc, zlen_app. Qed.

Lemma grown_nonneg a n b : grown a n b -> 0 <= n.
Proof. intros (x & _ & <-). apply zlen_nonneg. Qed.

Lemma buffered_write_grows bs out n out' r :
  tarui_tape_buffered_write bs out n = Some (out', r) -> r = n /\ grown out n out'.
Proof.
  unfold tarui_tape_buffered_write. intros E. destruct (_ && _) eqn:C; [|done]. zbool. injection E as <- <-. split; [done|].
  exists (take (Z.to_nat n) bs). split; [done|]. rewrite zlen_take. lia.
Qed.

Lemma pad_output_grows out off f out' r :
  taru_tape_pad_output out off f = Some (out', r) -> r = output_pad off f /\ grown out r out'.
Proof.
  unfold taru_tape_pad_output. intros E. destruct (output_pad off f =? 0) eqn:C; zbool; cbn [negb] in E.
  - injection E as <- <-. split; [done|apply grew_none].
  - by apply buffered_write_grows in E as [-> ?].
Qed.

(** A tar header is one block, or a negative code and nothing. *)
Definition block_or_code (out : bytes) (ret : Z) (out' : bytes) : Prop :=
  (ret = 512 /\ grown out 512 out') \/ (ret ∈ [-1; -13; -4; -5] /\ out' = out).

Lemma tar_header2_grows taru c h out user group flags taru' c' t ret :
  taru_write_out_tar_header2 nobody taru c h (ToFd out) user group flags = Some (taru', c', t, ret) ->
  exists out', t = ToFd out' /\ block_or_code out ret out'.
Proof.
  intros E. unfold taru_write_out_tar_header2 in E. apply bind_Some in E as ([[? ?] r] & Em & E).
  apply make_header_size in Em. destruct r as [m|code].
  - apply bind_Some in E as (? & _ & E). injection E as _ _ <- <-. eexists. split; [done|]. left. split; [done|].
    by exists m.
  - injection E as _ _ <- <-. exists out. split; [done|]. by right.
Qed.

Lemma tar_header_grows taru c h out f flags taru' c' h' out' ret : is_tar f = true ->
  taru_write_out_header nobody taru c h out f flags = Some (taru', c', h', out', ret) ->
  block_or_code out ret out'.
Proof.
  intros Hf E. unfold taru_write_out_header in E.
  assert (is_newc f = false /\ is_odc f = false) as [Hn Ho] by (by destruct f). rewrite Hn, Ho, Hf in E.
  apply bind_Some in E as ([[[? ?] u] ?] & Et & E). apply tar_header2_grows in Et as (o & -> & Hb).
  injection E; intros; subst; done.
Qed.
End HeaderSize.

(** ** Rules for the steps *)

(** Whatever the computation returns has the property. *)
Definition wp {A} (m : M A) (Q : A + Z -> archiving -> Prop) (s : archiving) : Prop :=
  forall s' r, m s = Some (Returns (s', r)) -> Q r s'.

Section Rules.
Context {A B : Type}.
Implicit Types (Q : A + Z -> archiving -> Prop) (s : archiving).

Lemma wp_ret (a : A) Q s : Q (inl a) s -> wp (mret a) Q s.
Proof. by intros HQ s' r [= <- <-]. Qed.

Lemma wp_return code Q s : Q (inr code) s -> wp (mreturn code) Q s.
Proof. by intros HQ s' r [= <- <-]. Qed.

Lemma wp_fatal Q s : wp mfatal Q s.
Proof. by intros s' r. Qed.

Lemma wp_get (g : archiving -> A) Q s : Q (inl (g s)) s -> wp (mget g) Q s.
Proof. by intros HQ s' r [= <- <-]. Qed.

Lemma wp_lift o Q s : (forall a, o = Some a -> Q (inl a) s) -> wp (mlift o) Q s.
Proof. intros HQ s' r E. unfold mlift in E. apply bind_Some in E as (a & Ea & E). injection E as <- <-. by apply HQ. Qed.

Lemma wp_outcome o Q s : (forall a, o = Some (Returns a) -> Q (inl a) s) -> wp (moutcome o) Q s.
Proof.
  intros HQ s' r E. unfold moutcome in E. apply bind_Some in E as ([a|] & Ea & E); [|done].
  injection E as <- <-. by apply HQ.
Qed.

Lemma wp_bind (m : M B) (k : B -> M A) Q s :
  wp m (fun r s => match r with inl b => wp (k b) Q s | inr code => Q (inr code) s end) s -> wp (mbind_ m k) Q s.
Proof.
  intros Hm s' r E. unfold mbind_ in E. apply bind_Some in E as ([[s1 [b|code]]|] & E1 & E); [| |done].
  - exact (Hm s1 (inl b) E1 s' r E).
  - injection E as <- <-. exact (Hm s1 (inr code) E1).
Qed.

Lemma wp_mono (m : M A) (Q' : A + Z -> archiving -> Prop) Q s :
  wp m Q' s -> (forall r s', Q' r s' -> Q r s') -> wp m Q s.
Proof. intros Hm Hi s' r E. apply Hi. by apply Hm. Qed.

Lemma wp_when (b : bool) (m : M A) a Q s : (b = true -> wp m Q s) -> (b = false -> Q (inl a) s) -> wp (mwhen b m a) Q s.
Proof. unfold mwhen. destruct b; intros H1 H2; [by apply H1|]. apply wp_ret. by apply H2. Qed.
End Rules.

Lemma wp_put g (Q : unit + Z -> archiving -> Prop) s : Q (inl ()) (g s) -> wp (mput g) Q s.
Proof. by intros HQ s' r [= <- <-]. Qed.

Lemma wp_call {A} (m : M A) (Q : (A + Z) + Z -> archiving -> Prop) s : wp m (fun r => Q (inl r)) s -> wp (mcall m) Q s.
Proof.
  intros Hm s' r E. unfold mcall in E. apply bind_Some in E as ([[s1 x]|] & E1 & E); [|done].
  injection E as <- <-. exact (Hm s1 x E1).
Qed.

(** One step of the symbolic execution. *)
Ltac wp_step :=
  lazymatch goal with
  | |- wp (mbind_ _ _) _ _ => apply wp_bind
  | |- wp (mret _) _ _ => apply wp_ret
  | |- wp (mreturn _) _ _ => apply wp_return
  | |- wp mfatal _ _ => apply wp_fatal
  | |- wp (mget _) _ _ => apply wp_get
  | |- wp (mput _) _ _ => apply wp_put
  | |- wp (mlift _) _ _ => apply wp_lift; intros
  | |- wp (moutcome _) _ _ => apply wp_outcome; intros
  | |- wp (mwhen _ _ _) _ _ => apply wp_when; intros
  | |- wp (mcall _) _ _ => apply wp_call
  | |- wp (if ?b then _ else _) _ _ => destruct b eqn:?
  | |- wp (match ?x with _ => _ end) _ _ => destruct x eqn:?
  | |- wp (let '(_, _) := ?x in _) _ _ => destruct x eqn:?
  end; cbv beta iota zeta.
Ltac wps := repeat wp_step.

(** ** Members of tar archives *)

(** No code is returned early. *)
Definition no_code {A} (r : A + Z) : Prop := match r with inl _ => True | inr _ => False end.

(** Whole blocks were appended, [n] bytes. *)
Definition blocks (out : bytes) (n : Z) (out' : bytes) : Prop := grown out n out' /\ n mod 512 = 0.

Lemma blocks_refl out : blocks out 0 out.
Proof. split; [apply grew_none|done]. Qed.

Lemma blocks_trans a n b m c : blocks a n b -> blocks b m c -> blocks a (n + m) c.
Proof.
  intros [Hg Hn] [Hh Hm]. split; [by eapply grown_trans|]. rewrite Z.add_mod, Hn, Hm by lia. done.
Qed.

Lemma block_blocks out out' : grown out 512 out' -> blocks out 512 out'.
Proof. by split. Qed.

Create HintDb blocks.
#[export] Hint Resolve blocks_refl blocks_trans block_blocks : blocks.

(** The sum of what the parts of a header say is right, or it is no multiple of
    a block: an error behind a part that was written. *)
Definition header_codes : list Z := [-1; -13; -4; -5].

Definition header_post (out : bytes) (r : written_member + Z) (s : archiving) : Prop :=
  match r with
  | inl (_, ret, extra) =>
      (extra = 0 \/ extra = 1024)
      /\ exists n, blocks out n (ar_out s) /\ (n = ret + extra \/ (ret ∈ header_codes /\ n = extra))
  | inr code => code <= 0 /\ (code < 0 \/ ar_out s = out) /\ exists n, blocks out n (ar_out s)
  end.

(** What a member leaves behind: the claim of the theorem below. *)
Definition copied (flags : Z) (out rest out' : bytes) (rest' : option bytes) (ret : Z) : Prop :=
  exists headers data zeros tail,
    out' = out ++ headers ++ data ++ replicate zeros NUL
    /\ rest' = Some tail /\ rest = data ++ tail
    /\ zlen headers mod 512 = 0
    /\ (0 <= ret -> (zlen data + Z.of_nat zeros) mod 512 = 0)
    /\ (is_pax flags = false -> 0 < ret -> ret mod 512 = 0 -> ret = zlen headers + zlen data + Z.of_nat zeros).

Lemma pad_zeros out off f out' r :
  taru_tape_pad_output out off f = Some (out', r) ->
  r = output_pad off f /\ out' = out ++ replicate (Z.to_nat r) NUL /\ 0 <= r.
Proof.
  unfold taru_tape_pad_output. intros E. destruct (output_pad off f =? 0) eqn:C; zbool; cbn [negb] in E.
  - injection E as <- <-. rewrite C. cbn [Z.to_nat replicate]. by rewrite app_nil_r.
  - unfold tarui_tape_buffered_write in E. change (zlen zeros_512) with 512 in E. destruct (_ && _) eqn:Cb; [|done]. zbool.
    injection E as <- <-. by rewrite zeros_take by lia.
Qed.

Section TarMembers.
Context `{Malloc} `{SysDB} (nobody : Z * bool) (contents : bytes -> option bytes) (now pid linkrecord_disable : Z).
Implicit Types (h : new_cpio_header) (f : archive_format) (flags : Z) (s : archiving).

Lemma write_header_post h f flags s : is_tar f = true ->
  wp (write_header nobody h f flags)
     (fun r s' => match r with inl (_, ret) => block_or_code (ar_out s) ret (ar_out s') | inr _ => False end) s.
Proof.
  intros Hf. unfold write_header. wps. match goal with E : taru_write_out_header _ _ _ _ _ _ _ = Some _ |- _ =>
    by apply (tar_header_grows nobody _ _ _ _ _ _ _ _ _ _ _ Hf) in E end.
Qed.

Lemma block_post out ret (s' : archiving) h extra :
  block_or_code out ret (ar_out s') -> extra = 0 -> header_post out (inl (h, ret, extra)) s'.
Proof.
  intros Hb ->. split; [by left|]. destruct Hb as [[-> Hg]|[Hc ->]].
  - exists 512. split; [auto with blocks|by left].
  - exists 0. split; [auto with blocks|by right].
Qed.

Lemma write_plain_post h f flags s : is_tar f = true ->
  wp (write_plain nobody h f flags) (header_post (ar_out s)) s.
Proof.
  intros Hf. unfold write_plain. apply wp_bind. eapply wp_mono; [by apply write_header_post|].
  intros [[h' ret]|code] s' Hr; [|done]. cbv beta iota. apply wp_ret. by apply block_post.
Qed.

Lemma long_link_post name type c_type flags s :
  wp (taru_write_long_link_member nobody now name type c_type flags)
     (fun r s' => match r with
                  | inl ret => (ret = 1024 /\ blocks (ar_out s) 1024 (ar_out s')) \/ (ret = -1 /\ ar_out s' = ar_out s)
                  | inr _ => False end) s.
Proof.
  unfold taru_write_long_link_member. destruct (zlen name >=? 510) eqn:El; zbool; [apply wp_ret; by right|].
  apply wp_bind, wp_get. unfold id. apply wp_bind, wp_lift. intros h _. apply wp_bind, wp_lift. intros [[[taru c] t] ret] E.
  apply tar_header2_grows in E as (out & -> & Hb). apply wp_bind, wp_lift. intros o [= <-].
  assert (Hlen : zlen (name_block name c_type) = 512).
  { unfold name_block. rewrite zlen_app, zlen_replicate. unfold with_slash.
    assert (zlen (name ++ (if with_slash name c_type then L "/" else [])) <= 511).
    { rewrite zlen_app. destruct (with_slash _ _); unfold zlen in *; cbn [length L list_ascii_of_string]; lia. }
    unfold with_slash in *. unfold zlen in *. lia. }
  destruct Hb as [[-> Hg]|[Hc ->]].
  - cbn [Z.eqb Pos.eqb]. apply wp_bind, wp_put, wp_ret. left. split; [done|].
    change 1024 with (512 + 512). apply (blocks_trans _ 512 out); [by apply block_blocks|]. apply block_blocks. exists (name_block name c_type). by split.
  - destruct (ret =? 512) eqn:Er; zbool.
    + exfalso. subst ret. rewrite !elem_of_cons in Hc. by destruct Hc as [? | [? | [? | [? | ?%not_elem_of_nil]]]].
    + apply wp_bind, wp_put, wp_ret. by right.
Qed.

Lemma write_long_link_post h flags code s : code < 0 ->
  wp (write_long_link nobody now h flags code)
     (fun r s' => match r with
                  | inl (_, extra) => extra = 1024 /\ blocks (ar_out s) 1024 (ar_out s')
                  | inr c => c = code /\ ar_out s' = ar_out s end) s.
Proof.
  intros Hc. unfold write_long_link. apply wp_bind. eapply wp_mono; [apply long_link_post|].
  intros [ret|] s' Hr; [|done]. destruct Hr as [[-> Hb]|[-> Hq]]; cbn [Z.eqb Pos.eqb negb].
  - apply wp_ret. by split.
  - apply wp_return. by split.
Qed.

(** A header behind a long link. *)
Lemma header_behind out extra s h f flags : is_tar f = true -> extra = 0 \/ extra = 1024 -> blocks out extra (ar_out s) ->
  wp (write_header nobody h f flags)
     (fun r s' => match r with inl (h', ret) => header_post out (inl (h', ret, extra)) s' | inr _ => False end) s.
Proof.
  intros Hf He Hb. eapply wp_mono; [by apply write_header_post|]. intros [[h' ret]|] s' Hr; [|done]. split; [done|].
  destruct Hr as [[-> Hg]|[Hc Hq]].
  - exists (extra + 512). split; [eauto with blocks|left; lia].
  - exists extra. rewrite Hq. split; [done|by right].
Qed.

(** The list of links is not in the archive. *)
Lemma record_path_quiet h s : wp (record_path linkrecord_disable h) (fun r s' => ar_out s' = ar_out s /\ no_code r) s.
Proof. unfold record_path, active_links. wps; done. Qed.

Lemma recorded_path_quiet h s :
  wp (recorded_path linkrecord_disable h) (fun r s' => s' = s /\ no_code r) s.
Proof. unfold recorded_path, active_links. wps; done. Qed.

(** The part of write_regular behind the look-up. *)
Lemma regular_tail (links : option HLLIST) (path : option bytes) h f flags do_link s : is_tar f = true ->
  wp (if bool_decide (is_Some path)
         || (bool_decide (is_Some links) && ((c_nlink h >? 1) && (c_is_tar_lnktype h =? 1))) then
        write_plain nobody (match path with Some p => ahsStaticSetPaxLinkname h p | None => h end) f flags
      else
        let* (h, extra) := mwhen (negb (zlen (c_tar_linkname h) =? 0) && negb (do_link =? 0))
                             (write_long_link nobody now h flags (-3)) (h, 0) in
        let* (h, ret) := write_header nobody h f flags in
        do* record_path linkrecord_disable h in
        mret (h, ret, extra))%member (header_post (ar_out s)) s.
Proof.
  intros Hf. destruct (_ || _); [by apply write_plain_post|].
  assert (Hlast : forall h extra s1, extra = 0 \/ extra = 1024 -> blocks (ar_out s) extra (ar_out s1) ->
    wp (let* (h, ret) := write_header nobody h f flags in
        do* record_path linkrecord_disable h in mret (h, ret, extra))%member (header_post (ar_out s)) s1).
  { intros h1 extra s1 He Hb. apply wp_bind. eapply wp_mono; [by apply (header_behind (ar_out s) extra)|].
    intros [[h2 ret]|] s2 Hp; [|done]. apply wp_bind. eapply wp_mono; [apply record_path_quiet|].
    intros [[]|] s3 [Hq Hn]; [|done]. apply wp_ret. unfold header_post in *. by rewrite Hq. }
  apply wp_bind, wp_when; intros _; [|apply Hlast; [by left|apply blocks_refl]].
  eapply wp_mono; [by apply write_long_link_post|]. intros [[h1 extra]|code] s1.
  - intros [-> Hb]. by apply Hlast; [right|].
  - intros [-> Hq]. split; [done|]. split; [by left|]. exists 0. rewrite Hq. apply blocks_refl.
Qed.

Lemma write_regular_post h f flags do_link s : is_tar f = true ->
  wp (write_regular nobody contents now linkrecord_disable h f flags do_link) (header_post (ar_out s)) s.
Proof.
  intros Hf. unfold write_regular. assert (is_format [arf_oldascii; arf_newascii; arf_crcascii] f = false) as -> by (by destruct f).
  rewrite Hf. cbn [andb]. apply wp_bind. unfold active_links. apply wp_bind, wp_get, wp_ret.
  apply wp_bind, wp_when.
  2: { intros _. by apply regular_tail. }
  intros _. eapply wp_mono; [apply recorded_path_quiet|]. intros [path|] s1 [-> Hn]; [|done].
  by apply regular_tail.
Qed.

(** A header and its link are recorded. *)
Lemma recorded_header_post h f flags (b : bool) s : is_tar f = true ->
  wp (let* (h, ret) := write_header nobody h f flags in
      do* mwhen b (record_path linkrecord_disable h) () in mret (h, ret, 0))%member (header_post (ar_out s)) s.
Proof.
  intros Hf. apply wp_bind. eapply wp_mono; [by apply (header_behind (ar_out s) 0); [|left|apply blocks_refl]|].
  intros [[h2 ret]|] s2 Hp; [|done]. apply wp_bind, wp_when; intros _; [|by apply wp_ret].
  eapply wp_mono; [apply record_path_quiet|]. intros [[]|] s3 [Hq Hn]; [|done]. apply wp_ret.
  unfold header_post in *. by rewrite Hq.
Qed.

Lemma write_special_post h f flags s : is_tar f = true ->
  wp (write_special nobody linkrecord_disable h f flags) (header_post (ar_out s)) s.
Proof.
  intros Hf. unfold write_special. destruct (bool_decide (f = arf_tar)).
  - apply wp_return. split; [done|]. split; [by right|]. exists 0. apply blocks_refl.
  - rewrite Hf. apply wp_bind, wp_when; intros _; [|by apply recorded_header_post].
    eapply wp_mono; [apply recorded_path_quiet|]. intros [[p|]|] s1 [-> Hn]; [| |done].
    + by apply write_plain_post.
    + by apply recorded_header_post.
Qed.

Lemma write_symlink_post h f flags do_link s : is_tar f = true ->
  wp (write_symlink nobody now h f flags do_link) (header_post (ar_out s)) s.
Proof.
  intros Hf. unfold write_symlink. rewrite Hf. destruct (do_link =? 0).
  - destruct (_ >? TARNAMESIZE); [|by apply write_plain_post]. apply wp_return. split; [done|]. split; [by left|].
    exists 0. apply blocks_refl.
  - apply wp_bind. eapply wp_mono; [by apply write_long_link_post|]. intros [[h1 extra]|code] s1.
    + intros [-> Hb]. apply wp_bind. eapply wp_mono; [apply (header_behind (ar_out s) 1024); [done|by right|done]|].
      intros [[h2 ret]|] s2 Hp; [|done]. destruct (ret <? 0) eqn:E; zbool; [|by apply wp_ret].
      apply wp_return. destruct Hp as [_ (n & Hn & _)]. split; [done|]. split; [by left|]. by exists n.
    + intros [-> Hq]. split; [done|]. split; [by left|]. exists 0. rewrite Hq. apply blocks_refl.
Qed.

Lemma nothing_post h s : header_post (ar_out s) (inl (h, 0, 0)) s.
Proof. split; [by left|]. exists 0. split; [apply blocks_refl|by left]. Qed.

Lemma write_by_type_post h f flags do_link s : is_tar f = true ->
  wp (write_by_type nobody contents now linkrecord_disable h f flags do_link) (header_post (ar_out s)) s.
Proof.
  intros Hf. unfold write_by_type. repeat match goal with |- wp (if ?b then _ else _) _ _ => destruct b end.
  - by apply write_regular_post.
  - by apply write_plain_post.
  - apply wp_ret, nothing_post.
  - by apply write_special_post.
  - by apply write_symlink_post.
  - apply wp_ret, nothing_post.
Qed.

(** ** Names and extended headers *)

Lemma set_names_quiet h flags s : wp (set_names h flags) (fun r s' => ar_out s' = ar_out s /\ no_code r) s.
Proof. unfold set_names. wps. done. Qed.

Lemma pax_records_quiet h s :
  wp (pax_records h) (fun r s' => ar_out s' = ar_out s /\ match r with inl _ => True | inr code => code < 0 end) s.
Proof. unfold pax_records. wps; done. Qed.

Lemma output_pad_tar n : 0 <= n -> output_pad n arf_ustar = pad_to 512 n.
Proof. done. Qed.

Lemma pad_fills k n : 0 < k -> 0 <= n -> (n + pad_to k n) mod k = 0.
Proof.
  intros. rewrite pad_rem, Z.add_mod_idemp_r by lia. pose proof (Z.div_mod n k).
  replace (n + (k - n mod k)) with ((n / k + 1) * k) by lia. apply Z.mod_mul. lia.
Qed.

Lemma pax_member_post h n s : wp (pax_member nobody pid h n)
  (fun r s' => no_code r /\ exists k, blocks (ar_out s) k (ar_out s')) s.
Proof.
  unfold pax_member. wps; [].
  repeat match goal with
  | E : tarui_tape_buffered_write _ _ _ = Some (_, _) |- _ => apply buffered_write_grows in E as [-> ?]
  | E : taru_tape_pad_output _ _ _ = Some (_, _) |- _ => apply pad_output_grows in E as [-> ?]
  end.
  match goal with G1 : grown _ TARRECORDSIZE ?a, G2 : grown ?a n ?b, G3 : grown ?b _ ?c |- _ =>
    pose proof (grown_nonneg _ _ _ G2) as Hn; split; [done|]; exists (512 + (n + output_pad n arf_ustar));
    split; [by repeat (eapply grown_trans; [eassumption|])|]
  end.
  rewrite output_pad_tar by done. rewrite Z.add_mod, pad_fills by lia. done.
Qed.

Definition names_post (flags : Z) (out : bytes) (r : new_cpio_header * Z * Z + Z) s : Prop :=
  match r with
  | inl (_, _, long_name) =>
      (long_name = 0 \/ long_name = 1024) /\ exists n, blocks out n (ar_out s) /\ (is_pax flags = false -> n = long_name)
  | inr code => code < 0 /\ exists n, blocks out n (ar_out s)
  end.

Lemma no_names flags h do_link out s : ar_out s = out -> names_post flags out (inl (h, do_link, 0)) s.
Proof. intros <-. split; [by left|]. exists 0. split; [apply blocks_refl|done]. Qed.

Lemma names_error flags out code s : code < 0 -> ar_out s = out -> names_post flags out (inr code) s.
Proof. intros Hc <-. split; [done|]. exists 0. apply blocks_refl. Qed.

Lemma pax_part_post h flags do_link s out : ar_out s = out ->
  is_pax flags = true ->
  wp (let* h := set_names h flags in
      let* (h, n) := pax_records h in
      do* mwhen (negb (n =? 0)) (pax_member nobody pid h n) () in
      mret (h, do_link, 0))%member (names_post flags out) s.
Proof.
  intros Ho Hpax. apply wp_bind. eapply wp_mono; [apply set_names_quiet|]. intros [h1|] s1 [Hq1 Hn]; [|done].
  apply wp_bind. eapply wp_mono; [apply pax_records_quiet|]. rewrite Hq1, Ho.
  intros [[h2 n]|code] s2 [Hq2 Hc]; [|by apply names_error]. apply wp_bind, wp_when; intros _.
  - eapply wp_mono; [apply pax_member_post|]. intros [[]|] s3 [Hn3 (k & Hk)]; [|done]. apply wp_ret.
    split; [by left|]. exists k. rewrite <- Hq2. split; [done|]. by rewrite Hpax.
  - apply wp_ret. by apply no_names.
Qed.

Lemma tar_names_post h flags s : wp (tar_names nobody now pid h flags) (names_post flags (ar_out s)) s.
Proof.
  unfold tar_names. destruct (taru_is_tar_filename_too_long _ _ _) as [too_long do_name].
  destruct (negb (too_long =? 0)); [apply wp_return; by apply names_error|].
  destruct (taru_is_tar_linkname_too_long _ _) as [too_long' do_link].
  destruct (negb (too_long' =? 0)); [apply wp_return; by apply names_error|].
  destruct (_ && _); [apply wp_return; by apply names_error|].
  apply wp_bind. eapply (wp_mono _ (fun r s' => ar_out s' = ar_out s /\ no_code r)).
  { apply wp_when; intros _; [apply set_names_quiet|done]. }
  intros [h1|] s1 [Hq Hn]; [|done]. cbv zeta.
  destruct (is_pax flags) eqn:Epax; cbn [andb negb Z.eqb orb].
  - destruct (_ || _); [by apply pax_part_post|]. apply wp_ret. by apply no_names.
  - destruct (_ || _); [|apply wp_ret; by apply no_names].
    apply wp_bind. eapply wp_mono; [apply long_link_post|]. rewrite Hq. intros [ret|] s2 Hr; [|done].
    destruct Hr as [[-> Hb]|[-> Hq2]]; cbn [Z.eqb Pos.eqb negb].
    + apply wp_ret. split; [by right|]. by exists 1024.
    + apply wp_return. by apply names_error.
Qed.

(** ** Whole members *)

Definition member_post (flags : Z) (out : bytes) (r : new_cpio_header * Z + Z) s : Prop :=
  exists n, blocks out n (ar_out s)
    /\ match r with
       | inl (_, ret) => is_pax flags = false -> ret mod 512 = 0 -> n = ret
       | inr code => code <= 0
       end.

Lemma member_header_post h f flags s : is_tar f = true ->
  wp (member_header nobody contents now pid linkrecord_disable h f flags) (member_post flags (ar_out s)) s.
Proof.
  intros Hf. unfold member_header. cbv zeta. apply wp_bind.
  eapply (wp_mono _ (fun r s' => s' = s /\ no_code r)).
  { unfold pseudo_inode. apply wp_bind, wp_get. destruct (ar_porinode s); [|by apply wp_ret].
    assert (is_format [arf_oldascii; arf_newascii; arf_crcascii] f = false) as -> by (by destruct f). by apply wp_ret. }
  intros [h1|] s1 [-> Hn]; [|done]. apply wp_bind. rewrite Hf. apply wp_when; intros Ht; [|done].
  eapply wp_mono; [apply tar_names_post|]. intros [[[h2 do_link] long_name]|code] s2 Hp.
  2: { destruct Hp as [Hc (n & Hn2)]. exists n. split; [done|lia]. }
  destruct Hp as [Hl (n & Hb & Heq)]. apply wp_bind. eapply wp_mono; [by apply write_by_type_post|].
  intros [[[h3 ret] extra]|code] s3 Hp.
  2: { destruct Hp as (Hc & _ & m & Hm). exists (n + m). split; [eauto with blocks|done]. }
  destruct Hp as [He (m & Hm & Hsum)]. apply wp_ret. exists (n + m). split; [eauto with blocks|].
  intros Hpax Hmod. specialize (Heq Hpax). subst n. destruct Hsum as [-> | [Hc ->]]; [lia|].
  exfalso. unfold header_codes in Hc. rewrite !elem_of_cons in Hc.
  destruct Hl as [-> | ->], He as [-> | ->], Hc as [-> | [-> | [-> | [-> | ?%not_elem_of_nil]]]]; by vm_compute in Hmod.
Qed.

(** The bytes that the data routine copies, and the zeros behind them. *)
Lemma member_data_post h f rest s : is_tar f = true ->
  wp (member_data contents h f (Some rest))
     (fun r s' => match r with
      | inl (input, ret) => exists data zeros tail, input = Some tail /\ rest = data ++ tail
          /\ ar_out s' = ar_out s ++ data ++ replicate zeros NUL
          /\ (0 <= ret -> ret = zlen data + Z.of_nat zeros /\ ret mod 512 = 0)
      | inr _ => False end) s.
Proof.
  intros Hf. unfold member_data. apply wp_bind, wp_get, wp_bind, wp_lift. intros [[out tail] ret] E.
  apply wp_bind, wp_put, wp_ret. unfold write_data in E.
  assert (Hpump : forall n out1 tail1 ret1, pump (ar_out s) rest n = (out1, tail1, ret1) ->
    exists data, out1 = ar_out s ++ data /\ rest = data ++ tail1 /\ ret1 = zlen data).
  { intros n out1 tail1 ret1 Ep. unfold pump, taru_tape_buffered_read in Ep. destruct (n <? 0).
    - injection Ep as <- <- <-. exists rest. by rewrite app_nil_r.
    - injection Ep as <- <- <-. exists (take (Z.to_nat n) rest). by rewrite take_drop. }
  destruct (has_data h).
  2: { injection E as <- <- <-. exists [], 0%nat, rest. by rewrite app_nil_r. }
  destruct (pump _ _ _) as [[out1 tail1] ret1] eqn:Ep. destruct (Hpump _ _ _ _ Ep) as (data & -> & -> & ->).
  destruct (negb _) eqn:En; zbool.
  - injection E as <- <- <-. exists data, 0%nat, tail1. rewrite app_nil_r. split; [done|]. split; [done|]. split; [done|lia].
  - apply bind_Some in E as ([out2 pad] & Eo & E). injection E as <- <- <-.
    apply pad_zeros in Eo as (Epad & -> & Hpad). exists data, (Z.to_nat pad), tail1. split; [done|]. split; [done|].
    rewrite <- app_assoc. split; [done|]. intros _. rewrite Z2Nat.id by lia. split; [done|].
    rewrite Epad, <- En. assert (output_pad (zlen data) f = pad_to 512 (zlen data)) as -> by (by destruct f).
    apply pad_fills; [done|apply zlen_nonneg].
Qed.

Lemma member_copied f h rest flags s : is_tar f = true ->
  wp (tarui_write_archive_member_ nobody contents now pid linkrecord_disable None h f (Some rest) flags)
    (fun r s' => match r with inl (_, rest', ret) => copied flags (ar_out s) rest (ar_out s') rest' ret | inr _ => False end) s.
Proof.
  intros Hf.
  unfold tarui_write_archive_member_. apply wp_bind.
  assert (bool_decide (f = arf_crcascii) = false) as -> by (by destruct f). apply wp_ret.
  apply wp_bind. unfold taru_write_archive_member_header. rewrite bool_decide_false by (by intros [? ?]).
  apply wp_bind, wp_call. eapply wp_mono; [by apply member_header_post|]. intros r s1 (n & [[bs [Hbs Hlen]] Hmod] & Hr).
  apply wp_ret. set (r' := match r with inl _ => _ | inr _ => _ end). destruct r' as [h1 ret] eqn:Er.
  assert (Hret : (is_pax flags = false -> 0 < ret -> ret mod 512 = 0 -> n = ret)).
  { subst r'. destruct r as [[h2 ret2]|code]; injection Er as _ <-; [auto|lia]. }
  assert (Hnone : forall k : Z, (k = ret) -> copied flags (ar_out s) rest (ar_out s1) (Some rest) k).
  { intros k ->. exists bs, [], 0%nat, rest. rewrite Hbs, !app_nil_r, Hlen. split_and!; try done.
    intros Hp Hpos Hm. change (zlen (@nil ascii)) with 0. rewrite (Hret Hp Hpos Hm). lia. }
  destruct (ret <? 0) eqn:E; zbool; [apply wp_ret; by apply Hnone|].
  destruct (_ && _) eqn:Ed; [|apply wp_ret; by apply Hnone]. zbool. apply wp_bind.
  eapply wp_mono; [by apply member_data_post|]. intros [[input ret1]|] s2 Hd; [|done].
  destruct Hd as (data & zeros & tail & -> & -> & Ho & Hz). apply wp_ret.
  exists bs, data, zeros, tail. rewrite Ho, Hbs, Hlen, <- !app_assoc. split_and!; try done.
  - destruct (ret1 <? 0) eqn:E1; zbool; [lia|]. destruct (Hz E1) as [-> ?]. done.
  - destruct (ret1 <? 0) eqn:E1; zbool; [lia|]. destruct (Hz E1) as [-> Hm1]. intros Hp Hpos Hm.
    rewrite (Hret Hp); [lia|lia|]. replace ret with (ret + (zlen data + Z.of_nat zeros) - (zlen data + Z.of_nat zeros)) by lia.
    rewrite Zminus_mod, Hm, Hm1. done.
Qed.

(** C10: What the member writer appends to a tar archive.  For every header,
    data stream and set of flags, in both tar formats: the bytes that were
    written stay; behind them come whole blocks for headers, long names and
    extended headers, then bytes that are taken from the front of the data
    stream, unchanged and in order, then zeros; the stream keeps exactly what
    was not taken.  Unless the result is negative the data and the zeros fill
    whole blocks, and for a format without extended headers a result that is
    positive and a multiple of 512 is the number of bytes appended. *)
Theorem tar_member_accounts f h (rest : bytes) flags s s' h' rest' ret (Hf : is_tar f = true)
    (Hrun : tarui_write_archive_member_ nobody contents now pid linkrecord_disable None h f (Some rest) flags s
            = Some (Returns (s', inl (h', rest', ret)))) :
  exists headers data zeros tail,
    ar_out s' = ar_out s ++ headers ++ data ++ replicate zeros NUL
    /\ rest' = Some tail /\ rest = data ++ tail
    /\ zlen headers mod 512 = 0
    /\ (0 <= ret -> (zlen data + Z.of_nat zeros) mod 512 = 0)
    /\ (is_pax flags = false -> 0 < ret -> ret mod 512 = 0 -> ret = zlen headers + zlen data + Z.of_nat zeros).
Proof.
  exact (member_copied f h rest flags s Hf s' (inl (h', rest', ret)) Hrun).
Qed.
End TarMembers.

(** ** Links that are refused *)

Section LongLinks.
Context `{Malloc} `{SysDB} (nobody : Z * bool) (contents : bytes -> option bytes) (now pid linkrecord_disable : Z).
Implicit Types (h : new_cpio_header) (f : archive_format) (flags : Z) (s : archiving).

(** A symbolic link with a target that fills the field of the header, at least. *)
Definition full_link h : Prop := Z.land (c_mode h) S_IFMT = CP_IFLNK /\ 100 <= zlen (c_tar_linkname h).

Lemma record_full b k v fit st st' : (forall h, full_link h -> full_link (fit h)) ->
  ustar_record b k v fit st = Some (Returns st') -> full_link st.1.2 -> full_link st'.1.2.
Proof.
  intros Hfit E Hl. destruct st as [[buf h] n]. unfold ustar_record in E. destruct (bit _ _).
  - apply bind_Some in E as ([[buf' ret]|] & _ & E); [|done]. injection E as <-. by apply Hfit.
  - by injection E as <-.
Qed.

Lemma and_then_inv {A} (r : option (outcome A)) k a : and_then r k = Some (Returns a) ->
  exists a0, r = Some (Returns a0) /\ k a0 = Some (Returns a).
Proof. intros E. unfold and_then in E. apply bind_Some in E as ([a0|] & Er & E); [|done]. by exists a0. Qed.

Lemma records_full buf h buf' h' n : write_exthdrs_ustar_records buf h = Some (Returns (buf', h', n)) ->
  full_link h -> full_link h'.
Proof.
  intros E Hl. unfold write_exthdrs_ustar_records in E.
  assert (Hcut : forall g, full_link g -> full_link (put_c_tar_linkname (cut_name TARNAMESIZE (c_tar_linkname g)) g)).
  { intros g [Hk Hz]. split; [exact Hk|]. change (c_tar_linkname (put_c_tar_linkname ?x g)) with x.
    unfold cut_name. rewrite zlen_take. change (Z.of_nat (Z.to_nat TARNAMESIZE)) with 100. lia. }
  repeat match type of E with
  | and_then _ _ = _ => apply and_then_inv in E; destruct E as (? & E & ?)
  end.
  pose proof (record_full _ _ _ _ _ _ Hcut E Hl) as Hst.
  repeat match goal with
  | R : ustar_record _ _ _ _ ?st = Some (Returns ?st') |- _ => lazymatch goal with
      | Hs : full_link st.1.2 |- _ => apply record_full in R; [|by intros g [Hk Hz]|exact Hs]
      end
  end; done.
Qed.

Lemma names_full h flags s : full_link h ->
  wp (set_names h flags) (fun r _ => match r with inl h' => full_link h' | inr _ => False end) s.
Proof.
  intros Hl. unfold set_names. apply wp_bind, wp_get, wp_bind, wp_lift. intros [h' c] E. apply wp_bind, wp_put, wp_ret.
  unfold set_names_by_policy in E. apply bind_Some in E as ([g gname] & _ & E). apply bind_Some in E as ([u uname] & _ & E).
  injection E as <- _. exact Hl.
Qed.

Lemma pax_full h s : full_link h ->
  wp (pax_records h) (fun r _ => match r with inl (h', _) => full_link h' | inr code => code < 0 end) s.
Proof.
  intros Hl. unfold pax_records. apply wp_bind, wp_get, wp_bind, wp_lift. intros buf _.
  apply wp_bind, wp_outcome. intros [[buf1 h1] n] E. pose proof (records_full _ _ _ _ _ E Hl) as H1.
  apply wp_bind, wp_put. destruct (n <? 0); [by apply wp_return|]. apply wp_bind, wp_outcome. intros [buf2 n2] _.
  apply wp_bind, wp_put. destruct (n2 <? 0); [by apply wp_return|by apply wp_ret].
Qed.

(** The target does not go to a member of its own. *)
Definition no_long_link flags h : Prop :=
  is_pax flags = true \/ bit flags TARU_TAR_GNU_LONG_LINKS = false \/ zlen (c_tar_linkname h) = 100.

Lemma tar_names_full h flags s : full_link h -> no_long_link flags h ->
  wp (tar_names nobody now pid h flags)
     (fun r _ => match r with inl (h', do_link, _) => full_link h' /\ do_link = 0 | inr code => code < 0 end) s.
Proof.
  intros Hl Hno. unfold tar_names. destruct (taru_is_tar_filename_too_long _ _ _) as [too_long do_name].
  destruct (negb (too_long =? 0)); [by apply wp_return|].
  destruct (taru_is_tar_linkname_too_long _ _) as [too_long' do_link] eqn:El.
  destruct (negb (too_long' =? 0)); [by apply wp_return|]. destruct (_ && _); [by apply wp_return|].
  assert (Hdo : (if is_pax flags then 0 else do_link) = 0).
  { destruct Hno as [-> |Hno]; [done|]. destruct (is_pax flags); [done|]. unfold taru_is_tar_linkname_too_long in El.
    destruct Hno as [Hg|Hz]; [rewrite Hg in El|change (zlen _ <=? _) with (zlen (c_tar_linkname h) <=? 100) in El; rewrite Hz in El];
      repeat case_match; by injection El. }
  rewrite Hdo. apply wp_bind. eapply (wp_mono _ (fun r _ => match r with inl h' => full_link h' | inr _ => False end)).
  { apply wp_when; intros _; [|exact Hl]. apply names_full. exact Hl. }
  intros [h1|] s1 H1; [|done]. cbv zeta. destruct (_ || _).
  - apply wp_bind. eapply wp_mono; [apply long_link_post|]. intros [ret|] s2 Hr; [|done].
    destruct (negb (ret =? 1024)); [by apply wp_return|]. apply wp_ret. split; [exact H1|done].
  - destruct (_ && _); [|by apply wp_ret]. apply wp_bind. eapply wp_mono; [by apply names_full|].
    intros [h2|] s2 H2; [|done]. apply wp_bind. eapply wp_mono; [by apply pax_full|].
    intros [[h3 n]|code] s3 H3; [|done]. apply wp_bind, wp_when; intros _; [|by apply wp_ret].
    eapply wp_mono; [apply pax_member_post|]. intros [[]|] s4 [Hn _]; [|done]. by apply wp_ret.
Qed.

End LongLinks.

Module Witness.
#[local] Instance junk_w : Malloc := fun _ => "w"%char.
#[local] Instance no_accounts : SysDB :=
  {| getpwnam := fun _ => None; getpwuid := fun _ => None; getgrnam := fun _ => None; getgrgid := fun _ => None |}.

Definition start (flags : Z) : option archiving :=
  taru ← taru_create flags 0;
  Some (mkArchiving taru (mkSYSDBCACHES empty_cache empty_cache) (etar_open 0 0) (L "before") hllist_open None None).

(** A file with a name of 120 characters. *)
Definition file (nlink : Z) (name : bytes) : new_cpio_header :=
  mkHDR 42 33188 1000 100 nlink 1300000000 5 8 1 0 0 0 0 name [] [] [] 0 0 0 0 0 0 [] 0 0 0 0.
Definition long_name : bytes := repeat "a"%char 120.

Definition write (flags : Z) (h : new_cpio_header) (data : bytes) (s : archiving) :=
  tarui_write_archive_member_ (0, true) (fun _ => None) 1300000000 1 0 None h arf_ustar (Some data) flags s.

(** A GNU long name, the header, the data and the padding: four blocks. *)
Definition run : option (outcome (archiving * ((new_cpio_header * option bytes * Z) + Z))) :=
  s ← start 0; write TARU_TAR_GNU_LONG_LINKS (file 1 long_name) (L "hello world") s.

Lemma tar_member_accounts_witness :
  exists s s' h' rest' headers data zeros tail,
    write TARU_TAR_GNU_LONG_LINKS (file 1 long_name) (L "hello world") s = Some (Returns (s', inl (h', rest', 2048)))
    /\ ar_out s' = L "before" ++ headers ++ data ++ replicate zeros NUL
    /\ rest' = Some tail /\ L "hello world" = data ++ tail
    /\ zlen headers mod 512 = 0 /\ (zlen data + Z.of_nat zeros) mod 512 = 0
    /\ 2048 = zlen headers + zlen data + Z.of_nat zeros.
Proof.
  destruct (start 0) as [s|] eqn:Es; [|vm_compute in Es; discriminate].
  assert (Hrun : exists s' h' rest', write TARU_TAR_GNU_LONG_LINKS (file 1 long_name) (L "hello world") s
                   = Some (Returns (s', inl (h', rest', 2048))) /\ ar_out s = L "before").
  { vm_compute in Es. injection Es as <-. do 3 eexists. split; [vm_compute; reflexivity|reflexivity]. }
  destruct Hrun as (s' & h' & rest' & Hrun & Hs).
  destruct (tar_member_accounts (0, true) (fun _ => None) 1300000000 1 0 arf_ustar (file 1 long_name) (L "hello world")
              TARU_TAR_GNU_LONG_LINKS s s' h' rest' 2048 eq_refl Hrun) as (hd & data & zeros & tail & H1 & H2 & H3 & H4 & H5 & H6).
  exists s, s', h', rest', hd, data, zeros, tail. rewrite <- Hs. split_and!; try assumption.
  - apply H5. lia.
  - apply H6; reflexivity.
Defined.

(** A target of exactly 100 bytes, as the field of the header. *)
Definition link : new_cpio_header :=
  put_c_tar_linkname (repeat "t"%char 100) (put_c_mode 41471 (file 1 (L "link"))).


(** Two links of a file with a long name in a GNU archive: the second one is a
    hard link to the first 100 bytes of the name, with no member for the rest. *)
Definition second_link : option bytes :=
  s ← start 0;
  w ← write TARU_TAR_GNU_LONG_LINKS (file 2 long_name) (L "hello") s;
  match w with
  | Fatal => None
  | Returns (s1, _) =>
      w ← write TARU_TAR_GNU_LONG_LINKS (file 2 (L "other")) (L "hello") s1;
      match w with Fatal => None | Returns (s2, _) => Some (drop (length (ar_out s1)) (ar_out s2)) end
  end.

Example long_hard_link_cut :
  (b ← second_link; Some (length b, b !! 156%nat, take 100 (drop 157 b)))
  = Some (512%nat, Some "1"%char, repeat "a"%char 100).
Proof. by vm_compute. Qed.

(** A pipe with a long name in the old tar format: the member with the name is
    written, and nothing that it belongs to; the result says nothing was. *)
Example long_name_left_alone :
  (s ← start 0;
   w ← tarui_write_archive_member_ (0, true) (fun _ => None) 1300000000 1 0 None
         (put_c_mode 4516 (file 1 long_name)) arf_tar (Some []) TARU_TAR_GNU_LONG_LINKS s;
   match w with Returns (s', inl (_, _, ret)) => Some (ret, length (ar_out s')) | _ => None end)
  = Some (0, (6 + 1024)%nat).
Proof. by vm_compute. Qed.

(** The bytes of an extended header are not in the result. *)
Example extended_header_not_counted :
  (s ← start 0;
   w ← write TARU_TAR_PAXEXTHDR (file 1 long_name) (L "hello") s;
   match w with Returns (s', inl (_, _, ret)) => Some (ret, length (ar_out s')) | _ => None end)
  = Some (1024, (6 + 2048)%nat).
Proof. by vm_compute. Qed.
End Witness.
