(* ===== verification/CopyOutSpec.v ===== *)
(** * Specification of the archive copier (taru_process_copy_out)

    The loop that reads a tar archive and writes another one: what it makes of
    an archive in whole blocks, and an input on which it never ends. *)

From S2P Require Import Prelude CString Numerals Strob StrobSpec Cplob HardLinks HardLinksSpec Pathname Escape FileMode TarNumbers TarHeader SysDb FileHdr PaxHeader TarWrite TarRead TarImage TarReadSpec Cpio CpioSpec Defer Member MemberSpec ArchiveSpec.

Section CopyOut.
Context `{Malloc} `{SysDB} (nobody : Z * bool) (contents : bytes -> option bytes) (now pid linkrecord_disable : Z).
Context (stray : bool) (rounds : nat).
Implicit Types (h : new_cpio_header) (f : archive_format) (s : archiving) (rest : bytes).

Abbreviation copy := (copy_out_loop nobody contents now pid linkrecord_disable stray rounds).

(** ** Whole blocks *)

(** Whole blocks behind what was there. *)
Definition extends (out out' : bytes) : Prop := exists body, out' = out ++ body /\ zlen body mod 512 = 0.

Lemma extends_refl out : extends out out.
Proof. exists []. by rewrite app_nil_r. Qed.

Lemma extends_trans a b c : extends a b -> extends b c -> extends a c.
Proof.
  intros (x & -> & Hx) (y & -> & Hy). exists (x ++ y). rewrite app_assoc, zlen_app, Z.add_mod, Hx, Hy by lia. done.
Qed.

Lemma member_extends f h rest flags s : is_tar f = true ->
  wp (tarui_write_archive_member_ nobody contents now pid linkrecord_disable None h f (Some rest) flags)
    (fun r s' => match r with inl (_, _, ret) => 0 <= ret -> extends (ar_out s) (ar_out s') | inr _ => False end) s.
Proof.
  intros Hf. eapply wp_mono; [by apply member_copied|]. intros [[[h' rest'] ret]|code] s' Hp; [|done]. intros Hret.
  destruct Hp as (hdrs & data & zeros & tail & Ho & _ & _ & Hh & Hd & _). exists (hdrs ++ data ++ replicate zeros NUL).
  split; [done|]. rewrite !zlen_app, zlen_replicate, Z.add_mod, Hh, (Hd Hret) by lia. done.
Qed.

Lemma copy_loop_extends f : is_tar f = true -> forall fuel s h rest eoa n s' rest' m,
  copy fuel s h rest eoa f n = Some (Returns (inl (s', rest', inl m))) -> extends (ar_out s) (ar_out s').
Proof.
  intros Hf. induction fuel as [|fuel IH]; intros s h rest eoa n s' rest' m E; [done|]. cbn [copy_out_loop] in E.
  destruct (eoa =? 0); [|injection E as <- <- <-; apply extends_refl].
  apply bind_Some in E as (r & _ & E). destruct r as [[[r read_ret]|[]]|]; [|done..].
  set (s1 := put_writer _ _ _ s) in E. assert (Ho : ar_out s1 = ar_out s) by done.
  apply bind_Some in E as (rest1 & _ & E). destruct (read_ret <? 0); [done|].
  destruct (rd_eoa r =? 0); [|rewrite <- Ho; by eapply IH].
  apply bind_Some in E as ([[s2 [[[h2 input] retx]|code]]|] & Ew & E); [|done|done].
  apply (member_extends f _ _ _ s1 Hf) in Ew. apply bind_Some in E as (rest2 & _ & E).
  destruct (retx <? 0) eqn:Er; [done|]. zbool. destruct (taru_tape_skip_padding _ _ _) as [rest3 skipped].
  destruct (skipped <? 0); [done|]. rewrite <- Ho. eapply extends_trans; [by apply Ew|]. by eapply IH.
Qed.

(** The codes of the copier are negative. *)
Lemma copy_codes f : is_tar f = true -> forall fuel s h rest eoa n s' rest' code,
  copy fuel s h rest eoa f n = Some (Returns (inl (s', rest', inr code))) -> code < 0.
Proof.
  intros Hf. induction fuel as [|fuel IH]; intros s h rest eoa n s' rest' code E; [done|]. cbn [copy_out_loop] in E.
  destruct (eoa =? 0); [|done].
  apply bind_Some in E as (r & _ & E). destruct r as [[[r read_ret]|[]]|]; [|done..].
  set (s1 := put_writer _ _ _ s) in E.
  apply bind_Some in E as (rest1 & _ & E). destruct (read_ret <? 0); [injection E as _ _ <-; lia|].
  destruct (rd_eoa r =? 0); [|by eapply IH].
  apply bind_Some in E as ([[s2 [[[h2 input] retx]|c]]|] & Ew & E); [| |done].
  - apply bind_Some in E as (rest2 & _ & E). destruct (retx <? 0); [injection E as _ _ <-; lia|].
    destruct (taru_tape_skip_padding _ _ _) as [rest3 skipped]. destruct (skipped <? 0); [injection E as _ _ <-; lia|].
    by eapply IH.
  - by apply (member_extends f _ _ _ s1 Hf) in Ew.
Qed.

(** C19: A tar archive that is copied comes out in whole blocks with its end.
    Whenever the copier reports success for one of the tar formats, whatever
    the input, the flags, the names and the links are, it has only appended to
    the archive: a body that is a multiple of 512 bytes long, and two blocks of
    zeros. *)
Theorem copy_out_whole_blocks f s rest fuel s' rest' (Hf : is_tar f = true)
    (Hrun : taru_process_copy_out nobody contents now pid linkrecord_disable stray rounds fuel s rest f
            = Some (Returns (inl (s', rest', 0)))) :
  exists body, ar_out s' = ar_out s ++ body ++ replicate 1024 NUL /\ zlen body mod 512 = 0.
Proof.
  unfold taru_process_copy_out in Hrun. apply bind_Some in Hrun as (l & _ & Hrun).
  apply bind_Some in Hrun as (r & El & E). set (s0 := put_links _ s) in El.
  destruct r as [[[[s1 rest1] [n|code]]|s1]|]; [| |done..].
  - apply (copy_loop_extends f Hf) in El as (body & Hb & Hm). apply bind_Some in E as ([[[taru c] out] ret] & Et & E).
    unfold taru_write_archive_trailer in Et. rewrite Hf in Et. change (trailer_blocks 512 0 _) with 2 in Et.
    change (negb (0 mod 512 =? 0)) with false in Et. cbv iota zeta in Et. cbn [negb] in Et.
    change (trailer_blocks 512 0 0) with 2 in Et. rewrite write_zero_blocks_eq in Et. cbn [mbind option_bind] in Et.
    injection Et as <- <- <- <-. injection E as <- <-. exists body. split; [|done].
    cbn [ar_out put_writer]. change (ar_out s0) with (ar_out s) in Hb. by rewrite Hb, <- app_assoc.
  - injection E as <- <- Hcode. exfalso. revert El. subst code. intros El%(copy_codes f Hf). lia.
Qed.

(** ** An input without an end *)

Lemma mem_write_nothing m o : 0 <= o <= zlen m -> mem_write m o [] = Some m.
Proof.
  intros Ho. rewrite mem_write_in by (change (zlen (@nil ascii)) with 0; lia). cbn [length app].
  by rewrite Nat.add_0_r, take_drop.
Qed.

(** Nothing is left: the header is cleared, and the end is not signalled. *)
Lemma read_empty (r : reading) : reader_ok (rd_taru r) -> rd_src r = Fd [] ->
  exists t', taru_read_in_tar_header2 stray rounds r 0 (-1)
    = Some (Returns (inl (mkReading t' (rd_caches r) (rd_hdr (started r)) (Fd []) 0, 0)))
    /\ reader_ok t' /\ taru_tarheaderflagsM t' = taru_tarheaderflagsM (rd_taru r).
Proof.
  intros R Hs. unfold taru_read_in_tar_header2. rewrite Hs. cbn [source_fuel length i_taru_read_in_tar_header2].
  fold (at_start r).
  assert (Ht : reader_ok (rd_taru (at_start r)) /\ read_buffer_posM (rd_taru (at_start r)) = 0
    /\ taru_tarheaderflagsM (rd_taru (at_start r)) = taru_tarheaderflagsM (rd_taru r)).
  { destruct R as [R1 R2 R3]. unfold at_start, started. cbv zeta. cbn [rd_taru].
    destruct (negb _); (split; [by split|done]). }
  destruct Ht as (R0 & P0 & F0). assert (S0 : rd_src (at_start r) = Fd []) by (by cbn; rewrite Hs).
  unfold read_block. rewrite P0, S0. change (0 + TARRECORDSIZE) with 512.
  destruct R0 as [R1 R2 R3]. destruct (strob_set_length_spec (read_bufferM (rd_taru (at_start r))) 512 R1) as (s1 & -> & W1 & L1 & N1 & _);
    [unfold SMALL; lia|].
  obind. unfold taru_tape_buffered_read. rewrite take_nil, drop_nil. obind.
  rewrite mem_write_nothing by (pose proof (zlen_nonneg (str_ s1)); lia). obind.
  change (negb (is_memory (Fd [])) && negb (zlen (@nil ascii) =? TARRECORDSIZE)) with true.
  change (zlen (@nil ascii) =? 0) with true. cbv iota. obind.
  assert (set_str (str_ s1) s1 = s1) as -> by (by destruct s1).
  eexists. split; [done|]. split; [|exact F0]. by split.
Qed.

(** What the loop is in when nothing was ever read. *)
Record idle s h : Prop := {
  idle_reader : reader_ok (ar_taru s);
  idle_flags : taru_tarheaderflagsM (ar_taru s) = 0;
  idle_inodes : ar_porinode s = None;
  idle_kind : file_kind h = 0;
}.

(** A header without a type and a name makes no member. *)
Lemma idle_member f s h : idle s h -> c_name h = [] -> c_tar_linkname h = [] ->
  exists h', tarui_write_archive_member_ nobody contents now pid linkrecord_disable None h f (Some []) 0 s
    = Some (Returns (s, inl (h', Some [], 0))) /\ file_kind h' = 0.
Proof.
  intros [_ _ Hp Hk] Hn Hl. unfold tarui_write_archive_member_.
  assert (Hcrc : exists sum, forall k : new_cpio_header -> M (new_cpio_header * option bytes * Z),
    mbind_ (if bool_decide (f = arf_crcascii) then
              let* sum := mlift (taru_read_for_crc_checksum [] (to_int (c_filesize (put_c_chksum 0 h)))) in
              mret (put_c_chksum sum (put_c_chksum 0 h))
            else mret (put_c_chksum 0 h))%member k s = k (put_c_chksum sum h) s).
  { exists 0. intros k. destruct (bool_decide _); [|done]. apply bind_run. unfold mbind_, mlift, taru_read_for_crc_checksum.
    cbn [length crc_loop]. by destruct (to_int _ >? 0). }
  destruct Hcrc as (sum & Hcrc). rewrite Hcrc. clear Hcrc. exists (put_c_chksum sum h). split; [|exact Hk].
  assert (Hmh : exists h1, member_header nobody contents now pid linkrecord_disable (put_c_chksum sum h) f 0 s
                 = Some (Returns (s, inl (h1, 0)))).
  { set (h2 := put_c_namesize (zlen (c_name h) + 1) (taru_filehdr2filehdr (ahsStaticCreateFilehdr now) (put_c_chksum sum h))).
    assert (Hps : forall h', pseudo_inode h' f s = Some (Returns (s, inl h'))).
    { intros h'. unfold pseudo_inode. rewrite bind_get. by rewrite Hp. }
    assert (Hnames : exists h3, mwhen (is_tar f) (tar_names nobody now pid h2 0) (h2, 0, 0) s = Some (Returns (s, inl (h3, 0, 0)))
                      /\ file_kind h3 = 0).
    { destruct (is_tar f); [|by exists h2]. exists (put_ext_needs_maskM (taru_fill_exthdr_needs_mask h2 0) h2). split; [|exact Hk].
      unfold mwhen, tar_names. change (c_name h2) with (c_name h). change (c_tar_linkname h2) with (c_tar_linkname h).
      rewrite Hn, Hl. change (taru_is_tar_filename_too_long [] 0 false) with (0, 0).
      change (taru_is_tar_linkname_too_long [] 0) with (0, 0). cbv iota beta zeta. change (bit 0 TARU_TAR_NO_OVERFLOW) with false.
      change (is_pax 0) with false. cbn [negb andb orb Z.eqb]. rewrite andb_false_r. done. }
    destruct Hnames as (h3 & Hr & Hk3). exists h3. unfold member_header. rewrite (bind_run _ _ _ _ _ (Hps _)).
    change (bit 0 TARU_TAR_DO_STRIP_LEADING_SLASH) with false. cbv iota zeta. fold h2.
    change (put_c_namesize _ (taru_filehdr2filehdr _ _)) with h2. rewrite (bind_run _ _ _ _ _ Hr). cbv iota.
    assert (Hby : write_by_type nobody contents now linkrecord_disable h3 f 0 0 s = Some (Returns (s, inl (h3, 0, 0)))).
    { unfold write_by_type. change (Z.land (c_mode h3) S_IFMT) with (file_kind h3). by rewrite Hk3. }
    rewrite (bind_run _ _ _ _ _ Hby). done. }
  destruct Hmh as (h1 & Hmh).
  assert (Hwh : taru_write_archive_member_header nobody contents now pid linkrecord_disable None (put_c_chksum sum h) f
                  (ahsStaticCreateFilehdr now) 0 s
                = Some (Returns (s, inl (taru_filehdr2filehdr (ahsStaticCreateFilehdr now) h1, 0)))).
  { unfold taru_write_archive_member_header. rewrite bool_decide_false by (by intros [? ?]).
    unfold mbind_, mcall. rewrite Hmh. obind. done. }
  rewrite (bind_run _ _ _ _ _ Hwh). cbv beta iota.
  change (0 <? 0) with false. change (0 >? 0) with false. rewrite andb_false_r. done.
Qed.

Lemma idle_round f s h : idle s h ->
  exists s' h', idle s' h' /\ ar_out s' = ar_out s
    /\ forall fuel n, copy (S fuel) s h [] 0 f n = copy fuel s' h' [] 0 f n.
Proof.
  intros I. pose proof I as [R F Hp Hk].
  destruct (read_empty (reader_of s h [] 0) R eq_refl) as (t' & Hr & R' & F'). cbn [rd_taru rd_caches reader_of] in F'.
  set (h1 := rd_hdr (started (reader_of s h [] 0))) in Hr.
  set (s1 := put_writer t' (ar_caches s) (ar_out s) s).
  assert (I1 : idle s1 h1) by (split; [exact R'|cbn; congruence|exact Hp|exact Hk]).
  destruct (idle_member f s1 h1 I1 eq_refl eq_refl) as (h' & Hw & Hk').
  exists s1, h'. split; [split; [exact R'|cbn; congruence|exact Hp|exact Hk']|]. split; [done|].
  intros fuel n. cbn [copy_out_loop]. change (0 =? 0) with true. cbv iota. rewrite Hr. obind. cbv iota beta.
  cbn [rd_taru rd_caches rd_src rd_eoa rd_hdr reader_of]. change (0 <? 0) with false. change (0 =? 0) with true. cbv iota.
  fold s1. obind. rewrite (idle_flags _ _ I1). rewrite Hw. obind. cbv iota beta. change (0 <? 0) with false. cbv iota.
  rewrite Z.add_0_r. unfold taru_tape_skip_padding. change (input_pad ?x arf_ustar) with ((512 - x mod 512) mod 512).
  set (pad := (512 - _) mod 512). assert (Hpad : 0 <= pad) by (apply Z.mod_pos_bound; lia).
  destruct (negb (pad =? 0)); [|done]. unfold taru_read_amount, taru_tape_buffered_read. rewrite take_nil, drop_nil.
  replace (pad <? 0) with false by (symmetry; apply Z.ltb_ge; lia). done.
Qed.

Lemma idle_loop f : forall fuel s h, idle s h ->
  exists s', copy fuel s h [] 0 f 0 = Some (Returns (inr s')) /\ ar_out s' = ar_out s.
Proof.
  induction fuel as [|fuel IH]; intros s h I; [by exists s|].
  destruct (idle_round f s h I) as (s1 & h1 & I1 & Ho & Hr). destruct (IH s1 h1 I1) as (s2 & R2 & Ho2).
  exists s2. split; [by rewrite Hr|congruence].
Qed.

(** C21: Copying an input that has nothing in it never ends.  With a fresh
    reader, no flags and no virtual inodes, for every output format: after any
    number of rounds, each of which is defined, the copier is still in its loop
    on the empty input, and nothing was written. *)
Theorem copy_of_nothing_never_ends f s (HR : reader_ok (ar_taru s)) (HF : taru_tarheaderflagsM (ar_taru s) = 0)
    (HP : ar_porinode s = None) :
  forall fuel, exists s',
    taru_process_copy_out nobody contents now pid linkrecord_disable stray rounds fuel s [] f = Some (Returns (inr s'))
    /\ ar_out s' = ar_out s.
Proof.
  intros fuel. destruct hllist_open_links as (l & El & _). unfold taru_process_copy_out. rewrite El. cbn [mbind option_bind].
  set (s0 := put_links _ s). destruct (idle_loop f fuel s0 (ahsStaticCreateFilehdr now)) as (s1 & R1 & Ho); [by split|].
  exists s1. rewrite R1. done.
Qed.
End CopyOut.

Module Witness.
#[local] Instance junk_v : Malloc := fun _ => "v"%char.
#[local] Instance no_entries : SysDB :=
  {| getpwnam := fun _ => None; getpwuid := fun _ => None; getgrnam := fun _ => None; getgrgid := fun _ => None |}.

Definition start : option archiving :=
  taru ← taru_create 0 0;
  Some (mkArchiving taru (mkSYSDBCACHES empty_cache empty_cache) (etar_open 0 0) (L "before") None None None).

(** An archive with one file, and what is behind its end. *)
Definition archive (s : archiving) : option bytes :=
  w ← MemberSpec.Witness.write 0 (MemberSpec.Witness.file 1 (L "dir/name")) (L "hello") s;
  match w with Returns (s', _) => Some (drop 6 (ar_out s') ++ replicate 1024 NUL ++ L "behind") | Fatal => None end.

Definition copy (s : archiving) (input : bytes) :=
  taru_process_copy_out (0, true) (fun _ => None) 1300000000 1 0 false 2 4 s input arf_ustar.

Lemma copy_out_whole_blocks_witness :
  exists s input s', (s0 ← start; archive s0) = Some input
    /\ copy s input = Some (Returns (inl (s', L "behind", 0)))
    /\ exists body, ar_out s' = ar_out s ++ body ++ replicate 1024 NUL /\ zlen body mod 512 = 0.
Proof.
  destruct start as [s|] eqn:Es; [|vm_compute in Es; discriminate]. cbn [mbind option_bind].
  destruct (archive s) as [input|] eqn:Ea; [|vm_compute in Es; injection Es as <-; vm_compute in Ea; discriminate].
  assert (Hrun : exists s', copy s input = Some (Returns (inl (s', L "behind", 0)))).
  { vm_compute in Es. injection Es as <-. vm_compute in Ea. injection Ea as <-. eexists. vm_compute. reflexivity. }
  destruct Hrun as (s' & Hrun). exists s, input, s'. split; [reflexivity|]. split; [exact Hrun|].
  exact (copy_out_whole_blocks (0, true) (fun _ => None) 1300000000 1 0 false 2 arf_ustar s input 4 s' (L "behind")
           eq_refl Hrun).
Defined.

Lemma copy_of_nothing_never_ends_witness :
  exists s, ar_out s = L "before" /\ forall fuel, exists s',
    taru_process_copy_out (0, true) (fun _ => None) 1300000000 1 0 false 2 fuel s [] arf_newascii = Some (Returns (inr s'))
    /\ ar_out s' = L "before".
Proof.
  destruct (taru_create_ok 0 0) as (t & E & _ & R & _).
  exists (mkArchiving t (mkSYSDBCACHES empty_cache empty_cache) (etar_open 0 0) (L "before") None None None).
  split; [reflexivity|].
  apply (copy_of_nothing_never_ends (0, true) (fun _ => None) 1300000000 1 0 false 2 arf_newascii).
  - exact R.
  - vm_compute in E. injection E as <-. reflexivity.
  - reflexivity.
Defined.
End Witness.
