(* ===== verification/DeferSpec.v ===== *)
(** * Specification of deferred links

    The links of a file in a newc or crc archive: no header is lost and none is
    written twice, the headers of one file come together, without data except
    for the last one, and a file whose links were all met leaves nothing behind. *)

From S2P Require Import Prelude CString Numerals Strob Cplob HardLinks Pathname Escape FileMode TarNumbers TarHeader SysDb FileHdr PaxHeader TarWrite TarRead Cpio CpioSpec Defer Member ArchiveSpec.

(** ** Links of one file *)

(** What the three comparisons look at. *)
Definition link_key (h : new_cpio_header) : Z * Z * Z := (to_int (c_ino h), to_int (c_dev_maj h), to_int (c_dev_min h)).

Lemma same_link_key h g : same_link h g = bool_decide (link_key h = link_key g).
Proof.
  unfold same_link, link_key. symmetry. destruct (bool_decide _) eqn:E.
  - apply bool_decide_eq_true in E. injection E as -> -> ->. by rewrite !Z.eqb_refl.
  - apply bool_decide_eq_false in E. destruct (_ =? _) eqn:E1, (to_int (c_dev_maj h) =? _) eqn:E2, (to_int (c_dev_min h) =? _) eqn:E3;
      try done. zbool. destruct E. congruence.
Qed.

(** The number of headers of a file, and the list without them. *)
Definition links_of (h : new_cpio_header) (hs : list new_cpio_header) : list new_cpio_header :=
  filter (fun g => link_key g = link_key h) hs.
Definition others (h : new_cpio_header) (hs : list new_cpio_header) : list new_cpio_header :=
  filter (fun g => link_key g <> link_key h) hs.

Lemma count_links_eq hs h : count_links hs h = zlen (links_of h hs).
Proof.
  unfold links_of. induction hs as [|g hs IH]; [done|]. cbn [count_links]. rewrite same_link_key, filter_cons, IH.
  destruct (decide _) as [E|E]; [rewrite bool_decide_true by done; by rewrite zlen_cons|by rewrite bool_decide_false].
Qed.

Lemma links_of_key h g hs : link_key h = link_key g -> links_of h hs = links_of g hs.
Proof. intros E. unfold links_of. apply list_filter_iff. intros x. by rewrite E. Qed.

Lemma links_of_others h g hs : link_key h <> link_key g -> links_of h (others g hs) = links_of h hs.
Proof.
  intros E. unfold links_of, others. induction hs as [|x hs IH]; [done|]. rewrite !filter_cons.
  destruct (decide (link_key x <> link_key g)) as [Hx|Hx].
  - rewrite filter_cons. destruct (decide (link_key x = link_key h)); by rewrite IH.
  - rewrite IH. destruct (decide (link_key x = link_key h)) as [Hh|Hh]; [|done]. destruct Hx. congruence.
Qed.

Lemma links_of_own h hs : links_of h (others h hs) = [].
Proof.
  unfold links_of, others. induction hs as [|x hs IH]; [done|]. rewrite filter_cons.
  destruct (decide _) as [Hx|Hx]; [|done]. rewrite filter_cons. by rewrite decide_False.
Qed.

Lemma split_links h hs : links_of h hs ++ others h hs ≡ₚ hs.
Proof.
  unfold links_of, others. induction hs as [|x hs IH]; [done|]. rewrite !filter_cons.
  destruct (decide (link_key x = link_key h)) as [E|E].
  - rewrite decide_False by (intros Hn; by destruct Hn). cbn [app]. by rewrite IH.
  - rewrite decide_True by done. by rewrite <- Permutation_middle, IH.
Qed.

(** ** Writing the deferred headers of a file *)

(** A deferred header as it is written. *)
Definition emptied (h : new_cpio_header) : new_cpio_header := put_c_filesize 0 h.

Section Defers.
Context `{Malloc} `{SysDB} (nobody : Z * bool) (contents : bytes -> option bytes) (now : Z).
Implicit Types (f : archive_format) (h : new_cpio_header) (ds : list new_cpio_header).

Definition images f (hs : list new_cpio_header) : bytes := concat (header_image f <$> hs).

Lemma images_app f a b : images f (a ++ b) = images f a ++ images f b.
Proof. unfold images. by rewrite fmap_app, concat_app. Qed.

Lemma put_header_out_eq taru c out h f : known_format f -> fits f h ->
  put_header_out nobody (taru, c, out) h f 0
  = Some ((taru, c, out ++ header_image f h), printed f h, zlen (header_image f h)).
Proof. intros Hf Hfit. unfold put_header_out. rewrite (write_header_eq nobody) by done. done. Qed.

(** The loop of def_writeout_defers that is not the last one. *)
Lemma writeout_loop_eq f h taru c : known_format f -> forall ds before out retval,
  Forall (fun d => fits f (emptied d)) ds ->
  writeout_loop nobody contents ds before (taru, c, out) h f false retval
  = Some (before ++ others h ds, (taru, c, out ++ images f (emptied <$> links_of h ds)),
          retval + zlen (images f (emptied <$> links_of h ds))).
Proof.
  intros Hf. induction ds as [|d ds IH]; intros before out retval Hfit.
  - cbn. rewrite !app_nil_r, Z.add_0_r. done.
  - apply Forall_cons in Hfit as [Hd Hds]. cbn [writeout_loop]. rewrite same_link_key.
    unfold links_of, others. rewrite !filter_cons. fold (links_of h ds) (others h ds).
    destruct (decide (link_key d = link_key h)) as [E|E].
    + rewrite bool_decide_true by done. cbn [negb orb]. fold (emptied d). rewrite put_header_out_eq by done. obind.
      rewrite IH by done. rewrite decide_False by (intros Hn; by destruct Hn). cbn [fmap list_fmap].
      unfold images. cbn [fmap list_fmap concat]. rewrite zlen_app, <- app_assoc, Z.add_assoc. done.
    + rewrite bool_decide_false by done. rewrite IH by done. rewrite decide_True by done. by rewrite <- app_assoc.
Qed.

Lemma deferment_key h : link_key (def_create_deferment now h) = link_key h.
Proof. done. Qed.

Lemma fits_newc_emptied f h : f = arf_newascii \/ f = arf_crcascii -> fits f h -> fits f (emptied (def_create_deferment now h)).
Proof.
  intros Hf Hfit. assert (Hn : fits_newc h) by (by destruct Hf as [-> | ->]).
  assert (Hg : fits_newc (emptied (def_create_deferment now h))); [|by destruct Hf as [-> | ->]].
  destruct Hn as (Hname & Hsize & Hv). split; [exact Hname|]. split; [exact Hsize|]. unfold newc_values in *. bounds.
  change (c_filesize (emptied (def_create_deferment now h))) with 0.
  repeat (apply Forall_cons_2; [first [assumption|unfold below; lia]|]). apply Forall_nil_2.
Qed.

(** ** One link *)

(** The writer behind a link: the list and what was appended, headers only. *)
Lemma cpio_link_run f h flags s d : f = arf_newascii \/ f = arf_crcascii -> fits f h ->
  bit flags TARU_TAR_DO_STRIP_LEADING_SLASH = false ->
  ar_defer s = Some d -> formatM d = f -> Forall (fun g => fits f (emptied g)) (deferoutsM d) ->
  exists ret s',
    write_cpio_link nobody contents now h f flags s = Some (Returns (s', inl ret))
    /\ (if to_int (c_nlink h) =? zlen (links_of h (deferoutsM d)) + 1
        then ar_defer s' = Some (mkDEFER f (others h (deferoutsM d)))
             /\ ar_out s' = ar_out s ++ images f (emptied <$> links_of h (deferoutsM d)) ++ header_image f h
        else ar_defer s' = Some (mkDEFER f (deferoutsM d ++ [def_create_deferment now h])) /\ ar_out s' = ar_out s).
Proof.
  intros Hf Hfit Hs Hd Hform Hds. assert (Hk : known_format f) by (destruct Hf as [-> | ->]; [by left|right; by left]).
  unfold write_cpio_link. rewrite bind_get. unfold id. rewrite Hd. unfold defer_is_last_link, def_count_defered_links_to_dev_ino.
  rewrite count_links_eq. destruct (to_int (c_nlink h) =? zlen (links_of h (deferoutsM d)) + 1).
  - pose proof (writeout_loop_eq f h (ar_taru s) (ar_caches s) Hk (deferoutsM d) [] (ar_out s) 0 Hds) as Hw. cbn [app] in Hw.
    set (bs := images f _) in *.
    assert (Hz : defer_writeout_zero_length_defers nobody contents d (ar_taru s, ar_caches s, ar_out s) h
                 = Some (mkDEFER f (others h (deferoutsM d)), (ar_taru s, ar_caches s, ar_out s ++ bs), 0 + zlen bs)).
    { unfold defer_writeout_zero_length_defers, def_writeout_defers. rewrite Hform, Hw. done. }
    rewrite (bind_lift _ _ _ _ Hz). cbv iota beta. rewrite bind_put.
    set (s1 := put_defer _ _). rewrite (write_plain_run nobody f h flags s1) by done.
    do 2 eexists. split; [done|]. subst s1. cbn [ar_defer ar_out put_out put_writer put_defer].
    split; [done|by rewrite app_assoc].
  - rewrite bind_put. do 2 eexists. split; [done|]. unfold defer_add_link_defer. rewrite Hform. done.
Qed.

(** ** All links *)

(** Every link in its turn. *)
Fixpoint link_members (hs : list new_cpio_header) f (flags : Z) : M unit :=
  match hs with
  | [] => mret ()
  | h :: hs => let* _ := write_cpio_link nobody contents now h f flags in link_members hs f flags
  end%member.

(** What a header says about its file, the size and the link name apart. *)
Definition identity h : bytes * (Z * Z * Z * Z * Z * Z) * (Z * Z * Z * Z) :=
  (c_name h, (c_mode h, c_uid h, c_gid h, c_nlink h, c_mtime h, c_ino h),
   (c_dev_maj h, c_dev_min h, c_rdev_maj h, c_rdev_min h)).

(** A link that is not the last one of its file, as it is written. *)
Definition deferred h : new_cpio_header := emptied (def_create_deferment now h).

(** The headers of a file of which every link was met. *)
Definition together (hs : list new_cpio_header) : list new_cpio_header :=
  match last hs with Some h => (deferred <$> take (length hs - 1) hs) ++ [h] | None => [] end.

Lemma together_snoc hs h : together (hs ++ [h]) = (deferred <$> hs) ++ [h].
Proof.
  unfold together. rewrite last_snoc, length_app. cbn [length]. replace (length hs + 1 - 1)%nat with (length hs) by lia.
  by rewrite take_app_length.
Qed.

Lemma links_of_app h a b : links_of h (a ++ b) = links_of h a ++ links_of h b.
Proof. apply filter_app. Qed.

Lemma links_of_fmap (g : new_cpio_header -> new_cpio_header) h hs : (forall x, link_key (g x) = link_key x) ->
  links_of h (g <$> hs) = g <$> links_of h hs.
Proof.
  intros Hg. unfold links_of. induction hs as [|x hs IH]; [done|]. cbn [fmap list_fmap]. rewrite !filter_cons, Hg.
  destruct (decide _); by rewrite IH.
Qed.

Lemma links_of_self h hs : links_of h (links_of h hs) = links_of h hs.
Proof. unfold links_of. rewrite list_filter_filter. apply list_filter_iff. intros x. tauto. Qed.

Lemma links_of_one h g : links_of h [g] = if decide (link_key g = link_key h) then [g] else [].
Proof. done. Qed.

Lemma links_of_apart h g hs : link_key h <> link_key g -> links_of h (links_of g hs) = [].
Proof.
  intros E. unfold links_of. induction hs as [|x hs IH]; [done|]. rewrite filter_cons.
  destruct (decide (link_key x = link_key g)) as [Hx|Hx]; [|done]. rewrite filter_cons, decide_False; [done|congruence].
Qed.

(** The writer between two links: what it wrote, and what it keeps. *)
Record linking f (out0 : bytes) (pre : list new_cpio_header) s (written kept : list new_cpio_header) : Prop := {
  li_out : ar_out s = out0 ++ images f written;
  li_defer : ar_defer s = Some (mkDEFER f (def_create_deferment now <$> kept));
  li_fits : Forall (fits f) kept;
  li_all : (identity <$> written) ++ (identity <$> kept) ≡ₚ identity <$> pre;
}.

(** Each file is either complete, or all its headers are kept. *)
Definition settled (all pre written kept : list new_cpio_header) : Prop :=
  forall h, links_of h kept = (if decide (length (links_of h pre) = length (links_of h all)) then [] else links_of h pre)
    /\ links_of h written = (if decide (length (links_of h pre) = length (links_of h all)) then together (links_of h pre) else []).

Lemma deferred_fmap (hs : list new_cpio_header) : emptied <$> (def_create_deferment now <$> hs) = deferred <$> hs.
Proof. by rewrite <- list_fmap_compose. Qed.

Lemma identity_emptied (hs : list new_cpio_header) : identity <$> (emptied <$> (def_create_deferment now <$> hs)) = identity <$> hs.
Proof. rewrite <- !list_fmap_compose. done. Qed.

Lemma linking_step f out0 pre s written kept h flags : f = arf_newascii \/ f = arf_crcascii -> fits f h ->
  bit flags TARU_TAR_DO_STRIP_LEADING_SLASH = false -> linking f out0 pre s written kept ->
  exists ret s',
    write_cpio_link nobody contents now h f flags s = Some (Returns (s', inl ret))
    /\ if to_int (c_nlink h) =? zlen (links_of h kept) + 1
       then linking f out0 (pre ++ [h]) s' (written ++ (deferred <$> links_of h kept) ++ [h]) (others h kept)
       else linking f out0 (pre ++ [h]) s' written (kept ++ [h]).
Proof.
  intros Hf Hfit Hs [Lo Ld Lf La].
  assert (Hds : Forall (fun g => fits f (emptied g)) (def_create_deferment now <$> kept)).
  { apply Forall_fmap. eapply Forall_impl; [exact Lf|]. intros g Hg. by apply fits_newc_emptied. }
  destruct (cpio_link_run f h flags s _ Hf Hfit Hs Ld eq_refl Hds) as (ret & s' & Hr & Hpost).
  exists ret, s'. split; [done|]. cbn [deferoutsM] in Hpost.
  rewrite links_of_fmap in Hpost by done. assert (Hz : zlen (def_create_deferment now <$> links_of h kept) = zlen (links_of h kept)).
  { unfold zlen. by rewrite length_fmap. }
  rewrite Hz in Hpost. destruct (_ =? _).
  - destruct Hpost as [Hd Ho]. split.
    + rewrite Ho, Lo, !images_app. rewrite deferred_fmap, <- app_assoc.
      unfold images at 5. cbn [fmap list_fmap concat]. by rewrite app_nil_r.
    + rewrite Hd. do 2 f_equal. unfold others. clear. induction kept as [|x kept IH]; [done|].
      cbn [fmap list_fmap]. rewrite !filter_cons. change (link_key (def_create_deferment now x)) with (link_key x).
      destruct (decide _); cbn [fmap list_fmap]; by rewrite IH.
    + apply Forall_forall. intros x Hx. apply list_elem_of_filter in Hx as [_ Hx]. by eapply Forall_forall in Lf.
    + rewrite !fmap_app. cbn [fmap list_fmap]. rewrite <- La. rewrite <- deferred_fmap, identity_emptied.
      rewrite <- (split_links h kept) at 3. rewrite fmap_app. solve_Permutation.
  - destruct Hpost as [Hd Ho]. split; [by rewrite Ho|by rewrite Hd, fmap_app| |].
    + apply Forall_app. by split; [|apply Forall_singleton].
    + rewrite !fmap_app, app_assoc. by rewrite La.
Qed.

Definition complete (all : list new_cpio_header) : Prop := forall h, h ∈ all -> to_int (c_nlink h) = zlen (links_of h all).

Lemma links_of_middle h pre post : links_of h (pre ++ h :: post) = links_of h pre ++ h :: links_of h post.
Proof. rewrite links_of_app. f_equal. unfold links_of. rewrite filter_cons. by destruct (decide _). Qed.

(** The test for the last link, and what it decides. *)
Lemma settled_step pre h post written kept : complete (pre ++ h :: post) -> settled (pre ++ h :: post) pre written kept ->
  if to_int (c_nlink h) =? zlen (links_of h kept) + 1
  then settled (pre ++ h :: post) (pre ++ [h]) (written ++ (deferred <$> links_of h kept) ++ [h]) (others h kept)
  else settled (pre ++ h :: post) (pre ++ [h]) written (kept ++ [h]).
Proof.
  intros Hc Hs. set (all := pre ++ h :: post) in *.
  assert (Hall : length (links_of h all) = S (length (links_of h pre) + length (links_of h post))).
  { subst all. rewrite links_of_middle, length_app. cbn [length]. lia. }
  destruct (Hs h) as [Hk Hw]. rewrite decide_False in Hk, Hw by lia.
  rewrite Hk, (Hc h) by (subst all; set_solver).
  assert (Hown : links_of h (pre ++ [h]) = links_of h pre ++ [h]).
  { rewrite links_of_app, links_of_one. by destruct (decide _). }
  assert (Hoth : forall x, link_key h <> link_key x -> links_of x (pre ++ [h]) = links_of x pre).
  { intros x Hx. rewrite links_of_app, links_of_one. destruct (decide _); [done|by rewrite app_nil_r]. }
  destruct (zlen (links_of h all) =? zlen (links_of h pre) + 1) eqn:E; zbool; unfold zlen in E; intros x.
  all: destruct (decide (link_key h = link_key x)) as [Ex|Ex].
  - rewrite !(links_of_key x h) by done. rewrite Hown. rewrite !decide_True by (rewrite length_app; cbn; lia).
    split; [apply links_of_own|]. rewrite !links_of_app, Hw, links_of_fmap, links_of_self, links_of_one, decide_True by done.
    cbn [app]. by rewrite together_snoc.
  - rewrite (Hoth x Ex). destruct (Hs x) as [Hkx Hwx].
    rewrite links_of_others by done. split; [done|].
    rewrite !links_of_app, links_of_fmap, links_of_apart, links_of_one, decide_False by done. cbn [fmap list_fmap app].
    by rewrite app_nil_r.
  - rewrite !(links_of_key x h) by done. rewrite Hown. rewrite !decide_False by (rewrite length_app; cbn; lia).
    split; [|done]. by rewrite links_of_app, Hk, links_of_one, decide_True.
  - rewrite (Hoth x Ex). destruct (Hs x) as [Hkx Hwx].
    rewrite links_of_app, links_of_one, decide_False, app_nil_r by done. done.
Qed.

Lemma link_members_run f flags out0 all : f = arf_newascii \/ f = arf_crcascii ->
  bit flags TARU_TAR_DO_STRIP_LEADING_SLASH = false ->
  forall hs pre s written kept, all = pre ++ hs -> Forall (fits f) hs -> linking f out0 pre s written kept ->
  (complete all -> settled all pre written kept) ->
  exists s' written' kept', link_members hs f flags s = Some (Returns (s', inl ()))
    /\ linking f out0 all s' written' kept' /\ (complete all -> settled all all written' kept').
Proof.
  intros Hf Hs. induction hs as [|h hs IH]; intros pre s written kept Ea Hfit Hl Hset.
  - rewrite app_nil_r in Ea. subst pre. by exists s, written, kept.
  - apply Forall_cons in Hfit as [Hh Hfit].
    destruct (linking_step f out0 pre s written kept h flags Hf Hh Hs Hl) as (ret & s1 & Hr & Hl1).
    assert (Hset1 : complete all -> if to_int (c_nlink h) =? zlen (links_of h kept) + 1
      then settled all (pre ++ [h]) (written ++ (deferred <$> links_of h kept) ++ [h]) (others h kept)
      else settled all (pre ++ [h]) written (kept ++ [h])).
    { intros Hc. specialize (Hset Hc). subst all. by apply settled_step. }
    cbn [link_members]. rewrite (bind_run _ _ _ _ _ Hr).
    destruct (_ =? _); (eapply (IH (pre ++ [h])); [by rewrite Ea, <- app_assoc|done|exact Hl1|exact Hset1]).
Qed.

(** C11: Deferred links are written once, in order, with their file.  In a newc
    or crc archive, for any sequence of headers with links that fits: nothing
    but headers is appended; the headers that were written and the ones that are
    still kept are together the ones that were given, with all their numbers and
    names.  When every file has as many headers as its link count says, nothing
    is kept, and the headers of each file appear in their order, all but the
    last one without a size and a link name. *)
Theorem deferred_links_written f (hs : list new_cpio_header) (flags : Z) (s : archiving)
    (Hf : f = arf_newascii \/ f = arf_crcascii) (Hfit : Forall (fits f) hs)
    (Hflags : bit flags TARU_TAR_DO_STRIP_LEADING_SLASH = false) (Hd : ar_defer s = Some (defer_open f)) :
  exists s' written kept,
    link_members hs f flags s = Some (Returns (s', inl ()))
    /\ ar_out s' = ar_out s ++ images f written
    /\ ar_defer s' = Some (mkDEFER f (def_create_deferment now <$> kept))
    /\ (identity <$> written) ++ (identity <$> kept) ≡ₚ identity <$> hs
    /\ (complete hs -> kept = [] /\ forall h, links_of h written = together (links_of h hs)).
Proof.
  destruct (link_members_run f flags (ar_out s) hs Hf Hflags hs [] s [] []) as (s' & written & kept & Hr & [Lo Ld Lf La] & Hset);
    [done|done| | |].
  - split; [by rewrite app_nil_r|done|done|done].
  - intros Hc h. destruct (decide _) as [E|E]; [|done]. cbn in E.
    symmetry in E. apply length_zero_iff_nil in E. done.
  - exists s', written, kept. split; [done|]. split; [done|]. split; [done|]. split; [done|].
    intros Hc. specialize (Hset Hc). split.
    + destruct kept as [|x kept]; [done|]. destruct (Hset x) as [Hk _]. rewrite decide_True in Hk by done.
      exfalso. unfold links_of in Hk. rewrite filter_cons, decide_True in Hk; done.
    + intros h. destruct (Hset h) as [_ Hw]. by rewrite decide_True in Hw.
Qed.
End Defers.

Module Witness.
#[local] Instance junk_u : Malloc := fun _ => "u"%char.
#[local] Instance no_owners : SysDB :=
  {| getpwnam := fun _ => None; getpwuid := fun _ => None; getgrnam := fun _ => None; getgrgid := fun _ => None |}.

(** Two files with two links each, one behind the other. *)
Definition file (ino : Z) (name : bytes) : new_cpio_header :=
  mkHDR ino 33188 1000 100 2 1300000000 5 8 1 0 0 (zlen name + 1) 0 name [] [] [] 0 0 0 0 0 0 [] 0 0 0 0.
Definition files : list new_cpio_header := [file 7 (L "a"); file 8 (L "b"); file 7 (L "c"); file 8 (L "d")].

Definition start : archiving :=
  mkArchiving ArchiveSpec.Witness.object ArchiveSpec.Witness.caches (etar_open 0 0) (L "before") None
    (Some (defer_open arf_newascii)) None.

Lemma deferred_links_written_witness : exists s' written,
  link_members (0, true) (fun _ => None) 1300000000 files arf_newascii 0 start = Some (Returns (s', inl ()))
  /\ ar_out s' = L "before" ++ images arf_newascii written
  /\ identity <$> written ≡ₚ identity <$> files
  /\ links_of (file 7 (L "a")) written = [deferred 1300000000 (file 7 (L "a")); file 7 (L "c")].
Proof.
  destruct (deferred_links_written (0, true) (fun _ => None) 1300000000 arf_newascii files 0 start)
    as (s' & written & kept & H1 & H2 & H3 & H4 & H5).
  - left. reflexivity.
  - unfold files. repeat (apply Forall_cons_2; [
      split; [split; [by apply no_nul_compute|reflexivity]|split; [vm_compute; congruence|]];
      unfold newc_values; repeat (apply Forall_cons_2; [vm_compute; split; congruence|]); apply Forall_nil_2|]).
    apply Forall_nil_2.
  - reflexivity.
  - reflexivity.
  - destruct H5 as [-> H5].
    + intros h Hh. unfold files in Hh. repeat (apply elem_of_cons in Hh as [->|Hh]; [vm_compute; reflexivity|]).
      by apply not_elem_of_nil in Hh.
    + exists s', written. split; [exact H1|]. split; [exact H2|]. split; [cbn [fmap list_fmap] in H4; rewrite app_nil_r in H4; exact H4|].
      rewrite (H5 (file 7 (L "a"))). vm_compute. reflexivity.
Defined.
End Witness.
