(* ===== verification/Sdflt.v ===== *)
(** * Attributes of software objects and their defaults (swsupplib/misc/swsdflt.c)

    The table of the objects and attributes of IEEE 1387.2, with the value that
    an attribute has by default, and the look-ups in it.  The entry of the end
    of the table, whose keyword is NULL, is the end of the list. *)

From S2P Require Import Prelude CString.

Inductive swsdflt_sanction :=
  sdf_POSIX_7_2 | sdf_swbis | sdf_this_implementation | sdf_dpkg | sdf_rpm | XDSA_C701 | sdf_POSIX_7_2_annex.
Inductive swsdflt_group := sdf_not_found | sdf_id | sdf_attr | sdf_objs | CONTROLFILE_EXT | FILE_EXT | SWDEFFILE.
Inductive swsdflt_value_type := sdf_single_value | sdf_list.
Inductive swsdflt_has_default_value := sdf_no | sdf_yes | sdf_IMDEF.
Inductive swsdflt_object_keyword :=
  sdf_host | sdf_distribution | sdf_product | sdf_subproduct | sdf_fileset | sdf_bundle | sdf_vendor | sdf_category
  | sdf_media | sdf_file | sdf_control_file | sdf_PSF | sdf_PSFi | sdf_INFO | sdf_INDEX
  | sdf_END | sdf_OPTION | sdf_installed_software | sdf_INSTALLED | sdf_leftmost | sdf_all | sdf_default.
Inductive swsdflt_permitted_value :=
  sdf_PortableCharacterString | sdf_FilenameCharacterString | sdf_ListofDependency_specs
  | sdf_PathnameCharacterString | sdf_SoftwarePatternMatchingString | sdf_ListofSoftware_specs
  | sdf_IntegerCharacterString | sdf_StateList | sdf_OctalCharacterString | sdf_ControlScript | sdf_not_set.

(** The values of the enumerators that are returned as an int. *)
Definition group_code (g : swsdflt_group) : Z :=
  match g with
  | sdf_not_found => 0 | sdf_id => 1 | sdf_attr => 2 | sdf_objs => 3 | CONTROLFILE_EXT => 4 | FILE_EXT => 5 | SWDEFFILE => 6
  end.
Definition value_type_code (v : swsdflt_value_type) : Z := match v with sdf_single_value => 0 | sdf_list => 1 end.
Definition has_default_code (v : swsdflt_has_default_value) : Z := match v with sdf_no => 0 | sdf_yes => 1 | sdf_IMDEF => 2 end.

(** [value] is [None] for NULL. *)
Record swsdflt_defaults := mkDFLT {
  object_keywordM : swsdflt_object_keyword;
  sanction : swsdflt_sanction;
  group : swsdflt_group;
  keyword : bytes;
  length_of : Z;
  value_type : swsdflt_value_type;
  permitted_valueM : swsdflt_permitted_value;
  has_default_value : swsdflt_has_default_value;
  value : option bytes;
}.

Definition swsdflts_objects (o : swsdflt_object_keyword) : bytes :=
  match o with
  | sdf_host => L "host"
  | sdf_distribution => L "distribution"
  | sdf_product => L "product"
  | sdf_subproduct => L "subproduct"
  | sdf_fileset => L "fileset"
  | sdf_bundle => L "bundle"
  | sdf_vendor => L "vendor"
  | sdf_category => L "category"
  | sdf_media => L "media"
  | sdf_file => L "file"
  | sdf_control_file => L "control_file"
  | sdf_PSF => L "PSF"
  | sdf_PSFi => L "PSFi"
  | sdf_INFO => L "INFO"
  | sdf_INDEX => L "INDEX"
  | sdf_END => L "_END"
  | sdf_OPTION => L "OPTION"
  | sdf_installed_software => L "installed_software"
  | sdf_INSTALLED => L "INSTALLED"
  | sdf_leftmost => L "_leftmost"
  | sdf_all => L "_all"
  | sdf_default => L "_default"
  end.

Definition defaults_to_product : list swsdflt_defaults := [
  mkDFLT sdf_default sdf_swbis sdf_id (L "*") 0 sdf_single_value sdf_PortableCharacterString sdf_no None;
  mkDFLT sdf_leftmost sdf_this_implementation sdf_objs (L "leftmost") 0 sdf_single_value sdf_PortableCharacterString sdf_no None;
  mkDFLT sdf_leftmost sdf_this_implementation sdf_id (L "revision") 0 sdf_single_value sdf_PortableCharacterString sdf_no None;
  mkDFLT sdf_leftmost sdf_this_implementation sdf_id (L "architecture") 0 sdf_single_value sdf_PortableCharacterString sdf_no None;
  mkDFLT sdf_leftmost sdf_this_implementation sdf_id (L "vendor_tag") 0 sdf_single_value sdf_PortableCharacterString sdf_no None;
  mkDFLT sdf_leftmost sdf_this_implementation sdf_id (L "location") 0 sdf_single_value sdf_PortableCharacterString sdf_no None;
  mkDFLT sdf_leftmost sdf_this_implementation sdf_id (L "qualifier") 0 sdf_single_value sdf_PortableCharacterString sdf_no None;
  mkDFLT sdf_PSF sdf_swbis SWDEFFILE (L "PSF") 0 sdf_single_value sdf_PortableCharacterString sdf_no None;
  mkDFLT sdf_PSFi sdf_swbis SWDEFFILE (L "PSFi") 0 sdf_single_value sdf_PortableCharacterString sdf_no None;
  mkDFLT sdf_INFO sdf_swbis SWDEFFILE (L "INFO") 0 sdf_single_value sdf_PortableCharacterString sdf_no None;
  mkDFLT sdf_INDEX sdf_swbis SWDEFFILE (L "INDEX") 0 sdf_single_value sdf_PortableCharacterString sdf_no None;
  mkDFLT sdf_INSTALLED sdf_swbis SWDEFFILE (L "INSTALLED") 0 sdf_single_value sdf_PortableCharacterString sdf_no None;
  mkDFLT sdf_OPTION sdf_swbis SWDEFFILE (L "OPTION") 0 sdf_single_value sdf_PortableCharacterString sdf_no None;
  mkDFLT sdf_host sdf_POSIX_7_2 sdf_objs (L "host") 0 sdf_single_value sdf_PortableCharacterString sdf_no None;
  mkDFLT sdf_host sdf_POSIX_7_2_annex sdf_id (L "hostname") 0 sdf_single_value sdf_PortableCharacterString sdf_no None;
  mkDFLT sdf_host sdf_POSIX_7_2_annex sdf_attr (L "os_name") 32 sdf_single_value sdf_PortableCharacterString sdf_no None;
  mkDFLT sdf_host sdf_POSIX_7_2_annex sdf_attr (L "os_release") 32 sdf_single_value sdf_PortableCharacterString sdf_no None;
  mkDFLT sdf_host sdf_POSIX_7_2_annex sdf_attr (L "os_version") 32 sdf_single_value sdf_PortableCharacterString sdf_no None;
  mkDFLT sdf_host sdf_POSIX_7_2_annex sdf_attr (L "machine_type") 32 sdf_single_value sdf_PortableCharacterString sdf_no None;
  mkDFLT sdf_host sdf_POSIX_7_2_annex sdf_objs (L "distribution") 0 sdf_list sdf_ListofSoftware_specs sdf_yes (Some []);
  mkDFLT sdf_host sdf_POSIX_7_2_annex sdf_objs (L "installed_software") 0 sdf_list sdf_ListofSoftware_specs sdf_yes (Some []);
  mkDFLT sdf_distribution sdf_POSIX_7_2 sdf_objs (L "distribution") 0 sdf_single_value sdf_PortableCharacterString sdf_yes (Some []);
  mkDFLT sdf_distribution sdf_POSIX_7_2 sdf_id (L "path") 0 sdf_single_value sdf_PortableCharacterString sdf_yes (Some []);
  mkDFLT sdf_distribution sdf_POSIX_7_2 sdf_attr (L "dfiles") 64 sdf_single_value sdf_FilenameCharacterString sdf_yes (Some (L "dfiles"));
  mkDFLT sdf_distribution sdf_POSIX_7_2 sdf_attr (L "layout_version") 64 sdf_single_value sdf_not_set sdf_yes (Some (L "1.0"));
  mkDFLT sdf_distribution sdf_POSIX_7_2 sdf_attr (L "pfiles") 64 sdf_single_value sdf_FilenameCharacterString sdf_yes (Some (L "pfiles"));
  mkDFLT sdf_distribution sdf_POSIX_7_2 sdf_attr (L "uuid") 64 sdf_single_value sdf_PortableCharacterString sdf_yes (Some []);
  mkDFLT sdf_distribution sdf_POSIX_7_2_annex sdf_attr (L "tag") 64 sdf_single_value sdf_PortableCharacterString sdf_yes (Some []);
  mkDFLT sdf_distribution sdf_POSIX_7_2_annex sdf_attr (L "title") 256 sdf_single_value sdf_PortableCharacterString sdf_yes (Some []);
  mkDFLT sdf_distribution sdf_POSIX_7_2_annex sdf_attr (L "description") 64 sdf_single_value sdf_PortableCharacterString sdf_yes (Some []);
  mkDFLT sdf_distribution sdf_POSIX_7_2_annex sdf_attr (L "revision") 0 sdf_single_value sdf_PortableCharacterString sdf_yes (Some []);
  mkDFLT sdf_distribution sdf_POSIX_7_2_annex sdf_attr (L "media_type") 64 sdf_single_value sdf_PortableCharacterString sdf_yes (Some []);
  mkDFLT sdf_distribution sdf_POSIX_7_2_annex sdf_attr (L "copyright") 0 sdf_single_value sdf_PortableCharacterString sdf_yes (Some []);
  mkDFLT sdf_distribution sdf_POSIX_7_2_annex sdf_attr (L "create_time") 16 sdf_single_value sdf_PortableCharacterString sdf_yes (Some []);
  mkDFLT sdf_distribution sdf_POSIX_7_2_annex sdf_attr (L "number") 64 sdf_single_value sdf_PortableCharacterString sdf_yes (Some []);
  mkDFLT sdf_distribution sdf_POSIX_7_2_annex sdf_attr (L "architecture") 64 sdf_single_value sdf_PortableCharacterString sdf_yes (Some []);
  mkDFLT sdf_distribution sdf_swbis sdf_attr (L "owner") 0 sdf_single_value sdf_PathnameCharacterString sdf_yes (Some []);
  mkDFLT sdf_distribution sdf_swbis sdf_attr (L "group") 0 sdf_single_value sdf_PathnameCharacterString sdf_yes (Some []);
  mkDFLT sdf_distribution sdf_swbis sdf_attr (L "control_directory") 0 sdf_single_value sdf_PathnameCharacterString sdf_yes (Some []);
  mkDFLT sdf_distribution sdf_swbis sdf_attr (L "release") 0 sdf_single_value sdf_PortableCharacterString sdf_yes (Some []);
  mkDFLT sdf_distribution sdf_swbis sdf_attr (L "url") 0 sdf_single_value sdf_PortableCharacterString sdf_yes (Some []);
  mkDFLT sdf_distribution sdf_swbis sdf_attr (L "chksum_md5") 0 sdf_single_value sdf_PortableCharacterString sdf_yes (Some []);
  mkDFLT sdf_distribution sdf_swbis sdf_attr (L "signature") 0 sdf_list sdf_PortableCharacterString sdf_yes (Some []);
  mkDFLT sdf_distribution sdf_swbis sdf_attr (L "rpm_default_prefix") 0 sdf_single_value sdf_PathnameCharacterString sdf_yes (Some (L "/"));
  mkDFLT sdf_distribution sdf_swbis sdf_attr (L "rpm_obsoletes") 0 sdf_single_value sdf_PathnameCharacterString sdf_no None;
  mkDFLT sdf_distribution sdf_swbis sdf_attr (L "rpm_buildarchs") 0 sdf_list sdf_PortableCharacterString sdf_yes (Some []);
  mkDFLT sdf_distribution sdf_swbis sdf_attr (L "rpmversion") 32 sdf_single_value sdf_PortableCharacterString sdf_no None;
  mkDFLT sdf_distribution sdf_POSIX_7_2 sdf_objs (L "media") 0 sdf_list sdf_not_set sdf_yes (Some []);
  mkDFLT sdf_distribution sdf_POSIX_7_2 sdf_objs (L "bundle") 0 sdf_list sdf_ListofSoftware_specs sdf_yes (Some []);
  mkDFLT sdf_distribution sdf_POSIX_7_2 sdf_objs (L "product") 0 sdf_list sdf_ListofSoftware_specs sdf_yes (Some []);
  mkDFLT sdf_distribution sdf_POSIX_7_2 SWDEFFILE (L "INDEX") 0 sdf_single_value sdf_PortableCharacterString sdf_no None;
  mkDFLT sdf_distribution sdf_POSIX_7_2 SWDEFFILE (L "INFO") 0 sdf_single_value sdf_PortableCharacterString sdf_no None;
  mkDFLT sdf_installed_software sdf_POSIX_7_2 sdf_objs (L "installed_software") 0 sdf_single_value sdf_PortableCharacterString sdf_yes (Some []);
  mkDFLT sdf_installed_software sdf_POSIX_7_2 sdf_id (L "path") 0 sdf_single_value sdf_PortableCharacterString sdf_yes (Some []);
  mkDFLT sdf_installed_software sdf_POSIX_7_2 sdf_id (L "catalog") 0 sdf_single_value sdf_PortableCharacterString sdf_no None;
  mkDFLT sdf_installed_software sdf_POSIX_7_2 sdf_attr (L "dfiles") 64 sdf_single_value sdf_FilenameCharacterString sdf_yes (Some (L "dfiles"));
  mkDFLT sdf_installed_software sdf_POSIX_7_2 sdf_attr (L "layout_version") 64 sdf_single_value sdf_not_set sdf_yes (Some (L "1.0"));
  mkDFLT sdf_installed_software sdf_POSIX_7_2 sdf_attr (L "pfiles") 64 sdf_single_value sdf_FilenameCharacterString sdf_yes (Some (L "pfiles"));
  mkDFLT sdf_installed_software sdf_swbis sdf_attr (L "install_time") 32 sdf_single_value sdf_PortableCharacterString sdf_yes (Some []);
  mkDFLT sdf_installed_software sdf_POSIX_7_2 sdf_objs (L "bundle") 0 sdf_list sdf_ListofSoftware_specs sdf_yes (Some []);
  mkDFLT sdf_installed_software sdf_POSIX_7_2 SWDEFFILE (L "INDEX") 0 sdf_single_value sdf_PortableCharacterString sdf_no None;
  mkDFLT sdf_installed_software sdf_POSIX_7_2 SWDEFFILE (L "INFO") 0 sdf_single_value sdf_PortableCharacterString sdf_no None;
  mkDFLT sdf_media sdf_POSIX_7_2 sdf_objs (L "media") 64 sdf_single_value sdf_PortableCharacterString sdf_yes (Some (L "1"));
  mkDFLT sdf_media sdf_POSIX_7_2 sdf_id (L "sequence_number") 64 sdf_single_value sdf_PortableCharacterString sdf_yes (Some (L "1"));
  mkDFLT sdf_vendor sdf_POSIX_7_2 sdf_objs (L "vendor") 64 sdf_single_value sdf_FilenameCharacterString sdf_yes (Some []);
  mkDFLT sdf_vendor sdf_POSIX_7_2 sdf_id (L "tag") 64 sdf_single_value sdf_FilenameCharacterString sdf_yes (Some []);
  mkDFLT sdf_vendor sdf_POSIX_7_2 sdf_attr (L "title") 256 sdf_single_value sdf_PortableCharacterString sdf_yes (Some []);
  mkDFLT sdf_vendor sdf_POSIX_7_2 sdf_attr (L "description") 0 sdf_single_value sdf_PortableCharacterString sdf_yes (Some []);
  mkDFLT sdf_vendor sdf_swbis sdf_attr (L "qualifier") 0 sdf_single_value sdf_not_set sdf_no (Some []);
  mkDFLT sdf_category XDSA_C701 sdf_objs (L "category") 64 sdf_single_value sdf_FilenameCharacterString sdf_yes (Some []);
  mkDFLT sdf_category XDSA_C701 sdf_id (L "tag") 64 sdf_single_value sdf_FilenameCharacterString sdf_no (Some []);
  mkDFLT sdf_category XDSA_C701 sdf_attr (L "title") 256 sdf_single_value sdf_PortableCharacterString sdf_yes (Some []);
  mkDFLT sdf_category XDSA_C701 sdf_attr (L "description") 0 sdf_single_value sdf_PortableCharacterString sdf_yes (Some []);
  mkDFLT sdf_category XDSA_C701 sdf_attr (L "revision") 0 sdf_single_value sdf_PortableCharacterString sdf_yes (Some []);
  mkDFLT sdf_product sdf_POSIX_7_2 sdf_objs (L "product") 64 sdf_single_value sdf_FilenameCharacterString sdf_yes (Some []);
  mkDFLT sdf_product sdf_POSIX_7_2 sdf_id (L "tag") 64 sdf_single_value sdf_FilenameCharacterString sdf_yes (Some []);
  mkDFLT sdf_product sdf_POSIX_7_2 sdf_id (L "vendor_tag") 64 sdf_single_value sdf_PortableCharacterString sdf_yes (Some []);
  mkDFLT sdf_product sdf_POSIX_7_2 sdf_id (L "architecture") 64 sdf_single_value sdf_PortableCharacterString sdf_yes (Some []);
  mkDFLT sdf_product sdf_POSIX_7_2 sdf_id (L "location") 0 sdf_single_value sdf_FilenameCharacterString sdf_yes (Some (L "<product.directory>"));
  mkDFLT sdf_product sdf_POSIX_7_2 sdf_id (L "qualifier") 64 sdf_single_value sdf_PortableCharacterString sdf_yes (Some []);
  mkDFLT sdf_product sdf_POSIX_7_2 sdf_id (L "revision") 64 sdf_single_value sdf_PortableCharacterString sdf_yes (Some []);
  mkDFLT sdf_product sdf_POSIX_7_2 sdf_attr (L "all_filesets") 0 sdf_list sdf_not_set sdf_yes (Some []);
  mkDFLT sdf_product sdf_POSIX_7_2 sdf_attr (L "control_directory") 0 sdf_single_value sdf_FilenameCharacterString sdf_yes (Some (L "<product.tag>"));
  mkDFLT sdf_product sdf_swbis sdf_attr (L "copyrighters") 0 sdf_list sdf_PortableCharacterString sdf_yes (Some []);
  mkDFLT sdf_product sdf_swbis sdf_attr (L "build_root") 0 sdf_single_value sdf_PathnameCharacterString sdf_yes (Some (L "/"));
  mkDFLT sdf_product sdf_swbis sdf_attr (L "build_host") 0 sdf_single_value sdf_PathnameCharacterString sdf_no None;
  mkDFLT sdf_product sdf_POSIX_7_2 sdf_attr (L "copyright") 0 sdf_single_value sdf_PortableCharacterString sdf_yes (Some []);
  mkDFLT sdf_product sdf_POSIX_7_2 sdf_attr (L "create_time") 16 sdf_single_value sdf_IntegerCharacterString sdf_no None;
  mkDFLT sdf_product sdf_POSIX_7_2 sdf_attr (L "directory") 0 sdf_single_value sdf_PathnameCharacterString sdf_yes (Some (L "/"));
  mkDFLT sdf_product sdf_POSIX_7_2 sdf_attr (L "description") 0 sdf_single_value sdf_PortableCharacterString sdf_yes (Some []);
  mkDFLT sdf_product sdf_POSIX_7_2 sdf_attr (L "instance_id") 16 sdf_single_value sdf_FilenameCharacterString sdf_yes (Some (L "1"));
  mkDFLT sdf_product sdf_POSIX_7_2 sdf_attr (L "is_locatable") 8 sdf_single_value sdf_not_set sdf_yes (Some (L "true"));
  mkDFLT sdf_product sdf_POSIX_7_2 sdf_attr (L "layout_version") 64 sdf_single_value sdf_not_set sdf_yes (Some (L "1.0"));
  mkDFLT sdf_product sdf_POSIX_7_2 sdf_attr (L "postkernel") 0 sdf_single_value sdf_PathnameCharacterString sdf_IMDEF (Some []);
  mkDFLT sdf_product sdf_POSIX_7_2 sdf_attr (L "machine_type") 64 sdf_single_value sdf_SoftwarePatternMatchingString sdf_yes (Some []);
  mkDFLT sdf_product sdf_POSIX_7_2 sdf_attr (L "mod_time") 16 sdf_single_value sdf_IntegerCharacterString sdf_no None;
  mkDFLT sdf_product sdf_POSIX_7_2 sdf_attr (L "number") 64 sdf_single_value sdf_PortableCharacterString sdf_yes (Some []);
  mkDFLT sdf_product sdf_POSIX_7_2 sdf_attr (L "os_name") 64 sdf_single_value sdf_SoftwarePatternMatchingString sdf_yes (Some []);
  mkDFLT sdf_product sdf_POSIX_7_2 sdf_attr (L "os_release") 64 sdf_single_value sdf_SoftwarePatternMatchingString sdf_yes (Some []);
  mkDFLT sdf_product sdf_POSIX_7_2 sdf_attr (L "os_version") 64 sdf_single_value sdf_SoftwarePatternMatchingString sdf_yes (Some []);
  mkDFLT sdf_product sdf_POSIX_7_2 sdf_attr (L "size") 32 sdf_single_value sdf_IntegerCharacterString sdf_no (Some []);
  mkDFLT sdf_product sdf_POSIX_7_2 sdf_attr (L "title") 256 sdf_single_value sdf_PortableCharacterString sdf_yes (Some []);
  mkDFLT sdf_product sdf_swbis sdf_attr (L "source_package") 0 sdf_list sdf_PortableCharacterString sdf_yes (Some []);
  mkDFLT sdf_product sdf_swbis sdf_attr (L "sourcerpm") 0 sdf_list sdf_PortableCharacterString sdf_yes (Some []);
  mkDFLT sdf_product sdf_swbis sdf_attr (L "all_patches") 0 sdf_list sdf_PortableCharacterString sdf_yes (Some []);
  mkDFLT sdf_product sdf_swbis sdf_attr (L "url") 0 sdf_list sdf_PortableCharacterString sdf_yes (Some []);
  mkDFLT sdf_product sdf_swbis sdf_attr (L "rpm_provides") 0 sdf_list sdf_PortableCharacterString sdf_no (Some []);
  mkDFLT sdf_product sdf_swbis sdf_attr (L "change_log") 0 sdf_list sdf_PortableCharacterString sdf_no None;
  mkDFLT sdf_product XDSA_C701 sdf_attr (L "is_patch") 0 sdf_single_value sdf_PathnameCharacterString sdf_yes (Some (L "false"));
  mkDFLT sdf_product XDSA_C701 sdf_attr (L "category_tag") 0 sdf_list sdf_not_set sdf_yes (Some []);
  mkDFLT sdf_product sdf_POSIX_7_2 sdf_objs (L "control_file") 0 sdf_list sdf_not_set sdf_yes (Some []);
  mkDFLT sdf_product sdf_POSIX_7_2 sdf_objs (L "subproduct") 0 sdf_list sdf_not_set sdf_yes (Some []);
  mkDFLT sdf_product sdf_POSIX_7_2 sdf_objs (L "fileset") 0 sdf_list sdf_not_set sdf_yes (Some []);
  mkDFLT sdf_product sdf_POSIX_7_2 CONTROLFILE_EXT (L "checkinstall") 0 sdf_single_value sdf_ControlScript sdf_no None;
  mkDFLT sdf_product sdf_POSIX_7_2 CONTROLFILE_EXT (L "preinstall") 0 sdf_single_value sdf_ControlScript sdf_no None;
  mkDFLT sdf_product sdf_POSIX_7_2 CONTROLFILE_EXT (L "postinstall") 0 sdf_single_value sdf_ControlScript sdf_no None;
  mkDFLT sdf_product sdf_POSIX_7_2 CONTROLFILE_EXT (L "verify") 0 sdf_single_value sdf_ControlScript sdf_no None;
  mkDFLT sdf_product sdf_POSIX_7_2 CONTROLFILE_EXT (L "fix") 0 sdf_single_value sdf_ControlScript sdf_no None;
  mkDFLT sdf_product sdf_POSIX_7_2 CONTROLFILE_EXT (L "checkremove") 0 sdf_single_value sdf_ControlScript sdf_no None;
  mkDFLT sdf_product sdf_POSIX_7_2 CONTROLFILE_EXT (L "preremove") 0 sdf_single_value sdf_ControlScript sdf_no None;
  mkDFLT sdf_product sdf_POSIX_7_2 CONTROLFILE_EXT (L "postremove") 0 sdf_single_value sdf_ControlScript sdf_no None;
  mkDFLT sdf_product sdf_POSIX_7_2 CONTROLFILE_EXT (L "configure") 0 sdf_single_value sdf_ControlScript sdf_no None;
  mkDFLT sdf_product sdf_POSIX_7_2 CONTROLFILE_EXT (L "unconfigure") 0 sdf_single_value sdf_ControlScript sdf_no None;
  mkDFLT sdf_product sdf_POSIX_7_2 CONTROLFILE_EXT (L "request") 0 sdf_single_value sdf_ControlScript sdf_no None;
  mkDFLT sdf_product sdf_POSIX_7_2 CONTROLFILE_EXT (L "unpreinstall") 0 sdf_single_value sdf_ControlScript sdf_no None;
  mkDFLT sdf_product sdf_POSIX_7_2 CONTROLFILE_EXT (L "unpostinstall") 0 sdf_single_value sdf_ControlScript sdf_no None;
  mkDFLT sdf_product sdf_POSIX_7_2 CONTROLFILE_EXT (L "space") 0 sdf_single_value sdf_ControlScript sdf_no None;
  mkDFLT sdf_product sdf_POSIX_7_2 CONTROLFILE_EXT (L "control_file") 0 sdf_single_value sdf_ControlScript sdf_no None;
  mkDFLT sdf_product sdf_POSIX_7_2 SWDEFFILE (L "INFO") 0 sdf_single_value sdf_PortableCharacterString sdf_no None
].

Definition defaults_behind_product : list swsdflt_defaults := [
  mkDFLT sdf_bundle sdf_POSIX_7_2 sdf_objs (L "bundle") 64 sdf_single_value sdf_FilenameCharacterString sdf_yes (Some []);
  mkDFLT sdf_bundle sdf_POSIX_7_2 sdf_id (L "tag") 64 sdf_single_value sdf_FilenameCharacterString sdf_yes (Some []);
  mkDFLT sdf_bundle sdf_POSIX_7_2 sdf_id (L "vendor_tag") 64 sdf_single_value sdf_PortableCharacterString sdf_yes (Some []);
  mkDFLT sdf_bundle sdf_POSIX_7_2 sdf_id (L "architecture") 64 sdf_single_value sdf_PortableCharacterString sdf_yes (Some []);
  mkDFLT sdf_bundle sdf_POSIX_7_2 sdf_id (L "location") 0 sdf_single_value sdf_FilenameCharacterString sdf_yes (Some (L "<bundle.directory>"));
  mkDFLT sdf_bundle sdf_POSIX_7_2 sdf_id (L "qualifier") 64 sdf_single_value sdf_PortableCharacterString sdf_yes (Some []);
  mkDFLT sdf_bundle sdf_POSIX_7_2 sdf_id (L "revision") 64 sdf_single_value sdf_PortableCharacterString sdf_yes (Some []);
  mkDFLT sdf_bundle sdf_POSIX_7_2 sdf_attr (L "contents") 0 sdf_list sdf_ListofSoftware_specs sdf_yes (Some []);
  mkDFLT sdf_bundle sdf_POSIX_7_2 sdf_attr (L "copyright") 0 sdf_single_value sdf_PortableCharacterString sdf_yes (Some []);
  mkDFLT sdf_bundle sdf_POSIX_7_2 sdf_attr (L "create_time") 16 sdf_single_value sdf_IntegerCharacterString sdf_no None;
  mkDFLT sdf_bundle sdf_POSIX_7_2 sdf_attr (L "directory") 0 sdf_single_value sdf_PathnameCharacterString sdf_yes (Some []);
  mkDFLT sdf_bundle sdf_POSIX_7_2 sdf_attr (L "description") 0 sdf_single_value sdf_PortableCharacterString sdf_yes (Some []);
  mkDFLT sdf_bundle sdf_POSIX_7_2 sdf_attr (L "instance_id") 16 sdf_single_value sdf_FilenameCharacterString sdf_yes (Some (L "1"));
  mkDFLT sdf_bundle sdf_POSIX_7_2 sdf_attr (L "is_locatable") 8 sdf_single_value sdf_not_set sdf_yes (Some (L "true"));
  mkDFLT sdf_bundle sdf_POSIX_7_2 sdf_attr (L "machine_type") 64 sdf_single_value sdf_SoftwarePatternMatchingString sdf_yes (Some []);
  mkDFLT sdf_bundle sdf_POSIX_7_2 sdf_attr (L "mod_time") 16 sdf_single_value sdf_IntegerCharacterString sdf_no None;
  mkDFLT sdf_bundle sdf_POSIX_7_2 sdf_attr (L "number") 64 sdf_single_value sdf_PortableCharacterString sdf_yes (Some []);
  mkDFLT sdf_bundle sdf_POSIX_7_2 sdf_attr (L "os_name") 64 sdf_single_value sdf_SoftwarePatternMatchingString sdf_yes (Some []);
  mkDFLT sdf_bundle sdf_POSIX_7_2 sdf_attr (L "os_release") 64 sdf_single_value sdf_SoftwarePatternMatchingString sdf_yes (Some []);
  mkDFLT sdf_bundle sdf_POSIX_7_2 sdf_attr (L "os_version") 64 sdf_single_value sdf_SoftwarePatternMatchingString sdf_yes (Some []);
  mkDFLT sdf_bundle sdf_POSIX_7_2 sdf_attr (L "size") 32 sdf_single_value sdf_IntegerCharacterString sdf_no None;
  mkDFLT sdf_bundle sdf_POSIX_7_2 sdf_attr (L "title") 256 sdf_single_value sdf_PortableCharacterString sdf_yes (Some []);
  mkDFLT sdf_bundle XDSA_C701 sdf_attr (L "is_patch") 0 sdf_single_value sdf_PathnameCharacterString sdf_yes (Some (L "false"));
  mkDFLT sdf_bundle XDSA_C701 sdf_attr (L "category_tag") 0 sdf_list sdf_not_set sdf_yes (Some []);
  mkDFLT sdf_fileset sdf_POSIX_7_2 sdf_objs (L "fileset") 64 sdf_single_value sdf_FilenameCharacterString sdf_yes (Some []);
  mkDFLT sdf_fileset sdf_POSIX_7_2 sdf_id (L "tag") 64 sdf_single_value sdf_FilenameCharacterString sdf_yes (Some []);
  mkDFLT sdf_fileset sdf_swbis sdf_attr (L "vendor_tag") 64 sdf_single_value sdf_PortableCharacterString sdf_yes (Some []);
  mkDFLT sdf_fileset sdf_POSIX_7_2 sdf_attr (L "create_time") 16 sdf_single_value sdf_IntegerCharacterString sdf_no None;
  mkDFLT sdf_fileset sdf_POSIX_7_2 sdf_attr (L "description") 0 sdf_single_value sdf_PortableCharacterString sdf_yes (Some []);
  mkDFLT sdf_fileset sdf_POSIX_7_2 sdf_attr (L "mod_time") 16 sdf_single_value sdf_IntegerCharacterString sdf_no None;
  mkDFLT sdf_fileset sdf_POSIX_7_2 sdf_attr (L "size") 32 sdf_single_value sdf_IntegerCharacterString sdf_no None;
  mkDFLT sdf_fileset sdf_POSIX_7_2 sdf_attr (L "title") 256 sdf_single_value sdf_PortableCharacterString sdf_yes (Some []);
  mkDFLT sdf_fileset sdf_POSIX_7_2 sdf_attr (L "control_directory") 0 sdf_single_value sdf_FilenameCharacterString sdf_yes (Some (L "<fileset.tag>"));
  mkDFLT sdf_fileset sdf_POSIX_7_2 sdf_attr (L "corequisites") 0 sdf_list sdf_ListofDependency_specs sdf_yes (Some []);
  mkDFLT sdf_fileset sdf_POSIX_7_2 sdf_attr (L "exrequisites") 0 sdf_list sdf_ListofDependency_specs sdf_yes (Some []);
  mkDFLT sdf_fileset sdf_POSIX_7_2 sdf_attr (L "is_kernel") 8 sdf_single_value sdf_not_set sdf_yes (Some (L "false"));
  mkDFLT sdf_fileset sdf_POSIX_7_2 sdf_attr (L "is_locatable") 8 sdf_single_value sdf_not_set sdf_yes (Some (L "true"));
  mkDFLT sdf_fileset sdf_POSIX_7_2 sdf_attr (L "is_reboot") 8 sdf_single_value sdf_not_set sdf_yes (Some (L "false"));
  mkDFLT sdf_fileset XDSA_C701 sdf_attr (L "is_sparse") 0 sdf_single_value sdf_not_set sdf_yes (Some (L "false"));
  mkDFLT sdf_fileset sdf_POSIX_7_2 sdf_attr (L "location") 0 sdf_single_value sdf_PathnameCharacterString sdf_yes (Some (L "<product.directory>"));
  mkDFLT sdf_fileset sdf_POSIX_7_2 sdf_attr (L "media_sequence_number") 0 sdf_list sdf_not_set sdf_yes (Some (L "1"));
  mkDFLT sdf_fileset sdf_POSIX_7_2 sdf_attr (L "prerequisites") 0 sdf_list sdf_ListofDependency_specs sdf_yes (Some []);
  mkDFLT sdf_fileset sdf_POSIX_7_2 sdf_attr (L "revision") 64 sdf_single_value sdf_PortableCharacterString sdf_no None;
  mkDFLT sdf_fileset sdf_POSIX_7_2 sdf_attr (L "state") 16 sdf_single_value sdf_StateList sdf_no None;
  mkDFLT sdf_fileset sdf_swbis sdf_attr (L "rpm_flag") 0 sdf_list sdf_IntegerCharacterString sdf_yes (Some (L "0"));
  mkDFLT sdf_fileset sdf_swbis sdf_attr (L "exclusive_arch") 0 sdf_list sdf_PortableCharacterString sdf_no None;
  mkDFLT sdf_fileset sdf_swbis sdf_attr (L "exclude_arch") 0 sdf_list sdf_PortableCharacterString sdf_no None;
  mkDFLT sdf_fileset sdf_swbis sdf_attr (L "exclusive_os") 0 sdf_list sdf_PortableCharacterString sdf_no None;
  mkDFLT sdf_fileset sdf_swbis sdf_attr (L "exclude_os") 0 sdf_list sdf_PortableCharacterString sdf_no None;
  mkDFLT sdf_fileset sdf_POSIX_7_2 sdf_objs (L "control_file") 0 sdf_list sdf_not_set sdf_yes (Some []);
  mkDFLT sdf_fileset sdf_POSIX_7_2 sdf_objs (L "file") 0 sdf_list sdf_not_set sdf_yes (Some []);
  mkDFLT sdf_fileset sdf_POSIX_7_2 CONTROLFILE_EXT (L "checkinstall") 0 sdf_single_value sdf_ControlScript sdf_no None;
  mkDFLT sdf_fileset sdf_POSIX_7_2 CONTROLFILE_EXT (L "preinstall") 0 sdf_single_value sdf_ControlScript sdf_no None;
  mkDFLT sdf_fileset sdf_POSIX_7_2 CONTROLFILE_EXT (L "postinstall") 0 sdf_single_value sdf_ControlScript sdf_no None;
  mkDFLT sdf_fileset sdf_POSIX_7_2 CONTROLFILE_EXT (L "verify") 0 sdf_single_value sdf_ControlScript sdf_no None;
  mkDFLT sdf_fileset sdf_POSIX_7_2 CONTROLFILE_EXT (L "fix") 0 sdf_single_value sdf_ControlScript sdf_no None;
  mkDFLT sdf_fileset sdf_POSIX_7_2 CONTROLFILE_EXT (L "checkremove") 0 sdf_single_value sdf_ControlScript sdf_no None;
  mkDFLT sdf_fileset sdf_POSIX_7_2 CONTROLFILE_EXT (L "preremove") 0 sdf_single_value sdf_ControlScript sdf_no None;
  mkDFLT sdf_fileset sdf_POSIX_7_2 CONTROLFILE_EXT (L "postremove") 0 sdf_single_value sdf_ControlScript sdf_no None;
  mkDFLT sdf_fileset sdf_POSIX_7_2 CONTROLFILE_EXT (L "configure") 0 sdf_single_value sdf_ControlScript sdf_no None;
  mkDFLT sdf_fileset sdf_POSIX_7_2 CONTROLFILE_EXT (L "unconfigure") 0 sdf_single_value sdf_ControlScript sdf_no None;
  mkDFLT sdf_fileset sdf_POSIX_7_2 CONTROLFILE_EXT (L "request") 0 sdf_single_value sdf_ControlScript sdf_no None;
  mkDFLT sdf_fileset sdf_POSIX_7_2 CONTROLFILE_EXT (L "unpreinstall") 0 sdf_single_value sdf_ControlScript sdf_no None;
  mkDFLT sdf_fileset sdf_POSIX_7_2 CONTROLFILE_EXT (L "unpostinstall") 0 sdf_single_value sdf_ControlScript sdf_no None;
  mkDFLT sdf_fileset sdf_POSIX_7_2 CONTROLFILE_EXT (L "space") 0 sdf_single_value sdf_ControlScript sdf_no None;
  mkDFLT sdf_fileset sdf_POSIX_7_2 CONTROLFILE_EXT (L "control_file") 0 sdf_single_value sdf_ControlScript sdf_no None;
  mkDFLT sdf_fileset sdf_POSIX_7_2 SWDEFFILE (L "INFO") 0 sdf_single_value sdf_PortableCharacterString sdf_no None;
  mkDFLT sdf_fileset XDSA_C701 sdf_attr (L "is_patch") 0 sdf_single_value sdf_PathnameCharacterString sdf_yes (Some (L "false"));
  mkDFLT sdf_fileset XDSA_C701 sdf_attr (L "category_tag") 0 sdf_list sdf_not_set sdf_yes (Some []);
  mkDFLT sdf_fileset XDSA_C701 sdf_attr (L "ancestor") 0 sdf_list sdf_ListofSoftware_specs sdf_yes (Some (L "<product.tag>"));
  mkDFLT sdf_fileset XDSA_C701 sdf_attr (L "applied_patches") 0 sdf_list sdf_ListofSoftware_specs sdf_yes (Some []);
  mkDFLT sdf_fileset XDSA_C701 sdf_attr (L "patch_state") 16 sdf_list sdf_not_set sdf_no (Some []);
  mkDFLT sdf_fileset XDSA_C701 sdf_attr (L "saved_files_directory") 0 sdf_single_value sdf_PathnameCharacterString sdf_no (Some []);
  mkDFLT sdf_fileset XDSA_C701 sdf_attr (L "supersedes") 0 sdf_list sdf_ListofSoftware_specs sdf_no (Some []);
  mkDFLT sdf_subproduct sdf_POSIX_7_2 sdf_objs (L "subproduct") 64 sdf_single_value sdf_FilenameCharacterString sdf_yes (Some []);
  mkDFLT sdf_subproduct sdf_POSIX_7_2 sdf_id (L "tag") 64 sdf_single_value sdf_FilenameCharacterString sdf_yes (Some []);
  mkDFLT sdf_subproduct sdf_POSIX_7_2 sdf_attr (L "create_time") 16 sdf_single_value sdf_IntegerCharacterString sdf_no None;
  mkDFLT sdf_subproduct sdf_POSIX_7_2 sdf_attr (L "description") 0 sdf_single_value sdf_PortableCharacterString sdf_yes (Some []);
  mkDFLT sdf_subproduct sdf_POSIX_7_2 sdf_attr (L "mod_time") 16 sdf_single_value sdf_IntegerCharacterString sdf_no None;
  mkDFLT sdf_subproduct sdf_POSIX_7_2 sdf_attr (L "size") 32 sdf_single_value sdf_IntegerCharacterString sdf_no None;
  mkDFLT sdf_subproduct sdf_POSIX_7_2 sdf_attr (L "title") 256 sdf_single_value sdf_PortableCharacterString sdf_yes (Some []);
  mkDFLT sdf_subproduct sdf_POSIX_7_2 sdf_attr (L "contents") 0 sdf_list sdf_not_set sdf_yes (Some []);
  mkDFLT sdf_subproduct XDSA_C701 sdf_attr (L "is_patch") 0 sdf_single_value sdf_PathnameCharacterString sdf_yes (Some (L "false"));
  mkDFLT sdf_subproduct XDSA_C701 sdf_attr (L "category_tag") 0 sdf_list sdf_not_set sdf_yes (Some []);
  mkDFLT sdf_file sdf_POSIX_7_2 sdf_objs (L "file") 0 sdf_single_value sdf_PathnameCharacterString sdf_no None;
  mkDFLT sdf_file sdf_POSIX_7_2 sdf_id (L "path") 0 sdf_single_value sdf_PathnameCharacterString sdf_no None;
  mkDFLT sdf_file sdf_POSIX_7_2 sdf_attr (L "chksum") 16 sdf_single_value sdf_IntegerCharacterString sdf_no None;
  mkDFLT sdf_file sdf_swbis sdf_attr (L "chksum_md5") 32 sdf_single_value sdf_PortableCharacterString sdf_yes (Some []);
  mkDFLT sdf_file sdf_POSIX_7_2 sdf_attr (L "compressed_chksum") 16 sdf_single_value sdf_IntegerCharacterString sdf_no None;
  mkDFLT sdf_file sdf_POSIX_7_2 sdf_attr (L "compressed_size") 16 sdf_single_value sdf_IntegerCharacterString sdf_no None;
  mkDFLT sdf_file sdf_POSIX_7_2 sdf_attr (L "compression_state") 16 sdf_single_value sdf_not_set sdf_yes (Some (L "uncompressed"));
  mkDFLT sdf_file sdf_POSIX_7_2 sdf_attr (L "compression_type") 64 sdf_single_value sdf_FilenameCharacterString sdf_yes (Some []);
  mkDFLT sdf_file sdf_POSIX_7_2 sdf_attr (L "revision") 64 sdf_single_value sdf_PortableCharacterString sdf_yes (Some []);
  mkDFLT sdf_file sdf_POSIX_7_2 sdf_attr (L "size") 16 sdf_single_value sdf_IntegerCharacterString sdf_no None;
  mkDFLT sdf_file sdf_POSIX_7_2 sdf_attr (L "source") 0 sdf_single_value sdf_PathnameCharacterString sdf_no None;
  mkDFLT sdf_file sdf_POSIX_7_2 sdf_attr (L "gid") 16 sdf_single_value sdf_IntegerCharacterString sdf_no (Some (L "sdf_undefined"));
  mkDFLT sdf_file sdf_POSIX_7_2 sdf_attr (L "group") 0 sdf_single_value sdf_FilenameCharacterString sdf_yes (Some []);
  mkDFLT sdf_file sdf_POSIX_7_2 sdf_attr (L "is_volatile") 8 sdf_single_value sdf_not_set sdf_yes (Some (L "false"));
  mkDFLT sdf_file sdf_POSIX_7_2 sdf_attr (L "link_source") 0 sdf_single_value sdf_PathnameCharacterString sdf_no None;
  mkDFLT sdf_file sdf_swbis sdf_attr (L "rdev") 16 sdf_single_value sdf_PortableCharacterString sdf_no None;
  mkDFLT sdf_file sdf_POSIX_7_2 sdf_attr (L "major") 16 sdf_single_value sdf_PortableCharacterString sdf_no None;
  mkDFLT sdf_file sdf_POSIX_7_2 sdf_attr (L "minor") 16 sdf_single_value sdf_PortableCharacterString sdf_no None;
  mkDFLT sdf_file sdf_POSIX_7_2 sdf_attr (L "mode") 16 sdf_single_value sdf_OctalCharacterString sdf_no None;
  mkDFLT sdf_file sdf_POSIX_7_2 sdf_attr (L "mtime") 16 sdf_single_value sdf_IntegerCharacterString sdf_no None;
  mkDFLT sdf_file sdf_POSIX_7_2 sdf_attr (L "owner") 0 sdf_single_value sdf_FilenameCharacterString sdf_yes (Some []);
  mkDFLT sdf_file sdf_POSIX_7_2 sdf_attr (L "type") 8 sdf_single_value sdf_not_set sdf_yes (Some (L "f"));
  mkDFLT sdf_file sdf_POSIX_7_2 sdf_attr (L "uid") 16 sdf_single_value sdf_IntegerCharacterString sdf_no None;
  mkDFLT sdf_file sdf_swbis sdf_attr (L "rpm_fileflags") 16 sdf_single_value sdf_IntegerCharacterString sdf_no None;
  mkDFLT sdf_file XDSA_C701 sdf_attr (L "archive_path") 0 sdf_single_value sdf_PathnameCharacterString sdf_yes (Some []);
  mkDFLT sdf_control_file sdf_POSIX_7_2 sdf_objs (L "control_file") 64 sdf_single_value sdf_FilenameCharacterString sdf_yes (Some []);
  mkDFLT sdf_control_file sdf_POSIX_7_2 sdf_id (L "tag") 64 sdf_single_value sdf_FilenameCharacterString sdf_yes (Some []);
  mkDFLT sdf_control_file sdf_POSIX_7_2 sdf_attr (L "chksum") 16 sdf_single_value sdf_IntegerCharacterString sdf_no None;
  mkDFLT sdf_control_file sdf_swbis sdf_attr (L "chksum_md5") 32 sdf_single_value sdf_PortableCharacterString sdf_yes (Some []);
  mkDFLT sdf_control_file sdf_POSIX_7_2 sdf_attr (L "compressed_chksum") 16 sdf_single_value sdf_IntegerCharacterString sdf_no None;
  mkDFLT sdf_control_file sdf_POSIX_7_2 sdf_attr (L "compressed_size") 16 sdf_single_value sdf_IntegerCharacterString sdf_no None;
  mkDFLT sdf_control_file sdf_POSIX_7_2 sdf_attr (L "compression_state") 16 sdf_single_value sdf_not_set sdf_yes (Some (L "uncompressed"));
  mkDFLT sdf_control_file sdf_POSIX_7_2 sdf_attr (L "compression_type") 64 sdf_single_value sdf_FilenameCharacterString sdf_yes (Some []);
  mkDFLT sdf_control_file sdf_swbis sdf_attr (L "contents") 0 sdf_single_value sdf_PortableCharacterString sdf_no None;
  mkDFLT sdf_control_file sdf_POSIX_7_2 sdf_attr (L "revision") 64 sdf_single_value sdf_PortableCharacterString sdf_yes (Some []);
  mkDFLT sdf_control_file sdf_POSIX_7_2 sdf_attr (L "size") 16 sdf_single_value sdf_IntegerCharacterString sdf_no None;
  mkDFLT sdf_control_file sdf_POSIX_7_2 sdf_attr (L "source") 0 sdf_single_value sdf_PathnameCharacterString sdf_no None;
  mkDFLT sdf_control_file sdf_POSIX_7_2 sdf_attr (L "interpreter") 0 sdf_single_value sdf_FilenameCharacterString sdf_yes (Some (L "sh"));
  mkDFLT sdf_control_file sdf_POSIX_7_2 sdf_attr (L "path") 0 sdf_single_value sdf_FilenameCharacterString sdf_no None;
  mkDFLT sdf_control_file sdf_POSIX_7_2 sdf_attr (L "result") 0 sdf_single_value sdf_not_set sdf_yes (Some (L "none"));
  mkDFLT sdf_END sdf_this_implementation sdf_attr (L "_END") 0 sdf_single_value sdf_PathnameCharacterString sdf_no None
].

Definition swsdflt_arr : list swsdflt_defaults := defaults_to_product ++ defaults_behind_product.

(** ** The look-ups *)

(** NULL matches every object or keyword. *)
Definition entry_matches (object keyw : option bytes) (e : swsdflt_defaults) : bool :=
  (match object with Some o => strcmp o (swsdflts_objects (object_keywordM e)) =? 0 | None => true end)
  && (match keyw with Some k => strcmp k (keyword e) =? 0 | None => true end).

(** The index of the first entry of the list that matches. *)
Fixpoint first_entry (object keyw : option bytes) (list : list swsdflt_defaults) : option nat :=
  match list with
  | [] => None
  | e :: list => if entry_matches object keyw e then Some O else S <$> first_entry object keyw list
  end.

Definition swsdflt_return_entry (object keyw : option bytes) : option swsdflt_defaults :=
  i ← first_entry object keyw swsdflt_arr; swsdflt_arr !! i.

Definition swsdflt_get_attr_group (object_keyword keyw : bytes) : Z :=
  match swsdflt_return_entry (Some object_keyword) (Some keyw) with
  | Some e => group_code (group e)
  | None => group_code sdf_not_found
  end.

Definition swsdflt_is_sw_keyword (object keyw : bytes) : Z :=
  match swsdflt_return_entry (Some object) (Some keyw) with Some _ => 1 | None => 0 end.

(** The first index where nothing matches. *)
Definition swsdflt_return_entry_index (object keyw : option bytes) : Z :=
  match first_entry object keyw swsdflt_arr with Some i => Z.of_nat i | None => 0 end.

Definition index_of_END : Z := swsdflt_return_entry_index (Some (L "_END")) (Some (L "_END")).

(** A negative index is outside the table. *)
Definition swsdflt_return_entry_group (entry_index : Z) : option Z :=
  if index_of_END <=? entry_index then Some (-1)
  else e ← arr_read swsdflt_arr entry_index; Some (group_code (group e)).

Definition swsdflt_return_entry_keyword (entry_index : Z) : option (option bytes) :=
  if index_of_END <=? entry_index then Some None
  else e ← arr_read swsdflt_arr entry_index; Some (Some (keyword e)).

(** The getters take NULL. *)
Definition swsdflt_get_keyword (swd : option swsdflt_defaults) : option bytes := keyword <$> swd.
Definition swsdflt_get_value_type (swd : option swsdflt_defaults) : Z :=
  match swd with Some e => value_type_code (value_type e) | None => -1 end.
Definition swsdflt_get_has_default_value (swd : option swsdflt_defaults) : Z :=
  match swd with Some e => has_default_code (has_default_value e) | None => -1 end.
Definition swsdflt_get_default_value_by_ent (swd : option swsdflt_defaults) : option bytes := e ← swd; value e.

(** "object.keyword" in the first argument goes before the second; the dot is
    put back. *)
Definition swsdflt_get_default_value (object keyw : bytes) : option bytes :=
  let ent := match strchr object "." with
             | Some i => swsdflt_return_entry (Some (take i object)) (Some (drop (S i) object))
             | None => swsdflt_return_entry (Some object) (Some keyw)
             end in
  e ← ent; value e.
