(* ===== verification/MetaLine.v ===== *)
(** * Lines of parsed metadata (swsupplib/misc/swheaderline.c and swheaderline1.c)

    The parser writes one line per object or attribute,

      <length of the value> <type><level, two digits> <keyword> <value>

    and the whole output is kept in one object, the image.  A line is the offset
    of its first byte.  The getters cut the image up as they go: they write a NUL
    behind the keyword and behind the value. *)

From S2P Require Import Prelude CString Decimals Strob Escape Effects.
Local Open Scope effects_scope.

Definition SWPARSE_MKUP_LEN_WIDTH : Z := 4.
Definition SWPARSE_MD_TYPE_ATT : ascii := "A"%char.
Definition SWPARSE_MD_TYPE_EXT : ascii := "E"%char.
Definition SWPARSE_MD_TYPE_OBJ : ascii := "O"%char.
Definition SWPARSE_MD_TYPE_FILEREF : ascii := "F"%char.

(** The image. *)
Abbreviation Img := (ST bytes).

(** *p and *p = c *)
Definition peek (p : Z) : Img ascii := reads (fun m => mem_read m p).
Definition poke (p : Z) (c : ascii) : Img () := updates (fun m => mem_write m p [c]).

(** while (test ( *t)) t++ *)
Definition skip_while (test : ascii -> bool) (t : Z) : Img Z :=
  reads (fun m => s ← mem_at m t; i ← find_index (fun c => negb (test c)) s; Some (t + Z.of_nat i)).

(** strlen (p) *)
Definition strlen_of (p : Z) : Img Z := reads (fun m => strlen_at m p).

(** One of the four types that lines of a certain form start with. *)
Definition is_md_type (c : ascii) : bool :=
  ceq c SWPARSE_MD_TYPE_ATT || ceq c SWPARSE_MD_TYPE_OBJ || ceq c SWPARSE_MD_TYPE_EXT || ceq c SWPARSE_MD_TYPE_FILEREF.

Definition swheaderline_get_type_pointer (output_line : Z) : Img (option Z) :=
  let! c := peek output_line in
  if isdigit c then
    let! d := peek (output_line + SWPARSE_MKUP_LEN_WIDTH) in
    if ceq d " " then ret (Some (output_line + SWPARSE_MKUP_LEN_WIDTH + 1))
    else
      let! t := skip_while isdigit output_line in
      let! d := peek t in
      if negb (ceq d " ") then ret None
      else
        let! e := peek (t + 1) in
        if is_md_type e then ret (Some (t + 1)) else ret None
  else ret (Some output_line).

(** NUL when there is no type. *)
Definition swheaderline_get_type (output_line : Z) : Img ascii :=
  let! p := swheaderline_get_type_pointer output_line in
  match p with Some p => peek p | None => ret NUL end.

(** The value of a [char] as an [int]. *)
Definition schar (c : ascii) : Z := if uchar c <? 128 then uchar c else uchar c - 256.

Definition swheaderline_get_level (outputline : Z) : Img Z :=
  let! typep := swheaderline_get_type_pointer outputline in
  match typep with
  | None => exit_process
  | Some typep => let! c := peek (typep + 2) in ret (schar c - 48)
  end.

(** The keyword in front of which [t] points to the type; it is terminated. *)
Definition keyword_at (t : Z) : Img (option Z) :=
  let! r := skip_while isspace (t + 3) in
  let! e := skip_while (fun c => negb (is_nul c) && negb (isspace c)) r in
  do! poke e NUL in
  ret (Some r).

Definition swheaderline_get_keyword (output_line : Z) : Img (option Z) :=
  let! c := peek output_line in
  let t := if isdigit c then output_line + SWPARSE_MKUP_LEN_WIDTH + 1 else output_line in
  let! e := peek t in
  if is_md_type e then keyword_at t
  else
    let! t := swheaderline_get_type_pointer output_line in
    match t with None => ret None | Some t => keyword_at t end.

Definition MAGNITUDE_ARRAY_LEN : Z := 10.

(** The digits from the left, the first of [i] with the weight 10^(i-1); a
    character that is no digit is reported and counted all the same. *)
Fixpoint sum_digits (s : bytes) (i n : Z) : option (outcome Z) :=
  match s with
  | [] => Some (Returns n)
  | c :: r => if i >=? MAGNITUDE_ARRAY_LEN then Some Fatal
              else sum_digits r (i - 1) (n + (schar c - 48) * 10 ^ (i - 1))
  end.

Definition swheaderline_get_value_length (output_line : Z) : Img Z :=
  let! c := peek output_line in
  if negb (isdigit c) then ret (-1)
  else
    let! t := skip_while (fun c => negb (is_nul c) && negb (isspace c)) output_line in
    fun m =>
      s ← mem_at m output_line;
      let digits := take (Z.to_nat (t - output_line)) s in
      n ← sum_digits digits (t - output_line) 0;
      Some (in_state m n).

(** The value and, where it is set, *value_len. *)
Definition get_value (output_line : Z) (do_terminate : bool) : Img (option (Z * Z)) :=
  let! k := swheaderline_get_keyword output_line in
  match k with
  | None => ret None
  | Some k =>
      let! ty := swheaderline_get_type output_line in
      if ceq ty SWPARSE_MD_TYPE_OBJ then let! n := strlen_of k in ret (Some (k + n, 0))
      else
        let! len := swheaderline_get_value_length output_line in
        let! n := strlen_of k in
        do! when do_terminate (poke (k + n + 1 + len) NUL) in
        let! n := strlen_of k in
        ret (Some (k + n + 1, len))
  end.

Definition swheaderline_get_value_pointer (output_line : Z) := get_value output_line false.
Definition swheaderline_get_value (output_line : Z) := get_value output_line true.

(** The copy is an object of its own. *)
Definition swheaderline_strdup (outputline : Z) : Img bytes :=
  let! v := swheaderline_get_value outputline in
  match v with
  | None => undef
  | Some (value, value_length) =>
      let len := value - outputline + value_length + 1 in
      reads (fun m => s ← mem_at m outputline;
                      if (0 <=? len) && (len + 1 <=? zlen s) then Some (take (Z.to_nat (len + 1)) s) else None)
  end.

(** The flag of an object line. *)
Definition swheaderline_set_flag1 (output_line : Z) : Img () := poke (output_line + 1) "0".
Definition swheaderline_clear_flag1 (output_line : Z) : Img () := poke (output_line + 1) " ".
Definition swheaderline_get_flag1 (output_line : Z) : Img Z :=
  let! c := peek (output_line + 1) in ret (if ceq c " " then 0 else 1).

(** snprintf with %02d into 4 bytes, of which two are copied. *)
Definition swheaderline_set_level (outputline level : Z) : Img () :=
  let! p := swheaderline_get_type_pointer outputline in
  match p with
  | None => ret ()
  | Some p => updates (fun m => mem_write m (p + 1) (take 2 (print_02d level)))
  end.

(** ** A line as the parser writes it *)

Example line_of_an_attribute :
  let image := L "12   A02 path ./autogen.sh" ++ ["010"%char; NUL] in
  (let! k := swheaderline_get_keyword 0 in let! v := swheaderline_get_value 0 in
   let! l := swheaderline_get_level 0 in let! t := swheaderline_get_type 0 in ret (k, v, l, t)) image
  = Some (Done (L "12   A02 path" ++ [NUL] ++ L "./autogen.sh" ++ [NUL; NUL]) (Some 9, Some (14, 12), 2, "A"%char)).
Proof. vm_compute. reflexivity. Qed.
