(* ===== verification/Utf8.v ===== *)
(** * Validity of UTF-8 (utf8_valid of swsupplib/sw_parse/swparse_supp.c)

    The automaton of RFC 2640 that the writer of metadata runs over every value,
    and what it accepts: the encodings of the numbers below 2^31, each in its
    shortest form. *)

From S2P Require Import Prelude CString.

(** ** The code *)

Definition has_bits (c mask : Z) : bool := negb (Z.land c mask =? 0).

(** byte2mask and trailing after a byte, [None] for return 0. *)
Definition utf8_lead (c : Z) : option (Z * Z) :=
  if Z.land c 128 =? 0 then Some (0, 0)
  else if Z.land c 224 =? 192 then if has_bits c 30 then Some (0, 1) else None
  else if Z.land c 240 =? 224 then Some (if has_bits c 15 then 0 else 32, 2)
  else if Z.land c 248 =? 240 then Some (if has_bits c 7 then 0 else 48, 3)
  else if Z.land c 252 =? 248 then Some (if has_bits c 3 then 0 else 56, 4)
  else if Z.land c 254 =? 252 then Some (if has_bits c 1 then 0 else 60, 5)
  else None.

Definition utf8_step (byte2mask trailing c : Z) : option (Z * Z) :=
  if negb (trailing =? 0) then
    if Z.land c 192 =? 128 then
      if negb (byte2mask =? 0) then if has_bits c byte2mask then Some (0, trailing - 1) else None
      else Some (byte2mask, trailing - 1)
    else None
  else utf8_lead c.

Fixpoint utf8_loop (buf : bytes) (byte2mask trailing : Z) : bool :=
  match buf with
  | [] => trailing =? 0
  | c :: buf => match utf8_step byte2mask trailing (uchar c) with
                | Some (byte2mask, trailing) => utf8_loop buf byte2mask trailing
                | None => false
                end
  end.

Definition utf8_valid (buf : bytes) : bool := utf8_loop buf 0 0.

(** ** The encodings *)

(** The [k] continuation bytes of a number, six bits each, the high ones first. *)
Fixpoint continuation (k : nat) (n : Z) : bytes :=
  match k with
  | O => []
  | S k => to_char (128 + n / 64 ^ Z.of_nat k mod 64) :: continuation k n
  end.

Definition lead_of (k : nat) : Z := match k with 0%nat => 0 | 1%nat => 192 | 2%nat => 224 | 3%nat => 240 | 4%nat => 248 | _ => 252 end.
Definition first_of (k : nat) : Z := match k with 0%nat => 0 | 1%nat => 2 ^ 7 | 2%nat => 2 ^ 11 | 3%nat => 2 ^ 16 | 4%nat => 2 ^ 21 | _ => 2 ^ 26 end.
Definition last_of (k : nat) : Z := match k with 5%nat => 2 ^ 31 | k => first_of (S k) end.

(** How many continuation bytes a number needs at least. *)
Definition length_for (n : Z) : nat :=
  if n <? 2 ^ 7 then 0%nat else if n <? 2 ^ 11 then 1%nat else if n <? 2 ^ 16 then 2%nat
  else if n <? 2 ^ 21 then 3%nat else if n <? 2 ^ 26 then 4%nat else 5%nat.

Definition encode_with (k : nat) (n : Z) : bytes := to_char (lead_of k + n / 64 ^ Z.of_nat k) :: continuation k n.
Definition utf8_encode (n : Z) : bytes := encode_with (length_for n) n.

Definition code_point (n : Z) : Prop := 0 <= n < 2 ^ 31.

(** ** The automaton by ranges *)

Definition all_bytes : list Z := Z.of_nat <$> seq 0 256.

Lemma byte_cases (P : Z -> bool) : forallb P all_bytes = true -> forall c, 0 <= c < 256 -> P c = true.
Proof.
  intros H c Hc. rewrite forallb_forall in H. apply H. apply list_elem_of_In, list_elem_of_fmap.
  exists (Z.to_nat c). split; [lia|]. apply elem_of_seq. lia.
Qed.

(** What a first byte says: the bound for the next byte, and how many follow. *)
Definition lead_range (c : Z) : option (Z * Z) :=
  if c <? 128 then Some (0, 0) else if c <? 194 then None
  else if c <? 224 then Some (0, 1)
  else if c <? 240 then Some (if c =? 224 then 32 else 0, 2)
  else if c <? 248 then Some (if c =? 240 then 48 else 0, 3)
  else if c <? 252 then Some (if c =? 248 then 56 else 0, 4)
  else if c <? 254 then Some (if c =? 252 then 60 else 0, 5)
  else None.

(** The smallest continuation byte that has a bit of the mask. *)
Definition mask_bound (mask : Z) : Z :=
  if mask =? 32 then 160 else if mask =? 48 then 144 else if mask =? 56 then 136 else if mask =? 60 then 132 else 128.

Definition step_range (mask trailing c : Z) : option (Z * Z) :=
  if negb (trailing =? 0) then
    if (mask_bound mask <=? c) && (c <? 192) then Some (0, trailing - 1) else None
  else lead_range c.

Lemma lead_by_range c : 0 <= c < 256 -> utf8_lead c = lead_range c.
Proof.
  intros Hc. apply (bool_decide_unpack (utf8_lead c = lead_range c)).
  assert (H : forall c, 0 <= c < 256 -> bool_decide (utf8_lead c = lead_range c) = true)
    by (apply byte_cases; vm_compute; reflexivity).
  by rewrite H.
Qed.

(** A continuation byte that satisfies the mask. *)
Definition continues (mask c : Z) : bool := (Z.land c 192 =? 128) && ((mask =? 0) || has_bits c mask).

Lemma continues_range mask c : mask ∈ [0; 32; 48; 56; 60] -> 0 <= c < 256 ->
  continues mask c = (mask_bound mask <=? c) && (c <? 192).
Proof.
  intros Hm Hc. apply eqb_true_iff.
  assert (H : forallb (fun mask => forallb (fun c => Bool.eqb (continues mask c) ((mask_bound mask <=? c) && (c <? 192))) all_bytes)
    [0; 32; 48; 56; 60] = true) by (vm_compute; reflexivity).
  rewrite forallb_forall in H. specialize (H mask ltac:(by apply list_elem_of_In)). by apply (byte_cases _ H).
Qed.

Lemma step_by_range mask t c : mask ∈ [0; 32; 48; 56; 60] -> 0 <= c < 256 -> utf8_step mask t c = step_range mask t c.
Proof.
  intros Hm Hc. unfold utf8_step, step_range. destruct (negb (t =? 0)); [|by apply lead_by_range].
  rewrite <- continues_range by done. unfold continues. destruct (Z.land c 192 =? 128); [|done].
  destruct (Z.eqb_spec mask 0) as [->|]; [done|]. cbn [negb andb orb]. by destruct (has_bits c mask).
Qed.

(** ** Encodings are accepted *)

Lemma loop_cons c s mask t : mask ∈ [0; 32; 48; 56; 60] ->
  utf8_loop (c :: s) mask t
  = match step_range mask t (uchar c) with Some (mask, t) => utf8_loop s mask t | None => false end.
Proof. intros Hm. cbn [utf8_loop]. by rewrite step_by_range by (done || apply uchar_range). Qed.

Lemma no_mask : 0 ∈ [0; 32; 48; 56; 60].
Proof. set_solver. Qed.

Lemma six_bits n : 0 <= n mod 64 < 64.
Proof. by apply Z.mod_pos_bound. Qed.

(** Six bits of a number, and their byte. *)
Definition sextet (n : Z) (k : nat) : Z := n / 64 ^ Z.of_nat k mod 64.

Lemma sextet_byte n k : uchar (to_char (128 + sextet n k)) = 128 + sextet n k.
Proof. pose proof (six_bits (n / 64 ^ Z.of_nat k)). rewrite uchar_to_char. unfold sextet. apply Z.mod_small. lia. Qed.

Lemma continuation_S k n : continuation (S k) n = to_char (128 + sextet n k) :: continuation k n.
Proof. done. Qed.

Lemma loop_continuation k n mask rest : mask ∈ [0; 32; 48; 56; 60] -> mask_bound mask <= 128 + sextet n k ->
  utf8_loop (continuation (S k) n ++ rest) mask (Z.of_nat (S k)) = utf8_loop rest 0 0.
Proof.
  revert mask. induction k as [|k IH]; intros mask Hm Hb; rewrite continuation_S; cbn [app];
    rewrite loop_cons by done; unfold step_range; rewrite sextet_byte.
  - pose proof (six_bits (n / 64 ^ Z.of_nat 0)). fold (sextet n 0) in *. ztest. done.
  - pose proof (six_bits (n / 64 ^ Z.of_nat (S k))). fold (sextet n (S k)) in *. ztest. cbn [negb andb].
    replace (Z.of_nat (S (S k)) - 1) with (Z.of_nat (S k)) by lia.
    apply (IH 0 no_mask). change (mask_bound 0) with 128. pose proof (six_bits (n / 64 ^ Z.of_nat k)). fold (sextet n k) in *. lia.
Qed.

(** The mask behind a first byte, by the number of bytes that follow. *)
Definition mask_of (k : nat) (c : Z) : Z :=
  if c =? lead_of k then match k with 2%nat => 32 | 3%nat => 48 | 4%nat => 56 | 5%nat => 60 | _ => 0 end else 0.

Lemma mask_of_known k c : mask_of k c ∈ [0; 32; 48; 56; 60].
Proof. unfold mask_of. destruct (c =? lead_of k); [|apply no_mask]. repeat (destruct k as [|k]; [set_solver|]). set_solver. Qed.

(** The first bytes with [k] bytes behind them. *)
Definition lead_byte (k : nat) (c : Z) : Prop :=
  match k with
  | 0%nat => 0 <= c < 128 | 1%nat => 194 <= c < 224 | 2%nat => 224 <= c < 240
  | 3%nat => 240 <= c < 248 | 4%nat => 248 <= c < 252 | 5%nat => 252 <= c < 254 | _ => False
  end.

Lemma lead_range_of k c : lead_byte k c -> lead_range c = Some (mask_of k c, Z.of_nat k).
Proof.
  intros H. unfold lead_range, mask_of. do 6 (destruct k as [|k]; [cbn [lead_byte] in H; ztest; by destruct (c =? _)|]). done.
Qed.

Lemma lead_range_inv c mask t : 0 <= c -> lead_range c = Some (mask, t) -> exists k, lead_byte k c /\ mask = mask_of k c /\ t = Z.of_nat k.
Proof.
  intros Hc H. assert (Hk : exists k, lead_byte k c).
  { unfold lead_range in H.
    destruct (Z.ltb_spec c 128); [by exists 0%nat; cbn; lia|]. destruct (Z.ltb_spec c 194); [done|].
    destruct (Z.ltb_spec c 224); [exists 1%nat; cbn; lia|]. destruct (Z.ltb_spec c 240); [exists 2%nat; cbn; lia|].
    destruct (Z.ltb_spec c 248); [exists 3%nat; cbn; lia|]. destruct (Z.ltb_spec c 252); [exists 4%nat; cbn; lia|].
    destruct (Z.ltb_spec c 254); [exists 5%nat; cbn; lia|]. done. }
  destruct Hk as [k Hk]. exists k. split; [done|]. rewrite (lead_range_of k c Hk) in H. by simplify_eq.
Qed.

(** Numbers with [k] continuation bytes, and what the mask asks of the next byte. *)
Definition takes (k : nat) (n : Z) : Prop := (k <= 5)%nat /\ first_of k <= n < last_of k.
Definition mask_holds (k : nat) (c n : Z) : Prop :=
  match k with O => True | S j => mask_bound (mask_of k c) <= 128 + sextet n j end.


Ltac powers :=
  repeat match goal with
  | |- context [?b ^ ?k] => let v := eval vm_compute in (b ^ k) in change (b ^ k) with v
  | H : context [?b ^ ?k] |- _ => let v := eval vm_compute in (b ^ k) in change (b ^ k) with v in H
  end.

Lemma takes_lead k n : takes k n ->
  lead_byte k (lead_of k + n / 64 ^ Z.of_nat k) /\ mask_holds k (lead_of k + n / 64 ^ Z.of_nat k) n.
Proof.
  intros [Hk Hn]. destruct k as [|[|[|[|[|[|k]]]]]]; [..|lia];
    cbn [first_of last_of lead_byte mask_holds] in *; unfold mask_of, sextet; cbn [lead_of];
    powers;
    (split; [Z.to_euclidean_division_equations; lia|]); [exact I|..];
    match goal with |- context [?a =? ?b] => destruct (Z.eqb_spec a b) end; unfold mask_bound; cbn [Z.eqb Pos.eqb]; Z.to_euclidean_division_equations; lia.
Qed.

Lemma lead_takes k c n : lead_byte k c -> 0 <= n < 64 ^ Z.of_nat k -> mask_holds k c n ->
  takes k ((c - lead_of k) * 64 ^ Z.of_nat k + n).
Proof.
  intros Hc Hn Hm. destruct k as [|[|[|[|[|[|k]]]]]]; [..|done];
    cbn [lead_byte mask_holds] in *; unfold takes; cbn [first_of last_of]; unfold mask_of, sextet in *; cbn [lead_of] in *;
    powers;
    (split; [lia|]); [lia|..];
    match goal with Hm : context [?a =? ?b] |- _ => destruct (Z.eqb_spec a b) end; unfold mask_bound in *; cbn [Z.eqb Pos.eqb] in *; Z.to_euclidean_division_equations; lia.
Qed.

Lemma takes_length k n : takes k n -> length_for n = k /\ code_point n.
Proof.
  intros [Hk Hn]. unfold length_for, code_point. destruct k as [|[|[|[|[|[|k]]]]]]; [..|lia];
    cbn [first_of last_of] in Hn; powers; (split; [ztest; reflexivity|lia]).
Qed.

Lemma code_point_takes n : code_point n -> takes (length_for n) n.
Proof.
  intros Hn. unfold length_for, takes, code_point in *. powers. repeat case_match; cbn [first_of last_of]; powers; lia.
Qed.

Lemma loop_first k c n rest : lead_byte k c -> mask_holds k c n ->
  utf8_loop (to_char c :: continuation k n ++ rest) 0 0 = utf8_loop rest 0 0.
Proof.
  intros Hc Hm. rewrite loop_cons by apply no_mask. unfold step_range. cbn [Z.eqb negb].
  assert (uchar (to_char c) = c) as ->.
  { rewrite uchar_to_char. apply Z.mod_small. destruct k as [|[|[|[|[|[|k]]]]]]; cbn [lead_byte] in Hc; lia. }
  rewrite (lead_range_of k c Hc). destruct k as [|k].
  - unfold mask_of. by destruct (c =? _).
  - by apply loop_continuation; [apply mask_of_known|].
Qed.

Lemma encoding_accepted n rest : code_point n -> utf8_loop (utf8_encode n ++ rest) 0 0 = utf8_loop rest 0 0.
Proof.
  intros Hn. apply code_point_takes in Hn. destruct (takes_lead _ _ Hn) as [Hc Hm].
  unfold utf8_encode, encode_with. cbn [app]. by apply loop_first.
Qed.

(** ** What is accepted is an encoding *)

Lemma sextet_low k j q n : (j < k)%nat -> sextet (q * 64 ^ Z.of_nat k + n) j = sextet n j.
Proof.
  intros Hj. unfold sextet. replace (Z.of_nat k) with (Z.of_nat (k - S j) + 1 + Z.of_nat j) by lia.
  rewrite !Z.pow_add_r by lia. rewrite Z.mul_assoc, Z.div_add_l by lia.
  rewrite Z.pow_1_r, Z.mul_assoc, Z.add_comm. apply Z.mod_add. done.
Qed.

Lemma continuation_low k j q n : (j <= k)%nat -> continuation j (q * 64 ^ Z.of_nat k + n) = continuation j n.
Proof.
  induction j as [|j IH]; intros Hj; [done|]. rewrite !continuation_S, sextet_low, IH by lia. done.
Qed.

Lemma sextet_top k x n : 0 <= x < 64 -> 0 <= n < 64 ^ Z.of_nat k -> sextet (x * 64 ^ Z.of_nat k + n) k = x.
Proof.
  intros Hx Hn. unfold sextet. rewrite Z.div_add_l by lia. rewrite Z.div_small, Z.add_0_r by lia. by apply Z.mod_small.
Qed.

Lemma accepted_continuation k s mask : mask ∈ [0; 32; 48; 56; 60] -> utf8_loop s mask (Z.of_nat (S k)) = true ->
  exists n rest, 0 <= n < 64 ^ Z.of_nat (S k) /\ mask_bound mask <= 128 + sextet n k
    /\ s = continuation (S k) n ++ rest /\ utf8_loop rest 0 0 = true.
Proof.
  revert s mask. induction k as [|k IH]; intros s mask Hm Hs; (destruct s as [|c s]; [by cbn [utf8_loop] in Hs|]);
    rewrite loop_cons in Hs by done; unfold step_range in Hs; ztest; cbn [negb] in Hs;
    (destruct ((mask_bound mask <=? uchar c) && (uchar c <? 192)) eqn:E; [|done]); zbool;
    assert (128 <= mask_bound mask) by (unfold mask_bound; repeat case_match; lia).
  - exists (uchar c - 128), s. rewrite continuation_S.
    assert (sextet (uchar c - 128) 0 = uchar c - 128) as ->.
    { unfold sextet. change (64 ^ Z.of_nat 0) with 1. rewrite Z.div_1_r. apply Z.mod_small. lia. }
    replace (128 + (uchar c - 128)) with (uchar c) by lia. rewrite to_char_uchar. split_and!; [lia|lia|lia|done|done].
  - replace (Z.of_nat (S (S k)) - 1) with (Z.of_nat (S k)) in Hs by lia.
    destruct (IH s 0 no_mask Hs) as (n & rest & Hn & _ & -> & Hr).
    exists ((uchar c - 128) * 64 ^ Z.of_nat (S k) + n), rest. rewrite (continuation_S (S k)).
    rewrite sextet_top, continuation_low by lia. replace (128 + (uchar c - 128)) with (uchar c) by lia. rewrite to_char_uchar.
    split_and!; [nia| |lia|done|done]. rewrite (Nat2Z.inj_succ (S k)), Z.pow_succ_r by lia. nia.
Qed.

Lemma accepted_first c s : utf8_loop (c :: s) 0 0 = true ->
  exists n rest, code_point n /\ c :: s = utf8_encode n ++ rest /\ utf8_loop rest 0 0 = true.
Proof.
  intros Hs. rewrite loop_cons in Hs by apply no_mask. unfold step_range in Hs. cbn [Z.eqb negb] in Hs.
  destruct (lead_range (uchar c)) as [[mask t]|] eqn:E; [|done]. pose proof (uchar_range c).
  apply lead_range_inv in E as (k & Hk & -> & ->); [|lia].
  assert (H' : exists n rest, 0 <= n < 64 ^ Z.of_nat k /\ mask_holds k (uchar c) n /\ s = continuation k n ++ rest /\ utf8_loop rest 0 0 = true).
  { destruct k as [|k].
    - exists 0, s. split_and!; [done|done|done|done|]. unfold mask_of in Hs. by destruct (_ =? _).
    - destruct (accepted_continuation k s _ (mask_of_known (S k) (uchar c)) Hs) as (n & rest & Hn & Hm & Es & Hr). by exists n, rest. }
  destruct H' as (n & rest & Hn & Hm & -> & Hr). pose proof (lead_takes k (uchar c) n Hk Hn Hm) as Ht.
  eexists _, rest. destruct (takes_length _ _ Ht) as [El Hcp]. split_and!; [exact Hcp| |done].
  unfold utf8_encode, encode_with. rewrite El, continuation_low by lia.
  rewrite Z.div_add_l by lia. rewrite Z.div_small by done.
  replace (lead_of k + (uchar c - lead_of k + 0)) with (uchar c) by lia. by rewrite to_char_uchar.
Qed.

(** C25: utf8_valid accepts exactly the concatenations of encodings of numbers
    below 2^31, each with the fewest bytes that hold it: no overlong form, no
    stray continuation byte and no cut sequence passes. *)
Theorem utf8_valid_iff_encoded s :
  utf8_valid s = true <-> exists cps, Forall code_point cps /\ s = concat (map utf8_encode cps).
Proof.
  unfold utf8_valid. split.
  - induction s as [s IH] using (induction_ltof1 _ (@length ascii)); unfold ltof in IH. destruct s as [|c s]; [by exists []|].
    intros Hs. destruct (accepted_first c s Hs) as (n & rest & Hn & E & Hr).
    destruct (IH rest) as (cps & Hc & ->); [|done|].
    { rewrite E, length_app. unfold utf8_encode, encode_with. cbn [length]. lia. }
    exists (n :: cps). split; [by constructor|done].
  - intros (cps & Hc & ->). induction Hc as [|n cps Hn _ IH]; [done|]. cbn [map concat]. by rewrite encoding_accepted.
Qed.

(** An overlong slash and a lone continuation byte; the euro sign. *)
Example utf8_examples :
  utf8_valid [to_char 192; to_char 175] = false /\ utf8_valid [to_char 128] = false
  /\ utf8_valid [to_char 226; to_char 130; to_char 172] = true.
Proof. vm_compute. done. Qed.
