(* ===== verification/MetaWrite.v ===== *)
(** * Writing metadata (swsupplib/misc/swdef.c, swsupplib/sw_parse/swparse_supp.c,
      swparse_supp1.c and swlex_supp.c)

    The parser writes every object and attribute through
    swparse_construct_attribute, in the form that swheaderline.c reads; swdef.c
    writes metadata files for users.  A descriptor is the bytes written to it,
    every write accepted. *)

From S2P Require Import Prelude CString Decimals Strob Pathname Escape Effects MetaLine Utf8.

Definition NEWLINE_CHAR : ascii := "010"%char.
Definition SPACE_CHAR : ascii := " "%char.

(** snprintf (buf, len, ...): the text that is in [buf] afterwards. *)
Definition snprintf_text (len : Z) (out : bytes) : bytes := take (Z.to_nat (len - 1)) out.

Section Writing.
Context `{Malloc}.

(** ** Metadata for users (swdef.c) *)

(** [sp] holds eight blanks and no NUL. *)
Definition swdef_write_keyword_to_buffer (ob : STROB) (keyword : bytes) (level : Z) (attribute_type : ascii) : option (STROB * Z) :=
  let level := if level >? 8 then 1 else level in
  ob ← (if level =? 0 then Some ob else if level <? 0 then None else strob_strncat ob (replicate 8 SPACE_CHAR) level);
  ob ← strob_strcat ob keyword;
  ob ← strob_strcat ob (if ceq attribute_type SWPARSE_MD_TYPE_OBJ then [NEWLINE_CHAR] else [SPACE_CHAR]);
  n ← strob_strlen ob;
  Some (ob, n).

(** *s = NUL at the first newline of the string at [value]. *)
Definition cut_at_newline (m : bytes) (value : Z) : option bytes :=
  s ← str_at m value;
  match strstr s [NEWLINE_CHAR] with
  | Some i => mem_write m (value + Z.of_nat i) [NUL]
  | None => Some m
  end.

Definition backslash_n : bytes := [backslash; "n"%char].

(** The buffer, the object with the value, and the result. *)
Definition swdef_write_value_to_buffer (ob : STROB) (m : bytes) (value : Z) : option (STROB * bytes * Z) :=
  m ← cut_at_newline m value;
  s ← str_at m value;
  '(newbuf, newlen) ← swlib_expand_escapes s None;
  '(ob, r) ← (if newlen =? 0 then ob ← strob_strcat ob [quote; quote]; Some (ob, 2)
              else if (match strstr s backslash_n with Some _ => true | None => false end)
                      || (match strstr s [NEWLINE_CHAR] with Some _ => true | None => false end)
                      || (match strpbrk s ["#"%char; quote; backslash] with Some _ => true | None => false end)
              then ob ← strob_strcat ob [quote];
                   t ← str_at (str_ newbuf) 0;
                   ob ← strob_strncat ob t newlen;
                   ob ← strob_strcat ob [quote];
                   Some (ob, newlen + 2)
              else ob ← strob_strcat ob s; Some (ob, zlen s));
  ob ← strob_strcat ob [NEWLINE_CHAR];
  Some (ob, m, r + 1).

Definition swdef_write_attribute_to_buffer (buf : STROB) (keyword : bytes) (m : bytes) (value : Z) (level : Z) (attribute_type : ascii)
    : option (STROB * bytes * Z) :=
  '(buf, r) ← swdef_write_keyword_to_buffer buf keyword level attribute_type;
  if negb (ceq attribute_type SWPARSE_MD_TYPE_OBJ) then
    '(buf, m, iret) ← swdef_write_value_to_buffer buf m value;
    Some (buf, m, if iret <? 0 then -1 else r + iret)
  else Some (buf, m, r).

(** The first [r] bytes of the buffer are written. *)
Definition swdef_write_keyword (keyword : bytes) (level : Z) (attribute_type : ascii) (out : bytes) : option (bytes * Z) :=
  ob ← strob_open 32;
  '(ob, r) ← swdef_write_keyword_to_buffer ob keyword level attribute_type;
  t ← strob_str ob;
  Some (out ++ t, r).

Definition has_angle (s : bytes) : bool :=
  (match strstr s (L "<") with Some (S _) => true | _ => false end)
  || (match strstr s (L ">") with Some _ => true | None => false end).

(** The object with the value, the descriptor and the result. *)
Definition swdef_write_value (m : bytes) (value value_length : Z) (quote_off : bool) (out : bytes) : option (bytes * bytes * Z) :=
  let finish (m out : bytes) (r : Z) := Some (m, out ++ [NEWLINE_CHAR], r + 1) in
  if value_length >? 0 then
    s ← mem_at m value;
    if value_length <=? zlen s then finish m (out ++ take (Z.to_nat value_length) s) value_length else None
  else
    s ← str_at m value;
    if zlen s =? 0 then finish m (out ++ [quote; quote]) 2
    else
      m ← (if value_length <? 0 then cut_at_newline m value else Some m);
      s ← str_at m value;
      '(newbuf, newlen) ← swlib_expand_escapes s None;
      if newlen =? 0 then finish m (out ++ [quote; quote]) 2
      else if (match strstr s backslash_n with Some _ => true | None => false end)
              || (match strstr s [NEWLINE_CHAR] with Some _ => true | None => false end)
              || has_angle s
              || (match strpbrk s ["#"%char; quote; backslash] with Some _ => true | None => false end)
      then
        let q := if quote_off then [] else [quote] in
        if newlen <=? zlen (str_ newbuf)
        then finish m (out ++ q ++ take (Z.to_nat newlen) (str_ newbuf) ++ q) (newlen + 2 * zlen q)
        else None
      else finish m (out ++ s) (zlen s).

Definition swdef_write_attribute (keyword : bytes) (m : bytes) (value level len : Z) (attribute_type : ascii) (out : bytes)
    : option (bytes * bytes * Z) :=
  '(out, r) ← swdef_write_keyword keyword level attribute_type out;
  if negb (ceq attribute_type SWPARSE_MD_TYPE_OBJ) then
    '(m, out, iret) ← swdef_write_value m value len false out;
    Some (m, out, if iret <? 0 then -1 else r + iret)
  else Some (m, out, r).

(** ** Expanding values (swparse_supp1.c) *)

(** The object with the source, and where its text starts now. *)
Definition de_quote_it (m : bytes) (src : Z) : option (bytes * Z) :=
  c ← mem_read m src;
  if negb (ceq c quote) then Some (m, src)
  else n ← strlen_at m (src + 1);
       if n =? 0 then Some (m, src)
       else m ← mem_write m (src + 1 + n - 1) [NUL]; Some (m, src + 1).

(** [lp] is the text; a newline becomes a backslash and an n, the backslashes in
    front of a hash or a quote go, and one that escapes nothing is doubled. *)
Fixpoint expand_n_loop (fuel : nat) (lp : bytes) (n : Z) (store : STROB) (i j : Z) : option (STROB * Z) :=
  match fuel with
  | O => None
  | S fuel =>
    if i <? n then
      c ← mem_read (lp ++ [NUL]) i;
      let put store k ch := strob_chr_index store k (uchar ch) in
      if ceq c NEWLINE_CHAR then
        store ← put store (i + j) backslash;
        store ← put store (i + (j + 1)) "n"%char;
        expand_n_loop fuel lp n store (i + 1) (j + 1)
      else if ceq c backslash then
        d ← mem_read (lp ++ [NUL]) (i + 1);
        if ceq d backslash then
          store ← put store (i + j) c;
          store ← put store (i + 1 + j) d;
          expand_n_loop fuel lp n store (i + 2) j
        else if ceq d "n" then
          store ← put store (i + j) c;
          store ← put store (i + 1 + j) c;
          store ← put store (i + 1 + (j + 1)) d;
          expand_n_loop fuel lp n store (i + 2) (j + 1)
        else if ceq d "#" then
          store ← put store (i + j) "#"%char;
          expand_n_loop fuel lp n store (i + 2) (j - 1)
        else if ceq d quote then
          store ← put store (i + j) quote;
          expand_n_loop fuel lp n store (i + 2) (j - 1)
        else if is_nul d || negb (swlib_is_ansi_escape d) then
          store ← put store (i + j) backslash;
          store ← put store (i + (j + 1)) backslash;
          expand_n_loop fuel lp n store (i + 1) (j + 1)
        else
          store ← put store (i + j) c;
          expand_n_loop fuel lp n store (i + 1) j
      else
        store ← put store (i + j) c;
        expand_n_loop fuel lp n store (i + 1) j
    else
      store ← strob_chr_index store (i + j) 0;
      Some (store, i + j)
  end.

(** The object with the source afterwards, the new string, and its length. *)
Definition swparse_expand_n (m : bytes) (src : Z) : option (bytes * STROB * Z) :=
  store ← strob_open 2;
  store ← strob_strcpy store [];
  '(m, lp) ← de_quote_it m src;
  s ← str_at m lp;
  store ← strob_set_memlength store (zlen s + 1);
  '(store, newlen) ← expand_n_loop (S (length s)) s (zlen s) store 0 0;
  Some (m, store, newlen).

(** ** Attributes of the parser (swparse_supp.c) *)

(** The commands and forms. *)
Definition SWPARSE_ACMD_COPY : Z := 0.
Definition SWPARSE_ACMD_CAT : Z := 1.
Definition SWPARSE_ACMD_EMIT : Z := 2.
Definition SWPARSE_FORM_MKUP : Z := 1.
Definition SWPARSE_FORM_MKUP_LEN : Z := 2.
Definition SWPARSE_FORM_INDENT : Z := 4.
Definition SWPARSE_FORM_ALL : Z := 7.
Definition SWPARSE_MKUP_RES : Z := 30.

Definition form_has (form_flag bit : Z) : bool := negb (Z.land form_flag bit =? 0).

(** Keyword and value in one buffer, separated by a blank; without a blank the
    value is NULL and is not looked at. *)
Definition do_indent_only (strb : STROB) (level : Z) (out : bytes) : option (STROB * bytes * Z) :=
  t ← strob_str strb;
  match strchr t SPACE_CHAR with
  | Some i =>
      m ← mem_write (str_ strb) (Z.of_nat i) [NUL];
      '(m, out, r) ← swdef_write_attribute (take i t) m (Z.of_nat i + 1) level 0 SWPARSE_MD_TYPE_ATT out;
      Some (set_str m strb, out, r)
  | None =>
      '(_, out, r) ← swdef_write_attribute t [] 0 level 0 SWPARSE_MD_TYPE_OBJ out;
      Some (strb, out, r)
  end.

(** The line in one of the two forms; [block] is the memory that holds [ptr]. *)
Definition marked_line (block ptr : bytes) (level : Z) (s_keytype : ascii) (form_flag memlen : Z) : option (option bytes) :=
  if form_has form_flag SWPARSE_FORM_MKUP then
    Some (Some (snprintf_text memlen ([s_keytype] ++ print_02d level ++ replicate (Z.to_nat level) SPACE_CHAR ++ ptr ++ [NEWLINE_CHAR])))
  else if form_has form_flag SWPARSE_FORM_MKUP_LEN then
    let p := match find_index isspace ptr with Some i => Z.of_nat i | None => zlen ptr end in
    value_length ← strlen_at block (p + 1);
    Some (Some (snprintf_text memlen (print_left SWPARSE_MKUP_LEN_WIDTH value_length ++ L " " ++ [s_keytype] ++ print_02d level
                                      ++ L " " ++ ptr ++ [NEWLINE_CHAR])))
  else Some None.

(** The command EMIT: the buffer, the descriptor and the result. *)
Definition emit_attribute (strb : STROB) (level : Z) (s_keytype : ascii) (form_flag extra_len : Z) (out : bytes)
    : option (STROB * bytes * Z) :=
  t ← strob_str strb;
  strb ← (if zlen t =? 0 then strob_strcat strb [quote; quote] else Some strb);
  m ← swlib_process_hex_escapes (str_ strb);
  let strb := set_str m strb in
  ptr ← strob_str strb;
  let memlen := zlen ptr + level + 6 + extra_len in
  strb ← strob_set_length strb memlen;
  ptr ← strob_str strb;
  line ← marked_line (str_ strb) ptr level s_keytype form_flag memlen;
  match line with
  | None => Some (strb, out, -1)
  | Some line => Some (strb, out ++ line, zlen line)
  end.

(** [src] is the text to copy or append, not looked at by EMIT; it is another
    object, which may lose a closing quote. *)
Definition swparse_construct_attribute (strb : STROB) (src : bytes) (cmd level : Z) (s_keytype : ascii) (form_flag : Z) (out : bytes)
    : option (STROB * bytes * Z) :=
  if level >? 10 then Some (strb, out, -1)
  else if form_has form_flag SWPARSE_FORM_INDENT && (cmd =? SWPARSE_ACMD_EMIT) then do_indent_only strb level out
  else if level <? 0 then None
  else
    let extra_len := if form_has form_flag SWPARSE_FORM_MKUP || (Z.land form_flag SWPARSE_FORM_ALL =? 0) then 0 else SWPARSE_MKUP_RES in
    if (cmd =? SWPARSE_ACMD_COPY) || (cmd =? SWPARSE_ACMD_CAT) then
      '(_, p, _) ← swparse_expand_n (src ++ [NUL]) 0;
      t ← strob_str p;
      strb ← (if cmd =? SWPARSE_ACMD_COPY then strob_strcpy strb t else strob_strcat strb t);
      Some (strb, out, 0)
    else if cmd =? SWPARSE_ACMD_EMIT then emit_attribute strb level s_keytype form_flag extra_len out
    else Some (strb, out, -1).

Definition swparse_write_attribute_att (key val : bytes) (level form_flag : Z) (out : bytes) : option (bytes * Z) :=
  strb ← strob_open 12;
  strb ← strob_strcpy strb key;
  strb ← strob_strcat strb [SPACE_CHAR];
  '(_, p, _) ← swparse_expand_n (val ++ [NUL]) 0;
  t ← strob_str p;
  strb ← strob_strcat strb t;
  '(_, out, r) ← swparse_construct_attribute strb [] SWPARSE_ACMD_EMIT level SWPARSE_MD_TYPE_ATT form_flag out;
  Some (out, r).

Definition swparse_write_attribute_obj (key : bytes) (level form_flag : Z) (out : bytes) : option (bytes * Z) :=
  if form_has form_flag SWPARSE_FORM_INDENT then swdef_write_keyword key level SWPARSE_MD_TYPE_OBJ out
  else
    strb ← strob_open 12;
    strb ← strob_strcpy strb key;
    '(_, out, r) ← swparse_construct_attribute strb [] SWPARSE_ACMD_EMIT level SWPARSE_MD_TYPE_OBJ form_flag out;
    Some (out, r).

(** The name of the file as the first line, through a buffer of [len] bytes. *)
Definition swparse_print_filename (len : Z) (filetype ws_level_string lex_filename : bytes) (form_flag : Z) (out : bytes) : bytes :=
  if form_has form_flag SWPARSE_FORM_MKUP then
    out ++ snprintf_text len (L "F" ++ print_02d (zlen ws_level_string + 1) ++ L " " ++ ws_level_string ++ filetype ++ L " "
                              ++ lex_filename ++ [NEWLINE_CHAR])
  else
    out ++ snprintf_text len (print_left SWPARSE_MKUP_LEN_WIDTH (zlen lex_filename) ++ L " F" ++ print_02d (zlen ws_level_string + 1)
                              ++ L " " ++ ws_level_string ++ filetype ++ L " " ++ lex_filename ++ [NEWLINE_CHAR]).
End Writing.

(** *** Attributes that are ignored *)

Inductive swdef_filetype := SWDEF_INFO | SWDEF_INDEX | SWDEF_PSF | SWDEF_INSTALLED.
Inductive iloc := ILOC_OFF | ILOC_FILE | ILOC_CONTROL_FILE | ILOC_FILESET | ILOC_PRODUCT | ILOC_DISTRIBUTION | ILOC_BUNDLE.

Definition psf_file_ignores : list bytes :=
  [L "cksum "; L "compressed_cksum "; L "compressed_size "; L "compression_state "; L "compression_type "; L "size "].
Definition psf_fileset_ignores : list bytes := [L "location "; L "media_sequence_number "; L "size "; L "state "].
Definition psf_bundle_ignores : list bytes := [L "location "; L "qualifier "].
Definition psf_distribution_ignores : list bytes := [L "uuid "].
Definition info_file_ignores : list bytes := [L "source "].
Definition index_ignores : list bytes := [L "size "].

Definition check_ignores (line : bytes) (ignores : list bytes) : bool :=
  existsb (fun sp => strncmp line sp (length sp) =? 0) ignores.

Definition swparse_ignore_attribute (filetype : swdef_filetype) (location : iloc) (line : bytes) : bool :=
  match filetype with
  | SWDEF_INFO => match location with ILOC_FILE => check_ignores line info_file_ignores | _ => false end
  | SWDEF_PSF =>
      match location with
      | ILOC_FILE => check_ignores line psf_file_ignores
      | ILOC_CONTROL_FILE => check_ignores line psf_file_ignores || (strncmp line (L "result ") 7 =? 0)
      | ILOC_FILESET => check_ignores line psf_fileset_ignores
      | ILOC_BUNDLE => check_ignores line psf_bundle_ignores
      | ILOC_DISTRIBUTION => check_ignores line psf_distribution_ignores
      | _ => false
      end
  | SWDEF_INDEX => check_ignores line index_ignores
  | SWDEF_INSTALLED => false
  end.

(** ** Support of the scanner (swlex_supp.c) *)

(** The backslashes in front of the last character, from its left neighbour on. *)
Fixpoint count_backslashes (rev : bytes) : Z :=
  match rev with c :: r => if ceq c backslash then 1 + count_backslashes r else 0 | [] => 0 end.

(** Appends the string and tells whether the last character terminates. *)
Definition handle_termination `{Malloc} (termch : ascii) (strb : STROB) (str : bytes) : option (STROB * Z) :=
  strb ← strob_catstr strb str;
  p ← strob_str strb;
  if zlen p =? 1 then Some (strb, 1)
  else
    (* p[-1] of an empty text is only read for a newline *)
    let nl := if ceq termch NEWLINE_CHAR then c ← last p; Some (ceq c NEWLINE_CHAR) else Some false in
    nl ← nl;
    if nl : bool then Some (strb, 1)
    else
      let j := count_backslashes (tail (reverse p)) in
      Some (strb, if j mod 2 =? 1 then 0 else 1).

(** The text without blanks at its end. *)
Fixpoint squash_rev (rev : bytes) : bytes :=
  match rev with c :: r => if isspace c then squash_rev r else rev | [] => [] end.
Definition swlex_squash_trailing_white_space (s : bytes) : bytes := reverse (squash_rev (reverse s)).
