(* ===== verification/MetaHeader.v ===== *)
(** * The reader of parsed metadata (swsupplib/misc/swheader.c)

    A SWHEADER walks over the lines of an image: a current position, the search
    for the next object or attribute, and the look-ups of attributes of the
    current object.  The iterator for C callers is modelled; the image object is
    then the SWHEADER itself and the stack of image objects is never used. *)

From S2P Require Import Prelude CString Strob Cplob Escape Effects Swuts Swverid Sdflt MetaLine.
Local Open Scope effects_scope.

(** ** The object *)

(** An int pointer: NULL, the field current_offset_, or an int of the caller. *)
Inductive offset_ptr := PNull | POwn | PCaller (i : nat).

Record SWHEADER_STATE := mkSTATE {
  save_current_offset_pM : offset_ptr;
  save_current_offsetM : Z;
  save_current_offset_vM : Z;
}.

(** [caller_ints] are the ints that callers have lent, [att_count] the static
    counter of swheader_get_next_attribute.  NULL in image_head_ is the empty
    object. *)
Record SWHEADER := mkSWHEADER {
  image_head_ : bytes;
  current_offset_p_ : offset_ptr;
  current_offset_ : Z;
  saved_ : SWHEADER_STATE;
  caller_ints : list Z;
  att_count : Z;
}.

Definition put_image (m : bytes) (h : SWHEADER) : SWHEADER :=
  mkSWHEADER m (current_offset_p_ h) (current_offset_ h) (saved_ h) (caller_ints h) (att_count h).
Definition put_offset_p (p : offset_ptr) (h : SWHEADER) : SWHEADER :=
  mkSWHEADER (image_head_ h) p (current_offset_ h) (saved_ h) (caller_ints h) (att_count h).
Definition put_offset (n : Z) (h : SWHEADER) : SWHEADER :=
  mkSWHEADER (image_head_ h) (current_offset_p_ h) n (saved_ h) (caller_ints h) (att_count h).
Definition put_saved (s : SWHEADER_STATE) (h : SWHEADER) : SWHEADER :=
  mkSWHEADER (image_head_ h) (current_offset_p_ h) (current_offset_ h) s (caller_ints h) (att_count h).
Definition put_ints (l : list Z) (h : SWHEADER) : SWHEADER :=
  mkSWHEADER (image_head_ h) (current_offset_p_ h) (current_offset_ h) (saved_ h) l (att_count h).
Definition put_att_count (n : Z) (h : SWHEADER) : SWHEADER :=
  mkSWHEADER (image_head_ h) (current_offset_p_ h) (current_offset_ h) (saved_ h) (caller_ints h) n.

Abbreviation Hd := (ST SWHEADER).

Definition on_image {A} (m : Img A) : Hd A := zoom image_head_ put_image m.

(** *p and *p = n *)
Definition read_int (p : offset_ptr) (h : SWHEADER) : option Z :=
  match p with
  | PNull => None
  | POwn => Some (current_offset_ h)
  | PCaller i => caller_ints h !! i
  end.
Definition write_int (p : offset_ptr) (n : Z) (h : SWHEADER) : option SWHEADER :=
  match p with
  | PNull => None
  | POwn => Some (put_offset n h)
  | PCaller i => _ ← caller_ints h !! i; Some (put_ints (<[i:=n]> (caller_ints h)) h)
  end.

(** ** Position and state *)

Definition swheader_get_current_offset_p : Hd offset_ptr := gets current_offset_p_.
Definition swheader_get_current_offset : Hd Z := reads (fun h => read_int (current_offset_p_ h) h).
Definition swheader_set_current_offset_p_value (n : Z) : Hd () := updates (fun h => write_int (current_offset_p_ h) n h).
Definition swheader_set_current_offset (n : Z) : Hd () := swheader_set_current_offset_p_value n.

(** NULL stands for the field of the object. *)
Definition swheader_set_current_offset_p (n : offset_ptr) : Hd () :=
  modify (put_offset_p (match n with PNull => POwn | _ => n end)).

Definition swheader_set_image_head (image : bytes) : Hd () := modify (put_image image).

Definition swheader__reset : Hd () :=
  do! modify (put_offset 0) in swheader_set_current_offset_p_value 0.

Definition swheader_state_create : SWHEADER_STATE := mkSTATE PNull (-1) (-1).
Definition swheader_state_copy (from : SWHEADER_STATE) : SWHEADER_STATE :=
  mkSTATE (save_current_offset_pM from) (save_current_offsetM from) (save_current_offset_vM from).

(** What is stored: the pointer, the field, and the int behind the pointer. *)
Definition current_state (h : SWHEADER) : option SWHEADER_STATE :=
  v ← (match current_offset_p_ h with PNull => Some 0 | p => read_int p h end);
  Some (mkSTATE (current_offset_p_ h) (current_offset_ h) v).

(** In a state of the caller, or with NULL in the object. *)
Definition swheader_store_state : Hd SWHEADER_STATE := reads current_state.
Definition swheader_store_state_here : Hd () :=
  let! s := reads current_state in modify (put_saved s).

Definition restore_state (state : SWHEADER_STATE) : Hd () :=
  do! modify (put_offset_p (save_current_offset_pM state)) in
  do! modify (put_offset (save_current_offsetM state)) in
  match save_current_offset_pM state with
  | PNull => ret ()
  | p => updates (write_int p (save_current_offset_vM state))
  end.

Definition swheader_restore_state (state : option SWHEADER_STATE) : Hd () :=
  match state with
  | Some state => restore_state state
  | None => let! s := gets saved_ in restore_state s
  end.

(** The object for C callers; the counter is static, the ints belong to the
    callers. *)
Definition swheader_open (ints : list Z) (count : Z) : SWHEADER :=
  mkSWHEADER [] POwn 0 (mkSTATE POwn 0 0) ints count.

(** ** The iterator *)

Definition MD_NEWLINE : ascii := "010"%char.
Definition NEWLINE_LEN : Z := 1.

(** The line behind the one at [off], and the new value of the offset. *)
Definition next_line (off : Z) (peek_only : bool) : Img (option Z * Z) :=
  let! ty := swheaderline_get_type off in
  if ceq ty "F" then
    let! s := reads (fun m => str_at m off) in
    match strchr s MD_NEWLINE with
    | Some i => let p := off + Z.of_nat i + NEWLINE_LEN in ret (Some p, to_int p)
    | None => undef   (* NULL + 1 *)
    end
  else
    let! keyw := swheaderline_get_keyword off in
    match keyw with
    | None => ret (None, off)
    | Some keyw =>
        let! n := swheaderline_get_value_length off in
        if n <? 0 then ret (None, off)
        else
          let n := if ceq ty "A" then n + 1 else n in
          let! k := strlen_of keyw in
          let line := keyw + (k + n + NEWLINE_LEN) in
          let! c := peek line in
          if is_nul c then ret (None, if peek_only then off else -1)
          else ret (Some line, if peek_only then off else to_int line)
    end.

(** A negative offset is an address to convert, INT_MAX asks for the image. *)
Definition swheader_goto_c_next_line (off : Z) (peek_only : bool) : Img (option Z * Z) :=
  if off =? INT_MAX then ret (Some 0, off)
  else if off <? 0 then ret (Some (- off), off)
  else next_line off peek_only.

(** The call with the offset that the pointer points to; with NULL it resets. *)
Definition swheader_goto_next_line (output_line_offset : offset_ptr) (peek_only : bool) : Hd (option Z) :=
  match output_line_offset with
  | PNull => do! swheader__reset in ret None
  | p =>
      let! off := reads (read_int p) in
      let! (line, off) := on_image (swheader_goto_c_next_line off peek_only) in
      do! updates (write_int p off) in
      ret line
  end.

Definition swheader_f_goto_next : Hd (option Z) :=
  let! p := swheader_get_current_offset_p in swheader_goto_next_line p false.

(** The offset 0 is not negative: the line behind the first one. *)
Definition swheader_get_current_line : Hd (option Z) :=
  let! off := swheader_get_current_offset in
  let! (line, _) := on_image (swheader_goto_c_next_line (- off) true) in
  ret line.

Definition swheader_get_image_head : Hd (option Z) :=
  let! (line, _) := on_image (swheader_goto_c_next_line INT_MAX false) in ret line.

(** For the C iterator. *)
Definition swheader_reset : Hd () :=
  do! swheader__reset in
  do! swheader__reset in
  do! swheader_goto_next_line PNull false in
  ret ().

(** ** Objects *)

Definition UCHAR_MAX : Z := 255.

(** What is decided at a line: [Some] the result, or to go on. *)
Definition object_round (next_line relative_level_min relative_level_max : Z) : Hd (option (option Z)) :=
  let! level := on_image (swheaderline_get_level next_line) in
  let! ty := on_image (swheaderline_get_type next_line) in
  ret (if ceq ty SWPARSE_MD_TYPE_OBJ then
         if (relative_level_min =? UCHAR_MAX) && (relative_level_max =? UCHAR_MAX) then Some (Some next_line)
         else if (level <? relative_level_min) || (level >? relative_level_max) then Some None
         else Some (Some next_line)
       else None).

Fixpoint next_object_loop (fuel : nat) (next_line : option Z) (relative_level_min relative_level_max : Z)
    : Hd (option Z) :=
  match fuel with
  | O => out_of_fuel
  | S fuel =>
    match next_line with
    | None => ret None
    | Some line =>
        let! r := object_round line relative_level_min relative_level_max in
        match r with
        | Some result => ret result
        | None => let! next := swheader_f_goto_next in next_object_loop fuel next relative_level_min relative_level_max
        end
    end
  end.

(** One round for every byte of the image: each line is behind the one before. *)
Definition swheader_get_next_object (relative_level_min relative_level_max : Z) : Hd (option Z) :=
  let! fuel := gets (fun h => S (length (image_head_ h))) in
  let! line := swheader_f_goto_next in
  next_object_loop fuel line relative_level_min relative_level_max.

(** ** Attributes *)

(** swheader_goto_next_line with SWHEADER_PEEK_NEXT at the current position. *)
Definition peek_next : Hd (option Z) :=
  let! p := swheader_get_current_offset_p in swheader_goto_next_line p true.

Definition end_of_attributes : Hd (option Z) := do! modify (put_att_count 0) in ret None.

Definition swheader_get_next_attribute : Hd (option Z) :=
  let! nextline := peek_next in
  let! currentline := swheader_get_current_line in
  match currentline with
  | None => end_of_attributes
  | Some currentline =>
      let! ty := on_image (swheaderline_get_type currentline) in
      let! count := gets att_count in
      if ceq ty SWPARSE_MD_TYPE_OBJ && negb (count =? 0) then end_of_attributes
      else
        match nextline with
        | None => end_of_attributes
        | Some nextline =>
            let! ty := on_image (swheaderline_get_type nextline) in
            if ceq ty SWPARSE_MD_TYPE_OBJ then end_of_attributes
            else
              do! modify (fun h => put_att_count (to_int (att_count h + 1)) h) in
              do! swheader_f_goto_next in
              ret (Some nextline)
        end
  end.

(** The keyword of a line as a text. *)
Definition keyword_text (line : Z) : Img (option bytes) :=
  let! k := swheaderline_get_keyword line in
  match k with None => ret None | Some k => let! t := reads (fun m => str_at m k) in ret (Some t) end.

(** strcmp with a NULL keyword is undefined. *)
Fixpoint raw_get_loop (fuel : nat) (line : option Z) (keyword : bytes) : Hd (option Z) :=
  match fuel with
  | O => out_of_fuel
  | S fuel =>
    match line with
    | None => ret None
    | Some l =>
        let! k := on_image (keyword_text l) in
        let! k := lift k in
        if strcmp k keyword =? 0 then ret (Some l)
        else let! line := swheader_get_next_attribute in raw_get_loop fuel line keyword
    end
  end.

Definition image_fuel (h : SWHEADER) : nat := S (S (length (image_head_ h))).

Definition swheader_raw_get_attribute_in_object (keyword : bytes) : Hd (option Z) :=
  let! fuel := gets image_fuel in
  let! line := swheader_get_next_attribute in
  raw_get_loop fuel line keyword.

(** The last attribute with the keyword. *)
Fixpoint last_attribute_loop (fuel : nat) (line prevline : option Z) (keyword : bytes) : Hd (option Z) :=
  match fuel with
  | O => out_of_fuel
  | S fuel =>
    match line with
    | None => ret prevline
    | Some _ =>
        let! line := swheader_raw_get_attribute_in_object keyword in
        last_attribute_loop fuel line (match line with Some _ => line | None => prevline end) keyword
    end
  end.

(** The line and *is_multi_value. *)
Definition get_attribute_in_current_object (keyword : bytes) (object_keyword : option bytes) : Hd (option Z * Z) :=
  let! state := swheader_store_state in
  let multi_line :=
    match object_keyword with
    | Some o => match swsdflt_return_entry (Some o) (Some keyword) with
                | None => value_type_code sdf_single_value
                | Some swd => swsdflt_get_value_type (Some swd)
                end
    | None => value_type_code sdf_single_value
    end in
  let! line := swheader_raw_get_attribute_in_object keyword in
  if multi_line =? value_type_code sdf_single_value then
    let! fuel := gets image_fuel in
    let! prevline := last_attribute_loop fuel line line keyword in
    do! restore_state state in
    ret (prevline, 0)
  else
    do! restore_state state in
    ret (line, 1).

Definition swheader_get_attribute_in_current_object := get_attribute_in_current_object.

(** The pointer to the value; the position stays. *)
Definition swheader_get_single_attribute_value (keyword : bytes) : Hd (option Z) :=
  let! state := swheader_store_state in
  let! (line, _) := get_attribute_in_current_object keyword None in
  match line with
  | None => do! swheader_restore_state (Some state) in ret None
  | Some line =>
      let! v := on_image (swheaderline_get_value line) in
      do! swheader_restore_state (Some state) in
      ret (fst <$> v)
  end.
