(* ===== verification/MetaPrint.v ===== *)
(** * Writing the lines of metadata out again (swsupplib/misc/swheaderline.c,
      swheaderline1.c and swheader_print_header of swheader.c)

    A line of the image is taken apart by the readers, which cut it, and written
    by the functions of swdef.c or swparse_supp.c.  A descriptor is the bytes
    written to it, kept beside the image. *)

From S2P Require Import Prelude CString Strob Escape Effects MetaLine MetaWrite MetaHeader.
Local Open Scope effects_scope.

Section Printing.
Context `{Malloc}.

(** The parts of a line, in the order in which they are asked for. *)
Definition line_parts (line : Z) : Img (option Z * option (Z * Z) * ascii * Z) :=
  let! keyword := swheaderline_get_keyword line in
  let! value := swheaderline_get_value line in
  let! ty := swheaderline_get_type line in
  let! level := swheaderline_get_level line in
  ret (keyword, value, ty, level).

(** The value is NULL only where the keyword is. *)
Definition swheaderline_write_to_buffer (buf : STROB) (line : option Z) : Img (STROB * Z) :=
  match line with
  | None => ret (buf, -1)
  | Some line =>
      let! (keyword, value, ty, level) := line_parts line in
      match keyword with
      | None => ret (buf, 0)
      | Some keyword =>
          let! keyword := reads (fun m => str_at m keyword) in
          if zlen keyword =? 0 then ret (buf, 0)
          else
            let! (value, _) := lift value in
            fun m => '(buf, m, r) ← swdef_write_attribute_to_buffer buf keyword m value level ty; Some (Done m (buf, r))
      end
  end.

(** The image and what was written. *)
Abbreviation Printer := (ST (bytes * bytes)).
Definition on_lines {A} (m : Img A) : Printer A := zoom fst (fun i s => (i, snd s)) m.

(** A length of -1: the value ends at its newline. *)
Definition swheaderline_write (line : Z) : Printer Z :=
  let! (keyword, value, ty, level) := on_lines (line_parts line) in
  match keyword with
  | None => ret 0
  | Some keyword =>
      let! keyword := reads (fun s => str_at (fst s) keyword) in
      let! (value, _) := lift value in
      fun s => '(m, out, r) ← swdef_write_attribute keyword (fst s) value level (-1) ty (snd s); Some (Done (m, out) r)
  end.

(** The value is cut at its newline, or where it ends, and gets a newline there. *)
Definition swheaderline_write_debug (line : Z) : Printer Z :=
  let! keyw := on_lines (swheaderline_get_keyword line) in
  let! value := on_lines (swheaderline_get_value line) in
  let! level := on_lines (swheaderline_get_level line) in
  let! (value, _) := lift value in
  let! keyw := lift keyw in
  let! keyw := reads (fun s => str_at (fst s) keyw) in
  let! text := reads (fun s => str_at (fst s) value) in
  if zlen text =? 0 then
    fun s => '(out, r) ← swparse_write_attribute_obj keyw level SWPARSE_FORM_MKUP (snd s); Some (Done (fst s, out) r)
  else
    let p := value + match strchr text NEWLINE_CHAR with Some i => Z.of_nat i | None => zlen text end in
    do! on_lines (poke p NUL) in
    let! text := reads (fun s => str_at (fst s) value) in
    let! r := (fun s => '(out, r) ← swparse_write_attribute_att keyw text level SWPARSE_FORM_MKUP (snd s);
                        Some (Done (fst s, out) r)) in
    do! on_lines (poke p NEWLINE_CHAR) in
    ret r.

(** ** All objects *)

Abbreviation Listing := (ST (SWHEADER * bytes)).
Definition on_header {A} (m : Hd A) : Listing A := zoom fst (fun h s => (h, snd s)) m.
Definition write_debug (line : Z) : Listing Z :=
  zoom (fun s => (image_head_ (fst s), snd s)) (fun p s => (put_image (fst p) (fst s), snd p)) (swheaderline_write_debug line).

Fixpoint print_attributes_loop (fuel : nat) : Listing () :=
  match fuel with
  | O => out_of_fuel
  | S fuel =>
      let! next_attr := on_header swheader_get_next_attribute in
      match next_attr with
      | None => ret ()
      | Some a => do! write_debug a in print_attributes_loop fuel
      end
  end.

Fixpoint print_objects_loop (fuel : nat) (next_line : option Z) : Listing () :=
  match fuel with
  | O => out_of_fuel
  | S fuel =>
    match next_line with
    | None => ret ()
    | Some line =>
        do! write_debug line in
        do! on_header peek_next in
        let! n := gets (fun s => image_fuel (fst s)) in
        do! print_attributes_loop n in
        let! next := on_header (swheader_get_next_object UCHAR_MAX UCHAR_MAX) in
        print_objects_loop fuel next
    end
  end.

Definition swheader_print_header : Listing () :=
  let! state := on_header swheader_store_state in
  do! on_header swheader_reset in
  do! on_header (swheader_set_current_offset_p_value 0) in
  let! next_line := on_header (swheader_get_next_object UCHAR_MAX UCHAR_MAX) in
  let! n := gets (fun s => image_fuel (fst s)) in
  do! print_objects_loop n next_line in
  on_header (swheader_restore_state (Some state)).
End Printing.
