(* ===== verification/MetaObjects.v ===== *)
(** * Objects of the metadata (swsupplib/misc/swheader.c)

    Built on the iterator of MetaHeader.v: the attributes of the current object
    as a list, the software specification of an object, the search for an object
    by its specification, and the file header that a "file" object describes. *)

From S2P Require Import Prelude CString Strob Cplob Escape FileMode TarNumbers SysDb FileHdr PaxHeader Effects Swuts Swverid Sdflt MetaLine MetaHeader.
Local Open Scope effects_scope.

(** ** Lists of attributes *)

(** while (line = next attribute) when the keyword is the one, add the line *)
Fixpoint attribute_list_loop (fuel : nat) (cplob_obj : CPLOB Z) (attribute_keyword : bytes) : Hd (CPLOB Z) :=
  match fuel with
  | O => out_of_fuel
  | S fuel =>
      let! line := swheader_get_next_attribute in
      match line with
      | None => ret cplob_obj
      | Some line =>
          let! k := on_image (keyword_text line) in
          let! k := lift k in
          let! cplob_obj := (if strcmp attribute_keyword k =? 0
                             then lift (cplob_add_nta cplob_obj (Some line)) else ret cplob_obj) in
          attribute_list_loop fuel cplob_obj attribute_keyword
      end
  end.

(** The NULL terminated array of lines, and *multi_line where it is set. *)
Definition swheader_get_attribute_list (attribute_keyword : bytes) : Hd (option (list (option Z)) * option Z) :=
  let! state := swheader_store_state in
  let! headerline := swheader_get_current_line in
  match headerline with
  | None => undef
  | Some headerline =>
      let! ty := on_image (swheaderline_get_type headerline) in
      if negb (ceq ty SWPARSE_MD_TYPE_OBJ) then do! restore_state state in ret (None, None)
      else
        let! keyw := on_image (keyword_text headerline) in
        let multi_line :=
          match swsdflt_return_entry keyw (Some attribute_keyword) with
          | None => 0
          | Some swd => if swsdflt_get_value_type (Some swd) =? value_type_code sdf_single_value then 0 else 1
          end in
        let! lob := lift (cplob_open 2) in
        let! lob := lift (cplob_add_nta lob None) in
        let! fuel := gets image_fuel in
        let! lob := attribute_list_loop fuel lob attribute_keyword in
        do! restore_state state in
        ret (Some (list_ lob), Some multi_line)
  end.

(** while ( *pp) ret = *pp++ *)
Fixpoint last_of_list (fuel : nat) (list : list (option Z)) (pp : Z) (result : option Z) : option (option Z) :=
  match fuel with
  | O => None
  | S fuel => p ← arr_read list pp;
              match p with Some _ => last_of_list fuel list (pp + 1) p | None => Some result end
  end.

Definition swheader_get_attribute (attribute_keyword : bytes) : Hd (option Z * option Z) :=
  let! (list, is_multi) := swheader_get_attribute_list attribute_keyword in
  match list with
  | None => ret (None, is_multi)
  | Some list => let! r := lift (last_of_list (S (length list)) list 0 None) in ret (r, is_multi)
  end.

(** ** Software specifications of objects *)

Section Specs.
Context `{Malloc}.

(** The attributes behind the current object; the object is read up to an error. *)
Fixpoint generate_loop (fuel : nat) (swverid : SWVERID) (object_keyword : bytes) (object_offset : Z) : Hd (SWVERID * Z) :=
  match fuel with
  | O => out_of_fuel
  | S fuel =>
      let! next_attr := swheader_get_next_attribute in
      match next_attr with
      | None => do! swheader_set_current_offset_p_value object_offset in ret (swverid, 0)
      | Some a =>
          let! v := on_image (swheaderline_get_value a) in
          let! k := on_image (swheaderline_get_keyword a) in
          match k, v with
          | Some k, Some (v, _) =>
              let! kt := on_image (reads (fun m => str_at m k)) in
              let! vt := on_image (reads (fun m => str_at m v)) in
              let! (swverid, r) := lift (swverid_add_attribute swverid object_keyword kt vt) in
              if r <? 0 then ret (swverid, -4)
              else generate_loop fuel swverid object_keyword object_offset
          | _, _ => do! swheader_set_current_offset_p_value object_offset in ret (swverid, -3)
          end
      end
  end.

(** The keyword of the object is NULL only on a damaged line. *)
Definition swheader_generate_swverid (swverid : SWVERID) (object_line : option Z) : Hd (SWVERID * Z) :=
  let! object_offset := swheader_get_current_offset in
  match object_line with
  | None => ret (swverid, -1)
  | Some object_line =>
      let! ty := on_image (swheaderline_get_type object_line) in
      if negb (ceq ty SWPARSE_MD_TYPE_OBJ) then ret (swverid, -2)
      else
        let! object_keyword := on_image (keyword_text object_line) in
        let! object_keyword := lift object_keyword in
        let swverid := swverid_set_namespace swverid (Some object_keyword) in
        let! fuel := gets image_fuel in
        generate_loop fuel swverid object_keyword object_offset
  end.

(** while (next_line is not an object) go on *)
Fixpoint first_object_loop (fuel : nat) (next_line : option Z) : Hd (option Z) :=
  match fuel with
  | O => out_of_fuel
  | S fuel =>
    match next_line with
    | None => ret None
    | Some line =>
        let! ty := on_image (swheaderline_get_type line) in
        if ceq ty SWPARSE_MD_TYPE_OBJ then ret (Some line)
        else let! next := swheader_f_goto_next in first_object_loop fuel next
    end
  end.

(** What compares two specifications, both of which it may edit. *)
Definition comparison := SWVERID -> SWVERID -> option (outcome (SWVERID * SWVERID * Z)).

Definition call_comparison {S} (f_comp : comparison) (a b : SWVERID) : ST S (SWVERID * SWVERID * Z) := fun s =>
  r ← f_comp a b; Some (in_state s r).

(** The state of the search: the specification, sg_swverid_uuid, the match so
    far with its offset, and *nmatches. *)
Record search := mkSEARCH {
  sr_swverid : SWVERID;
  sr_uuid : Z;
  sr_found : option Z;
  sr_offset : Z;
  sr_nmatches : option Z;
}.

Fixpoint search_loop (fuel : nat) (f_comp : comparison) (start_offset : Z) (next_line : option Z) (s : search)
    : Hd (option Z * search) :=
  match fuel with
  | O => out_of_fuel
  | S fuel =>
      let! object_offset := swheader_get_current_offset in
      let! (t, uuid) := lift (swverid_open (sr_uuid s) None None) in
      let! t := lift (match t with Some [t] => Some t | _ => None end) in
      let! (t, err) := swheader_generate_swverid t next_line in
      if negb (err =? 0) then
        do! swheader_set_current_offset_p_value start_offset in
        ret (None, mkSEARCH (sr_swverid s) uuid (sr_found s) (sr_offset s) (sr_nmatches s))
      else
        let! (target, _, comparison_result) := call_comparison f_comp (sr_swverid s) t in
        let go (s : search) :=
          let! next := swheader_get_next_object UCHAR_MAX UCHAR_MAX in
          match next with
          | Some _ => search_loop fuel f_comp start_offset next s
          | None => do! swheader_set_current_offset_p_value (sr_offset s) in ret (sr_found s, s)
          end in
        if comparison_result =? SWVERID_CMP_EQ then
          do! swheader_set_current_offset_p_value object_offset in
          match sr_nmatches s with
          | Some n => go (mkSEARCH target uuid next_line object_offset (Some (n + 1)))
          | None => do! swheader_set_current_offset_p_value object_offset in
                    ret (next_line, mkSEARCH target uuid next_line object_offset None)
          end
        else go (mkSEARCH target uuid (sr_found s) (sr_offset s) (sr_nmatches s))
  end.

(** The line of the object, the specification afterwards, the counter of
    specifications, and *nmatches ([None] for a NULL pointer). *)
Definition get_object_by_swverid (f_comp : comparison) (swverid : SWVERID) (uuid : Z) (want_nmatches : bool)
    : Hd (option Z * search) :=
  let! start_offset := swheader_get_current_offset in
  let s := mkSEARCH swverid uuid None start_offset (if want_nmatches then Some 0 else None) in
  let! next_line := swheader_get_current_line in
  match next_line with
  | None => ret (None, s)
  | Some _ =>
      let! fuel := gets image_fuel in
      let! next_line := first_object_loop fuel next_line in
      search_loop fuel f_comp start_offset next_line s
  end.

Definition swverid_get_object_by_swverid := get_object_by_swverid swverid_vtagOLD_compare.

Definition swheader_get_object_by_tag (uuid : Z) (object_keyword idtag : bytes) : Hd (option Z * search) :=
  let! (swverid, uuid) := lift (swverid_open uuid (Some object_keyword) None) in
  let! swverid := lift (match swverid with Some [s] => Some s | _ => None end) in
  let! swverid := lift (swverid_set_tag swverid (L "tag") (Some idtag)) in
  get_object_by_swverid swverid_vtagOLD_compare (set_code SWVERID_CMP_EQ swverid) uuid false.

(** The loop over the objects only looks the attribute up. *)
Fixpoint control_directory_loop (fuel : nat) : Hd () :=
  match fuel with
  | O => out_of_fuel
  | S fuel =>
      let! _ := swheader_get_single_attribute_value (L "control_directory") in
      let! next := swheader_get_next_object UCHAR_MAX UCHAR_MAX in
      match next with Some _ => control_directory_loop fuel | None => ret () end
  end.

Definition swheader_get_object_offset_by_control_directory : Hd Z :=
  let! next_line := swheader_get_current_line in
  match next_line with
  | None => ret (-1)
  | Some _ =>
      let! fuel := gets image_fuel in
      let! _ := first_object_loop fuel next_line in
      do! control_directory_loop fuel in
      do! swheader_set_current_offset_p_value 0 in
      ret (-1)
  end.
End Specs.
