(* ===== verification/MetaFile.v ===== *)
(** * File objects (swsupplib/misc/swheader.c and the digests of
      swsupplib/taru/taru.c)

    The attributes of a "file" object as the header of a file. *)

From S2P Require Import Prelude CString Strob Cplob Escape FileMode TarNumbers SysDb FileHdr PaxHeader TarWrite Effects Swuts Swverid Sdflt MetaLine MetaHeader.
Local Open Scope effects_scope.

(** ** Digests as text *)

Record FILE_DIGS := mkDIGS {
  do_poisonM : Z;
  dg_md5 : bytes; do_md5 : Z;
  dg_sha1 : bytes; do_sha1 : Z;
  dg_sha512 : bytes; do_sha512 : Z;
  dg_size : bytes; do_size : Z;
}.

Definition DIGS_ENABLE_OFF : Z := 0.
Definition DIGS_ENABLE_ON : Z := 1.

Definition taru_digs_init (digs : FILE_DIGS) (enable poison : Z) : option FILE_DIGS :=
  a ← mem_write (dg_md5 digs) 0 [NUL];
  b ← mem_write (dg_sha1 digs) 0 [NUL];
  c ← mem_write (dg_sha512 digs) 0 [NUL];
  d ← mem_write (dg_size digs) 0 [NUL];
  let on old := if enable >=? 0 then enable else old in
  Some (mkDIGS poison a (on (do_md5 digs)) b (on (do_sha1 digs)) c (on (do_sha512 digs)) d (on (do_size digs))).

(** malloc leaves the arrays of 33, 41, 129 and 32 bytes as they are. *)
Definition taru_digs_create `{Malloc} : option FILE_DIGS :=
  taru_digs_init (mkDIGS 0 (malloc 33) 0 (malloc 41) 0 (malloc 129) 0 (malloc 32) 0) DIGS_ENABLE_OFF 0.

Definition taru_init_header_digs `{Malloc} (digsM : option FILE_DIGS) : option FILE_DIGS :=
  match digsM with
  | None => taru_digs_create
  | Some digs => taru_digs_init digs DIGS_ENABLE_OFF 0
  end.

(** ** Types *)

(** A type that is not known is reported and taken for a regular file. *)
Definition swheader_getTarTypeFromTypeAttribute (ch : ascii) : ascii :=
  if ceq ch "f" then REGTYPE
  else if ceq ch "d" then DIRTYPE
  else if ceq ch "c" then CHRTYPE
  else if ceq ch "b" then BLKTYPE
  else if ceq ch "p" then FIFOTYPE
  else if ceq ch "s" then SYMTYPE
  else if ceq ch "h" then LNKTYPE
  else if ceq ch "y" then NOTDUMPEDTYPE
  else REGTYPE.

(** TARU_UM_*, the bits of usage_maskM *)
Definition TARU_UM_MODE : Z := 1.
Definition TARU_UM_UID : Z := 2.
Definition TARU_UM_GID : Z := 4.
Definition TARU_UM_OWNER : Z := 8.
Definition TARU_UM_GROUP : Z := 16.
Definition TARU_UM_MTIME : Z := 32.
Definition TARU_UM_IS_VOLATILE : Z := 64.

(** ** The conversion *)

(** What was seen: did_uname, did_gname, did_uid, did_gid, and the type. *)
Record seen := mkSEEN {
  did_uname : bool;
  did_gname : bool;
  did_uid : bool;
  did_gid : bool;
  info_filetype : ascii;
}.

Definition nothing_seen : seen := mkSEEN false false false false NUL.

Definition use (bit : Z) (h : new_cpio_header) : new_cpio_header := put_usage_maskM (Z.lor (usage_maskM h) bit) h.

(** atol and strtoul with the base 10, as unsigned long. *)
Definition atol_ul (value : bytes) : Z := to_size (fst (strtol value)).
Definition strtoul_10 (value : bytes) : Z := fst (fst (strtoul value)).
Definition atoi_ul (value : bytes) : Z := to_size (fst (fst (swlib_atoi2 value))).

(** The digests are texts in fields of a fixed size. *)
Definition store_size (digs : FILE_DIGS) (value : bytes) : option FILE_DIGS :=
  m ← swlib_strncpy (dg_size digs) 0 value 32;
  Some (mkDIGS (do_poisonM digs) (dg_md5 digs) (do_md5 digs) (dg_sha1 digs) (do_sha1 digs) (dg_sha512 digs) (do_sha512 digs) m DIGS_ENABLE_ON).
Definition store_md5 (digs : FILE_DIGS) (value : bytes) : option FILE_DIGS :=
  m ← swlib_strncpy (dg_md5 digs) 0 value 33;
  Some (mkDIGS (do_poisonM digs) m DIGS_ENABLE_ON (dg_sha1 digs) (do_sha1 digs) (dg_sha512 digs) (do_sha512 digs) (dg_size digs) (do_size digs)).
Definition store_sha1 (digs : FILE_DIGS) (value : bytes) : option FILE_DIGS :=
  m ← swlib_strncpy (dg_sha1 digs) 0 value 41;
  Some (mkDIGS (do_poisonM digs) (dg_md5 digs) (do_md5 digs) m DIGS_ENABLE_ON (dg_sha512 digs) (do_sha512 digs) (dg_size digs) (do_size digs)).
Definition store_sha512 (digs : FILE_DIGS) (value : bytes) : option FILE_DIGS :=
  m ← swlib_strncpy (dg_sha512 digs) 0 value 129;
  Some (mkDIGS (do_poisonM digs) (dg_md5 digs) (do_md5 digs) (dg_sha1 digs) (do_sha1 digs) m DIGS_ENABLE_ON (dg_size digs) (do_size digs)).

Definition filling : Type := new_cpio_header * FILE_DIGS * seen.

(** One attribute; the type is the first byte of the value, NUL when it is empty. *)
Definition file_attribute (key value : bytes) (f : filling) : option filling :=
  let '(h, digs, s) := f in
  let key_is k := strcmp key (L k) =? 0 in
  if key_is "mode" then Some (use TARU_UM_MODE (put_c_mode (Z.land (fst (taru_otoul value)) 4095) h), digs, s)
  else if key_is "size" then digs ← store_size digs value; Some (put_c_filesize (atol_ul value) h, digs, s)
  else if key_is "path" then Some (ahsStaticSetTarFilename h value, digs, s)
  else if key_is "uid" then
    Some (use TARU_UM_UID (put_c_uid (atol_ul value) h), digs, mkSEEN (did_uname s) (did_gname s) true (did_gid s) (info_filetype s))
  else if key_is "gid" then
    Some (use TARU_UM_GID (put_c_gid (atol_ul value) h), digs, mkSEEN (did_uname s) (did_gname s) (did_uid s) true (info_filetype s))
  else if key_is "link_source" then Some (ahsStaticSetPaxLinkname h value, digs, s)
  else if key_is "owner" then
    Some (use TARU_UM_OWNER (ahsStaticSetTarUsername h value), digs, mkSEEN true (did_gname s) (did_uid s) (did_gid s) (info_filetype s))
  else if key_is "group" then
    Some (use TARU_UM_GROUP (ahsStaticSetTarGroupname h value), digs, mkSEEN (did_uname s) true (did_uid s) (did_gid s) (info_filetype s))
  else if key_is "mtime" then Some (use TARU_UM_MTIME (put_c_mtime (strtoul_10 value) h), digs, s)
  else if key_is "major" then Some (put_c_rdev_maj (atoi_ul value) h, digs, s)
  else if key_is "minor" then Some (put_c_rdev_min (atoi_ul value) h, digs, s)
  else if key_is "md5sum" then digs ← store_md5 digs value; Some (h, digs, s)
  else if key_is "sha1sum" then digs ← store_sha1 digs value; Some (h, digs, s)
  else if key_is "sha512sum" then digs ← store_sha512 digs value; Some (h, digs, s)
  else if key_is "type" then
    Some (h, digs, mkSEEN (did_uname s) (did_gname s) (did_uid s) (did_gid s) (hd NUL value))
  else if key_is "is_volatile" then Some (use TARU_UM_IS_VOLATILE h, digs, s)
  else Some (h, digs, s).

(** while (attr = next attribute) *)
Fixpoint file_attributes_loop (fuel : nat) (f : filling) : Hd filling :=
  match fuel with
  | O => out_of_fuel
  | S fuel =>
      let! attr := swheader_get_next_attribute in
      match attr with
      | None => ret f
      | Some attr =>
          let! k := on_image (keyword_text attr) in
          let! k := lift k in
          let! v := on_image (swheaderline_get_value attr) in
          let! v := lift v in
          let! v := on_image (reads (fun m => str_at m (fst v))) in
          let! f := lift (file_attribute k v f) in
          file_attributes_loop fuel f
      end
  end.

(** The type bits. *)
Definition type_bits (s : seen) (h : new_cpio_header) : option new_cpio_header :=
  let tartype := swheader_getTarTypeFromTypeAttribute (info_filetype s) in
  let h := put_c_is_tar_lnktype (if ceq tartype LNKTYPE then 1 else 0) h in
  '(modet, _) ← taru_set_filetype_from_tartype tartype (c_mode h mod 2 ^ 32) (Some (L "/"));
  Some (put_c_mode modet h).

(** How the user and the group are looked up. *)
Definition lookup_policy (s : seen) (h : new_cpio_header) : new_cpio_header :=
  let h := if did_uname s && did_uid s then put_c_cu TARU_C_BY_UNONE h
           else if did_uid s then put_c_cu TARU_C_BY_UNONE (ahsStaticSetTarUsername h [])
           else h in
  if did_gname s && did_gid s then put_c_cg TARU_C_BY_UNONE h
  else if did_gid s then put_c_cg TARU_C_BY_UNONE (ahsStaticSetTarGroupname h [])
  else h.

(** The ids of names that came without one. *)
Definition look_up_ids `{SysDB} (s : seen) (h : new_cpio_header) (c : SYSDBCACHES) : option (new_cpio_header * SYSDBCACHES) :=
  '(h, g) ← (if did_gid s then Some (h, groupCacheM c)
             else '(g, gid, r) ← taru_get_gid_by_name (groupCacheM c) (c_groupname h);
                  if r =? 0 then gid ← gid; Some (put_c_gid gid h, g) else Some (h, g));
  '(h, u) ← (if did_uid s then Some (h, userCacheM c)
             else '(u, uid, r) ← taru_get_uid_by_name (userCacheM c) (c_username h);
                  if r =? 0 then uid ← uid; Some (put_c_uid uid h, u) else Some (h, u));
  Some (h, mkSYSDBCACHES u g).

Section Conversion.
Context `{Malloc} `{SysDB} (now : Z).

(** The header, its digests, the caches and the result; the position stays. *)
Definition swheader_fileobject2filehdr (file_hdr : new_cpio_header) (digsM : option FILE_DIGS) (c : SYSDBCACHES)
    : Hd (new_cpio_header * FILE_DIGS * SYSDBCACHES * Z) :=
  let! digs := lift (taru_init_header_digs digsM) in
  let! state := swheader_store_state in
  let! fuel := gets image_fuel in
  let! (h, digs, s) := file_attributes_loop fuel (taru_init_header now file_hdr, digs, nothing_seen) in
  let! h := lift (type_bits s h) in
  let h := lookup_policy s h in
  if (negb (did_gname s) && negb (did_gid s)) || (negb (did_uname s) && negb (did_uid s)) then
    do! swheader_restore_state (Some state) in
    ret (h, digs, c, 1)
  else
    let! (h, c) := lift (look_up_ids s h c) in
    do! swheader_restore_state (Some state) in
    ret (h, digs, c, 0).
End Conversion.
