(* ===== verification/MetaSpec.v ===== *)
(** * Specification of metadata lines

    [line_bytes l]: a line as the parser writes it and as the getters leave it,
    whole or with a NUL behind its keyword or value.  Every getter is run on a
    line in the middle of an image; what it changes are these two marks. *)

From S2P Require Import Prelude CString Decimals Strob Escape Effects MetaLine.
Local Open Scope effects_scope.

(** ** Accesses by position *)

(** The image is named by what is in front of the access and what follows. *)
Section Access.
Implicit Types (m pre post s : bytes) (p : Z).

Lemma mem_at_app pre post p : p = zlen pre -> mem_at (pre ++ post) p = Some post.
Proof.
  intros ->. pose proof (zlen_nonneg pre). pose proof (zlen_nonneg post). rewrite mem_at_in by zl.
  unfold zlen. by rewrite Nat2Z.id, drop_app_length.
Qed.

Lemma runs_peek m p c pre post : m = pre ++ c :: post -> p = zlen pre -> runs (peek p) m m c.
Proof.
  intros -> ->. apply runs_reads. unfold mem_read. pose proof (zlen_nonneg pre). ztest.
  unfold zlen. rewrite Nat2Z.id. apply list_lookup_middle. done.
Qed.

Lemma runs_poke m m' p c d pre post :
  m = pre ++ c :: post -> p = zlen pre -> m' = pre ++ d :: post -> runs (poke p d) m m' ().
Proof.
  intros -> -> ->. apply runs_updates. unfold mem_write. pose proof (zlen_nonneg pre). pose proof (zlen_nonneg post).
  assert (zlen [d] = 1) as -> by done. rewrite zlen_app, zlen_cons. ztest. f_equal. unfold zlen. rewrite Nat2Z.id.
  rewrite take_app_length, <- drop_drop, drop_app_length. done.
Qed.

Lemma find_index_first (test : ascii -> bool) s c post :
  Forall (fun c => test c = true) s -> test c = false ->
  find_index (fun c => negb (test c)) (s ++ c :: post) = Some (length s).
Proof.
  intros Hs Hc. induction Hs as [|d s Hd Hs IH]; cbn [app find_index length].
  - by rewrite Hc.
  - rewrite Hd. cbn [negb]. by rewrite IH.
Qed.

Lemma runs_skip test m p q pre s c post :
  m = pre ++ s ++ c :: post -> p = zlen pre -> Forall (fun c => test c = true) s -> test c = false -> q = p + zlen s ->
  runs (skip_while test p) m m q.
Proof.
  intros -> -> Hs Hc ->. apply runs_reads. rewrite mem_at_app by done. obind. by rewrite find_index_first.
Qed.

Lemma str_at_app pre s post p : p = zlen pre -> no_nul s -> str_at (pre ++ s ++ NUL :: post) p = Some s.
Proof.
  intros -> Hs. unfold str_at. rewrite mem_at_app by done. obind. by rewrite terminated_nul, cstr_app_nul.
Qed.

Lemma runs_strlen m p n pre s post :
  m = pre ++ s ++ NUL :: post -> p = zlen pre -> no_nul s -> n = zlen s -> runs (strlen_of p) m m n.
Proof. intros -> -> Hs ->. apply runs_reads. unfold strlen_at. by rewrite str_at_app. Qed.
End Access.

(** Two images made of the same pieces. *)
Ltac same_image := subst; repeat rewrite <- app_assoc; cbn [app]; repeat rewrite <- app_assoc; cbn [app]; reflexivity.

(** ** The number in front of a line *)

Definition digit (c : ascii) : Prop := isdigit c = true.

(** [n] in at least one and at most nine digits, filled up to four columns. *)
Definition numeral_head (u : bytes) (n : Z) : Prop :=
  exists ds k, u = ds ++ replicate k " "%char ++ [" "%char] /\ ds <> [] /\ Forall digit ds /\ dec_value 0 ds = n
    /\ zlen ds <= 9 /\ Z.of_nat k = Z.max 0 (4 - zlen ds).

Lemma digit_range c : digit c -> 48 <= uchar c <= 57.
Proof. unfold digit, isdigit, in_range. intros [??]%andb_true_iff. zbool. lia. Qed.

Lemma digit_facts c : digit c ->
  is_nul c = false /\ isspace c = false /\ is_md_type c = false /\ ceq c " " = false /\ schar c = uchar c.
Proof.
  intros Hc. pose proof (digit_range c Hc) as Hr. destruct (digit_not_space c Hc) as (Hs & _).
  assert (Hne : forall d, uchar d < 48 \/ 57 < uchar d -> ceq c d = false)
    by (intros d Hd; apply ceq_neq; intros ->; lia).
  split_and!.
  - unfold is_nul. apply Hne. by left.
  - done.
  - unfold is_md_type. rewrite !Hne by (by right). done.
  - apply Hne. by left.
  - unfold schar. by ztest.
Qed.

Lemma dec_value_acc ds : forall a, dec_value a ds = a * 10 ^ zlen ds + dec_value 0 ds.
Proof.
  induction ds as [|c ds IH]; intros a; [unfold zlen; cbn; lia|].
  change (dec_value (10 * a + (uchar c - 48)) ds = a * 10 ^ zlen (c :: ds) + dec_value (10 * 0 + (uchar c - 48)) ds).
  rewrite IH, (IH (10 * 0 + _)), zlen_cons, Z.pow_add_r by (try apply zlen_nonneg; lia). lia.
Qed.

Lemma sum_digits_value ds : forall i n, Forall digit ds -> zlen ds = i -> i <= 9 ->
  sum_digits ds i n = Some (Returns (n + dec_value 0 ds)).
Proof.
  induction ds as [|c ds IH]; intros i n Hd Hl Hi; [cbn; do 2 f_equal; lia|].
  apply Forall_cons in Hd as [Hc Hd]. rewrite zlen_cons in Hl. pose proof (zlen_nonneg ds).
  cbn [sum_digits]. rewrite Z.geb_leb. unfold MAGNITUDE_ARRAY_LEN. ztest. rewrite IH by (done || lia). do 2 f_equal.
  change (dec_value 0 (c :: ds)) with (dec_value (10 * 0 + (uchar c - 48)) ds). rewrite (dec_value_acc ds (10 * 0 + _)).
  destruct (digit_facts c Hc) as (_ & _ & _ & _ & ->). replace (i - 1) with (zlen ds) by lia. lia.
Qed.

(** What "%-4d " prints. *)
Lemma print_left_head n : 0 <= n < 10 ^ 9 -> numeral_head (print_left 4 n ++ [" "%char]) n.
Proof.
  intros Hn. unfold print_left, print_d. ztest. exists (decimal n), (Z.to_nat (4 - zlen (decimal n))).
  assert (H20 : 0 <= n < 10 ^ 20) by lia. split_and!.
  - by rewrite <- app_assoc.
  - rewrite decimal_digs. apply digs_nonempty. lia.
  - rewrite decimal_digs. apply digs_digits.
  - rewrite decimal_digs, dec_value_digs by (done || lia). lia.
  - apply ndigits_le; lia.
  - lia.
Qed.

(** The first character, the length of the number, and where the type is. *)
Lemma numeral_head_cases u n : numeral_head u n ->
  (exists c r, u = c :: r /\ digit c)
  /\ ((exists a b c d, u = [a; b; c; d; " "%char])
      \/ exists ds a b c d e r, u = ds ++ [" "%char] /\ Forall digit ds /\ ds = a :: b :: c :: d :: e :: r).
Proof.
  intros (ds & k & -> & Hne & Hd & _ & Hl & Hk). destruct ds as [|a ds]; [done|]. split.
  { apply Forall_cons in Hd as [Ha _]. exists a. eexists. split; [reflexivity|done]. }
  destruct ds as [|b [|c [|d [|e r]]]]; unfold zlen in Hk; cbn [length] in Hk;
    [assert (k = 3%nat) as -> by lia|assert (k = 2%nat) as -> by lia|assert (k = 1%nat) as -> by lia
    |assert (k = 0%nat) as -> by lia|assert (k = 0%nat) as -> by lia];
    [left; do 4 eexists; reflexivity..|right].
  exists (a :: b :: c :: d :: e :: r), a, b, c, d, e, r. done.
Qed.

(** ** The getters on a line *)

Ltac zpos := subst; autorewrite with swlen in *; cbn [length] in *; try lia.

(** A byte at a place, found by the bytes in front of it. *)
Ltac peek_at l := eapply runs_bind; [eapply (runs_peek _ _ _ l); [same_image|zpos]|].

Lemma not_space_digit (c : ascii) : digit c -> negb (is_nul c) && negb (isspace c) = true.
Proof. intros (-> & -> & _)%digit_facts. done. Qed.

Section Getters.
Context (m pre u rest : bytes) (n : Z) (ty : ascii).
Context (Hm : m = pre ++ u ++ ty :: rest) (Hu : numeral_head u n) (Hty : is_md_type ty = true).

Lemma run_type_pointer : runs (swheaderline_get_type_pointer (zlen pre)) m m (Some (zlen pre + zlen u)).
Proof.
  destruct (numeral_head_cases u n Hu) as [(x & r & E & Hx) [(a & b & c & d & ->)|(ds & a & b & c & d & e & r' & -> & Hd & E')]];
    unfold swheaderline_get_type_pointer.
  - injection E as <- <-. peek_at pre. red in Hx. rewrite Hx.
    eapply runs_bind; [apply (runs_peek _ _ " "%char (pre ++ [a; b; c; d]) (ty :: rest)); [same_image|unfold SWPARSE_MKUP_LEN_WIDTH; zpos]|].
    change (ceq " " " ") with true. cbv iota. replace (zlen pre + zlen [a; b; c; d; " "%char]) with (zlen pre + SWPARSE_MKUP_LEN_WIDTH + 1) by (unfold SWPARSE_MKUP_LEN_WIDTH; zpos).
    apply runs_ret.
  - assert (Hx' : digit a) by (subst ds; by apply Forall_cons in Hd as []).
    assert (He : digit e) by (subst ds; repeat (apply Forall_cons in Hd as [? Hd]); done).
    eapply runs_bind; [apply (runs_peek _ _ a pre (b :: c :: d :: e :: r' ++ " "%char :: ty :: rest)); [same_image|done]|].
    red in Hx'. rewrite Hx'.
    eapply runs_bind; [apply (runs_peek _ _ e (pre ++ [a; b; c; d]) (r' ++ " "%char :: ty :: rest)); [same_image|unfold SWPARSE_MKUP_LEN_WIDTH; zpos]|].
    destruct (digit_facts e He) as (_ & _ & _ & -> & _).
    eapply runs_bind; [apply (runs_skip isdigit m _ (zlen pre + zlen ds) pre ds " "%char (ty :: rest)); [same_image|done|done|done|done]|].
    eapply runs_bind; [apply (runs_peek _ _ " "%char (pre ++ ds) (ty :: rest)); [same_image|zpos]|]. cbn [negb ceq].
    change (ceq " " " ") with true. cbv iota beta.
    eapply runs_bind; [apply (runs_peek _ _ ty (pre ++ ds ++ [" "%char]) rest); [same_image|zpos]|]. rewrite Hty.
    replace (zlen pre + zlen (ds ++ [" "%char])) with (zlen pre + zlen ds + 1) by zpos. apply runs_ret.
Qed.

Lemma run_type : runs (swheaderline_get_type (zlen pre)) m m ty.
Proof.
  unfold swheaderline_get_type. eapply runs_bind; [apply run_type_pointer|].
  apply (runs_peek _ _ _ (pre ++ u) rest); [same_image|zpos].
Qed.
End Getters.

(** A keyword: not empty, without blanks. *)
Definition word (s : bytes) : Prop := s <> [] /\ Forall (fun c => negb (is_nul c) && negb (isspace c) = true) s.

Lemma word_no_nul s : word s -> no_nul s.
Proof.
  intros [_ Hs] Hin. rewrite Forall_forall in Hs. by specialize (Hs _ Hin).
Qed.

Section Keywords.
Context (m pre u tail key : bytes) (n : Z) (ty l1 l2 sep : ascii).
Context (Hm : m = pre ++ u ++ ty :: l1 :: l2 :: " "%char :: key ++ sep :: tail).
Context (Hu : numeral_head u n) (Hty : is_md_type ty = true) (Hkey : word key) (Hsep : is_nul sep || isspace sep = true).

Definition keyword_offset : Z := zlen pre + zlen u + 4.
Definition cut_image : bytes := pre ++ u ++ ty :: l1 :: l2 :: " "%char :: key ++ NUL :: tail.

Lemma run_level : runs (swheaderline_get_level (zlen pre)) m m (schar l2 - 48).
Proof.
  unfold swheaderline_get_level. eapply runs_bind; [by eapply run_type_pointer|].
  eapply runs_bind; [apply (runs_peek _ _ l2 (pre ++ u ++ [ty; l1]) (" "%char :: key ++ sep :: tail)); [same_image|zpos]|].
  apply runs_ret.
Qed.

Lemma run_keyword_at : runs (keyword_at (zlen pre + zlen u)) m cut_image (Some keyword_offset).
Proof.
  pose proof Hkey as [Hne Hw]. destruct key as [|k ks] eqn:Ek; [done|]. pose proof Hw as Hw'. apply Forall_cons in Hw' as [Hk _].
  assert (Hks : isspace k = false) by (destruct (isspace k); [by rewrite andb_false_r in Hk|done]).
  assert (Hs' : negb (is_nul sep) && negb (isspace sep) = false) by (by rewrite <- negb_orb, Hsep).
  unfold keyword_at. eapply runs_bind.
  { eapply (runs_skip isspace m _ keyword_offset (pre ++ u ++ [ty; l1; l2]) [" "%char] k (ks ++ sep :: tail));
      [same_image|zpos|by repeat constructor|done|unfold keyword_offset; zpos]. }
  eapply runs_bind.
  { eapply (runs_skip _ m _ (keyword_offset + zlen (k :: ks)) (pre ++ u ++ [ty; l1; l2; " "%char]) (k :: ks) sep tail);
      [same_image|unfold keyword_offset; zpos|done|done|done]. }
  eapply runs_bind; [|apply runs_ret].
  apply (runs_poke _ _ _ sep NUL (pre ++ u ++ ty :: l1 :: l2 :: " "%char :: k :: ks) tail);
    [same_image|unfold keyword_offset; zpos|unfold cut_image; same_image].
Qed.

Lemma run_get_keyword : runs (swheaderline_get_keyword (zlen pre)) m cut_image (Some keyword_offset).
Proof.
  destruct (numeral_head_cases u n Hu) as [(x & r & E & Hx) Hcase].
  unfold swheaderline_get_keyword.
  eapply runs_bind; [apply (runs_peek _ _ x pre (r ++ ty :: l1 :: l2 :: " "%char :: key ++ sep :: tail)); [same_image|done]|].
  red in Hx. rewrite Hx. clear E.
  destruct Hcase as [(a & b & c & d & E)|(ds & a & b & c & d & e & r' & E & Hd & E')].
  - eapply runs_bind; [apply (runs_peek _ _ ty (pre ++ u) (l1 :: l2 :: " "%char :: key ++ sep :: tail)); [same_image|unfold SWPARSE_MKUP_LEN_WIDTH; zpos]|].
    rewrite Hty. replace (zlen pre + SWPARSE_MKUP_LEN_WIDTH + 1) with (zlen pre + zlen u) by (unfold SWPARSE_MKUP_LEN_WIDTH; zpos).
    apply run_keyword_at.
  - assert (exists f r'', r' ++ [" "%char] = f :: r'' /\ is_md_type f = false) as (f & r'' & Ef & Hf).
    { subst ds. destruct r' as [|f r'']; [by eexists _, []|]. exists f, (r'' ++ [" "%char]). split; [done|].
      repeat (apply Forall_cons in Hd as [? Hd]). by apply digit_facts. }
    eapply runs_bind; [apply (runs_peek _ _ f (pre ++ [a; b; c; d; e]) (r'' ++ ty :: l1 :: l2 :: " "%char :: key ++ sep :: tail))|].
    { subst m u ds. rewrite <- !app_assoc. cbn [app]. change (" "%char :: ty :: ?t) with ([" "%char] ++ ty :: t).
      rewrite (app_assoc r'), Ef. reflexivity. }
    { unfold SWPARSE_MKUP_LEN_WIDTH. zpos. }
    rewrite Hf. eapply runs_bind; [by eapply run_type_pointer|]. apply run_keyword_at.
Qed.
End Keywords.

Lemma run_value_length m pre u rest n : m = pre ++ u ++ rest -> numeral_head u n ->
  runs (swheaderline_get_value_length (zlen pre)) m m n.
Proof.
  intros Hm Hu. destruct (numeral_head_cases u n Hu) as [(x & r & E & Hx) _].
  destruct Hu as (ds & k & E2 & Hne & Hd & Hv & Hl & _). unfold swheaderline_get_value_length.
  eapply runs_bind; [apply (runs_peek _ _ x pre (r ++ rest)); [by rewrite Hm, E|done]|]. red in Hx. rewrite Hx. cbn [negb].
  set (b := replicate k " "%char ++ [" "%char] ++ rest).
  assert (exists y, b = " "%char :: y) as [y Ey] by (subst b; destruct k; eexists; reflexivity).
  assert (Em : m = pre ++ ds ++ " "%char :: y) by (rewrite <- Ey; subst b m u; by rewrite <- !app_assoc).
  eapply runs_bind.
  { apply (runs_skip _ m _ (zlen pre + zlen ds) pre ds " "%char y); [exact Em|done| |done|done].
    eapply Forall_impl; [exact Hd|]. intros c Hc. by apply not_space_digit. }
  unfold runs. rewrite Em at 1. rewrite mem_at_app by done. obind.
  replace (zlen pre + zlen ds - zlen pre) with (zlen ds) by lia. unfold zlen at 1. rewrite Nat2Z.id, take_app_length.
  rewrite sum_digits_value by (done || lia). obind. by rewrite Hv.
Qed.

(** ** Lines *)

Record mline := mkLine { ml_obj : bool; ml_level : Z; ml_key : bytes; ml_value : bytes }.

(** What was written over the line: the NUL behind the keyword, the one behind
    the value, and the flag of an object. *)
Record marks := mkMarks { mk_key : bool; mk_value : bool; mk_flag : bool }.

Definition line_ok (l : mline) : Prop :=
  word (ml_key l) /\ 0 <= ml_level l <= 9 /\ no_nul (ml_value l) /\ zlen (ml_value l) < 10 ^ 9
  /\ (ml_obj l = true -> ml_value l = []).

Definition line_head (l : mline) (k : marks) : bytes :=
  if ml_obj l then ["0"%char; if mk_flag k then "0"%char else " "%char; " "%char; " "%char; " "%char]
  else print_left SWPARSE_MKUP_LEN_WIDTH (zlen (ml_value l)) ++ [" "%char].

Definition line_type (l : mline) : ascii := if ml_obj l then SWPARSE_MD_TYPE_OBJ else SWPARSE_MD_TYPE_ATT.
Definition level_char (l : mline) : ascii := to_char (48 + ml_level l).
Definition line_sep (l : mline) (k : marks) : ascii :=
  if mk_key k then NUL else if ml_obj l then "010"%char else " "%char.
Definition line_tail (l : mline) (k : marks) : bytes :=
  if ml_obj l then [] else ml_value l ++ [if mk_value k then NUL else "010"%char].

Definition line_bytes (l : mline) (k : marks) : bytes :=
  line_head l k ++ line_type l :: "0"%char :: level_char l :: " "%char :: ml_key l ++ line_sep l k :: line_tail l k.

Definition cut_key (k : marks) : marks := mkMarks true (mk_value k) (mk_flag k).
Definition cut_value (k : marks) : marks := mkMarks true true (mk_flag k).

Lemma line_head_number l k : line_ok l -> numeral_head (line_head l k) (zlen (ml_value l)).
Proof.
  intros (_ & _ & _ & Hv & Ho). unfold line_head. destruct (ml_obj l).
  - rewrite Ho by done. destruct (mk_flag k); [exists ["0"%char; "0"%char], 2%nat|exists ["0"%char], 3%nat];
      (split_and!; [done|done|by repeat constructor|done|done|done]).
  - apply print_left_head. pose proof (zlen_nonneg (ml_value l)). lia.
Qed.

Lemma line_type_known l : is_md_type (line_type l) = true.
Proof. unfold line_type. by destruct (ml_obj l). Qed.

Lemma line_sep_ends l k : is_nul (line_sep l k) || isspace (line_sep l k) = true.
Proof. unfold line_sep. destruct (mk_key k), (ml_obj l); done. Qed.

Lemma line_head_length l k k' : zlen (line_head l k) = zlen (line_head l k').
Proof. unfold line_head. by destruct (ml_obj l). Qed.

Lemma line_length l k k' : zlen (line_bytes l k) = zlen (line_bytes l k').
Proof.
  unfold line_bytes, line_tail. rewrite !zlen_app, (line_head_length l k k'). rewrite !zlen_cons, !zlen_app, !zlen_cons.
  destruct (ml_obj l); [done|]. by rewrite !zlen_app.
Qed.

(** The offset of the keyword in the line. *)
Definition key_at (l : mline) : Z := zlen (line_head l (mkMarks false false false)) + 4.
Definition value_at (l : mline) : Z := key_at l + zlen (ml_key l) + (if ml_obj l then 0 else 1).

Lemma key_at_head l k : key_at l = zlen (line_head l k) + 4.
Proof. unfold key_at. by rewrite (line_head_length l _ k). Qed.

(** ** The getters on a line of an image *)

Section OnLine.
Context (pre post : bytes) (l : mline) (k : marks).
Context (Hl : line_ok l).

Definition image_of (k : marks) : bytes := pre ++ line_bytes l k ++ post.

Lemma image_parts k' :
  image_of k' = pre ++ line_head l k' ++ line_type l :: "0"%char :: level_char l :: " "%char :: ml_key l ++ line_sep l k' :: (line_tail l k' ++ post).
Proof. unfold image_of, line_bytes. same_image. Qed.

Lemma cut_image_key :
  cut_image pre (line_head l k) (line_tail l k ++ post) (ml_key l) (line_type l) "0" (level_char l) = image_of (cut_key k).
Proof. rewrite image_parts. unfold cut_image, line_sep, line_tail, line_head, cut_key. by destruct (ml_obj l). Qed.

Lemma line_get_type : runs (swheaderline_get_type (zlen pre)) (image_of k) (image_of k) (line_type l).
Proof.
  eapply run_type; [apply image_parts|by apply line_head_number|apply line_type_known].
Qed.

Lemma line_get_level : runs (swheaderline_get_level (zlen pre)) (image_of k) (image_of k) (ml_level l).
Proof.
  assert (E : schar (level_char l) - 48 = ml_level l).
  { destruct Hl as (_ & Hv & _). unfold schar, level_char. rewrite uchar_to_char, Z.mod_small by lia. ztest. lia. }
  rewrite <- E.
  eapply run_level; [apply image_parts|by apply line_head_number|apply line_type_known].
Qed.

Lemma line_get_keyword :
  runs (swheaderline_get_keyword (zlen pre)) (image_of k) (image_of (cut_key k)) (Some (zlen pre + key_at l)).
Proof.
  rewrite <- cut_image_key, (key_at_head l k), Z.add_assoc. destruct Hl as (Hk & _).
  eapply run_get_keyword; [apply image_parts|by apply line_head_number|apply line_type_known|done|apply line_sep_ends].
Qed.

Lemma line_get_value_length : runs (swheaderline_get_value_length (zlen pre)) (image_of k) (image_of k) (zlen (ml_value l)).
Proof. eapply run_value_length; [apply image_parts|by apply line_head_number]. Qed.

(** The text of a keyword that was cut. *)
Lemma line_key_text : mk_key k = true -> str_at (image_of k) (zlen pre + key_at l) = Some (ml_key l).
Proof.
  intros Hc. destruct Hl as (Hk & _). rewrite image_parts, (key_at_head l k). unfold line_sep. rewrite Hc.
  replace (pre ++ line_head l k ++ line_type l :: "0"%char :: level_char l :: " "%char :: ml_key l ++ NUL :: line_tail l k ++ post)
    with ((pre ++ line_head l k ++ [line_type l; "0"%char; level_char l; " "%char]) ++ ml_key l ++ NUL :: (line_tail l k ++ post)) by same_image.
  apply str_at_app; [zpos|by apply word_no_nul].
Qed.

Lemma line_key_strlen : mk_key k = true -> runs (strlen_of (zlen pre + key_at l)) (image_of k) (image_of k) (zlen (ml_key l)).
Proof. intros Hc. apply runs_reads. unfold strlen_at. by rewrite line_key_text. Qed.

Lemma line_value_text : ml_obj l = false -> mk_value k = true -> str_at (image_of k) (zlen pre + value_at l) = Some (ml_value l).
Proof.
  intros Ho Hc. destruct Hl as (_ & _ & Hv & _). rewrite image_parts. unfold value_at. rewrite (key_at_head l k), Ho.
  unfold line_tail. rewrite Ho, Hc.
  replace (pre ++ line_head l k ++ line_type l :: "0"%char :: level_char l :: " "%char :: ml_key l ++ line_sep l k :: (ml_value l ++ [NUL]) ++ post)
    with ((pre ++ line_head l k ++ line_type l :: "0"%char :: level_char l :: " "%char :: ml_key l ++ [line_sep l k]) ++ ml_value l ++ NUL :: post) by same_image.
  apply str_at_app; [zpos|done].
Qed.

Lemma line_end_poke : ml_obj l = false ->
  runs (poke (zlen pre + value_at l + zlen (ml_value l)) NUL) (image_of (cut_key k)) (image_of (cut_value k)) ().
Proof.
  intros Ho. unfold value_at. rewrite (key_at_head l (cut_key k)), Ho, !image_parts.
  unfold line_tail, line_sep, line_head, cut_key, cut_value. rewrite Ho. cbn [mk_key mk_value mk_flag].
  set (u := print_left SWPARSE_MKUP_LEN_WIDTH (zlen (ml_value l)) ++ [" "%char]).
  apply (runs_poke _ _ _ (if mk_value k then NUL else "010"%char) NUL
    (pre ++ u ++ line_type l :: "0"%char :: level_char l :: " "%char :: ml_key l ++ NUL :: ml_value l) post);
    [same_image|zpos|same_image].
Qed.
End OnLine.

Lemma line_get_value pre post l k : line_ok l ->
  runs (swheaderline_get_value (zlen pre)) (image_of pre post l k)
    (image_of pre post l (if ml_obj l then cut_key k else cut_value k))
    (Some (zlen pre + value_at l, zlen (ml_value l))).
Proof.
  intros Hl. unfold swheaderline_get_value, get_value. eapply runs_bind; [by apply line_get_keyword|]. cbv beta iota.
  eapply runs_bind; [by apply line_get_type|].
  assert (Hn : runs (strlen_of (zlen pre + key_at l)) (image_of pre post l (cut_key k)) (image_of pre post l (cut_key k)) (zlen (ml_key l)))
    by (by apply line_key_strlen).
  destruct (ml_obj l) eqn:Ho; unfold line_type; rewrite Ho; cbn [ceq].
  - change (ceq SWPARSE_MD_TYPE_OBJ SWPARSE_MD_TYPE_OBJ) with true. cbv iota. eapply runs_bind; [exact Hn|].
    destruct Hl as (_ & _ & _ & _ & Hv). rewrite (Hv Ho). unfold value_at. rewrite Ho.
    replace (zlen pre + (key_at l + zlen (ml_key l) + 0)) with (zlen pre + key_at l + zlen (ml_key l)) by lia. apply runs_ret.
  - change (ceq SWPARSE_MD_TYPE_ATT SWPARSE_MD_TYPE_OBJ) with false. cbv iota.
    eapply runs_bind; [by apply line_get_value_length|]. eapply runs_bind; [exact Hn|].
    assert (E : zlen pre + key_at l + zlen (ml_key l) + 1 = zlen pre + value_at l) by (unfold value_at; rewrite Ho; lia).
    eapply runs_bind; [apply runs_when_true; rewrite E; by apply line_end_poke|].
    eapply runs_bind; [by apply line_key_strlen|]. rewrite E. apply runs_ret.
Qed.
