(* ===== verification/MetaHeaderSpec.v ===== *)
(** * Specification of the metadata reader

    An image is the line that names the file, the lines of the objects and
    attributes, and a NUL.  Whatever a SWHEADER does to the image, it stays the
    same metadata; its position is one of the lines, and every operation is run
    on the list of lines. *)

From S2P Require Import Prelude CString Decimals Strob Escape Effects Swuts Swverid Sdflt MetaLine MetaHeader MetaSpec.
Local Open Scope effects_scope.

(** ** Images *)

Abbreviation marked := (mline * marks)%type.

Definition lines_bytes (ls : list marked) : bytes := concat (map (fun x => line_bytes x.1 x.2) ls).
Definition line_len (l : mline) : Z := zlen (line_bytes l (mkMarks false false false)).
Definition lines_len (L : list mline) : Z := foldr (fun l n => line_len l + n) 0 L.

(** The line that names the file. *)
Definition file_line (f : bytes) : Prop :=
  exists u n s, f = u ++ SWPARSE_MD_TYPE_FILEREF :: s ++ ["010"%char] /\ numeral_head u n
    /\ Forall (fun c => ceq MD_NEWLINE c = false) (u ++ SWPARSE_MD_TYPE_FILEREF :: s) /\ no_nul f.

Lemma lines_bytes_len ls : zlen (lines_bytes ls) = lines_len ls.*1.
Proof.
  induction ls as [|[l k] ls IH]; [done|]. change (lines_bytes ((l, k) :: ls)) with (line_bytes l k ++ lines_bytes ls).
  rewrite zlen_app, IH, (line_length l k (mkMarks false false false)). done.
Qed.

Lemma lines_len_app a b : lines_len (a ++ b) = lines_len a + lines_len b.
Proof. induction a as [|l a IH]; cbn [app lines_len foldr]; [done|]. fold (lines_len (a ++ b)) (lines_len a). lia. Qed.

Lemma line_len_pos l : 0 < line_len l.
Proof.
  unfold line_len, line_bytes. rewrite zlen_app, zlen_cons. pose proof (zlen_nonneg (line_head l (mkMarks false false false))).
  pose proof (zlen_nonneg ("0"%char :: level_char l :: " "%char :: ml_key l ++ line_sep l (mkMarks false false false) :: line_tail l (mkMarks false false false))).
  lia.
Qed.

Lemma lines_len_nonneg L : 0 <= lines_len L.
Proof. induction L as [|l L IH]; cbn; [done|]. pose proof (line_len_pos l). fold (lines_len L). lia. Qed.

(** Where a SWHEADER can stand. *)
Inductive place := AtStart | AtLine (i : nat) | AtEnd.

Section Reading.
Context (f junk : bytes) (saved : SWHEADER_STATE) (ints : list Z).

Definition image (ls : list marked) : bytes := f ++ lines_bytes ls ++ NUL :: junk.
Definition line_at (L : list mline) (i : nat) : Z := zlen f + lines_len (take i L).
Definition offset (L : list mline) (x : place) : Z :=
  match x with AtStart => 0 | AtLine i => line_at L i | AtEnd => -1 end.
Definition header (ls : list marked) (x : place) (count : Z) : SWHEADER :=
  mkSWHEADER (image ls) POwn (offset ls.*1 x) saved ints count.

(** The metadata: the image fits into an int. *)
Definition metadata_ok (L : list mline) : Prop :=
  file_line f /\ Forall line_ok L /\ zlen f + lines_len L < INT_MAX.

(** From place [x] and counter [c] the operation returns [r] and leaves [x'] and
    [c']; the metadata stays. *)
Definition does {A} (op : Hd A) (L : list mline) (x : place) (c : Z) (x' : place) (c' : Z) (r : A) : Prop :=
  forall ls, ls.*1 = L -> exists ls', ls'.*1 = L /\ runs op (header ls x c) (header ls' x' c') r.

Lemma does_bind {A B} (m : Hd A) (k : A -> Hd B) L x c x1 c1 x2 c2 a b :
  does m L x c x1 c1 a -> does (k a) L x1 c1 x2 c2 b -> does (bind m k) L x c x2 c2 b.
Proof.
  intros H1 H2 ls E. destruct (H1 ls E) as (ls1 & E1 & R1). destruct (H2 ls1 E1) as (ls2 & E2 & R2).
  exists ls2. split; [done|]. by eapply runs_bind.
Qed.

Lemma does_ret {A} (a : A) L x c : does (ret a) L x c x c a.
Proof. intros ls E. exists ls. done. Qed.

Lemma does_same {A} (op : Hd A) L x c x' c' r :
  (forall ls, ls.*1 = L -> runs op (header ls x c) (header ls x' c') r) -> does op L x c x' c' r.
Proof. intros H ls E. exists ls. split; [done|]. by apply H. Qed.

Lemma does_lift {A} (o : option A) L x c a : o = Some a -> does (lift o) L x c x c a.
Proof. intros ->. by apply does_same. Qed.

(** ** A line of the image *)

Lemma image_line ls i l k : ls !! i = Some (l, k) ->
  image ls = image_of (f ++ lines_bytes (take i ls)) (lines_bytes (drop (S i) ls) ++ NUL :: junk) l k.
Proof.
  intros Hi. unfold image, image_of. rewrite <- (take_drop_middle ls i (l, k)) at 1 by done.
  unfold lines_bytes. rewrite map_app, concat_app. cbn [map concat fst snd]. by rewrite <- !app_assoc.
Qed.

Lemma line_place ls i : zlen (f ++ lines_bytes (take i ls)) = line_at ls.*1 i.
Proof. rewrite zlen_app, lines_bytes_len. unfold line_at. by rewrite fmap_take. Qed.

Lemma image_marked ls i l k k' : ls !! i = Some (l, k) ->
  image_of (f ++ lines_bytes (take i ls)) (lines_bytes (drop (S i) ls) ++ NUL :: junk) l k' = image (<[i := (l, k')]> ls).
Proof.
  intros Hi. pose proof (lookup_lt_Some _ _ _ Hi). rewrite (image_line (<[i := (l, k')]> ls) i l k').
  - by rewrite take_insert_ge, drop_insert_lt by lia.
  - by apply list_lookup_insert_eq.
Qed.

Lemma marked_lines (ls : list marked) i l k k' : ls !! i = Some (l, k) -> (<[i := (l, k')]> ls).*1 = ls.*1.
Proof.
  intros Hi. rewrite list_fmap_insert. cbn. apply list_insert_id. by rewrite list_lookup_fmap, Hi.
Qed.

(** A getter on line [i] of the image. *)
Lemma on_line {A} (op : Z -> Img A) ls i l k k' r :
  ls !! i = Some (l, k) ->
  (forall pre post, runs (op (zlen pre)) (image_of pre post l k) (image_of pre post l k') (r (zlen pre))) ->
  runs (op (line_at ls.*1 i)) (image ls) (image (<[i := (l, k')]> ls)) (r (line_at ls.*1 i)).
Proof.
  intros Hi Hr. rewrite <- line_place, <- (image_marked ls i l k k' Hi), (image_line ls i l k Hi). apply Hr.
Qed.

(** The same on the SWHEADER. *)
Lemma does_on_line {A} (op : Z -> Img A) L i l x c (r : Z -> A) (g : marks -> marks) :
  L !! i = Some l ->
  (forall pre post k, runs (op (zlen pre)) (image_of pre post l k) (image_of pre post l (g k)) (r (zlen pre))) ->
  does (on_image (op (line_at L i))) L x c x c (r (line_at L i)).
Proof.
  intros Hi Hr ls <-. rewrite list_lookup_fmap in Hi. destruct (ls !! i) as [[l' k]|] eqn:E; [|done].
  injection Hi as [= ->]. exists (<[i := (l, g k)]> ls). split; [by eapply marked_lines|].
  unfold header. rewrite (marked_lines ls i l k (g k) E).
  apply (runs_zoom image_head_ put_image (op (line_at ls.*1 i)) (mkSWHEADER (image ls) POwn (offset ls.*1 x) saved ints c)).
  apply (on_line op ls i l k (g k) r E). intros. apply Hr.
Qed.

(** ** The iterator *)

Lemma line_total l k : zlen (line_bytes l k) = key_at l + zlen (ml_key l) + (if ml_obj l then 0 else zlen (ml_value l) + 1) + 1.
Proof.
  unfold line_bytes, line_tail. rewrite (key_at_head l k), zlen_app, !zlen_cons, zlen_app, zlen_cons.
  destruct (ml_obj l); [rewrite zlen_nil|rewrite zlen_snoc]; lia.
Qed.

Lemma runs_next_line pre post l k ch (peek_only : bool) : line_ok l ->
  runs (next_line (zlen pre) peek_only) (image_of pre (ch :: post) l k) (image_of pre (ch :: post) l (cut_key k))
    (if is_nul ch then (None, if peek_only then zlen pre else -1)
     else (Some (zlen pre + zlen (line_bytes l k)), if peek_only then zlen pre else to_int (zlen pre + zlen (line_bytes l k)))).
Proof.
  intros Hl. unfold next_line. eapply runs_bind; [by apply line_get_type|].
  assert (ceq (line_type l) "F" = false) as -> by (unfold line_type; by destruct (ml_obj l)).
  eapply runs_bind; [by apply line_get_keyword|]. cbv beta iota.
  eapply runs_bind; [by apply line_get_value_length|]. pose proof (zlen_nonneg (ml_value l)). ztest.
  eapply runs_bind; [by apply line_key_strlen|].
  assert (E : zlen pre + key_at l + (zlen (ml_key l) + (if ceq (line_type l) "A" then zlen (ml_value l) + 1 else zlen (ml_value l)) + NEWLINE_LEN)
    = zlen pre + zlen (line_bytes l k)).
  { rewrite line_total. unfold line_type, NEWLINE_LEN. destruct Hl as (_ & _ & _ & _ & Ho). destruct (ml_obj l).
    - change (ceq SWPARSE_MD_TYPE_OBJ "A") with false. cbv iota. rewrite (Ho eq_refl), zlen_nil. lia.
    - change (ceq SWPARSE_MD_TYPE_ATT "A") with true. cbv iota. lia. }
  rewrite E. eapply runs_bind.
  { apply (runs_peek _ _ ch (pre ++ line_bytes l (cut_key k)) post); [unfold image_of; same_image|].
    rewrite zlen_app. by rewrite (line_length l k (cut_key k)). }
  destruct (is_nul ch); apply runs_ret.
Qed.

Lemma lines_at_S (L : list mline) i l : L !! i = Some l -> line_at L (S i) = line_at L i + line_len l.
Proof. intros Hi. unfold line_at. rewrite (take_S_r _ _ l) by done. rewrite lines_len_app. cbn. lia. Qed.

Lemma line_at_le (L : list mline) i : zlen f <= line_at L i <= zlen f + lines_len L.
Proof.
  unfold line_at. pose proof (lines_len_nonneg (take i L)). pose proof (lines_len_nonneg (drop i L)).
  rewrite <- (take_drop i L) at 3. rewrite lines_len_app. lia.
Qed.

(** The first byte behind line [i]. *)
Lemma next_byte ls i : Forall line_ok ls.*1 ->
  exists ch post, lines_bytes (drop (S i) ls) ++ NUL :: junk = ch :: post
    /\ is_nul ch = match ls !! S i with Some _ => false | None => true end.
Proof.
  intros Hok. destruct (ls !! S i) as [[l k]|] eqn:E.
  - rewrite (drop_S ls (l, k) (S i) E).
    change (lines_bytes ((l, k) :: drop (S (S i)) ls)) with (line_bytes l k ++ lines_bytes (drop (S (S i)) ls)).
    assert (Hl : line_ok l).
    { rewrite Forall_fmap, Forall_lookup in Hok. exact (Hok _ _ E). }
    unfold line_bytes. destruct (numeral_head_cases _ _ (line_head_number l k Hl)) as [(ch & r & -> & Hch) _].
    eexists ch, _. split; [cbn [app]; reflexivity|]. by apply digit_facts.
  - rewrite drop_ge by (by apply lookup_ge_None). eexists NUL, _. split; [reflexivity|done].
Qed.

Definition after (L : list mline) (i : nat) : option Z * place :=
  match L !! S i with Some _ => (Some (line_at L (S i)), AtLine (S i)) | None => (None, AtEnd) end.

Lemma next_line_in_image ls i l k peek_only : metadata_ok ls.*1 -> ls !! i = Some (l, k) ->
  runs (next_line (line_at ls.*1 i) peek_only) (image ls) (image (<[i := (l, cut_key k)]> ls))
    (fst (after ls.*1 i), if peek_only then line_at ls.*1 i else offset ls.*1 (snd (after ls.*1 i))).
Proof.
  intros (_ & Hok & Hlen) Hi. assert (Hi' : ls.*1 !! i = Some l) by (by rewrite list_lookup_fmap, Hi).
  assert (Hl : line_ok l) by (rewrite Forall_lookup in Hok; by eapply Hok).
  destruct (next_byte ls i Hok) as (ch & post & Ep & Hch).
  pose proof (runs_next_line (f ++ lines_bytes (take i ls)) post l k ch peek_only Hl) as R.
  rewrite <- Ep, <- (image_line ls i l k Hi), (image_marked ls i l k (cut_key k) Hi), line_place in R.
  rewrite Hch in R. unfold after. rewrite list_lookup_fmap. destruct (ls !! S i); cbn [fmap option_fmap option_map fst snd offset]; [|exact R].
  rewrite (line_length l k (mkMarks false false false)) in R. fold (line_len l) in R. rewrite <- (lines_at_S _ _ _ Hi') in R.
  pose proof (line_at_le ls.*1 (S i)). pose proof (zlen_nonneg f). rewrite to_int_id in R by (unfold INT_MAX in *; lia). exact R.
Qed.

Lemma file_line_next ls peek_only : metadata_ok ls.*1 ->
  runs (next_line 0 peek_only) (image ls) (image ls) (Some (line_at ls.*1 0), line_at ls.*1 0).
Proof.
  intros ((u & n & s & Ef & Hu & Hnl & Hn) & _ & Hlen). unfold next_line, image.
  eapply runs_bind; [apply (run_type _ [] u (s ++ ["010"%char] ++ lines_bytes ls ++ NUL :: junk) n SWPARSE_MD_TYPE_FILEREF); [rewrite Ef; same_image|done|done]|].
  change (ceq SWPARSE_MD_TYPE_FILEREF "F") with true. cbv iota.
  eapply runs_bind.
  { apply (runs_reads _ _ (f ++ cstr (lines_bytes ls ++ NUL :: junk))). rewrite str_at_0.
    rewrite cstr_app_no_nul by done. by rewrite app_assoc, terminated_nul. }
  assert (E : strchr (f ++ cstr (lines_bytes ls ++ NUL :: junk)) MD_NEWLINE = Some (length (u ++ SWPARSE_MD_TYPE_FILEREF :: s))).
  { rewrite Ef. replace ((u ++ SWPARSE_MD_TYPE_FILEREF :: s ++ ["010"%char]) ++ cstr (lines_bytes ls ++ NUL :: junk))
      with ((u ++ SWPARSE_MD_TYPE_FILEREF :: s) ++ "010"%char :: cstr (lines_bytes ls ++ NUL :: junk)) by same_image.
    apply find_index_app; [done|]. apply ceq_refl. }
  rewrite E. assert (El : 0 + Z.of_nat (length (u ++ SWPARSE_MD_TYPE_FILEREF :: s)) + NEWLINE_LEN = line_at ls.*1 0).
  { unfold line_at. change (lines_len (take 0 ls.*1)) with 0. rewrite Ef. unfold NEWLINE_LEN, zlen. rewrite !length_app. cbn [length]. rewrite length_app. cbn [length]. lia. }
  rewrite El. pose proof (line_at_le ls.*1 0). pose proof (zlen_nonneg f).
  rewrite to_int_id by (unfold INT_MAX in *; lia). apply runs_ret.
Qed.

(** *** On the SWHEADER *)

Lemma line_at_pos L i : metadata_ok L -> 0 < line_at L i < INT_MAX.
Proof.
  intros ((u & n & s & Ef & _) & _ & Hlen). pose proof (line_at_le L i). assert (0 < zlen f); [|lia].
  rewrite Ef. unfold zlen. rewrite length_app. cbn [length]. lia.
Qed.

Lemma does_image {A} (op : Img A) L x c (r : A) :
  (forall ls, ls.*1 = L -> exists ls', ls'.*1 = L /\ runs op (image ls) (image ls') r) -> does (on_image op) L x c x c r.
Proof.
  intros H ls E. destruct (H ls E) as (ls' & E' & R). exists ls'. split; [done|]. unfold header. rewrite E, E'.
  exact (runs_zoom image_head_ put_image op (mkSWHEADER (image ls) POwn (offset L x) saved ints c) _ _ R).
Qed.

Lemma does_goto L x c x' (peek_only : bool) (line : option Z) :
  offset L x <> INT_MAX -> 0 <= offset L x ->
  (forall ls, ls.*1 = L -> exists ls', ls'.*1 = L
     /\ runs (next_line (offset L x) peek_only) (image ls) (image ls') (line, offset L x')) ->
  does (swheader_goto_next_line POwn peek_only) L x c x' c line.
Proof.
  intros H1 H2 H. eapply (does_bind _ _ _ _ _ x c _ _ (offset L x)).
  { apply does_same. intros ls <-. by apply runs_reads. }
  eapply (does_bind _ _ _ _ _ x c _ _ (line, offset L x')).
  { apply does_image. intros ls E. unfold swheader_goto_c_next_line. ztest. by apply H. }
  cbv beta iota. eapply (does_bind _ _ _ _ _ x' c); [|apply does_ret].
  apply does_same. intros ls <-. by apply runs_updates.
Qed.

Lemma goto_line L i l c (peek_only : bool) : metadata_ok L -> L !! i = Some l ->
  does (swheader_goto_next_line POwn peek_only) L (AtLine i) c (if peek_only then AtLine i else snd (after L i)) c (fst (after L i)).
Proof.
  intros HL Hi. pose proof (line_at_pos L i HL). apply does_goto; cbn [offset]; [lia|lia|].
  intros ls E. subst L. pose proof Hi as Hi'. rewrite list_lookup_fmap in Hi'. destruct (ls !! i) as [[l' k]|] eqn:El; [|done].
  injection Hi' as ->. exists (<[i := (l, cut_key k)]> ls). split; [by eapply marked_lines|].
  destruct peek_only; by apply (next_line_in_image ls i l k).
Qed.

Lemma goto_start L c (peek_only : bool) : metadata_ok L ->
  does (swheader_goto_next_line POwn peek_only) L AtStart c (AtLine 0) c (Some (line_at L 0)).
Proof.
  intros HL. apply does_goto; cbn [offset]; [done|lia|]. intros ls E. exists ls. split; [done|]. subst L. by apply file_line_next.
Qed.

Lemma does_get {A} (g : SWHEADER -> A) L x c r : (forall ls, ls.*1 = L -> g (header ls x c) = r) -> does (gets g) L x c x c r.
Proof. intros H. apply does_same. intros ls E. rewrite <- (H ls E). apply runs_gets. Qed.

Lemma does_offset L x c : does swheader_get_current_offset L x c x c (offset L x).
Proof. apply does_same. intros ls <-. by apply runs_reads. Qed.

Lemma f_goto_next_is x c (peek_only : bool) L x' line :
  does (swheader_goto_next_line POwn peek_only) L x c x' c line ->
  does (let! p := swheader_get_current_offset_p in swheader_goto_next_line p peek_only) L x c x' c line.
Proof. intros H. eapply (does_bind _ _ _ _ _ x c _ _ POwn); [by apply does_get|done]. Qed.

Lemma current_line L i c : metadata_ok L -> does swheader_get_current_line L (AtLine i) c (AtLine i) c (Some (line_at L i)).
Proof.
  intros HL. pose proof (line_at_pos L i HL). eapply does_bind; [apply does_offset|]. cbn [offset].
  eapply (does_bind _ _ _ _ _ (AtLine i) c _ _ (Some (line_at L i), - line_at L i)); [|apply does_ret].
  apply does_image. intros ls E. exists ls. split; [done|]. unfold swheader_goto_c_next_line. ztest.
  replace (- - line_at L i) with (line_at L i) by lia. apply runs_ret.
Qed.

Lemma current_line_start L c : metadata_ok L -> does swheader_get_current_line L AtStart c AtStart c (Some (line_at L 0)).
Proof.
  intros HL. eapply does_bind; [apply does_offset|]. cbn [offset].
  eapply (does_bind _ _ _ _ _ AtStart c _ _ (Some (line_at L 0), line_at L 0)); [|apply does_ret].
  apply does_image. intros ls E. exists ls. split; [done|]. subst L. by apply file_line_next.
Qed.

Lemma type_of_line L i l x c : metadata_ok L -> L !! i = Some l ->
  does (on_image (swheaderline_get_type (line_at L i))) L x c x c (line_type l).
Proof.
  intros (_ & Hok & _) Hi. rewrite Forall_lookup in Hok. pose proof (Hok _ _ Hi).
  apply (does_on_line swheaderline_get_type L i l x c (fun _ => line_type l) (fun k => k) Hi). intros. by apply line_get_type.
Qed.

Lemma level_of_line L i l x c : metadata_ok L -> L !! i = Some l ->
  does (on_image (swheaderline_get_level (line_at L i))) L x c x c (ml_level l).
Proof.
  intros (_ & Hok & _) Hi. rewrite Forall_lookup in Hok. pose proof (Hok _ _ Hi).
  apply (does_on_line swheaderline_get_level L i l x c (fun _ => ml_level l) (fun k => k) Hi). intros. by apply line_get_level.
Qed.

Lemma line_type_obj l : ceq (line_type l) SWPARSE_MD_TYPE_OBJ = ml_obj l.
Proof. unfold line_type. by destruct (ml_obj l). Qed.

Lemma keyword_of_line L i l x c : metadata_ok L -> L !! i = Some l ->
  does (on_image (keyword_text (line_at L i))) L x c x c (Some (ml_key l)).
Proof.
  intros (_ & Hok & _) Hi. rewrite Forall_lookup in Hok. pose proof (Hok _ _ Hi).
  apply (does_on_line keyword_text L i l x c (fun _ => Some (ml_key l)) cut_key Hi). intros pre post k.
  unfold keyword_text. eapply runs_bind; [by apply line_get_keyword|]. cbv beta iota.
  eapply runs_bind; [apply runs_reads; by apply line_key_text|]. apply runs_ret.
Qed.

(** ** Attributes of the current object *)

Lemma line_peek L i l c : metadata_ok L -> L !! i = Some l -> does peek_next L (AtLine i) c (AtLine i) c (fst (after L i)).
Proof. intros HL Hi. apply f_goto_next_is. by apply (goto_line L i l c true). Qed.

Lemma line_goto L i l c : metadata_ok L -> L !! i = Some l -> does swheader_f_goto_next L (AtLine i) c (snd (after L i)) c (fst (after L i)).
Proof. intros HL Hi. apply f_goto_next_is. by apply (goto_line L i l c false). Qed.

Lemma attributes_end L x c : does end_of_attributes L x c x 0 None.
Proof.
  unfold end_of_attributes. eapply (does_bind _ _ _ _ _ x 0); [|apply does_ret].
  apply does_same. intros ls <-. apply (runs_modify (put_att_count 0)).
Qed.

(** The line behind is an attribute, or there is none. *)
Lemma next_attribute_line L i l a c : metadata_ok L -> L !! i = Some l -> L !! S i = Some a -> ml_obj a = false ->
  ml_obj l && negb (c =? 0) = false -> 0 <= c < INT_MAX ->
  does swheader_get_next_attribute L (AtLine i) c (AtLine (S i)) (c + 1) (Some (line_at L (S i))).
Proof.
  intros HL Hi Ha Hattr Hc Hr. pose proof (line_peek L i l c HL Hi) as Hp. pose proof (line_goto L i l (c + 1) HL Hi) as Hg.
  unfold after in Hp, Hg. rewrite Ha in Hp, Hg. cbn [fst snd] in Hp, Hg. unfold swheader_get_next_attribute.
  eapply does_bind; [exact Hp|]. eapply does_bind; [by apply current_line|]. cbv beta iota.
  eapply does_bind; [by eapply type_of_line|]. eapply (does_bind _ _ _ _ _ (AtLine i) c _ _ c); [by apply does_get|].
  rewrite line_type_obj, Hc. eapply does_bind; [by eapply type_of_line|]. rewrite line_type_obj, Hattr.
  eapply (does_bind _ _ _ _ _ (AtLine i) (c + 1)).
  { apply does_same. intros ls <-.
    assert (E : header ls (AtLine i) (c + 1) = put_att_count (to_int (att_count (header ls (AtLine i) c) + 1)) (header ls (AtLine i) c)).
    { unfold header, put_att_count. cbn. by rewrite to_int_id by (unfold INT_MAX in *; lia). }
    rewrite E. apply (runs_modify (fun h => put_att_count (to_int (att_count h + 1)) h)). }
  eapply does_bind; [exact Hg|]. apply does_ret.
Qed.

Lemma next_attribute_none L i l c : metadata_ok L -> L !! i = Some l ->
  match L !! S i with Some a => ml_obj a = true | None => True end ->
  does swheader_get_next_attribute L (AtLine i) c (AtLine i) 0 None.
Proof.
  intros HL Hi Ha. pose proof (line_peek L i l c HL Hi) as Hp. unfold after in Hp. unfold swheader_get_next_attribute.
  eapply does_bind; [exact Hp|]. eapply does_bind; [by apply current_line|]. cbv beta iota.
  eapply does_bind; [by eapply type_of_line|]. eapply (does_bind _ _ _ _ _ (AtLine i) c _ _ c); [by apply does_get|].
  rewrite line_type_obj. destruct (ml_obj l && negb (c =? 0)); [apply attributes_end|].
  destruct (L !! S i) as [a|] eqn:Ea; cbn [fst]; [|apply attributes_end].
  eapply does_bind; [by eapply type_of_line|]. rewrite line_type_obj, Ha. apply attributes_end.
Qed.

(** A counter that was left behind ends the attributes at once. *)
Lemma next_attribute_stale L i l c : metadata_ok L -> L !! i = Some l -> ml_obj l = true -> c <> 0 ->
  does swheader_get_next_attribute L (AtLine i) c (AtLine i) 0 None.
Proof.
  intros HL Hi Ho Hc. unfold swheader_get_next_attribute. eapply does_bind; [by eapply line_peek|].
  eapply does_bind; [by apply current_line|]. cbv beta iota.
  eapply does_bind; [by eapply type_of_line|]. eapply (does_bind _ _ _ _ _ (AtLine i) c _ _ c); [by apply does_get|].
  rewrite line_type_obj, Ho. ztest. apply attributes_end.
Qed.

(** Line [i] is an object with the attributes [A]. *)
Definition object_at (L : list mline) (i : nat) (A : list mline) : Prop :=
  exists o rest, L !! i = Some o /\ ml_obj o = true /\ drop (S i) L = A ++ rest
    /\ Forall (fun a => ml_obj a = false) A /\ match rest with r :: _ => ml_obj r = true | [] => True end.

Lemma object_attribute L i A a B : object_at L i (A ++ a :: B) -> L !! (i + S (length A))%nat = Some a /\ ml_obj a = false.
Proof.
  intros (o & rest & _ & _ & Hd & HA & _). split.
  - replace (i + S (length A))%nat with (S i + length A)%nat by lia. rewrite <- lookup_drop, Hd.
    rewrite <- app_assoc, <- app_comm_cons. by apply list_lookup_middle.
  - apply Forall_app in HA as [_ HA]. by apply Forall_cons in HA as [].
Qed.

Lemma object_end L i A : object_at L i A -> match L !! (i + S (length A))%nat with Some a => ml_obj a = true | None => True end.
Proof.
  intros (o & rest & _ & _ & Hd & HA & Hr). replace (i + S (length A))%nat with (S i + length A)%nat by lia.
  rewrite <- lookup_drop, Hd, lookup_app_r, Nat.sub_diag by lia. destruct rest; done.
Qed.

(** The line where the reader stands behind the attributes [A]. *)
Lemma object_stands L i A B : object_at L i (A ++ B) ->
  exists l, L !! (i + length A)%nat = Some l /\ ml_obj l && negb (zlen A =? 0) = false.
Proof.
  intros HO. destruct (last A) as [a|] eqn:E.
  - apply last_Some in E as [A' ->]. exists a. rewrite <- app_assoc in HO. apply object_attribute in HO as [Hl Ho].
    rewrite length_app. cbn [length]. rewrite Nat.add_1_r. split; [done|]. by rewrite Ho.
  - apply last_None in E as ->. destruct HO as (o & rest & Hi & Ho & _). exists o. cbn [length]. rewrite Nat.add_0_r.
    split; [done|]. by rewrite andb_false_r.
Qed.

Lemma length_lines_len (L : list mline) : zlen L <= lines_len L.
Proof. induction L as [|l L IH]; [done|]. rewrite zlen_cons. cbn. fold (lines_len L). pose proof (line_len_pos l). lia. Qed.

Lemma lines_bound L i A : metadata_ok L -> object_at L i A -> zlen A < INT_MAX.
Proof.
  intros (_ & _ & Hl) (o & rest & _ & _ & Hd & _). pose proof (length_lines_len L). pose proof (zlen_nonneg f).
  apply (f_equal zlen) in Hd. rewrite zlen_app in Hd. unfold zlen in Hd at 1. rewrite length_drop in Hd.
  pose proof (zlen_nonneg rest). unfold zlen in *. lia.
Qed.

Lemma attribute_yes L i A a B : metadata_ok L -> object_at L i (A ++ a :: B) ->
  does swheader_get_next_attribute L (AtLine (i + length A)) (zlen A)
    (AtLine (i + length (A ++ [a]))) (zlen (A ++ [a])) (Some (line_at L (i + length (A ++ [a])))).
Proof.
  intros HL HO. destruct (object_stands L i A (a :: B) HO) as (l & Hl & Hc). destruct (object_attribute L i A a B HO) as [Ha Hattr].
  pose proof (lines_bound L i _ HL HO). pose proof (zlen_nonneg A). pose proof (zlen_nonneg B).
  rewrite zlen_app, zlen_cons in *. rewrite zlen_nil, length_app. cbn [length]. rewrite Nat.add_1_r, Z.add_0_r.
  replace (i + S (length A))%nat with (S (i + length A)) in * by lia.
  by apply (next_attribute_line L (i + length A) l a (zlen A)); [| | | | |lia].
Qed.

Lemma attribute_no L i A : metadata_ok L -> object_at L i A ->
  does swheader_get_next_attribute L (AtLine (i + length A)) (zlen A) (AtLine (i + length A)) 0 None.
Proof.
  intros HL HO. pose proof (object_end L i A HO) as He. rewrite <- (app_nil_r A) in HO.
  destruct (object_stands L i A [] HO) as (l & Hl & Hc).
  replace (i + S (length A))%nat with (S (i + length A)) in He by lia. by apply (next_attribute_none L (i + length A) l).
Qed.

(** *** Searching *)

(** The first and the last attribute with the keyword, as an index. *)
Fixpoint first_match (key : bytes) (A : list mline) : option nat :=
  match A with
  | [] => None
  | a :: A => if strcmp (ml_key a) key =? 0 then Some O else S <$> first_match key A
  end.

Fixpoint last_match (key : bytes) (A : list mline) : option nat :=
  match A with
  | [] => None
  | a :: A => match last_match key A with
              | Some j => Some (S j)
              | None => if strcmp (ml_key a) key =? 0 then Some O else None
              end
  end.

(** The line of attribute [j] of object [i]. *)
Definition attr_line (L : list mline) (i : nat) (j : nat) : Z := line_at L (i + S j).

(** Behind the attributes [A], where the search goes on to the first match in
    [B], or to the end. *)
Definition found_at (i : nat) (A B : list mline) (r : option nat) : place * Z :=
  match r with
  | Some j => (AtLine (i + S (length A + j)), zlen A + Z.of_nat j + 1)
  | None => (AtLine (i + length (A ++ B)), 0)
  end.

Lemma raw_get_run L i key : metadata_ok L -> forall B A fuel, object_at L i (A ++ B) -> (length B < fuel)%nat ->
  does (let! line := swheader_get_next_attribute in raw_get_loop fuel line key) L (AtLine (i + length A)) (zlen A)
    (found_at i A B (first_match key B)).1 (found_at i A B (first_match key B)).2
    ((fun j => attr_line L i (length A + j)) <$> first_match key B).
Proof.
  intros HL. induction B as [|b B IH]; intros A fuel HO Hf.
  - rewrite app_nil_r in HO. cbn [first_match found_at fst snd fmap option_fmap option_map].
    eapply does_bind; [by apply attribute_no|]. destruct fuel as [|fuel]; [lia|]. cbn [raw_get_loop]. rewrite app_nil_r. apply does_ret.
  - eapply does_bind; [by eapply attribute_yes|]. destruct fuel as [|fuel]; [lia|]. cbn [raw_get_loop]. cbv beta iota.
    destruct (object_attribute L i A b B HO) as [Hb _].
    assert (Hb' : L !! (i + length (A ++ [b]))%nat = Some b) by (rewrite length_app, Nat.add_1_r; exact Hb).
    eapply does_bind; [by eapply keyword_of_line|]. eapply does_bind; [by apply does_lift|]. cbn [first_match].
    destruct (strcmp (ml_key b) key =? 0).
    + cbn [found_at fst snd fmap option_fmap option_map]. unfold attr_line. rewrite zlen_snoc, length_app, Nat.add_1_r, Nat.add_0_r, Z.add_0_r. apply does_ret.
    + rewrite (cons_middle b A B), app_assoc in HO. cbn [length] in Hf. specialize (IH (A ++ [b]) fuel HO ltac:(lia)).
      assert (E : found_at i (A ++ [b]) B (first_match key B) = found_at i A (b :: B) (S <$> first_match key B)).
      { destruct (first_match key B) as [j|]; cbn [found_at fmap option_fmap option_map].
        - rewrite zlen_snoc, length_app. cbn [length]. f_equal; [f_equal; lia|lia].
        - by rewrite <- app_assoc. }
      assert (E2 : (fun j => attr_line L i (length (A ++ [b]) + j)) <$> first_match key B
        = (fun j => attr_line L i (length A + j)) <$> (S <$> first_match key B)).
      { destruct (first_match key B) as [j|]; [|done]. cbn. f_equal. unfold attr_line. f_equal. rewrite length_app. cbn [length]. lia. }
      rewrite E, E2 in IH. exact IH.
Qed.

Lemma first_match_split key B j : first_match key B = Some j ->
  exists B1 b B2, B = B1 ++ b :: B2 /\ length B1 = j
    /\ last_match key B = Some (match last_match key B2 with Some k => j + S k | None => j end)%nat.
Proof.
  revert j. induction B as [|b B IH]; intros j; [done|]. cbn [first_match last_match].
  destruct (strcmp (ml_key b) key =? 0).
  - intros [= <-]. exists [], b, B. split_and!; [done|done|]. by destruct (last_match key B).
  - destruct (first_match key B) as [j'|]; [|done]. intros [= <-].
    destruct (IH j' eq_refl) as (B1 & b1 & B2 & -> & <- & ->). exists (b :: B1), b1, B2. split_and!; [done|done|].
    by destruct (last_match key B2).
Qed.

Lemma first_match_none key B : first_match key B = None -> last_match key B = None.
Proof.
  induction B as [|b B IH]; [done|]. cbn [first_match last_match]. destruct (strcmp (ml_key b) key =? 0); [done|].
  destruct (first_match key B); [done|]. by rewrite IH.
Qed.

(** *** Attributes by keyword *)

Lemma image_length ls : length (image ls) = (length f + Z.to_nat (lines_len ls.*1) + S (length junk))%nat.
Proof. unfold image. rewrite !length_app. cbn [length]. rewrite <- lines_bytes_len. unfold zlen. lia. Qed.

Definition fuel_of (L : list mline) : nat := S (S (length f + Z.to_nat (lines_len L) + S (length junk))).

Lemma does_fuel L x c : does (gets image_fuel) L x c x c (fuel_of L).
Proof. apply does_get. intros ls <-. unfold image_fuel, header. cbn [image_head_]. by rewrite image_length. Qed.

Lemma fuel_enough L i A B : object_at L i (A ++ B) -> (length B < fuel_of L)%nat.
Proof.
  intros (o & rest & _ & _ & Hd & _). apply (f_equal length) in Hd. rewrite length_drop, !length_app in Hd.
  pose proof (length_lines_len L). unfold fuel_of, zlen in *. lia.
Qed.

Lemma raw_get_attribute L i key A B : metadata_ok L -> object_at L i (A ++ B) ->
  does (swheader_raw_get_attribute_in_object key) L (AtLine (i + length A)) (zlen A)
    (found_at i A B (first_match key B)).1 (found_at i A B (first_match key B)).2
    ((fun j => attr_line L i (length A + j)) <$> first_match key B).
Proof.
  intros HL HO. unfold swheader_raw_get_attribute_in_object. eapply does_bind; [apply does_fuel|].
  apply raw_get_run; [done|done|by eapply fuel_enough].
Qed.

Lemma last_attribute_run L i key : metadata_ok L -> forall n A B fuel l0 prev, object_at L i (A ++ B) ->
  (length B <= n)%nat -> (n + 1 < fuel)%nat ->
  does (last_attribute_loop fuel (Some l0) prev key) L (AtLine (i + length A)) (zlen A) (AtLine (i + length (A ++ B))) 0
    (match last_match key B with Some j => Some (attr_line L i (length A + j)) | None => prev end).
Proof.
  intros HL. induction n as [n IH] using lt_wf_ind. intros A B fuel l0 prev HO Hn Hf. destruct fuel as [|fuel]; [lia|].
  cbn [last_attribute_loop]. eapply does_bind; [by apply raw_get_attribute|].
  destruct (first_match key B) as [j|] eqn:E; cbn [found_at fst snd fmap option_fmap option_map].
  - destruct (first_match_split key B j E) as (B1 & b & B2 & -> & <- & ->).
    assert (HO' : object_at L i ((A ++ B1 ++ [b]) ++ B2)) by (by rewrite <- !app_assoc).
    assert (E1 : (i + S (length A + length B1) = i + length (A ++ B1 ++ [b]))%nat) by (rewrite !length_app; cbn [length]; lia).
    assert (E2 : zlen A + Z.of_nat (length B1) + 1 = zlen (A ++ B1 ++ [b])) by (rewrite !zlen_app; unfold zlen; cbn [length]; lia).
    rewrite E1, E2. rewrite length_app in Hn. cbn [length] in Hn.
    pose proof (IH (length B2) ltac:(lia) (A ++ B1 ++ [b]) B2 fuel (attr_line L i (length A + length B1))
      (Some (attr_line L i (length A + length B1))) HO' ltac:(lia) ltac:(lia)) as R.
    replace ((A ++ B1 ++ [b]) ++ B2) with (A ++ B1 ++ b :: B2) in R by (by rewrite <- !app_assoc).
    destruct (last_match key B2) as [k|]; [|exact R].
    replace (length (A ++ B1 ++ [b]) + k)%nat with (length A + (length B1 + S k))%nat in R by (rewrite !length_app; cbn [length]; lia).
    exact R.
  - rewrite (first_match_none key B E). destruct fuel as [|fuel]; [lia|]. cbn [last_attribute_loop]. apply does_ret.
Qed.

Definition state_at (L : list mline) (x : place) : SWHEADER_STATE := mkSTATE POwn (offset L x) (offset L x).

Lemma store_state L x c : does swheader_store_state L x c x c (state_at L x).
Proof. apply does_same. intros ls <-. by apply runs_reads. Qed.

Lemma restore L x x' c : does (restore_state (state_at L x')) L x c x' c ().
Proof. apply does_same. intros ls <-. unfold restore_state. cbn [save_current_offset_pM save_current_offsetM save_current_offset_vM state_at]. done. Qed.

Lemma get_attribute_run L i A key : metadata_ok L -> object_at L i A ->
  does (get_attribute_in_current_object key None) L (AtLine i) 0 (AtLine i) 0 (attr_line L i <$> last_match key A, 0).
Proof.
  intros HL HO. unfold get_attribute_in_current_object. eapply does_bind; [apply store_state|]. cbv zeta.
  pose proof (raw_get_attribute L i key [] A HL HO) as R. cbn [length] in R. rewrite Nat.add_0_r in R.
  eapply does_bind; [exact R|]. change (value_type_code sdf_single_value =? value_type_code sdf_single_value) with true. cbv iota.
  eapply does_bind; [apply does_fuel|].
  assert (Hl : exists x c, does (last_attribute_loop (fuel_of L)
      ((fun j => attr_line L i (length (@nil mline) + j)) <$> first_match key A)
      ((fun j => attr_line L i (length (@nil mline) + j)) <$> first_match key A) key) L
      (found_at i [] A (first_match key A)).1 (found_at i [] A (first_match key A)).2 x 0 (attr_line L i <$> last_match key A) /\ c = 0).
  { destruct (first_match key A) as [j|] eqn:E; cbn [found_at fst snd fmap option_fmap option_map length].
    - destruct (first_match_split key A j E) as (B1 & b & B2 & -> & <- & ->).
      replace (i + S (0 + length B1))%nat with (i + length (B1 ++ [b]))%nat by (rewrite length_app; cbn [length]; lia).
      replace (zlen [] + Z.of_nat (length B1) + 1) with (zlen (B1 ++ [b])) by (rewrite zlen_snoc; done).
      assert (HO' : object_at L i ((B1 ++ [b]) ++ B2)) by (by rewrite <- app_assoc).
      pose proof (fuel_enough L i [] _ HO) as Hf. rewrite length_app in Hf. cbn [length] in Hf.
      eexists _, 0. split; [|done].
      pose proof (last_attribute_run L i key HL (length B2) (B1 ++ [b]) B2 (fuel_of L) (attr_line L i (0 + length B1))
        (Some (attr_line L i (0 + length B1))) HO' ltac:(lia) ltac:(lia)) as R2.
      destruct (last_match key B2) as [k|]; [|exact R2].
      replace (length (B1 ++ [b]) + k)%nat with (length B1 + S k)%nat in R2 by (rewrite length_app; cbn [length]; lia). exact R2.
    - rewrite (first_match_none key A E). eexists _, 0. split; [|done]. apply does_ret. }
  destruct Hl as (x & c & Hl & _). eapply does_bind; [exact Hl|].
  eapply does_bind; [apply restore|]. apply does_ret.
Qed.

(** ** The next object *)

Definition place_of (L : list mline) (j : nat) : place := match L !! j with Some _ => AtLine j | None => AtEnd end.
Definition line_of (L : list mline) (j : nat) : option Z := match L !! j with Some _ => Some (line_at L j) | None => None end.

Lemma after_places L i : after L i = (line_of L (S i), place_of L (S i)).
Proof. unfold after, line_of, place_of. by destruct (L !! S i). Qed.

(** An object whose level is asked for. *)
Definition wanted (min max : Z) (l : mline) : bool :=
  ((min =? UCHAR_MAX) && (max =? UCHAR_MAX)) || negb ((ml_level l <? min) || (ml_level l >? max)).

Lemma object_round_run L j l min max c : metadata_ok L -> L !! j = Some l ->
  does (object_round (line_at L j) min max) L (AtLine j) c (AtLine j) c
    (if ml_obj l then Some (if wanted min max l then Some (line_at L j) else None) else None).
Proof.
  intros HL Hj. unfold object_round. eapply does_bind; [by eapply level_of_line|]. eapply does_bind; [by eapply type_of_line|].
  rewrite line_type_obj. unfold wanted. destruct (ml_obj l); [|apply does_ret].
  destruct ((min =? UCHAR_MAX) && (max =? UCHAR_MAX)); [apply does_ret|]. cbn [orb].
  destruct ((ml_level l <? min) || (ml_level l >? max)); apply does_ret.
Qed.

Lemma next_object_loop_run L rest min max c : metadata_ok L ->
  match rest with r :: _ => ml_obj r = true | [] => True end ->
  forall A j fuel, drop j L = A ++ rest -> Forall (fun a => ml_obj a = false) A -> (length A < fuel)%nat ->
  does (next_object_loop fuel (line_of L j) min max) L (place_of L j) c (place_of L (j + length A)) c
    (match rest with r :: _ => if wanted min max r then Some (line_at L (j + length A)) else None | [] => None end).
Proof.
  intros HL Hr A. induction A as [|a A IH]; intros j fuel Hd HA Hf; (destruct fuel as [|fuel]; [cbn in Hf; lia|]).
  - cbn [app length] in *. rewrite Nat.add_0_r. unfold place_of, line_of. destruct rest as [|r rest].
    + rewrite (proj2 (lookup_ge_None L j)) by (apply (f_equal length) in Hd; rewrite length_drop in Hd; cbn in Hd; lia).
      cbn [next_object_loop]. apply does_ret.
    + assert (Hj : L !! j = Some r) by (rewrite <- (Nat.add_0_r j), <- lookup_drop, Hd; done). rewrite Hj. cbn [next_object_loop].
      eapply does_bind; [by apply object_round_run|]. rewrite Hr. apply does_ret.
  - apply Forall_cons in HA as [Ha HA]. cbn [length] in *.
    assert (Hj : L !! j = Some a) by (rewrite <- (Nat.add_0_r j), <- lookup_drop, Hd; done).
    assert (Hd' : drop (S j) L = A ++ rest) by (rewrite (drop_S L a j Hj) in Hd; by injection Hd).
    unfold line_of at 1, place_of at 1. rewrite Hj. cbn [next_object_loop].
    eapply does_bind; [by apply object_round_run|]. rewrite Ha. cbv iota beta.
    eapply does_bind; [by eapply line_goto|]. rewrite after_places. cbn [fst snd].
    replace (j + S (length A))%nat with (S j + length A)%nat by lia. apply IH; [done|done|lia].
Qed.

Lemma does_object_fuel L x c : does (gets (fun h => S (length (image_head_ h)))) L x c x c (pred (fuel_of L)).
Proof. apply does_get. intros ls <-. unfold header. cbn [image_head_]. by rewrite image_length. Qed.

(** From a line, and from the start. *)
Lemma next_object_run L i l A rest min max c : metadata_ok L -> L !! i = Some l -> drop (S i) L = A ++ rest ->
  Forall (fun a => ml_obj a = false) A -> match rest with r :: _ => ml_obj r = true | [] => True end ->
  does (swheader_get_next_object min max) L (AtLine i) c (place_of L (i + S (length A))) c
    (match rest with r :: _ => if wanted min max r then Some (line_at L (i + S (length A))) else None | [] => None end).
Proof.
  intros HL Hi Hd HA Hr. unfold swheader_get_next_object. eapply does_bind; [apply does_object_fuel|].
  eapply does_bind; [by eapply line_goto|]. rewrite after_places. cbn [fst snd].
  replace (i + S (length A))%nat with (S i + length A)%nat by lia. apply next_object_loop_run; [done|done|done|done|].
  apply (f_equal length) in Hd. rewrite length_drop, length_app in Hd. pose proof (length_lines_len L). unfold fuel_of, zlen in *. cbn [pred]. lia.
Qed.

Lemma next_object_start L r rest min max c : metadata_ok L -> L = r :: rest -> ml_obj r = true ->
  does (swheader_get_next_object min max) L AtStart c (AtLine 0) c (if wanted min max r then Some (line_at L 0) else None).
Proof.
  intros HL E Hr. unfold swheader_get_next_object. eapply does_bind; [apply does_object_fuel|].
  eapply does_bind; [apply f_goto_next_is; by apply goto_start|].
  subst L. exact (next_object_loop_run (r :: rest) (r :: rest) min max c HL Hr [] 0 (pred (fuel_of (r :: rest))) eq_refl ltac:(constructor) ltac:(unfold fuel_of; cbn [pred length]; lia)).
Qed.

End Reading.
