(* ===== verification/MetaLookup.v ===== *)
(** * Properties of the metadata reader

    Look-ups of attributes, what the operations can do to the image, and the
    search that does not end. *)

From S2P Require Import Prelude CString Decimals Strob Cplob Escape SysDb FileHdr TarWrite Effects Swuts Swverid Sdflt MetaLine MetaHeader MetaObjects MetaFile MetaSpec MetaHeaderSpec.
Local Open Scope effects_scope.

(** ** Values of attributes *)

Section Values.
Context (f junk : bytes) (saved : SWHEADER_STATE) (ints : list Z).
Abbreviation does := (does f junk saved ints).

Lemma last_match_attribute key A j : last_match key A = Some j -> exists a, A !! j = Some a.
Proof.
  revert j. induction A as [|a A IH]; intros j; [done|]. cbn [last_match]. destruct (last_match key A) as [k|] eqn:E.
  - intros [= <-]. destruct (IH k eq_refl) as [b Hb]. by exists b.
  - destruct (strcmp (ml_key a) key =? 0); [|done]. intros [= <-]. by exists a.
Qed.

Lemma object_line L i A j a : object_at L i A -> A !! j = Some a -> L !! (i + S j)%nat = Some a /\ ml_obj a = false.
Proof.
  intros (o & rest & _ & _ & Hd & HA & _) Ha. split; [|by rewrite Forall_lookup in HA; eapply HA].
  replace (i + S j)%nat with (S i + j)%nat by lia. rewrite <- lookup_drop, Hd. by apply lookup_app_l_Some.
Qed.

(** The image after the value of line [i] was fetched, and the text there. *)
Lemma value_of_line ls i l x c : metadata_ok f ls.*1 -> ls.*1 !! i = Some l -> ml_obj l = false ->
  exists ls', ls'.*1 = ls.*1
    /\ runs (on_image (swheaderline_get_value (line_at f ls.*1 i))) (header f junk saved ints ls x c) (header f junk saved ints ls' x c)
         (Some (line_at f ls.*1 i + value_at l, zlen (ml_value l)))
    /\ str_at (image f junk ls') (line_at f ls.*1 i + value_at l) = Some (ml_value l).
Proof.
  intros (_ & Hok & _) Hi Ho. rewrite Forall_lookup in Hok. pose proof (Hok _ _ Hi) as Hl.
  rewrite list_lookup_fmap in Hi. destruct (ls !! i) as [[l' k]|] eqn:E; [|done]. injection Hi as [= ->].
  pose proof (image_marked f junk ls i l k (cut_value k) E) as Em. pose proof (line_place f ls i) as Ep.
  exists (<[i := (l, cut_value k)]> ls). split; [by eapply marked_lines|]. split.
  - unfold header. rewrite (marked_lines ls i l k (cut_value k) E).
    apply (runs_zoom image_head_ put_image (swheaderline_get_value (line_at f ls.*1 i)) (mkSWHEADER (image f junk ls) POwn (offset f ls.*1 x) saved ints c)).
    apply (on_line f junk swheaderline_get_value ls i l k (cut_value k) (fun p => Some (p + value_at l, zlen (ml_value l))) E).
    intros pre post. pose proof (line_get_value pre post l k Hl) as R. rewrite Ho in R. exact R.
  - rewrite <- Em, <- Ep. by apply line_value_text.
Qed.

(** C8: swheader_get_single_attribute_value, called on an object, gives the value
    of the last attribute of that object with the keyword as a text in the image,
    or NULL when the object has none; the position is the one before and the
    image is still the same metadata. *)
Theorem single_attribute_value ls i A key :
  metadata_ok f ls.*1 -> object_at ls.*1 i A ->
  exists ls', ls'.*1 = ls.*1 /\
    match last_match key A with
    | None => runs (swheader_get_single_attribute_value key) (header f junk saved ints ls (AtLine i) 0)
                (header f junk saved ints ls' (AtLine i) 0) None
    | Some j => exists a p, A !! j = Some a
        /\ runs (swheader_get_single_attribute_value key) (header f junk saved ints ls (AtLine i) 0)
             (header f junk saved ints ls' (AtLine i) 0) (Some p)
        /\ str_at (image f junk ls') p = Some (ml_value a)
    end.
Proof.
  intros HL HO. destruct (get_attribute_run f junk saved ints ls.*1 i A key HL HO ls eq_refl) as (ls1 & E1 & R1).
  assert (R0 : runs swheader_store_state (header f junk saved ints ls (AtLine i) 0) (header f junk saved ints ls (AtLine i) 0)
                 (state_at f ls.*1 (AtLine i))) by (by apply runs_reads).
  destruct (last_match key A) as [j|] eqn:Ej; cbn [fmap option_fmap option_map] in R1.
  - destruct (last_match_attribute key A j Ej) as [a Ha]. destruct (object_line _ _ _ _ _ HO Ha) as [Hl Ho].
    rewrite <- E1 in HL, Hl. destruct (value_of_line ls1 (i + S j) a (AtLine i) 0 HL Hl Ho) as (ls2 & E2 & R2 & T).
    exists ls2. split; [by rewrite E2|]. exists a, (line_at f ls1.*1 (i + S j) + value_at a). split; [done|]. split; [|done].
    unfold swheader_get_single_attribute_value. eapply runs_bind; [exact R0|]. eapply runs_bind; [exact R1|]. cbv beta iota.
    unfold attr_line. rewrite <- E1. eapply runs_bind; [exact R2|].
    eapply runs_bind; [|apply runs_ret]. unfold swheader_restore_state. rewrite <- E2.
    apply runs_updates. done.
  - exists ls1. split; [done|]. unfold swheader_get_single_attribute_value. eapply runs_bind; [exact R0|].
    eapply runs_bind; [exact R1|]. cbv beta iota. eapply runs_bind; [|apply runs_ret].
    unfold swheader_restore_state. rewrite <- E1. apply runs_updates. done.
Qed.
End Values.

(** ** The search behind the last line *)

(** once the position is behind the last line (the offset is -1, where
    swheader_get_next_object leaves it when it returns NULL), the address that
    the offset stands for is the second byte of the image; with a file name
    shorter than ten bytes the next call of swheader_get_next_object goes round
    for ever, in the same state each time: with any fuel it is still in its loop. *)
Theorem next_object_never_ends h a b c d rest min max :
  current_offset_p_ h = POwn -> current_offset_ h = -1 ->
  image_head_ h = a :: b :: c :: d :: rest -> isdigit b = false -> ceq b SWPARSE_MD_TYPE_OBJ = false ->
  runs swheader_f_goto_next h h (Some 1)
  /\ (forall fuel, running (next_object_loop fuel (Some 1) min max) h h)
  /\ running (swheader_get_next_object min max) h h.
Proof.
  intros Hp Ho Hi Hb Hty. assert (G : runs swheader_f_goto_next h h (Some 1)).
  { unfold swheader_f_goto_next. eapply runs_bind; [apply runs_gets|]. rewrite Hp. unfold swheader_goto_next_line.
    eapply runs_bind; [by apply runs_reads; cbn; rewrite Ho|].
    eapply (runs_bind _ _ h h h (Some 1, -1)).
    - pose proof (runs_zoom image_head_ put_image (swheader_goto_c_next_line (-1) false) h (image_head_ h) (Some 1, -1)) as R.
      assert (put_image (image_head_ h) h = h) as E by (by destruct h). rewrite E in R. apply R. apply runs_ret.
    - cbv beta iota. eapply (runs_bind _ _ h h); [|apply runs_ret]. apply runs_updates. cbn. rewrite <- Ho. by destruct h. }
  assert (R : runs (object_round 1 min max) h h None).
  { assert (Z1 : forall A (m : Img A) r, runs m (image_head_ h) (image_head_ h) r -> runs (on_image m) h h r).
    { intros A m r Hm. pose proof (runs_zoom image_head_ put_image m h (image_head_ h) r Hm) as RZ. by destruct h. }
    assert (T : runs (swheaderline_get_type_pointer 1) (image_head_ h) (image_head_ h) (Some 1)).
    { unfold swheaderline_get_type_pointer. eapply runs_bind; [by apply (runs_peek _ _ b [a] (c :: d :: rest))|].
      rewrite Hb. apply runs_ret. }
    unfold object_round. eapply runs_bind.
    { apply Z1. unfold swheaderline_get_level. eapply runs_bind; [exact T|].
      eapply runs_bind; [by apply (runs_peek _ _ d [a; b; c] rest)|]. apply runs_ret. }
    eapply runs_bind.
    { apply Z1. unfold swheaderline_get_type. eapply runs_bind; [exact T|]. by apply (runs_peek _ _ b [a] (c :: d :: rest)). }
    rewrite Hty. apply runs_ret. }
  assert (L : forall fuel, running (next_object_loop fuel (Some 1) min max) h h).
  { induction fuel as [|fuel IH]; [done|]. cbn [next_object_loop]. eapply running_later; [exact R|]. cbv beta iota.
    by eapply running_later. }
  split; [done|]. split; [done|]. unfold swheader_get_next_object.
  eapply running_later; [apply runs_gets|]. by eapply running_later.
Qed.

(** ** What the operations do to the image *)

(** The block keeps its size, and the only bytes that are written are NULs. *)
Definition cut_only (m m' : bytes) : Prop :=
  length m' = length m /\ forall i c, m' !! i = Some c -> m !! i = Some c \/ c = NUL.

(** No pointer of the object leads to the int [j] of a caller. *)
Definition away (j : nat) (h : SWHEADER) : Prop :=
  current_offset_p_ h <> PCaller j /\ save_current_offset_pM (saved_ h) <> PCaller j.

(** The SWHEADER keeps its image in this sense, and an int of a caller that was
    not lent to it keeps its value; [B] are assumptions about the pointers that
    are at hand. *)
Definition same_shape (B : Prop) (j : nat) (h h' : SWHEADER) : Prop :=
  cut_only (image_head_ h) (image_head_ h')
  /\ (B -> away j h -> caller_ints h' !! j = caller_ints h !! j /\ away j h').

Instance cut_only_preorder : PreOrder cut_only.
Proof.
  split.
  - intros m. split; [done|]. by left.
  - intros m1 m2 m3 [L1 H1] [L2 H2]. split; [congruence|]. intros i c Hc. destruct (H2 i c Hc) as [Hc'|]; [by apply H1|by right].
Qed.

Instance same_shape_preorder B j : PreOrder (same_shape B j).
Proof.
  split.
  - intros h. by split.
  - intros h1 h2 h3 [C1 L1] [C2 L2]. split; [by transitivity (image_head_ h2)|]. intros HB H1.
    destruct (L1 HB H1) as [E1 H2]. destruct (L2 HB H2) as [E2 H3]. split; [congruence|done].
Qed.

(** The lines: only swheaderline_get_keyword and swheaderline_get_value write. *)
Lemma poke_nul p : keeps cut_only (poke p NUL).
Proof.
  apply keeps_updates. intros m m' E. pose proof (mem_write_length _ _ _ _ E) as El. split; [done|].
  intros i c Hc. rewrite (mem_write_lookup _ _ _ _ i E) in Hc. destruct (decide _) as [Hd|]; [|by left].
  right. change (zlen [NUL]) with 1 in Hd. replace (i - Z.to_nat p)%nat with 0%nat in Hc by lia. by injection Hc.
Qed.
#[export] Hint Resolve poke_nul : shape.

Lemma type_pointer_keeps p : keeps cut_only (swheaderline_get_type_pointer p).
Proof. unfold swheaderline_get_type_pointer, peek, skip_while. keep. Qed.
#[export] Hint Resolve type_pointer_keeps : shape.

Lemma line_type_keeps p : keeps cut_only (swheaderline_get_type p).
Proof. unfold swheaderline_get_type, peek. keep. Qed.
Lemma line_level_keeps p : keeps cut_only (swheaderline_get_level p).
Proof. unfold swheaderline_get_level, peek. keep. Qed.
Lemma keyword_at_keeps p : keeps cut_only (keyword_at p).
Proof. unfold keyword_at, skip_while. keep. Qed.
#[export] Hint Resolve line_type_keeps line_level_keeps keyword_at_keeps : shape.

Lemma line_keyword_keeps p : keeps cut_only (swheaderline_get_keyword p).
Proof. unfold swheaderline_get_keyword, peek. keep. Qed.
Lemma value_length_keeps p : keeps cut_only (swheaderline_get_value_length p).
Proof.
  unfold swheaderline_get_value_length, peek, skip_while. keep. intros m m' n Hr. unfold runs in Hr.
  destruct (mem_at m p) as [s|]; [|done]. cbn [mbind option_bind] in Hr. destruct (sum_digits _ _ _) as [[x|]|]; [|done|done].
  injection Hr as -> _. reflexivity.
Qed.
#[export] Hint Resolve line_keyword_keeps value_length_keeps : shape.

Lemma line_value_keeps p b : keeps cut_only (get_value p b).
Proof. unfold get_value, strlen_of. keep. Qed.
Lemma keyword_text_keeps p : keeps cut_only (keyword_text p).
Proof. unfold keyword_text. keep. Qed.
Lemma goto_c_keeps off b : keeps cut_only (swheader_goto_c_next_line off b).
Proof.
  assert (keeps cut_only (next_line off b)) by (unfold next_line, strlen_of, peek; keep).
  unfold swheader_goto_c_next_line. keep.
Qed.
#[export] Hint Resolve line_value_keeps keyword_text_keeps goto_c_keeps : shape.

(** *** The operations of swheader.c *)

Section Ints.
Context (j : nat).
Implicit Types (B : Prop).
Abbreviation shape B := (same_shape B j).

Lemma on_image_keeps {A} B (m : Img A) : keeps cut_only m -> keeps (shape B) (on_image m).
Proof.
  intros Hm h h' a Hr. unfold runs, on_image, zoom in Hr. destruct (m (image_head_ h)) as [[s x| |s]|] eqn:E; [|done..].
  cbn [mbind option_bind] in Hr. injection Hr as <- _. split; [|done]. by eapply Hm.
Qed.

(** A pointer that is taken from the object does not lead to [j] either. *)
Lemma own_pointer {A} B (k : offset_ptr -> Hd A) :
  (forall p, keeps (shape (B /\ p <> PCaller j)) (k p)) -> keeps (shape B) (bind (gets current_offset_p_) k).
Proof.
  intros Hk h h' a (h1 & p & [= <- <-] & R)%runs_bind_inv. apply Hk in R as [C L]. split; [done|].
  intros HB Ha. apply L; [|done]. split; [done|apply Ha].
Qed.
Lemma own_saved {A} B (k : SWHEADER_STATE -> Hd A) :
  (forall s, keeps (shape (B /\ save_current_offset_pM s <> PCaller j)) (k s)) -> keeps (shape B) (bind (gets saved_) k).
Proof.
  intros Hk h h' a (h1 & p & [= <- <-] & R)%runs_bind_inv. apply Hk in R as [C L]. split; [done|].
  intros HB Ha. apply L; [|done]. split; [done|apply Ha].
Qed.
Lemma own_state {A} B (k : SWHEADER_STATE -> Hd A) :
  (forall s, keeps (shape (B /\ save_current_offset_pM s <> PCaller j)) (k s)) -> keeps (shape B) (bind (reads current_state) k).
Proof.
  intros Hk h h' a (h1 & s & R0 & R)%runs_bind_inv. unfold runs, reads, current_state in R0.
  destruct (match current_offset_p_ h with PNull => Some 0 | p => read_int p h end); [|done]. injection R0 as <- <-.
  apply Hk in R as [C L]. split; [done|]. intros HB Ha. apply L; [|done]. split; [done|apply Ha].
Qed.

Ltac hold :=
  repeat first
    [ progress eauto with shape typeclass_instances nocore
    | apply own_pointer; intros ? | apply own_saved; intros ? | apply own_state; intros ?
    | apply keeps_bind; [exact _| |intros ?]
    | apply keeps_when; [exact _|]
    | match goal with |- keeps _ (match ?x with _ => _ end) => destruct x end ].
#[local] Hint Extern 1 (_ <> PCaller _) => tauto : shape.
#[local] Hint Resolve on_image_keeps : shape.

Lemma write_int_keeps B p n : (B -> p <> PCaller j) -> keeps (shape B) (updates (write_int p n)).
Proof.
  intros Hp. apply keeps_updates. intros h h'. unfold write_int. destruct p as [| |i]; [done|intros [= <-]; by split|].
  destruct (caller_ints h !! i); [|done]. intros [= <-]. split; [done|]. intros HB Ha. split; [|done].
  cbn. apply list_lookup_insert_ne. intros ->. by apply Hp.
Qed.
Lemma set_offset_keeps B n : keeps (shape B) (swheader_set_current_offset_p_value n).
Proof.
  apply keeps_updates. intros h h' E. destruct (write_int_keeps (B /\ current_offset_p_ h <> PCaller j) (current_offset_p_ h) n
    ltac:(tauto) h h' ()) as [C L]; [by apply runs_updates|]. split; [done|]. intros HB Ha. apply L; [|done]. split; [done|apply Ha].
Qed.
Lemma set_pointer_keeps B p : (B -> p <> PCaller j) -> keeps (shape B) (modify (put_offset_p p)).
Proof. intros Hp. apply keeps_modify. intros h. split; [done|]. intros HB [_ H2]. split; [done|]. split; [by apply Hp|done]. Qed.
Lemma set_saved_keeps B s : (B -> save_current_offset_pM s <> PCaller j) -> keeps (shape B) (modify (put_saved s)).
Proof. intros Hp. apply keeps_modify. intros h. split; [done|]. intros HB [H1 _]. split; [done|]. split; [done|by apply Hp]. Qed.
Lemma put_offset_keeps B n : keeps (shape B) (modify (put_offset n)).
Proof. by apply keeps_modify. Qed.
Lemma put_count_keeps B n : keeps (shape B) (modify (put_att_count n)).
Proof. by apply keeps_modify. Qed.
Lemma set_count_keeps B f : keeps (shape B) (modify (fun h => put_att_count (f h) h)).
Proof. by apply keeps_modify. Qed.
#[local] Hint Resolve write_int_keeps set_offset_keeps set_pointer_keeps set_saved_keeps put_offset_keeps put_count_keeps
  set_count_keeps : shape.

Lemma reset_keeps B : keeps (shape B) swheader__reset.
Proof. unfold swheader__reset. hold. Qed.
Lemma restore_state_keeps B s : (B -> save_current_offset_pM s <> PCaller j) -> keeps (shape B) (restore_state s).
Proof. intros Hs. unfold restore_state. hold. all: apply write_int_keeps; intros HB; by apply Hs. Qed.
#[local] Hint Resolve reset_keeps restore_state_keeps : shape.

Lemma goto_next_line_keeps B p b : (B -> p <> PCaller j) -> keeps (shape B) (swheader_goto_next_line p b).
Proof. intros Hp. unfold swheader_goto_next_line. hold. Qed.
#[local] Hint Resolve goto_next_line_keeps : shape.

Lemma f_goto_next_keeps B : keeps (shape B) swheader_f_goto_next.
Proof. unfold swheader_f_goto_next, swheader_get_current_offset_p. hold. Qed.
Lemma current_line_keeps B : keeps (shape B) swheader_get_current_line.
Proof. unfold swheader_get_current_line, swheader_get_current_offset. hold. Qed.
Lemma peek_next_keeps B : keeps (shape B) peek_next.
Proof. unfold peek_next, swheader_get_current_offset_p. hold. Qed.
Lemma end_of_attributes_keeps B : keeps (shape B) end_of_attributes.
Proof. unfold end_of_attributes. hold. Qed.
#[local] Hint Resolve f_goto_next_keeps current_line_keeps peek_next_keeps end_of_attributes_keeps : shape.

Lemma next_object_keeps B min max : keeps (shape B) (swheader_get_next_object min max).
Proof.
  assert (HL : forall B fuel line, keeps (shape B) (next_object_loop fuel line min max)).
  { intros C. induction fuel as [|fuel IH]; intros line; cbn [next_object_loop]; [apply keeps_out_of_fuel|]. unfold object_round. hold. }
  unfold swheader_get_next_object. hold.
Qed.

Lemma next_attribute_keeps B : keeps (shape B) swheader_get_next_attribute.
Proof. unfold swheader_get_next_attribute. hold. Qed.
#[local] Hint Resolve next_object_keeps next_attribute_keeps : shape.

Lemma raw_get_keeps B key : keeps (shape B) (swheader_raw_get_attribute_in_object key).
Proof.
  assert (HL : forall B fuel line, keeps (shape B) (raw_get_loop fuel line key)).
  { intros C. induction fuel as [|fuel IH]; intros line; cbn [raw_get_loop]; [apply keeps_out_of_fuel|]. hold. }
  unfold swheader_raw_get_attribute_in_object. hold.
Qed.
#[local] Hint Resolve raw_get_keeps : shape.

Lemma get_attribute_keeps B key o : keeps (shape B) (swheader_get_attribute_in_current_object key o).
Proof.
  assert (HL : forall B fuel a b, keeps (shape B) (last_attribute_loop fuel a b key)).
  { intros C. induction fuel as [|fuel IH]; intros a b; cbn [last_attribute_loop]; [apply keeps_out_of_fuel|]. hold. }
  unfold swheader_get_attribute_in_current_object, get_attribute_in_current_object, swheader_store_state. hold.
Qed.

Lemma single_value_keeps B key : keeps (shape B) (swheader_get_single_attribute_value key).
Proof.
  pose proof (fun B => get_attribute_keeps B key None) as HG. unfold swheader_get_attribute_in_current_object in HG.
  unfold swheader_get_single_attribute_value, swheader_store_state, swheader_restore_state. hold.
Qed.
#[local] Hint Resolve get_attribute_keeps single_value_keeps : shape.

Lemma attribute_list_keeps B key : keeps (shape B) (swheader_get_attribute_list key).
Proof.
  assert (HL : forall B fuel o, keeps (shape B) (attribute_list_loop fuel o key)).
  { intros C. induction fuel as [|fuel IH]; intros o; cbn [attribute_list_loop]; [apply keeps_out_of_fuel|]. hold. }
  unfold swheader_get_attribute_list, swheader_store_state. hold.
Qed.
Lemma attribute_keeps B key : keeps (shape B) (swheader_get_attribute key).
Proof. pose proof (fun B => attribute_list_keeps B key). unfold swheader_get_attribute. hold. Qed.
#[local] Hint Resolve attribute_list_keeps attribute_keeps : shape.

Lemma comparison_keeps B f_comp a b : keeps (shape B) (call_comparison f_comp a b).
Proof.
  intros h h' x Hr. unfold runs, call_comparison in Hr. destruct (f_comp a b) as [[y|]|]; [|done..].
  injection Hr as -> _. reflexivity.
Qed.
#[local] Hint Resolve comparison_keeps : shape.

Section Objects.
Context `{Malloc}.

Lemma generate_keeps B v line : keeps (shape B) (swheader_generate_swverid v line).
Proof.
  assert (HL : forall B fuel v k n, keeps (shape B) (generate_loop fuel v k n)).
  { intros C. induction fuel as [|fuel IH]; intros v0 k n; cbn [generate_loop]; [apply keeps_out_of_fuel|]. unfold swheaderline_get_value. hold. }
  unfold swheader_generate_swverid, swheader_get_current_offset. hold.
Qed.

Lemma first_object_keeps B fuel line : keeps (shape B) (first_object_loop fuel line).
Proof. revert line. induction fuel as [|fuel IH]; intros line; cbn [first_object_loop]; [apply keeps_out_of_fuel|]. hold. Qed.
#[local] Hint Resolve generate_keeps first_object_keeps : shape.

Lemma by_swverid_keeps B f_comp v uuid b : keeps (shape B) (get_object_by_swverid f_comp v uuid b).
Proof.
  assert (HL : forall B fuel n line s, keeps (shape B) (search_loop fuel f_comp n line s)).
  { intros C. induction fuel as [|fuel IH]; intros n line s; cbn [search_loop]; [apply keeps_out_of_fuel|]. unfold swheader_get_current_offset. hold. }
  unfold get_object_by_swverid, swheader_get_current_offset. hold.
Qed.
#[local] Hint Resolve by_swverid_keeps : shape.

Lemma by_tag_keeps B uuid k t : keeps (shape B) (swheader_get_object_by_tag uuid k t).
Proof. unfold swheader_get_object_by_tag. hold. Qed.

Lemma by_directory_keeps B : keeps (shape B) swheader_get_object_offset_by_control_directory.
Proof.
  assert (HL : forall B fuel, keeps (shape B) (control_directory_loop fuel)).
  { intros C. induction fuel as [|fuel IH]; cbn [control_directory_loop]; [apply keeps_out_of_fuel|]. hold. }
  unfold swheader_get_object_offset_by_control_directory. hold.
Qed.

Lemma filehdr_keeps `{SysDB} B now hdr digs c : keeps (shape B) (swheader_fileobject2filehdr now hdr digs c).
Proof.
  assert (HL : forall B fuel x, keeps (shape B) (file_attributes_loop fuel x)).
  { intros C. induction fuel as [|fuel IH]; intros x; cbn [file_attributes_loop]; [apply keeps_out_of_fuel|]. unfold swheaderline_get_value. hold. }
  unfold swheader_fileobject2filehdr, swheader_store_state, swheader_restore_state. hold.
Qed.

(** The operations of a SWHEADER, those that replace the image aside. *)
Inductive header_op :=
  | OpGotoNextLine (p : offset_ptr) (peek_only : bool) | OpFGotoNext | OpCurrentLine | OpImageHead | OpReset
  | OpSetOffset (n : Z) | OpSetOffsetPointer (p : offset_ptr) | OpStore | OpRestore (s : option SWHEADER_STATE)
  | OpNextObject (min max : Z) | OpNextAttribute | OpRawAttribute (key : bytes) | OpAttributeInObject (key : bytes) (o : option bytes)
  | OpSingleValue (key : bytes) | OpAttributeList (key : bytes) | OpAttribute (key : bytes)
  | OpGenerate (v : SWVERID) (line : option Z) | OpBySwverid (f_comp : comparison) (v : SWVERID) (uuid : Z) (count : bool)
  | OpByTag (uuid : Z) (key tag : bytes) | OpByDirectory
  | OpFileHeader (hdr : new_cpio_header) (digs : option FILE_DIGS) (c : SYSDBCACHES).

Definition discard {A} (m : Hd A) : Hd () := do! m in ret ().

Definition perform `{SysDB} (now : Z) (op : header_op) : Hd () :=
  match op with
  | OpGotoNextLine p b => discard (swheader_goto_next_line p b)
  | OpFGotoNext => discard swheader_f_goto_next
  | OpCurrentLine => discard swheader_get_current_line
  | OpImageHead => discard swheader_get_image_head
  | OpReset => swheader_reset
  | OpSetOffset n => swheader_set_current_offset n
  | OpSetOffsetPointer p => swheader_set_current_offset_p p
  | OpStore => swheader_store_state_here
  | OpRestore s => swheader_restore_state s
  | OpNextObject a b => discard (swheader_get_next_object a b)
  | OpNextAttribute => discard swheader_get_next_attribute
  | OpRawAttribute k => discard (swheader_raw_get_attribute_in_object k)
  | OpAttributeInObject k o => discard (swheader_get_attribute_in_current_object k o)
  | OpSingleValue k => discard (swheader_get_single_attribute_value k)
  | OpAttributeList k => discard (swheader_get_attribute_list k)
  | OpAttribute k => discard (swheader_get_attribute k)
  | OpGenerate v l => discard (swheader_generate_swverid v l)
  | OpBySwverid c v u b => discard (get_object_by_swverid c v u b)
  | OpByTag u k t => discard (swheader_get_object_by_tag u k t)
  | OpByDirectory => discard swheader_get_object_offset_by_control_directory
  | OpFileHeader h d c => discard (swheader_fileobject2filehdr now h d c)
  end.

(** A sequence of operations. *)
Fixpoint perform_all `{SysDB} (now : Z) (ops : list header_op) : Hd () :=
  match ops with [] => ret () | op :: ops => do! perform now op in perform_all now ops end.
(** The operation does not hand the int [j] of a caller over. *)
Definition not_lent (op : header_op) : Prop :=
  match op with
  | OpGotoNextLine p _ | OpSetOffsetPointer p => p <> PCaller j
  | OpRestore (Some s) => save_current_offset_pM s <> PCaller j
  | _ => True
  end.

Lemma op_keeps `{SysDB} now op : keeps (shape (not_lent op)) (perform now op).
Proof.
  pose proof generate_keeps. pose proof by_swverid_keeps. pose proof by_tag_keeps. pose proof by_directory_keeps.
  pose proof (fun B a b c => filehdr_keeps B now a b c).
  destruct op as [p b| | | | |n|p| |[s|]| | | | | | | | | | | |]; cbn [perform not_lent]; unfold discard, swheader_get_image_head, swheader_reset,
    swheader_set_current_offset, swheader_set_current_offset_p, swheader_store_state_here, swheader_restore_state; hold.
  by apply set_pointer_keeps; destruct p.
Qed.

Lemma ops_keep `{SysDB} now ops : keeps (shape (Forall not_lent ops)) (perform_all now ops).
Proof.
  induction ops as [|op ops IH]; intros h h' a Hr; [injection Hr as -> _; reflexivity|].
  apply runs_bind_inv in Hr as (h1 & [] & [C1 L1]%op_keeps & [C2 L2]%IH). split; [by transitivity (image_head_ h1)|].
  intros [Ho HF]%Forall_cons Ha. destruct (L1 Ho Ha) as [E1 A1]. destruct (L2 HF A1) as [E2 A2]. split; [congruence|done].
Qed.
End Objects.
End Ints.


(** ** Witnesses *)

Module Witness.
#[local] Instance zeroes : Malloc := fun _ => NUL.
#[local] Instance no_one : SysDB :=
  {| getpwnam := fun _ => None; getpwuid := fun _ => None; getgrnam := fun _ => None; getgrgid := fun _ => None |}.

Definition file : bytes := L "4    F01 INFO INFO" ++ ["010"%char].
Definition lines : list marked :=
  [(mkLine true 1 (L "product") [], mkMarks false false false);
   (mkLine false 2 (L "tag") (L "old"), mkMarks false false false);
   (mkLine false 2 (L "tag") (L "new"), mkMarks false false false);
   (mkLine true 2 (L "fileset") [], mkMarks false false false)].
Definition at_product : SWHEADER := header file [] (mkSTATE POwn 0 0) [] lines (AtLine 0) 0.
Definition behind_all : SWHEADER := header file [] (mkSTATE POwn 0 0) [] lines AtEnd 0.

Lemma file_ok : file_line file.
Proof.
  exists (L "4    "), 4, (L "01 INFO INFO"). split_and!; [done| |by repeat constructor|].
  - exists (L "4"), 3%nat. by split_and!; repeat constructor.
  - unfold no_nul. by apply (bool_decide_unpack (NUL ∉ file)).
Qed.

Lemma lines_metadata : metadata_ok file lines.*1.
Proof.
  split_and!; [apply file_ok| |by vm_compute].
  repeat (constructor; [split_and!; [split; [done|by repeat constructor]|vm_compute; congruence|vm_compute; congruence
    |by apply (bool_decide_unpack (NUL ∉ _))|done|done]|]). constructor.
Qed.

Lemma product_object : object_at lines.*1 0 [mkLine false 2 (L "tag") (L "old"); mkLine false 2 (L "tag") (L "new")].
Proof. eexists _, [_]. split_and!; [done|done|done|by repeat constructor|done]. Qed.
End Witness.

Lemma single_attribute_value_witness : exists p ls',
  runs (swheader_get_single_attribute_value (L "tag")) Witness.at_product
    (header Witness.file [] (mkSTATE POwn 0 0) [] ls' (AtLine 0) 0) (Some p)
  /\ str_at (image Witness.file [] ls') p = Some (L "new").
Proof.
  destruct (single_attribute_value Witness.file [] (mkSTATE POwn 0 0) [] Witness.lines 0 _ (L "tag")
    Witness.lines_metadata Witness.product_object) as (ls' & _ & a & p & Ha & R & T).
  injection Ha as <-. exists p, ls'. exact (conj R T).
Defined.

Lemma next_object_never_ends_witness :
  current_offset_ Witness.behind_all = -1 /\ (forall fuel, running (next_object_loop fuel (Some 1) 255 255) Witness.behind_all Witness.behind_all).
Proof.
  split; [reflexivity|].
  apply (next_object_never_ends Witness.behind_all _ _ _ _ _ 255 255 eq_refl eq_refl eq_refl eq_refl eq_refl).
Defined.


(** ** What goes wrong *)

Module Observed.
Import Witness.

Definition result_of {A B} (g : SWHEADER -> B) (r : option (result SWHEADER A)) : option (B * A) :=
  match r with Some (Done h a) => Some (g h, a) | _ => None end.

(** Behind the end, asking for attributes puts a NUL into the line that names
    the file: byte 1 is taken for the current line. *)
Example attribute_behind_the_end_cuts_the_file_line :
  result_of (fun h => (mem_read (image_head_ behind_all) 8, mem_read (image_head_ h) 8)) (swheader_get_next_attribute behind_all)
  = Some ((Some " "%char, Some NUL), None).
Proof. vm_compute. reflexivity. Qed.

(** The offset 0 is not negative, so that at the start the current line is the
    one behind the first. *)
Example current_line_at_the_start_is_the_second :
  result_of current_offset_ (swheader_get_current_line (header file [] (mkSTATE POwn 0 0) [] lines AtStart 0)) = Some (0, Some (zlen file)).
Proof. vm_compute. reflexivity. Qed.

Definition listed : list marked :=
  [(mkLine true 1 (L "fileset") [], mkMarks false false false);
   (mkLine false 2 (L "tag") (L "a"), mkMarks false false false);
   (mkLine false 2 (L "prerequisites") (L "b"), mkMarks false false false)].

(** The look-up of a list attribute leaves the static counter of
    swheader_get_next_attribute behind: the same look-up, repeated, finds nothing. *)
Example second_lookup_of_a_list_fails :
  let find := swheader_get_attribute_in_current_object (L "prerequisites") (Some (L "fileset")) in
  let h := header file [] (mkSTATE POwn 0 0) [] listed (AtLine 0) 0 in
  result_of att_count (find h) = Some (2, (Some 51, 1))
  /\ result_of att_count ((do! find in find) h) = Some (0, (None, 1)).
Proof. split; vm_compute; reflexivity. Qed.
End Observed.
