(* ===== verification/MetaWriteSpec.v ===== *)
(** * Specification of the metadata writer

    What swparse_expand_n makes of a value, the lines that the parser emits, and
    that the reader finds in them what was written. *)

From S2P Require Import Prelude CString Decimals Strob StrobSpec Pathname PathSpec Escape EscapeSpec Effects MetaLine MetaWrite MetaHeader MetaSpec MetaHeaderSpec.
Local Open Scope effects_scope.

(** ** Texts that grow by strob_chr_index *)

Section Building.
Context `{Malloc}.

(** The object starts with [t]; what is behind it is not fixed. *)
Record built (s : STROB) (t : bytes) : Prop := {
  bu_wf : wf s;
  bu_length : zlen t <= length_ s;
  bu_prefix : prefix s t;
}.

Lemma built_put s t c : built s t -> zlen t + 2 <= SMALL ->
  exists s', strob_chr_index s (zlen t) (uchar c) = Some s' /\ built s' (t ++ [c]).
Proof.
  intros [W Hl Hp] Hs. pose proof (zlen_nonneg t).
  destruct (strob_chr_index_spec s (zlen t) (uchar c) W) as (s' & E & W' & _ & Hl' & Hc & Hlo & _); [lia|lia|].
  exists s'. split; [done|]. rewrite to_char_uchar in Hc.
  constructor; [done|rewrite zlen_snoc; lia|]. intros i Hi. rewrite length_app in Hi. cbn [length] in Hi.
  destruct (decide (i = length t)) as [->|].
  - rewrite list_lookup_middle by done. rewrite <- Hc. unfold zlen. by rewrite Nat2Z.id.
  - rewrite lookup_app_l by lia. pose proof (lookup_lt_is_Some_2 t i ltac:(lia)) as [x Hx].
    rewrite Hlo; [by apply Hp; lia|unfold zlen in *; lia| |unfold zlen in *; lia].
    pose proof (Hp i ltac:(lia)) as E2. rewrite Hx in E2. apply lookup_lt_Some in E2. pose proof (wf_zlen s W). lia.
Qed.

Lemma built_end s t : built s t -> no_nul t -> zlen t + 2 <= SMALL ->
  exists s', strob_chr_index s (zlen t) 0 = Some s' /\ text s' t.
Proof.
  intros HB Hn Hs. destruct (built_put s t NUL HB Hs) as (s' & E & [W Hl Hp]). change (uchar NUL) with 0 in E.
  exists s'. split; [done|]. rewrite zlen_snoc in Hl. constructor; [done| |lia]. split; [done|]. split.
  - intros i Hi. cbn [Nat.add]. rewrite Hp by (rewrite length_app; cbn; lia). by apply lookup_app_l.
  - cbn [Nat.add]. rewrite Hp by (rewrite length_app; cbn; lia). by apply list_lookup_middle.
Qed.
End Building.

(** ** What swparse_expand_n makes of a text *)

Fixpoint expanded (s : bytes) : bytes :=
  match s with
  | [] => []
  | c :: r =>
      if ceq c NEWLINE_CHAR then backslash :: "n"%char :: expanded r
      else if ceq c backslash then
        match r with
        | [] => [backslash; backslash]
        | d :: r' =>
            if ceq d backslash then backslash :: backslash :: expanded r'
            else if ceq d "n" then backslash :: backslash :: "n"%char :: expanded r'
            else if ceq d "#" then "#"%char :: expanded r'
            else if ceq d quote then quote :: expanded r'
            else if swlib_is_ansi_escape d then backslash :: expanded r
            else backslash :: backslash :: expanded r
        end
      else c :: expanded r
  end.

(** A text in quotes, without the second one and whatever else stands there. *)
Definition dequoted (s : bytes) : bytes :=
  match s with
  | c :: (_ :: _) as r => if ceq c quote then removelast r else s
  | _ => s
  end.

Section Expanding.
Context `{Malloc}.

(** The expanded text has two bytes at most for each one. *)
Lemma expanded_length s : zlen (expanded s) <= 2 * zlen s.
Proof.
  induction s as [s IH] using (induction_ltof1 _ (@length ascii)); unfold ltof in IH. destruct s as [|c r]; [done|].
  cbn [expanded]. rewrite (zlen_cons c r). pose proof (zlen_nonneg r).
  pose proof (IH r ltac:(cbn; lia)) as Hr.
  destruct (ceq c NEWLINE_CHAR); [rewrite !zlen_cons; lia|]. destruct (ceq c backslash); [|rewrite zlen_cons; lia].
  destruct r as [|d r']; [rewrite !zlen_cons; lia|]. pose proof (IH r' ltac:(cbn; lia)) as Hr'.
  rewrite (zlen_cons d r') in *. repeat case_match; rewrite !zlen_cons in *; lia.
Qed.

Lemma expanded_no_nul s : no_nul s -> no_nul (expanded s).
Proof.
  induction s as [s IH] using (induction_ltof1 _ (@length ascii)); unfold ltof in IH. destruct s as [|c r]; [done|].
  intros [Hc Hr]%no_nul_cons. cbn [expanded]. pose proof (IH r ltac:(cbn; lia) Hr) as IHr.
  assert (HB : backslash <> NUL /\ "n"%char <> NUL /\ "#"%char <> NUL /\ quote <> NUL) by done.
  destruct HB as (H1 & H2 & H3 & H4).
  destruct (ceq c NEWLINE_CHAR); [by rewrite !no_nul_cons|]. destruct (ceq c backslash); [|by rewrite no_nul_cons].
  destruct r as [|d r']; [by rewrite !no_nul_cons|]. apply no_nul_cons in Hr as [_ Hr].
  pose proof (IH r' ltac:(cbn; lia) Hr) as IHr'. repeat case_match; rewrite ?no_nul_cons; done.
Qed.

(** The byte behind what was read, in the text with its NUL. *)
Lemma read_behind (pre rest : bytes) : mem_read ((pre ++ rest) ++ [NUL]) (zlen pre) = Some (hd NUL rest).
Proof.
  unfold mem_read. pose proof (zlen_nonneg pre). ztest. unfold zlen. rewrite Nat2Z.id, <- app_assoc, lookup_app_r by lia.
  rewrite Nat.sub_diag. by destruct rest.
Qed.

Lemma read_next (pre rest : bytes) c : mem_read ((pre ++ c :: rest) ++ [NUL]) (zlen pre + 1) = Some (hd NUL rest).
Proof. rewrite <- (zlen_snoc pre c), (cons_middle c pre rest), app_assoc. apply read_behind. Qed.

Ltac put_next s :=
  match goal with
  | HB : built ?b ?t |- context [strob_chr_index ?b ?i (uchar ?c)] =>
      let E := fresh "E" in
      destruct (built_put b t c HB) as (s & E & HB');
      [rewrite ?zlen_snoc; lia|replace i with (zlen t) by (rewrite ?zlen_snoc; lia); rewrite E; obind; clear HB E; rename HB' into HB]
  end.

Ltac emitted Hstep u :=
  lazymatch goal with
  | HB : built ?b ?t |- _ =>
      rewrite <- ?app_assoc in HB; cbn [app] in HB;
      refine (Hstep u _ _ _ _ eq_refl _ HB _ _ _); [cbn; lia|rewrite ?no_nul_cons; split_and?; first [apply no_nul_nil|done]|unfold zlen in *; rewrite ?length_app; cbn [length] in *; lia|unfold zlen; cbn [length]; lia]
  end.

Lemma expand_n_run rest : forall fuel pre acc store i j,
  built store acc -> no_nul (acc ++ rest) -> i = zlen pre -> i + j = zlen acc -> (length rest < fuel)%nat ->
  zlen acc + 2 * zlen rest + 2 <= SMALL ->
  exists s', expand_n_loop fuel (pre ++ rest) (zlen (pre ++ rest)) store i j = Some (s', zlen (acc ++ expanded rest))
    /\ text s' (acc ++ expanded rest).
Proof.
  induction rest as [rest IH] using (induction_ltof1 _ (@length ascii)); unfold ltof in IH.
  intros fuel pre acc store i j HB Hn -> Hj Hf Hs. destruct fuel as [|fuel]; [lia|]. cbn [expand_n_loop].
  pose proof (zlen_nonneg rest). rewrite zlen_app. destruct rest as [|c r].
  - change (expanded []) with (@nil ascii). rewrite zlen_nil in *. ztest. rewrite (app_nil_r acc) in *. rewrite Hj.
    destruct (built_end store acc HB Hn) as (s' & -> & T); [lia|]. obind. by exists s'.
  - rewrite zlen_cons in *. pose proof (zlen_nonneg r). ztest. rewrite read_behind. obind. cbn [hd expanded].
    apply no_nul_app in Hn as [Hna [Hnc Hnr]%no_nul_cons].
    assert (Hstep : forall u r' w j' b, c :: r = u ++ r' -> (1 <= length u)%nat -> built b (acc ++ w) -> no_nul w ->
      zlen pre + zlen u + j' = zlen (acc ++ w) -> zlen w <= 2 * zlen u ->
      exists s', expand_n_loop fuel (pre ++ c :: r) (zlen pre + (1 + zlen r)) b (zlen pre + zlen u) j' = Some (s', zlen (acc ++ w ++ expanded r'))
        /\ text s' (acc ++ w ++ expanded r')).
    { intros u r' w j' b Eu Hu HB' Hw Hj' Hz. assert (Hl : zlen (c :: r) = zlen u + zlen r') by (by rewrite Eu, zlen_app).
      rewrite zlen_cons in Hl. unfold zlen in Hz, Hl. rewrite <- zlen_cons with (x := c), <- zlen_app, Eu, app_assoc, app_assoc, <- zlen_app.
      apply IH; [rewrite Eu, length_app; lia|done| |done|by rewrite zlen_app| |rewrite zlen_app; unfold zlen in *; lia].
      - apply no_nul_app. split; [by apply no_nul_app|]. eapply no_nul_app. rewrite <- Eu. by apply no_nul_cons.
      - cbn [length] in Hf. lia. }
    destruct (ceq c NEWLINE_CHAR) eqn:E1; [put_next s1; put_next s2; emitted Hstep [c]|].
    destruct (ceq c backslash) eqn:E2; [|put_next s1; emitted Hstep [c]].
    apply ceq_eq in E2 as ->. rewrite read_next. obind. destruct r as [|d r]; cbn [hd].
    { change (ceq NUL backslash) with false. change (ceq NUL "n") with false. change (ceq NUL "#") with false.
      change (ceq NUL quote) with false. change (is_nul NUL || _) with true. cbv iota.
      put_next s1; put_next s2; emitted Hstep [backslash]. }
    rewrite zlen_cons in *. pose proof (zlen_nonneg r). pose proof Hnr as [Hnd _]%no_nul_cons.
    destruct (ceq d backslash) eqn:E3; [apply ceq_eq in E3 as ->; put_next s1; put_next s2; emitted Hstep [backslash; backslash]|].
    destruct (ceq d "n") eqn:E4; [apply ceq_eq in E4 as ->; put_next s1; put_next s2; put_next s3; emitted Hstep [backslash; "n"%char]|].
    destruct (ceq d "#") eqn:E5; [put_next s1; emitted Hstep [backslash; d]|].
    destruct (ceq d quote) eqn:E6; [put_next s1; emitted Hstep [backslash; d]|].
    assert (is_nul d = false) as -> by (by apply ceq_neq). cbn [orb negb].
    destruct (swlib_is_ansi_escape d); cbn [negb].
    + put_next s1; emitted Hstep [backslash].
    + put_next s1; put_next s2; emitted Hstep [backslash].
Qed.
End Expanding.

(** ** Objects without stale bytes *)

Section Clean.
Context `{Malloc}.

(** Nothing but NULs from the recorded length on. *)
Definition clean (s : STROB) : Prop := forall i, length_ s <= Z.of_nat i < reserve_ s -> str_ s !! i = Some NUL.

Lemma clean_reopen s n s' : wf s -> clean s -> 0 <= n <= SMALL -> strob_reopen_if s (to_size n) = Some s' -> clean s' /\ length_ s' = length_ s.
Proof.
  intros W Hc Hn E. rewrite reopen_if_is_fill in E.
  destruct (reopen_if_fill_spec s n 0 W Hn) as (s1 & E1 & W1 & _ & Hl & _ & _ & Hhi). rewrite E in E1. injection E1 as <-.
  split; [|done]. destruct Hhi as [->|Hhi]; [done|]. intros i Hi. destruct (decide (Z.of_nat i < reserve_ s' - 1)).
  - rewrite Hhi by lia. done.
  - rewrite <- (wf_last s' W1). f_equal. lia.
Qed.

Lemma clean_open n : n < SMALL -> exists s, strob_open n = Some s /\ text s [] /\ length_ s = 0 /\ clean s.
Proof.
  intros Hn. destruct (strob_open_spec n Hn) as (s & E & T & Hl). exists s. split_and!; [done|done|done|].
  unfold strob_open, strob_reopen in E. set (k := if n <=? 0 then _ else n) in E.
  assert (Hk : 1 <= k <= SMALL) by (subst k; unfold STROB_INITLENGTH, SMALL in *; destruct (n <=? 0) eqn:?; zbool; lia).
  unfold SMALL in Hk.
  destruct (strob_reopen_fill_with_spec (mkSTROB [] None 0 STROB_LENGTHINCR 0 0) (k + 1) 0)
    as (m & E2 & Hm & Hlast & _ & Hhi); [unfold INT_MAX; lia|cbn; lia|]. rewrite E in E2. injection E2 as ->. cbn in *.
  intros i Hi. cbn in Hi. destruct (decide (Z.of_nat i < Z.max (k + 1) 2 - 1)).
  - by rewrite Hhi by lia.
  - rewrite <- Hlast. f_equal. lia.
Qed.

Lemma clean_strcpy s u : wf s -> clean s -> length_ s = 0 -> no_nul u -> zlen u < SMALL ->
  exists s', strob_strcpy s u = Some s' /\ text s' u /\ length_ s' = zlen u /\ clean s'.
Proof.
  intros W Hc Hl Hu Hs. destruct (strob_strcpy_spec s u W Hu Hs) as (s' & E & T & _ & Hl'). exists s'.
  split_and!; [done|done|done|]. unfold strob_strcpy, strob_strcpy_at_offset in E. pose proof (zlen_nonneg u).
  destruct (strob_reopen_if s (to_size (zlen u + 0 + 1))) as [s1|] eqn:E1; [|done].
  apply clean_reopen in E1 as [Hc1 Hl1]; [|done|done|lia]. cbn [mbind option_bind] in E.
  destruct (mem_write (str_ s1) 0 (u ++ [NUL])) as [m|] eqn:E2; [|done]. cbn [mbind option_bind] in E. injection E as <-.
  intros i Hi. cbn in Hi |- *. cbn in Hl'. rewrite (mem_write_lookup _ _ _ _ i E2). rewrite zlen_snoc.
  destruct (decide _).
  - assert (i = length u) as -> by (unfold zlen in *; lia). rewrite Nat.sub_0_r. by apply list_lookup_middle.
  - apply Hc1. lia.
Qed.

(** strob_set_length keeps a text, and stale bytes do not appear. *)
Lemma set_length_text s t len : text s t -> zlen t < len < SMALL ->
  exists s', strob_set_length s len = Some s' /\ text s' t
    /\ (clean s -> length_ s = zlen t -> zlen t + 1 < len -> str_ s' !! S (length t) = Some NUL).
Proof.
  intros T Hlen. pose proof (zlen_nonneg t). unfold strob_set_length.
  destruct (strob_set_memlength_spec s (len + 1) (text_wf s t T)) as (s1 & E1 & W1 & Hl & Hr & _ & Hlo & Ht); [lia|].
  rewrite E1. obind. written m. eexists. split; [done|]. specialize (Ht t T ltac:(lia)).
  pose proof (fun i => mem_write_lookup _ _ _ _ i Hm) as L. rewrite zlen_cons, zlen_nil in L. split.
  - constructor; [eapply wf_set_str; eauto| |cbn; lia]. destruct (text_holds _ _ Ht) as (Hn & Hp & Hz).
    split; [done|]. cbn [set_str str_]. unfold zlen in *. split; [intros i Hi|]; rewrite L, decide_False by lia; [by apply Hp|done].
  - intros Hc Hl2 Hlt. cbn [set_str str_]. rewrite L, decide_False by (unfold zlen in *; lia).
    unfold strob_set_memlength in E1. destruct (strob_reopen_if s (to_size (len + 1))) as [s2|] eqn:E2; [|done].
    injection E1 as <-. apply clean_reopen in E2 as [Hc2 Hl3]; [|by apply T|done|lia]. cbn in *. apply Hc2. unfold zlen in *. lia.
Qed.
End Clean.

(** ** Expanding a value *)

Section Emitting.
Context `{Malloc}.

Lemma dequoted_small s : zlen (dequoted s) <= zlen s.
Proof.
  unfold dequoted. destruct s as [|c [|d r]]; [done|done|]. destruct (ceq c quote); [|done].
  assert (E : d :: r = removelast (d :: r) ++ [List.last (d :: r) NUL]) by (by apply app_removelast_last).
  rewrite (zlen_cons c). rewrite E at 2. rewrite zlen_snoc. lia.
Qed.

Lemma dequoted_no_nul s : no_nul s -> no_nul (dequoted s).
Proof.
  intros Hs. unfold dequoted. destruct s as [|c [|d r]]; [done|done|]. destruct (ceq c quote); [|done].
  apply no_nul_cons in Hs as [_ Hs]. rewrite (app_removelast_last NUL (l := d :: r)) in Hs by done. by apply no_nul_app in Hs as [Hs _].
Qed.

(** The text that is left when the quotes are taken off. *)
Lemma de_quote_it_run s : no_nul s -> exists m lp, de_quote_it (s ++ [NUL]) 0 = Some (m, lp) /\ str_at m lp = Some (dequoted s).
Proof.
  intros Hs. pose proof (text_holds_buffer s Hs) as HH. unfold de_quote_it, dequoted.
  destruct s as [|c [|d r]].
  - exists [NUL], 0. done.
  - change (mem_read ([c] ++ [NUL]) 0) with (Some c). obind. exists ([c] ++ [NUL]), 0. split; [|by apply str_at_0_holds].
    destruct (ceq c quote); [|done]. done.
  - change (mem_read ((c :: d :: r) ++ [NUL]) 0) with (Some c). obind. destruct (ceq c quote); cbn [negb].
    2:{ eexists _, 0. split; [done|]. by apply str_at_0_holds. }
    pose proof (zlen_nonneg r).
    rewrite (strlen_at_drop _ _ (0 + 1) HH) by (rewrite !zlen_cons; lia). obind. rewrite !zlen_cons. ztest.
    set (t := removelast (d :: r)).
    assert (Et : d :: r = t ++ [List.last (d :: r) NUL]) by (by apply app_removelast_last).
    assert (Hl : zlen r = zlen t) by (apply (f_equal zlen) in Et; rewrite zlen_snoc, zlen_cons in Et; lia).
    rewrite Et. set (x := List.last (d :: r) NUL) in *.
    destruct (mem_write_exists ((c :: t ++ [x]) ++ [NUL]) (0 + 1 + (1 + (1 + zlen r) - (0 + 1)) - 1) [NUL]) as [m Em]; [lia| |].
    { cbn [app]. change (zlen [NUL]) with 1. rewrite zlen_cons, !zlen_snoc. lia. }
    eexists m, (0 + 1). cbn [app] in Em |- *. rewrite Em. obind. split; [done|]. apply str_at_holds; [lia|].
    replace (0 + 1 + (1 + (1 + zlen r) - (0 + 1)) - 1) with (Z.of_nat (length (c :: t))) in Em by (cbn [length]; unfold zlen in *; lia).
    assert (HH' : holds (c :: (t ++ [x]) ++ [NUL]) 0 (c :: t ++ [x])) by (by rewrite <- Et).
    pose proof (holds_cut _ _ (length (c :: t)) m HH' ltac:(cbn [length]; rewrite length_app; lia) Em) as HC.
    change (c :: t ++ [x]) with ((c :: t) ++ [x]) in HC. rewrite take_app_length in HC.
    pose proof (holds_at m (c :: t) 1 HC ltac:(cbn; lia)) as HD. exact HD.
Qed.

Lemma swparse_expand_n_run s : no_nul s -> 4 * zlen s + 4 <= SMALL ->
  exists m b, swparse_expand_n (s ++ [NUL]) 0 = Some (m, b, zlen (expanded (dequoted s))) /\ text b (expanded (dequoted s)).
Proof.
  intros Hs Hsmall. unfold swparse_expand_n. destruct (strob_open_spec 2) as (s0 & -> & T0 & _); [by vm_compute|]. obind.
  destruct (strob_strcpy_spec s0 [] (text_wf _ _ T0) no_nul_nil) as (s1 & -> & T1 & _); [by vm_compute|]. obind.
  destruct (de_quote_it_run s Hs) as (m & lp & -> & Elp). obind. rewrite Elp. obind.
  set (t := dequoted s) in *. pose proof (dequoted_small s). fold t in H0. pose proof (dequoted_no_nul s Hs) as Ht. fold t in Ht.
  pose proof (zlen_nonneg t).
  destruct (strob_set_memlength_spec s1 (zlen t + 1) (text_wf _ _ T1)) as (s2 & -> & W2 & Hl2 & _); [lia|]. obind.
  destruct (expand_n_run t (S (length t)) [] [] s2 0 0) as (s3 & E3 & T3); [|done|done|done|lia|rewrite zlen_nil; lia|].
  { constructor; [done|rewrite zlen_nil; lia|]. intros i Hi. cbn in Hi. lia. }
  cbn [app] in E3. rewrite E3. obind. eexists _, s3. done.
Qed.

(** ** The command EMIT *)

Definition no_hex (t : bytes) : Prop := strstr t [backslash; "x"%char] = None.

Lemma hex_escapes_none m t : holds m 0 t -> no_hex t -> swlib_process_hex_escapes m = Some m.
Proof.
  intros HH Hx. unfold swlib_process_hex_escapes, process_all_hex_escapes. cbn [hex_loop].
  unfold does_have_hex_escape. rewrite (proj2 (str_at_0_holds _ _) HH). obind. by rewrite Hx.
Qed.

(** The line with its length in front. *)
Definition length_line (t : bytes) (n level : Z) (ty : ascii) : bytes :=
  print_left SWPARSE_MKUP_LEN_WIDTH n ++ L " " ++ [ty] ++ print_02d level ++ L " " ++ t ++ [NEWLINE_CHAR].

Lemma print_left_length n : 0 <= n < 10 ^ 9 -> zlen (print_left SWPARSE_MKUP_LEN_WIDTH n) <= 9.
Proof.
  intros Hn. unfold print_left, print_d. ztest. pose proof (ndigits_le n 9 ltac:(lia) ltac:(lia)) as Hd.
  unfold ndigits in Hd. rewrite zlen_app, zlen_replicate. unfold SWPARSE_MKUP_LEN_WIDTH. pose proof (zlen_nonneg (decimal n)). lia.
Qed.

Lemma print_02d_digit n : 0 <= n <= 9 -> print_02d n = ["0"%char; to_char (48 + n)].
Proof.
  intros Hn. unfold print_02d. ztest. cbn [andb]. unfold decimal. cbn [decimal_loop].
  rewrite (Z.div_small n 10), Z.mod_small by lia. done.
Qed.

Lemma emit_run s t n level ty out :
  text s t -> t <> [] -> no_hex t -> 0 <= level <= 9 -> zlen t + 60 <= SMALL -> 0 <= n < 10 ^ 9 ->
  (forall s', text s' t -> (clean s -> length_ s = zlen t -> str_ s' !! S (length t) = Some NUL) ->
     strlen_at (str_ s') (match find_index isspace t with Some i => Z.of_nat i | None => zlen t end + 1) = Some n) ->
  exists s', swparse_construct_attribute s [] SWPARSE_ACMD_EMIT level ty SWPARSE_FORM_MKUP_LEN out
    = Some (s', out ++ length_line t n level ty, zlen (length_line t n level ty)).
Proof.
  intros T Hne Hx Hlev Hsmall Hn Hlen. unfold swparse_construct_attribute. pose proof (zlen_nonneg t).
  assert (Ht : 0 < zlen t) by (destruct t; [done|rewrite zlen_cons in *; pose proof (zlen_nonneg t); lia]).
  ztest. change (form_has SWPARSE_FORM_MKUP_LEN SWPARSE_FORM_INDENT) with false. cbn [andb].
  change (form_has SWPARSE_FORM_MKUP_LEN SWPARSE_FORM_MKUP || _) with false. cbv iota zeta.
  change ((SWPARSE_ACMD_EMIT =? SWPARSE_ACMD_COPY) || (SWPARSE_ACMD_EMIT =? SWPARSE_ACMD_CAT)) with false.
  change (SWPARSE_ACMD_EMIT =? SWPARSE_ACMD_EMIT) with true. cbv iota.
  unfold emit_attribute. rewrite (text_str _ _ T). obind. ztest. obind.
  rewrite (hex_escapes_none (str_ s) t (text_holds _ _ T) Hx). obind.
  assert (set_str (str_ s) s = s) as -> by (by destruct s). rewrite (text_str _ _ T). obind.
  destruct (set_length_text s t (zlen t + level + 6 + SWPARSE_MKUP_RES) T) as (s' & -> & T' & Hz);
    [unfold SWPARSE_MKUP_RES in *; lia|]. obind. rewrite (text_str _ _ T'). obind.
  unfold marked_line. change (form_has SWPARSE_FORM_MKUP_LEN SWPARSE_FORM_MKUP) with false.
  change (form_has SWPARSE_FORM_MKUP_LEN SWPARSE_FORM_MKUP_LEN) with true. cbv iota zeta.
  rewrite (Hlen s' T'). 2:{ intros Hc Hl. apply Hz; [done|done|unfold SWPARSE_MKUP_RES; lia]. }
  obind. fold (length_line t n level ty).
  assert (snprintf_text (zlen t + level + 6 + SWPARSE_MKUP_RES) (length_line t n level ty) = length_line t n level ty) as ->.
  { unfold snprintf_text. apply take_ge. pose proof (print_left_length n Hn). unfold length_line.
    rewrite print_02d_digit by done. unfold zlen, SWPARSE_MKUP_RES in *. rewrite !length_app in *. cbn [length] in *. change (length (L " ")) with 1%nat. lia. }
  by eexists.
Qed.
End Emitting.
