(* ===== verification/MetaRoundtrip.v ===== *)
(** * What the parser writes, the metadata reader finds

    The lines of swparse_write_attribute_obj and swparse_write_attribute_att
    behind the line of swparse_print_filename are an image of MetaHeaderSpec.v;
    walking over it gives the objects and attributes that were written. *)

From S2P Require Import Prelude CString Decimals Strob StrobSpec Pathname PathSpec Escape EscapeSpec Effects MetaLine MetaWrite MetaHeader MetaSpec MetaHeaderSpec MetaWriteSpec.
Local Open Scope effects_scope.

(** ** Writing *)

Definition unmarked : marks := mkMarks false false false.

(** An object or attribute as it is given, and as it is found. *)
Definition given (l : mline) : Prop :=
  word (ml_key l) /\ 0 <= ml_level l <= 9 /\ no_nul (ml_value l)
  /\ 4 * (zlen (ml_key l) + zlen (ml_value l)) + 100 <= SMALL
  /\ no_hex (ml_key l ++ (if ml_obj l then [] else SPACE_CHAR :: expanded (dequoted (ml_value l))))
  /\ (ml_obj l = true -> ml_value l = []).

Definition recorded (l : mline) : mline :=
  if ml_obj l then l else mkLine false (ml_level l) (ml_key l) (expanded (dequoted (ml_value l))).

Section Lines.
Context `{Malloc}.

Definition write_line (l : mline) (out : bytes) : option (bytes * Z) :=
  if ml_obj l then swparse_write_attribute_obj (ml_key l) (ml_level l) SWPARSE_FORM_MKUP_LEN out
  else swparse_write_attribute_att (ml_key l) (ml_value l) (ml_level l) SWPARSE_FORM_MKUP_LEN out.

Fixpoint write_lines (L : list mline) (out : bytes) : option bytes :=
  match L with [] => Some out | l :: L => '(out, _) ← write_line l out; write_lines L out end.

Lemma word_no_space s : word s -> Forall (fun c => isspace c = false) s.
Proof.
  intros [_ Hs]. eapply Forall_impl; [exact Hs|]. intros c Hc. apply andb_true_iff in Hc as [_ Hc]. by apply negb_true_iff.
Qed.

Lemma recorded_length l : given l -> zlen (ml_value (recorded l)) <= 2 * zlen (ml_value l).
Proof.
  intros _. unfold recorded. pose proof (zlen_nonneg (ml_value l)). destruct (ml_obj l); [lia|]. cbn [ml_value].
  pose proof (expanded_length (dequoted (ml_value l))). pose proof (dequoted_small (ml_value l)). lia.
Qed.

Lemma recorded_ok l : given l -> line_ok (recorded l).
Proof.
  intros HG. pose proof (recorded_length l HG) as Hl. destruct HG as (Hw & Hlev & Hn & Hs & _ & Ho). unfold SMALL in Hs.
  pose proof (zlen_nonneg (ml_key l)). pose proof (zlen_nonneg (ml_value l)).
  unfold recorded, line_ok in *. destruct (ml_obj l) eqn:E; cbn [ml_key ml_level ml_value ml_obj] in *.
  - rewrite E, Ho by done. split_and!; [done|lia|lia|apply no_nul_nil|done|done].
  - split_and!; [done|lia|lia|by apply expanded_no_nul, dequoted_no_nul|lia|done].
Qed.

Lemma print_left_0 : print_left SWPARSE_MKUP_LEN_WIDTH 0 = L "0   ".
Proof. reflexivity. Qed.

Lemma write_line_run l out : given l ->
  exists n, write_line l out = Some (out ++ line_bytes (recorded l) unmarked, n).
Proof.
  intros HG. pose proof (recorded_length l HG) as Hl. pose proof (recorded_ok l HG) as Hok.
  destruct HG as (Hw & Hlev & Hn & Hs & Hx & Ho). pose proof (word_no_nul _ Hw) as Hnk. pose proof (word_no_space _ Hw) as Hsp.
  pose proof (zlen_nonneg (ml_key l)). pose proof (zlen_nonneg (ml_value l)).
  assert (Hne : ml_key l <> []) by apply Hw. unfold write_line, recorded in *. destruct (ml_obj l) eqn:E.
  - unfold swparse_write_attribute_obj. change (form_has SWPARSE_FORM_MKUP_LEN SWPARSE_FORM_INDENT) with false. cbv iota.
    rewrite app_nil_r in Hx.
    destruct (clean_open 12) as (s0 & -> & T0 & Hl0 & Hc0); [by vm_compute|]. obind.
    destruct (clean_strcpy s0 (ml_key l) (text_wf _ _ T0) Hc0 Hl0 Hnk) as (s1 & -> & T1 & Hl1 & Hc1); [lia|]. obind.
    destruct (emit_run s1 (ml_key l) 0 (ml_level l) SWPARSE_MD_TYPE_OBJ out T1 Hne Hx Hlev) as (s2 & E2); [lia|lia| |].
    { intros s' T' Hz. specialize (Hz Hc1 Hl1).
      assert (find_index isspace (ml_key l) = None) as -> by (by apply find_index_None).
      apply (strlen_at_holds _ _ []); [lia|]. split; [apply no_nul_nil|]. split; [intros i Hi; cbn in Hi; lia|].
      rewrite Nat.add_0_r, <- Hz. f_equal. unfold zlen. lia. }
    rewrite E2. obind. eexists. f_equal. f_equal. f_equal.
    unfold length_line, line_bytes, line_head, line_type, line_sep, line_tail, level_char. rewrite E, print_left_0, print_02d_digit by done.
    cbn [mk_flag mk_key unmarked]. reflexivity.
  - unfold swparse_write_attribute_att. set (v := expanded (dequoted (ml_value l))) in *.
    assert (Hv : no_nul v) by (by apply expanded_no_nul, dequoted_no_nul). pose proof (zlen_nonneg v). cbn [ml_value] in Hl.
    destruct (strob_open_spec 12) as (s0 & -> & T0 & _); [by vm_compute|]. obind.
    destruct (strob_strcpy_spec s0 (ml_key l) (text_wf _ _ T0) Hnk) as (s1 & -> & T1 & _ & Hl1); [lia|]. obind.
    destruct (strob_strcat_spec s1 _ [SPACE_CHAR] T1) as (s2 & -> & T2 & _ & _); [by apply no_nul_cons; split; [|apply no_nul_nil]|change (zlen [SPACE_CHAR]) with 1; lia|]. obind.
    destruct (swparse_expand_n_run (ml_value l) Hn) as (m & b & -> & Tb); [lia|]. obind. fold v in Tb. rewrite (text_str _ _ Tb). obind.
    destruct (strob_strcat_spec s2 _ v T2 Hv) as (s3 & -> & T3 & _ & _); [rewrite zlen_snoc; lia|]. obind.
    rewrite <- app_assoc in T3. cbn [app] in T3.
    destruct (emit_run s3 _ (zlen v) (ml_level l) SWPARSE_MD_TYPE_ATT out T3) as (s4 & E4); [by destruct (ml_key l)|done|done| |unfold SMALL in *; lia| |].
    { rewrite zlen_app, zlen_cons. lia. }
    { intros s' T' _.
      assert (find_index isspace (ml_key l ++ SPACE_CHAR :: v) = Some (length (ml_key l))) as -> by (by apply find_index_app).
      rewrite (strlen_at_drop _ _ _ (text_holds _ _ T')); rewrite zlen_app, zlen_cons; unfold zlen in *; [f_equal; lia|lia]. }
    rewrite E4. obind. eexists. f_equal. f_equal. f_equal.
    unfold length_line, line_bytes, line_head, line_type, line_sep, line_tail, level_char. cbn [ml_obj ml_level ml_value ml_key mk_flag mk_key mk_value unmarked].
    rewrite print_02d_digit by done. rewrite <- !app_assoc. reflexivity.
Qed.

Lemma write_lines_run L out : Forall given L ->
  write_lines L out = Some (out ++ lines_bytes ((fun l => (recorded l, unmarked)) <$> L)).
Proof.
  revert out. induction L as [|l L IH]; intros out HL; [by cbn [write_lines]; rewrite app_nil_r|].
  apply Forall_cons in HL as [Hl HL]. cbn [write_lines]. destruct (write_line_run l out Hl) as (n & ->). obind.
  rewrite IH by done. cbn [fmap list_fmap]. by rewrite <- app_assoc.
Qed.
End Lines.

(** ** The line of the file *)

Definition one_line (s : bytes) : Prop := Forall (fun c => ceq MD_NEWLINE c = false) s /\ no_nul s.

Lemma one_line_app a b : one_line a -> one_line b -> one_line (a ++ b).
Proof. intros [Ha Ha'] [Hb Hb']. split; [by apply Forall_app|by apply no_nul_app]. Qed.

Lemma one_line_one c : ceq MD_NEWLINE c = false -> c <> NUL -> one_line [c].
Proof. intros H1 H2. split; [by constructor|]. apply no_nul_cons. split; [done|apply no_nul_nil]. Qed.

Lemma digits_one_line ds : Forall digit ds -> one_line ds.
Proof.
  intros Hd. split.
  - eapply Forall_impl; [exact Hd|]. intros c Hc. apply digit_range in Hc. apply ceq_neq. intros <-. change (uchar MD_NEWLINE) with 10 in Hc; lia.
  - intros Hin. rewrite Forall_forall in Hd. apply Hd, digit_range in Hin. change (uchar NUL) with 0 in Hin; lia.
Qed.

Lemma numeral_one_line u n : numeral_head u n -> one_line u.
Proof.
  intros (ds & k & -> & _ & Hd & _). apply one_line_app; [by apply digits_one_line|]. apply one_line_app; [|by apply one_line_one].
  induction k as [|k IH]; [split; [done|apply no_nul_nil]|]. by apply (one_line_app [" "%char]); [apply one_line_one|].
Qed.

Lemma filename_line len filetype ws name : one_line filetype -> one_line ws -> one_line name ->
  zlen ws <= 8 -> zlen name < 10 ^ 9 -> zlen filetype + zlen ws + zlen name + 20 <= len ->
  file_line (swparse_print_filename len filetype ws name SWPARSE_FORM_MKUP_LEN []).
Proof.
  intros Hf Hw Hn Hw8 Hn9 Hlen. pose proof (zlen_nonneg ws). pose proof (zlen_nonneg filetype). pose proof (zlen_nonneg name).
  unfold swparse_print_filename. change (form_has SWPARSE_FORM_MKUP_LEN SWPARSE_FORM_MKUP) with false. cbv iota. cbn [app].
  set (u := print_left SWPARSE_MKUP_LEN_WIDTH (zlen name) ++ [" "%char]).
  set (s := ["0"%char; to_char (48 + (zlen ws + 1))] ++ L " " ++ ws ++ filetype ++ L " " ++ name).
  assert (Hu : numeral_head u (zlen name)) by (apply print_left_head; lia).
  assert (Hs : one_line s).
  { assert (Hd : one_line ["0"%char; to_char (48 + (zlen ws + 1))]).
    { apply digits_one_line. constructor; [done|]. constructor; [|done]. unfold digit, isdigit, in_range.
      rewrite uchar_to_char, Z.mod_small by lia. apply andb_true_iff. split; apply Z.leb_le; vm_compute (uchar _); lia. }
    unfold s. assert (one_line (L " ")) by (by apply one_line_one). by repeat apply one_line_app. }
  assert (E : snprintf_text len (print_left SWPARSE_MKUP_LEN_WIDTH (zlen name) ++ L " F" ++ print_02d (zlen ws + 1) ++ L " "
    ++ ws ++ filetype ++ L " " ++ name ++ [NEWLINE_CHAR]) = u ++ SWPARSE_MD_TYPE_FILEREF :: s ++ ["010"%char]).
  { unfold snprintf_text. rewrite print_02d_digit by lia. rewrite take_ge.
    - unfold u, s. change (L " F") with ([" "%char] ++ [SWPARSE_MD_TYPE_FILEREF]). by rewrite <- !app_assoc.
    - pose proof (print_left_length (zlen name) ltac:(lia)). unfold zlen in *. rewrite !length_app in *. cbn [length] in *.
      change (length (L " F")) with 2%nat. change (length (L " ")) with 1%nat. lia. }
  rewrite E. exists u, (zlen name), s. pose proof (numeral_one_line u _ Hu) as Hu'.
  assert (Ha : one_line (u ++ SWPARSE_MD_TYPE_FILEREF :: s)).
  { apply one_line_app; [done|]. by apply (one_line_app [SWPARSE_MD_TYPE_FILEREF]); [apply one_line_one|]. }
  split_and!; [done|done|apply Ha|]. rewrite app_comm_cons, app_assoc. apply no_nul_app. split; [apply Ha|].
  apply no_nul_cons. split; [done|apply no_nul_nil].
Qed.

(** ** Reading everything *)

(** What a line says, the way the users of the reader take it apart. *)
Definition line_contents (line : Z) : Img mline :=
  let! ty := swheaderline_get_type line in
  let! level := swheaderline_get_level line in
  let! key := keyword_text line in
  let! key := lift key in
  if ceq ty SWPARSE_MD_TYPE_OBJ then ret (mkLine true level key [])
  else
    let! v := swheaderline_get_value line in
    let! v := lift v in
    let! t := reads (fun m => str_at m (fst v)) in
    ret (mkLine false level key t).

Fixpoint read_attributes (fuel : nat) : Hd (list mline) :=
  match fuel with
  | O => out_of_fuel
  | S fuel =>
      let! line := swheader_get_next_attribute in
      match line with
      | None => ret []
      | Some line =>
          let! a := on_image (line_contents line) in
          let! rest := read_attributes fuel in
          ret (a :: rest)
      end
  end.

(** The objects with their attributes, each list with [fuel] rounds. *)
Fixpoint read_objects (n fuel : nat) : Hd (list (mline * list mline)) :=
  match n with
  | O => out_of_fuel
  | S n =>
      let! line := swheader_get_next_object UCHAR_MAX UCHAR_MAX in
      match line with
      | None => ret []
      | Some line =>
          let! o := on_image (line_contents line) in
          let! attributes := read_attributes fuel in
          let! rest := read_objects n fuel in
          ret ((o, attributes) :: rest)
      end
  end.

Section Reading.
Context (f junk : bytes) (saved : SWHEADER_STATE) (ints : list Z).
Abbreviation does := (does f junk saved ints).
Abbreviation line_at := (line_at f).
Abbreviation metadata_ok := (metadata_ok f).

Lemma line_contents_run pre post l k : line_ok l ->
  runs (line_contents (zlen pre)) (image_of pre post l k) (image_of pre post l (if ml_obj l then cut_key k else cut_value k)) l.
Proof.
  intros Hl. unfold line_contents. eapply runs_bind; [by apply line_get_type|]. eapply runs_bind; [by apply line_get_level|].
  eapply (runs_bind _ _ _ (image_of pre post l (cut_key k)) _ (Some (ml_key l))).
  { unfold keyword_text. eapply runs_bind; [by apply line_get_keyword|]. cbv beta iota.
    eapply runs_bind; [apply runs_reads; by apply line_key_text|]. apply runs_ret. }
  eapply runs_bind; [by apply runs_lift|]. rewrite line_type_obj. pose proof Hl as (_ & _ & _ & _ & Ho).
  destruct l as [[] lev key v]; cbn [ml_obj ml_level ml_key ml_value] in *.
  - rewrite Ho by done. apply runs_ret.
  - eapply runs_bind; [by apply line_get_value|]. cbn [ml_obj]. eapply runs_bind; [by apply runs_lift|].
    eapply runs_bind; [apply runs_reads; by apply line_value_text|]. apply runs_ret.
Qed.

Lemma contents_of_line L i l x c : metadata_ok L -> L !! i = Some l ->
  does (on_image (line_contents (line_at L i))) L x c x c l.
Proof.
  intros (_ & Hok & _) Hi. rewrite Forall_lookup in Hok. pose proof (Hok _ _ Hi).
  apply (does_on_line f junk saved ints line_contents L i l x c (fun _ => l)
    (fun k => if ml_obj l then cut_key k else cut_value k) Hi). intros. by apply line_contents_run.
Qed.

Lemma read_attributes_run L i : metadata_ok L -> forall B A fuel, object_at L i (A ++ B) -> (length B < fuel)%nat ->
  does (read_attributes fuel) L (AtLine (i + length A)) (zlen A) (AtLine (i + length (A ++ B))) 0 B.
Proof.
  intros HL. induction B as [|b B IH]; intros A fuel HO Hf; (destruct fuel as [|fuel]; [cbn in Hf; lia|]); cbn [read_attributes].
  - rewrite app_nil_r in *. eapply does_bind; [by apply attribute_no|]. apply does_ret.
  - eapply does_bind; [by eapply attribute_yes|]. cbv beta iota. destruct (object_attribute L i A b B HO) as [Hb _].
    assert (Hb' : L !! (i + length (A ++ [b]))%nat = Some b) by (rewrite length_app, Nat.add_1_r; exact Hb).
    eapply does_bind; [by eapply contents_of_line|]. rewrite (cons_middle b A B), app_assoc in HO |- *.
    eapply does_bind; [apply IH; [done|cbn in Hf; lia]|]. apply does_ret.
Qed.

(** The lines of objects with their attributes. *)
Definition object_lines (O : list (mline * list mline)) : list mline := concat (map (fun o => o.1 :: o.2) O).
Definition is_object (o : mline * list mline) : Prop := ml_obj o.1 = true /\ Forall (fun a => ml_obj a = false) o.2.

Lemma next_is_object O : Forall is_object O -> match object_lines O with r :: _ => ml_obj r = true | [] => True end.
Proof. intros HO. destruct HO as [|[o A] O [Ho _] _]; [done|]. exact Ho. Qed.

Lemma stands_at L i o A O : drop i L = object_lines ((o, A) :: O) -> Forall is_object ((o, A) :: O) ->
  L !! i = Some o /\ object_at L i A /\ drop (S (i + length A)) L = object_lines O.
Proof.
  intros Hd [[Ho HA] HO]%Forall_cons.
  change (object_lines ((o, A) :: O)) with (o :: A ++ object_lines O) in Hd.
  assert (Hi : L !! i = Some o) by (rewrite <- (Nat.add_0_r i), <- lookup_drop, Hd; done).
  assert (Hd' : drop (S i) L = A ++ object_lines O) by (rewrite (drop_S L o i Hi) in Hd; by injection Hd).
  split_and!; [done| |].
  - exists o, (object_lines O). split_and!; [done|done|done|done|by apply next_is_object].
  - replace (S (i + length A)) with (S i + length A)%nat by lia. rewrite <- drop_drop, Hd'. apply drop_app_length.
Qed.

(** A place from which the search for an object comes to line [i]. *)
Lemma read_objects_run L : metadata_ok L -> forall O n fuel i l, (length O < n)%nat -> Forall is_object O ->
  Forall (fun o => length o.2 < fuel)%nat O -> L !! i = Some l -> drop (S i) L = object_lines O ->
  does (read_objects n fuel) L (AtLine i) 0 AtEnd 0 O.
Proof.
  intros HL. induction O as [|[o A] O IH]; intros n fuel i l Hn HO Hf Hi Hd; (destruct n as [|n]; [cbn in Hn; lia|]); cbn [read_objects];
    pose proof (next_object_run f junk saved ints L i l [] (object_lines _) UCHAR_MAX UCHAR_MAX 0 HL Hi Hd (List.Forall_nil _) (next_is_object _ HO)) as R;
    cbn [length] in R; rewrite Nat.add_1_r in R.
  - assert (HN : L !! S i = None) by (apply lookup_ge_None; apply (f_equal length) in Hd; rewrite length_drop in Hd; cbn in Hd; lia).
    unfold place_of in R. rewrite HN in R. eapply does_bind; [exact R|]. apply does_ret.
  - destruct (stands_at L (S i) o A O Hd HO) as (Ho & HA & Hd'). unfold place_of in R. rewrite Ho in R.
    change (object_lines ((o, A) :: O)) with (o :: A ++ object_lines O) in R. cbv iota in R.
    change (wanted UCHAR_MAX UCHAR_MAX o) with true in R. cbv iota in R.
    eapply does_bind; [exact R|]. cbv beta iota. eapply does_bind; [by eapply contents_of_line|].
    apply Forall_cons in HO as [_ HO]. apply Forall_cons in Hf as [Hf1 Hf]. cbn [snd] in Hf1.
    pose proof (read_attributes_run L (S i) HL A [] fuel HA Hf1) as RA. cbn [length app] in RA. rewrite Nat.add_0_r in RA.
    eapply does_bind; [exact RA|]. 
    assert (Hlast : exists l', L !! (S i + length A)%nat = Some l') by (destruct (object_stands L (S i) A [] ltac:(by rewrite app_nil_r)) as (l' & Hl' & _); by exists l').
    destruct Hlast as [l' Hl']. eapply does_bind; [by eapply (IH n fuel _ l'); [cbn in Hn; lia|done|done|done|exact Hd']|]. apply does_ret.
Qed.

Lemma read_all O n fuel : metadata_ok (object_lines O) -> O <> [] -> (length O < n)%nat -> Forall is_object O ->
  Forall (fun o => length o.2 < fuel)%nat O ->
  does (read_objects n fuel) (object_lines O) AtStart 0 AtEnd 0 O.
Proof.
  intros HL Hne Hn HO Hf. destruct O as [|[o A] O]; [done|]. destruct n as [|n]; [cbn in Hn; lia|]. cbn [read_objects].
  set (L := object_lines ((o, A) :: O)) in *.
  destruct (stands_at L 0 o A O eq_refl HO) as (Ho & HA & Hd'). pose proof HO as [[Hob _] HO']%Forall_cons.
  pose proof (next_object_start f junk saved ints L o (A ++ object_lines O) UCHAR_MAX UCHAR_MAX 0 HL eq_refl Hob) as R.
  change (wanted UCHAR_MAX UCHAR_MAX o) with true in R. cbv iota in R.
  eapply does_bind; [exact R|]. cbv beta iota. eapply does_bind; [by eapply contents_of_line|].
  apply Forall_cons in Hf as [Hf1 Hf]. cbn [snd] in Hf1.
  pose proof (read_attributes_run L 0 HL A [] fuel HA Hf1) as RA. cbn [length app] in RA.
  eapply does_bind; [exact RA|].
  destruct (object_stands L 0 A [] ltac:(by rewrite app_nil_r)) as (l' & Hl' & _).
  eapply does_bind; [by eapply (read_objects_run L HL O n fuel _ l'); [cbn in Hn; lia|done|done|done|exact Hd']|]. apply does_ret.
Qed.
End Reading.

(** ** The round trip *)

Definition recorded_objects (O : list (mline * list mline)) : list (mline * list mline) :=
  map (fun o => (recorded o.1, map recorded o.2)) O.

Lemma recorded_lines O : object_lines (recorded_objects O) = map recorded (object_lines O).
Proof.
  induction O as [|[o A] O IH]; [done|]. change (object_lines ((o, A) :: O)) with (o :: A ++ object_lines O).
  cbn [map]. rewrite map_app, <- IH. done.
Qed.

Lemma recorded_obj l : ml_obj (recorded l) = ml_obj l.
Proof. unfold recorded. by destruct (ml_obj l) eqn:E. Qed.

Lemma recorded_are_objects O : Forall is_object O -> Forall is_object (recorded_objects O).
Proof.
  intros HO. unfold recorded_objects. apply List.Forall_map. eapply Forall_impl; [exact HO|]. intros [o A] [Ho HA].
  split; cbn; [by rewrite recorded_obj|]. apply List.Forall_map. eapply Forall_impl; [exact HA|]. intros a Ha. cbn. by rewrite recorded_obj.
Qed.

Lemma attributes_fit O : Forall (fun o => length o.2 < S (length (object_lines O)))%nat O.
Proof.
  apply Forall_forall. intros o Ho. apply list_elem_of_split in Ho as (O1 & O2 & ->). unfold object_lines.
  rewrite map_app, concat_app. cbn [map concat]. rewrite length_app. cbn [app length]. rewrite length_app. lia.
Qed.

(** C3: the lines that the parser writes for a file and its objects and
    attributes are read back as they were written: from a fresh SWHEADER on this
    image, swheader_get_next_object and swheader_get_next_attribute visit every
    object and every attribute in order, with their levels, keywords and values
    (a value with its outer quotes removed and its newlines and backslashes
    written as escapes), and the walk ends. *)
Theorem metadata_roundtrip `{Malloc} len filetype ws name O ints junk :
  one_line filetype -> one_line ws -> one_line name ->
  zlen ws <= 8 -> zlen name < 10 ^ 9 -> zlen filetype + zlen ws + zlen name + 20 <= len ->
  O <> [] -> Forall is_object O -> Forall given (object_lines O) ->
  let file := swparse_print_filename len filetype ws name SWPARSE_FORM_MKUP_LEN [] in
  zlen file + lines_len (map recorded (object_lines O)) < INT_MAX ->
  exists out h, write_lines (object_lines O) file = Some out
    /\ runs (do! swheader_set_image_head (out ++ NUL :: junk) in
             read_objects (S (length O)) (S (length (object_lines O)))) (swheader_open ints 0) h (recorded_objects O).
Proof.
  intros Hf Hw Hn Hw8 Hn9 Hlen Hne HO HG file Hsize.
  pose proof (filename_line len filetype ws name Hf Hw Hn Hw8 Hn9 Hlen) as HF. fold file in HF.
  rewrite (write_lines_run _ file HG). set (ls := _ <$> object_lines O).
  assert (Els : ls.*1 = object_lines (recorded_objects O)).
  { unfold ls. rewrite recorded_lines, <- list_fmap_compose. done. }
  assert (HM : metadata_ok file (object_lines (recorded_objects O))).
  { rewrite recorded_lines. split_and!; [done| |done]. apply List.Forall_map. eapply Forall_impl; [exact HG|]. intros l. apply recorded_ok. }
  destruct (read_all file junk (mkSTATE POwn 0 0) ints (recorded_objects O) (S (length O)) (S (length (object_lines O))) HM) with (ls := ls)
    as (ls' & _ & R); [by destruct O|unfold recorded_objects; rewrite length_map; lia|by apply recorded_are_objects| |done|].
  { pose proof (attributes_fit (recorded_objects O)) as HA. rewrite recorded_lines, length_map in HA. exact HA. }
  eexists _, _. split; [done|]. eapply runs_bind; [apply runs_modify|]. rewrite <- app_assoc. exact R.
Qed.

Module Witness.
Definition product : mline := mkLine true 1 (L "product") [].
Definition fileset : mline := mkLine true 2 (L "fileset") [].
Definition tag : mline := mkLine false 2 (L "tag") (L "foo").
Definition title : mline := mkLine false 2 (L "title") (quote :: L "a\#b" ++ ["010"%char; "c"%char; quote]).
Definition objects : list (mline * list mline) := [(product, [tag; title]); (fileset, [])].
Definition zeroes : Malloc := fun _ => NUL.

Lemma word_of s : s <> [] -> forallb (fun c => negb (is_nul c) && negb (isspace c)) s = true -> word s.
Proof. intros Hs H. split; [done|]. apply Forall_forall. intros c Hc. rewrite forallb_forall in H. apply H. by apply list_elem_of_In. Qed.

Lemma no_nul_of s : forallb (fun c => negb (is_nul c)) s = true -> no_nul s.
Proof.
  intros H Hin. rewrite forallb_forall in H. apply list_elem_of_In, H in Hin. done.
Qed.

Lemma one_line_of s : forallb (fun c => negb (is_nul c) && negb (ceq MD_NEWLINE c)) s = true -> one_line s.
Proof.
  intros H. rewrite forallb_forall in H. split.
  - apply Forall_forall. intros c Hc. apply list_elem_of_In, H, andb_true_iff in Hc as [_ Hc]. by apply negb_true_iff.
  - intros Hin. apply list_elem_of_In, H in Hin. done.
Qed.

Lemma objects_given : Forall given (object_lines objects).
Proof.
  repeat (constructor; [split_and!; [by apply word_of|vm_compute; congruence|vm_compute; congruence|by apply no_nul_of|vm_compute; congruence|done|done]|]). constructor.
Qed.
End Witness.

Lemma metadata_roundtrip_witness : exists out h,
  @write_lines Witness.zeroes (object_lines Witness.objects) (swparse_print_filename 100 (L "INFO") [] (L "x/INFO") SWPARSE_FORM_MKUP_LEN []) = Some out
  /\ runs (do! swheader_set_image_head (out ++ [NUL]) in read_objects 3 5) (swheader_open [] 0) h
       [(Witness.product, [Witness.tag; mkLine false 2 (L "title") (L "a#b\nc")]); (Witness.fileset, [])].
Proof.
  apply (@metadata_roundtrip Witness.zeroes 100 (L "INFO") [] (L "x/INFO") Witness.objects [] []).
  - by apply Witness.one_line_of.
  - by apply Witness.one_line_of.
  - by apply Witness.one_line_of.
  - by vm_compute.
  - by vm_compute.
  - by vm_compute.
  - done.
  - repeat constructor.
  - apply Witness.objects_given.
  - by vm_compute.
Defined.
