(* ===== verification/UxfioState.v ===== *)
(** * UXFIO descriptors: objects, table and system calls (swsupplib/uxfio/uxfio.c)

    An uxfio descriptor is a buffered, seekable view of a descriptor below it,
    of another uxfio descriptor, or of nothing (a file in memory).  This file
    holds the object (uxfio_i.h), the table of the 128 descriptors, the system
    calls the functions make and the loops of progressmeter/atomicio.c around
    them; Uxfio.v holds the functions.

    The functions keep pointers into the table; a pointer to an object is the
    index of its slot, and every access goes through the table, so that a
    descriptor that is attached to itself or to another one behaves as in C. *)

From S2P Require Import Prelude CString Strob Strar Escape Effects.

(** ** Constants of uxfio.h, and of the system (Linux) *)

Definition UXFIO_LEN : Z := 1024.
Definition UXFIO_FLEN : Z := 2000000000.
Definition UXFIO_MAX_OPEN : Z := 128.
Definition UXFIO_FD_MIN : Z := 2000000000.
Definition UXFIO_NULL_FD : Z := -10001.
Definition UXFIO_ALLOC_AHEAD : Z := 20480.
Definition UXFIO_RET_EFAIL : Z := -9999.
Definition UXFIO_BUFTYPE_NOBUF : Z := 0.
Definition UXFIO_BUFTYPE_MEM : Z := 1.
Definition UXFIO_BUFTYPE_FILE : Z := 2.
Definition UXFIO_BUFTYPE_DYNAMIC_MEM : Z := 3.
Definition UXFIO_SEEK_VCUR : Z := 3081.
Definition UXFIO_SEEK_VSET : Z := 4082.

Definition SEEK_SET : Z := 0.
Definition SEEK_CUR : Z := 1.
Definition SEEK_END : Z := 2.
Definition EINTR : Z := 4.
Definition ESPIPE : Z := 29.

(** ** The object *)

(** The members of struct stat that copy_stat_members copies. *)
Record file_stat := mkFileStat {
  st_mode : Z; st_ino : Z; st_dev : Z; st_rdev : Z; st_nlink : Z; st_uid : Z; st_gid : Z;
  st_size : Z; st_atime : Z; st_mtime : Z; st_ctime : Z; st_blksize : Z; st_blocks : Z;
}.

(** UXFIO.  The seven vir_ function pointers change together
    (uxfio__change_state): [vir_uxfioM] says which set they are. *)
Record UXFIO := mkUXFIO {
  uxfdM : Z;   (** unix or uxfio descriptor below *)
  buffertypeM : Z;
  uxfd_can_seekM : Z;
  posM : Z;   (** offset in the buffer *)
  startM : Z;   (** always 0 *)
  endM : Z;   (** end of the valid data *)
  lenM : Z;   (** length of the buffer *)
  errorM : Z;
  bytesreadM : Z;   (** bytes read from below *)
  current_offsetM : Z;
  virtual_offsetM : Z;
  buffer_activeM : Z;
  bufM : bytes;   (** the block of memory *)
  buf_addrM : Z;   (** its address *)
  buffdM : Z;   (** descriptor of the buffer file *)
  offset_eof_savedM : Z;
  offset_eofM : Z;
  offset_bofM : Z;
  auto_disableM : Z;
  auto_arm_delayM : Z;
  write_insertM : Z;
  v_endM : Z;
  use_countM : Z;
  tmpfile_rootdirM : option bytes;
  buffilenameM : bytes;
  statbufM : option file_stat;
  did_dupe_fdM : Z;
  vir_uxfioM : bool;   (** the vir_ pointers are the uxfio functions *)
  uxfio_fildesM : Z;
  lock_buf_fatalM : Z;
  output_block_sizeM : Z;
  output_buffer_cM : Z;
  output_bufferM : bytes;   (** empty for NULL *)
}.

(** Assignments to one member. *)
Definition put_uxfdM (v : Z) (u : UXFIO) : UXFIO := mkUXFIO
  v (buffertypeM u) (uxfd_can_seekM u) (posM u) (startM u) (endM u) (lenM u) (errorM u)
  (bytesreadM u) (current_offsetM u) (virtual_offsetM u) (buffer_activeM u) (bufM u) (buf_addrM u)
  (buffdM u) (offset_eof_savedM u) (offset_eofM u) (offset_bofM u) (auto_disableM u)
  (auto_arm_delayM u) (write_insertM u) (v_endM u) (use_countM u) (tmpfile_rootdirM u)
  (buffilenameM u) (statbufM u) (did_dupe_fdM u) (vir_uxfioM u) (uxfio_fildesM u) (lock_buf_fatalM
  u) (output_block_sizeM u) (output_buffer_cM u) (output_bufferM u).
Definition put_buffertypeM (v : Z) (u : UXFIO) : UXFIO := mkUXFIO
  (uxfdM u) v (uxfd_can_seekM u) (posM u) (startM u) (endM u) (lenM u) (errorM u) (bytesreadM u)
  (current_offsetM u) (virtual_offsetM u) (buffer_activeM u) (bufM u) (buf_addrM u) (buffdM u)
  (offset_eof_savedM u) (offset_eofM u) (offset_bofM u) (auto_disableM u) (auto_arm_delayM u)
  (write_insertM u) (v_endM u) (use_countM u) (tmpfile_rootdirM u) (buffilenameM u) (statbufM u)
  (did_dupe_fdM u) (vir_uxfioM u) (uxfio_fildesM u) (lock_buf_fatalM u) (output_block_sizeM u)
  (output_buffer_cM u) (output_bufferM u).
Definition put_uxfd_can_seekM (v : Z) (u : UXFIO) : UXFIO := mkUXFIO
  (uxfdM u) (buffertypeM u) v (posM u) (startM u) (endM u) (lenM u) (errorM u) (bytesreadM u)
  (current_offsetM u) (virtual_offsetM u) (buffer_activeM u) (bufM u) (buf_addrM u) (buffdM u)
  (offset_eof_savedM u) (offset_eofM u) (offset_bofM u) (auto_disableM u) (auto_arm_delayM u)
  (write_insertM u) (v_endM u) (use_countM u) (tmpfile_rootdirM u) (buffilenameM u) (statbufM u)
  (did_dupe_fdM u) (vir_uxfioM u) (uxfio_fildesM u) (lock_buf_fatalM u) (output_block_sizeM u)
  (output_buffer_cM u) (output_bufferM u).
Definition put_posM (v : Z) (u : UXFIO) : UXFIO := mkUXFIO
  (uxfdM u) (buffertypeM u) (uxfd_can_seekM u) v (startM u) (endM u) (lenM u) (errorM u)
  (bytesreadM u) (current_offsetM u) (virtual_offsetM u) (buffer_activeM u) (bufM u) (buf_addrM u)
  (buffdM u) (offset_eof_savedM u) (offset_eofM u) (offset_bofM u) (auto_disableM u)
  (auto_arm_delayM u) (write_insertM u) (v_endM u) (use_countM u) (tmpfile_rootdirM u)
  (buffilenameM u) (statbufM u) (did_dupe_fdM u) (vir_uxfioM u) (uxfio_fildesM u) (lock_buf_fatalM
  u) (output_block_sizeM u) (output_buffer_cM u) (output_bufferM u).
Definition put_startM (v : Z) (u : UXFIO) : UXFIO := mkUXFIO
  (uxfdM u) (buffertypeM u) (uxfd_can_seekM u) (posM u) v (endM u) (lenM u) (errorM u) (bytesreadM
  u) (current_offsetM u) (virtual_offsetM u) (buffer_activeM u) (bufM u) (buf_addrM u) (buffdM u)
  (offset_eof_savedM u) (offset_eofM u) (offset_bofM u) (auto_disableM u) (auto_arm_delayM u)
  (write_insertM u) (v_endM u) (use_countM u) (tmpfile_rootdirM u) (buffilenameM u) (statbufM u)
  (did_dupe_fdM u) (vir_uxfioM u) (uxfio_fildesM u) (lock_buf_fatalM u) (output_block_sizeM u)
  (output_buffer_cM u) (output_bufferM u).
Definition put_endM (v : Z) (u : UXFIO) : UXFIO := mkUXFIO
  (uxfdM u) (buffertypeM u) (uxfd_can_seekM u) (posM u) (startM u) v (lenM u) (errorM u)
  (bytesreadM u) (current_offsetM u) (virtual_offsetM u) (buffer_activeM u) (bufM u) (buf_addrM u)
  (buffdM u) (offset_eof_savedM u) (offset_eofM u) (offset_bofM u) (auto_disableM u)
  (auto_arm_delayM u) (write_insertM u) (v_endM u) (use_countM u) (tmpfile_rootdirM u)
  (buffilenameM u) (statbufM u) (did_dupe_fdM u) (vir_uxfioM u) (uxfio_fildesM u) (lock_buf_fatalM
  u) (output_block_sizeM u) (output_buffer_cM u) (output_bufferM u).
Definition put_lenM (v : Z) (u : UXFIO) : UXFIO := mkUXFIO
  (uxfdM u) (buffertypeM u) (uxfd_can_seekM u) (posM u) (startM u) (endM u) v (errorM u)
  (bytesreadM u) (current_offsetM u) (virtual_offsetM u) (buffer_activeM u) (bufM u) (buf_addrM u)
  (buffdM u) (offset_eof_savedM u) (offset_eofM u) (offset_bofM u) (auto_disableM u)
  (auto_arm_delayM u) (write_insertM u) (v_endM u) (use_countM u) (tmpfile_rootdirM u)
  (buffilenameM u) (statbufM u) (did_dupe_fdM u) (vir_uxfioM u) (uxfio_fildesM u) (lock_buf_fatalM
  u) (output_block_sizeM u) (output_buffer_cM u) (output_bufferM u).
Definition put_errorM (v : Z) (u : UXFIO) : UXFIO := mkUXFIO
  (uxfdM u) (buffertypeM u) (uxfd_can_seekM u) (posM u) (startM u) (endM u) (lenM u) v (bytesreadM
  u) (current_offsetM u) (virtual_offsetM u) (buffer_activeM u) (bufM u) (buf_addrM u) (buffdM u)
  (offset_eof_savedM u) (offset_eofM u) (offset_bofM u) (auto_disableM u) (auto_arm_delayM u)
  (write_insertM u) (v_endM u) (use_countM u) (tmpfile_rootdirM u) (buffilenameM u) (statbufM u)
  (did_dupe_fdM u) (vir_uxfioM u) (uxfio_fildesM u) (lock_buf_fatalM u) (output_block_sizeM u)
  (output_buffer_cM u) (output_bufferM u).
Definition put_bytesreadM (v : Z) (u : UXFIO) : UXFIO := mkUXFIO
  (uxfdM u) (buffertypeM u) (uxfd_can_seekM u) (posM u) (startM u) (endM u) (lenM u) (errorM u) v
  (current_offsetM u) (virtual_offsetM u) (buffer_activeM u) (bufM u) (buf_addrM u) (buffdM u)
  (offset_eof_savedM u) (offset_eofM u) (offset_bofM u) (auto_disableM u) (auto_arm_delayM u)
  (write_insertM u) (v_endM u) (use_countM u) (tmpfile_rootdirM u) (buffilenameM u) (statbufM u)
  (did_dupe_fdM u) (vir_uxfioM u) (uxfio_fildesM u) (lock_buf_fatalM u) (output_block_sizeM u)
  (output_buffer_cM u) (output_bufferM u).
Definition put_current_offsetM (v : Z) (u : UXFIO) : UXFIO := mkUXFIO
  (uxfdM u) (buffertypeM u) (uxfd_can_seekM u) (posM u) (startM u) (endM u) (lenM u) (errorM u)
  (bytesreadM u) v (virtual_offsetM u) (buffer_activeM u) (bufM u) (buf_addrM u) (buffdM u)
  (offset_eof_savedM u) (offset_eofM u) (offset_bofM u) (auto_disableM u) (auto_arm_delayM u)
  (write_insertM u) (v_endM u) (use_countM u) (tmpfile_rootdirM u) (buffilenameM u) (statbufM u)
  (did_dupe_fdM u) (vir_uxfioM u) (uxfio_fildesM u) (lock_buf_fatalM u) (output_block_sizeM u)
  (output_buffer_cM u) (output_bufferM u).
Definition put_virtual_offsetM (v : Z) (u : UXFIO) : UXFIO := mkUXFIO
  (uxfdM u) (buffertypeM u) (uxfd_can_seekM u) (posM u) (startM u) (endM u) (lenM u) (errorM u)
  (bytesreadM u) (current_offsetM u) v (buffer_activeM u) (bufM u) (buf_addrM u) (buffdM u)
  (offset_eof_savedM u) (offset_eofM u) (offset_bofM u) (auto_disableM u) (auto_arm_delayM u)
  (write_insertM u) (v_endM u) (use_countM u) (tmpfile_rootdirM u) (buffilenameM u) (statbufM u)
  (did_dupe_fdM u) (vir_uxfioM u) (uxfio_fildesM u) (lock_buf_fatalM u) (output_block_sizeM u)
  (output_buffer_cM u) (output_bufferM u).
Definition put_buffer_activeM (v : Z) (u : UXFIO) : UXFIO := mkUXFIO
  (uxfdM u) (buffertypeM u) (uxfd_can_seekM u) (posM u) (startM u) (endM u) (lenM u) (errorM u)
  (bytesreadM u) (current_offsetM u) (virtual_offsetM u) v (bufM u) (buf_addrM u) (buffdM u)
  (offset_eof_savedM u) (offset_eofM u) (offset_bofM u) (auto_disableM u) (auto_arm_delayM u)
  (write_insertM u) (v_endM u) (use_countM u) (tmpfile_rootdirM u) (buffilenameM u) (statbufM u)
  (did_dupe_fdM u) (vir_uxfioM u) (uxfio_fildesM u) (lock_buf_fatalM u) (output_block_sizeM u)
  (output_buffer_cM u) (output_bufferM u).
Definition put_bufM (v : bytes) (u : UXFIO) : UXFIO := mkUXFIO
  (uxfdM u) (buffertypeM u) (uxfd_can_seekM u) (posM u) (startM u) (endM u) (lenM u) (errorM u)
  (bytesreadM u) (current_offsetM u) (virtual_offsetM u) (buffer_activeM u) v (buf_addrM u)
  (buffdM u) (offset_eof_savedM u) (offset_eofM u) (offset_bofM u) (auto_disableM u)
  (auto_arm_delayM u) (write_insertM u) (v_endM u) (use_countM u) (tmpfile_rootdirM u)
  (buffilenameM u) (statbufM u) (did_dupe_fdM u) (vir_uxfioM u) (uxfio_fildesM u) (lock_buf_fatalM
  u) (output_block_sizeM u) (output_buffer_cM u) (output_bufferM u).
Definition put_buf_addrM (v : Z) (u : UXFIO) : UXFIO := mkUXFIO
  (uxfdM u) (buffertypeM u) (uxfd_can_seekM u) (posM u) (startM u) (endM u) (lenM u) (errorM u)
  (bytesreadM u) (current_offsetM u) (virtual_offsetM u) (buffer_activeM u) (bufM u) v (buffdM u)
  (offset_eof_savedM u) (offset_eofM u) (offset_bofM u) (auto_disableM u) (auto_arm_delayM u)
  (write_insertM u) (v_endM u) (use_countM u) (tmpfile_rootdirM u) (buffilenameM u) (statbufM u)
  (did_dupe_fdM u) (vir_uxfioM u) (uxfio_fildesM u) (lock_buf_fatalM u) (output_block_sizeM u)
  (output_buffer_cM u) (output_bufferM u).
Definition put_buffdM (v : Z) (u : UXFIO) : UXFIO := mkUXFIO
  (uxfdM u) (buffertypeM u) (uxfd_can_seekM u) (posM u) (startM u) (endM u) (lenM u) (errorM u)
  (bytesreadM u) (current_offsetM u) (virtual_offsetM u) (buffer_activeM u) (bufM u) (buf_addrM u)
  v (offset_eof_savedM u) (offset_eofM u) (offset_bofM u) (auto_disableM u) (auto_arm_delayM u)
  (write_insertM u) (v_endM u) (use_countM u) (tmpfile_rootdirM u) (buffilenameM u) (statbufM u)
  (did_dupe_fdM u) (vir_uxfioM u) (uxfio_fildesM u) (lock_buf_fatalM u) (output_block_sizeM u)
  (output_buffer_cM u) (output_bufferM u).
Definition put_offset_eof_savedM (v : Z) (u : UXFIO) : UXFIO := mkUXFIO
  (uxfdM u) (buffertypeM u) (uxfd_can_seekM u) (posM u) (startM u) (endM u) (lenM u) (errorM u)
  (bytesreadM u) (current_offsetM u) (virtual_offsetM u) (buffer_activeM u) (bufM u) (buf_addrM u)
  (buffdM u) v (offset_eofM u) (offset_bofM u) (auto_disableM u) (auto_arm_delayM u)
  (write_insertM u) (v_endM u) (use_countM u) (tmpfile_rootdirM u) (buffilenameM u) (statbufM u)
  (did_dupe_fdM u) (vir_uxfioM u) (uxfio_fildesM u) (lock_buf_fatalM u) (output_block_sizeM u)
  (output_buffer_cM u) (output_bufferM u).
Definition put_offset_eofM (v : Z) (u : UXFIO) : UXFIO := mkUXFIO
  (uxfdM u) (buffertypeM u) (uxfd_can_seekM u) (posM u) (startM u) (endM u) (lenM u) (errorM u)
  (bytesreadM u) (current_offsetM u) (virtual_offsetM u) (buffer_activeM u) (bufM u) (buf_addrM u)
  (buffdM u) (offset_eof_savedM u) v (offset_bofM u) (auto_disableM u) (auto_arm_delayM u)
  (write_insertM u) (v_endM u) (use_countM u) (tmpfile_rootdirM u) (buffilenameM u) (statbufM u)
  (did_dupe_fdM u) (vir_uxfioM u) (uxfio_fildesM u) (lock_buf_fatalM u) (output_block_sizeM u)
  (output_buffer_cM u) (output_bufferM u).
Definition put_offset_bofM (v : Z) (u : UXFIO) : UXFIO := mkUXFIO
  (uxfdM u) (buffertypeM u) (uxfd_can_seekM u) (posM u) (startM u) (endM u) (lenM u) (errorM u)
  (bytesreadM u) (current_offsetM u) (virtual_offsetM u) (buffer_activeM u) (bufM u) (buf_addrM u)
  (buffdM u) (offset_eof_savedM u) (offset_eofM u) v (auto_disableM u) (auto_arm_delayM u)
  (write_insertM u) (v_endM u) (use_countM u) (tmpfile_rootdirM u) (buffilenameM u) (statbufM u)
  (did_dupe_fdM u) (vir_uxfioM u) (uxfio_fildesM u) (lock_buf_fatalM u) (output_block_sizeM u)
  (output_buffer_cM u) (output_bufferM u).
Definition put_auto_disableM (v : Z) (u : UXFIO) : UXFIO := mkUXFIO
  (uxfdM u) (buffertypeM u) (uxfd_can_seekM u) (posM u) (startM u) (endM u) (lenM u) (errorM u)
  (bytesreadM u) (current_offsetM u) (virtual_offsetM u) (buffer_activeM u) (bufM u) (buf_addrM u)
  (buffdM u) (offset_eof_savedM u) (offset_eofM u) (offset_bofM u) v (auto_arm_delayM u)
  (write_insertM u) (v_endM u) (use_countM u) (tmpfile_rootdirM u) (buffilenameM u) (statbufM u)
  (did_dupe_fdM u) (vir_uxfioM u) (uxfio_fildesM u) (lock_buf_fatalM u) (output_block_sizeM u)
  (output_buffer_cM u) (output_bufferM u).
Definition put_auto_arm_delayM (v : Z) (u : UXFIO) : UXFIO := mkUXFIO
  (uxfdM u) (buffertypeM u) (uxfd_can_seekM u) (posM u) (startM u) (endM u) (lenM u) (errorM u)
  (bytesreadM u) (current_offsetM u) (virtual_offsetM u) (buffer_activeM u) (bufM u) (buf_addrM u)
  (buffdM u) (offset_eof_savedM u) (offset_eofM u) (offset_bofM u) (auto_disableM u) v
  (write_insertM u) (v_endM u) (use_countM u) (tmpfile_rootdirM u) (buffilenameM u) (statbufM u)
  (did_dupe_fdM u) (vir_uxfioM u) (uxfio_fildesM u) (lock_buf_fatalM u) (output_block_sizeM u)
  (output_buffer_cM u) (output_bufferM u).
Definition put_write_insertM (v : Z) (u : UXFIO) : UXFIO := mkUXFIO
  (uxfdM u) (buffertypeM u) (uxfd_can_seekM u) (posM u) (startM u) (endM u) (lenM u) (errorM u)
  (bytesreadM u) (current_offsetM u) (virtual_offsetM u) (buffer_activeM u) (bufM u) (buf_addrM u)
  (buffdM u) (offset_eof_savedM u) (offset_eofM u) (offset_bofM u) (auto_disableM u)
  (auto_arm_delayM u) v (v_endM u) (use_countM u) (tmpfile_rootdirM u) (buffilenameM u) (statbufM
  u) (did_dupe_fdM u) (vir_uxfioM u) (uxfio_fildesM u) (lock_buf_fatalM u) (output_block_sizeM u)
  (output_buffer_cM u) (output_bufferM u).
Definition put_v_endM (v : Z) (u : UXFIO) : UXFIO := mkUXFIO
  (uxfdM u) (buffertypeM u) (uxfd_can_seekM u) (posM u) (startM u) (endM u) (lenM u) (errorM u)
  (bytesreadM u) (current_offsetM u) (virtual_offsetM u) (buffer_activeM u) (bufM u) (buf_addrM u)
  (buffdM u) (offset_eof_savedM u) (offset_eofM u) (offset_bofM u) (auto_disableM u)
  (auto_arm_delayM u) (write_insertM u) v (use_countM u) (tmpfile_rootdirM u) (buffilenameM u)
  (statbufM u) (did_dupe_fdM u) (vir_uxfioM u) (uxfio_fildesM u) (lock_buf_fatalM u)
  (output_block_sizeM u) (output_buffer_cM u) (output_bufferM u).
Definition put_use_countM (v : Z) (u : UXFIO) : UXFIO := mkUXFIO
  (uxfdM u) (buffertypeM u) (uxfd_can_seekM u) (posM u) (startM u) (endM u) (lenM u) (errorM u)
  (bytesreadM u) (current_offsetM u) (virtual_offsetM u) (buffer_activeM u) (bufM u) (buf_addrM u)
  (buffdM u) (offset_eof_savedM u) (offset_eofM u) (offset_bofM u) (auto_disableM u)
  (auto_arm_delayM u) (write_insertM u) (v_endM u) v (tmpfile_rootdirM u) (buffilenameM u)
  (statbufM u) (did_dupe_fdM u) (vir_uxfioM u) (uxfio_fildesM u) (lock_buf_fatalM u)
  (output_block_sizeM u) (output_buffer_cM u) (output_bufferM u).
Definition put_tmpfile_rootdirM (v : option bytes) (u : UXFIO) : UXFIO := mkUXFIO
  (uxfdM u) (buffertypeM u) (uxfd_can_seekM u) (posM u) (startM u) (endM u) (lenM u) (errorM u)
  (bytesreadM u) (current_offsetM u) (virtual_offsetM u) (buffer_activeM u) (bufM u) (buf_addrM u)
  (buffdM u) (offset_eof_savedM u) (offset_eofM u) (offset_bofM u) (auto_disableM u)
  (auto_arm_delayM u) (write_insertM u) (v_endM u) (use_countM u) v (buffilenameM u) (statbufM u)
  (did_dupe_fdM u) (vir_uxfioM u) (uxfio_fildesM u) (lock_buf_fatalM u) (output_block_sizeM u)
  (output_buffer_cM u) (output_bufferM u).
Definition put_buffilenameM (v : bytes) (u : UXFIO) : UXFIO := mkUXFIO
  (uxfdM u) (buffertypeM u) (uxfd_can_seekM u) (posM u) (startM u) (endM u) (lenM u) (errorM u)
  (bytesreadM u) (current_offsetM u) (virtual_offsetM u) (buffer_activeM u) (bufM u) (buf_addrM u)
  (buffdM u) (offset_eof_savedM u) (offset_eofM u) (offset_bofM u) (auto_disableM u)
  (auto_arm_delayM u) (write_insertM u) (v_endM u) (use_countM u) (tmpfile_rootdirM u) v (statbufM
  u) (did_dupe_fdM u) (vir_uxfioM u) (uxfio_fildesM u) (lock_buf_fatalM u) (output_block_sizeM u)
  (output_buffer_cM u) (output_bufferM u).
Definition put_statbufM (v : option file_stat) (u : UXFIO) : UXFIO := mkUXFIO
  (uxfdM u) (buffertypeM u) (uxfd_can_seekM u) (posM u) (startM u) (endM u) (lenM u) (errorM u)
  (bytesreadM u) (current_offsetM u) (virtual_offsetM u) (buffer_activeM u) (bufM u) (buf_addrM u)
  (buffdM u) (offset_eof_savedM u) (offset_eofM u) (offset_bofM u) (auto_disableM u)
  (auto_arm_delayM u) (write_insertM u) (v_endM u) (use_countM u) (tmpfile_rootdirM u)
  (buffilenameM u) v (did_dupe_fdM u) (vir_uxfioM u) (uxfio_fildesM u) (lock_buf_fatalM u)
  (output_block_sizeM u) (output_buffer_cM u) (output_bufferM u).
Definition put_did_dupe_fdM (v : Z) (u : UXFIO) : UXFIO := mkUXFIO
  (uxfdM u) (buffertypeM u) (uxfd_can_seekM u) (posM u) (startM u) (endM u) (lenM u) (errorM u)
  (bytesreadM u) (current_offsetM u) (virtual_offsetM u) (buffer_activeM u) (bufM u) (buf_addrM u)
  (buffdM u) (offset_eof_savedM u) (offset_eofM u) (offset_bofM u) (auto_disableM u)
  (auto_arm_delayM u) (write_insertM u) (v_endM u) (use_countM u) (tmpfile_rootdirM u)
  (buffilenameM u) (statbufM u) v (vir_uxfioM u) (uxfio_fildesM u) (lock_buf_fatalM u)
  (output_block_sizeM u) (output_buffer_cM u) (output_bufferM u).
Definition put_vir_uxfioM (v : bool) (u : UXFIO) : UXFIO := mkUXFIO
  (uxfdM u) (buffertypeM u) (uxfd_can_seekM u) (posM u) (startM u) (endM u) (lenM u) (errorM u)
  (bytesreadM u) (current_offsetM u) (virtual_offsetM u) (buffer_activeM u) (bufM u) (buf_addrM u)
  (buffdM u) (offset_eof_savedM u) (offset_eofM u) (offset_bofM u) (auto_disableM u)
  (auto_arm_delayM u) (write_insertM u) (v_endM u) (use_countM u) (tmpfile_rootdirM u)
  (buffilenameM u) (statbufM u) (did_dupe_fdM u) v (uxfio_fildesM u) (lock_buf_fatalM u)
  (output_block_sizeM u) (output_buffer_cM u) (output_bufferM u).
Definition put_uxfio_fildesM (v : Z) (u : UXFIO) : UXFIO := mkUXFIO
  (uxfdM u) (buffertypeM u) (uxfd_can_seekM u) (posM u) (startM u) (endM u) (lenM u) (errorM u)
  (bytesreadM u) (current_offsetM u) (virtual_offsetM u) (buffer_activeM u) (bufM u) (buf_addrM u)
  (buffdM u) (offset_eof_savedM u) (offset_eofM u) (offset_bofM u) (auto_disableM u)
  (auto_arm_delayM u) (write_insertM u) (v_endM u) (use_countM u) (tmpfile_rootdirM u)
  (buffilenameM u) (statbufM u) (did_dupe_fdM u) (vir_uxfioM u) v (lock_buf_fatalM u)
  (output_block_sizeM u) (output_buffer_cM u) (output_bufferM u).
Definition put_lock_buf_fatalM (v : Z) (u : UXFIO) : UXFIO := mkUXFIO
  (uxfdM u) (buffertypeM u) (uxfd_can_seekM u) (posM u) (startM u) (endM u) (lenM u) (errorM u)
  (bytesreadM u) (current_offsetM u) (virtual_offsetM u) (buffer_activeM u) (bufM u) (buf_addrM u)
  (buffdM u) (offset_eof_savedM u) (offset_eofM u) (offset_bofM u) (auto_disableM u)
  (auto_arm_delayM u) (write_insertM u) (v_endM u) (use_countM u) (tmpfile_rootdirM u)
  (buffilenameM u) (statbufM u) (did_dupe_fdM u) (vir_uxfioM u) (uxfio_fildesM u) v
  (output_block_sizeM u) (output_buffer_cM u) (output_bufferM u).
Definition put_output_block_sizeM (v : Z) (u : UXFIO) : UXFIO := mkUXFIO
  (uxfdM u) (buffertypeM u) (uxfd_can_seekM u) (posM u) (startM u) (endM u) (lenM u) (errorM u)
  (bytesreadM u) (current_offsetM u) (virtual_offsetM u) (buffer_activeM u) (bufM u) (buf_addrM u)
  (buffdM u) (offset_eof_savedM u) (offset_eofM u) (offset_bofM u) (auto_disableM u)
  (auto_arm_delayM u) (write_insertM u) (v_endM u) (use_countM u) (tmpfile_rootdirM u)
  (buffilenameM u) (statbufM u) (did_dupe_fdM u) (vir_uxfioM u) (uxfio_fildesM u) (lock_buf_fatalM
  u) v (output_buffer_cM u) (output_bufferM u).
Definition put_output_buffer_cM (v : Z) (u : UXFIO) : UXFIO := mkUXFIO
  (uxfdM u) (buffertypeM u) (uxfd_can_seekM u) (posM u) (startM u) (endM u) (lenM u) (errorM u)
  (bytesreadM u) (current_offsetM u) (virtual_offsetM u) (buffer_activeM u) (bufM u) (buf_addrM u)
  (buffdM u) (offset_eof_savedM u) (offset_eofM u) (offset_bofM u) (auto_disableM u)
  (auto_arm_delayM u) (write_insertM u) (v_endM u) (use_countM u) (tmpfile_rootdirM u)
  (buffilenameM u) (statbufM u) (did_dupe_fdM u) (vir_uxfioM u) (uxfio_fildesM u) (lock_buf_fatalM
  u) (output_block_sizeM u) v (output_bufferM u).
Definition put_output_bufferM (v : bytes) (u : UXFIO) : UXFIO := mkUXFIO
  (uxfdM u) (buffertypeM u) (uxfd_can_seekM u) (posM u) (startM u) (endM u) (lenM u) (errorM u)
  (bytesreadM u) (current_offsetM u) (virtual_offsetM u) (buffer_activeM u) (bufM u) (buf_addrM u)
  (buffdM u) (offset_eof_savedM u) (offset_eofM u) (offset_bofM u) (auto_disableM u)
  (auto_arm_delayM u) (write_insertM u) (v_endM u) (use_countM u) (tmpfile_rootdirM u)
  (buffilenameM u) (statbufM u) (did_dupe_fdM u) (vir_uxfioM u) (uxfio_fildesM u) (lock_buf_fatalM
  u) (output_block_sizeM u) (output_buffer_cM u) v.

(** ** Memory *)

(** The [n] bytes at [off] of a block. *)
Definition mem_sub (m : bytes) (off n : Z) : option bytes :=
  if (0 <=? off) && (0 <=? n) && (off + n <=? zlen m)
  then Some (take (Z.to_nat n) (drop (Z.to_nat off) m))
  else None.

(** memcpy and memmove (dest + dest_offset, src + src_offset, amount) *)
Definition memcpy (dest : bytes) (dest_offset : Z) (src : bytes) (src_offset amount : Z) : option bytes :=
  part ← mem_sub src src_offset amount; mem_write dest dest_offset part.

(** ** The kernel *)

(** The system calls, as functions of a state of the system: a call answers
    its result ([inl]) or fails with an errno ([inr]).  mkstemp also replaces
    the name. *)
Class Kernel (K : Type) := {
  sys_read : Z -> Z -> K -> K * (bytes + Z);
  sys_write : Z -> bytes -> K -> K * (Z + Z);
  sys_lseek : Z -> Z -> Z -> K -> K * (Z + Z);
  sys_close : Z -> K -> K * (Z + Z);
  sys_fsync : Z -> K -> K * (Z + Z);
  sys_ftruncate : Z -> Z -> K -> K * (Z + Z);
  sys_fcntl : Z -> Z -> Z -> K -> K * (Z + Z);
  sys_open : bytes -> Z -> Z -> K -> K * (Z + Z);
  sys_mkstemp : bytes -> K -> K * (bytes * Z + Z);
  sys_unlink : bytes -> K -> K * (Z + Z);
}.

(** ** The static variables of uxfio.c *)

(** One index of uxg_status_table, uxg_desc_table and uxg_file_table. *)
Record Slot := mkSlot { slot_status : bool; slot_desc : Z; slot_file : option UXFIO }.

Record World (K : Type) := mkWorld {
  slots : list Slot;
  last_used : nat;      (** last_used_fd_index of table_find *)
  did_init : bool;      (** uxg_did_init *)
  nullfd : Z;           (** uxg_nullfd *)
  errno : Z;
  sys : K;
}.
Arguments mkWorld {K}.
Arguments slots {K}.
Arguments last_used {K}.
Arguments did_init {K}.
Arguments nullfd {K}.
Arguments errno {K}.
Arguments sys {K}.

(** At the start of the process the tables are zero. *)
Definition initial_world {K} (k : K) : World K :=
  mkWorld (replicate (Z.to_nat UXFIO_MAX_OPEN) (mkSlot false 0 None)) 0 false 0 0 k.

(** What malloc leaves in an object; internal_uxfio_open sets all but the
    first members, uxfio_open the first ones. *)
Definition fresh_UXFIO : UXFIO := mkUXFIO 0 0 0 0 0 0 0 0 0 0 0 0 [] 0 0 0 0 0 0 0 0 0 0 None [] None
  0 false 0 0 0 0 [].

#[local] Open Scope effects_scope.

Section State.
Context {K : Type}.
Abbreviation W := (World K).

Definition put_slots (v : list Slot) (w : W) : W :=
  mkWorld v (last_used w) (did_init w) (nullfd w) (errno w) (sys w).
Definition put_last (v : nat) (w : W) : W :=
  mkWorld (slots w) v (did_init w) (nullfd w) (errno w) (sys w).
Definition put_init (v : bool) (w : W) : W :=
  mkWorld (slots w) (last_used w) v (nullfd w) (errno w) (sys w).
Definition put_nullfd (v : Z) (w : W) : W :=
  mkWorld (slots w) (last_used w) (did_init w) v (errno w) (sys w).
Definition put_errno (v : Z) (w : W) : W :=
  mkWorld (slots w) (last_used w) (did_init w) (nullfd w) v (sys w).
Definition put_sys (v : K) (w : W) : W :=
  mkWorld (slots w) (last_used w) (did_init w) (nullfd w) (errno w) v.

(** The object a pointer to slot [i] points to, and a change of it. *)
Definition object (w : W) (i : nat) : option UXFIO := s ← slots w !! i; slot_file s.

Definition set_object (i : nat) (u : UXFIO) (w : W) : W :=
  match slots w !! i with
  | Some s => put_slots (<[i := mkSlot (slot_status s) (slot_desc s) (Some u)]> (slots w)) w
  | None => w
  end.

Definition obj (i : nat) : ST W UXFIO := reads (fun w => object w i).
Definition upd (i : nat) (f : UXFIO -> UXFIO) : ST W () :=
  updates (fun w => u ← object w i; Some (set_object i (f u) w)).

(** ** System calls *)

Context `{Kernel K}.

(** A call that fails sets errno. *)
Definition call {A} (f : K -> K * (A + Z)) : ST W (option A) := fun w =>
  match f (sys w) with
  | (k, inl a) => Some (Done (put_sys k w) (Some a))
  | (k, inr e) => Some (Done (put_errno e (put_sys k w)) None)
  end.

(** The result of a call, -1 when it failed. *)
Definition call_int (f : K -> K * (Z + Z)) : ST W Z := let! r := call f in ret (default (-1) r).

(** A size that is passed as a size_t. *)
Definition read (fd n : Z) : ST W (Z * bytes) :=
  let! r := call (sys_read fd (to_size n)) in
  ret (match r with Some d => (zlen d, d) | None => (-1, []) end).
Definition write (fd : Z) (buf : bytes) : ST W Z := call_int (sys_write fd buf).
Definition lseek (fd off whence : Z) : ST W Z := call_int (sys_lseek fd off whence).
Definition close (fd : Z) : ST W Z := call_int (sys_close fd).
Definition fsync (fd : Z) : ST W Z := call_int (sys_fsync fd).
Definition ftruncate (fd n : Z) : ST W Z := call_int (sys_ftruncate fd n).
Definition fcntl (fd cmd value : Z) : ST W Z := call_int (sys_fcntl fd cmd value).
Definition open (path : bytes) (oflag mode : Z) : ST W Z := call_int (sys_open path oflag mode).
Definition unlink (path : bytes) : ST W Z := call_int (sys_unlink path).

(** ** atomicio.c

    The functions take the transfer [f]: of [n] bytes at an offset of the
    buffer.  A read also answers the bytes it stored. *)

Fixpoint safeio (fuel : nat) (f : ST W (Z * bytes)) : ST W (Z * bytes) :=
  match fuel with
  | O => out_of_fuel
  | S fuel =>
      let! (res, d) := f in
      if res =? -1
      then let! e := gets errno in if e =? EINTR then safeio fuel f else ret (res, d)
      else ret (res, d)
  end.

Fixpoint atomicio_loop (fuel : nat) (f : Z -> Z -> ST W (Z * bytes)) (n pos : Z) (s : bytes)
    : ST W (Z * bytes) :=
  match fuel with
  | O => out_of_fuel
  | S fuel' =>
      if n >? pos then
        let rq := if to_int (n - pos) >? 512 then 512 else n - pos in
        let! (res, d) := safeio fuel (f pos rq) in
        if res =? -1 then ret (-1, s ++ d)
        else if res =? 0 then ret (0, s ++ d)
        else if res <? 0 then ret (-1, s ++ d)
        else atomicio_loop fuel' f n (pos + res) (s ++ d)
      else ret (pos, s)
  end.

Definition atomicio (fuel : nat) (f : Z -> Z -> ST W (Z * bytes)) (n : Z) : ST W (Z * bytes) :=
  atomicio_loop fuel f (to_size n) 0 [].

(** A write as a transfer: the bytes from an offset of the buffer on. *)
Definition write_from (w : bytes -> ST W Z) (buf : bytes) (pos rq : Z) : ST W (Z * bytes) :=
  let! part := lift (mem_sub buf pos rq) in
  let! res := w part in
  ret (res, []).

(** ** The table of descriptors *)

Definition alloc_file (i : nat) : ST W () := updates (fun w =>
  s ← slots w !! i;
  Some (match slot_file s with
        | Some _ => w
        | None => put_slots (<[i := mkSlot (slot_status s) (slot_desc s) (Some fresh_UXFIO)]> (slots w)) w
        end)).

(** The first slot with a property; every slot of the table is looked at. *)
Fixpoint first_slot (p : Slot -> bool) (l : list Slot) : option nat :=
  match l with
  | [] => None
  | s :: r => if p s then Some O else S <$> first_slot p r
  end.

Definition slot_is (fd : Z) (s : Slot) : bool := slot_desc s =? fd.

(** [*uxfio_addr], [None] for NULL; the answer is 0 then and -1 otherwise. *)
Definition table_find (uxfio_fildes : Z) : ST W (option nat) :=
  let! w := gets id in
  let! s := lift (slots w !! last_used w) in
  if slot_is uxfio_fildes s && slot_status s
  then do! alloc_file (last_used w) in ret (Some (last_used w))
  else if (uxfio_fildes >=? UXFIO_FD_MIN) && (uxfio_fildes <? UXFIO_MAX_OPEN + UXFIO_FD_MIN)
  then match first_slot (slot_is uxfio_fildes) (slots w) with
       | Some i =>
           let! s := lift (slots w !! i) in
           if slot_status s
           then do! alloc_file i in do! modify (put_last i) in ret (Some i)
           else ret None
       | None => ret None
       end
  else ret None.

Definition put_status (i : nat) (b : bool) (fd : Z) : ST W () := updates (fun w =>
  s ← slots w !! i; Some (put_slots (<[i := mkSlot b fd (slot_file s)]> (slots w)) w)).

(** table_mon, one function per command. *)
Definition table_init : ST W () :=
  do! modify (fun w =>
    put_slots ((fun s => mkSlot (slot_status s) (slot_desc s) None) <$> slots w) w) in
  modify (put_init true).

Definition table_remove (uxfio_fildes : Z) : ST W Z :=
  let! w := gets id in
  match first_slot (slot_is uxfio_fildes) (slots w) with
  | Some i =>
      let! s := lift (slots w !! i) in
      if slot_status s then do! put_status i false (slot_desc s) in ret 0 else ret (-1)
  | None => ret (-1)
  end.

(** The new descriptor and its slot. *)
Definition table_add : ST W (option (Z * nat)) :=
  let! w := gets id in
  match first_slot (fun s => negb (slot_status s)) (slots w) with
  | Some i =>
      let fd := UXFIO_FD_MIN + Z.of_nat i in
      do! put_status i true fd in
      do! alloc_file i in
      ret (Some (fd, i))
  | None => ret None
  end.

Definition uxfio_uxfio_get_nopen : ST W Z :=
  gets (fun w => zlen (filter (fun s => slot_status s = true) (slots w))).
End State.
