(* ===== verification/Uxfio.v ===== *)
(** * UXFIO: buffered u*ix I/O functions (swsupplib/uxfio/uxfio.c)

    The functions of uxfio.c on the state of UxfioState.v.  A read answers the
    returned number and the bytes stored in the caller's buffer; the buffer
    that is written is the list of its bytes.  The loops, and the calls to the
    descriptor below, have fuel: a call whose fuel is used up is [Running].
    Messages are left out. *)

From S2P Require Import Prelude CString Strob Strar Escape Effects UxfioState.

#[local] Open Scope effects_scope.

(** ** The virtual end of a file *)

Definition virtual_eof_active (uxfio : UXFIO) : bool :=
  (offset_eofM uxfio >=? 0) || (v_endM uxfio >=? 0).

Definition virtual_file_active (uxfio : UXFIO) : bool :=
  (offset_eofM uxfio >=? 0) || (offset_eof_savedM uxfio >=? 0).

Definition active_virtual_file_offset (uxfio : UXFIO) : Z :=
  if virtual_file_active uxfio then to_int (offset_bofM uxfio) else 0.

(** The number of bytes a transfer may have, and whether the end was met. *)
Definition veof_limit (uxfio : UXFIO) (nbyte : Z) : Z * bool :=
  let remaining :=
    if offset_eofM uxfio >=? 0 then offset_eofM uxfio - virtual_offsetM uxfio
    else v_endM uxfio - current_offsetM uxfio in
  if remaining <=? nbyte then (remaining, true) else (nbyte, false).

(** An offset, and whether it is invalid. *)
Definition enforce_set_position (uxfio : UXFIO) (offset : Z) : Z * bool :=
  if offset >=? 0 then (offset, false)
  else if virtual_eof_active uxfio then
    let passed :=
      if bytesreadM uxfio =? 0
      then if offset_eofM uxfio >=? 0 then offset_eofM uxfio else v_endM uxfio
      else bytesreadM uxfio in
    if - offset >? passed then (0, true) else (offset, false)
  else (offset, false).

(** ** Counting and adding up *)

(** bytesreadM, current_offsetM and virtual_offsetM move together. *)
Definition advance (n : Z) (u : UXFIO) : UXFIO :=
  put_bytesreadM (bytesreadM u + n)
    (put_current_offsetM (current_offsetM u + n) (put_virtual_offsetM (virtual_offsetM u + n) u)).

Definition add_offsets (n : Z) (u : UXFIO) : UXFIO :=
  put_current_offsetM (current_offsetM u + n) (put_virtual_offsetM (virtual_offsetM u + n) u).

Definition add_pos (n : Z) (u : UXFIO) : UXFIO := put_posM (posM u + n) u.

(** The data end where the position is, when it is behind them. *)
Definition raise_end (u : UXFIO) : UXFIO := if posM u >? endM u then put_endM (posM u) u else u.

Section Functions.
Context {K : Type} `{Kernel K} `{Malloc} {heap : Heap}.
Abbreviation W := (World K).

Definition enforce_veof (i : nat) (nbyte : Z) : ST W (Z * bool) :=
  let! u := obj i in
  if virtual_eof_active u then ret (veof_limit u nbyte)
  else do! upd i (put_offset_eof_savedM (-1)) in ret (nbyte, false).

(** left, right and unused *)
Definition bufferstate (i : nat) : ST W (Z * Z * Z) :=
  let! u := obj i in
  do! when (buffertypeM u =? UXFIO_BUFTYPE_FILE) (do! lseek (buffdM u) 0 SEEK_CUR in ret ()) in
  ret (posM u, endM u - posM u, lenM u - endM u).

Definition uxfio__change_state (i : nat) (u : bool) : ST W () := upd i (put_vir_uxfioM u).
Definition uxfio__get_state (uxfio : UXFIO) : bool := vir_uxfioM uxfio.

(** memcpy and memmove between buffers; not implemented for a buffer file. *)
Definition uxfio__memcpy (dest : bytes) (dest_offset : Z) (src : bytes) (src_offset amount : Z)
    (uxfio : UXFIO) : option bytes :=
  if buffertypeM uxfio =? UXFIO_BUFTYPE_FILE then Some dest
  else memcpy dest dest_offset src src_offset amount.

(** ** Opening *)

Definition internal_init (uxfio_fd : Z) (u : UXFIO) : UXFIO := mkUXFIO
  (uxfdM u) UXFIO_BUFTYPE_MEM (uxfd_can_seekM u) 0 0 0 UXFIO_LEN 0 0 0 0 1
  (malloc (Z.to_nat (UXFIO_LEN + 1))) first_base (-1) (-1) (-1) 0 0 0 0 (-1) 1 None [] None (-1)
  false uxfio_fd 0 0 0 [].

(** The new descriptor and its slot, [None] for -1. *)
Definition internal_uxfio_open : ST W (option (Z * nat)) :=
  let! inited := gets did_init in
  do! when (negb inited) table_init in
  let! r := table_add in
  match r with
  | None => ret None
  | Some (uxfio_fd, i) => do! upd i (internal_init uxfio_fd) in ret (Some (uxfio_fd, i))
  end.

Definition uxfio_open (path : option bytes) (oflag mode : Z) : ST W Z :=
  let! r := internal_uxfio_open in
  match r with
  | None => ret (-1)
  | Some (uxfio_fd, i) =>
      match path with
      | Some path =>
          let! u_fd := if zlen path =? 0 then ret UXFIO_NULL_FD else open path oflag mode in
          if negb (zlen path =? 0) && (u_fd <? 0) then ret (-1)
          else
            do! uxfio__change_state i false in
            do! upd i (put_uxfd_can_seekM 1) in
            do! upd i (put_uxfdM u_fd) in
            ret uxfio_fd
      | None =>
          do! upd i (put_buffer_activeM 0) in
          do! upd i (put_uxfd_can_seekM 0) in
          do! upd i (put_uxfdM (-1)) in
          ret uxfio_fd
      end
  end.

Definition uxfio_incr_use_count (fd : Z) : ST W Z :=
  let! r := table_find fd in
  match r with
  | None => ret (-1)
  | Some i =>
      do! upd i (fun u => put_use_countM (use_countM u + 1) u) in
      let! u := obj i in ret (use_countM u)
  end.

Definition uxfio_decr_use_count (fd : Z) : ST W Z :=
  if fd <? UXFIO_FD_MIN then ret (-1)
  else
    let! r := table_find fd in
    match r with
    | None => ret (-1)
    | Some i =>
        do! upd i (fun u => put_use_countM (use_countM u - 1) u) in
        let! u := obj i in ret (use_countM u)
    end.

Definition uxfio_devnull_open (dev_null : bytes) (o_rdwr : Z) : ST W Z :=
  let! fd := gets nullfd in
  do! when (fd =? 0) (let! fd := open dev_null o_rdwr 0 in modify (put_nullfd fd)) in
  let! fd := gets nullfd in
  if fd <? 0 then exit_process else ret fd.

Definition uxfio_devnull_close (fd : Z) : ST W Z := ret 0.

(** ** Transfers to unix descriptors *)

Section Writing.
Variable fuel : nat.

Definition uxfio_unix_safe_write (fd : Z) (buf : bytes) : ST W Z :=
  let! (n, _) := safeio fuel (let! n := write fd buf in ret (n, [])) in ret n.

(** The file in memory: [buf] replaces the bytes from the position on, and the
    block grows by the bytes it has no room for. *)
Definition fix_dynamic_buffer (i : nat) (totalbytes : Z) (p : bytes) (totalnewbytes : Z) : ST W Z :=
  let! _ := bufferstate i in
  if totalnewbytes >? 0 then
    let! u := obj i in
    let newlen := lenM u + totalnewbytes + UXFIO_ALLOC_AHEAD + 1 in
    let newbuf := realloc (bufM u) (Z.to_nat newlen) in
    let newaddr := moved (buf_addrM u) newlen in
    let! newbuf := lift (memcpy newbuf (posM u) p 0 totalbytes) in
    do! upd i (fun u => put_lenM (lenM u + totalnewbytes + UXFIO_ALLOC_AHEAD) u) in
    do! upd i (add_pos totalbytes) in
    do! upd i raise_end in
    let! u := obj i in
    let! newbuf := lift (memset newbuf (endM u) NUL (lenM u + 1 - endM u)) in
    do! upd i (put_startM 0) in
    if negb (newaddr =? buf_addrM u) && negb (lock_buf_fatalM u =? 0) then exit_process
    else
      do! upd i (fun u => put_bufM newbuf (put_buf_addrM newaddr u)) in
      ret 0
  else exit_process.

(** *** Output in blocks *)

(** The writes of one block, to the descriptor below; [write_ret]. *)
Fixpoint write_block (rounds : nat) (uxfio_write : Z -> bytes -> ST W Z) (uxfdM : Z)
    (sub_p : bytes) (write_ret : Z) : ST W Z :=
  match rounds with
  | O => out_of_fuel
  | S rounds =>
      if zlen sub_p >? 0 then
        let! sub_write_ret := uxfio_write uxfdM sub_p in
        if sub_write_ret <? 0 then ret (-1)
        else if sub_write_ret =? 0 then ret (-1)
        else write_block rounds uxfio_write uxfdM (drop (Z.to_nat sub_write_ret) sub_p)
               (write_ret + sub_write_ret)
      else ret write_ret
  end.

(** The loop over the blocks that are full; [None] when a write failed,
    otherwise the bytes of the caller that are left and where they go. *)
Fixpoint full_blocks (rounds : nat) (uxfio_write : Z -> bytes -> ST W Z) (i : nat) (bs : Z)
    (userp : bytes) (initial_remains remains : Z) : ST W (option (bytes * Z * Z)) :=
  match rounds with
  | O => out_of_fuel
  | S rounds =>
      if remains >=? bs then
        let udid := bs - initial_remains in
        let! u := obj i in
        let! buf := lift (memcpy (output_bufferM u) initial_remains userp 0 udid) in
        do! upd i (put_output_bufferM buf) in
        let! u := obj i in
        let! block := lift (mem_sub (output_bufferM u) 0 bs) in
        let! write_ret := write_block fuel uxfio_write (uxfdM u) block 0 in
        if write_ret <? 0 then ret None
        else if negb (write_ret =? bs) then do! upd i (put_output_buffer_cM bs) in ret None
        else full_blocks rounds uxfio_write i bs (drop (Z.to_nat udid) userp) 0 (remains - write_ret)
      else ret (Some (userp, initial_remains, remains))
  end.

Definition do_buffered_write2 (uxfio_write : Z -> bytes -> ST W Z) (i : nat) (userbuf : bytes) : ST W Z :=
  let! u := obj i in
  let initial_remains := output_buffer_cM u in
  let! r := full_blocks fuel uxfio_write i (output_block_sizeM u) userbuf initial_remains
              (initial_remains + zlen userbuf) in
  match r with
  | None => ret (-1)
  | Some (userp, bufp, remains) =>
      let! u := obj i in
      let! buf := lift (mem_write (output_bufferM u) bufp userp) in
      do! upd i (put_output_bufferM buf) in
      do! upd i (put_output_buffer_cM remains) in
      ret (zlen userbuf)
  end.

Definition do_buffered_flush (uxfio_write : Z -> bytes -> ST W Z) (i : nat) : ST W Z :=
  let! u := obj i in
  if (output_block_sizeM u =? 0) || (output_buffer_cM u =? 0) then ret 0
  else
    let save_bs := output_block_sizeM u in
    let remains := output_buffer_cM u in
    do! upd i (put_output_buffer_cM 0) in
    do! upd i (put_output_block_sizeM remains) in
    if remains >? save_bs then ret (-1)
    else
      let! userbuf := lift (mem_sub (output_bufferM u) 0 remains) in
      let! write_ret := do_buffered_write2 uxfio_write i userbuf in
      let! u := obj i in
      do! upd i (put_output_block_sizeM save_bs) in
      if negb (write_ret =? remains) then ret (-1)
      else if output_buffer_cM u >? 0 then ret (-1)
      else ret 0.

(** *** uxfio_write behind its descriptor tests *)

(** Inserting: the bytes behind the position move up. *)
Definition insert_gap (i : nat) (nbyte rightn : Z) : ST W () :=
  let! u := obj i in
  when (negb (write_insertM u =? 0)) (
    let! m := lift (memcpy (bufM u) (posM u + nbyte) (bufM u) (posM u) rightn) in
    do! upd i (put_bufM m) in
    upd i (fun u => if posM u + nbyte + rightn >? endM u then put_endM (posM u + nbyte) u else u)).

Definition write_dynamic (i : nat) (buf : bytes) : ST W Z :=
  let nbyte := zlen buf in
  let! (_, rightn, unused) := bufferstate i in
  if to_int nbyte >? rightn + unused then
    let! r := fix_dynamic_buffer i nbyte buf (nbyte - rightn - unused) in
    if r =? 0 then ret nbyte else ret (-1)
  else
    do! insert_gap i nbyte rightn in
    let! u := obj i in
    let! m := lift (mem_write (bufM u) (posM u) buf) in
    do! upd i (put_bufM m) in
    do! upd i (add_pos nbyte) in
    do! upd i (advance nbyte) in
    do! upd i raise_end in
    ret nbyte.

Definition write_file (i : nat) (buf : bytes) : ST W Z :=
  let! u := obj i in
  let nbyte :=
    if to_int (posM u + zlen buf) >? to_int (endM u) then endM u - posM u else zlen buf in
  let! part := lift (mem_sub buf 0 nbyte) in
  let! n := uxfio_unix_safe_write (buffdM u) part in
  if n <? 0 then exit_process
  else
    do! upd i (add_pos n) in
    do! upd i (advance n) in
    ret n.

Definition write_object (uxfio_write : Z -> bytes -> ST W Z) (i : nat) (buf : bytes) : ST W Z :=
  let! u := obj i in
  let! refused :=
    if virtual_eof_active u then
      let endoffset := bytesreadM u + zlen buf in
      let! (n, _) := enforce_veof i endoffset in
      ret (negb (n =? endoffset))
    else ret false in
  if refused then ret (-1)
  else if (buffer_activeM u =? 0) && (output_block_sizeM u =? 0) then
    if vir_uxfioM u then uxfio_write (uxfdM u) buf else uxfio_unix_safe_write (uxfdM u) buf
  else if (output_block_sizeM u >? 0) && (buffer_activeM u =? 0) then
    do_buffered_write2 uxfio_write i buf
  else if (buffertypeM u =? UXFIO_BUFTYPE_FILE) && (uxfd_can_seekM u =? 1) then write_file i buf
  else if buffertypeM u =? UXFIO_BUFTYPE_DYNAMIC_MEM then write_dynamic i buf
  else ret (-1).
End Writing.

Fixpoint uxfio_write (fuel : nat) (uxfio_fildes : Z) (buf : bytes) : ST W Z :=
  match fuel with
  | O => out_of_fuel
  | S below =>
      if uxfio_fildes =? UXFIO_NULL_FD then ret (zlen buf)
      else if (uxfio_fildes <? UXFIO_FD_MIN) && (uxfio_fildes >=? 0)
      then uxfio_unix_safe_write fuel uxfio_fildes buf
      else
        let! r := table_find uxfio_fildes in
        match r with
        | None => ret (-1)
        | Some i => write_object fuel (uxfio_write below) i buf
        end
  end.

Definition uxfio_unix_atomic_write (fuel : nat) (fd : Z) (buf : bytes) : ST W Z :=
  let w := if (fd <? UXFIO_FD_MIN) && (fd >=? 0) then write fd else uxfio_write fuel fd in
  let! (n, _) := atomicio fuel (write_from w buf) (zlen buf) in ret n.

(** Zeros to a descriptor, at most 512 at a time. *)
Fixpoint zero_fill (fuel : nat) (fd rem : Z) : ST W Z :=
  match fuel with
  | O => out_of_fuel
  | S fuel' =>
      if rem >? 0 then
        let am := if rem >? 512 then 512 else rem in
        let! r := uxfio_write fuel fd (replicate (Z.to_nat am) NUL) in
        if r <? 0 then ret (-1) else zero_fill fuel' fd (rem - r)
      else ret 0
  end.

(** ** The buffer file *)

Definition UXFIO_TMPFILE_ROOTDIR : bytes := L "/usr/tmp/".
Definition UXFIO_TMPFILE_PFX : bytes := L "uxfio".

Definition uxfio__unlink_tmpfile (i : nat) : ST W Z :=
  let! u := obj i in
  let! r := unlink (buffilenameM u) in
  ret (if r =? 0 then 0 else -1).

Definition uxfio__delete_buffer_file (i : nat) : ST W Z :=
  let! u := obj i in
  if buffertypeM u =? UXFIO_BUFTYPE_FILE then
    if (buffdM u <? 0) || (zlen (buffilenameM u) =? 0) then ret (-1)
    else
      do! close (buffdM u) in
      do! uxfio__unlink_tmpfile i in
      do! upd i (put_buffdM (-1)) in
      do! upd i (put_buffilenameM []) in
      ret 0
  else ret 0.

(** The bytes that were buffered in memory go to the new file. *)
Definition fill_buffer_file (fuel : nat) (i : nat) (buf : bytes) (len : Z) : ST W () :=
  let! u := obj i in
  let! part := lift (mem_sub buf 0 len) in
  let! n := uxfio_unix_atomic_write fuel (buffdM u) part in
  if negb (n =? len) then
    do! close (buffdM u) in
    do! uxfio__unlink_tmpfile i in
    exit_process
  else
    do! upd i (put_startM 0) in
    do! upd i (put_endM len) in
    do! upd i (put_virtual_offsetM 0) in
    do! upd i (put_posM 0) in
    do! lseek (buffdM u) 0 SEEK_SET in
    ret ().

(** [buf] is [None] for NULL. *)
Definition uxfio__init_buffer_file (fuel : nat) (i : nat) (buf : option bytes) (len : Z) : ST W Z :=
  let! u := obj i in
  let named := negb (zlen (buffilenameM u) =? 0) in
  if (buffdM u >? 0) && named then ret 0
  else if ((buffdM u <? 0) && named) || ((buffdM u >? 0) && negb named) then ret (-1)
  else
    let rootdir := default UXFIO_TMPFILE_ROOTDIR (tmpfile_rootdirM u) in
    let dirtmp := rootdir ++ UXFIO_TMPFILE_PFX ++ L "XXXXXX" in
    if zlen dirtmp - 1 >? 128 then do! upd i (put_buffdM (-1)) in ret (-1)
    else
      let! r := call (sys_mkstemp (take 127 dirtmp)) in
      match r with
      | None => exit_process
      | Some (name, fd) =>
          do! upd i (put_buffilenameM name) in
          do! upd i (put_buffdM fd) in
          do! upd i (put_lenM UXFIO_FLEN) in
          do! upd i (fun u => put_startM 0 (put_endM 0 (put_posM 0 u))) in
          do! match buf with
              | Some buf => when (len >? 0) (fill_buffer_file fuel i buf len)
              | None => ret ()
              end in
          ret 0
      end.

(** ** Controls *)

Definition UXFIO_F_SET_LTRUNC : Z := -11730.
Definition UXFIO_F_SET_BUFACTIVE : Z := -11731.
Definition UXFIO_F_SET_BUFTYPE : Z := -11732.
Definition UXFIO_F_ATTACH_FD : Z := -11733.
Definition UXFIO_F_SET_VEOF : Z := -11734.
Definition UXFIO_F_ARM_AUTO_DISABLE : Z := -11735.
Definition UXFIO_F_GET_BUFTYPE : Z := -11736.
Definition UXFIO_F_GET_CANSEEK : Z := -11737.
Definition UXFIO_F_SET_CANSEEK : Z := -11729.
Definition UXFIO_F_WRITE_INSERT : Z := -11738.
Definition UXFIO_F_SET_BUFFER_LENGTH : Z := -11725.
Definition UXFIO_F_GET_BUFFER_LENGTH : Z := -11739.
Definition UXFIO_F_GET_VBOF : Z := -11740.
Definition UXFIO_F_DO_MEM_REALLOC : Z := -11741.
Definition UXFIO_F_SET_LOCK_MEM_FATAL : Z := -11742.
Definition UXFIO_F_SET_OUTPUT_BLOCK_SIZE : Z := -11743.
Definition UXFIO_F_GET_VEOF : Z := -11744.

(** A new length of the buffer keeps as much of the data as fits, the part
    behind the position first. *)
Definition set_buffer_length (i : nat) (value : Z) : ST W Z :=
  let! u := obj i in
  if buffertypeM u =? UXFIO_BUFTYPE_FILE then
    do! when (value >? endM u) (upd i (put_lenM value)) in ret 0
  else
    let! (leftn, rightn, _) := bufferstate i in
    if (value <? rightn) || (value <=? 0) then ret (-1)
    else
      let buf := malloc (Z.to_nat (value + 1)) in
      if value >=? rightn + leftn then
        let! buf := lift (uxfio__memcpy buf 0 (bufM u) (startM u) (leftn + rightn) u) in
        do! upd i (put_lenM value) in
        do! upd i (fun u => put_bufM buf (put_buf_addrM first_base u)) in ret 0
      else
        let! buf := lift (uxfio__memcpy buf 0 (bufM u) (posM u - value + rightn) value u) in
        do! upd i (put_lenM value) in
        do! upd i (put_startM 0) in
        do! upd i (put_posM (value - rightn)) in
        do! upd i (put_virtual_offsetM (value - rightn)) in
        do! upd i (put_endM value) in
        do! upd i (fun u => put_bufM buf (put_buf_addrM first_base u)) in ret 0.

Definition get_canseek (u : UXFIO) : Z :=
  if negb (buffer_activeM u =? 0) && negb (buffertypeM u =? UXFIO_BUFTYPE_NOBUF) then
    if (buffertypeM u =? UXFIO_BUFTYPE_MEM) && (lenM u >=? 512) then to_int (lenM u) else 1
  else 0.

(** The buffer on and off: data that was not read yet keeps it on. *)
Definition set_bufactive (fuel : nat) (i : nat) (value : Z) : ST W Z :=
  let! u := obj i in
  let on (value ret_ : Z) : ST W Z :=
    do! upd i (put_buffer_activeM (if value =? 0 then 0 else 1)) in ret ret_ in
  let unread := negb (buffer_activeM u =? 0) && (posM u <? endM u) in
  if buffertypeM u =? UXFIO_BUFTYPE_NOBUF then on 0 0
  else if buffertypeM u =? UXFIO_BUFTYPE_FILE then
    if value =? 0 then
      if unread then ret (-1)
      else let! r := uxfio__delete_buffer_file i in on value r
    else if buffer_activeM u =? 0 then
      let! r := uxfio__init_buffer_file fuel i None 0 in on value r
    else on value 0
  else on value (if (value =? 0) && unread then -1 else 0).

(** From the buffer file to memory. *)
Definition file_to_memory (i : nat) : ST W Z :=
  let! u := obj i in
  do! upd i (put_lenM (endM u + 1)) in
  do! lseek (buffdM u) 0 SEEK_SET in
  let! (_, d) := read (buffdM u) (endM u) in
  let! m := lift (mem_write (malloc (Z.to_nat (endM u + 2))) 0 d) in
  let! m := lift (memset m (endM u) NUL 2) in
  do! upd i (fun u => put_bufM m (put_buf_addrM first_base u)) in
  uxfio__delete_buffer_file i.

Definition set_buftype (fuel : nat) (fcntl_rec : Z -> Z -> Z -> ST W Z) (uxfio_fildes : Z) (i : nat)
    (value : Z) : ST W Z :=
  let! u := obj i in
  if (value <? 0) || (value >? 4) then ret (-1)
  else if value =? buffertypeM u then ret 0
  else
    let active := negb (buffer_activeM u =? 0) in
    let! r :=
      if (buffertypeM u =? UXFIO_BUFTYPE_FILE) && active then file_to_memory i
      else if ((buffertypeM u =? UXFIO_BUFTYPE_MEM) || (buffertypeM u =? UXFIO_BUFTYPE_DYNAMIC_MEM))
              && (value =? UXFIO_BUFTYPE_FILE) && active then
        do! upd i (put_buffertypeM UXFIO_BUFTYPE_FILE) in
        uxfio__init_buffer_file fuel i (Some (bufM u)) (endM u)
      else if value =? UXFIO_BUFTYPE_NOBUF then
        do! fcntl_rec uxfio_fildes UXFIO_F_SET_BUFACTIVE 0 in ret 0
      else ret 0 in
    do! upd i (put_buffertypeM value) in
    ret r.

Definition set_veof (value : Z) (u : UXFIO) : UXFIO :=
  let u := put_current_offsetM 0 (put_virtual_offsetM 0 u) in
  if value <? 0
  then put_offset_eofM (-1) (put_offset_bofM 0 (put_offset_eof_savedM (-1) u))
  else put_offset_eofM value (put_offset_bofM (posM u) (put_offset_eof_savedM value u)).

Definition do_mem_realloc (i : nat) (value : Z) : ST W Z :=
  let! u := obj i in
  if value <? 0 then ret (-1)
  else if buffertypeM u =? UXFIO_BUFTYPE_DYNAMIC_MEM then
    let newlen := lenM u + value + UXFIO_ALLOC_AHEAD + 1 in
    let lenM' := lenM u + (value + UXFIO_ALLOC_AHEAD) in
    let! m := lift (memset (realloc (bufM u) (Z.to_nat newlen)) (endM u) NUL (lenM' + 1 - endM u)) in
    do! upd i (put_lenM lenM') in
    do! upd i (fun u => put_bufM m (put_buf_addrM (moved (buf_addrM u) newlen) u)) in
    ret 0
  else ret (-2).

Definition set_output_block_size (i : nat) (value : Z) : ST W Z :=
  if value <? 0 then ret (-1)
  else
    do! upd i (put_output_block_sizeM value) in
    do! upd i (put_output_bufferM (malloc (Z.to_nat (value + 1)))) in
    ret 0.

Fixpoint uxfio_fcntl (fuel : nat) (uxfio_fildes cmd value : Z) : ST W Z :=
  match fuel with
  | O => out_of_fuel
  | S below =>
      if (uxfio_fildes <? UXFIO_FD_MIN) && (uxfio_fildes >=? 0) then fcntl uxfio_fildes cmd value
      else
        let! r := table_find uxfio_fildes in
        match r with
        | None => ret (-1)
        | Some i =>
            let! u := obj i in
            let set (f : UXFIO -> UXFIO) : ST W Z := do! upd i f in ret 0 in
            if cmd =? UXFIO_F_SET_BUFFER_LENGTH then set_buffer_length i value
            else if cmd =? UXFIO_F_SET_LTRUNC then ret (-1)
            else if cmd =? UXFIO_F_SET_CANSEEK then set (put_uxfd_can_seekM value)
            else if cmd =? UXFIO_F_GET_BUFFER_LENGTH then ret (to_int (lenM u))
            else if cmd =? UXFIO_F_GET_VBOF then
              ret (if virtual_file_active u then to_int (offset_bofM u) else -1)
            else if cmd =? UXFIO_F_GET_CANSEEK then ret (get_canseek u)
            else if cmd =? UXFIO_F_GET_BUFTYPE then ret (buffertypeM u)
            else if cmd =? UXFIO_F_SET_BUFACTIVE then set_bufactive fuel i value
            else if cmd =? UXFIO_F_SET_BUFTYPE then
              set_buftype fuel (uxfio_fcntl below) uxfio_fildes i value
            else if cmd =? UXFIO_F_ATTACH_FD then
              do! upd i (put_uxfdM value) in
              do! uxfio__change_state i (value >=? UXFIO_FD_MIN) in
              ret uxfio_fildes
            else if cmd =? UXFIO_F_GET_VEOF then
              ret (if virtual_file_active u then to_int (offset_eof_savedM u) else -1)
            else if cmd =? UXFIO_F_SET_VEOF then set (set_veof value)
            else if cmd =? UXFIO_F_ARM_AUTO_DISABLE then
              set (put_auto_disableM (if value =? 0 then 0 else 1))
            else if cmd =? UXFIO_F_WRITE_INSERT then
              set (put_write_insertM (if value =? 0 then 0 else 1))
            else if cmd =? UXFIO_F_SET_LOCK_MEM_FATAL then set (put_lock_buf_fatalM value)
            else if cmd =? UXFIO_F_DO_MEM_REALLOC then do_mem_realloc i value
            else if cmd =? UXFIO_F_SET_OUTPUT_BLOCK_SIZE then set_output_block_size i value
            else if uxfdM u =? UXFIO_NULL_FD then ret (-1)
            else if uxfdM u <? UXFIO_FD_MIN then fcntl (uxfdM u) cmd value
            else uxfio_fcntl below (uxfdM u) cmd value
        end
  end.

(** ** The buffer behind a read *)

(** A read of [totalbytes] bytes [p], of which the last [totalnewbytes] came
    from below: they go to the buffer, whose oldest bytes may have to leave. *)
Definition fix_buffer_file (fuel : nat) (i : nat) (totalbytes : Z) (p : bytes) (totalnewbytes : Z) : ST W Z :=
  let! u := obj i in
  if posM u + totalnewbytes >? lenM u then ret (-1)
  else if negb (totalnewbytes =? 0) then
    let! n := lseek (buffdM u) 0 SEEK_END in
    if negb (n =? endM u) then ret (-1)
    else
      let! part := lift (mem_sub p (totalbytes - totalnewbytes) totalnewbytes) in
      let! n := uxfio_unix_atomic_write fuel (buffdM u) part in
      if n <? 0 then exit_process
      else
        do! upd i (add_pos totalbytes) in
        do! upd i (fun u => put_virtual_offsetM (virtual_offsetM u + totalbytes) u) in
        do! upd i (fun u => put_endM (posM u) (put_startM 0 u)) in
        ret 0
  else
    do! upd i (add_pos totalbytes) in
    do! upd i (fun u => put_virtual_offsetM (virtual_offsetM u + totalbytes) u) in
    do! upd i (put_startM 0) in
    ret 0.

(** The position after the buffer was filled to its end. *)
Definition buffer_full (u : UXFIO) : UXFIO :=
  put_posM (lenM u) (put_virtual_offsetM (lenM u) (put_endM (lenM u) (put_startM 0 u))).

Definition fix_buffer (fuel : nat) (i : nat) (totalbytes : Z) (p : bytes) (totalnewbytes : Z) : ST W Z :=
  let! u := obj i in
  if buffertypeM u =? UXFIO_BUFTYPE_FILE then fix_buffer_file fuel i totalbytes p totalnewbytes
  else
    let dynamic := buffertypeM u =? UXFIO_BUFTYPE_DYNAMIC_MEM in
    let! (_, rightn, unused) := bufferstate i in
    if negb (totalnewbytes =? 0) then
      if totalbytes >=? lenM u then
        if dynamic then fix_dynamic_buffer i totalbytes p totalnewbytes
        else
          let! m := lift (uxfio__memcpy (bufM u) 0 p (totalbytes - lenM u) (lenM u) u) in
          do! upd i (fun u => buffer_full (put_bufM m u)) in
          ret 0
      else if totalbytes >? rightn + unused then
        if dynamic then fix_dynamic_buffer i totalbytes p totalnewbytes
        else
          let! m := lift (uxfio__memcpy (bufM u) 0 (bufM u) (totalbytes - unused - rightn)
                            (lenM u - totalbytes + rightn) u) in
          let! m := lift (uxfio__memcpy m (lenM u - totalbytes) p 0 totalbytes u) in
          do! upd i (fun u => buffer_full (put_bufM m u)) in
          ret 0
      else if totalbytes >? rightn then
        let! m := lift (uxfio__memcpy (bufM u) (posM u) p 0 totalbytes u) in
        do! upd i (put_bufM m) in
        do! upd i (add_pos totalbytes) in
        do! upd i (fun u => put_virtual_offsetM (virtual_offsetM u + totalbytes) u) in
        do! upd i (fun u => put_endM (posM u) (put_startM 0 u)) in
        ret 0
      else ret (-1)
    else
      do! upd i (add_pos totalbytes) in
      ret 0.

(** ** Reading *)

Section Reading.
Variable fuel : nat.

(** uxfio_common_read, one level of descriptors down. *)
Variable common_read : Z -> Z -> bool -> ST W (Z * bytes).

Definition read_below (uxfio_fildes nbyte : Z) : ST W (Z * bytes) :=
  if (uxfio_fildes <? UXFIO_FD_MIN) && (uxfio_fildes >=? 0) then safeio fuel (read uxfio_fildes nbyte)
  else if uxfio_fildes >=? UXFIO_FD_MIN then common_read uxfio_fildes nbyte false
  else ret (-1, []).

Definition unix_safe_read_below (fd nbyte : Z) : ST W (Z * bytes) :=
  if (fd <? UXFIO_FD_MIN) && (fd >=? 0) then safeio fuel (read fd nbyte)
  else safeio fuel (read_below fd nbyte).

Definition uxfio_unix_safe_atomic_read (fd nbyte : Z) : ST W (Z * bytes) :=
  atomicio fuel (fun _ rq => read fd rq) nbyte.

Fixpoint common_safe_read_loop (rounds : nat) (fd nbyte n nret : Z) (s : bytes) : ST W (Z * bytes) :=
  match rounds with
  | O => out_of_fuel
  | S rounds =>
      if (n <? nbyte) && negb (nret =? 0) then
        let! (nret, d) := common_read fd (nbyte - n) false in
        if nret <? 0 then ret (nret, s ++ d)
        else common_safe_read_loop rounds fd nbyte (n + nret) nret (s ++ d)
      else ret (n, s)
  end.

Definition uxfio_common_safe_read (fd nbyte : Z) : ST W (Z * bytes) :=
  common_safe_read_loop fuel fd (to_int nbyte) 0 1 [].

Definition sfread_below (uxfio_fildes nbyte : Z) : ST W (Z * bytes) :=
  if uxfio_fildes <? UXFIO_FD_MIN then unix_safe_read_below uxfio_fildes nbyte
  else uxfio_common_safe_read uxfio_fildes nbyte.

(** foo_read *)
Definition foo_read (u : UXFIO) (tread : bool) (nbyte : Z) : ST W (Z * bytes) :=
  if tread then
    if vir_uxfioM u then sfread_below (uxfdM u) nbyte else uxfio_unix_safe_atomic_read (uxfdM u) nbyte
  else if vir_uxfioM u then read_below (uxfdM u) nbyte else unix_safe_read_below (uxfdM u) nbyte.

(** The bytes of the buffer at the position. *)
Definition take_buffered (i : nat) (bufcount : Z) : ST W (option bytes) :=
  let! u := obj i in
  if buffertypeM u =? UXFIO_BUFTYPE_FILE then
    let! (n, d) := atomicio fuel (fun _ rq => read (buffdM u) rq) bufcount in
    if n =? bufcount then ret (Some d)
    else do! when (n >? 0) (do! lseek (buffdM u) (- n) SEEK_CUR in ret ()) in ret None
  else let! d := lift (mem_sub (bufM u) (posM u) bufcount) in ret (Some d).

(** A read that is answered by the descriptor below alone. *)
Definition read_through (i : nat) (nbyte : Z) (pollingread : bool) : ST W (Z * bytes) :=
  let! u := obj i in
  let tread := pollingread && ((uxfd_can_seekM u =? 0) || uxfio__get_state u) in
  let! (n, d) := foo_read u tread nbyte in
  if n <? 0 then ret (n, d)
  else do! upd i (advance n) in ret (n, d).

(** A read from the middle of the buffer. *)
Definition read_buffered (i : nat) (nbyte : Z) (pollingread : bool) : ST W (Z * bytes) :=
  let! u := obj i in
  let rightn := endM u - posM u in
  let bufcount := if nbyte >=? rightn then rightn else nbyte in
  let! d := take_buffered i bufcount in
  match d with
  | None => ret (-1, [])
  | Some p =>
      do! upd i (add_offsets bufcount) in
      if bufcount <? nbyte then
        let! u := obj i in
        let tread := pollingread && ((uxfd_can_seekM u =? 0) || uxfio__get_state u) in
        let! (n, d) := if uxfdM u =? UXFIO_NULL_FD then ret (0, [])
                       else foo_read u tread (nbyte - bufcount) in
        if n <? 0 then ret (n, p ++ d)
        else
          do! upd i (advance n) in
          do! fix_buffer fuel i (bufcount + n) (p ++ d) n in
          ret (bufcount + n, p ++ d)
      else
        do! fix_buffer fuel i bufcount p 0 in
        ret (bufcount, p)
  end.

(** A read at the end of the buffer. *)
Definition read_at_end (uxfio_fildes : Z) (i : nat) (nbyte : Z) (pollingread : bool) : ST W (Z * bytes) :=
  let! u := obj i in
  let tread := (pollingread && (uxfd_can_seekM u =? 0)) || uxfio__get_state u in
  let! (n, d) := if uxfdM u =? UXFIO_NULL_FD then ret (0, []) else foo_read u tread nbyte in
  if n <? 0 then ret (n, d)
  else
    do! upd i (advance n) in
    do! fix_buffer fuel i n d n in
    let! u := obj i in
    do! when (negb (auto_disableM u =? 0)) (
          do! upd i (put_auto_disableM 0) in
          do! uxfio_fcntl fuel uxfio_fildes UXFIO_F_SET_BUFACTIVE 0 in
          ret ()) in
    ret (n, d).

Definition reset_veof (u : UXFIO) : UXFIO :=
  if offset_eofM u >=? 0
  then put_offset_eofM (- offset_eofM u) (put_current_offsetM 0 (put_virtual_offsetM 0 u))
  else u.

Definition read_object (uxfio_fildes : Z) (i : nat) (nbyte : Z) (pollingread : bool)
    : ST W (Z * bytes) :=
  let! u := obj i in
  let! (nbyte, einval) :=
    if (buffertypeM u =? UXFIO_BUFTYPE_FILE) || (buffertypeM u =? UXFIO_BUFTYPE_DYNAMIC_MEM)
       || (offset_eofM u >=? 0) || (v_endM u >=? 0)
    then enforce_veof i nbyte else ret (nbyte, false) in
  if (nbyte <=? 0) && einval then do! upd i reset_veof in ret (0, [])
  else
    let! u := obj i in
    if buffer_activeM u =? 0 then read_through i nbyte pollingread
    else
      let! _ := bufferstate i in
      if posM u <? endM u then read_buffered i nbyte pollingread
      else read_at_end uxfio_fildes i nbyte pollingread.
End Reading.

Fixpoint uxfio_common_read (fuel : nat) (uxfio_fildes nbyte : Z) (pollingread : bool) : ST W (Z * bytes) :=
  match fuel with
  | O => out_of_fuel
  | S below =>
      let! r := table_find uxfio_fildes in
      match r with
      | None => ret (-1, [])
      | Some i => read_object fuel (uxfio_common_read below) uxfio_fildes i (to_int nbyte) pollingread
      end
  end.

Definition uxfio_read (fuel : nat) : Z -> Z -> ST W (Z * bytes) :=
  read_below fuel (uxfio_common_read fuel).

Definition uxfio_unix_safe_read (fuel : nat) : Z -> Z -> ST W (Z * bytes) :=
  unix_safe_read_below fuel (uxfio_common_read fuel).

Definition uxfio_sfread (fuel : nat) : Z -> Z -> ST W (Z * bytes) :=
  sfread_below fuel (uxfio_common_read fuel).

Definition uxfio_unix_atomic_read (fuel : nat) (fd nbyte : Z) : ST W (Z * bytes) :=
  atomicio fuel (fun _ rq => read fd rq) nbyte.

Definition uxfio_sfa_read (fuel : nat) (uxfio_fildes nbyte : Z) : ST W (Z * bytes) :=
  if uxfio_fildes <? UXFIO_FD_MIN then uxfio_unix_atomic_read fuel uxfio_fildes nbyte
  else uxfio_common_safe_read fuel (uxfio_common_read fuel) uxfio_fildes nbyte.

(** Reading ahead, at most 4096 bytes at a time. *)
Fixpoint read_bytes_loop (rounds fuel : nat) (uxfio_fildes amount haveread : Z) : ST W Z :=
  match rounds with
  | O => out_of_fuel
  | S rounds =>
      if amount =? 0 then ret haveread
      else
        let bite := if amount >? 4096 then 4096 else amount in
        let! (n, _) := uxfio_read fuel uxfio_fildes bite in
        if n <? 0 then ret (-1)
        else read_bytes_loop rounds fuel uxfio_fildes (amount - n) (haveread + n)
  end.

Definition uxfio__read_bytes (fuel : nat) (uxfio_fildes amount : Z) : ST W Z :=
  read_bytes_loop fuel fuel uxfio_fildes (to_int amount) 0.

(** ** Positions *)

(** How far a move goes: the offset, whence, and do_virtual_set; [None] when
    the call fails. *)
Definition lseek_set (i : nat) (poffset pwhence : Z) : ST W (option (Z * Z * bool)) :=
  let! u := obj i in
  let vset := pwhence =? UXFIO_SEEK_VSET in
  let! refused :=
    if negb (virtual_eof_active u) && (offset_eof_savedM u >=? 0) && vset then
      if (posM u - offset_eof_savedM u =? offset_bofM u) && (offset_eof_savedM u >=? 0) then
        do! upd i (fun u => put_posM (offset_bofM u)
                     (put_virtual_offsetM 0 (put_offset_eofM (offset_eof_savedM u) u))) in
        ret false
      else ret true
    else ret false in
  if refused then ret None
  else
    let! u := obj i in
    if negb (virtual_eof_active u) && (offset_eof_savedM u >? 0) && vset then
      do! upd i (fun u => put_offset_eofM (offset_eof_savedM u) u) in
      ret (Some (poffset - offset_eof_savedM u, SEEK_CUR, true))
    else if (buffer_activeM u =? 0) && negb (uxfd_can_seekM u =? 0) then
      let '(offset, einval) := enforce_set_position u (poffset - bytesreadM u) in
      ret (if einval then None else Some (offset, SEEK_CUR, false))
    else if virtual_eof_active u then
      if vset then
        if poffset <? 0 then ret None
        else if (poffset >? offset_eofM u) && (poffset >? v_endM u) then ret None
        else ret (Some (offset_bofM u + poffset, pwhence, false))
      else ret None
    else ret (Some (poffset - posM u, SEEK_CUR, false)).

Definition lseek_end (i : nat) (poffset : Z) : ST W (option (Z * Z * bool)) :=
  let! u := obj i in
  let offset := endM u - posM u + poffset in
  if virtual_eof_active u then
    let r_i := to_int (if offset_eofM u >=? 0 then offset_eofM u else v_endM u) in
    let r_offset := to_int (r_i - bytesreadM u + offset) in
    let! (offset, einval) := enforce_veof i r_offset in
    if (offset <? 0) || (einval && negb (r_offset - offset =? 0)) then ret None
    else ret (Some (offset, SEEK_CUR, false))
  else ret (Some (offset, SEEK_CUR, false)).

Definition lseek_target (i : nat) (poffset pwhence : Z) : ST W (option (Z * Z * bool)) :=
  if (pwhence =? SEEK_CUR) || (pwhence =? UXFIO_SEEK_VCUR) then ret (Some (poffset, pwhence, false))
  else if (pwhence =? SEEK_SET) || (pwhence =? UXFIO_SEEK_VSET) then lseek_set i poffset pwhence
  else if pwhence =? SEEK_END then lseek_end i poffset
  else ret (Some (0, pwhence, false)).

(** The position in the buffer and the offsets move; [None] when the buffer
    file does not follow. *)
Definition move_within (i : nat) (offset whence : Z) : ST W (option Z) :=
  do! upd i (add_pos offset) in
  do! upd i (add_offsets offset) in
  let! u := obj i in
  if buffertypeM u =? UXFIO_BUFTYPE_FILE then
    let! r := lseek (buffdM u) offset whence in
    ret (if r =? posM u then Some (posM u) else None)
  else ret (Some (posM u)).

(** A move forward inside the data while a virtual end is set. *)
Definition move_virtual (i : nat) (poffset pwhence : Z) : ST W (option Z) :=
  if pwhence =? SEEK_SET then ret None
  else if pwhence =? UXFIO_SEEK_VSET then
    do! upd i (fun u => put_posM (offset_bofM u + poffset) (put_virtual_offsetM poffset u)) in
    ret (Some 0)
  else if pwhence =? SEEK_CUR then
    do! upd i (add_pos poffset) in
    do! upd i (add_offsets poffset) in
    let! u := obj i in ret (Some (posM u))
  else ret (Some (-1)).

(** A move behind the data: the bytes in between are read.  [inl] leaves the
    function, [inr] goes on to its end. *)
Definition move_beyond (fuel : nat) (uxfio_fildes : Z) (i : nat) (offset : Z) : ST W (Z + Z) :=
  let! u := obj i in
  if v_endM u >=? 0 then
    let n := to_int (v_endM u) in
    do! upd i (add_pos n) in
    do! upd i (add_offsets n) in
    let! u := obj i in ret (inl (posM u))
  else if negb (buffertypeM u =? UXFIO_BUFTYPE_FILE) && (buffer_activeM u =? 0) then ret (inl (-1))
  else
    let! n := uxfio__read_bytes fuel uxfio_fildes offset in
    do! when (negb (n =? offset)) (do! upd i (add_pos n) in upd i (add_offsets n)) in
    let! u := obj i in
    if buffertypeM u =? UXFIO_BUFTYPE_FILE then
      let! r := lseek (buffdM u) 0 SEEK_CUR in
      if negb (posM u =? r) then ret (inl (-1)) else ret (inr (posM u))
    else ret (inr (posM u)).

(** A move by nothing answers the position, in one of its several senses. *)
Definition move_nowhere (i : nat) (whence : Z) : ST W (option Z) :=
  let! u := obj i in
  let mem := buffertypeM u =? UXFIO_BUFTYPE_MEM in
  let dynamic := buffertypeM u =? UXFIO_BUFTYPE_DYNAMIC_MEM in
  if buffertypeM u =? UXFIO_BUFTYPE_FILE then
    let! r := lseek (buffdM u) 0 SEEK_CUR in
    ret (if r =? posM u then Some (posM u) else None)
  else if (whence =? UXFIO_SEEK_VSET) && mem then ret (Some (virtual_offsetM u))
  else if (whence =? UXFIO_SEEK_VCUR) && mem then ret (Some (current_offsetM u))
  else if (whence =? UXFIO_SEEK_VCUR) && dynamic then ret (Some (posM u - offset_bofM u))
  else if (whence =? UXFIO_SEEK_VSET) && dynamic && virtual_eof_active u then
    do! upd i (fun u => put_virtual_offsetM (offset_bofM u) (put_posM (offset_bofM u) u)) in
    ret (Some (offset_bofM u))
  else ret (Some (posM u)).

Definition or_fail (r : option Z) : Z + Z := match r with Some z => inr z | None => inl (-1) end.

Definition lseek_move (fuel : nat) (uxfio_fildes : Z) (i : nat) (poffset pwhence offset whence : Z)
    (do_virtual_set : bool) : ST W Z :=
  let! (leftn, rightn, _) := bufferstate i in
  let whence := if offset =? 0 then whence else SEEK_CUR in
  let! u := obj i in
  let! r :=
    if (offset <? 0) && (- offset <=? leftn) then
      let! r := move_within i offset whence in ret (or_fail r)
    else if (offset >? 0) && (offset <=? rightn) then
      let! r := if virtual_eof_active u then move_virtual i poffset pwhence
                else move_within i offset whence in ret (or_fail r)
    else if (offset >? 0) && (offset >? rightn) then move_beyond fuel uxfio_fildes i offset
    else if offset =? 0 then let! r := move_nowhere i whence in ret (or_fail r)
    else ret (inl UXFIO_RET_EFAIL) in
  match r with
  | inl retval => ret retval
  | inr retval =>
      let! u := obj i in
      ret (if do_virtual_set then retval - active_virtual_file_offset u else retval)
  end.

Fixpoint uxfio_lseek (fuel : nat) (uxfio_fildes poffset pwhence : Z) : ST W Z :=
  match fuel with
  | O => out_of_fuel
  | S below =>
      if (uxfio_fildes <? UXFIO_FD_MIN) && (uxfio_fildes >=? 0) then
        lseek uxfio_fildes poffset (if pwhence =? UXFIO_SEEK_VCUR then SEEK_CUR else pwhence)
      else
        let! r := table_find uxfio_fildes in
        match r with
        | None => ret (-1)
        | Some i =>
            let! t := lseek_target i poffset pwhence in
            match t with
            | None => ret (-1)
            | Some (offset, whence, do_virtual_set) =>
                let! u := obj i in
                if (buffer_activeM u =? 0) && (offset_eof_savedM u <? 0) && negb (uxfd_can_seekM u =? 0)
                then
                  do! upd i (advance offset) in
                  if vir_uxfioM u then uxfio_lseek below (uxfdM u) offset SEEK_CUR
                  else lseek (uxfdM u) offset SEEK_CUR
                else lseek_move fuel uxfio_fildes i poffset pwhence offset whence do_virtual_set
            end
        end
  end.

(** ** Truncation *)

(** A file within a file is not truncated; its recorded length can grow. *)
Definition grow_compound (i : nat) (nbyte : Z) : ST W () :=
  upd i (fun u => if nbyte >? v_endM u then
    let u := put_v_endM nbyte u in
    let u := put_statbufM ((fun s => mkFileStat (st_mode s) (st_ino s) (st_dev s) (st_rdev s) (st_nlink s)
      (st_uid s) (st_gid s) nbyte (st_atime s) (st_mtime s) (st_ctime s) (st_blksize s) (st_blocks s))
      <$> statbufM u) u in
    let u := if offset_eofM u >? nbyte then put_offset_eofM (to_int nbyte) u else u in
    if bytesreadM u >? nbyte then
      put_bytesreadM (to_int nbyte) (put_current_offsetM (to_int nbyte) (put_virtual_offsetM (to_int nbyte) u))
    else u
  else u).

Definition truncate_dynamic (fuel : nat) (uxfio_fildes : Z) (i : nat) (nbyte : Z) : ST W Z :=
  let! _ := bufferstate i in
  let seek := uxfio_lseek fuel uxfio_fildes in
  let! pos := seek 0 SEEK_CUR in
  if pos <? 0 then ret (-1)
  else
    let! u := obj i in
    if nbyte >? endM u then
      let! r := seek 0 SEEK_END in
      if r <? 0 then ret (-1)
      else
        let! u := obj i in
        let! ret_ := zero_fill fuel uxfio_fildes (to_int (nbyte - endM u)) in
        let! r := seek pos SEEK_SET in
        if r <? 0 then ret (-1) else ret ret_
    else
      let amount := endM u - nbyte in
      let! r := seek nbyte SEEK_SET in
      if r <? 0 then ret (-1)
      else
        let! ret_ := zero_fill fuel uxfio_fildes (to_int amount) in
        let! r := seek pos SEEK_SET in
        if r <? 0 then ret (-1)
        else
          let! u := obj i in
          do! when (nbyte >? posM u) (do! seek nbyte SEEK_SET in ret ()) in
          do! upd i (put_endM nbyte) in
          ret ret_.

Definition uxfio_internal_ftruncate (fuel : nat) (uxfio_fildes nbyte : Z) : ST W Z :=
  let! r := table_find uxfio_fildes in
  match r with
  | None => ret (-1)
  | Some i =>
      let! u := obj i in
      if match statbufM u with Some _ => v_endM u >? 0 | None => false end then
        do! grow_compound i nbyte in ret 0
      else if buffertypeM u =? UXFIO_BUFTYPE_FILE then
        if posM u >=? endM u then ftruncate (buffdM u) 0 else ret (-2)
      else if buffertypeM u =? UXFIO_BUFTYPE_DYNAMIC_MEM then truncate_dynamic fuel uxfio_fildes i nbyte
      else ret (-1)
  end.

Definition uxfio_ftruncate (fuel : nat) (uxfio_fildes nbyte : Z) : ST W Z :=
  if (uxfio_fildes <? UXFIO_FD_MIN) && (uxfio_fildes >=? 0) then ftruncate uxfio_fildes nbyte
  else if uxfio_fildes >=? UXFIO_FD_MIN then uxfio_internal_ftruncate fuel uxfio_fildes nbyte
  else ret (-1).

(** ** Flushing and closing *)

Fixpoint fsync_chain (fuel rounds : nat) (uxfio_fildes : Z) : ST W Z :=
  match rounds with
  | O => out_of_fuel
  | S below =>
      if (uxfio_fildes <? UXFIO_FD_MIN) && (uxfio_fildes >=? 0) then fsync uxfio_fildes
      else
        let! r := table_find uxfio_fildes in
        match r with
        | None => ret (-1)
        | Some i =>
            let! u := obj i in
            let vir_fsync fd := if vir_uxfioM u then fsync_chain fuel below fd else fsync fd in
            if output_block_sizeM u >? 0 then do_buffered_flush fuel (uxfio_write fuel) i
            else if negb (uxfd_can_seekM u =? 0) then vir_fsync (uxfdM u)
            else if (buffertypeM u =? UXFIO_BUFTYPE_FILE) && (buffdM u >=? 0) then vir_fsync (buffdM u)
            else ret (-1)
        end
  end.

Definition uxfio_fsync (fuel : nat) (uxfio_fildes : Z) : ST W Z := fsync_chain fuel fuel uxfio_fildes.

(** The unix descriptor, or -1 while the object is still in use. *)
Definition internal_uxfio_close (i : nat) : ST W Z :=
  let! u := obj i in
  if use_countM u >? 1 then
    do! upd i (fun u => put_use_countM (use_countM u - 1) u) in ret (-1)
  else
    do! upd i (put_statbufM None) in
    do! uxfio__delete_buffer_file i in
    ret (uxfdM u).

Fixpoint uxfio__close (fuel : nat) (uxfio_fildes : Z) (closeit : bool) : ST W Z :=
  match fuel with
  | O => out_of_fuel
  | S below =>
      let! nfd := gets nullfd in
      if uxfio_fildes =? nfd then ret 0
      else if (uxfio_fildes <? UXFIO_FD_MIN) && (uxfio_fildes >=? 0) then close uxfio_fildes
      else
        let! r := table_find uxfio_fildes in
        match r with
        | None => ret (-1)
        | Some i =>
            let! u := obj i in
            do! when (did_dupe_fdM u >=? 0) (do! uxfio_decr_use_count (did_dupe_fdM u) in ret ()) in
            let! fd := internal_uxfio_close i in
            if (fd <? 0) && negb (fd =? UXFIO_NULL_FD) then ret (if closeit then 0 else -1)
            else if fd >=? 0 then
              let! r :=
                if closeit then
                  do! do_buffered_flush fuel (uxfio_write fuel) i in
                  let! u := obj i in
                  if vir_uxfioM u
                  then let! r := uxfio__close below fd true in ret (if r <? 0 then -1 else 0)
                  else close fd
                else ret fd in
              do! table_remove uxfio_fildes in
              ret r
            else do! table_remove uxfio_fildes in ret 0
        end
  end.

Definition uxfio_close (fuel : nat) (uxfio_fildes : Z) : ST W Z :=
  let! r := uxfio__close fuel uxfio_fildes true in ret (if r <? 0 then -1 else 0).

Definition uxfio_free (fuel : nat) (uxfio_fildes : Z) : ST W Z :=
  if (uxfio_fildes <? UXFIO_FD_MIN) && (uxfio_fildes >=? 0) then ret 0
  else
    let! r := uxfio_fcntl fuel uxfio_fildes UXFIO_F_SET_BUFACTIVE 0 in
    if r <? 0 then ret (-1) else uxfio__close fuel uxfio_fildes false.

(** ** Descriptors on descriptors *)

(** Whether the uxfio descriptor below can seek. *)
Definition uxfd_seeks (fuel : nat) (uxfd : Z) : ST W bool :=
  let! below := table_find uxfd in
  do! uxfio_incr_use_count uxfd in
  let! pos := uxfio_lseek fuel uxfd 0 SEEK_CUR in
  match below with
  | None => ret (pos =? 0)
  | Some j =>
      let! v := obj j in
      ret ((pos =? 0) || negb (uxfd_can_seekM v =? 0)
           || (negb (buffer_activeM v =? 0)
               && ((buffertypeM v =? UXFIO_BUFTYPE_FILE) || (buffertypeM v =? UXFIO_BUFTYPE_DYNAMIC_MEM))))
  end.

(** Whether the unix descriptor is no pipe. *)
Definition unix_seeks (uxfd : Z) : ST W bool :=
  let! r := lseek uxfd 0 SEEK_CUR in
  let! e := gets errno in
  ret (negb ((r =? -1) && (e =? ESPIPE))).

Definition uxfio_opendup (fuel : nat) (uxfd buffertype : Z) : ST W Z :=
  let! uxfio_fd := uxfio_open None 0 0 in
  if uxfio_fd <? 0 then ret uxfio_fd
  else
    let! r := uxfio_fcntl fuel uxfio_fd UXFIO_F_ATTACH_FD uxfd in
    if r <? 0 then ret (-1)
    else
      let! r := table_find uxfio_fd in
      match r with
      | None => ret (-1)
      | Some i =>
          do! upd i (put_did_dupe_fdM uxfd) in
          let! seeks := if uxfd >=? UXFIO_FD_MIN then uxfd_seeks fuel uxfd else unix_seeks uxfd in
          do! upd i (put_uxfd_can_seekM (if seeks then 1 else 0)) in
          let buffered := (buffertype =? UXFIO_BUFTYPE_FILE) || (buffertype =? UXFIO_BUFTYPE_MEM)
                          || (buffertype =? UXFIO_BUFTYPE_DYNAMIC_MEM) in
          let! r := if buffered then uxfio_fcntl fuel uxfio_fd UXFIO_F_SET_BUFTYPE buffertype else ret 0 in
          if r <? 0 then do! uxfio_close fuel uxfio_fd in ret (-1)
          else
            let! r := uxfio_fcntl fuel uxfio_fd UXFIO_F_SET_BUFACTIVE (if buffered then 1 else 0) in
            if r <? 0 then do! uxfio_close fuel uxfio_fd in ret (-1)
            else ret uxfio_fd
      end.

Definition uxfio_espipe (fuel : nat) (uxfio_fildes : Z) : ST W Z :=
  if uxfio_fildes <? UXFIO_FD_MIN then
    let! r := lseek uxfio_fildes 0 SEEK_CUR in
    let! e := gets errno in
    ret (if r =? -1 then if e =? 0 then -1 else e else 0)
  else
    let! r := table_find uxfio_fildes in
    match r with
    | None => ret (-1)
    | Some i =>
        let! u := obj i in
        if uxfd_can_seekM u =? 0 then ret ESPIPE
        else
          let! r := uxfio_fcntl fuel uxfio_fildes UXFIO_F_GET_CANSEEK 0 in
          ret (if r =? 0 then ESPIPE else 0)
    end.

(** The descriptor below, and use_next. *)
Definition uxfio_getfd (uxfio_fildes : Z) (use_next : Z) : ST W (Z * Z) :=
  if uxfio_fildes <? UXFIO_FD_MIN then ret (uxfio_fildes, use_next)
  else
    let! r := table_find uxfio_fildes in
    match r with
    | None => ret (-1, use_next)
    | Some i =>
        let! u := obj i in
        ret (uxfdM u, if negb (buffer_activeM u =? 0) && (posM u <? endM u) then 0 else 1)
    end.

(** ** The stat buffer and the memory of a file *)

Definition UXFIO_IOCTL_SET_STATBUF : Z := -12725.
Definition UXFIO_IOCTL_SET_TMPFILE_ROOTDIR : Z := -12727.

(** What ioctl does with its argument, a constructor per request. *)
Inductive ioctl_request :=
  | SetStatbuf (s : file_stat)
  | SetImembuf (m : bytes) (addr : Z)
  | GetStatbuf
  | SetTmpfileRootdir (dir : bytes)
  | OtherRequest.

(** The result, and what GetStatbuf stores. *)
Definition uxfio_ioctl (uxfio_fd : Z) (request : ioctl_request) : ST W (Z * option file_stat) :=
  let! r := table_find uxfio_fd in
  match r with
  | None => ret (-1, None)
  | Some i =>
      match request with
      | SetStatbuf s =>
          do! upd i (put_statbufM (Some s)) in do! upd i (put_v_endM (st_size s)) in ret (0, None)
      | SetImembuf m addr =>
          do! upd i (fun u => put_bufM m (put_buf_addrM addr u)) in ret (0, None)
      | GetStatbuf => let! u := obj i in ret (0, statbufM u)
      | SetTmpfileRootdir dir => do! upd i (put_tmpfile_rootdirM (Some dir)) in ret (0, None)
      | OtherRequest => ret (-1, None)
      end
  end.

Definition uxfio_fstat (uxfio_fd : Z) : ST W (Z * option file_stat) :=
  let! r := table_find uxfio_fd in
  match r with
  | None => ret (-1, None)
  | Some i =>
      let! u := obj i in
      ret (match statbufM u with None => (-1, None) | Some s => (0, Some s) end)
  end.

(** The block with a NUL behind the data, the length of the data by seeking
    ([buffer_len]), and endM ([buffer_end]). *)
Definition uxfio_get_dynamic_buffer (fuel : nat) (uxfio_fildes : Z) (want_len : bool)
    : ST W (option (bytes * Z * option Z)) :=
  let! r := table_find uxfio_fildes in
  match r with
  | None => ret None
  | Some i =>
      let! u := obj i in
      if buffertypeM u =? UXFIO_BUFTYPE_DYNAMIC_MEM then
        let! m := lift (mem_write (bufM u) (lenM u) [NUL]) in
        let! m := lift (mem_write m (endM u) [NUL]) in
        do! upd i (put_bufM m) in
        let! len :=
          if want_len then
            let seek := uxfio_lseek fuel uxfio_fildes in
            let! curpos := seek 0 SEEK_CUR in
            do! seek 0 SEEK_END in
            let! len := seek 0 SEEK_CUR in
            do! seek curpos SEEK_SET in
            ret (Some len)
          else ret None in
        let! u := obj i in
        ret (Some (bufM u, endM u, len))
      else ret None
  end.

Definition uxfio_get_fd_mem (fuel : nat) (uxfio_fildes : Z) (want_len : bool)
    : ST W (option (bytes * option Z)) :=
  let! r := uxfio_get_dynamic_buffer fuel uxfio_fildes want_len in
  ret (match r with Some (s, _, len) => Some (s, len) | None => None end).
End Functions.
