(* ===== verification/UxfioTable.v ===== *)
(** * The table of uxfio descriptors: what every function keeps

    After any sequence of calls the table is well formed, so that a descriptor is
    the number of its slot, and the object of every open slot holds its
    descriptor. *)

From S2P Require Import Prelude CString Strob Strar Escape Effects UxfioState Uxfio.

#[local] Open Scope effects_scope.

Section Table.
Context {K : Type} `{Kernel K} `{Malloc} {heap : Heap}.
Abbreviation W := (World K).
Implicit Types (w : W) (u : UXFIO) (i j : nat) (fd : Z).

(** ** The invariant *)

Definition slot_ok (i : nat) (s : Slot) : Prop :=
  (slot_desc s = 0 \/ slot_desc s = UXFIO_FD_MIN + Z.of_nat i)
  /\ (slot_status s = true -> slot_desc s = UXFIO_FD_MIN + Z.of_nat i /\ is_Some (slot_file s)).

(** Every slot holds its own number or none, and an object while it is open;
    the table has its length; once something was open the table was set up. *)
Definition table_ok (w : W) : Prop :=
  length (slots w) = Z.to_nat UXFIO_MAX_OPEN
  /\ (last_used w < Z.to_nat UXFIO_MAX_OPEN)%nat
  /\ (forall i s, slots w !! i = Some s -> slot_ok i s)
  /\ (did_init w = false -> Forall (fun s => slot_status s = false) (slots w)).

(** The object of every open slot knows its descriptor (uxfio_fildesM). *)
Definition knows_descriptor (s : Slot) : Prop :=
  slot_status s = true -> exists u, slot_file s = Some u /\ uxfio_fildesM u = slot_desc s.

Definition table_known (w : W) : Prop := forall i s, slots w !! i = Some s -> knows_descriptor s.

(** A run from a well-formed table leaves one, whose objects know their
    descriptors if they did before. *)
Definition keeps_table (w w' : W) : Prop := table_ok w -> table_ok w' /\ (table_known w -> table_known w').

Instance keeps_table_preorder : PreOrder keeps_table.
Proof. split; [by intros w T|]. intros w1 w2 w3 H12 H23 [T2 K2]%H12. destruct (H23 T2) as [T3 K3]. auto. Qed.

Lemma set_object_table i u w : table_ok w -> table_ok (set_object i u w).
Proof.
  intros (Hn & Hl & Hs & Hi). unfold set_object. destruct (slots w !! i) as [s|] eqn:E; [|done].
  split; [cbn; by rewrite length_insert|]. split; [done|]. split.
  - cbn. intros j t. destruct (decide (i = j)) as [<-|Hj].
    + rewrite list_lookup_insert_eq by (by eapply lookup_lt_Some). intros [= <-].
      destruct (Hs i s E) as [H1 H2]. split; [done|]. cbn. intros Ho. split; [by apply H2|]. by eexists.
    + rewrite list_lookup_insert_ne by done. apply Hs.
  - cbn. intros Hd. specialize (Hi Hd). apply Forall_insert; [done|]. cbn.
    rewrite Forall_lookup in Hi. by apply (Hi i s).
Qed.

Lemma known_insert w i s : table_known w -> knows_descriptor s -> table_known (put_slots (<[i := s]> (slots w)) w).
Proof. intros Hw Hs j t Ht%list_lookup_insert_Some. destruct Ht as [(_ & <- & _)|[_ Ht]]; [done|]. by eapply Hw. Qed.

Lemma set_object_known i u v w : object w i = Some v -> uxfio_fildesM u = uxfio_fildesM v ->
  table_known w -> table_known (set_object i u w).
Proof.
  unfold object, set_object. destruct (slots w !! i) as [s|] eqn:E; cbn; [|done]. intros Hv Hu Hw.
  apply known_insert; [done|]. intros Ho. destruct (Hw i s E Ho) as (v' & Hv' & Hd). exists u. split; [done|]. cbn.
  rewrite Hv in Hv'. injection Hv' as [= <-]. congruence.
Qed.

(** No function gives an object another descriptor. *)
Lemma upd_keeps i (f : UXFIO -> UXFIO) : (forall u, uxfio_fildesM (f u) = uxfio_fildesM u) -> keeps keeps_table (upd (K := K) i f).
Proof.
  intros Hf. apply keeps_updates. intros w w'. destruct (object w i) as [u|] eqn:E; cbn; [|done]. intros [= <-] T.
  split; [by apply set_object_table|]. by eapply set_object_known.
Qed.

Lemma obj_keeps i : keeps keeps_table (obj (K := K) i).
Proof. apply keeps_reads; apply _. Qed.

Lemma call_keeps {A} (f : K -> K * (A + Z)) : keeps keeps_table (call f).
Proof.
  intros w w' a. unfold runs, call. destruct (f (sys w)) as [k [b|e]]; intros [= <- _]; intros (Hn & Hl & Hs & Hi);
    (split; [by split_and!|exact id]).
Qed.

Lemma alloc_file_keeps i : keeps keeps_table (alloc_file (K := K) i).
Proof.
  apply keeps_updates. intros w w'. destruct (slots w !! i) as [s|] eqn:E; cbn; [|done]. intros [= <-].
  destruct (slot_file s) as [u|] eqn:Ef; [done|]. intros T. pose proof (set_object_table i fresh_UXFIO w T) as T'.
  unfold set_object in T'. rewrite E in T'. split; [done|]. intros Hw. apply known_insert; [done|]. intros Ho.
  destruct (Hw i s E Ho) as (u & Hu & _). congruence.
Qed.

Ltac same_descriptor :=
  match goal with
  | |- uxfio_fildesM _ = uxfio_fildesM _ =>
      solve [unfold raise_end, set_veof, reset_veof, buffer_full; cbv zeta;
             repeat match goal with |- context [if ?b then _ else _] => destruct b end; reflexivity]
  end.
#[local] Hint Extern 0 (uxfio_fildesM _ = uxfio_fildesM _) => same_descriptor : shape.
#[local] Hint Resolve upd_keeps obj_keeps call_keeps alloc_file_keeps : shape.

Lemma call_int_keeps f : keeps keeps_table (call_int (K := K) f).
Proof. unfold call_int. keep. Qed.
#[local] Hint Resolve call_int_keeps : shape.

Lemma first_slot_Some p (l : list Slot) i : first_slot p l = Some i ->
  exists s, l !! i = Some s /\ p s = true /\ forall j t, l !! j = Some t -> (j < i)%nat -> p t = false.
Proof.
  revert i. induction l as [|s l IH]; intros i; [done|]. cbn. destruct (p s) eqn:Ep.
  - intros [= <-]. exists s. split_and!; [done..|]. intros j t _ Hj. lia.
  - destruct (first_slot p l) as [k|]; [|done]. intros [= <-]. destruct (IH k eq_refl) as (t & Ht & Hp & Hb).
    exists t. split_and!; [done..|]. intros [|j] t' Hl Hj; [by injection Hl as <-|]. eapply Hb; [done|lia].
Qed.

Lemma first_slot_None p (l : list Slot) : first_slot p l = None -> Forall (fun s => p s = false) l.
Proof.
  induction l as [|s l IH]; [constructor|]. cbn. destruct (p s) eqn:Ep; [done|].
  destruct (first_slot p l); [done|]. constructor; auto.
Qed.


(** ** Finding a descriptor *)

(** [fd] is the open descriptor of slot [i]. *)
Definition opened (w : W) (fd : Z) (i : nat) : Prop :=
  fd = UXFIO_FD_MIN + Z.of_nat i /\ exists s, slots w !! i = Some s /\ slot_status s = true.

Lemma slot_bound w i s : table_ok w -> slots w !! i = Some s -> Z.of_nat i < UXFIO_MAX_OPEN.
Proof. intros (Hn & _) Hi%lookup_lt_Some. rewrite Hn in Hi. unfold UXFIO_MAX_OPEN in *. lia. Qed.

Lemma alloc_file_open w i s : table_ok w -> slots w !! i = Some s -> slot_status s = true -> runs (alloc_file i) w w ().
Proof.
  intros (_ & _ & Hs & _) Hi Ho. apply runs_updates. rewrite Hi. cbn. destruct (Hs i s Hi) as [_ Hf].
  destruct (Hf Ho) as [_ [u ->]]. done.
Qed.

Lemma table_find_open w fd i : table_ok w -> opened w fd i -> runs (table_find fd) w (put_last i w) (Some i).
Proof.
  intros T [-> (s & Hi & Ho)]. pose proof T as (Hn & Hl & Hs & _). unfold table_find.
  eapply runs_bind; [apply runs_gets|]. destruct (lookup_lt_is_Some_2 (slots w) (last_used w)) as [t Ht]; [by rewrite Hn|].
  eapply runs_bind; [by apply runs_lift|]. cbn [id]. destruct (slot_is _ t && slot_status t) eqn:E.
  - apply andb_true_iff in E as [Ed Es]. unfold slot_is in Ed. zbool. destruct (Hs _ t Ht) as [_ Hd].
    destruct (Hd Es) as [Hd' _]. assert (last_used w = i) as El by lia.
    eapply runs_bind; [by eapply alloc_file_open|]. rewrite El. replace (put_last i w) with w by (destruct w; cbn in *; by subst).
    apply runs_ret.
  - pose proof (slot_bound w i s T Hi). unfold UXFIO_FD_MIN in *. ztest.
    destruct (first_slot _ (slots w)) as [k|] eqn:Ek.
    + apply first_slot_Some in Ek as (s' & Hk & Hp & _). unfold slot_is in Hp. zbool.
      assert (k = i) as ->.
      { destruct (Hs k s' Hk) as [[Hd|Hd] _]; unfold UXFIO_FD_MIN in *; lia. }
      assert (s' = s) as -> by congruence. eapply runs_bind; [by apply runs_lift|]. rewrite Ho.
      eapply runs_bind; [by eapply alloc_file_open|]. eapply runs_bind; [apply runs_modify|]. apply runs_ret.
    + apply first_slot_None in Ek. rewrite Forall_lookup in Ek. specialize (Ek i s Hi). unfold slot_is in Ek. zbool.
      destruct (Hs i s Hi) as [_ Hd]. destruct (Hd Ho) as [Hd' _]. unfold UXFIO_FD_MIN in *. lia.
Qed.

Lemma table_find_closed w fd : table_ok w -> (forall i, ~ opened w fd i) -> runs (table_find fd) w w None.
Proof.
  intros T Hno. pose proof T as (Hn & Hl & Hs & _). unfold table_find.
  eapply runs_bind; [apply runs_gets|]. destruct (lookup_lt_is_Some_2 (slots w) (last_used w)) as [t Ht]; [by rewrite Hn|].
  assert (N : forall i s, slots w !! i = Some s -> slot_is fd s = true -> slot_status s = false).
  { intros i s Hi Hf. destruct (slot_status s) eqn:Eo; [|done]. exfalso. apply (Hno i). destruct (Hs i s Hi) as [_ Hd].
    destruct (Hd Eo) as [Hd' _]. unfold slot_is in Hf. zbool. split; [lia|]. by exists s. }
  eapply runs_bind; [by apply runs_lift|]. cbn [id]. destruct (slot_is fd t) eqn:Et.
  - rewrite (N _ t Ht Et). cbn [andb]. destruct (_ && _); [|apply runs_ret].
    destruct (first_slot _ (slots w)) as [k|] eqn:Ek; [|apply runs_ret].
    apply first_slot_Some in Ek as (s' & Hk & Hp & _). eapply runs_bind; [by apply runs_lift|]. rewrite (N k s' Hk Hp). apply runs_ret.
  - cbn [andb]. destruct (_ && _); [|apply runs_ret].
    destruct (first_slot _ (slots w)) as [k|] eqn:Ek; [|apply runs_ret].
    apply first_slot_Some in Ek as (s' & Hk & Hp & _). eapply runs_bind; [by apply runs_lift|]. rewrite (N k s' Hk Hp). apply runs_ret.
Qed.

(** Whether a descriptor is open can be computed. *)
Lemma opened_dec w fd : (exists i, opened w fd i) \/ (forall i, ~ opened w fd i).
Proof.
  destruct (decide (UXFIO_FD_MIN <= fd)) as [Hge|Hlt].
  - set (i := Z.to_nat (fd - UXFIO_FD_MIN)). assert (Ei : fd = UXFIO_FD_MIN + Z.of_nat i) by lia.
    destruct (slots w !! i) as [s|] eqn:E; [destruct (slot_status s) eqn:Eo|].
    + left. exists i. split; [done|]. by exists s.
    + right. intros j [Hj (t & Ht & Hto)]. assert (j = i) as -> by lia. congruence.
    + right. intros j [Hj (t & Ht & Hto)]. assert (j = i) as -> by lia. congruence.
  - right. intros j [Hj _]. lia.
Qed.

Lemma table_find_keeps fd : keeps keeps_table (table_find (K := K) fd).
Proof.
  intros w w' r R T. destruct (opened_dec w fd) as [[i Ho]|Hno].
  - destruct (runs_det _ _ _ _ _ _ R (table_find_open w fd i T Ho)) as [-> _].
    destruct Ho as [_ (s & Hi & _)]. destruct T as (Hn & Hl & Hs & Hd). split; [|exact id]. split_and!; [done| |done|done].
    cbn. apply lookup_lt_Some in Hi. by rewrite Hn in Hi.
  - by destruct (runs_det _ _ _ _ _ _ R (table_find_closed w fd T Hno)) as [-> _].
Qed.
#[local] Hint Resolve table_find_keeps : shape.

(** ** Adding and removing *)

Lemma put_status_closed w w' i fd : runs (put_status i false fd) w w' () ->
  (fd = 0 \/ fd = UXFIO_FD_MIN + Z.of_nat i) -> keeps_table w w'.
Proof.
  unfold put_status, runs, updates. destruct (slots w !! i) as [s|] eqn:E; cbn; [|done]. intros [= <-] Hfd (Hn & Hl & Hs & Hd).
  split; [|intros Hw; by apply known_insert]. split; [cbn; by rewrite length_insert|]. split; [done|]. split.
  - cbn. intros j t. destruct (decide (i = j)) as [<-|Hj].
    + rewrite list_lookup_insert_eq by (by eapply lookup_lt_Some). intros [= <-]. by split.
    + rewrite list_lookup_insert_ne by done. apply Hs.
  - cbn. intros Hi. specialize (Hd Hi). by apply Forall_insert.
Qed.

Lemma table_remove_keeps fd : keeps keeps_table (table_remove (K := K) fd).
Proof.
  intros w w' r R T. unfold table_remove in R. apply runs_bind_inv in R as (? & ? & [= <- <-] & R). cbn [id] in R.
  destruct (first_slot _ (slots w)) as [i|] eqn:Ei; [|by injection R as [= <- _]].
  apply first_slot_Some in Ei as (s & Hi & _). apply runs_bind_inv in R as (w1 & t & R1 & R).
  unfold runs, lift in R1. rewrite Hi in R1. injection R1 as [= <- <-].
  destruct (slot_status s); [|by injection R as [= <- _]].
  apply runs_bind_inv in R as (w2 & [] & R2 & [= <- _]). eapply put_status_closed; [exact R2| |done].
  pose proof T as (_ & _ & Hs & _). by destruct (Hs i s Hi) as [Hd _].
Qed.
#[local] Hint Resolve table_remove_keeps : shape.

(** The table with slot [i] open for a new object. *)
Definition add_slot (i : nat) (w : W) : W :=
  put_slots (<[i := mkSlot true (UXFIO_FD_MIN + Z.of_nat i)
                      (Some (default fresh_UXFIO (s ← slots w !! i; slot_file s)))]> (slots w)) w.

Lemma table_add_run w : did_init w = true -> table_ok w ->
  match first_slot (fun s => negb (slot_status s)) (slots w) with
  | None => runs table_add w w None
  | Some i => runs table_add w (add_slot i w) (Some (UXFIO_FD_MIN + Z.of_nat i, i)) /\ table_ok (add_slot i w)
  end.
Proof.
  intros Hd (Hn & Hl & Hs & _). destruct (first_slot _ (slots w)) as [i|] eqn:Ei.
  - pose proof Ei as (s & Hi & _)%first_slot_Some. pose proof (lookup_lt_Some _ _ _ Hi) as Hb. split.
    + unfold table_add. eapply runs_bind; [apply runs_gets|]. cbn [id]. rewrite Ei.
      eapply runs_bind; [by apply runs_updates; rewrite Hi|].
      eapply runs_bind; [|apply runs_ret]. apply runs_updates. cbn. rewrite list_lookup_insert_eq by done. cbn.
      unfold add_slot. rewrite Hi. cbn. destruct (slot_file s); [done|]. cbn. by rewrite list_insert_insert_eq.
    + unfold add_slot. split; [cbn; by rewrite length_insert|]. split; [done|]. split; [|cbn; congruence].
      cbn. intros j t. destruct (decide (i = j)) as [<-|Hj].
      * rewrite list_lookup_insert_eq by done. intros [= <-]. split; [by right|]. intros _. split; [done|]. by eexists.
      * rewrite list_lookup_insert_ne by done. apply Hs.
  - unfold table_add. eapply runs_bind; [apply runs_gets|]. cbn [id]. rewrite Ei. apply runs_ret.
Qed.

(** The world that internal_uxfio_open adds a descriptor to. *)
Definition table_prepared (w : W) : W :=
  if did_init w then w
  else put_init true (put_slots ((fun s => mkSlot (slot_status s) (slot_desc s) None) <$> slots w) w).

Lemma prepared_run w : runs (when (negb (did_init w)) table_init) w (table_prepared w) ().
Proof.
  unfold table_prepared. destruct (did_init w); [apply runs_when_false|]. cbn [negb when]. unfold table_init.
  eapply runs_bind; [apply runs_modify|]. apply runs_modify.
Qed.

Lemma prepared_ok w : table_ok w -> table_ok (table_prepared w) /\ did_init (table_prepared w) = true.
Proof.
  intros T. unfold table_prepared. destruct (did_init w) eqn:E; [done|]. destruct T as (Hn & Hl & Hs & Hd). split; [|done].
  specialize (Hd E). rewrite Forall_lookup in Hd. split; [cbn; by rewrite length_fmap|]. split; [done|]. split; [|done].
  cbn. intros i t. rewrite list_lookup_fmap. destruct (slots w !! i) as [s|] eqn:Ei; [|done]. intros [= <-].
  destruct (Hs i s Ei) as [H1 _]. split; [done|]. cbn. by rewrite (Hd i s Ei).
Qed.

(** The new object: internal_uxfio_open stores the descriptor in it. *)
Lemma opened_known w i u : table_known w ->
  table_known (set_object i (internal_init (UXFIO_FD_MIN + Z.of_nat i) u) (add_slot i w)).
Proof.
  intros Hw. unfold set_object, add_slot. cbn. destruct (_ !! i) as [s|] eqn:E; [|].
  - apply list_lookup_insert_Some in E as [(_ & <- & _)|[Hi _]]; [|done]. cbn. rewrite list_insert_insert_eq.
    apply (known_insert w); [done|]. by eexists.
  - rewrite list_insert_id'; [done|]. intros Hi. by rewrite list_lookup_insert_eq in E.
Qed.

Lemma prepared_known w : table_ok w -> table_known w -> table_known (table_prepared w).
Proof.
  intros (_ & _ & _ & Hd) Hw. unfold table_prepared. destruct (did_init w) eqn:E; [done|]. intros i t. cbn.
  rewrite list_lookup_fmap. destruct (slots w !! i) as [s|] eqn:Ei; [|done]. intros [= <-] Ho. cbn in Ho.
  specialize (Hd eq_refl). rewrite Forall_lookup in Hd. specialize (Hd i s Ei). congruence.
Qed.

Lemma internal_open_keeps : keeps keeps_table (internal_uxfio_open (K := K)).
Proof.
  intros w w' r R T. unfold internal_uxfio_open in R. apply runs_bind_inv in R as (? & ? & [= <- <-] & R).
  apply runs_bind_inv in R as (w1 & [] & R1 & R). destruct (runs_det _ _ _ _ _ _ R1 (prepared_run w)) as [-> _].
  destruct (prepared_ok w T) as [T1 D1]. apply runs_bind_inv in R as (w2 & a & R2 & R).
  pose proof (table_add_run _ D1 T1) as A. destruct (first_slot _ _) as [i|].
  - destruct A as [A T2]. destruct (runs_det _ _ _ _ _ _ R2 A) as [-> ->].
    apply runs_bind_inv in R as (w3 & [] & R3 & [= <- _]). unfold runs, upd, updates in R3.
    destruct (object _ i) as [u|]; [|done]. injection R3 as [= <-]. split; [by apply set_object_table|].
    intros Hw. apply opened_known. by apply prepared_known.
  - destruct (runs_det _ _ _ _ _ _ R2 A) as [-> ->]. injection R as [= <- _]. split; [done|]. by apply prepared_known.
Qed.
#[local] Hint Resolve internal_open_keeps : shape.

(** ** Every function keeps the table well formed *)

Abbreviation kept m := (keeps (S := W) keeps_table m).

Ltac kept := unfold read, write, lseek, close, fsync, ftruncate, fcntl, open, unlink, uxfio__change_state; keep.

Lemma safeio_keeps fuel f : kept f -> kept (safeio fuel f).
Proof. intros Hf. induction fuel as [|fuel IH]; cbn [safeio]; keep. Qed.

Lemma atomicio_keeps fuel f n : (forall pos rq, kept (f pos rq)) -> kept (atomicio fuel f n).
Proof.
  intros Hf. unfold atomicio. generalize 0, (@nil ascii).
  induction fuel as [|fuel IH]; intros pos s; cbn [atomicio_loop]; keep; by apply safeio_keeps.
Qed.
#[local] Hint Resolve safeio_keeps atomicio_keeps : shape.

Lemma enforce_veof_keeps i n : kept (enforce_veof i n).
Proof. unfold enforce_veof. kept. Qed.
Lemma bufferstate_keeps i : kept (bufferstate i).
Proof. unfold bufferstate. kept. Qed.
#[local] Hint Resolve enforce_veof_keeps bufferstate_keeps : shape.

Lemma uxfio_open_keeps path oflag mode : kept (uxfio_open path oflag mode).
Proof. unfold uxfio_open. kept. Qed.
Lemma incr_keeps fd : kept (uxfio_incr_use_count fd).
Proof. unfold uxfio_incr_use_count. kept. Qed.
Lemma decr_keeps fd : kept (uxfio_decr_use_count fd).
Proof. unfold uxfio_decr_use_count. kept. Qed.
#[local] Hint Resolve uxfio_open_keeps incr_keeps decr_keeps : shape.

(** *** Writing *)

Lemma safe_write_keeps fuel fd buf : kept (uxfio_unix_safe_write fuel fd buf).
Proof. unfold uxfio_unix_safe_write. kept. apply safeio_keeps. kept. Qed.
Lemma fix_dynamic_keeps i t p n : kept (fix_dynamic_buffer i t p n).
Proof. unfold fix_dynamic_buffer. kept. Qed.
#[local] Hint Resolve safe_write_keeps fix_dynamic_keeps : shape.

Section Below.
Context (uxfio_write : Z -> bytes -> ST W Z) (Hwrite : forall fd buf, kept (uxfio_write fd buf)).
#[local] Hint Resolve Hwrite : shape.

Lemma write_block_keeps rounds fd p r : kept (write_block rounds uxfio_write fd p r).
Proof. revert p r. induction rounds as [|rounds IH]; intros p r; cbn [write_block]; kept. Qed.
#[local] Hint Resolve write_block_keeps : shape.

Lemma full_blocks_keeps fuel rounds i bs p a b : kept (full_blocks fuel rounds uxfio_write i bs p a b).
Proof. revert p a b. induction rounds as [|rounds IH]; intros p a b; cbn [full_blocks]; kept. Qed.
#[local] Hint Resolve full_blocks_keeps : shape.

Lemma buffered_write_keeps fuel i buf : kept (do_buffered_write2 fuel uxfio_write i buf).
Proof. unfold do_buffered_write2. kept. Qed.
#[local] Hint Resolve buffered_write_keeps : shape.

Lemma buffered_flush_keeps fuel i : kept (do_buffered_flush fuel uxfio_write i).
Proof. unfold do_buffered_flush. kept. Qed.

Lemma write_object_keeps fuel i buf : kept (write_object fuel uxfio_write i buf).
Proof. unfold write_object, write_file, write_dynamic, insert_gap. kept. Qed.
End Below.
#[local] Hint Resolve write_object_keeps buffered_flush_keeps : shape.

Lemma uxfio_write_keeps fuel fd buf : kept (uxfio_write fuel fd buf).
Proof. revert fd buf. induction fuel as [|fuel IH]; intros fd buf; cbn [uxfio_write]; kept. Qed.
#[local] Hint Resolve uxfio_write_keeps : shape.

Lemma flush_keeps fuel i : kept (do_buffered_flush fuel (uxfio_write fuel) i).
Proof. kept. Qed.
Lemma atomic_write_keeps fuel fd buf : kept (uxfio_unix_atomic_write fuel fd buf).
Proof. unfold uxfio_unix_atomic_write, write_from. destruct (_ && _); kept; apply atomicio_keeps; intros; kept. Qed.
Lemma zero_fill_keeps fuel fd n : kept (zero_fill fuel fd n).
Proof. revert n. induction fuel as [|fuel IH]; intros n; cbn [zero_fill]; kept. Qed.
#[local] Hint Resolve flush_keeps atomic_write_keeps zero_fill_keeps : shape.

(** *** The buffer file, controls *)

Lemma delete_file_keeps i : kept (uxfio__delete_buffer_file i).
Proof. unfold uxfio__delete_buffer_file, uxfio__unlink_tmpfile. kept. Qed.
Lemma init_file_keeps fuel i buf len : kept (uxfio__init_buffer_file fuel i buf len).
Proof. unfold uxfio__init_buffer_file, fill_buffer_file, uxfio__unlink_tmpfile. kept. Qed.
#[local] Hint Resolve delete_file_keeps init_file_keeps : shape.

Lemma set_buffer_length_keeps i v : kept (set_buffer_length i v).
Proof. unfold set_buffer_length. kept. Qed.
Lemma set_bufactive_keeps fuel i v : kept (set_bufactive fuel i v).
Proof. unfold set_bufactive. kept. Qed.
Lemma file_to_memory_keeps i : kept (file_to_memory i).
Proof. unfold file_to_memory. kept. Qed.
Lemma do_mem_realloc_keeps i v : kept (do_mem_realloc i v).
Proof. unfold do_mem_realloc. kept. Qed.
Lemma set_output_keeps i v : kept (set_output_block_size i v).
Proof. unfold set_output_block_size. kept. Qed.
#[local] Hint Resolve set_buffer_length_keeps set_bufactive_keeps file_to_memory_keeps do_mem_realloc_keeps
  set_output_keeps : shape.

Lemma uxfio_fcntl_keeps fuel fd cmd v : kept (uxfio_fcntl fuel fd cmd v).
Proof.
  revert fd cmd v. induction fuel as [|fuel IH]; intros fd cmd v; cbn [uxfio_fcntl]; [apply keeps_out_of_fuel|].
  assert (forall i, kept (set_buftype (S fuel) (uxfio_fcntl fuel) fd i v)) by (intros i; unfold set_buftype; kept).
  kept.
Qed.
#[local] Hint Resolve uxfio_fcntl_keeps : shape.

(** *** Reading *)

Lemma fix_buffer_keeps fuel i t p n : kept (fix_buffer fuel i t p n).
Proof. unfold fix_buffer, fix_buffer_file. kept. Qed.
#[local] Hint Resolve fix_buffer_keeps : shape.

Section BelowRead.
Context (common_read : Z -> Z -> bool -> ST W (Z * bytes)) (Hread : forall fd n b, kept (common_read fd n b)).
Context (fuel : nat).
#[local] Hint Resolve Hread : shape.

Lemma read_below_keeps fd n : kept (read_below fuel common_read fd n).
Proof. unfold read_below. kept. apply safeio_keeps. kept. Qed.
#[local] Hint Resolve read_below_keeps : shape.

Lemma safe_read_keeps fd n : kept (unix_safe_read_below fuel common_read fd n).
Proof. unfold unix_safe_read_below. kept. apply safeio_keeps. kept. Qed.
#[local] Hint Resolve safe_read_keeps : shape.

Lemma common_safe_read_keeps fd n : kept (uxfio_common_safe_read fuel common_read fd n).
Proof.
  unfold uxfio_common_safe_read. generalize fuel at 1. intros rounds. generalize 0, 1, (@nil ascii).
  induction rounds as [|rounds IH]; intros a r s; cbn [common_safe_read_loop]; kept.
Qed.
#[local] Hint Resolve common_safe_read_keeps : shape.

Lemma foo_read_keeps u b n : kept (foo_read fuel common_read u b n).
Proof.
  unfold foo_read, sfread_below, uxfio_unix_safe_atomic_read. kept. apply atomicio_keeps. intros. kept.
Qed.
#[local] Hint Resolve foo_read_keeps : shape.

Lemma take_buffered_keeps i n : kept (take_buffered fuel i n).
Proof. unfold take_buffered. kept. apply atomicio_keeps. intros. kept. Qed.
#[local] Hint Resolve take_buffered_keeps : shape.

Lemma read_object_keeps fd i n b : kept (read_object fuel common_read fd i n b).
Proof. unfold read_object, read_through, read_buffered, read_at_end. kept. Qed.
End BelowRead.
#[local] Hint Resolve read_object_keeps read_below_keeps common_safe_read_keeps safe_read_keeps : shape.

Lemma common_read_keeps fuel fd n b : kept (uxfio_common_read fuel fd n b).
Proof. revert fd n b. induction fuel as [|fuel IH]; intros fd n b; cbn [uxfio_common_read]; kept. Qed.
#[local] Hint Resolve common_read_keeps : shape.

Lemma uxfio_read_keeps fuel fd n : kept (uxfio_read fuel fd n).
Proof. unfold uxfio_read. kept. Qed.
Lemma sfa_read_keeps fuel fd n : kept (uxfio_sfa_read fuel fd n).
Proof. unfold uxfio_sfa_read, uxfio_unix_atomic_read. kept. apply atomicio_keeps. intros. kept. Qed.
Lemma sfread_keeps fuel fd n : kept (uxfio_sfread fuel fd n).
Proof. unfold uxfio_sfread, sfread_below. kept. Qed.
#[local] Hint Resolve uxfio_read_keeps : shape.

Lemma read_bytes_keeps fuel fd n : kept (uxfio__read_bytes fuel fd n).
Proof.
  unfold uxfio__read_bytes. generalize fuel at 1. intros rounds. generalize (to_int n), 0.
  induction rounds as [|rounds IH]; intros a h; cbn [read_bytes_loop]; kept.
Qed.
#[local] Hint Resolve read_bytes_keeps : shape.

(** *** Positions, truncation, closing *)

Lemma lseek_target_keeps i o p : kept (lseek_target i o p).
Proof. unfold lseek_target, lseek_set, lseek_end. kept. Qed.
Lemma lseek_move_keeps fuel fd i po pw o wh v : kept (lseek_move fuel fd i po pw o wh v).
Proof. unfold lseek_move, move_within, move_virtual, move_beyond, move_nowhere. kept. Qed.
#[local] Hint Resolve lseek_target_keeps lseek_move_keeps : shape.

Lemma uxfio_lseek_keeps fuel fd o wh : kept (uxfio_lseek fuel fd o wh).
Proof. revert fd o wh. induction fuel as [|fuel IH]; intros fd o wh; cbn [uxfio_lseek]; kept. Qed.
#[local] Hint Resolve uxfio_lseek_keeps : shape.

Lemma uxfio_ftruncate_keeps fuel fd n : kept (uxfio_ftruncate fuel fd n).
Proof. unfold uxfio_ftruncate, uxfio_internal_ftruncate, truncate_dynamic, grow_compound. kept. Qed.
Lemma uxfio_fsync_keeps fuel fd : kept (uxfio_fsync fuel fd).
Proof.
  unfold uxfio_fsync. generalize fuel at 2. intros rounds. revert fd.
  induction rounds as [|rounds IH]; intros fd; cbn [fsync_chain]; kept.
Qed.
Lemma internal_close_keeps i : kept (internal_uxfio_close i).
Proof. unfold internal_uxfio_close. kept. Qed.
#[local] Hint Resolve internal_close_keeps : shape.

Lemma close_object_keeps fuel fd b : kept (uxfio__close fuel fd b).
Proof. revert fd b. induction fuel as [|fuel IH]; intros fd b; cbn [uxfio__close]; kept. Qed.
#[local] Hint Resolve close_object_keeps : shape.

Lemma uxfio_close_keeps fuel fd : kept (uxfio_close fuel fd).
Proof. unfold uxfio_close. kept. Qed.
Lemma uxfio_free_keeps fuel fd : kept (uxfio_free fuel fd).
Proof. unfold uxfio_free. kept. Qed.
#[local] Hint Resolve uxfio_close_keeps : shape.

Lemma uxfio_opendup_keeps fuel fd t : kept (uxfio_opendup fuel fd t).
Proof. unfold uxfio_opendup, uxfd_seeks, unix_seeks. kept. Qed.
Lemma uxfio_ioctl_keeps fd r : kept (uxfio_ioctl fd r).
Proof. unfold uxfio_ioctl. kept. Qed.
Lemma get_dynamic_keeps fuel fd b : kept (uxfio_get_dynamic_buffer fuel fd b).
Proof. unfold uxfio_get_dynamic_buffer. kept. Qed.

(** ** Sequences of calls *)

(** The calls of uxfio.h that change the tables or an object. *)
Inductive api :=
  | Open (path : option bytes) (oflag mode : Z)
  | Opendup (fd buftype : Z)
  | Close (fd : Z)
  | Free (fd : Z)
  | Read (fd n : Z)
  | SfaRead (fd n : Z)
  | SfRead (fd n : Z)
  | Write (fd : Z) (buf : bytes)
  | Lseek (fd offset whence : Z)
  | Ftruncate (fd n : Z)
  | Fcntl (fd cmd value : Z)
  | Ioctl (fd : Z) (request : ioctl_request)
  | Fsync (fd : Z)
  | IncrUseCount (fd : Z)
  | DecrUseCount (fd : Z)
  | GetDynamicBuffer (fd : Z) (want_len : bool).

Definition perform (fuel : nat) (c : api) : ST W () :=
  let ignore {A} (m : ST W A) : ST W () := do! m in ret () in
  match c with
  | Open path oflag mode => ignore (uxfio_open path oflag mode)
  | Opendup fd t => ignore (uxfio_opendup fuel fd t)
  | Close fd => ignore (uxfio_close fuel fd)
  | Free fd => ignore (uxfio_free fuel fd)
  | Read fd n => ignore (uxfio_read fuel fd n)
  | SfaRead fd n => ignore (uxfio_sfa_read fuel fd n)
  | SfRead fd n => ignore (uxfio_sfread fuel fd n)
  | Write fd buf => ignore (uxfio_write fuel fd buf)
  | Lseek fd offset whence => ignore (uxfio_lseek fuel fd offset whence)
  | Ftruncate fd n => ignore (uxfio_ftruncate fuel fd n)
  | Fcntl fd cmd value => ignore (uxfio_fcntl fuel fd cmd value)
  | Ioctl fd request => ignore (uxfio_ioctl fd request)
  | Fsync fd => ignore (uxfio_fsync fuel fd)
  | IncrUseCount fd => ignore (uxfio_incr_use_count fd)
  | DecrUseCount fd => ignore (uxfio_decr_use_count fd)
  | GetDynamicBuffer fd b => ignore (uxfio_get_dynamic_buffer fuel fd b)
  end.

(** The states a process can be in: it starts with empty tables, makes calls,
    and the system changes on its own in between. *)
Inductive reachable : W -> Prop :=
  | reach_start k : reachable (initial_world k)
  | reach_call w w' fuel c : reachable w -> runs (perform fuel c) w w' () -> reachable w'
  | reach_system w k e : reachable w -> reachable (put_errno e (put_sys k w)).

#[local] Hint Resolve uxfio_opendup_keeps uxfio_free_keeps sfa_read_keeps sfread_keeps uxfio_ftruncate_keeps uxfio_ioctl_keeps
  uxfio_fsync_keeps get_dynamic_keeps : shape.

Lemma perform_keeps fuel c : kept (perform fuel c).
Proof. destruct c; cbn [perform]; kept. Qed.

Lemma initial_ok k : table_ok (initial_world k).
Proof.
  split; [apply length_replicate|]. split; [unfold UXFIO_MAX_OPEN; cbn; lia|]. split.
  - intros i s (-> & _)%lookup_replicate. split; [by left|done].
  - intros _. rewrite Forall_lookup. by intros i s (-> & _)%lookup_replicate.
Qed.

Lemma reachable_table w : reachable w -> table_ok w /\ table_known w.
Proof.
  induction 1 as [k|w w' fuel c _ [T Hw] R|w k e _ [T Hw]].
  - split; [apply initial_ok|]. by intros i s (-> & _)%lookup_replicate.
  - destruct (perform_keeps _ _ _ _ _ R T) as [T' K']. auto.
  - split; [|done]. destruct T as (Hn & Hl & Hs & Hd). by split_and!.
Qed.

Lemma reachable_ok w : reachable w -> table_ok w.
Proof. apply reachable_table. Qed.

Lemma known_object w fd i : table_ok w -> table_known w -> opened w fd i ->
  exists u, object w i = Some u /\ uxfio_fildesM u = fd.
Proof.
  intros (_ & _ & Hs & _) Hw [-> (s & Hi & Ho)]. destruct (Hw i s Hi Ho) as (u & Hu & Hd). exists u.
  unfold object. rewrite Hi. cbn. split; [done|]. destruct (Hs i s Hi) as [_ [E _]]; [done|]. congruence.
Qed.

(** The new descriptor has a slot that was closed, the only one that changes. *)
Lemma internal_open_new w w' r : table_ok w -> runs internal_uxfio_open w w' r ->
  match r with
  | None => Forall (fun s => slot_status s = true) (slots w)
  | Some (fd, i) => opened w' fd i /\ (forall j, ~ opened w fd j)
      /\ forall fd' j, opened w' fd' j <-> opened w fd' j \/ (fd' = fd /\ j = i)
  end.
Proof.
  intros T R. unfold internal_uxfio_open in R. apply runs_bind_inv in R as (? & ? & [= <- <-] & R).
  apply runs_bind_inv in R as (w1 & [] & R1 & R). destruct (runs_det _ _ _ _ _ _ R1 (prepared_run w)) as [-> _].
  destruct (prepared_ok w T) as [T1 D1]. apply runs_bind_inv in R as (w2 & a & R2 & R).
  assert (P : forall j s, slots (table_prepared w) !! j = Some s -> exists s0, slots w !! j = Some s0 /\ slot_status s0 = slot_status s).
  { intros j s. unfold table_prepared. destruct (did_init w); [by exists s|]. cbn. rewrite list_lookup_fmap.
    destruct (slots w !! j) as [s0|]; [|done]. intros [= <-]. by exists s0. }
  assert (P' : forall j s, slots w !! j = Some s -> exists s0, slots (table_prepared w) !! j = Some s0 /\ slot_status s0 = slot_status s).
  { intros j s Hj. unfold table_prepared. destruct (did_init w); [by exists s|]. cbn. rewrite list_lookup_fmap, Hj. by eexists. }
  pose proof (table_add_run _ D1 T1) as A. destruct (first_slot _ _) as [i|] eqn:Ei.
  - destruct A as [A T2]. destruct (runs_det _ _ _ _ _ _ R2 A) as [-> ->].
    apply runs_bind_inv in R as (w3 & [] & R3 & [= <- <-]). apply first_slot_Some in Ei as (s & Hi & Hc & _). zbool.
    pose proof (lookup_lt_Some _ _ _ Hi) as Hb. unfold runs, upd, updates, object in R3. cbn in R3.
    rewrite list_lookup_insert_eq in R3 by done. cbn in R3. injection R3 as <-. unfold set_object. cbn.
    rewrite list_lookup_insert_eq by done. unfold opened. cbn. rewrite list_insert_insert_eq.
    split; [split; [done|]; by rewrite list_lookup_insert_eq; [eexists|]|]. split.
    + intros j [Hj (t & Ht & Hto)]. assert (j = i) as -> by lia. destruct (P' _ _ Ht) as (t0 & Ht0 & E). congruence.
    + intros fd' j. destruct (decide (j = i)) as [->|Hji].
      * rewrite list_lookup_insert_eq by done. split; [intros [-> _]; by right|].
        intros [[-> _]|[-> _]]; (split; [done|]); by eexists.
      * rewrite list_lookup_insert_ne by done. split.
        -- intros [-> (t & Ht & Hto)]. destruct (P _ _ Ht) as (t0 & Ht0 & E). left. split; [done|]. exists t0. by rewrite E.
        -- intros [[-> (t & Ht & Hto)]|[_ Hj]]; [|done]. split; [done|]. destruct (P' _ _ Ht) as (t0 & Ht0 & E). exists t0. by rewrite E.
  - destruct (runs_det _ _ _ _ _ _ R2 A) as [-> ->]. injection R as _ <-. apply first_slot_None in Ei.
    rewrite Forall_lookup in *. intros j s Hj. destruct (P' j s Hj) as (s0 & Hs0 & E). specialize (Ei j s0 Hs0). zbool. congruence.
Qed.

(** The state after a list of calls. *)
Fixpoint perform_all (fuel : nat) (cs : list api) (w : W) : option W :=
  match cs with
  | [] => Some w
  | c :: cs =>
      match perform fuel c w with Some (Done w _) => perform_all fuel cs w | _ => None end
  end.

Lemma perform_all_reachable fuel cs w w' : reachable w -> perform_all fuel cs w = Some w' -> reachable w'.
Proof.
  revert w. induction cs as [|c cs IH]; intros w R; cbn [perform_all]; [by intros [= <-]|].
  destruct (perform fuel c w) as [[w1 []| |w1]|] eqn:E; [|done..]. apply IH. by eapply reach_call.
Qed.

Lemma all_open_filter (l : list Slot) :
  Forall (fun s => slot_status s = true) l -> filter (fun s => slot_status s = true) l = l.
Proof. induction 1 as [|s l Hs _ IH]; [done|]. by rewrite filter_cons_True, IH. Qed.

(** C6: in every state that any sequence of uxfio calls leads to, whatever the
    system does and answers, a descriptor is the number of an open slot: the
    search finds that slot and no other, its object holds that descriptor
    (uxfio_fildesM), and the search fails for every other number; and a new
    descriptor is one that was not open, its object holds it, and all others
    stay as they are (it is refused only when all 128 are open). *)
Theorem descriptors_name_slots w : reachable w ->
  (forall fd, (exists i u, opened w fd i /\ runs (table_find fd) w (put_last i w) (Some i)
                           /\ object w i = Some u /\ uxfio_fildesM u = fd)
              \/ ((forall i, ~ opened w fd i) /\ runs (table_find fd) w w None))
  /\ (forall w' r, runs internal_uxfio_open w w' r ->
       match r with
       | None => runs uxfio_uxfio_get_nopen w w UXFIO_MAX_OPEN
       | Some (fd, i) => opened w' fd i /\ (exists u, object w' i = Some u /\ uxfio_fildesM u = fd)
           /\ (forall j, ~ opened w fd j)
           /\ forall fd' j, opened w' fd' j <-> opened w fd' j \/ (fd' = fd /\ j = i)
       end).
Proof.
  intros [T Hw]%reachable_table. split.
  - intros fd. destruct (opened_dec w fd) as [[i Ho]|Hno].
    + left. destruct (known_object w fd i T Hw Ho) as (u & Hu). exists i, u. split; [done|]. split; [by apply table_find_open|done].
    + right. split; [done|]. by apply table_find_closed.
  - intros w' r R. pose proof (internal_open_new w w' r T R) as N. destruct r as [[fd i]|].
    { destruct N as (Ho & N). split; [done|]. split; [|done]. destruct (internal_open_keeps _ _ _ R T) as [T' K'].
      apply known_object; auto. }
    destruct T as (Hn & _). unfold runs, uxfio_uxfio_get_nopen, gets. do 3 f_equal. unfold zlen.
    by rewrite all_open_filter, Hn.
Qed.
End Table.

(** A system where every call fails with EBADF. *)
Definition no_system : Kernel () :=
  let fail {A} (k : ()) : () * (A + Z) := (k, inr 9) in
  Build_Kernel () (fun _ _ => fail) (fun _ _ => fail) (fun _ _ _ => fail) (fun _ => fail) (fun _ => fail)
    (fun _ _ => fail) (fun _ _ _ => fail) (fun _ _ _ => fail) (fun _ => fail) (fun _ => fail).

(** Memory that is given out twice. *)
Definition one_heap : Heap := Build_Heap 4096 (fun _ n => n + 8192).

Module Witness.
#[local] Existing Instance no_system.
#[local] Existing Instance one_heap.
#[local] Instance zero_junk : Malloc := fun _ => NUL.

(** Three files are opened, the second one is closed: the next one takes its number. *)
Definition calls : list api := [Open (Some []) 0 0; Open (Some []) 0 0; Open (Some []) 0 0; Close (UXFIO_FD_MIN + 1)].

Definition later : World () := default (initial_world ()) (perform_all 2 calls (initial_world ())).

Lemma later_reachable : reachable later.
Proof.
  apply (perform_all_reachable 2 calls (initial_world ())); [apply reach_start|]. unfold later.
  destruct (perform_all 2 calls (initial_world ())) eqn:E; [done|]. vm_compute in E. done.
Qed.

Lemma descriptors_name_slots_witness :
  exists w' , runs internal_uxfio_open later w' (Some (UXFIO_FD_MIN + 1, 1%nat))
    /\ opened w' (UXFIO_FD_MIN + 1) 1
    /\ (exists u, object w' 1 = Some u /\ uxfio_fildesM u = UXFIO_FD_MIN + 1) /\ (forall j, ~ opened later (UXFIO_FD_MIN + 1) j)
    /\ (forall fd' j, opened w' fd' j <-> opened later fd' j \/ (fd' = UXFIO_FD_MIN + 1 /\ j = 1%nat)).
Proof.
  destruct (internal_uxfio_open later) as [[w' r| |w']|] eqn:E; [|by vm_compute in E..].
  assert (r = Some (UXFIO_FD_MIN + 1, 1%nat)) as Er.
  { pose proof (f_equal (fun x => match x with Some (Done _ r) => r | _ => None end) E) as E'.
    rewrite <- E'. vm_compute. reflexivity. }
  exists w'. subst r. split; [done|].
  exact (proj2 (descriptors_name_slots later later_reachable) w' _ E).
Defined.
End Witness.
