(* ===== verification/UxfioObject.v ===== *)
(** * Running uxfio functions on one open object

    [state_of w i u k e] is the state [w] in which the object of slot [i] is
    [u], the system is [k] and errno is [e]: the states that a computation on
    one descriptor goes through. *)

From S2P Require Import Prelude CString Strob Strar Escape Effects UxfioState Uxfio UxfioTable.

#[local] Open Scope effects_scope.

Section Object.
Context {K : Type}.
Abbreviation W := (World K).
Implicit Types (w : W) (u : UXFIO) (i : nat) (fd : Z) (k : K) (e : Z).

Definition state_of w i u k e : W :=
  mkWorld (<[i := mkSlot true (UXFIO_FD_MIN + Z.of_nat i) (Some u)]> (slots w)) i (did_init w) (nullfd w) e k.

(** [fd] is open and its object is [u]. *)
Definition open_as w fd i u : Prop :=
  table_ok w /\ opened w fd i /\ object w i = Some u.

Lemma object_state w i u k e : (i < length (slots w))%nat -> object (state_of w i u k e) i = Some u.
Proof. intros Hi. unfold object, state_of. cbn. by rewrite list_lookup_insert_eq. Qed.

Lemma set_object_state w i u v k e : (i < length (slots w))%nat -> set_object i v (state_of w i u k e) = state_of w i v k e.
Proof.
  intros Hi. unfold set_object, state_of. cbn. rewrite list_lookup_insert_eq by done. unfold put_slots. cbn.
  by rewrite list_insert_insert_eq.
Qed.

Lemma open_as_bound w fd i u : open_as w fd i u -> (i < length (slots w))%nat.
Proof. intros (_ & [_ (s & Hs & _)] & _). by eapply lookup_lt_Some. Qed.

Lemma open_as_state w fd i u v k e : open_as w fd i u -> open_as (state_of w i v k e) fd i v.
Proof.
  intros Ho. pose proof (open_as_bound _ _ _ _ Ho) as Hb. destruct Ho as (T & [-> (s & Hs & Hso)] & Hu).
  split; [|split].
  - destruct T as (Hn & Hl & Hok & Hd). split; [cbn; by rewrite length_insert|]. split; [cbn; by rewrite <- Hn|]. split.
    + cbn. intros j t. destruct (decide (i = j)) as [<-|Hj].
      * rewrite list_lookup_insert_eq by done. intros [= <-]. split; [by right|]. intros _. split; [done|]. by eexists.
      * rewrite list_lookup_insert_ne by done. apply Hok.
    + cbn. intros Hi. specialize (Hd Hi). rewrite Forall_lookup in Hd. specialize (Hd i s Hs). congruence.
  - split; [done|]. cbn. rewrite list_lookup_insert_eq by done. by eexists.
  - by apply object_state.
Qed.

Lemma open_as_last w fd i u : open_as w fd i u -> put_last i w = state_of w i u (sys w) (errno w).
Proof.
  intros (T & [-> (s & Hs & Hso)] & Hu). unfold put_last, state_of. f_equal. rewrite list_insert_id; [done|].
  destruct T as (_ & _ & Hok & _). destruct (Hok i s Hs) as [_ Hd]. destruct (Hd Hso) as [Hd' _].
  unfold object in Hu. rewrite Hs in Hu. cbn in Hu. rewrite Hs. f_equal. destruct s; cbn in *. congruence.
Qed.

Lemma state_of_state w i u v k e k' e' : state_of (state_of w i u k e) i v k' e' = state_of w i v k' e'.
Proof. unfold state_of. cbn. by rewrite list_insert_insert_eq. Qed.

(** The same before the descriptor was looked for. *)
Lemma open_as_set w fd i u v : open_as w fd i u -> open_as (set_object i v w) fd i v.
Proof.
  intros (T & [Hfd (s & Hs & Hso)] & Hu). pose proof (lookup_lt_Some _ _ _ Hs). split; [by apply set_object_table|].
  unfold set_object, opened, object. rewrite Hs. cbn. rewrite list_lookup_insert_eq by done. split; [|done].
  split; [done|]. by eexists.
Qed.

Lemma upd_start w fd i u f : open_as w fd i u -> runs (upd i f) w (set_object i (f u) w) ().
Proof. intros (_ & _ & Hu). apply runs_updates. by rewrite Hu. Qed.

(** *** Steps *)

Lemma find_start w fd i u : open_as w fd i u -> runs (table_find fd) w (state_of w i u (sys w) (errno w)) (Some i).
Proof. intros Ho. rewrite <- (open_as_last w fd i u Ho). destruct Ho as (T & Hop & _). by apply table_find_open. Qed.

Lemma find_again w fd i u v k e : open_as w fd i u ->
  runs (table_find fd) (state_of w i v k e) (state_of w i v k e) (Some i).
Proof.
  intros Ho. pose proof (find_start _ _ _ _ (open_as_state w fd i u v k e Ho)) as R. by rewrite state_of_state in R.
Qed.

Lemma obj_run w i u k e : (i < length (slots w))%nat -> runs (obj i) (state_of w i u k e) (state_of w i u k e) u.
Proof. intros Hi. apply runs_reads. by apply object_state. Qed.

Lemma upd_run w i u k e f : (i < length (slots w))%nat ->
  runs (upd i f) (state_of w i u k e) (state_of w i (f u) k e) ().
Proof. intros Hi. apply runs_updates. rewrite object_state by done. cbn. by rewrite set_object_state. Qed.

Lemma sys_of_state w i u k e : sys (state_of w i u k e) = k.
Proof. done. Qed.

Lemma call_run {A} (f : K -> K * (A + Z)) w i u k e k' a : f k = (k', inl a) ->
  runs (call f) (state_of w i u k e) (state_of w i u k' e) (Some a).
Proof. intros E. unfold runs, call. cbn. by rewrite E. Qed.

(** The same when only a part of it runs. *)
Lemma step_run {S A B} (m : ST S A) (f : A -> ST S B) s s1 s2 a b :
  runs m s s1 a -> runs (f a) s1 s2 b -> runs (bind m f) s s2 b.
Proof. apply runs_bind. Qed.
End Object.

(** Take one step on the object. *)
Ltac ostep :=
  eapply step_run;
  [ first [ apply obj_run; assumption
          | apply upd_run; assumption
          | apply runs_ret
          | apply runs_gets
          | eapply find_again; eassumption ] | cbv beta ].

(** ** Bytes within a block *)

(** The bytes from [p] on replaced by [d]. *)
Definition splice (c : bytes) (p : Z) (d : bytes) : bytes :=
  take (Z.to_nat p) c ++ d ++ drop (Z.to_nat p + length d) c.

Lemma splice_length c p d : 0 <= p <= zlen c -> zlen (splice c p d) = Z.max (zlen c) (p + zlen d).
Proof. unfold splice, zlen. intros Hp. rewrite !length_app, length_take, length_drop. lia. Qed.

Lemma splice_end c d : splice c (zlen c) d = c ++ d.
Proof. unfold splice, zlen. rewrite Nat2Z.id, firstn_all, drop_ge by lia. by rewrite app_nil_r. Qed.

Lemma mem_sub_in m off n : 0 <= off -> 0 <= n -> off + n <= zlen m ->
  mem_sub m off n = Some (take (Z.to_nat n) (drop (Z.to_nat off) m)).
Proof. intros. unfold mem_sub. by ztest. Qed.

Lemma mem_sub_all m n : n = zlen m -> mem_sub m 0 n = Some m.
Proof.
  intros ->. pose proof (zlen_nonneg m). rewrite mem_sub_in by lia. unfold zlen. by rewrite Nat2Z.id, drop_0, firstn_all.
Qed.

Lemma memcpy_all dest off src n : n = zlen src -> memcpy dest off src 0 n = mem_write dest off src.
Proof. intros En. unfold memcpy. by rewrite mem_sub_all. Qed.

(** A write into a block that begins with [c]. *)
Lemma mem_write_splice c r p d : 0 <= p <= zlen c -> p + zlen d <= zlen c + zlen r ->
  mem_write (c ++ r) p d = Some (splice c p d ++ drop (Z.to_nat (p + zlen d - zlen c)) r).
Proof.
  intros Hp Hl. rewrite mem_write_in by (rewrite ?zlen_app; lia). unfold splice, zlen in *. f_equal.
  rewrite take_app_le by lia. rewrite <- !app_assoc. do 2 f_equal. rewrite drop_app. f_equal.
  f_equal. lia.
Qed.

(** The bytes of [c] from [p] on, at most [n]. *)
Definition piece (c : bytes) (p n : Z) : bytes := take (Z.to_nat n) (drop (Z.to_nat p) c).

Lemma piece_length c p n : 0 <= p <= zlen c -> 0 <= n -> zlen (piece c p n) = Z.min n (zlen c - p).
Proof. unfold piece, zlen. intros. rewrite length_take, length_drop. lia. Qed.

Lemma piece_app c r p n : 0 <= p -> 0 <= n -> p + n <= zlen c -> piece (c ++ r) p n = piece c p n.
Proof.
  unfold piece, zlen. intros. rewrite drop_app_le by lia. rewrite take_app_le; [done|]. rewrite length_drop. lia.
Qed.

Lemma piece_all c p n : 0 <= p -> zlen c - p <= n -> piece c p n = drop (Z.to_nat p) c.
Proof. unfold piece, zlen. intros. apply take_ge. rewrite length_drop. lia. Qed.
