(* ===== verification/UxfioMemory.v ===== *)
(** * Files in memory (uxfio.c over UXFIO_NULL_FD)

    swlib.c and swextopt.c keep whole files in memory: uxfio_open of the empty
    name, then a buffer of type DYNAMIC_MEM.  Such a descriptor implements a
    file: a text and a position. *)

From S2P Require Import Prelude CString Strob Strar Escape Effects UxfioState Uxfio UxfioTable UxfioObject.

#[local] Open Scope effects_scope.

(** The position may be behind the data (uxfio_ftruncate leaves it there);
    there are zeros in between. *)
Definition pad (c : bytes) (p : Z) : bytes := c ++ replicate (Z.to_nat (p - zlen c)) NUL.

Lemma pad_length c p : zlen (pad c p) = Z.max (zlen c) p.
Proof. unfold pad. rewrite zlen_app, zlen_replicate. pose proof (zlen_nonneg c). lia. Qed.

Lemma pad_in c p : p <= zlen c -> pad c p = c.
Proof. intros Hp. unfold pad. replace (Z.to_nat (p - zlen c)) with 0%nat by lia. apply app_nil_r. Qed.

(** The object of a file in memory with the bytes [c] at the position [p]. *)
Record memory_block (c : bytes) (p : Z) (u : UXFIO) : Prop := {
  mf_below : uxfdM u = UXFIO_NULL_FD;
  mf_type : buffertypeM u = UXFIO_BUFTYPE_DYNAMIC_MEM;
  mf_active : buffer_activeM u = 1;
  mf_insert : write_insertM u = 0;
  mf_lock : lock_buf_fatalM u = 0;
  mf_auto : auto_disableM u = 0;
  mf_block : exists r, bufM u = pad c p ++ r /\ zlen r = lenM u + 1 - zlen (pad c p);
  mf_end : endM u = zlen c;
  mf_len : zlen (pad c p) <= lenM u;
  mf_pos : posM u = p;
  mf_range : 0 <= p;
}.

(** The same with no virtual end. *)
Record memory_file (c : bytes) (p : Z) (u : UXFIO) : Prop := {
  mf_mem :> memory_block c p u;
  mf_eof : offset_eofM u < 0;
  mf_vend : v_endM u < 0;
}.

Section Memory.
Context {K : Type} `{Kernel K} `{Malloc} {heap : Heap}.
Abbreviation W := (World K).
Implicit Types (w : W) (u : UXFIO) (i : nat) (fd : Z) (c d : bytes) (p n : Z).

(** ** Changes that do not matter *)

Lemma mb_saved c p u v : memory_block c p u -> memory_block c p (put_offset_eof_savedM v u).
Proof. intros []. by split. Qed.
Lemma mb_advance c p u n : memory_block c p u -> memory_block c p (advance n u).
Proof. intros []. by split. Qed.
Lemma mb_offsets c p u n : memory_block c p u -> memory_block c p (add_offsets n u).
Proof. intros []. by split. Qed.
Lemma mb_move c p u n : memory_block c p u -> 0 <= p + n <= zlen c -> memory_block c (p + n) (add_pos n u).
Proof.
  intros [? ? ? ? ? ? (r & Eb & Er) ? ? Hp ?] Hn. rewrite !pad_length in *. split; cbn; try done; [| |lia|lia].
  - exists (replicate (Z.to_nat (p - zlen c)) NUL ++ r). rewrite (pad_in c (p + n)) by lia. unfold pad in Eb.
    rewrite Eb, <- app_assoc, zlen_app, zlen_replicate. split; [done|]. lia.
  - rewrite pad_in; lia.
Qed.
(** No move at all. *)
Lemma mb_stay c p u : memory_block c p u -> memory_block c p (add_pos 0 u).
Proof. intros F. replace (add_pos 0 u) with u; [done|]. unfold add_pos. rewrite Z.add_0_r. by destruct u. Qed.

Lemma mf_saved c p u v : memory_file c p u -> memory_file c p (put_offset_eof_savedM v u).
Proof. intros [F ? ?]. split; [by apply mb_saved|done..]. Qed.
Lemma mf_offsets c p u n : memory_file c p u -> memory_file c p (add_offsets n u).
Proof. intros [F ? ?]. split; [by apply mb_offsets|done..]. Qed.
Lemma mf_move c p u n : memory_file c p u -> 0 <= p + n <= zlen c -> memory_file c (p + n) (add_pos n u).
Proof. intros [F ? ?] Hn. split; [by apply mb_move|done..]. Qed.

Lemma mf_no_veof c p u : memory_file c p u -> virtual_eof_active u = false.
Proof. intros []. unfold virtual_eof_active. by ztest. Qed.

(** The tests of a field of a file in memory. *)
Ltac field_tests F :=
  rewrite ?(mf_below _ _ _ F), ?(mf_type _ _ _ F), ?(mf_active _ _ _ F), ?(mf_insert _ _ _ F), ?(mf_lock _ _ _ F),
    ?(mf_auto _ _ _ F), ?(mf_end _ _ _ F), ?(mf_pos _ _ _ F);
  cbn [Z.eqb Pos.eqb UXFIO_BUFTYPE_DYNAMIC_MEM UXFIO_BUFTYPE_FILE UXFIO_BUFTYPE_NOBUF UXFIO_BUFTYPE_MEM UXFIO_NULL_FD andb orb negb when].

Ltac file_tests F := rewrite ?(mf_no_veof _ _ _ F); field_tests F.

Lemma fd_tests w fd i u : open_as w fd i u ->
  (fd =? UXFIO_NULL_FD) = false /\ (fd <? UXFIO_FD_MIN) = false /\ (fd >=? UXFIO_FD_MIN) = true.
Proof. intros (_ & [-> _] & _). unfold UXFIO_FD_MIN, UXFIO_NULL_FD. by ztest. Qed.

Section File.
Context (w : W) (fd : Z) (i : nat) (u0 : UXFIO) (Ho : open_as w fd i u0) (k : K) (e : Z).
Abbreviation at_ u := (state_of w i u k e).
#[local] Definition bound := open_as_bound w fd i u0 Ho.
#[local] Hint Resolve bound : core.

Lemma veof_inactive c p u n : memory_file c p u ->
  runs (enforce_veof i n) (at_ u) (at_ (put_offset_eof_savedM (-1) u)) (n, false).
Proof.
  intros F. pose proof bound. unfold enforce_veof. ostep. rewrite (mf_no_veof _ _ _ F). ostep. apply runs_ret.
Qed.

Lemma bufferstate_memory c p u : memory_block c p u ->
  runs (bufferstate i) (at_ u) (at_ u) (p, zlen c - p, lenM u - zlen c).
Proof.
  intros F. pose proof bound. unfold bufferstate. ostep. field_tests F. ostep. apply runs_ret.
Qed.

Lemma fix_read fuel c p u n d : memory_block c p u ->
  runs (fix_buffer fuel i n d 0) (at_ u) (at_ (add_pos n u)) 0.
Proof.
  intros F. pose proof bound. unfold fix_buffer. ostep. field_tests F. eapply step_run; [by eapply bufferstate_memory|].
  cbv beta iota. ostep. apply runs_ret.
Qed.

Lemma take_memory fuel c p u n : memory_block c p u -> 0 <= n <= zlen c - p ->
  runs (take_buffered fuel i n) (at_ u) (at_ u) (Some (piece c p n)).
Proof.
  intros F Hn. pose proof bound. pose proof (mf_range _ _ _ F). unfold take_buffered. ostep. field_tests F.
  destruct (mf_block _ _ _ F) as (r & Hb & Hr). rewrite pad_in in Hb, Hr by lia. rewrite Hb. pose proof (mf_range _ _ _ F). pose proof (zlen_nonneg r).
  eapply step_run; [apply runs_lift; apply mem_sub_in; rewrite ?zlen_app; lia|]. cbv beta. fold (piece (c ++ r) p n).
  rewrite piece_app by lia. apply runs_ret.
Qed.

(** A read behind the test for a virtual end: from the buffer, or at its end. *)
Definition read_rest (fuel : nat) (rec : Z -> Z -> bool -> ST W (Z * bytes)) (u : UXFIO) (n : Z) (b : bool) : ST W (Z * bytes) :=
  if posM u <? endM u then read_buffered fuel rec i n b else read_at_end fuel rec fd i n b.

Lemma read_rest_memory fuel rec c p u n b : memory_block c p u -> 0 <= n ->
  exists u', runs (read_rest fuel rec u n b) (at_ u) (at_ u') (zlen (piece c p n), piece c p n)
    /\ memory_block c (p + zlen (piece c p n)) u' /\ offset_eofM u' = offset_eofM u /\ v_endM u' = v_endM u
    /\ virtual_offsetM u' = virtual_offsetM u + zlen (piece c p n).
Proof.
  intros F Hn. pose proof bound as Hb. pose proof (mf_range _ _ _ F) as Hp.
  unfold read_rest. field_tests F. destruct (decide (p < zlen c)) as [Hlt|Hge].
  - assert (El : zlen (piece c p n) = Z.min n (zlen c - p)) by (apply piece_length; lia). ztest.
    set (bc := Z.min n (zlen c - p)). pose proof (mb_offsets _ _ _ bc F) as F2. pose proof (mb_advance _ _ _ 0 F2) as F3.
    rewrite El. fold bc. unfold read_buffered.
    assert (Hbc : (if n >=? zlen c - p then zlen c - p else n) = bc) by (unfold bc; case_match; zbool; lia).
    assert (Hpc : piece c p bc = piece c p n).
    { unfold bc, piece. destruct (decide (n <= zlen c - p)); [by rewrite Z.min_l by lia|]. rewrite Z.min_r by lia.
      rewrite !take_ge; [done|rewrite length_drop; unfold zlen in *; lia..]. }
    destruct (decide (bc < n)) as [Hs|Hs]; eexists; (split; [ostep; field_tests F; rewrite Hbc;
      (eapply step_run; [by apply take_memory; [done|unfold bc; lia]|]); cbv beta iota; ostep|]).
    + ztest. ostep. field_tests F2. ostep. ztest. ostep. eapply step_run; [by eapply fix_read|]. cbv beta.
      rewrite Z.add_0_r, app_nil_r, Hpc. apply runs_ret.
    + rewrite ?Z.add_0_r. split; [apply mb_move; [done|unfold bc; lia]|]. cbn. split_and!; [done..|lia].
    + ztest. eapply step_run; [by eapply fix_read|]. cbv beta. rewrite Hpc. apply runs_ret.
    + split; [apply mb_move; [done|unfold bc; lia]|]. done.
  - assert (piece c p n = []) as -> by (unfold piece, zlen in *; rewrite drop_ge by lia; by destruct (Z.to_nat n)).
    change (zlen (@nil ascii)) with 0. ztest.
    pose proof (mb_advance _ _ _ 0 F) as F2. exists (add_pos 0 (advance 0 u)).
    split; [|rewrite Z.add_0_r; split; [by apply mb_stay|cbn; split_and!; [done..|lia]]].
    unfold read_at_end. ostep. field_tests F. ostep. ztest. ostep. eapply step_run; [by eapply fix_read|]. cbv beta.
    ostep. cbn [add_pos put_posM auto_disableM advance put_bytesreadM put_current_offsetM put_virtual_offsetM].
    field_tests F. ostep. apply runs_ret.
Qed.

Lemma read_object_memory fuel rec c p u n b : memory_file c p u -> 0 <= n ->
  exists u', runs (read_object fuel rec fd i n b) (at_ u) (at_ u') (zlen (piece c p n), piece c p n)
    /\ memory_file c (p + zlen (piece c p n)) u'.
Proof.
  intros F Hn. pose proof bound as Hb. pose proof (mf_saved _ _ _ (-1) F) as F1.
  destruct (read_rest_memory fuel rec c p _ n b F1 Hn) as (u' & R & F' & E1 & E2 & _). exists u'. split.
  - unfold read_object. ostep. field_tests F. eapply step_run; [by eapply veof_inactive|]. cbv beta iota. rewrite andb_false_r.
    ostep. rewrite (mf_active _ _ _ F1). cbn [Z.eqb]. eapply step_run; [apply (bufferstate_memory _ _ _ F1)|]. exact R.
  - split; [done|rewrite E1; apply F|rewrite E2; apply F].
Qed.

(** *** Writing *)

Lemma raise_end_eq u : raise_end u = put_endM (Z.max (endM u) (posM u)) u.
Proof.
  unfold raise_end. destruct (_ >? _) eqn:E; zbool; [by rewrite Z.max_r by lia|].
  rewrite Z.max_l by lia. by destruct u.
Qed.

Lemma raise_end_lock u : lock_buf_fatalM (raise_end u) = lock_buf_fatalM u.
Proof. by rewrite raise_end_eq. Qed.

Lemma realloc_grow (m : bytes) (n : nat) : (length m <= n)%nat ->
  exists r, realloc m n = m ++ r /\ zlen r = Z.of_nat n - zlen m.
Proof.
  intros Hn. unfold realloc. eexists. rewrite take_ge by done. split; [done|].
  unfold zlen. rewrite length_fmap, length_seq. lia.
Qed.

(** A block that begins with [c], long enough for [d] at [p], after the write. *)
Lemma block_write c r p d : 0 <= p <= zlen c -> p + zlen d <= zlen c + zlen r ->
  exists r', mem_write (c ++ r) p d = Some (splice c p d ++ r') /\ zlen r' = zlen c + zlen r - zlen (splice c p d).
Proof.
  intros Hp Hl. eexists. split; [by apply mem_write_splice|]. rewrite splice_length by done.
  pose proof (zlen_nonneg d). unfold zlen in *. rewrite length_drop. lia.
Qed.

Lemma clear_rest c r n : n = zlen c -> memset (c ++ r) n NUL (zlen r) = Some (c ++ replicate (Z.to_nat (zlen r)) NUL).
Proof.
  intros ->. pose proof (zlen_nonneg c). pose proof (zlen_nonneg r). rewrite memset_in by (rewrite ?zlen_app; lia). unfold zlen.
  rewrite !Nat2Z.id, take_app_length, drop_ge by (rewrite length_app; lia). by rewrite app_nil_r.
Qed.

Lemma fix_dynamic_memory c p u d n : memory_file c p u -> n = zlen d - (lenM u - p) -> 0 < n ->
  exists u', runs (fix_dynamic_buffer i (zlen d) d n) (at_ u) (at_ u') 0 /\ memory_file (splice (pad c p) p d) (p + zlen d) u'.
Proof.
  intros F En Hn. pose proof bound as Hb. pose proof (mf_range _ _ _ F) as Hp. pose proof (mf_len _ _ _ F) as Hl.
  destruct (mf_block _ _ _ F) as (r & Eb & Er). pose proof (pad_length c p) as Lp. pose proof (splice_length (pad c p) p d) as Es. unfold UXFIO_ALLOC_AHEAD in *.
  set (newlen := lenM u + n + 20480 + 1).
  destruct (realloc_grow (bufM u) (Z.to_nat newlen)) as (r1 & E1 & L1).
  { rewrite Eb. unfold zlen, newlen in *. rewrite length_app. lia. }
  rewrite Eb in L1. rewrite zlen_app in L1. rewrite Eb, <- app_assoc in E1. specialize (Es ltac:(lia)).
  destruct (block_write (pad c p) (r ++ r1) p d ltac:(lia)) as (r2 & E2 & L2); [rewrite zlen_app; unfold newlen in *; lia|].
  rewrite zlen_app in L2. set (c' := splice (pad c p) p d) in *. assert (Pc : pad c' (p + zlen d) = c') by (apply pad_in; lia).
  pose proof (zlen_nonneg d).
  set (z := replicate (Z.to_nat (zlen r2)) NUL).
  exists (put_bufM (c' ++ z) (put_buf_addrM (moved (buf_addrM u) newlen) (put_startM 0 (raise_end (add_pos (zlen d)
    (put_lenM (lenM u + n + 20480) u)))))).
  split.
  - unfold fix_dynamic_buffer, UXFIO_ALLOC_AHEAD. eapply step_run; [apply (bufferstate_memory _ _ _ F)|]. cbv beta. ztest. ostep. fold newlen.
    rewrite Eb, E1. eapply step_run; [apply runs_lift; by rewrite memcpy_all, (mf_pos _ _ _ F)|]. cbv beta.
    do 3 ostep. ostep. rewrite raise_end_eq at 1 2 3. cbn. field_tests F.
    eapply step_run; [apply runs_lift|].
    { replace (lenM u + n + 20480 + 1 - Z.max (zlen c) (p + zlen d)) with (zlen r2) by (unfold newlen in *; lia).
      apply clear_rest. lia. }
    cbv beta. ostep. rewrite raise_end_lock. cbn [add_pos put_posM put_lenM lock_buf_fatalM]. rewrite (mf_lock _ _ _ F), andb_false_r.
    ostep. apply runs_ret.
  - rewrite raise_end_eq. split; [split|..]; cbn; try apply F.
    + exists z. rewrite Pc. split; [done|]. unfold z. rewrite zlen_replicate, Z2Nat.id by apply zlen_nonneg. unfold newlen in *. lia.
    + rewrite (mf_end _ _ _ F), (mf_pos _ _ _ F). lia.
    + rewrite Pc. unfold newlen in *. lia.
    + by rewrite (mf_pos _ _ _ F).
    + lia.
Qed.
Lemma write_dynamic_memory c p u d : memory_file c p u -> zlen d <= INT_MAX ->
  exists u', runs (write_dynamic i d) (at_ u) (at_ u') (zlen d) /\ memory_file (splice (pad c p) p d) (p + zlen d) u'.
Proof.
  intros F Hd. pose proof bound as Hb. pose proof (mf_range _ _ _ F) as Hp. pose proof (mf_len _ _ _ F) as Hl.
  pose proof (zlen_nonneg d). unfold write_dynamic.
  destruct (decide (zlen d > zlen c - p + (lenM u - zlen c))) as [Hg|Hf].
  - destruct (fix_dynamic_memory c p u d (zlen d - (zlen c - p) - (lenM u - zlen c)) F) as (u' & R & F'); [lia..|].
    exists u'. split; [|done]. eapply step_run; [apply (bufferstate_memory _ _ _ F)|]. cbv beta iota.
    rewrite to_int_id by (unfold INT_MAX in *; lia). ztest. eapply step_run; [exact R|]. cbv beta. cbn [Z.eqb]. apply runs_ret.
  - destruct (mf_block _ _ _ F) as (r & Eb & Er). pose proof (pad_length c p) as Lp.
    destruct (block_write (pad c p) r p d ltac:(lia)) as (r' & Ew & Er'); [lia|].
    exists (raise_end (advance (zlen d) (add_pos (zlen d) (put_bufM (splice (pad c p) p d ++ r') u)))). split.
    + eapply step_run; [apply (bufferstate_memory _ _ _ F)|]. cbv beta iota.
      rewrite to_int_id by (unfold INT_MAX in *; lia). ztest.
      eapply (step_run (insert_gap _ _ _) _ _ (at_ u)).
      { unfold insert_gap. ostep. field_tests F. apply runs_ret. }
      ostep. field_tests F. rewrite Eb. eapply step_run; [by apply runs_lift|]. cbv beta. do 4 ostep. apply runs_ret.
    + rewrite raise_end_eq. pose proof (splice_length (pad c p) p d ltac:(lia)) as Es.
      assert (Pc : pad (splice (pad c p) p d) (p + zlen d) = splice (pad c p) p d) by (apply pad_in; lia).
      split; [split|..]; cbn; rewrite ?Pc; try apply F.
      * exists r'. split; [done|]. lia.
      * rewrite (mf_end _ _ _ F), (mf_pos _ _ _ F). lia.
      * lia.
      * by rewrite (mf_pos _ _ _ F).
      * lia.
Qed.

Lemma write_object_memory fuel rec c p u d : memory_file c p u -> zlen d <= INT_MAX ->
  exists u', runs (write_object fuel rec i d) (at_ u) (at_ u') (zlen d) /\ memory_file (splice (pad c p) p d) (p + zlen d) u'.
Proof.
  intros F Hd. pose proof bound as Hb. destruct (write_dynamic_memory c p u d F Hd) as (u' & R & F'). exists u'. split; [|done].
  unfold write_object. ostep. file_tests F. ostep. rewrite andb_false_r. exact R.
Qed.

(** *** Moving *)

Lemma move_within_memory c p u n whence : memory_file c p u ->
  runs (move_within i n whence) (at_ u) (at_ (add_offsets n (add_pos n u))) (Some (p + n)).
Proof.
  intros F. pose proof bound as Hb. unfold move_within. do 3 ostep.
  cbn [add_offsets add_pos put_posM put_current_offsetM put_virtual_offsetM buffertypeM posM]. file_tests F. apply runs_ret.
Qed.

(** Where a move to a position inside the file ends. *)
Lemma lseek_move_memory fuel c p u po pw n : memory_file c p u -> 0 <= p + n <= zlen c \/ n = 0 ->
  exists u', runs (lseek_move fuel fd i po pw n SEEK_CUR false) (at_ u) (at_ u') (p + n)
    /\ memory_file c (p + n) u' /\ bufM u' = bufM u.
Proof.
  intros F Hn. pose proof bound as Hb. pose proof (mf_range _ _ _ F) as Hp. unfold lseek_move.
  destruct (decide (n = 0)) as [->|Hz].
  - exists u. rewrite Z.add_0_r. split; [|done]. eapply step_run; [apply (bufferstate_memory _ _ _ F)|]. cbv beta iota. ztest. ostep.
    unfold move_nowhere. eapply (step_run _ _ _ (at_ u) _ (inr p)); [|ostep; apply runs_ret].
    eapply (step_run _ _ _ (at_ u) _ (Some p)); [|apply runs_ret].
    ostep. file_tests F. change (SEEK_CUR =? UXFIO_SEEK_VSET) with false. change (SEEK_CUR =? UXFIO_SEEK_VCUR) with false.
    cbn [andb]. apply runs_ret.
  - destruct Hn as [Hn|]; [|done].
    exists (add_offsets n (add_pos n u)). split; [|by split; [apply mf_offsets, mf_move|]].
    eapply step_run; [apply (bufferstate_memory _ _ _ F)|]. cbv beta iota. ztest. ostep.
    eapply (step_run _ _ _ (at_ (add_offsets n (add_pos n u))) _ (inr (p + n))); [|cbv beta iota; ostep; apply runs_ret].
    destruct (decide (n < 0)).
    + ztest. eapply step_run; [by apply (move_within_memory c p)|]. apply runs_ret.
    + ztest. file_tests F. eapply step_run; [by apply (move_within_memory c p)|]. apply runs_ret.
Qed.

(** A move before the beginning is refused. *)
Lemma lseek_move_before fuel c p u po pw n : memory_file c p u -> p + n < 0 ->
  runs (lseek_move fuel fd i po pw n SEEK_CUR false) (at_ u) (at_ u) UXFIO_RET_EFAIL.
Proof.
  intros F Hn. pose proof bound as Hb. pose proof (mf_range _ _ _ F) as Hp. unfold lseek_move.
  eapply step_run; [apply (bufferstate_memory _ _ _ F)|]. cbv beta iota. ztest. ostep. ostep. apply runs_ret.
Qed.

(** The offset that a move comes to, for a file in memory. *)
Definition seek_offset (c : bytes) (p o whence : Z) : Z :=
  if whence =? SEEK_SET then o - p else if whence =? SEEK_CUR then o else zlen c - p + o.

Definition plain_whence (whence : Z) : Prop := whence = SEEK_SET \/ whence = SEEK_CUR \/ whence = SEEK_END.

Lemma lseek_target_memory c p u o whence : memory_file c p u -> plain_whence whence ->
  runs (lseek_target i o whence) (at_ u) (at_ u) (Some (seek_offset c p o whence, SEEK_CUR, false)).
Proof.
  intros F Hw. pose proof bound as Hb. unfold lseek_target, seek_offset.
  destruct Hw as [->|[->| ->]]; cbn [SEEK_SET SEEK_CUR SEEK_END Z.eqb Pos.eqb UXFIO_SEEK_VCUR UXFIO_SEEK_VSET orb].
  - unfold lseek_set. ostep. rewrite andb_false_r. ostep. ostep. rewrite andb_false_r. file_tests F. apply runs_ret.
  - apply runs_ret.
  - unfold lseek_end. ostep. file_tests F. apply runs_ret.
Qed.
End File.

(** ** Reading *)

Lemma uxfio_read_memory fuel w fd i u c p n : open_as w fd i u -> memory_file c p u -> 0 <= n <= INT_MAX ->
  exists u', runs (uxfio_read (S fuel) fd n) w (state_of w i u' (sys w) (errno w)) (zlen (piece c p n), piece c p n)
    /\ memory_file c (p + zlen (piece c p n)) u'.
Proof.
  intros Ho F Hn. destruct (fd_tests _ _ _ _ Ho) as (_ & E2 & E3).
  destruct (read_object_memory w fd i u Ho (sys w) (errno w) (S fuel) (uxfio_common_read fuel) c p u n false F) as (u' & R & F'); [lia|].
  exists u'. split; [|done]. unfold uxfio_read, read_below. rewrite E2, E3. cbn [andb uxfio_common_read].
  eapply step_run; [by eapply find_start|]. cbv beta iota. by rewrite to_int_id by (unfold INT_MAX in *; lia).
Qed.
(** ** Writing and moving *)

Lemma uxfio_write_memory fuel w fd i u c p d : open_as w fd i u -> memory_file c p u -> zlen d <= INT_MAX ->
  exists u', runs (uxfio_write (S fuel) fd d) w (state_of w i u' (sys w) (errno w)) (zlen d)
    /\ memory_file (splice (pad c p) p d) (p + zlen d) u'.
Proof.
  intros Ho F Hd. destruct (fd_tests _ _ _ _ Ho) as (E1 & E2 & _).
  destruct (write_object_memory w fd i u Ho (sys w) (errno w) (S fuel) (uxfio_write fuel) c p u d F Hd) as (u' & R & F').
  exists u'. split; [|done]. cbn [uxfio_write]. rewrite E1, E2. cbn [andb].
  eapply step_run; [by eapply find_start|]. exact R.
Qed.

Section Seeking.
Context (fuel : nat) (w : W) (fd : Z) (i : nat) (u : UXFIO) (c : bytes) (p o whence : Z).
Context (Ho : open_as w fd i u) (F : memory_file c p u) (Hw : plain_whence whence).
Definition seek_by : Z := seek_offset c p o whence.

(** The call comes down to a move by [seek_by]. *)
Lemma uxfio_lseek_moves w' r :
  runs (lseek_move (S fuel) fd i o whence seek_by SEEK_CUR false) (state_of w i u (sys w) (errno w)) w' r ->
  runs (uxfio_lseek (S fuel) fd o whence) w w' r.
Proof.
  intros R. destruct (fd_tests _ _ _ _ Ho) as (_ & E2 & _). pose proof (open_as_bound _ _ _ _ Ho) as Hb.
  cbn [uxfio_lseek]. rewrite E2. cbn [andb]. eapply step_run; [by eapply find_start|]. cbv beta iota.
  eapply step_run; [by eapply lseek_target_memory|]. cbv beta iota. ostep. rewrite (mf_active _ _ _ F). exact R.
Qed.

Lemma uxfio_lseek_memory : 0 <= p + seek_by <= zlen c \/ seek_by = 0 ->
  exists u', runs (uxfio_lseek (S fuel) fd o whence) w (state_of w i u' (sys w) (errno w)) (p + seek_by)
    /\ memory_file c (p + seek_by) u' /\ bufM u' = bufM u.
Proof.
  intros Hr. destruct (lseek_move_memory w fd i u Ho (sys w) (errno w) (S fuel) c p u o whence seek_by F Hr) as (u' & R & F').
  exists u'. split; [|done]. by apply uxfio_lseek_moves.
Qed.

Lemma uxfio_lseek_before : p + seek_by < 0 ->
  runs (uxfio_lseek (S fuel) fd o whence) w (state_of w i u (sys w) (errno w)) UXFIO_RET_EFAIL.
Proof. intros Hr. apply uxfio_lseek_moves. by eapply lseek_move_before. Qed.
End Seeking.
End Memory.
