(* ===== verification/UxfioFile.v ===== *)
(** * What a file in memory promises

    Truncation, the sequence of calls that makes such a file, the refinement of
    files by sequences of operations, and the move that never returns. *)

From S2P Require Import Prelude CString Strob Strar Escape Effects UxfioState Uxfio UxfioTable UxfioObject UxfioMemory.

#[local] Open Scope effects_scope.

Section File.
Context {K : Type} `{Kernel K} `{Malloc} {heap : Heap}.
Abbreviation W := (World K).
Implicit Types (w : W) (u : UXFIO) (i : nat) (fd : Z) (c d : bytes) (p n : Z).

(** [fd], of slot [i], is a file in memory with the bytes [c] at the position [p]. *)
Definition holds_file (w : W) (fd : Z) (i : nat) (c : bytes) (p : Z) : Prop :=
  exists u, open_as w fd i u /\ memory_file c p u.

Lemma file_intro w fd i u u' c p k e : open_as w fd i u -> memory_file c p u' -> holds_file (state_of w i u' k e) fd i c p.
Proof. intros Ho F. exists u'. split; [|done]. by eapply open_as_state. Qed.

Lemma read_file fuel w fd i c p n : holds_file w fd i c p -> 0 <= n <= INT_MAX ->
  exists w', runs (uxfio_read (S fuel) fd n) w w' (zlen (piece c p n), piece c p n)
    /\ holds_file w' fd i c (p + zlen (piece c p n)).
Proof.
  intros (u & Ho & F) Hn. destruct (uxfio_read_memory fuel w fd i u c p n Ho F Hn) as (u' & R & F').
  eexists. split; [exact R|]. by eapply file_intro.
Qed.

Lemma write_file fuel w fd i c p d : holds_file w fd i c p -> zlen d <= INT_MAX ->
  exists w', runs (uxfio_write (S fuel) fd d) w w' (zlen d) /\ holds_file w' fd i (splice (pad c p) p d) (p + zlen d).
Proof.
  intros (u & Ho & F) Hd. destruct (uxfio_write_memory fuel w fd i u c p d Ho F Hd) as (u' & R & F').
  eexists. split; [exact R|]. by eapply file_intro.
Qed.

(** The same with the block of memory, which moves leave alone. *)
Definition holds_block (w : W) (fd : Z) (i : nat) (c : bytes) (p : Z) (m : bytes) : Prop :=
  exists u, open_as w fd i u /\ memory_file c p u /\ bufM u = m.

Lemma holds_block_file w fd i c p m : holds_block w fd i c p m -> holds_file w fd i c p.
Proof. intros (u & Ho & F & _). by exists u. Qed.

Lemma seek_block fuel w fd i c p o whence t m : holds_block w fd i c p m -> plain_whence whence ->
  t = p + seek_offset c p o whence -> 0 <= t <= zlen c \/ t = p ->
  exists w', runs (uxfio_lseek (S fuel) fd o whence) w w' t /\ holds_block w' fd i c t m.
Proof.
  intros (u & Ho & F & Em) Hw -> Hr.
  destruct (uxfio_lseek_memory fuel w fd i u c p o whence Ho F Hw) as (u' & R & F' & Em'); [unfold seek_by; lia|].
  eexists. split; [exact R|]. exists u'. split; [by eapply open_as_state|]. split; [done|]. by rewrite Em'.
Qed.

Lemma seek_file fuel w fd i c p o whence t : holds_file w fd i c p -> plain_whence whence ->
  t = p + seek_offset c p o whence -> 0 <= t <= zlen c \/ t = p ->
  exists w', runs (uxfio_lseek (S fuel) fd o whence) w w' t /\ holds_file w' fd i c t.
Proof.
  intros (u & Ho & F) Hw Ht Hr. destruct (seek_block fuel w fd i c p o whence t (bufM u)) as (w' & R & HB); [by exists u|done..|].
  exists w'. split; [done|]. by eapply holds_block_file.
Qed.

Lemma holds_pos w fd i c p : holds_file w fd i c p -> 0 <= p.
Proof. intros (u & _ & F). apply (mf_range _ _ _ F). Qed.

(** ** Truncation *)

Definition zeros (n : Z) : bytes := replicate (Z.to_nat n) NUL.

Lemma splice_splice c p a b : 0 <= p <= zlen c -> splice (splice c p a) (p + zlen a) b = splice c p (a ++ b).
Proof.
  intros Hp. unfold splice. set (A := take (Z.to_nat p) c).
  assert (length A = Z.to_nat p) as LA by (unfold A, zlen in *; rewrite length_take; lia).
  assert (Z.to_nat (p + zlen a) = length (A ++ a)) as EN by (rewrite length_app, LA; unfold zlen; lia).
  rewrite (app_assoc A a (drop _ c)), EN, take_app_length, (drop_app_ge (A ++ a)), drop_drop by lia.
  rewrite <- !app_assoc. do 4 f_equal. rewrite !length_app, LA. lia.
Qed.

Lemma splice_nil c p : splice c p (zeros 0) = c.
Proof. unfold splice. change (zeros 0) with (@nil ascii). cbn [length app]. by rewrite Nat.add_0_r, take_drop. Qed.

Lemma zeros_app a b : 0 <= a -> 0 <= b -> zeros a ++ zeros b = zeros (a + b).
Proof. intros. unfold zeros. rewrite <- replicate_add. f_equal. lia. Qed.

Lemma zero_fill_file fuel w fd i c p n : holds_file w fd i c p -> p <= zlen c -> 0 <= n < Z.of_nat fuel ->
  exists w', runs (zero_fill fuel fd n) w w' 0 /\ holds_file w' fd i (splice c p (zeros n)) (p + n).
Proof.
  revert w c p n. induction fuel as [|fuel IH]; intros w c p n F Hp Hn; [lia|]. pose proof (holds_pos _ _ _ _ _ F) as Hp0.
  cbn [zero_fill]. destruct (n >? 0) eqn:E.
  - set (am := if n >? 512 then 512 else n). assert (Ham : 0 < am <= 512 /\ am <= n) by (unfold am; case_match; zbool; lia).
    fold (zeros am). assert (Lz : zlen (zeros am) = am) by (unfold zeros; rewrite zlen_replicate; lia).
    destruct (write_file fuel w fd i c p (zeros am) F) as (w1 & R1 & F1); [unfold INT_MAX; lia|]. rewrite Lz, pad_in in * by lia.
    destruct (IH w1 _ _ (n - am) F1) as (w2 & R2 & F2); [rewrite splice_length; lia|lia|].
    exists w2. split.
    + eapply step_run; [exact R1|]. cbv beta. ztest. exact R2.
    + pose proof (splice_splice c p (zeros am) (zeros (n - am)) ltac:(lia)) as Q. rewrite Lz, zeros_app in Q by lia. rewrite Q in F2.
      replace (p + am + (n - am)) with (p + n) in F2 by lia. by replace (am + (n - am)) with n in F2 by lia.
  - assert (n = 0) as -> by (zbool; lia). exists w. split; [apply runs_ret|]. by rewrite Z.add_0_r, splice_nil.
Qed.

(** The text that is left of [c], or [c] with zeros behind it. *)
Definition resize (c : bytes) (n : Z) : bytes := if n >? zlen c then c ++ zeros (n - zlen c) else take (Z.to_nat n) c.

(** The position: as it was, but a shorter file moves it up to its end. *)
Definition truncated_position (c : bytes) (p n : Z) : Z := if n >? zlen c then p else Z.max p n.

Lemma holds_object w fd i c p : holds_file w fd i c p -> exists u, runs (obj i) w w u /\ open_as w fd i u /\ memory_file c p u.
Proof. intros (u & Ho & F). exists u. split; [|done]. apply runs_reads. by destruct Ho as (_ & _ & Hu). Qed.

(** The end of the data moves back to [n], over zeros. *)
Lemma cut_file w fd i c p n : holds_file w fd i (take (Z.to_nat n) c ++ zeros (zlen c - n)) p -> 0 <= n <= zlen c -> p <= zlen c ->
  exists w', runs (upd i (put_endM n)) w w' () /\ holds_file w' fd i (take (Z.to_nat n) c) p.
Proof.
  intros (u & Ho & F) Hn Hp. pose proof (open_as_bound _ _ _ _ Ho) as Hb. set (t := take (Z.to_nat n) c) in *.
  assert (Lt : zlen t = n) by (unfold t, zlen in *; rewrite length_take; lia).
  assert (Lz : zlen (zeros (zlen c - n)) = zlen c - n) by (unfold zeros; rewrite zlen_replicate; lia).
  exists (set_object i (put_endM n u) w). split.
  { apply runs_updates. destruct Ho as (_ & _ & ->). done. }
  exists (put_endM n u). split.
  - destruct Ho as (T & [Hfd (s & Hs & Hso)] & Hu). split; [by apply set_object_table|]. unfold set_object. rewrite Hs.
    split; [split; [done|]; cbn; by rewrite list_lookup_insert_eq; [eexists|]|].
    unfold object. cbn. by rewrite list_lookup_insert_eq.
  - destruct F as [[? ? ? ? ? ? (r & Eb & Er) ? Hl ? ?] ? ?]. rewrite !pad_length, zlen_app in *.
    split; [split|..]; cbn; try done; [|rewrite pad_length; lia].
    rewrite (pad_in _ p) in Eb by (rewrite zlen_app; lia).
    exists (zeros (zlen c - Z.max n p) ++ r). split.
    + rewrite Eb. unfold pad. rewrite <- !app_assoc. f_equal. rewrite app_assoc. f_equal. rewrite Lt.
      fold (zeros (p - n)). unfold zeros. rewrite <- replicate_add. f_equal. lia.
    + rewrite zlen_app, pad_length. unfold zeros. rewrite zlen_replicate. lia.
Qed.

Lemma bufferstate_file w fd i c p : holds_file w fd i c p -> exists r, runs (bufferstate i) w w r.
Proof.
  intros (u & Ho & F). eexists. unfold bufferstate. eapply runs_bind; [apply runs_reads; apply Ho|]. cbv beta.
  rewrite (mf_type _ _ _ F). eapply runs_bind; [apply runs_when_false|]. apply runs_ret.
Qed.

Section Truncate.
Context (f : nat) (w : W) (fd : Z) (i : nat) (c : bytes) (p n : Z).
Abbreviation fuel := (S f).
Context (HF : holds_file w fd i c p) (Hn : 0 <= n <= INT_MAX) (Hc : zlen c <= INT_MAX)
  (Hfuel : Z.max n (zlen c) < Z.of_nat fuel).

Lemma grow_file : n > zlen c -> p <= n ->
  exists w', runs (truncate_dynamic fuel fd i n) w w' 0 /\ holds_file w' fd i (c ++ zeros (n - zlen c)) p.
Proof.
  intros Hg Hp. pose proof (zlen_nonneg c). assert (Lz : zlen (zeros (n - zlen c)) = n - zlen c) by (unfold zeros; rewrite zlen_replicate; lia).
  destruct (bufferstate_file _ _ _ _ _ HF) as [r R0].
  destruct (seek_file f w fd i c p 0 SEEK_CUR p HF) as (w1 & R1 & F1); [by right; left|unfold seek_offset; cbn; lia|by right|].
  destruct (holds_object _ _ _ _ _ F1) as (u1 & O1 & _ & M1).
  destruct (seek_file f w1 fd i c p 0 SEEK_END (zlen c) F1) as (w2 & R2 & F2); [by right; right|unfold seek_offset; cbn; lia|left; lia|].
  destruct (holds_object _ _ _ _ _ F2) as (u2 & O2 & _ & M2).
  destruct (zero_fill_file fuel w2 fd i c (zlen c) (n - zlen c) F2) as (w3 & R3 & F3); [lia..|].
  rewrite splice_end in F3.
  destruct (seek_file f w3 fd i _ _ p SEEK_SET p F3) as (w4 & R4 & F4); [by left|unfold seek_offset; cbn; lia|left; rewrite zlen_app, Lz; pose proof (holds_pos _ _ _ _ _ HF); lia|].
  exists w4. split; [|done]. pose proof (holds_pos _ _ _ _ _ HF). unfold truncate_dynamic. eapply runs_bind; [exact R0|]. eapply runs_bind; [exact R1|].
  cbv beta. ztest. eapply runs_bind; [exact O1|]. cbv beta. rewrite (mf_end _ _ _ M1). ztest.
  eapply runs_bind; [exact R2|]. cbv beta. ztest. eapply runs_bind; [exact O2|]. cbv beta. rewrite (mf_end _ _ _ M2), to_int_id by (unfold INT_MAX in *; lia).
  eapply runs_bind; [exact R3|]. eapply runs_bind; [exact R4|]. cbv beta. ztest. apply runs_ret.
Qed.

Lemma shrink_file : n <= zlen c -> p <= zlen c ->
  exists w', runs (truncate_dynamic fuel fd i n) w w' 0 /\ holds_file w' fd i (take (Z.to_nat n) c) (Z.max p n).
Proof.
  intros Hg Hp. pose proof (holds_pos _ _ _ _ _ HF) as Hp0.
  assert (Ec : splice c n (zeros (zlen c - n)) = take (Z.to_nat n) c ++ zeros (zlen c - n)).
  { unfold splice, zeros. rewrite length_replicate, drop_ge, app_nil_r by (unfold zlen in *; lia). done. }
  assert (Lc : zlen (take (Z.to_nat n) c ++ zeros (zlen c - n)) = zlen c).
  { unfold zeros. rewrite zlen_app, zlen_replicate. unfold zlen in *. rewrite length_take. lia. }
  destruct (bufferstate_file _ _ _ _ _ HF) as [r R0].
  destruct (seek_file f w fd i c p 0 SEEK_CUR p HF) as (w1 & R1 & F1); [by right; left|unfold seek_offset; cbn; lia|by right|].
  destruct (holds_object _ _ _ _ _ F1) as (u1 & O1 & _ & M1).
  destruct (seek_file f w1 fd i c p n SEEK_SET n F1) as (w2 & R2 & F2); [by left|unfold seek_offset; cbn; lia|left; lia|].
  destruct (zero_fill_file fuel w2 fd i c n (zlen c - n) F2) as (w3 & R3 & F3); [lia..|]. rewrite Ec in F3.
  destruct (seek_file f w3 fd i _ _ p SEEK_SET p F3) as (w4 & R4 & F4); [by left|unfold seek_offset; cbn; lia|left; lia|].
  destruct (holds_object _ _ _ _ _ F4) as (u4 & O4 & _ & M4).
  assert (exists w5, runs (when (n >? p) (do! uxfio_lseek fuel fd n SEEK_SET in ret ())) w4 w5 ()
    /\ holds_file w5 fd i (take (Z.to_nat n) c ++ zeros (zlen c - n)) (Z.max p n)) as (w5 & R5 & F5).
  { destruct (n >? p) eqn:E; zbool.
    - destruct (seek_file f w4 fd i _ _ n SEEK_SET n F4) as (w5 & R5 & F5); [by left|unfold seek_offset; cbn; lia|left; lia|].
      exists w5. split; [eapply runs_bind; [exact R5|apply runs_ret]|]. by rewrite Z.max_r by lia.
    - exists w4. split; [apply runs_when_false|]. by rewrite Z.max_l by lia. }
  destruct (cut_file w5 fd i c (Z.max p n) n F5) as (w6 & R6 & F6); [lia..|]. exists w6. split; [|done].
  unfold truncate_dynamic. eapply runs_bind; [exact R0|]. eapply runs_bind; [exact R1|].
  cbv beta. ztest. eapply runs_bind; [exact O1|]. cbv beta. rewrite (mf_end _ _ _ M1). ztest.
  eapply runs_bind; [exact R2|]. cbv beta. ztest. rewrite to_int_id by (unfold INT_MAX in *; lia).
  eapply runs_bind; [exact R3|]. eapply runs_bind; [exact R4|]. cbv beta. ztest. eapply runs_bind; [exact O4|]. cbv beta.
  rewrite (mf_pos _ _ _ M4). eapply runs_bind; [exact R5|]. eapply runs_bind; [exact R6|]. apply runs_ret.
Qed.
End Truncate.

Lemma truncate_file f w fd i c p n : holds_file w fd i c p -> 0 <= n <= INT_MAX -> zlen c <= INT_MAX ->
  Z.max n (zlen c) < Z.of_nat (S f) -> p <= Z.max n (zlen c) ->
  exists w', runs (uxfio_ftruncate (S f) fd n) w w' 0 /\ holds_file w' fd i (resize c n) (truncated_position c p n).
Proof.
  intros (u & Ho & F) Hn Hc Hf Hp. destruct (fd_tests _ _ _ _ Ho) as (_ & E2 & E3).
  pose proof (file_intro w fd i u u c p (sys w) (errno w) Ho F) as F1. set (w1 := state_of w i u (sys w) (errno w)) in *.
  assert (exists w', runs (truncate_dynamic (S f) fd i n) w1 w' 0 /\ holds_file w' fd i (resize c n) (truncated_position c p n)) as (w' & R & F').
  { unfold resize, truncated_position. destruct (n >? zlen c) eqn:E; zbool; [eapply grow_file|eapply shrink_file]; eauto; lia. }
  exists w'. split; [|done]. unfold uxfio_ftruncate. rewrite E2, E3. cbn [andb]. unfold uxfio_internal_ftruncate.
  eapply runs_bind; [by eapply find_start|]. fold w1. cbv beta iota.
  eapply runs_bind; [apply obj_run; by eapply open_as_bound|]. cbv beta.
  assert ((match statbufM u with Some _ => v_endM u >? 0 | None => false end) = false) as ->.
  { pose proof (mf_vend _ _ _ F). destruct (statbufM u); [by ztest|done]. }
  rewrite (mf_type _ _ _ F). exact R.
Qed.

(** ** Opening *)

(** swlib_open_memfd of swlib.c, and the same calls in swlib_shcmd_output_fd
    and parseDefaultsFile (swextopt.c). *)
Definition swlib_open_memfd (fuel : nat) (o_rdwr : Z) : ST W Z :=
  let! fd := uxfio_open (Some []) o_rdwr 0 in
  if fd <? 0 then ret fd
  else
    do! uxfio_fcntl fuel fd UXFIO_F_SET_BUFACTIVE 1 in
    do! uxfio_fcntl fuel fd UXFIO_F_SET_BUFTYPE UXFIO_BUFTYPE_DYNAMIC_MEM in
    ret fd.

(** A new object, in the first slot that is free. *)
Lemma internal_open_run w : table_ok w -> Exists (fun s => slot_status s = false) (slots w) ->
  exists w' fd i u, runs internal_uxfio_open w w' (Some (fd, i)) /\ open_as w' fd i (internal_init fd u).
Proof.
  intros T E. destruct (prepared_ok w T) as [T1 D1]. pose proof (table_add_run _ D1 T1) as A.
  destruct (first_slot _ (slots (table_prepared w))) as [i|] eqn:Ei.
  - destruct A as [A T2]. pose proof Ei as (s & Hi & _)%first_slot_Some. pose proof (lookup_lt_Some _ _ _ Hi) as Hb.
    set (fd := UXFIO_FD_MIN + Z.of_nat i) in *. set (u := default fresh_UXFIO (s ← slots (table_prepared w) !! i; slot_file s)).
    assert (O : open_as (add_slot i (table_prepared w)) fd i u).
    { split; [done|]. unfold opened, object, add_slot. cbn. rewrite list_lookup_insert_eq by done. split; [|done].
      split; [done|]. by eexists. }
    exists (set_object i (internal_init fd u) (add_slot i (table_prepared w))), fd, i, u. split; [|by eapply open_as_set].
    unfold internal_uxfio_open. eapply runs_bind; [apply runs_gets|]. eapply runs_bind; [apply prepared_run|].
    eapply runs_bind; [exact A|]. cbv beta iota. eapply runs_bind; [by eapply upd_start|]. apply runs_ret.
  - apply first_slot_None in Ei. exfalso. apply Exists_exists in E as (s & (j & Hj)%list_elem_of_lookup_1 & Hs).
    rewrite Forall_lookup in Ei. unfold table_prepared in Ei. destruct (did_init w).
    + specialize (Ei j s Hj). by rewrite Hs in Ei.
    + cbn in Ei. specialize (Ei j (mkSlot (slot_status s) (slot_desc s) None)). rewrite list_lookup_fmap, Hj in Ei.
      specialize (Ei eq_refl). cbn in Ei. by rewrite Hs in Ei.
Qed.

Lemma malloc_length (n : nat) : zlen (malloc n) = Z.of_nat n.
Proof. unfold malloc, zlen. by rewrite length_fmap, length_seq. Qed.

Lemma init_memory fd u : memory_file [] 0
  (put_buffertypeM UXFIO_BUFTYPE_DYNAMIC_MEM (put_buffer_activeM 1 (put_uxfdM UXFIO_NULL_FD (put_uxfd_can_seekM 1
    (put_vir_uxfioM false (internal_init fd u)))))).
Proof.
  split; [split|..]; try done. exists (malloc (Z.to_nat (UXFIO_LEN + 1))). split; [done|]. rewrite malloc_length. done.
Qed.

Lemma memfd_opens fuel o_rdwr w : table_ok w -> Exists (fun s => slot_status s = false) (slots w) ->
  exists w' fd i, runs (swlib_open_memfd (S fuel) o_rdwr) w w' fd /\ holds_file w' fd i [] 0.
Proof.
  intros T E. destruct (internal_open_run w T E) as (w1 & fd & i & u & R1 & O1).
  pose proof (init_memory fd u) as M. set (u1 := put_vir_uxfioM false (internal_init fd u)) in *.
  set (u2 := put_uxfd_can_seekM 1 u1) in *. set (u3 := put_uxfdM UXFIO_NULL_FD u2) in *.
  pose proof (open_as_set w1 fd i _ u1 O1) as O2. pose proof (open_as_set _ fd i _ u2 O2) as O3.
  pose proof (open_as_set _ fd i _ u3 O3) as O4. set (w4 := set_object i u3 _) in *.
  pose proof (open_as_state w4 fd i u3 (put_buffer_activeM 1 u3) (sys w4) (errno w4) O4) as O5.
  pose proof (open_as_bound _ _ _ _ O4) as B4. pose proof (open_as_bound _ _ _ _ O5) as B5.
  destruct (fd_tests _ _ _ _ O4) as (_ & E2 & E3). set (w5 := state_of w4 i (put_buffer_activeM 1 u3) (sys w4) (errno w4)) in *.
  exists (state_of w5 i (put_buffertypeM UXFIO_BUFTYPE_DYNAMIC_MEM (put_buffer_activeM 1 u3)) (sys w5) (errno w5)), fd, i.
  split; [|by eapply file_intro]. unfold swlib_open_memfd.
  eapply (runs_bind _ _ w w4 _ fd).
  { unfold uxfio_open. eapply runs_bind; [exact R1|]. cbv beta iota. eapply runs_bind; [apply runs_ret|]. cbv beta. cbn [zlen length Z.of_nat Z.eqb negb andb].
    unfold uxfio__change_state. eapply runs_bind; [by eapply upd_start|]. eapply runs_bind; [by eapply upd_start|].
    eapply runs_bind; [by eapply upd_start|]. apply runs_ret. }
  cbv beta. assert ((fd <? 0) = false) as -> by (unfold UXFIO_FD_MIN in E2; zbool; apply Z.ltb_ge; lia).
  eapply (runs_bind _ _ w4 w5 _ 0).
  { cbn [uxfio_fcntl]. rewrite E2. cbn [andb]. eapply runs_bind; [by eapply find_start|]. cbv beta iota. ostep. cbv beta iota zeta.
    unfold set_bufactive. eapply step_run; [apply obj_run; exact B4|]. cbv beta zeta. cbn [UXFIO_F_SET_BUFACTIVE Z.eqb Pos.eqb].
    ostep. apply runs_ret. }
  cbv beta. eapply (runs_bind _ _ w5 _ _ 0); [|apply runs_ret].
  cbn [uxfio_fcntl]. rewrite E2. cbn [andb]. eapply runs_bind; [by eapply find_start|]. cbv beta iota. ostep. cbv beta iota zeta.
  unfold set_buftype. cbn [UXFIO_F_SET_BUFTYPE Z.eqb Pos.eqb]. ostep. ostep. ostep. apply runs_ret.
Qed.

(** ** The memory of the file *)

Lemma mem_write_behind a b off d b' : zlen a <= off -> mem_write b (off - zlen a) d = Some b' ->
  mem_write (a ++ b) off d = Some (a ++ b').
Proof.
  pose proof (zlen_nonneg a). intros Ho (Hw1 & Hw2 & ->)%mem_write_Some. rewrite mem_write_in by (rewrite ?zlen_app; lia). f_equal.
  unfold zlen in *. rewrite take_app_ge, drop_app_ge, <- app_assoc by lia. do 3 f_equal; [f_equal; lia|]. f_equal. lia.
Qed.

Lemma mem_write_first x (b : ascii) r : mem_write (b :: r) 0 [x] = Some (x :: r).
Proof. rewrite mem_write_in; [done|lia|]. rewrite !zlen_cons. pose proof (zlen_nonneg r). change (zlen (@nil ascii)) with 0. lia. Qed.

(** The block with a NUL at its last byte and one behind the data. *)
Lemma terminate_block c p r len : 0 <= p -> zlen (pad c p) <= len -> zlen r = len + 1 - zlen (pad c p) ->
  exists m1 m2, mem_write (pad c p ++ r) len [NUL] = Some m1 /\ mem_write m1 (zlen c) [NUL] = Some m2
    /\ (exists r', m2 = pad c p ++ r' /\ zlen r' = zlen r) /\ take (Z.to_nat (zlen c + 1)) m2 = c ++ [NUL].
Proof.
  intros Hp Hl Hr. pose proof (zlen_nonneg c). destruct (mem_write_exists r (len - zlen (pad c p)) [NUL]) as [r1 E1]; [lia|change (zlen [NUL]) with 1; lia|].
  pose proof (mem_write_length _ _ _ _ E1) as L1.
  exists (pad c p ++ r1). assert (T : forall x, take (Z.to_nat (zlen c + 1)) (c ++ NUL :: x) = c ++ [NUL]).
  { intros x. unfold zlen. replace (Z.to_nat (Z.of_nat (length c) + 1)) with (length c + 1)%nat by lia. by rewrite take_app_add. }
  destruct (decide (p <= zlen c)) as [Hin|Hout].
  - rewrite (pad_in c p Hin) in *. destruct r1 as [|b r1]; [unfold zlen in *; cbn in L1; lia|]. exists (c ++ NUL :: r1).
    split; [by apply mem_write_behind|]. split; [apply mem_write_behind; [done|by rewrite Z.sub_diag, mem_write_first]|]. split; [|apply T].
    exists (NUL :: r1). split; [done|]. unfold zlen in *. cbn [length] in *. lia.
  - exists (pad c p ++ r1). split; [by apply mem_write_behind|].
    assert (Ep : pad c p ++ r1 = c ++ NUL :: replicate (Z.to_nat (p - zlen c - 1)) NUL ++ r1).
    { unfold pad. replace (Z.to_nat (p - zlen c)) with (S (Z.to_nat (p - zlen c - 1))) by lia. by rewrite <- app_assoc. }
    split; [|split; [exists r1; unfold zlen in *; split; [done|lia]|by rewrite Ep]].
    rewrite Ep. apply mem_write_behind; [done|]. by rewrite Z.sub_diag, mem_write_first.
Qed.

Lemma memory_of_file f w fd i c p : holds_file w fd i c p -> p <= zlen c ->
  exists w' m, runs (uxfio_get_dynamic_buffer (S f) fd true) w w' (Some (m, zlen c, Some (zlen c)))
    /\ holds_file w' fd i c p /\ take (Z.to_nat (zlen c + 1)) m = c ++ [NUL].
Proof.
  intros (u & Ho & F) Hp. pose proof (open_as_bound _ _ _ _ Ho) as Hb. pose proof (zlen_nonneg c).
  destruct (mf_block _ _ _ F) as (r & Eb & Er). pose proof (mf_range _ _ _ F) as Hp0.
  destruct (terminate_block c p r (lenM u) Hp0 (mf_len _ _ _ F) Er) as (m1 & m2 & E1 & E2 & (r' & E3 & L3) & T).
  assert (F1 : memory_file c p (put_bufM m2 u)).
  { destruct F as [[] ? ?]. split; [split|..]; cbn; try done. exists r'. split; [done|]. lia. }
  set (w0 := state_of w i u (sys w) (errno w)). set (w1 := state_of w i (put_bufM m2 u) (sys w) (errno w)).
  assert (B1 : holds_block w1 fd i c p m2) by (exists (put_bufM m2 u); split; [by eapply open_as_state|done]).
  destruct (seek_block f w1 fd i c p 0 SEEK_CUR p _ B1) as (w2 & R2 & B2); [by right; left|unfold seek_offset; cbn; lia|by right|].
  destruct (seek_block f w2 fd i c p 0 SEEK_END (zlen c) _ B2) as (w3 & R3 & B3); [by right; right|unfold seek_offset; cbn; lia|left; lia|].
  destruct (seek_block f w3 fd i c _ 0 SEEK_CUR (zlen c) _ B3) as (w4 & R4 & B4); [by right; left|unfold seek_offset; cbn; lia|by right|].
  destruct (seek_block f w4 fd i c _ p SEEK_SET p _ B4) as (w5 & R5 & B5); [by left|unfold seek_offset; cbn; lia|left; lia|].
  exists w5, m2. split; [|split; [by eapply holds_block_file|done]].
  unfold uxfio_get_dynamic_buffer. eapply runs_bind; [by eapply find_start|]. cbv beta iota. ostep. rewrite (mf_type _ _ _ F), Eb, (mf_end _ _ _ F).
  cbn [UXFIO_BUFTYPE_DYNAMIC_MEM Z.eqb Pos.eqb]. eapply runs_bind; [by apply runs_lift|]. eapply runs_bind; [by apply runs_lift|]. cbv beta. ostep. fold w1.
  eapply (runs_bind _ _ w1 w5 _ (Some (zlen c))).
  { eapply runs_bind; [exact R2|]. eapply runs_bind; [exact R3|]. eapply runs_bind; [exact R4|]. eapply runs_bind; [exact R5|]. apply runs_ret. }
  cbv beta. destruct B5 as (u5 & (_ & _ & O5) & F5 & E5). eapply runs_bind; [by apply runs_reads|]. cbv beta.
  rewrite (mf_end _ _ _ F5), E5. apply runs_ret.
Qed.
End File.
