(* ===== verification/UxfioSpec.v ===== *)
(** * Files in memory: refinement, moves that never return, virtual ends

    The calls on a file in memory compute what the same calls compute on a text
    with a position; a move behind the data never returns; a virtual end of file
    delivers exactly the bytes before it. *)

From S2P Require Import Prelude CString Strob Strar Escape Effects UxfioState Uxfio UxfioTable UxfioObject UxfioMemory UxfioFile.

#[local] Open Scope effects_scope.

(** ** The abstract file *)

Record byte_file := mkFile { content : bytes; position : Z }.

Inductive file_op :=
  | FRead (n : Z)
  | FWrite (d : bytes)
  | FSeek (offset whence : Z)
  | FTruncate (n : Z)
  | FMemory.

Inductive file_result := FBytes (d : bytes) | FNumber (z : Z) | FText (d : bytes) (n : Z).

Definition seek_to (f : byte_file) (offset whence : Z) : option Z :=
  if whence =? SEEK_SET then Some offset
  else if whence =? SEEK_CUR then Some (position f + offset)
  else if whence =? SEEK_END then Some (zlen (content f) + offset)
  else None.

(** One operation: [None] where the file promises nothing (a transfer that is
    not in the range of int, a move behind the end, a truncation of a file of
    [limit] bytes or more).  A write behind the end fills with zeros. A file
    that is made shorter than its position goes on there; one that is made
    shorter, but not below the position, has its position moved to the end. *)
Definition file_step (limit : Z) (op : file_op) (f : byte_file) : option (byte_file * file_result) :=
  let c := content f in
  let p := position f in
  match op with
  | FRead n =>
      if (0 <=? n) && (n <=? INT_MAX)
      then Some (mkFile c (p + zlen (piece c p n)), FBytes (piece c p n)) else None
  | FWrite d =>
      if zlen d <=? INT_MAX
      then Some (mkFile (splice (pad c p) p d) (p + zlen d), FNumber (zlen d)) else None
  | FSeek offset whence =>
      t ← seek_to f offset whence;
      if t <? 0 then Some (f, FNumber UXFIO_RET_EFAIL)
      else if (t <=? zlen c) || (t =? p) then Some (mkFile c t, FNumber t) else None
  | FTruncate n =>
      if (0 <=? n) && (Z.max n (zlen c) <? limit) && (Z.max n (zlen c) <=? INT_MAX) && (p <=? Z.max n (zlen c))
      then Some (mkFile (resize c n) (truncated_position c p n), FNumber 0) else None
  | FMemory => if p <=? zlen c then Some (f, FText (c ++ [NUL]) (zlen c)) else None
  end.

Fixpoint file_run (limit : Z) (ops : list file_op) (f : byte_file) : option (byte_file * list file_result) :=
  match ops with
  | [] => Some (f, [])
  | op :: ops =>
      '(f, r) ← file_step limit op f;
      '(f, rs) ← file_run limit ops f;
      Some (f, r :: rs)
  end.

Section Refinement.
Context {K : Type} `{Kernel K} `{Malloc} {heap : Heap}.
Abbreviation W := (World K).
Implicit Types (w : W) (u : UXFIO) (i : nat) (fd : Z) (c d : bytes) (p n : Z).

(** The calls that stand for the operations. *)
Definition do_file_op (fuel : nat) (fd : Z) (op : file_op) : ST W file_result :=
  match op with
  | FRead n => let! (_, d) := uxfio_read fuel fd n in ret (FBytes d)
  | FWrite d => let! n := uxfio_write fuel fd d in ret (FNumber n)
  | FSeek offset whence => let! t := uxfio_lseek fuel fd offset whence in ret (FNumber t)
  | FTruncate n => let! r := uxfio_ftruncate fuel fd n in ret (FNumber r)
  | FMemory =>
      let! r := uxfio_get_dynamic_buffer fuel fd true in
      ret (match r with
           | Some (m, buffer_end, Some len) => FText (take (Z.to_nat (buffer_end + 1)) m) len
           | _ => FNumber (-1)
           end)
  end.

Fixpoint do_file_ops (fuel : nat) (fd : Z) (ops : list file_op) : ST W (list file_result) :=
  match ops with
  | [] => ret []
  | op :: ops =>
      let! r := do_file_op fuel fd op in
      let! rs := do_file_ops fuel fd ops in
      ret (r :: rs)
  end.

Lemma seek_to_offset f o whence t : seek_to f o whence = Some t ->
  plain_whence whence /\ t = position f + seek_offset (content f) (position f) o whence.
Proof.
  unfold seek_to, seek_offset, plain_whence. intros E.
  destruct (whence =? SEEK_SET) eqn:E1; [injection E as <-; zbool; split; [by left|lia]|].
  destruct (whence =? SEEK_CUR) eqn:E2; [injection E as <-; zbool; split; [by right; left|lia]|].
  destruct (whence =? SEEK_END) eqn:E3; [injection E as <-; zbool; split; [by right; right|lia]|done].
Qed.

Lemma file_op_refines fuel w fd i op f f' r :
  holds_file w fd i (content f) (position f) -> file_step (Z.of_nat (S fuel)) op f = Some (f', r) ->
  exists w', runs (do_file_op (S fuel) fd op) w w' r /\ holds_file w' fd i (content f') (position f').
Proof.
  destruct f as [c p]. cbn [content position]. intros F. destruct op as [n|d|o whence|n|]; cbn [file_step content position do_file_op].
  - destruct (_ && _) eqn:E; [|done]. intros [= <- <-]. zbool.
    destruct (read_file fuel w fd i c p n F) as (w' & R & F'); [lia|]. exists w'. split; [|done].
    eapply runs_bind; [exact R|]. apply runs_ret.
  - destruct (_ <=? _) eqn:E; [|done]. intros [= <- <-]. zbool.
    destruct (write_file fuel w fd i c p d F) as (w' & R & F'); [lia|]. exists w'. split; [|done].
    eapply runs_bind; [exact R|]. apply runs_ret.
  - destruct (seek_to _ _ _) as [t|] eqn:E; cbn [mbind option_bind]; [|done]. apply seek_to_offset in E as [Hw Ht]. cbn in Ht.
    destruct (t <? 0) eqn:E0; [|destruct (_ || _) eqn:E1; [|done]]; intros [= <- <-]; zbool.
    + destruct F as (u & Ho & F). eexists. split; [|by eapply file_intro].
      eapply runs_bind; [eapply uxfio_lseek_before; [exact Ho|exact F|done|]|apply runs_ret]. unfold seek_by. lia.
    + destruct (seek_file fuel w fd i c p o whence t F Hw Ht) as (w' & R & F').
      { destruct E1 as [E1|E1]; zbool; [left; lia|by right]. }
      exists w'. split; [|done]. eapply runs_bind; [exact R|]. apply runs_ret.
  - destruct (_ && _) eqn:E; [|done]. intros [= <- <-]. zbool.
    destruct (truncate_file fuel w fd i c p n F) as (w' & R & F'); [lia..|]. exists w'. split; [|done].
    eapply runs_bind; [exact R|]. apply runs_ret.
  - destruct (_ <=? _) eqn:E; [|done]. intros [= <- <-]. zbool.
    destruct (memory_of_file fuel w fd i c p F) as (w' & m & R & F' & T); [lia|]. exists w'. split; [|done].
    eapply runs_bind; [exact R|]. cbv beta iota. rewrite T. apply runs_ret.
Qed.

Lemma file_ops_refine fuel w fd i ops f f' rs :
  holds_file w fd i (content f) (position f) -> file_run (Z.of_nat (S fuel)) ops f = Some (f', rs) ->
  exists w', runs (do_file_ops (S fuel) fd ops) w w' rs /\ holds_file w' fd i (content f') (position f').
Proof.
  revert w f rs. induction ops as [|op ops IH]; intros w f rs F; cbn [file_run].
  { intros [= <- <-]. exists w. split; [apply runs_ret|done]. }
  destruct (file_step _ op f) as [[f1 r]|] eqn:E1; cbn [mbind option_bind]; [|done].
  destruct (file_run _ ops f1) as [[f2 rs']|] eqn:E2; cbn [mbind option_bind]; [|done]. intros [= <- <-].
  destruct (file_op_refines fuel w fd i op f f1 r F E1) as (w1 & R1 & F1).
  destruct (IH w1 f1 rs' F1 E2) as (w2 & R2 & F2). exists w2. split; [|done].
  cbn [do_file_ops]. eapply runs_bind; [exact R1|]. eapply runs_bind; [exact R2|]. apply runs_ret.
Qed.

(** C4: swlib_open_memfd, in any state of the process with a free descriptor,
    opens an empty file; and from then on every sequence of reads, writes,
    moves, truncations and requests of the memory on that descriptor answers
    what it answers on a text with a position. *)
Theorem memfd_implements_file w fuel o_rdwr :
  reachable w -> Exists (fun s => slot_status s = false) (slots w) ->
  exists w1 fd i, runs (swlib_open_memfd (S fuel) o_rdwr) w w1 fd /\ opened w1 fd i /\
    forall ops f rs, file_run (Z.of_nat (S fuel)) ops (mkFile [] 0) = Some (f, rs) ->
      exists w2, runs (do_file_ops (S fuel) fd ops) w1 w2 rs /\ holds_file w2 fd i (content f) (position f).
Proof.
  intros T%reachable_ok E. destruct (memfd_opens fuel o_rdwr w T E) as (w1 & fd & i & R & F).
  exists w1, fd, i. split; [done|]. split; [by destruct F as (u & (_ & Ho & _) & _)|].
  intros ops f rs Hr. by eapply (file_ops_refine fuel w1 fd i ops (mkFile [] 0)).
Qed.

(** ** A move that never returns *)

Lemma read_bytes_stuck rounds fuel w fd i c p amount have :
  holds_file w fd i c p -> Z.max 0 (zlen c - p) < amount <= INT_MAX ->
  exists w' q, running (read_bytes_loop rounds fuel fd amount have) w w' /\ holds_file w' fd i c q /\ p <= q <= Z.max p (zlen c).
Proof.
  revert w p amount have. induction rounds as [|rounds IH]; intros w p amount have F Ha; [exists w, p; split_and!; [done..|lia]|]. cbn [read_bytes_loop]. ztest. cbv zeta.
  set (bite := if 4096 <? amount then 4096 else amount).
  assert (Hb : 0 < bite <= 4096 /\ bite <= amount) by (unfold bite; case_match; zbool; lia).
  pose proof (holds_pos _ _ _ _ _ F) as Hp. destruct fuel as [|fuel].
  { exists w, p. split; [|split; [done|lia]]. destruct F as (u & Ho & _). destruct (fd_tests _ _ _ _ Ho) as (_ & E2 & E3).
    apply running_now. unfold uxfio_read, read_below. by rewrite E2, E3. }
  destruct (read_file fuel w fd i c p bite F) as (w' & R & F'); [unfold INT_MAX in *; lia|].
  pose proof (zlen_nonneg (piece c p bite)).
  assert (Hl : p + zlen (piece c p bite) <= Z.max p (zlen c)).
  { destruct (decide (p <= zlen c)); [rewrite piece_length by lia; lia|].
    assert (piece c p bite = []) as -> by (unfold piece, zlen in *; rewrite drop_ge by lia; by destruct (Z.to_nat bite)).
    change (zlen (@nil ascii)) with 0. lia. }
  destruct (IH w' (p + zlen (piece c p bite)) (amount - zlen (piece c p bite)) (have + zlen (piece c p bite)) F')
    as (w2 & q & R2 & F2 & Hq); [lia|].
  exists w2, q. split; [|split; [done|lia]]. eapply running_later; [exact R|]. cbv beta iota. by ztest.
Qed.

(** C30: uxfio_lseek to a position behind the data of a file in memory never
    returns: it reads the bytes in between, a read at the end answers 0, and the
    loop goes on; lseek of the system would have moved there. With any fuel the
    call is still in its loop, every step of which is defined: the file has its
    data, and the position has not passed the end. *)
Theorem seek_behind_never_returns w fd i c p o whence :
  holds_file w fd i c p -> plain_whence whence ->
  0 < seek_offset c p o whence <= INT_MAX -> zlen c < p + seek_offset c p o whence ->
  forall fuel, exists w' q, running (uxfio_lseek fuel fd o whence) w w' /\ holds_file w' fd i c q /\ p <= q <= Z.max p (zlen c).
Proof.
  intros (u & Ho & F) Hw Hs Hb [|fuel]; [exists w, p; split_and!; [done|by exists u|lia..]|]. destruct (fd_tests _ _ _ _ Ho) as (_ & E2 & _).
  pose proof (open_as_bound _ _ _ _ Ho) as Hbd. set (w1 := state_of w i u (sys w) (errno w)). set (n := seek_offset c p o whence) in *.
  destruct (read_bytes_stuck (S fuel) (S fuel) w1 fd i c p n 0) as (w' & q & RB & FB & Hq); [by eapply file_intro|lia|].
  exists w', q. split; [|done].
  assert (R1 : runs (lseek_target i o whence) w1 w1 (Some (n, SEEK_CUR, false))) by by eapply lseek_target_memory.
  assert (R2 : runs (obj i) w1 w1 u) by by apply obj_run.
  assert (R3 : runs (bufferstate i) w1 w1 (p, zlen c - p, lenM u - zlen c)) by (eapply bufferstate_memory; [exact Ho|apply F]).
  cbn [uxfio_lseek]. rewrite E2. cbn [andb]. eapply running_later; [by apply (find_start _ _ _ _ Ho)|]. cbv beta iota.
  eapply running_later; [exact R1|]. cbv beta iota. eapply running_later; [exact R2|]. cbv beta.
  rewrite (mf_active _ _ _ F). cbn [Z.eqb andb]. unfold lseek_move.
  eapply running_later; [exact R3|]. cbv beta iota. eapply running_later; [exact R2|]. ztest.
  apply running_now. unfold move_beyond. eapply running_later; [exact R2|]. pose proof (mf_vend _ _ _ F). ztest.
  rewrite (mf_type _ _ _ F), (mf_active _ _ _ F). cbn [UXFIO_BUFTYPE_DYNAMIC_MEM UXFIO_BUFTYPE_FILE Z.eqb Pos.eqb negb andb].
  apply running_now. unfold uxfio__read_bytes. by rewrite to_int_id by (unfold INT_MAX in *; lia).
Qed.

(** ** A virtual end of file *)

(** What the reads deliver: [left] bytes are left before the virtual end, which
    the read that meets it takes away. *)
Fixpoint virtual_reads (c : bytes) (p : Z) (left_ : option Z) (ns : list Z) : list bytes :=
  match ns with
  | [] => []
  | n :: ns =>
      match left_ with
      | Some l =>
          if l =? 0 then [] :: virtual_reads c p None ns
          else let d := piece c p (Z.min n l) in d :: virtual_reads c (p + zlen d) (Some (l - zlen d)) ns
      | None => let d := piece c p n in d :: virtual_reads c (p + zlen d) None ns
      end
  end.

Fixpoint do_reads (fuel : nat) (fd : Z) (ns : list Z) : ST W (list bytes) :=
  match ns with
  | [] => ret []
  | n :: ns =>
      let! (_, d) := uxfio_read fuel fd n in
      let! ds := do_reads fuel fd ns in
      ret (d :: ds)
  end.

(** The object with a virtual end [l] bytes behind the position. *)
Definition virtual_file (c : bytes) (p l : Z) (u : UXFIO) : Prop :=
  memory_block c p u /\ v_endM u < 0 /\ 0 < offset_eofM u /\ l = offset_eofM u - virtual_offsetM u.

Definition holds_virtual (w : W) (fd : Z) (i : nat) (c : bytes) (p : Z) (left_ : option Z) : Prop :=
  match left_ with
  | Some l => exists u, open_as w fd i u /\ virtual_file c p l u
  | None => holds_file w fd i c p
  end.

Lemma virtual_limit c p l u n : virtual_file c p l u -> virtual_eof_active u = true
  /\ veof_limit u n = if l <=? n then (l, true) else (n, false).
Proof. intros (_ & Hv & He & ->). unfold virtual_eof_active, veof_limit. by ztest. Qed.

Lemma enforce_virtual w fd i u0 k e c p l u n : open_as w fd i u0 -> virtual_file c p l u ->
  runs (enforce_veof i n) (state_of w i u k e) (state_of w i u k e) (if l <=? n then (l, true) else (n, false)).
Proof.
  intros Ho V. pose proof (open_as_bound _ _ _ _ Ho). destruct (virtual_limit c p l u n V) as [Ha Hl].
  unfold enforce_veof. ostep. rewrite Ha, Hl. apply runs_ret.
Qed.

Lemma read_virtual fuel w fd i c p l n : holds_virtual w fd i c p (Some l) -> 0 <= l <= zlen c - p -> 0 <= n <= INT_MAX ->
  exists w', if l =? 0
    then runs (uxfio_read (S fuel) fd n) w w' (0, []) /\ holds_virtual w' fd i c p None
    else runs (uxfio_read (S fuel) fd n) w w' (Z.min n l, piece c p (Z.min n l))
         /\ holds_virtual w' fd i c (p + Z.min n l) (Some (l - Z.min n l)).
Proof.
  intros (u & Ho & V) Hl Hn. destruct (fd_tests _ _ _ _ Ho) as (_ & E2 & E3). pose proof (open_as_bound _ _ _ _ Ho) as Hb.
  pose proof V as (F & Hv & He & Ev). set (k := sys w). set (e := errno w).
  assert (Hread : forall w' r,
    runs (read_object (S fuel) (uxfio_common_read fuel) fd i n false) (state_of w i u k e) w' r -> runs (uxfio_read (S fuel) fd n) w w' r).
  { intros w' r R. unfold uxfio_read, read_below. rewrite E2, E3. cbn [andb uxfio_common_read].
    eapply step_run; [by eapply find_start|]. cbv beta iota. by rewrite to_int_id by (unfold INT_MAX in *; lia). }
  pose proof (enforce_virtual w fd i u k e c p l u n Ho V) as RV.
  destruct (decide (l = 0)) as [->|Hnz].
  - exists (state_of w i (reset_veof u) k e). cbn [Z.eqb]. split.
    + apply Hread. unfold read_object. ostep. rewrite (mf_type _ _ _ F). cbn [UXFIO_BUFTYPE_DYNAMIC_MEM UXFIO_BUFTYPE_FILE Z.eqb Pos.eqb orb].
      eapply step_run; [exact RV|]. cbv beta. ztest. cbv beta iota. cbn [Z.leb Z.compare andb]. ostep. apply runs_ret.
    + exists (reset_veof u). split; [by eapply open_as_state|]. unfold reset_veof. ztest.
      split; [destruct F; by split|cbn; lia|done].
  - assert ((l =? 0) = false) as -> by (apply Z.eqb_neq; lia). set (m := Z.min n l).
    destruct (read_rest_memory w fd i u Ho k e (S fuel) (uxfio_common_read fuel) c p u m false F) as (u' & R & F' & Ee & Eve & Evo); [unfold m; lia|].
    pose proof (mf_range _ _ _ F) as Hp. assert (El : zlen (piece c p m) = m) by (rewrite piece_length; unfold m; lia).
    rewrite El in *. exists (state_of w i u' k e). split.
    + apply Hread. unfold read_object. ostep. rewrite (mf_type _ _ _ F). cbn [UXFIO_BUFTYPE_DYNAMIC_MEM UXFIO_BUFTYPE_FILE Z.eqb Pos.eqb orb].
      eapply step_run; [exact RV|]. cbv beta.
      assert (Em : (if l <=? n then (l, true) else (n, false)) = (m, l <=? n)) by (unfold m; destruct (l <=? n) eqn:E; zbool; f_equal; lia).
      rewrite Em. cbv beta iota.
      assert ((m <=? 0) && (l <=? n) = false) as -> by (apply andb_false_iff; unfold m; destruct (l <=? n) eqn:E; zbool; [left; apply Z.leb_gt; lia|by right]).
      ostep. rewrite (mf_active _ _ _ F). cbn [Z.eqb]. eapply step_run; [eapply bufferstate_memory; [exact Ho|exact F]|]. exact R.
    + exists u'. split; [by eapply open_as_state|]. split; [done|]. rewrite Ee, Eve, Evo. split_and!; [done..|lia].
Qed.

Lemma set_veof_virtual fuel w fd i c p N : holds_file w fd i c p -> 0 < N ->
  exists w', runs (uxfio_fcntl (S fuel) fd UXFIO_F_SET_VEOF N) w w' 0 /\ holds_virtual w' fd i c p (Some N).
Proof.
  intros (u & Ho & F) HN. destruct (fd_tests _ _ _ _ Ho) as (_ & E2 & _). pose proof (open_as_bound _ _ _ _ Ho) as Hb.
  exists (state_of w i (set_veof N u) (sys w) (errno w)). split.
  - cbn [uxfio_fcntl]. rewrite E2. cbn [andb]. eapply step_run; [by eapply find_start|]. cbv beta iota. ostep.
    cbn [UXFIO_F_SET_VEOF Z.eqb Pos.eqb]. cbv zeta. ostep. apply runs_ret.
  - exists (set_veof N u). split; [by eapply open_as_state|]. unfold set_veof. ztest. destruct F as [[] ? ?].
    split; [by split|]. cbn. split_and!; [done|lia|lia].
Qed.

Lemma do_reads_virtual fuel w fd i c p left_ ns : holds_virtual w fd i c p left_ ->
  match left_ with Some l => 0 <= l <= zlen c - p | None => True end -> Forall (fun n => 0 <= n <= INT_MAX) ns ->
  exists w', runs (do_reads (S fuel) fd ns) w w' (virtual_reads c p left_ ns).
Proof.
  revert w p left_. induction ns as [|n ns IH]; intros w p left_ V Hl Hns; [exists w; apply runs_ret|].
  apply Forall_cons in Hns as [Hn Hns]. cbn [do_reads virtual_reads]. destruct left_ as [l|].
  - assert (Hp : 0 <= p) by (destruct V as (u & _ & F & _); apply (mf_range _ _ _ F)).
    destruct (read_virtual fuel w fd i c p l n V Hl Hn) as (w1 & R). destruct (l =? 0) eqn:E; destruct R as [R V1].
    + destruct (IH w1 p None V1 I Hns) as (w2 & R2). exists w2. eapply runs_bind; [exact R|]. cbv beta iota.
      eapply runs_bind; [exact R2|]. apply runs_ret.
    + zbool. assert (El : zlen (piece c p (Z.min n l)) = Z.min n l) by (rewrite piece_length; lia). cbv zeta. rewrite El.
      destruct (IH w1 _ _ V1) as (w2 & R2); [lia|done|]. exists w2. eapply runs_bind; [exact R|]. cbv beta iota.
      eapply runs_bind; [exact R2|]. apply runs_ret.
  - destruct (read_file fuel w fd i c p n V Hn) as (w1 & R & F1). destruct (IH w1 _ None F1 I Hns) as (w2 & R2).
    exists w2. eapply runs_bind; [exact R|]. cbv beta iota. eapply runs_bind; [exact R2|]. apply runs_ret.
Qed.

Lemma piece_split c p a b : 0 <= p -> 0 <= a -> 0 <= b -> piece c p a ++ piece c (p + a) b = piece c p (a + b).
Proof.
  intros. unfold piece. replace (Z.to_nat (a + b)) with (Z.to_nat a + Z.to_nat b)%nat by lia.
  rewrite <- take_take_drop. f_equal. rewrite drop_drop. do 2 f_equal. lia.
Qed.

(** Enough reads deliver the bytes before the virtual end, then none, then the
    bytes behind it. *)
Lemma virtual_reads_stop c p l ns : 0 <= p -> 0 <= l <= zlen c - p -> Forall (fun n => 0 < n) ns -> l < Z.of_nat (length ns) ->
  exists ds ns', virtual_reads c p (Some l) ns = ds ++ [] :: virtual_reads c (p + l) None ns'
    /\ concat ds = piece c p l /\ Forall (fun d => d <> []) ds.
Proof.
  revert p l. induction ns as [|n ns IH]; intros p l Hp Hl Hns Hlen; [cbn in Hlen; lia|].
  apply Forall_cons in Hns as [Hn Hns]. cbn [virtual_reads]. destruct (l =? 0) eqn:E; zbool.
  - subst l. exists [], ns. rewrite Z.add_0_r. split; [done|]. split; [done|constructor].
  - set (m := Z.min n l). assert (El : zlen (piece c p m) = m) by (rewrite piece_length; unfold m; lia). cbv zeta. rewrite El.
    destruct (IH (p + m) (l - m)) as (ds & ns' & E1 & E2 & E3); [unfold m; lia..|done|cbn [length] in Hlen; unfold m; lia|].
    exists (piece c p m :: ds), ns'. split; [|split].
    + rewrite E1. replace (p + m + (l - m)) with (p + l) by lia. done.
    + cbn [concat]. rewrite E2, piece_split by (unfold m; lia). f_equal. lia.
    + constructor; [|done]. intros E0. rewrite E0 in El. unfold zlen, m in El. cbn in El. lia.
Qed.

(** C27: after UXFIO_F_SET_VEOF with N on a file in memory that has N bytes left,
    reads of any sizes deliver the N bytes and not one more, then one read that
    answers 0, and the reads after it go on behind the virtual end. *)
Theorem virtual_end_delivers fuel w fd i c p N ns :
  holds_file w fd i c p -> 0 < N <= zlen c - p ->
  Forall (fun n => 0 < n <= INT_MAX) ns -> N < Z.of_nat (length ns) ->
  exists w1 w2 ds ns',
    runs (uxfio_fcntl (S fuel) fd UXFIO_F_SET_VEOF N) w w1 0
    /\ runs (do_reads (S fuel) fd ns) w1 w2 (ds ++ [] :: virtual_reads c (p + N) None ns')
    /\ concat ds = piece c p N /\ Forall (fun d => d <> []) ds.
Proof.
  intros F HN Hns Hlen. pose proof (holds_pos _ _ _ _ _ F) as Hp.
  destruct (set_veof_virtual fuel w fd i c p N F) as (w1 & R1 & V); [lia|].
  destruct (do_reads_virtual fuel w1 fd i c p (Some N) ns V) as (w2 & R2); [lia|eapply Forall_impl; [exact Hns|cbn; lia]|].
  destruct (virtual_reads_stop c p N ns) as (ds & ns' & E1 & E2 & E3); [lia..|eapply Forall_impl; [exact Hns|cbn; lia]|done|].
  rewrite E1 in R2. by exists w1, w2, ds, ns'.
Qed.
End Refinement.

Module Witness.
#[local] Existing Instance no_system.
#[local] Existing Instance one_heap.
#[local] Existing Instance UxfioTable.Witness.zero_junk.

Definition start : World () := initial_world ().

Lemma start_free : Exists (fun s => slot_status s = false) (slots start).
Proof. vm_compute. apply Exists_cons_hd. reflexivity. Qed.

Definition session : list file_op :=
  [FWrite (L "hello"); FSeek (-4) SEEK_CUR; FRead 3; FSeek (-9) SEEK_CUR; FTruncate 8; FSeek 0 SEEK_END; FWrite (L "!"); FMemory;
   FSeek 0 SEEK_SET; FTruncate 5; FRead 9].

Lemma memfd_implements_file_witness :
  exists w1 fd i w2, runs (swlib_open_memfd 41 2) start w1 fd /\ opened w1 fd i
    /\ runs (do_file_ops 41 fd session) w1 w2
         [FNumber 5; FNumber 1; FBytes (L "ell"); FNumber (-9999); FNumber 0; FNumber 8; FNumber 1;
          FText (L "hello" ++ [NUL; NUL; NUL; "!"%char; NUL]) 9; FNumber 0; FNumber 0; FBytes []]
    /\ holds_file w2 fd i (L "hello") 5.
Proof.
  destruct (memfd_implements_file start 40 2 (reach_start ()) start_free) as (w1 & fd & i & R1 & O & R2).
  destruct (R2 session (mkFile (L "hello") 5)
    [FNumber 5; FNumber 1; FBytes (L "ell"); FNumber (-9999); FNumber 0; FNumber 8; FNumber 1;
     FText (L "hello" ++ [NUL; NUL; NUL; "!"%char; NUL]) 9; FNumber 0; FNumber 0; FBytes []]) as (w2 & R & F).
  { vm_compute. reflexivity. }
  exists w1, fd, i, w2. split; [exact R1|]. split; [exact O|]. split; [exact R|exact F].
Defined.

Lemma seek_behind_never_returns_witness :
  exists w fd i, holds_file w fd i [] 0
    /\ forall fuel, exists w' q, running (uxfio_lseek fuel fd 5 SEEK_SET) w w' /\ holds_file w' fd i [] q /\ 0 <= q <= 0.
Proof.
  destruct (memfd_opens 1 2 start (initial_ok ()) start_free) as (w & fd & i & _ & F). exists w, fd, i. split; [exact F|].
  apply (seek_behind_never_returns w fd i [] 0 5 SEEK_SET F); [left; reflexivity|vm_compute; split; congruence|vm_compute; reflexivity].
Defined.

Lemma virtual_end_delivers_witness :
  exists w0 fd i w1 w2 ds ns', holds_file w0 fd i (L "hello world") 2
    /\ runs (uxfio_fcntl 2 fd UXFIO_F_SET_VEOF 3) w0 w1 0
    /\ runs (do_reads 2 fd [2; 2; 2; 2]) w1 w2 (ds ++ [] :: virtual_reads (L "hello world") 5 None ns')
    /\ concat ds = L "llo" /\ Forall (fun d => d <> []) ds.
Proof.
  destruct (memfd_opens 1 2 start (initial_ok ()) start_free) as (wa & fd & i & _ & Fa).
  destruct (write_file 1 wa fd i [] 0 (L "hello world") Fa) as (wb & _ & Fb); [vm_compute; congruence|].
  destruct (seek_file 1 wb fd i _ _ 2 SEEK_SET 2 Fb) as (w0 & _ & F0); [left; reflexivity|reflexivity|left; vm_compute; split; congruence|].
  exists w0, fd, i.
  destruct (virtual_end_delivers 1 w0 fd i (L "hello world") 2 3 [2; 2; 2; 2] F0) as (w1 & w2 & ds & ns' & H1 & H2 & H3 & H4);
    [vm_compute; split; congruence|repeat (apply Forall_cons; split; [vm_compute; split; congruence|]); apply Forall_nil; exact I|vm_compute; reflexivity|].
  exists w1, w2, ds, ns'. split; [exact F0|]. split; [exact H1|]. split; [exact H2|]. split; [exact H3|exact H4].
Defined.

(** Making a file shorter moves a position in front of the new end up to it,
    so that nothing is left to read. *)
Example truncate_moves_position :
  file_run 64 [FWrite (L "abcdef"); FSeek 1 SEEK_SET; FTruncate 4; FRead 2; FSeek 0 SEEK_CUR] (mkFile [] 0)
  = Some (mkFile (L "abcd") 4, [FNumber 6; FNumber 1; FNumber 0; FBytes []; FNumber 4]).
Proof. vm_compute. reflexivity. Qed.
End Witness.
