(* ===== verification/UxfioBlocks.v ===== *)
(** * Output in blocks (do_buffered_write2 and do_buffered_flush of uxfio.c)

    swpackage writes its archive through a descriptor with an output block size.
    The data go below in whole blocks, the rest is kept; a flush writes the rest. *)

From S2P Require Import Prelude CString Strob Strar Escape Effects UxfioState Uxfio UxfioTable UxfioObject.

#[local] Open Scope effects_scope.

Section Blocks.
Context {K : Type} `{Kernel K} `{Malloc} {heap : Heap}.
Abbreviation W := (World K).
Implicit Types (u : UXFIO) (k : K) (d m : bytes).

(** The descriptor below is a blocking one that takes at least one byte of
    every write; [sent] is what it took so far. *)
Context (ufd : Z) (Hufd : 0 <= ufd < UXFIO_FD_MIN) (sent : K -> bytes).
Context (accepts : forall k d, d <> [] ->
  exists k' n, sys_write ufd d k = (k', inl n) /\ 0 < n <= zlen d /\ sent k' = sent k ++ take (Z.to_nat n) d).

Context (w : W) (fd : Z) (i : nat) (u0 : UXFIO) (Ho : open_as w fd i u0) (e : Z).
Abbreviation at_ u k := (state_of w i u k e).
#[local] Definition bound := open_as_bound w fd i u0 Ho.

(** ** One block *)

Lemma write_below f u k d : d <> [] ->
  exists k' n, runs (uxfio_write (S f) ufd d) (at_ u k) (at_ u k') n /\ 0 < n <= zlen d
    /\ sent k' = sent k ++ take (Z.to_nat n) d.
Proof.
  intros Hd. destruct (accepts k d Hd) as (k' & n & E & Hn & Hs). exists k', n. split; [|done].
  cbn [uxfio_write]. unfold UXFIO_NULL_FD, UXFIO_FD_MIN in *. ztest.
  unfold uxfio_unix_safe_write, write, call_int. cbn [safeio].
  eapply (step_run _ _ _ (at_ u k') _ (n, @nil ascii)); [|apply runs_ret]. eapply (step_run _ _ _ (at_ u k') _ (n, @nil ascii)).
  - eapply step_run; [|apply runs_ret]. eapply step_run; [by apply call_run|]. apply runs_ret.
  - cbv beta iota. ztest. apply runs_ret.
Qed.

Lemma write_block_run f rounds u k d r : (length d < rounds)%nat ->
  exists k', runs (write_block rounds (uxfio_write (S f)) ufd d r) (at_ u k) (at_ u k') (r + zlen d) /\ sent k' = sent k ++ d.
Proof.
  revert k d r. induction rounds as [|rounds IH]; intros k d r Hr; [lia|]. cbn [write_block].
  destruct (decide (d = [])) as [->|Hd].
  { exists k. rewrite app_nil_r. split; [|done]. change (zlen (@nil ascii)) with 0. ztest. rewrite Z.add_0_r. apply runs_ret. }
  pose proof (zlen_nonempty d Hd). pose proof (zlen_nonneg d). zbool. ztest.
  destruct (write_below f u k d Hd) as (k1 & n & R1 & Hn & Hs).
  destruct (IH k1 (drop (Z.to_nat n) d) (r + n)) as (k2 & R2 & Hs2); [unfold zlen in *; rewrite length_drop; lia|].
  exists k2. split.
  - eapply step_run; [exact R1|]. cbv beta. ztest. rewrite zlen_drop in R2 by lia.
    by replace (r + n + (zlen d - Z.of_nat (Z.to_nat n))) with (r + zlen d) in R2 by lia.
  - by rewrite Hs2, Hs, <- app_assoc, take_drop.
Qed.

(** ** The full blocks *)

(** The object while it writes: only the bytes of the output buffer change. *)
Definition blocked (bs : Z) (u : UXFIO) : Prop :=
  uxfdM u = ufd /\ 0 < bs <= zlen (output_bufferM u).

Lemma full_blocks_run f fuel rounds bs u k p a :
  blocked bs u -> 0 <= a < bs -> (Z.to_nat bs < fuel)%nat -> (Z.to_nat (a + zlen p) < rounds)%nat ->
  exists k' m' a' p' q,
    runs (full_blocks fuel rounds (uxfio_write (S f)) i bs p a (a + zlen p)) (at_ u k) (at_ (put_output_bufferM m' u) k')
      (Some (p', a', a' + zlen p'))
    /\ 0 <= a' /\ a' + zlen p' < bs /\ zlen m' = zlen (output_bufferM u)
    /\ sent k' ++ take (Z.to_nat a') m' ++ p' = sent k ++ take (Z.to_nat a) (output_bufferM u) ++ p
    /\ 0 <= q /\ zlen (sent k') = zlen (sent k) + q * bs.
Proof.
  revert u k p a. induction rounds as [|rounds IH]; intros u k p a (Hb & Hbs) Ha Hf Hr; [lia|].
  pose proof bound as Hbd. pose proof (zlen_nonneg p) as Hp. cbn [full_blocks].
  destruct (decide (a + zlen p < bs)) as [Hlt|Hge].
  - exists k, (output_bufferM u), a, p, 0. ztest. split; [|split_and!; [lia|lia|done|done|lia|lia]].
    replace (put_output_bufferM (output_bufferM u) u) with u by by destruct u. apply runs_ret.
  - ztest. set (m := output_bufferM u) in *. set (t := Z.to_nat (bs - a)).
    set (m1 := take (Z.to_nat a) m ++ take t p ++ drop (Z.to_nat bs) m).
    assert (E1 : memcpy m a p 0 (bs - a) = Some m1).
    { unfold memcpy. rewrite mem_sub_in by lia. cbn [mbind option_bind]. rewrite drop_0. fold t.
      rewrite mem_write_in by (unfold zlen, t in *; rewrite ?length_take; lia). unfold m1. do 3 f_equal.
      f_equal. unfold zlen, t in *. rewrite length_take. lia. }
    set (blk := take (Z.to_nat a) m ++ take t p).
    assert (Lb : length blk = Z.to_nat bs) by (unfold blk, zlen, t in *; rewrite length_app, !length_take; lia).
    assert (E2 : mem_sub m1 0 bs = Some blk).
    { rewrite mem_sub_in; [|lia..|unfold m1; rewrite app_assoc; fold blk; rewrite zlen_app; unfold zlen in *; rewrite length_drop; lia].
      rewrite drop_0. unfold m1. rewrite app_assoc. fold blk. by rewrite <- Lb, take_app_length. }
    assert (L1 : zlen m1 = zlen m) by (unfold m1; rewrite app_assoc; fold blk; rewrite zlen_app; unfold zlen in *; rewrite length_drop; lia).
    destruct (write_block_run f fuel (put_output_bufferM m1 u) k blk 0) as (k1 & R1 & S1); [lia|].
    rewrite Z.add_0_l in R1. assert (Lz : zlen blk = bs) by (unfold zlen; lia). rewrite Lz in R1.
    assert (Lt : zlen (drop t p) = zlen p - (bs - a)) by (unfold zlen, t in *; rewrite length_drop; lia).
    destruct (IH (put_output_bufferM m1 u) k1 (drop t p) 0) as (k2 & m2 & a2 & p2 & q & R2 & Ha2 & Hl2 & Hm2 & Hs2 & Hq & Hz2).
    { split; [done|]. cbn. rewrite L1. lia. }
    { lia. } { done. } { lia. }
    cbn [put_output_bufferM output_bufferM] in *. exists k2, m2, a2, p2, (q + 1). split; [|split_and!; [done|done|lia| |lia|]].
    + ostep. fold m. eapply step_run; [by apply runs_lift|]. cbv beta. ostep. ostep. cbn [output_bufferM put_output_bufferM uxfdM].
      eapply step_run; [by apply runs_lift|]. cbv beta. rewrite Hb. eapply step_run; [exact R1|]. cbv beta. ztest.
      rewrite Lt in R2. replace (a + zlen p - bs) with (0 + (zlen p - (bs - a))) by lia. exact R2.
    + rewrite Hs2, S1. change (take (Z.to_nat 0) m1) with (@nil ascii). unfold blk. rewrite <- !app_assoc. cbn [app]. by rewrite take_drop.
    + rewrite Hz2, S1, zlen_app, Lz. lia.
Qed.

(** ** Writing and flushing *)

(** The object with output blocks of [bs] bytes; no virtual end, no buffer. *)
Definition block_writer (bs : Z) (u : UXFIO) : Prop :=
  blocked bs u /\ buffer_activeM u = 0 /\ output_block_sizeM u = bs /\ 0 <= output_buffer_cM u < bs
  /\ offset_eofM u < 0 /\ v_endM u < 0.

Definition pending (u : UXFIO) : bytes := take (Z.to_nat (output_buffer_cM u)) (output_bufferM u).

(** do_buffered_write2 with any block size that fits the buffer. *)
Lemma buffered_write_run f fuel bs u k d :
  blocked bs u -> output_block_sizeM u = bs -> 0 <= output_buffer_cM u < bs ->
  (Z.to_nat (bs + zlen d) + 1 < fuel)%nat ->
  exists k' u' q, runs (do_buffered_write2 fuel (uxfio_write (S f)) i d) (at_ u k) (at_ u' k') (zlen d)
    /\ (exists m c, u' = put_output_buffer_cM c (put_output_bufferM m u) /\ zlen m = zlen (output_bufferM u)
         /\ c = output_buffer_cM u + zlen d - q * bs)
    /\ 0 <= output_buffer_cM u' < bs
    /\ sent k' ++ pending u' = (sent k ++ pending u) ++ d /\ 0 <= q /\ zlen (sent k') = zlen (sent k) + q * bs.
Proof.
  intros Hb Hs Hc Hf. pose proof bound as Hbd. pose proof (zlen_nonneg d). set (a := output_buffer_cM u) in *.
  destruct (full_blocks_run f fuel fuel bs u k d a Hb Hc) as (k1 & m1 & a1 & p1 & q & R1 & Ha1 & Hl1 & Hm1 & Hs1 & Hq & Hz1); [lia..|].
  destruct Hb as [Hbelow Hbs]. pose proof (zlen_nonneg p1). pose proof (zlen_nonneg (output_bufferM u)).
  set (m2 := take (Z.to_nat a1) m1 ++ p1 ++ drop (Z.to_nat a1 + length p1) m1).
  assert (E2 : mem_write m1 a1 p1 = Some m2) by (apply mem_write_in; lia).
  pose proof (mem_write_length _ _ _ _ E2) as L2. exists k1, (put_output_buffer_cM (a1 + zlen p1) (put_output_bufferM m2 u)), q.
  assert (Hc1 : a1 + zlen p1 = a + zlen d - q * bs).
  { assert (zlen (sent k1) + a1 + zlen p1 = zlen (sent k) + a + zlen d) as Hlen; [|lia].
    pose proof (f_equal zlen Hs1) as Hl. rewrite !zlen_app in Hl. unfold zlen in *. rewrite !length_take in Hl. lia. }
  split; [|split; [|split; [|split]]].
  - unfold do_buffered_write2. ostep. fold a. rewrite Hs. eapply step_run; [exact R1|]. cbv beta iota. ostep.
    cbn [output_bufferM put_output_bufferM]. eapply step_run; [by apply runs_lift|]. cbv beta. ostep. ostep. apply runs_ret.
  - exists m2, (a1 + zlen p1). split; [done|]. split; [unfold zlen in *; lia|done].
  - cbn. lia.
  - unfold pending at 1. cbn [output_buffer_cM put_output_buffer_cM output_bufferM put_output_bufferM].
    rewrite <- app_assoc. unfold pending. fold a. rewrite <- Hs1. f_equal. unfold m2. rewrite app_assoc.
    apply take_app_length'. rewrite length_app, length_take. unfold zlen in *. lia.
  - done.
Qed.

Lemma block_writer_write f bs u k d : block_writer bs u -> (Z.to_nat (bs + zlen d) + 1 < S (S f))%nat ->
  exists k' u' q, runs (write_object (S (S f)) (uxfio_write (S f)) i d) (at_ u k) (at_ u' k') (zlen d)
    /\ block_writer bs u' /\ sent k' ++ pending u' = (sent k ++ pending u) ++ d /\ 0 <= q
    /\ zlen (sent k') = zlen (sent k) + q * bs.
Proof.
  intros (Hb & Hact & Hs & Hc & He & Hv) Hf. pose proof bound as Hbd.
  destruct (buffered_write_run f (S (S f)) bs u k d Hb Hs Hc Hf) as (k' & u' & q & R & (m & c & -> & Lm & _) & Hc' & Hsent & Hq).
  eexists k', _, q. split; [|split; [|done]].
  - unfold write_object. ostep. unfold virtual_eof_active. ztest. ostep. destruct Hb as [_ Hb]. ztest. exact R.
  - destruct Hb as [Hb1 Hb2]. split; [split; [done|cbn; lia]|]. split_and!; cbn in *; try done; lia.
Qed.

Lemma block_writer_flush g fuel bs u k : block_writer bs u -> (2 * Z.to_nat bs + 1 < fuel)%nat ->
  exists k' u', runs (do_buffered_flush fuel (uxfio_write (S g)) i) (at_ u k) (at_ u' k') 0
    /\ sent k' = sent k ++ pending u /\ pending u' = [].
Proof.
  intros (Hb & Hact & Hs & Hc & He & Hv) Hf. pose proof bound as Hbd. unfold do_buffered_flush. destruct Hb as [Hb1 Hb2].
  destruct (decide (output_buffer_cM u = 0)) as [E|E].
  - exists k, u. assert (Hp : pending u = []) by (unfold pending; by rewrite E). split; [|by rewrite Hp, app_nil_r].
    ostep. rewrite E, orb_true_r. apply runs_ret.
  - set (c := output_buffer_cM u) in *. set (m := output_bufferM u) in *.
    set (u1 := put_output_block_sizeM c (put_output_buffer_cM 0 u)).
    assert (Lp : zlen (pending u) = c) by (unfold pending, c, m, zlen in *; rewrite length_take; lia).
    destruct (buffered_write_run g fuel c u1 k (pending u)) as (k' & u' & q & R & (m' & c' & -> & Lm & Ec) & Hc' & Hsent & Hq & Hz).
    { split; [done|]. cbn. fold m. lia. } { done. } { cbn. lia. } { rewrite Lp. lia. }
    rewrite Lp in *. change (output_buffer_cM u1) with 0 in *. change (output_buffer_cM (put_output_buffer_cM c' _)) with c' in Hc'.
    change (output_buffer_cM (put_output_buffer_cM c' (put_output_bufferM m' u1))) with c' in *.
    assert (q = 1) as -> by (destruct (decide (q <= 0)); [assert (q = 0) as -> by lia; lia|]; destruct (decide (2 <= q)); [nia|lia]).
    assert (c' = 0) as -> by lia.
    change (pending u1) with (@nil ascii) in Hsent. change (pending (put_output_buffer_cM 0 _)) with (@nil ascii) in Hsent.
    rewrite !app_nil_r in Hsent.
    exists k', (put_output_block_sizeM bs (put_output_buffer_cM 0 (put_output_bufferM m' u1))). split; [|done].
    ostep. fold c. rewrite Hs. ztest. ostep. ostep. fold u1. ztest.
    eapply step_run; [apply runs_lift; apply mem_sub_in; cbn; fold m; lia|]. cbv beta. rewrite drop_0. fold m. fold (pending u).
    eapply step_run; [exact R|]. cbv beta. ostep. ostep. ztest. apply runs_ret.
Qed.
End Blocks.

Section Writers.
Context {K : Type} `{Kernel K} `{Malloc} {heap : Heap}.
Abbreviation W := (World K).
Context (ufd : Z) (Hufd : 0 <= ufd < UXFIO_FD_MIN) (sent : K -> bytes).

Fixpoint do_writes (fuel : nat) (fd : Z) (ds : list bytes) : ST W (list Z) :=
  match ds with
  | [] => ret []
  | d :: ds =>
      let! n := uxfio_write fuel fd d in
      let! ns := do_writes fuel fd ds in
      ret (n :: ns)
  end.

(** The descriptor below takes at least a byte of every write, and [sent] tells what it took. *)
Definition takes_bytes : Prop := forall k d, d <> [] ->
  exists k' n, sys_write ufd d k = (k', inl n) /\ 0 < n <= zlen d /\ sent k' = sent k ++ take (Z.to_nat n) d.

Definition writer (w : W) (fd : Z) (bs : Z) (kept : bytes) : Prop :=
  exists i u, open_as w fd i u /\ block_writer ufd bs u /\ kept = pending u.

Lemma writer_write f w fd bs kept d : takes_bytes -> writer w fd bs kept -> (Z.to_nat (bs + zlen d) + 1 < S (S f))%nat ->
  exists w' kept' q, runs (uxfio_write (S (S f)) fd d) w w' (zlen d) /\ writer w' fd bs kept'
    /\ sent (sys w') ++ kept' = (sent (sys w) ++ kept) ++ d /\ 0 <= q /\ zlen (sent (sys w')) = zlen (sent (sys w)) + q * bs.
Proof.
  intros T (i & u & Ho & B & ->) Hf.
  destruct (block_writer_write ufd Hufd sent T w fd i u Ho (errno w) f bs u (sys w) d B Hf) as (k' & u' & q & R & B' & Hs & Hq).
  exists (state_of w i u' k' (errno w)), (pending u'), q. split; [|split; [|done]].
  - pose proof Ho as (_ & [Efd _] & _). cbn [uxfio_write].
    assert ((fd =? UXFIO_NULL_FD) = false /\ (fd <? UXFIO_FD_MIN) = false) as [-> ->].
    { unfold UXFIO_NULL_FD, UXFIO_FD_MIN in *. split; [apply Z.eqb_neq|apply Z.ltb_ge]; lia. }
    cbn [andb]. eapply step_run; [by eapply find_start|]. exact R.
  - exists i, u'. split; [by eapply open_as_state|done].
Qed.

Lemma writer_writes f w fd bs kept ds : takes_bytes -> writer w fd bs kept ->
  Forall (fun d => (Z.to_nat (bs + zlen d) + 1 < S (S f))%nat) ds ->
  exists w' kept' q, runs (do_writes (S (S f)) fd ds) w w' (zlen <$> ds) /\ writer w' fd bs kept'
    /\ sent (sys w') ++ kept' = (sent (sys w) ++ kept) ++ concat ds /\ 0 <= q
    /\ zlen (sent (sys w')) = zlen (sent (sys w)) + q * bs.
Proof.
  intros T. revert w kept. induction ds as [|d ds IH]; intros w kept Hw Hf.
  { exists w, kept, 0. split; [apply runs_ret|]. cbn. rewrite app_nil_r. split_and!; [done|done|lia|lia]. }
  apply Forall_cons in Hf as [Hd Hf].
  destruct (writer_write f w fd bs kept d T Hw Hd) as (w1 & k1 & q1 & R1 & W1 & S1 & Hq1 & Z1).
  destruct (IH w1 k1 W1 Hf) as (w2 & k2 & q2 & R2 & W2 & S2 & Hq2 & Z2). exists w2, k2, (q1 + q2).
  split; [|split; [done|split; [|lia]]].
  - cbn [do_writes]. eapply runs_bind; [exact R1|]. eapply runs_bind; [exact R2|]. apply runs_ret.
  - cbn [concat]. by rewrite S2, S1, <- app_assoc.
Qed.

(** C7: a descriptor with output blocks of [bs] bytes over a descriptor that may
    take only a part of a write: every write answers its length, what went below
    is a number of whole blocks, the rest, less than a block, is kept, nothing is
    lost or reordered; and uxfio_fsync sends the rest. *)
Theorem output_in_whole_blocks f w fd bs kept ds :
  takes_bytes -> writer w fd bs kept ->
  Forall (fun d => (Z.to_nat (bs + zlen d) + 1 < S (S f))%nat) ds -> (2 * Z.to_nat bs + 1 < S (S f))%nat ->
  exists w1 kept1 q w2, runs (do_writes (S (S f)) fd ds) w w1 (zlen <$> ds)
    /\ sent (sys w1) ++ kept1 = (sent (sys w) ++ kept) ++ concat ds
    /\ 0 <= q /\ zlen (sent (sys w1)) = zlen (sent (sys w)) + q * bs /\ zlen kept1 < bs
    /\ runs (uxfio_fsync (S (S f)) fd) w1 w2 0 /\ sent (sys w2) = (sent (sys w) ++ kept) ++ concat ds.
Proof.
  intros T Hw Hf Hfuel. destruct (writer_writes f w fd bs kept ds T Hw Hf) as (w1 & k1 & q & R1 & W1 & S1 & Hq & Z1).
  destruct W1 as (i & u & Ho & B & ->).
  destruct (block_writer_flush ufd Hufd sent T w1 fd i u Ho (errno w1) (S f) (S (S f)) bs u (sys w1) B Hfuel) as (k2 & u2 & R2 & S2 & _).
  exists w1, (pending u), q, (state_of w1 i u2 k2 (errno w1)). destruct B as (Hb & _ & Hs & Hc & _).
  split_and!; [done|done|done|done| | |].
  - unfold pending, zlen. rewrite length_take. lia.
  - pose proof Ho as (_ & [Efd _] & _). pose proof (open_as_bound _ _ _ _ Ho). unfold uxfio_fsync. cbn [fsync_chain].
    assert ((fd <? UXFIO_FD_MIN) = false) as -> by (apply Z.ltb_ge; unfold UXFIO_FD_MIN in *; lia).
    cbn [andb]. eapply step_run; [by eapply find_start|]. cbv beta iota. ostep. cbv zeta. rewrite Hs. destruct Hb as [_ Hb]. ztest. exact R2.
  - change (sent k2 = (sent (sys w) ++ kept) ++ concat ds). by rewrite S2, S1.
Qed.
End Writers.

Module Witness.
#[local] Existing Instance one_heap.
#[local] Existing Instance UxfioTable.Witness.zero_junk.

(** A descriptor that takes at most two bytes of a write. *)
#[local] Instance slow_sink : Kernel bytes :=
  let fail {A} (k : bytes) : bytes * (A + Z) := (k, inr 9) in
  Build_Kernel bytes (fun _ _ => fail) (fun _ d k => (k ++ take 2 d, inl (Z.min 2 (zlen d)))) (fun _ _ _ => fail)
    (fun _ => fail) (fun _ => fail) (fun _ _ => fail) (fun _ _ _ => fail) (fun _ _ _ => fail) (fun _ => fail) (fun _ => fail).

Definition sent_bytes (k : bytes) : bytes := k.

Lemma slow_takes : takes_bytes 5 sent_bytes.
Proof.
  intros k d Hd. exists (k ++ take 2 d), (Z.min 2 (zlen d)). split; [reflexivity|].
  pose proof (zlen_nonempty d Hd). pose proof (zlen_nonneg d). zbool. split; [lia|]. unfold sent_bytes. f_equal. unfold zlen.
  destruct d as [|a [|b d]]; [done|reflexivity|]. replace (Z.to_nat _) with 2%nat; [reflexivity|cbn [length]; lia].
Qed.

(** uxfio_opendup (5, UXFIO_BUFTYPE_NOBUF) and an output block size of 4. *)
Definition calls : list api :=
  [Opendup 5 UXFIO_BUFTYPE_NOBUF; Fcntl UXFIO_FD_MIN UXFIO_F_SET_OUTPUT_BLOCK_SIZE 4].

Definition start : World bytes := default (initial_world []) (perform_all 9 calls (initial_world [])).

Lemma start_reachable : reachable start.
Proof.
  apply (perform_all_reachable 9 calls (initial_world [])); [apply reach_start|]. unfold start.
  destruct (perform_all 9 calls (initial_world [])) eqn:E; [done|]. vm_compute in E. done.
Qed.

Lemma start_writer : writer 5 start UXFIO_FD_MIN 4 [].
Proof.
  exists 0%nat, (default fresh_UXFIO (object start 0)). split; [|split].
  - split; [apply reachable_ok, start_reachable|]. split; [|vm_compute; reflexivity].
    split; [reflexivity|]. destruct (slots start !! 0%nat) as [s|] eqn:E; [|vm_compute in E; done].
    exists s. split; [reflexivity|]. pose proof (f_equal (fmap slot_status) E) as E'. vm_compute in E'. injection E' as E'. exact (eq_sym E').
  - split; [|vm_compute; repeat split; congruence]. split; [vm_compute; reflexivity|]. vm_compute. split; congruence.
  - vm_compute. reflexivity.
Qed.

Lemma output_in_whole_blocks_witness :
  exists w1 kept1 q w2, runs (do_writes 20 UXFIO_FD_MIN [L "abc"; L "defghi"]) start w1 [3; 6]
    /\ sent_bytes (sys w1) ++ kept1 = L "abcdefghi" /\ zlen (sent_bytes (sys w1)) = q * 4 /\ zlen kept1 < 4
    /\ runs (uxfio_fsync 20 UXFIO_FD_MIN) w1 w2 0 /\ sent_bytes (sys w2) = L "abcdefghi".
Proof.
  destruct (output_in_whole_blocks 5 ltac:(vm_compute; split; congruence) sent_bytes 18 start UXFIO_FD_MIN 4 [] [L "abc"; L "defghi"]
    slow_takes start_writer) as (w1 & kept1 & q & w2 & R1 & S1 & Hq & Z1 & Hk & R2 & S2).
  - repeat (apply Forall_cons; split; [vm_compute; lia|]). apply Forall_nil; exact I.
  - vm_compute. lia.
  - exists w1, kept1, q, w2. split; [exact R1|]. split; [rewrite S1; reflexivity|]. split; [rewrite Z1; reflexivity|]. split; [exact Hk|].
    split; [exact R2|]. rewrite S2. reflexivity.
Defined.
End Witness.
