(* ===== verification/UxfioWindow.v ===== *)
(** * Memory buffers over a stream (BUFTYPE_MEM of uxfio.c)

    uinfile.c and sw_parse.c read pipes through a descriptor with a memory
    buffer, to look at the first bytes and read them again.  The buffer is a
    window: the last bytes that were read from below, at most lenM of them. *)

From S2P Require Import Prelude CString Strob Strar Escape Effects UxfioState Uxfio UxfioTable UxfioObject.

#[local] Open Scope effects_scope.

(** The last [n] bytes. *)
Definition lastn (n : Z) (l : bytes) : bytes := drop (length l - Z.to_nat n) l.

Lemma lastn_short n l : zlen l <= n -> lastn n l = l.
Proof. intros Hl. unfold lastn, zlen in *. by replace (length l - Z.to_nat n)%nat with 0%nat by lia. Qed.

Lemma lastn_app_long n a b : 0 <= n <= zlen b -> lastn n (a ++ b) = drop (length b - Z.to_nat n) b.
Proof. intros Hn. unfold lastn, zlen in *. rewrite length_app, drop_app_ge by lia. f_equal. lia. Qed.

Lemma lastn_length n l : 0 <= n -> zlen (lastn n l) = Z.min n (zlen l).
Proof. intros Hn. unfold lastn, zlen. rewrite length_drop. lia. Qed.

Section Buffer.
Context {K : Type} `{Kernel K} `{Malloc} {heap : Heap}.
Abbreviation W := (World K).
Implicit Types (u : UXFIO) (k : K) (b d p m : bytes).

Context (w : W) (fd : Z) (i : nat) (u0 : UXFIO) (Ho : open_as w fd i u0) (e : Z).
Abbreviation at_ u k := (state_of w i u k e).
#[local] Definition bound := open_as_bound w fd i u0 Ho.

(** The memory holds [b], with the position [pos] in it. *)
Record memory_window (len : Z) (b : bytes) (pos : Z) (u : UXFIO) : Prop := {
  mw_type : buffertypeM u = UXFIO_BUFTYPE_MEM;
  mw_len : lenM u = len;
  mw_block : exists r, bufM u = b ++ r /\ zlen r = len + 1 - zlen b;
  mw_end : endM u = zlen b;
  mw_fits : zlen b <= len;
  mw_pos : posM u = pos;
  mw_range : 0 <= pos <= zlen b;
}.

(** What the window does not touch. *)
Definition same_rest (u u' : UXFIO) : Prop :=
  uxfdM u' = uxfdM u /\ buffer_activeM u' = buffer_activeM u /\ offset_eofM u' = offset_eofM u /\ v_endM u' = v_endM u
  /\ auto_disableM u' = auto_disableM u /\ vir_uxfioM u' = vir_uxfioM u /\ bytesreadM u' = bytesreadM u
  /\ current_offsetM u' = current_offsetM u.

Lemma bufferstate_window len b pos u k : memory_window len b pos u ->
  runs (bufferstate i) (at_ u k) (at_ u k) (pos, zlen b - pos, len - zlen b).
Proof.
  intros F. pose proof bound. unfold bufferstate. ostep. rewrite (mw_type _ _ _ _ F). cbn [UXFIO_BUFTYPE_MEM UXFIO_BUFTYPE_FILE Z.eqb Pos.eqb when].
  ostep. rewrite (mw_pos _ _ _ _ F), (mw_end _ _ _ _ F), (mw_len _ _ _ _ F). apply runs_ret.
Qed.

(** The three ways to put [p] into the block. *)
Lemma replace_all b r len p : zlen r = len + 1 - zlen b -> 0 < len <= zlen p ->
  exists r', memcpy (b ++ r) 0 p (zlen p - len) len = Some (drop (length p - Z.to_nat len) p ++ r') /\ zlen r' = 1.
Proof.
  intros Hr Hl. unfold memcpy. rewrite mem_sub_in by lia. cbn [mbind option_bind].
  assert (E : take (Z.to_nat len) (drop (Z.to_nat (zlen p - len)) p) = drop (length p - Z.to_nat len) p).
  { rewrite take_ge by (unfold zlen in *; rewrite length_drop; lia). f_equal. unfold zlen. lia. }
  rewrite E. eexists. split; [rewrite mem_write_in; [cbn [Z.to_nat take app]; reflexivity|lia|unfold zlen in *; rewrite length_drop, length_app; lia]|].
  unfold zlen in *. rewrite !length_drop, length_app. lia.
Qed.

Lemma shift_left b r len pos p : zlen r = len + 1 - zlen b -> 0 <= pos <= zlen b -> zlen b <= len ->
  zlen b - pos <= zlen p < len -> len - pos < zlen p ->
  exists m r', memcpy (b ++ r) 0 (b ++ r) (pos + zlen p - len) (zlen b - pos + len - zlen p) = Some m
    /\ memcpy m (len - zlen p) p 0 (zlen p) = Some (drop (Z.to_nat (pos + zlen p - len)) (take (Z.to_nat pos) b) ++ p ++ r') /\ zlen r' = 1.
Proof.
  intros Hr Hpos Hb Hp1 Hp2. pose proof (zlen_nonneg p). set (sh := Z.to_nat (pos + zlen p - len)).
  unfold memcpy. rewrite mem_sub_in by (rewrite ?zlen_app; lia). cbn [mbind option_bind]. fold sh.
  set (part := take _ (drop sh (b ++ r))).
  assert (Ep : part = drop sh b).
  { unfold part. rewrite drop_app_le by (unfold sh, zlen in *; lia). rewrite take_app_le by (unfold sh, zlen in *; rewrite length_drop; lia).
    apply take_ge. unfold sh, zlen in *. rewrite length_drop. lia. }
  rewrite Ep. clear part Ep. set (part := drop sh b). assert (Lp : length part = (length b - sh)%nat) by apply length_drop.
  assert (E0 : mem_write (b ++ r) 0 part = Some (part ++ drop (length part) (b ++ r))).
  { rewrite mem_write_in; [done|lia|unfold zlen in *; rewrite length_app; lia]. }
  rewrite E0. exists (part ++ drop (length part) (b ++ r)). eexists. split; [done|].
  rewrite mem_sub_all by done. cbn [mbind option_bind].
  assert (Lm : length (part ++ drop (length part) (b ++ r)) = Z.to_nat (len + 1)).
  { rewrite length_app, length_drop, length_app. unfold sh, zlen in *. lia. }
  assert (Et : take (Z.to_nat (len - zlen p)) (part ++ drop (length part) (b ++ r)) = drop sh (take (Z.to_nat pos) b)).
  { rewrite take_app_le by (unfold sh, zlen in *; lia). unfold part. rewrite take_drop_commute. f_equal. f_equal. unfold sh, zlen in *. lia. }
  split; [rewrite mem_write_in; [rewrite Et; reflexivity|lia|unfold zlen in *; lia]|].
  unfold zlen in *. rewrite length_drop, Lm. lia.
Qed.

Lemma append_at b r len pos p : zlen r = len + 1 - zlen b -> 0 <= pos <= zlen b -> zlen b - pos <= zlen p <= len - pos ->
  exists r', memcpy (b ++ r) pos p 0 (zlen p) = Some (take (Z.to_nat pos) b ++ p ++ r') /\ zlen r' = len + 1 - pos - zlen p.
Proof.
  intros Hr Hpos Hp. pose proof (zlen_nonneg p). rewrite memcpy_all by done. eexists.
  split; [rewrite mem_write_in; [|lia|rewrite zlen_app; lia]; rewrite take_app_le by (unfold zlen in *; lia); reflexivity|].
  unfold zlen in *. rewrite length_drop, length_app. lia.
Qed.

(** The block after new bytes went to its end, when the oldest bytes leave. *)
Lemma shifted_block len b pos u p : memory_window len b pos u -> 0 < len -> zlen b - pos < zlen p ->
  len <= zlen p \/ len - pos < zlen p ->
  exists m r', m = lastn len (take (Z.to_nat pos) b ++ p) ++ r' /\ zlen r' = 1
    /\ if len <=? zlen p then uxfio__memcpy (bufM u) 0 p (zlen p - len) len u = Some m
       else exists m1, uxfio__memcpy (bufM u) 0 (bufM u) (zlen p - (len - zlen b) - (zlen b - pos)) (len - zlen p + (zlen b - pos)) u = Some m1
         /\ uxfio__memcpy m1 (len - zlen p) p 0 (zlen p) u = Some m.
Proof.
  intros F Hlen Hp Hbig. destruct (mw_block _ _ _ _ F) as (r & Eb & Er). pose proof (mw_range _ _ _ _ F) as Hr.
  pose proof (mw_fits _ _ _ _ F) as Hf. pose proof (zlen_nonneg p). unfold uxfio__memcpy.
  rewrite (mw_type _ _ _ _ F), Eb. cbn [UXFIO_BUFTYPE_MEM UXFIO_BUFTYPE_FILE Z.eqb Pos.eqb].
  destruct (len <=? zlen p) eqn:E; zbool.
  - destruct (replace_all b r len p Er) as (r' & E1 & L1); [lia|]. exists (drop (length p - Z.to_nat len) p ++ r'), r'.
    split; [by rewrite lastn_app_long by lia|]. by split.
  - destruct (shift_left b r len pos p Er Hr Hf) as (m & r' & E1 & E2 & L1); [lia..|]. eexists _, r'. split; [|split; [done|]].
    2: { exists m. split; [|exact E2]. rewrite <- E1. f_equal; lia. }
    rewrite app_assoc. f_equal. unfold lastn. rewrite drop_app_le by (unfold zlen in *; rewrite length_app, length_take; lia).
    do 2 f_equal. unfold zlen in *. rewrite length_app, length_take. lia.
Qed.

(** New bytes go to the end of the window, whose oldest bytes leave. *)
Lemma fix_window_full fuel len b pos u k p n : memory_window len b pos u -> 0 < len -> n <> 0 -> zlen b - pos < zlen p ->
  len <= zlen p \/ len - pos < zlen p ->
  exists u', runs (fix_buffer fuel i (zlen p) p n) (at_ u k) (at_ u' k) 0
    /\ memory_window len (lastn len (take (Z.to_nat pos) b ++ p)) len u' /\ same_rest u u'.
Proof.
  intros F Hlen Hn Hp Hbig. pose proof bound as Hbd. pose proof (mw_range _ _ _ _ F) as Hr. pose proof (zlen_nonneg p).
  destruct (shifted_block len b pos u p F Hlen Hp Hbig) as (m & r' & Em & Er' & C).
  exists (buffer_full (put_bufM m u)). split; [|split; [|done]].
  - unfold fix_buffer. ostep. rewrite (mw_type _ _ _ _ F), (mw_len _ _ _ _ F).
    cbn [UXFIO_BUFTYPE_MEM UXFIO_BUFTYPE_FILE UXFIO_BUFTYPE_DYNAMIC_MEM Z.eqb Pos.eqb].
    eapply step_run; [by eapply bufferstate_window|]. cbv beta iota.
    assert ((n =? 0) = false) as -> by (by apply Z.eqb_neq). cbn [negb]. rewrite Z.geb_leb.
    destruct (len <=? zlen p) eqn:E; zbool.
    + eapply step_run; [by apply runs_lift|]. cbv beta. ostep. apply runs_ret.
    + ztest. destruct C as (m1 & C1 & C2). eapply step_run; [by apply runs_lift|]. cbv beta.
      eapply step_run; [by apply runs_lift|]. cbv beta. ostep. apply runs_ret.
  - assert (Ll : zlen (lastn len (take (Z.to_nat pos) b ++ p)) = len).
    { rewrite lastn_length, zlen_app by lia. unfold zlen in *. rewrite length_take. lia. }
    pose proof (mw_len _ _ _ _ F). split; cbn; rewrite ?Ll; [apply F|done| |lia|lia|lia|lia]. exists r'. split; [done|lia].
Qed.

Lemma fix_window_room fuel len b pos u k p n : memory_window len b pos u -> n <> 0 -> zlen b - pos < zlen p ->
  zlen p < len -> zlen p <= len - pos ->
  exists u', runs (fix_buffer fuel i (zlen p) p n) (at_ u k) (at_ u' k) 0
    /\ memory_window len (take (Z.to_nat pos) b ++ p) (pos + zlen p) u' /\ same_rest u u'.
Proof.
  intros F Hn Hp Hlt Hroom. pose proof bound as Hbd. destruct (mw_block _ _ _ _ F) as (r & Eb & Er).
  pose proof (mw_range _ _ _ _ F) as Hr. pose proof (mw_len _ _ _ _ F) as El. pose proof (mw_pos _ _ _ _ F) as Epos. pose proof (zlen_nonneg p).
  assert (Lt : zlen (take (Z.to_nat pos) b) = pos) by (unfold zlen in *; rewrite length_take; lia).
  destruct (append_at b r len pos p Er Hr) as (r' & E1 & L1); [lia|]. eexists. split; [|split].
  - unfold fix_buffer. ostep. rewrite (mw_type _ _ _ _ F), El, Eb, Epos.
    cbn [UXFIO_BUFTYPE_MEM UXFIO_BUFTYPE_FILE UXFIO_BUFTYPE_DYNAMIC_MEM Z.eqb Pos.eqb].
    eapply step_run; [by eapply bufferstate_window|]. cbv beta iota.
    assert ((n =? 0) = false) as -> by (by apply Z.eqb_neq). cbn [negb]. ztest.
    unfold uxfio__memcpy. rewrite (mw_type _ _ _ _ F). cbn [UXFIO_BUFTYPE_MEM UXFIO_BUFTYPE_FILE Z.eqb Pos.eqb].
    eapply step_run; [by apply runs_lift|]. cbv beta. ostep. ostep. ostep. ostep. apply runs_ret.
  - split; cbn; [apply F|done| |rewrite zlen_app; lia|rewrite zlen_app; lia|lia|rewrite zlen_app; lia].
    exists r'. rewrite <- app_assoc. split; [done|]. rewrite zlen_app. lia.
  - done.
Qed.

Lemma fix_window fuel len b pos u k p n : memory_window len b pos u -> 0 < len -> n <> 0 -> zlen b - pos < zlen p ->
  exists u', runs (fix_buffer fuel i (zlen p) p n) (at_ u k) (at_ u' k) 0
    /\ memory_window len (lastn len (take (Z.to_nat pos) b ++ p)) (Z.min len (pos + zlen p)) u' /\ same_rest u u'.
Proof.
  intros F Hlen Hn Hp. pose proof (mw_range _ _ _ _ F) as Hr. pose proof (zlen_nonneg p).
  destruct (decide (len <= zlen p \/ len - pos < zlen p)) as [Hb|Hb].
  - rewrite Z.min_l by lia. by apply fix_window_full.
  - rewrite Z.min_r, lastn_short; [apply fix_window_room; done || lia| |lia]. rewrite zlen_app. unfold zlen in *. rewrite length_take. lia.
Qed.

(** No new bytes: only the position moves. *)
Lemma fix_window_old fuel len b pos u k p n : memory_window len b pos u -> 0 <= pos + n <= zlen b ->
  runs (fix_buffer fuel i n p 0) (at_ u k) (at_ (add_pos n u) k) 0 /\ memory_window len b (pos + n) (add_pos n u).
Proof.
  intros F Hn. pose proof bound as Hbd. split.
  - unfold fix_buffer. ostep. rewrite (mw_type _ _ _ _ F). cbn [UXFIO_BUFTYPE_MEM UXFIO_BUFTYPE_FILE UXFIO_BUFTYPE_DYNAMIC_MEM Z.eqb Pos.eqb].
    eapply step_run; [by eapply bufferstate_window|]. cbv beta iota. cbn [Z.eqb negb]. ostep. apply runs_ret.
  - destruct F. split; cbn; try done. lia.
Qed.
End Buffer.

(** ** The window on a stream *)

Section Stream.
Context {K : Type} `{Kernel K} `{Malloc} {heap : Heap}.
Abbreviation W := (World K).
Implicit Types (u : UXFIO) (k : K) (b d p m s : bytes) (q back ahead n : Z).

(** The descriptor below delivers the bytes [rest] one after the other, as many
    at a time as it likes, and none only at the end. *)
Context (ufd : Z) (rest : K -> bytes).
Definition delivers : Prop := forall k n, 0 < n < 2 ^ 64 ->
  exists k' d, sys_read ufd n k = (k', inl d) /\ rest k = d ++ rest k' /\ zlen d <= n /\ (d = [] -> rest k = []).

(** The window on the stream [s] at the position [q], with [back] bytes behind
    the position and [ahead] bytes before it. *)
Definition window_ok (s : bytes) (len q back ahead : Z) (u : UXFIO) (k : K) : Prop :=
  exists pre b, memory_window len b back u /\ zlen b = back + ahead /\ s = pre ++ b ++ rest k /\ q = zlen pre + back
    /\ 0 < len /\ uxfdM u = ufd /\ buffer_activeM u = 1 /\ offset_eofM u < 0 /\ v_endM u < 0 /\ auto_disableM u = 0
    /\ vir_uxfioM u = false /\ current_offsetM u = q.

Context (Hufd : 0 <= ufd < UXFIO_FD_MIN) (Hdel : delivers).
Context (w : W) (fd : Z) (i : nat) (u0 : UXFIO) (Ho : open_as w fd i u0) (e : Z).
Abbreviation at_ u k := (state_of w i u k e).
#[local] Definition stream_bound := open_as_bound w fd i u0 Ho.

Lemma read_stream f rec u v k n : 0 < n < 2 ^ 63 -> uxfdM v = ufd -> vir_uxfioM v = false ->
  exists k' d, runs (foo_read (S f) rec v false n) (at_ u k) (at_ u k') (zlen d, d)
    /\ rest k = d ++ rest k' /\ zlen d <= n /\ (d = [] -> rest k = []).
Proof.
  intros Hn Ev Evir. destruct (Hdel k n) as (k' & d & E & Hd); [lia|]. exists k', d. split; [|done].
  unfold foo_read, unix_safe_read_below. rewrite Ev, Evir. unfold UXFIO_FD_MIN in *. ztest. cbn [safeio].
  eapply (step_run _ _ _ (at_ u k') _ (zlen d, d)).
  - unfold read. rewrite to_size_id by lia. eapply step_run; [by apply call_run|]. apply runs_ret.
  - cbv beta iota. pose proof (zlen_nonneg d). ztest. apply runs_ret.
Qed.

(** A read from the window alone. *)
Lemma read_inside f rec s len q back ahead u k n : window_ok s len q back ahead u k -> 0 < n <= ahead ->
  exists u' d, runs (read_buffered (S f) rec i n false) (at_ u k) (at_ u' k) (n, d) /\ zlen d = n
    /\ window_ok s len (q + n) (back + n) (ahead - n) u' k /\ exists x y, s = x ++ d ++ y /\ zlen x = q.
Proof.
  intros (pre & b & F & Lb & Es & Eq & Hlen & Eu & Ea & He & Hv & Had & Hvir & Ec) Hn. pose proof stream_bound as Hbd.
  pose proof (mw_range _ _ _ _ F) as Hr. destruct (mw_block _ _ _ _ F) as (r & Eb & Er). pose proof (zlen_nonneg r).
  set (d := take (Z.to_nat n) (drop (Z.to_nat back) b)).
  assert (Ld : zlen d = n) by (unfold d, zlen in *; rewrite length_take, length_drop; lia).
  assert (F1 : memory_window len b back (add_offsets n u)) by (destruct F; by split).
  destruct (fix_window_old w fd i u0 Ho e (S f) len b back _ k d n F1) as [R F2]; [lia|].
  eexists _, d. split; [|split; [done|split]].
  - unfold read_buffered. ostep. rewrite (mw_end _ _ _ _ F), (mw_pos _ _ _ _ F), Lb.
    assert ((if n >=? back + ahead - back then back + ahead - back else n) = n) as -> by (case_match; zbool; lia).
    eapply (step_run _ _ _ (at_ u k) _ (Some d)).
    { unfold take_buffered. ostep. rewrite (mw_type _ _ _ _ F), (mw_pos _ _ _ _ F), Eb. cbn [UXFIO_BUFTYPE_MEM UXFIO_BUFTYPE_FILE Z.eqb Pos.eqb].
      eapply step_run; [apply runs_lift; apply mem_sub_in; rewrite ?zlen_app; lia|]. cbv beta.
      rewrite drop_app_le, take_app_le by (unfold zlen in *; rewrite ?length_drop; lia). apply runs_ret. }
    cbv beta iota. ostep. ztest. eapply step_run; [exact R|]. apply runs_ret.
  - exists pre, b. split; [exact F2|]. split_and!; cbn; try done; lia.
  - exists (pre ++ take (Z.to_nat back) b), (drop (Z.to_nat n) (drop (Z.to_nat back) b) ++ rest k). split.
    + rewrite Es, <- !app_assoc. f_equal. unfold d. rewrite (app_assoc (take (Z.to_nat n) _)), take_drop, app_assoc, take_drop. done.
    + rewrite zlen_app, Eq. unfold zlen in *. rewrite length_take. lia.
Qed.

(** New bytes [d] behind the whole window: the object [v] differs from one with
    the old window in its counts only. *)
Lemma window_grows s len q back b pre d u' k k' : s = pre ++ b ++ rest k -> rest k = d ++ rest k' -> q = zlen pre + back ->
  0 <= back <= zlen b -> 0 < len -> zlen b <= len ->
  memory_window len (lastn len (take (Z.to_nat back) b ++ drop (Z.to_nat back) b ++ d)) (Z.min len (zlen b + zlen d)) u' ->
  uxfdM u' = ufd -> buffer_activeM u' = 1 -> offset_eofM u' < 0 -> v_endM u' < 0 -> auto_disableM u' = 0 ->
  vir_uxfioM u' = false -> current_offsetM u' = q + (zlen b - back) + zlen d ->
  window_ok s len (q + (zlen b - back) + zlen d) (Z.min len (zlen b + zlen d)) 0 u' k'.
Proof.
  intros Es Er Eq Hb Hlen Hfit F ? ? ? ? ? ? ?. rewrite app_assoc, take_drop in F. pose proof (zlen_nonneg d).
  exists (pre ++ take (length (b ++ d) - Z.to_nat len) (b ++ d)), (lastn len (b ++ d)).
  assert (Ll : zlen (lastn len (b ++ d)) = Z.min len (zlen b + zlen d)) by (rewrite lastn_length, zlen_app by lia; done).
  split_and!; try done; [lia| |].
  - rewrite Es, Er, <- !app_assoc. f_equal. unfold lastn. rewrite (app_assoc (take _ _)), take_drop. by rewrite <- app_assoc.
  - rewrite zlen_app, Eq. unfold zlen in *. rewrite length_take, length_app. lia.
Qed.

(** The window after the counts moved by what was buffered and what was read,
    and the new bytes [d] were put in. *)
Lemma window_after fuel s len q back pre b u k k' d (m : Z) :
  memory_window len b back u -> s = pre ++ b ++ rest k -> rest k = d ++ rest k' -> q = zlen pre + back -> 0 < len ->
  uxfdM u = ufd -> buffer_activeM u = 1 -> offset_eofM u < 0 -> v_endM u < 0 -> auto_disableM u = 0 -> vir_uxfioM u = false ->
  current_offsetM u = q + (zlen b - back) + zlen d -> m = zlen b - back + zlen d ->
  exists u', runs (fix_buffer fuel i m (drop (Z.to_nat back) b ++ d) (zlen d)) (at_ u k') (at_ u' k') 0
    /\ window_ok s len (q + m) (Z.min len (back + m)) 0 u' k' /\ auto_disableM u' = 0.
Proof.
  intros F Es Er Eq Hlen E1 E2 E3 E4 E5 E6 E7 ->. pose proof (mw_range _ _ _ _ F) as Hr. pose proof (mw_fits _ _ _ _ F) as Hf.
  pose proof (zlen_nonneg d). set (p := drop (Z.to_nat back) b ++ d).
  assert (Lp : zlen p = zlen b - back + zlen d) by (unfold p; rewrite zlen_app; unfold zlen in *; rewrite length_drop; lia).
  replace (q + (zlen b - back + zlen d)) with (q + (zlen b - back) + zlen d) by lia.
  replace (back + (zlen b - back + zlen d)) with (zlen b + zlen d) by lia.
  destruct (decide (d = [])) as [->|Hd].
  - change (zlen (@nil ascii)) with 0 in *. rewrite Z.add_0_r in *.
    destruct (fix_window_old w fd i u0 Ho e fuel len b back u k' p (zlen b - back) F) as [R F2]; [lia|].
    eexists. split; [exact R|]. split; [|done]. rewrite Z.min_r by lia. exists pre, b. rewrite Er in Es.
    replace (back + (zlen b - back)) with (zlen b) in F2 by lia. rewrite Z.add_0_r. split_and!; cbn; try done; lia.
  - assert (0 < zlen d) by (pose proof (zlen_nonempty d Hd); zbool; lia).
    destruct (fix_window w fd i u0 Ho e fuel len b back u k' p (zlen d) F) as (u' & R & F2 & S); [lia..|].
    rewrite Lp in R, F2. replace (back + (zlen b - back + zlen d)) with (zlen b + zlen d) in F2 by lia.
    destruct S as (S1 & S2 & S3 & S4 & S5 & S6 & _ & S8). exists u'. split; [exact R|]. split; [|congruence].
    eapply (window_grows s len q back b pre d u' k k'); try done; try congruence; lia.
Qed.

(** A read that takes what is in the window and more from below. *)
Lemma read_across f rec s len q back ahead u k n : window_ok s len q back ahead u k -> 0 <= ahead < n -> n < 2 ^ 63 ->
  exists u' k' d, runs (if posM u <? endM u then read_buffered (S f) rec i n false else read_at_end (S f) rec fd i n false)
      (at_ u k) (at_ u' k') (zlen d, d)
    /\ ahead <= zlen d <= n /\ window_ok s len (q + zlen d) (Z.min len (back + zlen d)) 0 u' k'
    /\ (exists x y, s = x ++ d ++ y /\ zlen x = q) /\ (d = [] -> zlen s = q).
Proof.
  intros (pre & b & F & Lb & Es & Eq & Hlen & Eu & Ea & He & Hv & Had & Hvir & Ec) Hn Hmax. pose proof stream_bound as Hbd.
  pose proof (mw_range _ _ _ _ F) as Hr. destruct (mw_block _ _ _ _ F) as (r & Eb & Er). pose proof (zlen_nonneg r).
  rewrite (mw_pos _ _ _ _ F), (mw_end _ _ _ _ F).
  set (o := drop (Z.to_nat back) b). assert (Lo : zlen o = ahead) by (unfold o, zlen in *; rewrite length_drop; lia).
  set (u1 := if decide (ahead = 0) then u else add_offsets ahead u).
  assert (F1 : memory_window len b back u1) by (unfold u1; case_decide; [done|destruct F; by split]).
  destruct (read_stream f rec u1 u1 k (n - ahead)) as (k' & d & R1 & Hrest & Hd & Hend);
    [lia|unfold u1; by case_decide|unfold u1; by case_decide|].
  destruct (window_after (S f) s len q back pre b (advance (zlen d) u1) k k' d (ahead + zlen d)) as (u' & R2 & W' & Hau); try done;
    [by destruct F1|unfold u1; by case_decide..|cbn; unfold u1; case_decide; cbn; lia|lia|].
  fold o in R2. assert (Lod : zlen (o ++ d) = ahead + zlen d) by (rewrite zlen_app; lia).
  pose proof (zlen_nonneg d). exists u', k', (o ++ d). rewrite Lod. split; [|split; [lia|split; [done|split]]].
  - unfold u1 in *. destruct (decide (ahead = 0)) as [E0|E0].
    + ztest. unfold read_at_end. ostep. cbn [andb orb]. unfold uxfio__get_state. rewrite Hvir, Eu. cbn [orb].
      assert (Eo : o = []) by (apply zlen_0; lia). rewrite Eo in *. cbn [app] in *. rewrite E0 in *. rewrite Z.sub_0_r in R1. rewrite Z.add_0_l in *.
      assert ((ufd =? UXFIO_NULL_FD) = false) as -> by (apply Z.eqb_neq; unfold UXFIO_NULL_FD; lia).
      eapply step_run; [exact R1|]. cbv beta iota. ztest. ostep. eapply step_run; [exact R2|]. cbv beta. ostep. rewrite Hau. ostep. apply runs_ret.
    + ztest. unfold read_buffered. ostep. rewrite (mw_end _ _ _ _ F), (mw_pos _ _ _ _ F).
      assert ((if n >=? zlen b - back then zlen b - back else n) = ahead) as -> by (case_match; zbool; lia).
      eapply (step_run _ _ _ (at_ u k) _ (Some o)).
      { unfold take_buffered. ostep. rewrite (mw_type _ _ _ _ F), (mw_pos _ _ _ _ F), Eb. cbn [UXFIO_BUFTYPE_MEM UXFIO_BUFTYPE_FILE Z.eqb Pos.eqb].
        eapply step_run; [apply runs_lift; apply mem_sub_in; rewrite ?zlen_app; lia|]. cbv beta.
        rewrite drop_app_le, take_app_le, take_ge by (unfold zlen in *; rewrite ?length_drop; lia). apply runs_ret. }
      cbv beta iota. ostep. ztest. ostep. cbn [andb]. cbn [add_offsets put_current_offsetM put_virtual_offsetM uxfdM]. rewrite Eu.
      assert ((ufd =? UXFIO_NULL_FD) = false) as -> by (apply Z.eqb_neq; unfold UXFIO_NULL_FD; lia).
      eapply step_run; [exact R1|]. cbv beta iota. ztest. ostep. eapply step_run; [exact R2|]. apply runs_ret.
  - exists (pre ++ take (Z.to_nat back) b), (rest k'). split.
    + rewrite Es, Hrest, <- !app_assoc. f_equal. unfold o. rewrite (app_assoc (take _ _)), take_drop. done.
    + rewrite zlen_app, Eq. unfold zlen in *. rewrite length_take. lia.
  - intros [Eo ->]%app_eq_nil. rewrite Es, (Hend eq_refl), app_nil_r, zlen_app. rewrite Eo in Lo. change (zlen (@nil ascii)) with 0 in Lo. lia.
Qed.
End Stream.
