(* ===== verification/UxfioWindowSpec.v ===== *)
(** * What a memory buffer over a stream promises

    A window on the stream: reads deliver the stream from the position on, moves
    inside the window are exact, moves before it are refused, moves behind it
    read on; the position is told with UXFIO_SEEK_VCUR. *)

From S2P Require Import Prelude CString Strob Strar Escape Effects UxfioState Uxfio UxfioTable UxfioObject UxfioWindow.

#[local] Open Scope effects_scope.

(** ** The abstract window *)

(** The position in the stream, and the bytes that are kept on both sides of it. *)
Record window := Win { at_byte : Z; behind : Z; ahead_of : Z }.

Inductive window_op := WRead (n : Z) | WMove (offset : Z) | WTell.
Inductive window_result := WBytes (d : bytes) | WNumber (z : Z).

(** The window after [n] bytes were passed: it keeps [len] bytes. *)
Definition passed (len n : Z) (x : window) : window :=
  Win (at_byte x + n) (Z.min len (behind x + n)) (Z.max 0 (ahead_of x - n)).

Inductive window_step (s : bytes) (len : Z) (x : window) : window_op -> window_result -> window -> Prop :=
  | step_read n d pre post :
      s = pre ++ d ++ post -> zlen pre = at_byte x -> Z.min n (ahead_of x) <= zlen d <= n ->
      (d = [] -> at_byte x = zlen s) ->
      window_step s len x (WRead n) (WBytes d) (passed len (zlen d) x)
  | step_move offset :
      - behind x <= offset <= ahead_of x ->
      window_step s len x (WMove offset) (WNumber (behind x + offset))
        (Win (at_byte x + offset) (behind x + offset) (ahead_of x - offset))
  | step_refused offset :
      offset < - behind x -> window_step s len x (WMove offset) (WNumber UXFIO_RET_EFAIL) x
  | step_skip offset :
      ahead_of x < offset -> window_step s len x (WMove offset) (WNumber (behind (passed len offset x))) (passed len offset x)
  | step_tell : window_step s len x WTell (WNumber (at_byte x)) x.

(** The window decides what a move answers. *)
Lemma move_result s len x offset r x' : window_step s len x (WMove offset) r x' -> - behind x <= offset <= ahead_of x ->
  r = WNumber (behind x + offset) /\ x' = Win (at_byte x + offset) (behind x + offset) (ahead_of x - offset).
Proof. inversion 1; subst; done || lia. Qed.

Lemma skip_result s len x offset r x' : window_step s len x (WMove offset) r x' -> 0 <= behind x /\ 0 <= ahead_of x < offset ->
  r = WNumber (behind (passed len offset x)) /\ x' = passed len offset x.
Proof. inversion 1; subst; done || lia. Qed.

Lemma tell_result s len x r x' : window_step s len x WTell r x' -> r = WNumber (at_byte x).
Proof. by inversion 1. Qed.

(** A read has a size, a move forward ends inside the stream. *)
Definition permitted (s : bytes) (x : window) (op : window_op) : Prop :=
  match op with
  | WRead n => 0 < n <= INT_MAX
  | WMove offset => offset <= INT_MAX /\ at_byte x + offset <= zlen s
  | WTell => True
  end.

Section Refinement.
Context {K : Type} `{Kernel K} `{Malloc} {heap : Heap}.
Abbreviation W := (World K).
Implicit Types (w : W) (u : UXFIO) (k : K) (b d p m s : bytes) (n len : Z) (x : window).
Context (ufd : Z) (rest : K -> bytes) (Hufd : 0 <= ufd < UXFIO_FD_MIN).

(** [fd] is a descriptor with a memory buffer of [len] bytes over the stream [s]. *)
Definition holds_window w fd s len x : Prop :=
  exists i u, open_as w fd i u /\ window_ok ufd rest s len (at_byte x) (behind x) (ahead_of x) u (sys w).

Lemma holds_state w fd i u u' s len x k e : open_as w fd i u -> window_ok ufd rest s len (at_byte x) (behind x) (ahead_of x) u' k ->
  holds_window (state_of w i u' k e) fd s len x.
Proof. intros Ho Hw. exists i, u'. split; [by eapply open_as_state|done]. Qed.

Lemma holds_bounds w fd s len x : holds_window w fd s len x -> 0 <= at_byte x <= zlen s /\ 0 <= behind x <= len /\ 0 <= ahead_of x /\ 0 < len.
Proof.
  intros (i & u & _ & (pre & b & F & Lb & Es & Eq & Hl & _)). pose proof (mw_range _ _ _ _ F). pose proof (mw_fits _ _ _ _ F).
  pose proof (f_equal zlen Es) as El. rewrite !zlen_app in El. pose proof (zlen_nonneg pre). pose proof (zlen_nonneg (rest (sys w))). lia.
Qed.

Lemma fd_of w fd i u : open_as w fd i u -> (fd <? UXFIO_FD_MIN) = false /\ (fd >=? UXFIO_FD_MIN) = true.
Proof. intros (_ & [-> _] & _). unfold UXFIO_FD_MIN. by ztest. Qed.

(** ** Reads *)

Lemma window_read f w fd s len x n : delivers ufd rest -> holds_window w fd s len x -> 0 < n <= INT_MAX ->
  exists w' d pre post, runs (uxfio_read (S f) fd n) w w' (zlen d, d) /\ holds_window w' fd s len (passed len (zlen d) x)
    /\ s = pre ++ d ++ post /\ zlen pre = at_byte x /\ Z.min n (ahead_of x) <= zlen d <= n /\ (d = [] -> at_byte x = zlen s).
Proof.
  intros Hdel HW Hn. pose proof (holds_bounds _ _ _ _ _ HW) as HB. destruct HW as (i & u & Ho & W0).
  destruct (fd_of _ _ _ _ Ho) as [E2 E3]. pose proof (open_as_bound _ _ _ _ Ho) as Hbd.
  assert (exists u' k' d pre post, runs (if posM u <? endM u then read_buffered (S f) (uxfio_common_read f) i n false
            else read_at_end (S f) (uxfio_common_read f) fd i n false) (state_of w i u (sys w) (errno w)) (state_of w i u' k' (errno w)) (zlen d, d)
    /\ window_ok ufd rest s len (at_byte x + zlen d) (Z.min len (behind x + zlen d)) (Z.max 0 (ahead_of x - zlen d)) u' k'
    /\ s = pre ++ d ++ post /\ zlen pre = at_byte x /\ Z.min n (ahead_of x) <= zlen d <= n /\ (d = [] -> at_byte x = zlen s))
    as (u' & k' & d & pre & post & R & W' & Hs).
  { destruct (decide (n <= ahead_of x)) as [Hle|Hgt].
    - destruct (read_inside ufd rest w fd i u Ho (errno w) f (uxfio_common_read f) s len _ _ _ u (sys w) n W0) as (u' & d & R & Ld & W' & pre & post & Es & Ep); [lia|].
      exists u', (sys w), d, pre, post. rewrite Ld. split_and!; try done; try lia.
      + destruct W0 as (? & b & F & Lb & _). rewrite (mw_pos _ _ _ _ F), (mw_end _ _ _ _ F). ztest. exact R.
      + assert (behind x + n <= len) by (destruct W' as (? & b & F & Lb & _); pose proof (mw_fits _ _ _ _ F); lia).
        rewrite Z.min_r, Z.max_r by lia. exact W'.
      + intros ->. change (zlen (@nil ascii)) with 0 in Ld. lia.
    - destruct (read_across ufd rest Hufd Hdel w fd i u Ho (errno w) f (uxfio_common_read f) s len _ _ _ u (sys w) n W0) as (u' & k' & d & R & Hd & W' & (pre & post & Es & Ep) & Hend); [lia|unfold INT_MAX in *; lia|].
      exists u', k', d, pre, post. split_and!; try done; try lia.
      + rewrite (Z.max_l 0) by lia. exact W'.
      + intros E. by rewrite (Hend E). }
  exists (state_of w i u' k' (errno w)), d, pre, post. split; [|split; [by eapply holds_state|done]].
  unfold uxfio_read, read_below. rewrite E2, E3. cbn [andb uxfio_common_read]. eapply step_run; [by eapply find_start|]. cbv beta iota.
  rewrite to_int_id by (unfold INT_MAX in *; lia). destruct W0 as (? & b & F & _ & _ & _ & _ & _ & Ea & He & Hv & _).
  unfold read_object. ostep. rewrite (mw_type _ _ _ _ F). cbn [UXFIO_BUFTYPE_MEM UXFIO_BUFTYPE_FILE UXFIO_BUFTYPE_DYNAMIC_MEM Z.eqb Pos.eqb orb]. ztest.
  ostep. cbv beta iota. rewrite andb_false_r. ostep. rewrite Ea. cbn [Z.eqb]. eapply step_run; [by eapply bufferstate_window|]. exact R.
Qed.

(** ** Moves *)

Lemma passed_passed len (a c : Z) x : 0 <= a -> 0 <= c -> 0 <= len -> passed len c (passed len a x) = passed len (a + c) x.
Proof. intros. unfold passed. cbn. f_equal; lia. Qed.

(** Reading ahead. *)
Lemma window_skip rounds f w fd s len x amount have : delivers ufd rest -> holds_window w fd s len x ->
  0 <= amount <= INT_MAX -> at_byte x + amount <= zlen s -> (Z.to_nat amount < rounds)%nat ->
  exists w', runs (read_bytes_loop rounds (S f) fd amount have) w w' (have + amount) /\ holds_window w' fd s len (passed len amount x).
Proof.
  intros Hdel. revert w x amount have. induction rounds as [|rounds IH]; intros w x amount have HW Ha Hs Hr; [lia|].
  pose proof (holds_bounds _ _ _ _ _ HW) as HB. cbn [read_bytes_loop]. destruct (decide (amount = 0)) as [->|Hne].
  - exists w. rewrite Z.add_0_r. split; [apply runs_ret|]. unfold passed. rewrite Z.add_0_r, Z.add_0_r, Z.sub_0_r, Z.min_r, Z.max_r by lia.
    by destruct x.
  - ztest. cbv zeta. set (bite := if 4096 <? amount then 4096 else amount).
    assert (Hb : 0 < bite <= 4096 /\ bite <= amount) by (unfold bite; case_match; zbool; lia).
    destruct (window_read f w fd s len x bite Hdel HW) as (w1 & d & pre & post & R & HW1 & Es & Ep & Hd & Hend); [unfold INT_MAX; lia|].
    pose proof (zlen_nonneg d). assert (0 < zlen d).
    { destruct (decide (d = [])) as [E|E]; [specialize (Hend E); lia|]. pose proof (zlen_nonempty d E). zbool. lia. }
    destruct (IH w1 _ (amount - zlen d) (have + zlen d) HW1) as (w2 & R2 & HW2); [lia|cbn; lia|lia|].
    exists w2. split.
    + eapply step_run; [exact R|]. cbv beta iota. ztest. replace (have + zlen d + (amount - zlen d)) with (have + amount) in R2 by lia. exact R2.
    + rewrite passed_passed in HW2 by lia. by replace (zlen d + (amount - zlen d)) with amount in HW2 by lia.
Qed.

(** A call of uxfio_lseek by [off], relative to the position, comes down to a move. *)
Lemma window_lseek f w fd i u s len x off whence w' r :
  open_as w fd i u -> window_ok ufd rest s len (at_byte x) (behind x) (ahead_of x) u (sys w) -> whence = SEEK_CUR \/ whence = UXFIO_SEEK_VCUR ->
  runs (lseek_move (S f) fd i off whence off whence false) (state_of w i u (sys w) (errno w)) w' r ->
  runs (uxfio_lseek (S f) fd off whence) w w' r.
Proof.
  intros Ho W0 Hw R. destruct (fd_of _ _ _ _ Ho) as [E2 _]. pose proof (open_as_bound _ _ _ _ Ho) as Hbd.
  cbn [uxfio_lseek]. rewrite E2. cbn [andb]. eapply step_run; [by eapply find_start|]. cbv beta iota.
  unfold lseek_target. assert ((whence =? SEEK_CUR) || (whence =? UXFIO_SEEK_VCUR) = true) as -> by (by destruct Hw as [-> | ->]).
  ostep. cbv beta iota. ostep. destruct W0 as (? & b & F & _ & _ & _ & _ & _ & Ea & _). rewrite Ea. exact R.
Qed.

Section Moves.
Context (f : nat) (w : W) (fd : Z) (i : nat) (u : UXFIO) (s : bytes) (len : Z) (x : window) (Ho : open_as w fd i u).
Context (W0 : window_ok ufd rest s len (at_byte x) (behind x) (ahead_of x) u (sys w)).
Abbreviation here := (state_of w i u (sys w) (errno w)).

Lemma window_start : exists b, memory_window len b (behind x) u /\ zlen b = behind x + ahead_of x
  /\ runs (bufferstate i) here here (behind x, ahead_of x, len - zlen b) /\ virtual_eof_active u = false.
Proof.
  destruct W0 as (? & b & F & Lb & _ & _ & _ & _ & _ & He & Hv & _). exists b. split; [done|]. split; [done|]. split.
  - pose proof (bufferstate_window w fd i u Ho (errno w) len b _ u (sys w) F) as R. by replace (zlen b - behind x) with (ahead_of x) in R by lia.
  - unfold virtual_eof_active. by ztest.
Qed.

Lemma window_move off : - behind x <= off <= ahead_of x -> off <> 0 ->
  exists w', runs (lseek_move (S f) fd i off SEEK_CUR off SEEK_CUR false) here w' (behind x + off)
    /\ holds_window w' fd s len (Win (at_byte x + off) (behind x + off) (ahead_of x - off)).
Proof.
  intros Hoff Hne. destruct window_start as (b & F & Lb & R & Hv). pose proof (open_as_bound _ _ _ _ Ho) as Hbd.
  set (u' := add_offsets off (add_pos off u)). exists (state_of w i u' (sys w) (errno w)).
  assert (RM : runs (move_within i off SEEK_CUR) here (state_of w i u' (sys w) (errno w)) (Some (behind x + off))).
  { unfold move_within. do 3 ostep. cbn [add_offsets add_pos put_posM put_current_offsetM put_virtual_offsetM buffertypeM posM].
    rewrite (mw_type _ _ _ _ F), (mw_pos _ _ _ _ F). cbn [UXFIO_BUFTYPE_MEM UXFIO_BUFTYPE_FILE Z.eqb Pos.eqb]. apply runs_ret. }
  split.
  - unfold lseek_move. eapply step_run; [exact R|]. cbv beta iota. ztest. ostep. rewrite Hv.
    eapply (step_run _ _ _ (state_of w i u' (sys w) (errno w)) _ (inr (behind x + off))); [|cbv beta iota; ostep; apply runs_ret].
    destruct (decide (off < 0)); ztest; (eapply step_run; [exact RM|]); apply runs_ret.
  - eapply holds_state; [done|]. cbn. destruct W0 as (pre & b' & F' & Lb' & Es & Eq & Hlen & Eu & Ea & He & Hve & Had & Hvir & Ec).
    exists pre, b'. pose proof (mw_range _ _ _ _ F'). split_and!; cbn; try done; try lia. destruct F'. split; cbn; try done; lia.
Qed.

Lemma window_stay whence : whence = SEEK_CUR \/ whence = UXFIO_SEEK_VCUR ->
  runs (lseek_move (S f) fd i 0 whence 0 whence false) here here (if whence =? SEEK_CUR then behind x else at_byte x).
Proof.
  intros Hw. destruct window_start as (b & F & Lb & R & Hv). pose proof (open_as_bound _ _ _ _ Ho) as Hbd.
  unfold lseek_move. eapply step_run; [exact R|]. cbv beta iota. cbn [Z.eqb Z.ltb Z.gtb Z.compare andb]. ostep.
  eapply (step_run _ _ _ here _ (inr (if whence =? SEEK_CUR then behind x else at_byte x))); [|cbv beta iota; ostep; apply runs_ret].
  eapply (step_run _ _ _ here _ (Some (if whence =? SEEK_CUR then behind x else at_byte x))); [|apply runs_ret].
  unfold move_nowhere. ostep. rewrite (mw_type _ _ _ _ F), (mw_pos _ _ _ _ F).
  destruct W0 as (? & ? & _ & _ & _ & _ & _ & _ & _ & _ & _ & _ & _ & ->). destruct Hw as [-> | ->]; apply runs_ret.
Qed.

Lemma window_refused off : off < - behind x ->
  runs (lseek_move (S f) fd i off SEEK_CUR off SEEK_CUR false) here here UXFIO_RET_EFAIL.
Proof.
  intros Hoff. destruct window_start as (b & F & Lb & R & Hv). pose proof (open_as_bound _ _ _ _ Ho) as Hbd.
  pose proof (mw_range _ _ _ _ F). unfold lseek_move. eapply step_run; [exact R|]. cbv beta iota. ztest. ostep. ostep. apply runs_ret.
Qed.

Lemma window_beyond off : delivers ufd rest -> ahead_of x < off <= INT_MAX -> at_byte x + off <= zlen s -> (Z.to_nat off < S f)%nat ->
  exists w', runs (lseek_move (S f) fd i off SEEK_CUR off SEEK_CUR false) here w' (behind (passed len off x))
    /\ holds_window w' fd s len (passed len off x).
Proof.
  intros Hdel Hoff Hs Hf. destruct window_start as (b & F & Lb & R & Hv). pose proof (open_as_bound _ _ _ _ Ho) as Hbd.
  pose proof (mw_range _ _ _ _ F). pose proof (holds_state w fd i u u s len x (sys w) (errno w) Ho W0) as HW.
  destruct (window_skip (S f) f here fd s len x off 0 Hdel HW) as (w' & RS & HW'); [lia..|]. rewrite Z.add_0_l in RS.
  pose proof HW' as (i' & u' & Ho' & W'). exists w'. split; [|done].
  assert (i' = i) as ->. { destruct Ho as (_ & [E1 _] & _), Ho' as (_ & [E2 _] & _). lia. }
  pose proof W' as (? & b' & F' & _).
  assert (RO : runs (obj i) w' w' u') by (apply runs_reads; by destruct Ho' as (_ & _ & ->)).
  unfold lseek_move. eapply step_run; [exact R|]. cbv beta iota. ztest. ostep.
  eapply (step_run _ _ _ w' _ (inr (behind (passed len off x)))); [|cbv beta iota; eapply step_run; [exact RO|]; apply runs_ret].
  unfold move_beyond. ostep. destruct W0 as (? & ? & _ & _ & _ & _ & _ & _ & Ea & _ & Hve & _). ztest.
  rewrite andb_false_r.
  eapply step_run; [unfold uxfio__read_bytes; rewrite to_int_id by (unfold INT_MAX in *; lia); exact RS|]. cbv beta. ztest.
  eapply (step_run _ _ _ w'); [apply runs_when_false|]. cbv beta. eapply step_run; [exact RO|]. cbv beta.
  rewrite (mw_type _ _ _ _ F'), (mw_pos _ _ _ _ F'). apply runs_ret.
Qed.
End Moves.

(** The calls that stand for the operations. *)
Definition do_window_op (fuel : nat) (fd : Z) (op : window_op) : ST W window_result :=
  match op with
  | WRead n => let! (_, d) := uxfio_read fuel fd n in ret (WBytes d)
  | WMove offset => let! r := uxfio_lseek fuel fd offset SEEK_CUR in ret (WNumber r)
  | WTell => let! r := uxfio_lseek fuel fd 0 UXFIO_SEEK_VCUR in ret (WNumber r)
  end.

(** C5: a descriptor with a memory buffer over a stream that delivers its bytes
    in pieces of any size behaves as a window on the stream. A read delivers the
    bytes of the stream at the position, and none only at its end; the last
    lenM bytes stay; a move inside the window is exact, so that reading again
    delivers the same bytes; a move before the window is refused, a move behind
    it reads on; and UXFIO_SEEK_VCUR tells the position in the stream. *)
Theorem window_replays_stream f w fd s len x op :
  delivers ufd rest -> holds_window w fd s len x -> permitted s x op ->
  (match op with WMove offset => (Z.to_nat offset < S f)%nat | _ => True end) ->
  exists w' r x', runs (do_window_op (S f) fd op) w w' r /\ window_step s len x op r x' /\ holds_window w' fd s len x'.
Proof.
  intros Hdel HW Hp Hf. destruct op as [n|off|]; cbn [do_window_op permitted] in *.
  - destruct (window_read f w fd s len x n Hdel HW Hp) as (w' & d & pre & post & R & HW' & Es & Ep & Hd & Hend).
    exists w', (WBytes d), (passed len (zlen d) x). split; [|split; [by eapply step_read|done]]. eapply runs_bind; [exact R|]. apply runs_ret.
  - pose proof HW as (i & u & Ho & W0). assert (Lift : forall w' r, runs (lseek_move (S f) fd i off SEEK_CUR off SEEK_CUR false) (state_of w i u (sys w) (errno w)) w' r ->
      runs (do_window_op (S f) fd (WMove off)) w w' (WNumber r)).
    { intros w' r R. cbn [do_window_op]. eapply runs_bind; [eapply window_lseek; [exact Ho|exact W0|by left|exact R]|]. apply runs_ret. }
    destruct (decide (off < - behind x)); [|destruct (decide (ahead_of x < off)); [|destruct (decide (off = 0)) as [->|]]].
    + eexists _, _, x. split; [by apply Lift; eapply window_refused|]. split; [by apply step_refused|by eapply holds_state].
    + destruct (window_beyond f w fd i u s len x Ho W0 off Hdel) as (w' & R & HW'); [lia..|].
      eexists _, _, _. split; [by apply Lift|]. split; [by apply step_skip|done].
    + pose proof (holds_bounds _ _ _ _ _ HW) as HB. pose proof (window_stay f w fd i u s len x Ho W0 SEEK_CUR) as R.
      eexists _, _, x. split; [apply Lift, R; by left|]. split; [|by eapply holds_state]. cbn [SEEK_CUR Z.eqb Pos.eqb].
      pose proof (step_move s len x 0) as St. rewrite !Z.add_0_r, Z.sub_0_r in St. destruct x; apply St. cbn in *. lia.
    + destruct (window_move f w fd i u s len x Ho W0 off) as (w' & R & HW'); [lia..|].
      eexists _, _, _. split; [by apply Lift|]. split; [by apply step_move; lia|done].
  - pose proof HW as (i & u & Ho & W0). eexists _, _, x. split; [|split; [apply step_tell|by eapply holds_state]].
    pose proof (window_stay f w fd i u s len x Ho W0 UXFIO_SEEK_VCUR) as R.
    eapply runs_bind; [eapply window_lseek; [exact Ho|exact W0|by right|apply R; by right]|]. apply runs_ret.
Qed.
End Refinement.

Module Witness.
#[local] Existing Instance one_heap.
#[local] Existing Instance UxfioTable.Witness.zero_junk.

(** A stream that gives at most two bytes to a read. *)
#[local] Instance slow_source : Kernel bytes :=
  let fail {A} (k : bytes) : bytes * (A + Z) := (k, inr 9) in
  Build_Kernel bytes (fun _ n k => let c := Z.to_nat (Z.min n 2) in (drop c k, inl (take c k))) (fun _ _ => fail) (fun _ _ _ => fail)
    (fun _ => fail) (fun _ => fail) (fun _ _ => fail) (fun _ _ _ => fail) (fun _ _ _ => fail) (fun _ => fail) (fun _ => fail).

Definition unread (k : bytes) : bytes := k.

Lemma slow_delivers : delivers 5 unread.
Proof.
  intros k n Hn. exists (drop (Z.to_nat (Z.min n 2)) k), (take (Z.to_nat (Z.min n 2)) k). split; [reflexivity|].
  unfold unread. split; [by rewrite take_drop|]. split.
  - unfold zlen. rewrite length_take. lia.
  - destruct k as [|a k]; [done|]. destruct (Z.to_nat (Z.min n 2)) eqn:E; [lia|done].
Qed.

(** uxfio_opendup (5, UXFIO_BUFTYPE_MEM) and a window of four bytes. *)
Definition calls : list api :=
  [Opendup 5 UXFIO_BUFTYPE_MEM; Fcntl UXFIO_FD_MIN UXFIO_F_SET_BUFFER_LENGTH 4].

Definition start : World bytes :=
  default (initial_world []) (perform_all 9 calls (initial_world (L "abcdefg"))).

Lemma window_reachable : reachable start.
Proof.
  apply (perform_all_reachable 9 calls (initial_world (L "abcdefg"))); [apply reach_start|]. unfold start.
  destruct (perform_all 9 calls (initial_world (L "abcdefg"))) eqn:E; [done|]. vm_compute in E. done.
Qed.

Lemma start_window : holds_window 5 unread start UXFIO_FD_MIN (L "abcdefg") 4 (Win 0 0 0).
Proof.
  exists 0%nat, (default fresh_UXFIO (object start 0)). split.
  - split; [apply reachable_ok, window_reachable|]. split; [|vm_compute; reflexivity].
    split; [reflexivity|]. destruct (slots start !! 0%nat) as [s|] eqn:E; [|vm_compute in E; done].
    exists s. split; [reflexivity|]. pose proof (f_equal (fmap slot_status) E) as E'. vm_compute in E'. injection E' as E'. exact (eq_sym E').
  - exists [], []. split; [|vm_compute; repeat split; congruence].
    split; [vm_compute; reflexivity|vm_compute; reflexivity|eexists; split; [vm_compute; reflexivity|vm_compute; reflexivity]|vm_compute; reflexivity
      |vm_compute; congruence|vm_compute; reflexivity|vm_compute; split; congruence].
Qed.

(** Five bytes on, the window holds bcde; three bytes back is the byte 2. *)
Lemma window_replays_stream_witness :
  exists w1 w2 w3, runs (do_window_op 9 UXFIO_FD_MIN (WMove 5)) start w1 (WNumber 4)
    /\ runs (do_window_op 9 UXFIO_FD_MIN (WMove (-3))) w1 w2 (WNumber 1)
    /\ runs (do_window_op 9 UXFIO_FD_MIN WTell) w2 w3 (WNumber 2).
Proof.
  destruct (window_replays_stream 5 unread ltac:(vm_compute; split; congruence) 8 start UXFIO_FD_MIN (L "abcdefg") 4 (Win 0 0 0) (WMove 5)
    slow_delivers start_window) as (w1 & r1 & x1 & R1 & S1 & HW1); [vm_compute; split; congruence|vm_compute; lia|].
  apply skip_result in S1 as [-> ->]; [|vm_compute; repeat split; congruence].
  destruct (window_replays_stream 5 unread ltac:(vm_compute; split; congruence) 8 w1 UXFIO_FD_MIN (L "abcdefg") 4 _ (WMove (-3))
    slow_delivers HW1) as (w2 & r2 & x2 & R2 & S2 & HW2); [vm_compute; split; congruence|vm_compute; lia|].
  apply move_result in S2 as [-> ->]; [|vm_compute; split; congruence].
  destruct (window_replays_stream 5 unread ltac:(vm_compute; split; congruence) 8 w2 UXFIO_FD_MIN (L "abcdefg") 4 _ WTell
    slow_delivers HW2) as (w3 & r3 & x3 & R3 & S3 & HW3); [exact I|exact I|].
  apply tell_result in S3 as ->. exists w1, w2, w3. split; [exact R1|]. split; [exact R2|exact R3].
Defined.
End Witness.
