(* ===== verification/Options.v ===== *)
(** * Extended options (swsupplib/misc/swextopt.c, swextopt.h and swcommon_options.h)

    Every utility has the same table of options. An entry has a default, the
    value that was set for it, and two marks that say who set it: the command
    line (option_setM) or a line of a file of defaults that names the utility
    (util_setM). The entry behind the last one, which ends the loops of the
    code, is the end of the list. A text of the table is what is in its buffer. *)

From S2P Require Import Prelude CString Strob Escape Pathname Effects MetaLine.
#[local] Open Scope effects_scope.

Definition SW_E_TRUE : bytes := L "True".
Definition SW_E_FALSE : bytes := L "False".
Definition FILE_URL : bytes := L "file://".
Definition SWBIS_STDIO_FNAME : bytes := L "-".

(** The utilities an option is for. *)
Definition SWC_U_A : Z := Z.shiftl 1 0.
Definition SWC_U_C : Z := Z.shiftl 1 1.
Definition SWC_U_I : Z := Z.shiftl 1 2.
Definition SWC_U_G : Z := Z.shiftl 1 3.
Definition SWC_U_L : Z := Z.shiftl 1 4.
Definition SWC_U_M : Z := Z.shiftl 1 5.
Definition SWC_U_P : Z := Z.shiftl 1 6.
Definition SWC_U_R : Z := Z.shiftl 1 7.
Definition SWC_U_V : Z := Z.shiftl 1 8.
Definition SWC_U_X : Z := Z.shiftl 1 9.

Record extendedOptions := mkOption {
  is_boolM : Z; util_setM : Z; option_setM : Z;
  optionNameM : bytes; defaultValueM : option bytes; valueM : option bytes;
  app_flags : Z;
}.

Inductive eOpts :=
  | SW_E_allow_downdate | SW_E_allow_incompatible | SW_E_allow_multiple_versions | SW_E_ask | SW_E_autoreboot
  | SW_E_autorecover | SW_E_autoselect_dependencies | SW_E_autoselect_dependents | SW_E_check_contents
  | SW_E_check_permissions | SW_E_check_requisites | SW_E_check_scripts | SW_E_check_volatile
  | SW_E_compress_files | SW_E_compression_type | SW_E_defer_configure | SW_E_distribution_source_directory
  | SW_E_distribution_target_directory | SW_E_distribution_target_serial | SW_E_enforce_dependencies
  | SW_E_enforce_dsa | SW_E_enforce_locatable | SW_E_enforce_scripts | SW_E_files | SW_E_follow_symlinks
  | SW_E_installed_software_catalog | SW_E_logfile | SW_E_loglevel | SW_E_media_capacity | SW_E_media_type
  | SW_E_psf_source_file | SW_E_one_liner | SW_E_reconfigure | SW_E_recopy | SW_E_reinstall
  | SW_E_select_local | SW_E_software | SW_E_targets | SW_E_uncompress_files | SW_E_verbose
  | SW_E_swbis_cksum | SW_E_swbis_file_digests | SW_E_swbis_file_digests_sha2 | SW_E_swbis_files
  | SW_E_swbis_signer_pgm | SW_E_swbis_sign | SW_E_swbis_archive_digests | SW_E_swbis_archive_digests_sha2
  | SW_E_swbis_gpg_name | SW_E_swbis_gpg_path | SW_E_swbis_gzip | SW_E_swbis_bzip2 | SW_E_swbis_numeric_owner
  | SW_E_swbis_absolute_names | SW_E_swbis_format | SW_E_swbis_no_analysis_phase | SW_E_swbis_archive_reader
  | SW_E_swbis_no_audit | SW_E_swbis_local_pax_write_command | SW_E_swbis_remote_pax_write_command
  | SW_E_swbis_local_pax_read_command | SW_E_swbis_remote_pax_read_command
  | SW_E_swbis_local_pax_remove_command | SW_E_swbis_remote_pax_remove_command
  | SW_E_swbis_quiet_progress_bar | SW_E_swbis_no_remote_kill | SW_E_swbis_no_getconf
  | SW_E_swbis_shell_command | SW_E_swbis_enforce_file_md5 | SW_E_swbis_allow_rpm
  | SW_E_swbis_remote_shell_client | SW_E_swbis_install_volatile | SW_E_swbis_volatile_newname
  | SW_E_swbis_any_format | SW_E_swbis_forward_agent | SW_E_swbis_ignore_scripts | SW_E_swbis_sig_level
  | SW_E_swbis_enforce_all_signatures | SW_E_swbis_remove_volatile | SW_E_swbis_check_mtime
  | SW_E_swbis_check_duplicates | SW_E_swbis_check_owners | SW_E_swbis_replacefiles | SW_E_swbis_last_option.

#[local] Definition opt (b : Z) (name : bytes) (default : option bytes) (flags : Z) : extendedOptions :=
  mkOption b 0 0 name default None flags.
#[local] Infix ".|" := Z.lor (at level 50, left associativity).

Definition optionsArray : list extendedOptions :=
  [opt 1 (L "allow_downdate") (Some (L "false")) SWC_U_I;
   opt 1 (L "allow_incompatible") (Some (L "false")) (SWC_U_I .| SWC_U_V .| SWC_U_G);
   opt 1 (L "allow_multiple_versions") (Some (L "false")) SWC_U_G;
   opt 1 (L "ask") (Some (L "false")) (SWC_U_I .| SWC_U_G);
   opt 1 (L "autoreboot") (Some (L "false")) SWC_U_I;
   opt 1 (L "autorecover") (Some (L "false")) SWC_U_I;
   opt 0 (L "autoselect_dependencies") (Some (L "as_needed")) (SWC_U_I .| SWC_U_C .| SWC_U_R .| SWC_U_V .| SWC_U_G);
   opt 1 (L "autoselect_dependents") (Some (L "false")) SWC_U_G;
   opt 1 (L "check_contents") (Some (L "true")) SWC_U_V;
   opt 1 (L "check_permissions") (Some (L "true")) SWC_U_V;
   opt 1 (L "check_requisites") (Some (L "true")) SWC_U_V;
   opt 1 (L "check_scripts") (Some (L "true")) SWC_U_V;
   opt 1 (L "check_volatile") (Some (L "false")) SWC_U_V;
   opt 1 (L "compress_files") (Some (L "false")) SWC_U_C;
   opt 0 (L "compression_type") (Some (L "gzip")) SWC_U_C;
   opt 1 (L "defer_configure") (Some (L "false")) SWC_U_I;
   opt 0 (L "distribution_source_directory") (Some (L "-")) (SWC_U_I .| SWC_U_C);
   opt 0 (L "distribution_target_directory") (Some (L "/")) (SWC_U_P .| SWC_U_C .| SWC_U_L .| SWC_U_R .| SWC_U_V);
   opt 0 (L "distribution_target_serial") (Some (L "-")) SWC_U_P;
   opt 1 (L "enforce_dependencies") (Some (L "true")) (SWC_U_I .| SWC_U_C .| SWC_U_R .| SWC_U_V);
   opt 1 (L "enforce_dsa") (Some (L "true")) (SWC_U_P .| SWC_U_I .| SWC_U_C);
   opt 1 (L "enforce_locatable") (Some (L "true")) (SWC_U_I .| SWC_U_V);
   opt 1 (L "enforce_scripts") (Some (L "true")) (SWC_U_I .| SWC_U_R .| SWC_U_G);
   opt 0 (L "files") None 0;
   opt 1 (L "follow_symlinks") (Some (L "false")) SWC_U_P;
   opt 0 (L "installed_software_catalog") (Some (L "var/lib/swbis/catalog")) (SWC_U_I .| SWC_U_L .| SWC_U_R .| SWC_U_V .| SWC_U_G);
   opt 0 (L "logfile") (Some (L "/var/log/sw.log")) (SWC_U_I .| SWC_U_C .| SWC_U_R .| SWC_U_V .| SWC_U_G);
   opt 0 (L "loglevel") (Some (L "1")) (SWC_U_I .| SWC_U_C .| SWC_U_R .| SWC_U_V .| SWC_U_G);
   opt 0 (L "media_capacity") (Some (L "0")) SWC_U_P;
   opt 0 (L "media_type") (Some (L "serial")) SWC_U_P;
   opt 0 (L "psf_source_file") (Some (L "-")) SWC_U_P;
   opt 0 (L "one_liner") (Some (L "title revision tag")) SWC_U_L;
   opt 1 (L "reconfigure") (Some (L "false")) SWC_U_G;
   opt 1 (L "recopy") (Some (L "false")) SWC_U_C;
   opt 1 (L "reinstall") (Some (L "false")) SWC_U_I;
   opt 1 (L "select_local") (Some (L "true")) (SWC_U_I .| SWC_U_C .| SWC_U_L .| SWC_U_R .| SWC_U_V .| SWC_U_G);
   opt 0 (L "software") (Some []) 0;
   opt 0 (L "targets") (Some []) 0;
   opt 1 (L "uncompress_files") (Some (L "false")) SWC_U_C;
   opt 0 (L "verbose") (Some (L "1")) (SWC_U_P .| SWC_U_I .| SWC_U_C .| SWC_U_L .| SWC_U_R .| SWC_U_V .| SWC_U_G);
   opt 1 (L "swbis_cksum") (Some (L "false")) SWC_U_P;
   opt 1 (L "swbis_file_digests") (Some (L "false")) SWC_U_P;
   opt 1 (L "swbis_file_digests_sha2") (Some (L "false")) SWC_U_P;
   opt 1 (L "swbis_files") (Some (L "false")) SWC_U_P;
   opt 0 (L "swbis_signer_pgm") (Some (L "GPG")) SWC_U_P;
   opt 1 (L "swbis_sign") (Some (L "false")) SWC_U_P;
   opt 1 (L "swbis_archive_digests") (Some (L "false")) SWC_U_P;
   opt 1 (L "swbis_archive_digests_sha2") (Some (L "false")) SWC_U_P;
   opt 0 (L "swbis_gpg_name") (Some []) SWC_U_P;
   opt 0 (L "swbis_gpg_path") (Some (L "~/.gnupg")) SWC_U_P;
   opt 1 (L "swbis_gzip") (Some (L "false")) SWC_U_P;
   opt 1 (L "swbis_bzip2") (Some (L "false")) SWC_U_P;
   opt 1 (L "swbis_numeric_owner") (Some (L "false")) SWC_U_P;
   opt 1 (L "swbis_absolute_names") (Some (L "false")) SWC_U_P;
   opt 0 (L "swbis_format") (Some (L "ustar")) (SWC_U_P .| SWC_U_I);
   opt 1 (L "swbis_no_analysis_phase") (Some (L "false")) SWC_U_X;
   opt 0 (L "swbis_archive_reader") (Some (L "tar")) SWC_U_X;
   opt 1 (L "swbis_no_audit") (Some (L "true")) SWC_U_C;
   opt 0 (L "swbis_local_pax_write_command") (Some (L "tar")) (SWC_U_C .| SWC_U_I .| SWC_U_L .| SWC_U_R .| SWC_U_V .| SWC_U_G);
   opt 0 (L "swbis_remote_pax_write_command") (Some (L "tar")) (SWC_U_C .| SWC_U_I .| SWC_U_L .| SWC_U_R .| SWC_U_V .| SWC_U_G);
   opt 0 (L "swbis_local_pax_read_command") (Some (L "tar")) (SWC_U_C .| SWC_U_I .| SWC_U_L .| SWC_U_R .| SWC_U_V .| SWC_U_G);
   opt 0 (L "swbis_remote_pax_read_command") (Some (L "tar")) (SWC_U_C .| SWC_U_I .| SWC_U_L .| SWC_U_R .| SWC_U_V .| SWC_U_G);
   opt 0 (L "swbis_local_pax_remove_command") (Some (L "gtar")) SWC_U_R;
   opt 0 (L "swbis_remote_pax_remove_command") (Some (L "gtar")) SWC_U_R;
   opt 1 (L "swbis_quiet_progress_bar") (Some (L "false")) (SWC_U_C .| SWC_U_I);
   opt 1 (L "swbis_no_remote_kill") (Some (L "false")) (SWC_U_C .| SWC_U_I .| SWC_U_L .| SWC_U_R .| SWC_U_V .| SWC_U_G);
   opt 1 (L "swbis_no_getconf") (Some (L "true")) (SWC_U_C .| SWC_U_I .| SWC_U_L .| SWC_U_R .| SWC_U_V .| SWC_U_G);
   opt 0 (L "swbis_shell_command") (Some (L "detect")) (SWC_U_C .| SWC_U_I .| SWC_U_L .| SWC_U_R .| SWC_U_V .| SWC_U_G);
   opt 1 (L "swbis_enforce_file_md5") (Some (L "false")) SWC_U_I;
   opt 1 (L "swbis_allow_rpm") (Some (L "false")) (SWC_U_C .| SWC_U_I .| SWC_U_L);
   opt 0 (L "swbis_remote_shell_client") (Some (L "/usr/bin/ssh")) (SWC_U_C .| SWC_U_I .| SWC_U_L);
   opt 1 (L "swbis_install_volatile") (Some (L "true")) SWC_U_I;
   opt 0 (L "swbis_volatile_newname") (Some []) SWC_U_I;
   opt 1 (L "swbis_any_format") (Some (L "false")) (SWC_U_L .| SWC_U_I .| SWC_U_P .| SWC_U_C);
   opt 1 (L "swbis_forward_agent") (Some (L "true")) (SWC_U_L .| SWC_U_C .| SWC_U_I .| SWC_U_V .| SWC_U_G);
   opt 1 (L "swbis_ignore_scripts") (Some (L "false")) (SWC_U_I .| SWC_U_G);
   opt 0 (L "swbis_sig_level") (Some (L "0")) (SWC_U_R .| SWC_U_I .| SWC_U_L .| SWC_U_V .| SWC_U_G);
   opt 1 (L "swbis_enforce_all_signatures") (Some (L "false")) (SWC_U_R .| SWC_U_I .| SWC_U_L .| SWC_U_V .| SWC_U_G);
   opt 0 (L "swbis_remove_volatile") (Some (L "true")) SWC_U_R;
   opt 0 (L "swbis_check_mtime") (Some (L "true")) SWC_U_V;
   opt 1 (L "swbis_check_duplicates") (Some (L "true")) SWC_U_P;
   opt 1 (L "swbis_check_owners") (Some (L "true")) SWC_U_V;
   opt 1 (L "swbis_replacefiles") (Some (L "false")) SWC_U_I].

(** The value of a constant of the enumeration. *)
Definition enum (nopt : eOpts) : nat :=
  match nopt with
  | SW_E_allow_downdate => 0%nat | SW_E_allow_incompatible => 1%nat | SW_E_allow_multiple_versions => 2%nat
  | SW_E_ask => 3%nat | SW_E_autoreboot => 4%nat | SW_E_autorecover => 5%nat
  | SW_E_autoselect_dependencies => 6%nat | SW_E_autoselect_dependents => 7%nat
  | SW_E_check_contents => 8%nat | SW_E_check_permissions => 9%nat | SW_E_check_requisites => 10%nat
  | SW_E_check_scripts => 11%nat | SW_E_check_volatile => 12%nat | SW_E_compress_files => 13%nat
  | SW_E_compression_type => 14%nat | SW_E_defer_configure => 15%nat
  | SW_E_distribution_source_directory => 16%nat | SW_E_distribution_target_directory => 17%nat
  | SW_E_distribution_target_serial => 18%nat | SW_E_enforce_dependencies => 19%nat
  | SW_E_enforce_dsa => 20%nat | SW_E_enforce_locatable => 21%nat | SW_E_enforce_scripts => 22%nat
  | SW_E_files => 23%nat | SW_E_follow_symlinks => 24%nat | SW_E_installed_software_catalog => 25%nat
  | SW_E_logfile => 26%nat | SW_E_loglevel => 27%nat | SW_E_media_capacity => 28%nat
  | SW_E_media_type => 29%nat | SW_E_psf_source_file => 30%nat | SW_E_one_liner => 31%nat
  | SW_E_reconfigure => 32%nat | SW_E_recopy => 33%nat | SW_E_reinstall => 34%nat
  | SW_E_select_local => 35%nat | SW_E_software => 36%nat | SW_E_targets => 37%nat
  | SW_E_uncompress_files => 38%nat | SW_E_verbose => 39%nat | SW_E_swbis_cksum => 40%nat
  | SW_E_swbis_file_digests => 41%nat | SW_E_swbis_file_digests_sha2 => 42%nat | SW_E_swbis_files => 43%nat
  | SW_E_swbis_signer_pgm => 44%nat | SW_E_swbis_sign => 45%nat | SW_E_swbis_archive_digests => 46%nat
  | SW_E_swbis_archive_digests_sha2 => 47%nat | SW_E_swbis_gpg_name => 48%nat | SW_E_swbis_gpg_path => 49%nat
  | SW_E_swbis_gzip => 50%nat | SW_E_swbis_bzip2 => 51%nat | SW_E_swbis_numeric_owner => 52%nat
  | SW_E_swbis_absolute_names => 53%nat | SW_E_swbis_format => 54%nat
  | SW_E_swbis_no_analysis_phase => 55%nat | SW_E_swbis_archive_reader => 56%nat
  | SW_E_swbis_no_audit => 57%nat | SW_E_swbis_local_pax_write_command => 58%nat
  | SW_E_swbis_remote_pax_write_command => 59%nat | SW_E_swbis_local_pax_read_command => 60%nat
  | SW_E_swbis_remote_pax_read_command => 61%nat | SW_E_swbis_local_pax_remove_command => 62%nat
  | SW_E_swbis_remote_pax_remove_command => 63%nat | SW_E_swbis_quiet_progress_bar => 64%nat
  | SW_E_swbis_no_remote_kill => 65%nat | SW_E_swbis_no_getconf => 66%nat
  | SW_E_swbis_shell_command => 67%nat | SW_E_swbis_enforce_file_md5 => 68%nat
  | SW_E_swbis_allow_rpm => 69%nat | SW_E_swbis_remote_shell_client => 70%nat
  | SW_E_swbis_install_volatile => 71%nat | SW_E_swbis_volatile_newname => 72%nat
  | SW_E_swbis_any_format => 73%nat | SW_E_swbis_forward_agent => 74%nat
  | SW_E_swbis_ignore_scripts => 75%nat | SW_E_swbis_sig_level => 76%nat
  | SW_E_swbis_enforce_all_signatures => 77%nat | SW_E_swbis_remove_volatile => 78%nat
  | SW_E_swbis_check_mtime => 79%nat | SW_E_swbis_check_duplicates => 80%nat
  | SW_E_swbis_check_owners => 81%nat | SW_E_swbis_replacefiles => 82%nat | SW_E_swbis_last_option => 83%nat
  end.

(** ** Boolean values and texts *)

(** strcasecmp (a, b) == 0 *)
Definition tolower (c : ascii) : ascii := if isupper c then to_char (uchar c + 32) else c.
Definition strcaseeq (a b : bytes) : bool := streq (tolower <$> a) (tolower <$> b).

Definition i_is_value_false (s : option bytes) : bool :=
  match s with None => true | Some s => existsb (strcaseeq s) [L "f"; L "false"; L "no"; L "n"] end.

Definition i_is_value_true (s : option bytes) : bool :=
  match s with None => false | Some s => existsb (strcaseeq s) [L "t"; L "true"; L "yes"; L "y"] end.

(** With a warning, a value that is neither counts as false. *)
Definition swextopt_is_value_false (s : option bytes) : Z :=
  if i_is_value_false s then 1 else if i_is_value_true s then 0 else 1.

Definition swextopt_is_value_true (s : option bytes) : Z :=
  if i_is_value_true s then 1 else if i_is_value_false s then 0 else 0.

Fixpoint find_pow_loop (fuel : nat) (flag i : Z) : option Z :=
  match fuel with
  | O => None
  | S fuel => if Z.quot flag 2 >? 1 then find_pow_loop fuel (Z.shiftr flag 1) (i + 1) else Some i
  end.

Definition find_pow (flag : Z) : option Z :=
  if flag <=? 1 then Some 0 else find_pow_loop 32 flag 1.

Definition utilnames : list bytes :=
  [L "swask"; L "swcopy"; L "swinstall"; L "swconfig"; L "swlist"; L "swmodify"; L "swpackage"; L "swremove"; L "swverify"; []].

(** The first entry with the name. *)
Fixpoint find_option (optionname : bytes) (peop : list extendedOptions) : option nat :=
  match peop with
  | [] => None
  | eop :: r => if streq (optionNameM eop) optionname then Some O else S <$> find_option optionname r
  end.

Definition i_getEnumFromName (optionname : bytes) (peop : list extendedOptions) : Z :=
  match find_option optionname peop with Some i => Z.of_nat i | None => -1 end.

Fixpoint name_index (cu : bytes) (names : list bytes) : option nat :=
  match names with [] => None | n :: r => if streq cu n then Some O else S <$> name_index cu r end.

(** [cu] is the name of the utility. *)
Definition check_applicability (cu : bytes) (opta : list extendedOptions) (nopt : nat) : option Z :=
  eop ← opta !! nopt;
  Some (match name_index cu utilnames with
        | None => 1
        | Some index => if Z.land (app_flags eop) (Z.shiftl 1 (Z.of_nat index)) =? 0 then 1 else 0
        end).

Definition getEnumFromName (fp_optionname : bytes) (peop : list extendedOptions) : Z :=
  let optionname := fst (swlib_tr fp_optionname "_" "-") in
  let ret := i_getEnumFromName optionname peop in
  if ret >=? 0 then ret else i_getEnumFromName (fst (swlib_tr optionname "-" "_")) peop.

Fixpoint getLongOptionNameFromValue (arr : list (option bytes * Z)) (val : Z) : option bytes :=
  match arr with
  | (Some name, v) :: p => if v =? 0 then None else if v =? val then Some name else getLongOptionNameFromValue p val
  | _ => None
  end.

(** ** The table *)

(** The table, swextopt_statusG, what was written to stdout, and what is left on
    the standard input. *)
Record Options := mkOptions { opta : list extendedOptions; swextopt_statusG : Z; listed : bytes; standard_input : bytes }.
Abbreviation OPT := (ST Options).

Definition put_opta (v : list extendedOptions) (o : Options) : Options := mkOptions v (swextopt_statusG o) (listed o) (standard_input o).
Definition put_status (v : Z) (o : Options) : Options := mkOptions (opta o) v (listed o) (standard_input o).
Definition put_listed (v : bytes) (o : Options) : Options := mkOptions (opta o) (swextopt_statusG o) v (standard_input o).
Definition put_input (v : bytes) (o : Options) : Options := mkOptions (opta o) (swextopt_statusG o) (listed o) v.

Definition put_valueM (v : option bytes) (e : extendedOptions) : extendedOptions :=
  mkOption (is_boolM e) (util_setM e) (option_setM e) (optionNameM e) (defaultValueM e) v (app_flags e).
Definition put_option_setM (v : Z) (e : extendedOptions) : extendedOptions :=
  mkOption (is_boolM e) (util_setM e) v (optionNameM e) (defaultValueM e) (valueM e) (app_flags e).
Definition put_util_setM (v : Z) (e : extendedOptions) : extendedOptions :=
  mkOption (is_boolM e) v (option_setM e) (optionNameM e) (defaultValueM e) (valueM e) (app_flags e).

(** opta[nopt], and a change of it *)
Definition entry (nopt : nat) : OPT extendedOptions := reads (fun o => opta o !! nopt).
Definition change (nopt : nat) (f : extendedOptions -> extendedOptions) : OPT () :=
  updates (fun o => e ← opta o !! nopt; Some (put_opta (<[nopt := f e]> (opta o)) o)).

(** The value, or the default. *)
Definition current (e : extendedOptions) : option bytes :=
  match valueM e with Some v => Some v | None => defaultValueM e end.

Definition get_opta (nopt : nat) : OPT (option bytes) := let! e := entry nopt in ret (current e).
Definition swbisoption_get_opta (nopt : nat) : OPT (option bytes) := get_opta nopt.

Definition swextopt_is_option_false (nopt : nat) : OPT Z :=
  let! v := get_opta nopt in ret (swextopt_is_value_false v).
Definition swextopt_is_option_true (nopt : nat) : OPT Z :=
  let! v := get_opta nopt in ret (swextopt_is_value_true v).
Definition swextopt_is_option_set (nopt : nat) : OPT Z := let! e := entry nopt in ret (option_setM e).
Definition swextopt_get_status : OPT Z := gets swextopt_statusG.

Definition i_set_opta (optsetflag : Z) (nopt : nat) (value : option bytes) : OPT () :=
  match value with
  | Some v => if strpbrk v SWBIS_TAINTED_CHARS is Some _ then exit_process
              else change nopt (fun e => put_valueM (Some v) (put_option_setM optsetflag e))
  | None => change nopt (fun e => put_valueM None (put_option_setM optsetflag e))
  end.

(** The texts a boolean option may have. *)
Definition boolean_text (v : bytes) : bool :=
  existsb (strcaseeq v) [L "t"; L "f"; SW_E_TRUE; SW_E_FALSE; L "no"; L "yes"; L "n"; L "y"]
  || streq v (L "0") || streq v (L "1").

Definition set_opta_boolean (nopt : nat) (value : option bytes) : OPT () :=
  let! e := entry nopt in
  do! when (negb (is_boolM e =? 0) && (if value is Some v then negb (boolean_text v) else false)) (modify (put_status 1)) in
  let value :=
    match value with
    | Some (c :: _ as v) => if ceq c "0" then Some SW_E_FALSE else if ceq c "1" then Some SW_E_TRUE else Some v
    | _ => value
    end in
  i_set_opta 1 nopt value.

Definition set_opta (nopt : nat) (value : option bytes) : OPT () :=
  let! e := entry nopt in
  if negb (is_boolM e =? 0) then set_opta_boolean nopt value else i_set_opta 1 nopt value.

Definition set_opta_initial (nopt : nat) (value : option bytes) : OPT () := i_set_opta 0 nopt value.

(** *pis_set, *isOptSet, *isUtilSet and the value; the first stays as it is
    when the option is not found. *)
Definition getExtendedOption (optionname : bytes) (peop : list extendedOptions) : option (option Z * Z * Z * option bytes) :=
  match find_option optionname peop with
  | None => Some (None, 0, 0, None)
  | Some i =>
      eop ← peop !! i;
      Some (if valueM eop is Some v then (Some 1, option_setM eop, util_setM eop, Some v)
            else (Some 0, option_setM eop, util_setM eop, defaultValueM eop))
  end.

Definition setExtendedOption (optionname : bytes) (value : option bytes) (optSet is_util_option : bool) : OPT Z :=
  let! o := gets opta in
  match find_option optionname o with
  | None => ret (-1)
  | Some i =>
      let! eop := entry i in
      if negb (util_setM eop =? 0) && negb is_util_option then ret 0
      else if optSet && negb (option_setM eop =? 0) then ret 0
      else
        do! when is_util_option (change i (put_util_setM 1)) in
        do! change i (put_valueM value) in
        ret 0
  end.

(** ** Writing the table *)

Section Writing.
Context `{Malloc}.

(** name="value", of an option of the utilities [flag]; a value with shell
    meta-characters is left out. *)
Fixpoint session_loop (eop : list extendedOptions) (buf : STROB) (flag : Z) : option STROB :=
  match eop with
  | [] => Some buf
  | e :: eop =>
      buf ← (if (flag =? 0) || negb (Z.land flag (app_flags e) =? 0) then
               if negb (is_boolM e =? 0) then
                 let text := if swextopt_is_value_true (current e) =? 1 then L "true" else L "false" in
                 fst <$> strob_sprintf buf true (optionNameM e ++ L "=" ++ ["034"%char] ++ text ++ ["034"; "010"]%char)
               else
                 let value := match current e with
                              | Some v => if strpbrk v SWBIS_TAINTED_CHARS is Some _ then [] else v
                              | None => []
                              end in
                 fst <$> strob_sprintf buf true (optionNameM e ++ L "=" ++ ["034"%char] ++ value ++ ["034"; "010"]%char)
             else Some buf);
      session_loop eop buf flag
  end.

Definition swextopt_write_session_options (buf : STROB) (o : list extendedOptions) (flag : Z) : option STROB :=
  buf ← strob_strcpy buf []; session_loop o buf flag.

(** [None] of the outcome: the end of the process in swlib_is_sh_tainted_string_fatal. *)
Fixpoint extended_loop (eop : list extendedOptions) (tmp : STROB) (flag : Z) (do_shell_protect : bool)
    : option (outcome STROB) :=
  match eop with
  | [] => Some (Returns tmp)
  | e :: eop =>
      if (flag =? 0) || negb (Z.land flag (app_flags e) =? 0) then
        '(_, _, _, s) ← getExtendedOption (optionNameM e) (e :: eop);
        let s := default [] s in
        if do_shell_protect then
          if swlib_is_sh_tainted_string (Some s) =? 0 then
            '(tmp, _) ← strob_sprintf tmp true (optionNameM e ++ L "=" ++ ["034"%char] ++ s ++ ["034"; "010"]%char);
            extended_loop eop tmp flag do_shell_protect
          else Some Fatal
        else
          '(tmp, _) ← strob_sprintf tmp true (optionNameM e ++ L "=" ++ s ++ ["010"%char]);
          extended_loop eop tmp flag do_shell_protect
      else extended_loop eop tmp flag do_shell_protect
  end.

Definition swextopt_writeExtendedOptions_strob (tmp : STROB) (eop : list extendedOptions) (flag : Z) (do_shell_protect : bool) :=
  extended_loop eop tmp flag do_shell_protect.

(** The bytes written to the descriptor; the result is their number. *)
Definition swextopt_writeExtendedOptions (eop : list extendedOptions) (flag : Z) : option (outcome (bytes * Z)) :=
  tmp ← strob_open 10;
  r ← swextopt_writeExtendedOptions_strob tmp eop flag false;
  match r with
  | Fatal => Some Fatal
  | Returns tmp => s ← strob_str tmp; Some (Returns (s, zlen s))
  end.
End Writing.

(** ** The installed software catalog *)

(** The value with the slashes and dots in front removed, in its own buffer. A
    default is a string constant, which must not be changed. *)
Definition ordinary_path (v : bytes) : option bytes :=
  m ← swlib_squash_all_leading_slash (v ++ [NUL]);
  m ← swlib_squash_all_dot_slash m;
  m ← swlib_squash_leading_dot_slash m;
  text_of m.

Definition get_opta_isc (nopt : nat) : OPT (option bytes) :=
  if negb (nopt =? enum SW_E_installed_software_catalog)%nat then get_opta nopt
  else
    let! e := entry nopt in
    match current e with
    | None => undef
    | Some value =>
        match strstr value FILE_URL with
        | None =>
            let! v := lift (ordinary_path value) in
            if valueM e is Some _ then do! change nopt (put_valueM (Some v)) in ret (Some v)
            else if streq v value then ret (Some v) else undef
        | Some (S _) => ret (Some value)
        | Some O =>
            let s := drop (length FILE_URL) value in
            match strchr s "/" with
            | Some O => ret (Some s)
            | None => ret (Some s)
            | Some i => if is_prefix (L "localhost/") s then ret (Some (drop i s)) else exit_process
            end
        end
    end.

(** ** Files of defaults *)

(** What the functions use of the system: the file that a name opens ([None]
    when it does not open), access with R_OK, $HOME, the directory of the
    library, and the parser of option files, sw_yyparse with
    SWPARSE_FORM_MKUP_LEN: its result, the lines that it writes, and what it
    leaves unread on the descriptor. *)
Class OptionFiles := {
  opens : bytes -> option bytes;
  readable : bytes -> bool;
  home : option bytes;
  SWBISLIBDIR : bytes;
  sw_yyparse : bytes -> Z * bytes * bytes;
}.

Section Files.
Context `{Malloc} `{OptionFiles}.

Definition SYSTEM_DEFAULTS_FILE : bytes := SWBISLIBDIR ++ L "/swbis/swdefaults".
Definition SYSTEM_SWBISDEFAULTS_FILE : bytes := SWBISLIBDIR ++ L "/swbis/swbisdefaults".

(** A getter of swheaderline.c on a line in the buffer of the tokens. *)
Definition in_strob {A} (tmp : STROB) (m : Img A) : OPT (STROB * A) := fun o =>
  r ← m (str_ tmp);
  Some (match r with Done b a => Done o (set_str b tmp, a) | Exited => Exited | Running _ => Running o end).

(** Whether the keyword names the utility, whether it names none, and the name
    of the option. *)
Definition option_of_keyword (utility_name option : bytes) : bool * bool * bytes :=
  let n := length utility_name in
  if is_prefix utility_name option && (if option !! n is Some c then ceq c "." else false)
  then (true, false, drop (n + 1) option)
  else (false, if strchr option "." is Some _ then false else true, option).

(** One line; [false]: the option is not recognized. *)
Definition set_default (utility_name keyword : bytes) (value : option bytes) (doPreserveOptions : bool) : OPT bool :=
  let '(is_util_option, is_global_option, option) := option_of_keyword utility_name keyword in
  if is_util_option || is_global_option then
    let! peop := gets opta in
    let! (is_set, is_option_set, is_util_set, oldvalue) := lift (getExtendedOption option peop) in
    match oldvalue with
    | None => ret false
    | Some _ =>
        let is_set := default 0 is_set in
        do! when (((is_util_set =? 0) && is_global_option && (is_option_set =? 0))
                  || ((is_util_option || (is_set =? 0)) && (is_option_set =? 0)))
              (do! setExtendedOption option value doPreserveOptions is_util_option in ret ()) in
        ret true
    end
  else ret true.

(** The lines from [line] on. *)
Fixpoint defaults_loop (fuel : nat) (utility_name : bytes) (doPreserveOptions : bool) (tmp : STROB) (line : option Z) : OPT Z :=
  match fuel with
  | O => out_of_fuel
  | S fuel =>
      match line with
      | None => ret 0
      | Some line =>
          let! (tmp, option) := in_strob tmp (swheaderline_get_keyword line) in
          let! (tmp, value) := in_strob tmp (swheaderline_get_value line) in
          let! option := lift option in
          let! keyword := lift (str_at (str_ tmp) option) in
          let! value := match value with
                        | None => ret None
                        | Some (p, _) => let! v := lift (str_at (str_ tmp) p) in ret (Some v)
                        end in
          let! recognized := set_default utility_name keyword value doPreserveOptions in
          if recognized : bool then
            let! (tmp, line) := lift (strob_strtok tmp TokNull ["010"%char]) in
            defaults_loop fuel utility_name doPreserveOptions tmp line
          else ret 1
      end
  end.

(** The lines of the parser are collected in memory, with a NUL behind them. *)
Definition parse_lines (utility_name out : bytes) (doPreserveOptions : bool) : OPT Z :=
  let! tmp := lift (strob_open 10) in
  let! (tmp, line) := lift (strob_strtok tmp (TokStr (cstr (out ++ [NUL]))) ["013"; "010"]%char) in
  defaults_loop (S (S (length out))) utility_name doPreserveOptions tmp line.

(** A file that is opened is closed again; the standard input stays where the
    parser left it. *)
Definition parseDefaultsFile (utility_name defaults_filename : bytes) (doPreserveOptions : bool) : OPT Z :=
  let use_stdin := streq defaults_filename SWBIS_STDIO_FNAME in
  let! input := gets standard_input in
  match (if use_stdin then Some input else opens defaults_filename) with
  | None => ret 1
  | Some file =>
      let '(r, out, left_) := sw_yyparse file in
      do! when use_stdin (modify (put_input left_)) in
      if negb (r =? 0) then ret 3 else parse_lines utility_name out doPreserveOptions
  end.

Definition parse_options_file (filename util_name : bytes) : OPT Z :=
  if readable filename || streq filename SWBIS_STDIO_FNAME then parseDefaultsFile util_name filename true else ret 0.

Definition initialize_options_files_list (usethis : option bytes) : option bytes :=
  match usethis with
  | Some u => Some u
  | None =>
      tmp ← strob_open 100;
      tmp ← strob_strcpy tmp SYSTEM_DEFAULTS_FILE;
      tmp ← strob_strcat tmp (L " ");
      tmp ← strob_strcat tmp SYSTEM_SWBISDEFAULTS_FILE;
      tmp ← (match home with
             | None => Some tmp
             | Some h =>
                 tmp ← strob_strcat tmp (L " ");
                 tmp ← strob_strcat tmp h;
                 tmp ← strob_strcat tmp (L "/.swbis/swdefaults");
                 tmp ← strob_strcat tmp (L " ");
                 tmp ← strob_strcat tmp h;
                 strob_strcat tmp (L "/.swbis/swbisdefaults")
             end);
      strob_str tmp
  end.

(** What is done with a file: the end of the process, nothing, or reading it. *)
Definition check_file (file : bytes) (reqd show_only : bool) : OPT bool :=
  let! skip :=
    if streq file SWBIS_STDIO_FNAME then ret false
    else if readable file then
      if show_only then do! modify (fun o => put_listed (listed o ++ file ++ ["010"%char]) o) in ret true else ret false
    else if reqd then if show_only then ret false else exit_process
    else ret true in
  ret (skip || show_only).

Fixpoint files_loop (fuel : nat) (util_name : bytes) (reqd show_only : bool) (ktmp : STROB) (file : option Z) (retval : Z) : OPT Z :=
  match fuel with
  | O => out_of_fuel
  | S fuel =>
      match file with
      | None => ret retval
      | Some file =>
          let! name := lift (str_at (str_ ktmp) file) in
          let! skip := check_file name reqd show_only in
          let! r := if skip then ret retval else parse_options_file name util_name in
          if negb skip && negb (r =? 0) then ret 1
          else
            let! (ktmp, file) := lift (strob_strtok ktmp TokNull (L " ")) in
            files_loop fuel util_name reqd show_only ktmp file r
      end
  end.

Definition swextopt_parse_options_files (option_files : option bytes) (util_name : bytes) (reqd show_only : bool) : OPT Z :=
  match option_files with
  | None | Some [] => ret 0
  | Some option_files =>
      let! tmp := lift (strob_open 100) in
      let! ktmp := lift (strob_open 100) in
      let! tmp := lift (strob_strcpy tmp option_files) in
      let! text := lift (strob_str tmp) in
      let! (ktmp, file) := lift (strob_strtok ktmp (TokStr text) [" "; ","; "010"; "013"]%char) in
      files_loop (S (S (length option_files))) util_name reqd show_only ktmp file 0
  end.
End Files.

(** ** A target and the directory of the options *)

Definition begins (c : ascii) (s : bytes) : bool := if s is d :: _ then ceq c d else false.
Definition ends (c : ascii) (s : bytes) : bool := if last s is Some d then ceq c d else false.

Definition has_file_part (soc : option bytes) : bool :=
  match soc with
  | None => false
  | Some soc => if strchr soc ":" is Some _ then negb (ends ":" soc) else false
  end.

(** Behind an at sign the last byte of an empty text is the sign itself. *)
Definition is_host (soc : option bytes) : bool :=
  match soc with
  | None | Some [] => false
  | Some soc =>
      let soc := if begins "@" soc then drop 1 soc else soc in
      let colon := if strchr soc ":" is Some _ then true else false in
      negb (streq soc (L ".")) && negb (streq soc (L "./"))
      && ((colon && negb (begins ":" soc)) || (negb colon && negb (begins "/" soc)) || ends ":" soc)
  end.

Definition is_fq (soc_spec : bytes) : bool :=
  if begins "/" soc_spec then true
  else match strrchr soc_spec ":" with
       | None => false
       | Some i => let rest := drop (S i) soc_spec in begins "/" rest || streq rest (L ".")
       end.

Section Combine.
Context `{Malloc}.

Definition combine1 (result : STROB) (directory soc_spec : bytes) : option STROB :=
  let directory := if begins "@" directory then drop 1 directory else directory in
  directory ← (if begins "@" soc_spec then match directory with [] => None | _ :: d => Some d end else Some directory);
  result ← strob_strcpy result (L "@");
  result ← strob_strcat result soc_spec;
  c ← last soc_spec;
  result ← (if negb (ceq c ":") && negb (begins ":" directory) then strob_strcat result (L ":") else Some result);
  let directory := if begins ":" directory then drop 1 directory else directory in
  s ← strob_str result;
  if ends ":" s then strob_strcat result directory else swlib_unix_dircat result (Some directory).

(** A file base name behind the directory, which may name a host. *)
Definition combine_basename (result : STROB) (soc_spec directory : bytes) : option (STROB * Z) :=
  result ← (if strchr directory ":" is Some _ then
              result ← strob_strcpy result directory;
              result ← (if ends "/" directory then Some result else strob_strcat result (L "/"));
              strob_strcat result (drop 1 soc_spec)
            else
              result ← strob_strcpy result directory;
              strob_strcat result soc_spec);
  Some (result, if strchr soc_spec "/" is Some _ then -1 else 0).

Definition no_colon (s : bytes) : bool := if strchr s ":" is Some _ then false else true.

Definition combine_parts (result : STROB) (soc_spec directory : bytes) : option (STROB * Z) :=
  if Bool.eqb (is_host (Some directory)) (is_host (Some soc_spec)) then Some (result, -1)
  else if (1 <? zlen soc_spec) && begins ":" soc_spec then combine_basename result soc_spec directory
  else if begins "/" soc_spec && no_colon directory && negb (begins "/" directory) then
    result ← strob_strcpy result (L "@");
    result ← strob_strcpy result directory;
    result ← strob_strcat result (L ":");
    result ← strob_strcat result soc_spec;
    Some (result, 0)
  else if negb (begins ":" soc_spec) && negb (begins "/" soc_spec) && no_colon soc_spec
          && begins "/" directory && no_colon directory then
    result ← strob_strcpy result soc_spec;
    result ← (if 0 <? zlen soc_spec then strob_strcat result (L ":") else Some result);
    result ← strob_strcat result directory;
    Some (result, 0)
  else if negb (is_host (Some directory)) && is_host (Some soc_spec) && negb (has_file_part (Some soc_spec)) then
    result ← combine1 result directory soc_spec; Some (result, 0)
  else if is_host (Some directory) && negb (is_host (Some soc_spec)) then
    result ← combine1 result soc_spec directory; Some (result, 0)
  else if is_host (Some soc_spec) && has_file_part (Some soc_spec) then Some (result, 0)
  else Some (result, -1).

Definition swextopt_combine_directory (result : STROB) (soc_spec directory : option bytes) : option (STROB * Z) :=
  result ← (if soc_spec is Some s then strob_strcpy result s else Some result);
  match soc_spec, directory with
  | Some s, Some d =>
      if streq d [] || streq d (L "-") || streq d (L ":") || (begins "." s && begins "." d) || begins "-" s || is_fq s
      then Some (result, 0) else combine_parts result s d
  | _, _ => Some (result, 0)
  end.
End Combine.
