(* ===== verification/OptionsSpec.v ===== *)
(** * Where the value of an option comes from

    The command line sets options first, then the files of defaults are read in
    order. A value from the command line stays; otherwise the last line that
    names the utility counts, then the last line without a utility, then the
    default. *)

From S2P Require Import Prelude CString Decimals Strob StrobSpec Escape Pathname PathSpec Effects MetaLine MetaSpec Options.
#[local] Open Scope effects_scope.

(** ** The constants of the enumeration name the entries of the table *)

(** The name of the option a constant stands for: what is behind SW_E_. *)
Definition enum_name (nopt : eOpts) : bytes :=
  match nopt with
  | SW_E_allow_downdate => L "allow_downdate" | SW_E_allow_incompatible => L "allow_incompatible"
  | SW_E_allow_multiple_versions => L "allow_multiple_versions" | SW_E_ask => L "ask"
  | SW_E_autoreboot => L "autoreboot" | SW_E_autorecover => L "autorecover"
  | SW_E_autoselect_dependencies => L "autoselect_dependencies"
  | SW_E_autoselect_dependents => L "autoselect_dependents" | SW_E_check_contents => L "check_contents"
  | SW_E_check_permissions => L "check_permissions" | SW_E_check_requisites => L "check_requisites"
  | SW_E_check_scripts => L "check_scripts" | SW_E_check_volatile => L "check_volatile"
  | SW_E_compress_files => L "compress_files" | SW_E_compression_type => L "compression_type"
  | SW_E_defer_configure => L "defer_configure"
  | SW_E_distribution_source_directory => L "distribution_source_directory"
  | SW_E_distribution_target_directory => L "distribution_target_directory"
  | SW_E_distribution_target_serial => L "distribution_target_serial"
  | SW_E_enforce_dependencies => L "enforce_dependencies" | SW_E_enforce_dsa => L "enforce_dsa"
  | SW_E_enforce_locatable => L "enforce_locatable" | SW_E_enforce_scripts => L "enforce_scripts"
  | SW_E_files => L "files" | SW_E_follow_symlinks => L "follow_symlinks"
  | SW_E_installed_software_catalog => L "installed_software_catalog" | SW_E_logfile => L "logfile"
  | SW_E_loglevel => L "loglevel" | SW_E_media_capacity => L "media_capacity" | SW_E_media_type => L "media_type"
  | SW_E_psf_source_file => L "psf_source_file" | SW_E_one_liner => L "one_liner" | SW_E_reconfigure => L "reconfigure"
  | SW_E_recopy => L "recopy" | SW_E_reinstall => L "reinstall" | SW_E_select_local => L "select_local"
  | SW_E_software => L "software" | SW_E_targets => L "targets" | SW_E_uncompress_files => L "uncompress_files"
  | SW_E_verbose => L "verbose" | SW_E_swbis_cksum => L "swbis_cksum"
  | SW_E_swbis_file_digests => L "swbis_file_digests" | SW_E_swbis_file_digests_sha2 => L "swbis_file_digests_sha2"
  | SW_E_swbis_files => L "swbis_files" | SW_E_swbis_signer_pgm => L "swbis_signer_pgm"
  | SW_E_swbis_sign => L "swbis_sign" | SW_E_swbis_archive_digests => L "swbis_archive_digests"
  | SW_E_swbis_archive_digests_sha2 => L "swbis_archive_digests_sha2" | SW_E_swbis_gpg_name => L "swbis_gpg_name"
  | SW_E_swbis_gpg_path => L "swbis_gpg_path" | SW_E_swbis_gzip => L "swbis_gzip" | SW_E_swbis_bzip2 => L "swbis_bzip2"
  | SW_E_swbis_numeric_owner => L "swbis_numeric_owner" | SW_E_swbis_absolute_names => L "swbis_absolute_names"
  | SW_E_swbis_format => L "swbis_format" | SW_E_swbis_no_analysis_phase => L "swbis_no_analysis_phase"
  | SW_E_swbis_archive_reader => L "swbis_archive_reader" | SW_E_swbis_no_audit => L "swbis_no_audit"
  | SW_E_swbis_local_pax_write_command => L "swbis_local_pax_write_command"
  | SW_E_swbis_remote_pax_write_command => L "swbis_remote_pax_write_command"
  | SW_E_swbis_local_pax_read_command => L "swbis_local_pax_read_command"
  | SW_E_swbis_remote_pax_read_command => L "swbis_remote_pax_read_command"
  | SW_E_swbis_local_pax_remove_command => L "swbis_local_pax_remove_command"
  | SW_E_swbis_remote_pax_remove_command => L "swbis_remote_pax_remove_command"
  | SW_E_swbis_quiet_progress_bar => L "swbis_quiet_progress_bar"
  | SW_E_swbis_no_remote_kill => L "swbis_no_remote_kill" | SW_E_swbis_no_getconf => L "swbis_no_getconf"
  | SW_E_swbis_shell_command => L "swbis_shell_command" | SW_E_swbis_enforce_file_md5 => L "swbis_enforce_file_md5"
  | SW_E_swbis_allow_rpm => L "swbis_allow_rpm" | SW_E_swbis_remote_shell_client => L "swbis_remote_shell_client"
  | SW_E_swbis_install_volatile => L "swbis_install_volatile"
  | SW_E_swbis_volatile_newname => L "swbis_volatile_newname" | SW_E_swbis_any_format => L "swbis_any_format"
  | SW_E_swbis_forward_agent => L "swbis_forward_agent" | SW_E_swbis_ignore_scripts => L "swbis_ignore_scripts"
  | SW_E_swbis_sig_level => L "swbis_sig_level" | SW_E_swbis_enforce_all_signatures => L "swbis_enforce_all_signatures"
  | SW_E_swbis_remove_volatile => L "swbis_remove_volatile" | SW_E_swbis_check_mtime => L "swbis_check_mtime"
  | SW_E_swbis_check_duplicates => L "swbis_check_duplicates" | SW_E_swbis_check_owners => L "swbis_check_owners"
  | SW_E_swbis_replacefiles => L "swbis_replacefiles" | SW_E_swbis_last_option => []
  end.

(** The constants of the enumeration and the table of options, which are
    kept in two files, agree: the name of every constant is found at its place,
    written with underscores or with dashes, and no other constant has it. *)
Lemma enumeration_matches_table nopt : nopt <> SW_E_swbis_last_option ->
  getEnumFromName (enum_name nopt) optionsArray = Z.of_nat (enum nopt)
  /\ getEnumFromName (fst (swlib_tr (enum_name nopt) "-" "_")) optionsArray = Z.of_nat (enum nopt).
Proof. destruct nopt; intros H; try (exfalso; by apply H); vm_compute; split; reflexivity. Qed.

(** ** Lines of the parser *)

Section Lines.
Implicit Types (l : mline) (ls : list mline).

(** A line without its line feed, and what the parser writes for [ls]. *)
Definition line_text l : bytes :=
  line_head l (mkMarks false false false) ++ line_type l :: "0"%char :: level_char l :: " "%char :: ml_key l ++ " "%char :: ml_value l.
Definition parser_lines ls : bytes := concat ((fun l => line_text l ++ ["010"%char]) <$> ls).

Lemma parser_cons l ls : parser_lines (l :: ls) = line_text l ++ "010"%char :: parser_lines ls.
Proof. unfold parser_lines. cbn [fmap list_fmap concat]. by rewrite <- app_assoc. Qed.

(** No end of a line or a text. *)
Definition inside (c : ascii) : Prop := mem_char c ["013"; "010"]%char = false /\ c <> NUL.

(** A line an attribute is written in. *)
Definition setting l : Prop := ml_obj l = false /\ line_ok l /\ Forall inside (ml_value l).

Lemma inside_ge c : 14 <= uchar c -> inside c.
Proof.
  intros Hc. split; [|intros ->; by vm_compute in Hc]. unfold mem_char. cbn [existsb].
  assert (forall d, uchar d < 14 -> ceq c d = false) as Hne by (intros d Hd; apply ceq_neq; intros ->; lia).
  rewrite !Hne by (by vm_compute). done.
Qed.

Lemma inside_word s : word s -> Forall inside s.
Proof.
  intros [_ Hs]. eapply Forall_impl; [exact Hs|]. intros c [Hn Hc]%andb_true_iff. apply negb_true_iff in Hn, Hc.
  split; [|by intros ->]. unfold mem_char. cbn [existsb].
  assert (forall d, isspace d = true -> ceq c d = false) as Hne by (intros d Hd; apply ceq_neq; intros ->; by rewrite Hd in Hc).
  by rewrite !Hne.
Qed.

Lemma inside_number u n : numeral_head u n -> Forall inside u.
Proof.
  intros (ds & k & -> & _ & Hd & _). apply Forall_app. split; [|apply Forall_app; split].
  - eapply Forall_impl; [exact Hd|]. intros c Hc%digit_range. apply inside_ge. lia.
  - apply Forall_replicate, inside_ge. by vm_compute.
  - constructor; [|done]. apply inside_ge. by vm_compute.
Qed.

Lemma inside_line l : setting l -> Forall inside (line_text l).
Proof.
  intros (Ho & Hl & Hv). pose proof Hl as (Hk & Hlev & _). unfold line_text. apply Forall_app. split.
  - eapply inside_number. by apply line_head_number.
  - repeat (constructor; [apply inside_ge|]).
    + unfold line_type. rewrite Ho. by vm_compute.
    + by vm_compute.
    + unfold level_char. rewrite uchar_to_char, Z.mod_small by lia. lia.
    + by vm_compute.
    + apply Forall_app. split; [by apply inside_word|]. constructor; [apply inside_ge; by vm_compute|done].
Qed.

Lemma line_text_nonempty l : line_text l <> [].
Proof. unfold line_text. by destruct (line_head l _). Qed.

Lemma inside_no_nul s : Forall inside s -> no_nul s.
Proof. intros Hs Hin. rewrite Forall_forall in Hs. by destruct (Hs _ Hin). Qed.

Lemma parser_no_nul ls : Forall setting ls -> no_nul (parser_lines ls).
Proof.
  intros Hs. induction Hs as [|l ls Hl _ IH]; [apply no_nul_nil|]. rewrite parser_cons. apply no_nul_app.
  split; [by apply inside_no_nul, inside_line|]. by apply no_nul_cons.
Qed.

(** Both sets of delimiters cut the lines apart. *)
Lemma parser_tokens delim ls : Forall setting ls ->
  (forall c, inside c -> delim_of delim c = false) -> delim_of delim "010" = true ->
  tokens (delim_of delim) (parser_lines ls) = line_text <$> ls.
Proof.
  intros Hs Hi Hn. induction Hs as [|l ls Hl Hs IH]; [done|].
  rewrite parser_cons, tokens_delim; [by rewrite IH|apply line_text_nonempty| |done].
  eapply Forall_impl; [by apply inside_line|done].
Qed.

(** ** A line in the buffer of the tokens *)

Definition cut_line : marks := mkMarks false true false.
Lemma image_cut_line pre post l : ml_obj l = false -> image_of pre post l cut_line = pre ++ line_text l ++ NUL :: post.
Proof.
  intros Ho. unfold image_of, line_bytes, line_text, line_head, line_sep, line_tail, cut_line. rewrite Ho. cbn [mk_key mk_value].
  do 3 (repeat rewrite <- app_assoc; cbn [app]). reflexivity.
Qed.
End Lines.

(** The text at an offset of the memory. *)
Lemma str_at_split m p t : str_at m p = Some t -> exists pre post, m = pre ++ t ++ NUL :: post /\ zlen pre = p /\ no_nul t.
Proof.
  unfold str_at, mem_at. destruct ((0 <=? p) && (p <=? zlen m)) eqn:E; [|done]. cbn. zbool.
  destruct (terminated (drop (Z.to_nat p) m)) eqn:Et; [|done]. intros [= <-]. pose proof (cstr_split _ Et) as Es.
  eexists (take (Z.to_nat p) m), _. split; [|split; [|apply cstr_no_nul]].
  - rewrite <- Es. by rewrite take_drop.
  - rewrite zlen_take; lia.
Qed.

Section Getters.
Context `{Malloc}.
Implicit Types (tmp : STROB) (l : mline) (r m : bytes) (p : Z).

Lemma write_nul_at m pre c post : m = pre ++ c :: post -> mem_write m (zlen pre) [NUL] = Some (pre ++ NUL :: post).
Proof.
  intros ->. unfold mem_write. pose proof (zlen_nonneg pre). pose proof (zlen_nonneg post).
  assert (zlen [NUL] = 1) as -> by done. rewrite zlen_app, zlen_cons. ztest. f_equal. unfold zlen. rewrite Nat2Z.id.
  by rewrite take_app_length, <- drop_drop, drop_app_length.
Qed.

(** A NUL in front of what is left to be scanned changes nothing there. *)
Lemma scanning_write tmp r o' p m : scanning tmp r -> tok_ tmp = Some o' -> p < o' -> mem_write (str_ tmp) p [NUL] = Some m ->
  scanning (set_str m tmp) r.
Proof.
  intros (W & o & Htok & Hh) Ho Hp E. rewrite Htok in Ho. injection Ho as <-. split.
  - eapply wf_set_str; [done|exact E|by right].
  - exists o. split; [done|]. eapply holds_frame; [|exact Hh]. intros i Hi. cbn. rewrite (mem_write_lookup _ _ _ _ i E).
    rewrite decide_False; [done|]. change (zlen [NUL]) with 1. lia.
Qed.

Lemma in_strob_run {A} tmp (f : Img A) (o : Options) b a : runs f (str_ tmp) b a -> runs (in_strob tmp f) o o (set_str b tmp, a).
Proof. unfold runs, in_strob. by intros ->. Qed.

(** Both getters write a NUL behind the keyword; the rest of the buffer, and
    what is left to be scanned, stay. *)
Lemma getters_run tmp r p o' l (o : Options) : setting l -> scanning tmp r -> tok_ tmp = Some o' -> 0 <= p -> p + zlen (line_text l) <= o' ->
  str_at (str_ tmp) p = Some (line_text l) ->
  exists tmp1 tmp2 k v n, runs (in_strob tmp (swheaderline_get_keyword p)) o o (tmp1, Some k)
    /\ runs (in_strob tmp1 (swheaderline_get_value p)) o o (tmp2, Some (v, n))
    /\ str_at (str_ tmp2) k = Some (ml_key l) /\ str_at (str_ tmp2) v = Some (ml_value l) /\ scanning tmp2 r.
Proof.
  intros (Ho & Hl & Hv) Hsc Htok Hp Hle Ht. destruct (str_at_split _ _ _ Ht) as (pre & post & Em & <- & _).
  rewrite <- image_cut_line in Em by done.
  pose proof (line_get_keyword pre post l cut_line Hl) as RK. pose proof (line_get_value pre post l (cut_key cut_line) Hl) as RV.
  rewrite Ho in RV. rewrite <- Em in RK. set (m := image_of pre post l (cut_key cut_line)) in *.
  assert (image_of pre post l (cut_value (cut_key cut_line)) = m) as E2 by done. rewrite E2 in RV.
  exists (set_str m tmp), (set_str m tmp), (zlen pre + key_at l), (zlen pre + value_at l), (zlen (ml_value l)).
  split; [by apply in_strob_run|]. split; [by apply (in_strob_run (set_str m tmp))|].
  split; [by apply line_key_text|]. split; [by apply line_value_text|].
  pose proof (image_parts pre post l cut_line) as E0. pose proof (image_parts pre post l (cut_key cut_line)) as E1.
  unfold line_head, line_tail, line_sep, cut_line, cut_key in E0, E1. rewrite Ho in E0, E1. cbn [mk_key mk_value] in E0, E1.
  set (u := print_left SWPARSE_MKUP_LEN_WIDTH (zlen (ml_value l)) ++ [" "%char]) in *.
  set (A := pre ++ u ++ line_type l :: "0"%char :: level_char l :: " "%char :: ml_key l) in *.
  apply (scanning_write tmp r o' (zlen A) m); [done|done| |].
  - unfold A, line_text in *. unfold line_head in Hle. rewrite Ho in Hle. fold u in Hle. rewrite !zlen_app, !zlen_cons, !zlen_app, !zlen_cons in *.
    pose proof (zlen_nonneg (ml_value l)). lia.
  - rewrite (write_nul_at _ A " "%char ((ml_value l ++ [NUL]) ++ post)).
    + f_equal. transitivity (pre ++ u ++ line_type l :: "0"%char :: level_char l :: " "%char :: ml_key l ++ NUL :: (ml_value l ++ [NUL]) ++ post); [unfold A; same_image|symmetry; exact E1].
    + rewrite Em. etransitivity; [exact E0|unfold A; same_image].
Qed.
End Getters.

(** ** The table *)

Section Table.
Implicit Types (e : extendedOptions) (es : list extendedOptions) (o : Options) (l : mline) (util key name : bytes).

(** The names are different texts without a dot. *)
Definition table_ok es : Prop :=
  NoDup (optionNameM <$> es) /\ Forall (fun e => no_nul (optionNameM e) /\ strchr (optionNameM e) "." = None) es.

Lemma table_ok_cons e es : table_ok (e :: es) -> table_ok es /\ no_nul (optionNameM e) /\ optionNameM e ∉ (optionNameM <$> es).
Proof. intros [[Hn Hd]%NoDup_cons [[Hu _] Hf]%Forall_cons]. done. Qed.

Lemma table_entry es i e : table_ok es -> es !! i = Some e -> no_nul (optionNameM e) /\ strchr (optionNameM e) "." = None.
Proof. intros [_ Hf] Hi. rewrite Forall_lookup in Hf. by apply (Hf i). Qed.

Lemma find_option_at es i e : table_ok es -> es !! i = Some e -> find_option (optionNameM e) es = Some i.
Proof.
  revert i. induction es as [|d es IH]; intros i Hes Hi; [done|]. pose proof (table_entry _ _ _ Hes Hi) as [Hu _].
  apply table_ok_cons in Hes as (Hes & Hd & Hn).
  cbn [find_option]. destruct i as [|i]; [injection Hi as ->; by rewrite streq_refl|]. change (es !! i = Some e) in Hi.
  destruct (streq (optionNameM d) (optionNameM e)) eqn:E; [|by rewrite (IH i)].
  apply streq_eq in E; [|done|done]. destruct Hn. rewrite E. apply (list_elem_of_lookup_2 _ i). by rewrite list_lookup_fmap, Hi.
Qed.

Lemma find_option_entry es name i : table_ok es -> no_nul name -> find_option name es = Some i ->
  exists e, es !! i = Some e /\ optionNameM e = name.
Proof.
  revert i. induction es as [|d es IH]; intros i Hes Hn; [done|]. cbn [find_option]. apply table_ok_cons in Hes as (Hes & Hd & _).
  destruct (streq (optionNameM d) name) eqn:E; [intros [= <-]; exists d; split; [done|by apply streq_eq]|].
  destruct (find_option name es) as [j|]; [|done]. intros [= <-]. by apply IH.
Qed.

(** The last line with a keyword. *)
Definition last_value key (ls : list mline) : option bytes :=
  fold_left (fun r l => if decide (ml_key l = key) then Some (ml_value l) else r) ls None.

(** An entry after the lines [ls]. *)
Definition settle util (ls : list mline) e : extendedOptions :=
  if negb (option_setM e =? 0) then e
  else match last_value (util ++ L "." ++ optionNameM e) ls with
       | Some v => put_valueM (Some v) (put_util_setM 1 e)
       | None => if negb (util_setM e =? 0) then e
                 else match last_value (optionNameM e) ls with Some v => put_valueM (Some v) e | None => e end
       end.

Lemma last_value_app key ls1 ls2 :
  last_value key (ls1 ++ ls2) = match last_value key ls2 with Some v => Some v | None => last_value key ls1 end.
Proof.
  unfold last_value. rewrite fold_left_app. generalize (fold_left (fun r l => if decide (ml_key l = key) then Some (ml_value l) else r) ls1 None).
  intros a. revert a. induction ls2 as [|l ls IH] using rev_ind; intros a; [done|]. rewrite !fold_left_app. cbn. by case_decide.
Qed.

Lemma settle_app util ls1 ls2 e : settle util (ls1 ++ ls2) e = settle util ls2 (settle util ls1 e).
Proof.
  unfold settle. rewrite !last_value_app. destruct (option_setM e =? 0) eqn:Eo; cbn [negb]; [|by rewrite Eo].
  destruct (last_value (util ++ L "." ++ optionNameM e) ls1) as [v1|] eqn:E1.
  - cbn [option_setM optionNameM put_valueM put_util_setM util_setM]. rewrite Eo. cbn [negb].
    by destruct (last_value (util ++ L "." ++ optionNameM e) ls2).
  - destruct (util_setM e =? 0) eqn:Eu; cbn [negb].
    + destruct (last_value (optionNameM e) ls1) as [v|]; cbn [option_setM optionNameM put_valueM util_setM]; rewrite Eo; cbn [negb];
        destruct (last_value (util ++ L "." ++ optionNameM e) ls2); try done; cbn [util_setM put_valueM]; rewrite Eu; cbn [negb];
        by destruct (last_value (optionNameM e) ls2).
    + rewrite Eo, Eu. cbn [negb]. by destruct (last_value (util ++ L "." ++ optionNameM e) ls2).
Qed.

(** The line is about another option. *)
Lemma settle_other util l e : ml_key l <> util ++ L "." ++ optionNameM e -> ml_key l <> optionNameM e -> settle util [l] e = e.
Proof.
  intros H1 H2. unfold settle, last_value. cbn [fold_left]. rewrite !decide_False by done.
  by destruct (option_setM e =? 0), (util_setM e =? 0).
Qed.

Lemma settle_one util l es i e : es !! i = Some e ->
  (forall j d, j <> i -> es !! j = Some d -> ml_key l <> util ++ L "." ++ optionNameM d /\ ml_key l <> optionNameM d) ->
  settle util [l] <$> es = <[i := settle util [l] e]> es.
Proof.
  intros Hi Ho. apply list_eq. intros j. rewrite list_lookup_fmap. destruct (decide (j = i)) as [->|Hne].
  - rewrite list_lookup_insert_eq by (by eapply lookup_lt_Some). by rewrite Hi.
  - rewrite list_lookup_insert_ne by done. destruct (es !! j) as [d|] eqn:Ej; [|done]. cbn. f_equal.
    destruct (Ho _ _ Hne Ej). by apply settle_other.
Qed.

Lemma settle_none util l es : (forall j d, es !! j = Some d -> ml_key l <> util ++ L "." ++ optionNameM d /\ ml_key l <> optionNameM d) ->
  settle util [l] <$> es = es.
Proof.
  intros Ho. apply list_eq. intros j. rewrite list_lookup_fmap. destruct (es !! j) as [d|] eqn:Ej; [|done]. cbn. f_equal.
  destruct (Ho _ _ Ej). by apply settle_other.
Qed.

Lemma change_run i f o e : opta o !! i = Some e -> runs (change i f) o (put_opta (<[i := f e]> (opta o)) o) ().
Proof. intros Hi. apply runs_updates. by rewrite Hi. Qed.

Lemma entry_run i o e : opta o !! i = Some e -> runs (entry i) o o e.
Proof. intros Hi. by apply runs_reads. Qed.

Lemma put_opta_same o : put_opta (opta o) o = o.
Proof. by destruct o. Qed.

Lemma set_extended_run name v u o i e : find_option name (opta o) = Some i -> opta o !! i = Some e -> option_setM e = 0 ->
  runs (setExtendedOption name (Some v) true u) o
    (put_opta (<[i := if u then put_valueM (Some v) (put_util_setM 1 e) else if util_setM e =? 0 then put_valueM (Some v) e else e]> (opta o)) o) 0.
Proof.
  intros Hf Hi Ho. pose proof (lookup_lt_Some _ _ _ Hi) as Hlt. unfold setExtendedOption.
  eapply runs_bind; [apply runs_gets|]. cbv beta. rewrite Hf. eapply runs_bind; [by apply entry_run|]. cbv beta. rewrite Ho. cbn [andb negb Z.eqb].
  destruct u; cbn [negb andb].
  - rewrite andb_false_r. eapply runs_bind; [apply runs_when_true; by apply change_run|]. cbv beta.
    eapply runs_bind; [apply change_run; cbn [opta put_opta]; by rewrite list_lookup_insert_eq|]. cbn [opta put_opta].
    rewrite list_insert_insert_eq. apply runs_ret.
  - rewrite andb_true_r. destruct (util_setM e =? 0); cbn [negb].
    + eapply runs_bind; [apply runs_when_false|]. cbv beta. eapply runs_bind; [by apply change_run|]. apply runs_ret.
    + rewrite list_insert_id by done. rewrite put_opta_same. apply runs_ret.
Qed.

(** ** One line *)

Lemma has_dot s : strchr s "." <> None <-> "."%char ∈ s.
Proof.
  unfold strchr. destruct (find_index _ s) as [i|] eqn:E.
  - split; [|done]. intros _. apply find_index_Some in E as (c & -> & <-%ceq_eq & _). apply elem_of_app. right. by left.
  - split; [done|]. intros Hin. apply find_index_None in E. rewrite Forall_forall in E. specialize (E _ Hin). by rewrite ceq_refl in E.
Qed.

Lemma qualified_dot util name : strchr (util ++ L "." ++ name) "." <> None.
Proof. apply has_dot, elem_of_app. right. by left. Qed.

(** The three kinds of keywords. *)
Lemma keyword_cases util key :
  match option_of_keyword util key with
  | (true, g, name) => g = false /\ key = util ++ L "." ++ name
  | (false, true, name) => name = key /\ strchr key "." = None
  | (false, false, _) => strchr key "." <> None /\ forall name, key <> util ++ L "." ++ name
  end.
Proof.
  unfold option_of_keyword. destruct (is_prefix util key && _) eqn:E.
  - apply andb_true_iff in E as [[r ->]%is_prefix_spec E]. split; [done|].
    rewrite lookup_app_r, Nat.sub_diag in E by done. destruct r as [|c r]; [done|]. apply ceq_eq in E as ->.
    change ("."%char :: r) with ([".":ascii] ++ r). rewrite (app_assoc util), drop_app_length'; [by rewrite <- app_assoc|].
    by rewrite length_app.
  - destruct (strchr key ".") eqn:Ed; [|done]. split; [done|]. intros name ->. rewrite lookup_app_r, Nat.sub_diag in E by done.
    cbn in E. rewrite andb_true_r in E. apply not_true_iff_false in E. apply E, is_prefix_spec. by eexists.
Qed.

(** A line that names an option of the table with a value, or none for this utility. *)
Definition known util es l : Prop :=
  let '(u, g, name) := option_of_keyword util (ml_key l) in
  (u || g : bool) -> exists i e, es !! i = Some e /\ optionNameM e = name /\ current e <> None.

Lemma get_extended_run es i e : table_ok es -> es !! i = Some e -> exists s,
  getExtendedOption (optionNameM e) es = Some (Some s, option_setM e, util_setM e, current e) /\ (s = 0 -> valueM e = None).
Proof.
  intros Hes Hi. unfold getExtendedOption, current. rewrite (find_option_at _ _ _ Hes Hi), Hi. obind. destruct (valueM e); eexists; done.
Qed.

(** The entry the line is about. *)
Lemma set_entry_run util l o i e (u : bool) : table_ok (opta o) -> opta o !! i = Some e -> current e <> None ->
  option_of_keyword util (ml_key l) = (u, negb u, optionNameM e) ->
  runs (set_default util (ml_key l) (Some (ml_value l)) true) o
    (put_opta (<[i := if negb (option_setM e =? 0) then e else if u then put_valueM (Some (ml_value l)) (put_util_setM 1 e)
                     else if util_setM e =? 0 then put_valueM (Some (ml_value l)) e else e]> (opta o)) o) true.
Proof.
  intros Hes Hi Hc Ek. unfold set_default. rewrite Ek. destruct (get_extended_run _ _ _ Hes Hi) as (s & Eg & Hs).
  rewrite orb_negb_r. eapply runs_bind; [apply runs_gets|]. cbv beta. eapply runs_bind; [by apply runs_lift|]. cbv beta iota.
  destruct (current e) as [v0|] eqn:Ev; [|done]. change (default 0 (Some s)) with s. pose proof (find_option_at _ _ _ Hes Hi) as Hf.
  eapply runs_bind; [|apply runs_ret]. destruct (Z.eqb_spec (option_setM e) 0) as [Eo|Eo].
  - rewrite !andb_true_r. cbn [negb]. pose proof (set_extended_run _ (ml_value l) u o i e Hf Hi Eo) as RS.
    destruct u; cbn [negb]; [rewrite orb_true_r|rewrite andb_true_r].
    + apply runs_when_true. eapply runs_bind; [exact RS|apply runs_ret].
    + destruct (util_setM e =? 0) eqn:Eu; cbn [orb]; [apply runs_when_true; eapply runs_bind; [exact RS|apply runs_ret]|].
      destruct (s =? 0); cbn [orb]; [apply runs_when_true; eapply runs_bind; [exact RS|apply runs_ret]|].
      rewrite list_insert_id, put_opta_same by done. apply runs_when_false.
  - rewrite !andb_false_r. cbn [orb negb]. rewrite list_insert_id, put_opta_same by done. apply runs_when_false.
Qed.

(** The whole line: the table is settled. *)
Lemma set_default_run util l o : table_ok (opta o) -> known util (opta o) l ->
  runs (set_default util (ml_key l) (Some (ml_value l)) true) o (put_opta (settle util [l] <$> opta o) o) true.
Proof.
  intros Hes Hk. unfold known in Hk. pose proof (keyword_cases util (ml_key l)) as HC.
  assert (Hname : forall j d, opta o !! j = Some d -> strchr (optionNameM d) "." = None) by (intros j d Hj; apply (table_entry _ j d Hes Hj)).
  assert (Hdot : forall d, ml_key l = util ++ L "." ++ optionNameM d -> strchr (ml_key l) "." <> None) by (intros d ->; apply qualified_dot).
  assert (Hself : forall j d, opta o !! j = Some d -> strchr (ml_key l) "." <> None -> ml_key l <> optionNameM d).
  { intros j d Hj Hd E. rewrite E in Hd. by apply Hd, (Hname j). }
  assert (Hdiff : forall i e j d, opta o !! i = Some e -> opta o !! j = Some d -> j <> i -> optionNameM d <> optionNameM e).
  { intros i e j d Hi Hj Hne E. apply Hne. pose proof (find_option_at _ _ _ Hes Hi) as F1. pose proof (find_option_at _ _ _ Hes Hj) as F2.
    rewrite E, F1 in F2. by injection F2. }
  destruct (option_of_keyword util (ml_key l)) as [[u g] name] eqn:Ek. destruct u; [|destruct g].
  - destruct HC as [-> EK]. destruct (Hk I) as (i & e & Hi & <- & Hc). rewrite (settle_one util l _ i e Hi).
    + replace (settle util [l] e) with (if negb (option_setM e =? 0) then e else put_valueM (Some (ml_value l)) (put_util_setM 1 e));
        [by apply (set_entry_run util l o i e true)|].
      unfold settle, last_value. cbn [fold_left]. by rewrite decide_True.
    + intros j d Hne Hj. split; [|eapply Hself; [exact Hj|by rewrite EK; apply qualified_dot]].
      rewrite EK. intros E%(app_inv_head util). injection E as E. by apply (Hdiff i e j d Hi Hj Hne).
  - destruct HC as [-> Hd]. destruct (Hk I) as (i & e & Hi & En & Hc). rewrite (settle_one util l _ i e Hi).
    + replace (settle util [l] e) with (if negb (option_setM e =? 0) then e else if util_setM e =? 0 then put_valueM (Some (ml_value l)) e else e);
        [apply (set_entry_run util l o i e false); try done; by rewrite En|].
      unfold settle, last_value. cbn [fold_left]. rewrite (decide_False (P := ml_key l = util ++ _)) by (intros E; by apply (Hdot e E)).
      rewrite decide_True by done. by destruct (option_setM e =? 0), (util_setM e =? 0).
    + intros j d Hne Hj. split; [intros E; by apply (Hdot d E)|]. rewrite <- En. intros E. by apply (Hdiff i e j d Hi Hj Hne).
  - destruct HC as [Hd Hn]. unfold set_default. rewrite Ek. cbn [orb]. rewrite settle_none; [by rewrite put_opta_same; apply runs_ret|].
    intros j d Hj. split; [apply Hn|by eapply Hself].
Qed.

(** What settling leaves. *)
Lemma settle_name util ls e : optionNameM (settle util ls e) = optionNameM e.
Proof. unfold settle. repeat case_match; done. Qed.

Lemma settle_current util ls e : current e <> None -> current (settle util ls e) <> None.
Proof. intros Hc. unfold settle. repeat case_match; done. Qed.

Lemma settle_table util ls es : table_ok es -> table_ok (settle util ls <$> es).
Proof.
  intros [Hd Hf]. split.
  - replace (optionNameM <$> (settle util ls <$> es)) with (optionNameM <$> es); [done|].
    rewrite <- list_fmap_compose. apply list_fmap_ext. intros i e _. cbn. by rewrite settle_name.
  - apply Forall_fmap. eapply Forall_impl; [exact Hf|]. intros e He. cbn. by rewrite settle_name.
Qed.

Lemma settle_known util ls es l : known util es l -> known util (settle util ls <$> es) l.
Proof.
  unfold known. destruct (option_of_keyword util (ml_key l)) as [[u g] name]. intros Hk Hug.
  destruct (Hk Hug) as (i & e & Hi & Hn & Hc). exists i, (settle util ls e). rewrite list_lookup_fmap, Hi.
  split; [done|]. rewrite settle_name. split; [done|by apply settle_current].
Qed.

Lemma settle_nil util es : settle util [] <$> es = es.
Proof.
  rewrite <- (list_fmap_id es) at 2. apply list_fmap_ext. intros i e _. unfold settle. cbn.
  by destruct (option_setM e =? 0), (util_setM e =? 0).
Qed.
End Table.

(** ** The lines of a file *)

Lemma fields_ext (p q : ascii -> bool) s : Forall (fun c => p c = q c) s -> fields p s = fields q s.
Proof. induction 1 as [|c s Hc _ IH]; [done|]. cbn. by rewrite Hc, IH. Qed.

Lemma tokens_agree (p q : ascii -> bool) s : Forall (fun c => p c = q c) s -> tokens p s = tokens q s.
Proof. intros Hs. unfold tokens. by rewrite (fields_ext p q). Qed.

Section Loop.
Context `{Malloc}.
Implicit Types (o : Options) (tmp : STROB) (l : mline) (ls : list mline) (util : bytes).

(** The buffer stands at the first of the lines [ls]. *)
Definition stands ls tmp (line : option Z) : Prop :=
  match ls with
  | [] => line = None
  | l :: ls => exists p r (o' : Z), line = Some p /\ str_at (str_ tmp) p = Some (line_text l) /\ scanning tmp r
      /\ tokens (delim_of ["010"%char]) r = line_text <$> ls /\ tok_ tmp = Some o' /\ 0 <= p /\ p + zlen (line_text l) <= o'
  end.

Lemma stands_next ls tmp r : scanning tmp r -> tokens (delim_of ["010"%char]) r = line_text <$> ls ->
  exists tmp' line, strob_strtok tmp TokNull ["010"%char] = Some (tmp', line) /\ stands ls tmp' line.
Proof.
  intros Hs Ht. pose proof (strtok_next_token tmp r ["010"%char] Hs) as HN. rewrite Ht in HN. destruct ls as [|l ls]; cbn [fmap list_fmap] in HN.
  - destruct HN as (b & ->). by exists b, None.
  - destruct HN as (b & p & r' & E & Hp & Hs' & Ht' & _ & o' & Ho & Hp0 & Hle). exists b, (Some p). split; [done|].
    by exists p, r', o'.
Qed.

Lemma defaults_loop_run util ls : Forall setting ls -> forall fuel o tmp line, table_ok (opta o) -> Forall (known util (opta o)) ls ->
  (length ls < fuel)%nat -> stands ls tmp line ->
  runs (defaults_loop fuel util true tmp line) o (put_opta (settle util ls <$> opta o) o) 0.
Proof.
  induction 1 as [|l ls Hl _ IH]; intros fuel o tmp line Hes Hk Hf Hst; (destruct fuel as [|fuel]; [cbn in Hf; lia|]).
  - cbn in Hst. subst line. rewrite settle_nil, put_opta_same. apply runs_ret.
  - apply Forall_cons in Hk as [Hkl Hk]. destruct Hst as (p & r & o' & -> & Hp & Hs & Ht & Htok & Hp0 & Hle).
    destruct (getters_run tmp r p o' l o Hl Hs Htok Hp0 Hle Hp) as (t1 & t2 & k & v & n & R1 & R2 & Hkey & Hval & Hs2).
    cbn [defaults_loop]. eapply runs_bind; [exact R1|]. cbv beta iota. eapply runs_bind; [exact R2|]. cbv beta iota.
    eapply runs_bind; [by apply runs_lift|]. cbv beta. eapply runs_bind; [by apply runs_lift|]. cbv beta.
    eapply runs_bind; [eapply runs_bind; [by apply runs_lift|apply runs_ret]|]. cbv beta.
    eapply runs_bind; [by apply set_default_run|]. cbv beta iota.
    destruct (stands_next ls t2 r Hs2 Ht) as (t3 & line & E & Hst). eapply runs_bind; [by apply runs_lift|]. cbv beta iota.
    replace (put_opta (settle util (l :: ls) <$> opta o) o)
      with (put_opta (settle util ls <$> (settle util [l] <$> opta o)) (put_opta (settle util [l] <$> opta o) o)).
    + apply IH; [by apply settle_table| |cbn in Hf; lia|done]. eapply Forall_impl; [exact Hk|]. intros ?. apply settle_known.
    + unfold put_opta. cbn. f_equal. rewrite <- list_fmap_compose. apply list_fmap_ext. intros i e _. cbn.
      by rewrite <- settle_app.
Qed.

Lemma parser_no_cr ls : Forall setting ls ->
  Forall (fun c => delim_of ["013"; "010"]%char c = delim_of ["010"%char] c) (parser_lines ls).
Proof.
  intros Hls. induction Hls as [|l ls Hl _ IH]; [done|]. rewrite parser_cons. apply Forall_app. split; [|by constructor].
  eapply Forall_impl; [by apply inside_line|]. intros c [Hc _]. unfold delim_of in *. rewrite Hc. symmetry. cbn in Hc |- *.
  apply orb_false_iff in Hc as [_ Hc]. exact Hc.
Qed.

Lemma stands_first ls tmp : Forall setting ls -> scanning tmp (parser_lines ls) ->
  exists tmp' line, strob_strtok tmp TokNull ["013"; "010"]%char = Some (tmp', line) /\ stands ls tmp' line.
Proof.
  intros Hls Hs. pose proof (strtok_next_token tmp _ ["013"; "010"]%char Hs) as HN.
  rewrite (parser_tokens ["013"; "010"]%char ls Hls) in HN; [|by intros c [Hc _]|done]. pose proof (parser_no_cr ls Hls) as Hcr.
  destruct ls as [|l ls]; cbn [fmap list_fmap] in HN.
  - destruct HN as (b & ->). by exists b, None.
  - destruct HN as (b & p & r & E & Hp & Hs' & Ht & Hsuf & o' & Ho & Hp0 & Hle). exists b, (Some p). split; [done|].
    exists p, r, o'. split_and!; try done. rewrite <- Ht. symmetry. apply tokens_agree.
    destruct Hsuf as [pre Hpre]. rewrite Hpre in Hcr. by apply Forall_app in Hcr as [_ Hcr].
Qed.

Lemma parser_length ls : (length ls <= length (parser_lines ls))%nat.
Proof. induction ls as [|l ls IH]; [done|]. rewrite parser_cons, length_app. cbn. lia. Qed.

Lemma parse_lines_run util ls o : Forall setting ls -> table_ok (opta o) -> Forall (known util (opta o)) ls -> zlen (parser_lines ls) < SMALL ->
  runs (parse_lines util (parser_lines ls) true) o (put_opta (settle util ls <$> opta o) o) 0.
Proof.
  intros Hls Hes Hk Hb. unfold parse_lines. destruct (strob_open_spec 10) as (b & -> & T & _); [unfold SMALL; lia|].
  eapply runs_bind; [by apply runs_lift|]. cbv beta. pose proof (parser_no_nul ls Hls) as Hn. rewrite cstr_app_nul by done.
  destruct (strtok_first_token b (parser_lines ls) ["013"; "010"]%char (text_wf _ _ T) Hn Hb) as (b1 & Hs & ->).
  destruct (stands_first ls b1 Hls Hs) as (b2 & line & -> & Hst). eapply runs_bind; [by apply runs_lift|]. cbv beta iota.
  apply defaults_loop_run; try done. pose proof (parser_length ls). lia.
Qed.
End Loop.

(** ** The files *)

Section Files.
Context `{Malloc} `{OptionFiles}.
Implicit Types (o : Options) (tmp : STROB) (ls : list mline) (util text f : bytes) (files : list bytes).

(** What a file contributes when [input] is on the standard input: the lines the
    parser writes for it, or nothing when it is not there and need not be; and
    what is on the standard input afterwards. *)
Inductive contributes (reqd : bool) : bytes -> bytes -> list mline -> bytes -> Prop :=
  | file_read input f c ls left_ : readable f = true -> opens f = Some c -> sw_yyparse c = (0, parser_lines ls, left_) ->
      streq f SWBIS_STDIO_FNAME = false -> contributes reqd input f ls input
  | stdin_read input f ls left_ : streq f SWBIS_STDIO_FNAME = true -> sw_yyparse input = (0, parser_lines ls, left_) ->
      contributes reqd input f ls left_
  | file_missing input f : readable f = false -> streq f SWBIS_STDIO_FNAME = false -> reqd = false -> contributes reqd input f [] input.

(** The files one after another. *)
Inductive contribute (reqd : bool) : bytes -> list bytes -> list (list mline) -> bytes -> Prop :=
  | no_files input : contribute reqd input [] [] input
  | next_file input f ls between files lss left_ : contributes reqd input f ls between ->
      contribute reqd between files lss left_ -> contribute reqd input (f :: files) (ls :: lss) left_.

(** The options after the lines [ls], with [left_] on the standard input. *)
Definition settled util ls left_ o : Options := put_input left_ (put_opta (settle util ls <$> opta o) o).

Lemma settled_nothing util o : settled util [] (standard_input o) o = o.
Proof. unfold settled. rewrite settle_nil. by destruct o. Qed.

Lemma settled_app util ls ls' l1 l2 o : settled util ls' l2 (settled util ls l1 o) = settled util (ls ++ ls') l2 o.
Proof.
  unfold settled, put_input, put_opta. cbn. f_equal. rewrite <- list_fmap_compose. apply list_fmap_ext. intros i e _. cbn.
  by rewrite <- settle_app.
Qed.

Lemma parsed_run util ls o left_ : Forall setting ls -> zlen (parser_lines ls) < SMALL ->
  table_ok (opta o) -> Forall (known util (opta o)) ls ->
  runs (parse_lines util (parser_lines ls) true) (put_input left_ o) (settled util ls left_ o) 0.
Proof. intros Hls Hb Hes Hk. exact (parse_lines_run util ls (put_input left_ o) Hls Hes Hk Hb). Qed.

Lemma file_run util f ls o reqd left_ : contributes reqd (standard_input o) f ls left_ -> Forall setting ls ->
  zlen (parser_lines ls) < SMALL -> table_ok (opta o) -> Forall (known util (opta o)) ls ->
  exists skip, runs (check_file f reqd false) o o skip
    /\ runs (if skip then ret 0 else parse_options_file f util) o (settled util ls left_ o) 0.
Proof.
  intros Hc Hls Hb Hes Hk. pose proof (fun l => parsed_run util ls o l Hls Hb Hes Hk) as R. remember (standard_input o) as input eqn:Ei.
  destruct Hc as [input f c ls left_ Hr Ho Hy Hd|input f ls left_ Hd Hy|input f Hr Hd Hq]; unfold check_file, parse_options_file, parseDefaultsFile; rewrite Hd.
  - exists false. rewrite Hr. split; [eapply runs_bind; apply runs_ret|]. cbn [orb]. eapply runs_bind; [apply runs_gets|]. cbv beta.
    rewrite Ho, Hy. eapply runs_bind; [apply runs_when_false|]. cbv beta. subst input. specialize (R (standard_input o)). by destruct o.
  - exists false. rewrite orb_true_r. split; [eapply runs_bind; apply runs_ret|]. eapply runs_bind; [apply runs_gets|]. cbv beta.
    rewrite <- Ei, Hy. eapply runs_bind; [apply runs_modify|]. apply R.
  - exists true. rewrite Hr, Hq. split; [eapply runs_bind; apply runs_ret|]. subst input. rewrite settled_nothing. apply runs_ret.
Qed.

Definition at_file files tmp (file : option Z) : Prop :=
  match files with
  | [] => file = None
  | f :: files => exists p r, file = Some p /\ str_at (str_ tmp) p = Some f /\ scanning tmp r /\ tokens (delim_of (L " ")) r = files
  end.

Lemma at_file_next files tmp r : scanning tmp r -> tokens (delim_of (L " ")) r = files ->
  exists tmp' file, strob_strtok tmp TokNull (L " ") = Some (tmp', file) /\ at_file files tmp' file.
Proof.
  intros Hs Ht. pose proof (strtok_next_spec tmp r (L " ") Hs) as HN. rewrite Ht in HN. destruct files as [|f files].
  - destruct HN as (b & ->). by exists b, None.
  - destruct HN as (b & p & r' & E & Hp & Hs' & Ht'). exists b, (Some p). split; [done|]. by exists p, r'.
Qed.

Lemma files_loop_run util reqd input files lss left_ : contribute reqd input files lss left_ -> forall fuel o tmp file,
  standard_input o = input -> Forall (fun ls => Forall setting ls /\ zlen (parser_lines ls) < SMALL) lss -> table_ok (opta o) ->
  Forall (known util (opta o)) (concat lss) -> (length files < fuel)%nat -> at_file files tmp file ->
  runs (files_loop fuel util reqd false tmp file 0) o (settled util (concat lss) left_ o) 0.
Proof.
  induction 1 as [input|input f ls between files lss left_ Hc _ IH]; intros fuel o tmp file Hi Hls Hes Hk Hf Hat;
    (destruct fuel as [|fuel]; [cbn in Hf; lia|]).
  - cbn in Hat. subst file input. cbn [concat]. rewrite settled_nothing. apply runs_ret.
  - apply Forall_cons in Hls as [[Hl Hb] Hls]. cbn [concat] in *. apply Forall_app in Hk as [Hkl Hk]. destruct Hat as (p & r & -> & Hp & Hs & Ht).
    subst input. destruct (file_run util f ls o reqd between Hc Hl Hb Hes Hkl) as (skip & R1 & R2). cbn [files_loop].
    eapply runs_bind; [by apply runs_lift|]. cbv beta. eapply runs_bind; [exact R1|]. cbv beta. eapply runs_bind; [exact R2|]. cbv beta.
    rewrite andb_false_r. destruct (at_file_next files tmp r Hs Ht) as (t & file & E & Hat).
    eapply runs_bind; [by apply runs_lift|]. cbv beta iota. rewrite <- (settled_app util ls (concat lss) between left_ o).
    apply IH; [done|done|by apply settle_table| |cbn in Hf; lia|done]. eapply Forall_impl; [exact Hk|]. intros ?. apply settle_known.
Qed.

(** The list is cut at blanks; its other delimiters only count in the first call. *)
Lemma at_file_first files tmp text : scanning tmp text -> tokens (delim_of (L " ")) text = files ->
  Forall (fun c => delim_of [" "; ","; "010"; "013"]%char c = delim_of (L " ") c) text ->
  exists tmp' file, strob_strtok tmp TokNull [" "; ","; "010"; "013"]%char = Some (tmp', file) /\ at_file files tmp' file.
Proof.
  intros Hs Ht He. pose proof (strtok_next_token tmp text [" "; ","; "010"; "013"]%char Hs) as HN.
  rewrite (tokens_agree _ _ _ He), Ht in HN. destruct files as [|f files].
  - destruct HN as (b & ->). by exists b, None.
  - destruct HN as (b & p & r & E & Hp & Hs' & Ht' & Hsuf & _). exists b, (Some p). split; [done|]. exists p, r. split_and!; try done.
    rewrite <- Ht'. symmetry. apply tokens_agree. destruct Hsuf as [pre Hpre]. rewrite Hpre in He. by apply Forall_app in He as [_ He].
Qed.

(** C15: reading the files of defaults settles every option of the table: a value
    of the command line stays; otherwise the last line utility.option of all
    files counts, then, unless an earlier line of this kind was seen, the last
    line without a utility, and an option without lines keeps its value. The name
    - reads what is left on the standard input, so that a second one finds it
    where the first one left it. Files that cannot be read are passed over when
    they are not required (for a required one the process ends, see
    required_file_ends_process), and the call returns 0. *)
Theorem defaults_settle_options util text reqd lss left_ o :
  text <> [] -> no_nul text -> zlen text < SMALL -> Forall (fun c => mem_char c [","; "010"; "013"]%char = false) text ->
  contribute reqd (standard_input o) (tokens (delim_of (L " ")) text) lss left_ ->
  Forall (fun ls => Forall setting ls /\ zlen (parser_lines ls) < SMALL) lss ->
  table_ok (opta o) -> Forall (known util (opta o)) (concat lss) ->
  runs (swextopt_parse_options_files (Some text) util reqd false) o
    (put_input left_ (put_opta (settle util (concat lss) <$> opta o) o)) 0.
Proof.
  intros Hne Hn Hb Hd Hc Hls Hes Hk. unfold swextopt_parse_options_files. destruct text as [|c0 text0]; [done|]. set (text := c0 :: text0) in *.
  destruct (strob_open_spec 100) as (b & -> & T & _); [unfold SMALL; lia|]. do 2 (eapply runs_bind; [by apply runs_lift|]; cbv beta).
  destruct (strob_strcpy_spec b text (text_wf _ _ T) Hn Hb) as (b0 & -> & T0 & _). eapply runs_bind; [by apply runs_lift|]. cbv beta.
  eapply runs_bind; [apply runs_lift; by apply text_str|]. cbv beta.
  destruct (strtok_first_token b text [" "; ","; "010"; "013"]%char (text_wf _ _ T) Hn Hb) as (b1 & Hs & ->).
  destruct (at_file_first _ b1 text Hs eq_refl) as (b2 & file & -> & Hat).
  - eapply Forall_impl; [exact Hd|]. intros c Hc'. unfold delim_of, mem_char in *. cbn [existsb L] in *. cbn. rewrite Hc'. done.
  - eapply runs_bind; [by apply runs_lift|]. cbv beta iota. eapply files_loop_run; try done.
    pose proof (tokens_length (delim_of (L " ")) text). unfold text in *. lia.
Qed.
End Files.

Module Witness.
#[local] Instance zero_junk : Malloc := fun _ => NUL.

(** /d has four lines; swcopy reads it. *)
Definition in_file : list mline :=
  [mkLine false 1 (L "swcopy.loglevel") (L "2"); mkLine false 1 (L "loglevel") (L "3"); mkLine false 1 (L "verbose") (L "5");
   mkLine false 1 (L "swinstall.verbose") (L "9"); mkLine false 1 (L "swcopy.swbis_format") (L "odc")].

(** The lines on the standard input. *)
Definition on_input : list mline := [mkLine false 1 (L "media_type") (L "other"); mkLine false 1 (L "verbose") (L "6")].

#[local] Instance one_file : OptionFiles := {|
  opens f := if streq f (L "/d") then Some (L "x") else None;
  readable f := streq f (L "/d");
  home := None;
  SWBISLIBDIR := L "/usr/lib";
  sw_yyparse s := if streq s (L "x") then (0, parser_lines in_file, []) else if streq s (L "y") then (0, parser_lines on_input, [])
                  else (0, [], [])
|}.

Definition before : Options := mkOptions optionsArray 0 [] (L "y").

(** -x swbis_format=newc *)
Definition start : Options :=
  match set_opta (enum SW_E_swbis_format) (Some (L "newc")) before with Some (Done o _) => o | _ => before end.

Definition values (o : Options) : list (option bytes) :=
  (fun e => i ← opta o !! enum e; current i) <$> [SW_E_loglevel; SW_E_verbose; SW_E_swbis_format; SW_E_media_type].

(** Decided for a whole table. *)
Definition plain_entry (e : extendedOptions) : bool :=
  negb (terminated (optionNameM e)) && (if strchr (optionNameM e) "." is Some _ then false else true).

Lemma table_ok_compute es : bool_decide (NoDup (optionNameM <$> es)) && forallb plain_entry es = true -> table_ok es.
Proof.
  intros [Hd Hf]%andb_true_iff. apply bool_decide_eq_true_1 in Hd. split; [done|]. rewrite forallb_forall in Hf.
  apply Forall_forall. intros e He. apply list_elem_of_In, Hf, andb_true_iff in He as [Hn Hs]. apply negb_true_iff in Hn.
  split; [by apply no_nul_compute|]. by destruct (strchr (optionNameM e) ".").
Qed.

Lemma known_compute util es l :
  (let '(u, g, name) := option_of_keyword util (ml_key l) in
   if u || g then match find_option name es with
                  | Some i => match es !! i with
                              | Some e => bool_decide (optionNameM e = name) && (if current e is Some _ then true else false)
                              | None => false end
                  | None => false end
   else true) = true -> known util es l.
Proof.
  unfold known. destruct (option_of_keyword util (ml_key l)) as [[u g] name]. intros E Hug. destruct (u || g); [|done].
  destruct (find_option name es) as [i|]; [|done]. destruct (es !! i) as [e|] eqn:Hi; [|done]. apply andb_true_iff in E as [Hn Hc].
  apply bool_decide_eq_true_1 in Hn. exists i, e. split; [done|]. split; [done|]. by destruct (current e).
Qed.

Lemma start_table : table_ok (opta start).
Proof. apply table_ok_compute. by vm_compute. Qed.

Lemma word_compute s : forallb (fun c => negb (is_nul c) && negb (isspace c)) s && negb (is_nil s) = true -> word s.
Proof.
  intros [Hf Hn]%andb_true_iff. split; [by destruct s|]. rewrite forallb_forall in Hf. apply Forall_forall. intros c Hc.
  by apply Hf, list_elem_of_In.
Qed.

Lemma setting_compute k v : forallb (fun c => negb (is_nul c) && negb (isspace c)) k && negb (is_nil k) = true ->
  forallb (fun c => negb (mem_char c ["013"; "010"; NUL]%char)) v = true -> zlen v < 10 ^ 9 -> setting (mkLine false 1 k v).
Proof.
  intros Hk Hv Hl. rewrite forallb_forall in Hv.
  assert (Hi : Forall inside v).
  { apply Forall_forall. intros c Hc. apply list_elem_of_In, Hv in Hc. apply negb_true_iff in Hc. unfold mem_char in Hc. cbn in Hc.
    apply orb_false_iff in Hc as [H1 Hc]. apply orb_false_iff in Hc as [H2 Hc]. rewrite orb_false_r in Hc.
    split; [unfold mem_char; cbn; by rewrite H1, H2|]. by apply ceq_neq. }
  split; [done|]. split; [|done]. split; [by apply word_compute|]. split; [cbn; lia|]. split; [by apply inside_no_nul|done].
Qed.

(** newc is from the command line, odc in the file does not count; the line for
    swcopy is stronger than the one behind it; swinstall is another utility. The
    second - finds the standard input at its end: the file between them counts. *)
Lemma defaults_settle_options_witness :
  let ls := on_input ++ in_file in
  runs (swextopt_parse_options_files (Some (L "/missing - /d -")) (L "swcopy") false false) start
    (put_input [] (put_opta (settle (L "swcopy") ls <$> opta start) start)) 0
  /\ values (put_opta (settle (L "swcopy") ls <$> opta start) start)
     = [Some (L "2"); Some (L "5"); Some (L "newc"); Some (L "other")].
Proof.
  split; [|vm_compute; reflexivity].
  apply (defaults_settle_options (L "swcopy") (L "/missing - /d -") false [[]; on_input; in_file; []] [] start).
  - vm_compute. congruence.
  - apply no_nul_compute. vm_compute. reflexivity.
  - vm_compute. reflexivity.
  - repeat (apply Forall_cons; split; [vm_compute; reflexivity|]). apply Forall_nil; exact I.
  - apply (next_file false (L "y") _ [] (L "y")); [apply file_missing; vm_compute; reflexivity|].
    apply (next_file false (L "y") _ on_input []); [apply stdin_read; vm_compute; reflexivity|].
    apply (next_file false [] _ in_file []); [apply (file_read false [] (L "/d") (L "x") in_file []); vm_compute; reflexivity|].
    apply (next_file false [] _ [] []); [apply stdin_read; vm_compute; reflexivity|]. apply no_files.
  - repeat (apply Forall_cons; split; [split; [|vm_compute; reflexivity]|]); try (apply Forall_nil; exact I);
      repeat (apply Forall_cons; split; [apply setting_compute; vm_compute; reflexivity|]); apply Forall_nil; exact I.
  - apply start_table.
  - repeat (apply Forall_cons; split; [apply known_compute; vm_compute; reflexivity|]). apply Forall_nil; exact I.
Defined.

(** ** Observed *)

(** A file that is required and cannot be read ends the process (the call for
    the option -X). *)
Example required_file_ends_process :
  swextopt_parse_options_files (Some (L "/d /missing")) (L "swcopy") true false start = Some Exited
  /\ exists o, runs (swextopt_parse_options_files (Some (L "/d")) (L "swcopy") true false) start o 0.
Proof. split; [vm_compute; reflexivity|]. eexists. vm_compute. reflexivity. Qed.

(** The option files has no default; a file of defaults cannot set it. *)
Example files_is_not_recognized :
  parse_lines (L "swcopy") (parser_lines [mkLine false 1 (L "files") (L "/etc/passwd")]) true before = Some (Done before 1).
Proof. vm_compute. reflexivity. Qed.

(** The test for the sign in front of the target moves the directory. *)
Example at_sign_cuts_directory :
  (b ← strob_open 10; '(b, r) ← swextopt_combine_directory b (Some (L "@host:")) (Some (L "/d")); s ← strob_str b; Some (s, r))
  = Some (L "@@host:d", 0).
Proof. vm_compute. reflexivity. Qed.
End Witness.
