(* ===== verification/Events.v ===== *)
(** * Events (swsupplib/misc/swevents.c and swevents.h)

    A script on a host reports an event by a line of text that names it; the
    lines are read on this side, and the events the tasks wait for are handed on
    as lines of a number and a status. The entry behind the last one of the
    table, whose value is -1, is the end of the list.
    swevent_parse_attribute_event is in Swuts.v. *)

From S2P Require Import Prelude CString Strob Decimals PaxHeader Pathname.

(** The levels of sw.h. *)
Definition SW_NOTICE : Z := 0.
Definition SW_ERROR : Z := 1.
Definition SW_WARNING : Z := 2.

Definition SWEVENT_LV1 : Z := 1.
Definition SWEVENT_LV2 : Z := 2.
Definition SWEVENT_LV3 : Z := 3.
Definition SWEVENT_LV6 : Z := 6.
Definition SWEVENT_LV : Z := SWEVENT_LV3.

Definition newline : ascii := "010"%char.
Definition nl : bytes := ["010"%char].

Definition SWEVENT_STATUS_PFX : bytes := L "status=".
Definition SWEVENT_VALUE_PREVIEW : bytes := L "preview".

(** The events the library itself names. *)
Definition SW_INTERNAL_ERROR : Z := 7.
Definition SWI_TASK_BEGINS : Z := 304.
Definition SWI_TASK_ENDS : Z := 305.

(** A default status of [- SW_ERROR] is an event that is always an error. *)
Record swEvents := mkEvent {
  codeM : bytes; valueM : Z; verbose_threshholdM : Z; msgM : bytes;
  is_swi_eventM : bool; default_statusM : Z;
}.

Definition eventsArray : list swEvents :=
  [mkEvent [] 0 0 [] false SW_NOTICE;
   mkEvent (L "SW_ILLEGAL_STATE_TRANSITION") 1 SWEVENT_LV [] true SW_ERROR;
   mkEvent (L "SW_BAD_SESSION_CONTEXT") 2 SWEVENT_LV [] true SW_ERROR;
   mkEvent (L "SW_ILLEGAL_OPTION") 3 SWEVENT_LV [] true SW_ERROR;
   mkEvent (L "SW_ACCESS_DENIED") 4 SWEVENT_LV [] true SW_ERROR;
   mkEvent (L "SW_MEMORY_ERROR") 5 SWEVENT_LV [] true (- SW_ERROR);
   mkEvent (L "SW_RESOURCE_ERROR") 6 SWEVENT_LV [] true (- SW_ERROR);
   mkEvent (L "SW_INTERNAL_ERROR") 7 SWEVENT_LV [] true (- SW_ERROR);
   mkEvent (L "SW_IO_ERROR") 8 SWEVENT_LV [] true (- SW_ERROR);
   mkEvent (L "SW_AGENT_INITIALIZATION_FAILED") 10 SWEVENT_LV [] false (- SW_ERROR);
   mkEvent (L "SW_SERVICE_NOT_AVALIABLE") 11 SWEVENT_LV [] false (- SW_ERROR);
   mkEvent (L "SW_OTHER_SESSIONS_IN_PROGRESS") 12 SWEVENT_LV [] false SW_WARNING;
   mkEvent (L "SW_SESSION_BEGINS") 28 SWEVENT_LV [] false SW_NOTICE;
   mkEvent (L "SW_SESSION_ENDS") 29 SWEVENT_LV [] false SW_ERROR;
   mkEvent (L "SW_CONNECTION_LIMIT_EXCEEDED") 30 SWEVENT_LV [] false (- SW_ERROR);
   mkEvent (L "SW_SOC_DOES_NOT_EXIST") 31 SWEVENT_LV [] false (- SW_ERROR);
   mkEvent (L "SW_SOC_IS_CORRUPT") 32 SWEVENT_LV [] false SW_ERROR;
   mkEvent (L "SW_SOC_CREATED") 34 SWEVENT_LV [] false SW_NOTICE;
   mkEvent (L "SW_CONFLICTING_SESSION_IN_PROGRESS") 35 SWEVENT_LV [] false SW_ERROR;
   mkEvent (L "SW_SOC_LOCK_FAILURE") 36 SWEVENT_LV [] false SW_ERROR;
   mkEvent (L "SW_SOC_IS_READ_ONLY") 37 SWEVENT_LV [] false SW_ERROR;
   mkEvent (L "SW_SOC_IS_REMOTE") 38 SWEVENT_LV [] false SW_NOTICE;
   mkEvent (L "SW_SOC_IS_SERIAL") 40 SWEVENT_LV [] false SW_NOTICE;
   mkEvent (L "SW_SOC_INCORRECT_TYPE") 41 SWEVENT_LV [] false SW_ERROR;
   mkEvent (L "SW_CANNOT_OPEN_LOGFILE") 42 SWEVENT_LV [] false SW_ERROR;
   mkEvent (L "SW_SOC_AMBIGUOUS_TYPE") 49 SWEVENT_LV [] false (- SW_NOTICE);
   mkEvent (L "SW_ANALYSIS_BEGINS") 52 SWEVENT_LV [] true SW_NOTICE;
   mkEvent (L "SW_ANALYSIS_ENDS") 53 SWEVENT_LV [] true SW_NOTICE;
   mkEvent (L "SW_EXREQUISITE_EXCLUDE") 56 SWEVENT_LV [] true SW_NOTICE;
   mkEvent (L "SW_CHECK_SCRIPT_EXCLUDE") 57 SWEVENT_LV [] true SW_NOTICE;
   mkEvent (L "SW_CONFIGURE_EXCLUDE") 58 SWEVENT_LV [] true SW_NOTICE;
   mkEvent (L "SW_SELECTION_IS_CORRUPT") 59 SWEVENT_LV [] true SW_ERROR;
   mkEvent (L "SW_SOURCE_ACCESS_ERROR") 60 SWEVENT_LV (L ": File not found.") false SW_ERROR;
   mkEvent (L "SW_SELECTION_NOT_FOUND") 62 SWEVENT_LV1 [] false SW_ERROR;
   mkEvent (L "SW_SELECTION_NOT_FOUND_RELATED") 63 SWEVENT_LV [] false SW_ERROR;
   mkEvent (L "SW_SELECTION_NOT_FOUND_AMBIG") 64 SWEVENT_LV [] false SW_ERROR;
   mkEvent (L "SW_FILESYSTEMS_NOT_MOUNTED") 65 SWEVENT_LV [] false SW_ERROR;
   mkEvent (L "SW_FILESYSTEMS_MORE_MOUNTED") 66 SWEVENT_LV [] false SW_ERROR;
   mkEvent (L "SW_HIGHER_REVISION_INSTALLED") 67 SWEVENT_LV [] false SW_ERROR;
   mkEvent (L "SW_NEW_MULTIPLE_VERSION") 68 SWEVENT_LV [] false SW_ERROR;
   mkEvent (L "SW_EXISTING_MULTIPLE_VERSION") 69 SWEVENT_LV [] false SW_ERROR;
   mkEvent (L "SW_DEPENDENCY_NOT_MET") 70 SWEVENT_LV [] true SW_ERROR;
   mkEvent (L "SW_NOT_COMPATIBLE") 71 SWEVENT_LV [] true SW_ERROR;
   mkEvent (L "SW_CHECK_SCRIPT_WARNING") 72 SWEVENT_LV [] true SW_WARNING;
   mkEvent (L "SW_CHECK_SCRIPT_ERROR") 73 SWEVENT_LV [] true (- SW_ERROR);
   mkEvent (L "SW_DSA_OVER_LIMIT") 75 SWEVENT_LV [] true SW_ERROR;
   mkEvent (L "SW_DSA_FAILED_TO_RUN") 76 SWEVENT_LV [] true SW_NOTICE;
   mkEvent (L "SW_ALREADY_CONFIGURED") 78 SWEVENT_LV1 [] true SW_NOTICE;
   mkEvent (L "SW_SKIPPED_GLOBAL_ERROR") 80 SWEVENT_LV [] true SW_NOTICE;
   mkEvent (L "SW_FILE_WARNING") 84 SWEVENT_LV [] true SW_WARNING;
   mkEvent (L "SW_FILE_ERROR") 85 SWEVENT_LV [] true (- SW_ERROR);
   mkEvent (L "SW_NOT_LOCATABLE") 86 SWEVENT_LV [] true SW_ERROR;
   mkEvent (L "SW_SAME_REVISION_SKIPPED") 87 SWEVENT_LV [] true SW_NOTICE;
   mkEvent (L "SW_EXECUTION_BEGINS") 88 SWEVENT_LV [] true SW_NOTICE;
   mkEvent (L "SW_EXECUTION_ENDS") 89 SWEVENT_LV [] true SW_ERROR;
   mkEvent (L "SW_PRE_SCRIPT_WARNING") 95 SWEVENT_LV [] true SW_WARNING;
   mkEvent (L "SW_PRE_SCRIPT_ERROR") 96 SWEVENT_LV [] true SW_ERROR;
   mkEvent (L "SW_FILESET_WARNING") 97 SWEVENT_LV [] true SW_WARNING;
   mkEvent (L "SW_FILESET_ERROR") 98 SWEVENT_LV [] true SW_ERROR;
   mkEvent (L "SW_POST_SCRIPT_WARNING") 99 SWEVENT_LV [] true SW_WARNING;
   mkEvent (L "SW_POST_SCRIPT_ERROR") 100 SWEVENT_LV [] true SW_ERROR;
   mkEvent (L "SW_CONFIGURE_WARNING") 103 SWEVENT_LV [] true SW_WARNING;
   mkEvent (L "SW_CONFIGURE_ERROR") 104 SWEVENT_LV [] true SW_ERROR;
   mkEvent (L "SW_DATABASE_UPDATE_ERROR") 105 SWEVENT_LV [] true (- SW_ERROR);
   mkEvent (L "SW_FILESET_BEGINS") 117 SWEVENT_LV [] true SW_NOTICE;
   mkEvent (L "SW_CONTROL_SCRIPT_BEGINS") 118 SWEVENT_LV [] true SW_NOTICE;
   mkEvent (L "SW_CONTROL_SCRIPT_NOT_FOUND") 119 SWEVENT_LV [] true SW_NOTICE;
   mkEvent (L "SW_SOURCE_ACCESS_BEGINS") 260 SWEVENT_LV [] false SW_NOTICE;
   mkEvent (L "SW_SOURCE_ACCESS_ENDS") 261 SWEVENT_LV [] false SW_ERROR;
   mkEvent (L "SW_CONTROL_SCRIPT_ENDS") 262 SWEVENT_LV2 [] true SW_NOTICE;
   mkEvent (L "SW_SOC_LOCK_CREATED") 263 SWEVENT_LV [] true SW_ERROR;
   mkEvent (L "SW_SOC_LOCK_REMOVED") 264 SWEVENT_LV [] true SW_ERROR;
   mkEvent (L "SW_SELECTION_EXECUTION_BEGINS") 265 SWEVENT_LV2 [] false SW_NOTICE;
   mkEvent (L "SW_SELECTION_EXECUTION_ENDS") 266 SWEVENT_LV2 [] false SW_ERROR;
   mkEvent (L "SW_ISC_INTEGRITY_CONFIRMED") 267 SWEVENT_LV [] false SW_NOTICE;
   mkEvent (L "SW_ISC_INTEGRITY_NOT_CONFIRMED") 268 SWEVENT_LV [] false SW_ERROR;
   mkEvent (L "SW_SPECIAL_MODE_BEGINS") 269 SWEVENT_LV [] false SW_ERROR;
   mkEvent (L "SW_SOC_INTEGRITY_CONFIRMED") 270 SWEVENT_LV [] false SW_ERROR;
   mkEvent (L "SW_SOC_INTEGRITY_NOT_CONFIRMED") 271 SWEVENT_LV [] false SW_ERROR;
   mkEvent (L "SW_ABORT_SIGNAL_RECEIVED") 272 SWEVENT_LV1 [] false SW_ERROR;
   mkEvent (L "SW_FILE_EXISTS") 273 SWEVENT_LV1 [] false SW_WARNING;
   mkEvent (L "SWI_PRODUCT_SCRIPT_ENDS") 280 SWEVENT_LV [] true SW_NOTICE;
   mkEvent (L "SWI_FILESET_SCRIPT_ENDS") 281 SWEVENT_LV [] true SW_NOTICE;
   mkEvent (L "SWI_CATALOG_UNPACK_BEGINS") 302 SWEVENT_LV [] true SW_NOTICE;
   mkEvent (L "SWI_CATALOG_UNPACK_ENDS") 303 SWEVENT_LV [] true SW_ERROR;
   mkEvent (L "SWI_TASK_BEGINS") 304 SWEVENT_LV6 [] true SW_NOTICE;
   mkEvent (L "SWI_TASK_ENDS") 305 SWEVENT_LV6 [] true SW_ERROR;
   mkEvent (L "SWI_SWICOL_ERROR") 306 SWEVENT_LV [] true SW_ERROR;
   mkEvent (L "SWI_CATALOG_ANALYSIS_BEGINS") 307 SWEVENT_LV [] true SW_NOTICE;
   mkEvent (L "SWI_CATALOG_ANALYSIS_ENDS") 308 SWEVENT_LV [] true SW_ERROR;
   mkEvent (L "SWBIS_TARGET_BEGINS") 309 SWEVENT_LV [] true SW_NOTICE;
   mkEvent (L "SWBIS_TARGET_ENDS") 310 SWEVENT_LV [] true SW_ERROR;
   mkEvent (L "SWI_NORMAL_EXIT") 311 SWEVENT_LV [] false SW_ERROR;
   mkEvent (L "SWI_SELECTION_BEGINS") 312 SWEVENT_LV [] false SW_NOTICE;
   mkEvent (L "SWI_SELECTION_ENDS") 313 SWEVENT_LV [] false SW_ERROR;
   mkEvent (L "SWI_MSG") 314 SWEVENT_LV [] true SW_NOTICE;
   mkEvent (L "SWI_ATTRIBUTE") 315 SWEVENT_LV [] true SW_NOTICE;
   mkEvent (L "SWI_GROUP_BEGINS") 316 SWEVENT_LV [] true SW_NOTICE;
   mkEvent (L "SWI_GROUP_ENDS") 317 SWEVENT_LV [] true SW_NOTICE;
   mkEvent (L "SWI_TASK_CTS") 318 SWEVENT_LV6 [] true SW_NOTICE;
   mkEvent (L "SWI_MAIN_SCRIPT_ENDS") 319 SWEVENT_LV6 [] true SW_NOTICE].

(** The code and the value of the last entry. *)
Definition nil_code : bytes := L "<_nil_>".
Definition nil_value : Z := -1.

(** ** Looking events up *)

(** The search for a value that both functions make. *)
Definition get_struct_by_value (value : Z) (evnt : list swEvents) : option swEvents :=
  find (fun e => valueM e =? value) evnt.

Definition swevent_code (value : Z) : bytes :=
  match get_struct_by_value value eventsArray with Some e => codeM e | None => nil_code end.

(** The word of the line that begins with SW; the copy has room for 99 bytes. *)
Definition event_word (line : bytes) : option bytes :=
  let buf := take 99 line in
  match strstr buf (L "SW") with
  | None => None
  | Some i => let event_code := drop i buf in
              match strpbrk event_code [":"; " "; "013"; "010"]%char with
              | None => None
              | Some ws => Some (take ws event_code)
              end
  end.

Definition get_struct_by_message (line : bytes) (evnt : list swEvents) : option swEvents :=
  match event_word line with
  | None => None
  | Some event_code => find (fun e => streq (codeM e) event_code) evnt
  end.

Definition swevents_get_struct_by_message := get_struct_by_message.

(** The first event of the table whose code is somewhere in the text. *)
Definition swevent_get_value (evnt : list swEvents) (msg : bytes) : Z :=
  match find (fun e => negb (zlen (codeM e) =? 0) && bool_decide (is_Some (strstr msg (codeM e)))) evnt with
  | Some e => valueM e
  | None => nil_value
  end.

(** ** Reading a line *)

Definition atoi (s : bytes) : Z := to_int (fst (strtol s)).

(** The number behind status=, and whether it counts as a status. *)
Definition line_status (line : bytes) : Z * bool :=
  match strstr line SWEVENT_STATUS_PFX with
  | None => (0, false)
  | Some s => let n := atoi (drop (s + length SWEVENT_STATUS_PFX) line) in
              (n, negb ((n =? INT_MAX) || (n =? - 2 ^ 31)))
  end.

(** The result and the status. *)
Definition swevent_is_error (line : bytes) : Z * Z :=
  let '(n, does_have_status) := line_status line in
  match get_struct_by_message line eventsArray with
  | None => (-1, n)
  | Some ev =>
      (if (n =? SW_ERROR) || ((default_statusM ev =? SW_ERROR) && negb does_have_status)
          || (default_statusM ev =? - SW_ERROR)
       then 1 else 0, n)
  end.

Definition names_event (line : bytes) : bool :=
  bool_decide (is_Some (strstr line (L ": SW_"))) || bool_decide (is_Some (strstr line (L ": SWI_")))
  || bool_decide (is_Some (strstr line (L ": SWBIS_"))).

Fixpoint skip_spaces (s : bytes) : bytes :=
  match s with c :: r => if ceq c " "%char then skip_spaces r else s | [] => [] end.

(** The colon that the message is behind. *)
Definition message_colon (line : bytes) : option nat :=
  let s := strrchr line ":"%char in
  let s1 := match strchr line ":"%char with
            | None => None
            | Some i => (fun j => (S i + j)%nat) <$> strchr (drop (S i) line) ":"%char
            end in
  match strstr line (L "SWI_ATTRIBUTE"), s1 with
  | Some _, Some _ => s1
  | _, _ => s
  end.

(** The result, the status and the message. *)
Definition get_event_status (line : bytes) : Z * Z * option bytes :=
  if names_event line then
    let '(ret, status) := swevent_is_error line in
    let status :=
      match strstr line SWEVENT_STATUS_PFX with
      | Some _ => if (ret <? 0) && (status =? 0) then -1 else status
      | None => if ret <? 0 then -1 else status
      end in
    (0, status, (fun s => skip_spaces (drop (S s) line)) <$> message_colon line)
  else (-1, -1, None).

(** ** Handing an event on *)

Section Writing.
(** What uxfio_unix_safe_write answers for these bytes. *)
Context (unix_safe_write : bytes -> Z).

(** The text that is formed for an event and the message of its line. *)
Definition rpsh_event_text (event_value status : Z) (msg : option bytes) : option bytes :=
  match msg with
  | Some m =>
      if bool_decide (strstr m SWEVENT_STATUS_PFX = Some O)
      then Some (print_d event_value ++ L ":" ++ print_d status ++ nl)
      else buf ← swlib_squash_trailing_vnewline (print_d event_value ++ L ":" ++ m ++ [NUL]);
           t ← str_at buf 0; Some (t ++ nl)
  | None => Some (print_d event_value ++ L ":" ++ print_d status ++ nl)
  end.

(** The bytes of the text that the descriptor took, as many as the call
    answers, and the result: a short write is an error. *)
Definition swevent_write_rpsh_event (event_line : bytes) : option (bytes * Z) :=
  let event_value := swevent_get_value eventsArray event_line in
  if event_value <? 0 then Some ([], -10)
  else match get_struct_by_value event_value eventsArray with
  | None => Some ([], -20)
  | Some this_evnt =>
      if negb (is_swi_eventM this_evnt) then Some ([], 0)
      else
        let '(_, status, msg) := get_event_status event_line in
        tmp ← rpsh_event_text event_value status msg;
        let ret := unix_safe_write tmp in
        Some (take (Z.to_nat ret) tmp, if (ret <? 0) || negb (ret =? zlen tmp) then -1 else ret)
  end.
End Writing.

(** ** Forming the command that reports an event *)

(** s_arrM with s_arr_indexM: the objects are used again from the start after a
    reset. [Closed] is what swevent_s_arr_delete leaves, a dangling pointer. *)
Inductive objects := Unopened | Opened (texts : list bytes) | Closed.
Record pool := mkPool { s_arrM : objects; s_arr_indexM : nat }.

Definition empty_pool : pool := mkPool Unopened 0.

(** The pool and the place of an empty object. *)
Definition arr_get_p (p : pool) : option (pool * nat) :=
  let i := s_arr_indexM p in
  texts ← match s_arrM p with Unopened => Some [] | Opened ts => Some ts | Closed => None end;
  match texts !! i with
  | None => Some (mkPool (Opened (texts ++ [[]])) (S i), length texts)
  | Some _ => Some (mkPool (Opened (<[i := []]> texts)) (S i), i)
  end.

Definition pool_text (p : pool) (i : nat) : option bytes :=
  match s_arrM p with Opened ts => ts !! i | _ => None end.

Definition pool_store (p : pool) (i : nat) (t : bytes) : pool :=
  match s_arrM p with Opened ts => mkPool (Opened (<[i := t]> ts)) (s_arr_indexM p) | _ => p end.

Definition swevent_s_arr_reset (p : pool) : pool := mkPool (s_arrM p) 0.

Definition swevent_s_arr_delete (p : pool) : option pool :=
  match s_arrM p with Opened _ => Some (mkPool Closed (s_arr_indexM p)) | _ => None end.

Section Echo.
(** swlib_utilname_get and s_verboseM, which swevent_set_verbose sets. *)
Context (swlib_utilname_get : bytes) (s_verboseM : Z).

Definition swevent_message (value : Z) (loc msg : bytes) (verbose_level : Z) : bytes :=
  swlib_utilname_get ++ L ": " ++ swevent_code value ++ L " on " ++ loc ++ L " host `hostname`" ++
  (if verbose_level >=? s_verboseM then L " at line $LINENO" else []) ++ L ": " ++ msg.

Definition double_quote : ascii := "034"%char.

Definition g_redir1 : bytes := [].
Definition g_redir2 : bytes := L "1>&2".
Definition g_redirnull : bytes := L "1>/dev/null".

Definition echo_redir (to_fd : Z) (eop : swEvents) : bytes :=
  let redir := if (to_fd =? 2) || is_swi_eventM eop then g_redir2 else g_redirnull in
  let redir := if to_fd =? 1 then g_redir1 else redir in
  if to_fd =? 0 then g_redirnull else redir.

(** A text of the pool, or one that strdup made. *)
Inductive echoed := InPool (i : nat) | Copied (t : bytes).

Definition swevent_shell_echo (p : pool) (to_fd verbose_level : Z) (loc : bytes) (value : Z) (msg : bytes)
    : option (pool * echoed) :=
  '(p, i) ← arr_get_p p;
  match get_struct_by_value value eventsArray with
  | None => Some (p, Copied (L "echo " ++ [double_quote; double_quote] ++ L " 1>/dev/null"))
  | Some eop =>
      let t := L "echo " ++ [double_quote] ++ swevent_message value loc msg verbose_level
               ++ [double_quote] ++ L " " ++ echo_redir to_fd eop in
      Some (pool_store p i t, InPool i)
  end.

Definition SEVENT (p : pool) (p_fd p_vlv p_code : Z) (p_arg : bytes) : option (pool * echoed) :=
  swevent_shell_echo p p_fd p_vlv (L "source") p_code p_arg.
Definition TEVENT (p : pool) (p_fd p_vlv p_code : Z) (p_arg : bytes) : option (pool * echoed) :=
  swevent_shell_echo p p_fd p_vlv (L "target") p_code p_arg.

(** The text the result points to. *)
Definition echoed_text (p : pool) (e : echoed) : option bytes :=
  match e with InPool i => pool_text p i | Copied t => Some t end.
End Echo.
