(* ===== verification/EventLog.v ===== *)
(** * The lines of the scripts (swprogs/swcommon.c: write_log and what it calls)

    What the scripts write arrives in pieces of any length. write_log puts the
    pieces together to lines; an event goes to the tasks that wait for it
    (Events.v), and each line is shown, logged or dropped.

    The buffer is its text. Printing the time in front of a line of the log
    (printlogline) is left out. *)

From S2P Require Import Prelude CString Strob Events.

Definition has (s needle : bytes) : bool := bool_decide (is_Some (strstr s needle)).

Definition ssh_errors : list bytes :=
  [L "DOING SOMETHING NASTY!"; L "man-in-the-middle attack!"; L "Offending key in"; L "Offending key for";
   L "Connection refused"; L " Name or service not known"].

Definition is_ssh_sys_error (sptr : bytes) : bool := existsb (has sptr) ssh_errors.

Definition unix_errors : list bytes :=
  [L "bnormal termination"; L "bnormal Termination"; L "SIGABRT"; L "SIGINT"; L "ermission denied";
   L "ot permitted"; L " input/output"; L " Input/Output"; L " i/o"; L " I/O"; L "i/o "; L "I/O ";
   L " error"; L " Error"; L "error "; L "Error "; L "roken pipe"; L "ead-only"; L "ead only";
   L "o such file"; L "o such device"; L "o space"; L "ccess denied"; L "out of memory"; L "ot enough space";
   L "format error"; L "Bad "; L "bad file"; L "Too many "; L "too many "; L "oo large "; L "nvalid arg";
   L "Unexpected EOF in archive"; L "nexpected eof in archive"; L "NUL blocks at start"].

Definition is_unix_sys_error (sptr : bytes) : bool := existsb (has sptr) unix_errors.

(** What a line is: is_event, *status, *is_swbis_event, *is_swi_event, *is_posix_event. *)
Record kind := mkKind { is_event_k : bool; k_status : Z; k_swbis : bool; k_swi : bool; k_posix : bool }.

Definition is_event (line : bytes) : kind :=
  if names_event line then
    let '(ret, status) := swevent_is_error line in
    mkKind true (if negb (ret =? 0) && (status =? 0) then -1 else status)
      (has line (L ": SWBIS_")) (has line (L ": SWI_")) (has line (L ": SW_"))
  else mkKind false 0 false false false.

Definition SWC_VERBOSE_1 : Z := 1.
Definition SWC_VERBOSE_3 : Z := 3.
Definition SWC_VERBOSE_6 : Z := 6.

(** What is written where: the text that is given to the write of the terminal
    or of the log, and the bytes of an event that the descriptor took. *)
Inductive output := Line (fd : Z) (t : bytes) | LogLine (t : bytes) | EventLine (t : bytes).

Section Log.
(** The options of the utility, the descriptors, and what writing answers. *)
Context (verbose_swbis_event_thresholdG g_verbose_threshold verbose_level loglevelM : Z).
Context (vofd vefd logfdM swi_event_fd : Z).
Context (unix_safe_write : Z -> bytes -> Z) (atomic_write : Z -> bytes -> Z).

Definition swlib_test_verbose (ev : option swEvents) (verbose_level : Z) (swbis_event is_swi_event : bool)
    (event_status : Z) (is_posix_event : bool) : bool :=
  match ev with Some e => verbose_level >=? verbose_threshholdM e | None => false end
  || ((verbose_level >=? SWC_VERBOSE_1) && negb (event_status =? 0))
  || ((verbose_level >=? SWC_VERBOSE_3) && is_posix_event)
  || ((verbose_level >=? verbose_swbis_event_thresholdG) && swbis_event)
  || ((verbose_level >=? SWC_VERBOSE_6) && is_swi_event)
  || ((verbose_level >=? verbose_swbis_event_thresholdG) && negb is_swi_event).

Definition writeline (do_stderr do_log : bool) (efd : Z) (msg_prefix p_sptr : bytes) : list output * Z :=
  let sptr := if negb (zlen msg_prefix =? 0) && negb (has p_sptr msg_prefix) then msg_prefix ++ p_sptr else p_sptr in
  let logs := do_log && (logfdM >? 0) in
  let eret := if do_stderr then atomic_write efd sptr else 0 in
  let lret := if logs then unix_safe_write logfdM sptr else 0 in
  ((if do_stderr then [Line efd sptr] else []) ++ (if logs then [LogLine sptr] else []),
   if lret <? 0 then lret else eret).

(** e_in_control_scriptM after the line. *)
Definition detect_special_verbose_status (in_script : bool) (sptr : bytes) : bool :=
  if has sptr (L "SW_CONTROL_SCRIPT_BEGINS") then true
  else if has sptr (L "SW_CONTROL_SCRIPT_ENDS") then false else in_script.

(** What the tasks get: the bytes that the event descriptor took; that a write
    was short or failed is only reported. *)
Definition event_output (sptr : bytes) : option (list output) :=
  if swi_event_fd >=? 0 then
    '(news, _) ← swevent_write_rpsh_event (unix_safe_write swi_event_fd) sptr;
    Some (if zlen news =? 0 then [] else [EventLine news])
  else Some [].

Definition event_line_output (k : kind) (sptr : bytes) : list output * Z :=
  let ev := if swi_event_fd >=? 0 then swevents_get_struct_by_message sptr eventsArray else None in
  let do_log := negb (k_swi k) in
  let do_stderr := swlib_test_verbose ev verbose_level (k_swbis k) (k_swi k) (k_status k) (k_posix k) in
  if do_log || do_stderr then
    if negb (k_status k =? 0) then writeline do_stderr do_log vefd [] sptr
    else if vofd >=? 0 then writeline do_stderr do_log vofd [] sptr
    else ([], 0)
  else ([], 0).

Definition other_line_output (in_script : bool) (sptr : bytes) : list output * Z :=
  if verbose_level >? 0 then
    let is_ssh := is_ssh_sys_error sptr in
    if is_unix_sys_error sptr then writeline true (loglevelM >? 0) vefd [] sptr
    else if is_ssh then writeline true (loglevelM >? 0) vefd (L "ssh: ") sptr
    else if verbose_level >=? SWC_VERBOSE_6 then writeline true (loglevelM >? 0) vefd [] sptr
    else writeline ((verbose_level >=? g_verbose_threshold) || in_script)
                   ((loglevelM >=? 2) || in_script) vofd [] sptr
  else ([], 0).

(** The flag of the control script, what was written, and the result. *)
Definition write_error_line (in_script : bool) (sptr : bytes) : option (bool * list output * Z) :=
  let in_script := detect_special_verbose_status in_script sptr in
  let k := is_event sptr in
  if is_event_k k then
    news ← event_output sptr;
    let '(shown, ret) := event_line_output k sptr in Some (in_script, news ++ shown, ret)
  else let '(shown, ret) := other_line_output in_script sptr in Some (in_script, shown, ret).

(** The flag and the text of linebuf. *)
Record logstate := mkLog { in_control_script : bool; linebuf : bytes }.

(** while (nl): a result below zero leaves the loop with the line that was cut
    off in the buffer, and what is behind it out of the text. *)
Fixpoint write_log_loop (fuel : nat) (st : logstate) (tot : Z) : option (logstate * list output * Z) :=
  match fuel with
  | O => None
  | S fuel =>
    match strpbrk (linebuf st) ["010"%char] with
    | None => Some (st, [], tot)
    | Some nl =>
        let line := take (S nl) (linebuf st) in
        '(in_script, outs, ret) ← write_error_line (in_control_script st) line;
        if ret <? 0 then Some (mkLog in_script line, outs, -1)
        else
          let tot := if ret >? 0 then to_int (tot + ret) else tot in
          '(st, more, r) ← write_log_loop fuel (mkLog in_script (drop (S nl) (linebuf st))) tot;
          Some (st, outs ++ more, r)
    end
  end.

(** [bufa] is what was read; strob_strncat stops at a NUL. *)
Definition write_log (st : logstate) (bufa : bytes) : option (logstate * list output * Z) :=
  let s := linebuf st ++ cstr bufa in
  write_log_loop (S (length s)) (mkLog (in_control_script st) s) 0.

(** The pieces one after another, as the loop that reads the scripts does. *)
Fixpoint write_logs (st : logstate) (pieces : list bytes) : option (logstate * list output) :=
  match pieces with
  | [] => Some (st, [])
  | p :: ps => '(st, outs, _) ← write_log st p; '(st, more) ← write_logs st ps; Some (st, outs ++ more)
  end.
End Log.
