(* ===== verification/Swicol.v ===== *)
(** * Collating tasks and their events (swsupplib/misc/swicol.c, swicol.h)

    A task is a script that is written to a shell. Its events come back as lines
    of a number and a status (swevent_write_rpsh_event of Events.v); they are
    waited for, kept in a list and looked up there.

    The list of events is the list of the strings of the STRAR. The descriptors,
    the clock, the file of a debugged script and the handler of SIGALRM are the
    class Channel; that handler is swicol_set_master_alarm, and it is seen when
    the wait wakes up. *)

From S2P Require Import Prelude CString Strob Escape Decimals PaxHeader Pathname Effects Events.
#[local] Open Scope effects_scope.

Definition SWICOL_STOP_STRING : bytes := L "305:".
Definition SWICOL_START_STRING : bytes := L "304:".
Definition SWICOL_CTS_STRING : bytes := L "318:".
Definition SWICOL_TRAILER : bytes := L "TRAILER!!!".
Definition SWICOL_ALARM_EVENT : bytes := L "Intentional abort".
Definition SWICOL_ABORT_STEP_1 : Z := 1.
Definition SWICOL_ABORT_STEP_2 : Z := 2.
Definition SWICOL_DEBUG_TASK_SCRIPT_PREFIX : bytes := L "/tmp/swbis_task_".
Definition SWICOL_TL_9 : Z := 9.
Definition SWICOL_TL_10 : Z := 10.
Definition SWICOL_TL_20 : Z := 20.
Definition SW_INTERNAL_ERROR_127 : Z := -127.
Definition SW_INTERNAL_ERROR_128 : Z := -128.
Definition STDERR_FILENO : Z := 2.
Definition SWC_VERBOSE_5 : Z := 5.
Definition SWC_VERBOSE_8 : Z := 8.

Record SWICOL := mkSWICOL {
  verbose_levelM : Z; event_listM : list bytes; setvxM : option bytes; umaskM : option bytes;
  blocksizeM : option bytes; delaytimeM : Z; nhopsM : Z; targetpathM : option bytes;
  event_indexM : Z; id_stringM : bytes; scriptM : bytes; tmpM : bytes; debug_task_scriptsM : Z;
  master_alarmM : Z; event_fdM : Z; magic_headerM : bytes; needs_synct_eoaM : Z;
}.

(** What select says: nothing in time or EINTR, an error, or the number of
    descriptors, and whether there is an exception or something to read. *)
Inductive selected := SelNothing | SelError | SelReady (n : Z) (exception readable : bool).
Inductive one_byte := Byte (c : ascii) | AtEnd | ReadError.

Class Channel (W : Type) := {
  time : W -> W * Z;
  nanosleep : W -> W * bool;
  select : Z -> W -> W * selected;
  read_byte : Z -> W -> W * one_byte;
  write_all : Z -> bytes -> W -> W * Z;
  save_file : bytes -> bytes -> W -> W * Z;
}.

(** ** The texts around a subshell *)

(** What stands behind the group: group_delim+2 is the text behind the NUL of
    the literal, ")\0" or "}". *)
Inductive group := Paren | Brace.
Definition group_left (g : group) : bytes := match g with Paren => L "(" | Brace => L "{" end.
Definition group_right (g : group) : bytes := match g with Paren => L ")" | Brace => L "}" end.

Definition subshell_redirection (type : bytes) (nhops verbose_level : Z) : option bytes :=
  if streq type (L "source") then
    Some (if nhops >=? 1
          then if verbose_level =? 0 then L "0</dev/null 2>/dev/null" else L "0</dev/null"
          else if verbose_level =? 0 then L "2>/dev/null" else L "0</dev/null")
  else if streq type (L "target") then
    Some (if verbose_level =? 0 then L "1>/dev/null 2>/dev/null" else L "1>/dev/null")
  else if streq type (L "install_target") then
    Some (if nhops >=? 1 then [] else if verbose_level =? 0 then L "2>/dev/null" else [])
  else None.

Definition subshell_marks (type : bytes) (wh : ascii) (nhops verbose_level : Z) (group_delim : group) : outcome bytes :=
  if ceq wh "L"%char then Returns (group_left group_delim ++ nl)
  else if ceq wh "R"%char then
    let right := L "exit $sw_retval;" ++ nl ++ group_right group_delim in
    match group_delim with
    | Brace => Returns right
    | Paren => match subshell_redirection type nhops verbose_level with
               | None => Fatal
               | Some r => Returns (right ++ r ++ L "; exit $?")
               end
    end
  else Returns [].

Definition swicol_subshell_marks type wh nhops verbose_level := subshell_marks type wh nhops verbose_level Paren.
Definition swicol_brace_marks type wh nhops verbose_level := subshell_marks type wh nhops verbose_level Brace.

(** ** The object *)

(** Nine lines; the process ends when they are shorter than 513 bytes. *)
Definition magic_line : bytes := L "# # # # # # # # # # # # # # # # # # # # # # # # # # # ##" ++ nl.
Definition init_magic_header : outcome bytes :=
  let m := concat (replicate 9 magic_line) in
  if zlen m <? 513 then Fatal else Returns m.

Definition swicol_create : outcome SWICOL :=
  match init_magic_header with
  | Fatal => Fatal
  | Returns m => Returns (mkSWICOL 0 [] None None None 0 1 None 1 [] [] [] 0 0 (-1) m 0)
  end.

Section Fields.
Implicit Types (c : SWICOL) (buf id : bytes).

Definition put_fields (v : Z) (evs : list bytes) (ix : Z) (id script tmp : bytes) (alarm : Z) c : SWICOL :=
  mkSWICOL v evs (setvxM c) (umaskM c) (blocksizeM c) (delaytimeM c) (nhopsM c) (targetpathM c)
    ix id script tmp (debug_task_scriptsM c) alarm (event_fdM c) (magic_headerM c) (needs_synct_eoaM c).
Definition put_opts (vx um tp : option bytes) (delay hops debug fd : Z) c : SWICOL :=
  mkSWICOL (verbose_levelM c) (event_listM c) vx um (blocksizeM c) delay hops tp
    (event_indexM c) (id_stringM c) (scriptM c) (tmpM c) debug (master_alarmM c) fd (magic_headerM c) (needs_synct_eoaM c).

Definition put_events (evs : list bytes) c : SWICOL :=
  put_fields (verbose_levelM c) evs (event_indexM c) (id_stringM c) (scriptM c) (tmpM c) (master_alarmM c) c.
Definition put_index (ix : Z) c : SWICOL :=
  put_fields (verbose_levelM c) (event_listM c) ix (id_stringM c) (scriptM c) (tmpM c) (master_alarmM c) c.
Definition put_script (t : bytes) c : SWICOL :=
  put_fields (verbose_levelM c) (event_listM c) (event_indexM c) (id_stringM c) t (tmpM c) (master_alarmM c) c.
Definition put_tmp (t : bytes) c : SWICOL :=
  put_fields (verbose_levelM c) (event_listM c) (event_indexM c) (id_stringM c) (scriptM c) t (master_alarmM c) c.
Definition put_alarm (a : Z) c : SWICOL :=
  put_fields (verbose_levelM c) (event_listM c) (event_indexM c) (id_stringM c) (scriptM c) (tmpM c) a c.

Definition swicol_set_verbose_level c (level : Z) : SWICOL :=
  put_fields level (event_listM c) (event_indexM c) (id_stringM c) (scriptM c) (tmpM c) (master_alarmM c) c.
Definition swicol_set_task_idstring c id : SWICOL :=
  put_fields (verbose_levelM c) (event_listM c) (event_indexM c) id (scriptM c) (tmpM c) (master_alarmM c) c.
Definition swicol_clear_task_idstring c : SWICOL := swicol_set_task_idstring c (L "__unset__").
Definition swicol_get_task_idstring c : bytes := id_stringM c.
Definition swicol_set_event_fd c (fd : Z) : SWICOL :=
  put_opts (setvxM c) (umaskM c) (targetpathM c) (delaytimeM c) (nhopsM c) (debug_task_scriptsM c) fd c.
Definition swicol_set_delaytime c (delay : Z) : SWICOL :=
  put_opts (setvxM c) (umaskM c) (targetpathM c) delay (nhopsM c) (debug_task_scriptsM c) (event_fdM c) c.
Definition swicol_set_nhops c (nhops : Z) : SWICOL :=
  put_opts (setvxM c) (umaskM c) (targetpathM c) (delaytimeM c) nhops (debug_task_scriptsM c) (event_fdM c) c.
Definition swicol_set_task_debug c (do_debug : Z) : SWICOL :=
  put_opts (setvxM c) (umaskM c) (targetpathM c) (delaytimeM c) (nhopsM c) do_debug (event_fdM c) c.
Definition swicol_set_umask c buf : SWICOL :=
  put_opts (setvxM c) (Some buf) (targetpathM c) (delaytimeM c) (nhopsM c) (debug_task_scriptsM c) (event_fdM c) c.
Definition swicol_set_setvx c buf : SWICOL :=
  put_opts (Some buf) (umaskM c) (targetpathM c) (delaytimeM c) (nhopsM c) (debug_task_scriptsM c) (event_fdM c) c.
Definition swicol_set_targetpath c buf : SWICOL :=
  put_opts (setvxM c) (umaskM c) (Some buf) (delaytimeM c) (nhopsM c) (debug_task_scriptsM c) (event_fdM c) c.
Definition swicol_get_umask c : option bytes := umaskM c.
Definition swicol_get_setvxk c : option bytes := setvxM c.
Definition swicol_get_blocksize c : option bytes := blocksizeM c.
Definition swicol_set_master_alarm c : SWICOL := put_alarm SWICOL_ABORT_STEP_1 c.
Definition swicol_clear_master_alarm c : SWICOL := put_alarm 0 c.
Definition swicol_get_master_alarm_status c : Z := master_alarmM c.
Definition swicol_initiate_fall_thru c : Z := 0.
End Fields.

(** ** The list of events *)

Definition set_selected_index (c : SWICOL) (first_current_event : Z) : Z :=
  if first_current_event <? 0 then event_indexM c else first_current_event.

(** The lines of the text, and whatever is behind the last newline is left. *)
Fixpoint split_lines (fuel : nat) (s : bytes) : list bytes :=
  match fuel with
  | O => []
  | S fuel => match strchr s newline with
              | None => []
              | Some i => take i s :: split_lines fuel (drop (S i) s)
              end
  end.

(** The list with the events of the text and a separator, and where they begin. *)
Definition convert_result_to_event_list (event_string : bytes) (event_list : list bytes) : list bytes * Z :=
  (event_list ++ split_lines (S (length event_string)) event_string ++ [nl], zlen event_list).

Definition list_get (l : list bytes) (i : Z) : option bytes := if i <? 0 then None else l !! Z.to_nat i.

(** while (s): the message, and the index where the search ended. *)
Fixpoint find_event (fuel : nat) (event_list : list bytes) (number : bytes) (ix : Z) : option bytes * Z :=
  match fuel with
  | O => (None, ix)
  | S fuel =>
    match list_get event_list ix with
    | None => (None, ix)
    | Some s =>
        match strstr s number with
        | Some _ => ((fun i => drop (S i) s) <$> strchr s ":"%char, ix)
        | None => find_event fuel event_list number (ix + 1)
        end
    end
  end.

(** The message and *p_index. *)
Definition swicol_rpsh_get_event_message (c : SWICOL) (event_value first_current_event : Z) : option bytes * Z :=
  find_event (S (length (event_listM c))) (event_listM c) (print_d event_value ++ L ":")
    (set_selected_index c first_current_event).

Definition event_message_status (msg : option bytes) : Z :=
  match msg with
  | None => -1
  | Some m =>
      if match m with d :: _ => isdigit d | [] => false end
      then let '(retval, atoi_ret, _) := swlib_atoi2 m in
           if negb (atoi_ret =? 0) then SW_INTERNAL_ERROR_127 else retval
      else if streq m (SWEVENT_STATUS_PFX ++ SWEVENT_VALUE_PREVIEW) then 0
      else SW_INTERNAL_ERROR_128
  end.

(** [msg] is NULL where the message is looked up. *)
Definition swicol_rpsh_get_event_status (c : SWICOL) (msg : option bytes) (event_value first_current_event : Z) : Z :=
  event_message_status
    (match msg with
     | Some _ => msg
     | None => fst (swicol_rpsh_get_event_message c event_value first_current_event)
     end).

Section Printing.
Context (swlib_utilname_get : bytes).

Definition swicol_print_event (buf ev : bytes) : bytes :=
  buf ++ swlib_utilname_get ++ L ": swicol: " ++ ev ++ nl.

(** The events from [i] on; with a negative index up to the first separator. *)
Fixpoint print_events_loop (evs : list bytes) (index : Z) (buf : bytes) : bytes :=
  match evs with
  | [] => buf
  | ev :: evs =>
      let sep := streq ev nl in
      let buf := swicol_print_event buf (if sep then [] else ev) in
      if sep && (index <? 0) then buf else print_events_loop evs index buf
  end.

Definition swicol_print_events (c : SWICOL) (index : Z) : bytes :=
  let i := set_selected_index c index in
  let evs := if i <? 0 then [] else drop (Z.to_nat i) (event_listM c) in
  print_events_loop evs index (swlib_utilname_get ++ L ": swicol: event stack start" ++ nl)
  ++ swlib_utilname_get ++ L ": swicol: event stack end" ++ nl.
End Printing.

(** ** Waiting for an event *)

Record colstate (W : Type) := mkCol { swicol : SWICOL; evpool : pool; chan : W }.
Arguments mkCol {W}. Arguments swicol {W}. Arguments evpool {W}. Arguments chan {W}.

Section Tasks.
Context {W : Type} `{Channel W}.
Implicit Types (s : colstate W).

Definition put_swicol (c : SWICOL) s := mkCol c (evpool s) (chan s).
Definition put_pool (p : pool) s := mkCol (swicol s) p (chan s).
Definition call {A} (f : W -> W * A) : ST (colstate W) A := fun s =>
  let '(w, a) := f (chan s) in Some (Done (mkCol (swicol s) (evpool s) w) a).
Definition alarm : ST (colstate W) Z := gets (fun s => master_alarmM (swicol s)).
Definition change (f : SWICOL -> SWICOL) : ST (colstate W) () := modify (fun s => put_swicol (f (swicol s)) s).

(** swgp_read_line (swgp.c): the text and the count, or -1. *)
Fixpoint read_line_loop (fuel : nat) (fd : Z) (buf : bytes) (count : Z) : ST (colstate W) (bytes * Z) :=
  match fuel with
  | O => out_of_fuel
  | S fuel =>
      let! b := call (read_byte fd) in
      match b with
      | Byte c => if ceq c newline then ret (buf ++ nl, count + 1)
                  else read_line_loop fuel fd (buf ++ (if is_nul c then [] else [c])) (count + 1)
      | AtEnd => ret (buf, count)
      | ReadError => ret (buf, -1)
      end
  end.

(** swgpReadLine: doExhaustFd_i with read_pipe and read_line. The result is the
    text of the buffer, as it was when nothing is read, and what select says. *)
Definition swgpReadLine (fuel : nat) (buf : bytes) (fd_from : Z) : ST (colstate W) (bytes * Z) :=
  let! r := call (select fd_from) in
  match r with
  | SelNothing => ret (buf, 0)
  | SelError => ret (buf, -1)
  | SelReady n exception readable =>
      if exception then ret (buf, -1)
      else if readable && (fd_from >? 0)
      then let! (t, _) := read_line_loop fuel fd_from [] 0 in ret (t, n)
      else ret (buf, n)
  end.

(** The variables of the loop. *)
Record waiting := mkWait {
  w_buf : bytes; w_retbuf : bytes; w_now : Z; w_alarm_start : Z; w_alarm_monitor : bool;
  w_cret : Z; w_do_stop : bool; w_retval : Z;
}.

(** What a line that has the stop string means: do_stop and retval. *)
Definition stop_answer (from_stop : bytes) : option Z :=
  if (zlen from_stop =? 6) && bool_decide (from_stop !! 5%nat = Some newline) then Some 0
  else if bool_decide (is_Some (strstr from_stop SWICOL_START_STRING)) && bool_decide (last from_stop = Some newline)
  then Some 0
  else if (zlen from_stop >? 8) && bool_decide (is_Some (strstr from_stop SWICOL_STOP_STRING)) then Some 1
  else None.

Definition watch_line (stop_string : bytes) (ret : Z) (v : waiting) : waiting :=
  let answer := match strstr (w_buf v) stop_string with
                | Some i => stop_answer (drop i (w_buf v))
                | None => None
                end in
  mkWait (w_buf v) (if negb (ret =? 0) then w_retbuf v ++ w_buf v else w_retbuf v) (w_now v)
    (w_alarm_start v) (w_alarm_monitor v) (if w_cret v =? 0 then ret else w_cret v)
    (match answer with Some _ => true | None => w_do_stop v end)
    (match answer with Some a => a | None => w_retval v end).

(** One round: sleep, look at the clock and the alarm, read a line. *)
Definition wait_round (line_fuel : nat) (event_fd : Z) (stop_string : bytes) (v : waiting) : ST (colstate W) waiting :=
  let! rang := call nanosleep in
  do! when rang (change swicol_set_master_alarm) in
  let! now := call time in
  let! a := alarm in
  let! (astart, monitor) :=
    (if negb (a =? 0)
     then let! astart := (if w_alarm_start v =? 0 then call time else ret (w_alarm_start v)) in
          ret (astart, if now - astart >? 1 then true else w_alarm_monitor v)
     else ret (w_alarm_start v, w_alarm_monitor v)) in
  let! (buf, n) := swgpReadLine line_fuel (w_buf v) event_fd in
  ret (watch_line stop_string n (mkWait buf (w_retbuf v) now astart monitor (w_cret v) (w_do_stop v) (w_retval v))).

Definition waits_on (start timelimit : Z) (v : waiting) : bool :=
  negb (w_alarm_monitor v)
  && ((w_cret v =? 0) || (negb (w_do_stop v) && (to_int (w_now v - start) <? timelimit))).

Fixpoint wait_loop (fuel line_fuel : nat) (event_fd start timelimit : Z) (stop_string : bytes) (v : waiting)
    : ST (colstate W) waiting :=
  match fuel with
  | O => out_of_fuel
  | S fuel =>
      if waits_on start timelimit v
      then let! v := wait_round line_fuel event_fd stop_string v in
           wait_loop fuel line_fuel event_fd start timelimit stop_string v
      else ret v
  end.

(** The text that came and the result. *)
Definition task_wait_for (fuel line_fuel : nat) (event_fd timelimit : Z) (stop_string : bytes)
    : ST (colstate W) (bytes * Z) :=
  let! start := call time in
  let! _ := call time in
  let! v := wait_loop fuel line_fuel event_fd start timelimit stop_string (mkWait [] [] start 0 false 0 false (-1)) in
  let! a := alarm in
  ret (w_retbuf v,
       if negb (w_do_stop v) && (a =? 0) then 2
       else if w_alarm_monitor v || negb (a =? 0) then 2 else w_retval v).

Section Waiting.
Context (fuel line_fuel : nat).

Definition swicol_rpsh_task_wait (event_fd timelimit : Z) : ST (colstate W) (bytes * Z) :=
  task_wait_for fuel line_fuel event_fd timelimit SWICOL_STOP_STRING.

Definition swicol_rpsh_wait_304 (event_fd : Z) : ST (colstate W) Z :=
  let! (_, r) := task_wait_for fuel line_fuel event_fd SWICOL_TL_9 SWICOL_START_STRING in ret r.

Definition swicol_rpsh_wait_for_event (event_fd event : Z) : ST (colstate W) Z :=
  let! (_, r) := task_wait_for fuel line_fuel event_fd SWICOL_TL_10 (print_d event ++ L ":") in ret r.

(** The events of the text go to the list; the index is where they begin. *)
Definition keep_events (buf : bytes) : ST (colstate W) Z :=
  let! c := gets swicol in
  let '(l, first) := convert_result_to_event_list buf (event_listM c) in
  do! change (put_events l) in ret first.

Definition swicol_rpsh_wait_cts (event_fd : Z) : ST (colstate W) Z :=
  let! (buf, r) := task_wait_for fuel line_fuel event_fd SWICOL_TL_20 SWICOL_CTS_STRING in
  let! first := keep_events buf in
  do! change (put_index first) in ret r.

Section Expecting.
Context (swlib_utilname_get : bytes).

(** 1 when the text was not written as a whole. *)
Definition swicol_show_events_to_fd (fd first_current_event : Z) : ST (colstate W) Z :=
  let! c := gets swicol in
  let ix := if first_current_event <? 0 then event_indexM c else first_current_event in
  let t := swicol_print_events swlib_utilname_get c ix in
  do! change (put_tmp t) in
  let! r := call (write_all fd t) in
  ret (if r =? zlen t then 0 else 1).

(** What the text says about the end of the task. *)
Definition end_status (buf : bytes) (retval : Z) : Z :=
  match strstr buf SWICOL_STOP_STRING with
  | None => if retval =? 0 then -1 else retval
  | Some i => let ev := drop (i + 4) buf in
              if match ev with d :: _ => isdigit d | [] => false end
              then fst (fst (swlib_atoi2 ev)) else -2
  end.

Definition swicol_rpsh_task_expect (event_fd timelimit : Z) : ST (colstate W) Z :=
  do! change (put_index (-1)) in
  let! (buf, r) := swicol_rpsh_task_wait event_fd timelimit in
  let retval := end_status buf (if negb (r =? 0) then -4 else 0) in
  let! first := keep_events buf in
  let! v := gets (fun s => verbose_levelM (swicol s)) in
  do! (if v >=? SWC_VERBOSE_8
       then let! _ := swicol_show_events_to_fd STDERR_FILENO first in ret () else ret ()) in
  do! change (put_index first) in
  ret retval.
End Expecting.
End Waiting.

(** ** Sending a script *)

Definition SWLIB_SYNCT_BLOCKSIZE : Z := 128.

(** Blanks and newlines that the shell text is indented with. *)
Definition tab : bytes := ["009"%char].
Definition quoted (t : bytes) : bytes := double_quote :: t ++ [double_quote].

Definition swlib_append_synct_eof (buf : bytes) : bytes :=
  let n k := print_d (SWLIB_SYNCT_BLOCKSIZE * k) in
  buf ++ L ") | dd ibs=" ++ n 3 ++ L " obs=" ++ n 3 ++ L " 2>/dev/null | dd ibs=" ++ n 2 ++ L " obs=" ++ n 2
  ++ L " conv=sync 2>/dev/null |" ++ nl
  ++ tab ++ L "(" ++ nl
  ++ tab ++ tab ++ L "dd bs=" ++ n 2 ++ L " 2>/dev/null" ++ nl
  ++ tab ++ tab ++ L "( printf " ++ quoted (SWICOL_TRAILER ++ L "\r\n\r\n") ++ nl
  ++ tab ++ tab ++ L ") | dd ibs=" ++ n 2 ++ L " obs=" ++ n 2 ++ L " conv=sync 2>/dev/null" ++ nl
  ++ tab ++ L ")" ++ nl
  ++ L ") | dd ibs=" ++ n 2 ++ L " obs=" ++ n 2 ++ L " conv=sync 2>/dev/null" ++ nl.

(** What must not be in the name of a directory. *)
Definition SWBIS_TAINTED_CHARS : bytes := "'"%char :: double_quote :: L "|*?;&<>`$[]".
Definition dir_tainted : bytes :=
  SWBIS_TAINTED_CHARS ++ ["007"; "008"; "010"; "013"; "009"; " "; "011"; "\"]%char.

Section Sending.
(** The name of the utility, s_verboseM, and the comment of CSHID. *)
Context (swlib_utilname_get : bytes) (s_verboseM : Z) (CSHID : bytes).

(** One command that reports an event: the text of its pool object. *)
Definition tevent (code : Z) (arg : bytes) : ST (colstate W) bytes := fun s =>
  '(p, e) ← TEVENT swlib_utilname_get s_verboseM (evpool s) 2 (-1) code arg;
  t ← echoed_text p e;
  Some (Done (put_pool p s) t).

(** The 512 byte blocks of the data, counted in an int. *)
Definition task_blocks (size : Z) : Z :=
  let blocks := to_size (to_int (size / 512)) in
  if negb (size mod 512 =? 0) then to_size (blocks + 1) else blocks.

Definition script_text (ablocks tonullstring begins dir verbosestring eof eof2 no_dir task_script task_desc ends : bytes)
    : bytes :=
  L "{" ++ nl
  ++ L "dd bs=512 count=" ++ ablocks ++ L " " ++ tonullstring ++ L " | (" ++ nl
  ++ L "# trap true 1 2 13 14 15" ++ nl
  ++ CSHID
  ++ begins ++ nl
  ++ L "swxdir=" ++ quoted dir ++ nl
  ++ L "cd " ++ quoted (L "$swxdir") ++ nl
  ++ L "swret=$?; export swret" ++ nl
  ++ verbosestring ++ nl
  ++ tab ++ L "case $swret in" ++ nl
  ++ tab ++ tab ++ L "0)" ++ nl
  ++ L " " ++ tab ++ tab ++ tab ++ L ";;" ++ nl
  ++ tab ++ tab ++ L "*)" ++ nl
  ++ tab ++ tab ++ tab ++ eof ++ nl
  ++ tab ++ tab ++ tab ++ L "dd count=" ++ ablocks ++ L " of=/dev/null 2>/dev/null" ++ nl
  ++ tab ++ tab ++ tab ++ eof2 ++ nl
  ++ tab ++ tab ++ tab ++ no_dir ++ nl
  ++ tab ++ tab ++ tab ++ L "exit " ++ quoted (L "$swret") ++ nl
  ++ tab ++ tab ++ tab ++ L ";;" ++ nl
  ++ tab ++ L "esac" ++ nl
  ++ task_script
  ++ L "case " ++ quoted (L "$sw_retval") ++ L " in" ++ nl
  ++ tab ++ quoted [] ++ L ") echo " ++ quoted (swlib_utilname_get ++ L ":")
  ++ L " Warning: sw_retval is not set for task script: " ++ task_desc ++ L " 1>&2" ++ nl
  ++ tab ++ tab ++ L "sw_retval=0" ++ nl
  ++ tab ++ tab ++ L ";;" ++ nl
  ++ L "esac" ++ nl
  ++ L "exit " ++ quoted (L "$sw_retval") ++ nl
  ++ L "); sw_retval=$?" ++ nl
  ++ ends ++ nl
  ++ L "exit $sw_retval" ++ nl
  ++ L "}" ++ nl.

(** The text of the command, None where the directory is refused. The pool
    objects of the events are taken from left to right. *)
Definition print_task_script (size : Z) (dir task_script task_desc : bytes) : ST (colstate W) (option bytes) :=
  let! c := gets swicol in
  if negb (swlib_is_ascii_noaccept (Some dir) dir_tainted 1 =? 0) then ret None
  else
    let verbosestring := if verbose_levelM c >? SWC_VERBOSE_8 then L "set -vx" else L "#set -vx" in
    let tonullstring := if verbose_levelM c >=? SWC_VERBOSE_5 then L " " else L "2>/dev/null" in
    let synct := negb (needs_synct_eoaM c =? 0) in
    let eof := if synct then L "(" ++ nl ++ L "(" ++ nl else [] in
    let eof2 := if synct then swlib_append_synct_eof [] else [] in
    let enddesc := task_desc ++ L ": " ++ SWEVENT_STATUS_PFX ++ L "$sw_retval" in
    let ablocks := decimal (task_blocks size) in
    let! begins := tevent SWI_TASK_BEGINS task_desc in
    let! no_dir := tevent SW_INTERNAL_ERROR (L "No such directory or no access: $swxdir") in
    let! ends := tevent SWI_TASK_ENDS enddesc in
    ret (Some (script_text ablocks tonullstring begins dir verbosestring eof eof2 no_dir task_script task_desc ends)).

Definition swicol_rpsh_task_send_script (fd data_size : Z) (dir script desc : bytes) : ST (colstate W) Z :=
  do! change (put_script []) in
  let! t := print_task_script data_size dir script desc in
  match t with
  | None => ret (-2)
  | Some t =>
      do! change (put_script t) in
      let! r := call (write_all fd t) in
      ret (if r =? zlen t then 0 else -1)
  end.

(** ' ' becomes '_', and the name ends at the first ':'. *)
Fixpoint form_debug_task_filename (buf : bytes) : bytes :=
  match buf with
  | [] => []
  | c :: r => if ceq c ":"%char then [] else (if ceq c " "%char then "_"%char else c) :: form_debug_task_filename r
  end.

Definition swicol_write_debug_task_script (script : bytes) : ST (colstate W) () :=
  let! id := gets (fun s => id_stringM (swicol s)) in
  let! _ := call (save_file (form_debug_task_filename (SWICOL_DEBUG_TASK_SCRIPT_PREFIX ++ id)) script) in
  ret ().

(** A task whose description is wrong makes the main script on the host abort. *)
Definition swicol_rpsh_task_send_script2 (fuel line_fuel : nat) (fd data_size : Z) (dir script f_desc : bytes)
    : ST (colstate W) Z :=
  let! a := alarm in
  if a =? SWICOL_ABORT_STEP_2 then ret (-1)
  else
    let abort := a =? SWICOL_ABORT_STEP_1 in
    do! when abort (change (put_alarm SWICOL_ABORT_STEP_2)) in
    let desc := if abort then SWICOL_ALARM_EVENT else f_desc in
    let! c := gets swicol in
    let t := magic_headerM c ++ L "# SWI_TASK: " ++ desc ++ nl ++ nl in
    do! change (put_script t) in
    let! r := call (write_all fd t) in
    if negb (r =? zlen t) then ret (-1)
    else
      do! change (fun c => swicol_set_task_idstring c f_desc) in
      let! rc := swicol_rpsh_task_send_script fd data_size dir script desc in
      let! c := gets swicol in
      do! when (negb (debug_task_scriptsM c =? 0)) (swicol_write_debug_task_script (scriptM c)) in
      do! (if event_fdM c >=? 0
           then let! _ := swicol_rpsh_wait_304 fuel line_fuel (event_fdM c) in ret () else ret ()) in
      let! a := alarm in
      ret (if negb (a =? 0) && (rc =? 0) then -1 else rc).

Definition swicol_send_loop_trailer (fd : Z) : ST (colstate W) Z :=
  let send := SWICOL_TRAILER ++ nl in
  let! r := call (write_all fd send) in
  ret (if r =? zlen send then 0 else -1).
End Sending.
End Tasks.
