(* ===== verification/EventsSpec.v ===== *)
(** * Events: what the lines of a script become

    A line that reports an event of a task is handed on as its number and its
    status, or its number and its message; whatever the texts around the code
    are, the code that is found is the one the script named. The second half is
    about EventLog.v: the scripts write lines, what is read is pieces that begin
    and end anywhere, and the same lines go to the tasks, to the terminal and to
    the log. *)

From S2P Require Import Prelude CString Strob Decimals PaxHeader PaxHeaderSpec Pathname PathSpec Swuts Events EventLog.

(** ** The table *)

Lemma table_all (p : swEvents -> bool) : forallb p eventsArray = true -> forall e, e ∈ eventsArray -> p e = true.
Proof. intros H e He. rewrite forallb_forall in H. apply H. by apply list_elem_of_In. Qed.

#[local] Instance swEvents_eq_dec : EqDecision swEvents.
Proof. solve_decision. Defined.

(** Every entry is found under its value, and under its code. *)
Lemma value_finds_entry e : e ∈ eventsArray -> get_struct_by_value (valueM e) eventsArray = Some e.
Proof.
  intros He. apply (table_all (fun e => bool_decide (get_struct_by_value (valueM e) eventsArray = Some e))) in He.
  - by apply bool_decide_eq_true in He.
  - by vm_compute.
Qed.

Lemma code_finds_entry e : e ∈ eventsArray -> find (fun x => streq (codeM x) (codeM e)) eventsArray = Some e.
Proof.
  intros He. apply (table_all (fun e => bool_decide (find (fun x => streq (codeM x) (codeM e)) eventsArray = Some e))) in He.
  - by apply bool_decide_eq_true in He.
  - by vm_compute.
Qed.

(** A code is a word of capitals that begins with SW. *)
Definition code_char (c : ascii) : bool := isupper c || ceq c "_"%char.
Definition code_shape (e : swEvents) : bool :=
  is_prefix (L "SW") (codeM e) && forallb code_char (codeM e) && (zlen (codeM e) <=? 34).

Lemma code_of_table e : e ∈ eventsArray -> codeM e <> [] ->
  (exists r, codeM e = L "SW" ++ r) /\ Forall (fun c => code_char c = true) (codeM e) /\ zlen (codeM e) <= 34.
Proof.
  intros He Hne. apply (table_all (fun e => (zlen (codeM e) =? 0) || code_shape e)) in He; [|by vm_compute].
  apply orb_true_iff in He as [He|He].
  - apply Z.eqb_eq in He. destruct (codeM e); [done|]. rewrite zlen_cons in He. pose proof (zlen_nonneg l). lia.
  - unfold code_shape in He. apply andb_true_iff in He as [[H1 H2]%andb_true_iff H3%Z.leb_le].
    apply is_prefix_spec in H1. split_and!; [done| |done].
    apply Forall_forall. intros c Hc. rewrite forallb_forall in H2. apply H2. by apply list_elem_of_In.
Qed.

(** ** Occurrences in a text with separators *)

Lemma prefix_before_sep n a (b : bytes) c : ~ c ∈ n -> is_prefix n (a ++ c :: b) = is_prefix n a.
Proof.
  revert a. induction n as [|x n IH]; intros a Hc; [done|].
  apply not_elem_of_cons in Hc as [Hx Hn]. destruct a as [|y a]; cbn.
  - apply andb_false_iff. left. apply ceq_neq. congruence.
  - by rewrite IH.
Qed.

Lemma strstr_sep n a c b : ~ c ∈ n -> n <> [] ->
  strstr (a ++ c :: b) n =
  match strstr a n with Some i => Some i | None => (fun i => (S (length a) + i)%nat) <$> strstr b n end.
Proof.
  intros Hc Hn. induction a as [|x a IH].
  - cbn [app]. destruct n as [|y n]; [done|].
    cbn [strstr]. assert (is_prefix (y :: n) (c :: b) = false) as ->.
    { cbn. apply andb_false_iff. left. apply ceq_neq. intros ->. apply Hc. apply list_elem_of_here. }
    cbn. by destruct (strstr b (y :: n)).
  - pose proof (prefix_before_sep n (x :: a) b c Hc) as Hp.
    cbn [app strstr] in *. rewrite Hp. destruct (is_prefix n (x :: a)); [done|]. rewrite IH.
    destruct (strstr a n); [done|]. by destruct (strstr b n).
Qed.

Lemma strstr_sep_none n a c b : ~ c ∈ n -> n <> [] -> strstr a n = None -> strstr b n = None ->
  strstr (a ++ c :: b) n = None.
Proof. intros Hc Hn Ha Hb. by rewrite strstr_sep, Ha, Hb. Qed.

(** What does not have the beginning of a word does not have the word. *)
Lemma strstr_longer s n m : strstr s n = None -> strstr s (n ++ m) = None.
Proof.
  intros Hn. apply strstr_None_intro. intros pre post ->.
  apply (strstr_None_app _ n pre (m ++ post)) in Hn; [done|]. by rewrite <- app_assoc.
Qed.

Lemma strstr_nil n : n <> [] -> strstr [] n = None.
Proof. intros H. destruct n; done. Qed.

(** A text without SW. *)
Definition quiet (s : bytes) : Prop := strstr s (L "SW") = None.

Lemma quiet_code s e : quiet s -> e ∈ eventsArray -> codeM e <> [] -> strstr s (codeM e) = None.
Proof. intros Hq He Hne. destruct (code_of_table e He Hne) as [[r ->] _]. by apply strstr_longer. Qed.

(** ** A line that reports an event *)

(** [rest] is where it happened, [msg] what is behind the last words. *)
Definition report (util code rest msg : bytes) : bytes :=
  util ++ ":"%char :: " "%char :: code ++ " "%char :: rest ++ ":"%char :: " "%char :: msg.

(** The texts around the code: none of them has SW in it, the name of the
    utility is in a buffer of 30 bytes and has no colon. *)
Record quiet_report (util rest msg : bytes) : Prop := {
  qr_util : quiet util; qr_rest : quiet rest; qr_msg : quiet msg;
  qr_len : zlen util <= 29; qr_colon : ~ ":"%char ∈ util;
}.

(** The events the tasks wait for. *)
Definition task_event (e : swEvents) : Prop := e ∈ eventsArray /\ is_swi_eventM e = true.

Lemma task_code e : task_event e -> codeM e <> [].
Proof.
  intros [He Hs]. apply (table_all (fun e => negb (is_swi_eventM e) || negb (zlen (codeM e) =? 0))) in He; [|by vm_compute].
  rewrite Hs in He. cbn in He. intros E. by rewrite E in He.
Qed.

Lemma code_no_sep e c : e ∈ eventsArray -> codeM e <> [] -> code_char c = false -> ~ c ∈ codeM e.
Proof.
  intros He Hne Hc H. destruct (code_of_table e He Hne) as (_ & HF & _).
  rewrite Forall_forall in HF. apply HF in H. congruence.
Qed.

(** In the report a code is where the code of the event has it. *)
Lemma report_has util rest msg e e' : quiet_report util rest msg ->
  e' ∈ eventsArray -> codeM e' <> [] ->
  is_Some (strstr (report util (codeM e) rest msg) (codeM e')) <-> is_Some (strstr (codeM e) (codeM e')).
Proof.
  intros [Hu Hr Hm _ _] He' Hne. unfold report.
  assert (Hno : forall c, code_char c = false -> ~ c ∈ codeM e') by (intros; by apply code_no_sep).
  rewrite strstr_sep by (done || by apply Hno). rewrite (quiet_code util e') by done.
  change (" "%char :: codeM e ++ " "%char :: rest ++ ":"%char :: " "%char :: msg)
    with ([] ++ " "%char :: codeM e ++ " "%char :: rest ++ ":"%char :: " "%char :: msg).
  rewrite strstr_sep, strstr_nil by (done || by apply Hno).
  rewrite strstr_sep by (done || by apply Hno).
  rewrite (strstr_sep_none (codeM e') rest) by (done || (by apply Hno) || (by apply quiet_code) ||
    (apply (strstr_sep_none _ []); (done || (by apply Hno) || (by apply strstr_nil) || by apply quiet_code))).
  destruct (strstr (codeM e) (codeM e')); cbn; split; intros [x Hx]; (done || by eexists).
Qed.

Lemma find_ext {A} (f g : A -> bool) (l : list A) : (forall x, x ∈ l -> f x = g x) -> find f l = find g l.
Proof.
  induction l as [|x l IH]; intros H; [done|]. cbn. rewrite (H x) by apply list_elem_of_here.
  destruct (g x); [done|]. apply IH. intros y Hy. apply H. by apply list_elem_of_further.
Qed.

(** The value that is found is the one of the event. *)
Lemma report_value util rest msg e : quiet_report util rest msg -> task_event e ->
  swevent_get_value eventsArray (report util (codeM e) rest msg) = valueM e.
Proof.
  intros Hq [He Hs]. unfold swevent_get_value.
  rewrite (find_ext _ (fun x => negb (zlen (codeM x) =? 0) && bool_decide (is_Some (strstr (codeM e) (codeM x))))).
  - apply (table_all (fun e => negb (is_swi_eventM e) || (swevent_get_value eventsArray (codeM e) =? valueM e))) in He;
      [|by vm_compute]. rewrite Hs in He. by apply Z.eqb_eq in He.
  - intros x Hx. destruct (Z.eqb_spec (zlen (codeM x)) 0) as [E|E]; [done|]. cbn [negb andb].
    apply bool_decide_ext. apply report_has; [done..|]. intros Ec. by rewrite Ec in E.
Qed.

Lemma take_app_more {A} (l k : list A) n : (length l <= n)%nat -> take n (l ++ k) = l ++ take (n - length l) k.
Proof. intros H. by rewrite take_app, take_ge by done. Qed.

(** The word of the report is the code. *)
Lemma report_word util rest msg e : quiet_report util rest msg -> task_event e ->
  event_word (report util (codeM e) rest msg) = Some (codeM e).
Proof.
  intros [Hu _ _ Hlen _] He. pose proof (task_code e He) as Hne. destruct He as [He _].
  destruct (code_of_table e He Hne) as ([r Hr] & HF & Hl). unfold event_word, report.
  set (tail := rest ++ _). set (head := util ++ ":"%char :: " "%char :: codeM e ++ [" "%char]).
  replace (util ++ _) with (head ++ tail) by (subst head; by rewrite <- !app_assoc; cbn; rewrite <- app_assoc).
  rewrite take_app_more.
  2:{ subst head. unfold zlen in *. rewrite length_app. cbn. rewrite length_app. cbn. lia. }
  set (x := take _ tail). subst head.
  replace ((util ++ _) ++ x) with (util ++ ":"%char :: [] ++ " "%char :: (codeM e ++ " "%char :: x))
    by (rewrite <- !app_assoc; cbn; by rewrite <- app_assoc).
  assert (~ ":"%char ∈ L "SW" /\ ~ " "%char ∈ L "SW") as [N1 N2].
  { split; intros H; apply list_elem_of_In in H; by repeat destruct H as [?|H]. }
  rewrite (strstr_sep _ util) by done. rewrite Hu. rewrite (strstr_sep _ []) by done. rewrite strstr_nil by done.
  assert (strstr (codeM e ++ " "%char :: x) (L "SW") = Some O) as ->.
  { apply strstr_0. exists (r ++ " "%char :: x). by rewrite Hr, <- app_assoc. }
  cbn [fmap option_fmap option_map length].
  rewrite drop_app_ge by lia. replace (_ - length util)%nat with 2%nat by lia. cbn [drop app]. rewrite !drop_0.
  unfold strpbrk. rewrite find_index_app; [|eapply Forall_impl; [exact HF|]|done].
  - by rewrite take_app_length.
  - intros c Hc. cbv beta. unfold mem_char. apply not_true_iff_false. rewrite existsb_exists.
    intros (d & Hd & ->%ceq_eq). by repeat destruct Hd as [<-|Hd].
Qed.

Lemma report_entry util rest msg e : quiet_report util rest msg -> task_event e ->
  get_struct_by_message (report util (codeM e) rest msg) eventsArray = Some e.
Proof. intros Hq He. unfold get_struct_by_message. rewrite report_word by done. apply code_finds_entry, He. Qed.

Lemma has_infix pre n post : is_Some (strstr (pre ++ n ++ post) n).
Proof.
  destruct (strstr (pre ++ n ++ post) n) eqn:E; [by eexists|]. by apply (strstr_None_app _ n pre post) in E.
Qed.

Lemma report_names util rest msg e : task_event e -> names_event (report util (codeM e) rest msg) = true.
Proof.
  intros [He Hs]. unfold names_event.
  apply (table_all (fun e => negb (is_swi_eventM e) || is_prefix (L "SW_") (codeM e)
    || is_prefix (L "SWI_") (codeM e) || is_prefix (L "SWBIS_") (codeM e))) in He; [|by vm_compute].
  rewrite Hs in He. cbn [negb orb] in He.
  assert (Hin : forall k, is_prefix k (codeM e) = true ->
    is_Some (strstr (report util (codeM e) rest msg) (":"%char :: " "%char :: k))).
  { intros k [r Hr]%is_prefix_spec. unfold report. rewrite Hr, <- app_assoc.
    apply (has_infix util (":"%char :: " "%char :: k)). }
  apply orb_true_iff in He as [[He|He]%orb_true_iff|He]; rewrite !orb_true_iff, !bool_decide_eq_true.
  - left. left. by apply (Hin (L "SW_")).
  - left. right. by apply (Hin (L "SWI_")).
  - right. by apply (Hin (L "SWBIS_")).
Qed.

(** *** The message *)

(** The message begins behind the second colon, or behind the last one. *)
Definition message_at (line msg : bytes) : Prop :=
  exists s, message_colon line = Some s /\ drop (S s) line = " "%char :: msg.

Definition attribute_code : bytes := L "SWI_ATTRIBUTE".

Lemma task_not_attribute e : task_event e -> codeM e <> attribute_code -> strstr (codeM e) attribute_code = None.
Proof.
  intros [He Hs] Hne.
  apply (table_all (fun e => bool_decide (codeM e = attribute_code) || bool_decide (strstr (codeM e) attribute_code = None))) in He;
    [|by vm_compute].
  apply orb_true_iff in He as [He|He]; by apply bool_decide_eq_true in He.
Qed.

Lemma attribute_in_table : exists e, e ∈ eventsArray /\ codeM e = attribute_code /\ valueM e = 315 /\ is_swi_eventM e = true.
Proof.
  destruct (get_struct_by_value 315 eventsArray) as [e|] eqn:E; [|by vm_compute in E].
  exists e. pose proof E as E'. apply find_some in E' as [H1 H2]. split; [by apply list_elem_of_In|].
  vm_compute in E. injection E as <-. done.
Qed.

Lemma report_split util code rest msg :
  report util code rest msg = (util ++ ":"%char :: " "%char :: code ++ " "%char :: rest) ++ ":"%char :: " "%char :: msg.
Proof. unfold report. rewrite <- !app_assoc. cbn. by rewrite <- app_assoc. Qed.

Lemma not_colon c s : ~ c ∈ s -> Forall (fun d => ceq c d = false) s.
Proof. intros H. apply Forall_forall. intros d Hd. apply ceq_neq. by intros ->. Qed.

Lemma report_message util rest msg e : quiet_report util rest msg -> task_event e -> codeM e <> attribute_code ->
  ~ ":"%char ∈ msg -> message_at (report util (codeM e) rest msg) msg.
Proof.
  intros Hq He Hne Hm. unfold message_at, message_colon.
  destruct attribute_in_table as (a & Ha & Hc & _).
  assert (strstr (report util (codeM e) rest msg) (L "SWI_ATTRIBUTE") = None) as ->.
  { destruct (strstr _ (L "SWI_ATTRIBUTE")) as [i|] eqn:Ei; [|done].
    assert (is_Some (strstr (codeM e) (codeM a))) as [j Hj].
    { apply (report_has util rest msg e a Hq Ha); [by rewrite Hc|]. rewrite Hc. by exists i. }
    rewrite Hc, task_not_attribute in Hj by done. done. }
  exists (length (util ++ ":"%char :: " "%char :: codeM e ++ " "%char :: rest)). rewrite report_split. split.
  - rewrite (strrchr_app _ ":"%char (" "%char :: msg)); [done|]. apply not_colon. apply not_elem_of_cons. by split.
  - rewrite drop_app_ge by lia. by replace (_ - _)%nat with 1%nat by lia.
Qed.

Lemma attribute_message util rest msg : quiet_report util rest msg -> ~ ":"%char ∈ rest ->
  message_at (report util attribute_code rest msg) msg.
Proof.
  intros [_ _ _ _ Hu] Hr. unfold message_at, message_colon.
  destruct (has_infix (util ++ L ": ") (L "SWI_ATTRIBUTE") (" "%char :: rest ++ ":"%char :: " "%char :: msg)) as [i Hi].
  assert (report util attribute_code rest msg
    = (util ++ L ": ") ++ L "SWI_ATTRIBUTE" ++ " "%char :: rest ++ ":"%char :: " "%char :: msg) as E.
  { unfold report. by rewrite <- app_assoc. }
  rewrite E, Hi, <- E. unfold report. set (tl := " "%char :: attribute_code ++ _).
  assert (strchr (util ++ ":"%char :: tl) ":"%char = Some (length util)) as ->.
  { apply find_index_app; [by apply not_colon|done]. }
  rewrite drop_app_ge by lia. replace (S (length util) - length util)%nat with 1%nat by lia. cbn [drop].
  subst tl. rewrite !drop_0. set (mid := " "%char :: attribute_code ++ " "%char :: rest).
  assert (strchr (" "%char :: attribute_code ++ " "%char :: rest ++ ":"%char :: " "%char :: msg) ":"%char
    = Some (length mid)) as ->.
  { change (" "%char :: attribute_code ++ " "%char :: rest ++ ":"%char :: " "%char :: msg)
      with (mid ++ ":"%char :: " "%char :: msg).
    apply find_index_app; [|done]. apply not_colon. subst mid. rewrite not_elem_of_cons, not_elem_of_app, not_elem_of_cons.
    split_and!; try done. by apply (bool_decide_unpack _). }
  eexists. split; [done|].
  change (" "%char :: attribute_code ++ " "%char :: rest ++ ":"%char :: " "%char :: msg)
    with (mid ++ ":"%char :: " "%char :: msg).
  replace (util ++ ":"%char :: mid ++ ":"%char :: " "%char :: msg)
    with ((util ++ ":"%char :: mid) ++ ":"%char :: " "%char :: msg) by (by rewrite <- app_assoc).
  assert (length (util ++ ":"%char :: mid) = (S (length util) + length mid)%nat) as El by (rewrite length_app; cbn; lia).
  rewrite drop_app_ge by lia. by replace (_ - _)%nat with 1%nat by lia.
Qed.

(** ** What is handed on *)

(** A text in front of the message that has no status itself. *)
Definition no_status (s : bytes) : Prop := strstr s SWEVENT_STATUS_PFX = None.

Lemma code_no_status e : e ∈ eventsArray -> no_status (codeM e).
Proof.
  intros He. apply (table_all (fun e => bool_decide (strstr (codeM e) SWEVENT_STATUS_PFX = None))) in He; [|by vm_compute].
  by apply bool_decide_eq_true in He.
Qed.

(** Where the status is in the report. *)
Lemma report_status_at util rest msg e : e ∈ eventsArray -> no_status util -> no_status rest ->
  exists pre, report util (codeM e) rest msg = pre ++ " "%char :: msg
    /\ strstr (report util (codeM e) rest msg) SWEVENT_STATUS_PFX
       = (fun i => (S (length pre) + i)%nat) <$> strstr msg SWEVENT_STATUS_PFX.
Proof.
  intros He Hu Hr.
  assert (~ ":"%char ∈ SWEVENT_STATUS_PFX /\ ~ " "%char ∈ SWEVENT_STATUS_PFX) as [N1 N2].
  { split; intros H; apply list_elem_of_In in H; by repeat destruct H as [?|H]. }
  exists ((util ++ ":"%char :: " "%char :: codeM e ++ " "%char :: rest) ++ [":"%char]).
  assert (report util (codeM e) rest msg
    = ((util ++ ":"%char :: " "%char :: codeM e ++ " "%char :: rest) ++ [":"%char]) ++ " "%char :: msg) as E
    by (rewrite report_split; by rewrite <- (app_assoc _ [_])).
  rewrite E. split; [done|]. rewrite strstr_sep by done.
  assert (strstr ((util ++ ":"%char :: " "%char :: codeM e ++ " "%char :: rest) ++ [":"%char]) SWEVENT_STATUS_PFX = None) as ->; [|done].
  apply strstr_sep_none; [done..| |done]. apply strstr_sep_none; [done..|].
  apply (strstr_sep_none _ []); [done..|]. apply strstr_sep_none; [done|done|by apply code_no_status|done].
Qed.

Lemma skip_no_space s : (forall r, s <> " "%char :: r) -> skip_spaces (" "%char :: s) = s.
Proof.
  intros Hs. cbn. destruct s as [|c s]; [done|]. cbn. destruct (ceq c " "%char) eqn:E; [|done].
  apply ceq_eq in E as ->. by destruct (Hs s).
Qed.

(** A report is read as its status and its message. *)
Lemma report_read util rest msg e : quiet_report util rest msg -> task_event e ->
  no_status util -> no_status rest -> message_at (report util (codeM e) rest msg) msg -> (forall r, msg <> " "%char :: r) ->
  get_event_status (report util (codeM e) rest msg)
  = (0, match strstr msg SWEVENT_STATUS_PFX with
        | Some i => atoi (drop (i + length SWEVENT_STATUS_PFX) msg) | None => 0 end, Some msg).
Proof.
  intros Hq He Hu Hr (s & Hs & Hd) Hb. unfold get_event_status.
  rewrite report_names, Hs by done. unfold swevent_is_error, line_status. rewrite report_entry by done.
  destruct (report_status_at util rest msg e) as (pre & E & Hst); [apply He|done..|]. rewrite Hst.
  cbn [fmap option_fmap option_map]. rewrite Hd, skip_no_space by done.
  destruct (strstr msg SWEVENT_STATUS_PFX) as [i|]; cbn [fmap option_fmap option_map].
  - assert (drop (S (length pre) + i + length SWEVENT_STATUS_PFX) (report util (codeM e) rest msg)
      = drop (i + length SWEVENT_STATUS_PFX) msg) as ->.
    { rewrite E, drop_app_ge by (unfold SWEVENT_STATUS_PFX; cbn; lia).
      replace (_ - length pre)%nat with (S (i + length SWEVENT_STATUS_PFX)) by lia. done. }
    by destruct (_ || _ || _).
  - by destruct (_ || _ || _).
Qed.

Lemma atoi_decimal d : 0 <= d <= INT_MAX -> atoi (decimal d ++ nl) = d.
Proof.
  intros Hd. unfold atoi, strtol. rewrite scan_number_decimal by (done || (unfold INT_MAX in Hd; lia)). cbn [fst].
  unfold INT_MAX, LONG_MAX, LONG_MIN in *. rewrite Z.min_r, Z.max_r by lia. apply to_int_id. unfold INT_MAX. lia.
Qed.

(** A report that ends with a status gives the line of the number and the status. *)
Lemma status_text e d : 0 <= d ->
  rpsh_event_text (valueM e) d (Some (SWEVENT_STATUS_PFX ++ decimal d ++ nl))
  = Some (print_d (valueM e) ++ L ":" ++ decimal d ++ nl).
Proof.
  intros Hd. unfold rpsh_event_text. rewrite bool_decide_eq_true_2 by (apply strstr_0; by eexists).
  unfold print_d at 2. by rewrite (proj2 (Z.ltb_ge d 0)) by lia.
Qed.

Lemma print_d_no_nul n : no_nul (print_d n).
Proof.
  unfold print_d. destruct (n <? 0); [|apply decimal_no_nul]. apply no_nul_cons. split; [done|apply decimal_no_nul].
Qed.

(** Any other message is handed on without its end of line. *)
Lemma message_text e body : no_nul body -> strstr (body ++ nl) SWEVENT_STATUS_PFX <> Some O ->
  rpsh_event_text (valueM e) 0 (Some (body ++ nl)) = Some (print_d (valueM e) ++ L ":" ++ body ++ nl).
Proof.
  intros Hn Hp. unfold rpsh_event_text. rewrite bool_decide_eq_false_2 by done.
  set (t := print_d (valueM e) ++ L ":" ++ body).
  replace (print_d (valueM e) ++ L ":" ++ (body ++ nl) ++ [NUL]) with ((t ++ nl) ++ [NUL]) by (subst t; by rewrite <- !app_assoc).
  assert (no_nul (t ++ nl)) as Ht.
  { subst t. rewrite !no_nul_app. split_and!; [apply print_d_no_nul|by apply (bool_decide_unpack _)|done|by apply (bool_decide_unpack _)]. }
  apply text_holds_buffer in Ht. unfold swlib_squash_trailing_vnewline.
  destruct (squash_trailing_char_spec _ _ "013"%char 0 Ht) as (m1 & r1 & -> & E1 & _); [lia|]. obind.
  assert (chop "013"%char 0 (t ++ nl) = t ++ nl) as Hc1.
  { unfold chop, nl. rewrite ends_with_snoc. cbn. by rewrite andb_false_r. }
  rewrite Hc1 in E1. destruct (squash_trailing_char_spec _ _ "010"%char 0 (ed_holds _ _ _ _ E1)) as (m2 & r2 & -> & E2 & _); [lia|].
  obind. assert (chop "010"%char 0 (t ++ nl) = t) as Hc2 by (apply chop_snoc, zlen_nonneg). rewrite Hc2 in E2.
  rewrite (proj2 (str_at_0_holds m2 t) (ed_holds _ _ _ _ E2)). obind. subst t. by rewrite <- !app_assoc.
Qed.

(** ** Reports of a status and of an attribute *)

Lemma quiet_no_S s : ~ "S"%char ∈ s -> quiet s.
Proof.
  intros H. apply strstr_None_intro. intros pre post ->. apply H. apply elem_of_app. right. apply list_elem_of_here.
Qed.

Lemma digits_without c n : isdigit c = false -> ~ c ∈ decimal n.
Proof.
  intros Hc H. rewrite decimal_digs in H. pose proof (digs_digits 20 n) as HF. rewrite Forall_forall in HF.
  apply HF in H. congruence.
Qed.

(** The texts around the code: the name of the utility, where it happened. *)
Record circumstances (util rest : bytes) : Prop := {
  ci_util : quiet util; ci_rest : quiet rest; ci_len : zlen util <= 29; ci_colon : ~ ":"%char ∈ util;
  ci_util_status : no_status util; ci_rest_status : no_status rest;
}.

Definition status_report (util rest : bytes) (e : swEvents) (d : Z) : bytes :=
  report util (codeM e) rest (SWEVENT_STATUS_PFX ++ decimal d ++ nl).

Lemma status_message_without c d : isdigit c = false -> ~ c ∈ SWEVENT_STATUS_PFX ++ nl -> ~ c ∈ SWEVENT_STATUS_PFX ++ decimal d ++ nl.
Proof.
  intros Hc Hn. rewrite !elem_of_app in *. intros [?|[Hd|?]]; [naive_solver| |naive_solver]. by apply digits_without in Hd.
Qed.

Lemma circumstances_quiet util rest msg : circumstances util rest -> quiet msg -> quiet_report util rest msg.
Proof. intros [] ?. by constructor. Qed.

(** A descriptor that takes everything. *)
Definition takes_all (w : bytes -> Z) : Prop := forall t, w t = zlen t.

Lemma taken_all w t : takes_all w -> take (Z.to_nat (w t)) t = t
  /\ (if (w t <? 0) || negb (w t =? zlen t) then -1 else w t) = zlen t.
Proof.
  intros ->. pose proof (zlen_nonneg t). rewrite (proj2 (Z.ltb_ge _ 0)), Z.eqb_refl by lia. split; [|done].
  unfold zlen. by rewrite Nat2Z.id, firstn_all.
Qed.

Lemma status_is_handed_on w util rest e d : takes_all w -> circumstances util rest -> task_event e -> codeM e <> attribute_code ->
  0 <= d <= INT_MAX -> let t := print_d (valueM e) ++ L ":" ++ decimal d ++ nl in
  swevent_write_rpsh_event w (status_report util rest e d) = Some (t, zlen t).
Proof.
  intros Hall Hc He Hne Hd. cbv zeta. unfold status_report. set (msg := SWEVENT_STATUS_PFX ++ decimal d ++ nl).
  assert (forall c, isdigit c = false -> ~ c ∈ SWEVENT_STATUS_PFX ++ nl -> ~ c ∈ msg) as Hw
    by (intros; by apply status_message_without).
  assert (quiet_report util rest msg) as Hq.
  { apply circumstances_quiet; [done|]. apply quiet_no_S, Hw; [done|]. by apply (bool_decide_unpack _). }
  unfold swevent_write_rpsh_event. rewrite report_value by done.
  assert ((valueM e <? 0) = false) as ->.
  { destruct He as [He _]. apply (table_all (fun e => negb (valueM e <? 0))) in He; [|by vm_compute]. by apply negb_true_iff in He. }
  rewrite value_finds_entry by apply He. destruct He as [Hin Hs]. rewrite Hs. cbn [negb].
  rewrite report_read; [|done|done|apply Hc|apply Hc|apply report_message; try done|done].
  2:{ apply Hw; [done|]. by apply (bool_decide_unpack _). }
  assert (strstr msg SWEVENT_STATUS_PFX = Some O) as -> by (apply strstr_0; by eexists).
  assert (drop (0 + length SWEVENT_STATUS_PFX) msg = decimal d ++ nl) as -> by done.
  rewrite atoi_decimal by done. subst msg. rewrite status_text by lia. obind.
  by destruct (taken_all w (print_d (valueM e) ++ L ":" ++ decimal d ++ nl) Hall) as [-> ->].
Qed.

(** An attribute: the name has no colon before it, the value may have some. *)
Definition attribute_report (util rest name value : bytes) : bytes :=
  report util attribute_code rest (name ++ "="%char :: value ++ nl).

Lemma attribute_is_handed_on w util rest name value : takes_all w -> circumstances util rest -> ~ ":"%char ∈ rest ->
  quiet (name ++ "="%char :: value) -> no_nul (name ++ "="%char :: value) ->
  (forall r, name <> " "%char :: r) -> no_status (name ++ "="%char :: value) ->
  let t := L "315:" ++ name ++ "="%char :: value ++ nl in
  swevent_write_rpsh_event w (attribute_report util rest name value) = Some (t, zlen t).
Proof.
  intros Hall Hc Hr Hq0 Hn Hb Hst. unfold attribute_report.
  replace (name ++ "="%char :: value ++ nl) with ((name ++ "="%char :: value) ++ nl) by (by rewrite <- app_assoc).
  set (body := name ++ "="%char :: value) in *.
  assert (quiet (body ++ nl)) as Hqm by (apply strstr_sep_none; try done; by apply (bool_decide_unpack _)).
  assert (no_status (body ++ nl)) as Hs by (apply strstr_sep_none; try done; by apply (bool_decide_unpack _)).
  pose proof (circumstances_quiet _ _ _ Hc Hqm) as Hq.
  destruct attribute_in_table as (e & Hin & Hcode & Hv & Hsw). rewrite <- Hcode.
  assert (task_event e) as He by done.
  unfold swevent_write_rpsh_event. rewrite report_value by done. rewrite value_finds_entry, Hsw by done.
  rewrite (proj2 (Z.ltb_ge (valueM e) 0)) by (rewrite Hv; lia). cbn [negb].
  rewrite report_read; [|done|done|apply Hc|apply Hc|rewrite Hcode; by apply attribute_message|].
  2:{ intros r E. subst body. destruct name as [|x name]; [done|]. injection E as -> _. by apply (Hb name). }
  unfold no_status in Hs. rewrite Hs, message_text by (done || (rewrite Hs; done)). obind. rewrite Hv. cbv zeta.
  replace (L "315:" ++ name ++ "="%char :: value ++ nl) with (print_d 315 ++ L ":" ++ body ++ nl)
    by (subst body; by rewrite <- app_assoc).
  by destruct (taken_all w (print_d 315 ++ L ":" ++ body ++ nl) Hall) as [-> ->].
Qed.

(** ** Lines of a text *)

(** A line with its newline, and a text without a newline. *)
Definition no_newline (s : bytes) : Prop := ~ "010"%char ∈ s.
Definition complete (l : bytes) : Prop := exists x, l = x ++ nl /\ no_newline x.

Lemma newline_index x r : no_newline x -> strpbrk (x ++ "010"%char :: r) ["010"%char] = Some (length x).
Proof.
  intros Hx. apply find_index_app; [|done]. apply Forall_forall. intros c Hc. cbn. rewrite orb_false_r.
  apply ceq_neq. by intros ->.
Qed.

Lemma no_newline_none s : no_newline s -> strpbrk s ["010"%char] = None.
Proof.
  intros Hs. apply find_index_None, Forall_forall. intros c Hc. cbn. rewrite orb_false_r.
  apply ceq_neq. by intros ->.
Qed.

(** Every text is lines and a rest. *)
Lemma split_text s : exists ls r, s = concat ls ++ r /\ Forall complete ls /\ no_newline r.
Proof.
  remember (length s) as n eqn:En. assert (length s <= n)%nat as Hn by lia. clear En. revert s Hn.
  induction n as [|n IH]; intros s Hn.
  - exists [], s. split_and!; [done|done|]. destruct s; [|cbn in Hn; lia]. apply not_elem_of_nil.
  - destruct (strpbrk s ["010"%char]) as [i|] eqn:E.
    + apply find_index_Some in E as (c & Hs & Hc & HF & Hi). cbn in Hc. rewrite orb_false_r in Hc. apply ceq_eq in Hc as ->.
      destruct (IH (drop (S i) s)) as (ls & r & E & HL & Hr); [rewrite length_drop; lia|].
      exists ((take i s ++ nl) :: ls), r. split_and!; [|constructor; [|done]|done].
      * cbn [concat]. rewrite Hs at 1. by rewrite E, <- !app_assoc.
      * eexists. split; [done|]. intros H. rewrite Forall_forall in HF. apply HF in H. by cbn in H.
    + exists [], s. split_and!; [done|done|]. apply find_index_None in E. intros H. rewrite Forall_forall in E.
      apply E in H. by cbn in H.
Qed.

(** They are the only ones. *)
Lemma split_unique ls : forall ls' r r', concat ls ++ r = concat ls' ++ r' -> Forall complete ls -> Forall complete ls' ->
  no_newline r -> no_newline r' -> ls = ls' /\ r = r'.
Proof.
  assert (Hone : forall l x r r', no_newline r -> complete l -> (l ++ x) = r -> r' = r -> False).
  { intros l x r r' Hr (y & -> & _) <- _. apply Hr. rewrite !elem_of_app. left. right. apply list_elem_of_here. }
  induction ls as [|l ls IH]; intros [|l' ls'] r r' E HL HL' Hr Hr'; cbn [concat] in E.
  - done.
  - apply Forall_cons in HL' as [Hl' _]. exfalso. eapply (Hone l' (concat ls' ++ r') r r); [done|done| |done].
    by rewrite app_assoc.
  - apply Forall_cons in HL as [Hl _]. exfalso. eapply (Hone l (concat ls ++ r) r' r'); [done|done| |done].
    by rewrite app_assoc.
  - apply Forall_cons in HL as [(x & -> & Hx) HL]. apply Forall_cons in HL' as [(x' & -> & Hx') HL'].
    rewrite <- !app_assoc in E. cbn [app nl] in E.
    assert (length x = length x') as En.
    { pose proof (newline_index x (concat ls ++ r) Hx) as H1. pose proof (newline_index x' (concat ls' ++ r') Hx') as H2.
      unfold nl in E. cbn [app] in E. rewrite E, H2 in H1. by injection H1. }
    apply app_inj_1 in E as [-> E]; [|done]. injection E as E. destruct (IH ls' r r' E HL HL' Hr Hr') as [-> ->]. done.
Qed.

(** ** Every line is answered *)

Lemma skip_spaces_suffix s : exists p, s = p ++ skip_spaces s.
Proof.
  induction s as [|c s [p Hp]]; [by exists []|]. cbn. destruct (ceq c " "%char); [|by exists []].
  exists (c :: p). cbn. by f_equal.
Qed.

(** The message is behind a colon. *)
Lemma colon_there l s : message_colon l = Some s -> l !! s = Some ":"%char.
Proof.
  unfold message_colon.
  assert (Hl : forall i, strrchr l ":"%char = Some i -> l !! i = Some ":"%char).
  { intros i Hi. apply strrchr_Some in Hi as (pre & post & -> & <- & _). by apply list_lookup_middle. }
  assert (Hf : forall k i, strchr (drop k l) ":"%char = Some i -> l !! (k + i)%nat = Some ":"%char).
  { intros k i Hi. apply find_index_Some in Hi as (c & Hs & Hc & _ & Hi). apply ceq_eq in Hc. subst c.
    rewrite <- lookup_drop, Hs. apply list_lookup_middle. rewrite length_take. lia. }
  destruct (strchr l ":"%char) as [i|].
  - destruct (strchr (drop (S i) l) ":"%char) as [j|] eqn:Ej; cbn; [|by destruct (strstr _ _); intros H; apply Hl].
    destruct (strstr _ _); [|by intros H; apply Hl]. intros [= <-]. by apply (Hf (S i) j).
  - destruct (strstr _ _); intros H; by apply Hl.
Qed.

Lemma no_newline_skip y : no_newline y -> complete (skip_spaces (y ++ nl)).
Proof.
  induction y as [|c y IH]; intros Hy; [by exists []|]. apply not_elem_of_cons in Hy as [Hc Hy].
  cbn. destruct (ceq c " "%char); [by apply IH|]. exists (c :: y). split; [done|]. by apply not_elem_of_cons.
Qed.

(** The message of a complete line is one, too. *)
Lemma message_complete l ret status m : complete l -> get_event_status l = (ret, status, Some m) -> complete m.
Proof.
  intros (x & -> & Hx). unfold get_event_status. destruct (names_event _); [|done].
  destruct (swevent_is_error _) as [r st]. intros [= _ _ Hm].
  destruct (message_colon (x ++ nl)) as [s|] eqn:Es; [|done]. cbn in Hm. injection Hm as <-.
  apply colon_there in Es. assert (s < length x)%nat as Hs.
  { destruct (decide (s < length x)%nat) as [|Hge]; [done|]. rewrite lookup_app_r in Es by lia.
    destruct (s - length x)%nat as [|[|k]]; by cbn in Es. }
  rewrite drop_app_le by lia. apply no_newline_skip. intros H. apply Hx.
  rewrite <- (take_drop (S s) x). apply elem_of_app. by right.
Qed.

Lemma digits_no_newline n : no_newline (print_d n).
Proof.
  unfold no_newline, print_d. destruct (n <? 0); [|by apply digits_without].
  rewrite not_elem_of_cons. split; [done|by apply digits_without].
Qed.

(** What the tasks get for a message is one line. *)
Lemma event_text_complete e status m : complete m -> no_nul m ->
  exists t, rpsh_event_text (valueM e) status (Some m) = Some t /\ complete t.
Proof.
  intros (y & -> & Hy) Hn. apply no_nul_app in Hn as [Hn _].
  destruct (decide (strstr (y ++ nl) SWEVENT_STATUS_PFX = Some O)) as [E|E].
  - unfold rpsh_event_text. rewrite bool_decide_eq_true_2 by done. eexists. split; [done|].
    exists (print_d (valueM e) ++ L ":" ++ print_d status). split; [by rewrite <- !app_assoc|].
    unfold no_newline. rewrite !elem_of_app. intros [H|[H|H]]; [by apply digits_no_newline in H| |by apply digits_no_newline in H].
    apply list_elem_of_In in H. by repeat destruct H as [?|H].
  - exists (print_d (valueM e) ++ L ":" ++ y ++ nl). split.
    + pose proof (message_text e y Hn E) as Ht. unfold rpsh_event_text in *. by rewrite bool_decide_eq_false_2 in * by done.
    + exists (print_d (valueM e) ++ L ":" ++ y). split; [by rewrite <- !app_assoc|].
      unfold no_newline. rewrite !elem_of_app. intros [H|[H|H]]; [by apply digits_no_newline in H| |done].
      apply list_elem_of_In in H. by repeat destruct H as [?|H].
Qed.

Lemma written_event w l : complete l -> no_nul l -> names_event l = true ->
  exists t ret, swevent_write_rpsh_event w l = Some (t, ret) /\ (takes_all w -> t = [] \/ complete t).
Proof.
  intros Hl Hn Hev. unfold swevent_write_rpsh_event.
  destruct (swevent_get_value _ _ <? 0); [by eexists _, _; split; [|left]|].
  destruct (get_struct_by_value _ _) as [e|] eqn:Ee; [|by eexists _, _; split; [|left]].
  apply find_some in Ee as [_ Ev%Z.eqb_eq]. rewrite <- Ev.
  destruct (negb _); [by eexists _, _; split; [|left]|].
  assert (Hall : forall t r, complete t -> exists t' ret, Some (take (Z.to_nat (w t)) t, r : Z) = Some (t', ret)
    /\ (takes_all w -> t' = [] \/ complete t')).
  { intros t r Ht. eexists _, _. split; [done|]. intros Ha. right. by destruct (taken_all w t Ha) as [-> _]. }
  destruct (get_event_status l) as [[r st] [m|]] eqn:Em.
  - pose proof (message_complete _ _ _ _ Hl Em) as Hm.
    assert (no_nul m) as Hnm.
    { unfold get_event_status in Em. rewrite Hev in Em. destruct (swevent_is_error l). injection Em as _ _ Em.
      destruct (message_colon l) as [s|]; [|done]. injection Em as <-.
      destruct (skip_spaces_suffix (drop (S s) l)) as [p Hp]. apply (no_nul_drop (S s)) in Hn. rewrite Hp in Hn.
      by apply no_nul_app in Hn as [_ Hn]. }
    destruct (event_text_complete e st m Hm Hnm) as (t & -> & Ht). obind. by apply Hall.
  - obind. apply Hall. exists (print_d (valueM e) ++ L ":" ++ print_d st).
    split; [by rewrite <- !app_assoc|]. unfold no_newline. rewrite !elem_of_app.
    intros [H|[H|H]]; [by apply digits_no_newline in H| |by apply digits_no_newline in H].
    apply list_elem_of_In in H. by repeat destruct H as [?|H].
Qed.

Section Pieces.
Context (verbose_swbis_event_thresholdG g_verbose_threshold verbose_level loglevelM : Z).
Context (vofd vefd logfdM swi_event_fd : Z).
Context (unix_safe_write : Z -> bytes -> Z) (atomic_write : Z -> bytes -> Z).

Let line_step := write_error_line verbose_swbis_event_thresholdG g_verbose_threshold verbose_level loglevelM
  vofd vefd logfdM swi_event_fd unix_safe_write atomic_write.
Let loop := write_log_loop verbose_swbis_event_thresholdG g_verbose_threshold verbose_level loglevelM
  vofd vefd logfdM swi_event_fd unix_safe_write atomic_write.
Let logs := write_logs verbose_swbis_event_thresholdG g_verbose_threshold verbose_level loglevelM
  vofd vefd logfdM swi_event_fd unix_safe_write atomic_write.

(** The lines one after another. *)
Fixpoint lines_run (f : bool) (ls : list bytes) : option (bool * list output) :=
  match ls with
  | [] => Some (f, [])
  | l :: ls => '(f, outs, _) ← line_step f l; '(f, more) ← lines_run f ls; Some (f, outs ++ more)
  end.

(** No line is answered with a number below zero. *)
Hypothesis answers : forall f l f' outs r, line_step f l = Some (f', outs, r) -> 0 <= r.

Lemma lines_run_app f ls ls' : lines_run f (ls ++ ls')
  = ('(f, outs) ← lines_run f ls; '(f, more) ← lines_run f ls'; Some (f, outs ++ more)).
Proof.
  revert f. induction ls as [|l ls IH]; intros f; cbn [app lines_run]; obind.
  - by destruct (lines_run f ls') as [[]|].
  - destruct (line_step f l) as [[[f1 outs] r]|]; [|done]. obind. rewrite IH.
    destruct (lines_run f1 ls) as [[f2 more]|]; [|done]. obind.
    destruct (lines_run f2 ls') as [[f3 rest]|]; [|done]. obind. by rewrite app_assoc.
Qed.

Lemma loop_lines ls : forall fuel f rest tot, (length ls < fuel)%nat -> Forall complete ls -> no_newline rest ->
  (exists f' outs t, lines_run f ls = Some (f', outs) /\ loop fuel (mkLog f (concat ls ++ rest)) tot = Some (mkLog f' rest, outs, t))
  \/ (lines_run f ls = None /\ loop fuel (mkLog f (concat ls ++ rest)) tot = None).
Proof.
  induction ls as [|l ls IH]; intros [|fuel] f rest tot Hf HL Hr; [lia| |cbn in Hf; lia|].
  - left. exists f, [], tot. split; [done|].
    subst loop. cbn [write_log_loop concat app linebuf]. by rewrite no_newline_none.
  - apply Forall_cons in HL as [(x & -> & Hx) HL]. cbn [lines_run concat].
    subst loop. cbn [write_log_loop linebuf in_control_script].
    replace (((x ++ nl) ++ concat ls) ++ rest) with (x ++ "010"%char :: (concat ls ++ rest)) by (by rewrite <- !app_assoc).
    rewrite newline_index by done.
    assert (take (S (length x)) (x ++ "010"%char :: (concat ls ++ rest)) = x ++ nl) as ->.
    { change (x ++ "010"%char :: (concat ls ++ rest)) with (x ++ nl ++ (concat ls ++ rest)). rewrite app_assoc. apply take_app_length'. rewrite length_app. cbn. lia. }
    assert (drop (S (length x)) (x ++ "010"%char :: (concat ls ++ rest)) = concat ls ++ rest) as ->.
    { change (x ++ "010"%char :: (concat ls ++ rest)) with (x ++ nl ++ (concat ls ++ rest)). rewrite app_assoc. apply drop_app_length'. rewrite length_app. cbn. lia. }
    fold line_step. destruct (line_step f (x ++ nl)) as [[[f1 outs] r]|] eqn:E; [|by right]. obind.
    pose proof (answers _ _ _ _ _ E). rewrite (proj2 (Z.ltb_ge r 0)) by lia.
    destruct (IH fuel f1 rest (if r >? 0 then to_int (tot + r) else tot)) as [(f2 & more & t & -> & E2)|[-> E2]];
      [cbn in Hf; lia|done..| |]; rewrite E2; obind; [left; by exists f2, (outs ++ more), t|by right].
Qed.

Lemma complete_length ls : Forall complete ls -> (length ls <= length (concat ls))%nat.
Proof.
  induction ls as [|l ls IH]; intros HL; [done|]. apply Forall_cons in HL as [(x & -> & _) HL]. cbn [concat length].
  rewrite !length_app. cbn. specialize (IH HL). lia.
Qed.

Lemma complete_first x y ls rest : Forall complete ls -> no_newline rest -> x ++ y = concat ls ++ rest ->
  exists l1 r1 l2, x = concat l1 ++ r1 /\ ls = l1 ++ l2 /\ r1 ++ y = concat l2 ++ rest
    /\ Forall complete l1 /\ Forall complete l2 /\ no_newline r1.
Proof.
  intros HL Hr E. destruct (split_text x) as (l1 & r1 & Ex & H1 & Hr1).
  destruct (split_text (r1 ++ y)) as (l2 & r2 & E2 & H2 & Hr2).
  destruct (split_unique ls (l1 ++ l2) rest r2) as [-> ->]; [|done|by apply Forall_app|done..|].
  - by rewrite concat_app, <- app_assoc, <- E2, <- E, Ex, <- app_assoc.
  - by exists l1, r1, l2.
Qed.

Lemma write_logs_lines pieces : forall f buf ls rest, Forall no_nul pieces ->
  Forall complete ls -> no_newline rest -> no_newline buf -> buf ++ concat pieces = concat ls ++ rest ->
  logs (mkLog f buf) pieces = ('(f', outs) ← lines_run f ls; Some (mkLog f' rest, outs)).
Proof.
  induction pieces as [|p ps IH]; intros f buf ls rest Hn HL Hr Hb E.
  - cbn [concat] in E. destruct (split_unique ls [] rest buf) as [-> ->]; [by rewrite <- E, app_nil_r|done..|]. done.
  - apply Forall_cons in Hn as [Hp Hn]. cbn [concat] in E. rewrite app_assoc in E.
    destruct (complete_first _ _ _ _ HL Hr E) as (l1 & r1 & l2 & E1 & -> & E2 & H1 & H2 & Hr1).
    subst logs. cbn [write_logs]. unfold write_log. cbn [linebuf in_control_script]. rewrite cstr_id by done.
    rewrite lines_run_app. fold loop.
    destruct (loop_lines l1 (S (length (buf ++ p))) f r1 0) as [(f1 & outs & t & -> & El)|[-> El]]; [|done..| |].
    + rewrite E1, length_app. pose proof (complete_length l1 H1). lia.
    + rewrite E1 at 2. rewrite El. obind. rewrite (IH f1 r1 l2 rest) by done.
      destruct (lines_run f1 l2) as [[f2 more]|]; done.
    + rewrite E1 at 2. by rewrite El.
Qed.

(** What is read in pieces is written as if it had been read at once. *)
Lemma pieces_joined st pieces : Forall no_nul pieces -> no_newline (linebuf st) ->
  logs st pieces = logs st [concat pieces].
Proof.
  destruct st as [f buf]. intros Hn Hb. cbn [linebuf] in Hb.
  destruct (split_text (buf ++ concat pieces)) as (ls & rest & E & HL & Hr).
  rewrite (write_logs_lines pieces f buf ls rest) by done.
  rewrite (write_logs_lines [concat pieces] f buf ls rest); [done| |done..|].
  - constructor; [|done]. clear E. induction Hn; cbn; [apply no_nul_nil|]. by apply no_nul_app.
  - cbn [concat]. by rewrite app_nil_r.
Qed.

(** ** What the tasks get *)

Definition event_bytes (outs : list output) : bytes :=
  concat ((fun o => match o with EventLine t => t | _ => [] end) <$> outs).

(** What one line is for the tasks. *)
Definition line_event (l : bytes) : bytes :=
  if names_event l then match swevent_write_rpsh_event (unix_safe_write swi_event_fd) l with Some (t, _) => t | None => [] end
  else [].

Lemma event_bytes_app a b : event_bytes (a ++ b) = event_bytes a ++ event_bytes b.
Proof. unfold event_bytes. by rewrite fmap_app, concat_app. Qed.

Lemma writeline_no_event a b c d e : event_bytes (fst (writeline logfdM unix_safe_write atomic_write a b c d e)) = [].
Proof. unfold writeline, event_bytes. cbn [fst]. rewrite fmap_app, concat_app. by destruct a, (b && _). Qed.

Lemma event_line_no_event k l : event_bytes (fst (event_line_output verbose_swbis_event_thresholdG verbose_level
  vofd vefd logfdM swi_event_fd unix_safe_write atomic_write k l)) = [].
Proof. unfold event_line_output. repeat case_match; rewrite ?writeline_no_event; done. Qed.

Lemma other_line_no_event f l : event_bytes (fst (other_line_output g_verbose_threshold verbose_level loglevelM
  vofd vefd logfdM unix_safe_write atomic_write f l)) = [].
Proof. unfold other_line_output. repeat case_match; rewrite ?writeline_no_event; done. Qed.

Lemma line_step_event f l f' outs r : 0 <= swi_event_fd -> line_step f l = Some (f', outs, r) ->
  event_bytes outs = line_event l.
Proof.
  intros Hfd. unfold line_step, write_error_line, line_event.
  assert (is_event_k (is_event l) = names_event l) as ->.
  { unfold is_event. destruct (names_event l); [|done]. by destruct (swevent_is_error l). }
  destruct (names_event l).
  - unfold event_output. destruct (Z.geb_spec swi_event_fd 0); [|lia].
    destruct (swevent_write_rpsh_event _ l) as [[t n]|]; [|done]. obind.
    pose proof (event_line_no_event (is_event l) l) as Hno.
    destruct (event_line_output _ _ _ _ _ _ _ _ _ _) as [shown ret]. intros [= _ <- _]. cbn [fst] in Hno.
    rewrite event_bytes_app, Hno, app_nil_r. destruct (Z.eqb_spec (zlen t) 0) as [E|E].
    + destruct t; [done|]. rewrite zlen_cons in E. pose proof (zlen_nonneg t). lia.
    + unfold event_bytes. cbn. by rewrite app_nil_r.
  - pose proof (other_line_no_event (detect_special_verbose_status f l) l) as Hno.
    destruct (other_line_output _ _ _ _ _ _ _ _ _ _) as [shown ret]. by intros [= _ <- _].
Qed.

Lemma lines_run_events ls : 0 <= swi_event_fd -> forall f f' outs, lines_run f ls = Some (f', outs) ->
  event_bytes outs = concat (line_event <$> ls).
Proof.
  intros Hfd. induction ls as [|l ls IH]; intros f f' outs; cbn [lines_run].
  - by intros [= _ <-].
  - destruct (line_step f l) as [[[f1 o1] r]|] eqn:E; [|done]. obind.
    destruct (lines_run f1 ls) as [[f2 o2]|] eqn:E2; [|done]. obind. intros [= _ <-].
    rewrite event_bytes_app, (line_step_event _ _ _ _ _ Hfd E), (IH _ _ _ E2). done.
Qed.

Lemma line_event_lines l : takes_all (unix_safe_write swi_event_fd) -> complete l -> no_nul l -> line_event l = [] \/ complete (line_event l).
Proof.
  intros Ha Hl Hn. unfold line_event. destruct (names_event l) eqn:E; [|by left].
  destruct (written_event (unix_safe_write swi_event_fd) l Hl Hn E) as (t & ret & -> & Ht). auto.
Qed.

Lemma line_step_total f l : complete l -> no_nul l -> is_Some (line_step f l).
Proof.
  intros Hl Hn. unfold line_step, write_error_line. destruct (is_event_k (is_event l)) eqn:E.
  - assert (names_event l = true) as Hev.
    { unfold is_event in E. by destruct (names_event l). }
    unfold event_output. destruct (swi_event_fd >=? 0); obind.
    + destruct (written_event (unix_safe_write swi_event_fd) l Hl Hn Hev) as (t & ret & -> & Ht). obind.
      destruct (event_line_output _ _ _ _ _ _ _ _ _ _). by eexists.
    + destruct (event_line_output _ _ _ _ _ _ _ _ _ _). by eexists.
  - destruct (other_line_output _ _ _ _ _ _ _ _ _ _). by eexists.
Qed.

Lemma lines_run_total ls : forall f, Forall complete ls -> Forall no_nul ls -> is_Some (lines_run f ls).
Proof.
  induction ls as [|l ls IH]; intros f HL HN; [by eexists|].
  apply Forall_cons in HL as [Hl HL]. apply Forall_cons in HN as [Hn HN]. cbn [lines_run].
  destruct (line_step_total f l Hl Hn) as [[[f1 outs] r] ->]. obind.
  destruct (IH f1 HL HN) as [[f2 more] ->]. obind. by eexists.
Qed.
End Pieces.

(** No answer is below zero when no write fails. *)
Lemma answers_not_negative tv tg vl ll vofd vefd lfd fd usw aw :
  (forall f t, 0 <= usw f t) -> (forall f t, 0 <= aw f t) ->
  forall b l b' outs r, write_error_line tv tg vl ll vofd vefd lfd fd usw aw b l = Some (b', outs, r) -> 0 <= r.
Proof.
  intros Hu Ha.
  assert (Hw : forall a b c d e, 0 <= snd (writeline lfd usw aw a b c d e)).
  { intros. unfold writeline. cbn [snd]. repeat case_match; auto; lia. }
  intros b l b' outs r. unfold write_error_line. destruct (is_event_k _).
  - destruct (event_output _ _ _) as [n|]; [|done]. obind.
    destruct (event_line_output _ _ _ _ _ _ _ _ _ _) as [o x] eqn:E. intros [= _ _ <-].
    change x with (snd (o, x)). rewrite <- E. unfold event_line_output. repeat case_match; auto; cbn; lia.
  - destruct (other_line_output _ _ _ _ _ _ _ _ _ _) as [o x] eqn:E. intros [= _ _ <-].
    change x with (snd (o, x)). rewrite <- E. unfold other_line_output. repeat case_match; auto; cbn; lia.
Qed.
