(* ===== verification/SwicolSpec.v ===== *)
(** * Events come back to the task that waits for them

    From the line that a script writes to the status that the task has: the
    pieces that are read (EventLog.v), the line that is handed on (Events.v), the
    list of events and the search in it (Swicol.v). *)

From S2P Require Import Prelude CString Strob Decimals PaxHeader PaxHeaderSpec Pathname PathSpec Swuts Effects Events EventLog EventsSpec Swicol.

(** ** The list of events *)

Definition with_newlines (xs : list bytes) : list bytes := (fun x => x ++ nl) <$> xs.

Lemma complete_lines ls : Forall complete ls -> exists xs, ls = with_newlines xs /\ Forall no_newline xs.
Proof.
  induction 1 as [|l ls (x & -> & Hx) _ (xs & -> & Hxs)]; [by exists []|].
  exists (x :: xs). split; [done|by constructor].
Qed.

Lemma split_with_newlines xs : forall fuel, Forall no_newline xs -> (length xs < fuel)%nat ->
  split_lines fuel (concat (with_newlines xs)) = xs.
Proof.
  induction xs as [|x xs IH]; intros [|fuel] HF Hf; [cbn in Hf; lia|done|cbn in Hf; lia|].
  apply Forall_cons in HF as [Hx HF]. cbn [with_newlines fmap list_fmap concat split_lines].
  rewrite <- app_assoc. change (nl ++ ?y) with ("010"%char :: y).
  change (newline) with "010"%char. unfold strchr. rewrite find_index_app by (by apply not_colon || done).
  rewrite take_app_length. f_equal. rewrite drop_app_ge by lia.
  replace (S (length x) - length x)%nat with 1%nat by lia. cbn [drop]. rewrite drop_0. apply IH; [done|cbn in Hf; lia].
Qed.

Lemma concat_with_newlines_length xs : (length xs <= length (concat (with_newlines xs)))%nat.
Proof. induction xs as [|x xs IH]; [done|]. cbn. rewrite !length_app. cbn. unfold with_newlines in IH. lia. Qed.

Lemma converted xs old : Forall no_newline xs ->
  convert_result_to_event_list (concat (with_newlines xs)) old = (old ++ xs ++ [nl], zlen old).
Proof.
  intros HF. unfold convert_result_to_event_list. rewrite split_with_newlines; [done|done|].
  pose proof (concat_with_newlines_length xs). lia.
Qed.

Lemma list_get_app (a : list bytes) x b : list_get (a ++ x :: b) (zlen a) = Some x.
Proof.
  unfold list_get, zlen. rewrite (proj2 (Z.ltb_ge _ 0)) by lia. rewrite Nat2Z.id. by apply list_lookup_middle.
Qed.

(** The search passes the events without the number. *)
Lemma find_event_passes number xs : forall a x b fuel, Forall (fun l => strstr l number = None) xs ->
  is_Some (strstr x number) -> (length xs < fuel)%nat ->
  find_event fuel (a ++ xs ++ x :: b) number (zlen a)
  = ((fun i => drop (S i) x) <$> strchr x ":"%char, zlen a + zlen xs).
Proof.
  induction xs as [|y xs IH]; intros a x b [|fuel] HF [i Hi] Hf; [cbn in Hf; lia| |cbn in Hf; lia|]; cbn [find_event app].
  - rewrite list_get_app, Hi. f_equal. rewrite zlen_nil. lia.
  - apply Forall_cons in HF as [Hy HF]. rewrite list_get_app, Hy. cbn in Hf.
    replace (zlen a + 1) with (zlen (a ++ [y])) by (rewrite zlen_app, zlen_cons, zlen_nil; lia).
    change (y :: xs ++ x :: b) with ([y] ++ xs ++ x :: b). rewrite app_assoc.
    rewrite IH; [|done|by eexists|lia]. f_equal. rewrite zlen_app, !zlen_cons, zlen_nil. lia.
Qed.

(** ** The number in front of an event *)

Definition number_of (e : swEvents) : bytes := print_d (valueM e) ++ L ":".

Lemma number_first e t : strstr (number_of e ++ t) (number_of e) = Some O.
Proof. apply strstr_0. by eexists. Qed.

Lemma number_colon e t : strchr (number_of e ++ t) ":"%char = Some (length (print_d (valueM e))).
Proof.
  unfold number_of. rewrite <- app_assoc. apply find_index_app; [|done]. apply not_colon.
  unfold print_d. destruct (valueM e <? 0); [|by apply digits_without].
  rewrite not_elem_of_cons. split; [done|by apply digits_without].
Qed.

Lemma number_message e t : (fun i => drop (S i) (number_of e ++ t)) <$> strchr (number_of e ++ t) ":"%char = Some t.
Proof.
  rewrite number_colon. cbn. f_equal. unfold number_of. rewrite <- app_assoc.
  rewrite drop_app_ge by lia. by replace (_ - _)%nat with 1%nat by lia.
Qed.

Lemma status_of_decimal d : 0 <= d <= INT_MAX -> event_message_status (Some (decimal d)) = d.
Proof.
  intros Hd. unfold event_message_status.
  pose proof (atoi2_decimal d [] Hd I) as Ha. rewrite app_nil_r in Ha. rewrite Ha.
  destruct (decimal d) as [|c r] eqn:E.
  - rewrite decimal_digs in E. by apply digs_nonempty in E; [|lia].
  - assert (isdigit c = true) as ->; [|done]. pose proof (digs_digits 20 d) as HF. rewrite <- decimal_digs, E in HF.
    by apply Forall_cons in HF as [? _].
Qed.

(** ** From the script to the task *)

(** The report is one line. *)
Lemma report_complete util code rest body : no_newline util -> no_newline code -> no_newline rest -> no_newline body ->
  complete (report util code rest (body ++ nl)).
Proof.
  intros Hu Hc Hr Hb. exists (report util code rest body). split.
  - unfold report. rewrite <- !app_assoc. cbn. rewrite <- !app_assoc. cbn. by rewrite <- !app_assoc.
  - unfold no_newline, report in *. rewrite !elem_of_app, !elem_of_cons, !elem_of_app, !elem_of_cons, !elem_of_app, !elem_of_cons.
    intuition discriminate.
Qed.

Lemma code_text e : task_event e -> no_newline (codeM e) /\ no_nul (codeM e).
Proof.
  intros He. pose proof (task_code e He) as Hne. destruct He as [He _]. unfold no_newline, no_nul.
  split; by apply code_no_sep.
Qed.

Lemma report_no_nul util code rest msg : no_nul util -> no_nul code -> no_nul rest -> no_nul msg ->
  no_nul (report util code rest msg).
Proof.
  intros Hu Hc Hr Hm. unfold report. rewrite no_nul_app, !no_nul_cons, no_nul_app, no_nul_cons, no_nul_app, !no_nul_cons.
  split_and!; try done.
Qed.

(** The texts around a report are one line. *)
Definition one_line (s : bytes) : Prop := no_newline s /\ no_nul s.

Lemma status_report_line util rest e d : task_event e -> one_line util -> one_line rest ->
  complete (status_report util rest e d) /\ no_nul (status_report util rest e d).
Proof.
  intros He [Hu1 Hu2] [Hr1 Hr2]. destruct (code_text e He) as [Hc1 Hc2]. unfold status_report. split.
  - rewrite app_assoc. apply report_complete; try done. unfold no_newline. rewrite elem_of_app.
    intros [H|H]; [|by apply digits_without in H]. apply list_elem_of_In in H. by repeat destruct H as [?|H].
  - apply report_no_nul; try done. rewrite !no_nul_app. split_and!; [|apply decimal_no_nul|]; by apply (bool_decide_unpack _).
Qed.

Lemma report_is_event util rest e d : task_event e -> names_event (status_report util rest e d) = true.
Proof. apply report_names. Qed.

(** Lines of events in front of the one that is looked for, and behind it. *)
Lemma lines_of_events (f : bytes -> bytes) ls : (forall l, l ∈ ls -> f l = [] \/ complete (f l)) ->
  exists xs, concat (f <$> ls) = concat (with_newlines xs) /\ Forall no_newline xs
    /\ Forall (fun x => exists l, l ∈ ls /\ f l = x ++ nl) xs.
Proof.
  induction ls as [|l ls IH]; intros H; [by exists []|].
  destruct IH as (xs & E & HF & HI); [intros y Hy; apply H; by apply list_elem_of_further|].
  assert (Forall (fun x => exists l0, l0 ∈ l :: ls /\ f l0 = x ++ nl) xs) as HI'.
  { eapply Forall_impl; [exact HI|]. intros x (l0 & Hl & Hx). exists l0. split; [by apply list_elem_of_further|done]. }
  cbn [fmap list_fmap concat]. change (list_fmap _ _ f ls) with (f <$> ls). rewrite E.
  destruct (H l) as [->|(x & Ex & Hx)]; [apply list_elem_of_here|by exists xs|].
  exists (x :: xs). rewrite Ex. split_and!; [done|by constructor|]. constructor; [|done].
  exists l. split; [apply list_elem_of_here|done].
Qed.

Lemma without_prefix s t n : strstr (s ++ t) n = None -> strstr s n = None.
Proof.
  intros H. apply strstr_None_intro. intros pre post ->. apply (strstr_None_app _ n pre (post ++ t)) in H; [done|].
  by rewrite <- !app_assoc.
Qed.

Section Relayed.
Context (verbose_swbis_event_thresholdG g_verbose_threshold verbose_level loglevelM : Z).
Context (vofd vefd logfdM swi_event_fd : Z).
Context (unix_safe_write : Z -> bytes -> Z) (atomic_write : Z -> bytes -> Z).

#[local] Abbreviation relay := (write_logs verbose_swbis_event_thresholdG g_verbose_threshold verbose_level loglevelM
  vofd vefd logfdM swi_event_fd unix_safe_write atomic_write).
#[local] Abbreviation handed := (line_event swi_event_fd unix_safe_write).

(** What [relay] hands on of whole lines. *)
Lemma relayed_events ls pieces f : 0 <= swi_event_fd ->
  (forall fd t, 0 <= unix_safe_write fd t) -> (forall fd t, 0 <= atomic_write fd t) ->
  Forall no_nul pieces -> Forall complete ls -> Forall no_nul ls -> concat pieces = concat ls ->
  exists f' outs, relay (mkLog f []) pieces = Some (mkLog f' [], outs) /\ event_bytes outs = concat (handed <$> ls).
Proof.
  intros Hfd Hu Ha Hp HL HN E.
  pose proof (answers_not_negative verbose_swbis_event_thresholdG g_verbose_threshold verbose_level loglevelM
    vofd vefd logfdM swi_event_fd unix_safe_write atomic_write Hu Ha) as Hans.
  destruct (lines_run_total verbose_swbis_event_thresholdG g_verbose_threshold verbose_level loglevelM
    vofd vefd logfdM swi_event_fd unix_safe_write atomic_write ls f HL HN) as [[f' outs] Hrun].
  exists f', outs. split.
  - rewrite (write_logs_lines _ _ _ _ _ _ _ _ _ _ Hans pieces f [] ls []); try done.
    + by rewrite Hrun.
    + apply not_elem_of_nil.
    + apply not_elem_of_nil.
    + by rewrite app_nil_r.
  - by apply (lines_run_events _ _ _ _ _ _ _ _ _ _ ls Hfd _ _ _ Hrun).
Qed.

(** C14: a status that a script reports reaches the task. The script writes
    lines; one of them reports the event [e] with the status [d]. However the
    lines are cut into pieces on the way, when none of the lines before it is
    handed on with the number of [e], the status that is looked up among the
    events is [d], when the event descriptor takes all that is written to it and
    no other write fails. *)
Theorem status_reaches_the_task (pieces before after : list bytes) (f : bool) (util rest : bytes) (e : swEvents) (d : Z)
    (c : SWICOL) :
  0 <= swi_event_fd -> takes_all (unix_safe_write swi_event_fd) ->
  (forall fd t, 0 <= unix_safe_write fd t) -> (forall fd t, 0 <= atomic_write fd t) ->
  task_event e -> codeM e <> attribute_code -> circumstances util rest -> one_line util -> one_line rest ->
  0 <= d <= INT_MAX ->
  Forall complete before -> Forall no_nul before -> Forall complete after -> Forall no_nul after ->
  Forall (fun l => strstr (handed l) (number_of e) = None) before ->
  Forall no_nul pieces -> concat pieces = concat (before ++ status_report util rest e d :: after) ->
  exists st outs, relay (mkLog f []) pieces = Some (st, outs) /\
    let '(events, first) := convert_result_to_event_list (event_bytes outs) (event_listM c) in
    swicol_rpsh_get_event_status (put_index first (put_events events c)) None (valueM e) (-1) = d.
Proof.
  intros Hfd Hall Hu Ha He Hne Hci Hl1 Hl2 Hd Hb1 Hb2 Ha1 Ha2 Hb Hp E.
  destruct (status_report_line util rest e d He Hl1 Hl2) as [Hc Hn].
  destruct (relayed_events (before ++ status_report util rest e d :: after) pieces f) as (f' & outs & Hr & Ho);
    [done..|by apply Forall_app; split; [|constructor]|by apply Forall_app; split; [|constructor]|done|].
  exists (mkLog f' []), outs. split; [done|]. rewrite Ho, fmap_app, fmap_cons, concat_app. cbn [concat].
  assert (handed (status_report util rest e d) = (number_of e ++ decimal d) ++ nl) as ->.
  { unfold line_event. rewrite report_is_event by done.
    rewrite (status_is_handed_on (unix_safe_write swi_event_fd) util rest e d Hall Hci He Hne Hd). unfold number_of. by rewrite <- !app_assoc. }
  assert (Hlines : forall ls, Forall complete ls -> Forall no_nul ls -> forall l, l ∈ ls -> handed l = [] \/ complete (handed l)).
  { intros ls H1 H2 l Hl. rewrite Forall_forall in H1, H2. apply line_event_lines; auto. }
  destruct (lines_of_events handed before) as (xs & -> & Hxs & Hin); [by apply Hlines|].
  destruct (lines_of_events handed after) as (ys & -> & Hys & _); [by apply Hlines|].
  assert (concat (with_newlines xs) ++ ((number_of e ++ decimal d) ++ nl) ++ concat (with_newlines ys)
    = concat (with_newlines (xs ++ (number_of e ++ decimal d) :: ys))) as ->.
  { unfold with_newlines. by rewrite fmap_app, fmap_cons, concat_app. }
  rewrite converted.
  2:{ apply Forall_app. split; [done|]. constructor; [|done]. unfold no_newline, number_of. rewrite !elem_of_app.
      intros [[H|H]|H]; [by apply digits_no_newline in H| |by apply digits_without in H].
      apply list_elem_of_In in H. by repeat destruct H as [?|H]. }
  unfold swicol_rpsh_get_event_status, swicol_rpsh_get_event_message. cbn [event_listM put_index put_events put_fields].
  unfold set_selected_index. cbn [event_indexM]. change (-1 <? 0) with true. cbv iota.
  fold (number_of e). rewrite <- app_assoc. cbn [app]. rewrite find_event_passes.
  - cbn [fst]. rewrite number_message. by apply status_of_decimal.
  - eapply Forall_impl; [exact Hin|]. intros x (l & Hl & Hx). rewrite Forall_forall in Hb. apply Hb in Hl.
    rewrite Hx in Hl. by apply without_prefix in Hl.
  - rewrite number_first. by eexists.
  - rewrite !length_app. cbn. lia.
Qed.
End Relayed.

(** ** Attributes of the host *)

Lemma strstr_without c s n : c ∈ n -> ~ c ∈ s -> strstr s n = None.
Proof.
  intros Hc Hs. apply strstr_None_intro. intros pre post ->. apply Hs. rewrite !elem_of_app. naive_solver.
Qed.

Lemma str_at_middle a s r : no_nul s -> str_at (a ++ s ++ NUL :: r) (zlen a) = Some s.
Proof.
  intros Hs. apply str_at_holds; [apply zlen_nonneg|]. unfold zlen. rewrite Nat2Z.id.
  apply (holds_intro _ _ r); [done|]. by rewrite drop_app_length.
Qed.

Lemma write_middle a c r : mem_write (a ++ c :: r) (zlen a) [NUL] = Some (a ++ NUL :: r).
Proof.
  rewrite mem_write_in.
  - unfold zlen. rewrite Nat2Z.id, take_app_length. do 2 f_equal. rewrite drop_app_ge by lia.
    cbn. by replace (_ - length a)%nat with 1%nat by (unfold zlen; cbn; lia).
  - apply zlen_nonneg.
  - pose proof (zlen_nonneg r). rewrite zlen_app, !zlen_cons, zlen_nil. lia.
Qed.

(** A line with an attribute event is taken apart in its buffer. *)
Lemma parse_attribute pre name value : ~ "3"%char ∈ pre -> no_nul pre -> name <> [] -> ~ "="%char ∈ name ->
  no_nul name -> no_nul value ->
  exists m a v, swevent_parse_attribute_event ((pre ++ " "%char :: L "315:" ++ name ++ "="%char :: value) ++ [NUL])
    = Some (m, 0, Some (a, v)) /\ str_at m a = Some name /\ str_at m v = Some value.
Proof.
  intros Hp Hpn Hne Hname Hnn Hnv. set (head := pre ++ " "%char :: L "315:").
  set (tail := name ++ "="%char :: value).
  assert ((pre ++ " "%char :: L "315:" ++ tail) ++ [NUL] = head ++ tail ++ [NUL]) as ->.
  { subst head. rewrite <- !app_assoc. cbn. done. }
  assert (no_nul tail) as Hnt by (subst tail; rewrite no_nul_app, no_nul_cons; done).
  assert (no_nul head) as Hnh by (subst head; rewrite no_nul_app; split; [done|by apply (bool_decide_unpack _)]).
  unfold swevent_parse_attribute_event.
  assert (str_at (head ++ tail ++ [NUL]) 0 = Some (head ++ tail)) as ->.
  { rewrite app_assoc. apply str_at_0_holds, text_holds_buffer. by apply no_nul_app. }
  obind. assert (strstr (head ++ tail) (L "315:") = Some (S (length pre))) as ->.
  { subst head. rewrite <- app_assoc. cbn [app]. rewrite strstr_sep, (strstr_without "3"%char) by (done || by apply (bool_decide_unpack _)).
    assert (strstr ((L "315:") ++ tail) (L "315:") = Some O) as Hz by (apply strstr_0; by eexists).
    cbn [app L list_ascii_of_string] in Hz |- *. rewrite Hz. cbn. f_equal. lia. }
  assert (Z.of_nat (S (length pre)) + 4 = zlen head) as -> by (subst head; unfold zlen; rewrite length_app; cbn; lia).
  rewrite str_at_middle by done. obind.
  assert (strchr tail "="%char = Some (length name)) as ->.
  { apply find_index_app; [|done]. apply Forall_forall. intros c Hc. apply ceq_neq. by intros <-. }
  destruct (length name) as [|k] eqn:Hk; [by destruct name|].
  assert (zlen head + Z.of_nat (length name) = zlen (head ++ name)) as Hs1 by (rewrite zlen_app; done).
  assert (head ++ tail ++ [NUL] = (head ++ name) ++ "="%char :: value ++ [NUL]) as -> by (subst tail; by rewrite <- !app_assoc).
  rewrite <- Hk.
  rewrite Hs1, write_middle. obind. eexists _, _, _. split; [done|]. split.
  - rewrite <- app_assoc. by apply str_at_middle.
  - replace ((head ++ name) ++ NUL :: value ++ [NUL]) with ((head ++ name ++ [NUL]) ++ value ++ NUL :: [])
      by (rewrite <- !app_assoc; done).
    replace (zlen (head ++ name) + 1) with (zlen (head ++ name ++ [NUL])) by (rewrite !zlen_app, zlen_cons, zlen_nil; lia).
    by apply str_at_middle.
Qed.

Definition uts_attributes : list bytes :=
  [SW_A_os_name; SW_A_os_version; SW_A_os_release; SW_A_machine_type; SW_A_architecture].

Lemma uts_attribute_name name : name ∈ uts_attributes ->
  name <> [] /\ no_nul name /\ no_newline name /\ ~ "="%char ∈ name /\ (forall r, name <> " "%char :: r)
  /\ quiet name /\ no_status name.
Proof.
  intros H. apply list_elem_of_In in H. unfold no_newline, quiet, no_status.
  repeat destruct H as [<-|H]; try done; (split_and!; try done; by apply (bool_decide_unpack _)).
Qed.

Lemma attribute_free name value n : name ∈ uts_attributes -> ~ "="%char ∈ n -> n <> [] ->
  strstr name n = None -> strstr value n = None -> strstr (name ++ "="%char :: value) n = None.
Proof. intros. by apply strstr_sep_none. Qed.

(** [uts'] is [uts] with the member that the attribute [name] stands for set to
    [value], and every other one as it was. *)
Definition attribute_set (uts : SWUTS) (name value : bytes) (uts' : SWUTS) : Prop :=
  let set (attribute : bytes) (old : option bytes) := if bool_decide (name = attribute) then Some value else old in
  sysnameM uts' = set (L "os_name") (sysnameM uts)
  /\ versionM uts' = set (L "os_version") (versionM uts)
  /\ releaseM uts' = set (L "os_release") (releaseM uts)
  /\ machineM uts' = set (L "machine_type") (machineM uts)
  /\ arch_tripletM uts' = set (L "architecture") (arch_tripletM uts)
  /\ result_machineM uts' = result_machineM uts /\ result_sysnameM uts' = result_sysnameM uts
  /\ result_releaseM uts' = result_releaseM uts /\ result_versionM uts' = result_versionM uts
  /\ match_resultM uts' = match_resultM uts.

Lemma add_attribute_set uts name value : name ∈ uts_attributes ->
  attribute_set uts name value (swuts_add_attribute uts name value).
Proof. intros H. apply list_elem_of_In in H. by repeat destruct H as [<-|H]. Qed.

(** The chain of comparisons of swuts_read_from_events. *)
Lemma event_sets_attribute uts name value line m a v : name ∈ uts_attributes ->
  swevent_parse_attribute_event (line ++ [NUL]) = Some (m, 0, Some (a, v)) -> str_at m a = Some name -> str_at m v = Some value ->
  exists uts', uts_event uts line = Some (uts', 0) /\ attribute_set uts name value uts'.
Proof.
  intros H Hp Ha Hv. unfold uts_event. rewrite Hp. obind. rewrite Ha, Hv. obind.
  apply list_elem_of_In in H. repeat destruct H as [<-|H]; try done; by eexists.
Qed.

(** C28: an attribute that the host reports reaches the system identification.
    The event is handed on with its name and value, and the line in which the
    collator prints it for swuts_read_from_events sets the member that the name
    stands for (os_name sysnameM, os_version versionM, os_release releaseM,
    machine_type machineM, architecture arch_tripletM) and no other one, as
    swuts_add_attribute does; the value may have colons and equal signs. *)
Theorem attribute_reaches_uts (w : bytes -> Z) (util rest util2 name value : bytes) (uts : SWUTS) :
  takes_all w -> circumstances util rest -> ~ ":"%char ∈ rest -> ~ "3"%char ∈ util2 -> no_nul util2 ->
  name ∈ uts_attributes -> no_nul value -> quiet value -> no_status (name ++ "="%char :: value) ->
  exists event line uts',
    swevent_write_rpsh_event w (attribute_report util rest name value) = Some (event ++ nl, zlen event + 1)
    /\ swicol_print_event util2 [] event = line ++ nl
    /\ uts_event uts line = Some (uts', 0) /\ attribute_set uts name value uts'
    /\ attribute_set uts name value (swuts_add_attribute uts name value).
Proof.
  intros Hall Hc Hr H3 Hu Hname Hv Hq Hs.
  destruct (uts_attribute_name name Hname) as (Hne & Hnn & Hnl & Heq & Hb & Hqn & Hsn).
  assert (no_nul (name ++ "="%char :: value)) as Hnul by (rewrite no_nul_app, no_nul_cons; done).
  assert (quiet (name ++ "="%char :: value)) as Hquiet.
  { apply attribute_free; try done. by apply (bool_decide_unpack _). }
  pose proof (attribute_is_handed_on w util rest name value Hall Hc Hr Hquiet Hnul Hb Hs) as Hw. cbv zeta in Hw.
  destruct (parse_attribute (util2 ++ L ": swicol:") name value) as (m & a & v & Hp & Ha & Hval); try done.
  { rewrite elem_of_app. intros [?|H]; [done|]. apply list_elem_of_In in H. by repeat destruct H as [?|H]. }
  { apply no_nul_app. split; [done|by apply (bool_decide_unpack _)]. }
  destruct (event_sets_attribute uts name value _ m a v Hname Hp Ha Hval) as (uts' & He & Hset).
  eexists (L "315:" ++ name ++ "="%char :: value), _, uts'. split_and!; [| |exact He|exact Hset|by apply add_attribute_set].
  - rewrite Hw. replace (L "315:" ++ name ++ "="%char :: value ++ nl) with ((L "315:" ++ name ++ "="%char :: value) ++ nl)
      by (by rewrite <- !app_assoc). by rewrite zlen_app.
  - unfold swicol_print_event. rewrite <- !app_assoc. cbn. by rewrite <- app_assoc.
Qed.

(** ** The commands that report events *)

(** The next object is one of the pool or the one behind it. *)
Definition pool_ok (p : pool) : Prop :=
  match s_arrM p with
  | Unopened => s_arr_indexM p = O
  | Opened ts => (s_arr_indexM p <= length ts)%nat
  | Closed => False
  end.

Lemma pool_next p : pool_ok p -> exists ts, (length ts > s_arr_indexM p)%nat
  /\ arr_get_p p = Some (mkPool (Opened ts) (S (s_arr_indexM p)), s_arr_indexM p)
  /\ ts !! s_arr_indexM p = Some [] /\ forall j, (j < s_arr_indexM p)%nat -> ts !! j = pool_text p j.
Proof.
  unfold pool_ok, arr_get_p, pool_text. destruct p as [[|ts|] i]; cbn [s_arrM s_arr_indexM]; intros Hi; [subst i| |done].
  - exists [[]]. split_and!; [cbn; lia|done|done|lia].
  - obind. destruct (ts !! i) as [t|] eqn:E.
    + pose proof (lookup_lt_Some _ _ _ E). exists (<[i := []]> ts). rewrite length_insert. split_and!; [lia|done| |].
      * apply list_lookup_insert_eq. lia.
      * intros j Hj. apply list_lookup_insert_ne. lia.
    + apply lookup_ge_None in E. assert (length ts = i) as <- by lia.
      exists (ts ++ [[]]). rewrite length_app. split_and!; [cbn; lia|done|by apply list_lookup_middle|].
      intros j Hj. by rewrite lookup_app_l.
Qed.

(** The text of a report has an object of its own until the pool is reset: the
    texts that were formed before it stay. *)
Lemma echo_has_own_object util vm p to_fd vl loc value msg : pool_ok p ->
  exists p' e, swevent_shell_echo util vm p to_fd vl loc value msg = Some (p', e) /\ pool_ok p'
    /\ s_arr_indexM p' = S (s_arr_indexM p)
    /\ (forall j, (j < s_arr_indexM p)%nat -> pool_text p' j = pool_text p j)
    /\ match get_struct_by_value value eventsArray with
       | None => e = Copied (L "echo " ++ [double_quote; double_quote] ++ L " 1>/dev/null")
       | Some eop => e = InPool (s_arr_indexM p) /\ pool_text p' (s_arr_indexM p)
           = Some (L "echo " ++ [double_quote] ++ swevent_message util vm value loc msg vl
                   ++ [double_quote] ++ L " " ++ echo_redir to_fd eop)
       end.
Proof.
  intros Hp. destruct (pool_next p Hp) as (ts & Hl & E & Hi & Hj). unfold swevent_shell_echo. rewrite E. obind.
  destruct (get_struct_by_value value eventsArray) as [eop|].
  - eexists _, _. split; [done|]. unfold pool_store, pool_ok. cbn [s_arrM s_arr_indexM pool_text]. rewrite length_insert.
    split_and!; [lia|done| |done|apply list_lookup_insert_eq; lia].
    intros j Hlt. rewrite list_lookup_insert_ne by lia. by apply Hj.
  - eexists _, _. split; [done|]. unfold pool_ok. cbn [s_arrM s_arr_indexM pool_text]. split_and!; [lia|done|done|done].
Qed.

Section Scripts.
Context {W : Type} (util : bytes) (vm : Z) (CSHID : bytes).
Implicit Types (s : colstate W).

Definition report_command (value : Z) (arg : bytes) (eop : swEvents) : bytes :=
  L "echo " ++ [double_quote] ++ swevent_message util vm value (L "target") arg (-1)
  ++ [double_quote] ++ L " " ++ echo_redir 2 eop.

Lemma tevent_runs s value arg eop : pool_ok (evpool s) -> get_struct_by_value value eventsArray = Some eop ->
  exists p, pool_ok p /\ runs (tevent util vm value arg) s (put_pool p s) (report_command value arg eop).
Proof.
  intros Hp Hv. destruct (echo_has_own_object util vm (evpool s) 2 (-1) (L "target") value arg Hp) as (p & e & E & Hok & _ & _ & He).
  rewrite Hv in He. destruct He as [-> Ht]. exists p. split; [done|].
  unfold runs, tevent, TEVENT. rewrite E. obind. unfold echoed_text. rewrite Ht. obind. done.
Qed.

(** No character that the shell takes for something else inside double quotes. *)
Definition plain_in_quotes (dir : bytes) : Prop :=
  Forall (fun c => c <> "$"%char /\ c <> "`"%char /\ c <> double_quote /\ c <> "\"%char /\ c <> newline) dir.

Lemma untainted_dir dir : swlib_is_ascii_noaccept (Some dir) dir_tainted 1 = 0 -> dir <> [] /\ plain_in_quotes dir.
Proof.
  unfold swlib_is_ascii_noaccept. destruct (Z.ltb_spec (zlen dir) 1) as [H|H]; [done|].
  destruct (strpbrk dir dir_tainted) as [i|] eqn:E; cbn [found].
  - destruct (negb _) eqn:En; [done|]. apply negb_false_iff, Z.eqb_eq in En. cbn in En. lia.
  - intros _. split; [by intros ->|]. apply find_index_None in E. eapply Forall_impl; [exact E|]. intros c Hc.
    split_and!; intros ->; by vm_compute in Hc.
Qed.

(** A script is formed exactly for the directories that can stand in double
    quotes; its reports are the commands of the three events. *)
Lemma task_script_formed s size dir task_script task_desc : pool_ok (evpool s) ->
  (swlib_is_ascii_noaccept (Some dir) dir_tainted 1 <> 0 /\ runs (print_task_script util vm CSHID size dir task_script task_desc) s s None)
  \/ (dir <> [] /\ plain_in_quotes dir /\ exists p b n e tonull verbose eof eof2, pool_ok p /\
      get_struct_by_value SWI_TASK_BEGINS eventsArray = Some b /\ get_struct_by_value SW_INTERNAL_ERROR eventsArray = Some n
      /\ get_struct_by_value SWI_TASK_ENDS eventsArray = Some e
      /\ runs (print_task_script util vm CSHID size dir task_script task_desc) s (put_pool p s)
        (Some (script_text util CSHID (decimal (task_blocks size)) tonull (report_command SWI_TASK_BEGINS task_desc b) dir verbose eof eof2
           (report_command SW_INTERNAL_ERROR (L "No such directory or no access: $swxdir") n) task_script task_desc
           (report_command SWI_TASK_ENDS (task_desc ++ L ": " ++ SWEVENT_STATUS_PFX ++ L "$sw_retval") e)))).
Proof.
  intros Hp. unfold print_task_script.
  destruct (Z.eqb_spec (swlib_is_ascii_noaccept (Some dir) dir_tainted 1) 0) as [Hd|Hd]; cbn [negb].
  - right. destruct (untainted_dir dir Hd) as [H1 H2]. split; [done|]. split; [done|].
    destruct (get_struct_by_value SWI_TASK_BEGINS eventsArray) as [b|] eqn:Eb; [|by vm_compute in Eb].
    destruct (get_struct_by_value SW_INTERNAL_ERROR eventsArray) as [n|] eqn:En; [|by vm_compute in En].
    destruct (get_struct_by_value SWI_TASK_ENDS eventsArray) as [e|] eqn:Ee; [|by vm_compute in Ee].
    destruct (tevent_runs s SWI_TASK_BEGINS task_desc b Hp Eb) as (p1 & Hp1 & R1).
    destruct (tevent_runs (put_pool p1 s) SW_INTERNAL_ERROR (L "No such directory or no access: $swxdir") n Hp1 En) as (p2 & Hp2 & R2).
    destruct (tevent_runs (put_pool p2 (put_pool p1 s)) SWI_TASK_ENDS (task_desc ++ L ": " ++ SWEVENT_STATUS_PFX ++ L "$sw_retval") e Hp2 Ee)
      as (p3 & Hp3 & R3).
    eexists p3, b, n, e, _, _, _, _. split_and!; try done.
    eapply runs_bind; [apply runs_gets|]. cbv beta zeta.
    eapply runs_bind; [exact R1|]. cbv beta. eapply runs_bind; [exact R2|]. cbv beta. eapply runs_bind; [exact R3|]. cbv beta.
    apply runs_ret.
  - left. split; [done|]. eapply runs_bind; [apply runs_gets|]. cbv beta. apply runs_ret.
Qed.

(** The blocks that the script reads are those of the data, up to one byte
    under 2^40. *)
Lemma task_blocks_cover size : 0 <= size < 2 ^ 40 -> task_blocks size = (size + 511) / 512.
Proof.
  intros Hs. unfold task_blocks. pose proof (Z.div_mod size 512 ltac:(lia)). pose proof (Z.mod_pos_bound size 512 ltac:(lia)).
  assert (0 <= size / 512 < 2 ^ 31) by (split; [apply Z.div_pos|apply Z.div_lt_upper_bound]; lia).
  rewrite to_int_id by (unfold INT_MAX; lia). rewrite (to_size_id (size / 512)) by lia.
  destruct (Z.eqb_spec (size mod 512) 0); cbn [negb].
  - apply Z.div_unique with 511; lia.
  - rewrite to_size_id by lia. apply Z.div_unique with (size mod 512 - 1); lia.
Qed.
End Scripts.

(** ** Concrete runs *)

Module Witness.
Definition task_ends : swEvents := mkEvent (L "SWI_TASK_ENDS") 305 SWEVENT_LV6 [] true SW_ERROR.
Definition util : bytes := L "swcopy".
Definition rest : bytes := L "on target host a.example: unpack".
Definition before : list bytes := [L "tar: blocksize = 20" ++ nl; L "swcopy: SWI_TASK_BEGINS on target host a.example: unpack" ++ nl].
Definition after : list bytes := [L "swcopy: SWI_TASK_CTS on target host a.example: status=0" ++ nl].
Definition text : bytes := concat (before ++ status_report util rest task_ends 127 :: after).
Definition pieces : list bytes := [take 30 text; take 51 (drop 30 text); drop 81 text].
Definition whole (fd : Z) (t : bytes) : Z := zlen t.

Lemma end_is_event : task_event task_ends.
Proof.
  split; [|done]. apply list_elem_of_In.
  assert (get_struct_by_value 305 eventsArray = Some task_ends) as E by (by vm_compute). by apply find_some in E as [? _].
Qed.

Lemma around : circumstances util rest.
Proof. split; try (by vm_compute). by apply (bool_decide_unpack _). Qed.

Lemma one_line_text s : bool_decide (no_nul s) = true -> bool_decide ("010"%char ∈ s) = false -> one_line s.
Proof. intros H1%bool_decide_eq_true H2%bool_decide_eq_false. done. Qed.

Lemma complete_text s x : s = x ++ nl -> bool_decide ("010"%char ∈ x) = false -> complete s.
Proof. intros -> H%bool_decide_eq_false. by exists x. Qed.

(** A script that ends with 127, in three pieces. *)
Lemma status_reaches_the_task_witness : exists st outs,
  write_logs 4 4 1 1 1 2 6 5 whole whole (mkLog false []) pieces = Some (st, outs) /\
  let '(events, first) := convert_result_to_event_list (event_bytes outs) [L "7:old"; nl] in
  swicol_rpsh_get_event_status (put_index first (put_events events (mkSWICOL 0 [L "7:old"; nl] None None None 0 1 None 1 [] [] [] 0 0 3 [] 0)))
    None 305 (-1) = 127.
Proof.
  apply (status_reaches_the_task 4 4 1 1 1 2 6 5 whole whole pieces before after false util rest task_ends 127
    (mkSWICOL 0 [L "7:old"; nl] None None None 0 1 None 1 [] [] [] 0 0 3 [] 0)).
  - lia.
  - done.
  - intros fd t. apply zlen_nonneg.
  - intros fd t. apply zlen_nonneg.
  - apply end_is_event.
  - intros E. discriminate E.
  - apply around.
  - by apply one_line_text.
  - by apply one_line_text.
  - unfold INT_MAX. lia.
  - repeat constructor; by eapply complete_text.
  - repeat constructor; by apply (bool_decide_unpack _).
  - repeat constructor; by eapply complete_text.
  - repeat constructor; by apply (bool_decide_unpack _).
  - repeat constructor; by vm_compute.
  - repeat constructor; by apply (bool_decide_unpack _).
  - by vm_compute.
Defined.

(** The version of the system has colons. *)
Lemma attribute_reaches_uts_witness : exists event line uts',
  swevent_write_rpsh_event zlen (attribute_report util (L "on target host a") (L "os_version") (L "#1 Tue 20:43:14"))
    = Some (event ++ nl, zlen event + 1)
  /\ swicol_print_event (L "swinstall") [] event = line ++ nl
  /\ uts_event swuts_create line = Some (uts', 0) /\ attribute_set swuts_create (L "os_version") (L "#1 Tue 20:43:14") uts'
  /\ attribute_set swuts_create (L "os_version") (L "#1 Tue 20:43:14")
       (swuts_add_attribute swuts_create (L "os_version") (L "#1 Tue 20:43:14")).
Proof.
  apply (attribute_reaches_uts zlen util (L "on target host a") (L "swinstall") (L "os_version") (L "#1 Tue 20:43:14") swuts_create).
  - done.
  - split; try (by vm_compute). by apply (bool_decide_unpack _).
  - by apply (bool_decide_unpack _).
  - by apply (bool_decide_unpack _).
  - by apply (bool_decide_unpack _).
  - apply list_elem_of_further, list_elem_of_here.
  - by apply (bool_decide_unpack _).
  - by vm_compute.
  - by vm_compute.
Defined.

(** The number of an event is found inside the number of another one: after the
    end of a task with 0 the status of a memory error (5) is 0, too. *)
Example number_in_another_number :
  swicol_rpsh_get_event_status (mkSWICOL 0 [L "305:0"; nl] None None None 0 1 None 0 [] [] [] 0 0 3 [] 0) None 5 (-1) = 0.
Proof. by vm_compute. Qed.

(** Only what is behind the last colon of a message is handed on. *)
Example message_cut_at_colon :
  swevent_write_rpsh_event zlen (report util (L "SW_INTERNAL_ERROR") (L "on target host a") (L "No such directory or no access: /opt" ++ nl))
  = Some (L "7:/opt" ++ nl, 7).
Proof. by vm_compute. Qed.

(** The code of an event is found inside the code of another one. *)
Example related_is_taken_for_not_found :
  swevent_get_value eventsArray (report util (L "SW_SELECTION_NOT_FOUND_RELATED") (L "on target host a") []) = 62
  /\ swevent_get_value eventsArray (report util (L "SW_SELECTION_NOT_FOUND_AMBIG") (L "on target host a") []) = 62.
Proof. split; by vm_compute. Qed.

(** A write that takes less loses the rest of the event: nobody writes it again,
    and the result of the line does not tell. *)
Example short_write_cuts_event :
  write_logs 4 4 0 0 1 2 0 5 (fun _ _ => 3) whole (mkLog false []) [L "swcopy: SWI_TASK_ENDS on target host a: t: status=0" ++ nl]
    = Some (mkLog false [], [EventLine (L "305")])
  /\ swevent_write_rpsh_event (fun _ => 3) (L "swcopy: SWI_TASK_ENDS on target host a: t: status=0" ++ nl) = Some (L "305", -1).
Proof. split; by vm_compute. Qed.

(** When a line cannot be shown, the lines behind it in the same piece are lost,
    events among them: the buffer stays cut behind the line. *)
Definition two_lines : list bytes :=
  [L "tar: no space left" ++ nl; L "swcopy: SWI_TASK_ENDS on target host a: t: status=0" ++ nl].

Example failed_write_loses_lines :
  write_logs 4 4 1 0 1 2 0 5 whole (fun fd t => -1) (mkLog false []) [concat two_lines]
    = Some (mkLog false (L "tar: no space left" ++ nl), [Line 2 (L "tar: no space left" ++ nl)])
  /\ line_event 5 whole (L "swcopy: SWI_TASK_ENDS on target host a: t: status=0" ++ nl) = L "305:0" ++ nl.
Proof. split; by vm_compute. Qed.
End Witness.
