(* ===== verification/SwicolWait.v ===== *)
(** * Waiting for the end of a task

    The lines of events come one after another; the end of the task is the line
    305:status. A channel is described by what it does in one round of the wait. *)

From S2P Require Import Prelude CString Strob Escape Decimals PaxHeader PaxHeaderSpec PathSpec Effects Events EventsSpec Swicol SwicolSpec.
#[local] Open Scope effects_scope.

(** ** The line that ends the wait *)

Definition end_line (d : Z) : bytes := SWICOL_STOP_STRING ++ decimal d ++ nl.

Lemma one_digit_stops d : 0 <= d < 10 -> stop_answer (end_line d) = Some 0.
Proof.
  intros Hd. assert (d ∈ [0; 1; 2; 3; 4; 5; 6; 7; 8; 9]) as H by (rewrite !elem_of_cons; lia).
  clear Hd. revert d H. apply Forall_forall. by repeat constructor.
Qed.

Lemma other_number x : ~ ":"%char ∈ x -> strstr (SWICOL_STOP_STRING ++ x) SWICOL_START_STRING = None.
Proof.
  intros Hx. apply strstr_None_intro. intros pre post H.
  do 4 (destruct pre as [|? pre]; [cbn in H; discriminate|injection H as _ H]).
  apply Hx. rewrite H, elem_of_app. right. do 3 apply list_elem_of_further. apply list_elem_of_here.
Qed.

Lemma end_line_no_start d : strstr (end_line d) SWICOL_START_STRING = None.
Proof.
  apply other_number. rewrite elem_of_app. intros [H|H]; [by apply digits_without in H|].
  apply list_elem_of_In in H. by repeat destruct H as [?|H].
Qed.

(** A status of two or three digits does not end the wait: the task is waited
    for until the time is over. *)
Lemma more_digits_do_not_stop d : 10 <= d < 1000 -> stop_answer (end_line d) = None.
Proof.
  intros Hd. unfold stop_answer. rewrite end_line_no_start.
  assert (2 <= ndigits d <= 3) as Hn.
  { split; [|apply ndigits_le; lia]. destruct (Z.le_gt_cases 2 (ndigits d)) as [|Hlt]; [done|].
    assert (ndigits d <= 1) as H1 by lia. apply ndigits_le in H1; lia. }
  assert (zlen (end_line d) = 5 + ndigits d) as Hl.
  { unfold end_line. rewrite !zlen_app. change (zlen SWICOL_STOP_STRING) with 4. change (zlen nl) with 1. unfold ndigits. lia. }
  rewrite Hl. rewrite (proj2 (Z.eqb_neq _ _)) by lia. cbn [andb].
  rewrite (bool_decide_eq_false_2 (is_Some None)) by (by intros [? ?]). cbn [andb].
  rewrite Z.gtb_ltb. by rewrite (proj2 (Z.ltb_ge _ _)) by lia.
Qed.

(** ** One round *)

Section Rounds.
Context {W : Type} `{Channel W}.
Implicit Types (s : colstate W) (w : W).

Definition at_chan s w : colstate W := mkCol (swicol s) (evpool s) w.

Lemma runs_call {A} (f : W -> W * A) s w a : f (chan s) = (w, a) -> runs (call f) s (at_chan s w) a.
Proof. unfold runs, call. by intros ->. Qed.

(** A round in which the alarm does not ring and nothing was set before. *)
Lemma quiet_round line_fuel fd stop v s w1 w2 now s3 buf n :
  master_alarmM (swicol s) = 0 -> nanosleep (chan s) = (w1, false) -> time w1 = (w2, now) ->
  runs (swgpReadLine line_fuel (w_buf v) fd) (at_chan s w2) s3 (buf, n) ->
  runs (wait_round line_fuel fd stop v) s s3
    (watch_line stop n (mkWait buf (w_retbuf v) now (w_alarm_start v) (w_alarm_monitor v) (w_cret v) (w_do_stop v) (w_retval v))).
Proof.
  intros Ha Hs Ht Hr. unfold wait_round.
  eapply runs_bind; [by apply runs_call|]. cbv beta. eapply runs_bind; [apply runs_when_false|].
  eapply runs_bind; [by apply runs_call|]. cbv beta. eapply runs_bind; [apply runs_gets|]. cbv beta.
  cbn [at_chan swicol]. rewrite Ha. cbn [Z.eqb negb].
  eapply runs_bind; [apply runs_ret|]. cbv beta iota.
  eapply runs_bind; [exact Hr|]. cbv beta iota. apply runs_ret.
Qed.

(** ** A channel on which nothing comes *)

Record silent (fd : Z) (P : W -> Prop) : Prop := {
  sil_time : forall w, P w -> P (fst (time w));
  sil_sleep : forall w, P w -> P (fst (nanosleep w)) /\ snd (nanosleep w) = false;
  sil_select : forall w, P w -> P (fst (select fd w)) /\ snd (select fd w) = SelNothing;
}.

Lemma silent_round line_fuel fd stop P v s : silent fd P -> P (chan s) -> master_alarmM (swicol s) = 0 ->
  w_cret v = 0 -> w_alarm_monitor v = false ->
  exists s' v', runs (wait_round line_fuel fd stop v) s s' v' /\ P (chan s') /\ swicol s' = swicol s
    /\ w_cret v' = 0 /\ w_alarm_monitor v' = false.
Proof.
  intros [Ht Hs Hsel] HP Ha Hc Hm.
  destruct (nanosleep (chan s)) as [w1 r] eqn:E1. destruct (Hs _ HP) as [HP1 Hr]. rewrite E1 in HP1, Hr. cbn in HP1, Hr. subst r.
  destruct (time w1) as [w2 now] eqn:E2. pose proof (Ht _ HP1) as HP2. rewrite E2 in HP2. cbn in HP2.
  destruct (select fd w2) as [w3 x] eqn:E3. destruct (Hsel _ HP2) as [HP3 Hx]. rewrite E3 in HP3, Hx. cbn in HP3, Hx. subst x.
  eexists (at_chan s w3), _. split.
  - eapply (quiet_round line_fuel fd stop v s w1 w2 now (at_chan s w3) (w_buf v) 0); try done.
    unfold swgpReadLine. eapply runs_bind; [by apply (runs_call _ (at_chan s w2) w3 SelNothing)|]. apply runs_ret.
  - split_and!; [done|done| |]; unfold watch_line; cbn; [by rewrite Hc|done].
Qed.

Lemma silent_loop line_fuel fd start timelimit stop P : silent fd P -> forall fuel v s, P (chan s) ->
  master_alarmM (swicol s) = 0 -> w_cret v = 0 -> w_alarm_monitor v = false ->
  exists s', running (wait_loop fuel line_fuel fd start timelimit stop v) s s' /\ P (chan s') /\ swicol s' = swicol s.
Proof.
  intros Hsil. induction fuel as [|fuel IH]; intros v s HP Ha Hc Hm; [by exists s|].
  destruct (silent_round line_fuel fd stop P v s Hsil HP Ha Hc Hm) as (s2 & v2 & Hr & HP2 & Hsw & Hc2 & Hm2).
  destruct (IH v2 s2 HP2) as (s3 & R3 & HP3 & Hsw3); [by rewrite Hsw|done|done|]. exists s3. split; [|split; [done|congruence]].
  cbn [wait_loop]. unfold waits_on. rewrite Hc, Hm. cbn [negb andb Z.eqb orb]. by eapply running_later.
Qed.

(** C29: the limit of time is not kept while nothing comes. On a channel on which
    nothing comes and no alarm rings the wait for a task does not return, for
    any limit: after any number of rounds, each of which is defined, it is still
    in its loop, the channel is as silent as before and the collation unchanged. *)
Theorem silent_task_never_returns (fuel line_fuel : nat) (fd timelimit : Z) (stop : bytes) (P : W -> Prop) (s : colstate W) :
  silent fd P -> P (chan s) -> master_alarmM (swicol s) = 0 ->
  exists s', running (task_wait_for fuel line_fuel fd timelimit stop) s s' /\ P (chan s') /\ swicol s' = swicol s.
Proof.
  intros Hsil HP Ha.
  destruct (time (chan s)) as [w1 start] eqn:E1. pose proof (sil_time _ _ Hsil _ HP) as HP1. rewrite E1 in HP1. cbn in HP1.
  destruct (time w1) as [w2 start2] eqn:E2. pose proof (sil_time _ _ Hsil _ HP1) as HP2. rewrite E2 in HP2. cbn in HP2.
  destruct (silent_loop line_fuel fd start timelimit stop P Hsil fuel (mkWait [] [] start 0 false 0 false (-1))
    (at_chan (at_chan s w1) w2)) as (s' & R & H'); [done..|]. exists s'. split; [|done].
  unfold task_wait_for. eapply running_later; [by apply runs_call|]. cbv beta.
  eapply running_later; [by apply (runs_call _ _ w2 start2)|]. cbv beta. by apply running_now.
Qed.

(** ** A channel that delivers lines *)

(** The bytes come one after another. *)
Fixpoint reads_bytes (fd : Z) (l : bytes) (w w' : W) : Prop :=
  match l with
  | [] => w = w'
  | c :: l => exists w1, read_byte fd w = (w1, Byte c) /\ reads_bytes fd l w1 w'
  end.

(** One round that finds the line in time. *)
Record round_delivers (fd start timelimit : Z) (l : bytes) (w w' : W) : Prop := {
  rd_round : exists w1 w2 w3 now n, nanosleep w = (w1, false) /\ time w1 = (w2, now) /\ to_int (now - start) < timelimit
    /\ select fd w2 = (w3, SelReady n false true) /\ n <> 0 /\ reads_bytes fd l w3 w';
}.

Fixpoint delivers (fd start timelimit : Z) (ls : list bytes) (w w' : W) : Prop :=
  match ls with
  | [] => w = w'
  | l :: ls => exists w1, round_delivers fd start timelimit l w w1 /\ delivers fd start timelimit ls w1 w'
  end.

Lemma read_line_runs fd x : forall fuel buf n s w, no_newline x -> no_nul x -> (length x < fuel)%nat ->
  reads_bytes fd (x ++ nl) (chan s) w ->
  exists k, runs (read_line_loop fuel fd buf n) s (at_chan s w) (buf ++ x ++ nl, k).
Proof.
  induction x as [|c x IH]; intros [|fuel] buf n s w Hx Hn Hf Hr; cbn in Hf; try lia.
  - destruct Hr as (w1 & E & <-). exists (n + 1). cbn [read_line_loop].
    eapply runs_bind; [by apply runs_call|]. cbv beta iota. apply runs_ret.
  - apply not_elem_of_cons in Hx as [Hc Hx]. apply no_nul_cons in Hn as [Hc0 Hn]. destruct Hr as (w1 & E & Hr).
    destruct (IH fuel (buf ++ [c]) (n + 1) (at_chan s w1) w Hx Hn) as [k Hk]; [lia|done|]. exists k.
    cbn [read_line_loop]. eapply runs_bind; [by apply runs_call|]. cbv beta iota.
    assert (ceq c newline = false) as -> by (apply ceq_neq; intros ->; by apply Hc).
    assert (is_nul c = false) as -> by (by apply ceq_neq). by rewrite <- app_assoc in Hk.
Qed.

Lemma delivered_round fd start limit line_fuel stop l v s w : 0 < fd -> complete l -> no_nul l -> (length l <= line_fuel)%nat ->
  master_alarmM (swicol s) = 0 -> round_delivers fd start limit l (chan s) w ->
  exists now n, to_int (now - start) < limit /\ n <> 0 /\
  runs (wait_round line_fuel fd stop v) s (at_chan s w)
    (watch_line stop n (mkWait l (w_retbuf v) now (w_alarm_start v) (w_alarm_monitor v) (w_cret v) (w_do_stop v) (w_retval v))).
Proof.
  intros Hfd (x & -> & Hx) Hn Hl Ha [(w1 & w2 & w3 & now & n & E1 & E2 & Hlim & E3 & Hn0 & Hr)].
  exists now, n. split; [done|]. split; [done|].
  apply no_nul_app in Hn as [Hnx _]. rewrite length_app in Hl. cbn in Hl.
  destruct (read_line_runs fd x line_fuel [] 0 (at_chan s w3) w Hx Hnx ltac:(lia) Hr) as [k Hk].
  apply (quiet_round line_fuel fd stop v s w1 w2 now (at_chan s w)); [done..|].
  unfold swgpReadLine. eapply runs_bind; [by apply (runs_call _ (at_chan s w2) w3 (SelReady n false true))|].
  cbv beta iota. rewrite Z.gtb_ltb, (proj2 (Z.ltb_lt 0 fd)) by done. cbn [andb].
  eapply runs_bind; [exact Hk|]. cbv beta iota. apply runs_ret.
Qed.

(** Lines without the stop string are collected. *)
Lemma lines_collected fd start limit line_fuel stop ls : forall fuel v s w, 0 < fd ->
  Forall complete ls -> Forall no_nul ls -> Forall (fun l => length l <= line_fuel)%nat ls ->
  Forall (fun l => strstr l stop = None) ls ->
  master_alarmM (swicol s) = 0 -> delivers fd start limit ls (chan s) w ->
  w_alarm_monitor v = false -> w_do_stop v = false -> (w_cret v = 0 \/ to_int (w_now v - start) < limit) ->
  exists v', wait_loop (length ls + fuel) line_fuel fd start limit stop v s
      = wait_loop fuel line_fuel fd start limit stop v' (at_chan s w)
    /\ w_retbuf v' = w_retbuf v ++ concat ls /\ w_alarm_monitor v' = false /\ w_do_stop v' = false
    /\ (w_cret v' = 0 \/ to_int (w_now v' - start) < limit).
Proof.
  induction ls as [|l ls IH]; intros fuel v s w Hfd HL HN Hlen Hno Ha Hd Hm Hs Hc.
  - cbn in Hd. subst w. exists v. cbn. rewrite app_nil_r. split_and!; try done. by destruct s.
  - apply Forall_cons in HL as [Hl HL]. apply Forall_cons in HN as [Hn HN]. apply Forall_cons in Hlen as [Hle Hlen].
    apply Forall_cons in Hno as [Hst Hno]. destruct Hd as (w1 & Hr & Hd).
    destruct (delivered_round fd start limit line_fuel stop l v s w1 Hfd Hl Hn Hle Ha Hr) as (now & n & Hlim & Hn0 & Hrun).
    destruct (IH fuel (watch_line stop n (mkWait l (w_retbuf v) now (w_alarm_start v) (w_alarm_monitor v) (w_cret v) (w_do_stop v) (w_retval v)))
      (at_chan s w1) w) as (v' & E & Hb & Hrest); try done.
    + unfold watch_line. cbn [w_buf w_do_stop]. by rewrite Hst.
    + right. done.
    + exists v'. split.
      * cbn [length Nat.add wait_loop]. unfold waits_on. rewrite Hm, Hs. cbn [negb andb].
        assert ((w_cret v =? 0) || (to_int (w_now v - start) <? limit) = true) as ->.
        { apply orb_true_iff. destruct Hc; [left; by apply Z.eqb_eq|right; by apply Z.ltb_lt]. }
        erewrite runs_bind_eq by exact Hrun. cbv beta. exact E.
      * rewrite Hb. unfold watch_line. cbn [w_retbuf w_buf concat]. rewrite (proj2 (Z.eqb_neq n 0)) by done. cbn [negb].
        by rewrite <- app_assoc.
Qed.

(** ** The status of a task *)

Lemma end_line_complete d : complete (end_line d) /\ no_nul (end_line d).
Proof.
  split.
  - exists (SWICOL_STOP_STRING ++ decimal d). split; [by rewrite <- app_assoc|]. unfold no_newline. rewrite elem_of_app.
    intros [H1|H1]; [|by apply digits_without in H1]. apply list_elem_of_In in H1. by repeat destruct H1 as [?|H1].
  - unfold end_line. rewrite !no_nul_app. split_and!; [|apply decimal_no_nul|]; by apply (bool_decide_unpack _).
Qed.

(** The end of the task is found behind the other lines. *)
Lemma stop_found ls d : Forall complete ls -> Forall (fun l => strstr l SWICOL_STOP_STRING = None) ls ->
  strstr (concat ls ++ end_line d) SWICOL_STOP_STRING = Some (length (concat ls)).
Proof.
  assert (Hsep : ~ "010"%char ∈ SWICOL_STOP_STRING) by (by apply (bool_decide_unpack _)).
  induction ls as [|l ls IH]; intros HL HF.
  - apply strstr_0. by eexists.
  - apply Forall_cons in HL as [(x & -> & Hx) HL]. apply Forall_cons in HF as [Hl HF]. cbn [concat].
    rewrite <- !app_assoc. change (nl ++ ?y) with ("010"%char :: y).
    rewrite strstr_sep, (without_prefix _ _ _ Hl) by done. rewrite IH by done. cbn. f_equal. rewrite !length_app. cbn. lia.
Qed.

Lemma end_status_of_lines ls d retval : 0 <= d <= INT_MAX -> Forall complete ls ->
  Forall (fun l => strstr l SWICOL_STOP_STRING = None) ls -> end_status (concat ls ++ end_line d) retval = d.
Proof.
  intros Hd HL HF. unfold end_status. rewrite stop_found by done. rewrite drop_app_ge by lia.
  replace (length (concat ls) + 4 - length (concat ls))%nat with 4%nat by lia.
  change (drop 4 (end_line d)) with (decimal d ++ nl). rewrite (atoi2_decimal d nl) by done.
  assert (match decimal d ++ nl with c :: _ => isdigit c | [] => false end = true) as ->; [|done].
  rewrite decimal_digs. pose proof (digs_digits 20 d) as HD. destruct (digs 20 d) as [|c r] eqn:E; [by apply digs_nonempty in E; [|lia]|].
  by apply Forall_cons in HD as [? _].
Qed.

Lemma keep_events_runs xs s : Forall no_newline xs ->
  runs (keep_events (concat (with_newlines xs))) s
    (put_swicol (put_events (event_listM (swicol s) ++ xs ++ [nl]) (swicol s)) s) (zlen (event_listM (swicol s))).
Proof.
  intros HF. unfold keep_events. eapply runs_bind; [apply runs_gets|]. cbv beta. rewrite converted by done.
  eapply runs_bind; [apply runs_modify|]. cbv beta. apply runs_ret.
Qed.

(** The round that finds the end of the task ends the wait. *)
Lemma end_found fd start timelimit line_fuel d v s w fuel : 0 < fd -> 0 <= d < 10 -> (6 <= line_fuel)%nat ->
  master_alarmM (swicol s) = 0 -> round_delivers fd start timelimit (end_line d) (chan s) w ->
  w_alarm_monitor v = false -> w_do_stop v = false -> (w_cret v = 0 \/ to_int (w_now v - start) < timelimit) ->
  exists v', runs (wait_loop (S (S fuel)) line_fuel fd start timelimit SWICOL_STOP_STRING v) s (at_chan s w) v'
    /\ w_retbuf v' = w_retbuf v ++ end_line d /\ w_do_stop v' = true /\ w_retval v' = 0 /\ w_alarm_monitor v' = false.
Proof.
  intros Hfd Hd H6 Ha Hend Hm Hds Hc. destruct (end_line_complete d) as [Hec Hen].
  destruct (delivered_round fd start timelimit line_fuel SWICOL_STOP_STRING (end_line d) v s w)
    as (now & n & Hlim & Hn0 & Hrun); try done.
  { assert (zlen (end_line d) <= 6) as Hz; [|unfold zlen in Hz; lia]. unfold end_line. rewrite !zlen_app.
    change (zlen SWICOL_STOP_STRING) with 4. change (zlen nl) with 1.
    assert (zlen (decimal d) <= 1) by (apply ndigits_le; lia). lia. }
  set (v2 := watch_line _ _ _) in Hrun. exists v2.
  assert (strstr (end_line d) SWICOL_STOP_STRING = Some O) as Hst by (apply strstr_0; by eexists).
  assert (w_do_stop v2 = true /\ w_cret v2 <> 0) as [R2 R5].
  { subst v2. unfold watch_line. cbn [w_buf w_cret w_do_stop]. rewrite Hst, drop_0, one_digit_stops by done.
    split; [done|]. by destruct (Z.eqb_spec (w_cret v) 0). }
  split_and!; [|subst v2; unfold watch_line; cbn [w_buf w_retbuf w_retval w_alarm_monitor w_do_stop];
    rewrite ?Hst, ?drop_0, ?one_digit_stops, ?(proj2 (Z.eqb_neq n 0)) by done; done..].
  cbn [wait_loop]. unfold waits_on at 1. rewrite Hm, Hds. cbn [negb andb].
  assert ((w_cret v =? 0) || (to_int (w_now v - start) <? timelimit) = true) as ->.
  { apply orb_true_iff. destruct Hc; [left; by apply Z.eqb_eq|right; by apply Z.ltb_lt]. }
  eapply runs_bind; [exact Hrun|]. cbv beta. unfold waits_on. rewrite R2, (proj2 (Z.eqb_neq _ 0)) by done.
  rewrite andb_false_r. apply runs_ret.
Qed.

(** The whole wait: the text has all the lines. *)
Lemma wait_finds_end fuel line_fuel fd timelimit start ls d s w w0 w1 w2 t :
  0 < fd -> 0 <= d < 10 -> master_alarmM (swicol s) = 0 -> time (chan s) = (w0, start) -> time w0 = (w1, t) ->
  Forall complete ls -> Forall no_nul ls -> Forall (fun l => length l <= line_fuel)%nat ls -> (6 <= line_fuel)%nat ->
  Forall (fun l => strstr l SWICOL_STOP_STRING = None) ls ->
  delivers fd start timelimit ls w1 w2 -> round_delivers fd start timelimit (end_line d) w2 w ->
  (length ls + 2 <= fuel)%nat ->
  runs (task_wait_for fuel line_fuel fd timelimit SWICOL_STOP_STRING) s (at_chan s w) (concat ls ++ end_line d, 0).
Proof.
  intros Hfd Hd Ha Ht1 Ht2 HL HN Hlen H6 Hno Hdel Hend Hfuel.
  destruct (lines_collected fd start timelimit line_fuel SWICOL_STOP_STRING ls (S (S (fuel - length ls - 2)))
    (mkWait [] [] start 0 false 0 false (-1)) (at_chan s w1) w2) as (v1 & Eloop & Hbuf & Hm & Hds & Hc); try done; [by left|].
  destruct (end_found fd start timelimit line_fuel d v1 (at_chan s w2) w (fuel - length ls - 2)) as (v2 & Hrun & R1 & R2 & R3 & R4);
    try done.
  replace (length ls + S (S (fuel - length ls - 2)))%nat with fuel in Eloop by lia.
  unfold task_wait_for. eapply runs_bind; [by apply (runs_call _ s w0 start)|]. cbv beta.
  eapply runs_bind; [by apply (runs_call _ (at_chan s w0) w1 t)|]. cbv beta.
  eapply runs_bind; [unfold runs; change (at_chan (at_chan s w0) w1) with (at_chan s w1); rewrite Eloop; exact Hrun|].
  cbv beta. eapply runs_bind; [apply runs_gets|]. cbv beta. cbn [at_chan swicol].
  rewrite R1, R2, R3, R4, Ha, Hbuf. apply runs_ret.
Qed.

(** C16: a task returns the status that its script ended with. When the channel
    delivers lines of other events and then the end of the task with a status of
    one digit, each of them in time, the wait returns this status, and the list
    of events has these lines, which the index of current events points to. *)
Theorem task_status_returned (fuel line_fuel : nat) (util : bytes) (fd timelimit start : Z) (xs : list bytes) (d : Z)
    (s : colstate W) (w w0 w1 w2 : W) (t : Z) :
  0 < fd -> 0 <= d < 10 -> master_alarmM (swicol s) = 0 -> verbose_levelM (swicol s) < SWC_VERBOSE_8 ->
  time (chan s) = (w0, start) -> time w0 = (w1, t) ->
  Forall no_newline xs -> Forall no_nul xs -> Forall (fun x => length x < line_fuel)%nat xs -> (6 <= line_fuel)%nat ->
  Forall (fun x => strstr (x ++ nl) SWICOL_STOP_STRING = None) xs ->
  delivers fd start timelimit (with_newlines xs) w1 w2 -> round_delivers fd start timelimit (end_line d) w2 w ->
  (length xs + 2 <= fuel)%nat ->
  exists s', runs (swicol_rpsh_task_expect fuel line_fuel util fd timelimit) s s' d
    /\ event_listM (swicol s') = event_listM (swicol s) ++ xs ++ [SWICOL_STOP_STRING ++ decimal d; nl]
    /\ event_indexM (swicol s') = zlen (event_listM (swicol s)).
Proof.
  intros Hfd Hd Ha Hv Ht1 Ht2 HX HN Hlen H6 Hno Hdel Hend Hfuel.
  assert (runs (swicol_rpsh_task_wait fuel line_fuel fd timelimit) (put_swicol (put_index (-1) (swicol s)) s)
    (at_chan (put_swicol (put_index (-1) (swicol s)) s) w) (concat (with_newlines xs) ++ end_line d, 0)) as Hwait.
  { apply (wait_finds_end fuel line_fuel fd timelimit start (with_newlines xs) d _ w w0 w1 w2 t); try done.
    - apply Forall_fmap. eapply Forall_impl; [exact HX|]. intros x Hx. by exists x.
    - apply Forall_fmap. eapply Forall_impl; [exact HN|]. intros x Hx. apply no_nul_app. split; [done|by apply (bool_decide_unpack _)].
    - apply Forall_fmap. eapply Forall_impl; [exact Hlen|]. intros x Hx. cbn in Hx |- *. rewrite length_app. cbn. lia.
    - by apply Forall_fmap.
    - unfold with_newlines. rewrite length_fmap. lia. }
  assert (Forall no_newline (xs ++ [SWICOL_STOP_STRING ++ decimal d])) as HX'.
  { apply Forall_app. split; [done|]. constructor; [|done]. unfold no_newline. rewrite elem_of_app.
    intros [Hi|Hi]; [|by apply digits_without in Hi]. apply list_elem_of_In in Hi. by repeat destruct Hi as [?|Hi]. }
  eexists. split.
  - unfold swicol_rpsh_task_expect. eapply runs_bind; [apply runs_modify|]. cbv beta.
    eapply runs_bind; [exact Hwait|]. cbv beta iota.
    rewrite end_status_of_lines; [|unfold INT_MAX; lia|apply Forall_fmap; eapply Forall_impl; [exact HX|]; intros x Hx; by exists x|by apply Forall_fmap].
    assert (concat (with_newlines xs) ++ end_line d = concat (with_newlines (xs ++ [SWICOL_STOP_STRING ++ decimal d]))) as ->.
    { unfold with_newlines. rewrite fmap_app, concat_app. cbn [fmap list_fmap concat]. rewrite app_nil_r.
      unfold end_line. by rewrite <- app_assoc. }
    eapply runs_bind; [by apply keep_events_runs|]. cbv beta. eapply runs_bind; [apply runs_gets|]. cbv beta.
    cbn [put_swicol put_index put_events put_fields at_chan swicol verbose_levelM]. rewrite Z.geb_leb, (proj2 (Z.leb_gt _ _)) by done.
    eapply runs_bind; [apply runs_ret|]. cbv beta. eapply runs_bind; [apply runs_modify|]. cbv beta. apply runs_ret.
  - cbn. by rewrite <- app_assoc.
Qed.
End Rounds.

(** ** Two channels *)

Module Witness.
(** A clock that goes on, and what is still to come. *)
Definition host : Type := Z * bytes.

#[local] Instance host_channel : Channel host := {|
  time w := let t := fst w + 1 in ((t, snd w), t);
  nanosleep w := (w, false);
  select fd w := (w, match snd w with [] => SelNothing | _ => SelReady 1 false true end);
  read_byte fd w := match snd w with [] => (w, AtEnd) | c :: r => ((fst w, r), Byte c) end;
  write_all fd t w := (w, zlen t);
  save_file name t w := (w, 0);
|}.

Definition collator : SWICOL := mkSWICOL 1 [L "318:0"; nl] None None None 0 1 None 0 [] [] [] 0 0 3 [] 0.
Definition start_of (t : bytes) : colstate host := mkCol collator empty_pool (0, t).

Lemma nothing_comes : silent 3 (fun w : host => snd w = []).
Proof. split; intros [t b]; cbn; intros ->; done. Qed.

(** The clock of this host goes on by one in each round: the limit of 20 is long over. *)
Lemma silent_task_never_returns_witness :
  exists s', running (task_wait_for 1000 10 3 20 SWICOL_STOP_STRING) (start_of []) s' /\ snd (chan s') = [] /\ swicol s' = collator.
Proof. apply (silent_task_never_returns 1000 10 3 20 SWICOL_STOP_STRING (fun w => snd w = []) (start_of [])); [apply nothing_comes|done|done]. Defined.

Lemma bytes_come fd x : forall t r, reads_bytes fd x (t, x ++ r) (t, r).
Proof. induction x as [|c x IH]; intros t r; [done|]. exists (t, x ++ r). split; [done|apply IH]. Qed.

Lemma line_comes x t r limit : 0 <= t < INT_MAX -> t <= limit -> x <> [] ->
  round_delivers 3 1 (limit + 1) x (t, x ++ r) (t + 1, r).
Proof.
  intros Ht Hl Hx. split. exists (t, x ++ r), (t + 1, x ++ r), (t + 1, x ++ r), (t + 1), 1. split_and!; try done.
  - rewrite to_int_id by (unfold INT_MAX in *; lia). lia.
  - cbn. by destruct x.
  - apply bytes_come.
Qed.

(** An event, then the end of the task with the status 3. *)
Lemma task_status_returned_witness : exists s',
  runs (swicol_rpsh_task_expect 3 100 (L "swcopy") 3 21) (start_of (L "304:unpack" ++ nl ++ end_line 3)) s' 3
  /\ event_listM (swicol s') = [L "318:0"; nl; L "304:unpack"; L "305:3"; nl] /\ event_indexM (swicol s') = 2.
Proof.
  apply (task_status_returned 3 100 (L "swcopy") 3 21 1 [L "304:unpack"] 3 (start_of (L "304:unpack" ++ nl ++ end_line 3))
    (4, []) (1, L "304:unpack" ++ nl ++ end_line 3) (2, L "304:unpack" ++ nl ++ end_line 3) (3, end_line 3) 2);
    try done; try lia.
  - repeat constructor. by apply (bool_decide_unpack _).
  - repeat constructor. by apply (bool_decide_unpack _).
  - repeat constructor; cbn; lia.
  - repeat constructor.
  - exists (3, end_line 3). split; [|done]. apply (line_comes (L "304:unpack" ++ nl) 2 (end_line 3) 20); [unfold INT_MAX; lia|lia|done].
  - rewrite <- (app_nil_r (end_line 3)) at 2. apply (line_comes (end_line 3) 3 [] 20); [unfold INT_MAX; lia|lia|done].
Defined.

(** A task that ends with 12 is waited for until the limit, and only then its
    status is returned: the clock of this host stands at the limit. *)
Example two_digits_wait_for_the_limit :
  match swicol_rpsh_task_expect 30 100 (L "swcopy") 3 21 (start_of (end_line 12)) with
  | Some (Done s' d) => d = 12 /\ fst (chan s') = 22
  | _ => False
  end.
Proof. by vm_compute. Qed.
End Witness.
